(* ===== verification/_CoqProject ===== *)
-Q . S2P
Prelude.v
JsNum.v
Bytes.v
Reader.v
Constants.v
Batch.v
ProtocolEncode.v
BinaryReader.v
Transactions.v
Instructions.v
Events.v
EventsWire.v
EventsCorrect.v
ChainCodec.v
Limiter.v
Nonce.v
Updates.v
Sessions.v
SessionsCorrect.v
Handlers.v
HandlersCorrect.v
LiveTable.v
LiveTableCorrect.v
GameState.v
GameStateCorrect.v
WebBets.v
Arith.v
ChainMove.v
Roulette.v
SicBo.v
Craps.v
CrapsCorrect.v
WebNonce.v
WebNonceCorrect.v
TableSlips.v
CrapsSlip.v
BatchCorrect.v
Decode.v
WebState.v
WebStateCorrect.v
CardTables.v
CardTablesCorrect.v
Calendar.v
Ops.v
OpsCorrect.v
OpsPush.v
OpsPushCorrect.v
OpsKpis.v
Convex.v
RateBuckets.v
AuthUtils.v
Accounts.v
Stripe.v
AuthService.v
AccountsCorrect.v
AuthServiceCorrect.v
StripeCorrect.v
Freeroll.v
Json.v
JsValues.v
RouletteLog.v
MobileSocket.v
MobileSocketCorrect.v
MobileStorage.v
MobileSession.v
MobileSessionCorrect.v
Vault.v
VaultCorrect.v
MobileEntitlements.v
WebGame.v
WebSession.v
WebSessionCorrect.v
GameLogs.v
GameLogsCorrect.v
BlackjackAdvice.v
BlackjackAdviceCorrect.v
Schemas.v
GatewayMessages.v
GatewayServer.v
GatewayServerCorrect.v
