(* ===== verification/Prelude.v ===== *)
(** * Verification of the nullsociety gateway and protocol packages

    nullsociety is an on-chain casino.  Its chain, node and execution layer are
    written in Rust; its client side is TypeScript: the shared packages
    ([packages/constants], [packages/protocol], [packages/game-state]), the gateway ([gateway/src]) that
    turns the JSON messages of mobile clients into signed transactions and the
    chain's binary updates into answers, the website, the mobile app, and the
    auth and ops services.  This development models the gateway, the packages it
    is built on, of the website its betting slips and card games with the session
    they belong to, the transactions it sends, the events and states it reads and
    the amounts it shows, compared with the moves and the settlement of the chain,
    of the mobile app its connection, storage, keys and game sessions, and the two
    services with the database functions they call.

    ** How the parts interact

    The server of the gateway ([GatewayServer]) runs connections and messages one
    event at a time.  A client connects; [Limiter] decides about the connection
    and [Sessions] creates a session with a fresh key, registers it and opens its
    updates stream.  A message of the client is read as JSON ([Json]), checked
    against the schemas of the protocol ([Schemas]), turned into a request
    ([GatewayMessages]) and given to the handler of its game
    ([Handlers]), which encodes a payload ([Constants], [ProtocolEncode]), wraps
    it in an instruction ([Instructions]) and a signed transaction
    ([Transactions]) with the nonce of the key ([Nonce]), submits it, and waits
    on the updates client ([Updates]) for the event it causes.  The updates are
    decoded from bytes ([Reader], [BinaryReader], [Events]), and the answer is
    written as JSON ([GatewayMessages]).  The live craps
    table ([LiveTable]) is a player of its own: it drives the rounds with
    administrative transactions and sends its events on to the subscribers.  The
    state of a game reaches the apps as a blob, which [GameState] parses.  The
    website talks to the chain itself: a player stages bets ([TableSlips],
    [CrapsSlip]), the slip is serialized ([WebBets]) into an instruction
    ([ChainCodec]) that [WebNonce] signs, queues and submits, and the events of
    the chain come back ([ChainCodec]); the card games send their moves directly
    ([CardTables]), and the states of all games are shown by [WebState].  The
    session ties them together ([WebGame], [WebSession]): it starts a game, follows
    the events of the chain, plays the bets that were waiting and closes the game
    with its result.  The text that the chain writes into the log of a finished
    game ([RouletteLog]) is what the site shows of it, bet by bet ([GameLogs]).  The
    site also computes exposures and payouts of the table games before the chain
    settles them ([Roulette], [SicBo], [Craps]) and advises the player of a
    blackjack hand ([BlackjackAdvice]).  The clients report events to the ops
    service ([Ops]), which keeps boards and referrals, sends push messages and
    campaigns ([OpsPush]) and computes key figures ([OpsKpis]).  Players sign in
    with the auth service ([AuthService]), whose handlers are programs over the
    functions of a database ([Convex], [Accounts]); subscriptions become
    entitlements ([Stripe]), and entitlements tournament limits ([Freeroll]).
    The mobile app is the client of the gateway: [MobileSocket] keeps the
    connection, [MobileSession] turns its messages into what the screens show,
    [MobileStorage] keeps preferences and balances, and [Vault] the keys with which
    the app proves who it is to the auth service ([MobileEntitlements]).

    ** Files

    - [Prelude]: exceptions as the [result] monad, lengths, sums, decimal
      numbers, the tactics and hint databases of the development.
    - [JsNum]: the 32-bit operators and [Number(bigint)].
    - [Bytes]: [Uint8Array], [DataView], text encoding, slices.
    - [Batch]: stores into fresh arrays, and batches of fixed-width entries.
    - [Reader]: the state-and-exception monad of the readers, and [reads], the
      statement that a reader consumes exactly some bytes to give a value.
    - [Constants]: [packages/constants/src/*.ts] and the game types.
    - [ProtocolEncode]: [packages/protocol/src/encode.ts], [games/*.ts] and
      [schema/base.ts].
    - [BinaryReader], [Events]: [gateway/src/codec/events.ts]; [EventsWire] gives
      the wire format of an update as a function from an abstract update to
      bytes, [EventsCorrect] relates the two.
    - [Transactions], [Instructions]: [gateway/src/codec/transactions.ts],
      [constants.ts] and [instructions.ts].
    - [Limiter], [Nonce], [Sessions]: [gateway/src/session/*.ts], with
      [backend/http.ts] for the submission; [SessionsCorrect] their theorems.
    - [Updates]: [gateway/src/backend/updates.ts].
    - [Handlers], [HandlersCorrect]: [gateway/src/handlers/*.ts].
    - [LiveTable], [LiveTableCorrect]: [gateway/src/live-table/craps.ts].
    - [Schemas]: [packages/protocol/src/schema/mobile.ts], with the library the
      schemas are written in as an interface and its documented laws.
    - [GatewayMessages]: the switches of [gateway/src/handlers/*.ts], the responses
      of [handlers/base.ts] and of the live table as JSON, [ops.ts], and
      [parseGameLog] of [codec/events.ts].
    - [GatewayServer]: [gateway/src/index.ts]; [GatewayServerCorrect] the theorems
      about its runs.
    - [GameState]: [packages/game-state/src/index.ts]; [GameStateCorrect] gives
      the layouts of the state blobs and relates the two.
    - [WebBets]: [website/src/services/games/serialization.ts] and
      [validation.ts], the bet serializers of the website.
    - [Arith]: amounts, exact in the numbers of the website and in the 64-bit
      saturating arithmetic of the chain; sums and maxima over outcomes.
    - [ChainMove]: the errors of a move of the chain, its shared parsers
      ([execution/src/casino/payload.rs]) and the loop over an atomic batch.
    - [Roulette], [SicBo], [Craps]: the exposure and payout helpers of
      [website/src/utils/gameUtils.ts], beside the settlement of the chain in
      [execution/src/casino/*.rs], of roulette also the atomic batch with its super
      round; [CrapsCorrect] relates the two for craps.
    - [ChainCodec]: [website/src/services/CasinoChainService.serializers.js], and
      what the chain writes ([types/src/execution.rs]).
    - [WebNonce], [WebNonceCorrect]: [website/src/api/nonceManager.js].
    - [TableSlips]: [website/src/hooks/games/useRoulette.ts], [useSicBo.ts] and
      [useBaccarat.ts].
    - [CrapsSlip]: [website/src/hooks/games/useCraps.ts] and [crapsHelpers.ts],
      beside the place and odds moves of [execution/src/casino/craps.rs].
    - [BatchCorrect]: the batch moves of [execution/src/casino/roulette.rs],
      [craps.rs], [sic_bo.rs] and [baccarat.rs] up to the spin, the roll or the
      deal, and what they read from the payloads of [ProtocolEncode].
    - [Decode]: [packages/protocol/src/decode.ts].
    - [WebState], [WebStateCorrect]: [website/src/services/games/state/*.ts].
    - [CardTables], [CardTablesCorrect]: the hooks of the card games,
      [website/src/hooks/games/*.ts], and the deal button,
      [hooks/terminalGame/actions/useDeal.ts].
    - [Calendar]: [services/ops/src/utils.ts].
    - [Ops], [OpsPush], their [Correct] files, and [OpsKpis]:
      [services/ops/src/server.ts].
    - [Convex]: the interface of the database, with its laws and an instance.
    - [Accounts], [Stripe]: [website/convex/*.ts]; [AccountsCorrect] and
      [StripeCorrect] their theorems.
    - [AuthUtils], [RateBuckets], [AuthService]: [services/auth/src/utils.ts] and
      [server.ts]; [AuthServiceCorrect] the theorems about the running service.
    - [Freeroll]: [services/auth/src/casinoAdmin.ts].
    - [WebGame], [WebSession]: [website/src/hooks/useTerminalGame.ts] and
      [hooks/terminalGame]: the state, and the handlers as steps over it, with the
      roll of [hooks/games/useCraps.ts] and the loading of the page of
      [useChainInit.ts];
      [WebSessionCorrect] the theorems about its runs.
    - [GameLogs], [GameLogsCorrect]: the readers of the logs of finished games, in
      [website/src/utils/gameUtils.ts] and [services/games/crapsLogs.ts];
      [RouletteLog]: the writer, [execution/src/casino/roulette.rs]
      ([generate_roulette_logs]) with [logging.rs].
    - [BlackjackAdvice], [BlackjackAdviceCorrect]:
      [website/src/utils/blackjackAnalysis.ts].
    - [Json], [JsValues]: [JSON.parse] and [JSON.stringify] on text, and what the
      apps do with values that may be anything (truth, fields, text, numbers).
    - [MobileSocket], [MobileSocketCorrect]: [mobile/src/services/websocket.ts].
    - [MobileStorage]: [mobile/src/services/storage.ts].
    - [MobileSession], [MobileSessionCorrect]: [mobile/src/hooks/useGatewaySession.ts],
      [useAppState.ts] and [useChipBetting.ts].
    - [Vault], [VaultCorrect]: [mobile/src/services/vault.ts] and [crypto.ts];
      [MobileEntitlements] joins [services/entitlements.ts] to [AuthService].

    Definitions carry the names of the source; a record corresponds to the class
    or interface of its name, split where a class has independent groups of
    fields (the live table's round, books, settlement and subscribers, the
    session's identity, account, game and streams).

    ** What the theorems show

    - Encodings: the batch moves of the chain read from an atomic batch the bets
      that the request means ([atomic_batch_roundtrip]); atomic batches and gateway
      moves read back, in the documented format, as what was submitted
      ([atomic_batch_reads_back], [gateway_move_faithful]); what the encoders refuse ([atomic_batch_accepts]);
      the website's serializers write the same payloads ([web_batch_agrees]).
    - Codec: both decoders return exactly the valid events of every well-formed
      update ([decode_update]); only valid events are passed on whatever the
      bytes ([extracted_events_valid]); transactions verify, are skipped exactly
      and round-trip ([transaction_verifies], [gateway_transactions_skipped],
      [varint_roundtrip], [submission_layout], [round_lookup]).
    - Sessions: caps and rate limits ([limiter_caps], [session_rate_limited]),
      the indexes of the manager ([manager_indexed]), nonces and the retry
      ([submissions_disciplined], [issued_nonces], [withLock_exclusive]).
    - Server, for every order of connections, closes, messages and answers:
      connections, sessions, slots and seats agree ([server_consistent]); what the
      schemas accept is a request in range for the handler of its game
      ([message_dispatched]); each message is answered once, with an error behind a
      response that cannot be tracked ([message_answered]),
      and leaves the other clients alone ([clients_isolated]).
    - Games: what a start and a move do to a session on every path
      ([startGame_outcome], [makeMove_outcome]); waits are sound and complete
      ([waits_sound], [waits_complete]).
    - Live table: the totals are the bets and what the chain announced
      beyond them ([totals_consistent]), the
      subscriber index is exact in every reachable state
      ([subscribers_indexed]), messages reach exactly their sockets
      ([sendToPlayer_delivers]), bets are checked ([placeBets_sound]),
      administrative transactions are spaced ([admin_attempts_spaced]).
    - Website and chain: the events of the chain are read back exactly
      ([web_event_roundtrip]); submissions are sequential and follow the account
      ([submissions_sequential], [sync_follows_chain]); slips keep their wager
      ([slip_wager]), are sent once ([spin_submits]) and stay within the chips
      ([craps_stakes_covered]); the chain takes the bets that can be staged, or
      refuses them for one of four reasons ([staged_bet_accepted]).
    - State blobs: the parser of each game inverts the layouts of its states
      ([state_roundtrip]), and returns only well-formed states whatever the bytes
      ([parsed_well_formed]).
    - Logs and advice: what the chain logs of a spin is shown with its bets, its
      total and its result ([spin_shown]); the bets of a log can be told apart
      ([bets_have_ids]), and corrected to the change of the chips they come to it up
      to a hundredth or half a chip a bet ([adjusted_close]).  The simulation behind
      the advice for a blackjack hand ends, its estimates lie within what the play
      can bring, and the advice is the best of them ([advice_sound]).
    - Display and settlement: the exposure the website shows for a roulette or
      sic bo outcome is what the chain pays ([exposure_is_settlement],
      [sicbo_exposure_is_payout]), for roulette bets placed one by one up to the
      zero rules ([spin_settlement]); the craps helpers are the payouts of the
      chain but for a listed part ([craps_display]), which differs
      ([ats_display]); the loop that counts bits ends ([countBits_terminates]).
    - Card games and display: the moves sent are those of the protocol package
      ([web_moves_agree]) and go out one at a time ([actions_disciplined]); what
      is shown of a state hides what is to be hidden ([dealer_hidden]), shows
      every hand once ([blackjack_hands_shown]) and does not change when it is
      shown again ([refresh_idempotent]); the decoder inverts the format
      ([decode_roundtrip]) and never reads outside ([decode_no_range_error]).
    - Ops service: boards are a recount of the events ([boards_recount]), weeks
      have one key each ([week_key_iso]), referrals stay linked
      ([referrals_linked]); campaigns are tried once ([campaigns_once],
      [tick_refines]); days are read back completely ([range_complete]) and the
      figures fit together ([kpis_ordered]).
    - Auth service, for every interleaving of its requests: nobody is let in
      without a challenge of their own, which is good once
      ([challenge_single_use]); the tables stay consistent
      ([accounts_consistent]); a wallet changes at most once a week
      ([evm_cooldown]) and signs for one link only ([evm_message_injective]);
      rate limits do not interfere ([buckets_isolated]).  Subscriptions decide
      the entitlements ([entitlements_follow]), events count once
      ([event_applied_once]), the checkout asks for safe sessions
      ([checkout_safe]); the administrator's nonces are consecutive
      ([nonces_consecutive]).
    - Session of the website, for every order of presses, events and answers:
      moves go to sessions that were started or restored ([moves_follow_starts]), the books
      agree ([books_agree]), a game that ends is settled ([completed_settles]), a
      start without an answer ends ([no_answer_recovers]), and a first press plays
      exactly the bets shown ([first_play]).
    - Mobile app: one socket at a time ([one_live_socket]) that is retried and
      given up as documented ([quiet_connection], [gives_up]); effects that come to
      rest ([effects_settle]); a vault that gives back its keys and signs only as
      the key shown ([vault_roundtrip], [signs_as_shown]), and signatures that the
      auth service accepts ([mobile_handshake]).
    - Defects, proved as theorems about what the code does: connections that are
      never given back ([early_close_leaks]), claims that are not validated
      ([claim_not_validated]), games announced without an id
      ([ended_deal_unnamed]), an option that becomes zero ([option_below_one]), events that are
      answered twice ([stale_event_replayed], [stale_completion],
      [stale_start]), a lock that admits two holders ([withLock_three_callers]),
      events read out of transactions ([fallback_trusts_payloads]), a table that
      stops ([settlement_in_flight_blocks]), a game that cannot be left
      ([craps_fraction_sticks]), a cooldown that can be passed ([faucet_race]),
      lengths and codes that wrap ([readVec_backwards], [betType_aliases]),
      a snapshot read short ([chain_event_hides_next], [settled_bets_lost]),
      submissions that are lost, fail together or skip a nonce
      ([failed_submission_forgotten], [failure_fails_queue], [queue_race],
      [early_execution_skips]), a wager that counts undone bets
      ([undo_keeps_wager]), odds on another bet than the chosen one
      ([odds_go_to_last]), bets sent twice ([failed_roll_resends],
      [second_press_rolls_again]), bets that slip into the next round
      ([late_bet_remembered]), odds the
      chain pays for ([odds_mint_chips]), a war that cannot be fought
      ([failed_war_sticks]), updates, campaigns and codes that are lost
      ([concurrent_updates], [campaigns_race], [exhausted_code_stolen]), players
      who are always new ([new_users_all]), keys and addresses that nobody can
      use any more ([sign_in_breaks_links], [evm_address_stuck]), limits that
      are forgotten ([eviction_forgets], [relinking_skips_cooldown]), a
      subscription that is not reconciled ([reconcile_skipped]), a nonce used
      twice ([fallback_reuses_nonce]), starts of the website that are never given
      up, dropped while they run or played without a press ([rank_stops_timer],
      [older_answer_blocks], [failed_query_drops_live], [failed_start_drops_other],
      [stale_draft_plays]), logs without a number that are shown as zero
      ([missing_number_is_zero]), advice that pays split hands as naturals and
      recommends the insurance ([split_paid_as_natural], [insurance_advised]), and on the phone a connection that nobody closes
      ([zombie_connection]) and a key that an import deletes ([import_drops_key]).

    ** Conventions

    Numbers are [Z], and so are the amounts of table bets, which the website
    takes from 64-bit integers; widths are written out where the source has them (the
    32-bit operators, [DataView] stores modulo 2^64, [Uint8Array] stores modulo
    256); the amounts of JSON messages are rationals in [Handlers].  Strings are
    the bytes of their UTF-8 form.  A function that may throw returns a
    [result]; a method is a function from the state of its object.  Objects that
    the source shares are looked up in the one state that holds them.  A [Map]
    or [Set] is a list where its insertion order shows and a [gmap] or [gset]
    where it does not.  Time, randomness, socket states, the answers of the
    backend and the interleaving of asynchronous steps are inputs, over which
    the theorems quantify.  Ed25519 and SHA-256 are the class [Crypto] with the
    documented laws [CryptoLaws]; [toy_crypto] is an instance.  The library that
    parses messages by a schema is the class [Zod] with [ZodLaws] and the instance
    [zod_documented].  The database is
    the class [Convex] with [ConvexLaws], of which [list_convex] is an instance;
    signatures and addresses of the auth service are the class [AuthLib].

    Fuel occurs in the varint loops, in the loop that counts the bits of a mask
    and in the hexadecimal digits of a hash.  The second has 33 rounds, one more than a 32-bit operand has bits
    ([countBits_terminates]).  The varint loops have six rounds for the writer and the
    sizer, and six for the reader, which stops at the sixth byte anyway; values
    below 2^32 take five ([encodeVarint_spec], [reads_readVarint]).  The reader of
    the website stops by itself after nine bytes, its rounds; the digits are
    those of a 32-bit number, at most eight, of sixteen
    ([computeTxHash_length]).  The parser of JSON takes the length of its text,
    which is enough for every text ([parse_enough]); the hands and the dealer's
    draws of the blackjack advice end after [rounds] cards ([hand_ends],
    [dealer_ends]).  All other recursion is structural.

    ** Not modelled

    The files of the gateway's nonce manager, the WebSocket and HTTP transport with
    their timers, log output and telemetry, the bots, presence reports and admin
    key of the live table and the batching of its broadcasts; in [GatewayServer]
    the nonces that the live table takes for its own transactions, and the
    interleaving of several messages while they wait for the backend, which
    [Nonce] and [Handlers] have; of the website the rendering, super mode, the
    switches of the modifiers, the totals of the house, the leaderboard, tournaments,
    bots, the HTTP client and the
    WebAssembly module; of the mobile app the screens, analytics, notifications,
    haptics and biometrics; of the services HTTP itself, metrics, logs, the economy
    snapshot and the search for the administrator's key; and of the chain
    everything but the moves, the settlements and the roulette log named above; the
    second spin of imprisoned roulette bets is not among them.

    Three idealisations are known.  [Json] keeps numbers as exact rationals, so a
    number beyond the range of a double is not infinite.  A ciphertext of the
    vault decrypts under another key to nothing or to what was encrypted
    ([Vault]'s law of the cipher), which an authenticated cipher promises up to
    deliberate collisions.  [MobileEntitlements] runs the two requests of the
    handshake one after the other, without the rate limit, which [AuthService]
    and [RateBuckets] have. *)

From Stdlib Require Export ZArith Lia.
From stdpp Require Export base tactics option list numbers strings gmap.

#[global] Open Scope Z_scope.

(** ** Exceptions

    A TypeScript function that may [throw] returns a [result]: the value, or
    the message of the [Error] it throws.  The monad operations are stdpp's, so
    that [x ← m; k] reads like the statement sequence of the source. *)

Inductive result (A : Type) : Type :=
| Ok (a : A)
| Throw (msg : string).

Arguments Ok {A} a.
Arguments Throw {A} msg.

#[export] Instance result_ret : MRet result := fun A a => Ok a.

#[export] Instance result_bind : MBind result := fun A B f m =>
  match m with
  | Ok a => f a
  | Throw e => Throw e
  end.

#[export] Instance result_fmap : FMap result := fun A B f m =>
  match m with
  | Ok a => Ok (f a)
  | Throw e => Throw e
  end.

(** [if (b) throw new Error(msg)]. *)
Definition throw_if (b : bool) (msg : string) : result unit :=
  if b then Throw msg else Ok tt.

(** [try { m } catch { return d }]. *)
Definition catch {A} (m : result A) (d : A) : A :=
  match m with
  | Ok a => a
  | Throw _ => d
  end.

Definition is_ok {A} (m : result A) : bool :=
  match m with
  | Ok _ => true
  | Throw _ => false
  end.

(** ** Automation

    [js] is the database of computation rules used with [autorewrite]; [js] as
    a resolution database collects the side conditions. *)

Create HintDb js.
Create Rewrite HintDb js.

(** Case analysis on the head test of a goal or hypothesis. *)
Ltac split_if :=
  match goal with
  | |- context [if ?b then _ else _] => destruct b eqn:?
  | H : context [if ?b then _ else _] |- _ => destruct b eqn:?
  end.

(** Turn the boolean comparisons of the context into propositions. *)
Ltac bprop :=
  repeat match goal with
  | H : (_ && _)%bool = true |- _ => apply andb_true_iff in H as [? ?]
  | H : (_ || _)%bool = false |- _ => apply orb_false_iff in H as [? ?]
  | H : negb _ = true |- _ => apply negb_true_iff in H
  | H : negb _ = false |- _ => apply negb_false_iff in H
  | H : (_ =? _) = true |- _ => apply Z.eqb_eq in H
  | H : (_ =? _) = false |- _ => apply Z.eqb_neq in H
  | H : (_ <? _) = true |- _ => apply Z.ltb_lt in H
  | H : (_ <? _) = false |- _ => apply Z.ltb_ge in H
  | H : (_ <=? _) = true |- _ => apply Z.leb_le in H
  | H : (_ <=? _) = false |- _ => apply Z.leb_gt in H
  | H : bool_decide _ = true |- _ => apply bool_decide_eq_true_1 in H
  | H : bool_decide _ = false |- _ => apply bool_decide_eq_false_1 in H
  end.

(** Decide a comparison of the goal by linear arithmetic and rewrite with it. *)
Ltac zcmp :=
  repeat match goal with
  | |- context [?a =? ?b] =>
      first [ rewrite (proj2 (Z.eqb_eq a b)) by lia
            | rewrite (proj2 (Z.eqb_neq a b)) by lia ]
  | |- context [?a <? ?b] =>
      first [ rewrite (proj2 (Z.ltb_lt a b)) by lia
            | rewrite (proj2 (Z.ltb_ge a b)) by lia ]
  | |- context [?a <=? ?b] =>
      first [ rewrite (proj2 (Z.leb_le a b)) by lia
            | rewrite (proj2 (Z.leb_gt a b)) by lia ]
  end.

(** ** Lists *)

(** [arr.length] as a JavaScript number. *)
Definition len {A} (l : list A) : Z := Z.of_nat (length l).

Lemma len_nil {A} : len (@nil A) = 0.
Proof. reflexivity. Qed.

Lemma len_cons {A} (x : A) l : len (x :: l) = 1 + len l.
Proof. unfold len. simpl length. lia. Qed.

Lemma len_app {A} (l k : list A) : len (l ++ k) = len l + len k.
Proof. unfold len. rewrite length_app. lia. Qed.

Lemma len_nonneg {A} (l : list A) : 0 <= len l.
Proof. unfold len. lia. Qed.

Lemma len_replicate {A} n (x : A) : len (replicate n x) = Z.of_nat n.
Proof. unfold len. by rewrite length_replicate. Qed.

Lemma len_fmap {A B} (f : A -> B) (l : list A) : len (f <$> l) = len l.
Proof. unfold len. by rewrite length_fmap. Qed.

Lemma len_zero_nil {A} (l : list A) : len l = 0 -> l = [].
Proof. unfold len. destruct l; [done|]. simpl. lia. Qed.

#[export] Hint Rewrite @len_nil @len_cons @len_app @len_replicate @len_fmap : js.
#[export] Hint Resolve len_nonneg : js.

(** Sequencing a fallible operation over a list, left to right. *)
Fixpoint mapM_result {A B} (f : A -> result B) (l : list A) : result (list B) :=
  match l with
  | [] => Ok []
  | x :: l' => y ← f x; ys ← mapM_result f l'; Ok (y :: ys)
  end.

(** The left fold of a fallible step, the shape of a [for] loop whose body may
    throw. *)
Fixpoint foldM_result {A S} (f : S -> A -> result S) (s : S) (l : list A) : result S :=
  match l with
  | [] => Ok s
  | x :: l' => s' ← f s x; foldM_result f s' l'
  end.

(** Sum of an integer weight over a list. *)
Definition zsum {A} (f : A -> Z) (l : list A) : Z := foldr (fun x acc => f x + acc) 0 l.

Lemma zsum_nil {A} (f : A -> Z) : zsum f [] = 0.
Proof. reflexivity. Qed.

Lemma zsum_cons {A} (f : A -> Z) x l : zsum f (x :: l) = f x + zsum f l.
Proof. reflexivity. Qed.

Lemma zsum_app {A} (f : A -> Z) l k : zsum f (l ++ k) = zsum f l + zsum f k.
Proof. induction l as [|x l IH]; simpl app; rewrite ?zsum_nil, ?zsum_cons; lia. Qed.

Lemma zsum_ext {A} (f g : A -> Z) l : (forall x, x ∈ l -> f x = g x) -> zsum f l = zsum g l.
Proof.
  induction l as [|x l IH]; intros H; [done|].
  rewrite !zsum_cons, H by set_solver. f_equal. apply IH. set_solver.
Qed.

Lemma zsum_nonneg {A} (f : A -> Z) l : (forall x, x ∈ l -> 0 <= f x) -> 0 <= zsum f l.
Proof.
  induction l as [|x l IH]; intros H; [by rewrite zsum_nil|].
  rewrite zsum_cons. assert (0 <= f x) by (apply H; set_solver).
  assert (0 <= zsum f l) by (apply IH; set_solver). lia.
Qed.

Lemma zsum_scale {A} (f : A -> Z) c l : zsum (fun x => c * f x) l = c * zsum f l.
Proof. induction l as [|x l IH]; rewrite ?zsum_nil, ?zsum_cons, ?IH; lia. Qed.

Lemma zsum_add {A} (f g : A -> Z) l : zsum (fun x => f x + g x) l = zsum f l + zsum g l.
Proof. induction l as [|x l IH]; rewrite ?zsum_nil, ?zsum_cons, ?IH; lia. Qed.

#[export] Hint Rewrite @zsum_nil @zsum_cons @zsum_app : js.

(** ** Text *)

(** [s.toUpperCase()] on ASCII text. *)
Definition ascii_upper (c : Ascii.ascii) : Ascii.ascii :=
  let n := Ascii.nat_of_ascii c in
  if (97 <=? n)%nat && (n <=? 122)%nat then Ascii.ascii_of_nat (n - 32) else c.

Fixpoint to_upper (s : string) : string :=
  match s with
  | EmptyString => EmptyString
  | String c s' => String (ascii_upper c) (to_upper s')
  end.

(** The value of a text of decimal digits: the strings that match [/^\d+$/],
    on which [BigInt] is total. *)
Definition digit (c : Ascii.ascii) : option Z :=
  let n := Z.of_nat (Ascii.nat_of_ascii c) in
  if (48 <=? n) && (n <=? 57) then Some (n - 48) else None.

Fixpoint digits_value (acc : Z) (s : string) : option Z :=
  match s with
  | EmptyString => Some acc
  | String c s' => d ← digit c; digits_value (10 * acc + d) s'
  end.

Definition parse_decimal (s : string) : option Z :=
  match s with
  | EmptyString => None
  | _ => digits_value 0 s
  end.

Lemma digits_value_nonneg s acc v : 0 <= acc -> digits_value acc s = Some v -> 0 <= v.
Proof.
  revert acc. induction s as [|c s IH]; intros acc Ha; simpl; [by intros [=<-]|].
  unfold digit. split_if; simpl; [|done]. bprop. apply IH. lia.
Qed.

Lemma parse_decimal_nonneg s v : parse_decimal s = Some v -> 0 <= v.
Proof. destruct s; [done|]. by apply digits_value_nonneg. Qed.
