(* ===== verification/JsNum.v ===== *)
(** * JavaScript integers

    The arithmetic of the source that is not plain integer arithmetic: the
    32-bit operators ([|], [&], [<<], [>>], [>>>]) and the conversion
    [Number(bigint)], which rounds to the nearest IEEE double. *)

From Stdlib Require Import QArith.QArith_base.
From S2P Require Import Prelude.

(** ** The 32-bit operators *)

Definition to_int32 (z : Z) : Z := (z + 2 ^ 31) mod 2 ^ 32 - 2 ^ 31.
Definition to_uint32 (z : Z) : Z := z mod 2 ^ 32.

(** [a | b], [a & b], [a << s], [a >> s], [a >>> s]. *)
Definition js_or (a b : Z) : Z := Z.lor (to_int32 a) (to_int32 b).
Definition js_and (a b : Z) : Z := Z.land (to_int32 a) (to_int32 b).
Definition js_shl (a s : Z) : Z := to_int32 (Z.shiftl (to_int32 a) (to_uint32 s mod 32)).
Definition js_shr (a s : Z) : Z := Z.shiftr (to_int32 a) (to_uint32 s mod 32).
Definition js_ushr (a s : Z) : Z := Z.shiftr (to_uint32 a) (to_uint32 s mod 32).

(** ** [Number(n)] for a bigint [n]

    Doubles have 53 significant bits: a larger integer is rounded to the
    nearest representable one, ties to the even significand.  (Every value the
    source converts is below 2^64, far from the overflow to [Infinity].) *)

Definition to_number (n : Z) : Z :=
  let a := Z.abs n in
  if a <=? 2 ^ 53 then n
  else
    let u := 2 ^ (Z.log2 a - 52) in
    let q := a / u in
    let r := a mod u in
    let q' := if (u <? 2 * r) || ((2 * r =? u) && Z.odd q) then q + 1 else q in
    Z.sgn n * (q' * u).

(** ** [BigInt(n)] for a number [n] *)

Definition BigInt_of_number (q : Q) : result Z :=
  if Qnum q mod QDen q =? 0 then Ok (Qnum q / QDen q)
  else Throw "The number cannot be converted to a BigInt because it is not an integer".

(** ** Facts *)

Lemma to_int32_range z : - 2 ^ 31 <= to_int32 z < 2 ^ 31.
Proof. unfold to_int32. pose proof (Z.mod_pos_bound (z + 2 ^ 31) (2 ^ 32)). lia. Qed.

Lemma to_int32_id z : - 2 ^ 31 <= z < 2 ^ 31 -> to_int32 z = z.
Proof. intros H. unfold to_int32. rewrite Z.mod_small; lia. Qed.

Lemma to_uint32_id z : 0 <= z < 2 ^ 32 -> to_uint32 z = z.
Proof. intros H. unfold to_uint32. by rewrite Z.mod_small. Qed.

Lemma to_int32_high z : 2 ^ 31 <= z < 2 ^ 32 -> to_int32 z = z - 2 ^ 32.
Proof.
  intros H. unfold to_int32.
  replace (z + 2 ^ 31) with (z - 2 ^ 31 + 1 * 2 ^ 32) by lia.
  rewrite Z.mod_add by lia. rewrite Z.mod_small; lia.
Qed.

(** The bits of an int32 above bit 31 repeat the sign bit. *)
Lemma to_int32_mod z : to_int32 z mod 2 ^ 32 = z mod 2 ^ 32.
Proof.
  unfold to_int32. rewrite Zminus_mod_idemp_l. f_equal. lia.
Qed.

Lemma js_ushr_id a s : 0 <= a < 2 ^ 32 -> 0 <= s < 32 -> js_ushr a s = a / 2 ^ s.
Proof.
  intros Ha Hs. unfold js_ushr. rewrite (to_uint32_id a) by lia.
  rewrite (to_uint32_id s), (Z.mod_small s) by lia. by rewrite Z.shiftr_div_pow2 by lia.
Qed.

Lemma js_shr_id a s : 0 <= a < 2 ^ 31 -> 0 <= s < 32 -> js_shr a s = a / 2 ^ s.
Proof.
  intros Ha Hs. unfold js_shr. rewrite (to_int32_id a) by lia.
  rewrite (to_uint32_id s), (Z.mod_small s) by lia. by rewrite Z.shiftr_div_pow2 by lia.
Qed.

Lemma js_and_ones a k : 0 <= a < 2 ^ 31 -> 0 <= k < 31 -> js_and a (Z.ones k) = a mod 2 ^ k.
Proof.
  intros Ha Hk. unfold js_and. rewrite (to_int32_id a) by lia.
  rewrite to_int32_id; [by rewrite Z.land_ones by lia|].
  rewrite Z.ones_equiv. pose proof (Z.pow_lt_mono_r 2 k 31). pose proof (Z.pow_pos_nonneg 2 k). lia.
Qed.

(** [value & 0x7f] of an unsigned value is the value modulo 128, whatever the
    sign of its int32 image. *)
Lemma js_and_ones_u a k : 0 <= k < 31 -> js_and a (Z.ones k) = a mod 2 ^ k.
Proof.
  intros Hk. unfold js_and.
  pose proof (Z.pow_lt_mono_r 2 k 31). pose proof (Z.pow_pos_nonneg 2 k).
  rewrite (to_int32_id (Z.ones k)) by (rewrite Z.ones_equiv; lia).
  rewrite Z.land_ones by lia.
  assert (E : forall x, x mod 2 ^ 32 mod 2 ^ k = x mod 2 ^ k).
  { intros x. apply Z.mod_mod_divide.
    exists (2 ^ (32 - k)). rewrite <- Z.pow_add_r by lia. f_equal. lia. }
  rewrite <- (E (to_int32 a)), to_int32_mod. apply E.
Qed.

Lemma to_number_exact n : Z.abs n <= 2 ^ 53 -> to_number n = n.
Proof. intros H. unfold to_number. by rewrite (proj2 (Z.leb_le _ _)). Qed.

(** The rounding error is at most half a unit in the last place. *)
Lemma to_number_error n :
  2 ^ 53 < Z.abs n -> 2 * Z.abs (to_number n - n) <= 2 ^ (Z.log2 (Z.abs n) - 52).
Proof.
  intros H. unfold to_number. rewrite (proj2 (Z.leb_gt _ _)) by lia. cbv zeta.
  set (a := Z.abs n) in *. set (u := 2 ^ (Z.log2 a - 52)).
  assert (53 <= Z.log2 a) by (apply Z.log2_le_pow2; lia).
  assert (0 < u) by (apply Z.pow_pos_nonneg; lia).
  pose proof (Z.div_mod a u ltac:(lia)) as Hd.
  pose proof (Z.mod_pos_bound a u ltac:(lia)) as Hr.
  set (q := a / u) in *. set (r := a mod u) in *.
  assert (Hn : n = Z.sgn n * a) by (unfold a; destruct n; simpl; lia).
  destruct ((u <? 2 * r) || ((2 * r =? u) && Z.odd q)) eqn:E.
  - assert (u <= 2 * r) by (apply orb_true_iff in E as [E|E]; bprop; lia).
    replace (Z.sgn n * ((q + 1) * u) - n) with (Z.sgn n * (u - r)) by (rewrite Hn at 2; nia).
    rewrite Z.abs_mul. unfold a in *. destruct n; simpl in *; lia.
  - bprop. replace (Z.sgn n * (q * u) - n) with (Z.sgn n * (- r)) by (rewrite Hn at 2; nia).
    rewrite Z.abs_mul. unfold a in *. destruct n; simpl in *; lia.
Qed.

(** [to_int32] keeps the low 32 bits and repeats bit 31 above them. *)
Lemma to_int32_testbit z i :
  0 <= i -> Z.testbit (to_int32 z) i = Z.testbit z (Z.min i 31).
Proof.
  intros Hi. set (lo := z mod 2 ^ 32).
  assert (Hlo : 0 <= lo < 2 ^ 32) by (apply Z.mod_pos_bound; lia).
  assert (Hbit : forall j, 0 <= j < 32 -> Z.testbit lo j = Z.testbit z j)
    by (intros j Hj; unfold lo; by rewrite Z.mod_pow2_bits_low by lia).
  assert (E : to_int32 z = to_int32 lo).
  { pose proof (to_int32_mod z). pose proof (to_int32_range z). unfold lo, to_int32.
    rewrite Zplus_mod_idemp_l. done. }
  rewrite E. destruct (Z_lt_ge_dec lo (2 ^ 31)) as [Hs|Hs].
  - rewrite to_int32_id by lia.
    assert (Htop : forall j, 31 <= j -> Z.testbit lo j = false).
    { intros j Hj. rewrite <- (Z.mod_small lo (2 ^ 31)) by lia. apply Z.mod_pow2_bits_high. lia. }
    destruct (Z_lt_ge_dec i 31); [rewrite Z.min_l, Hbit by lia; done|].
    rewrite Z.min_r, <- (Hbit 31), !Htop by lia. done.
  - rewrite to_int32_high by lia.
    replace (lo - 2 ^ 32) with (Z.lor lo (- 2 ^ 32)).
    2:{ rewrite <- Z.add_nocarry_lor; [lia|]. apply Z.bits_inj'. intros n Hn.
        rewrite Z.land_spec, Z.bits_0. destruct (Z_lt_ge_dec n 32).
        - rewrite (Z.bits_opp (2 ^ 32)) by lia.
          replace (Z.pred (2 ^ 32)) with (Z.ones 32) by (rewrite Z.ones_equiv; lia).
          rewrite Z.ones_spec_low by lia. apply andb_false_r.
        - rewrite <- (Z.mod_small lo (2 ^ 32)), Z.mod_pow2_bits_high by lia. done. }
    rewrite Z.lor_spec. rewrite (Z.bits_opp (2 ^ 32)) by lia.
    replace (Z.pred (2 ^ 32)) with (Z.ones 32) by (rewrite Z.ones_equiv; lia).
    assert (H31 : Z.testbit lo 31 = true).
    { replace lo with (lo - 2 ^ 31 + 1 * 2 ^ 31) by lia.
      rewrite Z.add_nocarry_lxor, Z.lxor_spec.
      - rewrite (Z.mul_pow2_bits 1 31) by lia. rewrite <- (Z.mod_small (lo - 2 ^ 31) (2 ^ 31)) by lia.
        by rewrite Z.mod_pow2_bits_high by lia.
      - apply Z.bits_inj'. intros n Hn. rewrite Z.land_spec, Z.bits_0.
        destruct (Z_lt_ge_dec n 31).
        + rewrite (Z.mul_pow2_bits_low 1 31) by lia. apply andb_false_r.
        + rewrite <- (Z.mod_small (lo - 2 ^ 31) (2 ^ 31)) by lia.
          by rewrite Z.mod_pow2_bits_high by lia. }
    destruct (Z_lt_ge_dec i 32).
    + rewrite Z.ones_spec_low by lia. rewrite orb_false_r.
      rewrite <- Hbit by lia. f_equal. lia.
    + rewrite Z.ones_spec_high by lia. rewrite orb_true_r, Z.min_r by lia.
      by rewrite <- (Hbit 31) by lia.
Qed.

(** Hence it commutes with the bitwise operations. *)
Lemma to_int32_lor a b : to_int32 (Z.lor a b) = Z.lor (to_int32 a) (to_int32 b).
Proof.
  apply Z.bits_inj'. intros i Hi. rewrite Z.lor_spec, !to_int32_testbit by done.
  apply Z.lor_spec.
Qed.

Lemma to_int32_idem z : to_int32 (to_int32 z) = to_int32 z.
Proof. apply to_int32_id, to_int32_range. Qed.

Lemma js_or_wrap a b : js_or (to_int32 a) (to_int32 b) = to_int32 (Z.lor a b).
Proof. unfold js_or. by rewrite !to_int32_idem, to_int32_lor. Qed.

(** Bits that do not overlap add up. *)
Lemma lor_shiftl_add a b n : 0 <= n -> 0 <= a < 2 ^ n -> Z.lor a (Z.shiftl b n) = a + b * 2 ^ n.
Proof.
  intros Hn Ha. rewrite Z.shiftl_mul_pow2 by done. symmetry. apply Z.add_nocarry_lor.
  apply Z.bits_inj'. intros i Hi. rewrite Z.land_spec, Z.bits_0.
  destruct (Z_lt_ge_dec i n).
  - rewrite Z.mul_pow2_bits_low by lia. apply andb_false_r.
  - rewrite <- (Z.mod_small a (2 ^ n)), Z.mod_pow2_bits_high by lia. done.
Qed.

#[export] Hint Resolve to_int32_range : js.
