(* ===== verification/Bytes.v ===== *)
(** * Byte arrays

    [Uint8Array] and [DataView] over it: a byte array is a list of bytes, the
    stores wrap their operand to the width of the cell, and a [DataView] access
    that leaves the buffer throws.  [TextDecoder] (UTF-8) is modelled here too:
    a JavaScript string is represented by its UTF-8 encoding, so
    [TextEncoder.encode] is the identity and [TextDecoder.decode] is the repair
    of an ill-formed sequence. *)

From Stdlib Require Export Strings.Byte.
From S2P Require Import Prelude JsNum.

Abbreviation Uint8Array := (list byte).

#[export] Instance byte_eq_decision : EqDecision byte := Byte.byte_eq_dec.

(** ** Bytes as numbers *)

(** The number a byte holds. *)
Definition b2z (b : byte) : Z := Z.of_N (Byte.to_N b).

(** The conversion of a store to a [Uint8Array] cell: modulo 256. *)
Definition z2b (z : Z) : byte := default x00 (Byte.of_N (Z.to_N (z mod 256))).

(** [new Uint8Array([...])]. *)
Definition u8array (l : list Z) : Uint8Array := z2b <$> l.

(** [Array.from(bytes)]. *)
Definition to_numbers (bs : Uint8Array) : list Z := b2z <$> bs.

(** ** Multi-byte integers *)

(** The [n] low bytes of [v], most significant first ([setBigUint64] and
    [setUint32] with [littleEndian = false]). *)
Fixpoint be_bytes (n : nat) (v : Z) : Uint8Array :=
  match n with
  | O => []
  | S n' => z2b (Z.shiftr v (8 * Z.of_nat n')) :: be_bytes n' v
  end.

Definition le_bytes (n : nat) (v : Z) : Uint8Array := reverse (be_bytes n v).

(** The unsigned value of a byte sequence, most significant byte first. *)
Definition be_value (bs : Uint8Array) : Z := foldl (fun acc b => acc * 256 + b2z b) 0 bs.

Definition le_value (bs : Uint8Array) : Z := be_value (reverse bs).

(** Two's complement reading of a [w]-bit unsigned value. *)
Definition as_signed (w : Z) (v : Z) : Z := if 2 ^ (w - 1) <=? v then v - 2 ^ w else v.

(** ** Views *)

(** The element read [data[i]]: [None] is [undefined]. *)
Definition elem (data : Uint8Array) (i : Z) : option Z :=
  if i <? 0 then None else b2z <$> data !! Z.to_nat i.

(** A [DataView] read of [n] bytes at byte offset [off]. *)
Definition view_bytes (data : Uint8Array) (off : Z) (n : nat) : result Uint8Array :=
  if (off <? 0) || (len data <? off + Z.of_nat n)
  then Throw "Offset is outside the bounds of the DataView"
  else Ok (take n (drop (Z.to_nat off) data)).

Definition getUint16BE (data : Uint8Array) (off : Z) : result Z := be_value <$> view_bytes data off 2.
Definition getUint16LE (data : Uint8Array) (off : Z) : result Z := le_value <$> view_bytes data off 2.
Definition getUint32BE (data : Uint8Array) (off : Z) : result Z := be_value <$> view_bytes data off 4.
Definition getUint32LE (data : Uint8Array) (off : Z) : result Z := le_value <$> view_bytes data off 4.
Definition getBigUint64BE (data : Uint8Array) (off : Z) : result Z := be_value <$> view_bytes data off 8.
Definition getBigUint64LE (data : Uint8Array) (off : Z) : result Z := le_value <$> view_bytes data off 8.
Definition getBigInt64BE (data : Uint8Array) (off : Z) : result Z :=
  as_signed 64 <$> getBigUint64BE data off.
Definition getBigInt64LE (data : Uint8Array) (off : Z) : result Z :=
  as_signed 64 <$> getBigUint64LE data off.

(** [data.slice(start, end)]: relative indices count from the end when
    negative, and both are clamped to the array. *)
Definition slice_index (n i : Z) : Z := if i <? 0 then Z.max 0 (n + i) else Z.min i n.

Definition slice {A} (data : list A) (start stop : Z) : list A :=
  let s := slice_index (len data) start in
  let e := slice_index (len data) stop in
  take (Z.to_nat (e - s)) (drop (Z.to_nat s) data).

(** [new Uint8Array(n)]. *)
Definition zeros (n : Z) : Uint8Array := replicate (Z.to_nat n) x00.

(** The element store [buf[i] = v], ignored out of range. *)
Definition set_elem (buf : Uint8Array) (i v : Z) : Uint8Array :=
  if i <? 0 then buf else <[Z.to_nat i := z2b v]> buf.

(** [buf.set(bs, off)], and the bytes a [DataView] store writes. *)
Definition set_bytes (buf : Uint8Array) (off : Z) (bs : Uint8Array) : result Uint8Array :=
  if (off <? 0) || (len buf <? off + len bs)
  then Throw "offset is out of bounds"
  else Ok (take (Z.to_nat off) buf ++ bs ++ drop (Z.to_nat (off + len bs)) buf).

Definition setUint8 (buf : Uint8Array) (off v : Z) : result Uint8Array := set_bytes buf off [z2b v].
Definition setUint32BE (buf : Uint8Array) (off v : Z) : result Uint8Array :=
  set_bytes buf off (be_bytes 4 v).
Definition setBigUint64BE (buf : Uint8Array) (off v : Z) : result Uint8Array :=
  set_bytes buf off (be_bytes 8 v).

(** ** UTF-8 *)

Definition byte_in (lo hi : Z) (b : byte) : bool := (lo <=? b2z b) && (b2z b <=? hi).

(** The bytes of U+FFFD, the replacement character. *)
Definition replacement : Uint8Array := u8array [0xEF; 0xBF; 0xBD].

(** Decoder state: the bytes of the sequence under way, how many more it needs,
    and the bounds of the next one. *)
Record utf8_state := Utf8 { u_pending : Uint8Array; u_need : nat; u_lo : Z; u_hi : Z }.

Definition utf8_init : utf8_state := Utf8 [] 0 0x80 0xBF.

(** First byte of a sequence. *)
Definition utf8_lead (b : byte) : Uint8Array * utf8_state :=
  let v := b2z b in
  if v <=? 0x7F then ([b], utf8_init)
  else if byte_in 0xC2 0xDF b then ([], Utf8 [b] 1 0x80 0xBF)
  else if byte_in 0xE0 0xEF b then
    ([], Utf8 [b] 2 (if v =? 0xE0 then 0xA0 else 0x80) (if v =? 0xED then 0x9F else 0xBF))
  else if byte_in 0xF0 0xF4 b then
    ([], Utf8 [b] 3 (if v =? 0xF0 then 0x90 else 0x80) (if v =? 0xF4 then 0x8F else 0xBF))
  else (replacement, utf8_init).

Definition utf8_step (st : utf8_state) (b : byte) : Uint8Array * utf8_state :=
  match u_need st with
  | O => utf8_lead b
  | S n =>
      if byte_in (u_lo st) (u_hi st) b then
        match n with
        | O => (u_pending st ++ [b], utf8_init)
        | S _ => ([], Utf8 (u_pending st ++ [b]) n 0x80 0xBF)
        end
      else let '(out, st') := utf8_lead b in (replacement ++ out, st')
  end.

Fixpoint utf8_run (st : utf8_state) (bs : Uint8Array) : Uint8Array :=
  match bs with
  | [] => match u_need st with O => [] | S _ => replacement end
  | b :: bs' => let '(out, st') := utf8_step st b in out ++ utf8_run st' bs'
  end.

Definition strip_bom (bs : Uint8Array) : Uint8Array :=
  match bs with
  | xef :: xbb :: xbf :: bs' => bs'
  | _ => bs
  end.

Definition string_of_bytes (bs : Uint8Array) : string := String.string_of_list_byte bs.
Definition bytes_of_string (s : string) : Uint8Array := String.list_byte_of_string s.

(** [new TextDecoder().decode(bs)] and [new TextEncoder().encode(s)]. *)
Definition TextDecoder_decode (bs : Uint8Array) : string :=
  string_of_bytes (utf8_run utf8_init (strip_bom bs)).
Definition TextEncoder_encode (s : string) : Uint8Array := bytes_of_string s.

Definition hex_digit (v : Z) : byte := z2b (if v <? 10 then 48 + v else 87 + v).

(** [Buffer.toString('hex')]. *)
Definition to_hex (bs : Uint8Array) : string :=
  string_of_bytes (b ← bs; [hex_digit (b2z b / 16); hex_digit (b2z b mod 16)]).

(** Printable text: what the log lines and messages of the chain consist of. *)
Definition ascii_bytes (bs : Uint8Array) : Prop := Forall (fun b => b2z b <= 0x7F) bs.

#[export] Instance ascii_bytes_dec bs : Decision (ascii_bytes bs).
Proof. unfold ascii_bytes. apply _. Defined.

(** ** Facts: bytes and numbers *)

Lemma b2z_range b : 0 <= b2z b < 256.
Proof. unfold b2z. pose proof (Byte.to_N_bounded b). lia. Qed.

Lemma b2z_z2b z : b2z (z2b z) = z mod 256.
Proof.
  unfold b2z, z2b. pose proof (Z.mod_pos_bound z 256 ltac:(lia)) as H.
  destruct (Byte.of_N (Z.to_N (z mod 256))) as [b|] eqn:E; simpl.
  - apply Byte.to_of_N in E. rewrite E, Z2N.id; lia.
  - apply Byte.of_N_None_iff in E. lia.
Qed.

Lemma z2b_b2z b : z2b (b2z b) = b.
Proof.
  unfold z2b. rewrite Z.mod_small by apply b2z_range.
  unfold b2z. by rewrite N2Z.id, Byte.of_to_N.
Qed.

Lemma b2z_inj b c : b2z b = b2z c -> b = c.
Proof. intros H. by rewrite <- (z2b_b2z b), <- (z2b_b2z c), H. Qed.

Lemma b2z_z2b_small z : 0 <= z < 256 -> b2z (z2b z) = z.
Proof. intros H. by rewrite b2z_z2b, Z.mod_small. Qed.

Lemma to_numbers_u8array l : Forall (fun z => 0 <= z < 256) l -> to_numbers (u8array l) = l.
Proof.
  induction 1 as [|z l Hz _ IH]; [done|].
  simpl. rewrite b2z_z2b_small by done. f_equal. apply IH.
Qed.

Lemma u8array_to_numbers bs : u8array (to_numbers bs) = bs.
Proof. induction bs as [|b bs IH]; [done|]. simpl. rewrite z2b_b2z. f_equal. apply IH. Qed.

#[export] Hint Rewrite b2z_z2b z2b_b2z : js.
#[export] Hint Resolve b2z_range : js.

(** ** Facts: big-endian integers *)

Lemma length_be_bytes n v : length (be_bytes n v) = n.
Proof. induction n as [|n IH]; simpl; congruence. Qed.

Lemma len_be_bytes n v : len (be_bytes n v) = Z.of_nat n.
Proof. unfold len. by rewrite length_be_bytes. Qed.

Lemma length_le_bytes n v : length (le_bytes n v) = n.
Proof. unfold le_bytes. by rewrite length_reverse, length_be_bytes. Qed.

Lemma len_le_bytes n v : len (le_bytes n v) = Z.of_nat n.
Proof. unfold len. by rewrite length_le_bytes. Qed.

#[export] Hint Rewrite len_be_bytes len_le_bytes : js.

Lemma be_value_acc bs acc :
  foldl (fun acc b => acc * 256 + b2z b) acc bs = acc * 256 ^ len bs + be_value bs.
Proof.
  unfold be_value. revert acc. induction bs as [|b bs IH]; intros acc; simpl foldl.
  - rewrite len_nil. lia.
  - rewrite (IH (acc * 256 + b2z b)), (IH (0 * 256 + b2z b)), len_cons, Z.pow_add_r.
    + lia.
    + lia.
    + apply len_nonneg.
Qed.

Lemma be_value_cons b bs : be_value (b :: bs) = b2z b * 256 ^ len bs + be_value bs.
Proof. unfold be_value at 1. simpl foldl. by rewrite be_value_acc. Qed.

Lemma be_value_app a b : be_value (a ++ b) = be_value a * 256 ^ len b + be_value b.
Proof. unfold be_value at 1. rewrite foldl_app. apply be_value_acc. Qed.

Lemma be_value_be_bytes n v : be_value (be_bytes n v) = v mod 2 ^ (8 * Z.of_nat n).
Proof.
  induction n as [|n IH].
  - change (2 ^ (8 * Z.of_nat 0)) with 1. by rewrite Z.mod_1_r.
  - cbn [be_bytes]. rewrite be_value_cons, IH, len_be_bytes, b2z_z2b.
    replace (256 ^ Z.of_nat n) with (2 ^ (8 * Z.of_nat n)) by (rewrite Z.pow_mul_r; [done|lia|lia]).
    replace (8 * Z.of_nat (S n)) with (8 * Z.of_nat n + 8) by lia.
    set (k := 8 * Z.of_nat n). rewrite Z.shiftr_div_pow2 by lia. rewrite Z.pow_add_r by lia.
    assert (0 < 2 ^ k) by (apply Z.pow_pos_nonneg; lia).
    rewrite (Z.rem_mul_r v (2 ^ k) (2 ^ 8)) by lia. change (2 ^ 8) with 256. ring.
Qed.

Lemma be_value_range bs : 0 <= be_value bs < 256 ^ len bs.
Proof.
  induction bs as [|b bs IH]; [by vm_compute|].
  pose proof (len_nonneg bs). rewrite be_value_cons, len_cons, Z.pow_add_r by lia.
  pose proof (b2z_range b). nia.
Qed.

Lemma be_value_inj a b : length a = length b -> be_value a = be_value b -> a = b.
Proof.
  revert b. induction a as [|x a IH]; intros [|y b]; try done. intros [= Hl]. rewrite !be_value_cons.
  assert (El : len a = len b) by (unfold len; lia). rewrite El.
  pose proof (be_value_range a) as Ha. pose proof (be_value_range b) as Hb. rewrite El in Ha.
  intros E. assert (b2z x = b2z y) by nia. f_equal; [by apply b2z_inj|]. apply IH; [done|nia].
Qed.

(** Reading and writing back gives the same bytes. *)
Lemma be_bytes_be_value bs : be_bytes (length bs) (be_value bs) = bs.
Proof.
  apply be_value_inj; [apply length_be_bytes|]. rewrite be_value_be_bytes.
  pose proof (be_value_range bs) as H. rewrite Z.mod_small; [done|].
  rewrite Z.pow_mul_r by lia. exact H.
Qed.

Lemma le_value_le_bytes n v : le_value (le_bytes n v) = v mod 2 ^ (8 * Z.of_nat n).
Proof. unfold le_value, le_bytes. by rewrite reverse_involutive, be_value_be_bytes. Qed.

Lemma be_value_u64 v : 0 <= v < 2 ^ 64 -> be_value (be_bytes 8 v) = v.
Proof. intros H. by rewrite be_value_be_bytes, Z.mod_small. Qed.

Lemma be_value_u32 v : 0 <= v < 2 ^ 32 -> be_value (be_bytes 4 v) = v.
Proof. intros H. by rewrite be_value_be_bytes, Z.mod_small. Qed.

Lemma as_signed_u64 v : - 2 ^ 63 <= v < 2 ^ 63 -> as_signed 64 (v mod 2 ^ 64) = v.
Proof.
  intros H. unfold as_signed. change (2 ^ (64 - 1)) with (2 ^ 63).
  destruct (decide (0 <= v)) as [Hv|Hv].
  - rewrite Z.mod_small by lia. by rewrite (proj2 (Z.leb_gt _ _)) by lia.
  - replace (v mod 2 ^ 64) with (v + 2 ^ 64) by (rewrite <- (Z.mod_add v 1), Z.mod_small; lia).
    rewrite (proj2 (Z.leb_le _ _)) by lia. lia.
Qed.

(** ** Facts: reads inside an array *)

(** The bytes [bs] sit at offset [len pre] of [pre ++ bs ++ post]. *)
Lemma view_bytes_mid pre bs post n :
  length bs = n -> view_bytes (pre ++ bs ++ post) (len pre) n = Ok bs.
Proof.
  intros <-. unfold view_bytes, len. rewrite !length_app.
  zcmp. simpl. rewrite Nat2Z.id, drop_app_length, take_app_length. done.
Qed.

Lemma elem_mid (pre : Uint8Array) b post : elem (pre ++ b :: post) (len pre) = Some (b2z b).
Proof.
  unfold elem, len. zcmp. rewrite Nat2Z.id, lookup_app_r, Nat.sub_diag by lia. done.
Qed.

Lemma elem_app_l (l k : Uint8Array) i : i < len l -> elem (l ++ k) i = elem l i.
Proof.
  unfold elem, len. intros H. split_if; [done|]. bprop. by rewrite lookup_app_l by lia.
Qed.

Lemma elem_range (data : Uint8Array) i v : elem data i = Some v -> 0 <= v < 256.
Proof.
  unfold elem. split_if; [done|]. intros H.
  apply fmap_Some in H as (b & _ & ->). apply b2z_range.
Qed.

Lemma elem_Some (data : Uint8Array) i : 0 <= i < len data -> is_Some (elem data i).
Proof.
  unfold elem, len. intros H. zcmp.
  destruct (lookup_lt_is_Some_2 data (Z.to_nat i)) as [b ->]; [lia|]. by eexists.
Qed.

Lemma elem_None (data : Uint8Array) i : i < 0 \/ len data <= i -> elem data i = None.
Proof.
  unfold elem, len. intros [H|H]; split_if; bprop; try done; try lia.
  by rewrite lookup_ge_None_2 by lia.
Qed.

Lemma slice_mid {A} (pre bs post : list A) :
  slice (pre ++ bs ++ post) (len pre) (len pre + len bs) = bs.
Proof.
  unfold slice, slice_index. autorewrite with js.
  pose proof (len_nonneg pre). pose proof (len_nonneg bs). pose proof (len_nonneg post).
  zcmp. rewrite !Z.min_l by lia.
  replace (len pre + len bs - len pre) with (len bs) by lia.
  unfold len. by rewrite !Nat2Z.id, drop_app_length, take_app_length.
Qed.

Lemma length_set_elem buf i v : length (set_elem buf i v) = length buf.
Proof. unfold set_elem. split_if; [done|]. apply length_insert. Qed.

Lemma set_elem_mid pre b post v :
  set_elem (pre ++ b :: post) (len pre) v = pre ++ z2b v :: post.
Proof.
  unfold set_elem, len. zcmp. rewrite Nat2Z.id.
  by rewrite insert_app_r_alt, Nat.sub_diag by lia.
Qed.

Lemma set_bytes_mid pre old post bs :
  length old = length bs ->
  set_bytes (pre ++ old ++ post) (len pre) bs = Ok (pre ++ bs ++ post).
Proof.
  intros H. unfold set_bytes, len. rewrite !length_app, H. zcmp. simpl.
  rewrite Nat2Z.id, take_app_length. do 3 f_equal.
  replace (Z.to_nat (Z.of_nat (length pre) + Z.of_nat (length bs))) with (length (pre ++ old)) by (rewrite length_app; lia).
  by rewrite (app_assoc pre), drop_app_length.
Qed.

Lemma length_zeros n : 0 <= n -> len (zeros n) = n.
Proof. intros H. unfold zeros. rewrite len_replicate. lia. Qed.

(** ** Facts: text *)

Lemma bytes_of_string_of_bytes bs : bytes_of_string (string_of_bytes bs) = bs.
Proof. unfold bytes_of_string, string_of_bytes. apply String.list_byte_of_string_of_list_byte. Qed.

Lemma string_of_bytes_of_string s : string_of_bytes (bytes_of_string s) = s.
Proof. unfold bytes_of_string, string_of_bytes. apply String.string_of_list_byte_of_string. Qed.

Lemma utf8_run_ascii bs : ascii_bytes bs -> utf8_run utf8_init bs = bs.
Proof.
  induction 1 as [|b bs Hb _ IH]; [done|].
  simpl. unfold utf8_step, utf8_lead. simpl. zcmp. simpl. f_equal. apply IH.
Qed.

Lemma strip_bom_ascii bs : ascii_bytes bs -> strip_bom bs = bs.
Proof.
  destruct bs as [|b bs]; [done|]. intros H. inversion H as [|? ? Hb _]; subst.
  unfold strip_bom. destruct b; try reflexivity. exfalso. revert Hb. vm_compute. congruence.
Qed.

(** Decoding ASCII text is the identity. *)
Lemma TextDecoder_ascii s :
  ascii_bytes (bytes_of_string s) -> TextDecoder_decode (TextEncoder_encode s) = s.
Proof.
  intros H. unfold TextDecoder_decode, TextEncoder_encode.
  rewrite strip_bom_ascii, utf8_run_ascii by done. apply string_of_bytes_of_string.
Qed.
