(* ===== verification/Reader.v ===== *)
(** * Binary readers

    The two reader classes of the source ([BinaryReader] of the gateway,
    [SafeReader] of the game-state package) are an immutable byte array and a
    mutable offset.  A reader operation is a state transformer that may throw;
    the file gives the monad, the judgement [reads m bs a] ("run where the bytes
    [bs] are next, [m] returns [a] and stops exactly behind them"), its
    composition rules, and the interface [Codec] of a value with a wire format. *)

From S2P Require Import Prelude JsNum Bytes.

Record reader := Reader { rd_data : Uint8Array; rd_offset : Z }.

Definition R (A : Type) : Type := reader -> result (A * reader).

#[export] Instance R_ret : MRet R := fun A a r => Ok (a, r).

#[export] Instance R_bind : MBind R := fun A B f m r =>
  match m r with
  | Ok (a, r') => f a r'
  | Throw e => Throw e
  end.

Definition throw {A} (msg : string) : R A := fun _ => Throw msg.

(** The reader's own fields. *)
Definition get_data : R Uint8Array := fun r => Ok (rd_data r, r).
Definition get_offset : R Z := fun r => Ok (rd_offset r, r).

(** [this.offset += n]. *)
Definition advance (n : Z) : R unit := fun r => Ok (tt, Reader (rd_data r) (rd_offset r + n)).

Definition lift {A} (m : result A) : R A := fun r =>
  match m with
  | Ok a => Ok (a, r)
  | Throw e => Throw e
  end.

(** [data.length - offset]. *)
Definition remaining : R Z := fun r => Ok (len (rd_data r) - rd_offset r, r).

(** [try { m } catch { d }] around reads that throw before they move the
    offset. *)
Definition try_read {A} (m : R A) (d : A) : R A := fun r =>
  match m r with
  | Ok x => Ok x
  | Throw _ => Ok (d, r)
  end.

(** [for (let i = 0; i < n; i += 1) out.push(m())]. *)
Fixpoint read_n {A} (n : nat) (m : R A) : R (list A) :=
  match n with
  | O => mret []
  | S n' => x ← m; xs ← read_n n' m; mret (x :: xs)
  end.

(** The same loop with the count as the number the source has: a negative count
    runs no iteration. *)
Definition read_count {A} (n : Z) (m : R A) : R (list A) := read_n (Z.to_nat n) m.

(** Run on a fresh reader, and forget where it stopped. *)
Definition run {A} (m : R A) (data : Uint8Array) : result A := fst <$> m (Reader data 0).

(** JavaScript's [undefined], where a byte read falls outside the array: no byte
    is negative, so it differs from every byte. *)
Definition undefined : Z := -1.

(** [a < b] on numbers: false when an operand is [undefined]. *)
Definition js_lt (a b : Z) : bool := negb (a =? undefined) && negb (b =? undefined) && (a <? b).

(** ** The judgement *)

Definition reads {A} (m : R A) (bs : Uint8Array) (a : A) : Prop :=
  forall pre post,
    m (Reader (pre ++ bs ++ post) (len pre))
    = Ok (a, Reader (pre ++ bs ++ post) (len pre + len bs)).

(** A value type with its wire format: an encoder, the domain on which the
    format is faithful, and a reader that inverts it. *)
Class Codec (A : Type) := {
  c_enc : A -> Uint8Array;
  c_dom : A -> Prop;
  c_dec : R A;
  c_reads : forall a, c_dom a -> reads c_dec (c_enc a) a
}.

(** ** Composition *)

Lemma R_bind_ok {A B} (m : R A) (k : A -> R B) r a r' :
  m r = Ok (a, r') -> (m ≫= k) r = k a r'.
Proof. intros H. unfold mbind, R_bind. by rewrite H. Qed.

Lemma R_bind_inv {A B} (m : R A) (k : A -> R B) r b r' :
  (m ≫= k) r = Ok (b, r') -> exists a r1, m r = Ok (a, r1) /\ k a r1 = Ok (b, r').
Proof. unfold mbind, R_bind. destruct (m r) as [[a r1]|]; [eauto|done]. Qed.

Lemma R_ret_inv {A} (a b : A) r r' : (mret a : R A) r = Ok (b, r') -> a = b /\ r = r'.
Proof. by intros [= <- <-]. Qed.

(** Split a run that returned into its steps. *)
Ltac run_inv :=
  repeat match goal with
  | H : (_ ≫= _) _ = Ok _ |- _ => apply R_bind_inv in H as (? & ? & ? & H)
  | H : mret _ _ = Ok _ |- _ => apply R_ret_inv in H as [? ?]; subst
  | H : throw _ _ = Ok _ |- _ => discriminate H
  end.

Lemma run_inv_ok {A} (m : R A) data a : run m data = Ok a -> exists r, m (Reader data 0) = Ok (a, r).
Proof. unfold run. destruct (m _) as [[x r]|]; [|done]. intros [= <-]. eauto. Qed.

Lemma reads_ret {A} (a : A) : reads (mret a) [] a.
Proof. intros pre post. unfold mret, R_ret. rewrite len_nil, Z.add_0_r. done. Qed.

Lemma reads_bind {A B} (m : R A) (k : A -> R B) bs cs a b :
  reads m bs a -> reads (k a) cs b -> reads (m ≫= k) (bs ++ cs) b.
Proof.
  intros Hm Hk pre post. rewrite <- (app_assoc bs cs post).
  rewrite (R_bind_ok _ _ _ _ _ (Hm pre (cs ++ post))).
  replace (pre ++ bs ++ cs ++ post) with ((pre ++ bs) ++ cs ++ post) by by rewrite <- app_assoc.
  replace (len pre + len bs) with (len (pre ++ bs)) by apply len_app.
  rewrite Hk. by rewrite !len_app, Z.add_assoc.
Qed.

(** The last read of a sequence. *)
Lemma reads_bind_last {A B} (m : R A) (k : A -> R B) bs a b :
  reads m bs a -> reads (k a) [] b -> reads (m ≫= k) bs b.
Proof. intros Hm Hk. rewrite <- (app_nil_r bs). by eapply reads_bind. Qed.

(** A step that does not move the reader. *)
Lemma reads_bind_pure {A B} (m : R A) (k : A -> R B) bs a b :
  reads m [] a -> reads (k a) bs b -> reads (m ≫= k) bs b.
Proof. intros Hm Hk. by apply (reads_bind m k [] bs a b). Qed.

Lemma reads_run {A} (m : R A) bs a : reads m bs a -> run m bs = Ok a.
Proof.
  intros H. unfold run. specialize (H [] []). rewrite app_nil_r in H. simpl in H.
  change (len []) with 0 in H. by rewrite H.
Qed.

Lemma reads_run_app {A} (m : R A) bs a post : reads m bs a -> run m (bs ++ post) = Ok a.
Proof.
  intros H. unfold run. specialize (H [] post). simpl in H.
  change (len []) with 0 in H. by rewrite H.
Qed.

Lemma reads_if {A} (b : bool) (m m' : R A) bs a :
  reads (if b then m else m') bs a <-> if b then reads m bs a else reads m' bs a.
Proof. by destruct b. Qed.

Lemma reads_try {A} (m : R A) d bs a : reads m bs a -> reads (try_read m d) bs a.
Proof. intros H pre post. unfold try_read. by rewrite H. Qed.

Lemma reads_n {A} (m : R A) (enc : A -> Uint8Array) (l : list A) :
  Forall (fun a => reads m (enc a) a) l ->
  reads (read_n (length l) m) (concat (enc <$> l)) l.
Proof.
  induction 1 as [|x l Hx _ IH]; simpl.
  - apply reads_ret.
  - eapply reads_bind; [exact Hx|]. eapply reads_bind_last; [exact IH|]. apply reads_ret.
Qed.

Lemma reads_count {A} (m : R A) (enc : A -> Uint8Array) (l : list A) :
  Forall (fun a => reads m (enc a) a) l ->
  reads (read_count (len l) m) (concat (enc <$> l)) l.
Proof. intros H. unfold read_count, len. rewrite Nat2Z.id. by apply reads_n. Qed.

Lemma reads_codecs `{Codec A} (l : list A) :
  Forall c_dom l -> reads (read_count (len l) c_dec) (concat (c_enc <$> l)) l.
Proof. intros Hl. apply reads_count. eapply Forall_impl; [exact Hl|]. apply c_reads. Qed.

#[export] Hint Resolve reads_ret : js.

(** Peel the reads of a sequence one at a time: [reads_step] consumes the next
    operation with a lemma of the [js] database. *)
Ltac reads_step :=
  first
    [ eapply reads_bind; [solve [eauto with js]|]; cbv beta
    | eapply reads_bind_last; [solve [eauto with js]|]; cbv beta
    | apply reads_ret ].

(** ** Readers that only move forwards

    [forward m]: run inside the array, [m] either throws or stops inside the
    array at or after the place it started, and never changes the array. *)
Definition inside (r : reader) : Prop := 0 <= rd_offset r <= len (rd_data r).

Definition forward {A} (m : R A) : Prop :=
  forall r a r', inside r -> m r = Ok (a, r') ->
    rd_data r' = rd_data r /\ rd_offset r <= rd_offset r' <= len (rd_data r).

Lemma forward_ret {A} (a : A) : forward (mret a).
Proof. intros r b r' Hr [= <- <-]. unfold inside in Hr. split; [done|lia]. Qed.

Lemma forward_bind {A B} (m : R A) (k : A -> R B) :
  forward m -> (forall a, forward (k a)) -> forward (m ≫= k).
Proof.
  intros Hm Hk r b r' Hr. unfold mbind, R_bind.
  destruct (m r) as [[a r1]|] eqn:E; [|done]. intros Hb.
  destruct (Hm _ _ _ Hr E) as [Hd Ho].
  assert (inside r1) by (unfold inside in *; rewrite Hd; lia).
  destruct (Hk a _ _ _ H Hb) as [Hd' Ho']. rewrite Hd in *. split; [congruence|lia].
Qed.

Lemma forward_throw {A} msg : forward (@throw A msg).
Proof. intros r a r' _ [=]. Qed.

Lemma forward_lift {A} (m : result A) : forward (lift m).
Proof.
  intros r a r' Hr. unfold lift. destruct m; [|done]. intros [= <- <-].
  unfold inside in Hr. split; [done|lia].
Qed.

Lemma forward_read_n {A} (m : R A) n : forward m -> forward (read_n n m).
Proof.
  intros Hm. induction n as [|n IH]; simpl; [apply forward_ret|].
  apply forward_bind; [done|]. intros x. apply forward_bind; [done|]. intros xs. apply forward_ret.
Qed.

#[export] Hint Resolve forward_ret forward_throw forward_lift forward_read_n : js.

(** ** Reference reads

    Reading the wire formats of the documentation, independent of the reader
    classes of the source: an unsigned byte, an [n]-byte big-endian integer, a
    fixed number of raw bytes. *)

Definition get_byte : R Z := fun r =>
  match elem (rd_data r) (rd_offset r) with
  | Some v => Ok (v, Reader (rd_data r) (rd_offset r + 1))
  | None => Throw "end of input"
  end.

Definition get_bytes (n : nat) : R Uint8Array := fun r =>
  match view_bytes (rd_data r) (rd_offset r) n with
  | Ok bs => Ok (bs, Reader (rd_data r) (rd_offset r + Z.of_nat n))
  | Throw e => Throw e
  end.

Definition get_be (n : nat) : R Z := bs ← get_bytes n; mret (be_value bs).

Lemma reads_get_byte b : reads get_byte [b] (b2z b).
Proof. intros pre post. unfold get_byte. simpl. by rewrite elem_mid. Qed.

Lemma reads_get_byte_z v : 0 <= v < 256 -> reads get_byte [z2b v] v.
Proof. intros H. rewrite <- (b2z_z2b_small v H) at 2. apply reads_get_byte. Qed.

Lemma reads_get_bytes bs : reads (get_bytes (length bs)) bs bs.
Proof. intros pre post. unfold get_bytes. simpl. by rewrite view_bytes_mid. Qed.

Lemma reads_get_bytes_n n bs : length bs = n -> reads (get_bytes n) bs bs.
Proof. intros <-. apply reads_get_bytes. Qed.

Lemma reads_get_be n v :
  0 <= v < 2 ^ (8 * Z.of_nat n) -> reads (get_be n) (be_bytes n v) v.
Proof.
  intros H. eapply reads_bind_last; [apply reads_get_bytes_n, length_be_bytes|].
  rewrite be_value_be_bytes, Z.mod_small by done. apply reads_ret.
Qed.

#[export] Hint Resolve reads_get_byte_z reads_get_bytes_n : js.
