(* ===== verification/Constants.v ===== *)
(** * Shared constants

    [packages/constants/src]: the move opcodes ([moves.ts]), the bet types with
    their encoders ([bet-types.ts]) and the limits ([limits.ts]).  A keyed
    object of constants is an enumeration with its code function; a name that
    arrives as text is resolved with [..._of_string], which models [key in
    TABLE]. *)

From S2P Require Import Prelude.

(** ** Limits ([limits.ts]) *)

Definition CASINO_MAX_NAME_LENGTH : Z := 32.
Definition CASINO_MAX_PAYLOAD_LENGTH : Z := 256.
Definition CASINO_INITIAL_CHIPS : Z := 1000.
Definition GLOBAL_TABLE_MAX_BETS_PER_ROUND : Z := 255.

(** ** Games ([packages/types/src/game.ts]) *)

(** The games, with the discriminants of the chain. *)
Inductive GameType : Type :=
| Game_Baccarat
| Game_Blackjack
| Game_CasinoWar
| Game_Craps
| Game_VideoPoker
| Game_HiLo
| Game_Roulette
| Game_SicBo
| Game_ThreeCard
| Game_UltimateHoldem.

Definition GameType_code (m : GameType) : Z :=
  match m with
  | Game_Baccarat => 0
  | Game_Blackjack => 1
  | Game_CasinoWar => 2
  | Game_Craps => 3
  | Game_VideoPoker => 4
  | Game_HiLo => 5
  | Game_Roulette => 6
  | Game_SicBo => 7
  | Game_ThreeCard => 8
  | Game_UltimateHoldem => 9
  end.

(** ** Move opcodes ([moves.ts]) *)

(** [BlackjackMove]. *)
Inductive BlackjackMove : Type :=
| BJ_Hit
| BJ_Stand
| BJ_Double
| BJ_Split
| BJ_Deal
| BJ_Set21Plus3
| BJ_Reveal
| BJ_Surrender.

Definition BlackjackMove_code (m : BlackjackMove) : Z :=
  match m with
  | BJ_Hit => 0
  | BJ_Stand => 1
  | BJ_Double => 2
  | BJ_Split => 3
  | BJ_Deal => 4
  | BJ_Set21Plus3 => 5
  | BJ_Reveal => 6
  | BJ_Surrender => 7
  end.

(** [RouletteMove]. *)
Inductive RouletteMove : Type :=
| RL_PlaceBet
| RL_Spin
| RL_ClearBets
| RL_SetRules
| RL_AtomicBatch.

Definition RouletteMove_code (m : RouletteMove) : Z :=
  match m with
  | RL_PlaceBet => 0
  | RL_Spin => 1
  | RL_ClearBets => 2
  | RL_SetRules => 3
  | RL_AtomicBatch => 4
  end.

(** [CrapsMove]. *)
Inductive CrapsMove : Type :=
| CR_PlaceBet
| CR_AddOdds
| CR_Roll
| CR_ClearBets
| CR_AtomicBatch.

Definition CrapsMove_code (m : CrapsMove) : Z :=
  match m with
  | CR_PlaceBet => 0
  | CR_AddOdds => 1
  | CR_Roll => 2
  | CR_ClearBets => 3
  | CR_AtomicBatch => 4
  end.

(** [BaccaratMove]. *)
Inductive BaccaratMove : Type :=
| BC_PlaceBet
| BC_Deal
| BC_ClearBets
| BC_AtomicBatch
| BC_SetRules.

Definition BaccaratMove_code (m : BaccaratMove) : Z :=
  match m with
  | BC_PlaceBet => 0
  | BC_Deal => 1
  | BC_ClearBets => 2
  | BC_AtomicBatch => 3
  | BC_SetRules => 4
  end.

(** [CasinoWarMove]. *)
Inductive CasinoWarMove : Type :=
| CW_Play
| CW_War
| CW_Surrender
| CW_SetTieBet
| CW_SetRules.

Definition CasinoWarMove_code (m : CasinoWarMove) : Z :=
  match m with
  | CW_Play => 0
  | CW_War => 1
  | CW_Surrender => 2
  | CW_SetTieBet => 3
  | CW_SetRules => 5
  end.

(** [HiLoMove]. *)
Inductive HiLoMove : Type :=
| HL_Higher
| HL_Lower
| HL_Cashout
| HL_Same.

Definition HiLoMove_code (m : HiLoMove) : Z :=
  match m with
  | HL_Higher => 0
  | HL_Lower => 1
  | HL_Cashout => 2
  | HL_Same => 3
  end.

(** [SicBoMove]. *)
Inductive SicBoMove : Type :=
| SB_PlaceBet
| SB_Roll
| SB_ClearBets
| SB_AtomicBatch
| SB_SetRules.

Definition SicBoMove_code (m : SicBoMove) : Z :=
  match m with
  | SB_PlaceBet => 0
  | SB_Roll => 1
  | SB_ClearBets => 2
  | SB_AtomicBatch => 3
  | SB_SetRules => 4
  end.

(** [ThreeCardMove]. *)
Inductive ThreeCardMove : Type :=
| TC_Play
| TC_Fold
| TC_Deal
| TC_SetPairPlus
| TC_Reveal
| TC_SetSixCardBonus
| TC_SetProgressive
| TC_AtomicDeal
| TC_SetRules.

Definition ThreeCardMove_code (m : ThreeCardMove) : Z :=
  match m with
  | TC_Play => 0
  | TC_Fold => 1
  | TC_Deal => 2
  | TC_SetPairPlus => 3
  | TC_Reveal => 4
  | TC_SetSixCardBonus => 5
  | TC_SetProgressive => 6
  | TC_AtomicDeal => 7
  | TC_SetRules => 8
  end.

(** [UltimateHoldemMove]. *)
Inductive UltimateHoldemMove : Type :=
| UH_Check
| UH_Bet4x
| UH_Bet2x
| UH_Bet1x
| UH_Fold
| UH_Deal
| UH_SetTrips
| UH_Reveal
| UH_Bet3x
| UH_SetSixCardBonus
| UH_SetProgressive
| UH_AtomicDeal
| UH_SetRules.

Definition UltimateHoldemMove_code (m : UltimateHoldemMove) : Z :=
  match m with
  | UH_Check => 0
  | UH_Bet4x => 1
  | UH_Bet2x => 2
  | UH_Bet1x => 3
  | UH_Fold => 4
  | UH_Deal => 5
  | UH_SetTrips => 6
  | UH_Reveal => 7
  | UH_Bet3x => 8
  | UH_SetSixCardBonus => 9
  | UH_SetProgressive => 10
  | UH_AtomicDeal => 11
  | UH_SetRules => 12
  end.

(** ** Bet types ([bet-types.ts]) *)

(** The keys of [BACCARAT_BET_TYPES] and their codes. *)
Inductive BaccaratBetName : Type :=
| Bac_PLAYER
| Bac_BANKER
| Bac_TIE
| Bac_P_PAIR
| Bac_B_PAIR
| Bac_LUCKY6
| Bac_P_DRAGON
| Bac_B_DRAGON
| Bac_PANDA8
| Bac_PERFECT_PAIR.

Definition BACCARAT_BET_TYPES (m : BaccaratBetName) : Z :=
  match m with
  | Bac_PLAYER => 0
  | Bac_BANKER => 1
  | Bac_TIE => 2
  | Bac_P_PAIR => 3
  | Bac_B_PAIR => 4
  | Bac_LUCKY6 => 5
  | Bac_P_DRAGON => 6
  | Bac_B_DRAGON => 7
  | Bac_PANDA8 => 8
  | Bac_PERFECT_PAIR => 9
  end.

(** [key in ...]: the name a text stands for. *)
Definition BaccaratBetName_of_string (s : string) : option BaccaratBetName :=
  if String.eqb s "PLAYER" then Some Bac_PLAYER
  else if String.eqb s "BANKER" then Some Bac_BANKER
  else if String.eqb s "TIE" then Some Bac_TIE
  else if String.eqb s "P_PAIR" then Some Bac_P_PAIR
  else if String.eqb s "B_PAIR" then Some Bac_B_PAIR
  else if String.eqb s "LUCKY6" then Some Bac_LUCKY6
  else if String.eqb s "P_DRAGON" then Some Bac_P_DRAGON
  else if String.eqb s "B_DRAGON" then Some Bac_B_DRAGON
  else if String.eqb s "PANDA8" then Some Bac_PANDA8
  else if String.eqb s "PERFECT_PAIR" then Some Bac_PERFECT_PAIR
  else None.

Definition BaccaratBetName_name (b : BaccaratBetName) : string :=
  match b with
  | Bac_PLAYER => "PLAYER"
  | Bac_BANKER => "BANKER"
  | Bac_TIE => "TIE"
  | Bac_P_PAIR => "P_PAIR"
  | Bac_B_PAIR => "B_PAIR"
  | Bac_LUCKY6 => "LUCKY6"
  | Bac_P_DRAGON => "P_DRAGON"
  | Bac_B_DRAGON => "B_DRAGON"
  | Bac_PANDA8 => "PANDA8"
  | Bac_PERFECT_PAIR => "PERFECT_PAIR"
  end.

Definition encodeBaccaratBet (type : BaccaratBetName) : Z := BACCARAT_BET_TYPES type.

(** The keys of [CRAPS_BET_TYPES] and their codes. *)
Inductive CrapsBetName : Type :=
| Craps_PASS
| Craps_DONT_PASS
| Craps_COME
| Craps_DONT_COME
| Craps_FIELD
| Craps_YES
| Craps_NO
| Craps_NEXT
| Craps_HARDWAY
| Craps_FIRE
| Craps_ATS_SMALL
| Craps_ATS_TALL
| Craps_ATS_ALL
| Craps_MUGGSY
| Craps_DIFF_DOUBLES
| Craps_RIDE_LINE
| Craps_REPLAY
| Craps_HOT_ROLLER.

Definition CRAPS_BET_TYPES (m : CrapsBetName) : Z :=
  match m with
  | Craps_PASS => 0
  | Craps_DONT_PASS => 1
  | Craps_COME => 2
  | Craps_DONT_COME => 3
  | Craps_FIELD => 4
  | Craps_YES => 5
  | Craps_NO => 6
  | Craps_NEXT => 7
  | Craps_HARDWAY => 8
  | Craps_FIRE => 12
  | Craps_ATS_SMALL => 15
  | Craps_ATS_TALL => 16
  | Craps_ATS_ALL => 17
  | Craps_MUGGSY => 18
  | Craps_DIFF_DOUBLES => 19
  | Craps_RIDE_LINE => 20
  | Craps_REPLAY => 21
  | Craps_HOT_ROLLER => 22
  end.

(** [key in ...]: the name a text stands for. *)
Definition CrapsBetName_of_string (s : string) : option CrapsBetName :=
  if String.eqb s "PASS" then Some Craps_PASS
  else if String.eqb s "DONT_PASS" then Some Craps_DONT_PASS
  else if String.eqb s "COME" then Some Craps_COME
  else if String.eqb s "DONT_COME" then Some Craps_DONT_COME
  else if String.eqb s "FIELD" then Some Craps_FIELD
  else if String.eqb s "YES" then Some Craps_YES
  else if String.eqb s "NO" then Some Craps_NO
  else if String.eqb s "NEXT" then Some Craps_NEXT
  else if String.eqb s "HARDWAY" then Some Craps_HARDWAY
  else if String.eqb s "FIRE" then Some Craps_FIRE
  else if String.eqb s "ATS_SMALL" then Some Craps_ATS_SMALL
  else if String.eqb s "ATS_TALL" then Some Craps_ATS_TALL
  else if String.eqb s "ATS_ALL" then Some Craps_ATS_ALL
  else if String.eqb s "MUGGSY" then Some Craps_MUGGSY
  else if String.eqb s "DIFF_DOUBLES" then Some Craps_DIFF_DOUBLES
  else if String.eqb s "RIDE_LINE" then Some Craps_RIDE_LINE
  else if String.eqb s "REPLAY" then Some Craps_REPLAY
  else if String.eqb s "HOT_ROLLER" then Some Craps_HOT_ROLLER
  else None.

Definition CrapsBetName_name (b : CrapsBetName) : string :=
  match b with
  | Craps_PASS => "PASS"
  | Craps_DONT_PASS => "DONT_PASS"
  | Craps_COME => "COME"
  | Craps_DONT_COME => "DONT_COME"
  | Craps_FIELD => "FIELD"
  | Craps_YES => "YES"
  | Craps_NO => "NO"
  | Craps_NEXT => "NEXT"
  | Craps_HARDWAY => "HARDWAY"
  | Craps_FIRE => "FIRE"
  | Craps_ATS_SMALL => "ATS_SMALL"
  | Craps_ATS_TALL => "ATS_TALL"
  | Craps_ATS_ALL => "ATS_ALL"
  | Craps_MUGGSY => "MUGGSY"
  | Craps_DIFF_DOUBLES => "DIFF_DOUBLES"
  | Craps_RIDE_LINE => "RIDE_LINE"
  | Craps_REPLAY => "REPLAY"
  | Craps_HOT_ROLLER => "HOT_ROLLER"
  end.

(** The code of a hardway bet depends on its number; any other number falls
    back to the key's own code, 8. *)
Definition CRAPS_HARDWAY_MAP (t : Z) : option Z :=
  if t =? 4 then Some 8
  else if t =? 6 then Some 9
  else if t =? 8 then Some 10
  else if t =? 10 then Some 11
  else None.

Definition crapsTargetCleared (type : CrapsBetName) : bool :=
  match type with
  | Craps_ATS_SMALL | Craps_ATS_TALL | Craps_ATS_ALL | Craps_MUGGSY | Craps_DIFF_DOUBLES
  | Craps_RIDE_LINE | Craps_REPLAY | Craps_HOT_ROLLER | Craps_FIRE => true
  | _ => false
  end.

(** [encodeCrapsBet(type, target)], as the pair [(betType, target)]. *)
Definition encodeCrapsBet (type : CrapsBetName) (target : option Z) : Z * Z :=
  let betType := CRAPS_BET_TYPES type in
  let encodedTarget := default 0 target in
  let '(betType, encodedTarget) :=
    match type with
    | Craps_HARDWAY => (default betType (t ← target; CRAPS_HARDWAY_MAP t), 0)
    | _ => (betType, encodedTarget)
    end in
  let encodedTarget := if crapsTargetCleared type then 0 else encodedTarget in
  (betType, encodedTarget).

Definition crapsRequiresTarget (type : CrapsBetName) : bool :=
  match type with
  | Craps_YES | Craps_NO | Craps_NEXT | Craps_HARDWAY => true
  | _ => false
  end.

(** The keys of [ROULETTE_BET_TYPES] and their codes. *)
Inductive RouletteBetCode : Type :=
| RouletteT_STRAIGHT
| RouletteT_RED
| RouletteT_BLACK
| RouletteT_EVEN
| RouletteT_ODD
| RouletteT_LOW
| RouletteT_HIGH
| RouletteT_DOZEN
| RouletteT_COLUMN
| RouletteT_SPLIT_H
| RouletteT_SPLIT_V
| RouletteT_STREET
| RouletteT_CORNER
| RouletteT_SIX_LINE.

Definition ROULETTE_BET_TYPES (m : RouletteBetCode) : Z :=
  match m with
  | RouletteT_STRAIGHT => 0
  | RouletteT_RED => 1
  | RouletteT_BLACK => 2
  | RouletteT_EVEN => 3
  | RouletteT_ODD => 4
  | RouletteT_LOW => 5
  | RouletteT_HIGH => 6
  | RouletteT_DOZEN => 7
  | RouletteT_COLUMN => 8
  | RouletteT_SPLIT_H => 9
  | RouletteT_SPLIT_V => 10
  | RouletteT_STREET => 11
  | RouletteT_CORNER => 12
  | RouletteT_SIX_LINE => 13
  end.

(** [ROULETTE_BET_NAMES]. *)
Inductive RouletteBetName : Type :=
| Roul_STRAIGHT
| Roul_RED
| Roul_BLACK
| Roul_EVEN
| Roul_ODD
| Roul_LOW
| Roul_HIGH
| Roul_DOZEN_1
| Roul_DOZEN_2
| Roul_DOZEN_3
| Roul_COL_1
| Roul_COL_2
| Roul_COL_3
| Roul_ZERO
| Roul_SPLIT_H
| Roul_SPLIT_V
| Roul_STREET
| Roul_CORNER
| Roul_SIX_LINE.

(** [key in ...]: the name a text stands for. *)
Definition RouletteBetName_of_string (s : string) : option RouletteBetName :=
  if String.eqb s "STRAIGHT" then Some Roul_STRAIGHT
  else if String.eqb s "RED" then Some Roul_RED
  else if String.eqb s "BLACK" then Some Roul_BLACK
  else if String.eqb s "EVEN" then Some Roul_EVEN
  else if String.eqb s "ODD" then Some Roul_ODD
  else if String.eqb s "LOW" then Some Roul_LOW
  else if String.eqb s "HIGH" then Some Roul_HIGH
  else if String.eqb s "DOZEN_1" then Some Roul_DOZEN_1
  else if String.eqb s "DOZEN_2" then Some Roul_DOZEN_2
  else if String.eqb s "DOZEN_3" then Some Roul_DOZEN_3
  else if String.eqb s "COL_1" then Some Roul_COL_1
  else if String.eqb s "COL_2" then Some Roul_COL_2
  else if String.eqb s "COL_3" then Some Roul_COL_3
  else if String.eqb s "ZERO" then Some Roul_ZERO
  else if String.eqb s "SPLIT_H" then Some Roul_SPLIT_H
  else if String.eqb s "SPLIT_V" then Some Roul_SPLIT_V
  else if String.eqb s "STREET" then Some Roul_STREET
  else if String.eqb s "CORNER" then Some Roul_CORNER
  else if String.eqb s "SIX_LINE" then Some Roul_SIX_LINE
  else None.

Definition RouletteBetName_name (b : RouletteBetName) : string :=
  match b with
  | Roul_STRAIGHT => "STRAIGHT"
  | Roul_RED => "RED"
  | Roul_BLACK => "BLACK"
  | Roul_EVEN => "EVEN"
  | Roul_ODD => "ODD"
  | Roul_LOW => "LOW"
  | Roul_HIGH => "HIGH"
  | Roul_DOZEN_1 => "DOZEN_1"
  | Roul_DOZEN_2 => "DOZEN_2"
  | Roul_DOZEN_3 => "DOZEN_3"
  | Roul_COL_1 => "COL_1"
  | Roul_COL_2 => "COL_2"
  | Roul_COL_3 => "COL_3"
  | Roul_ZERO => "ZERO"
  | Roul_SPLIT_H => "SPLIT_H"
  | Roul_SPLIT_V => "SPLIT_V"
  | Roul_STREET => "STREET"
  | Roul_CORNER => "CORNER"
  | Roul_SIX_LINE => "SIX_LINE"
  end.

(** [encodeRouletteBet(type, target)], as the pair [(type, value)]. *)
Definition encodeRouletteBet (type : RouletteBetName) (target : option Z) : Z * Z :=
  match type with
  | Roul_STRAIGHT => (ROULETTE_BET_TYPES RouletteT_STRAIGHT, default 0 target)
  | Roul_RED => (ROULETTE_BET_TYPES RouletteT_RED, 0)
  | Roul_BLACK => (ROULETTE_BET_TYPES RouletteT_BLACK, 0)
  | Roul_EVEN => (ROULETTE_BET_TYPES RouletteT_EVEN, 0)
  | Roul_ODD => (ROULETTE_BET_TYPES RouletteT_ODD, 0)
  | Roul_LOW => (ROULETTE_BET_TYPES RouletteT_LOW, 0)
  | Roul_HIGH => (ROULETTE_BET_TYPES RouletteT_HIGH, 0)
  | Roul_DOZEN_1 => (ROULETTE_BET_TYPES RouletteT_DOZEN, 0)
  | Roul_DOZEN_2 => (ROULETTE_BET_TYPES RouletteT_DOZEN, 1)
  | Roul_DOZEN_3 => (ROULETTE_BET_TYPES RouletteT_DOZEN, 2)
  | Roul_COL_1 => (ROULETTE_BET_TYPES RouletteT_COLUMN, 0)
  | Roul_COL_2 => (ROULETTE_BET_TYPES RouletteT_COLUMN, 1)
  | Roul_COL_3 => (ROULETTE_BET_TYPES RouletteT_COLUMN, 2)
  | Roul_ZERO => (ROULETTE_BET_TYPES RouletteT_STRAIGHT, 0)
  | Roul_SPLIT_H => (ROULETTE_BET_TYPES RouletteT_SPLIT_H, default 0 target)
  | Roul_SPLIT_V => (ROULETTE_BET_TYPES RouletteT_SPLIT_V, default 0 target)
  | Roul_STREET => (ROULETTE_BET_TYPES RouletteT_STREET, default 0 target)
  | Roul_CORNER => (ROULETTE_BET_TYPES RouletteT_CORNER, default 0 target)
  | Roul_SIX_LINE => (ROULETTE_BET_TYPES RouletteT_SIX_LINE, default 0 target)
  end.

Definition rouletteRequiresTarget (type : RouletteBetName) : bool :=
  match type with
  | Roul_STRAIGHT | Roul_SPLIT_H | Roul_SPLIT_V | Roul_STREET | Roul_CORNER | Roul_SIX_LINE => true
  | _ => false
  end.

(** The keys of [SICBO_BET_TYPES] and their codes. *)
Inductive SicBoBetName : Type :=
| Sic_SMALL
| Sic_BIG
| Sic_ODD
| Sic_EVEN
| Sic_TRIPLE_SPECIFIC
| Sic_TRIPLE_ANY
| Sic_DOUBLE_SPECIFIC
| Sic_SUM
| Sic_SINGLE_DIE
| Sic_DOMINO
| Sic_HOP3_EASY
| Sic_HOP3_HARD
| Sic_HOP4_EASY.

Definition SICBO_BET_TYPES (m : SicBoBetName) : Z :=
  match m with
  | Sic_SMALL => 0
  | Sic_BIG => 1
  | Sic_ODD => 2
  | Sic_EVEN => 3
  | Sic_TRIPLE_SPECIFIC => 4
  | Sic_TRIPLE_ANY => 5
  | Sic_DOUBLE_SPECIFIC => 6
  | Sic_SUM => 7
  | Sic_SINGLE_DIE => 8
  | Sic_DOMINO => 9
  | Sic_HOP3_EASY => 10
  | Sic_HOP3_HARD => 11
  | Sic_HOP4_EASY => 12
  end.

(** [key in ...]: the name a text stands for. *)
Definition SicBoBetName_of_string (s : string) : option SicBoBetName :=
  if String.eqb s "SMALL" then Some Sic_SMALL
  else if String.eqb s "BIG" then Some Sic_BIG
  else if String.eqb s "ODD" then Some Sic_ODD
  else if String.eqb s "EVEN" then Some Sic_EVEN
  else if String.eqb s "TRIPLE_SPECIFIC" then Some Sic_TRIPLE_SPECIFIC
  else if String.eqb s "TRIPLE_ANY" then Some Sic_TRIPLE_ANY
  else if String.eqb s "DOUBLE_SPECIFIC" then Some Sic_DOUBLE_SPECIFIC
  else if String.eqb s "SUM" then Some Sic_SUM
  else if String.eqb s "SINGLE_DIE" then Some Sic_SINGLE_DIE
  else if String.eqb s "DOMINO" then Some Sic_DOMINO
  else if String.eqb s "HOP3_EASY" then Some Sic_HOP3_EASY
  else if String.eqb s "HOP3_HARD" then Some Sic_HOP3_HARD
  else if String.eqb s "HOP4_EASY" then Some Sic_HOP4_EASY
  else None.

Definition SicBoBetName_name (b : SicBoBetName) : string :=
  match b with
  | Sic_SMALL => "SMALL"
  | Sic_BIG => "BIG"
  | Sic_ODD => "ODD"
  | Sic_EVEN => "EVEN"
  | Sic_TRIPLE_SPECIFIC => "TRIPLE_SPECIFIC"
  | Sic_TRIPLE_ANY => "TRIPLE_ANY"
  | Sic_DOUBLE_SPECIFIC => "DOUBLE_SPECIFIC"
  | Sic_SUM => "SUM"
  | Sic_SINGLE_DIE => "SINGLE_DIE"
  | Sic_DOMINO => "DOMINO"
  | Sic_HOP3_EASY => "HOP3_EASY"
  | Sic_HOP3_HARD => "HOP3_HARD"
  | Sic_HOP4_EASY => "HOP4_EASY"
  end.

(** [encodeSicBoBet(type, target)], as the pair [(betType, target)]. *)
Definition encodeSicBoBet (type : SicBoBetName) (target : option Z) : Z * Z :=
  (SICBO_BET_TYPES type, default 0 target).

Definition sicboRequiresTarget (type : SicBoBetName) : bool :=
  match type with
  | Sic_TRIPLE_SPECIFIC | Sic_DOUBLE_SPECIFIC | Sic_SUM | Sic_SINGLE_DIE | Sic_DOMINO
  | Sic_HOP3_EASY | Sic_HOP3_HARD | Sic_HOP4_EASY => true
  | _ => false
  end.

(** ** Facts *)

#[export] Instance CrapsBetName_eq_dec : EqDecision CrapsBetName.
Proof. solve_decision. Defined.

#[export] Instance RouletteBetName_eq_dec : EqDecision RouletteBetName.
Proof. solve_decision. Defined.

#[export] Instance SicBoBetName_eq_dec : EqDecision SicBoBetName.
Proof. solve_decision. Defined.

#[export] Instance BaccaratBetName_eq_dec : EqDecision BaccaratBetName.
Proof. solve_decision. Defined.

#[export] Instance GameType_eq_dec : EqDecision GameType.
Proof. solve_decision. Defined.

Lemma CrapsBetName_of_name b : CrapsBetName_of_string (CrapsBetName_name b) = Some b.
Proof. by destruct b. Qed.

Lemma RouletteBetName_of_name b : RouletteBetName_of_string (RouletteBetName_name b) = Some b.
Proof. by destruct b. Qed.

Lemma SicBoBetName_of_name b : SicBoBetName_of_string (SicBoBetName_name b) = Some b.
Proof. by destruct b. Qed.

Lemma BaccaratBetName_of_name b : BaccaratBetName_of_string (BaccaratBetName_name b) = Some b.
Proof. by destruct b. Qed.

Lemma CRAPS_HARDWAY_MAP_Some t c :
  CRAPS_HARDWAY_MAP t = Some c <-> (t, c) ∈ [(4, 8); (6, 9); (8, 10); (10, 11)].
Proof.
  unfold CRAPS_HARDWAY_MAP. split.
  - repeat split_if; intros [=<-]; bprop; subst; set_solver.
  - rewrite !elem_of_cons, elem_of_nil.
    intros [H|[H|[H|[H|[]]]]]; injection H as -> ->; reflexivity.
Qed.

(** Every code and target an encoder produces for an in-range request fits a
    byte, so the stores into the payload lose nothing. *)
Lemma encodeCrapsBet_byte type target :
  0 <= default 0 target < 256 ->
  0 <= (encodeCrapsBet type target).1 < 256 /\ 0 <= (encodeCrapsBet type target).2 < 256.
Proof.
  intros H. destruct type; cbn; try lia.
  destruct target as [t|]; cbn; [|lia].
  unfold CRAPS_HARDWAY_MAP. repeat split_if; cbn; lia.
Qed.

Lemma encodeRouletteBet_byte type target :
  0 <= default 0 target < 256 ->
  0 <= (encodeRouletteBet type target).1 < 256 /\ 0 <= (encodeRouletteBet type target).2 < 256.
Proof. intros H. destruct type; cbn; lia. Qed.

Lemma encodeSicBoBet_byte type target :
  0 <= default 0 target < 256 ->
  0 <= (encodeSicBoBet type target).1 < 256 /\ 0 <= (encodeSicBoBet type target).2 < 256.
Proof. intros H. destruct type; cbn; lia. Qed.
