(* ===== verification/Batch.v ===== *)
(** * Batch payloads

    Every batch encoder of the source (the four atomic batches of the protocol
    package, their website counterparts and the global-table bet list)
    allocates a zeroed array, writes a header and then loops over the bets,
    storing one fixed-size entry at a running offset.  The lemmas here reduce
    such a loop to the list of its entries. *)

From S2P Require Import Prelude JsNum Bytes Reader.

(** The two entry layouts: [type, amount:u64 BE] and [type, value, amount:u64 BE]. *)
Definition entry9 (type amount : Z) : Uint8Array := z2b type :: be_bytes 8 amount.
Definition entry10 (type value amount : Z) : Uint8Array :=
  z2b type :: z2b value :: be_bytes 8 amount.

(** The stores the loops perform for one entry. *)
Definition store9 (payload : Uint8Array) (offset type amount : Z) : result Uint8Array :=
  let payload := set_elem payload offset type in
  setBigUint64BE payload (offset + 1) amount.

Definition store10 (payload : Uint8Array) (offset type value amount : Z) : result Uint8Array :=
  let payload := set_elem payload offset type in
  let payload := set_elem payload (offset + 1) value in
  setBigUint64BE payload (offset + 2) amount.

Lemma length_entry9 t a : length (entry9 t a) = 9%nat.
Proof. reflexivity. Qed.

Lemma length_entry10 t v a : length (entry10 t v a) = 10%nat.
Proof. reflexivity. Qed.

Lemma store9_mid pre old post t a :
  length old = 9%nat ->
  store9 (pre ++ old ++ post) (len pre) t a = Ok (pre ++ entry9 t a ++ post).
Proof.
  intros H. destruct old as [|o0 old]; [done|]. injection H as H. unfold store9.
  simpl app. rewrite set_elem_mid. unfold setBigUint64BE.
  replace (pre ++ z2b t :: old ++ post) with ((pre ++ [z2b t]) ++ old ++ post)
    by by rewrite <- app_assoc.
  replace (len pre + 1) with (len (pre ++ [z2b t])) by (rewrite len_app; done).
  rewrite set_bytes_mid by (by rewrite length_be_bytes). by rewrite <- app_assoc.
Qed.

Lemma store10_mid pre old post t v a :
  length old = 10%nat ->
  store10 (pre ++ old ++ post) (len pre) t v a = Ok (pre ++ entry10 t v a ++ post).
Proof.
  intros H. destruct old as [|o0 old]; [done|]. injection H as H. unfold store10.
  simpl app. rewrite set_elem_mid.
  destruct old as [|o1 old]; [done|]. injection H as H.
  replace (pre ++ z2b t :: (o1 :: old) ++ post) with ((pre ++ [z2b t]) ++ o1 :: old ++ post)
    by by rewrite <- app_assoc.
  replace (len pre + 1) with (len (pre ++ [z2b t])) by (rewrite len_app; done).
  rewrite set_elem_mid. unfold setBigUint64BE.
  replace ((pre ++ [z2b t]) ++ z2b v :: old ++ post)
    with ((pre ++ [z2b t; z2b v]) ++ old ++ post) by by rewrite <- !app_assoc.
  replace (len pre + 2) with (len (pre ++ [z2b t; z2b v])) by (rewrite len_app; done).
  rewrite set_bytes_mid by (by rewrite length_be_bytes). by rewrite <- app_assoc.
Qed.

Lemma zeros_add n m : 0 <= n -> 0 <= m -> zeros (n + m) = zeros n ++ zeros m.
Proof. intros Hn Hm. unfold zeros. by rewrite Z2Nat.inj_add, replicate_add by lia. Qed.

Lemma length_zeros_nat n : length (zeros (Z.of_nat n)) = n.
Proof. unfold zeros. by rewrite length_replicate, Nat2Z.id. Qed.

Section Loop.
Context {A : Type} (w : nat) (entry : A -> result Uint8Array)
  (step : Uint8Array * Z -> A -> result (Uint8Array * Z)).

(** One iteration stores the entry of its bet over [w] bytes, or throws what
    the entry throws. *)
Hypothesis entry_length : forall a e, entry a = Ok e -> length e = w.
Hypothesis step_entry : forall pre old post a, length old = w ->
  step (pre ++ old ++ post, len pre) a
  = (e ← entry a; Ok (pre ++ e ++ post, len pre + Z.of_nat w)).

(** The loop stores the entries one behind the other and throws at the first
    bet whose entry throws. *)
Lemma foldM_batch l pre :
  foldM_result step (pre ++ zeros (len l * Z.of_nat w), len pre) l
  = (es ← mapM_result entry l; Ok (pre ++ concat es, len pre + len l * Z.of_nat w)).
Proof.
  revert pre. induction l as [|a l IH]; intros pre.
  - change (len []) with 0. rewrite Z.mul_0_l, Z.add_0_r. reflexivity.
  - pose proof (len_nonneg l). rewrite len_cons, Z.mul_add_distr_r, Z.mul_1_l, zeros_add by lia.
    cbn [foldM_result mapM_result].
    rewrite step_entry by apply length_zeros_nat.
    destruct (entry a) as [e|] eqn:E; [|done]. simpl.
    pose proof (entry_length _ _ E) as He.
    replace (pre ++ e ++ zeros (len l * Z.of_nat w))
      with ((pre ++ e) ++ zeros (len l * Z.of_nat w)) by by rewrite app_assoc.
    replace (len pre + Z.of_nat w) with (len (pre ++ e)) by (rewrite len_app; unfold len; lia).
    rewrite IH. destruct (mapM_result entry l) as [es|]; [|done]. simpl.
    rewrite <- app_assoc, len_app. do 2 f_equal. unfold len. lia.
Qed.
End Loop.

Lemma mapM_result_Ok {A B} (f : A -> result B) (g : A -> B) l :
  Forall (fun a => f a = Ok (g a)) l -> mapM_result f l = Ok (g <$> l).
Proof.
  induction 1 as [|a l Ha _ IH]; [done|]. simpl. rewrite Ha. simpl. by rewrite IH.
Qed.

Lemma mapM_result_length {A B} (f : A -> result B) l ys :
  mapM_result f l = Ok ys -> length ys = length l.
Proof.
  revert ys. induction l as [|a l IH]; simpl; [by intros ? [=<-]|].
  intros ys. destruct (f a); [|done]. simpl. destruct (mapM_result f l); [|done]. simpl.
  intros [=<-]. simpl. f_equal. by apply IH.
Qed.

Lemma mapM_result_Forall {A B} (f : A -> result B) (P : A -> B -> Prop) l ys :
  (forall a b, f a = Ok b -> P a b) -> mapM_result f l = Ok ys -> Forall2 P l ys.
Proof.
  intros HP. revert ys. induction l as [|a l IH]; simpl; [intros ? [=<-]; constructor|].
  intros ys. destruct (f a) eqn:E; [|done]. simpl. destruct (mapM_result f l); [|done]. simpl.
  intros [=<-]. constructor; [by apply HP|]. by apply IH.
Qed.

Lemma mapM_result_ext {A B C} (f : A -> result C) (g : B -> result C) (h : A -> B) l :
  (forall a, f a = g (h a)) -> mapM_result f l = mapM_result g (h <$> l).
Proof. intros H. induction l as [|a l IH]; [done|]. simpl. by rewrite H, IH. Qed.

(** The header of a batch: opcode and count over the first two cells. *)
Lemma batch_header n w op cnt :
  0 <= n -> 0 <= w ->
  set_elem (set_elem (zeros (2 + n * w)) 0 op) 1 cnt = [z2b op; z2b cnt] ++ zeros (n * w).
Proof.
  intros Hn Hw. rewrite zeros_add by nia. set (tl := zeros (n * w)).
  change (zeros 2 ++ tl) with (x00 :: x00 :: tl).
  pose proof (set_elem_mid [] x00 (x00 :: tl) op) as E0.
  pose proof (set_elem_mid [z2b op] x00 tl cnt) as E1.
  change (len []) with 0 in E0. change (len [z2b op]) with 1 in E1. simpl app in *.
  by rewrite E0, E1.
Qed.

(** A whole batch encoder: refuse the empty list, write the header, run the
    loop. *)
Lemma batch_encode {A} (w : nat) (entry : A -> result Uint8Array) step op msg (bets : list A) :
  (forall a e, entry a = Ok e -> length e = w) ->
  (forall pre old post a, length old = w ->
     step (pre ++ old ++ post, len pre) a
     = (e ← entry a; Ok (pre ++ e ++ post, len pre + Z.of_nat w))) ->
  (_ ← throw_if (len bets =? 0) msg;
   st ← foldM_result step
     (set_elem (set_elem (zeros (2 + len bets * Z.of_nat w)) 0 op) 1 (len bets), 2) bets;
   Ok st.1)
  = match bets with
    | [] => Throw msg
    | _ => es ← mapM_result entry bets; Ok ([z2b op; z2b (len bets)] ++ concat es)
    end.
Proof.
  intros Hlen Hstep. destruct bets as [|b bets]; [done|].
  unfold throw_if. pose proof (len_nonneg bets).
  rewrite (proj2 (Z.eqb_neq _ _)) by (rewrite len_cons; lia). cbn [mbind result_bind].
  rewrite batch_header by (pose proof (len_nonneg (b :: bets)); lia).
  set (h := [z2b op; z2b (len (b :: bets))]). change 2 with (len h).
  rewrite (foldM_batch w entry step Hlen Hstep). by destruct (mapM_result _ _).
Qed.

(** ** The documented batch format

    [[op:u8][count:u8]] followed by [count] entries, as the chain reads it. *)
Definition get_entry9 : R (Z * Z) := t ← get_byte; a ← get_be 8; mret (t, a).
Definition get_entry10 : R (Z * Z * Z) := t ← get_byte; v ← get_byte; a ← get_be 8; mret (t, v, a).

Definition get_batch {E} (get_entry : R E) : R (Z * list E) :=
  op ← get_byte; n ← get_byte; es ← read_count n get_entry; mret (op, es).

Definition u8 (v : Z) : Prop := 0 <= v < 256.
Definition u64 (v : Z) : Prop := 0 <= v < 2 ^ 64.

Lemma reads_entry9 t a : u8 t -> u64 a -> reads get_entry9 (entry9 t a) (t, a).
Proof.
  intros Ht Ha. unfold entry9. change (z2b t :: be_bytes 8 a) with ([z2b t] ++ be_bytes 8 a).
  eapply reads_bind; [by apply reads_get_byte_z|]. cbv beta.
  eapply reads_bind_last; [by apply reads_get_be|]. apply reads_ret.
Qed.

Lemma reads_entry10 t v a :
  u8 t -> u8 v -> u64 a -> reads get_entry10 (entry10 t v a) (t, v, a).
Proof.
  intros Ht Hv Ha. unfold entry10.
  change (z2b t :: z2b v :: be_bytes 8 a) with ([z2b t] ++ [z2b v] ++ be_bytes 8 a).
  eapply reads_bind; [by apply reads_get_byte_z|]. cbv beta.
  eapply reads_bind; [by apply reads_get_byte_z|]. cbv beta.
  eapply reads_bind_last; [by apply reads_get_be|]. apply reads_ret.
Qed.

Lemma reads_batch {E} (get_entry : R E) (enc : E -> Uint8Array) op (es : list E) :
  u8 op -> len es < 256 -> Forall (fun e => reads get_entry (enc e) e) es ->
  reads (get_batch get_entry) ([z2b op; z2b (len es)] ++ concat (enc <$> es)) (op, es).
Proof.
  intros Hop Hn Hes. unfold get_batch. pose proof (len_nonneg es).
  change ([z2b op; z2b (len es)] ++ concat (enc <$> es))
    with ([z2b op] ++ [z2b (len es)] ++ concat (enc <$> es)).
  eapply reads_bind; [by apply reads_get_byte_z|]. cbv beta.
  eapply reads_bind; [apply reads_get_byte_z; lia|]. cbv beta.
  eapply reads_bind_last; [by apply reads_count|]. apply reads_ret.
Qed.

#[export] Instance u8_dec v : Decision (u8 v).
Proof. unfold u8. apply _. Defined.

#[export] Instance u64_dec v : Decision (u64 v).
Proof. unfold u64. apply _. Defined.

(** ** Filling a zeroed array from left to right *)

Lemma set_bytes_zeros a n bs o :
  o = len a -> len bs <= n ->
  set_bytes (a ++ zeros n) o bs = Ok ((a ++ bs) ++ zeros (n - len bs)).
Proof.
  intros -> Hn. pose proof (len_nonneg bs).
  replace n with (len bs + (n - len bs)) at 1 by lia. rewrite zeros_add by lia.
  rewrite set_bytes_mid; [by rewrite <- app_assoc|].
  unfold zeros, len. rewrite length_replicate. lia.
Qed.

Lemma set_elem_zeros a n v o :
  o = len a -> 0 < n -> set_elem (a ++ zeros n) o v = (a ++ [z2b v]) ++ zeros (n - 1).
Proof.
  intros -> Hn. replace n with (1 + (n - 1)) at 1 by lia. rewrite zeros_add by lia.
  change (zeros 1 ++ zeros (n - 1)) with (x00 :: zeros (n - 1)).
  rewrite set_elem_mid. by rewrite <- app_assoc.
Qed.

Lemma zeros_nil n : n = 0 -> zeros n = [].
Proof. intros ->. reflexivity. Qed.

Lemma set_elem_zeros0 n v : 0 < n -> set_elem (zeros n) 0 v = [z2b v] ++ zeros (n - 1).
Proof. exact (set_elem_zeros [] n v 0 eq_refl). Qed.

Lemma set_bytes_zeros0 n bs :
  len bs <= n -> set_bytes (zeros n) 0 bs = Ok (bs ++ zeros (n - len bs)).
Proof. exact (set_bytes_zeros [] n bs 0 eq_refl). Qed.

(** One store of a chain that fills a zeroed array; the lengths are settled by
    [lia] after the [js] equations. *)
Ltac fill_side :=
  autorewrite with js; lia.

Ltac fill :=
  unfold setBigUint64BE, setUint32BE, setUint8;
  repeat first
    [ rewrite set_elem_zeros0 by fill_side
    | rewrite set_bytes_zeros0 by fill_side
    | rewrite set_elem_zeros by fill_side
    | rewrite set_bytes_zeros by fill_side ];
  cbn [mbind result_bind].
