(* ===== verification/ProtocolEncode.v ===== *)
(** * Protocol package: encoders

    [packages/protocol/src]: the move and batch encoders of [encode.ts], the
    game actions of [games/actions.ts], the message codecs of
    [games/blackjack.ts], [games/roulette.ts], [games/craps.ts],
    [games/index.ts], the batch dispatcher of [games/atomic.ts] and the amount
    schema of [schema/base.ts]. *)

From S2P Require Import Prelude JsNum Bytes Reader Constants Batch.

(** ** Single moves ([encode.ts]) *)

Inductive BlackjackMoveAction := Bj_hit | Bj_stand | Bj_double | Bj_split | Bj_deal | Bj_surrender.
Inductive RouletteMoveAction := Rl_place_bet | Rl_spin | Rl_clear_bets.
Inductive CrapsMoveAction := Cr_place_bet | Cr_add_odds | Cr_roll | Cr_clear_bets.

Definition BLACKJACK_OPCODES (a : BlackjackMoveAction) : Z :=
  match a with
  | Bj_hit => BlackjackMove_code BJ_Hit
  | Bj_stand => BlackjackMove_code BJ_Stand
  | Bj_double => BlackjackMove_code BJ_Double
  | Bj_split => BlackjackMove_code BJ_Split
  | Bj_deal => BlackjackMove_code BJ_Deal
  | Bj_surrender => BlackjackMove_code BJ_Surrender
  end.

Definition ROULETTE_OPCODES (a : RouletteMoveAction) : Z :=
  match a with
  | Rl_place_bet => RouletteMove_code RL_PlaceBet
  | Rl_spin => RouletteMove_code RL_Spin
  | Rl_clear_bets => RouletteMove_code RL_ClearBets
  end.

Definition CRAPS_OPCODES (a : CrapsMoveAction) : Z :=
  match a with
  | Cr_place_bet => CrapsMove_code CR_PlaceBet
  | Cr_add_odds => CrapsMove_code CR_AddOdds
  | Cr_roll => CrapsMove_code CR_Roll
  | Cr_clear_bets => CrapsMove_code CR_ClearBets
  end.

Definition encodeBlackjackMove (move : BlackjackMoveAction) : Uint8Array :=
  u8array [BLACKJACK_OPCODES move].

Definition encodeRouletteBet (betType number amount : Z) : result Uint8Array :=
  let buffer := zeros 11 in
  buffer ← setUint8 buffer 0 (RouletteMove_code RL_PlaceBet);
  buffer ← setUint8 buffer 1 betType;
  buffer ← setUint8 buffer 2 number;
  setBigUint64BE buffer 3 amount.

Definition encodeRouletteSpin : Uint8Array := u8array [RouletteMove_code RL_Spin].
Definition encodeRouletteClearBets : Uint8Array := u8array [RouletteMove_code RL_ClearBets].

Record RoulettePlaceBetOptions := {
  rpb_betType : option Z;
  rpb_number : option Z;
  rpb_amount : option Z
}.

Definition encodeRouletteMove (move : RouletteMoveAction)
    (options : option RoulettePlaceBetOptions) : result Uint8Array :=
  match move with
  | Rl_spin => Ok encodeRouletteSpin
  | Rl_clear_bets => Ok encodeRouletteClearBets
  | Rl_place_bet =>
      match options ≫= rpb_betType, options ≫= rpb_number, options ≫= rpb_amount with
      | Some betType, Some number, Some amount => encodeRouletteBet betType number amount
      | _, _, _ => Throw "place_bet requires betType, number, and amount"
      end
  end.

Record CrapsPlaceBetOptions := { cpb_betType : Z; cpb_target : Z; cpb_amount : Z }.

Definition encodeCrapsPlaceBet (options : CrapsPlaceBetOptions) : result Uint8Array :=
  let buffer := zeros 11 in
  buffer ← setUint8 buffer 0 (CrapsMove_code CR_PlaceBet);
  buffer ← setUint8 buffer 1 (cpb_betType options);
  buffer ← setUint8 buffer 2 (cpb_target options);
  setBigUint64BE buffer 3 (cpb_amount options).

Definition encodeCrapsAddOdds (amount : Z) : result Uint8Array :=
  let buffer := zeros 9 in
  buffer ← setUint8 buffer 0 (CrapsMove_code CR_AddOdds);
  setBigUint64BE buffer 1 amount.

Definition encodeCrapsRoll : Uint8Array := u8array [CrapsMove_code CR_Roll].
Definition encodeCrapsClearBets : Uint8Array := u8array [CrapsMove_code CR_ClearBets].

(** [optionsOrAmount]: absent, options, or a bigint. *)
Definition encodeCrapsMove (move : CrapsMoveAction)
    (optionsOrAmount : option (CrapsPlaceBetOptions + Z)) : result Uint8Array :=
  match move with
  | Cr_roll => Ok encodeCrapsRoll
  | Cr_clear_bets => Ok encodeCrapsClearBets
  | Cr_add_odds =>
      match optionsOrAmount with
      | Some (inr amount) => encodeCrapsAddOdds amount
      | _ => Throw "add_odds requires an amount"
      end
  | Cr_place_bet =>
      match optionsOrAmount with
      | Some (inl options) => encodeCrapsPlaceBet options
      | _ => Throw "place_bet requires betType, target, and amount"
      end
  end.

(** ** Atomic batches ([encode.ts], [games/atomic.ts])

    A bet's [type] is a name ([inl]) or a code ([inr]). *)

Record AtomicBetInput := {
  ab_type : string + Z;
  ab_amount : Z;
  ab_target : option Z;
  ab_number : option Z;
  ab_value : option Z
}.

(** [value ?? number ?? target ?? 0]. *)
Definition rawValue (bet : AtomicBetInput) : Z :=
  default 0 (union (ab_value bet) (union (ab_number bet) (ab_target bet))).

Definition invalid_bet_type (s : string) : string := String.append "Invalid bet type: " s.

Definition resolveBaccarat (type : string + Z) : result Z :=
  match type with
  | inl s =>
      match BaccaratBetName_of_string (to_upper s) with
      | None => Throw (invalid_bet_type s)
      | Some key => Ok (encodeBaccaratBet key)
      end
  | inr code => Ok code
  end.

Definition encodeBaccaratAtomicBatch (bets : list AtomicBetInput) : result Uint8Array :=
  _ ← throw_if (len bets =? 0) "No bets provided";
  let payload := zeros (2 + len bets * 9) in
  let payload := set_elem payload 0 (BaccaratMove_code BC_AtomicBatch) in
  let payload := set_elem payload 1 (len bets) in
  st ← foldM_result (fun '(payload, offset) bet =>
      _ ← throw_if (ab_amount bet <=? 0) "Bet amount must be positive";
      betType ← resolveBaccarat (ab_type bet);
      payload ← store9 payload offset betType (ab_amount bet);
      Ok (payload, offset + 9))
    (payload, 2) bets;
  Ok st.1.

Definition resolveRoulette (bet : AtomicBetInput) : result (Z * Z) :=
  match ab_type bet with
  | inl s =>
      match RouletteBetName_of_string (to_upper s) with
      | None => Throw (invalid_bet_type s)
      | Some key => Ok (Constants.encodeRouletteBet key (Some (rawValue bet)))
      end
  | inr code => Ok (code, rawValue bet)
  end.

Definition encodeRouletteAtomicBatch (bets : list AtomicBetInput) : result Uint8Array :=
  _ ← throw_if (len bets =? 0) "No bets provided";
  let payload := zeros (2 + len bets * 10) in
  let payload := set_elem payload 0 (RouletteMove_code RL_AtomicBatch) in
  let payload := set_elem payload 1 (len bets) in
  st ← foldM_result (fun '(payload, offset) bet =>
      _ ← throw_if (ab_amount bet <=? 0) "Bet amount must be positive";
      encoded ← resolveRoulette bet;
      payload ← store10 payload offset encoded.1 encoded.2 (ab_amount bet);
      Ok (payload, offset + 10))
    (payload, 2) bets;
  Ok st.1.

Definition resolveCraps (bet : AtomicBetInput) : result (Z * Z) :=
  match ab_type bet with
  | inl s =>
      match CrapsBetName_of_string (to_upper s) with
      | None => Throw (invalid_bet_type s)
      | Some key => Ok (encodeCrapsBet key (ab_target bet))
      end
  | inr code => Ok (code, default 0 (ab_target bet))
  end.

Definition encodeCrapsAtomicBatch (bets : list AtomicBetInput) : result Uint8Array :=
  _ ← throw_if (len bets =? 0) "No bets provided";
  let payload := zeros (2 + len bets * 10) in
  let payload := set_elem payload 0 (CrapsMove_code CR_AtomicBatch) in
  let payload := set_elem payload 1 (len bets) in
  st ← foldM_result (fun '(payload, offset) bet =>
      _ ← throw_if (ab_amount bet <=? 0) "Bet amount must be positive";
      encoded ← resolveCraps bet;
      payload ← store10 payload offset encoded.1 encoded.2 (ab_amount bet);
      Ok (payload, offset + 10))
    (payload, 2) bets;
  Ok st.1.

Definition resolveSicBo (bet : AtomicBetInput) : result (Z * Z) :=
  match ab_type bet with
  | inl s =>
      match SicBoBetName_of_string (to_upper s) with
      | None => Throw (invalid_bet_type s)
      | Some key => Ok (encodeSicBoBet key (Some (rawValue bet)))
      end
  | inr code => Ok (code, rawValue bet)
  end.

Definition encodeSicBoAtomicBatch (bets : list AtomicBetInput) : result Uint8Array :=
  _ ← throw_if (len bets =? 0) "No bets provided";
  let payload := zeros (2 + len bets * 10) in
  let payload := set_elem payload 0 (SicBoMove_code SB_AtomicBatch) in
  let payload := set_elem payload 1 (len bets) in
  st ← foldM_result (fun '(payload, offset) bet =>
      _ ← throw_if (ab_amount bet <=? 0) "Bet amount must be positive";
      encoded ← resolveSicBo bet;
      payload ← store10 payload offset encoded.1 encoded.2 (ab_amount bet);
      Ok (payload, offset + 10))
    (payload, 2) bets;
  Ok st.1.

Inductive AtomicBatchGame := Atomic_baccarat | Atomic_roulette | Atomic_craps | Atomic_sicbo.

Definition encodeAtomicBatchPayload (game : AtomicBatchGame) (bets : list AtomicBetInput)
    : result Uint8Array :=
  match game with
  | Atomic_baccarat => encodeBaccaratAtomicBatch bets
  | Atomic_roulette => encodeRouletteAtomicBatch bets
  | Atomic_craps => encodeCrapsAtomicBatch bets
  | Atomic_sicbo => encodeSicBoAtomicBatch bets
  end.

(** ** Game actions ([games/actions.ts]) *)

Inductive HiLoAction := Hl_higher | Hl_lower | Hl_same | Hl_cashout.

Definition HILO_OPCODES (a : HiLoAction) : Z :=
  match a with
  | Hl_higher => HiLoMove_code HL_Higher
  | Hl_lower => HiLoMove_code HL_Lower
  | Hl_same => HiLoMove_code HL_Same
  | Hl_cashout => HiLoMove_code HL_Cashout
  end.

Definition encodeHiLoAction (action : HiLoAction) : Uint8Array := u8array [HILO_OPCODES action].

(** The loop over the first five holds; [i] is the loop variable. *)
Fixpoint holdBits (i : Z) (holds : list bool) (acc : Z) : Z :=
  match holds with
  | [] => acc
  | h :: holds' =>
      if 5 <=? i then acc
      else holdBits (i + 1) holds' (if h then js_or acc (js_shl 1 i) else acc)
  end.

Definition encodeVideoPokerHold (holds : list bool) : Uint8Array := u8array [holdBits 0 holds 0].

Inductive CasinoWarAction := Cw_play | Cw_war | Cw_surrender.

Definition CASINO_WAR_OPCODES (a : CasinoWarAction) : Z :=
  match a with
  | Cw_play => CasinoWarMove_code CW_Play
  | Cw_war => CasinoWarMove_code CW_War
  | Cw_surrender => CasinoWarMove_code CW_Surrender
  end.

Definition encodeCasinoWarAction (action : CasinoWarAction) : Uint8Array :=
  u8array [CASINO_WAR_OPCODES action].

Definition encodeCasinoWarTieBet (amount : Z) : result Uint8Array :=
  let payload := zeros 9 in
  let payload := set_elem payload 0 (CasinoWarMove_code CW_SetTieBet) in
  setBigUint64BE payload 1 amount.

Inductive ThreeCardAction := Tc_play | Tc_fold | Tc_reveal.

Definition THREE_CARD_OPCODES (a : ThreeCardAction) : Z :=
  match a with
  | Tc_play => ThreeCardMove_code TC_Play
  | Tc_fold => ThreeCardMove_code TC_Fold
  | Tc_reveal => ThreeCardMove_code TC_Reveal
  end.

Definition encodeThreeCardAction (action : ThreeCardAction) : Uint8Array :=
  u8array [THREE_CARD_OPCODES action].

(** The three optional side bets of a deal ([pairPlus] or [trips], [sixCard],
    [progressive]). *)
Record DealOptions := {
  do_first : option Z;
  do_sixCard : option Z;
  do_progressive : option Z
}.

Definition encodeThreeCardDeal (options : DealOptions) : result Uint8Array :=
  let pairPlus := default 0 (do_first options) in
  let sixCard := default 0 (do_sixCard options) in
  let progressive := default 0 (do_progressive options) in
  let hasSideBets := (0 <? pairPlus) || (0 <? sixCard) || (0 <? progressive) in
  if negb hasSideBets then Ok (u8array [ThreeCardMove_code TC_Deal])
  else
    let payload := zeros 25 in
    let payload := set_elem payload 0 (ThreeCardMove_code TC_AtomicDeal) in
    payload ← setBigUint64BE payload 1 pairPlus;
    payload ← setBigUint64BE payload 9 sixCard;
    setBigUint64BE payload 17 progressive.

Inductive UltimateHoldemAction := Uh_check | Uh_fold | Uh_reveal.

Definition ULTIMATE_HOLDEM_OPCODES (a : UltimateHoldemAction) : Z :=
  match a with
  | Uh_check => UltimateHoldemMove_code UH_Check
  | Uh_fold => UltimateHoldemMove_code UH_Fold
  | Uh_reveal => UltimateHoldemMove_code UH_Reveal
  end.

Definition encodeUltimateHoldemAction (action : UltimateHoldemAction) : Uint8Array :=
  u8array [ULTIMATE_HOLDEM_OPCODES action].

Inductive UltimateHoldemBetMultiplier := Mult1 | Mult2 | Mult3 | Mult4.

Definition ULTIMATE_HOLDEM_BET_OPCODES (m : UltimateHoldemBetMultiplier) : Z :=
  match m with
  | Mult4 => UltimateHoldemMove_code UH_Bet4x
  | Mult3 => UltimateHoldemMove_code UH_Bet3x
  | Mult2 => UltimateHoldemMove_code UH_Bet2x
  | Mult1 => UltimateHoldemMove_code UH_Bet1x
  end.

Definition encodeUltimateHoldemBet (m : UltimateHoldemBetMultiplier) : Uint8Array :=
  u8array [ULTIMATE_HOLDEM_BET_OPCODES m].

Definition encodeUltimateHoldemDeal (options : DealOptions) : result Uint8Array :=
  let trips := default 0 (do_first options) in
  let sixCard := default 0 (do_sixCard options) in
  let progressive := default 0 (do_progressive options) in
  let hasSideBets := (0 <? trips) || (0 <? sixCard) || (0 <? progressive) in
  if negb hasSideBets then Ok (u8array [UltimateHoldemMove_code UH_Deal])
  else
    let payload := zeros 25 in
    let payload := set_elem payload 0 (UltimateHoldemMove_code UH_AtomicDeal) in
    payload ← setBigUint64BE payload 1 trips;
    payload ← setBigUint64BE payload 9 sixCard;
    setBigUint64BE payload 17 progressive.

Inductive GameActionPayload :=
| GA_hilo (action : HiLoAction)
| GA_videopoker (holds : list bool)
| GA_casinowar (action : CasinoWarAction)
| GA_casinowar_tie (amount : Z)
| GA_threecard_deal (options : DealOptions)
| GA_threecard (action : ThreeCardAction)
| GA_ultimate_deal (options : DealOptions)
| GA_ultimate_bet (multiplier : UltimateHoldemBetMultiplier)
| GA_ultimate (action : UltimateHoldemAction).

Definition encodeGameActionPayload (payload : GameActionPayload) : result Uint8Array :=
  match payload with
  | GA_hilo action => Ok (encodeHiLoAction action)
  | GA_videopoker holds => Ok (encodeVideoPokerHold holds)
  | GA_casinowar_tie amount => encodeCasinoWarTieBet amount
  | GA_casinowar action => Ok (encodeCasinoWarAction action)
  | GA_threecard_deal options => encodeThreeCardDeal options
  | GA_threecard action => Ok (encodeThreeCardAction action)
  | GA_ultimate_deal options => encodeUltimateHoldemDeal options
  | GA_ultimate_bet multiplier => Ok (encodeUltimateHoldemBet multiplier)
  | GA_ultimate action => Ok (encodeUltimateHoldemAction action)
  end.

(** ** Messages ([schema/base.ts], [games/*.ts]) *)

Definition MAX_U64 : Z := 2 ^ 64 - 1.

(** The amount schema: a decimal text of at most [MAX_U64], and the strictly
    positive one the moves use.  The result is [BigInt] of the text. *)
Definition betAmountSchema (val : string) : option Z :=
  v ← parse_decimal val; if v <=? MAX_U64 then Some v else None.

Definition positiveBetAmountSchema (val : string) : option Z :=
  v ← betAmountSchema val; if 0 <? v then Some v else None.

Inductive GatewayGameMove :=
| GM_blackjack (move : BlackjackMoveAction)
| GM_roulette_place_bet (betType number : Z) (amount : string)
| GM_roulette_spin
| GM_roulette_clear_bets
| GM_craps_place_bet (betType : Z) (target : option Z) (amount : string)
| GM_craps_add_odds (amount : string)
| GM_craps_roll
| GM_craps_clear_bets.

(** The move schemas: the messages the gateway passes on. *)
Definition moveSchema (m : GatewayGameMove) : bool :=
  match m with
  | GM_roulette_place_bet betType number amount =>
      (0 <=? betType) && (0 <=? number) && (number <=? 36)
      && bool_decide (is_Some (positiveBetAmountSchema amount))
  | GM_craps_place_bet betType target amount =>
      (0 <=? betType) && (0 <=? default 0 target) && (default 0 target <=? 12)
      && bool_decide (is_Some (positiveBetAmountSchema amount))
  | GM_craps_add_odds amount => bool_decide (is_Some (positiveBetAmountSchema amount))
  | _ => true
  end.

(** [BigInt(text)] on a text of decimal digits, the only texts the schema lets
    through.  (Outside them [BigInt] also reads radix prefixes and padding; no
    message that passed the schema gets there.) *)
Definition BigInt_of_string (s : string) : result Z :=
  match parse_decimal s with
  | Some v => Ok v
  | None => Throw "Cannot convert to a BigInt"
  end.

Definition encodeGameMove (message : GatewayGameMove) : result Uint8Array :=
  match message with
  | GM_blackjack move => Ok (encodeBlackjackMove move)
  | GM_roulette_place_bet betType number amount =>
      amount ← BigInt_of_string amount;
      encodeRouletteMove Rl_place_bet
        (Some {| rpb_betType := Some betType; rpb_number := Some number; rpb_amount := Some amount |})
  | GM_roulette_spin => encodeRouletteMove Rl_spin None
  | GM_roulette_clear_bets => encodeRouletteMove Rl_clear_bets None
  | GM_craps_place_bet betType target amount =>
      amount ← BigInt_of_string amount;
      encodeCrapsMove Cr_place_bet
        (Some (inl {| cpb_betType := betType; cpb_target := default 0 target; cpb_amount := amount |}))
  | GM_craps_add_odds amount =>
      amount ← BigInt_of_string amount;
      encodeCrapsMove Cr_add_odds (Some (inr amount))
  | GM_craps_roll => encodeCrapsMove Cr_roll None
  | GM_craps_clear_bets => encodeCrapsMove Cr_clear_bets None
  end.

(** ** The atomic batches, in one definition each

    [atomicEntry game bet] is the entry the chain documents for a bet;
    [atomicHeader game] its opcode and entry width. *)

Definition atomicOp (game : AtomicBatchGame) : Z :=
  match game with
  | Atomic_baccarat => BaccaratMove_code BC_AtomicBatch
  | Atomic_roulette => RouletteMove_code RL_AtomicBatch
  | Atomic_craps => CrapsMove_code CR_AtomicBatch
  | Atomic_sicbo => SicBoMove_code SB_AtomicBatch
  end.

(** Code and value of a bet; baccarat entries carry no value. *)
Definition atomicResolve (game : AtomicBatchGame) (bet : AtomicBetInput) : result (Z * Z) :=
  match game with
  | Atomic_baccarat => t ← resolveBaccarat (ab_type bet); Ok (t, 0)
  | Atomic_roulette => resolveRoulette bet
  | Atomic_craps => resolveCraps bet
  | Atomic_sicbo => resolveSicBo bet
  end.

Definition atomicEncode (game : AtomicBatchGame) (tv : Z * Z) (amount : Z) : Uint8Array :=
  match game with
  | Atomic_baccarat => entry9 tv.1 amount
  | _ => entry10 tv.1 tv.2 amount
  end.

Definition atomicEntry (game : AtomicBatchGame) (bet : AtomicBetInput) : result Uint8Array :=
  _ ← throw_if (ab_amount bet <=? 0) "Bet amount must be positive";
  tv ← atomicResolve game bet;
  Ok (atomicEncode game tv (ab_amount bet)).

Definition atomicWidth (game : AtomicBatchGame) : nat :=
  match game with
  | Atomic_baccarat => 9
  | _ => 10
  end.

Lemma atomicEntry_length game bet e : atomicEntry game bet = Ok e -> length e = atomicWidth game.
Proof.
  unfold atomicEntry, throw_if. split_if; [done|]. cbn.
  destruct (atomicResolve game bet) as [[t v]|]; [|done]. cbn. intros [=<-]. by destruct game.
Qed.

(** One loop body of a batch encoder, on a buffer whose next cells are free. *)
Ltac batch_step Hlen :=
  unfold atomicEntry, atomicResolve, throw_if, mbind, result_bind;
  split_if; [reflexivity|]; cbn;
  repeat match goal with
  | |- context [store9 _ _ _ _] => rewrite store9_mid by exact Hlen
  | |- context [store10 _ _ _ _ _] => rewrite store10_mid by exact Hlen
  | |- context [match ?x with Ok _ => _ | Throw _ => _ end] => destruct x eqn:?; cbn
  end; reflexivity.

(** Every batch encoder is: refuse the empty list, then header and entries. *)
Lemma encodeAtomicBatch_entries game bets :
  encodeAtomicBatchPayload game bets
  = match bets with
    | [] => Throw "No bets provided"
    | _ => es ← mapM_result (atomicEntry game) bets;
           Ok ([z2b (atomicOp game); z2b (len bets)] ++ concat es)
    end.
Proof.
  destruct game;
    [ refine (batch_encode 9 (atomicEntry Atomic_baccarat) _ _ _ bets _ _)
    | refine (batch_encode 10 (atomicEntry Atomic_roulette) _ _ _ bets _ _)
    | refine (batch_encode 10 (atomicEntry Atomic_craps) _ _ _ bets _ _)
    | refine (batch_encode 10 (atomicEntry Atomic_sicbo) _ _ _ bets _ _) ];
    try apply atomicEntry_length;
    intros pre old post a Hlen; batch_step Hlen.
Qed.

(** ** Batches: what is refused, and what the chain reads back *)

(** A bet the encoder of [game] refuses: a non-positive amount or a name that
    is not a key of the game's table. *)
Definition atomicRefused (game : AtomicBatchGame) (bet : AtomicBetInput) : bool :=
  (ab_amount bet <=? 0)
  || match ab_type bet with
     | inr _ => false
     | inl s =>
         match game with
         | Atomic_baccarat => bool_decide (BaccaratBetName_of_string (to_upper s) = None)
         | Atomic_roulette => bool_decide (RouletteBetName_of_string (to_upper s) = None)
         | Atomic_craps => bool_decide (CrapsBetName_of_string (to_upper s) = None)
         | Atomic_sicbo => bool_decide (SicBoBetName_of_string (to_upper s) = None)
         end
     end.

(** The number a bet carries beside its name or code. *)
Definition atomicRaw (game : AtomicBatchGame) (bet : AtomicBetInput) : Z :=
  match game with
  | Atomic_baccarat => 0
  | Atomic_craps => default 0 (ab_target bet)
  | _ => rawValue bet
  end.

(** Amount, code and number fit the cells of an entry. *)
Definition atomicInRange (game : AtomicBatchGame) (bet : AtomicBetInput) : Prop :=
  u64 (ab_amount bet) /\ u8 (atomicRaw game bet)
  /\ match ab_type bet with inl _ => True | inr code => u8 code end.

(** How the chain reads an entry: code, value, amount. *)
Definition get_atomic (game : AtomicBatchGame) : R (Z * Z * Z) :=
  match game with
  | Atomic_baccarat => e ← get_entry9; mret (e.1, 0, e.2)
  | _ => get_entry10
  end.

#[export] Instance atomicInRange_dec game bet : Decision (atomicInRange game bet).
Proof. unfold atomicInRange. destruct (ab_type bet); apply _. Defined.

Lemma atomicEntry_refused game bet :
  atomicRefused game bet = negb (is_ok (atomicEntry game bet)).
Proof.
  unfold atomicRefused, atomicEntry, throw_if. destruct (ab_amount bet <=? 0); [done|].
  cbn. destruct game; cbn; unfold resolveBaccarat, resolveRoulette, resolveCraps, resolveSicBo;
    destruct (ab_type bet) as [s|c]; try done;
    match goal with |- context [bool_decide (?x = None)] => by destruct x end.
Qed.

Lemma mapM_result_is_ok {A B} (f : A -> result B) l :
  is_ok (mapM_result f l) = forallb (fun a => is_ok (f a)) l.
Proof.
  induction l as [|a l IH]; [done|]. simpl. destruct (f a); [|done].
  cbn. rewrite <- IH. by destruct (mapM_result f l).
Qed.

Lemma atomicResolve_range game bet tv :
  atomicInRange game bet -> atomicResolve game bet = Ok tv -> u8 tv.1 /\ u8 tv.2.
Proof.
  intros (_ & Hr & Hc) H. unfold u8, atomicRaw in *.
  destruct game; cbn in H;
    unfold resolveBaccarat, resolveRoulette, resolveCraps, resolveSicBo, mbind, result_bind in H;
    destruct (ab_type bet) as [s|c]; repeat case_match; simplify_eq; cbn -[rawValue] in *; try lia.
  - match goal with b : BaccaratBetName |- _ => destruct b; cbn; lia end.
  - apply encodeRouletteBet_byte. cbn. lia.
  - apply encodeCrapsBet_byte. lia.
  - match goal with b : SicBoBetName |- _ => destruct b; cbn -[rawValue]; lia end.
Qed.

Lemma reads_get_atomic game tv a :
  u8 tv.1 -> u8 tv.2 -> u64 a -> (game = Atomic_baccarat -> tv.2 = 0) ->
  reads (get_atomic game) (atomicEncode game tv a) (tv.1, tv.2, a).
Proof.
  intros Ht Hv Ha H0. destruct game; cbn; try by apply reads_entry10.
  eapply reads_bind_last; [by apply reads_entry9|]. cbn. rewrite H0 by done. apply reads_ret.
Qed.

(** What the chain is meant to read for an accepted batch. *)
Definition atomicDecoded (game : AtomicBatchGame) (bet : AtomicBetInput) : Z * Z * Z :=
  match atomicResolve game bet with
  | Ok tv => (tv.1, tv.2, ab_amount bet)
  | Throw _ => (0, 0, 0)
  end.

Lemma atomicEntry_reads game bet e :
  atomicInRange game bet -> atomicEntry game bet = Ok e ->
  reads (get_atomic game) e (atomicDecoded game bet).
Proof.
  intros Hin. unfold atomicEntry, atomicDecoded, throw_if. split_if; [done|]. cbn.
  destruct (atomicResolve game bet) as [tv|] eqn:E; [|done]. cbn. intros [=<-].
  destruct (atomicResolve_range _ _ _ Hin E) as [Ht Hv].
  apply reads_get_atomic; [done|done|apply Hin|].
  intros ->. cbn in E. destruct (resolveBaccarat (ab_type bet)); [|done]. by injection E as <-.
Qed.

Lemma reads_entries game bets es :
  Forall (atomicInRange game) bets -> mapM_result (atomicEntry game) bets = Ok es ->
  reads (read_count (len bets) (get_atomic game)) (concat es) (atomicDecoded game <$> bets).
Proof.
  unfold read_count, len. rewrite Nat2Z.id. revert es.
  induction bets as [|b bets IH]; intros es Hin; cbn [mapM_result].
  - intros [=<-]. apply reads_ret.
  - inversion Hin as [|? ? Hb Hbs]; subst.
    destruct (atomicEntry game b) as [e|] eqn:Eb; [|done]. cbn.
    destruct (mapM_result (atomicEntry game) bets) as [es'|] eqn:Ebs; [|done]. cbn.
    intros [=<-]. cbn. eapply reads_bind; [by apply atomicEntry_reads|]. cbv beta.
    eapply reads_bind_last; [by apply IH|]. apply reads_ret.
Qed.

Lemma atomic_batch_reads game bets payload :
  len bets < 256 -> Forall (atomicInRange game) bets ->
  encodeAtomicBatchPayload game bets = Ok payload ->
  run (get_batch (get_atomic game)) payload = Ok (atomicOp game, atomicDecoded game <$> bets).
Proof.
  intros Hlen Hin. rewrite encodeAtomicBatch_entries.
  destruct bets as [|b bets]; [done|]. set (l := b :: bets) in *.
  destruct (mapM_result (atomicEntry game) l) as [es|] eqn:E; [|done]. cbn. intros [=<-].
  apply reads_run. change (z2b (atomicOp game) :: z2b (len l) :: concat es)
    with ([z2b (atomicOp game)] ++ [z2b (len l)] ++ concat es).
  pose proof (len_nonneg l). unfold get_batch.
  eapply reads_bind; [apply reads_get_byte_z; by destruct game|]. cbv beta.
  eapply reads_bind; [by apply reads_get_byte_z|]. cbv beta.
  eapply reads_bind_last; [by apply reads_entries|]. apply reads_ret.
Qed.

Lemma length_concat_entries game bets es :
  mapM_result (atomicEntry game) bets = Ok es ->
  length (concat es) = (length bets * atomicWidth game)%nat.
Proof.
  revert es. induction bets as [|b bets IH]; intros es; simpl; [by intros [=<-]|].
  destruct (atomicEntry game b) as [e|] eqn:Eb; [|done]. cbn.
  destruct (mapM_result (atomicEntry game) bets) as [es'|] eqn:Ebs; [|done]. cbn.
  intros [=<-]. cbn. rewrite length_app, (IH es') by done. by rewrite (atomicEntry_length _ _ _ Eb).
Qed.

Lemma atomic_batch_length game bets payload :
  encodeAtomicBatchPayload game bets = Ok payload ->
  len payload = 2 + len bets * Z.of_nat (atomicWidth game).
Proof.
  rewrite encodeAtomicBatch_entries. destruct bets as [|b bets]; [done|].
  destruct (mapM_result (atomicEntry game) (b :: bets)) as [es|] eqn:E; [|done]. cbn.
  intros [=<-]. rewrite !len_cons. unfold len. rewrite (length_concat_entries _ _ _ E). simpl. lia.
Qed.

(** ** Messages *)

Definition get_place : R (Z * Z * Z * Z) :=
  op ← get_byte; t ← get_byte; v ← get_byte; a ← get_be 8; mret (op, t, v, a).

Definition get_amount : R (Z * Z) := op ← get_byte; a ← get_be 8; mret (op, a).

Lemma positiveBetAmountSchema_Some s v :
  positiveBetAmountSchema s = Some v -> parse_decimal s = Some v /\ 0 < v /\ u64 v.
Proof.
  unfold positiveBetAmountSchema, betAmountSchema, MAX_U64, u64.
  destruct (parse_decimal s) as [x|]; [|done]. cbn. repeat (split_if; cbn; [|done]). bprop.
  intros [=<-]. repeat split; try done; lia.
Qed.

Lemma BigInt_of_amount s v : positiveBetAmountSchema s = Some v -> BigInt_of_string s = Ok v.
Proof. intros H. apply positiveBetAmountSchema_Some in H as [H _]. unfold BigInt_of_string. by rewrite H. Qed.

Lemma reads_place op t v a :
  u8 op -> u8 v -> u64 a ->
  reads get_place (z2b op :: z2b t :: z2b v :: be_bytes 8 a) (op, t mod 256, v, a).
Proof.
  intros Ho Hv Ha.
  change (z2b op :: z2b t :: z2b v :: be_bytes 8 a)
    with ([z2b op] ++ [z2b t] ++ [z2b v] ++ be_bytes 8 a). unfold get_place.
  eapply reads_bind; [by apply reads_get_byte_z|]. cbv beta.
  eapply reads_bind; [apply reads_get_byte|]. cbv beta.
  eapply reads_bind; [by apply reads_get_byte_z|]. cbv beta. rewrite b2z_z2b.
  eapply reads_bind_last; [by apply reads_get_be|]. apply reads_ret.
Qed.

Lemma reads_amount op a : u8 op -> u64 a -> reads get_amount (z2b op :: be_bytes 8 a) (op, a).
Proof.
  intros Ho Ha. change (z2b op :: be_bytes 8 a) with ([z2b op] ++ be_bytes 8 a).
  eapply reads_bind; [by apply reads_get_byte_z|]. cbv beta.
  eapply reads_bind_last; [by apply reads_get_be|]. apply reads_ret.
Qed.

Lemma encodeRouletteBet_layout t v a :
  encodeRouletteBet t v a = Ok (z2b 0 :: z2b t :: z2b v :: be_bytes 8 a).
Proof. reflexivity. Qed.

Lemma encodeCrapsPlaceBet_layout t v a :
  encodeCrapsPlaceBet {| cpb_betType := t; cpb_target := v; cpb_amount := a |}
  = Ok (z2b 0 :: z2b t :: z2b v :: be_bytes 8 a).
Proof. reflexivity. Qed.

Lemma encodeCrapsAddOdds_layout a : encodeCrapsAddOdds a = Ok (z2b 1 :: be_bytes 8 a).
Proof. reflexivity. Qed.

(** What a payload says, by kind of message. *)
Definition move_says (m : GatewayGameMove) (p : Uint8Array) : Prop :=
  match m with
  | GM_roulette_place_bet t v amt =>
      run get_place p = Ok (0, t mod 256, v, default 0 (positiveBetAmountSchema amt))
  | GM_craps_place_bet t v amt =>
      run get_place p = Ok (0, t mod 256, default 0 v, default 0 (positiveBetAmountSchema amt))
  | GM_craps_add_odds amt => run get_amount p = Ok (1, default 0 (positiveBetAmountSchema amt))
  | GM_blackjack mv => to_numbers p = [BLACKJACK_OPCODES mv]
  | GM_roulette_spin => to_numbers p = [1]
  | GM_roulette_clear_bets => to_numbers p = [2]
  | GM_craps_roll => to_numbers p = [2]
  | GM_craps_clear_bets => to_numbers p = [3]
  end.

(** ** Theorems *)

(** The atomic batches in the documented format: for each of the four games, a batch
    of fewer than 256 bets whose amounts fit u64 and whose codes and targets fit
    a byte, once accepted, is read back by the documented format as exactly the
    submitted bets, in order, with their codes, targets and amounts. *)
Theorem atomic_batch_reads_back game bets payload :
  len bets < 256 -> Forall (atomicInRange game) bets ->
  encodeAtomicBatchPayload game bets = Ok payload ->
  run (get_batch (get_atomic game)) payload = Ok (atomicOp game, atomicDecoded game <$> bets).
Proof. apply atomic_batch_reads. Qed.

Definition bet (type : string + Z) (amount : Z) (target : option Z) : AtomicBetInput :=
  {| ab_type := type; ab_amount := amount; ab_target := target; ab_number := None; ab_value := None |}.

Definition sample_bets : list AtomicBetInput :=
  [bet (inl "pass") 100 None; bet (inl "HARDWAY") 25 (Some 6); bet (inr 7) 300 (Some 11)].

Definition sample_payload : Uint8Array :=
  u8array [4; 3; 0; 0; 0; 0; 0; 0; 0; 0; 0; 100; 9; 0; 0; 0; 0; 0; 0; 0; 0; 25;
           7; 11; 0; 0; 0; 0; 0; 0; 1; 44].

Lemma atomic_batch_reads_back_witness :
  encodeAtomicBatchPayload Atomic_craps sample_bets = Ok sample_payload
  /\ run (get_batch (get_atomic Atomic_craps)) sample_payload
     = Ok (4, [(0, 0, 100); (9, 0, 25); (7, 11, 300)]).
Proof.
  split; [vm_compute; reflexivity|].
  apply (atomic_batch_reads_back Atomic_craps sample_bets sample_payload);
    [vm_compute; reflexivity | refine (bool_decide_unpack _ _); vm_compute; exact I | vm_compute; reflexivity].
Defined.

(** What the batch encoders refuse: a batch is accepted exactly when it is
    not empty and no bet has a non-positive amount or an unknown name; one bad
    bet refuses the whole batch, whatever stands before or behind it. *)
Theorem atomic_batch_accepts game bets :
  is_ok (encodeAtomicBatchPayload game bets)
  = negb (len bets =? 0) && forallb (fun b => negb (atomicRefused game b)) bets.
Proof.
  rewrite encodeAtomicBatch_entries. destruct bets as [|b bets]; [done|].
  rewrite len_cons, (proj2 (Z.eqb_neq _ _)) by (pose proof (len_nonneg bets); lia).
  transitivity (is_ok (mapM_result (atomicEntry game) (b :: bets)));
    [by destruct (mapM_result _ _)|].
  rewrite mapM_result_is_ok. cbn [negb andb].
  induction (b :: bets) as [|x l IH]; [done|]. cbn [forallb].
  by rewrite IH, atomicEntry_refused, negb_involutive.
Qed.

(** Every move message the schemas accept is encoded without an exception,
    and the payload, read in the documented layout, carries its opcode, its
    number or target and its exact amount; the bet type arrives modulo 256. *)
Theorem gateway_move_faithful m :
  moveSchema m = true -> exists p, encodeGameMove m = Ok p /\ move_says m p.
Proof.
  destruct m as [mv|t v amt| | |t v amt|amt| |]; cbn [moveSchema]; intros H; bprop.
  - exists (encodeBlackjackMove mv). split; [done|]. by destruct mv.
  - destruct H0 as [a Ha]. destruct (positiveBetAmountSchema_Some _ _ Ha) as (_ & _ & Hu).
    eexists. cbn [encodeGameMove]. rewrite (BigInt_of_amount _ _ Ha). split; [reflexivity|].
    cbn [move_says]. rewrite Ha. apply reads_run, reads_place; unfold u8; cbn; lia || done.
  - by exists encodeRouletteSpin.
  - by exists encodeRouletteClearBets.
  - destruct H0 as [a Ha]. destruct (positiveBetAmountSchema_Some _ _ Ha) as (_ & _ & Hu).
    eexists. cbn [encodeGameMove]. rewrite (BigInt_of_amount _ _ Ha). split; [reflexivity|].
    cbn [move_says]. rewrite Ha. apply reads_run, reads_place; unfold u8; cbn; lia || done.
  - destruct H as [a Ha]. destruct (positiveBetAmountSchema_Some _ _ Ha) as (_ & _ & Hu).
    eexists. cbn [encodeGameMove]. rewrite (BigInt_of_amount _ _ Ha). split; [reflexivity|].
    cbn [move_says]. rewrite Ha. apply reads_run, reads_amount; unfold u8; cbn; lia || done.
  - by exists encodeCrapsRoll.
  - by exists encodeCrapsClearBets.
Qed.

Lemma gateway_move_faithful_witness :
  exists p, encodeGameMove (GM_craps_place_bet 5 (Some 6) "18446744073709551615") = Ok p
    /\ run get_place p = Ok (0, 5, 6, 18446744073709551615).
Proof.
  apply (gateway_move_faithful (GM_craps_place_bet 5 (Some 6) "18446744073709551615")).
  vm_compute. reflexivity.
Defined.

(** The schemas bound a bet type only from below, so a craps or roulette
    message whose bet type is 256 too large is accepted as well and is encoded
    as the very same payload. *)
Theorem betType_aliases betType target number amount :
  moveSchema (GM_craps_place_bet betType target amount) = true ->
  moveSchema (GM_roulette_place_bet betType number amount) = true ->
  moveSchema (GM_craps_place_bet (betType + 256) target amount) = true
  /\ moveSchema (GM_roulette_place_bet (betType + 256) number amount) = true
  /\ encodeGameMove (GM_craps_place_bet (betType + 256) target amount)
     = encodeGameMove (GM_craps_place_bet betType target amount)
  /\ encodeGameMove (GM_roulette_place_bet (betType + 256) number amount)
     = encodeGameMove (GM_roulette_place_bet betType number amount).
Proof.
  cbn [moveSchema]. intros Hc Hr.
  assert (E : z2b (betType + 256) = z2b betType).
  { apply b2z_inj. rewrite !b2z_z2b. replace (betType + 256) with (betType + 1 * 256) by lia.
    by rewrite Z.mod_add by lia. }
  apply andb_true_iff in Hc as [Hc Ha], Hr as [Hr _].
  rewrite Ha, !andb_true_r. bprop. zcmp. repeat split; try done.
  - cbn. destruct (BigInt_of_string amount); [|done]. cbn.
    rewrite !encodeCrapsPlaceBet_layout. by rewrite E.
  - cbn. destruct (BigInt_of_string amount); [|done]. cbn.
    rewrite !encodeRouletteBet_layout. by rewrite E.
Qed.

Lemma betType_aliases_witness :
  moveSchema (GM_craps_place_bet (4 + 256) None "10") = true
  /\ moveSchema (GM_roulette_place_bet (4 + 256) 0 "10") = true
  /\ encodeGameMove (GM_craps_place_bet (4 + 256) None "10")
     = encodeGameMove (GM_craps_place_bet 4 None "10")
  /\ encodeGameMove (GM_roulette_place_bet (4 + 256) 0 "10")
     = encodeGameMove (GM_roulette_place_bet 4 0 "10").
Proof. apply (betType_aliases 4 None 0 "10"); vm_compute; reflexivity. Defined.

(** The hold byte of video poker: bit [i] of the payload is the [i]-th
    hold for the five cards, missing holds count as not held, further ones are
    ignored and no other bit is set. *)
Theorem videoPokerHold_bits holds :
  exists bits, to_numbers (encodeVideoPokerHold holds) = [bits] /\ 0 <= bits < 32
    /\ forall i, (i < 5)%nat -> Z.testbit bits (Z.of_nat i) = default false (holds !! i).
Proof.
  assert (Hcut : forall l k acc, 5 <= k -> holdBits k l acc = acc).
  { intros [|h l] k acc Hk; [done|]. cbn. by rewrite (proj2 (Z.leb_le _ _)). }
  exists (holdBits 0 holds 0). unfold encodeVideoPokerHold.
  assert (0 <= holdBits 0 holds 0 < 32
    /\ forall i, (i < 5)%nat -> Z.testbit (holdBits 0 holds 0) (Z.of_nat i) = default false (holds !! i))
    as [Hr Hb].
  { do 5 (destruct holds as [|[] holds]; [split; [vm_compute; split; congruence|];
      intros i Hi; do 5 (destruct i as [|i]; [reflexivity|]); lia|..]);
    cbn; rewrite ?Hcut by lia; (split; [vm_compute; split; congruence|]);
    intros i Hi; do 5 (destruct i as [|i]; [reflexivity|]); lia. }
  repeat split; try done; try lia.
  cbn. by rewrite b2z_z2b, Z.mod_small by lia.
Qed.
