(* ===== verification/BinaryReader.v ===== *)
(** * The gateway's binary reader

    [BinaryReader] of [gateway/src/codec/events.ts]: a cursor over a received
    message.  Every read checks what is left, except [skip]; the lengths that
    steer it are varints or big-endian integers of the message itself. *)

From S2P Require Import Prelude JsNum Bytes Reader Batch.

(** ** The operations *)

(** [this.data[this.offset++]] behind its bounds check.  The offset is below
    the length there; it is below zero after a negative length, and the element
    is then [undefined]. *)
Definition readU8 : R Z := fun r =>
  if len (rd_data r) <=? rd_offset r then Throw "End of buffer"
  else Ok (default undefined (elem (rd_data r) (rd_offset r)),
           Reader (rd_data r) (rd_offset r + 1)).

(** The common shape of the fixed-width reads: check, view access, advance. *)
Definition need {A} (n : Z) (get : Uint8Array -> Z -> result A) : R A := fun r =>
  if len (rd_data r) - rd_offset r <? n then Throw "End of buffer"
  else match get (rd_data r) (rd_offset r) with
       | Ok v => Ok (v, Reader (rd_data r) (rd_offset r + n))
       | Throw e => Throw e
       end.

Definition readU16LE : R Z := need 2 getUint16LE.
Definition readU16BE : R Z := need 2 getUint16BE.
Definition readU32LE : R Z := need 4 getUint32LE.
Definition readU32BE : R Z := need 4 getUint32BE.
Definition readI64LE : R Z := need 8 getBigInt64LE.
Definition readI64BE : R Z := need 8 getBigInt64BE.
Definition readU64LE : R Z := need 8 getBigUint64LE.
Definition readU64BE : R Z := need 8 getBigUint64BE.

Definition readBool : R bool := v ← readU8; mret (negb (v =? 0)).

Definition readBytes (length : Z) : R Uint8Array := fun r =>
  if len (rd_data r) - rd_offset r <? length then Throw "End of buffer"
  else Ok (slice (rd_data r) (rd_offset r) (rd_offset r + length),
           Reader (rd_data r) (rd_offset r + length)).

Definition readPublicKey : R Uint8Array := readBytes 32.

(** The varint loop.  The bit operators turn an [undefined] element into 0.
    The sixth iteration at the latest ends the loop: [shift] is then 35. *)
Fixpoint readVarint_loop (fuel : nat) (result shift : Z) : R Z := fun r =>
  match fuel with
  | O => Throw "out of fuel"
  | S fuel' =>
      if len (rd_data r) <=? rd_offset r then Throw "End of buffer reading varint"
      else
        let byte := default 0 (elem (rd_data r) (rd_offset r)) in
        let r' := Reader (rd_data r) (rd_offset r + 1) in
        let result := js_or result (js_shl (js_and byte 0x7f) shift) in
        if js_and byte 0x80 =? 0 then Ok (result, r')
        else
          let shift := shift + 7 in
          if 35 <? shift then Throw "Varint too long"
          else readVarint_loop fuel' result shift r'
  end.

Definition readVarint : R Z := readVarint_loop 6 0 0.

Definition readVec : R Uint8Array :=
  length ← readVarint;
  if 10000 <? length then throw "Vec length too large" else readBytes length.

Definition readString : R string := bytes ← readVec; mret (TextDecoder_decode bytes).

Definition readStringVec : R (list string) := count ← readVarint; read_count count readString.

Definition readStringU32 : R string :=
  length ← readU32BE;
  if 10000 <? length then throw "String length too large"
  else bytes ← readBytes length; mret (TextDecoder_decode bytes).

Definition skip (bytes : Z) : R unit := advance bytes.

Definition readStringU32Bytes : R unit :=
  length ← readU32BE;
  if 10000 <? length then throw "String length too large" else skip length.

Definition readStringVecU32 : R (list string) :=
  count ← readU32BE;
  if 10000 <? count then throw "String vec length too large"
  else read_count count readStringU32.

Definition readOptionU64LE : R (option Z) :=
  hasValue ← readBool;
  if (hasValue : bool) then v ← readU64LE; mret (Some v) else mret None.

Definition readOptionU64BE : R (option Z) :=
  hasValue ← readBool;
  if (hasValue : bool) then v ← readU64BE; mret (Some v) else mret None.

Record PlayerBalanceSnapshot := { chips : Z; vusdt : Z; rng : Z }.

Definition readPlayerBalanceSnapshot : R PlayerBalanceSnapshot :=
  chips ← readU64BE; vusdt ← readU64BE; rng ← readU64BE;
  mret {| chips := chips; vusdt := vusdt; rng := rng |}.

(** ** The wire format of the values *)

Definition i64 (v : Z) : Prop := - 2 ^ 63 <= v < 2 ^ 63.

(** Unsigned LEB128, most frequent form: [varint n v] spends at most [n]
    bytes. *)
Fixpoint leb128 (fuel : nat) (v : Z) : Uint8Array :=
  match fuel with
  | O => []
  | S fuel' => if v <? 128 then [z2b v] else z2b (v mod 128 + 128) :: leb128 fuel' (v / 128)
  end.

Definition varint (v : Z) : Uint8Array := leb128 5 v.

Definition string_u32 (s : string) : Uint8Array :=
  be_bytes 4 (len (bytes_of_string s)) ++ bytes_of_string s.

Definition option_u64 (v : option Z) : Uint8Array :=
  match v with
  | None => [x00]
  | Some v => x01 :: be_bytes 8 v
  end.

Definition balances (b : PlayerBalanceSnapshot) : Uint8Array :=
  be_bytes 8 (chips b) ++ be_bytes 8 (vusdt b) ++ be_bytes 8 (rng b).

Definition balances_ok (b : PlayerBalanceSnapshot) : Prop :=
  u64 (chips b) /\ u64 (vusdt b) /\ u64 (rng b).

#[export] Instance i64_dec v : Decision (i64 v).
Proof. unfold i64. apply _. Defined.

#[export] Instance balances_ok_dec b : Decision (balances_ok b).
Proof. unfold balances_ok. apply _. Defined.

(** Text the reader takes over unchanged: short and ASCII. *)
Definition text_ok (s : string) : Prop :=
  len (bytes_of_string s) <= 10000 /\ ascii_bytes (bytes_of_string s).

#[export] Instance text_ok_dec s : Decision (text_ok s).
Proof. unfold text_ok. apply _. Defined.

(** ** Reading what was written *)

Lemma reads_readU8 b : reads readU8 [b] (b2z b).
Proof.
  intros pre post. unfold readU8. cbn [rd_data rd_offset app].
  rewrite elem_mid. cbn [default]. autorewrite with js.
  pose proof (len_nonneg post). zcmp. done.
Qed.

Lemma reads_readU8_z v : u8 v -> reads readU8 [z2b v] v.
Proof. intros H. rewrite <- (b2z_z2b_small v H) at 2. apply reads_readU8. Qed.

Lemma reads_need {A} n (get : Uint8Array -> Z -> result A) bs v :
  len bs = n ->
  (forall pre post, get (pre ++ bs ++ post) (len pre) = Ok v) ->
  reads (need n get) bs v.
Proof.
  intros Hn Hget pre post. unfold need. cbn [rd_data rd_offset].
  autorewrite with js. pose proof (len_nonneg post). zcmp. by rewrite Hget, Hn.
Qed.

Lemma reads_view n (dec : Uint8Array -> Z) bs v :
  len bs = Z.of_nat n -> dec bs = v ->
  reads (need (Z.of_nat n) (fun d o => dec <$> view_bytes d o n)) bs v.
Proof.
  intros Hn <-. apply reads_need; [done|]. intros pre post.
  rewrite view_bytes_mid by (unfold len in Hn; lia). done.
Qed.

Lemma reads_readU16BE v : 0 <= v < 2 ^ 16 -> reads readU16BE (be_bytes 2 v) v.
Proof.
  intros H. apply (reads_view 2); [apply len_be_bytes|]. by rewrite be_value_be_bytes, Z.mod_small.
Qed.

Lemma reads_readU16LE v : 0 <= v < 2 ^ 16 -> reads readU16LE (le_bytes 2 v) v.
Proof.
  intros H. apply (reads_view 2); [apply len_le_bytes|]. by rewrite le_value_le_bytes, Z.mod_small.
Qed.

Lemma reads_readU32BE v : 0 <= v < 2 ^ 32 -> reads readU32BE (be_bytes 4 v) v.
Proof. intros H. apply (reads_view 4); [apply len_be_bytes|]. by apply be_value_u32. Qed.

Lemma reads_readU32LE v : 0 <= v < 2 ^ 32 -> reads readU32LE (le_bytes 4 v) v.
Proof.
  intros H. apply (reads_view 4); [apply len_le_bytes|]. by rewrite le_value_le_bytes, Z.mod_small.
Qed.

Lemma reads_readU64BE v : u64 v -> reads readU64BE (be_bytes 8 v) v.
Proof. intros H. apply (reads_view 8); [apply len_be_bytes|]. by apply be_value_u64. Qed.

Lemma reads_readU64LE v : u64 v -> reads readU64LE (le_bytes 8 v) v.
Proof.
  intros H. apply (reads_view 8); [apply len_le_bytes|]. by rewrite le_value_le_bytes, Z.mod_small.
Qed.

Lemma reads_readI64BE v : i64 v -> reads readI64BE (be_bytes 8 v) v.
Proof.
  intros H. apply reads_need; [apply len_be_bytes|]. intros pre post.
  unfold getBigInt64BE, getBigUint64BE. rewrite view_bytes_mid by apply length_be_bytes.
  cbn [fmap result_fmap]. rewrite be_value_be_bytes. by rewrite as_signed_u64.
Qed.

Lemma reads_readBool b : reads readBool [b] (negb (b2z b =? 0)).
Proof. eapply reads_bind_last; [apply reads_readU8|]. apply reads_ret. Qed.

Lemma reads_readBytes bs : reads (readBytes (len bs)) bs bs.
Proof.
  intros pre post. unfold readBytes. cbn [rd_data rd_offset].
  autorewrite with js. pose proof (len_nonneg post). zcmp. by rewrite slice_mid.
Qed.

Lemma reads_readBytes_n n bs : len bs = n -> reads (readBytes n) bs bs.
Proof. intros <-. apply reads_readBytes. Qed.

Lemma reads_skip bs : reads (skip (len bs)) bs tt.
Proof. intros pre post. reflexivity. Qed.

Lemma reads_skip_n n bs : len bs = n -> reads (skip n) bs tt.
Proof. intros <-. apply reads_skip. Qed.

#[export] Hint Resolve reads_readU8_z reads_readU16BE reads_readU16LE
  reads_readU32BE reads_readU32LE reads_readU64BE reads_readU64LE reads_readI64BE
  reads_readBytes reads_readBytes_n reads_skip reads_skip_n : js.

Lemma reads_readStringU32 s : text_ok s -> reads readStringU32 (string_u32 s) s.
Proof.
  intros [Hl Ha]. unfold readStringU32, string_u32.
  eapply reads_bind; [apply reads_readU32BE; pose proof (len_nonneg (bytes_of_string s)); lia|].
  cbv beta. zcmp. eapply reads_bind_last; [apply reads_readBytes|]. cbv beta.
  rewrite (TextDecoder_ascii s Ha : TextDecoder_decode (bytes_of_string s) = s). apply reads_ret.
Qed.

Lemma reads_readStringU32Bytes s :
  len (bytes_of_string s) <= 10000 -> reads readStringU32Bytes (string_u32 s) tt.
Proof.
  intros Hl. unfold readStringU32Bytes, string_u32.
  eapply reads_bind; [apply reads_readU32BE; pose proof (len_nonneg (bytes_of_string s)); lia|].
  cbv beta. zcmp. apply reads_skip.
Qed.

Lemma reads_readStringVecU32 (l : list string) :
  len l <= 10000 -> Forall text_ok l ->
  reads readStringVecU32 (be_bytes 4 (len l) ++ concat (string_u32 <$> l)) l.
Proof.
  intros Hl Hok. unfold readStringVecU32.
  eapply reads_bind; [apply reads_readU32BE; pose proof (len_nonneg l); lia|].
  cbv beta. zcmp. apply reads_count. eapply Forall_impl; [exact Hok|]. apply reads_readStringU32.
Qed.

Lemma reads_readOptionU64BE v :
  (forall x, v = Some x -> u64 x) -> reads readOptionU64BE (option_u64 v) v.
Proof.
  intros H. unfold readOptionU64BE. destruct v as [v|]; cbn [option_u64].
  - change (x01 :: be_bytes 8 v) with ([x01] ++ be_bytes 8 v).
    eapply reads_bind; [apply reads_readBool|]. cbv beta. change (b2z x01) with 1. cbn [negb Z.eqb].
    eapply reads_bind_last; [apply reads_readU64BE; by apply H|]. apply reads_ret.
  - eapply reads_bind_last; [apply reads_readBool|]. cbv beta. change (b2z x00) with 0. cbn [negb Z.eqb]. apply reads_ret.
Qed.

Lemma reads_balances b : balances_ok b -> reads readPlayerBalanceSnapshot (balances b) b.
Proof.
  intros (H1 & H2 & H3). unfold readPlayerBalanceSnapshot, balances.
  repeat reads_step. destruct b. apply reads_ret.
Qed.

#[export] Hint Resolve reads_readStringU32 reads_readStringU32Bytes reads_readStringVecU32
  reads_readOptionU64BE reads_balances : js.

(** ** Varints *)

Lemma byte_and_low b : js_and (b2z b) 0x7f = b2z b mod 128.
Proof. exact (js_and_ones_u (b2z b) 7 ltac:(lia)). Qed.

Lemma byte_and_high b : (js_and (b2z b) 0x80 =? 0) = (b2z b <? 128).
Proof. destruct b; reflexivity. Qed.

Lemma js_shl_small x s : 0 <= x < 128 -> 0 <= s < 32 -> js_shl x s = to_int32 (Z.shiftl x s).
Proof.
  intros Hx Hs. unfold js_shl. rewrite (to_int32_id x), (to_uint32_id s), Z.mod_small by lia. done.
Qed.

(** One iteration: the seven payload bits join the accumulated ones. *)
Lemma varint_accumulate acc b i :
  0 <= i < 32 -> 0 <= acc < 2 ^ i ->
  js_or (to_int32 acc) (js_shl (js_and (b2z b) 0x7f) i) = to_int32 (acc + b2z b mod 128 * 2 ^ i).
Proof.
  intros Hi Ha. pose proof (Z.mod_pos_bound (b2z b) 128 ltac:(lia)).
  rewrite byte_and_low, js_shl_small, js_or_wrap, lor_shiftl_add by lia. done.
Qed.

Lemma varint_byte v : 0 <= v -> b2z (z2b (v mod 128 + 128)) = v mod 128 + 128.
Proof. intros _. apply b2z_z2b_small. pose proof (Z.mod_pos_bound v 128). lia. Qed.

Lemma leb128_length n v : (0 < n)%nat -> 1 <= len (leb128 n v) <= Z.of_nat n.
Proof.
  revert v. induction n as [|n IH]; intros v Hn; [lia|]. cbn [leb128]. split_if; rewrite len_cons.
  - rewrite len_nil. lia.
  - destruct n as [|n]; [cbn; rewrite len_nil; lia|]. pose proof (IH (v / 128) ltac:(lia)). lia.
Qed.

Lemma readVarint_loop_step fuel acc i pre b tl post :
  0 <= i < 32 -> 0 <= acc < 2 ^ i ->
  readVarint_loop (S fuel) (to_int32 acc) i (Reader (pre ++ (b :: tl) ++ post) (len pre))
  = let result := to_int32 (acc + b2z b mod 128 * 2 ^ i) in
    let r' := Reader ((pre ++ [b]) ++ tl ++ post) (len (pre ++ [b])) in
    if b2z b <? 128 then Ok (result, r')
    else if 35 <? i + 7 then Throw "Varint too long" else readVarint_loop fuel result (i + 7) r'.
Proof.
  intros Hi Ha. cbn [readVarint_loop rd_data rd_offset app]. rewrite elem_mid.
  cbv zeta. change (default 0 (Some (b2z b))) with (b2z b).
  rewrite varint_accumulate, byte_and_high by lia.
  autorewrite with js. pose proof (len_nonneg tl). pose proof (len_nonneg post).
  rewrite (proj2 (Z.leb_gt _ _)) by lia. cbv zeta. by rewrite <- app_assoc, Z.add_0_r.
Qed.

Lemma reads_varint_loop n fuel v acc i :
  (0 < n <= fuel)%nat -> 0 <= i -> i + 7 * Z.of_nat n <= 35 -> 0 <= acc < 2 ^ i ->
  0 <= v < 2 ^ (7 * Z.of_nat n) ->
  reads (readVarint_loop fuel (to_int32 acc) i) (leb128 n v) (to_int32 (acc + v * 2 ^ i)).
Proof.
  revert fuel v acc i. induction n as [|n IH]; intros fuel v acc i Hn Hi Hin Ha Hv; [lia|].
  destruct fuel as [|fuel]; [lia|]. intros pre post. cbn [leb128]. destruct (v <? 128) eqn:E; bprop.
  - rewrite readVarint_loop_step by lia. rewrite b2z_z2b_small by lia. cbv zeta.
    zcmp. rewrite Z.mod_small by lia. by rewrite <- !app_assoc, len_app.
  - assert (Hn0 : (0 < n)%nat) by (destruct n; [lia|lia]).
    rewrite readVarint_loop_step by lia. rewrite varint_byte by lia. cbv zeta.
    pose proof (Z.mod_pos_bound v 128 ltac:(lia)) as Hm.
    rewrite (proj2 (Z.ltb_ge _ 128)), (proj2 (Z.ltb_ge 35 _)) by lia.
    replace (v mod 128 + 128) with (v mod 128 + 1 * 128) by lia. rewrite Z.mod_add, Z.mod_mod by lia.
    assert (Hp : 2 ^ (i + 7) = 2 ^ i * 128) by (rewrite Z.pow_add_r by lia; done).
    pose proof (Z.div_mod v 128 ltac:(lia)) as Hd.
    rewrite (IH fuel (v / 128)); try lia.
    + rewrite Hp. rewrite <- !app_assoc, !len_app, len_cons, len_nil. cbn [app]. rewrite len_cons.
      do 3 f_equal; [|lia]. rewrite Hd at 3. ring.
    + rewrite Hp. nia.
    + replace (7 * Z.of_nat (S n)) with (7 * Z.of_nat n + 7) in Hv by lia.
      rewrite Z.pow_add_r in Hv by lia. change (2 ^ 7) with 128 in Hv. split; [lia|].
      apply Z.div_lt_upper_bound; lia.
Qed.

(** The number read is the int32 image of the number written. *)
Lemma reads_readVarint v : 0 <= v < 2 ^ 32 -> reads readVarint (varint v) (to_int32 v).
Proof.
  intros Hv. replace (to_int32 v) with (to_int32 (0 + v * 2 ^ 0)) by (f_equal; lia).
  apply (reads_varint_loop 5 6 v 0 0); simpl; lia.
Qed.

Lemma reads_readVarint_small v : 0 <= v < 2 ^ 31 -> reads readVarint (varint v) v.
Proof.
  intros Hv. rewrite <- (to_int32_id v) at 2 by lia. apply reads_readVarint. lia.
Qed.

#[export] Hint Resolve reads_readVarint_small : js.

Definition vec (bs : Uint8Array) : Uint8Array := varint (len bs) ++ bs.

Lemma reads_readVec bs : len bs <= 10000 -> reads readVec (vec bs) bs.
Proof.
  intros H. unfold readVec, vec. pose proof (len_nonneg bs).
  eapply reads_bind; [apply reads_readVarint_small; lia|]. cbv beta. zcmp. apply reads_readBytes.
Qed.

Lemma reads_readString s : text_ok s -> reads readString (vec (bytes_of_string s)) s.
Proof.
  intros [Hl Ha]. eapply reads_bind_last; [by apply reads_readVec|]. cbv beta.
  rewrite (TextDecoder_ascii s Ha : TextDecoder_decode (bytes_of_string s) = s). apply reads_ret.
Qed.

#[export] Hint Resolve reads_readVec reads_readString : js.

(** The length guard of [readVec] is on one side only: the reader
    accumulates with [|=], so a wire length of 2^32 - k is read as -k, passes
    the check against 10000, and moves the reader back by k bytes behind the
    varint instead of throwing. *)
Theorem readVec_backwards k pre post :
  1 <= k <= 2 ^ 31 ->
  let data := pre ++ varint (2 ^ 32 - k) ++ post in
  exists bs, readVec (Reader data (len pre))
    = Ok (bs, Reader data (len pre + len (varint (2 ^ 32 - k)) - k)).
Proof.
  intros Hk data. unfold readVec.
  rewrite (R_bind_ok _ _ _ _ _ (reads_readVarint (2 ^ 32 - k) ltac:(lia) pre post)). fold data.
  rewrite to_int32_high by lia. zcmp. unfold readBytes. cbn [rd_data rd_offset].
  replace (len data) with (len pre + len (varint (2 ^ 32 - k)) + len post)
    by (unfold data; autorewrite with js; lia).
  pose proof (len_nonneg post). zcmp. eexists. do 3 f_equal. lia.
Qed.

Lemma readVec_backwards_witness :
  exists bs, readVec (Reader (zeros 20 ++ varint (2 ^ 32 - 25) ++ []) (len (zeros 20)))
    = Ok (bs, Reader (zeros 20 ++ varint (2 ^ 32 - 25) ++ [])
        (len (zeros 20) + len (varint (2 ^ 32 - 25)) - 25)).
Proof. apply (readVec_backwards 25). lia. Defined.
