(* ===== verification/Transactions.v ===== *)
(** * Transactions

    [gateway/src/codec/transactions.ts]: the varint encoder, the signed
    transaction and its verification, the submission wrappers and the session
    ids.  Ed25519 and SHA-256 are third-party code: they are the operations of
    an interface, whose laws are their documented contract. *)

From S2P Require Import Prelude JsNum Bytes Reader Batch BinaryReader.

(** ** The cryptographic interface *)

Class Crypto := {
  getPublicKey : Uint8Array -> result Uint8Array;
  sign : Uint8Array -> Uint8Array -> result Uint8Array;
  verify : Uint8Array -> Uint8Array -> Uint8Array -> result bool;
  sha256 : Uint8Array -> Uint8Array
}.

Class CryptoLaws (C : Crypto) := {
  getPublicKey_length : forall sk pk, getPublicKey sk = Ok pk -> len pk = 32;
  sign_length : forall m sk s, sign m sk = Ok s -> len s = 64;
  sign_total : forall m sk pk, getPublicKey sk = Ok pk -> exists s, sign m sk = Ok s;
  verify_sign : forall m sk pk s,
    getPublicKey sk = Ok pk -> sign m sk = Ok s -> verify s m pk = Ok true;
  sha256_length : forall m, len (sha256 m) = 32
}.

(** ** Varints *)

(** [while (value > 0x7f) { push; value >>>= 7 } push]. *)
Fixpoint encodeVarint_loop (fuel : nat) (value : Z) (bytes : list Z) : result (list Z) :=
  match fuel with
  | O => Throw "out of fuel"
  | S fuel' =>
      if 0x7f <? value
      then encodeVarint_loop fuel' (js_ushr value 7) (bytes ++ [js_or (js_and value 0x7f) 0x80])
      else Ok (bytes ++ [js_and value 0x7f])
  end.

Definition encodeVarint (value : Z) : result Uint8Array :=
  _ ← throw_if (value <? 0) "Varint cannot encode negative numbers";
  bytes ← encodeVarint_loop 6 value [];
  Ok (u8array bytes).

Fixpoint varintSize_loop (fuel : nat) (value size : Z) : Z :=
  match fuel with
  | O => size
  | S fuel' => if 0 <? value then varintSize_loop fuel' (js_ushr value 7) (size + 1) else size
  end.

Definition varintSize (value : Z) : Z := if value =? 0 then 1 else varintSize_loop 6 value 0.

(** ** Signed transactions *)

Definition TRANSACTION_NAMESPACE : Uint8Array := TextEncoder_encode "_NULLSPACE_TX".

Definition unionUnique (namespace message : Uint8Array) : result Uint8Array :=
  lenVarint ← encodeVarint (len namespace);
  let result := zeros (len lenVarint + len namespace + len message) in
  result ← set_bytes result 0 lenVarint;
  result ← set_bytes result (len lenVarint) namespace;
  set_bytes result (len lenVarint + len namespace) message.

Definition buildTransaction `{Crypto} (nonce : Z) (instruction privateKey : Uint8Array)
    : result Uint8Array :=
  publicKey ← getPublicKey privateKey;
  let payload := zeros (8 + len instruction) in
  payload ← setBigUint64BE payload 0 nonce;
  payload ← set_bytes payload 8 instruction;
  toSign ← unionUnique TRANSACTION_NAMESPACE payload;
  signature ← sign toSign privateKey;
  let tx := zeros (len payload + 32 + 64) in
  tx ← set_bytes tx 0 payload;
  tx ← set_bytes tx (len payload) publicKey;
  set_bytes tx (len payload + 32) signature.

Definition SubmissionTag_Seed : Z := 0.
Definition SubmissionTag_Transactions : Z := 1.
Definition SubmissionTag_Summary : Z := 2.

Definition wrapSubmission (tx : Uint8Array) : result Uint8Array :=
  lenVarint ← encodeVarint 1;
  let result := zeros (1 + len lenVarint + len tx) in
  let result := set_elem result 0 SubmissionTag_Transactions in
  result ← set_bytes result 1 lenVarint;
  set_bytes result (1 + len lenVarint) tx.

Definition wrapMultipleSubmission (txs : list Uint8Array) : result Uint8Array :=
  let totalLen := foldl (fun acc tx => acc + len tx) 0 txs in
  lenVarint ← encodeVarint (len txs);
  let result := zeros (1 + len lenVarint + totalLen) in
  let result := set_elem result 0 SubmissionTag_Transactions in
  result ← set_bytes result 1 lenVarint;
  st ← foldM_result (fun '(result, offset) tx =>
      result ← set_bytes result offset tx;
      Ok (result, offset + len tx))
    (result, 1 + len lenVarint) txs;
  Ok st.1.

Definition generateSessionId `{Crypto} (publicKey : Uint8Array) (counter : Z) : result Z :=
  let data := zeros (32 + 8) in
  data ← set_bytes data 0 publicKey;
  data ← setBigUint64BE data 32 counter;
  getBigUint64BE (sha256 data) 0.

Definition verifyTransaction `{Crypto} (tx : Uint8Array) (instructionLen : Z) : result bool :=
  nonce ← getBigUint64BE tx 0;
  let instruction := slice tx 8 (8 + instructionLen) in
  let publicKey := slice tx (8 + instructionLen) (8 + instructionLen + 32) in
  let signature := slice tx (8 + instructionLen + 32) (8 + instructionLen + 32 + 64) in
  let payload := zeros (8 + instructionLen) in
  payload ← setBigUint64BE payload 0 nonce;
  payload ← set_bytes payload 8 instruction;
  toSign ← unionUnique TRANSACTION_NAMESPACE payload;
  Ok (catch (verify signature toSign publicKey) false).

(** ** Varints: the loop writes LEB128 *)

Lemma js_or_high x : 0 <= x < 128 -> js_or x 0x80 = x + 128.
Proof.
  intros H. assert (E : forall b : byte, b2z b < 128 -> js_or (b2z b) 0x80 = b2z b + 128).
  { intros b; destruct b; first [reflexivity | intros Hb; exfalso; revert Hb; vm_compute; congruence]. }
  specialize (E (z2b x)). rewrite b2z_z2b_small in E by lia. apply E. lia.
Qed.

Lemma encodeVarint_loop_leb128 fuel n v acc :
  (0 < n <= fuel)%nat -> 0 <= v < 2 ^ 32 -> v < 2 ^ (7 * Z.of_nat n) ->
  exists l, encodeVarint_loop fuel v acc = Ok (acc ++ l) /\ u8array l = leb128 n v.
Proof.
  revert fuel v acc. induction n as [|n IH]; intros fuel v acc Hn Hv Hb; [lia|].
  destruct fuel as [|fuel]; [lia|]. cbn [encodeVarint_loop leb128].
  pose proof (Z.mod_pos_bound v 128 ltac:(lia)) as Hm.
  assert (Hand : js_and v 0x7f = v mod 128) by exact (js_and_ones_u v 7 ltac:(lia)).
  rewrite Hand. destruct (v <? 128) eqn:E; bprop.
  - rewrite (proj2 (Z.ltb_ge 0x7f v)) by lia. eexists. split; [done|]. by rewrite Z.mod_small by lia.
  - rewrite (proj2 (Z.ltb_lt 0x7f v)) by lia.
    rewrite js_or_high, js_ushr_id by lia. change (2 ^ 7) with 128.
    replace (7 * Z.of_nat (S n)) with (7 * Z.of_nat n + 7) in Hb by lia.
    rewrite Z.pow_add_r in Hb by lia. change (2 ^ 7) with 128 in Hb.
    destruct (IH fuel (v / 128) (acc ++ [v mod 128 + 128])) as (l & -> & Hl).
    + destruct n; [simpl in Hb; lia|lia].
    + split; [apply Z.div_pos; lia|]. apply Z.div_lt_upper_bound; lia.
    + apply Z.div_lt_upper_bound; lia.
    + rewrite <- app_assoc. eexists. split; [done|]. cbn. by rewrite <- Hl.
Qed.

Lemma encodeVarint_spec v : 0 <= v < 2 ^ 32 -> encodeVarint v = Ok (varint v).
Proof.
  intros Hv. unfold encodeVarint, throw_if. zcmp. cbn [mbind result_bind].
  destruct (encodeVarint_loop_leb128 6 5 v []) as (l & -> & Hl); [lia|lia|simpl; lia|].
  cbn [mbind result_bind app]. by rewrite Hl.
Qed.

Lemma varintSize_loop_leb128 fuel n v size :
  (n < fuel)%nat -> 0 < v < 2 ^ 32 -> v < 2 ^ (7 * Z.of_nat n) ->
  varintSize_loop fuel v size = size + len (leb128 n v).
Proof.
  revert fuel v size. induction n as [|n IH]; intros fuel v size Hn Hv Hb; [simpl in Hb; lia|].
  destruct fuel as [|fuel]; [lia|]. cbn [varintSize_loop leb128].
  rewrite (proj2 (Z.ltb_lt 0 v)), js_ushr_id by lia. change (2 ^ 7) with 128.
  replace (7 * Z.of_nat (S n)) with (7 * Z.of_nat n + 7) in Hb by lia.
  rewrite Z.pow_add_r in Hb by lia. change (2 ^ 7) with 128 in Hb.
  destruct (v <? 128) eqn:E; bprop.
  - rewrite Z.div_small by lia. destruct fuel; [lia|]. reflexivity.
  - rewrite IH, len_cons; [lia|lia| |apply Z.div_lt_upper_bound; lia].
    split; [apply Z.div_str_pos; lia|apply Z.div_lt_upper_bound; lia].
Qed.

Lemma varintSize_spec v : 0 <= v < 2 ^ 32 -> varintSize v = len (varint v).
Proof.
  intros Hv. unfold varintSize. destruct (v =? 0) eqn:E; bprop; [by subst|].
  apply (varintSize_loop_leb128 6 5 v 0); simpl; lia.
Qed.

(** ** Layouts *)

Lemma unionUnique_layout ns m :
  len ns < 2 ^ 32 -> unionUnique ns m = Ok (varint (len ns) ++ ns ++ m).
Proof.
  intros H. unfold unionUnique. pose proof (len_nonneg ns). pose proof (len_nonneg m).
  rewrite encodeVarint_spec by lia. cbn [mbind result_bind]. pose proof (len_nonneg (varint (len ns))).
  fill. fill. fill. rewrite zeros_nil by fill_side. by rewrite app_nil_r, <- app_assoc.
Qed.

(** The bytes that are signed: the namespace behind its length, the nonce, the
    instruction. *)
Definition signed_bytes (nonce : Z) (instruction : Uint8Array) : Uint8Array :=
  varint (len TRANSACTION_NAMESPACE) ++ TRANSACTION_NAMESPACE ++ be_bytes 8 nonce ++ instruction.

Lemma payload_layout nonce instruction :
  (payload ← setBigUint64BE (zeros (8 + len instruction)) 0 nonce; set_bytes payload 8 instruction)
  = Ok (be_bytes 8 nonce ++ instruction).
Proof.
  pose proof (len_nonneg instruction). fill. fill. rewrite zeros_nil by fill_side.
  by rewrite app_nil_r.
Qed.

Lemma namespace_short : len TRANSACTION_NAMESPACE < 2 ^ 32.
Proof. reflexivity. Qed.

Section Signed.
Context `{C : Crypto} {L : CryptoLaws C}.

(** A transaction is built for every valid private key, and has the documented
    layout. *)
Lemma buildTransaction_layout nonce instruction sk pk s :
  getPublicKey sk = Ok pk -> sign (signed_bytes nonce instruction) sk = Ok s ->
  buildTransaction nonce instruction sk = Ok (be_bytes 8 nonce ++ instruction ++ pk ++ s).
Proof.
  intros Hpk Hs. unfold buildTransaction. rewrite Hpk. cbn [mbind result_bind].
  pose proof (payload_layout nonce instruction) as Hp. pose proof (len_nonneg instruction).
  unfold mbind, result_bind in *. cbv zeta.
  destruct (setBigUint64BE _ 0 nonce) as [p0|]; [|done]. rewrite Hp.
  rewrite unionUnique_layout by apply namespace_short.
  change (varint _ ++ _ ++ _ ++ _) with (signed_bytes nonce instruction). rewrite Hs.
  pose proof (getPublicKey_length _ _ Hpk). pose proof (sign_length _ _ _ Hs).
  fill. fill. fill. rewrite zeros_nil by fill_side. by rewrite app_nil_r, <- !app_assoc.
Qed.
End Signed.

Lemma totalLen_zsum (txs : list Uint8Array) z :
  foldl (fun acc tx => acc + len tx) z txs = z + zsum len txs.
Proof.
  revert z. induction txs as [|tx txs IH]; intros z; cbn [foldl]; [rewrite zsum_nil; lia|].
  rewrite IH, zsum_cons. lia.
Qed.

Lemma zsum_len_nonneg (txs : list Uint8Array) : 0 <= zsum len txs.
Proof. apply zsum_nonneg. intros. apply len_nonneg. Qed.

Lemma foldM_set (txs : list Uint8Array) (a : Uint8Array) n :
  zsum len txs <= n ->
  foldM_result (fun '(result, offset) tx =>
      result ← set_bytes result offset tx; Ok (result, offset + len tx))
    (a ++ zeros n, len a) txs
  = Ok ((a ++ concat txs) ++ zeros (n - zsum len txs), len (a ++ concat txs)).
Proof.
  revert a n. induction txs as [|tx txs IH]; intros a n Hn; cbn [foldM_result concat].
  - by rewrite !app_nil_r, zsum_nil, Z.sub_0_r.
  - rewrite zsum_cons in Hn. pose proof (zsum_len_nonneg txs). rewrite set_bytes_zeros by lia.
    cbn [mbind result_bind]. rewrite <- len_app, IH by lia. rewrite <- !app_assoc.
    rewrite zsum_cons. replace (n - len tx - zsum len txs) with (n - (len tx + zsum len txs)) by lia. done.
Qed.

Lemma wrapMultipleSubmission_layout txs :
  len txs < 2 ^ 32 ->
  wrapMultipleSubmission txs = Ok (z2b SubmissionTag_Transactions :: varint (len txs) ++ concat txs).
Proof.
  intros H. unfold wrapMultipleSubmission. pose proof (len_nonneg txs).
  rewrite encodeVarint_spec by lia. cbn [mbind result_bind]. cbv zeta.
  rewrite totalLen_zsum. set (v := varint (len txs)).
  pose proof (len_nonneg v). pose proof (zsum_len_nonneg txs).
  fill. fill. replace (1 + len v) with (len ([z2b SubmissionTag_Transactions] ++ v)) at 2 by fill_side.
  rewrite foldM_set by fill_side. cbn [mbind result_bind fst].
  rewrite zeros_nil by fill_side. by rewrite app_nil_r, <- app_assoc.
Qed.

Lemma wrapSubmission_layout tx :
  wrapSubmission tx = Ok (z2b SubmissionTag_Transactions :: varint 1 ++ tx).
Proof.
  unfold wrapSubmission. rewrite encodeVarint_spec by lia. cbn [mbind result_bind]. cbv zeta.
  pose proof (len_nonneg tx). pose proof (len_nonneg (varint 1)). fill. fill. fill.
  rewrite zeros_nil by fill_side. by rewrite app_nil_r, <- app_assoc.
Qed.

(** ** Reading a transaction back *)

Lemma slice_at {A} (pre bs post : list A) i j :
  i = len pre -> j = i + len bs -> slice (pre ++ bs ++ post) i j = bs.
Proof. intros -> ->. apply slice_mid. Qed.

Section Verified.
Context `{C : Crypto} {L : CryptoLaws C}.

Lemma verifyTransaction_layout nonce instruction pk s :
  len pk = 32 -> len s = 64 ->
  verifyTransaction (be_bytes 8 nonce ++ instruction ++ pk ++ s) (len instruction)
  = Ok (catch (verify s (signed_bytes nonce instruction) pk) false).
Proof.
  intros Hpk Hs. unfold verifyTransaction. set (tx := _ ++ instruction ++ pk ++ s).
  assert (E0 : getBigUint64BE tx 0 = Ok (be_value (be_bytes 8 nonce))).
  { unfold getBigUint64BE, tx. by rewrite (view_bytes_mid [] (be_bytes 8 nonce) (instruction ++ pk ++ s) 8
      eq_refl : view_bytes (be_bytes 8 nonce ++ instruction ++ pk ++ s) 0 8 = _). }
  assert (E1 : slice tx 8 (8 + len instruction) = instruction) by (by apply slice_at).
  assert (E2 : slice tx (8 + len instruction) (8 + len instruction + 32) = pk).
  { unfold tx. rewrite app_assoc. apply slice_at; autorewrite with js; lia. }
  assert (E3 : slice tx (8 + len instruction + 32) (8 + len instruction + 32 + 64) = s).
  { unfold tx. replace (be_bytes 8 nonce ++ instruction ++ pk ++ s)
      with ((be_bytes 8 nonce ++ instruction ++ pk) ++ s ++ []) by by rewrite app_nil_r, <- !app_assoc.
    apply slice_at; autorewrite with js; lia. }
  rewrite E0, E1, E2, E3. cbn [mbind result_bind]. cbv zeta.
  pose proof (payload_layout (be_value (be_bytes 8 nonce)) instruction) as Hp.
  unfold mbind, result_bind in *.
  destruct (setBigUint64BE _ 0 _) as [p0|]; [|done]. rewrite Hp.
  replace 8%nat with (length (be_bytes 8 nonce)) at 1 by apply length_be_bytes.
  rewrite be_bytes_be_value, unionUnique_layout by apply namespace_short. reflexivity.
Qed.

(** C3. A transaction the gateway builds verifies: for every private key that
    has a public key, every instruction and every nonce, [buildTransaction]
    returns the nonce, the instruction, the public key and the signature of the
    namespaced payload, and [verifyTransaction] accepts these bytes. *)
Theorem transaction_verifies nonce instruction sk pk :
  getPublicKey sk = Ok pk ->
  exists s, sign (signed_bytes nonce instruction) sk = Ok s
    /\ buildTransaction nonce instruction sk = Ok (be_bytes 8 nonce ++ instruction ++ pk ++ s)
    /\ verifyTransaction (be_bytes 8 nonce ++ instruction ++ pk ++ s) (len instruction) = Ok true.
Proof.
  intros Hpk. destruct (sign_total (signed_bytes nonce instruction) sk pk Hpk) as [s Hs].
  exists s. split; [done|]. split; [by apply buildTransaction_layout|].
  rewrite verifyTransaction_layout.
  - by rewrite (verify_sign _ _ _ _ Hpk Hs).
  - by eapply getPublicKey_length.
  - by eapply sign_length.
Qed.

(** The session id is the first eight bytes of the hash of the key and the
    counter: an unsigned 64-bit number for every 32-byte key. *)
Lemma generateSessionId_range publicKey counter :
  len publicKey = 32 ->
  exists id, generateSessionId publicKey counter = Ok id /\ u64 id
    /\ id = be_value (take 8 (sha256 (publicKey ++ be_bytes 8 counter))).
Proof.
  intros Hp. unfold generateSessionId. cbv zeta. change (zeros (32 + 8)) with (zeros 40).
  fill. fill. rewrite zeros_nil by fill_side. rewrite app_nil_r.
  set (h := sha256 _). pose proof (sha256_length (publicKey ++ be_bytes 8 counter)) as Hh. fold h in Hh.
  unfold getBigUint64BE, view_bytes. change (0 <? 0) with false. rewrite Hh. cbn [orb].
  zcmp. simpl drop. eexists. split; [reflexivity|]. split; [|done].
  pose proof (be_value_range (take 8 h)) as Hr. unfold len in Hr, Hh. rewrite length_take in Hr.
  rewrite Nat.min_l in Hr by lia. exact Hr.
Qed.
End Verified.

(** A toy instance of the interface: the key signs with itself and a checksum
    of the message. *)
Definition toy_crypto : Crypto := {|
  getPublicKey sk := if len sk =? 32 then Ok sk else Throw "private key of 32 bytes expected";
  sign m sk := if len sk =? 32 then Ok (sk ++ be_bytes 32 (be_value m)) else Throw "bad key";
  verify s m pk := Ok (bool_decide (s = pk ++ be_bytes 32 (be_value m)));
  sha256 m := be_bytes 32 (be_value m)
|}.

Lemma toy_crypto_laws : CryptoLaws toy_crypto.
Proof.
  split; cbn [getPublicKey sign verify sha256 toy_crypto].
  - intros sk pk. split_if; [|done]. bprop. by intros [=<-].
  - intros m sk s. split_if; [|done]. bprop. intros [=<-]. autorewrite with js. lia.
  - intros m sk pk. split_if; [|done]. by eexists.
  - intros m sk pk s. split_if; [|done]. intros [=<-] [=<-]. by rewrite bool_decide_eq_true_2.
  - intros m. apply len_be_bytes.
Qed.

Lemma transaction_verifies_witness :
  exists s, @buildTransaction toy_crypto 7 (u8array [14; 10]) (zeros 32)
    = Ok (be_bytes 8 7 ++ u8array [14; 10] ++ zeros 32 ++ s).
Proof.
  destruct (@transaction_verifies toy_crypto toy_crypto_laws 7 (u8array [14; 10]) (zeros 32) (zeros 32)
    eq_refl) as (s & _ & H & _).
  exists s. exact H.
Defined.

(** Varint round trip: a length or count below 2^31 is written in
    [varintSize] many bytes, at most five, and the gateway's reader gives it
    back wherever these bytes are in a message. *)
Theorem varint_roundtrip v :
  0 <= v < 2 ^ 31 ->
  exists bs, encodeVarint v = Ok bs /\ varintSize v = len bs /\ 1 <= len bs <= 5
    /\ reads readVarint bs v.
Proof.
  intros Hv. exists (varint v). split; [apply encodeVarint_spec; lia|].
  split; [apply varintSize_spec; lia|]. split; [by apply leb128_length; lia|].
  by apply reads_readVarint_small.
Qed.

Lemma varint_roundtrip_witness :
  exists bs, encodeVarint 300 = Ok bs /\ varintSize 300 = len bs /\ 1 <= len bs <= 5
    /\ reads readVarint bs 300.
Proof. apply varint_roundtrip. lia. Defined.

(** The submission body: [wrapMultipleSubmission] writes tag 1, the number
    of transactions as a varint the chain's format reads back, and the
    transactions one behind the other; [wrapSubmission] is its instance for one
    transaction. *)
Theorem submission_layout txs :
  len txs < 2 ^ 31 ->
  (exists bs, wrapMultipleSubmission txs = Ok bs
     /\ reads (tag ← get_byte; n ← readVarint; rest ← get_bytes (length (concat txs)); mret (tag, n, rest))
          bs (SubmissionTag_Transactions, len txs, concat txs))
  /\ forall tx, txs = [tx] -> wrapSubmission tx = wrapMultipleSubmission txs.
Proof.
  intros Hn. pose proof (len_nonneg txs). split.
  - eexists. split; [apply wrapMultipleSubmission_layout; lia|].
    change (z2b ?t :: ?x) with ([z2b t] ++ x).
    eapply reads_bind; [by apply reads_get_byte_z|]. cbv beta.
    eapply reads_bind; [apply reads_readVarint_small; lia|]. cbv beta.
    eapply reads_bind_last; [apply reads_get_bytes|]. apply reads_ret.
  - intros tx ->. rewrite wrapMultipleSubmission_layout by done. rewrite wrapSubmission_layout.
    simpl concat. by rewrite app_nil_r.
Qed.

Lemma submission_layout_witness :
  exists bs, wrapMultipleSubmission [zeros 5; zeros 7] = Ok bs.
Proof.
  destruct (submission_layout [zeros 5; zeros 7] eq_refl) as [(bs & H & _) _]. exists bs. exact H.
Defined.
