(* ===== verification/Instructions.v ===== *)
(** * Instructions

    [gateway/src/codec/instructions.ts] and the tags of
    [gateway/src/codec/constants.ts]: the encoders of the instructions the
    gateway signs.  All integers are big endian. *)

From S2P Require Import Prelude JsNum Bytes Reader Constants Batch BinaryReader Transactions.

(** ** Tags *)

Inductive InstructionTag :=
| IT_CasinoRegister | IT_CasinoDeposit | IT_CasinoStartGame | IT_CasinoGameMove
| IT_CasinoPlayerAction | IT_CasinoSetTournamentLimit | IT_CasinoJoinTournament
| IT_CasinoStartTournament | IT_GlobalTableInit | IT_GlobalTableOpenRound
| IT_GlobalTableSubmitBets | IT_GlobalTableLock | IT_GlobalTableReveal
| IT_GlobalTableSettle | IT_GlobalTableFinalize.

Definition InstructionTag_code (t : InstructionTag) : Z :=
  match t with
  | IT_CasinoRegister => 10
  | IT_CasinoDeposit => 11
  | IT_CasinoStartGame => 12
  | IT_CasinoGameMove => 13
  | IT_CasinoPlayerAction => 14
  | IT_CasinoSetTournamentLimit => 15
  | IT_CasinoJoinTournament => 16
  | IT_CasinoStartTournament => 17
  | IT_GlobalTableInit => 60
  | IT_GlobalTableOpenRound => 61
  | IT_GlobalTableSubmitBets => 62
  | IT_GlobalTableLock => 63
  | IT_GlobalTableReveal => 64
  | IT_GlobalTableSettle => 65
  | IT_GlobalTableFinalize => 66
  end.

Inductive PlayerAction :=
| PA_Hit | PA_Stand | PA_Double | PA_Split | PA_ToggleShield | PA_ToggleDouble
| PA_ActivateSuper | PA_CashOut.

Definition PlayerAction_code (a : PlayerAction) : Z :=
  match a with
  | PA_Hit => 0
  | PA_Stand => 1
  | PA_Double => 2
  | PA_Split => 3
  | PA_ToggleShield => 10
  | PA_ToggleDouble => 11
  | PA_ActivateSuper => 12
  | PA_CashOut => 20
  end.

(** ** Encoders *)

Definition encodeCasinoRegister (name : string) : result Uint8Array :=
  let nameBytes := TextEncoder_encode name in
  _ ← throw_if (CASINO_MAX_NAME_LENGTH <? len nameBytes) "CasinoRegister name exceeds 32 bytes";
  let result := zeros (1 + 4 + len nameBytes) in
  let result := set_elem result 0 (InstructionTag_code IT_CasinoRegister) in
  result ← setUint32BE result 1 (len nameBytes);
  set_bytes result 5 nameBytes.

Definition encodeCasinoDeposit (amount : Z) : result Uint8Array :=
  let result := zeros 9 in
  let result := set_elem result 0 (InstructionTag_code IT_CasinoDeposit) in
  setBigUint64BE result 1 amount.

Definition encodeCasinoStartGame (gameType bet sessionId : Z) : result Uint8Array :=
  let result := zeros 18 in
  let result := set_elem result 0 (InstructionTag_code IT_CasinoStartGame) in
  let result := set_elem result 1 gameType in
  result ← setBigUint64BE result 2 bet;
  setBigUint64BE result 10 sessionId.

Definition encodeCasinoGameMove (sessionId : Z) (payload : Uint8Array) : result Uint8Array :=
  _ ← throw_if (CASINO_MAX_PAYLOAD_LENGTH <? len payload) "CasinoGameMove payload exceeds 256 bytes";
  let result := zeros (1 + 8 + 4 + len payload) in
  let result := set_elem result 0 (InstructionTag_code IT_CasinoGameMove) in
  result ← setBigUint64BE result 1 sessionId;
  result ← setUint32BE result 9 (len payload);
  set_bytes result 13 payload.

Definition encodeCasinoPlayerAction (action : PlayerAction) : result Uint8Array :=
  let result := zeros 2 in
  let result := set_elem result 0 (InstructionTag_code IT_CasinoPlayerAction) in
  Ok (set_elem result 1 (PlayerAction_code action)).

Definition encodeCasinoJoinTournament (tournamentId : Z) : result Uint8Array :=
  let result := zeros 9 in
  let result := set_elem result 0 (InstructionTag_code IT_CasinoJoinTournament) in
  setBigUint64BE result 1 tournamentId.

Record GlobalTableConfigInput := {
  gi_gameType : Z;
  gi_bettingMs : Z;
  gi_lockMs : Z;
  gi_payoutMs : Z;
  gi_cooldownMs : Z;
  gi_minBet : Z;
  gi_maxBet : Z;
  gi_maxBetsPerRound : Z
}.

Record GlobalTableBetInput := { gb_betType : Z; gb_target : Z; gb_amount : Z }.

Definition encodeGlobalTableInit (config : GlobalTableConfigInput) : result Uint8Array :=
  _ ← throw_if (GLOBAL_TABLE_MAX_BETS_PER_ROUND <? gi_maxBetsPerRound config)
    "GlobalTable maxBetsPerRound exceeds 255";
  let result := zeros (1 + 1 + 8 * 6 + 1) in
  let result := set_elem result 0 (InstructionTag_code IT_GlobalTableInit) in
  let result := set_elem result 1 (gi_gameType config) in
  result ← setBigUint64BE result 2 (gi_bettingMs config);
  result ← setBigUint64BE result 10 (gi_lockMs config);
  result ← setBigUint64BE result 18 (gi_payoutMs config);
  result ← setBigUint64BE result 26 (gi_cooldownMs config);
  result ← setBigUint64BE result 34 (gi_minBet config);
  result ← setBigUint64BE result 42 (gi_maxBet config);
  Ok (set_elem result 50 (gi_maxBetsPerRound config)).

Definition encodeGlobalTableOpenRound (gameType : Z) : result Uint8Array :=
  let result := zeros 2 in
  let result := set_elem result 0 (InstructionTag_code IT_GlobalTableOpenRound) in
  Ok (set_elem result 1 gameType).

Definition encodeGlobalTableSubmitBets (gameType roundId : Z) (bets : list GlobalTableBetInput)
    : result Uint8Array :=
  lenVarint ← encodeVarint (len bets);
  let result := zeros (1 + 1 + 8 + len lenVarint + len bets * 10) in
  let offset := 0 in
  let result := set_elem result offset (InstructionTag_code IT_GlobalTableSubmitBets) in
  let offset := offset + 1 in
  let result := set_elem result offset gameType in
  let offset := offset + 1 in
  result ← setBigUint64BE result offset roundId;
  let offset := offset + 8 in
  result ← set_bytes result offset lenVarint;
  let offset := offset + len lenVarint in
  st ← foldM_result (fun '(result, offset) bet =>
      result ← store10 result offset (gb_betType bet) (gb_target bet) (gb_amount bet);
      Ok (result, offset + 10))
    (result, offset) bets;
  Ok st.1.

(** The four instructions that name a game and a round. *)
Definition encodeGlobalTableLock (gameType roundId : Z) : result Uint8Array :=
  let result := zeros 10 in
  let result := set_elem result 0 (InstructionTag_code IT_GlobalTableLock) in
  let result := set_elem result 1 gameType in
  setBigUint64BE result 2 roundId.

Definition encodeGlobalTableReveal (gameType roundId : Z) : result Uint8Array :=
  let result := zeros 10 in
  let result := set_elem result 0 (InstructionTag_code IT_GlobalTableReveal) in
  let result := set_elem result 1 gameType in
  setBigUint64BE result 2 roundId.

Definition encodeGlobalTableSettle (gameType roundId : Z) : result Uint8Array :=
  let result := zeros 10 in
  let result := set_elem result 0 (InstructionTag_code IT_GlobalTableSettle) in
  let result := set_elem result 1 gameType in
  setBigUint64BE result 2 roundId.

Definition encodeGlobalTableFinalize (gameType roundId : Z) : result Uint8Array :=
  let result := zeros 10 in
  let result := set_elem result 0 (InstructionTag_code IT_GlobalTableFinalize) in
  let result := set_elem result 1 gameType in
  setBigUint64BE result 2 roundId.

(** ** Layouts: the documented binary formats *)

Definition tag (t : InstructionTag) : byte := z2b (InstructionTag_code t).

Definition bet_bytes (b : GlobalTableBetInput) : Uint8Array :=
  entry10 (gb_betType b) (gb_target b) (gb_amount b).

(** The instructions the gateway can sign, with their documented format. *)
Inductive Instruction :=
| I_Register (name : string)
| I_Deposit (amount : Z)
| I_StartGame (gameType bet sessionId : Z)
| I_GameMove (sessionId : Z) (payload : Uint8Array)
| I_PlayerAction (action : PlayerAction)
| I_JoinTournament (tournamentId : Z)
| I_TableInit (config : GlobalTableConfigInput)
| I_OpenRound (gameType : Z)
| I_SubmitBets (gameType roundId : Z) (bets : list GlobalTableBetInput)
| I_Lock (gameType roundId : Z)
| I_Reveal (gameType roundId : Z)
| I_Settle (gameType roundId : Z)
| I_Finalize (gameType roundId : Z).

Definition encodeInstruction (i : Instruction) : result Uint8Array :=
  match i with
  | I_Register name => encodeCasinoRegister name
  | I_Deposit amount => encodeCasinoDeposit amount
  | I_StartGame gameType bet sessionId => encodeCasinoStartGame gameType bet sessionId
  | I_GameMove sessionId payload => encodeCasinoGameMove sessionId payload
  | I_PlayerAction action => encodeCasinoPlayerAction action
  | I_JoinTournament tournamentId => encodeCasinoJoinTournament tournamentId
  | I_TableInit config => encodeGlobalTableInit config
  | I_OpenRound gameType => encodeGlobalTableOpenRound gameType
  | I_SubmitBets gameType roundId bets => encodeGlobalTableSubmitBets gameType roundId bets
  | I_Lock gameType roundId => encodeGlobalTableLock gameType roundId
  | I_Reveal gameType roundId => encodeGlobalTableReveal gameType roundId
  | I_Settle gameType roundId => encodeGlobalTableSettle gameType roundId
  | I_Finalize gameType roundId => encodeGlobalTableFinalize gameType roundId
  end.

(** When an encoder accepts its arguments. *)
Definition instructionOk (i : Instruction) : bool :=
  match i with
  | I_Register name => len (bytes_of_string name) <=? 32
  | I_GameMove _ payload => len payload <=? 256
  | I_TableInit config => gi_maxBetsPerRound config <=? 255
  | _ => true
  end.

Definition instructionBytes (i : Instruction) : Uint8Array :=
  match i with
  | I_Register name => [tag IT_CasinoRegister] ++ string_u32 name
  | I_Deposit amount => [tag IT_CasinoDeposit] ++ be_bytes 8 amount
  | I_StartGame gameType bet sessionId =>
      [tag IT_CasinoStartGame] ++ [z2b gameType] ++ be_bytes 8 bet ++ be_bytes 8 sessionId
  | I_GameMove sessionId payload =>
      [tag IT_CasinoGameMove] ++ be_bytes 8 sessionId ++ be_bytes 4 (len payload) ++ payload
  | I_PlayerAction action => [tag IT_CasinoPlayerAction] ++ [z2b (PlayerAction_code action)]
  | I_JoinTournament tournamentId => [tag IT_CasinoJoinTournament] ++ be_bytes 8 tournamentId
  | I_TableInit c =>
      [tag IT_GlobalTableInit] ++ [z2b (gi_gameType c)]
      ++ be_bytes 8 (gi_bettingMs c) ++ be_bytes 8 (gi_lockMs c) ++ be_bytes 8 (gi_payoutMs c)
      ++ be_bytes 8 (gi_cooldownMs c) ++ be_bytes 8 (gi_minBet c) ++ be_bytes 8 (gi_maxBet c)
      ++ [z2b (gi_maxBetsPerRound c)]
  | I_OpenRound gameType => [tag IT_GlobalTableOpenRound] ++ [z2b gameType]
  | I_SubmitBets gameType roundId bets =>
      [tag IT_GlobalTableSubmitBets] ++ [z2b gameType] ++ be_bytes 8 roundId
      ++ varint (len bets) ++ concat (bet_bytes <$> bets)
  | I_Lock gameType roundId => [tag IT_GlobalTableLock] ++ [z2b gameType] ++ be_bytes 8 roundId
  | I_Reveal gameType roundId => [tag IT_GlobalTableReveal] ++ [z2b gameType] ++ be_bytes 8 roundId
  | I_Settle gameType roundId => [tag IT_GlobalTableSettle] ++ [z2b gameType] ++ be_bytes 8 roundId
  | I_Finalize gameType roundId => [tag IT_GlobalTableFinalize] ++ [z2b gameType] ++ be_bytes 8 roundId
  end.

Ltac fill_all :=
  repeat (progress fill);
  rewrite ?zeros_nil by fill_side; rewrite ?app_nil_r, <- ?app_assoc; try reflexivity.

Lemma submitBets_layout gameType roundId bets :
  len bets < 2 ^ 32 ->
  encodeGlobalTableSubmitBets gameType roundId bets
  = Ok (instructionBytes (I_SubmitBets gameType roundId bets)).
Proof.
  intros Hb. unfold encodeGlobalTableSubmitBets. pose proof (len_nonneg bets).
  rewrite encodeVarint_spec by lia. cbn [mbind result_bind]. cbv zeta.
  set (v := varint (len bets)). pose proof (len_nonneg v).
  fill. fill. fill.
  set (pre := (([_] ++ [_]) ++ _) ++ v).
  match goal with |- context [foldM_result ?f (pre ++ zeros ?n, ?o) bets] =>
    replace n with (len bets * Z.of_nat 10) by (unfold pre; fill_side);
    replace o with (len pre) by (unfold pre; fill_side);
    rewrite (foldM_batch 10 (fun b => Ok (bet_bytes b)) f) end.
  - rewrite (mapM_result_Ok _ bet_bytes) by (by apply Forall_true).
    cbn [mbind result_bind fst]. unfold pre. by rewrite <- !app_assoc.
  - by intros b e [=<-].
  - intros p old post b Ho. by rewrite store10_mid.
Qed.

(** Every encoder returns exactly the documented bytes, or refuses what its
    limit excludes. *)
Lemma encodeInstruction_layout i :
  (forall g r bets, i = I_SubmitBets g r bets -> len bets < 2 ^ 32) ->
  if instructionOk i then encodeInstruction i = Ok (instructionBytes i)
  else is_ok (encodeInstruction i) = false.
Proof.
  intros Hs. destruct i; cbn [instructionOk encodeInstruction];
    try (unfold encodeCasinoDeposit, encodeCasinoStartGame, encodeCasinoPlayerAction,
      encodeCasinoJoinTournament, encodeGlobalTableOpenRound, encodeGlobalTableLock,
      encodeGlobalTableReveal, encodeGlobalTableSettle, encodeGlobalTableFinalize;
      cbv zeta; solve [fill_all]).
  - unfold encodeCasinoRegister, CASINO_MAX_NAME_LENGTH, TextEncoder_encode, throw_if. cbv zeta.
    set (bs := bytes_of_string name). pose proof (len_nonneg bs).
    split_if; bprop; zcmp; [|done]. cbn [mbind result_bind].
    cbn [instructionBytes]. unfold string_u32. fold bs. fill_all.
  - unfold encodeCasinoGameMove, CASINO_MAX_PAYLOAD_LENGTH, throw_if. cbv zeta.
    pose proof (len_nonneg payload). split_if; bprop; zcmp; [|done].
    cbn [mbind result_bind]. fill_all.
  - unfold encodeGlobalTableInit, GLOBAL_TABLE_MAX_BETS_PER_ROUND, throw_if. cbv zeta.
    split_if; bprop; zcmp; [|done]. cbn [mbind result_bind]. fill_all.
  - apply submitBets_layout. by eapply Hs.
Qed.
