(* ===== verification/Events.v ===== *)
(** * Update messages

    [gateway/src/codec/events.ts]: the parsers of the events, the skippers of
    everything else an update can hold, the two update decoders, the validity
    checks, and the extraction functions with their byte-pattern fallback. *)

From S2P Require Import Prelude JsNum Bytes Reader Batch BinaryReader.

(** ** Tags and events *)

Definition CASINO_PLAYER_REGISTERED : Z := 20.
Definition CASINO_GAME_STARTED : Z := 21.
Definition CASINO_GAME_MOVED : Z := 22.
Definition CASINO_GAME_COMPLETED : Z := 23.
Definition CASINO_LEADERBOARD_UPDATED : Z := 24.
Definition TOURNAMENT_STARTED : Z := 25.
Definition PLAYER_JOINED : Z := 26.
Definition TOURNAMENT_PHASE_CHANGED : Z := 27.
Definition TOURNAMENT_ENDED : Z := 28.
Definition CASINO_ERROR : Z := 29.
Definition CASINO_DEPOSITED : Z := 41.
Definition PLAYER_MODIFIER_TOGGLED : Z := 42.

Definition GLOBAL_TABLE_ROUND_OPENED : Z := 60.
Definition GLOBAL_TABLE_BET_ACCEPTED : Z := 61.
Definition GLOBAL_TABLE_BET_REJECTED : Z := 62.
Definition GLOBAL_TABLE_LOCKED : Z := 63.
Definition GLOBAL_TABLE_OUTCOME : Z := 64.
Definition GLOBAL_TABLE_PLAYER_SETTLED : Z := 65.
Definition GLOBAL_TABLE_FINALIZED : Z := 66.

Definition GLOBAL_TABLE_GAME_TYPE_CRAPS : Z := 3.
Definition GLOBAL_TABLE_MAX_TOTALS : Z := 64.
Definition GLOBAL_TABLE_MAX_BETS : Z := 64.
Definition GLOBAL_TABLE_VALUE_TAG : Z := 30.
Definition STATE_OP_UPDATE_CONTEXT : Z := 0xD2.

Definition DIGEST_SIZE : Z := 32.
Definition BLS_G1_SIGNATURE_SIZE : Z := 48.
Definition ED25519_SIGNATURE_SIZE : Z := 64.

(** The event record of the source carries its kind in [type] and only the
    fields of that kind; here each kind is a constructor. *)
Inductive CasinoGameEvent :=
| Ev_started (sessionId : Z) (player : Uint8Array) (gameType bet : Z) (initialState : Uint8Array)
| Ev_moved (sessionId moveNumber : Z) (newState : Uint8Array) (logs : list string)
    (balanceSnapshot : PlayerBalanceSnapshot)
| Ev_completed (sessionId : Z) (player : Uint8Array) (gameType payout finalChips : Z)
    (wasShielded wasDoubled : bool) (logs : list string) (balanceSnapshot : PlayerBalanceSnapshot)
| Ev_error (sessionId : Z) (player : Uint8Array) (errorCode : Z) (errorMessage : string).

Definition ev_sessionId (e : CasinoGameEvent) : Z :=
  match e with
  | Ev_started s _ _ _ _ | Ev_moved s _ _ _ _ | Ev_completed s _ _ _ _ _ _ _ _ | Ev_error s _ _ _ => s
  end.

Definition ev_player (e : CasinoGameEvent) : option Uint8Array :=
  match e with
  | Ev_started _ p _ _ _ | Ev_completed _ p _ _ _ _ _ _ _ | Ev_error _ p _ _ => Some p
  | Ev_moved _ _ _ _ _ => None
  end.

Record GlobalTableBet := { bet_betType : Z; bet_target : Z; bet_amount : Z }.

Record GlobalTableRound := {
  r_gameType : Z;
  r_roundId : Z;
  r_phase : Z;
  r_phaseEndsAtMs : Z;
  r_mainPoint : Z;
  r_d1 : Z;
  r_d2 : Z;
  r_madePointsMask : Z;
  r_epochPointEstablished : bool;
  r_fieldPaytable : Z;
  r_rngCommit : Uint8Array;
  r_rollSeed : Uint8Array;
  r_totals : list GlobalTableBet
}.

Inductive GlobalTableEvent :=
| Gt_round_opened (round : GlobalTableRound)
| Gt_bet_accepted (player : Uint8Array) (roundId : Z) (bets : list GlobalTableBet)
    (balanceSnapshot : PlayerBalanceSnapshot)
| Gt_bet_rejected (player : Uint8Array) (roundId errorCode : Z) (message : string)
| Gt_locked (gameType roundId phaseEndsAtMs : Z)
| Gt_outcome (round : GlobalTableRound)
| Gt_player_settled (player : Uint8Array) (roundId payout : Z)
    (balanceSnapshot : PlayerBalanceSnapshot) (myBets : list GlobalTableBet)
| Gt_finalized (gameType roundId : Z).

(** ** Casino event parsers *)

Definition parseCasinoGameStarted : R CasinoGameEvent :=
  sessionId ← readU64BE;
  player ← readPublicKey;
  gameType ← readU8;
  bet ← readU64BE;
  initialState ← readVec;
  mret (Ev_started sessionId player gameType bet initialState).

Definition parseCasinoGameMoved : R CasinoGameEvent :=
  sessionId ← readU64BE;
  moveNumber ← readU32BE;
  newState ← readVec;
  logs ← readStringVecU32;
  balanceSnapshot ← readPlayerBalanceSnapshot;
  mret (Ev_moved sessionId moveNumber newState logs balanceSnapshot).

Definition parseCasinoGameCompleted : R CasinoGameEvent :=
  sessionId ← readU64BE;
  player ← readPublicKey;
  gameType ← readU8;
  payout ← readI64BE;
  finalChips ← readU64BE;
  wasShielded ← readBool;
  wasDoubled ← readBool;
  logs ← readStringVecU32;
  balanceSnapshot ← readPlayerBalanceSnapshot;
  mret (Ev_completed sessionId player gameType payout finalChips wasShielded wasDoubled logs
    balanceSnapshot).

(** The [try] block of [parseCasinoError]: peek at the length, and read the
    message only when it is short and present.  Nothing is consumed otherwise. *)
Definition peek_u32 : R Z := fun r =>
  match getUint32BE (rd_data r) (rd_offset r) with
  | Ok v => Ok (v, r)
  | Throw e => Throw e
  end.

Definition readErrorMessage : R string :=
  n ← remaining;
  if 4 <=? n then
    length ← peek_u32;
    if (length <=? 1000) && (length <=? n - 4) then readStringU32 else mret EmptyString
  else mret EmptyString.

Definition parseCasinoError : R CasinoGameEvent :=
  player ← readPublicKey;
  sessionId ← readOptionU64BE;
  errorCode ← readU8;
  errorMessage ← try_read readErrorMessage EmptyString;
  mret (Ev_error (default 0 sessionId) player errorCode errorMessage).

(** ** Skippers *)

Definition skipProgress : R unit :=
  _ ← readU64BE; _ ← readU64BE;
  _ ← readBytes DIGEST_SIZE; _ ← readBytes DIGEST_SIZE;
  _ ← readU64BE; _ ← readU64BE;
  _ ← readBytes DIGEST_SIZE;
  _ ← readU64BE; _ ← readU64BE;
  mret tt.

Definition skipCertificate : R unit :=
  _ ← readVarint;
  _ ← readBytes DIGEST_SIZE;
  _ ← readBytes BLS_G1_SIGNATURE_SIZE;
  mret tt.

Definition skipProof : R unit :=
  _ ← readVarint;
  digestCount ← readVarint;
  let bytes := digestCount * DIGEST_SIZE in
  n ← remaining;
  if n <? bytes then throw "Proof digest count too large" else skip bytes.

(** [for (let i = 0; i < n; i += 1) { m }] for its effect on the reader. *)
Definition repeat_read {A} (n : Z) (m : R A) : R unit := _ ← read_count n m; mret tt.

Definition skipPolicyState : R unit :=
  _ ← repeat_read 19 readU16BE;
  _ ← readU64BE; _ ← readU64BE;
  _ ← readBool;
  _ ← readU64BE; _ ← readU64BE; _ ← readU64BE; _ ← readU64BE; _ ← readU64BE;
  _ ← readBool;
  _ ← readU16BE;
  _ ← readU64BE;
  mret tt.

Definition skipTreasuryState : R unit := repeat_read 6 readU64BE.
Definition skipTreasuryVestingState : R unit := repeat_read 18 readU64BE.

Definition skipGlobalTableConfig : R unit :=
  _ ← readU8;
  _ ← readU64BE; _ ← readU64BE; _ ← readU64BE; _ ← readU64BE; _ ← readU64BE; _ ← readU64BE;
  _ ← readU8;
  mret tt.

(** One iteration of the bet loop of [GlobalTableSubmitBets]. *)
Definition skipBet : R unit := _ ← readU8; _ ← readU8; _ ← readU64BE; mret tt.

Definition skipInstruction : R unit :=
  tag ← readU8;
  match tag with
  | 10 => readStringU32Bytes
  | 11 => _ ← readU64BE; mret tt
  | 12 => _ ← readU8; _ ← readU64BE; _ ← readU64BE; mret tt
  | 13 => _ ← readU64BE; payloadLen ← readU32BE; skip payloadLen
  | 14 => _ ← readU8; mret tt
  | 15 => _ ← readPublicKey; _ ← readU8; mret tt
  | 16 => _ ← readU64BE; mret tt
  | 17 => _ ← readU64BE; _ ← readU64BE; _ ← readU64BE; mret tt
  | 18 => _ ← readU64BE; _ ← readU64BE; mret tt
  | 19 | 20 | 21 | 22 => mret tt
  | 23 | 24 | 25 => _ ← readU64BE; mret tt
  | 26 => _ ← readU64BE; _ ← readU64BE; _ ← readBool; mret tt
  | 27 => _ ← readU64BE; _ ← readU64BE; mret tt
  | 28 | 29 => _ ← readU64BE; mret tt
  | 30 => _ ← readPublicKey; mret tt
  | 31 => skipPolicyState
  | 32 => skipTreasuryState
  | 33 => _ ← readU64BE; mret tt
  | 34 => _ ← readPublicKey; _ ← readU64BE; mret tt
  | 35 | 36 | 37 => _ ← readU64BE; mret tt
  | 38 => mret tt
  | 39 => _ ← readU64BE; _ ← readU64BE; _ ← readU64BE; _ ← readU64BE; mret tt
  | 40 => mret tt
  | 41 => skipTreasuryVestingState
  | 42 => _ ← readU8; _ ← readU64BE; mret tt
  | 43 => _ ← readU64BE; _ ← readVec; mret tt
  | 44 => _ ← readPublicKey; _ ← readU64BE; _ ← readVec; mret tt
  | 45 => _ ← readU64BE; _ ← readVec; mret tt
  | 46 => _ ← readU64BE; _ ← readU64BE; _ ← readU64BE; _ ← readVec; mret tt
  | 60 => skipGlobalTableConfig
  | 61 => _ ← readU8; mret tt
  | 62 => _ ← readU8; _ ← readU64BE; betsLen ← readVarint; repeat_read betsLen skipBet
  | 63 | 64 | 65 | 66 => _ ← readU8; _ ← readU64BE; mret tt
  | _ => throw "Unknown instruction tag"
  end.

Definition skipTransaction : R unit :=
  _ ← readU64BE;
  _ ← skipInstruction;
  _ ← readPublicKey;
  _ ← readBytes ED25519_SIGNATURE_SIZE;
  mret tt.

Definition skipCasinoLeaderboard : R unit :=
  count ← readVarint;
  repeat_read count (_ ← readPublicKey; _ ← readStringU32Bytes; _ ← readU64BE; _ ← readU32BE; mret tt).

Definition skipTournamentRankings : R unit :=
  count ← readVarint;
  repeat_read count (_ ← readPublicKey; _ ← readU64BE; mret tt).

Definition skipEventByTag (tag : Z) : R unit :=
  if tag =? CASINO_PLAYER_REGISTERED then _ ← readPublicKey; readStringU32Bytes
  else if tag =? CASINO_DEPOSITED then _ ← readPublicKey; _ ← readU64BE; _ ← readU64BE; mret tt
  else if tag =? CASINO_LEADERBOARD_UPDATED then skipCasinoLeaderboard
  else if tag =? PLAYER_MODIFIER_TOGGLED then
    _ ← readPublicKey; _ ← readU8; _ ← readBool; _ ← readBool; _ ← readBool; mret tt
  else if tag =? TOURNAMENT_STARTED then _ ← readU64BE; _ ← readU64BE; mret tt
  else if tag =? PLAYER_JOINED then _ ← readU64BE; _ ← readPublicKey; mret tt
  else if tag =? TOURNAMENT_PHASE_CHANGED then _ ← readU64BE; _ ← readU8; mret tt
  else if tag =? TOURNAMENT_ENDED then _ ← readU64BE; skipTournamentRankings
  else throw "Unknown event tag".

(** ** Dispatch on the tag *)

Definition parseCasinoEventWithTag (tag : Z) : R (option CasinoGameEvent) :=
  if tag =? CASINO_GAME_STARTED then e ← parseCasinoGameStarted; mret (Some e)
  else if tag =? CASINO_GAME_MOVED then e ← parseCasinoGameMoved; mret (Some e)
  else if tag =? CASINO_GAME_COMPLETED then e ← parseCasinoGameCompleted; mret (Some e)
  else if tag =? CASINO_ERROR then e ← parseCasinoError; mret (Some e)
  else mret None.

Definition readGlobalTableBet : R GlobalTableBet :=
  betType ← readU8; target ← readU8; amount ← readU64BE;
  mret {| bet_betType := betType; bet_target := target; bet_amount := amount |}.

(** A total has the fields of a bet. *)
Definition readGlobalTableTotal : R GlobalTableBet := readGlobalTableBet.

Definition parseGlobalTableRound : R GlobalTableRound :=
  gameType ← readU8;
  roundId ← readU64BE;
  phase ← readU8;
  phaseEndsAtMs ← readU64BE;
  mainPoint ← readU8;
  d1 ← readU8;
  d2 ← readU8;
  madePointsMask ← readU8;
  epochPointEstablished ← readBool;
  fieldPaytable ← readU8;
  rngCommit ← readVec;
  rollSeed ← readVec;
  totalsLen ← readVarint;
  totals ← read_count totalsLen readGlobalTableTotal;
  mret {| r_gameType := gameType; r_roundId := roundId; r_phase := phase;
          r_phaseEndsAtMs := phaseEndsAtMs; r_mainPoint := mainPoint; r_d1 := d1; r_d2 := d2;
          r_madePointsMask := madePointsMask; r_epochPointEstablished := epochPointEstablished;
          r_fieldPaytable := fieldPaytable; r_rngCommit := rngCommit; r_rollSeed := rollSeed;
          r_totals := totals |}.

Definition parseGlobalTableEventWithTag (tag : Z) : R (option GlobalTableEvent) :=
  if tag =? GLOBAL_TABLE_ROUND_OPENED then
    round ← parseGlobalTableRound; mret (Some (Gt_round_opened round))
  else if tag =? GLOBAL_TABLE_BET_ACCEPTED then
    player ← readPublicKey;
    roundId ← readU64BE;
    betsLen ← readVarint;
    bets ← read_count betsLen readGlobalTableBet;
    balanceSnapshot ← readPlayerBalanceSnapshot;
    mret (Some (Gt_bet_accepted player roundId bets balanceSnapshot))
  else if tag =? GLOBAL_TABLE_BET_REJECTED then
    player ← readPublicKey;
    roundId ← readU64BE;
    errorCode ← readU8;
    message ← readStringU32;
    mret (Some (Gt_bet_rejected player roundId errorCode message))
  else if tag =? GLOBAL_TABLE_LOCKED then
    gameType ← readU8;
    roundId ← readU64BE;
    phaseEndsAtMs ← readU64BE;
    mret (Some (Gt_locked gameType roundId phaseEndsAtMs))
  else if tag =? GLOBAL_TABLE_OUTCOME then
    round ← parseGlobalTableRound; mret (Some (Gt_outcome round))
  else if tag =? GLOBAL_TABLE_PLAYER_SETTLED then
    player ← readPublicKey;
    roundId ← readU64BE;
    payout ← readI64BE;
    balanceSnapshot ← readPlayerBalanceSnapshot;
    myBetsLen ← readVarint;
    myBets ← read_count myBetsLen readGlobalTableBet;
    mret (Some (Gt_player_settled player roundId payout balanceSnapshot myBets))
  else if tag =? GLOBAL_TABLE_FINALIZED then
    gameType ← readU8;
    roundId ← readU64BE;
    mret (Some (Gt_finalized gameType roundId))
  else mret None.

(** [parseGlobalTableEvent], [parseEvent] and [parseOutput] read the tag (and
    the kind) themselves. *)
Definition parseGlobalTableEvent : R (option GlobalTableEvent) :=
  tag ← readU8; parseGlobalTableEventWithTag tag.

Definition parseEvent : R (option CasinoGameEvent) :=
  tag ← readU8; parseCasinoEventWithTag tag.

Definition parseOutput : R (option CasinoGameEvent) :=
  kind ← readU8; if kind =? 0 then parseEvent else mret None.

Definition parseCasinoEvent (data : Uint8Array) : option CasinoGameEvent :=
  catch (run parseOutput data) None.

(** ** Validity *)

Definition all_zero (bs : Uint8Array) : bool := forallb (fun b => b2z b =? 0) bs.

Definition is_error (e : CasinoGameEvent) : bool :=
  match e with
  | Ev_error _ _ _ _ => true
  | _ => false
  end.

Definition needs_player (e : CasinoGameEvent) : bool :=
  match e with
  | Ev_started _ _ _ _ _ | Ev_completed _ _ _ _ _ _ _ _ _ => true
  | _ => false
  end.

Definition validateEvent (event : CasinoGameEvent) : bool :=
  if negb (is_error event) && (ev_sessionId event =? 0) then false
  else
    match ev_player event with
    | Some player => (len player =? 32) && negb (all_zero player)
    | None => negb (needs_player event)
    end.

Definition validateGlobalTableRound (round : GlobalTableRound) : bool :=
  if r_roundId round =? 0 then false
  else if negb (r_gameType round =? GLOBAL_TABLE_GAME_TYPE_CRAPS) then false
  else if (r_phase round <? 0) || (4 <? r_phase round) then false
  else if GLOBAL_TABLE_MAX_TOTALS <? len (r_totals round) then false
  else if negb (len (r_rngCommit round) =? 0) && negb (len (r_rngCommit round) =? 32) then false
  else if negb (len (r_rollSeed round) =? 0) && negb (len (r_rollSeed round) =? 32) then false
  else true.

Definition validateGlobalTableEvent (event : GlobalTableEvent) : bool :=
  match event with
  | Gt_round_opened round | Gt_outcome round => validateGlobalTableRound round
  | Gt_locked gameType roundId _ | Gt_finalized gameType roundId =>
      negb (roundId =? 0) && (gameType =? GLOBAL_TABLE_GAME_TYPE_CRAPS)
  | Gt_bet_accepted _ roundId bets _ => negb (roundId =? 0) && (len bets <=? GLOBAL_TABLE_MAX_BETS)
  | Gt_bet_rejected _ roundId _ _ => negb (roundId =? 0)
  | Gt_player_settled _ roundId _ _ myBets =>
      negb (roundId =? 0) && (len myBets <=? GLOBAL_TABLE_MAX_BETS)
  end.

(** ** The update decoders

    The two arrays the decoders fill. *)

Record Decoded := { casino : list CasinoGameEvent; global : list GlobalTableEvent }.

Definition no_events : Decoded := {| casino := []; global := [] |}.

Definition push_casino (d : Decoded) (e : CasinoGameEvent) : Decoded :=
  {| casino := casino d ++ [e]; global := global d |}.

Definition push_global (d : Decoded) (e : GlobalTableEvent) : Decoded :=
  {| casino := casino d; global := global d ++ [e] |}.

(** What the loops do with an [Output], behind its kind byte; the unknown kind
    throws [msg]. *)
Definition decodeOutput (msg : string) (outputKind : Z) (d : Decoded) : R Decoded :=
  if outputKind =? 0x00 then
    tag ← readU8;
    casinoEvent ← parseCasinoEventWithTag tag;
    match (casinoEvent : option CasinoGameEvent) with
    | Some e => mret (if validateEvent e then push_casino d e else d)
    | None =>
        globalEvent ← parseGlobalTableEventWithTag tag;
        match (globalEvent : option GlobalTableEvent) with
        | Some e => mret (if validateGlobalTableEvent e then push_global d e else d)
        | None => _ ← skipEventByTag tag; mret d
        end
    end
  else if outputKind =? 0x01 then _ ← skipTransaction; mret d
  else if outputKind =? 0x02 then _ ← readU64BE; _ ← readU64BE; mret d
  else throw msg.

(** One operation behind its location. *)
Definition decodeOp (append_msg commit_msg : string) (d : Decoded) : R Decoded :=
  context ← readU8;
  if (context =? 0x05) || (context =? 0x01) then
    outputKind ← readU8; decodeOutput append_msg outputKind d
  else if (context =? 0x04) || (context =? 0x00) then
    hasValue ← readBool;
    if negb hasValue then mret d
    else outputKind ← readU8; decodeOutput commit_msg outputKind d
  else throw "Unknown keyless op context".

(** [for (let i = 0; i < opsLen; i += 1)] over the accumulated arrays. *)
Fixpoint decodeOps (n : nat) (op : Decoded -> R Decoded) (d : Decoded) : R Decoded :=
  match n with
  | O => mret d
  | S n' => d' ← op d; decodeOps n' op d'
  end.

(** [data[0]]. *)
Definition first_byte (data : Uint8Array) : Z := default undefined (elem data 0).

Definition decodeFilteredEvents (data : Uint8Array) : result Decoded :=
  if (len data =? 0) || negb (first_byte data =? 0x02) then Ok no_events
  else
    run (_ ← readU8;
         _ ← skipProgress;
         _ ← skipCertificate;
         _ ← skipProof;
         opsLen ← readVarint;
         decodeOps (Z.to_nat opsLen) (fun d =>
           _ ← readU64BE;
           decodeOp "Unexpected Output kind in FilteredEvents"
             "Unexpected Output kind in FilteredEvents commit" d) no_events) data.

Definition decodeEvents (data : Uint8Array) : result Decoded :=
  if (len data =? 0) || negb (first_byte data =? 0x01) then Ok no_events
  else
    run (_ ← readU8;
         _ ← skipProgress;
         _ ← skipCertificate;
         _ ← skipProof;
         opsLen ← readVarint;
         decodeOps (Z.to_nat opsLen)
           (decodeOp "Unexpected Output kind in Events" "Unexpected Output kind in Events commit")
           no_events) data.

(** ** Extraction *)

Definition isCasinoTag (tag : Z) : bool :=
  (tag =? CASINO_GAME_STARTED) || (tag =? CASINO_GAME_MOVED)
  || (tag =? CASINO_GAME_COMPLETED) || (tag =? CASINO_ERROR).

(** [data[i]]. *)
Definition at_index (data : Uint8Array) (i : Z) : Z := default undefined (elem data i).

(** The fallback at position [i]: a context byte, a zero kind and a casino tag,
    and behind them something that parses to a valid event. *)
Definition fallback_at (data : Uint8Array) (i : Z) : option CasinoGameEvent :=
  if ((at_index data i =? 0x01) || (at_index data i =? 0x05))
     && (at_index data (i + 1) =? 0x00) && isCasinoTag (at_index data (i + 2))
  then
    match run parseEvent (slice data (i + 2) (len data)) with
    | Ok (Some event) => if validateEvent event then Some event else None
    | _ => None
    end
  else None.

(** [for (let i = max(0, length - 3); i >= 0; i--)], up to the first event;
    [n] positions are left. *)
Fixpoint scan_back (data : Uint8Array) (n : nat) : list CasinoGameEvent :=
  match n with
  | O => []
  | S i =>
      match fallback_at data (Z.of_nat i) with
      | Some event => [event]
      | None => scan_back data i
      end
  end.

Definition scan_fallback (data : Uint8Array) : list CasinoGameEvent :=
  scan_back data (S (Z.to_nat (Z.max 0 (len data - 3)))).

(** The events a decoder yields, with an exception logged and swallowed. *)
Definition decoded_casino (m : result Decoded) : list CasinoGameEvent :=
  casino (catch m no_events).
Definition decoded_global (m : result Decoded) : list GlobalTableEvent :=
  global (catch m no_events).

Definition extractCasinoEvents (data : Uint8Array) : list CasinoGameEvent :=
  if len data =? 0 then []
  else if first_byte data =? 0x00 then []
  else
    let decoded :=
      if first_byte data =? 0x01 then decoded_casino (decodeEvents data)
      else if first_byte data =? 0x02 then decoded_casino (decodeFilteredEvents data)
      else [] in
    if 0 <? len decoded then decoded else scan_fallback data.

Definition extractGlobalTableEvents (data : Uint8Array) : list GlobalTableEvent :=
  if len data =? 0 then []
  else if first_byte data =? 0x00 then []
  else if first_byte data =? 0x01 then decoded_global (decodeEvents data)
  else if first_byte data =? 0x02 then decoded_global (decodeFilteredEvents data)
  else [].

Definition decodeGlobalTableRoundLookup (data : Uint8Array) : option GlobalTableRound :=
  if len data =? 0 then None
  else
    catch (run (
      _ ← skipProgress;
      _ ← skipCertificate;
      _ ← skipProof;
      _ ← readU64BE;
      opContext ← readU8;
      if negb (opContext =? STATE_OP_UPDATE_CONTEXT) then mret None
      else
        _ ← readBytes DIGEST_SIZE;
        valueTag ← readU8;
        if negb (valueTag =? GLOBAL_TABLE_VALUE_TAG) then mret None
        else
          round ← parseGlobalTableRound;
          mret (if validateGlobalTableRound round then Some round else None)) data) None.
