(* ===== verification/EventsWire.v ===== *)
(** * The wire format of updates

    The binary format of the events and of everything else an update message
    carries, as the decoder of the gateway documents it, and the proof that the
    parsers and skippers of [Events] read it back: each one consumes exactly the
    bytes of its item.  The balance snapshot of the chain is longer than the one
    of this format; [ChainCodec] shows what that does. *)

From S2P Require Import Prelude JsNum Bytes Reader Batch BinaryReader Transactions Instructions Events.

(** ** Casino events *)

Definition key_ok (k : Uint8Array) : Prop := len k = 32.
Definition vec_ok (v : Uint8Array) : Prop := len v <= 10000.
Definition logs_ok (l : list string) : Prop := len l <= 10000 /\ Forall text_ok l.
Definition u32 (v : Z) : Prop := 0 <= v < 2 ^ 32.
Definition message_ok (s : string) : Prop :=
  len (bytes_of_string s) <= 1000 /\ ascii_bytes (bytes_of_string s).

Definition strings_u32 (l : list string) : Uint8Array :=
  be_bytes 4 (len l) ++ concat (string_u32 <$> l).

Definition bool_byte (b : bool) : byte := if b then x01 else x00.

Definition casino_tag (e : CasinoGameEvent) : Z :=
  match e with
  | Ev_started _ _ _ _ _ => CASINO_GAME_STARTED
  | Ev_moved _ _ _ _ _ => CASINO_GAME_MOVED
  | Ev_completed _ _ _ _ _ _ _ _ _ => CASINO_GAME_COMPLETED
  | Ev_error _ _ _ _ => CASINO_ERROR
  end.

Definition casino_body (e : CasinoGameEvent) : Uint8Array :=
  match e with
  | Ev_started s p g b st => be_bytes 8 s ++ p ++ [z2b g] ++ be_bytes 8 b ++ vec st
  | Ev_moved s n st logs bal => be_bytes 8 s ++ be_bytes 4 n ++ vec st ++ strings_u32 logs ++ balances bal
  | Ev_completed s p g pay chips sh db logs bal =>
      be_bytes 8 s ++ p ++ [z2b g] ++ be_bytes 8 pay ++ be_bytes 8 chips
      ++ [bool_byte sh] ++ [bool_byte db] ++ strings_u32 logs ++ balances bal
  | Ev_error s p c m =>
      p ++ option_u64 (if s =? 0 then None else Some s) ++ [z2b c] ++ string_u32 m
  end.

Definition casino_ok (e : CasinoGameEvent) : Prop :=
  match e with
  | Ev_started s p g b st => u64 s /\ key_ok p /\ u8 g /\ u64 b /\ vec_ok st
  | Ev_moved s n st logs bal => u64 s /\ u32 n /\ vec_ok st /\ logs_ok logs /\ balances_ok bal
  | Ev_completed s p g pay chips _ _ logs bal =>
      u64 s /\ key_ok p /\ u8 g /\ i64 pay /\ u64 chips /\ logs_ok logs /\ balances_ok bal
  | Ev_error s p c m => u64 s /\ key_ok p /\ u8 c /\ message_ok m
  end.

Lemma reads_readPublicKey k : key_ok k -> reads readPublicKey k k.
Proof. apply reads_readBytes_n. Qed.

Lemma reads_bool b : reads readBool [bool_byte b] b.
Proof.
  replace b with (negb (b2z (bool_byte b) =? 0)) at 2 by by destruct b. apply reads_readBool.
Qed.

Lemma reads_u32 v : u32 v -> reads readU32BE (be_bytes 4 v) v.
Proof. apply reads_readU32BE. Qed.

Lemma reads_vec v : vec_ok v -> reads readVec (vec v) v.
Proof. apply reads_readVec. Qed.

Lemma reads_logs l : logs_ok l -> reads readStringVecU32 (strings_u32 l) l.
Proof. intros [H1 H2]. exact (reads_readStringVecU32 l H1 H2). Qed.

#[export] Hint Resolve reads_readPublicKey reads_bool reads_u32 reads_vec reads_logs : js.

Lemma reads_errorMessage m : message_ok m -> reads readErrorMessage (string_u32 m) m.
Proof.
  intros [Hl Ha] pre post. unfold readErrorMessage, remaining.
  unfold mbind at 1, R_bind at 1. cbn [rd_data rd_offset].
  set (bs := bytes_of_string m) in *. pose proof (len_nonneg bs). pose proof (len_nonneg post).
  replace (len (pre ++ string_u32 m ++ post) - len pre) with (4 + len bs + len post)
    by (unfold string_u32; fold bs; autorewrite with js; lia).
  zcmp. unfold mbind at 1, R_bind at 1, peek_u32, getUint32BE. cbn [rd_data rd_offset].
  unfold string_u32 at 1. fold bs. rewrite <- app_assoc, view_bytes_mid by done.
  cbn [fmap result_fmap]. rewrite be_value_u32 by lia. zcmp. cbn [andb].
  rewrite app_assoc, <- app_assoc. apply (reads_readStringU32 m). subst bs. split; [lia|exact Ha].
Qed.

Lemma reads_casino e :
  casino_ok e -> reads (parseCasinoEventWithTag (casino_tag e)) (casino_body e) (Some e).
Proof.
  destruct e; cbn [casino_ok casino_tag casino_body]; intros H; destruct_and? H.
  - change (parseCasinoEventWithTag CASINO_GAME_STARTED) with (e ← parseCasinoGameStarted; mret (Some e)).
    eapply reads_bind_last; [|apply reads_ret]. unfold parseCasinoGameStarted. by repeat reads_step.
  - change (parseCasinoEventWithTag CASINO_GAME_MOVED) with (e ← parseCasinoGameMoved; mret (Some e)).
    eapply reads_bind_last; [|apply reads_ret]. unfold parseCasinoGameMoved. by repeat reads_step.
  - change (parseCasinoEventWithTag CASINO_GAME_COMPLETED) with (e ← parseCasinoGameCompleted; mret (Some e)).
    eapply reads_bind_last; [|apply reads_ret]. unfold parseCasinoGameCompleted. by repeat reads_step.
  - change (parseCasinoEventWithTag CASINO_ERROR) with (e ← parseCasinoError; mret (Some e)).
    eapply reads_bind_last; [|apply reads_ret]. unfold parseCasinoError.
    eapply reads_bind; [by eauto with js|]. cbv beta.
    eapply reads_bind; [apply reads_readOptionU64BE|].
    { intros x. destruct (sessionId =? 0); [done|]. by intros [=<-]. }
    cbv beta. eapply reads_bind; [by eauto with js|]. cbv beta.
    eapply reads_bind_last; [by apply reads_try, reads_errorMessage|]. cbv beta.
    replace (default 0 _) with sessionId; [apply reads_ret|].
    destruct (sessionId =? 0) eqn:E; bprop; by subst.
Qed.

(** Decide the comparisons of a closed tag. *)
Ltac tag_dispatch :=
  repeat match goal with
  | |- context [if ?a =? ?b then _ else _] =>
      let v := eval vm_compute in (a =? b) in change (a =? b) with v; cbv iota
  end.

(** ** Global table events *)

Definition table_bet (b : GlobalTableBet) : Uint8Array :=
  [z2b (bet_betType b)] ++ [z2b (bet_target b)] ++ be_bytes 8 (bet_amount b).

Definition table_bet_ok (b : GlobalTableBet) : Prop :=
  u8 (bet_betType b) /\ u8 (bet_target b) /\ u64 (bet_amount b).

Definition bets_ok (l : list GlobalTableBet) : Prop := len l < 2 ^ 31 /\ Forall table_bet_ok l.

Definition table_bets (l : list GlobalTableBet) : Uint8Array :=
  varint (len l) ++ concat (table_bet <$> l).

Definition round_bytes (r : GlobalTableRound) : Uint8Array :=
  [z2b (r_gameType r)] ++ be_bytes 8 (r_roundId r) ++ [z2b (r_phase r)]
  ++ be_bytes 8 (r_phaseEndsAtMs r) ++ [z2b (r_mainPoint r)] ++ [z2b (r_d1 r)] ++ [z2b (r_d2 r)]
  ++ [z2b (r_madePointsMask r)] ++ [bool_byte (r_epochPointEstablished r)]
  ++ [z2b (r_fieldPaytable r)] ++ vec (r_rngCommit r) ++ vec (r_rollSeed r)
  ++ table_bets (r_totals r).

Definition round_ok (r : GlobalTableRound) : Prop :=
  u8 (r_gameType r) /\ u64 (r_roundId r) /\ u8 (r_phase r) /\ u64 (r_phaseEndsAtMs r)
  /\ u8 (r_mainPoint r) /\ u8 (r_d1 r) /\ u8 (r_d2 r) /\ u8 (r_madePointsMask r)
  /\ u8 (r_fieldPaytable r) /\ vec_ok (r_rngCommit r) /\ vec_ok (r_rollSeed r)
  /\ bets_ok (r_totals r).

Definition table_tag (e : GlobalTableEvent) : Z :=
  match e with
  | Gt_round_opened _ => GLOBAL_TABLE_ROUND_OPENED
  | Gt_bet_accepted _ _ _ _ => GLOBAL_TABLE_BET_ACCEPTED
  | Gt_bet_rejected _ _ _ _ => GLOBAL_TABLE_BET_REJECTED
  | Gt_locked _ _ _ => GLOBAL_TABLE_LOCKED
  | Gt_outcome _ => GLOBAL_TABLE_OUTCOME
  | Gt_player_settled _ _ _ _ _ => GLOBAL_TABLE_PLAYER_SETTLED
  | Gt_finalized _ _ => GLOBAL_TABLE_FINALIZED
  end.

Definition table_body (e : GlobalTableEvent) : Uint8Array :=
  match e with
  | Gt_round_opened r | Gt_outcome r => round_bytes r
  | Gt_bet_accepted p rid bets bal => p ++ be_bytes 8 rid ++ table_bets bets ++ balances bal
  | Gt_bet_rejected p rid c m => p ++ be_bytes 8 rid ++ [z2b c] ++ string_u32 m
  | Gt_locked g rid ends => [z2b g] ++ be_bytes 8 rid ++ be_bytes 8 ends
  | Gt_player_settled p rid pay bal bets =>
      p ++ be_bytes 8 rid ++ be_bytes 8 pay ++ balances bal ++ table_bets bets
  | Gt_finalized g rid => [z2b g] ++ be_bytes 8 rid
  end.

Definition table_ok (e : GlobalTableEvent) : Prop :=
  match e with
  | Gt_round_opened r | Gt_outcome r => round_ok r
  | Gt_bet_accepted p rid bets bal => key_ok p /\ u64 rid /\ bets_ok bets /\ balances_ok bal
  | Gt_bet_rejected p rid c m => key_ok p /\ u64 rid /\ u8 c /\ text_ok m
  | Gt_locked g rid ends => u8 g /\ u64 rid /\ u64 ends
  | Gt_player_settled p rid pay bal bets =>
      key_ok p /\ u64 rid /\ i64 pay /\ balances_ok bal /\ bets_ok bets
  | Gt_finalized g rid => u8 g /\ u64 rid
  end.

Lemma reads_table_bet b : table_bet_ok b -> reads readGlobalTableBet (table_bet b) b.
Proof.
  intros (H1 & H2 & H3). unfold readGlobalTableBet, table_bet. repeat reads_step.
  destruct b. apply reads_ret.
Qed.

(** A bet list behind its count, wherever it is in a parser. *)
Lemma reads_table_bets {A} (k : list GlobalTableBet -> R A) (l : list GlobalTableBet) bs a :
  bets_ok l -> reads (k l) bs a ->
  reads (n ← readVarint; bets ← read_count n readGlobalTableBet; k bets) (table_bets l ++ bs) a.
Proof.
  intros [Hn Hl] Hk. unfold table_bets. rewrite <- app_assoc.
  eapply reads_bind; [apply reads_readVarint_small; pose proof (len_nonneg l); lia|]. cbv beta.
  eapply reads_bind; [|exact Hk]. apply reads_count. eapply Forall_impl; [exact Hl|].
  apply reads_table_bet.
Qed.

Lemma reads_table_bets_last {A} (k : list GlobalTableBet -> R A) (l : list GlobalTableBet) a :
  bets_ok l -> reads (k l) [] a ->
  reads (n ← readVarint; bets ← read_count n readGlobalTableBet; k bets) (table_bets l) a.
Proof. intros Hl Hk. rewrite <- (app_nil_r (table_bets l)). by apply reads_table_bets. Qed.

Lemma reads_round r : round_ok r -> reads parseGlobalTableRound (round_bytes r) r.
Proof.
  intros H. unfold round_ok in H. destruct_and? H. unfold parseGlobalTableRound, round_bytes.
  do 12 (eapply reads_bind; [by eauto with js|]; cbv beta).
  apply (reads_table_bets_last (fun totals => mret _)); [done|]. destruct r. apply reads_ret.
Qed.

Lemma reads_table e :
  table_ok e -> reads (parseGlobalTableEventWithTag (table_tag e)) (table_body e) (Some e).
Proof.
  destruct e; cbn [table_ok table_tag table_body]; intros H; destruct_and? H;
    unfold parseGlobalTableEventWithTag; tag_dispatch.
  - eapply reads_bind_last; [by apply reads_round|]. apply reads_ret.
  - do 2 (eapply reads_bind; [by eauto with js|]; cbv beta).
    apply (reads_table_bets (fun bets => _)); [done|].
    eapply reads_bind_last; [by eauto with js|]. apply reads_ret.
  - by repeat reads_step.
  - by repeat reads_step.
  - eapply reads_bind_last; [by apply reads_round|]. apply reads_ret.
  - do 4 (eapply reads_bind; [by eauto with js|]; cbv beta).
    apply (reads_table_bets_last (fun bets => _)); [done|]. apply reads_ret.
  - by repeat reads_step.
Qed.

(** ** Skipped events *)

Inductive OtherEvent :=
| Oe_registered (player : Uint8Array) (name : string)
| Oe_deposited (player : Uint8Array) (amount chips : Z)
| Oe_leaderboard (entries : list (Uint8Array * string * Z * Z))
| Oe_modifier (player : Uint8Array) (action : Z) (shield double super : bool)
| Oe_tournament_started (id start : Z)
| Oe_player_joined (id : Z) (player : Uint8Array)
| Oe_phase_changed (id phase : Z)
| Oe_tournament_ended (id : Z) (rankings : list (Uint8Array * Z)).

Definition other_tag (e : OtherEvent) : Z :=
  match e with
  | Oe_registered _ _ => CASINO_PLAYER_REGISTERED
  | Oe_deposited _ _ _ => CASINO_DEPOSITED
  | Oe_leaderboard _ => CASINO_LEADERBOARD_UPDATED
  | Oe_modifier _ _ _ _ _ => PLAYER_MODIFIER_TOGGLED
  | Oe_tournament_started _ _ => TOURNAMENT_STARTED
  | Oe_player_joined _ _ => PLAYER_JOINED
  | Oe_phase_changed _ _ => TOURNAMENT_PHASE_CHANGED
  | Oe_tournament_ended _ _ => TOURNAMENT_ENDED
  end.

Definition leader_bytes (e : Uint8Array * string * Z * Z) : Uint8Array :=
  let '(p, n, chips, rank) := e in p ++ string_u32 n ++ be_bytes 8 chips ++ be_bytes 4 rank.
Definition leader_ok (e : Uint8Array * string * Z * Z) : Prop :=
  let '(p, n, chips, rank) := e in
  key_ok p /\ len (bytes_of_string n) <= 10000 /\ u64 chips /\ u32 rank.

Definition ranking_bytes (e : Uint8Array * Z) : Uint8Array := let '(p, chips) := e in p ++ be_bytes 8 chips.
Definition ranking_ok (e : Uint8Array * Z) : Prop := let '(p, chips) := e in key_ok p /\ u64 chips.

Definition counted {A} (enc : A -> Uint8Array) (l : list A) : Uint8Array :=
  varint (len l) ++ concat (enc <$> l).

Definition other_body (e : OtherEvent) : Uint8Array :=
  match e with
  | Oe_registered p n => p ++ string_u32 n
  | Oe_deposited p a c => p ++ be_bytes 8 a ++ be_bytes 8 c
  | Oe_leaderboard l => counted leader_bytes l
  | Oe_modifier p a sh db sp => p ++ [z2b a] ++ [bool_byte sh] ++ [bool_byte db] ++ [bool_byte sp]
  | Oe_tournament_started i st => be_bytes 8 i ++ be_bytes 8 st
  | Oe_player_joined i p => be_bytes 8 i ++ p
  | Oe_phase_changed i ph => be_bytes 8 i ++ [z2b ph]
  | Oe_tournament_ended i l => be_bytes 8 i ++ counted ranking_bytes l
  end.

Definition other_ok (e : OtherEvent) : Prop :=
  match e with
  | Oe_registered p n => key_ok p /\ len (bytes_of_string n) <= 10000
  | Oe_deposited p a c => key_ok p /\ u64 a /\ u64 c
  | Oe_leaderboard l => len l < 2 ^ 31 /\ Forall leader_ok l
  | Oe_modifier p a _ _ _ => key_ok p /\ u8 a
  | Oe_tournament_started i st => u64 i /\ u64 st
  | Oe_player_joined i p => u64 i /\ key_ok p
  | Oe_phase_changed i ph => u64 i /\ u8 ph
  | Oe_tournament_ended i l => u64 i /\ len l < 2 ^ 31 /\ Forall ranking_ok l
  end.

Lemma reads_repeat {A B} (m : R B) (enc : A -> Uint8Array) (f : A -> B) (l : list A) :
  Forall (fun a => reads m (enc a) (f a)) l ->
  reads (repeat_read (len l) m) (concat (enc <$> l)) tt.
Proof.
  intros Hl. unfold repeat_read. eapply reads_bind_last; [|apply reads_ret].
  unfold read_count, len. rewrite Nat2Z.id.
  instantiate (1 := f <$> l). induction Hl as [|a l Ha _ IH]; simpl; [apply reads_ret|].
  eapply reads_bind; [exact Ha|]. eapply reads_bind_last; [exact IH|]. apply reads_ret.
Qed.

Lemma reads_counted {A} (m : R unit) (enc : A -> Uint8Array) (l : list A) :
  len l < 2 ^ 31 -> Forall (fun a => reads m (enc a) tt) l ->
  reads (n ← readVarint; repeat_read n m) (counted enc l) tt.
Proof.
  intros Hn Hl. unfold counted.
  eapply reads_bind; [apply reads_readVarint_small; pose proof (len_nonneg l); lia|]. cbv beta.
  by apply reads_repeat with (f := fun _ => tt).
Qed.

Lemma reads_leader e :
  leader_ok e ->
  reads (_ ← readPublicKey; _ ← readStringU32Bytes; _ ← readU64BE; _ ← readU32BE; mret tt) (leader_bytes e) tt.
Proof.
  destruct e as [[[p n] chips] rank]. intros H. cbn in H. destruct_and? H.
  cbn [leader_bytes]. by repeat reads_step.
Qed.

Lemma reads_ranking e :
  ranking_ok e -> reads (_ ← readPublicKey; _ ← readU64BE; mret tt) (ranking_bytes e) tt.
Proof.
  destruct e as [p chips]. intros H. cbn in H. destruct_and? H. cbn [ranking_bytes]. by repeat reads_step.
Qed.

Lemma reads_other e : other_ok e -> reads (skipEventByTag (other_tag e)) (other_body e) tt.
Proof.
  destruct e; cbn [other_ok other_tag other_body]; intros H; destruct_and? H;
    unfold skipEventByTag; tag_dispatch.
  - eapply reads_bind; [by eauto with js|]. cbv beta. by apply reads_readStringU32Bytes.
  - by repeat reads_step.
  - apply reads_counted; [done|]. eapply Forall_impl; [eassumption|]. apply reads_leader.
  - by repeat reads_step.
  - by repeat reads_step.
  - by repeat reads_step.
  - by repeat reads_step.
  - eapply reads_bind; [by eauto with js|]. cbv beta. unfold skipTournamentRankings.
    apply reads_counted; [done|]. eapply Forall_impl; [eassumption|]. apply reads_ranking.
Qed.

(** ** The header of an update *)

Record Header := {
  h_view : Z; h_height : Z;
  h_blockDigest : Uint8Array; h_stateRoot : Uint8Array;
  h_stateStart : Z; h_stateEnd : Z;
  h_eventsRoot : Uint8Array;
  h_eventsStart : Z; h_eventsEnd : Z;
  h_certIndex : Z; h_certDigest : Uint8Array; h_certSignature : Uint8Array;
  h_proofSize : Z; h_proofDigests : list Uint8Array
}.

Definition progress_bytes (h : Header) : Uint8Array :=
  be_bytes 8 (h_view h) ++ be_bytes 8 (h_height h) ++ h_blockDigest h ++ h_stateRoot h
  ++ be_bytes 8 (h_stateStart h) ++ be_bytes 8 (h_stateEnd h) ++ h_eventsRoot h
  ++ be_bytes 8 (h_eventsStart h) ++ be_bytes 8 (h_eventsEnd h).

Definition certificate_bytes (h : Header) : Uint8Array :=
  varint (h_certIndex h) ++ h_certDigest h ++ h_certSignature h.

Definition proof_bytes (h : Header) : Uint8Array :=
  varint (h_proofSize h) ++ varint (len (h_proofDigests h)) ++ concat (h_proofDigests h).

Definition header_bytes (h : Header) : Uint8Array :=
  progress_bytes h ++ certificate_bytes h ++ proof_bytes h.

Definition header_ok (h : Header) : Prop :=
  (u64 (h_view h) /\ u64 (h_height h) /\ key_ok (h_blockDigest h) /\ key_ok (h_stateRoot h)
   /\ u64 (h_stateStart h) /\ u64 (h_stateEnd h) /\ key_ok (h_eventsRoot h)
   /\ u64 (h_eventsStart h) /\ u64 (h_eventsEnd h))
  /\ (u32 (h_certIndex h) /\ key_ok (h_certDigest h) /\ len (h_certSignature h) = 48)
  /\ u32 (h_proofSize h) /\ len (h_proofDigests h) < 2 ^ 31 /\ Forall key_ok (h_proofDigests h).

Lemma reads_varint_u32 v : u32 v -> reads readVarint (varint v) (to_int32 v).
Proof. apply reads_readVarint. Qed.

#[local] Hint Resolve reads_varint_u32 : js.

Lemma reads_progress h : header_ok h -> reads skipProgress (progress_bytes h) tt.
Proof. intros [H _]. destruct_and? H. unfold skipProgress, progress_bytes. by repeat reads_step. Qed.

Lemma reads_certificate h : header_ok h -> reads skipCertificate (certificate_bytes h) tt.
Proof.
  intros (_ & H & _). destruct_and? H. unfold skipCertificate, certificate_bytes.
  by repeat reads_step.
Qed.

Lemma len_concat_digests l : Forall key_ok l -> len (concat l) = len l * 32.
Proof.
  induction 1 as [|d l Hd _ IH]; [done|]. cbn [concat]. rewrite len_app, len_cons, IH, Hd. lia.
Qed.

Lemma reads_checked_skip msg k bs :
  len bs = k -> reads (n ← remaining; if n <? k then throw msg else skip k) bs tt.
Proof.
  intros <- pre post. unfold mbind, R_bind, remaining. cbn [rd_data rd_offset].
  autorewrite with js. pose proof (len_nonneg post). zcmp. reflexivity.
Qed.

Lemma reads_proof h : header_ok h -> reads skipProof (proof_bytes h) tt.
Proof.
  intros (_ & _ & Hs & Hn & Hd). unfold skipProof, proof_bytes.
  eapply reads_bind; [by apply reads_varint_u32|]. cbv beta.
  eapply reads_bind; [apply reads_readVarint_small; pose proof (len_nonneg (h_proofDigests h)); lia|].
  cbv beta zeta. apply reads_checked_skip. by apply len_concat_digests.
Qed.
