(* ===== verification/EventsCorrect.v ===== *)
(** * Correctness of the update decoders

    Whole messages: the outputs, the operations and the two update formats, the
    theorem that decoding a well-formed message yields exactly its valid events,
    the skipping of the gateway's own transactions, the round lookup, and what
    the byte-pattern fallback does. *)

From S2P Require Import Prelude JsNum Bytes Reader Constants Batch BinaryReader Transactions Instructions Events EventsWire.

(** ** Outputs and operations *)

Inductive Output :=
| Out_casino (e : CasinoGameEvent)
| Out_table (e : GlobalTableEvent)
| Out_other (e : OtherEvent)
| Out_transaction (nonce : Z) (instruction publicKey signature : Uint8Array)
| Out_commit (height start : Z).

Definition output_kind (o : Output) : Z :=
  match o with
  | Out_casino _ | Out_table _ | Out_other _ => 0
  | Out_transaction _ _ _ _ => 1
  | Out_commit _ _ => 2
  end.

Definition output_body (o : Output) : Uint8Array :=
  match o with
  | Out_casino e => [z2b (casino_tag e)] ++ casino_body e
  | Out_table e => [z2b (table_tag e)] ++ table_body e
  | Out_other e => [z2b (other_tag e)] ++ other_body e
  | Out_transaction n i pk s => be_bytes 8 n ++ i ++ pk ++ s
  | Out_commit a b => be_bytes 8 a ++ be_bytes 8 b
  end.

(** A transaction's instruction is one [skipInstruction] steps over. *)
Definition output_ok (o : Output) : Prop :=
  match o with
  | Out_casino e => casino_ok e
  | Out_table e => table_ok e
  | Out_other e => other_ok e
  | Out_transaction n i pk s => u64 n /\ reads skipInstruction i tt /\ len pk = 32 /\ len s = 64
  | Out_commit a b => u64 a /\ u64 b
  end.

(** What an output adds to the two arrays: the event, if it is valid. *)
Definition push_output (d : Decoded) (o : Output) : Decoded :=
  match o with
  | Out_casino e => if validateEvent e then push_casino d e else d
  | Out_table e => if validateGlobalTableEvent e then push_global d e else d
  | _ => d
  end.

Inductive Op :=
| Op_append (flagged : bool) (o : Output)
| Op_commit (flagged : bool) (o : option Output).

Definition op_bytes (op : Op) : Uint8Array :=
  match op with
  | Op_append f o => [if f then x05 else x01] ++ [z2b (output_kind o)] ++ output_body o
  | Op_commit f None => [if f then x04 else x00] ++ [x00]
  | Op_commit f (Some o) => [if f then x04 else x00] ++ [x01] ++ [z2b (output_kind o)] ++ output_body o
  end.

Definition op_output (op : Op) : option Output :=
  match op with
  | Op_append _ o => Some o
  | Op_commit _ o => o
  end.

Definition op_ok (op : Op) : Prop :=
  match op_output op with
  | Some o => output_ok o
  | None => True
  end.

Definition push_op (d : Decoded) (op : Op) : Decoded :=
  match op_output op with
  | Some o => push_output d o
  | None => d
  end.

(** The specification of a decoder: the valid events, in order. *)
Definition op_casino (op : Op) : option CasinoGameEvent :=
  match op_output op with
  | Some (Out_casino e) => if validateEvent e then Some e else None
  | _ => None
  end.

Definition op_global (op : Op) : option GlobalTableEvent :=
  match op_output op with
  | Some (Out_table e) => if validateGlobalTableEvent e then Some e else None
  | _ => None
  end.

Definition decoded_spec (ops : list Op) : Decoded :=
  {| casino := omap op_casino ops; global := omap op_global ops |}.

Lemma fold_push_op ops d :
  foldl push_op d ops
  = {| casino := casino d ++ omap op_casino ops; global := global d ++ omap op_global ops |}.
Proof.
  revert d. induction ops as [|op ops IH]; intros d; cbn [foldl].
  - cbn. rewrite !app_nil_r. by destruct d.
  - rewrite IH. unfold push_op, op_casino, op_global. cbn [omap list_omap].
    destruct (op_output op) as [[e|e|e|? ? ? ?|? ?]|]; cbn [push_output]; try reflexivity;
      split_if; cbn; by rewrite <- ?app_assoc.
Qed.

Lemma u8_of_tag e : u8 (casino_tag e).
Proof. destruct e; by vm_compute. Qed.

Lemma u8_of_table_tag e : u8 (table_tag e).
Proof. destruct e; by vm_compute. Qed.

Lemma u8_of_other_tag e : u8 (other_tag e).
Proof. destruct e; by vm_compute. Qed.

Lemma not_casino_table e : parseCasinoEventWithTag (table_tag e) = mret None.
Proof. by destruct e. Qed.

Lemma not_casino_other e : parseCasinoEventWithTag (other_tag e) = mret None.
Proof. by destruct e. Qed.

Lemma not_table_other e : parseGlobalTableEventWithTag (other_tag e) = mret None.
Proof. by destruct e. Qed.

Lemma reads_transaction n i pk s :
  u64 n -> reads skipInstruction i tt -> len pk = 32 -> len s = 64 ->
  reads skipTransaction (be_bytes 8 n ++ i ++ pk ++ s) tt.
Proof.
  intros Hn Hi Hp Hs. unfold skipTransaction.
  eapply reads_bind; [by apply reads_readU64BE|]. cbv beta.
  eapply reads_bind; [exact Hi|]. cbv beta.
  eapply reads_bind; [by apply reads_readPublicKey|]. cbv beta.
  eapply reads_bind_last; [by apply reads_readBytes_n|]. apply reads_ret.
Qed.

(** The decoder's loop body consumes one output. *)
Lemma reads_output msg d o :
  output_ok o -> reads (decodeOutput msg (output_kind o) d) (output_body o) (push_output d o).
Proof.
  intros H. unfold decodeOutput. destruct o; cbn [output_kind output_body output_ok push_output] in *;
    tag_dispatch.
  - eapply reads_bind; [apply reads_readU8_z, u8_of_tag|]. cbv beta.
    eapply reads_bind_last; [by apply reads_casino|]. apply reads_ret.
  - eapply reads_bind; [apply reads_readU8_z, u8_of_table_tag|]. cbv beta.
    rewrite not_casino_table. eapply reads_bind_pure; [apply reads_ret|]. cbv beta iota.
    eapply reads_bind_last; [by apply reads_table|]. apply reads_ret.
  - eapply reads_bind; [apply reads_readU8_z, u8_of_other_tag|]. cbv beta.
    rewrite not_casino_other. eapply reads_bind_pure; [apply reads_ret|]. cbv beta iota.
    rewrite not_table_other. eapply reads_bind_pure; [apply reads_ret|]. cbv beta iota.
    eapply reads_bind_last; [by apply reads_other|]. apply reads_ret.
  - destruct H as (? & ? & ? & ?).
    eapply reads_bind_last; [by apply reads_transaction|]. apply reads_ret.
  - destruct H as [? ?]. by repeat reads_step.
Qed.

Lemma output_kind_u8 o : u8 (output_kind o).
Proof. destruct o; by vm_compute. Qed.

Lemma reads_op m1 m2 d op : op_ok op -> reads (decodeOp m1 m2 d) (op_bytes op) (push_op d op).
Proof.
  unfold op_ok, push_op, decodeOp. intros H.
  destruct op as [f o|f [o|]]; cbn [op_output op_bytes] in *.
  - eapply reads_bind; [apply reads_readU8|]. cbv beta.
    replace ((b2z (if f then x05 else x01) =? 0x05) || (b2z (if f then x05 else x01) =? 0x01))
      with true by by destruct f. cbv iota.
    eapply reads_bind; [apply reads_readU8_z, output_kind_u8|]. cbv beta. by apply reads_output.
  - eapply reads_bind; [apply reads_readU8|]. cbv beta.
    replace ((b2z (if f then x04 else x00) =? 0x05) || (b2z (if f then x04 else x00) =? 0x01))
      with false by by destruct f.
    replace ((b2z (if f then x04 else x00) =? 0x04) || (b2z (if f then x04 else x00) =? 0x00))
      with true by by destruct f. cbv iota.
    eapply reads_bind; [apply (reads_bool true)|]. cbv beta. cbn [negb].
    eapply reads_bind; [apply reads_readU8_z, output_kind_u8|]. cbv beta. by apply reads_output.
  - eapply reads_bind; [apply reads_readU8|]. cbv beta.
    replace ((b2z (if f then x04 else x00) =? 0x05) || (b2z (if f then x04 else x00) =? 0x01))
      with false by by destruct f.
    replace ((b2z (if f then x04 else x00) =? 0x04) || (b2z (if f then x04 else x00) =? 0x00))
      with true by by destruct f. cbv iota.
    eapply reads_bind_last; [apply (reads_bool false)|]. cbv beta. cbn [negb]. apply reads_ret.
Qed.

Lemma reads_ops {A} (op : Decoded -> R Decoded) (enc : A -> Uint8Array)
    (push : Decoded -> A -> Decoded) (l : list A) d :
  Forall (fun a => forall d, reads (op d) (enc a) (push d a)) l ->
  reads (decodeOps (length l) op d) (concat (enc <$> l)) (foldl push d l).
Proof.
  intros Hl. revert d. induction Hl as [|a l Ha _ IH]; intros d; simpl; [apply reads_ret|].
  eapply reads_bind; [apply Ha|]. apply IH.
Qed.

(** ** Updates *)

Record Update := { u_header : Header; u_ops : list (Z * Op) }.

Definition update_ok (u : Update) : Prop :=
  header_ok (u_header u) /\ len (u_ops u) < 2 ^ 31
  /\ Forall (fun lo => u64 lo.1 /\ op_ok lo.2) (u_ops u).

(** The filtered format gives each operation its location, the plain one does
    not. *)
Definition filtered_message (u : Update) : Uint8Array :=
  [x02] ++ header_bytes (u_header u) ++ varint (len (u_ops u))
  ++ concat ((fun lo => be_bytes 8 lo.1 ++ op_bytes lo.2) <$> u_ops u).

Definition events_message (u : Update) : Uint8Array :=
  [x01] ++ header_bytes (u_header u) ++ varint (len (u_ops u))
  ++ concat ((fun lo => op_bytes lo.2) <$> u_ops u).

Lemma reads_message (h : Header) (l : list (Z * Op)) (b : byte)
    (op : Decoded -> R Decoded) (enc : Z * Op -> Uint8Array) :
  header_ok h -> len l < 2 ^ 31 ->
  Forall (fun lo => forall d, reads (op d) (enc lo) (push_op d lo.2)) l ->
  reads (_ ← readU8; _ ← skipProgress; _ ← skipCertificate; _ ← skipProof; opsLen ← readVarint;
         decodeOps (Z.to_nat opsLen) op no_events)
    ([b] ++ header_bytes h ++ varint (len l) ++ concat (enc <$> l))
    (decoded_spec (l.*2)).
Proof.
  intros Hh Hl Hops. unfold header_bytes. rewrite <- !app_assoc.
  eapply reads_bind; [apply reads_readU8|]. cbv beta.
  eapply reads_bind; [by apply reads_progress|]. cbv beta.
  eapply reads_bind; [by apply reads_certificate|]. cbv beta.
  eapply reads_bind; [by apply reads_proof|]. cbv beta.
  eapply reads_bind; [apply reads_readVarint_small; pose proof (len_nonneg l); lia|]. cbv beta.
  unfold len. rewrite Nat2Z.id.
  replace (decoded_spec (l.*2)) with (foldl (fun d lo => push_op d lo.2) no_events l).
  - by apply reads_ops.
  - pose proof (fold_push_op (l.*2) no_events) as Hf. cbn in Hf. unfold decoded_spec. rewrite <- Hf.
    generalize no_events. clear. induction l as [|lo l IH]; intros d; [done|]. cbn. apply IH.
Qed.

Lemma first_byte_cons b bs : first_byte (b :: bs) = b2z b.
Proof. reflexivity. Qed.

Lemma nonempty_len {A} (x : A) l : (len (x :: l) =? 0) = false.
Proof. apply Z.eqb_neq. rewrite len_cons. pose proof (len_nonneg l). lia. Qed.

Lemma decode_filtered u :
  update_ok u -> decodeFilteredEvents (filtered_message u) = Ok (decoded_spec ((u_ops u).*2)).
Proof.
  intros (Hh & Hl & Ho). unfold decodeFilteredEvents, filtered_message.
  cbn [app]. rewrite nonempty_len, first_byte_cons. change (negb (b2z x02 =? 2)) with false. cbn [orb].
  apply reads_run. apply (reads_message _ _ x02); [done|done|].
  eapply Forall_impl; [exact Ho|]. intros [loc op] [Hloc Hop] d. cbn [fst snd] in *.
  eapply reads_bind; [by apply reads_readU64BE|]. by apply reads_op.
Qed.

Lemma decode_events u :
  update_ok u -> decodeEvents (events_message u) = Ok (decoded_spec ((u_ops u).*2)).
Proof.
  intros (Hh & Hl & Ho). unfold decodeEvents, events_message.
  cbn [app]. rewrite nonempty_len, first_byte_cons. change (negb (b2z x01 =? 1)) with false. cbn [orb].
  apply reads_run. apply (reads_message _ _ x01); [done|done|].
  eapply Forall_impl; [exact Ho|]. intros [loc op] [Hloc Hop] d. cbn [fst snd] in *. by apply reads_op.
Qed.

(** ** The gateway's own transactions *)

Definition instruction_range (i : Instruction) : Prop :=
  match i with
  | I_SubmitBets _ _ bets => len bets < 2 ^ 31
  | _ => True
  end.

Lemma reads_any_u8 z : reads readU8 [z2b z] (z mod 256).
Proof. rewrite <- b2z_z2b. apply reads_readU8. Qed.

Lemma reads_any_u64 z : reads readU64BE (be_bytes 8 z) (z mod 2 ^ 64).
Proof.
  apply (reads_view 8); [apply len_be_bytes|]. apply be_value_be_bytes.
Qed.

Lemma reads_skipBet b : reads skipBet (bet_bytes b) tt.
Proof.
  unfold skipBet, bet_bytes, entry10.
  change (z2b ?t :: z2b ?v :: be_bytes 8 ?a) with ([z2b t] ++ [z2b v] ++ be_bytes 8 a).
  eapply reads_bind; [apply reads_any_u8|]. eapply reads_bind; [apply reads_any_u8|].
  eapply reads_bind_last; [apply reads_any_u64|]. apply reads_ret.
Qed.

Ltac skip_fields :=
  repeat first
    [ apply reads_ret
    | eapply reads_bind; [first [apply reads_any_u8 | apply reads_any_u64]|]; cbv beta
    | eapply reads_bind_last; [first [apply reads_any_u8 | apply reads_any_u64]|]; cbv beta ].

(** The skipper steps over exactly the bytes of every instruction the gateway
    encodes. *)
Lemma reads_skipInstruction i :
  instructionOk i = true -> instruction_range i -> reads skipInstruction (instructionBytes i) tt.
Proof.
  intros Hok Hr. unfold skipInstruction.
  destruct i; cbn [instructionOk instructionBytes instruction_range] in *; bprop;
    (eapply reads_bind; [apply reads_readU8|]; cbv beta;
     match goal with |- context [b2z ?t] =>
       let v := eval vm_compute in (b2z t) in change (b2z t) with v end; cbv iota).
  - apply reads_readStringU32Bytes. lia.
  - skip_fields.
  - skip_fields.
  - eapply reads_bind; [apply reads_any_u64|]. cbv beta. pose proof (len_nonneg payload).
    eapply reads_bind; [apply reads_readU32BE; lia|]. apply reads_skip.
  - skip_fields.
  - skip_fields.
  - unfold skipGlobalTableConfig. skip_fields.
  - skip_fields.
  - do 2 (eapply reads_bind; [first [apply reads_any_u8 | apply reads_any_u64]|]; cbv beta).
    eapply (reads_counted skipBet bet_bytes); [done|]. apply Forall_true. apply reads_skipBet.
  - skip_fields.
  - skip_fields.
  - skip_fields.
  - skip_fields.
Qed.

(** ** Only valid events *)

Definition all_valid (d : Decoded) : Prop :=
  Forall (fun e => validateEvent e = true) (casino d)
  /\ Forall (fun e => validateGlobalTableEvent e = true) (global d).

Lemma all_valid_none : all_valid no_events.
Proof. split; constructor. Qed.

Lemma all_valid_casino d e : all_valid d -> all_valid (if validateEvent e then push_casino d e else d).
Proof.
  intros [H1 H2]. split_if; [|done]. split; [|done]. apply Forall_app. split; [done|].
  by constructor.
Qed.

Lemma all_valid_global d e :
  all_valid d -> all_valid (if validateGlobalTableEvent e then push_global d e else d).
Proof.
  intros [H1 H2]. split_if; [|done]. split; [done|]. apply Forall_app. split; [done|].
  by constructor.
Qed.

Lemma decodeOutput_valid msg kind d r d' r' :
  all_valid d -> decodeOutput msg kind d r = Ok (d', r') -> all_valid d'.
Proof.
  intros Hd. unfold decodeOutput. repeat split_if; intros H; run_inv; try done.
  match type of H with context [match ?o with Some _ => _ | None => _ end] => destruct o as [e|] end;
    run_inv; [by apply all_valid_casino|].
  match type of H with context [match ?o with Some _ => _ | None => _ end] => destruct o as [e|] end;
    run_inv; [by apply all_valid_global|done].
Qed.

Lemma decodeOp_valid m1 m2 d r d' r' :
  all_valid d -> decodeOp m1 m2 d r = Ok (d', r') -> all_valid d'.
Proof.
  intros Hd. unfold decodeOp. intros H. run_inv. repeat (split_if; run_inv); try done;
    by eapply decodeOutput_valid.
Qed.

Lemma decodeOps_valid n op d r d' r' :
  (forall d r d' r', all_valid d -> op d r = Ok (d', r') -> all_valid d') ->
  all_valid d -> decodeOps n op d r = Ok (d', r') -> all_valid d'.
Proof.
  intros Hop. revert d r. induction n as [|n IH]; intros d r Hd H; cbn [decodeOps] in H; run_inv; [done|].
  eapply IH; [|exact H]. by eapply Hop.
Qed.

Lemma decodeEvents_valid data d : decodeEvents data = Ok d -> all_valid d.
Proof.
  unfold decodeEvents. split_if; [intros [= <-]; apply all_valid_none|].
  intros H. apply run_inv_ok in H as [r H]. run_inv.
  eapply decodeOps_valid; [|apply all_valid_none|exact H]. intros. by eapply decodeOp_valid.
Qed.

Lemma decodeFilteredEvents_valid data d : decodeFilteredEvents data = Ok d -> all_valid d.
Proof.
  unfold decodeFilteredEvents. split_if; [intros [= <-]; apply all_valid_none|].
  intros H. apply run_inv_ok in H as [r H]. run_inv.
  eapply decodeOps_valid; [|apply all_valid_none|exact H]. cbv beta. intros. run_inv. by eapply decodeOp_valid.
Qed.

Lemma catch_valid (m : result Decoded) : (forall d, m = Ok d -> all_valid d) -> all_valid (catch m no_events).
Proof. intros H. destruct m; cbn; [by apply H|]. apply all_valid_none. Qed.

Lemma scan_back_valid data n : Forall (fun e => validateEvent e = true) (scan_back data n).
Proof.
  induction n as [|n IH]; cbn [scan_back]; [constructor|].
  destruct (fallback_at data (Z.of_nat n)) as [e|] eqn:E; [|done]. constructor; [|constructor].
  unfold fallback_at in E. repeat case_match; simplify_eq; done.
Qed.

(** ** Sample messages *)

Definition sample_key : Uint8Array := replicate 32 x07.
Definition sample_balances : PlayerBalanceSnapshot := {| chips := 900; vusdt := 5; rng := 6 |}.

Definition sample_header : Header := {|
  h_view := 1; h_height := 2; h_blockDigest := zeros 32; h_stateRoot := zeros 32;
  h_stateStart := 3; h_stateEnd := 4; h_eventsRoot := zeros 32; h_eventsStart := 5; h_eventsEnd := 6;
  h_certIndex := 300; h_certDigest := zeros 32; h_certSignature := zeros 48;
  h_proofSize := 7; h_proofDigests := [zeros 32; zeros 32]
|}.

Lemma sample_header_ok : header_ok sample_header.
Proof.
  unfold header_ok, u64, u32, key_ok. cbn -[len]. repeat split; try lia; try reflexivity.
  repeat constructor.
Qed.

Definition sample_moved : CasinoGameEvent :=
  Ev_moved 9 1 (zeros 3) ["log"; "entry"] sample_balances.
Definition sample_locked : GlobalTableEvent := Gt_locked 3 12 1000.

Definition sample_update : Update := {|
  u_header := sample_header;
  u_ops := [(4, Op_append true (Out_casino sample_moved));
            (5, Op_commit false None);
            (6, Op_append false (Out_other (Oe_phase_changed 1 2)));
            (7, Op_append false (Out_table sample_locked));
            (8, Op_append false (Out_table (Gt_finalized 4 12)))]
|}.

Lemma sample_update_ok : update_ok sample_update.
Proof.
  split; [apply sample_header_ok|]. split; [reflexivity|].
  repeat constructor; try (cbn; lia); try (by vm_compute).
  all: refine (bool_decide_unpack _ _); vm_compute; exact I.
Qed.

(** A completed game that never took place: the player wins a million. *)
Definition forged : CasinoGameEvent :=
  Ev_completed 9 sample_key 1 1000000 1000900 false false [] sample_balances.

(** A move whose payload spells an event of the update format, inside an update
    that carries only the transaction of this move. *)
Definition forged_payload : Uint8Array := op_bytes (Op_append false (Out_casino forged)).

Definition injected_update : Update := {|
  u_header := sample_header;
  u_ops := [(4, Op_append false (Out_transaction 1 (instructionBytes (I_GameMove 9 forged_payload))
                  sample_key (zeros 64)))]
|}.

Lemma injected_update_ok : update_ok injected_update.
Proof.
  split; [apply sample_header_ok|]. split; [reflexivity|].
  constructor; [|constructor]. split; [by vm_compute|].
  split; [by vm_compute|]. split; [|done]. by apply reads_skipInstruction.
Qed.

(** The part of a lookup answer in front of its context byte. *)
Definition lookup_prefix (h : Header) (loc : Z) : Uint8Array := header_bytes h ++ be_bytes 8 loc.

Lemma reads_lookup {A} h loc (k : R A) bs a :
  header_ok h -> u64 loc -> reads k bs a ->
  reads (_ ← skipProgress; _ ← skipCertificate; _ ← skipProof; _ ← readU64BE; k)
    (lookup_prefix h loc ++ bs) a.
Proof.
  intros Hh Hl H. unfold lookup_prefix, header_bytes. rewrite <- !app_assoc.
  eapply reads_bind; [by apply reads_progress|]. eapply reads_bind; [by apply reads_certificate|].
  eapply reads_bind; [by apply reads_proof|]. eapply reads_bind; [by apply reads_readU64BE|]. exact H.
Qed.

Lemma lookup_nonempty h loc bs : (len (lookup_prefix h loc ++ bs) =? 0) = false.
Proof.
  apply Z.eqb_neq. unfold lookup_prefix, header_bytes, progress_bytes. autorewrite with js.
  repeat match goal with |- context [len ?l] => pose proof (len_nonneg l); generalize dependent (len l) end.
  lia.
Qed.

(** ** Theorems *)

(** C1. Decoding is exact: for every well-formed update, with any mixture of
    events, transactions and commits, both decoders return precisely the valid
    casino events and the valid global-table events, in message order; the
    global extraction returns the latter.  The casino extraction returns the
    former when there is one; when there is none it returns what its backward scan
    finds in the bytes, which need not be an event (see
    [fallback_trusts_payloads]). *)
Theorem decode_update u :
  update_ok u ->
  let spec := decoded_spec ((u_ops u).*2) in
  let casinoOf data := match casino spec with [] => scan_fallback data | events => events end in
  decodeFilteredEvents (filtered_message u) = Ok spec
  /\ decodeEvents (events_message u) = Ok spec
  /\ extractGlobalTableEvents (filtered_message u) = global spec
  /\ extractGlobalTableEvents (events_message u) = global spec
  /\ extractCasinoEvents (filtered_message u) = casinoOf (filtered_message u)
  /\ extractCasinoEvents (events_message u) = casinoOf (events_message u).
Proof.
  intros Hu spec casinoOf. pose proof (decode_filtered u Hu) as Hf. pose proof (decode_events u Hu) as He.
  fold spec in Hf, He. split; [done|]. split; [done|].
  unfold extractGlobalTableEvents, extractCasinoEvents, decoded_global, decoded_casino.
  rewrite Hf, He. unfold filtered_message, events_message, casinoOf. cbn [app].
  rewrite !nonempty_len, !first_byte_cons.
  change (b2z x02) with 2. change (b2z x01) with 1. cbn [Z.eqb Pos.eqb catch].
  split; [done|]. split; [done|]. destruct (casino spec) as [|e l]; [done|].
  pose proof (len_nonneg l). rewrite len_cons. zcmp. done.
Qed.

Lemma decode_update_witness :
  decodeFilteredEvents (filtered_message sample_update)
  = Ok {| casino := [sample_moved]; global := [sample_locked] |}.
Proof. exact (proj1 (decode_update sample_update sample_update_ok)). Defined.

(** Whatever bytes arrive, the gateway only ever passes on valid events:
    every casino event it extracts (by decoding or by scanning) and every
    global-table event satisfies its validity check. *)
Theorem extracted_events_valid data :
  all_valid {| casino := extractCasinoEvents data; global := extractGlobalTableEvents data |}.
Proof.
  pose proof (catch_valid _ (decodeEvents_valid data)) as [He1 He2].
  pose proof (catch_valid _ (decodeFilteredEvents_valid data)) as [Hf1 Hf2].
  unfold extractCasinoEvents, extractGlobalTableEvents, decoded_casino, decoded_global.
  split; repeat split_if; try constructor; try done; apply scan_back_valid.
Qed.

(** Every transaction the gateway can build (any of its thirteen
    instructions, with any arguments the encoder accepts) is skipped exactly by
    the update decoder: the reader stops right behind its signature. *)
Theorem gateway_transactions_skipped `{CryptoLaws} i nonce sk bs tx :
  instruction_range i -> u64 nonce ->
  encodeInstruction i = Ok bs -> buildTransaction nonce bs sk = Ok tx ->
  reads skipTransaction tx tt.
Proof.
  intros Hr Hn Hb Htx.
  assert (Hl := encodeInstruction_layout i).
  destruct (instructionOk i) eqn:Ei.
  2:{ rewrite Hb in Hl. cbn in Hl. discriminate Hl. intros g r bets ->. cbn in Hr. lia. }
  rewrite Hb in Hl. injection Hl as ->; [|intros g r bets ->; cbn in Hr; lia].
  destruct (getPublicKey sk) as [pk|] eqn:Ek.
  2:{ unfold buildTransaction in Htx. rewrite Ek in Htx. done. }
  destruct (sign_total (signed_bytes nonce (instructionBytes i)) sk pk Ek) as [s Es].
  rewrite (buildTransaction_layout _ _ _ _ _ Ek Es) in Htx. injection Htx as <-.
  apply reads_transaction; [done|by apply reads_skipInstruction| |].
  - by eapply getPublicKey_length.
  - by eapply sign_length.
Qed.

Lemma gateway_transactions_skipped_witness :
  exists tx, @buildTransaction toy_crypto 3 (instructionBytes (I_StartGame 1 50 77)) (zeros 32) = Ok tx
    /\ reads skipTransaction tx tt.
Proof.
  eexists. split; [reflexivity|].
  apply (@gateway_transactions_skipped toy_crypto toy_crypto_laws (I_StartGame 1 50 77) 3 (zeros 32)
    (instructionBytes (I_StartGame 1 50 77))).
  - exact I.
  - by vm_compute.
  - reflexivity.
  - reflexivity.
Defined.

(** The state lookup of a global-table round: an answer that holds the
    round under its key is decoded to that round when the round is valid and to
    nothing otherwise; any other operation context or value tag gives nothing. *)
Theorem round_lookup h loc ctx key vtag r rest :
  header_ok h -> u64 loc -> u8 ctx -> key_ok key -> u8 vtag -> round_ok r ->
  decodeGlobalTableRoundLookup
    (lookup_prefix h loc ++ [z2b ctx] ++ key ++ [z2b vtag] ++ round_bytes r ++ rest)
  = if (ctx =? STATE_OP_UPDATE_CONTEXT) && (vtag =? GLOBAL_TABLE_VALUE_TAG) && validateGlobalTableRound r
    then Some r else None.
Proof.
  intros Hh Hl Hc Hk Hv Hr. unfold decodeGlobalTableRoundLookup. rewrite lookup_nonempty.
  destruct (ctx =? STATE_OP_UPDATE_CONTEXT) eqn:Ec; cbn [andb].
  2:{ rewrite (app_assoc _ [z2b ctx]). erewrite reads_run_app; [reflexivity|].
      apply reads_lookup; [done|done|]. eapply reads_bind_last; [by apply reads_readU8_z|].
      cbv beta. rewrite Ec. apply reads_ret. }
  destruct (vtag =? GLOBAL_TABLE_VALUE_TAG) eqn:Ev; cbn [andb].
  2:{ replace (_ ++ [z2b ctx] ++ _) with
        ((lookup_prefix h loc ++ [z2b ctx] ++ key ++ [z2b vtag]) ++ round_bytes r ++ rest)
        by by rewrite <- !app_assoc.
      erewrite reads_run_app; [reflexivity|].
      apply reads_lookup; [done|done|]. eapply reads_bind; [by apply reads_readU8_z|].
      cbv beta. rewrite Ec. cbn [negb]. eapply reads_bind; [by apply reads_readBytes_n|].
      eapply reads_bind_last; [by apply reads_readU8_z|]. cbv beta. rewrite Ev. apply reads_ret. }
  replace (_ ++ [z2b ctx] ++ _) with
    ((lookup_prefix h loc ++ [z2b ctx] ++ key ++ [z2b vtag] ++ round_bytes r) ++ rest)
    by by rewrite <- !app_assoc.
  erewrite reads_run_app; [reflexivity|].
  apply reads_lookup; [done|done|]. eapply reads_bind; [by apply reads_readU8_z|].
  cbv beta. rewrite Ec. cbn [negb]. eapply reads_bind; [by apply reads_readBytes_n|].
  eapply reads_bind; [by apply reads_readU8_z|]. cbv beta. rewrite Ev. cbn [negb].
  eapply reads_bind_last; [by apply reads_round|]. apply reads_ret.
Qed.

Definition sample_round : GlobalTableRound := {|
  r_gameType := 3; r_roundId := 12; r_phase := 1; r_phaseEndsAtMs := 5000; r_mainPoint := 6;
  r_d1 := 2; r_d2 := 4; r_madePointsMask := 0; r_epochPointEstablished := true;
  r_fieldPaytable := 0; r_rngCommit := zeros 32; r_rollSeed := [];
  r_totals := [{| bet_betType := 0; bet_target := 0; bet_amount := 70 |}]
|}.

Lemma sample_round_ok : round_ok sample_round.
Proof.
  unfold round_ok, vec_ok, bets_ok, table_bet_ok. refine (bool_decide_unpack _ _).
  vm_compute. exact I.
Qed.

Lemma round_lookup_witness :
  decodeGlobalTableRoundLookup
    (lookup_prefix sample_header 9 ++ [z2b 0xD2] ++ zeros 32 ++ [z2b 30] ++ round_bytes sample_round ++ [])
  = Some sample_round.
Proof.
  rewrite (round_lookup sample_header 9 0xD2 (zeros 32) 30 sample_round []
    sample_header_ok ltac:(by vm_compute) ltac:(by vm_compute) ltac:(by vm_compute)
    ltac:(by vm_compute) sample_round_ok).
  reflexivity.
Defined.

(** The fallback scan trusts bytes that are not events: an update whose
    only operation is a transaction decodes to no event at all, yet when the
    payload of its move spells a completed game, which every player can write,
    the casino extraction returns that game as if the chain had reported it. *)
Theorem fallback_trusts_payloads :
  len forged_payload <= CASINO_MAX_PAYLOAD_LENGTH
  /\ update_ok injected_update
  /\ decodeFilteredEvents (filtered_message injected_update) = Ok no_events
  /\ extractCasinoEvents (filtered_message injected_update) = [forged].
Proof.
  split; [by vm_compute|]. split; [apply injected_update_ok|].
  split; [|vm_compute; reflexivity]. rewrite decode_filtered by apply injected_update_ok. reflexivity.
Qed.
