(* ===== verification/ChainCodec.v ===== *)
(** * The chain service of the website

    [website/src/services/CasinoChainService.serializers.js]: the instructions
    the website serializes and the events it deserializes, beside the format the
    chain writes ([types/src/execution.rs], [types/src/casino/player.rs]).  The
    website reads the chain's balance snapshot; the gateway reads a shorter one,
    and the last part states what it makes of the chain's events. *)

From S2P Require Import Prelude JsNum Bytes Reader Constants Batch BinaryReader Transactions Instructions Events EventsWire EventsCorrect.

(** ** Instructions *)

Definition serializeCasinoRegister (name : string) : result Uint8Array :=
  let nameBytes := TextEncoder_encode name in
  let buf := zeros (1 + 4 + len nameBytes) in
  let buf := set_elem buf 0 10 in
  buf ← setUint32BE buf 1 (len nameBytes);
  set_bytes buf 5 nameBytes.

Definition serializeCasinoDeposit (amount : Z) : result Uint8Array :=
  let buf := zeros (1 + 8) in
  let buf := set_elem buf 0 11 in
  setBigUint64BE buf 1 amount.

Definition serializeCasinoStartGame (gameType bet sessionId : Z) : result Uint8Array :=
  let buf := zeros (1 + 1 + 8 + 8) in
  let buf := set_elem buf 0 12 in
  let buf := set_elem buf 1 gameType in
  buf ← setBigUint64BE buf 2 bet;
  setBigUint64BE buf 10 sessionId.

Definition serializeCasinoGameMove (sessionId : Z) (payload : Uint8Array) : result Uint8Array :=
  let buf := zeros (1 + 8 + 4 + len payload) in
  let buf := set_elem buf 0 13 in
  buf ← setBigUint64BE buf 1 sessionId;
  buf ← setUint32BE buf 9 (len payload);
  set_bytes buf 13 payload.

Definition serializeCasinoPlayerAction (action : Z) : Uint8Array := u8array [14; action].
Definition serializeCasinoToggleShield : Uint8Array := serializeCasinoPlayerAction 0.
Definition serializeCasinoToggleDouble : Uint8Array := serializeCasinoPlayerAction 1.
Definition serializeCasinoToggleSuper : Uint8Array := serializeCasinoPlayerAction 2.

Definition serializeCasinoJoinTournament (tournamentId : Z) : result Uint8Array :=
  let buf := zeros (1 + 8) in
  let buf := set_elem buf 0 16 in
  setBigUint64BE buf 1 tournamentId.

(** ** Reading *)

(** [view.getX(offset, false); offset += n]: the view checks its bounds. *)
Definition view {A} (n : Z) (get : Uint8Array -> Z -> result A) : R A := fun r =>
  match get (rd_data r) (rd_offset r) with
  | Ok v => Ok (v, Reader (rd_data r) (rd_offset r + n))
  | Throw e => Throw e
  end.

Definition viewU32 : R Z := view 4 getUint32BE.
Definition viewU64 : R Z := view 8 getBigUint64BE.
Definition viewI64 : R Z := view 8 getBigInt64BE.

(** [data[offset++]], possibly [undefined]. *)
Definition nextElem : R Z := fun r =>
  Ok (default undefined (elem (rd_data r) (rd_offset r)), Reader (rd_data r) (rd_offset r + 1)).

(** [data.slice(offset, offset + n); offset += n]: shorter at the end of the
    array, without an exception. *)
Definition sliceBytes (n : Z) : R Uint8Array := fun r =>
  Ok (slice (rd_data r) (rd_offset r) (rd_offset r + n), Reader (rd_data r) (rd_offset r + n)).

(** [while (bytesRead < 9)]; [fuel] is [9 - bytesRead]. *)
Fixpoint webVarint_loop (fuel : nat) (data : Uint8Array) (offset value shift bytesRead : Z)
    : result (Z * Z) :=
  match fuel with
  | O => Throw "Varint too long"
  | S fuel' =>
      if len data <=? offset + bytesRead then Throw "Varint extends beyond buffer"
      else
        let byte := default 0 (elem data (offset + bytesRead)) in
        let bytesRead := bytesRead + 1 in
        let value := js_or value (js_shl (js_and byte 0x7f) shift) in
        if js_and byte 0x80 =? 0 then Ok (value, bytesRead)
        else webVarint_loop fuel' data offset value (shift + 7) bytesRead
  end.

Definition webReadVarint (data : Uint8Array) (offset : Z) : result (Z * Z) :=
  webVarint_loop 9 data offset 0 0 0.

(** [const { value, bytesRead } = readVarint(data, offset); offset += bytesRead]. *)
Definition readLength : R Z := fun r =>
  match webReadVarint (rd_data r) (rd_offset r) with
  | Ok (value, bytesRead) => Ok (value, Reader (rd_data r) (rd_offset r + bytesRead))
  | Throw e => Throw e
  end.

Definition readLog : R string :=
  logLen ← viewU32; logBytes ← sliceBytes logLen; mret (TextDecoder_decode logBytes).

(** [if (offset < data.length) { ... }] around the logs. *)
Definition readLogs : R (list string) :=
  left ← remaining;
  if 0 <? left then logsCount ← viewU32; read_count logsCount readLog else mret [].

Record PlayerBalances := {
  pb_chips : Z;
  pb_vusdtBalance : Z;
  pb_shields : Z;
  pb_doubles : Z;
  pb_tournamentChips : Z;
  pb_tournamentShields : Z;
  pb_tournamentDoubles : Z;
  pb_activeTournament : option Z
}.

#[export] Instance PlayerBalances_eq_dec : EqDecision PlayerBalances.
Proof. solve_decision. Defined.

Definition readPlayerBalances : R (option PlayerBalances) :=
  left ← remaining;
  if left <? 8 + 8 + 4 + 4 + 8 + 4 + 4 + 1 then mret None
  else
    chips ← viewU64;
    vusdtBalance ← viewU64;
    shields ← viewU32;
    doubles ← viewU32;
    tournamentChips ← viewU64;
    tournamentShields ← viewU32;
    tournamentDoubles ← viewU32;
    flag ← nextElem;
    activeTournament ←
      (if flag =? 1 then
         left ← remaining;
         if left <? 8 then throw "Player balances truncated at active tournament"
         else t ← viewU64; mret (Some t)
       else mret None);
    mret (Some {| pb_chips := chips; pb_vusdtBalance := vusdtBalance; pb_shields := shields;
                  pb_doubles := doubles; pb_tournamentChips := tournamentChips;
                  pb_tournamentShields := tournamentShields;
                  pb_tournamentDoubles := tournamentDoubles;
                  pb_activeTournament := activeTournament |}).

(** [if (offset < data.length) { ... }] around the balances. *)
Definition readBalancesIfAny : R (option PlayerBalances) :=
  left ← remaining; if 0 <? left then readPlayerBalances else mret None.

(** ** Events *)

Record CasinoGameStartedEvent := {
  se_sessionId : Z; se_player : Uint8Array; se_gameType : Z; se_bet : Z;
  se_initialState : Uint8Array
}.

Record CasinoGameMovedEvent := {
  me_sessionId : Z; me_moveNumber : Z; me_newState : Uint8Array; me_logs : list string;
  me_playerBalances : option PlayerBalances
}.

Record CasinoGameCompletedEvent := {
  ce_sessionId : Z; ce_player : Uint8Array; ce_gameType : Z; ce_payout : Z; ce_finalChips : Z;
  ce_wasShielded : bool; ce_wasDoubled : bool; ce_logs : list string;
  ce_playerBalances : option PlayerBalances
}.

(** [const tag = data[offset++]; if (tag !== expected) throw]. *)
Definition expectTag (expected : Z) (msg : string) : R unit :=
  tag ← nextElem; if tag =? expected then mret tt else throw msg.

Definition startedReader : R CasinoGameStartedEvent :=
  _ ← expectTag 21 "Expected CasinoGameStarted tag 21";
  sessionId ← viewU64;
  player ← sliceBytes 32;
  gameType ← nextElem;
  bet ← viewU64;
  stateLen ← readLength;
  initialState ← sliceBytes stateLen;
  mret {| se_sessionId := sessionId; se_player := player; se_gameType := gameType; se_bet := bet;
          se_initialState := initialState |}.

Definition movedReader : R CasinoGameMovedEvent :=
  _ ← expectTag 22 "Expected CasinoGameMoved tag 22";
  sessionId ← viewU64;
  moveNumber ← viewU32;
  stateLen ← readLength;
  newState ← sliceBytes stateLen;
  logs ← readLogs;
  playerBalances ← readBalancesIfAny;
  mret {| me_sessionId := sessionId; me_moveNumber := moveNumber; me_newState := newState;
          me_logs := logs; me_playerBalances := playerBalances |}.

Definition completedReader : R CasinoGameCompletedEvent :=
  _ ← expectTag 23 "Expected CasinoGameCompleted tag 23";
  sessionId ← viewU64;
  player ← sliceBytes 32;
  gameType ← nextElem;
  payout ← viewI64;
  finalChips ← viewU64;
  wasShielded ← nextElem;
  wasDoubled ← nextElem;
  logs ← readLogs;
  playerBalances ← readBalancesIfAny;
  mret {| ce_sessionId := sessionId; ce_player := player; ce_gameType := gameType;
          ce_payout := payout; ce_finalChips := finalChips; ce_wasShielded := wasShielded =? 1;
          ce_wasDoubled := wasDoubled =? 1; ce_logs := logs; ce_playerBalances := playerBalances |}.

Definition deserializeCasinoGameStarted (data : Uint8Array) : result CasinoGameStartedEvent :=
  run startedReader data.
Definition deserializeCasinoGameMoved (data : Uint8Array) : result CasinoGameMovedEvent :=
  run movedReader data.
Definition deserializeCasinoGameCompleted (data : Uint8Array) : result CasinoGameCompletedEvent :=
  run completedReader data.

(** ** What the chain writes *)

(** [impl Write for PlayerBalanceSnapshot]. *)
Definition chain_balances (b : PlayerBalances) : Uint8Array :=
  be_bytes 8 (pb_chips b) ++ be_bytes 8 (pb_vusdtBalance b) ++ be_bytes 4 (pb_shields b)
  ++ be_bytes 4 (pb_doubles b) ++ be_bytes 8 (pb_tournamentChips b)
  ++ be_bytes 4 (pb_tournamentShields b) ++ be_bytes 4 (pb_tournamentDoubles b)
  ++ option_u64 (pb_activeTournament b).

(** [Self::CasinoGameStarted], [CasinoGameMoved] and [CasinoGameCompleted] of
    [impl Write for Event]. *)
Definition chain_started (e : CasinoGameStartedEvent) : Uint8Array :=
  [x15] ++ be_bytes 8 (se_sessionId e) ++ se_player e ++ [z2b (se_gameType e)]
  ++ be_bytes 8 (se_bet e) ++ vec (se_initialState e).

Definition chain_moved (e : CasinoGameMovedEvent) (b : PlayerBalances) : Uint8Array :=
  [x16] ++ be_bytes 8 (me_sessionId e) ++ be_bytes 4 (me_moveNumber e) ++ vec (me_newState e)
  ++ strings_u32 (me_logs e) ++ chain_balances b.

Definition chain_completed (e : CasinoGameCompletedEvent) (b : PlayerBalances) : Uint8Array :=
  [x17] ++ be_bytes 8 (ce_sessionId e) ++ ce_player e ++ [z2b (ce_gameType e)]
  ++ be_bytes 8 (ce_payout e) ++ be_bytes 8 (ce_finalChips e) ++ [bool_byte (ce_wasShielded e)]
  ++ [bool_byte (ce_wasDoubled e)] ++ strings_u32 (ce_logs e) ++ chain_balances b.

(** ** The instructions agree with the gateway's *)

(** What the website serializes, named by the gateway's instructions; its
    player actions are the codes 0, 1 and 2. *)
Definition webSerialize (i : Instruction) : option (result Uint8Array) :=
  match i with
  | I_Register name => Some (serializeCasinoRegister name)
  | I_Deposit amount => Some (serializeCasinoDeposit amount)
  | I_StartGame gameType bet sessionId => Some (serializeCasinoStartGame gameType bet sessionId)
  | I_GameMove sessionId payload => Some (serializeCasinoGameMove sessionId payload)
  | I_JoinTournament tournamentId => Some (serializeCasinoJoinTournament tournamentId)
  | _ => None
  end.

(** The website and the gateway serialize every instruction they share to
    the same bytes, whenever the gateway accepts it; the gateway refuses names
    and payloads over its limits, for which the website still produces an
    instruction.  The player actions do not agree: the website sends the codes 0
    to 2 of the chain, the gateway 10 to 12 for the same toggles. *)
Theorem web_instructions_agree i m :
  webSerialize i = Some m ->
  (instructionOk i = true -> encodeInstruction i = m)
  /\ (instructionOk i = false -> is_ok (encodeInstruction i) = false)
  /\ map (fun a => encodeInstruction (I_PlayerAction a)) [PA_ToggleShield; PA_ToggleDouble; PA_ActivateSuper]
     = map (fun c => Ok (serializeCasinoPlayerAction c)) [10; 11; 12].
Proof.
  intros H. split; [|split; [|reflexivity]].
  - destruct i; inversion_clear H; intros E; try reflexivity;
      cbn [instructionOk encodeInstruction] in *; bprop.
    + unfold encodeCasinoRegister, throw_if. change CASINO_MAX_NAME_LENGTH with 32.
      unfold TextEncoder_encode. zcmp. reflexivity.
    + unfold encodeCasinoGameMove, throw_if. change CASINO_MAX_PAYLOAD_LENGTH with 256. zcmp. reflexivity.
  - destruct i; inversion_clear H; intros E; try discriminate;
      cbn [instructionOk encodeInstruction] in *; bprop.
    + unfold encodeCasinoRegister, throw_if. change CASINO_MAX_NAME_LENGTH with 32.
      unfold TextEncoder_encode. zcmp. reflexivity.
    + unfold encodeCasinoGameMove, throw_if. change CASINO_MAX_PAYLOAD_LENGTH with 256. zcmp. reflexivity.
Qed.

Lemma web_instructions_agree_witness :
  encodeInstruction (I_StartGame 3 100 7) = serializeCasinoStartGame 3 100 7.
Proof.
  exact (proj1 (web_instructions_agree (I_StartGame 3 100 7) _ eq_refl) eq_refl).
Defined.

(** ** The events read back *)

Lemma reads_remaining {A} (k : Z -> R A) bs a :
  (forall n, len bs <= n -> reads (k n) bs a) -> reads (n ← remaining; k n) bs a.
Proof.
  intros H pre post. unfold remaining. unfold mbind at 1, R_bind at 1. cbn [rd_data rd_offset].
  apply H. rewrite !len_app. pose proof (len_nonneg post). lia.
Qed.

Lemma reads_get {A} n (get : Uint8Array -> Z -> result A) bs v :
  len bs = n -> (forall pre post, get (pre ++ bs ++ post) (len pre) = Ok v) ->
  reads (view n get) bs v.
Proof. intros Hn Hg pre post. unfold view. cbn [rd_data rd_offset]. by rewrite Hg, Hn. Qed.

Lemma reads_viewU32 v : u32 v -> reads viewU32 (be_bytes 4 v) v.
Proof.
  intros H. apply reads_get; [apply len_be_bytes|]. intros pre post. unfold getUint32BE.
  rewrite view_bytes_mid by apply length_be_bytes. cbn [fmap result_fmap]. by rewrite be_value_u32.
Qed.

Lemma reads_viewU64 v : u64 v -> reads viewU64 (be_bytes 8 v) v.
Proof.
  intros H. apply reads_get; [apply len_be_bytes|]. intros pre post. unfold getBigUint64BE.
  rewrite view_bytes_mid by apply length_be_bytes. cbn [fmap result_fmap]. by rewrite be_value_u64.
Qed.

Lemma reads_viewI64 v : i64 v -> reads viewI64 (be_bytes 8 v) v.
Proof.
  intros H. apply reads_get; [apply len_be_bytes|]. intros pre post.
  unfold getBigInt64BE, getBigUint64BE. rewrite view_bytes_mid by apply length_be_bytes. cbn [fmap result_fmap].
  rewrite be_value_be_bytes. f_equal. by apply as_signed_u64.
Qed.

Lemma reads_nextElem b : reads nextElem [b] (b2z b).
Proof. intros pre post. unfold nextElem. cbn [rd_data rd_offset app]. by rewrite elem_mid. Qed.

Lemma reads_nextElem_z v : u8 v -> reads nextElem [z2b v] v.
Proof. intros H. rewrite <- (b2z_z2b_small v H) at 2. apply reads_nextElem. Qed.

Lemma reads_sliceBytes n bs : len bs = n -> reads (sliceBytes n) bs bs.
Proof. intros <- pre post. unfold sliceBytes. cbn [rd_data rd_offset]. by rewrite slice_mid. Qed.

(** Wherever the gateway's varint loop succeeds, the website's does the same. *)
Lemma webVarint_gateway fuel fuel' data off value shift n v r :
  (fuel <= fuel')%nat ->
  readVarint_loop fuel value shift (Reader data (off + n)) = Ok (v, r) ->
  rd_data r = data
  /\ webVarint_loop fuel' data off value shift n = Ok (v, rd_offset r - off).
Proof.
  revert fuel' value shift n. induction fuel as [|fuel IH]; intros fuel' value shift n Hf; [done|].
  destruct fuel' as [|fuel']; [lia|]. cbn [readVarint_loop webVarint_loop rd_data rd_offset].
  destruct (_ <=? _); [done|]. cbv zeta. destruct (_ =? 0).
  - intros [=<- <-]. cbn [rd_data rd_offset]. split; [done|]. do 2 f_equal. lia.
  - destruct (35 <? _); [done|]. intros H. apply (IH fuel'); [lia|].
    by replace (off + (n + 1)) with (off + n + 1) by lia.
Qed.

Lemma reads_readLength v : 0 <= v < 2 ^ 31 -> reads readLength (varint v) v.
Proof.
  intros H pre post. pose proof (reads_readVarint_small v H pre post) as E.
  unfold readVarint in E. replace (len pre) with (len pre + 0) in E at 1 by lia.
  apply (webVarint_gateway 6 9) in E as [_ E]; [|lia].
  unfold readLength, webReadVarint. cbn [rd_data rd_offset] in *. rewrite E.
  do 3 f_equal. lia.
Qed.

Lemma reads_readLog s : text_ok s -> reads readLog (string_u32 s) s.
Proof.
  intros [Hl Ha]. unfold readLog, string_u32. pose proof (len_nonneg (bytes_of_string s)).
  eapply reads_bind; [apply reads_viewU32; unfold u32; lia|]. cbv beta.
  eapply reads_bind_last; [by apply reads_sliceBytes|]. cbv beta.
  rewrite (TextDecoder_ascii s Ha : TextDecoder_decode (bytes_of_string s) = s). apply reads_ret.
Qed.

Lemma reads_readLogs l : logs_ok l -> reads readLogs (strings_u32 l) l.
Proof.
  intros [Hl Hok]. apply reads_remaining. intros n. unfold strings_u32.
  rewrite len_app, len_be_bytes. pose proof (len_nonneg (concat (string_u32 <$> l))). intros Hn.
  zcmp. pose proof (len_nonneg l).
  eapply reads_bind; [apply reads_viewU32; unfold u32; lia|]. cbv beta.
  apply reads_count. eapply Forall_impl; [exact Hok|]. apply reads_readLog.
Qed.

Definition player_balances_ok (b : PlayerBalances) : Prop :=
  u64 (pb_chips b) /\ u64 (pb_vusdtBalance b) /\ u32 (pb_shields b) /\ u32 (pb_doubles b)
  /\ u64 (pb_tournamentChips b) /\ u32 (pb_tournamentShields b) /\ u32 (pb_tournamentDoubles b)
  /\ (forall t, pb_activeTournament b = Some t -> u64 t).

#[export] Hint Resolve reads_viewU32 reads_viewU64 reads_viewI64 reads_nextElem_z reads_readLength
  reads_readLogs reads_sliceBytes : js.

Lemma len_chain_balances b :
  len (chain_balances b) = 41 + (match pb_activeTournament b with Some _ => 8 | None => 0 end).
Proof.
  unfold chain_balances, option_u64. rewrite !len_app, !len_be_bytes.
  destruct (pb_activeTournament b); rewrite ?len_cons, ?len_nil, ?len_be_bytes; lia.
Qed.

Lemma reads_balancesIfAny b :
  player_balances_ok b -> reads readBalancesIfAny (chain_balances b) (Some b).
Proof.
  intros (H1 & H2 & H3 & H4 & H5 & H6 & H7 & H8).
  assert (Hl : 41 <= len (chain_balances b)) by (rewrite len_chain_balances; destruct (pb_activeTournament b); lia).
  apply reads_remaining. intros n Hn. zcmp. apply reads_remaining. intros m Hm.
  rewrite (proj2 (Z.ltb_ge _ _)) by lia. unfold chain_balances.
  do 7 (eapply reads_bind; [by eauto with js|]; cbv beta).
  destruct b as [c v s d tc ts td [t|]]; cbn [option_u64 pb_activeTournament] in *.
  - change (x01 :: be_bytes 8 t) with ([x01] ++ be_bytes 8 t).
    eapply reads_bind; [apply reads_nextElem|]. cbv beta. change (b2z x01 =? 1) with true. cbv iota.
    eapply reads_bind_last; [|apply reads_ret]. apply reads_remaining. intros k Hk.
    rewrite len_be_bytes in Hk. rewrite (proj2 (Z.ltb_ge _ _)) by lia.
    eapply reads_bind_last; [apply reads_viewU64; eauto|]. apply reads_ret.
  - change [x00] with ([x00] ++ []).
    eapply reads_bind; [apply reads_nextElem|]. cbv beta. change (b2z x00 =? 1) with false. cbv iota.
    eapply reads_bind_pure; apply reads_ret.
Qed.

Definition player_ok (k : Uint8Array) : Prop := len k = 32.

Lemma reads_expectTag t msg b : b2z b = t -> reads (expectTag t msg) [b] tt.
Proof.
  intros <-. eapply reads_bind_last; [apply reads_nextElem|]. cbv beta. rewrite Z.eqb_refl. apply reads_ret.
Qed.

Lemma reads_flag b : reads nextElem [bool_byte b] (if b then 1 else 0).
Proof. destruct b; apply reads_nextElem. Qed.

#[export] Hint Resolve reads_balancesIfAny reads_flag : js.

Definition state_ok (st : Uint8Array) : Prop := len st < 2 ^ 31.

Definition started_ok (e : CasinoGameStartedEvent) : Prop :=
  u64 (se_sessionId e) /\ player_ok (se_player e) /\ u8 (se_gameType e) /\ u64 (se_bet e)
  /\ state_ok (se_initialState e).

Definition moved_ok (e : CasinoGameMovedEvent) : Prop :=
  u64 (me_sessionId e) /\ u32 (me_moveNumber e) /\ state_ok (me_newState e) /\ logs_ok (me_logs e).

Definition completed_ok (e : CasinoGameCompletedEvent) : Prop :=
  u64 (ce_sessionId e) /\ player_ok (ce_player e) /\ u8 (ce_gameType e) /\ i64 (ce_payout e)
  /\ u64 (ce_finalChips e) /\ logs_ok (ce_logs e).

(** C27. The website reads the events of the chain: on the bytes the chain
    writes for a started, moved or completed event, its deserializers return
    that event, with the whole balance snapshot. *)
Theorem web_event_roundtrip s m c b :
  started_ok s -> moved_ok m -> completed_ok c -> player_balances_ok b ->
  me_playerBalances m = Some b -> ce_playerBalances c = Some b ->
  deserializeCasinoGameStarted (chain_started s) = Ok s
  /\ deserializeCasinoGameMoved (chain_moved m b) = Ok m
  /\ deserializeCasinoGameCompleted (chain_completed c b) = Ok c.
Proof.
  intros (S1 & S2 & S3 & S4 & S5) (M1 & M2 & M3 & M4) (C1 & C2 & C3 & C4 & C5 & C6) Hb Em Ec.
  unfold state_ok in *.
  split; [|split]; apply reads_run;
    (eapply reads_bind; [by apply reads_expectTag|]; cbv beta).
  - pose proof (len_nonneg (se_initialState s)). unfold vec.
    repeat (eapply reads_bind; [by eauto with js|]; cbv beta).
    eapply reads_bind_last; [by eauto with js|]; cbv beta. destruct s. apply reads_ret.
  - pose proof (len_nonneg (me_newState m)). unfold vec. rewrite <- !app_assoc.
    repeat (eapply reads_bind; [by eauto with js|]; cbv beta).
    eapply reads_bind_last; [by eauto with js|]; cbv beta. destruct m; cbn in Em; subst. apply reads_ret.
  - repeat (eapply reads_bind; [by eauto with js|]; cbv beta).
    eapply reads_bind_last; [by eauto with js|]; cbv beta.
    destruct c as [? ? ? ? ? [] [] ? ?]; cbn in Ec; subst; apply reads_ret.
Qed.

Definition sample_snapshot : PlayerBalances := {|
  pb_chips := 900; pb_vusdtBalance := 5; pb_shields := 3; pb_doubles := 2; pb_tournamentChips := 0;
  pb_tournamentShields := 0; pb_tournamentDoubles := 0; pb_activeTournament := None |}.

Definition sample_web_moved : CasinoGameMovedEvent := {|
  me_sessionId := 9; me_moveNumber := 1; me_newState := zeros 3; me_logs := ["log"; "entry"];
  me_playerBalances := Some sample_snapshot |}.

Lemma sample_snapshot_ok : player_balances_ok sample_snapshot.
Proof.
  unfold player_balances_ok.
  do 7 (split; [by vm_compute|]). intros t. cbn [sample_snapshot pb_activeTournament]. discriminate.
Qed.

Lemma web_event_roundtrip_witness :
  deserializeCasinoGameMoved (chain_moved sample_web_moved sample_snapshot) = Ok sample_web_moved.
Proof.
  refine (proj1 (proj2 (web_event_roundtrip
    {| se_sessionId := 9; se_player := sample_key; se_gameType := 3; se_bet := 10;
       se_initialState := zeros 3 |} sample_web_moved
    {| ce_sessionId := 9; ce_player := sample_key; ce_gameType := 3; ce_payout := -5;
       ce_finalChips := 900; ce_wasShielded := true; ce_wasDoubled := false; ce_logs := ["log"];
       ce_playerBalances := Some sample_snapshot |} sample_snapshot _ _ _ sample_snapshot_ok _ _)));
    try reflexivity; repeat split; try (by vm_compute);
    repeat (constructor; try (split; [by vm_compute|])); repeat constructor; by vm_compute.
Defined.

(** ** The gateway reads a shorter snapshot *)

(** What the gateway makes of the chain's snapshot, and what it leaves unread. *)
Definition gateway_view (b : PlayerBalances) : PlayerBalanceSnapshot := {|
  chips := pb_chips b; vusdt := pb_vusdtBalance b; rng := pb_shields b * 2 ^ 32 + pb_doubles b |}.

Definition unread (b : PlayerBalances) : Uint8Array :=
  be_bytes 8 (pb_tournamentChips b) ++ be_bytes 4 (pb_tournamentShields b)
  ++ be_bytes 4 (pb_tournamentDoubles b) ++ option_u64 (pb_activeTournament b).

Lemma be_bytes_8_4 a b :
  u32 a -> u32 b -> be_bytes 8 (a * 2 ^ 32 + b) = be_bytes 4 a ++ be_bytes 4 b.
Proof.
  intros Ha Hb. apply be_value_inj; [by rewrite length_app, !length_be_bytes|].
  rewrite be_value_be_bytes, be_value_app, !be_value_u32, len_be_bytes by done. unfold u32 in *.
  change (256 ^ Z.of_nat 4) with (2 ^ 32). apply Z.mod_small.
  change (2 ^ (8 * Z.of_nat 8)) with (2 ^ 64). lia.
Qed.

Lemma chain_balances_split b :
  player_balances_ok b -> chain_balances b = balances (gateway_view b) ++ unread b.
Proof.
  intros (_ & _ & Hs & Hd & _). unfold chain_balances, balances, gateway_view, unread.
  cbn [chips vusdt rng]. rewrite be_bytes_8_4 by done. by rewrite <- !app_assoc.
Qed.

Lemma gateway_view_ok b : player_balances_ok b -> balances_ok (gateway_view b).
Proof.
  intros (? & ? & Hs & Hd & _). unfold gateway_view, balances_ok, u64, u32 in *. cbn. lia.
Qed.

Definition moved_view (m : CasinoGameMovedEvent) (b : PlayerBalances) : CasinoGameEvent :=
  Ev_moved (me_sessionId m) (me_moveNumber m) (me_newState m) (me_logs m) (gateway_view b).

Lemma chain_moved_split m b :
  player_balances_ok b ->
  chain_moved m b = [z2b (casino_tag (moved_view m b))] ++ casino_body (moved_view m b) ++ unread b.
Proof.
  intros Hb. unfold chain_moved. rewrite chain_balances_split by done. cbn [casino_tag casino_body moved_view].
  change (z2b CASINO_GAME_MOVED) with x16. by rewrite <- !app_assoc.
Qed.

(** Bytes behind the last operation change nothing. *)
Lemma decode_events_app u post :
  update_ok u -> decodeEvents (events_message u ++ post) = Ok (decoded_spec ((u_ops u).*2)).
Proof.
  intros (Hh & Hl & Ho). unfold decodeEvents, events_message.
  cbn [app]. rewrite nonempty_len, first_byte_cons. change (negb (b2z x01 =? 1)) with false. cbn [orb].
  rewrite app_comm_cons. apply reads_run_app. apply (reads_message _ _ x01); [done|done|].
  eapply Forall_impl; [exact Ho|]. intros [loc op] [Hloc Hop] d. cbn [fst snd] in *. by apply reads_op.
Qed.

(** A player outside of tournaments. *)
Definition no_tournament (b : PlayerBalances) : Prop :=
  pb_tournamentChips b = 0 /\ pb_tournamentShields b = 0 /\ pb_tournamentDoubles b = 0
  /\ pb_activeTournament b = None.

Lemma unread_zeros b : no_tournament b -> unread b = zeros 17.
Proof. intros (E1 & E2 & E3 & E4). unfold unread. by rewrite E1, E2, E3, E4. Qed.

Definition gateway_moved_ok (m : CasinoGameMovedEvent) : Prop :=
  u64 (me_sessionId m) /\ u32 (me_moveNumber m) /\ vec_ok (me_newState m) /\ logs_ok (me_logs m).

(** C28. The gateway does not read the snapshot of the chain: of the 41 bytes it
    reads 24, so that the shields and doubles come out as the number [rng], and
    takes the zeros that are left for an empty commit.  In an update with two
    events the second one, whatever it is, is lost. *)
Theorem chain_event_hides_next h m b next :
  header_ok h -> gateway_moved_ok m -> player_balances_ok b -> no_tournament b ->
  decodeEvents ([x01] ++ header_bytes h ++ varint 2 ++ [x05; x00] ++ chain_moved m b ++ next)
  = Ok {| casino := if validateEvent (moved_view m b) then [moved_view m b] else []; global := [] |}.
Proof.
  intros Hh Hm Hb Hn.
  set (u := {| u_header := h; u_ops := [(0, Op_append true (Out_casino (moved_view m b)));
                                        (0, Op_commit false None)] |}).
  transitivity (decodeEvents (events_message u ++ (zeros 15 ++ next))).
  - f_equal. rewrite chain_moved_split, unread_zeros by done. unfold events_message.
    cbn [u u_header u_ops fmap list_fmap snd].
    cbn [concat op_bytes output_kind output_body]. rewrite <- !app_assoc. reflexivity.
  - rewrite decode_events_app.
    + unfold decoded_spec. cbn [u u_ops fmap list_fmap snd omap list_omap]. unfold op_casino, op_global.
      cbn [op_output]. by destruct (validateEvent _).
    + destruct Hm as (? & ? & ? & ?). pose proof (gateway_view_ok b Hb).
      split; [done|]. split; [done|]. constructor; [|constructor; [|constructor]]; (split; [done|]).
      * by split_and!.
      * exact I.
Qed.

Lemma chain_event_hides_next_witness :
  decodeEvents ([x01] ++ header_bytes sample_header ++ varint 2 ++ [x05; x00]
    ++ chain_moved sample_web_moved sample_snapshot ++ op_bytes (Op_append false (Out_table sample_locked)))
  = Ok {| casino := [moved_view sample_web_moved sample_snapshot]; global := [] |}.
Proof.
  rewrite (chain_event_hides_next sample_header sample_web_moved sample_snapshot
    (op_bytes (Op_append false (Out_table sample_locked))) sample_header_ok).
  - reflexivity.
  - split; [by vm_compute|]. split; [by vm_compute|]. split; [by vm_compute|].
    split; [by vm_compute|]. repeat constructor; by vm_compute.
  - exact sample_snapshot_ok.
  - by split_and!.
Defined.

(** [Self::GlobalTablePlayerSettled]. *)
Definition chain_player_settled (player : Uint8Array) (roundId payout : Z) (b : PlayerBalances)
    (myBets : list GlobalTableBet) : Uint8Array :=
  [z2b GLOBAL_TABLE_PLAYER_SETTLED] ++ player ++ be_bytes 8 roundId ++ be_bytes 8 payout
  ++ chain_balances b ++ table_bets myBets.

(** A settlement reaches the gateway without its bets: from what the chain
    writes for a player outside of tournaments the gateway's parser reads the
    payout, the chips, and an empty list of bets, whatever bets stay on the
    table. *)
Theorem settled_bets_lost player roundId payout b myBets pre post :
  key_ok player -> u64 roundId -> i64 payout -> player_balances_ok b -> no_tournament b ->
  exists offset,
    parseGlobalTableEvent (Reader (pre ++ chain_player_settled player roundId payout b myBets ++ post) (len pre))
    = Ok (Some (Gt_player_settled player roundId payout (gateway_view b) []),
          Reader (pre ++ chain_player_settled player roundId payout b myBets ++ post) offset).
Proof.
  intros Hp Hr Hpay Hb Hn. unfold chain_player_settled.
  rewrite chain_balances_split, (unread_zeros b Hn) by done.
  set (e := Gt_player_settled player roundId payout (gateway_view b) []).
  assert (Hok : reads parseGlobalTableEvent ([z2b (table_tag e)] ++ table_body e) (Some e)).
  { eapply reads_bind; [apply reads_readU8_z, u8_of_table_tag|]. apply reads_table.
    pose proof (gateway_view_ok b Hb). by split_and!. }
  specialize (Hok pre (zeros 16 ++ table_bets myBets ++ post)).
  eexists. refine (eq_trans _ (eq_trans Hok _)).
  - do 2 f_equal. cbn [e table_tag table_body table_bets]. rewrite <- !app_assoc. reflexivity.
  - do 2 f_equal. cbn [e table_tag table_body table_bets]. rewrite <- !app_assoc. reflexivity.
Qed.

Lemma settled_bets_lost_witness :
  exists r, parseGlobalTableEvent (Reader (chain_player_settled sample_key 12 (-5) sample_snapshot
      [{| bet_betType := 0; bet_target := 0; bet_amount := 10 |}]) 0)
    = Ok (Some (Gt_player_settled sample_key 12 (-5) {| chips := 900; vusdt := 5; rng := 12884901890 |} []), r).
Proof.
  destruct (settled_bets_lost sample_key 12 (-5) sample_snapshot
    [{| bet_betType := 0; bet_target := 0; bet_amount := 10 |}] [] []) as [o H].
  - reflexivity.
  - by vm_compute.
  - by vm_compute.
  - exact sample_snapshot_ok.
  - by split_and!.
  - rewrite app_nil_r in H. cbn [app] in H. change (len []) with 0 in H. eexists. exact H.
Defined.
