(* ===== verification/Limiter.v ===== *)
(** * Connection limits

    [gateway/src/session/limiter.ts]: [ConnectionLimiter], and the way
    [gateway/src/index.ts] drives it: a connection is registered when
    [canConnect] allows it and unregistered when it closes. *)

From S2P Require Import Prelude.

Record ConnectionLimiterConfig := { maxConnectionsPerIp : Z; maxTotalSessions : Z }.

(** [config.maxConnectionsPerIp ?? 5] and [config.maxTotalSessions ?? 1000]. *)
Definition limiter_config (perIp total : option Z) : ConnectionLimiterConfig :=
  {| maxConnectionsPerIp := default 5 perIp; maxTotalSessions := default 1000 total |}.

Record ConnectionLimiter := {
  connectionsByIp : gmap string (gset string);
  totalConnections : Z
}.

Definition limiter_init : ConnectionLimiter := {| connectionsByIp := ∅; totalConnections := 0 |}.

Inductive LimitCode := SESSION_CAP_REACHED | IP_LIMIT_EXCEEDED.

(** [{ allowed: true }], or the code of the refusal. *)
Definition LimitCheckResult := option LimitCode.

Fixpoint string_drop (n : nat) (s : string) : string :=
  match n, s with
  | S n', String _ s' => string_drop n' s'
  | _, _ => s
  end.

Definition normalizeIp (ip : string) : string :=
  if bool_decide (ip = EmptyString) then "unknown"
  else if String.prefix "::ffff:" ip then string_drop 7 ip
  else ip.

Definition set_size (s : gset string) : Z := Z.of_nat (size s).

Definition getConnectionsForIp (l : ConnectionLimiter) (ip : string) : Z :=
  default 0 (set_size <$> connectionsByIp l !! normalizeIp ip).

Definition canConnect (c : ConnectionLimiterConfig) (l : ConnectionLimiter) (ip : string)
    : LimitCheckResult :=
  if maxTotalSessions c <=? totalConnections l then Some SESSION_CAP_REACHED
  else
    let normalizedIp := normalizeIp ip in
    let currentCount := default 0 (set_size <$> connectionsByIp l !! normalizedIp) in
    if maxConnectionsPerIp c <=? currentCount then Some IP_LIMIT_EXCEEDED else None.

Definition registerConnection (l : ConnectionLimiter) (ip connectionId : string) : ConnectionLimiter :=
  let normalizedIp := normalizeIp ip in
  let ipConnections := default ∅ (connectionsByIp l !! normalizedIp) in
  {| connectionsByIp := <[normalizedIp := {[connectionId]} ∪ ipConnections]> (connectionsByIp l);
     totalConnections := totalConnections l + 1 |}.

Definition unregisterConnection (l : ConnectionLimiter) (ip connectionId : string) : ConnectionLimiter :=
  let normalizedIp := normalizeIp ip in
  match connectionsByIp l !! normalizedIp with
  | None => l
  | Some ipConnections =>
      if bool_decide (connectionId ∈ ipConnections) then
        let ipConnections := ipConnections ∖ {[connectionId]} in
        {| connectionsByIp :=
             if bool_decide (size ipConnections = 0%nat) then delete normalizedIp (connectionsByIp l)
             else <[normalizedIp := ipConnections]> (connectionsByIp l);
           totalConnections := totalConnections l - 1 |}
      else l
  end.

(** ** The gateway's use *)

Inductive ConnEvent :=
| Connect (ip connectionId : string)
| Disconnect (ip connectionId : string).

Definition conn_step (c : ConnectionLimiterConfig) (l : ConnectionLimiter) (e : ConnEvent)
    : ConnectionLimiter :=
  match e with
  | Connect ip connectionId =>
      match canConnect c l ip with
      | None => registerConnection l ip connectionId
      | Some _ => l
      end
  | Disconnect ip connectionId => unregisterConnection l ip connectionId
  end.

(** ** Invariant *)

Definition live (m : gmap string (gset string)) : Z := map_fold (fun _ s n => set_size s + n) 0 m.

Definition id_fresh (l : ConnectionLimiter) (connectionId : string) : Prop :=
  forall ip s, connectionsByIp l !! ip = Some s -> connectionId ∉ s.

Record limiter_inv (l : ConnectionLimiter) : Prop := {
  inv_total : totalConnections l = live (connectionsByIp l);
  inv_nonempty : forall ip s, connectionsByIp l !! ip = Some s -> s <> ∅
}.

Definition within_caps (c : ConnectionLimiterConfig) (l : ConnectionLimiter) : Prop :=
  totalConnections l <= maxTotalSessions c
  /\ forall ip s, connectionsByIp l !! ip = Some s -> set_size s <= maxConnectionsPerIp c.

Lemma live_insert_new m ip s : m !! ip = None -> live (<[ip := s]> m) = set_size s + live m.
Proof. intros H. unfold live. rewrite map_fold_insert_L; [done| |done]. intros. lia. Qed.

Lemma live_insert m ip s :
  live (<[ip := s]> m) = live m + set_size s - default 0 (set_size <$> m !! ip).
Proof.
  destruct (m !! ip) as [s0|] eqn:E; cbn.
  - rewrite <- (insert_delete_id m ip s0 E) at 2. rewrite <- (insert_delete_eq m ip s).
    rewrite !live_insert_new by apply lookup_delete_eq. lia.
  - rewrite live_insert_new by done. lia.
Qed.

Lemma live_delete m ip : live (delete ip m) = live m - default 0 (set_size <$> m !! ip).
Proof.
  destruct (m !! ip) as [s0|] eqn:E; cbn.
  - rewrite <- (insert_delete_id m ip s0 E) at 2. rewrite live_insert_new by apply lookup_delete_eq. lia.
  - rewrite delete_id by done. lia.
Qed.

Lemma set_size_union x (s : gset string) : x ∉ s -> set_size ({[x]} ∪ s) = 1 + set_size s.
Proof. intros H. unfold set_size. rewrite size_union by set_solver. rewrite size_singleton. lia. Qed.

Lemma set_size_difference x (s : gset string) : x ∈ s -> set_size (s ∖ {[x]}) = set_size s - 1.
Proof.
  intros H. unfold set_size. rewrite size_difference by set_solver. rewrite size_singleton.
  assert (0 < size s)%nat; [|lia]. destruct (size s) eqn:E; [|lia].
  apply size_empty_inv in E. set_solver.
Qed.

Lemma registerConnection_inv l ip id :
  limiter_inv l -> id_fresh l id -> limiter_inv (registerConnection l ip id).
Proof.
  intros [Ht Hn] Hf. split; cbn.
  - rewrite live_insert, Ht. destruct (connectionsByIp l !! normalizeIp ip) as [s|] eqn:E; cbn.
    + rewrite set_size_union by (by eapply Hf). lia.
    + rewrite set_size_union by set_solver. unfold set_size. rewrite size_empty. lia.
  - intros ip' s. destruct (decide (ip' = normalizeIp ip)) as [->|Hne].
    + rewrite lookup_insert_eq. intros [= <-]. set_solver.
    + rewrite lookup_insert_ne by done. apply Hn.
Qed.

Lemma unregisterConnection_inv l ip id : limiter_inv l -> limiter_inv (unregisterConnection l ip id).
Proof.
  intros [Ht Hn]. unfold unregisterConnection.
  destruct (connectionsByIp l !! normalizeIp ip) as [s|] eqn:E; [|done].
  case_bool_decide as Hin; [|done]. split; cbn.
  - pose proof (set_size_difference id s Hin). case_bool_decide as Hz.
    + rewrite live_delete, E, Ht. cbn. unfold set_size in *. lia.
    + rewrite live_insert, E, Ht. cbn. lia.
  - intros ip' s'. case_bool_decide as Hz; destruct (decide (ip' = normalizeIp ip)) as [->|Hne];
      rewrite ?lookup_delete_eq, ?lookup_insert_eq, ?lookup_delete_ne, ?lookup_insert_ne by done;
      try apply Hn; [done|]. intros [= <-] He. apply Hz. rewrite He. apply size_empty.
Qed.

Lemma set_size_live m ip s : m !! ip = Some s -> set_size s <= live m.
Proof.
  intros H. assert (Hpos : forall k, 0 <= live k).
  { intros k. unfold live. apply (map_fold_weak_ind (fun r _ => 0 <= r)); [lia|].
    intros i x m' r _ Hr. unfold set_size. lia. }
  pose proof (live_delete m ip) as Hd. rewrite H in Hd. cbn in Hd. specialize (Hpos (delete ip m)). lia.
Qed.

Lemma conn_step_inv c l e :
  (forall ip id, e = Connect ip id -> id_fresh l id) ->
  limiter_inv l -> within_caps c l -> limiter_inv (conn_step c l e) /\ within_caps c (conn_step c l e).
Proof.
  intros Hf Hi [Hc1 Hc2]. destruct e as [ip id|ip id]; cbn [conn_step].
  - unfold canConnect. cbv zeta. destruct (maxTotalSessions c <=? _) eqn:Htotal; [by split|].
    destruct (maxConnectionsPerIp c <=? _) eqn:Hcount; [by split|]. bprop.
    assert (Hid : id_fresh l id) by by eapply Hf.
    split; [by apply registerConnection_inv|]. split; cbn; [lia|].
    intros ip' s. destruct (decide (ip' = normalizeIp ip)) as [->|Hne].
    + rewrite lookup_insert_eq. intros [= <-].
      destruct (connectionsByIp l !! normalizeIp ip) as [s|] eqn:E; cbn in Hcount |- *.
      * rewrite set_size_union by (by eapply Hid). lia.
      * rewrite set_size_union by set_solver. unfold set_size in *. rewrite size_empty. lia.
    + rewrite lookup_insert_ne by done. apply Hc2.
  - split; [by apply unregisterConnection_inv|]. unfold unregisterConnection.
    destruct (connectionsByIp l !! normalizeIp ip) as [s|] eqn:E; [|done].
    case_bool_decide as Hin; [|done]. split; cbn; [lia|]. intros ip' s'.
    pose proof (Hc2 _ _ E). pose proof (set_size_difference id s Hin).
    case_bool_decide; destruct (decide (ip' = normalizeIp ip)) as [->|Hne];
      rewrite ?lookup_delete_eq, ?lookup_insert_eq, ?lookup_delete_ne, ?lookup_insert_ne by done;
      try apply Hc2; [done|]. intros [= <-]. lia.
Qed.

(** Connection ids are not reused: the ids in the sets come from earlier
    connections. *)
Definition connect_ids (es : list ConnEvent) : list string :=
  omap (fun e => match e with Connect _ id => Some id | Disconnect _ _ => None end) es.

Definition ids_within (l : ConnectionLimiter) (ids : list string) : Prop :=
  forall ip s id, connectionsByIp l !! ip = Some s -> id ∈ s -> id ∈ ids.

Lemma conn_step_ids c l e ids :
  ids_within l ids -> ids_within (conn_step c l e) (ids ++ connect_ids [e]).
Proof.
  intros H ip s id Hs Hid. rewrite elem_of_app.
  destruct e as [ip0 id0|ip0 id0]; cbn [conn_step] in Hs; cbn.
  - destruct (canConnect c l ip0); [left; by eapply H|]. cbn in Hs.
    destruct (decide (ip = normalizeIp ip0)) as [->|Hne].
    + rewrite lookup_insert_eq in Hs. injection Hs as <-. apply elem_of_union in Hid as [Hid|Hid].
      * right. set_solver.
      * left. destruct (connectionsByIp l !! normalizeIp ip0) as [s|] eqn:E; cbn in Hid; [|set_solver].
        by eapply H.
    + rewrite lookup_insert_ne in Hs by done. left. by eapply H.
  - left. unfold unregisterConnection in Hs.
    destruct (connectionsByIp l !! normalizeIp ip0) as [s0|] eqn:E; [|by eapply H].
    case_bool_decide; [|by eapply H]. cbn in Hs. case_bool_decide.
    + apply lookup_delete_Some in Hs as [_ Hs]. by eapply H.
    + apply lookup_insert_Some in Hs as [[<- <-]|[_ Hs]]; [|by eapply H].
      eapply H; [exact E|]. set_solver.
Qed.

Lemma limiter_run_inv c es ids l :
  limiter_inv l -> within_caps c l -> ids_within l ids -> NoDup (ids ++ connect_ids es) ->
  limiter_inv (foldl (conn_step c) l es) /\ within_caps c (foldl (conn_step c) l es).
Proof.
  revert ids l. induction es as [|e es IH]; intros ids l Hi Hc Hd Hnd; [done|]. cbn [foldl].
  assert (Hsplit : connect_ids (e :: es) = connect_ids [e] ++ connect_ids es)
    by (unfold connect_ids; by rewrite <- omap_app).
  rewrite Hsplit, app_assoc in Hnd.
  destruct (conn_step_inv c l e) as [Hi' Hc']; [|done|done|].
  - intros ip id -> ip' s Hs Hin. apply NoDup_app in Hnd as (Hnd & _ & _).
    apply NoDup_app in Hnd as (_ & Hnd & _). apply (Hnd id); [by eapply Hd|]. cbn. set_solver.
  - eapply (IH (ids ++ connect_ids [e])); [done|done|by apply conn_step_ids|done].
Qed.

(** The connection caps hold at all times: whatever sequence of connection
    attempts and closes the gateway sees, with connection ids that are not
    reused, the counter equals the number of live connections, it never exceeds
    the session cap, and no address has more than its share. *)
Theorem limiter_caps c es :
  0 <= maxTotalSessions c -> NoDup (connect_ids es) ->
  let l := foldl (conn_step c) limiter_init es in
  totalConnections l = live (connectionsByIp l)
  /\ totalConnections l <= maxTotalSessions c
  /\ forall ip, getConnectionsForIp l ip <= Z.max 0 (maxConnectionsPerIp c).
Proof.
  intros Hc Hnd l. destruct (limiter_run_inv c es [] limiter_init) as [[Ht _] [H1 H2]]; try done.
  split; [done|]. split; [done|]. intros ip. unfold getConnectionsForIp. fold l.
  destruct (connectionsByIp l !! normalizeIp ip) as [s|] eqn:E; cbn; [|lia].
  pose proof (H2 _ _ E). lia.
Qed.

Lemma limiter_caps_witness :
  totalConnections (foldl (conn_step (limiter_config (Some 2) (Some 10))) limiter_init
    [Connect "::ffff:1.2.3.4" "a"; Connect "1.2.3.4" "b"; Connect "1.2.3.4" "c"; Disconnect "1.2.3.4" "a"])
  <= 10.
Proof.
  apply (limiter_caps (limiter_config (Some 2) (Some 10))
    [Connect "::ffff:1.2.3.4" "a"; Connect "1.2.3.4" "b"; Connect "1.2.3.4" "c"; Disconnect "1.2.3.4" "a"]);
    [cbn; lia|].
  refine (bool_decide_unpack _ _). vm_compute. exact I.
Defined.

(** Closing a connection gives its slot back exactly: unregistering a
    freshly registered connection, under either spelling of its address,
    restores the limiter's state, so nothing leaks. *)
Theorem unregister_register l ip ip' connectionId :
  limiter_inv l -> id_fresh l connectionId -> normalizeIp ip' = normalizeIp ip ->
  unregisterConnection (registerConnection l ip connectionId) ip' connectionId = l.
Proof.
  intros [Ht Hn] Hf Hip. unfold unregisterConnection, registerConnection. cbn. rewrite Hip.
  rewrite lookup_insert_eq. rewrite bool_decide_eq_true_2 by set_solver.
  destruct l as [m t]. cbn in *. f_equal; [|lia].
  destruct (m !! normalizeIp ip) as [s|] eqn:E; cbn.
  - assert (Hs : ({[connectionId]} ∪ s) ∖ {[connectionId]} = s).
    { pose proof (Hf _ _ E). set_solver. }
    rewrite Hs, bool_decide_eq_false_2.
    + rewrite insert_insert_eq. by apply insert_id.
    + intros Hz. apply size_empty_inv in Hz. apply (Hn _ _ E). set_solver.
  - rewrite bool_decide_eq_true_2.
    + rewrite delete_insert_eq. by apply delete_id.
    + apply size_empty_iff. set_solver.
Qed.

Lemma unregister_register_witness :
  unregisterConnection (registerConnection limiter_init "::ffff:10.0.0.1" "x") "10.0.0.1" "x" = limiter_init.
Proof.
  apply unregister_register.
  - split; [reflexivity|]. intros ip s H. cbn in H. by rewrite lookup_empty in H.
  - intros ip s H. cbn in H. by rewrite lookup_empty in H.
  - reflexivity.
Defined.
