(* ===== verification/Nonce.v ===== *)
(** * Nonces

    [gateway/src/session/nonce.ts]: the per-key nonce and pending bookkeeping of
    [NonceManager], and its [withLock], which is to run the submissions of one
    key one at a time. *)

From S2P Require Import Prelude.

(** ** Bookkeeping *)

Record NonceManager := {
  nonces : gmap string Z;
  pending : gmap string (gset Z)
}.

Definition nonce_init : NonceManager := {| nonces := ∅; pending := ∅ |}.

Definition getCurrentNonce (m : NonceManager) (k : string) : Z := default 0 (nonces m !! k).

Definition setCurrentNonce (m : NonceManager) (k : string) (nonce : Z) : NonceManager :=
  {| nonces := <[k := nonce]> (nonces m); pending := pending m |}.

Definition getAndIncrement (m : NonceManager) (k : string) : Z * NonceManager :=
  let current := default 0 (nonces m !! k) in
  (current,
   {| nonces := <[k := current + 1]> (nonces m);
      pending := <[k := {[current]} ∪ default ∅ (pending m !! k)]> (pending m) |}).

Definition confirmNonce (m : NonceManager) (k : string) (nonce : Z) : NonceManager :=
  match pending m !! k with
  | None => m
  | Some s =>
      let s := s ∖ {[nonce]} in
      {| nonces := nonces m;
         pending := if bool_decide (size s = 0%nat) then delete k (pending m)
                    else <[k := s]> (pending m) |}
  end.

Definition hasPending (m : NonceManager) (k : string) : bool :=
  match pending m !! k with
  | Some s => bool_decide (0 < size s)%nat
  | None => false
  end.

Definition getPendingNonces (m : NonceManager) (k : string) : gset Z := default ∅ (pending m !! k).

(** The answer of the account endpoint: the on-chain nonce, or nothing when the
    request fails, is refused, or does not parse. *)
Definition syncFromBackend (m : NonceManager) (k : string) (answer : option Z) : bool * NonceManager :=
  match answer with
  | None => (false, m)
  | Some onChainNonce =>
      let keep := match nonces m !! k with
                  | Some current => (0 <? current) && (onChainNonce =? 0)
                  | None => false
                  end in
      (true,
       {| nonces := if keep then nonces m else <[k := onChainNonce]> (nonces m);
          pending := delete k (pending m) |})
  end.

(** [error.toLowerCase()] on ASCII text, and [includes]. *)
Definition ascii_lower (c : Ascii.ascii) : Ascii.ascii :=
  let n := Ascii.nat_of_ascii c in
  if (65 <=? n)%nat && (n <=? 90)%nat then Ascii.ascii_of_nat (n + 32) else c.

Fixpoint to_lower (s : string) : string :=
  match s with
  | EmptyString => EmptyString
  | String c s' => String (ascii_lower c) (to_lower s')
  end.

Definition includes (s sub : string) : bool := bool_decide (is_Some (String.index 0 sub s)).

Definition isNonceMismatch (error : string) : bool :=
  let lowerError := to_lower error in
  includes lowerError "nonce" || includes lowerError "invalidnonce" || includes lowerError "replay".

Definition handleRejection (m : NonceManager) (k error : string) : bool * NonceManager :=
  if isNonceMismatch error
  then (true, {| nonces := nonces m; pending := delete k (pending m) |})
  else (false, m).

Definition reset (m : NonceManager) (k : string) : NonceManager :=
  {| nonces := delete k (nonces m); pending := delete k (pending m) |}.

Definition getStats (m : NonceManager) : Z * Z :=
  (Z.of_nat (size (nonces m)), map_fold (fun _ s n => Z.of_nat (size s) + n) 0 (pending m)).

(** ** The lock

    The callers of [withLock] for one key.  A caller that finds a lock promise
    awaits it, and takes the lock when the promise resolves; one that finds none
    takes it at once.  Taking the lock installs a fresh promise and passes the
    current nonce to the callback.  The callback may have its transaction
    accepted, upon which it stores the next nonce, and ends; ending deletes the
    map entry and resolves the promise, and the callers that await this promise
    run next, in the order in which they started to wait, before any other
    event of the gateway. *)

Inductive caller :=
| Idle
| Awaiting (promise : nat)
| Running (promise : nat) (nonce : Z) (submitted : bool).

Record lock_state := {
  locks : option nat;
  fresh_promise : nat;
  current : Z;
  callers : list caller;
  used : list Z
}.

Definition lock_init (n : nat) (nonce : Z) : lock_state :=
  {| locks := None; fresh_promise := 0; current := nonce; callers := replicate n Idle; used := [] |}.

Inductive lock_event := Enter (i : nat) | Accept (i : nat) | Finish (i : nat).

(** Caller [i] takes the lock: [this.locks.set(key, lockPromise)] and
    [fn(this.getCurrentNonce(key))]. *)
Definition acquire (st : lock_state) (i : nat) : lock_state :=
  {| locks := Some (fresh_promise st);
     fresh_promise := S (fresh_promise st);
     current := current st;
     callers := <[i := Running (fresh_promise st) (current st) false]> (callers st);
     used := used st |}.

Definition is_awaiting (promise : nat) (c : caller) : bool :=
  match c with
  | Awaiting p => (p =? promise)%nat
  | _ => false
  end.

(** The positions of the callers that wait for a promise. *)
Definition waiters (promise : nat) (st : lock_state) : list nat :=
  List.filter (fun i => match callers st !! i with
                        | Some c => is_awaiting promise c
                        | None => false
                        end) (seq 0 (length (callers st))).

Definition lock_step (st : lock_state) (e : lock_event) : option lock_state :=
  match e with
  | Enter i =>
      match callers st !! i with
      | Some Idle =>
          match locks st with
          | Some pendingLock =>
              Some {| locks := locks st; fresh_promise := fresh_promise st; current := current st;
                      callers := <[i := Awaiting pendingLock]> (callers st); used := used st |}
          | None => Some (acquire st i)
          end
      | _ => None
      end
  | Accept i =>
      match callers st !! i with
      | Some (Running p n false) =>
          Some {| locks := locks st; fresh_promise := fresh_promise st; current := n + 1;
                  callers := <[i := Running p n true]> (callers st); used := used st ++ [n] |}
      | _ => None
      end
  | Finish i =>
      match callers st !! i with
      | Some (Running p _ _) =>
          let st' := {| locks := None; fresh_promise := fresh_promise st; current := current st;
                        callers := <[i := Idle]> (callers st); used := used st |} in
          Some (foldl acquire st' (waiters p st'))
      | _ => None
      end
  end.

Fixpoint lock_run (st : lock_state) (es : list lock_event) : option lock_state :=
  match es with
  | [] => Some st
  | e :: es' => st' ← lock_step st e; lock_run st' es'
  end.

Definition is_running (c : caller) : bool :=
  match c with
  | Running _ _ _ => true
  | _ => false
  end.

Definition running (st : lock_state) : nat := length (List.filter is_running (callers st)).

(** ** Two callers *)

(** What holds with two callers: at most one of them runs; the lock entry is
    its promise, the other one waits for it or is idle; a callback that has not
    submitted holds the current nonce. *)
Inductive pair_ok : option nat -> nat -> Z -> caller -> caller -> Prop :=
| po_idle f n : pair_ok None f n Idle Idle
| po_run_l p f n m b other :
    (b = false -> m = n) -> (other = Idle \/ other = Awaiting p) ->
    pair_ok (Some p) f n (Running p m b) other
| po_run_r p f n m b other :
    (b = false -> m = n) -> (other = Idle \/ other = Awaiting p) ->
    pair_ok (Some p) f n other (Running p m b).

Definition two_inv (start : Z) (st : lock_state) : Prop :=
  exists a b,
    callers st = [a; b] /\ pair_ok (locks st) (fresh_promise st) (current st) a b
    /\ used st = seqZ start (len (used st)) /\ current st = start + len (used st).

Lemma two_running start st : two_inv start st -> (running st <= 1)%nat.
Proof.
  intros (a & b & Hc & Hp & _). unfold running. rewrite Hc.
  inversion Hp as [| ? ? ? ? ? ? _ [-> | ->] | ? ? ? ? ? ? _ [-> | ->]]; subst; cbn; lia.
Qed.

Lemma seqZ_snoc start k : 0 <= k -> seqZ start k ++ [start + k] = seqZ start (k + 1).
Proof. intros H. rewrite seqZ_app by lia. done. Qed.

Lemma two_step start st e st' : two_inv start st -> lock_step st e = Some st' -> two_inv start st'.
Proof.
  intros (a & b & Hc & Hp & Hu & Hn) Hs.
  destruct st as [lk f cur cs us]. cbn in *. subst cs.
  assert (Hacc : forall n, n = cur -> us ++ [n] = seqZ start (len (us ++ [n]))
    /\ n + 1 = start + len (us ++ [n])).
  { intros n ->. pose proof (len_nonneg us). rewrite len_app, len_cons, len_nil. split; [|lia].
    rewrite Hu at 1. rewrite Hn, seqZ_snoc by done. done. }
  assert (Hi : forall i c, [a; b] !! i = Some c -> i = 0%nat /\ c = a \/ i = 1%nat /\ c = b).
  { intros [|[|i]] c; cbn; intros [= <-]; auto. }
  destruct e as [i|i|i]; cbn in Hs; destruct ([a; b] !! i) as [c|] eqn:E; try done;
    destruct (Hi _ _ E) as [[-> ->]|[-> ->]]; inversion Hp; subst; cbn in Hs; simplify_eq/=;
    repeat match goal with H : _ \/ _ |- _ => destruct H; subst end; try (cbn in Hs; simplify_eq/=);
    try (eexists _, _; repeat split_and!; cbn; [reflexivity | constructor; auto; done | done | done]).
  all: try (replace (is_awaiting p (Awaiting p)) with true by (cbn; by rewrite Nat.eqb_refl); cbn;
    eexists _, _; repeat split_and!; cbn; [reflexivity | constructor; auto; done | done | done]).
  all: destruct b0; [done|]; pose proof (H eq_refl) as Hm; destruct (Hacc m Hm) as [H1 H2];
    injection Hs as <-; eexists _, _; repeat split_and!; cbn;
    [reflexivity | constructor; auto; done | done | done].
Qed.

Lemma two_run start es st st' : two_inv start st -> lock_run st es = Some st' -> two_inv start st'.
Proof.
  revert st. induction es as [|e es IH]; intros st Hi; cbn [lock_run]; [by intros [= <-]|].
  destruct (lock_step st e) as [st1|] eqn:E; [|done]. cbn. intros H.
  eapply IH; [|exact H]. by eapply two_step.
Qed.

(** With two concurrent callers the lock does its work: in every
    interleaving of arrivals, accepted submissions and ends, at most one callback
    runs at a time, and the nonces that get used are consecutive, without
    repetition or gap, from the starting nonce on. *)
Theorem withLock_exclusive n0 es st :
  lock_run (lock_init 2 n0) es = Some st ->
  (running st <= 1)%nat
  /\ used st = seqZ n0 (len (used st)) /\ current st = n0 + len (used st).
Proof.
  intros H. assert (Hi : two_inv n0 st).
  { eapply two_run; [|exact H]. exists Idle, Idle. repeat split_and!; cbn; [reflexivity|apply po_idle|reflexivity|rewrite len_nil; lia]. }
  pose proof (two_running _ _ Hi). destruct Hi as (a & b & _ & _ & Hu & Hn). done.
Qed.

Lemma withLock_exclusive_witness :
  exists st, lock_run (lock_init 2 5)
    [Enter 0; Enter 1; Accept 0; Finish 0; Enter 0; Accept 1; Finish 1; Accept 0] = Some st
    /\ used st = [5; 6; 7] /\ (running st <= 1)%nat.
Proof.
  eexists. split; [vm_compute; reflexivity|]. split; [vm_compute; reflexivity|].
  apply (withLock_exclusive 5
    [Enter 0; Enter 1; Accept 0; Finish 0; Enter 0; Accept 1; Finish 1; Accept 0]).
  vm_compute. reflexivity.
Defined.

(** With a third caller it does not: a waiter does not look at the lock
    again when it wakes, so when two callers wait for the same promise both
    take the lock when it resolves, run at the same time with the same nonce,
    and that nonce is used twice; and when the first of them ends, it removes
    the other's lock, so that a newcomer enters beside the one still running. *)
Theorem withLock_three_callers n0 :
  (exists st, lock_run (lock_init 3 n0) [Enter 0; Enter 1; Enter 2; Accept 0; Finish 0] = Some st
     /\ running st = 2%nat
     /\ callers st = [Idle; Running 1 (n0 + 1) false; Running 2 (n0 + 1) false])
  /\ (exists st, lock_run (lock_init 3 n0)
        [Enter 0; Enter 1; Enter 2; Accept 0; Finish 0; Accept 1; Accept 2] = Some st
     /\ used st = [n0; n0 + 1; n0 + 1])
  /\ (exists st, lock_run (lock_init 3 n0)
        [Enter 0; Enter 1; Enter 2; Accept 0; Finish 0; Finish 1; Enter 0] = Some st
     /\ running st = 2%nat).
Proof. repeat split; eexists; repeat split; reflexivity. Qed.

(** ** The bookkeeping over a run *)

Inductive nonce_op := Issue | Confirm (nonce : Z).

Definition nonce_op_step (k : string) (m : NonceManager) (o : nonce_op) : NonceManager :=
  match o with
  | Issue => (getAndIncrement m k).2
  | Confirm nonce => confirmNonce m k nonce
  end.

(** The number of nonces issued along a list of operations. *)
Definition issued (ops : list nonce_op) : Z :=
  zsum (fun o => match o with Issue => 1 | Confirm _ => 0 end) ops.

Lemma pending_issue m k k' :
  getPendingNonces (getAndIncrement m k).2 k'
  = if bool_decide (k' = k) then {[getCurrentNonce m k]} ∪ getPendingNonces m k else getPendingNonces m k'.
Proof.
  unfold getPendingNonces, getAndIncrement, getCurrentNonce. cbn.
  case_bool_decide as E; [subst; by rewrite lookup_insert_eq|by rewrite lookup_insert_ne by done].
Qed.

Lemma pending_confirm m k n k' :
  getPendingNonces (confirmNonce m k n) k'
  = if bool_decide (k' = k) then getPendingNonces m k ∖ {[n]} else getPendingNonces m k'.
Proof.
  unfold getPendingNonces, confirmNonce. destruct (pending m !! k) as [s|] eqn:E; cbn.
  - case_bool_decide as Hz; case_bool_decide as Hk; subst; cbn;
      rewrite ?lookup_delete_eq, ?lookup_insert_eq, ?lookup_delete_ne, ?lookup_insert_ne by done; cbn.
    + apply size_empty_inv in Hz. fold_leibniz. done.
    + done.
    + done.
    + done.
  - case_bool_decide; subst; rewrite ?E; cbn; [set_solver|done].
Qed.

Lemma current_issue m k k' :
  getCurrentNonce (getAndIncrement m k).2 k'
  = getCurrentNonce m k' + (if bool_decide (k' = k) then 1 else 0).
Proof.
  unfold getCurrentNonce, getAndIncrement. cbn.
  case_bool_decide as E; [subst; by rewrite lookup_insert_eq|rewrite lookup_insert_ne by done; lia].
Qed.

Lemma current_confirm m k n k' : getCurrentNonce (confirmNonce m k n) k' = getCurrentNonce m k'.
Proof. unfold getCurrentNonce, confirmNonce. by destruct (pending m !! k). Qed.

Definition pending_below (m : NonceManager) (k : string) : Prop :=
  forall n, n ∈ getPendingNonces m k -> 0 <= n < getCurrentNonce m k.

Lemma nonce_step_inv k m o :
  0 <= getCurrentNonce m k -> pending_below m k ->
  0 <= getCurrentNonce (nonce_op_step k m o) k /\ pending_below (nonce_op_step k m o) k
  /\ getCurrentNonce (nonce_op_step k m o) k = getCurrentNonce m k + issued [o].
Proof.
  intros H0 Hp. unfold issued. rewrite zsum_cons, zsum_nil. destruct o as [|n]; cbn [nonce_op_step].
  - pose proof (current_issue m k k) as Hc. rewrite bool_decide_eq_true_2 in Hc by done.
    split; [lia|]. split; [|lia]. intros x. rewrite pending_issue, bool_decide_eq_true_2, Hc by done.
    rewrite elem_of_union, elem_of_singleton. intros [->|Hx]; [lia|]. specialize (Hp x Hx). lia.
  - pose proof (current_confirm m k n k) as Hc. split; [lia|]. split; [|lia].
    intros x. rewrite pending_confirm, bool_decide_eq_true_2, Hc by done. intros Hx.
    apply Hp. set_solver.
Qed.

(** Issued nonces: along any sequence of [getAndIncrement] and
    [confirmNonce] for a key, the current nonce is the number of nonces issued
    and every pending nonce is one of them, so the next nonce handed out is
    never pending; and the pending set of another key does not change. *)
Theorem issued_nonces k ops :
  let m := foldl (nonce_op_step k) nonce_init ops in
  getCurrentNonce m k = issued ops
  /\ pending_below m k /\ getCurrentNonce m k ∉ getPendingNonces m k
  /\ forall k', k' <> k -> getPendingNonces m k' = ∅ /\ getCurrentNonce m k' = 0.
Proof.
  assert (G : forall m0, 0 <= getCurrentNonce m0 k -> pending_below m0 k ->
    let m := foldl (nonce_op_step k) m0 ops in
    getCurrentNonce m k = getCurrentNonce m0 k + issued ops /\ pending_below m k
    /\ forall k', k' <> k -> getPendingNonces m k' = getPendingNonces m0 k'
                           /\ getCurrentNonce m k' = getCurrentNonce m0 k').
  { unfold issued. induction ops as [|o ops IH]; intros m0 H0 Hp; cbn [foldl].
    - rewrite zsum_nil. split; [lia|]. done.
    - destruct (nonce_step_inv k m0 o H0 Hp) as (H1 & H2 & H3).
      destruct (IH _ H1 H2) as (Ha & Hb & Hc). unfold issued in H3. rewrite zsum_cons, zsum_nil in H3.
      rewrite zsum_cons. split; [lia|]. split; [done|]. intros k' Hk.
      destruct (Hc k' Hk) as [-> ->]. destruct o as [|n]; cbn [nonce_op_step];
        rewrite ?pending_issue, ?pending_confirm, ?current_issue, ?current_confirm,
          ?bool_decide_eq_false_2 by done; split; done || lia. }
  intros m. destruct (G nonce_init) as (H1 & H2 & H3); [by vm_compute|intros n Hn; cbn in Hn; set_solver|].
  fold m in H1, H2, H3. split; [exact H1|]. split; [done|]. split.
  - intros Hin. specialize (H2 _ Hin). lia.
  - intros k' Hk. by destruct (H3 k' Hk).
Qed.
