(* ===== verification/Updates.v ===== *)
(** * The updates client

    [gateway/src/backend/updates.ts]: the filter of a subscription, the store of
    received events, and the waits that the game handlers perform on it. *)

From S2P Require Import Prelude JsNum Bytes Reader BinaryReader Events.

(** ** Filters *)

Inductive UpdatesFilter :=
| Filter_All
| Filter_Account (publicKey : Uint8Array)
| Filter_Session (sessionId : Z).

Definition encodeUpdatesFilter (f : UpdatesFilter) : result string :=
  match f with
  | Filter_All => Ok (to_hex (u8array [0]))
  | Filter_Account data =>
      _ ← throw_if (negb (len data =? 32)) "Account filter requires 32-byte public key";
      let buffer := set_elem (zeros (1 + 32)) 0 1 in
      buffer ← set_bytes buffer 1 data;
      Ok (to_hex buffer)
  | Filter_Session data =>
      let buffer := set_elem (zeros (1 + 8)) 0 2 in
      buffer ← setBigUint64BE buffer 1 data;
      Ok (to_hex buffer)
  end.

(** ** Events and waits *)

Inductive event_type := T_started | T_moved | T_completed | T_error.

#[export] Instance event_type_eq_dec : EqDecision event_type.
Proof. solve_decision. Defined.

Definition ev_type (e : CasinoGameEvent) : event_type :=
  match e with
  | Ev_started _ _ _ _ _ => T_started
  | Ev_moved _ _ _ _ _ => T_moved
  | Ev_completed _ _ _ _ _ _ _ _ _ => T_completed
  | Ev_error _ _ _ _ => T_error
  end.

(** The four waits: [waitForAnyEvent], [waitForStartedOrError],
    [waitForMoveOrComplete] and [waitForEvent]. *)
Inductive wait_kind :=
| W_any (t : event_type)
| W_started_or_error
| W_move_or_complete
| W_session (sessionId : Z) (t : event_type).

Definition isMatch (k : wait_kind) (e : CasinoGameEvent) : bool :=
  match k with
  | W_any t => bool_decide (ev_type e = t)
  | W_started_or_error => bool_decide (ev_type e = T_started) || bool_decide (ev_type e = T_error)
  | W_move_or_complete =>
      bool_decide (ev_type e = T_moved) || bool_decide (ev_type e = T_completed)
      || bool_decide (ev_type e = T_error)
  | W_session s t => (ev_sessionId e =? s) && bool_decide (ev_type e = t)
  end.

(** The [pendingEvents] map in insertion order, the registered listeners in
    registration order, and the promises settled so far: with an event, or with
    [None] for a rejection. *)
Record UpdatesClient := {
  pendingEvents : list (Z * list CasinoGameEvent);
  listeners : list (nat * wait_kind);
  settled : list (nat * option CasinoGameEvent)
}.

Definition updates_init : UpdatesClient := {| pendingEvents := []; listeners := []; settled := [] |}.

(** [const pending = map.get(id) ?? []; pending.push(event); map.set(id, pending)]. *)
Fixpoint store_event (m : list (Z * list CasinoGameEvent)) (e : CasinoGameEvent)
    : list (Z * list CasinoGameEvent) :=
  match m with
  | [] => [(ev_sessionId e, [e])]
  | (s, es) :: m' =>
      if s =? ev_sessionId e then (s, es ++ [e]) :: m' else (s, es) :: store_event m' e
  end.

(** [events.find(isMatch)] and the splice of what it finds. *)
Fixpoint take_event (p : CasinoGameEvent -> bool) (es : list CasinoGameEvent)
    : option (CasinoGameEvent * list CasinoGameEvent) :=
  match es with
  | [] => None
  | e :: es' =>
      if p e then Some (e, es')
      else match take_event p es' with
           | Some (e', rest) => Some (e', e :: rest)
           | None => None
           end
  end.

(** The loop over all sessions' events. *)
Fixpoint take_any (p : CasinoGameEvent -> bool) (m : list (Z * list CasinoGameEvent))
    : option (CasinoGameEvent * list (Z * list CasinoGameEvent)) :=
  match m with
  | [] => None
  | (s, es) :: m' =>
      match take_event p es with
      | Some (e, rest) => Some (e, (s, rest) :: m')
      | None =>
          match take_any p m' with
          | Some (e, m'') => Some (e, (s, es) :: m'')
          | None => None
          end
      end
  end.

(** [this.emit('gameEvent', event)]: every matching listener leaves and its
    promise resolves. *)
Definition emit (c : UpdatesClient) (e : CasinoGameEvent) : UpdatesClient :=
  {| pendingEvents := pendingEvents c;
     listeners := List.filter (fun l => negb (isMatch l.2 e)) (listeners c);
     settled := settled c
       ++ ((fun l => (l.1, Some e)) <$> List.filter (fun l => isMatch l.2 e) (listeners c)) |}.

(** One event of [handleMessage]: stored first, then emitted. *)
Definition handleEvent (c : UpdatesClient) (e : CasinoGameEvent) : UpdatesClient :=
  emit {| pendingEvents := store_event (pendingEvents c) e; listeners := listeners c;
          settled := settled c |} e.

(** [handleMessage]: the new state and the global-table events it emits. *)
Definition handleMessage (c : UpdatesClient) (data : Uint8Array) : UpdatesClient * list GlobalTableEvent :=
  (foldl handleEvent c (extractCasinoEvents data), extractGlobalTableEvents data).

Definition settle (c : UpdatesClient) (id : nat) (r : option CasinoGameEvent) : UpdatesClient :=
  {| pendingEvents := pendingEvents c; listeners := listeners c; settled := settled c ++ [(id, r)] |}.

Definition set_pending (c : UpdatesClient) (m : list (Z * list CasinoGameEvent)) : UpdatesClient :=
  {| pendingEvents := m; listeners := listeners c; settled := settled c |}.

Definition add_listener (c : UpdatesClient) (id : nat) (k : wait_kind) : UpdatesClient :=
  {| pendingEvents := pendingEvents c; listeners := listeners c ++ [(id, k)]; settled := settled c |}.

Definition off (c : UpdatesClient) (id : nat) : UpdatesClient :=
  {| pendingEvents := pendingEvents c;
     listeners := List.filter (fun l => negb (l.1 =? id)%nat) (listeners c);
     settled := settled c |}.

(** The session-based wait looks at the events of its session only, and
    registers no listener when it finds one. *)
Definition take_session (s : Z) (t : event_type) (m : list (Z * list CasinoGameEvent))
    : option (CasinoGameEvent * list (Z * list CasinoGameEvent)) :=
  (fix go m :=
     match m with
     | [] => None
     | (s', es) :: m' =>
         if s' =? s then
           match take_event (fun e => bool_decide (ev_type e = t)) es with
           | Some (e, rest) => Some (e, (s', rest) :: m')
           | None => None
           end
         else match go m' with
              | Some (e, m'') => Some (e, (s', es) :: m'')
              | None => None
              end
     end) m.

(** A wait, whose promise is [id]. *)
Definition wait (c : UpdatesClient) (id : nat) (k : wait_kind) : UpdatesClient :=
  match k with
  | W_session s t =>
      match take_session s t (pendingEvents c) with
      | Some (e, m) => settle (set_pending c m) id (Some e)
      | None => add_listener c id k
      end
  | _ =>
      let c := add_listener c id k in
      match take_any (isMatch k) (pendingEvents c) with
      | Some (e, m) => settle (set_pending (off c id) m) id (Some e)
      | None => c
      end
  end.

(** The timer of a wait that is still registered. *)
Definition timeout (c : UpdatesClient) (id : nat) : UpdatesClient :=
  match List.find (fun l => (l.1 =? id)%nat) (listeners c) with
  | None => c
  | Some (_, k) =>
      let c := off c id in
      match k with
      | W_session _ _ => settle c id None
      | _ =>
          match take_any (isMatch k) (pendingEvents c) with
          | Some (e, m) => settle (set_pending c m) id (Some e)
          | None => settle c id None
          end
      end
  end.

(** [reconnectDelay] after one more failure. *)
Definition maxReconnectDelay : Z := 30000.
Definition next_reconnectDelay (reconnectDelay : Z) : Z := Z.min (reconnectDelay * 2) maxReconnectDelay.

(** ** Runs *)

Inductive updates_op :=
| Wait (id : nat) (k : wait_kind)
| Receive (e : CasinoGameEvent)
| Timeout (id : nat).

Definition updates_step (c : UpdatesClient) (o : updates_op) : UpdatesClient :=
  match o with
  | Wait id k => wait c id k
  | Receive e => handleEvent c e
  | Timeout id => timeout c id
  end.

Definition updates_run (c : UpdatesClient) (ops : list updates_op) : UpdatesClient :=
  foldl updates_step c ops.

(** The events received and the waits issued along a run. *)
Definition received (ops : list updates_op) (e : CasinoGameEvent) : Prop := Receive e ∈ ops.
Definition waited (ops : list updates_op) (id : nat) (k : wait_kind) : Prop := Wait id k ∈ ops.

(** ** The stored events *)

Definition stored (m : list (Z * list CasinoGameEvent)) (e : CasinoGameEvent) : Prop :=
  exists es, (ev_sessionId e, es) ∈ m /\ e ∈ es.

Definition well_stored (m : list (Z * list CasinoGameEvent)) : Prop :=
  forall s es e, (s, es) ∈ m -> e ∈ es -> ev_sessionId e = s.

Lemma take_event_spec p es e rest :
  take_event p es = Some (e, rest) -> p e = true /\ e ∈ es /\ forall x, x ∈ rest -> x ∈ es.
Proof.
  revert e rest. induction es as [|x es IH]; intros e rest; cbn; [done|].
  destruct (p x) eqn:E.
  - intros [= -> ->]. set_solver.
  - destruct (take_event p es) as [[e' rest']|]; [|done]. intros [= -> <-].
    destruct (IH _ _ eq_refl) as (? & ? & ?). set_solver.
Qed.

Lemma take_event_None p es : take_event p es = None <-> forall e, e ∈ es -> p e = false.
Proof.
  induction es as [|x es IH]; cbn; [set_solver|]. destruct (p x) eqn:E.
  - split; [done|]. intros H. rewrite (H x) in E; [done|set_solver].
  - destruct (take_event p es) as [[e' rest']|]; split; try done.
    + intros H. exfalso. assert (Some (e', rest') = None) by (apply IH; set_solver). done.
    + intros _ e. rewrite elem_of_cons. intros [->|He]; [done|]. by apply IH.
Qed.

Lemma take_any_spec p m e m' :
  take_any p m = Some (e, m') ->
  p e = true /\ (exists s es, (s, es) ∈ m /\ e ∈ es)
  /\ forall s es, (s, es) ∈ m' -> exists es', (s, es') ∈ m /\ forall x, x ∈ es -> x ∈ es'.
Proof.
  revert e m'. induction m as [|[s es] m IH]; intros e m'; cbn; [done|].
  destruct (take_event p es) as [[e0 rest]|] eqn:E.
  - intros [= -> <-]. apply take_event_spec in E as (Hp & Hin & Hsub). split; [done|].
    split; [exists s, es; set_solver|]. intros s' es'. rewrite elem_of_cons.
    intros [[= -> ->]|H]; [exists es; set_solver|exists es'; set_solver].
  - destruct (take_any p m) as [[e0 m0]|]; [|done]. intros [= -> <-].
    destruct (IH _ _ eq_refl) as (Hp & (s0 & es0 & Hin & Hin') & Hsub). split; [done|].
    split; [exists s0, es0; set_solver|]. intros s' es'. rewrite elem_of_cons.
    intros [[= -> ->]|H]; [exists es; set_solver|].
    destruct (Hsub _ _ H) as (es1 & ? & ?). exists es1. set_solver.
Qed.

Lemma take_session_spec s t m e m' :
  take_session s t m = Some (e, m') ->
  ev_type e = t /\ (exists es, (s, es) ∈ m /\ e ∈ es)
  /\ forall s' es, (s', es) ∈ m' -> exists es', (s', es') ∈ m /\ forall x, x ∈ es -> x ∈ es'.
Proof.
  revert e m'. induction m as [|[s0 es] m IH]; intros e m'; cbn; [done|].
  destruct (s0 =? s) eqn:Es; bprop.
  - subst. destruct (take_event _ es) as [[e0 rest]|] eqn:E; [|done].
    intros [= -> <-]. apply take_event_spec in E as (Hp & Hin & Hsub). apply bool_decide_eq_true in Hp.
    split; [done|]. split; [exists es; set_solver|]. intros s' es'. rewrite elem_of_cons.
    intros [[= -> ->]|H]; [exists es; set_solver|exists es'; set_solver].
  - fold (take_session s t m). destruct (take_session s t m) as [[e0 m0]|]; [|done]. intros [= -> <-].
    destruct (IH _ _ eq_refl) as (Hp & (es0 & Hin & Hin') & Hsub). split; [done|].
    split; [exists es0; set_solver|]. intros s' es'. rewrite elem_of_cons.
    intros [[= -> ->]|H]; [exists es; set_solver|].
    destruct (Hsub _ _ H) as (es1 & ? & ?). exists es1. set_solver.
Qed.

Lemma store_event_spec m e s es :
  (s, es) ∈ store_event m e ->
  (s, es) ∈ m \/ s = ev_sessionId e /\ (es = [e] \/ exists es', (s, es') ∈ m /\ es = es' ++ [e]).
Proof.
  induction m as [|[s0 es0] m IH]; cbn.
  - rewrite list_elem_of_singleton. intros [= -> ->]. auto.
  - destruct (s0 =? ev_sessionId e) eqn:E; bprop; rewrite elem_of_cons.
    + intros [[= -> ->]|H]; [|left; set_solver]. right. split; [done|]. right. exists es0. set_solver.
    + intros [[= -> ->]|H]; [left; set_solver|]. destruct (IH H) as [?|[? [?|(es' & ? & ?)]]].
      * left. set_solver.
      * auto.
      * right. split; [done|]. right. exists es'. set_solver.
Qed.

(** ** The invariant of a run *)

Record updates_inv (ops : list updates_op) (c : UpdatesClient) : Prop := {
  ui_pending : forall s es e, (s, es) ∈ pendingEvents c -> e ∈ es -> received ops e /\ ev_sessionId e = s;
  ui_listeners : forall id k, (id, k) ∈ listeners c -> waited ops id k;
  ui_settled : forall id e, (id, Some e) ∈ settled c ->
    received ops e /\ exists k, waited ops id k /\ isMatch k e = true
}.

Lemma elem_of_filter_bool {A} (f : A -> bool) (l : list A) x :
  x ∈ List.filter f l <-> x ∈ l /\ f x = true.
Proof. rewrite !list_elem_of_In. apply filter_In. Qed.

Lemma updates_inv_mono ops o c : updates_inv ops c -> updates_inv (ops ++ [o]) c.
Proof.
  intros [H1 H2 H3]. split; unfold received, waited in *.
  - intros s es e Hs He. destruct (H1 s es e Hs He). rewrite elem_of_app. auto.
  - intros id k H. rewrite elem_of_app. auto.
  - intros id e H. destruct (H3 id e H) as (? & k & ? & ?). rewrite elem_of_app.
    split; [auto|]. exists k. rewrite elem_of_app. auto.
Qed.

(** Settling with an event the client holds. *)
Lemma updates_inv_settle ops c id k e m :
  updates_inv ops c -> waited ops id k -> isMatch k e = true ->
  (exists s es, (s, es) ∈ pendingEvents c /\ e ∈ es) ->
  (forall s es, (s, es) ∈ m -> exists es', (s, es') ∈ pendingEvents c /\ forall x, x ∈ es -> x ∈ es') ->
  updates_inv ops (settle (set_pending c m) id (Some e)).
Proof.
  intros [H1 H2 H3] Hw Hm (s & es & Hs & He) Hsub. split; cbn.
  - intros s' es' e' Hs' He'. destruct (Hsub _ _ Hs') as (es1 & Hin & Hx). by eapply H1; [|apply Hx].
  - done.
  - intros id' e'. rewrite elem_of_app, list_elem_of_singleton. intros [H|[= -> ->]]; [by apply H3|].
    split; [by eapply H1|]. exists k. done.
Qed.

Lemma updates_inv_off ops c id : updates_inv ops c -> updates_inv ops (off c id).
Proof.
  intros [H1 H2 H3]. split; cbn; [done| |done].
  intros id' k H. apply elem_of_filter_bool in H as [H _]. by apply H2.
Qed.

Lemma updates_inv_reject ops c id : updates_inv ops c -> updates_inv ops (settle c id None).
Proof.
  intros [H1 H2 H3]. split; cbn; [done|done|]. intros id' e.
  rewrite elem_of_app, list_elem_of_singleton. intros [H|H]; [by apply H3|done].
Qed.

Lemma updates_inv_listener ops c id k :
  updates_inv ops c -> waited ops id k -> updates_inv ops (add_listener c id k).
Proof.
  intros [H1 H2 H3] Hw. split; cbn; [done| |done]. intros id' k'.
  rewrite elem_of_app, list_elem_of_singleton. intros [H|[= -> ->]]; [by apply H2|done].
Qed.

Lemma updates_inv_event ops c e :
  updates_inv ops c -> received ops e -> updates_inv ops (handleEvent c e).
Proof.
  intros [H1 H2 H3] Hr. split; cbn.
  - intros s es e' Hs He. apply store_event_spec in Hs as [Hs|[-> [->|(es' & Hs & ->)]]].
    + by eapply H1.
    + apply list_elem_of_singleton in He as ->. done.
    + apply elem_of_app in He as [He|He]; [by eapply H1|]. apply list_elem_of_singleton in He as ->. done.
  - intros id k H. apply elem_of_filter_bool in H as [H _]. by apply H2.
  - intros id e'. rewrite elem_of_app. intros [H|H]; [by apply H3|].
    apply list_elem_of_fmap in H as ([id' k'] & [= -> ->] & H). apply elem_of_filter_bool in H as [H Hm].
    split; [done|]. exists k'. split; [by apply H2|done].
Qed.

Lemma updates_inv_step ops c o : updates_inv ops c -> updates_inv (ops ++ [o]) (updates_step c o).
Proof.
  intros Hi. apply (updates_inv_mono _ o) in Hi.
  assert (Ho : o ∈ ops ++ [o]) by (rewrite elem_of_app, list_elem_of_singleton; auto).
  destruct o as [id k|e|id]; cbn [updates_step].
  - unfold wait. destruct k as [t| | |s t].
    4:{ destruct (take_session s t (pendingEvents c)) as [[e m]|] eqn:E; [|by apply updates_inv_listener].
        apply take_session_spec in E as (Ht & (es & Hs & He) & Hsub).
        assert (Hsess : ev_sessionId e = s) by by eapply (ui_pending _ _ Hi).
        eapply updates_inv_settle; [done|exact Ho| |by exists s, es|done].
        cbn. rewrite (proj2 (Z.eqb_eq _ _) Hsess), bool_decide_eq_true_2 by done. done. }
    all: match goal with |- context [take_any ?p ?m] => destruct (take_any p m) as [[e m']|] eqn:E end;
      [|by apply updates_inv_listener];
      apply take_any_spec in E as (Hp & Hin & Hsub);
      eapply updates_inv_settle; [by apply updates_inv_off, updates_inv_listener|exact Ho|exact Hp|exact Hin|exact Hsub].
  - by apply updates_inv_event.
  - unfold timeout. destruct (List.find _ (listeners c)) as [[id' k]|] eqn:E; [|done].
    apply find_some in E as [Hin Hid]. cbn in Hid. apply Nat.eqb_eq in Hid as ->.
    apply list_elem_of_In in Hin. pose proof (ui_listeners _ _ Hi _ _ Hin) as Hw.
    destruct k as [t| | |s t]; [..|by apply updates_inv_reject, updates_inv_off].
    all: match goal with |- context [take_any ?p ?m] => destruct (take_any p m) as [[e m']|] eqn:E end;
      [|by apply updates_inv_reject, updates_inv_off];
      apply take_any_spec in E as (Hp & Hin' & Hsub);
      eapply updates_inv_settle; [by apply updates_inv_off|exact Hw|exact Hp|exact Hin'|exact Hsub].
Qed.

Lemma updates_inv_run ops : updates_inv ops (updates_run updates_init ops).
Proof.
  induction ops as [|o ops IH] using rev_ind.
  - split; cbn; intros; set_solver.
  - unfold updates_run. rewrite foldl_app. by apply updates_inv_step.
Qed.

(** ** Delivery *)

Lemma handleEvent_settled c e id r : (id, r) ∈ settled c -> (id, r) ∈ settled (handleEvent c e).
Proof. cbn. rewrite elem_of_app. auto. Qed.

Lemma handleEvents_settled c es id r : (id, r) ∈ settled c -> (id, r) ∈ settled (foldl handleEvent c es).
Proof.
  revert c. induction es as [|e es IH]; intros c H; [done|]. cbn [foldl]. by apply IH, handleEvent_settled.
Qed.

(** A registered listener settles with the first matching event. *)
Lemma listener_delivered c id k es :
  (id, k) ∈ listeners c -> Exists (fun e => isMatch k e = true) es ->
  exists e, (id, Some e) ∈ settled (foldl handleEvent c es) /\ isMatch k e = true /\ e ∈ es.
Proof.
  revert c. induction es as [|e es IH]; intros c Hl Hex; [by inversion Hex|].
  cbn [foldl]. destruct (isMatch k e) eqn:E.
  - exists e. split; [|set_solver]. apply handleEvents_settled. cbn. rewrite elem_of_app. right.
    apply list_elem_of_fmap. exists (id, k). split; [done|]. by apply elem_of_filter_bool.
  - inversion Hex as [? ? Hm|? ? Hm]; subst; [congruence|].
    destruct (IH (handleEvent c e)) as (e' & ? & ? & ?); [|done|].
    + cbn. apply elem_of_filter_bool. cbn. by rewrite E.
    + exists e'. set_solver.
Qed.

Lemma wait_settles_or_listens c id k :
  (exists e, (id, Some e) ∈ settled (wait c id k)) \/ (id, k) ∈ listeners (wait c id k).
Proof.
  unfold wait. destruct k as [t| | |s t].
  4:{ destruct (take_session s t (pendingEvents c)) as [[e m]|]; cbn;
        [left; exists e|right]; rewrite elem_of_app; right; by apply list_elem_of_singleton. }
  all: match goal with |- context [take_any ?p ?m] => destruct (take_any p m) as [[e m']|] end; cbn;
    [left; exists e|right]; rewrite elem_of_app; right; by apply list_elem_of_singleton.
Qed.

(** ** Theorems *)

(** A wait only ever resolves with an event that arrived and that it asked
    for: after any sequence of waits, arrivals and timeouts, a resolved promise
    carries a received event matching the wait that created it. *)
Theorem waits_sound ops id e :
  (id, Some e) ∈ settled (updates_run updates_init ops) ->
  received ops e /\ exists k, waited ops id k /\ isMatch k e = true.
Proof. apply (ui_settled _ _ (updates_inv_run ops)). Qed.

Definition sample_event (move : Z) : CasinoGameEvent :=
  Ev_moved 9 move [] [] {| chips := 0; vusdt := 0; rng := 0 |}.

Lemma waits_sound_witness :
  received [Wait 1 (W_any T_moved); Receive (sample_event 1)] (sample_event 1).
Proof.
  refine (proj1 (waits_sound [Wait 1 (W_any T_moved); Receive (sample_event 1)] 1 (sample_event 1) _)).
  cbn. by apply list_elem_of_singleton.
Defined.

(** No event is lost: from any state of the client, a wait followed by the
    arrival of events of which one matches is resolved by then, whether it found
    an event in the store or was notified. *)
Theorem waits_complete c id k es :
  Exists (fun e => isMatch k e = true) es ->
  exists e, (id, Some e) ∈ settled (updates_run c (Wait id k :: (Receive <$> es))).
Proof.
  intros Hes. unfold updates_run. cbn [foldl updates_step].
  assert (E : forall c, foldl updates_step c (Receive <$> es) = foldl handleEvent c es).
  { clear. induction es as [|e es IH]; intros c; [done|]. cbn. apply IH. }
  rewrite E. destruct (wait_settles_or_listens c id k) as [[e He]|Hl].
  - exists e. by apply handleEvents_settled.
  - destruct (listener_delivered _ _ _ _ Hl Hes) as (e & H & _). by exists e.
Qed.

Lemma waits_complete_witness :
  exists e, (7%nat, Some e) ∈ settled (updates_run updates_init
    (Wait 7 W_move_or_complete :: (Receive <$> [sample_event 1]))).
Proof. apply waits_complete. by constructor. Defined.

Lemma take_event_app p es e :
  take_event p es = None -> p e = true -> take_event p (es ++ [e]) = Some (e, es).
Proof.
  induction es as [|x es IH]; cbn; [by intros _ ->|]. destruct (p x); [done|].
  destruct (take_event p es) as [[? ?]|]; [done|]. intros _ H. by rewrite IH.
Qed.

Lemma take_any_stored p m e :
  take_any p m = None -> p e = true ->
  exists m', take_any p (store_event m e) = Some (e, m').
Proof.
  intros Hm Hp. induction m as [|[s es] m IH]; cbn in *.
  - rewrite Hp. by eexists.
  - destruct (take_event p es) as [[? ?]|] eqn:E; [done|].
    destruct (take_any p m) as [[? ?]|]; [done|]. destruct (s =? ev_sessionId e); cbn.
    + rewrite take_event_app by done. by eexists.
    + rewrite E. destruct (IH eq_refl) as [m' ->]. by eexists.
Qed.

(** An event that resolves a waiting promise is not consumed: it stays in
    the store, so the next wait of the same kind is resolved at once with the
    same event.  A player's second move is thus answered with the result of the
    first one, before the chain has processed it. *)
Theorem stale_event_replayed c id1 id2 t e :
  take_any (isMatch (W_any t)) (pendingEvents c) = None -> ev_type e = t ->
  let c' := updates_run c [Wait id1 (W_any t); Receive e; Wait id2 (W_any t)] in
  (id1, Some e) ∈ settled c' /\ (id2, Some e) ∈ settled c'.
Proof.
  intros Hnone Ht. unfold updates_run. cbn [foldl updates_step].
  assert (Hm : isMatch (W_any t) e = true) by by apply bool_decide_eq_true_2.
  set (c1 := add_listener c id1 (W_any t)).
  assert (Hw : wait c id1 (W_any t) = c1) by
    (unfold wait; cbv zeta; change (pendingEvents (add_listener c id1 (W_any t))) with (pendingEvents c);
     by rewrite Hnone).
  rewrite Hw.
  assert (H1 : (id1, Some e) ∈ settled (handleEvent c1 e)).
  { cbn. rewrite elem_of_app. right. apply list_elem_of_fmap. exists (id1, W_any t). split; [done|].
    apply elem_of_filter_bool. split; [|done]. rewrite elem_of_app. right. by apply list_elem_of_singleton. }
  destruct (take_any_stored _ _ _ Hnone Hm) as [m' Hm'].
  unfold wait. cbv zeta.
  change (pendingEvents (add_listener (handleEvent c1 e) id2 (W_any t)))
    with (store_event (pendingEvents c) e).
  rewrite Hm'. cbn [settled settle set_pending off add_listener]. rewrite !elem_of_app. split.
  - left. exact H1.
  - right. by apply list_elem_of_singleton.
Qed.

Lemma stale_event_replayed_witness :
  (2%nat, Some (sample_event 1)) ∈ settled (updates_run updates_init
    [Wait 1 (W_any T_moved); Receive (sample_event 1); Wait 2 (W_any T_moved)]).
Proof. apply (stale_event_replayed updates_init 1 2 T_moved (sample_event 1)); reflexivity. Defined.
