(* ===== verification/Sessions.v ===== *)
(** * Sessions

    [gateway/src/types/session.ts] and [gateway/src/session/manager.ts]: the
    session of a connected player, the submission of its transactions with one
    retry after a nonce mismatch ([backend/http.ts]), and the session manager.

    The clock, random keys and the answers of the backend are inputs.  A
    callback of [withLock] is one step here; its interleavings are the subject
    of [Nonce]. *)

From stdpp Require Import pretty.
From S2P Require Import Prelude JsNum Bytes Constants Transactions Instructions Nonce Updates.

(** ** The session *)

Record Identity := {
  id_id : string;
  id_ws : string;
  id_publicKey : Uint8Array;
  id_privateKey : Uint8Array;
  id_publicKeyHex : string;
  id_playerName : string
}.

Record Account := {
  ac_registered : bool;
  ac_hasBalance : bool;
  ac_balance : Z;
  ac_lastFaucetAt : Z
}.

Record GameInfo := {
  gi_activeGameId : option Z;
  gi_gameType : option Z;
  gi_gameSessionCounter : Z;
  gi_lastGameBet : option Z;
  gi_lastGameStartChips : option Z;
  gi_lastGameStartedAt : option Z
}.

(** The two updates clients; [st_next] numbers the waits on them. *)
Record Streams := {
  st_account : option UpdatesClient;
  st_session : option (Z * UpdatesClient);
  st_next : nat
}.

Record Session := {
  se_identity : Identity;
  se_account : Account;
  se_game : GameInfo;
  se_streams : Streams;
  se_lastActivityAt : Z
}.

Definition with_account (s : Session) (a : Account) : Session :=
  {| se_identity := se_identity s; se_account := a; se_game := se_game s; se_streams := se_streams s;
     se_lastActivityAt := se_lastActivityAt s |}.
Definition with_game (s : Session) (g : GameInfo) : Session :=
  {| se_identity := se_identity s; se_account := se_account s; se_game := g; se_streams := se_streams s;
     se_lastActivityAt := se_lastActivityAt s |}.
Definition with_streams (s : Session) (st : Streams) : Session :=
  {| se_identity := se_identity s; se_account := se_account s; se_game := se_game s; se_streams := st;
     se_lastActivityAt := se_lastActivityAt s |}.
Definition with_activity (s : Session) (now : Z) : Session :=
  {| se_identity := se_identity s; se_account := se_account s; se_game := se_game s;
     se_streams := se_streams s; se_lastActivityAt := now |}.

Definition publicKeyHex (s : Session) : string := id_publicKeyHex (se_identity s).
Definition balance (s : Session) : Z := ac_balance (se_account s).
Definition registered (s : Session) : bool := ac_registered (se_account s).
Definition activeGameId (s : Session) : option Z := gi_activeGameId (se_game s).

Definition set_balance (s : Session) (b : Z) : Session :=
  with_account s {| ac_registered := registered s; ac_hasBalance := ac_hasBalance (se_account s);
                    ac_balance := b; ac_lastFaucetAt := ac_lastFaucetAt (se_account s) |}.

Definition set_active (s : Session) (id gameType : option Z) : Session :=
  let g := se_game s in
  with_game s {| gi_activeGameId := id; gi_gameType := gameType;
                 gi_gameSessionCounter := gi_gameSessionCounter g; gi_lastGameBet := gi_lastGameBet g;
                 gi_lastGameStartChips := gi_lastGameStartChips g;
                 gi_lastGameStartedAt := gi_lastGameStartedAt g |}.

(** ** Submissions *)

Record SubmitResult := { accepted : bool; sr_error : option string }.

(** The answers of the backend to one submission with its retry: the first
    answer, the nonce of the account endpoint, the answer to the retry. *)
Record Answers := { an_submit : SubmitResult; an_account : option Z; an_retry : SubmitResult }.

(** [SubmitClient.submit]: the result, and the body that goes out. *)
Definition submit (maxSubmissionBytes : option Z) (submission : Uint8Array) (answer : SubmitResult)
    : SubmitResult * list Uint8Array :=
  match maxSubmissionBytes with
  | Some m =>
      if m <? len submission then
        ({| accepted := false;
            sr_error := Some ("Submission too large (" +:+ pretty (len submission) +:+ " > "
                              +:+ pretty m +:+ " bytes)") |}, [])
      else (answer, [submission])
  | None => (answer, [submission])
  end.

(** The callback that [registerPlayer], [depositChips], [startGame], [makeMove]
    and [submitInstruction] share: build and submit with the current nonce; when
    the error is about the nonce, synchronise and submit once more.  The result
    is the new nonce state, the bodies sent, and the nonce that was accepted or
    the error. *)
Definition submitWithRetry `{Crypto} (maxBytes : option Z) (m : NonceManager) (key : string)
    (sk instruction : Uint8Array) (an : Answers)
    : result (NonceManager * list Uint8Array * (Z + option string)) :=
  let nonce := getCurrentNonce m key in
  tx ← buildTransaction nonce instruction sk;
  submission ← wrapSubmission tx;
  let '(r, sent) := submit maxBytes submission (an_submit an) in
  if accepted r then Ok (setCurrentNonce m key (nonce + 1), sent, inl nonce)
  else
    let '(resync, m) :=
      match sr_error r with
      | Some e => if bool_decide (e = EmptyString) then (false, m) else handleRejection m key e
      | None => (false, m)
      end in
    if negb resync then Ok (m, sent, inr (sr_error r))
    else
      let '(synced, m) := syncFromBackend m key (an_account an) in
      if negb synced then Ok (m, sent, inr (sr_error r))
      else
        let retryNonce := getCurrentNonce m key in
        retryTx ← buildTransaction retryNonce instruction sk;
        retrySubmission ← wrapSubmission retryTx;
        let '(r', sent') := submit maxBytes retrySubmission (an_retry an) in
        if accepted r' then Ok (setCurrentNonce m key (retryNonce + 1), sent ++ sent', inl retryNonce)
        else Ok (m, sent ++ sent', inr (sr_error r)).

(** ** Registration and deposits *)

Definition registerPlayer `{Crypto} (maxBytes : option Z) (m : NonceManager) (s : Session) (an : Answers)
    : result (NonceManager * Session * list Uint8Array * bool) :=
  instruction ← encodeCasinoRegister (id_playerName (se_identity s));
  '(m, sent, r) ← submitWithRetry maxBytes m (publicKeyHex s) (id_privateKey (se_identity s)) instruction an;
  match r with
  | inl _ =>
      let a := se_account s in
      Ok (m, with_account s {| ac_registered := true; ac_hasBalance := ac_hasBalance a;
                               ac_balance := ac_balance a; ac_lastFaucetAt := ac_lastFaucetAt a |},
          sent, true)
  | inr _ => Ok (m, s, sent, false)
  end.

Definition depositChips `{Crypto} (maxBytes : option Z) (m : NonceManager) (s : Session) (amount : Z)
    (an : Answers) : result (NonceManager * Session * list Uint8Array * bool) :=
  instruction ← encodeCasinoDeposit amount;
  '(m, sent, r) ← submitWithRetry maxBytes m (publicKeyHex s) (id_privateKey (se_identity s)) instruction an;
  match r with
  | inl _ =>
      let a := se_account s in
      Ok (m, with_account s {| ac_registered := ac_registered a; ac_hasBalance := true;
                               ac_balance := ac_balance a + amount; ac_lastFaucetAt := ac_lastFaucetAt a |},
          sent, true)
  | inr _ => Ok (m, s, sent, false)
  end.

(** [requestFaucet] up to the deposit: the seconds left, or the time of the
    claim. *)
Definition faucetGuard (now : Z) (s : Session) (cooldownMs : Z) : Z + Z :=
  let lastClaim := ac_lastFaucetAt (se_account s) in
  if now - lastClaim <? cooldownMs then inl (- ((- (cooldownMs - (now - lastClaim))) / 1000))
  else inr now.

(** What follows the guard. *)
Definition faucetDeposit `{Crypto} (maxBytes : option Z) (m : NonceManager) (s : Session) (amount now : Z)
    (an : Answers) : result (NonceManager * Session * list Uint8Array * bool) :=
  '(m, s, sent, ok) ← depositChips maxBytes m s amount an;
  if (ok : bool) then
    let a := se_account s in
    Ok (m, with_account s {| ac_registered := ac_registered a; ac_hasBalance := ac_hasBalance a;
                             ac_balance := ac_balance a; ac_lastFaucetAt := now |}, sent, true)
  else Ok (m, s, sent, false).

Inductive FaucetResult := Faucet_ok | Faucet_cooling (seconds : Z) | Faucet_rejected.

Definition requestFaucet `{Crypto} (maxBytes : option Z) (now : Z) (m : NonceManager) (s : Session)
    (amount cooldownMs : Z) (an : Answers)
    : result (NonceManager * Session * list Uint8Array * FaucetResult) :=
  match faucetGuard now s cooldownMs with
  | inl seconds => Ok (m, s, [], Faucet_cooling seconds)
  | inr now =>
      '(m, s, sent, ok) ← faucetDeposit maxBytes m s amount now an;
      Ok (m, s, sent, if (ok : bool) then Faucet_ok else Faucet_rejected)
  end.

(** [initializePlayer]: [connected] tells whether the updates stream opened. *)
Definition initializePlayer `{Crypto} (maxBytes : option Z) (m : NonceManager) (s : Session)
    (connected : bool) (an : Answers) : NonceManager * Session * list Uint8Array :=
  let st := se_streams s in
  let s := if connected
           then with_streams s {| st_account := Some updates_init; st_session := st_session st;
                                  st_next := st_next st |}
           else s in
  match registerPlayer maxBytes m s an with
  | Throw _ => (m, s, [])
  | Ok (m, s, sent, false) => (m, s, sent)
  | Ok (m, s, sent, true) =>
      let a := se_account s in
      (m, with_account s {| ac_registered := ac_registered a; ac_hasBalance := true;
                            ac_balance := CASINO_INITIAL_CHIPS; ac_lastFaucetAt := ac_lastFaucetAt a |},
       sent)
  end.

(** ** The manager *)

Record SessionCreateLimit := { rl_points : Z; rl_durationMs : Z; rl_blockMs : Z }.

(** The defaults of [SESSION_CREATE_LIMIT]. *)
Definition SESSION_CREATE_LIMIT : SessionCreateLimit :=
  {| rl_points := 10; rl_durationMs := 3600000; rl_blockMs := 3600000 |}.

Record Attempts := { at_count : Z; at_windowStart : Z; at_blockedUntil : Z }.

Abbreviation AttemptMap := (gmap string Attempts).

(** The new table, and whether the attempt passes (or throws). *)
Definition enforceSessionRateLimit (c : SessionCreateLimit) (now : Z) (t : AttemptMap) (clientIp : string)
    : AttemptMap * bool :=
  let fresh := {| at_count := 0; at_windowStart := now; at_blockedUntil := 0 |} in
  let record := default fresh (t !! clientIp) in
  if bool_decide (is_Some (t !! clientIp)) && (now <? at_blockedUntil record) then (t, false)
  else
    let record := if rl_durationMs c <? now - at_windowStart record
                  then {| at_count := 0; at_windowStart := now; at_blockedUntil := at_blockedUntil record |}
                  else record in
    let record := {| at_count := at_count record + 1; at_windowStart := at_windowStart record;
                     at_blockedUntil := at_blockedUntil record |} in
    if rl_points c <? at_count record then
      (<[clientIp := {| at_count := at_count record; at_windowStart := at_windowStart record;
                        at_blockedUntil := now + rl_blockMs c |}]> t, false)
    else (<[clientIp := record]> t, true).

(** [byPublicKey] holds the sessions of [sessions]; here it gives their socket. *)
Record SessionManager := {
  sm_sessions : gmap string Session;
  sm_byPublicKey : gmap string string;
  sm_attempts : AttemptMap
}.

Definition manager_init : SessionManager := {| sm_sessions := ∅; sm_byPublicKey := ∅; sm_attempts := ∅ |}.

(** [generatePrivateKey] on the three keys the generator draws. *)
Definition weakKey (k : Uint8Array) : bool :=
  forallb (fun b => b2z b =? 0) k || forallb (fun b => b2z b =? default 0 (elem k 0)) k.

Fixpoint generatePrivateKey (drawn : list Uint8Array) : result Uint8Array :=
  match drawn with
  | [] => Throw "Insufficient entropy detected for session key generation"
  | k :: drawn' => if weakKey k then generatePrivateKey drawn' else Ok k
  end.

(** The [do ... while] of [createSession]; an element of [draws] is what one
    call of the generator draws. *)
Fixpoint generateKeys `{Crypto} (byPublicKey : gmap string string) (draws : list (list Uint8Array))
    : result (Uint8Array * Uint8Array * string) :=
  match draws with
  | [] => Throw "Failed to generate unique session key"
  | drawn :: draws' =>
      privateKey ← generatePrivateKey (take 3 drawn);
      publicKey ← getPublicKey privateKey;
      let hex := to_hex publicKey in
      if bool_decide (is_Some (byPublicKey !! hex)) then generateKeys byPublicKey draws'
      else Ok (privateKey, publicKey, hex)
  end.

(** [createSession] up to [initializePlayer]. *)
Definition createSession `{Crypto} (c : SessionCreateLimit) (now : Z) (sm : SessionManager)
    (ws uuid : string) (playerName : option string) (clientIp : string) (draws : list (list Uint8Array))
    : SessionManager * result Session :=
  let '(attempts, allowed) := enforceSessionRateLimit c now (sm_attempts sm) clientIp in
  let sm := {| sm_sessions := sm_sessions sm; sm_byPublicKey := sm_byPublicKey sm; sm_attempts := attempts |} in
  if negb allowed then (sm, Throw "Session creation rate limit exceeded")
  else
    match generateKeys (sm_byPublicKey sm) (take 3 draws) with
    | Throw e => (sm, Throw e)
    | Ok (privateKey, publicKey, hex) =>
        let session := {|
          se_identity := {| id_id := uuid; id_ws := ws; id_publicKey := publicKey; id_privateKey := privateKey;
                            id_publicKeyHex := hex;
                            id_playerName := default ("Player_" +:+ String.substring 0 8 hex) playerName |};
          se_account := {| ac_registered := false; ac_hasBalance := false; ac_balance := 0; ac_lastFaucetAt := 0 |};
          se_game := {| gi_activeGameId := None; gi_gameType := None; gi_gameSessionCounter := 0;
                        gi_lastGameBet := None; gi_lastGameStartChips := None; gi_lastGameStartedAt := None |};
          se_streams := {| st_account := None; st_session := None; st_next := 0 |};
          se_lastActivityAt := now |} in
        ({| sm_sessions := <[ws := session]> (sm_sessions sm);
            sm_byPublicKey := <[hex := ws]> (sm_byPublicKey sm);
            sm_attempts := sm_attempts sm |}, Ok session)
    end.

Definition getSession (sm : SessionManager) (ws : string) : option Session := sm_sessions sm !! ws.

Definition getSessionByPublicKeyHex (sm : SessionManager) (hex : string) : option Session :=
  ws ← sm_byPublicKey sm !! hex; sm_sessions sm !! ws.

Definition getSessionByPublicKey (sm : SessionManager) (publicKey : Uint8Array) : option Session :=
  getSessionByPublicKeyHex sm (to_hex publicKey).

Definition destroySession (sm : SessionManager) (ws : string) : SessionManager :=
  match sm_sessions sm !! ws with
  | None => sm
  | Some session =>
      {| sm_sessions := delete ws (sm_sessions sm);
         sm_byPublicKey := delete (publicKeyHex session) (sm_byPublicKey sm);
         sm_attempts := sm_attempts sm |}
  end.

(** What a handler does to the session object of a socket. *)
Definition updateSession (sm : SessionManager) (ws : string) (f : Session -> Session) : SessionManager :=
  {| sm_sessions := alter f ws (sm_sessions sm); sm_byPublicKey := sm_byPublicKey sm;
     sm_attempts := sm_attempts sm |}.

Definition idle (now maxIdleMs : Z) (s : Session) : bool := maxIdleMs <? now - se_lastActivityAt s.

Definition cleanupIdleSessions (now maxIdleMs : Z) (sm : SessionManager) : SessionManager * Z :=
  foldl (fun '(sm, cleaned) '(ws, session) =>
      if idle now maxIdleMs session then (destroySession sm ws, cleaned + 1) else (sm, cleaned))
    (sm, 0) (map_to_list (sm_sessions sm)).

Definition touchSession (now : Z) (s : Session) : Session := with_activity s now.

Definition startGame `{Crypto} (now : Z) (s : Session) (gameType : Z) : result (Session * Z) :=
  gameId ← generateSessionId (id_publicKey (se_identity s)) (gi_gameSessionCounter (se_game s));
  let g := se_game s in
  Ok (with_activity (with_game s
        {| gi_activeGameId := Some gameId; gi_gameType := Some gameType;
           gi_gameSessionCounter := gi_gameSessionCounter g + 1; gi_lastGameBet := gi_lastGameBet g;
           gi_lastGameStartChips := gi_lastGameStartChips g;
           gi_lastGameStartedAt := gi_lastGameStartedAt g |}) now, gameId).

Definition endGame (now : Z) (s : Session) : Session := with_activity (set_active s None None) now.

(** [refreshBalance] with the account the backend reports. *)
Definition refreshBalance (s : Session) (account : option Z) : Session :=
  match account with
  | None => s
  | Some b => set_balance s b
  end.
