(* ===== verification/SessionsCorrect.v ===== *)
(** * Correctness of the sessions

    The submissions and their nonces, the rate limit of new sessions, the two
    indexes of the manager, and the faucet. *)

From Stdlib Require Import Sorting.Sorted.
From S2P Require Import Prelude JsNum Bytes Reader BinaryReader Constants Transactions Instructions Nonce Updates Sessions.

(** ** Submissions *)

Section Submissions.
Context `{C : Crypto} {L : CryptoLaws C}.
Context (maxBytes : option Z) (key : string) (sk pk instruction : Uint8Array).
Context (Hpk : getPublicKey sk = Ok pk).

(** The transaction with a nonce, and its submission body. *)
Definition tx_of (n : Z) : Uint8Array := catch (buildTransaction n instruction sk) [].
Definition body_of (n : Z) : Uint8Array := catch (wrapSubmission (tx_of n)) [].

(** The nonce after a synchronisation that reported [onChain]. *)
Definition synced_nonce (current onChain : Z) : Z :=
  if (0 <? current) && (onChain =? 0) then current else onChain.

Lemma tx_of_ok n : buildTransaction n instruction sk = Ok (tx_of n).
Proof.
  unfold tx_of. destruct (sign_total (signed_bytes n instruction) sk pk Hpk) as [s Hs].
  by rewrite (buildTransaction_layout n instruction sk pk s Hpk Hs).
Qed.

Lemma body_of_ok n : wrapSubmission (tx_of n) = Ok (body_of n).
Proof. unfold body_of. by rewrite wrapSubmission_layout. Qed.

(** The retry is due: the first submission is refused over its nonce and the
    backend reports the account's nonce. *)
Definition retry_due (m : NonceManager) (an : Answers) : option Z :=
  match (submit maxBytes (body_of (getCurrentNonce m key)) (an_submit an)).1, an_account an with
  | {| accepted := false; sr_error := Some e |}, Some onChain =>
      if isNonceMismatch e then Some (synced_nonce (getCurrentNonce m key) onChain) else None
  | _, _ => None
  end.

Lemma isNonceMismatch_empty : isNonceMismatch EmptyString = false.
Proof. reflexivity. Qed.

Lemma current_sync m onChain :
  getCurrentNonce (syncFromBackend m key (Some onChain)).2 key = synced_nonce (getCurrentNonce m key) onChain.
Proof.
  unfold getCurrentNonce, syncFromBackend, synced_nonce. cbn [snd nonces].
  destruct (nonces m !! key) as [c|] eqn:E; cbn [default id].
  - destruct ((0 <? c) && (onChain =? 0)); [by rewrite E|by rewrite lookup_insert_eq].
  - by rewrite lookup_insert_eq.
Qed.

(** Nothing but the entries of this key changes. *)
Definition others_same (m m' : NonceManager) : Prop :=
  forall k, k <> key -> nonces m' !! k = nonces m !! k /\ pending m' !! k = pending m !! k.

Lemma others_set m n : others_same m (setCurrentNonce m key n).
Proof. intros k Hk. cbn. by rewrite lookup_insert_ne by congruence. Qed.

Lemma others_reject m e : others_same m (handleRejection m key e).2.
Proof. intros k Hk. unfold handleRejection. split_if; cbn; [|done]. by rewrite lookup_delete_ne by congruence. Qed.

Lemma others_sync m a : others_same m (syncFromBackend m key a).2.
Proof.
  intros k Hk. unfold syncFromBackend. destruct a; cbn; [|done].
  rewrite lookup_delete_ne by congruence. split; [|done]. split_if; [done|by rewrite lookup_insert_ne by congruence].
Qed.

Lemma others_trans m m' m'' : others_same m m' -> others_same m' m'' -> others_same m m''.
Proof. intros H1 H2 k Hk. destruct (H1 k Hk), (H2 k Hk). split; congruence. Qed.

Lemma reject_current m e : getCurrentNonce (handleRejection m key e).2 key = getCurrentNonce m key.
Proof. unfold handleRejection. by split_if. Qed.

(** C10. A submission and its retry, whatever the backend answers: the body that
    goes out first carries the current nonce; a second one goes out exactly when
    the first was refused over its nonce and the account's nonce could be
    fetched, and it carries that nonce (or the local one, when the backend
    reports a reset to 0); there is never a third.  When a submission is
    accepted, the next nonce is the one it carried plus one, and no other key's
    nonces change. *)
Theorem submissions_disciplined m an :
  exists m' sent r, submitWithRetry maxBytes m key sk instruction an = Ok (m', sent, r)
  /\ sent = (submit maxBytes (body_of (getCurrentNonce m key)) (an_submit an)).2
       ++ match retry_due m an with
          | Some n => (submit maxBytes (body_of n) (an_retry an)).2
          | None => []
          end
  /\ match r with
     | inl n => getCurrentNonce m' key = n + 1
         /\ (n = getCurrentNonce m key \/ retry_due m an = Some n) /\ body_of n ∈ sent
     | inr _ => retry_due m an = None -> getCurrentNonce m' key = getCurrentNonce m key
     end
  /\ others_same m m'.
Proof.
  unfold submitWithRetry. rewrite tx_of_ok. cbn [mbind result_bind]. rewrite body_of_ok. cbn [mbind result_bind].
  unfold retry_due. set (n0 := getCurrentNonce m key).
  assert (Hsub : forall b a, accepted (submit maxBytes b a).1 = true -> b ∈ (submit maxBytes b a).2).
  { intros b a. unfold submit. destruct maxBytes; [split_if; [done|]|]; intros _; apply list_elem_of_singleton; done. }
  pose proof (Hsub (body_of n0) (an_submit an)) as Hs0.
  destruct (submit maxBytes (body_of n0) (an_submit an)) as [[acc e] sent]. cbn [fst snd accepted sr_error] in *.
  destruct acc.
  - do 3 eexists. split; [reflexivity|]. rewrite app_nil_r. split; [done|]. split; [|apply others_set].
    split; [unfold getCurrentNonce; cbn; by rewrite lookup_insert_eq|]. split; [by left|by apply Hs0].
  - set (hr := match e with Some e => _ | None => _ end).
    assert (Hr : hr = match e with Some e => handleRejection m key e | None => (false, m) end).
    { unfold hr. destruct e as [e|]; [|done]. case_bool_decide; [subst|done].
      unfold handleRejection. by rewrite isNonceMismatch_empty. }
    clearbody hr. subst hr. destruct e as [e|]; cbn [negb].
    2: { do 3 eexists. split; [reflexivity|]. rewrite app_nil_r. done. }
    pose proof (others_reject m e) as Ho1. pose proof (reject_current m e) as Hc1.
    unfold handleRejection in *. destruct (isNonceMismatch e); cbn [negb snd] in *.
    2: { do 3 eexists. split; [reflexivity|]. destruct (an_account an); rewrite app_nil_r; done. }
    set (m1 := {| nonces := _ |}) in *. pose proof (others_sync m1 (an_account an)) as Ho2.
    destruct (an_account an) as [onChain|]; [|cbn; do 3 eexists; split; [reflexivity|]; by rewrite app_nil_r].
    pose proof (current_sync m1 onChain) as Hc2. rewrite Hc1 in Hc2. fold n0 in Hc2.
    destruct (syncFromBackend m1 key (Some onChain)) as [b m2] eqn:Es. cbn [snd] in *.
    assert (b = true) as -> by (unfold syncFromBackend in Es; congruence). cbn [negb].
    set (n1 := synced_nonce n0 onChain) in *. rewrite Hc2, tx_of_ok. cbn [mbind result_bind]. rewrite body_of_ok.
    cbn [mbind result_bind]. pose proof (Hsub (body_of n1) (an_retry an)) as Hs1.
    destruct (submit maxBytes (body_of n1) (an_retry an)) as [[acc' e'] sent']. cbn [fst snd accepted] in *.
    pose proof (others_trans _ _ _ Ho1 Ho2) as Ho. destruct acc'; do 3 eexists; (split; [reflexivity|]).
    + split; [done|]. split; [|eapply others_trans; [exact Ho|apply others_set]].
      split; [unfold getCurrentNonce; cbn; by rewrite lookup_insert_eq|]. split; [by right|].
      apply elem_of_app. right. by apply Hs1.
    + split; [done|]. split; [done|exact Ho].
Qed.
End Submissions.

Definition sample_key : Uint8Array := u8array [1] ++ zeros 31.

(** A nonce mismatch, a synchronisation to 7, and an accepted retry. *)
Definition sample_answers : Answers :=
  {| an_submit := {| accepted := false; sr_error := Some "InvalidNonce" |}; an_account := Some 7;
     an_retry := {| accepted := true; sr_error := None |} |}.

Lemma submissions_disciplined_witness :
  retry_due (C := toy_crypto) None "aa" sample_key [z2b 11] (setCurrentNonce nonce_init "aa" 3) sample_answers
    = Some 7
  /\ exists m' sent r,
    submitWithRetry (H := toy_crypto) None (setCurrentNonce nonce_init "aa" 3) "aa" sample_key [z2b 11]
      sample_answers = Ok (m', sent, r).
Proof.
  split; [vm_compute; reflexivity|].
  destruct (submissions_disciplined (C := toy_crypto) (L := toy_crypto_laws) None "aa" sample_key sample_key
    [z2b 11] ltac:(by vm_compute) (setCurrentNonce nonce_init "aa" 3) sample_answers)
    as (m' & sent & r & H & _). by exists m', sent, r.
Defined.

(** ** The rate limit *)

(** The times at which an address passes, along a list of attempts. *)
Fixpoint passes (c : SessionCreateLimit) (t : AttemptMap) (ip : string) (l : list (Z * string)) : list Z :=
  match l with
  | [] => []
  | (now, ip') :: l' =>
      let '(t', ok) := enforceSessionRateLimit c now t ip' in
      (if ok && bool_decide (ip' = ip) then [now] else []) ++ passes c t' ip l'
  end.

(** How many of the times are in an interval. *)
Definition count_in (a b : Z) (l : list Z) : Z := len (List.filter (fun x => (a <=? x) && (x <=? b)) l).

Section RateLimit.
Context (c : SessionCreateLimit) (ip : string) (a : Z).
Context (Hpoints : 0 <= rl_points c).

(** What can still pass in the interval of one window length from [a] on. *)
Definition allowance (r : option Attempts) : Z :=
  match r with
  | None => 2 * rl_points c
  | Some r =>
      let rem := Z.max 0 (rl_points c - at_count r) in
      if a + rl_durationMs c <? at_windowStart r then 0
      else if a <=? at_windowStart r then rem
      else if a <=? at_windowStart r + rl_durationMs c then rem + rl_points c
      else 2 * rl_points c
  end.

Lemma enforce_other now ip' t t' ok :
  ip' <> ip -> enforceSessionRateLimit c now t ip' = (t', ok) -> t' !! ip = t !! ip.
Proof.
  intros Hne. unfold enforceSessionRateLimit. repeat split_if; intros [= <- _]; try done;
    by rewrite lookup_insert_ne by congruence.
Qed.

(** The record of the address, if there is one, has a count and was begun
    before. *)
Definition record_ok (now : Z) (r : option Attempts) : Prop :=
  forall r', r = Some r' -> 0 <= at_count r' /\ at_windowStart r' <= now.

Lemma enforce_allowance now t t' ok :
  record_ok now (t !! ip) ->
  enforceSessionRateLimit c now t ip = (t', ok) ->
  record_ok now (t' !! ip)
  /\ (if ok && (a <=? now) && (now <=? a + rl_durationMs c) then 1 else 0) + allowance (t' !! ip)
     <= allowance (t !! ip).
Proof.
  intros Hc. unfold enforceSessionRateLimit.
  set (fresh := {| at_count := 0; at_windowStart := now; at_blockedUntil := 0 |}).
  cbv zeta. destruct (bool_decide _ && _) eqn:Eb; [intros [= <- <-]; split; [done|cbn; lia]|]. clear Eb.
  unfold allowance at 2. destruct (t !! ip) as [[k w b]|] eqn:E; cbn [default id];
    [specialize (Hc _ eq_refl)|]; cbn [at_count at_windowStart at_blockedUntil fresh] in *;
    (match goal with |- context [rl_durationMs c <? ?y] => destruct (rl_durationMs c <? y) eqn:Ed end);
    bprop; cbn [at_count at_windowStart at_blockedUntil];
    destruct (rl_points c <? _) eqn:Ep; bprop; intros [= <- <-]; rewrite lookup_insert_eq;
    (split; [intros r [= <-]; cbn; lia|]); unfold allowance; cbn [at_count at_windowStart andb];
    subst fresh;
    cbn [at_count] in *; repeat split_if; bprop; lia.
Qed.

Lemma passes_bound l t :
  StronglySorted (fun x y => x.1 <= y.1) l ->
  (forall x, x ∈ l -> record_ok x.1 (t !! ip)) ->
  count_in a (a + rl_durationMs c) (passes c t ip l) <= allowance (t !! ip).
Proof.
  revert t. induction l as [|[now ip'] l IH]; intros t Hs Ht; cbn [passes].
  - change (count_in _ _ []) with 0. unfold allowance. destruct (t !! ip) as [[k w b]|]; repeat split_if; lia.
  - apply StronglySorted_inv in Hs as [Hs Hl].
    assert (Hlater : forall x, x ∈ l -> now <= x.1).
    { intros x Hx. rewrite List.Forall_forall in Hl. apply (Hl x). by apply list_elem_of_In. }
    destruct (enforceSessionRateLimit c now t ip') as [t' ok] eqn:E.
    unfold count_in. rewrite List.filter_app, len_app. fold (count_in a (a + rl_durationMs c) (passes c t' ip l)).
    destruct (decide (ip' = ip)) as [->|Hne].
    + rewrite bool_decide_eq_true_2, andb_true_r by done.
      pose proof (Ht (now, ip) ltac:(left)) as Hr. cbn [fst] in Hr.
      destruct (enforce_allowance now t t' ok Hr E) as [Hr' Hb].
      assert (count_in a (a + rl_durationMs c) (passes c t' ip l) <= allowance (t' !! ip)).
      { apply IH; [done|]. intros x Hx r Hr0. destruct (Hr' r Hr0). specialize (Hlater x Hx). lia. }
      destruct ok; cbn [andb List.filter] in *; [destruct ((a <=? now) && (now <=? a + rl_durationMs c))|];
        cbn [andb len length] in *; unfold len in *; cbn [length] in *; lia.
    + rewrite bool_decide_eq_false_2, andb_false_r by done. cbn [List.filter].
      assert (count_in a (a + rl_durationMs c) (passes c t' ip l) <= allowance (t !! ip)).
      { rewrite <- (enforce_other now ip' t t' ok Hne E). apply IH; [done|]. intros x Hx.
        rewrite (enforce_other now ip' t t' ok Hne E). apply Ht. by right. }
      unfold len. cbn [length]. lia.
Qed.
End RateLimit.

(** The session rate limit: along any sequence of attempts from any
    addresses, with a clock that does not run backwards, no address gets more
    than twice the configured number of sessions in an interval of the
    configured window length, wherever the interval starts. *)
Theorem session_rate_limited c ip a l :
  0 <= rl_points c -> StronglySorted (fun x y => x.1 <= y.1) l ->
  count_in a (a + rl_durationMs c) (passes c ∅ ip l) <= 2 * rl_points c.
Proof.
  intros Hp Hl. pose proof (passes_bound c ip a Hp l ∅ Hl) as H. rewrite lookup_empty in H.
  apply H. intros x _ r Hr. done.
Qed.

Lemma session_rate_limited_witness :
  let c := {| rl_points := 2; rl_durationMs := 1000; rl_blockMs := 10 |} in
  let l := [(0, "a"); (1000, "a"); (1001, "a"); (1002, "a"); (1003, "a")] in
  passes c ∅ "a" l = [0; 1000; 1001; 1002]
  /\ count_in 5 (5 + rl_durationMs c) (passes c ∅ "a" l) <= 2 * rl_points c.
Proof.
  split; [vm_compute; reflexivity|]. apply (session_rate_limited _ "a" 5); [cbn; lia|].
  repeat constructor; cbn; lia.
Defined.

(** ** The indexes of the manager *)

Section Manager.
Context `{C : Crypto}.
Context (c : SessionCreateLimit).

(** The states the manager can be in: a socket creates one session, handlers
    change the session but not who it is, sockets close, idle ones are closed. *)
Inductive reachable : SessionManager -> Prop :=
| re_init : reachable manager_init
| re_create sm now ws uuid name ip draws :
    reachable sm -> sm_sessions sm !! ws = None ->
    reachable (createSession c now sm ws uuid name ip draws).1
| re_update sm ws f :
    reachable sm -> (forall s, se_identity (f s) = se_identity s) -> reachable (updateSession sm ws f)
| re_destroy sm ws : reachable sm -> reachable (destroySession sm ws)
| re_cleanup sm now maxIdleMs : reachable sm -> reachable (cleanupIdleSessions now maxIdleMs sm).1.

Definition indexed (sm : SessionManager) : Prop :=
  forall hex ws, sm_byPublicKey sm !! hex = Some ws
    <-> exists s, sm_sessions sm !! ws = Some s /\ publicKeyHex s = hex.

Lemma generateKeys_fresh byKey draws sk pk hex :
  generateKeys byKey draws = Ok (sk, pk, hex) -> byKey !! hex = None.
Proof.
  induction draws as [|drawn draws IH]; cbn [generateKeys]; [done|].
  destruct (generatePrivateKey (take 3 drawn)) as [k|]; [|done]. cbn [mbind result_bind].
  destruct (getPublicKey k) as [p|]; [|done]. cbn [mbind result_bind]. case_bool_decide as Hb; [done|].
  intros [= <- <- <-]. by apply eq_None_not_Some.
Qed.

Lemma indexed_destroy sm ws : indexed sm -> indexed (destroySession sm ws).
Proof.
  intros Hi. unfold destroySession. destruct (sm_sessions sm !! ws) as [s|] eqn:E; [|done].
  intros hex ws'. cbn. destruct (decide (ws' = ws)) as [->|Hw].
  - rewrite lookup_delete_eq. split; [|by intros (? & ? & _)]. intros Hh.
    destruct (decide (hex = publicKeyHex s)) as [->|Hne]; [by rewrite lookup_delete_eq in Hh|].
    rewrite lookup_delete_ne in Hh by congruence. apply Hi in Hh as (s' & E' & <-). congruence.
  - rewrite (lookup_delete_ne (sm_sessions sm)) by congruence. destruct (decide (hex = publicKeyHex s)) as [->|Hne].
    + rewrite lookup_delete_eq. split; [done|]. intros Hs. apply Hi in Hs.
      assert (sm_byPublicKey sm !! publicKeyHex s = Some ws) by (apply Hi; by exists s). congruence.
    + rewrite lookup_delete_ne by congruence. apply Hi.
Qed.

Lemma indexed_cleanup sm now maxIdleMs : indexed sm -> indexed (cleanupIdleSessions now maxIdleMs sm).1.
Proof.
  unfold cleanupIdleSessions. generalize (map_to_list (sm_sessions sm)) as l, 0 as n. intros l.
  revert sm. induction l as [|[ws s] l IH]; intros sm n Hi; cbn [foldl]; [exact Hi|].
  destruct (idle now maxIdleMs s); apply IH; [by apply indexed_destroy|exact Hi].
Qed.

Lemma indexed_update sm ws f :
  (forall s, se_identity (f s) = se_identity s) -> indexed sm -> indexed (updateSession sm ws f).
Proof.
  intros Hf Hi hex ws'. cbn. rewrite (Hi hex ws'). destruct (decide (ws' = ws)) as [->|Hne].
  - rewrite lookup_alter_eq. destruct (sm_sessions sm !! ws) as [s|] eqn:E; cbn.
    + split; intros (s' & [= <-] & <-); eexists; (split; [done|]); unfold publicKeyHex; by rewrite Hf.
    + split; by intros (? & ? & _).
  - by rewrite lookup_alter_ne by congruence.
Qed.

Lemma indexed_create sm now ws uuid name ip draws :
  sm_sessions sm !! ws = None -> indexed sm -> indexed (createSession c now sm ws uuid name ip draws).1.
Proof.
  intros Hws Hi. unfold createSession. destruct (enforceSessionRateLimit _ _ _ _) as [at' ok].
  destruct ok; cbn [negb]; [|exact Hi]. cbn [sm_sessions sm_byPublicKey sm_attempts].
  destruct (generateKeys (sm_byPublicKey sm) (take 3 draws)) as [[[sk pk] hex']|] eqn:E; [|exact Hi].
  apply generateKeys_fresh in E. cbn [fst]. set (s := {| se_identity := _ |}).
  intros hex ws'. cbn [sm_sessions sm_byPublicKey].
  assert (Hs : publicKeyHex s = hex') by done. clearbody s.
  destruct (decide (hex = hex')) as [->|Hne].
  - rewrite lookup_insert_eq. split.
    + intros [= <-]. exists s. by rewrite lookup_insert_eq.
    + intros (s' & E' & Hh). destruct (decide (ws' = ws)) as [->|Hw]; [done|].
      rewrite lookup_insert_ne in E' by congruence.
      assert (sm_byPublicKey sm !! hex' = Some ws') by (apply Hi; by exists s'). congruence.
  - rewrite lookup_insert_ne by congruence. rewrite (Hi hex ws'). destruct (decide (ws' = ws)) as [->|Hw].
    + rewrite lookup_insert_eq, Hws. split; [by intros (? & ? & _)|]. intros (s' & [= <-] & Hh). congruence.
    + by rewrite lookup_insert_ne by congruence.
Qed.

(** The two indexes of the session manager agree in every state it can
    reach: looking up a public key finds a session exactly when this session is
    the one of some open socket and has this key; no two sockets have sessions
    with the same key. *)
Theorem manager_indexed sm :
  reachable sm ->
  (forall hex s, getSessionByPublicKeyHex sm hex = Some s
     <-> exists ws, getSession sm ws = Some s /\ publicKeyHex s = hex)
  /\ (forall ws ws' s s', getSession sm ws = Some s -> getSession sm ws' = Some s' ->
       publicKeyHex s = publicKeyHex s' -> ws = ws').
Proof.
  intros Hr. assert (Hi : indexed sm).
  { induction Hr; [|by apply indexed_create|by apply indexed_update|by apply indexed_destroy|by apply indexed_cleanup].
    intros hex ws. cbn. rewrite !lookup_empty. split; [done|]. by intros (? & ? & _). }
  unfold getSession, getSessionByPublicKeyHex. split.
  - intros hex s. split.
    + intros H. apply bind_Some in H as (ws & Hws & Hs). apply Hi in Hws as (s' & E & Hh). exists ws.
      split; congruence.
    + intros (ws & E & Hh). assert (Hws : sm_byPublicKey sm !! hex = Some ws) by (apply Hi; by exists s).
      by rewrite Hws.
  - intros ws ws' s s' E E' Hk.
    assert (sm_byPublicKey sm !! publicKeyHex s = Some ws) by (apply Hi; by exists s).
    assert (sm_byPublicKey sm !! publicKeyHex s = Some ws') by (apply Hi; exists s'; by rewrite Hk). congruence.
Qed.
End Manager.

Lemma manager_indexed_witness :
  let sm := (createSession (H := toy_crypto) SESSION_CREATE_LIMIT 5 manager_init "ws" "uuid" None "ip"
               [[zeros 32; sample_key]]).1 in
  (exists s, getSession sm "ws" = Some s)
  /\ forall hex s, getSessionByPublicKeyHex sm hex = Some s
     <-> exists ws, getSession sm ws = Some s /\ publicKeyHex s = hex.
Proof.
  split; [eexists; vm_compute; reflexivity|].
  apply (manager_indexed (C := toy_crypto) SESSION_CREATE_LIMIT). apply re_create; [apply re_init|reflexivity].
Defined.

(** ** The faucet *)

(** The faucet's cooldown is checked before the deposit is awaited and
    recorded after it: a claim after a successful one is refused for the length
    of the cooldown, but two claims whose checks both come before the first
    deposit's answer both pass and both deposit, however close they are. *)
Theorem faucet_race `{Crypto} maxBytes m s amount cd now1 now2 an m1 s1 sent1 :
  faucetGuard now1 s cd = inr now1 ->
  faucetDeposit maxBytes m s amount now1 an = Ok (m1, s1, sent1, true) ->
  (forall now m' an', now < now1 + cd ->
     exists sec, requestFaucet maxBytes now m' s1 amount cd an' = Ok (m', s1, [], Faucet_cooling sec))
  /\ (faucetGuard now2 s cd = inr now2 ->
      forall m2 s2 sent2, faucetDeposit maxBytes m1 s1 amount now2 an = Ok (m2, s2, sent2, true) ->
        balance s2 = balance s + 2 * amount).
Proof.
  assert (D : forall m s now m' s' sent, faucetDeposit maxBytes m s amount now an = Ok (m', s', sent, true) ->
    balance s' = balance s + amount /\ ac_lastFaucetAt (se_account s') = now).
  { clear. intros m s now m' s' sent. unfold faucetDeposit, depositChips.
    destruct (encodeCasinoDeposit amount) as [ins|]; [|done]. cbn [mbind result_bind].
    destruct (submitWithRetry _ _ _ _ _ _) as [[[m0 sent0] [n|e]]|]; cbn [mbind result_bind]; [|done|done].
    intros [= <- <- <-]. done. }
  intros Hg Hd. destruct (D _ _ _ _ _ _ Hd) as [Hb Hl]. split.
  - intros now m' an' Hnow. unfold requestFaucet, faucetGuard. rewrite Hl.
    rewrite (proj2 (Z.ltb_lt (now - now1) cd)) by lia. by eexists.
  - intros _ m2 s2 sent2 Hd2. destruct (D _ _ _ _ _ _ Hd2) as [Hb2 _]. lia.
Qed.

Definition sample_session : Session := {|
  se_identity := {| id_id := "uuid"; id_ws := "ws"; id_publicKey := sample_key; id_privateKey := sample_key;
                    id_publicKeyHex := "aa"; id_playerName := "p" |};
  se_account := {| ac_registered := true; ac_hasBalance := true; ac_balance := 1000; ac_lastFaucetAt := 0 |};
  se_game := {| gi_activeGameId := None; gi_gameType := None; gi_gameSessionCounter := 0;
                gi_lastGameBet := None; gi_lastGameStartChips := None; gi_lastGameStartedAt := None |};
  se_streams := {| st_account := Some updates_init; st_session := None; st_next := 0 |};
  se_lastActivityAt := 0
|}.

(** The node takes every submission. *)
Definition all_accepted : Answers :=
  {| an_submit := {| accepted := true; sr_error := None |}; an_account := None;
     an_retry := {| accepted := false; sr_error := None |} |}.

(** The state after a claim. *)
Definition claimed (m : NonceManager) (s : Session) (now : Z) : NonceManager * Session * list Uint8Array * bool :=
  catch (faucetDeposit (H := toy_crypto) None m s 100 now all_accepted) (m, s, [], false).

Definition first_claim := claimed nonce_init sample_session 60000.
Definition second_claim := claimed first_claim.1.1.1 first_claim.1.1.2 60001.

Lemma faucet_race_witness :
  first_claim.2 = true /\ second_claim.2 = true
  /\ balance second_claim.1.1.2 = balance sample_session + 2 * 100.
Proof.
  split; [vm_compute; reflexivity|]. split; [vm_compute; reflexivity|].
  refine (proj2 (faucet_race (H := toy_crypto) None nonce_init sample_session 100 60000 60000 60001 all_accepted
    first_claim.1.1.1 first_claim.1.1.2 first_claim.1.2 _ _) _ second_claim.1.1.1 second_claim.1.1.2
    second_claim.1.2 _); vm_compute; reflexivity.
Defined.
