(* ===== verification/Handlers.v ===== *)
(** * The game handlers

    [gateway/src/handlers/]: [GameHandler] with [startGame] and [makeMove], which
    submit a transaction and wait for the event it causes, and the ten games'
    translations of a client's messages into them.

    A handler is a computation on the gateway's state that may throw; what it
    changed before it throws stays changed.  The answers of the backend and the
    events that arrive are inputs, one [Inputs] per submission.  A callback of
    [withLock] runs without interruption here, see [Nonce]. *)

From Stdlib Require Import QArith.QArith.
From stdpp Require Import pretty.
From S2P Require Import Prelude JsNum Bytes Constants Reader BinaryReader Events ProtocolEncode Transactions Instructions Nonce Updates Sessions.

#[local] Open Scope Z_scope.

(** ** Waiting for events *)

(** What reaches the two updates clients of a session. *)
Inductive stream_input :=
| SI_account (e : CasinoGameEvent)
| SI_session (e : CasinoGameEvent)
| SI_timer_account (id : nat)
| SI_timer_session (id : nat).

Definition on_account (st : Streams) (f : UpdatesClient -> UpdatesClient) : Streams :=
  {| st_account := f <$> st_account st; st_session := st_session st; st_next := st_next st |}.

Definition on_session (st : Streams) (f : UpdatesClient -> UpdatesClient) : Streams :=
  {| st_account := st_account st; st_session := prod_map id f <$> st_session st; st_next := st_next st |}.

Definition deliver (st : Streams) (i : stream_input) : Streams :=
  match i with
  | SI_account e => on_account st (fun c => handleEvent c e)
  | SI_session e => on_session st (fun c => handleEvent c e)
  | SI_timer_account id => on_account st (fun c => timeout c id)
  | SI_timer_session id => on_session st (fun c => timeout c id)
  end.

(** A fresh promise number. *)
Definition bump (st : Streams) : Streams :=
  {| st_account := st_account st; st_session := st_session st; st_next := S (st_next st) |}.

(** How a promise was settled: with an event, or with nothing for the [null] of
    a timeout. *)
Definition promise (c : option UpdatesClient) (id : nat) : option (option CasinoGameEvent) :=
  c ← c; snd <$> List.find (fun p => (p.1 =? id)%nat) (settled c).

(** Inputs arrive until the race is decided; when none is left the timers fire. *)
Fixpoint await (winner : Streams -> option (option CasinoGameEvent)) (expire : Streams -> Streams)
    (st : Streams) (arrivals : list stream_input) : option CasinoGameEvent * Streams :=
  match winner st with
  | Some r => (r, foldl deliver st arrivals)
  | None =>
      match arrivals with
      | [] => (None, expire st)
      | a :: arrivals' => await winner expire (deliver st a) arrivals'
      end
  end.

(** [waitForEvent(session, 'started')]. *)
Definition waitForEvent (st : Streams) (arrivals : list stream_input) : option CasinoGameEvent * Streams :=
  match st_account st with
  | None => (None, foldl deliver st arrivals)
  | Some _ =>
      let id := st_next st in
      let st := bump (on_account st (fun c => wait c id W_started_or_error)) in
      await (fun st => promise (st_account st) id) (fun st => deliver st (SI_timer_account id)) st arrivals
  end.

(** The first of the settled promises, in the order of the array. *)
Definition race (ps : list (option (option CasinoGameEvent))) : option (option CasinoGameEvent) :=
  head (omap id ps).

(** [waitForMoveOrComplete]: a move on the session's client (the account's when
    there is none), a completion and an error on the account's.  Without an
    account client the two latter promises are [null] from the start and win. *)
Definition waitForMoveOrComplete (st : Streams) (arrivals : list stream_input)
    : option CasinoGameEvent * Streams :=
  let i := st_next st in
  let wait_account id t := fun st => bump (on_account st (fun c => wait c id (W_any t))) in
  let wait_session id t := fun st => bump (on_session st (fun c => wait c id (W_any t))) in
  match st_account st, st_session st with
  | None, None => (None, foldl deliver st arrivals)
  | None, Some _ => (None, foldl deliver (wait_session i T_moved st) arrivals)
  | Some _, None =>
      let st := wait_account (S (S i)) T_error (wait_account (S i) T_completed (wait_account i T_moved st)) in
      await (fun st => race [promise (st_account st) i; promise (st_account st) (S i);
                             promise (st_account st) (S (S i))])
        (fun st => foldl deliver st [SI_timer_account i; SI_timer_account (S i); SI_timer_account (S (S i))])
        st arrivals
  | Some _, Some _ =>
      let st := wait_account (S (S i)) T_error (wait_account (S i) T_completed (wait_session i T_moved st)) in
      await (fun st => race [promise (snd <$> st_session st) i; promise (st_account st) (S i);
                             promise (st_account st) (S (S i))])
        (fun st => foldl deliver st [SI_timer_session i; SI_timer_account (S i); SI_timer_account (S (S i))])
        st arrivals
  end.

(** [connected] tells whether the new client connects. *)
Definition ensureSessionUpdatesClient (connected : bool) (sessionId : Z) (st : Streams) : Streams :=
  if sessionId =? 0 then st
  else
    match st_session st with
    | Some (sid, _) => if sid =? sessionId then st
                       else {| st_account := st_account st;
                               st_session := if connected then Some (sessionId, updates_init) else None;
                               st_next := st_next st |}
    | None => {| st_account := st_account st;
                 st_session := if connected then Some (sessionId, updates_init) else None;
                 st_next := st_next st |}
    end.

Definition clearSessionUpdatesClient (st : Streams) : Streams :=
  {| st_account := st_account st; st_session := None; st_next := st_next st |}.

(** ** Results *)

Inductive ErrorCode :=
| INVALID_MESSAGE | INVALID_GAME_TYPE | INVALID_BET | NO_ACTIVE_GAME | INSUFFICIENT_BALANCE | NOT_REGISTERED
| BACKEND_UNAVAILABLE | TRANSACTION_REJECTED | NONCE_MISMATCH | INTERNAL_ERROR
| SESSION_EXPIRED | GAME_IN_PROGRESS | REGISTRATION_FAILED.

(** The messages to the client.  The fields that [parseGameLog] reads from the
    first log are assigned over the others; here the log itself is kept. *)
Inductive Response :=
| Rs_game_started (gameType sessionId bet : Z) (initialState : option Uint8Array) (balance : option Z)
| Rs_game_move (sessionId moveNumber gameType : Z) (log : option string) (state : option Uint8Array)
    (balance : Z)
| Rs_game_result (sessionId payout finalChips gameType : Z) (won push : bool) (log : option string)
    (balance : Z)
| Rs_move_accepted (sessionId : Z)
| Rs_dealt (deal : Response) (gameType : Z) (sessionId : option Z) (bet : Q) (blind : option Q).

(** [{ success: false, error }] or [{ success: true, response }]. *)
Definition HandleResult : Type := ErrorCode * string + Response.

Definition non_empty (bs : Uint8Array) : option Uint8Array := if 0 <? len bs then Some bs else None.

Definition buildGameStartedResponse (e : CasinoGameEvent) (s : Session) (gameType sessionId bet : Z) : Response :=
  let b := if 0 <? balance s then Some (balance s) else None in
  match e with
  | Ev_started _ _ gt _ initialState => Rs_game_started gt sessionId bet (non_empty initialState) b
  | _ => Rs_game_started gameType sessionId bet None b
  end.

(** ** The computations of a handler *)

Record Inputs := {
  in_answers : Answers;
  in_before : list stream_input;
  in_during : list stream_input;
  in_connected : bool;
  in_now : Z
}.

(** Nothing answers. *)
Definition no_inputs : Inputs :=
  {| in_answers := {| an_submit := {| accepted := false; sr_error := Some "Request timeout" |};
                      an_account := None; an_retry := {| accepted := false; sr_error := None |} |};
     in_before := []; in_during := []; in_connected := false; in_now := 0 |}.

Record Gateway := {
  gw_maxBytes : option Z;
  gw_nonces : NonceManager;
  gw_session : Session;
  gw_sent : list Uint8Array;
  gw_inputs : list Inputs
}.

Definition Handler (A : Type) : Type := Gateway -> Gateway * result A.

#[export] Instance handler_ret : MRet Handler := fun A a g => (g, Ok a).

#[export] Instance handler_bind : MBind Handler := fun A B f m g =>
  match m g with
  | (g', Ok a) => f a g'
  | (g', Throw e) => (g', Throw e)
  end.

Definition lift_result {A} (r : result A) : Handler A := fun g => (g, r).
Definition get_session : Handler Session := fun g => (g, Ok (gw_session g)).
Definition put_session (s : Session) : Handler unit := fun g =>
  ({| gw_maxBytes := gw_maxBytes g; gw_nonces := gw_nonces g; gw_session := s; gw_sent := gw_sent g;
      gw_inputs := gw_inputs g |}, Ok tt).
Definition next_inputs : Handler Inputs := fun g =>
  ({| gw_maxBytes := gw_maxBytes g; gw_nonces := gw_nonces g; gw_session := gw_session g;
      gw_sent := gw_sent g; gw_inputs := tail (gw_inputs g) |}, Ok (default no_inputs (head (gw_inputs g)))).

(** The submission of an instruction for the session: the accepted nonce, or the
    error. *)
Definition submitInstruction `{Crypto} (instruction : Uint8Array) (an : Answers) : Handler (Z + option string) :=
  fun g =>
    let s := gw_session g in
    match submitWithRetry (gw_maxBytes g) (gw_nonces g) (publicKeyHex s) (id_privateKey (se_identity s))
            instruction an with
    | Throw e => (g, Throw e)
    | Ok (m, sent, r) =>
        ({| gw_maxBytes := gw_maxBytes g; gw_nonces := m; gw_session := s; gw_sent := gw_sent g ++ sent;
            gw_inputs := gw_inputs g |}, Ok r)
    end.

Definition fail (code : ErrorCode) (message : string) : Handler HandleResult := mret (inl (code, message)).

Definition rejected (error : option string) : Handler HandleResult :=
  fail TRANSACTION_REJECTED (default "Transaction rejected" error).

Definition message_or (message : string) (fallback : string) : string :=
  if bool_decide (message = EmptyString) then fallback else message.

Definition code_text (what : string) (code : Z) : string :=
  what +:+ " rejected (code " +:+ pretty code +:+ ")".

Definition set_last_game (s : Session) (bet now : Z) : Session :=
  let g := se_game s in
  with_game s {| gi_activeGameId := gi_activeGameId g; gi_gameType := gi_gameType g;
                 gi_gameSessionCounter := gi_gameSessionCounter g; gi_lastGameBet := Some bet;
                 gi_lastGameStartChips := Some (balance s); gi_lastGameStartedAt := Some now |}.

Section Games.
Context `{Crypto}.

(** ** [startGame] and [makeMove] *)

(** The callback of [startGame]. *)
Definition startBody (gameType bet gameSessionId : Z) (inp : Inputs) : Handler HandleResult :=
  instruction ← lift_result (encodeCasinoStartGame gameType bet gameSessionId);
  r ← submitInstruction instruction (in_answers inp);
  s ← get_session;
  let st := foldl deliver (se_streams s) (in_before inp) in
  match (r : Z + option string) with
  | inr error =>
      _ ← put_session (with_streams s (foldl deliver st (in_during inp)));
      rejected error
  | inl _ =>
      let s := set_active s (Some gameSessionId) (Some gameType) in
      let '(gameEvent, st) := waitForEvent st (in_during inp) in
      match gameEvent with
      | Some (Ev_error _ _ errorCode errorMessage) =>
          _ ← put_session (set_active (with_streams s st) None None);
          fail TRANSACTION_REJECTED (message_or errorMessage (code_text "Game" errorCode))
      | Some e =>
          let id := if ev_sessionId e =? 0 then gameSessionId else ev_sessionId e in
          let s := set_active s (Some id) (Some gameType) in
          let s := with_streams s (ensureSessionUpdatesClient (in_connected inp) id st) in
          let s := set_last_game s bet (in_now inp) in
          _ ← put_session s;
          mret (inr (buildGameStartedResponse e s gameType id bet))
      | None =>
          let s := with_streams s (ensureSessionUpdatesClient (in_connected inp) gameSessionId st) in
          let s := set_last_game s bet (in_now inp) in
          _ ← put_session s;
          mret (inr (Rs_game_started gameType gameSessionId bet None (Some (balance s))))
      end
  end.

Definition startGame (gameType bet gameSessionId : Z) : Handler HandleResult :=
  s ← get_session;
  if bool_decide (is_Some (activeGameId s)) then fail GAME_IN_PROGRESS "A game is already in progress"
  else if negb (registered s) then fail NOT_REGISTERED "Player not registered"
  else inp ← next_inputs; startBody gameType bet gameSessionId inp.

(** The callback of [makeMove]. *)
Definition moveBody (gameType gameSessionId : Z) (payload : Uint8Array) (inp : Inputs) : Handler HandleResult :=
  instruction ← lift_result (encodeCasinoGameMove gameSessionId payload);
  r ← submitInstruction instruction (in_answers inp);
  s ← get_session;
  let st := foldl deliver (se_streams s) (in_before inp) in
  match (r : Z + option string) with
  | inr error =>
      _ ← put_session (with_streams s (foldl deliver st (in_during inp)));
      rejected error
  | inl _ =>
      let '(gameEvent, st) := waitForMoveOrComplete st (in_during inp) in
      let s := with_streams s st in
      match gameEvent with
      | Some (Ev_error _ _ errorCode errorMessage) =>
          _ ← put_session s;
          fail TRANSACTION_REJECTED (message_or errorMessage (code_text "Move" errorCode))
      | Some (Ev_completed sessionId _ gt payout finalChips _ _ logs _) =>
          let s := set_active s None None in
          let s := with_streams s (clearSessionUpdatesClient st) in
          let s := set_balance s finalChips in
          _ ← put_session s;
          mret (inr (Rs_game_result sessionId payout finalChips gt (0 <? payout) (payout =? 0) (head logs)
                       finalChips))
      | Some (Ev_moved sessionId moveNumber newState logs balanceSnapshot) =>
          let s := set_balance s (chips balanceSnapshot) in
          _ ← put_session s;
          mret (inr (Rs_game_move sessionId moveNumber (default gameType (gi_gameType (se_game s))) (head logs)
                       (non_empty newState) (chips balanceSnapshot)))
      | _ =>
          _ ← put_session s;
          mret (inr (Rs_move_accepted gameSessionId))
      end
  end.

Definition makeMove (gameType : Z) (payload : Uint8Array) : Handler HandleResult :=
  s ← get_session;
  match activeGameId s with
  | None => fail NO_ACTIVE_GAME "No game in progress"
  | Some gameSessionId => inp ← next_inputs; moveBody gameType gameSessionId payload inp
  end.

(** ** Messages

    Amounts are the numbers of the JSON message; [BigInt] refuses the ones that
    are no integers. *)

Definition positive (q : Q) : bool := 0 <? Qnum q.

Record BetRequest := {
  br_type : string + Z;
  br_amount : Q;
  br_target : option Z;
  br_number : option Z;
  br_value : option Z
}.

(** [typeof type === 'string' ? type.toUpperCase() : type]. *)
Definition normalizeType (type : string + Z) : string + Z :=
  match type with
  | inl s => inl (to_upper s)
  | inr code => inr code
  end.

Definition to_bet (upper : bool) (b : BetRequest) : result AtomicBetInput :=
  amount ← BigInt_of_number (br_amount b);
  Ok {| ab_type := if upper then normalizeType (br_type b) else br_type b; ab_amount := amount;
        ab_target := br_target b; ab_number := br_number b; ab_value := br_value b |}.

Fixpoint to_bets (upper : bool) (bs : list BetRequest) : result (list AtomicBetInput) :=
  match bs with
  | [] => Ok []
  | b :: bs' => x ← to_bet upper b; xs ← to_bets upper bs'; Ok (x :: xs)
  end.

(** The validated messages of the games, the old names of a message with the
    new ones. *)
Inductive GameRequest :=
| Rq_blackjack_deal (amount : Q) (sideBet21Plus3 sideBet21p3 : option Q)
| Rq_blackjack_hit
| Rq_blackjack_stand
| Rq_blackjack_double
| Rq_blackjack_split
| Rq_baccarat_deal (bets : list BetRequest)
| Rq_craps_bets (bets : list BetRequest)
| Rq_roulette_spin (bets : list BetRequest)
| Rq_sicbo_roll (bets : list BetRequest)
| Rq_hilo_deal (amount : Q)
| Rq_hilo_bet (amount : Q) (choice : HiLoAction)
| Rq_hilo_action (action : HiLoAction)
| Rq_casinowar_deal (amount : Q) (tieBet : option Q)
| Rq_casinowar_action (action : CasinoWarAction)
| Rq_videopoker_deal (amount : Q)
| Rq_videopoker_hold (holds : list bool)
| Rq_threecard_deal (ante : Q) (pairPlus sixCard sixCardBonus progressive : option Q)
| Rq_threecard_play
| Rq_threecard_fold
| Rq_ultimate_deal (ante blind : Q) (trips sixCard sixCardBonus progressive : option Q)
| Rq_ultimate_bet (multiplier : Z)
| Rq_ultimate_check
| Rq_ultimate_fold.

(** [generateSessionId(publicKey, gameSessionCounter++)]. *)
Definition nextSessionId : Handler Z :=
  s ← get_session;
  let g := se_game s in
  _ ← put_session (with_game s
        {| gi_activeGameId := gi_activeGameId g; gi_gameType := gi_gameType g;
           gi_gameSessionCounter := gi_gameSessionCounter g + 1; gi_lastGameBet := gi_lastGameBet g;
           gi_lastGameStartChips := gi_lastGameStartChips g;
           gi_lastGameStartedAt := gi_lastGameStartedAt g |});
  lift_result (generateSessionId (id_publicKey (se_identity s)) (gi_gameSessionCounter g)).

(** [if (!result.success) return result]. *)
Definition on_success (r : HandleResult) (k : Response -> Handler HandleResult) : Handler HandleResult :=
  match r with
  | inl e => mret (inl e)
  | inr response => k response
  end.

Definition is_game_move (r : Response) : bool :=
  match r with
  | Rs_game_move _ _ _ _ _ _ => true
  | _ => false
  end.

(** A move, and the reveal when the move did not end the game. *)
Definition moveAndReveal (gameType : Z) (payload revealPayload : Uint8Array) : Handler HandleResult :=
  r ← makeMove gameType payload;
  on_success r (fun response =>
    if is_game_move response then makeMove gameType revealPayload else mret r).

(** The [game_started] that the deals return: the fields of the deal's response
    with these on top. *)
Definition dealt (gameType : Z) (deal : Response) (bet : Q) (blind : option Q) : Handler HandleResult :=
  s ← get_session; mret (inr (Rs_dealt deal gameType (activeGameId s) bet blind)).

(** [try { ... } catch { INVALID_BET }] around the encoding of a batch. *)
Definition batchMove (gameType : Z) (game : AtomicBatchGame) (bets : list AtomicBetInput)
    : Handler HandleResult :=
  match encodeAtomicBatchPayload game bets with
  | Throw message => fail INVALID_BET message
  | Ok payload => makeMove gameType payload
  end.

Definition code (g : GameType) : Z := GameType_code g.

(** Baccarat, roulette and sic bo: the bets are converted, the game is started
    with bet 0, and the batch is the first move. *)
Definition batchGame (gt : GameType) (game : AtomicBatchGame) (upper : bool) (bets : list BetRequest)
    : Handler HandleResult :=
  bets ← lift_result (to_bets upper bets);
  gameSessionId ← nextSessionId;
  r ← startGame (code gt) 0 gameSessionId;
  on_success r (fun _ => batchMove (code gt) game bets).

(** Craps converts the bets after the start. *)
Definition crapsBets (bets : list BetRequest) : Handler HandleResult :=
  gameSessionId ← nextSessionId;
  r ← startGame (code Game_Craps) 0 gameSessionId;
  on_success r (fun _ =>
    bets ← lift_result (to_bets true bets);
    batchMove (code Game_Craps) Atomic_craps bets).

(** The start of a game with its stake. *)
Definition startWith (gt : GameType) (amount : Q) (k : Response -> Handler HandleResult) : Handler HandleResult :=
  gameSessionId ← nextSessionId;
  bet ← lift_result (BigInt_of_number amount);
  r ← startGame (code gt) bet gameSessionId;
  on_success r k.

Definition blackjackDealPayload (sideBet21Plus3 : Q) : result Uint8Array :=
  if positive sideBet21Plus3 then
    amount ← BigInt_of_number sideBet21Plus3;
    setBigUint64BE (set_elem (zeros 9) 0 7) 1 amount
  else Ok (u8array [BlackjackMove_code BJ_Deal]).

(** The side bets of a deal are converted when there is one. *)
Definition dealOptions (first sixCard progressive : Q) : result DealOptions :=
  if positive first || positive sixCard || positive progressive then
    a ← BigInt_of_number first; b ← BigInt_of_number sixCard; c ← BigInt_of_number progressive;
    Ok {| do_first := Some a; do_sixCard := Some b; do_progressive := Some c |}
  else Ok {| do_first := None; do_sixCard := None; do_progressive := None |}.

Definition or_zero (q : option Q) : Q := default 0%Q q.

Definition multiplierOf (multiplier : Z) : UltimateHoldemBetMultiplier :=
  match multiplier with
  | 4 => Mult4
  | 3 => Mult3
  | 2 => Mult2
  | _ => Mult1
  end.

(** *** One definition per handler method *)

Definition blackjackDeal (amount : Q) (sideBet21Plus3 sideBet21p3 : option Q) : Handler HandleResult :=
  startWith Game_Blackjack amount (fun _ =>
    payload ← lift_result (blackjackDealPayload (or_zero (union sideBet21Plus3 sideBet21p3)));
    r ← makeMove (code Game_Blackjack) payload;
    on_success r (fun deal => dealt (code Game_Blackjack) deal amount None)).

Definition blackjackHit : Handler HandleResult := makeMove (code Game_Blackjack) (encodeBlackjackMove Bj_hit).
Definition blackjackSplit : Handler HandleResult := makeMove (code Game_Blackjack) (encodeBlackjackMove Bj_split).

Definition blackjackStand : Handler HandleResult :=
  moveAndReveal (code Game_Blackjack) (encodeBlackjackMove Bj_stand) (u8array [BlackjackMove_code BJ_Reveal]).

Definition blackjackDouble : Handler HandleResult :=
  moveAndReveal (code Game_Blackjack) (encodeBlackjackMove Bj_double) (u8array [BlackjackMove_code BJ_Reveal]).

Definition baccaratDeal (bets : list BetRequest) : Handler HandleResult :=
  batchGame Game_Baccarat Atomic_baccarat false bets.

Definition rouletteSpin (bets : list BetRequest) : Handler HandleResult :=
  batchGame Game_Roulette Atomic_roulette true bets.

Definition sicboRoll (bets : list BetRequest) : Handler HandleResult :=
  batchGame Game_SicBo Atomic_sicbo true bets.

Definition hiloDeal (amount : Q) : Handler HandleResult :=
  startWith Game_HiLo amount (fun response => mret (inr response)).

Definition hiloBet (amount : Q) (choice : HiLoAction) : Handler HandleResult :=
  startWith Game_HiLo amount (fun _ => makeMove (code Game_HiLo) (encodeHiLoAction choice)).

(** [handleGuess] and [handleCashout]. *)
Definition hiloAction (action : HiLoAction) : Handler HandleResult :=
  makeMove (code Game_HiLo) (encodeHiLoAction action).

Definition casinowarPlay (amount : Q) : Handler HandleResult :=
  r ← makeMove (code Game_CasinoWar) (encodeCasinoWarAction Cw_play);
  on_success r (fun deal => dealt (code Game_CasinoWar) deal amount None).

Definition casinowarDeal (amount : Q) (tieBet : option Q) : Handler HandleResult :=
  startWith Game_CasinoWar amount (fun _ =>
    if positive (or_zero tieBet) then
      tie ← lift_result (BigInt_of_number (or_zero tieBet));
      payload ← lift_result (encodeGameActionPayload (GA_casinowar_tie tie));
      r ← makeMove (code Game_CasinoWar) payload;
      on_success r (fun _ => casinowarPlay amount)
    else casinowarPlay amount).

(** [handleWar] and [handleSurrender]. *)
Definition casinowarAction (action : CasinoWarAction) : Handler HandleResult :=
  makeMove (code Game_CasinoWar) (encodeCasinoWarAction action).

Definition videopokerDeal (amount : Q) : Handler HandleResult :=
  startWith Game_VideoPoker amount (fun response => mret (inr response)).

Definition videopokerHold (holds : list bool) : Handler HandleResult :=
  makeMove (code Game_VideoPoker) (encodeVideoPokerHold holds).

Definition threecardDeal (ante : Q) (pairPlus sixCard sixCardBonus progressive : option Q)
    : Handler HandleResult :=
  startWith Game_ThreeCard ante (fun _ =>
    options ← lift_result (dealOptions (or_zero pairPlus) (or_zero (union sixCard sixCardBonus))
                             (or_zero progressive));
    payload ← lift_result (encodeGameActionPayload (GA_threecard_deal options));
    r ← makeMove (code Game_ThreeCard) payload;
    on_success r (fun deal => dealt (code Game_ThreeCard) deal ante None)).

Definition threecardPlay : Handler HandleResult :=
  moveAndReveal (code Game_ThreeCard) (encodeThreeCardAction Tc_play) (encodeThreeCardAction Tc_reveal).

Definition threecardFold : Handler HandleResult :=
  makeMove (code Game_ThreeCard) (encodeThreeCardAction Tc_fold).

Definition ultimateDeal (ante blind : Q) (trips sixCard sixCardBonus progressive : option Q)
    : Handler HandleResult :=
  if negb (Qeq_bool (or_zero progressive) 0) && negb (Qeq_bool (or_zero progressive) 1)
  then fail INVALID_BET "Progressive bet must be 0 or 1"
  else
    startWith Game_UltimateHoldem ante (fun _ =>
      options ← lift_result (dealOptions (or_zero trips) (or_zero (union sixCard sixCardBonus))
                               (or_zero progressive));
      payload ← lift_result (encodeGameActionPayload (GA_ultimate_deal options));
      r ← makeMove (code Game_UltimateHoldem) payload;
      on_success r (fun deal => dealt (code Game_UltimateHoldem) deal ante (Some blind))).

Definition ultimateBet (multiplier : Z) : Handler HandleResult :=
  moveAndReveal (code Game_UltimateHoldem) (encodeUltimateHoldemBet (multiplierOf multiplier))
    (encodeUltimateHoldemAction Uh_reveal).

(** [handleCheck] and [handleFold]. *)
Definition ultimateAction (action : UltimateHoldemAction) : Handler HandleResult :=
  makeMove (code Game_UltimateHoldem) (encodeUltimateHoldemAction action).

(** The handler of the message's game, and its [handleMessage]. *)
Definition handleMessage (msg : GameRequest) : Handler HandleResult :=
  match msg with
  | Rq_blackjack_deal amount sideBet21Plus3 sideBet21p3 => blackjackDeal amount sideBet21Plus3 sideBet21p3
  | Rq_blackjack_hit => blackjackHit
  | Rq_blackjack_stand => blackjackStand
  | Rq_blackjack_double => blackjackDouble
  | Rq_blackjack_split => blackjackSplit
  | Rq_baccarat_deal bets => baccaratDeal bets
  | Rq_craps_bets bets => crapsBets bets
  | Rq_roulette_spin bets => rouletteSpin bets
  | Rq_sicbo_roll bets => sicboRoll bets
  | Rq_hilo_deal amount => hiloDeal amount
  | Rq_hilo_bet amount choice => hiloBet amount choice
  | Rq_hilo_action action => hiloAction action
  | Rq_casinowar_deal amount tieBet => casinowarDeal amount tieBet
  | Rq_casinowar_action action => casinowarAction action
  | Rq_videopoker_deal amount => videopokerDeal amount
  | Rq_videopoker_hold holds => videopokerHold holds
  | Rq_threecard_deal ante pairPlus sixCard sixCardBonus progressive =>
      threecardDeal ante pairPlus sixCard sixCardBonus progressive
  | Rq_threecard_play => threecardPlay
  | Rq_threecard_fold => threecardFold
  | Rq_ultimate_deal ante blind trips sixCard sixCardBonus progressive =>
      ultimateDeal ante blind trips sixCard sixCardBonus progressive
  | Rq_ultimate_bet multiplier => ultimateBet multiplier
  | Rq_ultimate_check => ultimateAction Uh_check
  | Rq_ultimate_fold => ultimateAction Uh_fold
  end.
End Games.
