(* ===== verification/HandlersCorrect.v ===== *)
(** * Correctness of the game handlers

    The outcomes of starting a game and of a move, and two ways in which the
    handlers lose track of the game. *)

From Stdlib Require Import QArith.QArith.
From S2P Require Import Prelude JsNum Bytes Constants Reader BinaryReader Events ProtocolEncode Transactions Instructions Nonce Updates Sessions Handlers SessionsCorrect.

#[local] Open Scope Z_scope.

(** ** Steps of the computations *)

Lemma bind_run {A B} (m : Handler A) (f : A -> Handler B) g :
  (m ≫= f) g = match m g with
               | (g', Ok a) => f a g'
               | (g', Throw e) => (g', Throw e)
               end.
Proof. reflexivity. Qed.

Section Outcomes.
Context `{C : Crypto}.

Lemma submitInstruction_session ins an g :
  gw_session (submitInstruction ins an g).1 = gw_session g.
Proof. unfold submitInstruction. by destruct (submitWithRetry _ _ _ _ _ _) as [[[m sent] r]|]. Qed.

(** What starting a game does to a session, whatever the backend answers
    and whatever events arrive: with a game in progress or without registration
    it is refused and nothing at all happens; otherwise it succeeds exactly when
    the session is in a game afterwards, namely in the one whose id the response
    reports, with the bet it was called with; a refusal leaves the session out of
    a game.  The balance and the identity never change. *)
Theorem startGame_outcome gameType bet gameSessionId g :
  let '(g', r) := startGame gameType bet gameSessionId g in
  let s := gw_session g in
  let s' := gw_session g' in
  se_identity s' = se_identity s /\ balance s' = balance s
  /\ match activeGameId s with
     | Some _ => g' = g /\ r = Ok (inl (GAME_IN_PROGRESS, "A game is already in progress"))
     | None =>
         if negb (registered s) then g' = g /\ r = Ok (inl (NOT_REGISTERED, "Player not registered"))
         else match r with
              | Ok (inr response) =>
                  exists gt sid state b, response = Rs_game_started gt sid bet state b
                    /\ activeGameId s' = Some sid /\ gi_gameType (se_game s') = Some gameType
                    /\ gi_lastGameBet (se_game s') = Some bet
              | _ => activeGameId s' = None
              end
     end.
Proof.
  unfold startGame. rewrite bind_run. cbn [get_session]. destruct (activeGameId (gw_session g)) as [a|] eqn:Ea.
  { rewrite bool_decide_eq_true_2 by done. done. }
  rewrite bool_decide_eq_false_2 by by intros [? ?]. destruct (registered (gw_session g)) eqn:Er; [|done].
  cbn [negb]. rewrite bind_run. cbn [next_inputs]. set (inp := default _ _). set (g1 := {| gw_maxBytes := _ |}).
  assert (Hs1 : gw_session g1 = gw_session g) by done. rewrite <- Hs1 in *. clearbody inp g1. clear Hs1 g.
  unfold startBody. rewrite bind_run. cbn [lift_result].
  destruct (encodeCasinoStartGame gameType bet gameSessionId) as [ins|]; [|done]. rewrite bind_run.
  pose proof (submitInstruction_session ins (in_answers inp) g1) as Hs2.
  destruct (submitInstruction ins (in_answers inp) g1) as [g2 [r|]]; cbn [fst] in Hs2; [|by rewrite Hs2].
  rewrite bind_run. cbn [get_session]. rewrite <- Hs2 in *. clear Hs2 g1. destruct r as [n|e]; [|done].
  destruct (waitForEvent _ _) as [ev st]. destruct ev as [e|]; [|cbn; repeat split; eauto 8].
  destruct e as [sid p gt b init|sid mv ns logs bal|sid p gt pay fc sh db logs bal|sid p c msg];
    cbn; repeat split; eauto 10.
Qed.

(** C11. What a move does to a session, whatever the backend answers and
    whatever events arrive: without a game it is refused and nothing happens;
    the result of a completed game ends the game, drops the session's stream and
    sets the balance to the final chips; the answer to an ordinary move sets the
    balance to its snapshot; in every other case the game and the balance stay
    as they are.  Only a completed game ends the game. *)
Theorem makeMove_outcome gameType payload g :
  let '(g', r) := makeMove gameType payload g in
  let s := gw_session g in
  let s' := gw_session g' in
  se_identity s' = se_identity s
  /\ match activeGameId s with
     | None => g' = g /\ r = Ok (inl (NO_ACTIVE_GAME, "No game in progress"))
     | Some gameSessionId =>
         match r with
         | Ok (inr (Rs_game_result _ _ finalChips _ _ _ _ b)) =>
             activeGameId s' = None /\ st_session (se_streams s') = None
             /\ balance s' = finalChips /\ b = finalChips
         | Ok (inr (Rs_game_move _ _ _ _ _ b)) => activeGameId s' = Some gameSessionId /\ balance s' = b
         | Ok (inr (Rs_move_accepted sid)) =>
             sid = gameSessionId /\ activeGameId s' = Some gameSessionId /\ balance s' = balance s
         | Ok (inr _) => False
         | _ => activeGameId s' = Some gameSessionId /\ balance s' = balance s
         end
     end.
Proof.
  unfold makeMove. rewrite bind_run. cbn [get_session].
  destruct (activeGameId (gw_session g)) as [id|] eqn:Ea; [|done].
  rewrite bind_run. cbn [next_inputs]. set (inp := default _ _). set (g1 := {| gw_maxBytes := _ |}).
  assert (Hs1 : gw_session g1 = gw_session g) by done. rewrite <- Hs1 in *. clearbody inp g1. clear Hs1 g.
  unfold moveBody. rewrite bind_run. cbn [lift_result].
  destruct (encodeCasinoGameMove id payload) as [ins|]; [|done]. rewrite bind_run.
  pose proof (submitInstruction_session ins (in_answers inp) g1) as Hs2.
  destruct (submitInstruction ins (in_answers inp) g1) as [g2 [r|]]; cbn [fst] in Hs2; [|by rewrite Hs2].
  rewrite bind_run. cbn [get_session]. rewrite <- Hs2 in *. clear Hs2 g1. destruct r as [n|e]; [|done].
  destruct (waitForMoveOrComplete _ _) as [ev st]. destruct ev as [e|]; [|done].
  destruct e as [sid p gt b init|sid mv ns logs bal|sid p gt pay fc sh db logs bal|sid p c msg]; done.
Qed.
End Outcomes.

(** ** Events of an earlier game *)

(** The promises of the coming waits are not settled yet. *)
Definition fresh_client (n : nat) (c : UpdatesClient) : Prop := Forall (fun p => (p.1 < n)%nat) (settled c).

Definition find_promise (c : UpdatesClient) (id : nat) : option (nat * option CasinoGameEvent) :=
  List.find (fun p => (p.1 =? id)%nat) (settled c).

Lemma promise_find c id : promise (Some c) id = snd <$> find_promise c id.
Proof. reflexivity. Qed.

Lemma fresh_find n c id : fresh_client n c -> (n <= id)%nat -> find_promise c id = None.
Proof.
  intros Hf Hn. unfold find_promise. induction Hf as [|p l Hp _ IH]; cbn; [done|].
  destruct (p.1 =? id)%nat eqn:E; [apply Nat.eqb_eq in E; lia|exact IH].
Qed.

Lemma find_app_miss {A} (p : A -> bool) l l' : List.find p l = None -> List.find p (l ++ l') = List.find p l'.
Proof. induction l as [|x l IH]; cbn; [done|]. by destruct (p x). Qed.

Lemma find_app_hit {A} (p : A -> bool) l l' x : List.find p l = Some x -> List.find p (l ++ l') = Some x.
Proof. induction l as [|y l IH]; cbn; [done|]. by destruct (p y). Qed.

Definition is_any (k : wait_kind) : bool :=
  match k with
  | W_session _ _ => false
  | _ => true
  end.

(** A wait that finds an event is settled with it; one that finds none settles
    nothing. *)
Lemma wait_settled c id k :
  is_any k = true ->
  settled (wait c id k)
  = settled c ++ match take_any (isMatch k) (pendingEvents c) with
                 | Some (e, _) => [(id, Some e)]
                 | None => []
                 end.
Proof.
  intros Hk. unfold wait. destruct k; try done; cbn [add_listener pendingEvents];
    destruct (take_any _ (pendingEvents c)) as [[e m]|]; cbn; by rewrite ?app_nil_r.
Qed.

Lemma find_wait_other c id id' k :
  is_any k = true -> id <> id' -> find_promise (wait c id k) id' = find_promise c id'.
Proof.
  intros Hk Hne. unfold find_promise. rewrite wait_settled by done.
  destruct (List.find _ (settled c)) eqn:E; [by apply find_app_hit|]. rewrite find_app_miss by done.
  destruct (take_any _ _) as [[e m]|]; cbn; [|done]. by rewrite (proj2 (Nat.eqb_neq id id')).
Qed.

Lemma find_wait_hit c id k e m :
  is_any k = true -> find_promise c id = None -> take_any (isMatch k) (pendingEvents c) = Some (e, m) ->
  find_promise (wait c id k) id = Some (id, Some e).
Proof.
  intros Hk Hf Ht. unfold find_promise in *. rewrite wait_settled, Ht, find_app_miss by done. cbn.
  by rewrite Nat.eqb_refl.
Qed.

Lemma find_wait_miss c id k :
  is_any k = true -> find_promise c id = None -> take_any (isMatch k) (pendingEvents c) = None ->
  find_promise (wait c id k) id = None.
Proof.
  intros Hk Hf Ht. unfold find_promise in *. rewrite wait_settled, Ht, app_nil_r by done. exact Hf.
Qed.

Lemma await_won winner expire st arrivals r :
  winner st = Some r -> (await winner expire st arrivals).1 = r.
Proof. intros Hw. destruct arrivals; cbn [await]; by rewrite Hw. Qed.

Definition fresh_streams (st : Streams) : Prop :=
  (forall c, st_account st = Some c -> fresh_client (st_next st) c)
  /\ (forall sid c, st_session st = Some (sid, c) -> fresh_client (st_next st) c).

(** A completion in the account's store wins over every move still to come. *)
Lemma wait_takes_completion st arrivals c sid cs e m :
  fresh_streams st -> st_account st = Some c -> st_session st = Some (sid, cs) ->
  take_any (isMatch (W_any T_completed)) (pendingEvents c) = Some (e, m) ->
  take_any (isMatch (W_any T_moved)) (pendingEvents cs) = None ->
  (waitForMoveOrComplete st arrivals).1 = Some e.
Proof.
  intros [Hfa Hfs] Ha Hs Hc Hm. specialize (Hfa _ Ha). specialize (Hfs _ _ Hs).
  unfold waitForMoveOrComplete. rewrite Ha, Hs. apply await_won.
  destruct st as [acc ses n]. cbn in Ha, Hs. subst acc ses. cbn [st_next st_account st_session] in *.
  cbn [bump on_account on_session st_account st_session st_next prod_map fst snd id fmap option_fmap option_map].
  unfold race. rewrite !promise_find.
  rewrite (find_wait_miss cs n (W_any T_moved) eq_refl (fresh_find _ _ _ Hfs (Nat.le_refl n)) Hm).
  rewrite (find_wait_other _ (S (S n)) (S n) (W_any T_error) eq_refl (Nat.neq_succ_diag_l (S n))).
  rewrite (find_wait_hit c (S n) (W_any T_completed) e m eq_refl
             (fresh_find _ _ _ Hfa (Nat.le_succ_diag_r n)) Hc).
  reflexivity.
Qed.

Lemma wait_takes_start st arrivals c e m :
  fresh_streams st -> st_account st = Some c ->
  take_any (isMatch W_started_or_error) (pendingEvents c) = Some (e, m) ->
  (waitForEvent st arrivals).1 = Some e.
Proof.
  intros [Hfa _] Ha Ht. specialize (Hfa _ Ha). unfold waitForEvent. rewrite Ha. apply await_won.
  destruct st as [acc ses n]. cbn in Ha. subst acc. cbn [st_next st_account st_session] in *.
  cbn [bump on_account st_account fmap option_fmap option_map]. rewrite promise_find.
  by rewrite (find_wait_hit c n W_started_or_error e m eq_refl (fresh_find _ _ _ Hfa (Nat.le_refl n)) Ht).
Qed.

Section Stale.
Context `{C : Crypto}.

(** A completion that is still in the account's store answers the next
    game's move: whatever the backend does and whatever events of the new game
    arrive during the wait, a move that is accepted returns the result of the
    old game and takes the session out of the new one.  The witness gets there
    by two games in a row: the completion that ended the first stays stored,
    because it was delivered to a waiting promise. *)
Theorem stale_completion gameType gameSessionId payload inp g c sid cs e rest g' r :
  let st := foldl deliver (se_streams (gw_session g)) (in_before inp) in
  fresh_streams st -> st_account st = Some c -> st_session st = Some (sid, cs) ->
  take_any (isMatch (W_any T_completed)) (pendingEvents c) = Some (e, rest) ->
  take_any (isMatch (W_any T_moved)) (pendingEvents cs) = None ->
  moveBody gameType gameSessionId payload inp g = (g', Ok (inr r)) ->
  activeGameId (gw_session g') = None
  /\ exists payout chips gt won push log b,
       r = Rs_game_result (ev_sessionId e) payout chips gt won push log b.
Proof.
  intros st Hf Ha Hs Hc Hm. destruct (take_any_spec _ _ _ _ Hc) as [He _].
  pose proof (fun arr => wait_takes_completion st arr c sid cs e rest Hf Ha Hs Hc Hm) as Hw.
  clear Hf Ha Hs Hc Hm. unfold moveBody. rewrite bind_run. cbn [lift_result].
  destruct (encodeCasinoGameMove gameSessionId payload) as [ins|]; [|done]. rewrite bind_run.
  pose proof (submitInstruction_session ins (in_answers inp) g) as Hs2.
  destruct (submitInstruction ins (in_answers inp) g) as [g2 [x|]]; cbn [fst] in Hs2; [|done].
  rewrite bind_run. cbn [get_session]. rewrite Hs2. fold st. destruct x as [n|er]; [|done].
  specialize (Hw (in_during inp)). destruct (waitForMoveOrComplete st (in_during inp)) as [ev st'].
  cbn [fst] in Hw. subst ev. destruct e; cbn in He; try discriminate. cbn. intros [= <- <-].
  split; [done|]. by repeat eexists.
Qed.

(** A start event that is still in the account's store names the next game:
    an accepted start puts the session into the old game, whatever arrives
    during the wait, so the moves of the new game go out under the old id.  The
    witness gets there by one game that was started and completed before. *)
Theorem stale_start gameType bet gameSessionId inp g c e rest g' r :
  let st := foldl deliver (se_streams (gw_session g)) (in_before inp) in
  fresh_streams st -> st_account st = Some c ->
  take_any (isMatch W_started_or_error) (pendingEvents c) = Some (e, rest) ->
  ev_type e = T_started -> ev_sessionId e <> 0 ->
  startBody gameType bet gameSessionId inp g = (g', Ok (inr r)) ->
  activeGameId (gw_session g') = Some (ev_sessionId e).
Proof.
  intros st Hf Ha Hc Ht Hid.
  pose proof (fun arr => wait_takes_start st arr c e rest Hf Ha Hc) as Hw.
  clear Hf Ha Hc. unfold startBody. rewrite bind_run. cbn [lift_result].
  destruct (encodeCasinoStartGame gameType bet gameSessionId) as [ins|]; [|done]. rewrite bind_run.
  pose proof (submitInstruction_session ins (in_answers inp) g) as Hs2.
  destruct (submitInstruction ins (in_answers inp) g) as [g2 [x|]]; cbn [fst] in Hs2; [|done].
  rewrite bind_run. cbn [get_session]. rewrite Hs2. fold st. destruct x as [n|er]; [|done].
  specialize (Hw (in_during inp)). destruct (waitForEvent st (in_during inp)) as [ev st'].
  cbn [fst] in Hw. subst ev. destruct e; cbn in Ht; try discriminate. cbn [ev_sessionId] in *.
  rewrite (proj2 (Z.eqb_neq _ _) Hid). cbn. by intros [= <- _].
Qed.
End Stale.

(** *** Two games in a row *)

Definition sample_balances : PlayerBalanceSnapshot := {| chips := 1100; vusdt := 0; rng := 0 |}.
Definition ev_start (id : Z) : CasinoGameEvent := Ev_started id (zeros 32) 5 10 [].
Definition ev_move (id : Z) : CasinoGameEvent := Ev_moved id 1 [] [] sample_balances.
Definition ev_complete (id : Z) : CasinoGameEvent :=
  Ev_completed id (zeros 32) 5 100 1100 false false [] sample_balances.

(** An accepted submission, and what arrives before and during the wait. *)
Definition inputs (before during : list stream_input) : Inputs :=
  {| in_answers := all_accepted; in_before := before; in_during := during; in_connected := true; in_now := 0 |}.

Definition sample_gateway (l : list Inputs) : Gateway :=
  {| gw_maxBytes := None; gw_nonces := nonce_init; gw_session := sample_session; gw_sent := [];
     gw_inputs := l |}.

Fixpoint play `{Crypto} (g : Gateway) (msgs : list GameRequest) : Gateway :=
  match msgs with
  | [] => g
  | m :: msgs' => play (handleMessage m g).1 msgs'
  end.

Definition account_of (g : Gateway) : UpdatesClient := default updates_init (st_account (se_streams (gw_session g))).
Definition stream_of (g : Gateway) : Z * UpdatesClient := default (0, updates_init) (st_session (se_streams (gw_session g))).

(** One game, whose start and completion were both delivered to waiting promises. *)
Definition after_one_game : Gateway :=
  play (H := toy_crypto) (sample_gateway [inputs [] [SI_account (ev_start 5)]; inputs [] [SI_account (ev_complete 5)]])
    [Rq_hilo_deal 10; Rq_hilo_action Hl_higher].

(** One game, and the start of a second one, whose events were awaited in time. *)
Definition in_second_game : Gateway :=
  play (H := toy_crypto) (sample_gateway [inputs [SI_account (ev_start 5)] []; inputs [] [SI_account (ev_complete 5)];
                        inputs [SI_account (ev_start 6)] []])
    [Rq_hilo_deal 10; Rq_hilo_action Hl_higher; Rq_hilo_deal 10].

Lemma fresh_streams_check st :
  (forallb (fun p => (p.1 <? st_next st)%nat) (settled (default updates_init (st_account st)))
   && forallb (fun p => (p.1 <? st_next st)%nat) (settled (default (0, updates_init) (st_session st)).2)) = true ->
  fresh_streams st.
Proof.
  intros [H1 H2]%andb_true_iff. rewrite List.forallb_forall in H1, H2. split.
  - intros c E. rewrite E in H1. apply Forall_forall. intros p Hp. apply Nat.ltb_lt, H1. by apply list_elem_of_In.
  - intros sid c E. rewrite E in H2. apply Forall_forall. intros p Hp. apply Nat.ltb_lt, H2. by apply list_elem_of_In.
Qed.

Definition second_move : Gateway * result HandleResult :=
  moveBody (H := toy_crypto) 5 6 [x00] (inputs [] [SI_session (ev_move 6)]) in_second_game.

Definition answer_of (r : result HandleResult) : Response :=
  match r with
  | Ok (inr r) => r
  | _ => Rs_move_accepted 0
  end.

Lemma stale_completion_witness :
  activeGameId (gw_session in_second_game) = Some 6
  /\ activeGameId (gw_session second_move.1) = None
  /\ exists payout chips gt won push log b,
       answer_of second_move.2 = Rs_game_result 5 payout chips gt won push log b.
Proof.
  split; [vm_compute; reflexivity|].
  apply (stale_completion (C := toy_crypto) 5 6 [x00] (inputs [] [SI_session (ev_move 6)]) in_second_game
    (account_of in_second_game) (stream_of in_second_game).1 (stream_of in_second_game).2 (ev_complete 5)
    (default ((ev_complete 5), []) (take_any (isMatch (W_any T_completed)) (pendingEvents (account_of in_second_game)))).2
    second_move.1 (answer_of second_move.2)).
  - apply fresh_streams_check. vm_compute. reflexivity.
  - vm_compute. reflexivity.
  - vm_compute. reflexivity.
  - vm_compute. reflexivity.
  - vm_compute. reflexivity.
  - vm_compute. reflexivity.
Defined.

Definition second_start : Gateway * result HandleResult :=
  startBody (H := toy_crypto) 5 10 77 (inputs [] [SI_account (ev_start 6)]) after_one_game.

Lemma stale_start_witness :
  activeGameId (gw_session after_one_game) = None /\ activeGameId (gw_session second_start.1) = Some 5.
Proof.
  split; [vm_compute; reflexivity|].
  apply (stale_start (C := toy_crypto) 5 10 77 (inputs [] [SI_account (ev_start 6)]) after_one_game
    (account_of after_one_game) (ev_start 5)
    (default ((ev_start 5), []) (take_any (isMatch W_started_or_error) (pendingEvents (account_of after_one_game)))).2
    second_start.1 (answer_of second_start.2)).
  - apply fresh_streams_check. vm_compute. reflexivity.
  - vm_compute. reflexivity.
  - vm_compute. reflexivity.
  - reflexivity.
  - done.
  - vm_compute. reflexivity.
Defined.

(** ** Games that cannot be finished *)

Section Stuck.
Context `{C : Crypto}.

(** The messages that begin a game, and those whose own checks or conversions
    come before the start. *)
Definition starts_game (m : GameRequest) : bool :=
  match m with
  | Rq_blackjack_deal _ _ _ | Rq_baccarat_deal _ | Rq_craps_bets _ | Rq_roulette_spin _ | Rq_sicbo_roll _
  | Rq_hilo_deal _ | Rq_hilo_bet _ _ | Rq_casinowar_deal _ _ | Rq_videopoker_deal _
  | Rq_threecard_deal _ _ _ _ _ | Rq_ultimate_deal _ _ _ _ _ _ => true
  | _ => false
  end.

(** Nothing was sent, and the game is the same. *)
Definition untouched (g g' : Gateway) : Prop :=
  gw_sent g' = gw_sent g /\ gw_nonces g' = gw_nonces g /\ gw_inputs g' = gw_inputs g
  /\ activeGameId (gw_session g') = activeGameId (gw_session g)
  /\ balance (gw_session g') = balance (gw_session g).

Lemma startGame_busy gt bet id g :
  is_Some (activeGameId (gw_session g)) ->
  startGame gt bet id g = (g, Ok (inl (GAME_IN_PROGRESS, "A game is already in progress"))).
Proof. intros Hb. unfold startGame. rewrite bind_run. cbn [get_session]. by rewrite bool_decide_eq_true_2. Qed.

Lemma nextSessionId_untouched g : untouched g (nextSessionId g).1.
Proof. unfold nextSessionId. rewrite bind_run. cbn. done. Qed.

Lemma startWith_refused gt amount k g :
  is_Some (activeGameId (gw_session g)) ->
  let '(g', r) := startWith gt amount k g in
  untouched g g' /\ forall response, r <> Ok (inr response).
Proof.
  intros Hb. unfold startWith. rewrite bind_run. pose proof (nextSessionId_untouched g) as Hu.
  destruct (nextSessionId g) as [g1 [id|e]]; cbn [fst] in Hu; [|done]. rewrite bind_run. cbn [lift_result].
  destruct (BigInt_of_number amount) as [bet|e]; [|done].
  rewrite bind_run, startGame_busy; [done|]. by destruct Hu as (_ & _ & _ & -> & _).
Qed.

Lemma batchGame_refused gt game upper bets g :
  is_Some (activeGameId (gw_session g)) ->
  let '(g', r) := batchGame gt game upper bets g in
  untouched g g' /\ forall response, r <> Ok (inr response).
Proof.
  intros Hb. unfold batchGame. rewrite bind_run. cbn [lift_result]. destruct (to_bets upper bets) as [bs|e]; [|done].
  rewrite bind_run. pose proof (nextSessionId_untouched g) as Hu.
  destruct (nextSessionId g) as [g1 [id|e]]; cbn [fst] in Hu; [|done].
  rewrite bind_run, startGame_busy; [done|]. by destruct Hu as (_ & _ & _ & -> & _).
Qed.

Lemma crapsBets_refused bets g :
  is_Some (activeGameId (gw_session g)) ->
  let '(g', r) := crapsBets bets g in untouched g g' /\ forall response, r <> Ok (inr response).
Proof.
  intros Hb. unfold crapsBets. rewrite bind_run. pose proof (nextSessionId_untouched g) as Hu.
  destruct (nextSessionId g) as [g1 [id|e]]; cbn [fst] in Hu; [|done].
  rewrite bind_run, startGame_busy; [done|]. by destruct Hu as (_ & _ & _ & -> & _).
Qed.

(** While a game runs, no message that begins a game gets anywhere. *)
Lemma starts_refused m g :
  starts_game m = true -> is_Some (activeGameId (gw_session g)) ->
  let '(g', r) := handleMessage m g in untouched g g' /\ forall response, r <> Ok (inr response).
Proof.
  intros Hm Hb. destruct m; try done; cbn [handleMessage];
    first [by apply startWith_refused | by apply batchGame_refused | by apply crapsBets_refused | idtac].
  unfold ultimateDeal. split_if; [done|by apply startWith_refused].
Qed.

Lemma play_refused msgs g :
  Forall (fun m => starts_game m = true) msgs -> is_Some (activeGameId (gw_session g)) ->
  untouched g (play g msgs).
Proof.
  intros Hms. revert g. induction Hms as [|m msgs Hm _ IH]; intros g Hb; cbn [play]; [done|].
  pose proof (starts_refused m g Hm Hb) as Hu. destruct (handleMessage m g) as [g1 r]. destruct Hu as [Hu _].
  assert (Hb1 : is_Some (activeGameId (gw_session g1))) by (by destruct Hu as (_ & _ & _ & -> & _)).
  destruct Hu as (H1 & H2 & H3 & H4 & H5). destruct (IH g1 Hb1) as (I1 & I2 & I3 & I4 & I5).
  unfold untouched. cbn [fst]. repeat split_and!; by etrans; eassumption.
Qed.

(** Craps bets are converted only after the game was started, outside of
    the handler's [try]: a bet with a fractional amount, which the message
    schema accepts, makes the handler throw with the game already started on the
    chain, without bets.  From then on every message that begins a game, of
    whatever game, is refused and nothing is submitted, however many come. *)
Theorem craps_fraction_sticks bets e g g1 id g2 response :
  nextSessionId g = (g1, Ok id) ->
  startGame (code Game_Craps) 0 id g1 = (g2, Ok (inr response)) ->
  to_bets true bets = Throw e ->
  handleMessage (Rq_craps_bets bets) g = (g2, Throw e)
  /\ is_Some (activeGameId (gw_session g2))
  /\ forall msgs, Forall (fun m => starts_game m = true) msgs -> untouched g2 (play g2 msgs).
Proof.
  intros Hn Hs Hb. assert (Ha : is_Some (activeGameId (gw_session g2))).
  { pose proof (startGame_outcome (code Game_Craps) 0 id g1) as Ho. rewrite Hs in Ho. destruct Ho as (_ & _ & Ho).
    destruct (activeGameId (gw_session g1)); [by destruct Ho|]. destruct (negb _); [by destruct Ho|].
    destruct Ho as (? & sid & ? & ? & _ & -> & _). done. }
  split; [|split; [done|intros msgs Hms; by apply play_refused]].
  cbn [handleMessage]. unfold crapsBets. rewrite bind_run, Hn, bind_run, Hs. cbn [on_success].
  rewrite bind_run. cbn [lift_result]. by rewrite Hb.
Qed.
End Stuck.

Definition half_bet : BetRequest :=
  {| br_type := inl "PASS"; br_amount := 5 # 2; br_target := None; br_number := None; br_value := None |}.

Definition before_craps : Gateway := sample_gateway [inputs [] [SI_account (ev_start 5)]].
Definition numbered : Gateway * result Z := nextSessionId (H := toy_crypto) before_craps.
Definition started : Gateway * result HandleResult :=
  startGame (H := toy_crypto) (code Game_Craps) 0 (catch numbered.2 0) numbered.1.

Lemma craps_fraction_sticks_witness :
  handleMessage (H := toy_crypto) (Rq_craps_bets [half_bet]) before_craps
    = (started.1, Throw "The number cannot be converted to a BigInt because it is not an integer")
  /\ is_Some (activeGameId (gw_session started.1))
  /\ forall msgs, Forall (fun m => starts_game m = true) msgs ->
       untouched started.1 (play (H := toy_crypto) started.1 msgs).
Proof.
  apply (craps_fraction_sticks (C := toy_crypto) [half_bet]
    "The number cannot be converted to a BigInt because it is not an integer" before_craps numbered.1
    (catch numbered.2 0) started.1 (answer_of started.2)); vm_compute; reflexivity.
Defined.
