(* ===== verification/LiveTable.v ===== *)
(** * The craps live table

    [gateway/src/live-table/craps.ts]: [OnchainCrapsTable], the coordinator that
    drives the rounds of the on-chain table and fans its events out to the
    players.  Handlers are functions from the state and an input to the state
    and the messages sent; the clock and the answers to submissions are inputs.

    A [Map] whose iteration order is only visible in the order of a serialized
    list is a [gmap]; a [Set] that is cut into batches, or whose first element
    is taken, is the list of its elements in insertion order.  The string key
    [betKey] of a bet is the pair of integers it is made of. *)

From stdpp Require Import pretty.
From S2P Require Import Prelude JsNum Bytes Constants Reader BinaryReader Events Instructions.

(** ** Configuration *)

Record Config := {
  cfg_bettingMs : Z;
  cfg_lockMs : Z;
  cfg_payoutMs : Z;
  cfg_cooldownMs : Z;
  cfg_minBet : Z;
  cfg_maxBet : Z;
  cfg_maxBetsPerRound : Z;
  cfg_settleBatchSize : nat;
  cfg_adminRetryMs : Z;
  cfg_broadcastIntervalMs : Z
}.

(** The defaults of the source. *)
Definition CONFIG : Config := {|
  cfg_bettingMs := 20000; cfg_lockMs := 2000; cfg_payoutMs := 4000; cfg_cooldownMs := 4000;
  cfg_minBet := 5; cfg_maxBet := 1000; cfg_maxBetsPerRound := 12; cfg_settleBatchSize := 25;
  cfg_adminRetryMs := 1500; cfg_broadcastIntervalMs := 1000
|}.

(** ** Bets and phases *)

(** What a client sees of a bet: a name ([inl]) or [BET_n] ([inr]), and for
    some bets a target. *)
Definition BetView : Type := (CrapsBetName + Z) * option Z.

Definition betTypeToView (betType target : Z) : BetView :=
  match betType with
  | 0 => (inl Craps_PASS, None)
  | 1 => (inl Craps_DONT_PASS, None)
  | 2 => (inl Craps_COME, None)
  | 3 => (inl Craps_DONT_COME, None)
  | 4 => (inl Craps_FIELD, None)
  | 5 => (inl Craps_YES, Some target)
  | 6 => (inl Craps_NO, Some target)
  | 7 => (inl Craps_NEXT, Some target)
  | 8 => (inl Craps_HARDWAY, Some 4)
  | 9 => (inl Craps_HARDWAY, Some 6)
  | 10 => (inl Craps_HARDWAY, Some 8)
  | 11 => (inl Craps_HARDWAY, Some 10)
  | 12 => (inl Craps_FIRE, None)
  | 15 => (inl Craps_ATS_SMALL, None)
  | 16 => (inl Craps_ATS_TALL, None)
  | 17 => (inl Craps_ATS_ALL, None)
  | 18 => (inl Craps_MUGGSY, None)
  | 19 => (inl Craps_DIFF_DOUBLES, None)
  | 20 => (inl Craps_RIDE_LINE, None)
  | 21 => (inl Craps_REPLAY, None)
  | 22 => (inl Craps_HOT_ROLLER, None)
  | _ => (inr betType, None)
  end.

Inductive LiveTablePhase := Ph_betting | Ph_locked | Ph_rolling | Ph_payout | Ph_cooldown.

#[export] Instance LiveTablePhase_eq_dec : EqDecision LiveTablePhase.
Proof. solve_decision. Defined.

Definition mapPhase (phase : Z) : LiveTablePhase :=
  match phase with
  | 0 => Ph_betting
  | 1 => Ph_locked
  | 2 => Ph_rolling
  | 3 => Ph_payout
  | 4 => Ph_cooldown
  | _ => Ph_betting
  end.

(** ** Normalisation of submitted bets *)

(** [amount] is [Math.floor] of the submitted number. *)
Record LiveCrapsBetInput := { li_type : string + Z; li_amount : Z; li_target : option Z }.

Definition resolveLiveBet (bet : LiveCrapsBetInput) : result (Z * Z) :=
  match li_type bet with
  | inl s =>
      match CrapsBetName_of_string (to_upper s) with
      | None => Throw (String.append "Unknown bet type: " s)
      | Some key => Ok (encodeCrapsBet key (li_target bet))
      end
  | inr code => Ok (code, default 0 (li_target bet))
  end.

Fixpoint normalizeBets (c : Config) (bets : list LiveCrapsBetInput) : result (list GlobalTableBetInput) :=
  match bets with
  | [] => Ok []
  | bet :: bets' =>
      let amount := li_amount bet in
      if amount <=? 0 then normalizeBets c bets'
      else
        _ ← throw_if (amount <? cfg_minBet c)
               ("Bet below minimum (" +:+ pretty (cfg_minBet c) +:+ ")");
        _ ← throw_if (cfg_maxBet c <? amount)
               ("Bet exceeds maximum (" +:+ pretty (cfg_maxBet c) +:+ ")");
        tt' ← resolveLiveBet bet;
        output ← normalizeBets c bets';
        Ok ({| gb_betType := tt'.1; gb_target := tt'.2; gb_amount := amount |} :: output)
  end.

(** ** State *)

Record Session := {
  s_id : string;
  s_publicKeyHex : string;
  s_registered : bool;
  s_balance : Z;
  s_open : bool
}.

Record BotState := { bot_registered : bool; bot_balance : option Z; bot_lastBetRoundId : option Z }.

(** Amounts by bet key. *)
Abbreviation BetMap := (gmap (Z * Z) Z).

Record RoundState := {
  roundId : Z;
  phase : LiveTablePhase;
  phaseEndsAt : Z;
  point : option Z;
  dice : option (Z * Z)
}.

Record Books := { totals : BetMap; playerBets : gmap string BetMap }.

Record Settlement := {
  activePlayers : list string;
  pendingSettlements : list string;
  settleInFlight : list string
}.

Record Subscribers := { sessions : gmap string Session; sessionsByKey : gmap string (list string) }.

Record AdminAttempts := { at_open : Z; at_lock : Z; at_reveal : Z; at_finalize : Z }.

Record Broadcasts := { lastBroadcastAt : Z; broadcastInFlight : bool; broadcastQueued : bool }.

Record Table := {
  t_round : RoundState;
  t_books : Books;
  t_settle : Settlement;
  t_subs : Subscribers;
  t_bots : gmap string BotState;
  t_botQueue : list string;
  t_admin : AdminAttempts;
  t_bcast : Broadcasts
}.

Definition with_round (t : Table) (r : RoundState) : Table :=
  {| t_round := r; t_books := t_books t; t_settle := t_settle t; t_subs := t_subs t;
     t_bots := t_bots t; t_botQueue := t_botQueue t; t_admin := t_admin t; t_bcast := t_bcast t |}.
Definition with_books (t : Table) (b : Books) : Table :=
  {| t_round := t_round t; t_books := b; t_settle := t_settle t; t_subs := t_subs t;
     t_bots := t_bots t; t_botQueue := t_botQueue t; t_admin := t_admin t; t_bcast := t_bcast t |}.
Definition with_settle (t : Table) (s : Settlement) : Table :=
  {| t_round := t_round t; t_books := t_books t; t_settle := s; t_subs := t_subs t;
     t_bots := t_bots t; t_botQueue := t_botQueue t; t_admin := t_admin t; t_bcast := t_bcast t |}.
Definition with_subs (t : Table) (s : Subscribers) : Table :=
  {| t_round := t_round t; t_books := t_books t; t_settle := t_settle t; t_subs := s;
     t_bots := t_bots t; t_botQueue := t_botQueue t; t_admin := t_admin t; t_bcast := t_bcast t |}.
Definition with_bots (t : Table) (b : gmap string BotState) : Table :=
  {| t_round := t_round t; t_books := t_books t; t_settle := t_settle t; t_subs := t_subs t;
     t_bots := b; t_botQueue := t_botQueue t; t_admin := t_admin t; t_bcast := t_bcast t |}.
Definition with_queue (t : Table) (q : list string) : Table :=
  {| t_round := t_round t; t_books := t_books t; t_settle := t_settle t; t_subs := t_subs t;
     t_bots := t_bots t; t_botQueue := q; t_admin := t_admin t; t_bcast := t_bcast t |}.
Definition with_admin (t : Table) (a : AdminAttempts) : Table :=
  {| t_round := t_round t; t_books := t_books t; t_settle := t_settle t; t_subs := t_subs t;
     t_bots := t_bots t; t_botQueue := t_botQueue t; t_admin := a; t_bcast := t_bcast t |}.
Definition with_bcast (t : Table) (b : Broadcasts) : Table :=
  {| t_round := t_round t; t_books := t_books t; t_settle := t_settle t; t_subs := t_subs t;
     t_bots := t_bots t; t_botQueue := t_botQueue t; t_admin := t_admin t; t_bcast := b |}.

(** The field initialisers of the class. *)
Definition table_init : Table := {|
  t_round := {| roundId := 0; phase := Ph_cooldown; phaseEndsAt := 0; point := None; dice := None |};
  t_books := {| totals := ∅; playerBets := ∅ |};
  t_settle := {| activePlayers := []; pendingSettlements := []; settleInFlight := [] |};
  t_subs := {| sessions := ∅; sessionsByKey := ∅ |};
  t_bots := ∅; t_botQueue := [];
  t_admin := {| at_open := 0; at_lock := 0; at_reveal := 0; at_finalize := 0 |};
  t_bcast := {| lastBroadcastAt := 0; broadcastInFlight := false; broadcastQueued := false |}
|}.

(** [Set.add], [Set.delete] and [Set.has]. *)
Definition set_has (x : string) (l : list string) : bool := bool_decide (x ∈ l).
Definition set_add (x : string) (l : list string) : list string := if set_has x l then l else l ++ [x].
Definition set_del (x : string) (l : list string) : list string :=
  List.filter (fun y => negb (bool_decide (y = x))) l.

(** ** The books *)

Definition amount_of (m : BetMap) (k : Z * Z) : Z := default 0 (m !! k).

Definition adjustTotals (m : BetMap) (betType target delta : Z) : BetMap :=
  let key := (betType, target) in
  let nextAmount := amount_of m key + delta in
  if nextAmount <=? 0 then delete key m else <[key := nextAmount]> m.

Definition addBetsToTotals (m : BetMap) (bets : list GlobalTableBet) : BetMap :=
  foldl (fun m bet => adjustTotals m (bet_betType bet) (bet_target bet) (bet_amount bet)) m bets.

Definition setTotalsFromRound (ts : list GlobalTableBet) : BetMap :=
  foldl (fun (m : BetMap) total => <[(bet_betType total, bet_target total) := bet_amount total]> m) ∅ ts.

Definition addBets (m : BetMap) (bets : list GlobalTableBet) : BetMap :=
  foldl (fun m bet =>
      let key := (bet_betType bet, bet_target bet) in
      <[key := amount_of m key + bet_amount bet]> m) m bets.

Definition addBetsToMap (map : gmap string BetMap) (playerHex : string) (bets : list GlobalTableBet)
    : gmap string BetMap :=
  <[playerHex := addBets (default ∅ (map !! playerHex)) bets]> map.

Definition buildBetMap (bets : list GlobalTableBet) : BetMap := setTotalsFromRound bets.

(** The keys of both maps, each once. *)
Definition applyTotalsDelta (m before after : BetMap) : BetMap :=
  foldl (fun m key =>
      let delta := amount_of after key - amount_of before key in
      if delta =? 0 then m else adjustTotals m key.1 key.2 delta)
    m (elements (dom before ∪ dom after)).

(** ** Subscribers *)

Definition trackSessionKey (s : Subscribers) (session : Session) : Subscribers :=
  {| sessions := sessions s;
     sessionsByKey := <[s_publicKeyHex session :=
         set_add (s_id session) (default [] (sessionsByKey s !! s_publicKeyHex session))]> (sessionsByKey s) |}.

Definition untrackSessionKey (s : Subscribers) (session : Session) : Subscribers :=
  match sessionsByKey s !! s_publicKeyHex session with
  | None => s
  | Some existing =>
      let existing := set_del (s_id session) existing in
      {| sessions := sessions s;
         sessionsByKey := if bool_decide (existing = []) then delete (s_publicKeyHex session) (sessionsByKey s)
                          else <[s_publicKeyHex session := existing]> (sessionsByKey s) |}
  end.

Definition removeSession (s : Subscribers) (session : Session) : Subscribers :=
  untrackSessionKey {| sessions := delete (s_id session) (sessions s); sessionsByKey := sessionsByKey s |}
    session.

(** The first two statements of [join]; the state message follows. *)
Definition addSession (s : Subscribers) (session : Session) : Subscribers :=
  trackSessionKey {| sessions := <[s_id session := session]> (sessions s); sessionsByKey := sessionsByKey s |}
    session.

Definition idsOf (s : Subscribers) (key : string) : list string := default [] (sessionsByKey s !! key).

(** The first id whose session is present. *)
Definition findSession (s : Subscribers) (key : string) : option Session :=
  head (omap (fun id => sessions s !! id) (idsOf s key)).

(** A session or a bot that can sign for a player. *)
Definition findSigner (t : Table) (key : string) : bool :=
  match findSession (t_subs t) key with
  | Some _ => true
  | None => bool_decide (is_Some (t_bots t !! key))
  end.

Definition updateSessionsBalance (s : Subscribers) (key : string) (balance : Z) : Subscribers :=
  {| sessions := foldl (fun m id =>
         match m !! id with
         | Some x => <[id := {| s_id := s_id x; s_publicKeyHex := s_publicKeyHex x;
                                s_registered := s_registered x; s_balance := balance;
                                s_open := s_open x |}]> m
         | None => m
         end) (sessions s) (idsOf s key);
     sessionsByKey := sessionsByKey s |}.

(** ** Messages *)

Inductive ConfirmStatus := St_pending | St_confirmed | St_failed.

Definition ViewAmount : Type := BetView * Z.

Inductive Payload :=
| P_state (roundId : Z) (phase : LiveTablePhase) (timeRemainingMs playerCount : Z)
    (tableTotals : list ViewAmount) (point : option Z) (dice : option (Z * Z))
    (balance : Z) (myBets : list ViewAmount)
| P_result (roundId : Z) (dice : Z * Z) (total payout netWin : Z) (myBets : list ViewAmount)
    (point : option Z) (balance : option Z)
| P_confirmation (status : ConfirmStatus) (message : string) (roundId : Z) (balance : option Z).

(** A message on the socket of a session. *)
Definition Sent : Type := string * Payload.

Definition sendToSession (s : Subscribers) (session : Session) (p : Payload) : Subscribers * list Sent :=
  if s_open session then (s, [(s_id session, p)]) else (removeSession s session, []).

Definition sendToPlayer (s : Subscribers) (key : string) (p : Payload) : Subscribers * list Sent :=
  foldl (fun '(s, out) id =>
      match sessions s !! id with
      | Some session => let '(s', sent) := sendToSession s session p in (s', out ++ sent)
      | None => (s, out)
      end) (s, []) (idsOf s key).

Definition view_amount (b : GlobalTableBet) : ViewAmount :=
  (betTypeToView (bet_betType b) (bet_target b), to_number (bet_amount b)).

Definition serializeBets (bets : list GlobalTableBet) : list ViewAmount :=
  view_amount <$> List.filter (fun b => 0 <? bet_amount b) bets.

Definition map_bets (m : BetMap) : list GlobalTableBet :=
  (fun '(k, a) => {| bet_betType := k.1; bet_target := k.2; bet_amount := a |}) <$> map_to_list m.

Definition serializeTotals (t : Table) : list ViewAmount := view_amount <$> map_bets (totals (t_books t)).

Definition serializePlayerBets (t : Table) (key : string) : list ViewAmount :=
  match playerBets (t_books t) !! key with
  | None => []
  | Some m => serializeBets (map_bets m)
  end.

(** [buildStatePayload] with a session's balance and bets.  [globalPlayerCount]
    is what the presence service last reported. *)
Definition statePayload (t : Table) (now : Z) (globalPlayerCount : option Z) (session : Session) : Payload :=
  P_state (to_number (roundId (t_round t))) (phase (t_round t))
    (Z.max 0 (phaseEndsAt (t_round t) - now))
    (default (Z.of_nat (size (sessionsByKey (t_subs t)))) globalPlayerCount)
    (serializeTotals t) (point (t_round t)) (dice (t_round t))
    (s_balance session) (serializePlayerBets t (s_publicKeyHex session)).

Definition sendConfirmation (t : Table) (key : string) (status : ConfirmStatus) (message : string)
    (balance rid : option Z) : Table * list Sent :=
  let '(s, out) := sendToPlayer (t_subs t) key
    (P_confirmation status message (to_number (default (roundId (t_round t)) rid)) balance) in
  (with_subs t s, out).

Definition sendLiveResult (t : Table) (key : string) (rid payout : Z) (myBets : list GlobalTableBet)
    : Table * list Sent :=
  let d := default (0, 0) (dice (t_round t)) in
  let '(s, out) := sendToPlayer (t_subs t) key
    (P_result (to_number rid) d (d.1 + d.2) (to_number payout) (to_number payout) (serializeBets myBets)
       (point (t_round t)) (s_balance <$> findSession (t_subs t) key)) in
  (with_subs t s, out).

(** ** Rounds *)

Definition setPhase (r : RoundState) (now : Z) (p : LiveTablePhase) (durationMs : Z) : RoundState :=
  {| roundId := roundId r; phase := p; phaseEndsAt := now + durationMs; point := point r; dice := dice r |}.

Definition set_roundId (r : RoundState) (id : Z) : RoundState :=
  {| roundId := id; phase := phase r; phaseEndsAt := phaseEndsAt r; point := point r; dice := dice r |}.

Definition phaseDuration (c : Config) (p : LiveTablePhase) : Z :=
  match p with
  | Ph_betting => cfg_bettingMs c
  | Ph_locked => cfg_lockMs c
  | Ph_rolling => cfg_lockMs c
  | Ph_payout => cfg_payoutMs c
  | Ph_cooldown => cfg_cooldownMs c
  end.

Definition applyRoundUpdate (c : Config) (now : Z) (t : Table) (round : GlobalTableRound) : Table :=
  let p := mapPhase (r_phase round) in
  let r := setPhase (set_roundId (t_round t) (r_roundId round)) now p (phaseDuration c p) in
  let r := {| roundId := roundId r; phase := phase r; phaseEndsAt := phaseEndsAt r;
              point := if 0 <? r_mainPoint round then Some (r_mainPoint round) else None;
              dice := if (0 <? r_d1 round) && (0 <? r_d2 round) then Some (r_d1 round, r_d2 round) else None |} in
  with_books (with_round t r)
    {| totals := setTotalsFromRound (r_totals round); playerBets := playerBets (t_books t) |}.

(** [requestBroadcast]: what it does to the flags, and whether it starts
    [flushBroadcast]. *)
Definition requestBroadcast (c : Config) (now : Z) (force : bool) (t : Table) : Table * bool :=
  let b := t_bcast t in
  if bool_decide (sessions (t_subs t) = ∅) then (t, false)
  else if negb force && (now - lastBroadcastAt b <? cfg_broadcastIntervalMs c) then (t, false)
  else if broadcastInFlight b then
    (with_bcast t {| lastBroadcastAt := lastBroadcastAt b; broadcastInFlight := true;
                     broadcastQueued := true |}, false)
  else
    (with_bcast t {| lastBroadcastAt := now; broadcastInFlight := true;
                     broadcastQueued := broadcastQueued b |}, true).

(** The [finally] block of [flushBroadcast]. *)
Definition flushDone (c : Config) (now : Z) (t : Table) : Table * bool :=
  let b := t_bcast t in
  let t' := with_bcast t {| lastBroadcastAt := lastBroadcastAt b; broadcastInFlight := false;
                            broadcastQueued := false |} in
  if broadcastQueued b then requestBroadcast c now true t' else (t', false).

(** ** Events *)

(** The balance of a snapshot reaches the sessions and the bot of the player. *)
Definition setBalance (t : Table) (key : string) (chips : Z) : Table :=
  let t := with_subs t (updateSessionsBalance (t_subs t) key chips) in
  match t_bots t !! key with
  | Some bot => with_bots t (<[key := {| bot_registered := bot_registered bot; bot_balance := Some chips;
                                         bot_lastBetRoundId := bot_lastBetRoundId bot |}]> (t_bots t))
  | None => t
  end.

(** [handleGlobalTableEvent] without the broadcast request that ends every case
    but [bet_rejected]. *)
Definition handleEventBody (c : Config) (now : Z) (t : Table) (event : GlobalTableEvent)
    : Table * list Sent :=
  match event with
  | Gt_round_opened round =>
      let t := applyRoundUpdate c now t round in
      (with_queue t (elements (dom (t_bots t))), [])
  | Gt_locked _ rid _ =>
      (with_round t (setPhase (set_roundId (t_round t) rid) now Ph_locked (cfg_lockMs c)), [])
  | Gt_outcome round =>
      let t := applyRoundUpdate c now t round in
      let s := t_settle t in
      (with_settle t {| activePlayers := activePlayers s; pendingSettlements := activePlayers s;
                        settleInFlight := [] |}, [])
  | Gt_finalized _ rid =>
      (with_round t (setPhase (set_roundId (t_round t) rid) now Ph_cooldown (cfg_cooldownMs c)), [])
  | Gt_bet_accepted player rid bets balanceSnapshot =>
      let playerHex := to_hex player in
      let t :=
        if negb (roundId (t_round t) =? rid) then
          let r := set_roundId (t_round t) rid in
          with_round t (if bool_decide (phase r = Ph_betting) then r
                        else setPhase r now Ph_betting (cfg_bettingMs c))
        else t in
      let s := t_settle t in
      let t := with_settle t {| activePlayers := set_add playerHex (activePlayers s);
                                pendingSettlements := pendingSettlements s;
                                settleInFlight := settleInFlight s |} in
      let b := t_books t in
      let t := with_books t {| totals := addBetsToTotals (totals b) bets;
                               playerBets := addBetsToMap (playerBets b) playerHex bets |} in
      let t := setBalance t playerHex (chips balanceSnapshot) in
      sendConfirmation t playerHex St_confirmed "On-chain bet accepted" (Some (chips balanceSnapshot))
        (Some rid)
  | Gt_bet_rejected player _ _ message =>
      sendConfirmation t (to_hex player) St_failed
        (if bool_decide (message = EmptyString) then "Bet rejected" else message) None None
  | Gt_player_settled player rid payout balanceSnapshot myBets =>
      let playerHex := to_hex player in
      let b := t_books t in
      let before := default ∅ (playerBets b !! playerHex) in
      let after := buildBetMap myBets in
      let t := with_books t {| totals := applyTotalsDelta (totals b) before after;
                               playerBets := <[playerHex := after]> (playerBets b) |} in
      let s := t_settle t in
      let t := with_settle t {| activePlayers := activePlayers s;
                                pendingSettlements := set_del playerHex (pendingSettlements s);
                                settleInFlight := set_del playerHex (settleInFlight s) |} in
      let t := setBalance t playerHex (chips balanceSnapshot) in
      sendLiveResult t playerHex rid payout myBets
  end.

Definition handleGlobalTableEvent (c : Config) (now : Z) (t : Table) (event : GlobalTableEvent)
    : Table * list Sent * bool :=
  let '(t, out) := handleEventBody c now t event in
  match event with
  | Gt_bet_rejected _ _ _ _ => (t, out, false)
  | _ => let '(t, flush) := requestBroadcast c now true t in (t, out, flush)
  end.

(** ** Administration

    Submissions go out as instructions; whether the node accepted one comes back
    as a later input. *)

Inductive admin_action := A_open | A_lock | A_reveal | A_finalize.

Definition last_attempt (a : AdminAttempts) (x : admin_action) : Z :=
  match x with
  | A_open => at_open a
  | A_lock => at_lock a
  | A_reveal => at_reveal a
  | A_finalize => at_finalize a
  end.

Definition set_attempt (a : AdminAttempts) (x : admin_action) (now : Z) : AdminAttempts :=
  match x with
  | A_open => {| at_open := now; at_lock := at_lock a; at_reveal := at_reveal a; at_finalize := at_finalize a |}
  | A_lock => {| at_open := at_open a; at_lock := now; at_reveal := at_reveal a; at_finalize := at_finalize a |}
  | A_reveal => {| at_open := at_open a; at_lock := at_lock a; at_reveal := now; at_finalize := at_finalize a |}
  | A_finalize => {| at_open := at_open a; at_lock := at_lock a; at_reveal := at_reveal a; at_finalize := now |}
  end.

Definition shouldAttempt (c : Config) (now : Z) (t : Table) (x : admin_action) : Table * bool :=
  if now - last_attempt (t_admin t) x <? cfg_adminRetryMs c then (t, false)
  else (with_admin t (set_attempt (t_admin t) x now), true).

Definition attemptOpenRound (c : Config) (now : Z) (t : Table) : Table * option Instruction :=
  let '(t, go) := shouldAttempt c now t A_open in
  if negb go then (t, None)
  else if negb (bool_decide (pendingSettlements (t_settle t) = []))
          || negb (bool_decide (settleInFlight (t_settle t) = [])) then (t, None)
  else (t, Some (I_OpenRound (GameType_code Game_Craps))).

(** The other three attempts need a round. *)
Definition attemptRound (c : Config) (now : Z) (t : Table) (x : admin_action) (i : Z -> Instruction)
    : Table * option Instruction :=
  let '(t, go) := shouldAttempt c now t x in
  if negb go then (t, None)
  else if roundId (t_round t) =? 0 then (t, None)
  else (t, Some (i (roundId (t_round t)))).

Definition attemptLockRound (c : Config) (now : Z) (t : Table) : Table * option Instruction :=
  attemptRound c now t A_lock (I_Lock (GameType_code Game_Craps)).
Definition attemptRevealRound (c : Config) (now : Z) (t : Table) : Table * option Instruction :=
  attemptRound c now t A_reveal (I_Reveal (GameType_code Game_Craps)).
Definition attemptFinalizeRound (c : Config) (now : Z) (t : Table) : Table * option Instruction :=
  attemptRound c now t A_finalize (I_Finalize (GameType_code Game_Craps)).

(** The phase dispatch of [tick], with the admin signer configured. *)
Definition tickPhase (c : Config) (now : Z) (t : Table) : Table * option Instruction :=
  let r := t_round t in
  if phaseEndsAt r <=? now then
    match phase r with
    | Ph_betting => attemptLockRound c now t
    | Ph_locked => attemptRevealRound c now t
    | Ph_payout => attemptFinalizeRound c now t
    | Ph_cooldown => attemptOpenRound c now t
    | Ph_rolling => (t, None)
    end
  else (t, None).

(** The keys [processSettlements] goes through. *)
Definition settlementBatch (c : Config) (t : Table) : list string :=
  if roundId (t_round t) =? 0 then [] else take (cfg_settleBatchSize c) (pendingSettlements (t_settle t)).

(** The loop body up to the submission. *)
Definition settleBegin (t : Table) (key : string) : Table * option Instruction :=
  let s := t_settle t in
  if set_has key (settleInFlight s) then (t, None)
  else if negb (findSigner t key) then
    (with_settle t {| activePlayers := activePlayers s; pendingSettlements := set_del key (pendingSettlements s);
                      settleInFlight := settleInFlight s |}, None)
  else (t, Some (I_Settle (GameType_code Game_Craps) (roundId (t_round t)))).

(** What follows the answer of the node. *)
Definition settleEnd (t : Table) (key : string) (accepted : bool) : Table :=
  let s := t_settle t in
  if accepted then
    with_settle t {| activePlayers := activePlayers s; pendingSettlements := set_del key (pendingSettlements s);
                     settleInFlight := set_add key (settleInFlight s) |}
  else t.

(** ** Placing bets *)

Inductive LiveTableError :=
| Le_LIVE_TABLE_DISABLED | Le_NOT_SUBSCRIBED | Le_NOT_REGISTERED | Le_LIVE_TABLE_NOT_READY
| Le_INVALID_BET (message : string).

(** [placeBets] up to the submission of the instruction, with the table started. *)
Definition placeBets (c : Config) (enabled : bool) (t : Table) (session : Session)
    (bets : list LiveCrapsBetInput) : LiveTableError + Instruction :=
  if negb enabled then inl Le_LIVE_TABLE_DISABLED
  else if negb (bool_decide (is_Some (sessions (t_subs t) !! s_id session))) then inl Le_NOT_SUBSCRIBED
  else if negb (s_registered session) then inl Le_NOT_REGISTERED
  else if roundId (t_round t) =? 0 then inl Le_LIVE_TABLE_NOT_READY
  else
    match normalizeBets c bets with
    | Throw msg => inl (Le_INVALID_BET msg)
    | Ok normalized =>
        if len normalized =? 0 then inl (Le_INVALID_BET "No bets submitted")
        else if cfg_maxBetsPerRound c <? len normalized then inl (Le_INVALID_BET "Too many bets submitted")
        else inr (I_SubmitBets (GameType_code Game_Craps) (roundId (t_round t)) normalized)
    end.

(** The confirmation after an accepted submission. *)
Definition placeBetsEnd (t : Table) (session : Session) : Table * list Sent :=
  sendConfirmation t (s_publicKeyHex session) St_pending "Awaiting on-chain confirmation"
    (Some (s_balance session)) (Some (roundId (t_round t))).

Definition join (t : Table) (now : Z) (globalPlayerCount : option Z) (session : Session) : Table * list Sent :=
  let t := with_subs t (addSession (t_subs t) session) in
  let '(s, out) := sendToSession (t_subs t) session (statePayload t now globalPlayerCount session) in
  (with_subs t s, out).

Definition leave (t : Table) (session : Session) : Table :=
  with_subs t (removeSession (t_subs t) session).

(** ** The table as a reactive system

    The inputs of the running table in the order its event loop takes them.  A
    [tick] is its phase dispatch [In_tick], the loop bodies [In_settle] of the
    keys of [settlementBatch], and a broadcast request; the answers of the node
    arrive as [In_answer] and [In_placed], which other inputs may precede. *)
Inductive Input :=
| In_event (now : Z) (e : GlobalTableEvent)
| In_tick (now : Z)
| In_settle (key : string)
| In_answer (key : string) (accepted : bool)
| In_broadcast (now : Z)
| In_flushed (now : Z)
| In_join (now : Z) (globalPlayerCount : option Z) (session : Session)
| In_leave (session : Session)
| In_place (enabled : bool) (session : Session) (bets : list LiveCrapsBetInput)
| In_placed (session : Session).

(** The state after an input, the messages sent and the instruction submitted. *)
Definition table_step (c : Config) (t : Table) (i : Input) : Table * list Sent * option Instruction :=
  match i with
  | In_event now e => let '(t, out, _) := handleGlobalTableEvent c now t e in (t, out, None)
  | In_tick now => let '(t, i) := tickPhase c now t in (t, [], i)
  | In_settle key => let '(t, i) := settleBegin t key in (t, [], i)
  | In_answer key accepted => (settleEnd t key accepted, [], None)
  | In_broadcast now =>
      if bool_decide (sessions (t_subs t) = ∅) then (t, [], None)
      else ((requestBroadcast c now false t).1, [], None)
  | In_flushed now => ((flushDone c now t).1, [], None)
  | In_join now count session => let '(t, out) := join t now count session in (t, out, None)
  | In_leave session => (leave t session, [], None)
  | In_place enabled session bets =>
      (t, [], match placeBets c enabled t session bets with inl _ => None | inr i => Some i end)
  | In_placed session => let '(t, out) := placeBetsEnd t session in (t, out, None)
  end.

(** The final state and what each input submitted. *)
Fixpoint table_run (c : Config) (t : Table) (inputs : list Input) : Table * list (Input * option Instruction) :=
  match inputs with
  | [] => (t, [])
  | i :: inputs' =>
      let '(t1, _, sub) := table_step c t i in
      let '(t2, trace) := table_run c t1 inputs' in
      (t2, (i, sub) :: trace)
  end.
