(* ===== verification/LiveTableCorrect.v ===== *)
(** * Correctness of the live table

    The bet views, the checks on submitted bets, the agreement of the totals
    with the players' bets, the index of the subscribers and the delivery of
    messages, and what can keep the table from opening its next round. *)

From Stdlib Require Import Sorting.Sorted.
From S2P Require Import Prelude JsNum Bytes Constants Batch Reader BinaryReader Events EventsWire Instructions LiveTable.

(** ** Views *)

(** The target a client gets back for a bet it named. *)
Definition view_target (type : CrapsBetName) (target : option Z) : option Z :=
  match type with
  | Craps_YES | Craps_NO | Craps_NEXT => Some (default 0 target)
  | Craps_HARDWAY =>
      match target with
      | Some 6 => Some 6
      | Some 8 => Some 8
      | Some 10 => Some 10
      | _ => Some 4
      end
  | _ => None
  end.

(** Encoding a craps bet and showing it again gives the same bet: the view
    of an encoded bet has the bet's name, with the target for the bets on a
    number and the hardway number for hardways.  A hardway bet whose target is
    missing or is not 4, 6, 8 or 10 is encoded and shown as a hardway on 4. *)
Theorem crapsBet_view type target :
  betTypeToView (encodeCrapsBet type target).1 (encodeCrapsBet type target).2
  = (inl type, view_target type target).
Proof.
  destruct type; try reflexivity. unfold encodeCrapsBet, view_target, CRAPS_HARDWAY_MAP.
  destruct target as [t|]; [|reflexivity]. cbn.
  repeat (case_match; simplify_eq/=; try reflexivity).
Qed.

(** ** Submitted bets *)

Definition positive_bets (bets : list LiveCrapsBetInput) : list LiveCrapsBetInput :=
  List.filter (fun b => 0 <? li_amount b) bets.

Lemma normalizeBets_spec c bets out :
  normalizeBets c bets = Ok out ->
  Forall (fun b => 0 < gb_amount b /\ cfg_minBet c <= gb_amount b <= cfg_maxBet c) out
  /\ Forall2 (fun i b => resolveLiveBet i = Ok (gb_betType b, gb_target b) /\ gb_amount b = li_amount i)
       (positive_bets bets) out.
Proof.
  revert out. induction bets as [|bet bets IH]; intros out; cbn [normalizeBets]; [intros [= <-]; by split|].
  unfold positive_bets. cbn [List.filter]. destruct (li_amount bet <=? 0) eqn:E; bprop.
  - rewrite (proj2 (Z.ltb_ge 0 (li_amount bet))) by lia. apply IH.
  - rewrite (proj2 (Z.ltb_lt 0 (li_amount bet))) by lia. unfold throw_if.
    destruct (li_amount bet <? cfg_minBet c) eqn:E1; [done|].
    destruct (cfg_maxBet c <? li_amount bet) eqn:E2; [done|]. bprop. cbn [mbind result_bind].
    destruct (resolveLiveBet bet) as [[ty tg]|] eqn:Er; [|done]. cbn [mbind result_bind].
    destruct (normalizeBets c bets) as [out'|] eqn:En; [|done]. cbn [mbind result_bind]. intros [= <-].
    destruct (IH _ eq_refl) as [H1 H2].
    split; constructor; [cbn; lia|exact H1|by cbn|exact H2].
Qed.

(** Bets reach the chain only when they may: [placeBets] produces an
    instruction only for a registered subscriber of an enabled table with a
    round, and the instruction carries, for that round, exactly the submitted
    bets of positive amount, resolved, at least one and at most the configured
    number, each within the table's limits; the encoder accepts it. *)
Theorem placeBets_sound c enabled t session bets i :
  cfg_maxBetsPerRound c < 2 ^ 31 ->
  placeBets c enabled t session bets = inr i ->
  enabled = true /\ is_Some (sessions (t_subs t) !! s_id session) /\ s_registered session = true
  /\ roundId (t_round t) <> 0
  /\ exists out, i = I_SubmitBets 3 (roundId (t_round t)) out
     /\ 1 <= len out <= cfg_maxBetsPerRound c
     /\ Forall (fun b => 0 < gb_amount b /\ cfg_minBet c <= gb_amount b <= cfg_maxBet c) out
     /\ Forall2 (fun i b => resolveLiveBet i = Ok (gb_betType b, gb_target b) /\ gb_amount b = li_amount i)
          (positive_bets bets) out
     /\ encodeInstruction i = Ok (instructionBytes i).
Proof.
  intros Hmax. unfold placeBets. destruct enabled; [|done]. cbn [negb].
  case_bool_decide as Hs; [|done]. cbn [negb]. destruct (s_registered session); [|done]. cbn [negb].
  destruct (roundId (t_round t) =? 0) eqn:Er; [done|].
  destruct (normalizeBets c bets) as [out|] eqn:En; [|done].
  destruct (len out =? 0) eqn:El; [done|]. destruct (cfg_maxBetsPerRound c <? len out) eqn:Em; [done|].
  intros [= <-]. bprop. destruct (normalizeBets_spec _ _ _ En) as [H1 H2].
  repeat split_and!; try done. exists out. pose proof (len_nonneg out).
  repeat split_and!; try done; try lia.
  exact (encodeInstruction_layout (I_SubmitBets _ _ out) ltac:(intros g r bets' [= <- <- <-]; lia)).
Qed.

Definition sample_session : Session :=
  {| s_id := "s1"; s_publicKeyHex := "aa"; s_registered := true; s_balance := 100; s_open := true |}.

Definition sample_table : Table :=
  with_round (with_subs table_init (addSession (t_subs table_init) sample_session))
    {| roundId := 7; phase := Ph_betting; phaseEndsAt := 0; point := None; dice := None |}.

Lemma placeBets_sound_witness :
  exists i, placeBets CONFIG true sample_table sample_session
      [{| li_type := inl "pass"; li_amount := 10; li_target := None |};
       {| li_type := inl "hardway"; li_amount := 0; li_target := Some 6 |}] = inr i
    /\ roundId (t_round sample_table) <> 0.
Proof.
  eexists. split; [reflexivity|].
  apply (placeBets_sound CONFIG true sample_table sample_session
    [{| li_type := inl "pass"; li_amount := 10; li_target := None |};
     {| li_type := inl "hardway"; li_amount := 0; li_target := Some 6 |}]
    (I_SubmitBets 3 7 [{| gb_betType := 0; gb_target := 0; gb_amount := 10 |}])); [cbn; lia|reflexivity].
Defined.

(** ** The books *)

Definition booked (pb : gmap string BetMap) (k : Z * Z) : Z :=
  map_fold (fun _ m acc => amount_of m k + acc) 0 pb.

Definition nonneg (m : BetMap) : Prop := forall k, 0 <= amount_of m k.

(** The totals are the sums of the players' bets, and [d] beyond them: the bets that
    the chain has announced, of players whose bets the gateway has not seen. *)
Record consistent (d : Z * Z -> Z) (b : Books) : Prop := {
  co_totals : forall k, amount_of (totals b) k = booked (playerBets b) k + d k;
  co_nonneg : forall p m, playerBets b !! p = Some m -> nonneg m
}.

Lemma booked_insert_new pb p m k :
  pb !! p = None -> booked (<[p := m]> pb) k = amount_of m k + booked pb k.
Proof. intros H. unfold booked. rewrite map_fold_insert_L; [done| |done]. intros. lia. Qed.

Lemma booked_insert pb p m k :
  booked (<[p := m]> pb) k = booked pb k + amount_of m k - amount_of (default ∅ (pb !! p)) k.
Proof.
  destruct (pb !! p) as [m0|] eqn:E; cbn.
  - rewrite <- (insert_delete_id pb p m0 E) at 2. rewrite <- (insert_delete_eq pb p m).
    rewrite !booked_insert_new by apply lookup_delete_eq. lia.
  - rewrite booked_insert_new by done. unfold amount_of at 3. rewrite lookup_empty. cbn. lia.
Qed.

Lemma booked_nonneg pb k : (forall p m, pb !! p = Some m -> nonneg m) -> 0 <= booked pb k.
Proof.
  unfold booked. revert pb. apply (map_fold_weak_ind (fun r pb => (forall p m, pb !! p = Some m -> nonneg m) -> 0 <= r)).
  - lia.
  - intros p m pb r Hp IH H. assert (0 <= r).
    { apply IH. intros p' m' H'. apply (H p'). rewrite lookup_insert_ne; [done|]. congruence. }
    assert (nonneg m) as Hm by (apply (H p); apply lookup_insert_eq). specialize (Hm k). lia.
Qed.

Lemma amount_adjust m ty tg d k :
  amount_of (adjustTotals m ty tg d) k
  = if bool_decide (k = (ty, tg)) then Z.max 0 (amount_of m k + d) else amount_of m k.
Proof.
  unfold adjustTotals. cbv zeta. case_bool_decide as E.
  - subst k. destruct (_ <=? 0) eqn:Ez; bprop; unfold amount_of at 1.
    + rewrite lookup_delete_eq. cbn. lia.
    + rewrite lookup_insert_eq. cbn. lia.
  - destruct (_ <=? 0); unfold amount_of.
    + by rewrite lookup_delete_ne by congruence.
    + by rewrite lookup_insert_ne by congruence.
Qed.

(** The amount a bet list adds at a key. *)
Definition staked (bets : list GlobalTableBet) (k : Z * Z) : Z :=
  zsum (fun b => if bool_decide (k = (bet_betType b, bet_target b)) then bet_amount b else 0) bets.

Definition amounts_ok (bets : list GlobalTableBet) : Prop := Forall (fun b => 0 <= bet_amount b) bets.

Lemma staked_nonneg bets k : amounts_ok bets -> 0 <= staked bets k.
Proof.
  intros H. apply zsum_nonneg. intros b Hb. unfold amounts_ok in H. rewrite Forall_forall in H.
  specialize (H b Hb). case_bool_decide; lia.
Qed.

Lemma amount_addBetsToTotals bets m k :
  amounts_ok bets -> nonneg m -> amount_of (addBetsToTotals m bets) k = amount_of m k + staked bets k.
Proof.
  unfold addBetsToTotals. intros Hb. revert m. induction Hb as [|b bets Hb Hbs IH]; intros m Hm; cbn [foldl].
  - unfold staked. rewrite zsum_nil. lia.
  - rewrite IH.
    + rewrite amount_adjust. unfold staked. rewrite zsum_cons. specialize (Hm k).
      case_bool_decide; lia.
    + intros k'. rewrite amount_adjust. specialize (Hm k'). case_bool_decide; lia.
Qed.

Lemma amount_addBets bets m k : amount_of (addBets m bets) k = amount_of m k + staked bets k.
Proof.
  unfold addBets. revert m. induction bets as [|b bets IH]; intros m; cbn [foldl].
  - unfold staked. rewrite zsum_nil. lia.
  - rewrite IH. unfold staked. rewrite zsum_cons. unfold amount_of at 1. case_bool_decide as E.
    + subst k. rewrite lookup_insert_eq. cbn. lia.
    + rewrite lookup_insert_ne by congruence. fold (amount_of m k). lia.
Qed.

Lemma nonneg_setTotals ts : amounts_ok ts -> nonneg (setTotalsFromRound ts).
Proof.
  unfold setTotalsFromRound. intros Hts.
  assert (G : forall m, nonneg m -> nonneg (foldl (fun (m : BetMap) total =>
    <[(bet_betType total, bet_target total) := bet_amount total]> m) m ts)).
  { induction Hts as [|b ts Hb _ IH]; intros m Hm; cbn [foldl]; [done|]. apply IH. intros k.
    unfold amount_of. destruct (decide (k = (bet_betType b, bet_target b))) as [->|Hne].
    - by rewrite lookup_insert_eq.
    - rewrite lookup_insert_ne by congruence. apply Hm. }
  apply G. intros k. unfold amount_of. by rewrite lookup_empty.
Qed.

Lemma amount_applyTotalsDelta m before after k :
  nonneg m ->
  amount_of (applyTotalsDelta m before after) k
  = Z.max 0 (amount_of m k + amount_of after k - amount_of before k).
Proof.
  intros Hm. unfold applyTotalsDelta.
  set (f := fun (m : BetMap) key => _).
  assert (G : forall ks m, NoDup ks -> nonneg m ->
    amount_of (foldl f m ks) k
    = if bool_decide (k ∈ ks) then Z.max 0 (amount_of m k + amount_of after k - amount_of before k)
      else amount_of m k).
  { clear m Hm. induction ks as [|key ks IH]; intros m Hnd Hm; cbn [foldl].
    - by rewrite bool_decide_eq_false_2 by set_solver.
    - apply NoDup_cons in Hnd as [Hnin Hnd].
      assert (Hf : forall k', amount_of (f m key) k'
        = if bool_decide (k' = key) then Z.max 0 (amount_of m k' + amount_of after k' - amount_of before k')
          else amount_of m k').
      { intros k'. unfold f. specialize (Hm k'). destruct (amount_of after key - amount_of before key =? 0) eqn:E; bprop.
        - destruct (bool_decide_reflect (k' = key)); [subst k'; lia|done].
        - rewrite amount_adjust. destruct key as [ty tg]. cbn [fst snd].
          destruct (bool_decide_reflect (k' = (ty, tg))); [subst k'; f_equal; lia|done]. }
      rewrite IH; [|done|].
      + rewrite !Hf. destruct (decide (k = key)) as [->|Hne].
        * rewrite (bool_decide_eq_false_2 (key ∈ ks)), !bool_decide_eq_true_2 by set_solver. done.
        * rewrite (bool_decide_eq_false_2 (k = key)) by done.
          case_bool_decide; [rewrite bool_decide_eq_true_2 by set_solver|rewrite bool_decide_eq_false_2 by set_solver]; done.
      + intros k'. rewrite Hf. specialize (Hm k'). destruct (bool_decide (k' = key)); lia. }
  rewrite G; [|apply NoDup_elements|done]. case_bool_decide as Hin; [done|].
  assert (amount_of after k = 0 /\ amount_of before k = 0) as [-> ->].
  { rewrite elem_of_elements, elem_of_union, !elem_of_dom in Hin. unfold amount_of.
    destruct (after !! k) eqn:?, (before !! k) eqn:?; cbn; try done; exfalso; apply Hin; eauto. }
  specialize (Hm k). lia.
Qed.

Section Beyond.
Context (d : Z * Z -> Z) (Hd : forall k, 0 <= d k).

Lemma nonneg_totals b : consistent d b -> nonneg (totals b).
Proof. intros [Ht Hn] k. rewrite Ht. pose proof (booked_nonneg _ k Hn). specialize (Hd k). lia. Qed.

Lemma consistent_accept b p bets :
  amounts_ok bets -> consistent d b ->
  consistent d {| totals := addBetsToTotals (totals b) bets; playerBets := addBetsToMap (playerBets b) p bets |}.
Proof.
  intros Hb Hc. pose proof (nonneg_totals b Hc) as Hnt. destruct Hc as [Ht Hn]. unfold addBetsToMap.
  split; cbn.
  - intros k. rewrite amount_addBetsToTotals, booked_insert, amount_addBets, Ht by done. lia.
  - intros p' m. destruct (decide (p' = p)) as [->|Hne].
    + rewrite lookup_insert_eq. intros [= <-] k. rewrite amount_addBets. pose proof (staked_nonneg bets k Hb).
      destruct (playerBets b !! p) as [m0|] eqn:E; cbn; [specialize (Hn _ _ E k); lia|].
      unfold amount_of. rewrite lookup_empty. cbn. lia.
    + rewrite lookup_insert_ne by congruence. apply Hn.
Qed.

Lemma consistent_settled b p after :
  nonneg after -> consistent d b ->
  consistent d {| totals := applyTotalsDelta (totals b) (default ∅ (playerBets b !! p)) after;
                  playerBets := <[p := after]> (playerBets b) |}.
Proof.
  intros Ha Hc. pose proof (nonneg_totals b Hc) as Hnt. destruct Hc as [Ht Hn].
  assert (Hi : forall p' m, <[p := after]> (playerBets b) !! p' = Some m -> nonneg m).
  { intros p' m. destruct (decide (p' = p)) as [->|Hne].
    - rewrite lookup_insert_eq. by intros [= <-].
    - rewrite lookup_insert_ne by congruence. apply Hn. }
  split; cbn; [|done]. intros k. pose proof (booked_nonneg _ k Hi) as Hb. specialize (Hd k).
  rewrite amount_applyTotalsDelta by done. rewrite booked_insert in *. rewrite Ht. lia.
Qed.
End Beyond.

(** The round whose totals an event announces. *)
Definition announced (e : GlobalTableEvent) : option GlobalTableRound :=
  match e with
  | Gt_round_opened r | Gt_outcome r => Some r
  | _ => None
  end.

Definition event_amounts (e : GlobalTableEvent) : Prop :=
  match e with
  | Gt_bet_accepted _ _ bets _ => amounts_ok bets
  | Gt_player_settled _ _ _ _ bets => amounts_ok bets
  | _ => True
  end.

Lemma sendConfirmation_books t k st m b r : t_books (sendConfirmation t k st m b r).1 = t_books t.
Proof. unfold sendConfirmation. by destruct (sendToPlayer _ _ _). Qed.

Lemma sendLiveResult_books t k r p bs : t_books (sendLiveResult t k r p bs).1 = t_books t.
Proof. unfold sendLiveResult. by destruct (sendToPlayer _ _ _). Qed.

Lemma setBalance_books t k c : t_books (setBalance t k c) = t_books t.
Proof. unfold setBalance. cbn. by destruct (t_bots t !! k). Qed.

Lemma requestBroadcast_books c now f t : t_books (requestBroadcast c now f t).1 = t_books t.
Proof. unfold requestBroadcast. repeat split_if; reflexivity. Qed.

Lemma handleGlobalTableEvent_body {A} c now t e (f : Table -> A) :
  (forall t, f (requestBroadcast c now true t).1 = f t) ->
  f (handleGlobalTableEvent c now t e).1.1 = f (handleEventBody c now t e).1.
Proof.
  intros Hf. unfold handleGlobalTableEvent. destruct (handleEventBody c now t e) as [t' out]. cbn.
  specialize (Hf t'). destruct e; destruct (requestBroadcast c now true t'); cbn in *; done.
Qed.

(** C2. The displayed totals are the players' bets that the gateway knows, and what
    the chain has announced beyond them.  An event that opens a round or tells
    its outcome replaces the totals by those it announces and leaves the bets of
    the players as they are; every other event, the acceptance of any bets and the
    settlement of any player included, with amounts that are not negative, keeps what the totals are beyond the bets,
    if they are not below them. *)
Theorem totals_consistent c now t e d :
  (forall k, 0 <= d k) -> consistent d (t_books t) -> event_amounts e ->
  let books := t_books (handleGlobalTableEvent c now t e).1.1 in
  match announced e with
  | Some r => books = {| totals := setTotalsFromRound (r_totals r); playerBets := playerBets (t_books t) |}
  | None => consistent d books
  end.
Proof.
  intros Hd Hc He. cbv zeta.
  rewrite (handleGlobalTableEvent_body c now t e t_books) by apply requestBroadcast_books.
  destruct e as [r|p rid bets bal|p rid code m|g rid ends|r|p rid pay bal bets|g rid];
    cbn [handleEventBody announced]; try exact Hc.
  - done.
  - rewrite sendConfirmation_books, setBalance_books. cbn [with_books t_books].
    destruct (negb _); cbn; by apply consistent_accept.
  - by rewrite sendConfirmation_books.
  - done.
  - rewrite sendLiveResult_books, setBalance_books. cbn [with_settle with_books t_books].
    apply consistent_settled; [done| |done]. by apply nonneg_setTotals.
Qed.

Definition sample_bet (a : Z) : GlobalTableBet := {| bet_betType := 0; bet_target := 0; bet_amount := a |}.

(** The chain has announced seven chips of players unknown to the gateway. *)
Lemma totals_consistent_witness :
  let d k := if bool_decide (k = (0, 0)) then 7 else 0 in
  let opened := with_books table_init {| totals := setTotalsFromRound [sample_bet 7]; playerBets := ∅ |} in
  consistent d (t_books (handleGlobalTableEvent CONFIG 0 opened
    (Gt_bet_accepted (zeros 32) 7 [sample_bet 10; sample_bet 5] {| chips := 85; vusdt := 0; rng := 0 |})).1.1).
Proof.
  intros d opened.
  refine (totals_consistent CONFIG 0 opened
    (Gt_bet_accepted (zeros 32) 7 [sample_bet 10; sample_bet 5] {| chips := 85; vusdt := 0; rng := 0 |}) d _ _ _).
  - intros k. unfold d. case_bool_decide; lia.
  - split; [|intros p m H; cbn in H; by rewrite lookup_empty in H]. intros k. unfold d. cbn. unfold amount_of.
    case_bool_decide as E; [by subst|]. by rewrite lookup_insert_ne by congruence.
  - repeat constructor; cbn; lia.
Defined.

(** ** Subscribers *)

Section Subscribers.
Context (keyOf : string -> string).

(** Session ids belong to one key. *)
Definition session_ok (x : Session) : Prop := s_publicKeyHex x = keyOf (s_id x).

Record subs_inv (s : Subscribers) : Prop := {
  su_sessions : forall id x, sessions s !! id = Some x -> s_id x = id /\ session_ok x;
  su_index : forall id key, id ∈ idsOf s key <-> is_Some (sessions s !! id) /\ keyOf id = key;
  su_nodup : forall key, NoDup (idsOf s key)
}.

Lemma elem_of_set_del x y l : y ∈ set_del x l <-> y ∈ l /\ y <> x.
Proof.
  unfold set_del. rewrite !list_elem_of_In, filter_In. rewrite negb_true_iff, bool_decide_eq_false. done.
Qed.

Lemma elem_of_set_add x y l : y ∈ set_add x l <-> y ∈ l \/ y = x.
Proof.
  unfold set_add, set_has. case_bool_decide; [|rewrite elem_of_app, list_elem_of_singleton; done].
  split; [auto|]. intros [?| ->]; done.
Qed.

Lemma NoDup_set_add x l : NoDup l -> NoDup (set_add x l).
Proof.
  intros H. unfold set_add, set_has. case_bool_decide; [done|]. apply NoDup_app. split; [done|].
  split; [|apply NoDup_singleton]. intros y Hy ->%list_elem_of_singleton. done.
Qed.

Lemma NoDup_set_del x l : NoDup l -> NoDup (set_del x l).
Proof. intros H. apply NoDup_ListNoDup, List.NoDup_filter, NoDup_ListNoDup, H. Qed.

Lemma idsOf_track s x key :
  idsOf (trackSessionKey s x) key
  = if bool_decide (key = s_publicKeyHex x) then set_add (s_id x) (idsOf s key) else idsOf s key.
Proof.
  unfold idsOf, trackSessionKey. cbn. case_bool_decide; [subst; by rewrite lookup_insert_eq|].
  by rewrite lookup_insert_ne by congruence.
Qed.

Lemma idsOf_untrack s x key :
  idsOf (untrackSessionKey s x) key
  = if bool_decide (key = s_publicKeyHex x) then set_del (s_id x) (idsOf s key) else idsOf s key.
Proof.
  unfold idsOf, untrackSessionKey. case_bool_decide as Hk.
  - subst key. destruct (sessionsByKey s !! s_publicKeyHex x) as [l|] eqn:E; [|by rewrite E].
    cbn [sessionsByKey default]. case_bool_decide as He.
    + rewrite lookup_delete_eq. symmetry. exact He.
    + by rewrite lookup_insert_eq.
  - destruct (sessionsByKey s !! s_publicKeyHex x) as [l|] eqn:E; cbn; [|done].
    case_bool_decide; [by rewrite lookup_delete_ne by congruence|by rewrite lookup_insert_ne by congruence].
Qed.

Lemma sessions_untrack s x : sessions (untrackSessionKey s x) = sessions s.
Proof. unfold untrackSessionKey. by destruct (sessionsByKey s !! s_publicKeyHex x). Qed.

Lemma idsOf_add s x key :
  idsOf (addSession s x) key
  = if bool_decide (key = s_publicKeyHex x) then set_add (s_id x) (idsOf s key) else idsOf s key.
Proof. unfold addSession. rewrite idsOf_track. reflexivity. Qed.

Lemma idsOf_remove s x key :
  idsOf (removeSession s x) key
  = if bool_decide (key = s_publicKeyHex x) then set_del (s_id x) (idsOf s key) else idsOf s key.
Proof. unfold removeSession. rewrite idsOf_untrack. reflexivity. Qed.

Lemma sessions_add s x : sessions (addSession s x) = <[s_id x := x]> (sessions s).
Proof. reflexivity. Qed.

Lemma sessions_remove s x : sessions (removeSession s x) = delete (s_id x) (sessions s).
Proof. unfold removeSession. by rewrite sessions_untrack. Qed.

Lemma addSession_inv s x : subs_inv s -> session_ok x -> subs_inv (addSession s x).
Proof.
  intros [H1 H2 H3] Hx. unfold session_ok in Hx. split; rewrite ?sessions_add.
  - intros id y. destruct (decide (id = s_id x)) as [->|Hne].
    + rewrite lookup_insert_eq. by intros [= <-].
    + rewrite lookup_insert_ne by congruence. apply H1.
  - intros id key. rewrite idsOf_add. destruct (decide (id = s_id x)) as [->|Hne].
    + rewrite lookup_insert_eq. case_bool_decide as Hk.
      * rewrite elem_of_set_add. subst key. split; [|auto]. intros _. split; [by eexists|done].
      * rewrite H2. split; [intros [_ <-]; congruence|]. intros [_ <-]. congruence.
    + rewrite lookup_insert_ne by congruence. case_bool_decide as Hk.
      * rewrite elem_of_set_add, H2. split; [intros [?|?]; [done|congruence]|auto].
      * apply H2.
  - intros key. rewrite idsOf_add. case_bool_decide; [by apply NoDup_set_add|done].
Qed.

Lemma removeSession_inv s x : subs_inv s -> session_ok x -> subs_inv (removeSession s x).
Proof.
  intros [H1 H2 H3] Hx. unfold session_ok in Hx. split.
  - intros id y. rewrite sessions_remove. intros [_ H]%lookup_delete_Some. by apply H1.
  - intros id key. rewrite idsOf_remove, sessions_remove. destruct (decide (id = s_id x)) as [->|Hne].
    + rewrite lookup_delete_eq. case_bool_decide as Hk.
      * rewrite elem_of_set_del. split; [by intros [_ ?]|]. by intros [[? ?] _].
      * rewrite H2. split; [intros [_ <-]; congruence|]. by intros [[? ?] _].
    + rewrite lookup_delete_ne by congruence. case_bool_decide.
      * rewrite elem_of_set_del, H2. split; [by intros [? _]|]. intros ?. done.
      * apply H2.
  - intros key. rewrite idsOf_remove. case_bool_decide; [by apply NoDup_set_del|done].
Qed.

Lemma updateSessionsBalance_lookup s key chips id :
  exists f, (forall x, s_id (f x) = s_id x /\ s_publicKeyHex (f x) = s_publicKeyHex x /\ s_open (f x) = s_open x)
    /\ sessions (updateSessionsBalance s key chips) !! id = f <$> sessions s !! id.
Proof.
  unfold updateSessionsBalance. cbn [sessions]. generalize (idsOf s key) as ids.
  generalize (sessions s) as m. intros m ids. revert m. induction ids as [|i ids IH]; intros m; cbn [foldl].
  - exists (fun x => x). split; [done|]. by destruct (m !! id).
  - destruct (m !! i) as [x|] eqn:E; [|apply IH].
    set (x' := {| s_id := _ |}). destruct (IH (<[i := x']> m)) as (f & Hf & ->).
    destruct (decide (id = i)) as [->|Hne].
    + exists (fun y => f {| s_id := s_id y; s_publicKeyHex := s_publicKeyHex y; s_registered := s_registered y;
                            s_balance := chips; s_open := s_open y |}).
      split; [|by rewrite lookup_insert_eq, E]. intros y.
      exact (Hf {| s_id := s_id y; s_publicKeyHex := s_publicKeyHex y; s_registered := s_registered y;
                   s_balance := chips; s_open := s_open y |}).
    + exists f. split; [done|]. by rewrite lookup_insert_ne by congruence.
Qed.

Lemma updateSessionsBalance_inv s key chips : subs_inv s -> subs_inv (updateSessionsBalance s key chips).
Proof.
  intros [H1 H2 H3]. split; [| |exact H3].
  - intros id y. destruct (updateSessionsBalance_lookup s key chips id) as (f & Hf & ->).
    intros (x & Hx & ->)%fmap_Some. destruct (H1 _ _ Hx) as [Hid Hok]. destruct (Hf x) as (E1 & E2 & _).
    unfold session_ok in *. rewrite E1, E2. done.
  - intros id key'. destruct (updateSessionsBalance_lookup s key chips id) as (f & _ & ->).
    rewrite fmap_is_Some. apply H2.
Qed.

(** Is the socket of the session with this id open? *)
Definition open_id (s : Subscribers) (id : string) : bool :=
  match sessions s !! id with
  | Some x => s_open x
  | None => false
  end.

Definition send_fold (p : Payload) : Subscribers * list Sent -> list string -> Subscribers * list Sent :=
  foldl (fun '(s, out) id =>
      match sessions s !! id with
      | Some session => let '(s', sent) := sendToSession s session p in (s', out ++ sent)
      | None => (s, out)
      end).

Lemma bool_decide_elem_cons_ne (id i : string) (ids : list string) :
  id <> i -> bool_decide (id ∈ ids) = bool_decide (id ∈ i :: ids).
Proof. intros Hne. apply bool_decide_ext. set_solver. Qed.

Lemma send_fold_spec p ids s out :
  subs_inv s -> NoDup ids ->
  let r := send_fold p (s, out) ids in
  r.2 = out ++ ((fun id => (id, p)) <$> List.filter (open_id s) ids)
  /\ subs_inv r.1
  /\ forall id, sessions r.1 !! id
       = if bool_decide (id ∈ ids) && negb (open_id s id) then None else sessions s !! id.
Proof.
  revert s out. induction ids as [|i ids IH]; intros s out Hs Hnd; cbn.
  - rewrite app_nil_r. split; [done|]. split; [done|]. intros id.
    by rewrite bool_decide_eq_false_2 by set_solver.
  - apply NoDup_cons in Hnd as [Hnin Hnd]. unfold open_id at 1 2 3. destruct (sessions s !! i) as [x|] eqn:E.
    + destruct (su_sessions _ Hs _ _ E) as [Hid Hok]. unfold sendToSession. destruct (s_open x) eqn:Eo.
      * destruct (IH s (out ++ [(s_id x, p)]) Hs Hnd) as (H1 & H2 & H3). cbn.
        split; [rewrite H1, Hid, <- app_assoc; done|]. split; [done|]. intros id. rewrite H3.
        destruct (decide (id = i)) as [->|Hne].
        -- unfold open_id. rewrite E, Eo. by rewrite !andb_false_r.
        -- by rewrite (bool_decide_elem_cons_ne _ i).
      * assert (Hs' : subs_inv (removeSession s x)) by by apply removeSession_inv.
        rewrite app_nil_r. destruct (IH (removeSession s x) out Hs' Hnd) as (H1 & H2 & H3).
        assert (Ho : forall id, id <> i -> open_id (removeSession s x) id = open_id s id).
        { intros id Hne. unfold open_id. rewrite sessions_remove, Hid, lookup_delete_ne by congruence. done. }
        split.
        -- rewrite H1. f_equal. f_equal. apply List.filter_ext_in. intros id Hin. apply Ho.
           intros ->. apply Hnin. by apply list_elem_of_In.
        -- split; [done|]. intros id. rewrite H3, sessions_remove, Hid. destruct (decide (id = i)) as [->|Hne].
           ++ rewrite lookup_delete_eq. unfold open_id at 2. rewrite E, Eo.
              rewrite (bool_decide_eq_true_2 (i ∈ i :: ids)) by set_solver. cbn.
              by destruct (bool_decide (i ∈ ids) && _).
           ++ rewrite Ho, lookup_delete_ne by congruence. by rewrite (bool_decide_elem_cons_ne _ i).
    + destruct (IH s out Hs Hnd) as (H1 & H2 & H3). split; [done|]. split; [done|]. intros id. rewrite H3.
      destruct (decide (id = i)) as [->|Hne].
      * rewrite E. by destruct (_ && _), (_ && _).
      * by rewrite (bool_decide_elem_cons_ne _ i).
Qed.

Lemma sendToPlayer_inv s key p : subs_inv s -> subs_inv (sendToPlayer s key p).1.
Proof. intros Hs. apply (send_fold_spec p (idsOf s key) s [] Hs (su_nodup _ Hs key)). Qed.

(** Delivery: a message for a player goes exactly once to every open socket
    subscribed under the player's key and to no other, the subscriptions whose
    socket is closed are dropped by it, all others are kept, and the index from
    keys to sessions stays exact. *)
Theorem sendToPlayer_delivers s key p :
  subs_inv s ->
  let '(s', out) := sendToPlayer s key p in
  subs_inv s' /\ NoDup out.*1
  /\ (forall id p', (id, p') ∈ out <->
       p' = p /\ exists x, sessions s !! id = Some x /\ s_publicKeyHex x = key /\ s_open x = true)
  /\ (forall id x, sessions s' !! id = Some x <->
       sessions s !! id = Some x /\ (s_publicKeyHex x = key -> s_open x = true)).
Proof.
  intros Hs. destruct (send_fold_spec p (idsOf s key) s [] Hs (su_nodup _ Hs key)) as (H1 & H2 & H3).
  change (send_fold p (s, []) (idsOf s key)) with (sendToPlayer s key p) in *.
  destruct (sendToPlayer s key p) as [s' out]. cbn in *. subst out.
  assert (Hkey : forall id x, sessions s !! id = Some x -> (id ∈ idsOf s key <-> s_publicKeyHex x = key)).
  { intros id x E. destruct (su_sessions _ Hs _ _ E) as [Hid Hok]. unfold session_ok in Hok.
    rewrite (su_index _ Hs), E, Hok, Hid. split; [by intros [_ ?]|]. intros ?. split; [by eexists|done]. }
  split; [done|]. split; [|split].
  - rewrite <- list_fmap_compose. rewrite (list_fmap_ext _ id) by done. rewrite list_fmap_id.
    apply NoDup_ListNoDup, List.NoDup_filter, NoDup_ListNoDup, (su_nodup _ Hs).
  - intros id p'. rewrite list_elem_of_fmap. split.
    + intros (id' & [= -> ->] & Hin%list_elem_of_In). apply filter_In in Hin as [Hin Ho].
      apply list_elem_of_In in Hin. split; [done|]. unfold open_id in Ho.
      destruct (sessions s !! id') as [x|] eqn:E; [|done]. exists x. by rewrite <- (Hkey _ _ E).
    + intros [-> (x & E & Hk & Ho)]. exists id. split; [done|]. apply list_elem_of_In, filter_In.
      split; [apply list_elem_of_In; by apply (Hkey _ _ E)|]. unfold open_id. by rewrite E.
  - intros id x. rewrite H3. unfold open_id. destruct (sessions s !! id) as [y|] eqn:E.
    + pose proof (Hkey _ _ E) as Hk. case_bool_decide as Hin; cbn.
      * destruct (s_open y) eqn:Eo; cbn; split; try done; [intros [= <-]; done| by intros [? _] | ].
        intros [[= <-] Hx]. rewrite Hx in Eo; [done|]. by apply Hk.
      * split; [intros [= <-]; split; [done|]; intros Hx; exfalso; apply Hin; by apply Hk|by intros [? _]].
    + destruct (_ && _); split; try done; by intros [? _].
Qed.
(** *** The index along a run *)

Lemma sendConfirmation_shape t k st m b r :
  (sendConfirmation t k st m b r).1
  = with_subs t (sendToPlayer (t_subs t) k
      (P_confirmation st m (to_number (default (roundId (t_round t)) r)) b)).1.
Proof. unfold sendConfirmation. by destruct (sendToPlayer _ _ _). Qed.

Lemma sendLiveResult_shape t k r p bs :
  exists pl, (sendLiveResult t k r p bs).1 = with_subs t (sendToPlayer (t_subs t) k pl).1.
Proof. unfold sendLiveResult. eexists. destruct (sendToPlayer _ _ _) eqn:E. cbn. by rewrite E. Qed.

Lemma setBalance_subs t k ch : t_subs (setBalance t k ch) = updateSessionsBalance (t_subs t) k ch.
Proof. unfold setBalance. cbn. by destruct (t_bots t !! k). Qed.

Lemma requestBroadcast_subs c now f t : t_subs (requestBroadcast c now f t).1 = t_subs t.
Proof. unfold requestBroadcast. repeat split_if; reflexivity. Qed.

Lemma event_subs_inv c now t e :
  subs_inv (t_subs t) -> subs_inv (t_subs (handleGlobalTableEvent c now t e).1.1).
Proof.
  intros Hs.
  assert (G : subs_inv (t_subs (handleEventBody c now t e).1)).
  { destruct e as [r|p rid bets bal|p rid code m|g rid ends|r|p rid pay bal bets|g rid];
      cbn [handleEventBody]; try exact Hs.
    - rewrite sendConfirmation_shape. apply sendToPlayer_inv. rewrite setBalance_subs.
      apply updateSessionsBalance_inv. destruct (negb _); exact Hs.
    - rewrite sendConfirmation_shape. by apply sendToPlayer_inv.
    - edestruct sendLiveResult_shape as [pl ->]. apply sendToPlayer_inv. rewrite setBalance_subs.
      by apply updateSessionsBalance_inv. }
  by rewrite (handleGlobalTableEvent_body c now t e t_subs) by apply requestBroadcast_subs.
Qed.

Definition input_session_ok (i : Input) : Prop :=
  match i with
  | In_join _ _ x | In_leave x | In_placed x => session_ok x
  | _ => True
  end.

Lemma shouldAttempt_rest c now t x : t_subs (shouldAttempt c now t x).1 = t_subs t
  /\ t_settle (shouldAttempt c now t x).1 = t_settle t /\ t_round (shouldAttempt c now t x).1 = t_round t.
Proof. unfold shouldAttempt. split_if; done. Qed.

Lemma tickPhase_rest c now t :
  t_subs (tickPhase c now t).1 = t_subs t /\ t_settle (tickPhase c now t).1 = t_settle t.
Proof.
  unfold tickPhase, attemptLockRound, attemptRevealRound, attemptFinalizeRound, attemptOpenRound, attemptRound.
  split_if; [|done].
  destruct (phase (t_round t)); try done;
    match goal with |- context [shouldAttempt c now t ?x] =>
      pose proof (shouldAttempt_rest c now t x) as (E1 & E2 & _); destruct (shouldAttempt c now t x) as [t' []] end;
    cbn [negb fst] in *; repeat split_if; done.
Qed.

Lemma table_step_subs_inv c t i :
  subs_inv (t_subs t) -> input_session_ok i -> subs_inv (t_subs (table_step c t i).1.1).
Proof.
  intros Hs Hi. destruct i as [now e|now|key|key acc|now|now|now count x|x|en x bets|x]; cbn [table_step].
  - pose proof (event_subs_inv c now t e Hs). by destruct (handleGlobalTableEvent c now t e) as [[??]?].
  - destruct (tickPhase_rest c now t) as [E _]. destruct (tickPhase c now t). cbn in *. congruence.
  - unfold settleBegin. repeat split_if; exact Hs.
  - unfold settleEnd. destruct acc; exact Hs.
  - split_if; [exact Hs|]. cbn. by rewrite requestBroadcast_subs.
  - unfold flushDone. split_if; [|exact Hs]. cbn [fst]. by rewrite requestBroadcast_subs.
  - unfold join. assert (H : subs_inv (addSession (t_subs t) x)) by by apply addSession_inv.
    unfold sendToSession. cbn [with_subs t_subs]. split_if; cbn; [exact H|by apply removeSession_inv].
  - by apply removeSession_inv.
  - exact Hs.
  - unfold placeBetsEnd. pose proof (sendConfirmation_shape t (s_publicKeyHex x) St_pending
      "Awaiting on-chain confirmation" (Some (s_balance x)) (Some (roundId (t_round t)))) as E.
    destruct (sendConfirmation _ _ _ _ _ _). cbn in *. rewrite E. by apply sendToPlayer_inv.
Qed.

Lemma subs_inv_init : subs_inv (t_subs table_init).
Proof.
  split.
  - intros id x H. cbn in H. by rewrite lookup_empty in H.
  - intros id key. unfold idsOf. cbn. rewrite !lookup_empty. cbn. split; [by intros ?%not_elem_of_nil|].
    by intros [[? ?] _].
  - intros key. unfold idsOf. cbn. rewrite lookup_empty. constructor.
Qed.

(** The subscriber index is right in every reachable state: whatever
    events, ticks, answers, joins and leaves a table has processed since it was
    created, the ids stored under a key are exactly the sessions of that key that
    are still present, each once. *)
Theorem subscribers_indexed c inputs :
  Forall input_session_ok inputs -> subs_inv (t_subs (table_run c table_init inputs).1).
Proof.
  assert (G : forall t, subs_inv (t_subs t) -> Forall input_session_ok inputs ->
    subs_inv (t_subs (table_run c t inputs).1)); [|intros; by apply G, H; apply subs_inv_init].
  induction inputs as [|i inputs IH]; intros t Hs His; cbn [table_run]; [exact Hs|].
  apply Forall_cons in His as [Hi His]. pose proof (table_step_subs_inv c t i Hs Hi) as H.
  destruct (table_step c t i) as [[t1 out] sub]. specialize (IH t1 H His).
  by destruct (table_run c t1 inputs).
Qed.
End Subscribers.

Definition closed_session : Session :=
  {| s_id := "s2"; s_publicKeyHex := "aa"; s_registered := true; s_balance := 1; s_open := false |}.

Lemma subscribers_indexed_witness :
  subs_inv (fun _ => "aa") (t_subs (table_run CONFIG table_init
    [In_join 0 None sample_session; In_leave sample_session; In_join 1 None sample_session]).1).
Proof. apply subscribers_indexed. repeat constructor. Defined.

Lemma sendToPlayer_delivers_witness :
  subs_inv (fun _ => "aa") (addSession (t_subs sample_table) closed_session)
  /\ let '(s', out) := sendToPlayer (addSession (t_subs sample_table) closed_session) "aa"
        (P_confirmation St_failed "no" 7 None) in
     NoDup out.*1.
Proof.
  assert (H : subs_inv (fun _ => "aa") (addSession (t_subs sample_table) closed_session)).
  { apply addSession_inv; [|done]. apply addSession_inv; [exact (subs_inv_init _)|done]. }
  split; [exact H|].
  pose proof (sendToPlayer_delivers (fun _ => "aa") _ "aa" (P_confirmation St_failed "no" 7 None) H) as G.
  destruct (sendToPlayer _ _ _) as [s' out]. apply G.
Defined.

(** ** What stops the rounds *)

(** The inputs that take a key out of flight. *)
Definition clears (key : string) (i : Input) : Prop :=
  match i with
  | In_event _ (Gt_outcome _) => True
  | In_event _ (Gt_player_settled player _ _ _ _) => to_hex player = key
  | _ => False
  end.

Definition in_flight (t : Table) (key : string) : Prop := key ∈ settleInFlight (t_settle t).

Lemma requestBroadcast_settle c now f t : t_settle (requestBroadcast c now f t).1 = t_settle t.
Proof. unfold requestBroadcast. repeat split_if; reflexivity. Qed.

Lemma setBalance_settle t k ch : t_settle (setBalance t k ch) = t_settle t.
Proof. unfold setBalance. cbn. by destruct (t_bots t !! k). Qed.

Lemma event_in_flight c now t e key :
  ~ clears key (In_event now e) -> in_flight t key ->
  in_flight (handleGlobalTableEvent c now t e).1.1 key.
Proof.
  intros Hc Hf.
  assert (G : in_flight (handleEventBody c now t e).1 key).
  { unfold in_flight. destruct e as [r|p rid bets bal|p rid code m|g rid ends|r|p rid pay bal bets|g rid];
      cbn [handleEventBody]; try exact Hf.
    - rewrite sendConfirmation_shape. cbn [with_subs t_settle]. rewrite setBalance_settle.
      destruct (negb _); exact Hf.
    - rewrite sendConfirmation_shape. exact Hf.
    - by destruct Hc.
    - edestruct sendLiveResult_shape as [pl ->]. cbn [with_subs t_settle]. rewrite setBalance_settle.
      cbn [with_settle t_settle settleInFlight]. apply elem_of_set_del. split; [exact Hf|].
      intros ->. by apply Hc. }
  unfold in_flight in *.
  by rewrite (handleGlobalTableEvent_body c now t e t_settle) by apply requestBroadcast_settle.
Qed.

Lemma tickPhase_no_open c now t key :
  in_flight t key -> (tickPhase c now t).2 <> Some (I_OpenRound (GameType_code Game_Craps)).
Proof.
  intros Hf. unfold tickPhase. split_if; [|done]. destruct (phase (t_round t)); try done;
    unfold attemptLockRound, attemptRevealRound, attemptFinalizeRound, attemptRound, attemptOpenRound;
    match goal with |- context [shouldAttempt c now t ?x] =>
      pose proof (shouldAttempt_rest c now t x) as (_ & E2 & _); destruct (shouldAttempt c now t x) as [t' []] end;
    cbn [negb fst] in *; repeat split_if; try done.
  unfold in_flight in Hf. rewrite <- E2 in Hf. exfalso.
  match goal with H : _ || _ = false |- _ => apply orb_false_iff in H as [_ H]; apply negb_false_iff, bool_decide_eq_true in H;
    rewrite H in Hf end.
  by apply not_elem_of_nil in Hf.
Qed.

Lemma table_step_in_flight c t i key :
  ~ clears key i -> in_flight t key ->
  let '(t', _, sub) := table_step c t i in
  in_flight t' key /\ sub <> Some (I_OpenRound (GameType_code Game_Craps)) /\ (i = In_settle key -> sub = None).
Proof.
  intros Hc Hf. unfold in_flight in *.
  destruct i as [now e|now|k|k acc|now|now|now count x|x|en x bets|x]; cbn [table_step].
  - pose proof (event_in_flight c now t e key Hc Hf). destruct (handleGlobalTableEvent c now t e) as [[??]?]. done.
  - destruct (tickPhase_rest c now t) as [_ E]. pose proof (tickPhase_no_open c now t key Hf).
    destruct (tickPhase c now t). cbn in *. rewrite E. done.
  - unfold settleBegin. unfold set_has. case_bool_decide as Hk; [done|].
    assert (In_settle k <> In_settle key) by congruence. split_if; cbn; done.
  - unfold settleEnd. destruct acc; [|done]. cbn. split; [|done]. apply elem_of_set_add. by left.
  - split_if; [done|]. by rewrite requestBroadcast_settle.
  - unfold flushDone. split_if; [|done]. cbn [fst]. by rewrite requestBroadcast_settle.
  - unfold join. destruct (sendToSession _ _ _). done.
  - done.
  - split; [done|]. split; [|done]. unfold placeBets. repeat (split_if; [done|]).
    destruct (normalizeBets c bets); [|done]. repeat (split_if; [done|]). done.
  - unfold placeBetsEnd, sendConfirmation. destruct (sendToPlayer _ _ _). done.
Qed.

(** One settlement that stays in flight stops the table: from any state
    with a player's key in [settleInFlight], and for as long as neither an
    outcome nor a settlement of this player arrives, the table never submits the
    opening of a round, and never submits a settlement for this player again.
    The witness is a run that gets there although the player was settled: the
    event came before the node's answer to the submission, and the answer put
    the key in flight for good. *)
Theorem settlement_in_flight_blocks c t inputs key :
  in_flight t key -> Forall (fun i => ~ clears key i) inputs ->
  let '(t', trace) := table_run c t inputs in
  in_flight t' key
  /\ Forall (fun '(i, sub) => sub <> Some (I_OpenRound (GameType_code Game_Craps))
       /\ (i = In_settle key -> sub = None)) trace.
Proof.
  revert t. induction inputs as [|i inputs IH]; intros t Hf Hc; cbn [table_run]; [by split|].
  apply Forall_cons in Hc as [Hi Hc]. pose proof (table_step_in_flight c t i key Hi Hf) as H.
  destruct (table_step c t i) as [[t1 out] sub]. destruct H as (H1 & H2 & H3).
  specialize (IH t1 H1 Hc). destruct (table_run c t1 inputs) as [t2 trace]. destruct IH as [IH1 IH2].
  split; [exact IH1|]. by constructor.
Qed.

(** A bet, its outcome, its settlement, and the answer to the submission. *)
Definition late_answer : list Input :=
  [In_join 0 None sample_session;
   In_event 0 (Gt_bet_accepted [z2b 170] 7 [sample_bet 10] {| chips := 90; vusdt := 0; rng := 0 |});
   In_event 1 (Gt_outcome {| r_gameType := 3; r_roundId := 7; r_phase := 3; r_phaseEndsAtMs := 0;
     r_mainPoint := 0; r_d1 := 3; r_d2 := 4; r_madePointsMask := 0; r_epochPointEstablished := false;
     r_fieldPaytable := 0; r_rngCommit := []; r_rollSeed := []; r_totals := [] |});
   In_settle "aa";
   In_event 2 (Gt_player_settled [z2b 170] 7 20 {| chips := 110; vusdt := 0; rng := 0 |} []);
   In_answer "aa" true].

Lemma settlement_in_flight_blocks_witness :
  (table_run CONFIG table_init late_answer).2.*2
    = [None; None; None; Some (I_Settle 3 7); None; None]
  /\ let '(t, trace) := table_run CONFIG (table_run CONFIG table_init late_answer).1
       [In_event 3 (Gt_finalized 3 7); In_tick 10000; In_settle "aa"; In_tick 20000] in
     in_flight t "aa"
     /\ Forall (fun '(i, sub) => sub <> Some (I_OpenRound (GameType_code Game_Craps))
          /\ (i = In_settle "aa" -> sub = None)) trace.
Proof.
  split; [vm_compute; reflexivity|].
  apply (settlement_in_flight_blocks CONFIG (table_run CONFIG table_init late_answer).1
    [In_event 3 (Gt_finalized 3 7); In_tick 10000; In_settle "aa"; In_tick 20000] "aa").
  - unfold in_flight. refine (bool_decide_unpack _ _). vm_compute. exact I.
  - repeat (constructor; [cbn; tauto|]). constructor.
Defined.

(** ** Administration *)

#[export] Instance admin_action_eq_dec : EqDecision admin_action.
Proof. solve_decision. Defined.

Definition action_of (i : Instruction) : option admin_action :=
  match i with
  | I_OpenRound _ => Some A_open
  | I_Lock _ _ => Some A_lock
  | I_Reveal _ _ => Some A_reveal
  | I_Finalize _ _ => Some A_finalize
  | _ => None
  end.

(** The times of the ticks that submitted an administrative action. *)
Definition admin_times (x : admin_action) (trace : list (Input * option Instruction)) : list Z :=
  omap (fun '(i, sub) =>
    match i, sub with
    | In_tick now, Some ins => if bool_decide (action_of ins = Some x) then Some now else None
    | _, _ => None
    end) trace.

(** What the source means by the end of a phase. *)
Definition due (now : Z) (t : Table) (x : admin_action) : Prop :=
  phaseEndsAt (t_round t) <= now
  /\ match x with
     | A_open => phase (t_round t) = Ph_cooldown
     | A_lock => phase (t_round t) = Ph_betting /\ roundId (t_round t) <> 0
     | A_reveal => phase (t_round t) = Ph_locked /\ roundId (t_round t) <> 0
     | A_finalize => phase (t_round t) = Ph_payout /\ roundId (t_round t) <> 0
     end.

Lemma last_set_attempt a x y now :
  last_attempt (set_attempt a x now) y = if bool_decide (y = x) then now else last_attempt a y.
Proof. by destruct x, y. Qed.

Lemma attemptRound_spec c now t x ins :
  (forall r, action_of (ins r) = Some x) ->
  let '(t', sub) := attemptRound c now t x ins in
  (t' = t \/ (last_attempt (t_admin t) x + cfg_adminRetryMs c <= now
              /\ t' = with_admin t (set_attempt (t_admin t) x now)))
  /\ forall i, sub = Some i -> action_of i = Some x /\ roundId (t_round t) <> 0
       /\ t' = with_admin t (set_attempt (t_admin t) x now)
       /\ last_attempt (t_admin t) x + cfg_adminRetryMs c <= now.
Proof.
  intros Ha. unfold attemptRound, shouldAttempt. destruct (_ <? cfg_adminRetryMs c) eqn:E; bprop; cbn [negb].
  - split; [by left|done].
  - cbn [with_admin t_round]. destruct (roundId (t_round t) =? 0) eqn:Er; bprop; cbn.
    + split; [right; split; [lia|done]|done].
    + split; [right; split; [lia|done]|]. intros i [= <-]. repeat split_and!; [apply Ha|done|done|lia].
Qed.

Lemma attemptOpenRound_spec c now t :
  let '(t', sub) := attemptOpenRound c now t in
  (t' = t \/ (last_attempt (t_admin t) A_open + cfg_adminRetryMs c <= now
              /\ t' = with_admin t (set_attempt (t_admin t) A_open now)))
  /\ forall i, sub = Some i -> action_of i = Some A_open
       /\ t' = with_admin t (set_attempt (t_admin t) A_open now)
       /\ last_attempt (t_admin t) A_open + cfg_adminRetryMs c <= now.
Proof.
  unfold attemptOpenRound, shouldAttempt. destruct (_ <? cfg_adminRetryMs c) eqn:E; bprop; cbn [negb].
  - split; [by left|done].
  - split_if; (split; [right; split; [lia|done]|]); [done|].
    intros i [= <-]. repeat split_and!; [done|done|lia].
Qed.

(** One tick: at most one action, due, after the retry interval of its kind. *)
Lemma tickPhase_spec c now t :
  0 <= cfg_adminRetryMs c ->
  let '(t', sub) := tickPhase c now t in
  (forall x, last_attempt (t_admin t) x <= last_attempt (t_admin t') x)
  /\ forall i x, sub = Some i -> action_of i = Some x ->
       due now t x /\ last_attempt (t_admin t) x + cfg_adminRetryMs c <= now
       /\ last_attempt (t_admin t') x = now.
Proof.
  intros Hr. unfold tickPhase. destruct (phaseEndsAt (t_round t) <=? now) eqn:E; bprop; [|split; done].
  unfold due. destruct (phase (t_round t)) eqn:Ep; [| |by split| |];
    unfold attemptLockRound, attemptRevealRound, attemptFinalizeRound;
    [pose proof (attemptRound_spec c now t A_lock (I_Lock (GameType_code Game_Craps)) ltac:(done)) as H
    |pose proof (attemptRound_spec c now t A_reveal (I_Reveal (GameType_code Game_Craps)) ltac:(done)) as H
    |pose proof (attemptRound_spec c now t A_finalize (I_Finalize (GameType_code Game_Craps)) ltac:(done)) as H
    |pose proof (attemptOpenRound_spec c now t) as H];
    (match type of H with let '(_, _) := ?e in _ => destruct e as [t' sub] end);
    destruct H as [H1 H2];
    (split; [intros x; destruct H1 as [->|[Hl ->]]; [lia|]; cbn [with_admin t_admin];
             rewrite last_set_attempt; case_bool_decide; subst; lia|]);
    intros i x Hi Hx; specialize (H2 i Hi); destruct_and!; simplify_eq;
    cbn [with_admin t_admin]; rewrite last_set_attempt, bool_decide_eq_true_2 by done; done.
Qed.

Lemma requestBroadcast_admin c now f t : t_admin (requestBroadcast c now f t).1 = t_admin t.
Proof. unfold requestBroadcast. repeat split_if; reflexivity. Qed.

Lemma setBalance_admin t k ch : t_admin (setBalance t k ch) = t_admin t.
Proof. unfold setBalance. cbn. by destruct (t_bots t !! k). Qed.

Lemma event_admin c now t e : t_admin (handleGlobalTableEvent c now t e).1.1 = t_admin t.
Proof.
  rewrite (handleGlobalTableEvent_body c now t e t_admin) by apply requestBroadcast_admin.
  destruct e as [r|p rid bets bal|p rid code m|g rid ends|r|p rid pay bal bets|g rid];
    cbn [handleEventBody]; try reflexivity.
  - rewrite sendConfirmation_shape. cbn [with_subs t_admin]. rewrite setBalance_admin. by destruct (negb _).
  - by rewrite sendConfirmation_shape.
  - edestruct sendLiveResult_shape as [pl ->]. cbn [with_subs t_admin]. by rewrite setBalance_admin.
Qed.

Lemma table_step_admin c t i :
  (forall now, i <> In_tick now) -> t_admin (table_step c t i).1.1 = t_admin t.
Proof.
  intros Hi. destruct i as [now e|now|k|k acc|now|now|now count x|x|en x bets|x]; cbn [table_step].
  - pose proof (event_admin c now t e). by destruct (handleGlobalTableEvent c now t e) as [[??]?].
  - by destruct (Hi now).
  - unfold settleBegin. repeat split_if; done.
  - unfold settleEnd. by destruct acc.
  - split_if; [done|]. apply requestBroadcast_admin.
  - unfold flushDone. split_if; [|done]. cbn [fst]. by rewrite requestBroadcast_admin.
  - unfold join. by destruct (sendToSession _ _ _).
  - done.
  - done.
  - unfold placeBetsEnd, sendConfirmation. by destruct (sendToPlayer _ _ _).
Qed.

(** Administrative transactions are spaced: along any run, from any state
    and whatever the clock does, two submissions of the same action (open,
    lock, reveal or finalize) are at least the configured retry interval apart,
    and the earlier one has the earlier time. *)
Theorem admin_attempts_spaced c t inputs x :
  0 <= cfg_adminRetryMs c ->
  StronglySorted (fun a b => a + cfg_adminRetryMs c <= b) (admin_times x (table_run c t inputs).2).
Proof.
  intros Hr.
  enough (G : StronglySorted (fun a b => a + cfg_adminRetryMs c <= b) (admin_times x (table_run c t inputs).2)
    /\ Forall (fun b => last_attempt (t_admin t) x + cfg_adminRetryMs c <= b)
         (admin_times x (table_run c t inputs).2)) by apply G.
  revert t. induction inputs as [|i inputs IH]; intros t; cbn [table_run]; [split; constructor|].
  assert (Hstep : forall t1 out sub, table_step c t i = (t1, out, sub) ->
    last_attempt (t_admin t) x <= last_attempt (t_admin t1) x
    /\ forall now ins, i = In_tick now -> sub = Some ins -> action_of ins = Some x ->
         last_attempt (t_admin t) x + cfg_adminRetryMs c <= now /\ last_attempt (t_admin t1) x = now).
  { intros t1 out sub E.
    assert ((exists now, i = In_tick now) \/ forall now, i <> In_tick now) as [[now ->]|Hn].
    { destruct i; first [right; done|left; by eexists]. }
    - cbn in E. pose proof (tickPhase_spec c now t Hr) as H. destruct (tickPhase c now t) as [t' sub'].
      simplify_eq. destruct H as [H1 H2]. split; [apply H1|]. intros now' ins [= <-] Hs Ha.
      by destruct (H2 _ _ Hs Ha) as (_ & ? & ?).
    - pose proof (table_step_admin c t i Hn) as H. rewrite E in H. cbn in H.
      rewrite H. split; [lia|]. intros now ins Hi. by destruct (Hn now). }
  destruct (table_step c t i) as [[t1 out] sub] eqn:E. destruct (Hstep _ _ _ eq_refl) as [H1 H2].
  destruct (IH t1) as [IH1 IH2]. destruct (table_run c t1 inputs) as [t2 trace]. cbn [snd] in *.
  assert (Hl : Forall (fun b => last_attempt (t_admin t) x + cfg_adminRetryMs c <= b) (admin_times x trace)).
  { eapply Forall_impl; [exact IH2|]. intros b Hb. cbn in Hb. lia. }
  unfold admin_times in *. cbn [omap list_omap]. destruct i; try (split; [exact IH1|exact Hl]).
  destruct sub as [ins|]; [|split; [exact IH1|exact Hl]]. case_bool_decide as Ha; [|split; [exact IH1|exact Hl]].
  destruct (H2 now ins eq_refl eq_refl Ha) as [H3 H4]. split; constructor; try done. by rewrite H4 in IH2.
Qed.

Lemma admin_attempts_spaced_witness :
  0 <= cfg_adminRetryMs CONFIG
  /\ admin_times A_lock (table_run CONFIG sample_table [In_tick 5000; In_tick 6000; In_tick 6500]).2
     = [5000; 6500]
  /\ StronglySorted (fun a b => a + cfg_adminRetryMs CONFIG <= b)
       (admin_times A_lock (table_run CONFIG sample_table [In_tick 5000; In_tick 6000; In_tick 6500]).2).
Proof.
  split; [cbn; lia|]. split; [reflexivity|].
  apply (admin_attempts_spaced CONFIG sample_table [In_tick 5000; In_tick 6000; In_tick 6500] A_lock). cbn. lia.
Defined.
