(* ===== verification/GameState.v ===== *)
(** * State blobs of the games

    [packages/game-state/src/index.ts]: the parsers that the website and the
    mobile app share.  The chain keeps the state of a game as a blob; a parser
    reads it with the [SafeReader] class or by offset, accepts the older
    versions of the layout, and returns [null] for a blob it cannot read.  A
    TypeScript [number] field is a [Z] as is a [bigint] one; [Number(bigint)] is
    [to_number]; [T | null] is [option T]. *)

From stdpp Require Import pretty.
From S2P Require Import Prelude JsNum Bytes Reader Constants.

(** ** The reader *)

Module SafeReader.

Definition insufficient (field : string) (offset : Z) : string :=
  "SafeReader: insufficient data for " +:+ field +:+ " at " +:+ pretty offset.

Definition readU8 (field : string) : R Z := fun r =>
  if len (rd_data r) <? rd_offset r + 1 then Throw (insufficient field (rd_offset r))
  else Ok (default undefined (elem (rd_data r) (rd_offset r)),
           Reader (rd_data r) (rd_offset r + 1)).

Definition readU8At (offset : Z) (field : string) : R Z := fun r =>
  if (offset <? 0) || (len (rd_data r) <=? offset) then Throw (insufficient field offset)
  else Ok (default undefined (elem (rd_data r) offset), r).

Definition readBytes (length : Z) (field : string) : R Uint8Array := fun r =>
  if (length <? 0) || (len (rd_data r) <? rd_offset r + length)
  then Throw (insufficient field (rd_offset r))
  else Ok (slice (rd_data r) (rd_offset r) (rd_offset r + length),
           Reader (rd_data r) (rd_offset r + length)).

Definition skip (length : Z) (field : string) : R unit := fun r =>
  if (length <? 0) || (len (rd_data r) <? rd_offset r + length)
  then Throw (insufficient field (rd_offset r))
  else Ok (tt, Reader (rd_data r) (rd_offset r + length)).

(** The two 64-bit reads differ in the view's method only. *)
Definition read64 (get : Uint8Array -> Z -> result Z) (field : string) : R Z := fun r =>
  if len (rd_data r) <? rd_offset r + 8 then Throw (insufficient field (rd_offset r))
  else match get (rd_data r) (rd_offset r) with
       | Ok v => Ok (v, Reader (rd_data r) (rd_offset r + 8))
       | Throw e => Throw e
       end.

Definition readU64BE : string -> R Z := read64 getBigUint64BE.
Definition readI64BE : string -> R Z := read64 getBigInt64BE.

(** [cond ? reader.readU8(field) : null] with the condition that a byte is left. *)
Definition optional_u8 (field : string) : R (option Z) :=
  n ← remaining;
  if 1 <=? n then v ← readU8 field; mret (Some v) else mret None.

End SafeReader.

(** ** Reads at an offset *)

(** [stateBlob[i]]. *)
Definition at_ (data : Uint8Array) (i : Z) : Z := default undefined (elem data i).

(** The shared shape of the three functions: a bounds check and a view read. *)
Definition read_at (n : Z) (get : Uint8Array -> Z -> result Z)
    (data : Uint8Array) (offset : Z) (field : string) : result Z :=
  if (offset <? 0) || (len data <? offset + n)
  then Throw (SafeReader.insufficient field offset)
  else get data offset.

Definition readU64BEAt := read_at 8 getBigUint64BE.
Definition readI64BEAt := read_at 8 getBigInt64BE.
Definition readU32BEAt := read_at 4 getUint32BE.

(** [Number(readU64BEAt(...))]. *)
Definition number_at (data : Uint8Array) (offset : Z) (field : string) : result Z :=
  to_number <$> readU64BEAt data offset field.

(** ** Blackjack *)

Record BlackjackHand := {
  betMult : Z; bh_status : Z; wasSplit : Z; bh_cards : list Z
}.

Record BlackjackParsedState := {
  bj_version : Z; bj_stage : Z;
  sideBet21Plus3 : Z; sideBetLuckyLadies : Z; sideBetPerfectPairs : Z;
  sideBetBustIt : Z; sideBetRoyalMatch : Z;
  initPlayerCards : Z * Z; activeHandIndex : Z;
  bj_hands : list BlackjackHand; bj_dealerCards : list Z;
  playerValue : option Z; dealerValue : option Z; actionMask : option Z
}.

Section Blackjack.
Import SafeReader.

Definition hand_field (h : Z) (what : string) : string := "hand " +:+ pretty h +:+ " " +:+ what.

Definition readHand (h : Z) : R BlackjackHand :=
  mult ← readU8 (hand_field h "bet multiplier");
  status ← readU8 (hand_field h "status");
  split ← readU8 (hand_field h "split flag");
  cardCount ← readU8 (hand_field h "card count");
  cards ← readBytes cardCount (hand_field h "cards");
  mret {| betMult := mult; bh_status := status; wasSplit := split; bh_cards := to_numbers cards |}.

(** [for (let h = 0; h < handCount; h += 1)]. *)
Fixpoint readHands (n : nat) (h : Z) : R (list BlackjackHand) :=
  match n with
  | O => mret []
  | S n' => hand ← readHand h; hands ← readHands n' (h + 1); mret (hand :: hands)
  end.

(** [if (cond) bet = Number(reader.readU64BE(field))] of a bet that starts at 0. *)
Definition side_bet (cond : bool) (field : string) : R Z :=
  if cond then v ← readU64BE field; mret (to_number v) else mret 0.

Definition blackjackBody : R (option BlackjackParsedState) :=
  version ← readU8 "version";
  if negb (version =? 2) && negb (version =? 3) && negb (version =? 4) then mret None else
  stage ← readU8 "stage";
  s21 ← side_bet true "side bet 21+3";
  ladies ← side_bet (3 <=? version) "side bet lucky ladies";
  pairs ← side_bet (3 <=? version) "side bet perfect pairs";
  bust ← side_bet (3 <=? version) "side bet bust it";
  royal ← side_bet (4 <=? version) "side bet royal match";
  initP1 ← readU8 "init player card 1";
  initP2 ← readU8 "init player card 2";
  active ← readU8 "active hand index";
  handCount ← readU8 "hand count";
  if 10 <? handCount then mret None else
  hands ← readHands (Z.to_nat handCount) 0;
  dealerCount ← readU8 "dealer card count";
  dealerCards ← readBytes dealerCount "dealer cards";
  left ← remaining;
  _ ← (if 2 <=? left then skip 2 "rules" else mret tt);
  player ← optional_u8 "player total";
  dealer ← optional_u8 "dealer total";
  mask ← optional_u8 "action mask";
  mret (Some {|
    bj_version := version; bj_stage := stage;
    sideBet21Plus3 := s21; sideBetLuckyLadies := ladies; sideBetPerfectPairs := pairs;
    sideBetBustIt := bust; sideBetRoyalMatch := royal;
    initPlayerCards := (initP1, initP2); activeHandIndex := active;
    bj_hands := hands; bj_dealerCards := to_numbers dealerCards;
    playerValue := player; dealerValue := dealer; actionMask := mask |}).

Definition parseBlackjackState (stateBlob : Uint8Array) : option BlackjackParsedState :=
  if len stateBlob <? 14 then None else catch (run blackjackBody stateBlob) None.

End Blackjack.

(** ** Baccarat, Roulette and Sic Bo *)

Record BaccaratParsedState := {
  ba_betCount : Z; ba_playerCards : list Z; bankerCards : list Z
}.

Record RouletteParsedState := {
  ro_betCount : Z; zeroRule : Z; ro_phase : Z; ro_result : option Z
}.

Record SicBoParsedState := { si_betCount : Z; si_dice : option (Z * Z * Z) }.

Section Bets.
Import SafeReader.

Definition parseBaccaratState (stateBlob : Uint8Array) : option BaccaratParsedState :=
  if len stateBlob <? 1 then None else
  catch (run (
    betCount ← readU8 "bet count";
    _ ← skip (betCount * 9) "bets";
    playerCount ← readU8 "player card count";
    playerCards ← readBytes playerCount "player cards";
    bankerCount ← readU8 "banker card count";
    bankerCards ← readBytes bankerCount "banker cards";
    mret (Some {| ba_betCount := betCount; ba_playerCards := to_numbers playerCards;
                  bankerCards := to_numbers bankerCards |})) stateBlob) None.

Definition parseRouletteState (stateBlob : Uint8Array) : option RouletteParsedState :=
  if len stateBlob <? 1 then None else
  catch (run (
    betCount ← readU8 "bet count";
    let betsSize := betCount * 10 in
    let legacyResultOffset := 1 + betsSize in
    let v2HeaderLen := 19 in
    let v2ResultOffset := v2HeaderLen + betsSize in
    let looksLikeV2 := (len stateBlob =? v2HeaderLen + betsSize)
                       || (len stateBlob =? v2HeaderLen + betsSize + 1) in
    zeroRule ← (if looksLikeV2 then readU8At 1 "zero rule" else mret 0);
    phase ← (if looksLikeV2 then readU8At 2 "phase" else mret 0);
    let resultOffset := if looksLikeV2 then v2ResultOffset else legacyResultOffset in
    result ← (if resultOffset <? len stateBlob
              then v ← readU8At resultOffset "result"; mret (Some v)
              else mret None);
    mret (Some {| ro_betCount := betCount; zeroRule := zeroRule; ro_phase := phase;
                  ro_result := result |})) stateBlob) None.

Definition parseSicBoState (stateBlob : Uint8Array) : option SicBoParsedState :=
  if len stateBlob <? 1 then None else
  catch (run (
    betCount ← readU8 "bet count";
    let betsSize := betCount * 10 in
    let diceOffset := 1 + betsSize in
    if len stateBlob <? diceOffset + 3
    then mret (Some {| si_betCount := betCount; si_dice := None |})
    else
      d1 ← readU8At diceOffset "die 1";
      d2 ← readU8At (diceOffset + 1) "die 2";
      d3 ← readU8At (diceOffset + 2) "die 3";
      mret (Some {| si_betCount := betCount;
                    si_dice := if (0 <? d1) && (0 <? d2) && (0 <? d3)
                               then Some (d1, d2, d3) else None |})) stateBlob) None.

End Bets.

(** ** Craps *)

Record CrapsRawBet := {
  cb_betType : Z; cb_target : Z; cb_status : Z; cb_amount : Z; oddsAmount : Z
}.

Record CrapsParsedState := {
  cr_version : Z; cr_phase : Z; mainPoint : Z; cr_dice : Z * Z; madePointsMask : Z;
  epochPointEstablished : bool; cr_betCount : Z; betsOffset : Z; cr_bets : list CrapsRawBet
}.

Definition CRAPS_MAX_BETS : Z := 20.

(** What the three header layouts assign: everything but the bets. *)
Definition crapsHeader (stateBlob : Uint8Array) : CrapsParsedState :=
  let b := at_ stateBlob in
  let looksLikeV2 := (b 0 =? 2) && (8 <=? len stateBlob) && ((b 1 =? 0) || (b 1 =? 1)) in
  let looksLikeV1 := (b 0 =? 1) && (7 <=? len stateBlob) && ((b 1 =? 0) || (b 1 =? 1)) in
  if looksLikeV2 then
    {| cr_version := 2; cr_phase := b 1; mainPoint := b 2; cr_dice := (b 3, b 4);
       madePointsMask := default 0 (elem stateBlob 5);
       epochPointEstablished := b 6 =? 1;
       cr_betCount := b 7; betsOffset := 8; cr_bets := [] |}
  else if looksLikeV1 then
    let madePoints := default 0 (elem stateBlob 5) in
    {| cr_version := 1; cr_phase := b 1; mainPoint := b 2; cr_dice := (b 3, b 4);
       madePointsMask := madePoints;
       epochPointEstablished := (b 1 =? 1) || (0 <? b 2) || negb (madePoints =? 0);
       cr_betCount := b 6; betsOffset := 7; cr_bets := [] |}
  else
    {| cr_version := b 0; cr_phase := 0; mainPoint := b 1; cr_dice := (b 2, b 3);
       madePointsMask := 0;
       epochPointEstablished := (b 0 =? 1) || (0 <? b 1);
       cr_betCount := b 4; betsOffset := 5; cr_bets := [] |}.

(** One bet, and the loop over the bets with its early [break]. *)
Definition crapsBetAt (stateBlob : Uint8Array) (offset : Z) : result CrapsRawBet :=
  amount ← number_at stateBlob (offset + 3) "bet amount";
  odds ← number_at stateBlob (offset + 11) "odds amount";
  mret {| cb_betType := at_ stateBlob offset; cb_target := at_ stateBlob (offset + 1);
          cb_status := at_ stateBlob (offset + 2); cb_amount := amount; oddsAmount := odds |}.

Fixpoint crapsBetsAt (stateBlob : Uint8Array) (n : nat) (offset : Z) : result (list CrapsRawBet) :=
  match n with
  | O => mret []
  | S n' =>
      if len stateBlob <? offset + 19 then mret []
      else bet ← crapsBetAt stateBlob offset;
           bets ← crapsBetsAt stateBlob n' (offset + 19);
           mret (bet :: bets)
  end.

Definition with_bets (s : CrapsParsedState) (bets : list CrapsRawBet) : CrapsParsedState :=
  {| cr_version := cr_version s; cr_phase := cr_phase s; mainPoint := mainPoint s;
     cr_dice := cr_dice s; madePointsMask := madePointsMask s;
     epochPointEstablished := epochPointEstablished s;
     cr_betCount := cr_betCount s; betsOffset := betsOffset s; cr_bets := bets |}.

Definition parseCrapsState (stateBlob : Uint8Array) : option CrapsParsedState :=
  if len stateBlob <? 5 then None else
  let header := crapsHeader stateBlob in
  if CRAPS_MAX_BETS <? cr_betCount header then None else
  catch (bets ← crapsBetsAt stateBlob (Z.to_nat (cr_betCount header)) (betsOffset header);
         mret (Some (with_bets header bets))) None.

(** ** HiLo, Video Poker and Casino War *)

Record HiLoParsedState := {
  cardId : Z; accumulatorBasisPoints : Z; rulesByte : Z;
  nextMultipliers : option (Z * Z * Z)
}.

Definition parseHiLoState (stateBlob : Uint8Array) : option HiLoParsedState :=
  if len stateBlob <? 9 then None else
  catch (
    accumulator ← readI64BEAt stateBlob 1 "accumulator";
    let rules := if 10 <=? len stateBlob then at_ stateBlob 9 else 0 in
    multipliers ←
      (if 22 <=? len stateBlob then
         higher ← readU32BEAt stateBlob 10 "higher multiplier";
         lower ← readU32BEAt stateBlob 14 "lower multiplier";
         same ← readU32BEAt stateBlob 18 "same multiplier";
         mret (Some (higher, lower, same))
       else mret None);
    mret (Some {| cardId := at_ stateBlob 0; accumulatorBasisPoints := accumulator;
                  rulesByte := rules; nextMultipliers := multipliers |})) None.

Record VideoPokerParsedState := { vp_stage : Z; vp_cards : list Z }.

(** [for (let i = 1; i <= 5 && i < stateBlob.length; i += 1) cards.push(stateBlob[i])]. *)
Definition videoPokerCards (stateBlob : Uint8Array) : list Z :=
  at_ stateBlob <$> filter (fun i => i < len stateBlob) [1; 2; 3; 4; 5].

Definition parseVideoPokerState (stateBlob : Uint8Array) : option VideoPokerParsedState :=
  if len stateBlob <? 6 then None else
  Some {| vp_stage := at_ stateBlob 0; vp_cards := videoPokerCards stateBlob |}.

Record CasinoWarParsedState := {
  cw_version : Z; cw_stage : Z; playerCard : Z; dealerCard : Z; tieBet : Z
}.

Definition parseCasinoWarState (stateBlob : Uint8Array) : option CasinoWarParsedState :=
  let b := at_ stateBlob in
  if (12 <=? len stateBlob) && (b 0 =? 1) then
    catch (tie ← readU64BEAt stateBlob 4 "tie bet";
           mret (Some {| cw_version := 1; cw_stage := b 1; playerCard := b 2;
                         dealerCard := b 3; tieBet := tie |})) None
  else if len stateBlob <? 3 then None
  else Some {| cw_version := 0; cw_stage := b 2; playerCard := b 0; dealerCard := b 1;
               tieBet := 0 |}.

(** ** Three Card Poker and Ultimate Texas Hold'em *)

Record ThreeCardParsedState := {
  tc_version : Z; tc_stage : Z; tc_playerCards : list Z; tc_dealerCards : list Z;
  pairPlusBet : Z; tc_sixCardBonusBet : Z; tc_progressiveBet : Z
}.

Definition parseThreeCardState (stateBlob : Uint8Array) : option ThreeCardParsedState :=
  let b := at_ stateBlob in
  if len stateBlob <? 16 then None else
  let version := b 0 in
  if negb (version =? 1) && negb (version =? 2) && negb (version =? 3) then None else
  let requiredLen := if version =? 3 then 32 else if version =? 2 then 24 else 16 in
  if len stateBlob <? requiredLen then None else
  catch (
    pairPlus ← number_at stateBlob 8 "pair plus bet";
    sixCard ← (if 2 <=? version then number_at stateBlob 16 "six card bet" else mret 0);
    progressive ← (if version =? 3 then number_at stateBlob 24 "progressive bet" else mret 0);
    mret (Some {| tc_version := version; tc_stage := b 1;
                  tc_playerCards := [b 2; b 3; b 4]; tc_dealerCards := [b 5; b 6; b 7];
                  pairPlusBet := pairPlus; tc_sixCardBonusBet := sixCard;
                  tc_progressiveBet := progressive |})) None.

Record UltimateHoldemParsedState := {
  uh_version : Z; uh_stage : Z; uh_playerCards : list Z; communityCards : list Z;
  uh_dealerCards : list Z; playMultiplier : Z; bonusCards : list Z;
  tripsBet : Z; uh_sixCardBonusBet : Z; uh_progressiveBet : Z
}.

Definition parseUltimateHoldemState (stateBlob : Uint8Array) : option UltimateHoldemParsedState :=
  let b := at_ stateBlob in
  if len stateBlob <? 20 then None else
  let version := b 0 in
  if negb (version =? 1) && negb (version =? 2) && negb (version =? 3) then None else
  let requiredLen := if version =? 3 then 40 else if version =? 2 then 32 else 20 in
  if len stateBlob <? requiredLen then None else
  let bonus := if 2 <=? version then [b 12; b 13; b 14; b 15] else [] in
  catch (
    trips ← number_at stateBlob (if version =? 1 then 12 else 16) "trips bet";
    sixCard ← (if 2 <=? version then number_at stateBlob 24 "six card bet" else mret 0);
    progressive ← (if version =? 3 then number_at stateBlob 32 "progressive bet" else mret 0);
    mret (Some {| uh_version := version; uh_stage := b 1;
                  uh_playerCards := [b 2; b 3]; communityCards := [b 4; b 5; b 6; b 7; b 8];
                  uh_dealerCards := [b 9; b 10]; playMultiplier := b 11; bonusCards := bonus;
                  tripsBet := trips; uh_sixCardBonusBet := sixCard;
                  uh_progressiveBet := progressive |})) None.
