(* ===== verification/GameStateCorrect.v ===== *)
(** * The state parsers read what the chain writes

    The layouts in which [execution/src/casino] writes the state of each game
    ([serialize_state], [to_blob], [to_bytes]), with the older versions the
    parsers still accept, and two groups of theorems about [GameState]: every
    parser inverts the layouts of its game, and whatever bytes it is given, a
    state it returns is well formed. *)

From S2P Require Import Prelude JsNum Bytes Reader Batch Constants GameState.

(** ** Dispatch on the game *)

Inductive Parsed : Type :=
| P_blackjack (s : BlackjackParsedState)
| P_baccarat (s : BaccaratParsedState)
| P_roulette (s : RouletteParsedState)
| P_sicbo (s : SicBoParsedState)
| P_craps (s : CrapsParsedState)
| P_hilo (s : HiLoParsedState)
| P_videopoker (s : VideoPokerParsedState)
| P_casinowar (s : CasinoWarParsedState)
| P_threecard (s : ThreeCardParsedState)
| P_ultimate (s : UltimateHoldemParsedState).

Definition parseState (g : GameType) (stateBlob : Uint8Array) : option Parsed :=
  match g with
  | Game_Blackjack => P_blackjack <$> parseBlackjackState stateBlob
  | Game_Baccarat => P_baccarat <$> parseBaccaratState stateBlob
  | Game_Roulette => P_roulette <$> parseRouletteState stateBlob
  | Game_SicBo => P_sicbo <$> parseSicBoState stateBlob
  | Game_Craps => P_craps <$> parseCrapsState stateBlob
  | Game_HiLo => P_hilo <$> parseHiLoState stateBlob
  | Game_VideoPoker => P_videopoker <$> parseVideoPokerState stateBlob
  | Game_CasinoWar => P_casinowar <$> parseCasinoWarState stateBlob
  | Game_ThreeCard => P_threecard <$> parseThreeCardState stateBlob
  | Game_UltimateHoldem => P_ultimate <$> parseUltimateHoldemState stateBlob
  end.

(** ** The layouts

    [version] selects among the layouts of a game that has several; a field
    that an older layout does not have is ignored. *)

Inductive ChainState : Type :=
| C_blackjack (version stage s21 ladies pairs bust royal p1 p2 active : Z)
    (hands : list BlackjackHand) (dealer : list Z)
    (tail : option ((Z * Z) * option (Z * Z * Z)))
| C_baccarat (bets : list (Z * Z)) (player banker : list Z)
| C_roulette (header : option (Z * Z * Z * Z)) (bets : list (Z * Z * Z)) (result : option Z)
| C_sicbo (bets : list (Z * Z * Z)) (dice : option (Z * Z * Z)) (rules : Z)
| C_craps (version phase point d1 d2 mask : Z) (epoch : bool) (bets : list CrapsRawBet)
    (paytable : Z)
| C_hilo (card accumulator : Z) (tail : option (Z * option (Z * Z * Z)))
| C_videopoker (stage c1 c2 c3 c4 c5 rules : Z)
| C_casinowar (version stage player dealer tie rules : Z)
| C_threecard (version stage p1 p2 p3 d1 d2 d3 pairplus six progressive rules : Z)
| C_ultimate (version stage p1 p2 c1 c2 c3 c4 c5 d1 d2 mult b1 b2 b3 b4 trips six progressive
    rules : Z).

Definition when (b : bool) (bs : Uint8Array) : Uint8Array := if b then bs else [].

Definition hand_bytes (h : BlackjackHand) : Uint8Array :=
  [z2b (betMult h)] ++ [z2b (bh_status h)] ++ [z2b (wasSplit h)]
  ++ [z2b (len (bh_cards h))] ++ u8array (bh_cards h).

Definition craps_bet_bytes (b : CrapsRawBet) : Uint8Array :=
  [z2b (cb_betType b); z2b (cb_target b); z2b (cb_status b)]
  ++ be_bytes 8 (cb_amount b) ++ be_bytes 8 (oddsAmount b).

Definition counted (cards : list Z) : Uint8Array := [z2b (len cards)] ++ u8array cards.

Definition triple_bytes (t : Z * Z * Z) : Uint8Array :=
  let '(a, b, c) := t in u8array [a; b; c].

Definition bet9 (b : Z * Z) : Uint8Array := let '(t, a) := b in entry9 t a.
Definition bet10 (b : Z * Z * Z) : Uint8Array := let '(t, n, a) := b in entry10 t n a.

Definition blob_of (s : ChainState) : Uint8Array :=
  match s with
  | C_blackjack version stage s21 ladies pairs bust royal p1 p2 active hands dealer tail =>
      [z2b version] ++ [z2b stage] ++ be_bytes 8 s21
      ++ when (3 <=? version) (be_bytes 8 ladies) ++ when (3 <=? version) (be_bytes 8 pairs)
      ++ when (3 <=? version) (be_bytes 8 bust) ++ when (4 <=? version) (be_bytes 8 royal)
      ++ [z2b p1] ++ [z2b p2] ++ [z2b active] ++ [z2b (len hands)]
      ++ concat (hand_bytes <$> hands) ++ [z2b (len dealer)] ++ u8array dealer
      ++ match tail with
         | None => []
         | Some ((r1, r2), totals) =>
             [z2b r1; z2b r2] ++ default [] (triple_bytes <$> totals)
         end
  | C_baccarat bets player banker =>
      [z2b (len bets)] ++ concat (bet9 <$> bets) ++ counted player ++ counted banker
  | C_roulette header bets result =>
      [z2b (len bets)]
      ++ match header with
         | Some (zero, phase, wagered, pending) =>
             [z2b zero; z2b phase] ++ be_bytes 8 wagered ++ be_bytes 8 pending
         | None => []
         end
      ++ concat (bet10 <$> bets) ++ default [] ((fun v => [z2b v]) <$> result)
  | C_sicbo bets dice rules =>
      [z2b (len bets)] ++ concat (bet10 <$> bets) ++ default [] (triple_bytes <$> dice)
      ++ [z2b rules]
  | C_craps version phase point d1 d2 mask epoch bets paytable =>
      if version =? 0 then
        u8array [phase; point; d1; d2; len bets] ++ concat (craps_bet_bytes <$> bets)
      else
      u8array [version; phase; point; d1; d2; mask]
      ++ when (2 <=? version) [z2b (Z.b2z epoch)]
      ++ [z2b (len bets)] ++ concat (craps_bet_bytes <$> bets) ++ [z2b paytable]
  | C_hilo card accumulator tail =>
      [z2b card] ++ be_bytes 8 accumulator
      ++ match tail with
         | None => []
         | Some (rules, None) => [z2b rules]
         | Some (rules, Some (higher, lower, same)) =>
             [z2b rules] ++ be_bytes 4 higher ++ be_bytes 4 lower ++ be_bytes 4 same
         end
  | C_videopoker stage c1 c2 c3 c4 c5 rules => u8array [stage; c1; c2; c3; c4; c5; rules]
  | C_casinowar version stage player dealer tie rules =>
      if version =? 1 then u8array [version; stage; player; dealer] ++ be_bytes 8 tie ++ [z2b rules]
      else u8array [player; dealer; stage]
  | C_threecard version stage p1 p2 p3 d1 d2 d3 pairplus six progressive rules =>
      u8array [version; stage; p1; p2; p3; d1; d2; d3] ++ be_bytes 8 pairplus
      ++ when (2 <=? version) (be_bytes 8 six) ++ when (3 <=? version) (be_bytes 8 progressive)
      ++ [z2b rules]
  | C_ultimate version stage p1 p2 c1 c2 c3 c4 c5 d1 d2 mult b1 b2 b3 b4 trips six progressive
      rules =>
      u8array [version; stage; p1; p2; c1; c2; c3; c4; c5; d1; d2; mult]
      ++ when (2 <=? version) (u8array [b1; b2; b3; b4]) ++ be_bytes 8 trips
      ++ when (2 <=? version) (be_bytes 8 six) ++ when (3 <=? version) (be_bytes 8 progressive)
      ++ [z2b rules]
  end.

Definition game_of (s : ChainState) : GameType :=
  match s with
  | C_blackjack _ _ _ _ _ _ _ _ _ _ _ _ _ => Game_Blackjack
  | C_baccarat _ _ _ => Game_Baccarat
  | C_roulette _ _ _ => Game_Roulette
  | C_sicbo _ _ _ => Game_SicBo
  | C_craps _ _ _ _ _ _ _ _ _ => Game_Craps
  | C_hilo _ _ _ => Game_HiLo
  | C_videopoker _ _ _ _ _ _ _ => Game_VideoPoker
  | C_casinowar _ _ _ _ _ _ => Game_CasinoWar
  | C_threecard _ _ _ _ _ _ _ _ _ _ _ _ => Game_ThreeCard
  | C_ultimate _ _ _ _ _ _ _ _ _ _ _ _ _ _ _ _ _ _ _ _ => Game_UltimateHoldem
  end.

(** ** What the parsers should make of them *)

Definition craps_bet_view (b : CrapsRawBet) : CrapsRawBet :=
  {| cb_betType := cb_betType b; cb_target := cb_target b; cb_status := cb_status b;
     cb_amount := to_number (cb_amount b); oddsAmount := to_number (oddsAmount b) |}.

Definition if_version (b : bool) (v : Z) : Z := if b then to_number v else 0.

Definition view_of (s : ChainState) : Parsed :=
  match s with
  | C_blackjack version stage s21 ladies pairs bust royal p1 p2 active hands dealer tail =>
      let totals := '(_, t) ← tail; t in
      P_blackjack {|
        bj_version := version; bj_stage := stage;
        sideBet21Plus3 := to_number s21;
        sideBetLuckyLadies := if_version (3 <=? version) ladies;
        sideBetPerfectPairs := if_version (3 <=? version) pairs;
        sideBetBustIt := if_version (3 <=? version) bust;
        sideBetRoyalMatch := if_version (4 <=? version) royal;
        initPlayerCards := (p1, p2); activeHandIndex := active;
        bj_hands := hands; bj_dealerCards := dealer;
        playerValue := (fun t => fst (fst t)) <$> totals;
        dealerValue := (fun t => snd (fst t)) <$> totals;
        actionMask := snd <$> totals |}
  | C_baccarat bets player banker =>
      P_baccarat {| ba_betCount := len bets; ba_playerCards := player; bankerCards := banker |}
  | C_roulette header bets result =>
      P_roulette {|
        ro_betCount := len bets;
        zeroRule := match header with Some (z, _, _, _) => z | None => 0 end;
        ro_phase := match header with Some (_, p, _, _) => p | None => 0 end;
        ro_result := result |}
  | C_sicbo bets dice _ => P_sicbo {| si_betCount := len bets; si_dice := dice |}
  | C_craps version phase point d1 d2 mask epoch bets _ =>
      P_craps {|
        cr_version := if version =? 0 then phase else version;
        cr_phase := if version =? 0 then 0 else phase;
        mainPoint := point; cr_dice := (d1, d2);
        madePointsMask := if version =? 0 then 0 else mask;
        epochPointEstablished :=
          if 2 <=? version then epoch
          else (phase =? 1) || (0 <? point) || (negb (version =? 0) && negb (mask =? 0));
        cr_betCount := len bets;
        betsOffset := if 2 <=? version then 8 else if version =? 0 then 5 else 7;
        cr_bets := craps_bet_view <$> bets |}
  | C_hilo card accumulator tail =>
      P_hilo {| cardId := card; accumulatorBasisPoints := accumulator;
                rulesByte := default 0 (fst <$> tail);
                nextMultipliers := '(_, m) ← tail; m |}
  | C_videopoker stage c1 c2 c3 c4 c5 _ =>
      P_videopoker {| vp_stage := stage; vp_cards := [c1; c2; c3; c4; c5] |}
  | C_casinowar version stage player dealer tie _ =>
      P_casinowar {| cw_version := version; cw_stage := stage; playerCard := player;
                     dealerCard := dealer; tieBet := if version =? 1 then tie else 0 |}
  | C_threecard version stage p1 p2 p3 d1 d2 d3 pairplus six progressive _ =>
      P_threecard {| tc_version := version; tc_stage := stage;
                     tc_playerCards := [p1; p2; p3]; tc_dealerCards := [d1; d2; d3];
                     pairPlusBet := to_number pairplus;
                     tc_sixCardBonusBet := if_version (2 <=? version) six;
                     tc_progressiveBet := if_version (3 <=? version) progressive |}
  | C_ultimate version stage p1 p2 c1 c2 c3 c4 c5 d1 d2 mult b1 b2 b3 b4 trips six progressive _ =>
      P_ultimate {| uh_version := version; uh_stage := stage;
                    uh_playerCards := [p1; p2]; communityCards := [c1; c2; c3; c4; c5];
                    uh_dealerCards := [d1; d2]; playMultiplier := mult;
                    bonusCards := if 2 <=? version then [b1; b2; b3; b4] else [];
                    tripsBet := to_number trips;
                    uh_sixCardBonusBet := if_version (2 <=? version) six;
                    uh_progressiveBet := if_version (3 <=? version) progressive |}
  end.

(** ** Well-formed states *)

Definition cards_ok (cards : list Z) : Prop := len cards < 256 /\ Forall u8 cards.

Definition hand_ok (h : BlackjackHand) : Prop :=
  u8 (betMult h) /\ u8 (bh_status h) /\ u8 (wasSplit h) /\ cards_ok (bh_cards h).

Definition craps_bet_ok (b : CrapsRawBet) : Prop :=
  u8 (cb_betType b) /\ u8 (cb_target b) /\ u8 (cb_status b)
  /\ u64 (cb_amount b) /\ u64 (oddsAmount b).

Definition die (v : Z) : Prop := 1 <= v <= 6.

Definition option_all {A} (P : A -> Prop) (o : option A) : Prop :=
  match o with Some a => P a | None => True end.

Definition state_ok (s : ChainState) : Prop :=
  match s with
  | C_blackjack version stage s21 ladies pairs bust royal p1 p2 active hands dealer tail =>
      2 <= version <= 4 /\ Forall u8 [stage; p1; p2; active]
      /\ Forall u64 [s21; ladies; pairs; bust; royal]
      /\ len hands <= 10 /\ Forall hand_ok hands /\ cards_ok dealer
      /\ option_all (fun t => option_all (fun '(a, b, c) => u8 a /\ u8 b /\ u8 c) (snd t)) tail
  | C_baccarat bets player banker => len bets < 256 /\ cards_ok player /\ cards_ok banker
  | C_roulette header bets result =>
      len bets < 256 /\ option_all (fun '(z, p, _, _) => u8 z /\ u8 p) header
      /\ option_all u8 result
  | C_sicbo bets dice _ =>
      len bets < 256 /\ option_all (fun '(a, b, c) => die a /\ die b /\ die c) dice
  | C_craps version phase point d1 d2 mask _ bets _ =>
      0 <= version <= 2 /\ 0 <= phase <= 1 /\ Forall u8 [point; d1; d2; mask]
      /\ len bets <= CRAPS_MAX_BETS /\ Forall craps_bet_ok bets
      /\ (version = 0 -> phase = 1 -> 2 <= point)
  | C_hilo card accumulator tail =>
      u8 card /\ - 2 ^ 63 <= accumulator < 2 ^ 63
      /\ option_all (fun t => u8 (fst t)
           /\ option_all (fun '(a, b, c) => 0 <= a < 2 ^ 32 /\ 0 <= b < 2 ^ 32 /\ 0 <= c < 2 ^ 32)
                (snd t)) tail
  | C_videopoker stage c1 c2 c3 c4 c5 _ => Forall u8 [stage; c1; c2; c3; c4; c5]
  | C_casinowar version stage player dealer tie _ =>
      0 <= version <= 1 /\ Forall u8 [stage; player; dealer] /\ u64 tie
  | C_threecard version stage p1 p2 p3 d1 d2 d3 pairplus six progressive _ =>
      1 <= version <= 3 /\ Forall u8 [stage; p1; p2; p3; d1; d2; d3]
      /\ Forall u64 [pairplus; six; progressive]
  | C_ultimate version stage p1 p2 c1 c2 c3 c4 c5 d1 d2 mult b1 b2 b3 b4 trips six progressive _ =>
      1 <= version <= 3
      /\ Forall u8 [stage; p1; p2; c1; c2; c3; c4; c5; d1; d2; mult; b1; b2; b3; b4]
      /\ Forall u64 [trips; six; progressive]
  end.

(** ** Sequential reads *)

Section Sequential.
Import SafeReader.

Lemma reads_safe_u8 f v : u8 v -> reads (readU8 f) [z2b v] v.
Proof.
  intros H pre post. unfold readU8. cbn [rd_data rd_offset app].
  rewrite elem_mid. cbn [default]. autorewrite with js. rewrite Z.mod_small by done.
  pose proof (len_nonneg post). zcmp. done.
Qed.

Lemma reads_safe_bytes f n bs : len bs = n -> reads (readBytes n f) bs bs.
Proof.
  intros <- pre post. unfold readBytes. cbn [rd_data rd_offset].
  autorewrite with js. pose proof (len_nonneg post). pose proof (len_nonneg bs). zcmp.
  cbn [orb]. by rewrite slice_mid.
Qed.

Lemma reads_safe_skip f n bs : len bs = n -> reads (skip n f) bs tt.
Proof.
  intros <- pre post. unfold skip. cbn [rd_data rd_offset].
  autorewrite with js. pose proof (len_nonneg post). pose proof (len_nonneg bs). zcmp. done.
Qed.

Lemma reads_safe_u64 f v : u64 v -> reads (readU64BE f) (be_bytes 8 v) v.
Proof.
  intros H pre post. unfold readU64BE, read64, getBigUint64BE. cbn [rd_data rd_offset].
  rewrite view_bytes_mid by apply length_be_bytes. autorewrite with js.
  pose proof (len_nonneg post). zcmp. cbn [fmap result_fmap]. by rewrite be_value_u64.
Qed.

Lemma reads_side_bet b f v :
  u64 v -> reads (side_bet b f) (when b (be_bytes 8 v)) (if_version b v).
Proof.
  intros H. destruct b; simpl; [|apply reads_ret].
  eapply reads_bind_last; [by apply reads_safe_u64|]. apply reads_ret.
Qed.

Lemma len_u8array l : len (u8array l) = len l.
Proof. apply len_fmap. Qed.

Lemma to_numbers_cards cards : Forall u8 cards -> to_numbers (u8array cards) = cards.
Proof. apply to_numbers_u8array. Qed.

Lemma reads_hand h hand : hand_ok hand -> reads (readHand h) (hand_bytes hand) hand.
Proof.
  intros (Hm & Hs & Hw & Hl & Hc). unfold readHand, hand_bytes. pose proof (len_nonneg (bh_cards hand)).
  do 4 (eapply reads_bind; [apply reads_safe_u8; (done || (split; lia))|]; cbv beta).
  eapply reads_bind_last; [apply reads_safe_bytes, len_u8array|].
  rewrite to_numbers_cards by done. destruct hand. apply reads_ret.
Qed.

Lemma reads_hands hands h :
  Forall hand_ok hands ->
  reads (readHands (length hands) h) (concat (hand_bytes <$> hands)) hands.
Proof.
  intros H. revert h. induction H as [|x l Hx _ IH]; intros h; [apply reads_ret|].
  rewrite fmap_cons. cbn [concat readHands length].
  eapply reads_bind; [by apply reads_hand|]. eapply reads_bind_last; [apply IH|]. apply reads_ret.
Qed.

(** One step of a run whose reader stands behind [pre]. *)
Lemma run_step {A B} (m : R A) (k : A -> R B) bs a pre rest :
  reads m bs a ->
  (m ≫= k) (Reader (pre ++ bs ++ rest) (len pre))
  = k a (Reader ((pre ++ bs) ++ rest) (len (pre ++ bs))).
Proof. intros H. rewrite (R_bind_ok _ _ _ _ _ (H pre rest)), <- app_assoc. by rewrite len_app. Qed.

(** The last step of the reads that leave [rest] unread. *)
Lemma run_remaining {B} (k : Z -> R B) pre rest :
  (remaining ≫= k) (Reader (pre ++ rest) (len pre)) = k (len rest) (Reader (pre ++ rest) (len pre)).
Proof. unfold remaining, mbind, R_bind. cbn [rd_data rd_offset]. f_equal. rewrite len_app. lia. Qed.

Lemma run_optional {B} f (k : option Z -> R B) v pre rest :
  u8 v ->
  (optional_u8 f ≫= k) (Reader (pre ++ [z2b v] ++ rest) (len pre))
  = k (Some v) (Reader ((pre ++ [z2b v]) ++ rest) (len (pre ++ [z2b v]))).
Proof.
  intros H. unfold optional_u8. erewrite R_bind_ok; [reflexivity|].
  rewrite run_remaining. rewrite len_app. change (len [z2b v]) with 1.
  pose proof (len_nonneg rest). zcmp. rewrite (run_step _ _ _ v) by by apply reads_safe_u8. done.
Qed.

Lemma run_optional_none {B} f (k : option Z -> R B) pre :
  (optional_u8 f ≫= k) (Reader (pre ++ []) (len pre)) = k None (Reader (pre ++ []) (len pre)).
Proof.
  unfold optional_u8. erewrite R_bind_ok; [reflexivity|]. by rewrite run_remaining.
Qed.

Lemma run_start {A} (m : R A) data : run m data = fst <$> m (Reader ([] ++ data) (len (@nil byte))).
Proof. reflexivity. Qed.

End Sequential.

(** Consume the next item of a layout with the lemma for its reader. *)
Ltac rd lem := rewrite (run_step _ _ _ _ _ _ lem); cbv beta.

#[export] Hint Rewrite len_u8array : js.

(** The items of a layout have a length of at least zero. *)
Ltac len_bound :=
  autorewrite with js;
  repeat match goal with
  | |- context [len ?l] =>
      pose proof (len_nonneg l); let n := fresh "n" in generalize dependent (len l); intros n
  end; lia.

Lemma blackjack_roundtrip version stage s21 ladies pairs bust royal p1 p2 active hands dealer tail :
  let s := C_blackjack version stage s21 ladies pairs bust royal p1 p2 active hands dealer tail in
  state_ok s -> P_blackjack <$> parseBlackjackState (blob_of s) = Some (view_of s).
Proof.
  intros s (Hv & H8 & H64 & Hn & Hh & [Hdl Hd] & Ht).
  repeat match goal with H : Forall _ (_ :: _) |- _ => inversion_clear H end.
  pose proof (len_nonneg hands). pose proof (len_nonneg dealer).
  unfold parseBlackjackState. rewrite (proj2 (Z.ltb_ge _ _)); [|unfold s, blob_of; len_bound].
  unfold s, blob_of. rewrite run_start. unfold blackjackBody.
  rd (reads_safe_u8 "version" version ltac:(split; lia)).
  replace (negb (version =? 2) && negb (version =? 3) && negb (version =? 4)) with false
    by (assert (version = 2 \/ version = 3 \/ version = 4) as [-> | [-> | ->]] by lia; done).
  rd (reads_safe_u8 "stage" stage ltac:(done)).
  rd (reads_side_bet true "side bet 21+3" s21 ltac:(done)
      : reads _ (be_bytes 8 s21) (to_number s21)).
  rd (reads_side_bet (3 <=? version) "side bet lucky ladies" ladies ltac:(done)).
  rd (reads_side_bet (3 <=? version) "side bet perfect pairs" pairs ltac:(done)).
  rd (reads_side_bet (3 <=? version) "side bet bust it" bust ltac:(done)).
  rd (reads_side_bet (4 <=? version) "side bet royal match" royal ltac:(done)).
  rd (reads_safe_u8 "init player card 1" p1 ltac:(done)).
  rd (reads_safe_u8 "init player card 2" p2 ltac:(done)).
  rd (reads_safe_u8 "active hand index" active ltac:(done)).
  rd (reads_safe_u8 "hand count" (len hands) ltac:(split; lia)).
  rewrite (proj2 (Z.ltb_ge 10 (len hands))) by lia.
  replace (Z.to_nat (len hands)) with (length hands) by (unfold len; lia).
  rd (reads_hands hands 0 Hh).
  rd (reads_safe_u8 "dealer card count" (len dealer) ltac:(split; lia)).
  rd (reads_safe_bytes "dealer cards" (len dealer) (u8array dealer) ltac:(apply len_u8array)).
  rewrite run_remaining, to_numbers_cards by done.
  destruct tail as [[[r1 r2] [[[a b] c]|]]|]; simpl in Ht.
  - destruct Ht as (Ha & Hb & Hc).
    change ([z2b r1; z2b r2] ++ default [] (triple_bytes <$> Some (a, b, c)))
      with ([z2b r1; z2b r2] ++ [z2b a] ++ [z2b b] ++ [z2b c] ++ []).
    rewrite (proj2 (Z.leb_le 2 (len _))) by (unfold len; simpl; lia).
    rd (reads_safe_skip "rules" 2 [z2b r1; z2b r2] eq_refl).
    by rewrite !run_optional by done.
  - change ([z2b r1; z2b r2] ++ default [] (triple_bytes <$> None)) with ([z2b r1; z2b r2] ++ []).
    rewrite (proj2 (Z.leb_le 2 (len _))) by (unfold len; simpl; lia).
    rd (reads_safe_skip "rules" 2 [z2b r1; z2b r2] eq_refl).
    by rewrite !run_optional_none.
  - change (2 <=? len (@nil byte)) with false. cbv iota.
    rewrite (R_bind_ok (mret tt) _ _ tt _ eq_refl). by rewrite !run_optional_none.
Qed.

Lemma len_concat_fixed {A} (f : A -> Uint8Array) n (l : list A) :
  (forall a, len (f a) = n) -> len (concat (f <$> l)) = n * len l.
Proof.
  intros H. induction l as [|a l IH]; [change (0 = n * 0); lia|].
  rewrite fmap_cons. cbn [concat]. autorewrite with js. rewrite IH, H. ring.
Qed.

Lemma len_bets9 bets : len (concat (bet9 <$> bets)) = 9 * len bets.
Proof. apply len_concat_fixed. by intros [t a]. Qed.

Lemma len_bets10 bets : len (concat (bet10 <$> bets)) = 10 * len bets.
Proof. apply len_concat_fixed. by intros [[t n] a]. Qed.

Lemma len_bets19 bets : len (concat (craps_bet_bytes <$> bets)) = 19 * len bets.
Proof. by apply len_concat_fixed. Qed.

#[export] Hint Rewrite len_bets9 len_bets10 len_bets19 : js.

Lemma baccarat_roundtrip bets player banker :
  let s := C_baccarat bets player banker in
  state_ok s -> P_baccarat <$> parseBaccaratState (blob_of s) = Some (view_of s).
Proof.
  intros s (Hb & [Hpl Hp] & [Hkl Hk]).
  pose proof (len_nonneg bets). pose proof (len_nonneg player). pose proof (len_nonneg banker).
  unfold parseBaccaratState. rewrite (proj2 (Z.ltb_ge _ _)); [|unfold s, blob_of, counted; len_bound].
  unfold s, blob_of, counted. rewrite run_start, <- (app_nil_r (u8array banker)), <- !app_assoc.
  rd (reads_safe_u8 "bet count" (len bets) ltac:(split; lia)).
  rd (reads_safe_skip "bets" (len bets * 9) (concat (bet9 <$> bets)) ltac:(rewrite len_bets9; lia)).
  rd (reads_safe_u8 "player card count" (len player) ltac:(split; lia)).
  rd (reads_safe_bytes "player cards" (len player) (u8array player) ltac:(apply len_u8array)).
  rd (reads_safe_u8 "banker card count" (len banker) ltac:(split; lia)).
  rd (reads_safe_bytes "banker cards" (len banker) (u8array banker) ltac:(apply len_u8array)).
  by rewrite !to_numbers_cards.
Qed.

(** ** Reads at an offset *)

Lemma readU8At_mid f off v pre post r :
  rd_data r = pre ++ z2b v :: post -> len pre = off -> u8 v ->
  SafeReader.readU8At off f r = Ok (v, r).
Proof.
  intros E <- Hv. unfold SafeReader.readU8At. rewrite E. autorewrite with js.
  pose proof (len_nonneg pre). pose proof (len_nonneg post). zcmp. cbn [orb].
  rewrite elem_mid. cbn [default]. by rewrite b2z_z2b_small.
Qed.

(** A byte of a blob whose beginning is known. *)
Lemma at_lookup data i v : data !! Z.to_nat i = Some (z2b v) -> 0 <= i -> u8 v -> at_ data i = v.
Proof.
  intros E Hi Hv. unfold at_, elem. rewrite (proj2 (Z.ltb_ge _ _)), E by lia.
  cbn. by apply b2z_z2b_small.
Qed.

(** An integer of [n] bytes behind the first [off] ones. *)
Lemma read_at_drop n get (dec : Uint8Array -> Z) data off f bs rest :
  (forall d o, get d o = dec <$> view_bytes d o n) ->
  drop (Z.to_nat off) data = bs ++ rest -> 0 <= off -> bs <> [] -> length bs = n ->
  read_at (Z.of_nat n) get data off f = Ok (dec bs).
Proof.
  intros Hget E Ho Hne Hn. unfold read_at.
  assert (Hl : len data = off + len (bs ++ rest)).
  { rewrite <- E. unfold len. rewrite length_drop.
    destruct (decide (Z.to_nat off <= length data)%nat); [lia|].
    rewrite drop_ge in E by lia. destruct bs; [done|discriminate E]. }
  rewrite Hl, len_app. pose proof (len_nonneg rest).
  replace (len bs) with (Z.of_nat n) by (unfold len; lia). zcmp. cbn [orb]. rewrite Hget.
  assert (Ed : data = take (Z.to_nat off) data ++ bs ++ rest) by by rewrite <- E, take_drop.
  rewrite Ed.
  replace off with (len (take (Z.to_nat off) data)) at 2.
  - by rewrite view_bytes_mid.
  - unfold len. rewrite length_take. unfold len in Hl. lia.
Qed.

Lemma readU64BEAt_drop data off f v rest :
  drop (Z.to_nat off) data = be_bytes 8 v ++ rest -> 0 <= off -> u64 v ->
  readU64BEAt data off f = Ok v.
Proof.
  intros E Ho Hv. rewrite <- (be_value_u64 v Hv).
  by apply (read_at_drop 8 _ be_value data off f (be_bytes 8 v) rest (fun _ _ => eq_refl) E).
Qed.

Lemma number_at_drop data off f v rest :
  drop (Z.to_nat off) data = be_bytes 8 v ++ rest -> 0 <= off -> u64 v ->
  number_at data off f = Ok (to_number v).
Proof. intros E Ho Hv. unfold number_at. by rewrite (readU64BEAt_drop _ _ _ _ _ E). Qed.

Lemma readU32BEAt_drop data off f v rest :
  drop (Z.to_nat off) data = be_bytes 4 v ++ rest -> 0 <= off -> 0 <= v < 2 ^ 32 ->
  readU32BEAt data off f = Ok v.
Proof.
  intros E Ho Hv. rewrite <- (be_value_u32 v Hv).
  by apply (read_at_drop 4 _ be_value data off f (be_bytes 4 v) rest (fun _ _ => eq_refl) E).
Qed.

Lemma readI64BEAt_drop data off f v rest :
  drop (Z.to_nat off) data = be_bytes 8 v ++ rest -> 0 <= off -> - 2 ^ 63 <= v < 2 ^ 63 ->
  readI64BEAt data off f = Ok v.
Proof.
  intros E Ho Hv. transitivity (Ok (as_signed 64 (be_value (be_bytes 8 v)))).
  - apply (read_at_drop 8 _ (fun bs => as_signed 64 (be_value bs)) data off f (be_bytes 8 v) rest);
      try done.
    intros d o. unfold getBigInt64BE, getBigUint64BE. by destruct (view_bytes d o 8).
  - rewrite be_value_be_bytes. change (8 * Z.of_nat 8) with 64. by rewrite as_signed_u64.
Qed.

(** The bytes at the front of a blob, and the integers behind them. *)
Ltac front := first [ reflexivity | lia | assumption | split; lia ].
Ltac number_at i v := erewrite (number_at_drop _ i _ v) by front.
Ltac byte_at i v := rewrite (at_lookup _ i v) by front.

Lemma hilo_roundtrip card accumulator tail :
  let s := C_hilo card accumulator tail in
  state_ok s -> P_hilo <$> parseHiLoState (blob_of s) = Some (view_of s).
Proof.
  intros s (Hc & Ha & Ht). unfold parseHiLoState.
  rewrite (proj2 (Z.ltb_ge _ _)); [|unfold s, blob_of; len_bound].
  erewrite readI64BEAt_drop; [|reflexivity|lia|done].
  byte_at 0 card. unfold s, blob_of. destruct tail as [[rules [[[a b] c]|]]|]; simpl in Ht.
  - destruct Ht as (Hr & H1 & H2 & H3). byte_at 9 rules.
    erewrite !readU32BEAt_drop; try done; reflexivity.
  - destruct Ht as (Hr & _). by byte_at 9 rules.
  - done.
Qed.

Lemma videopoker_roundtrip stage c1 c2 c3 c4 c5 rules :
  let s := C_videopoker stage c1 c2 c3 c4 c5 rules in
  state_ok s -> P_videopoker <$> parseVideoPokerState (blob_of s) = Some (view_of s).
Proof.
  intros s H. unfold s in H. simpl in H.
  repeat match goal with H : Forall _ (_ :: _) |- _ => inversion_clear H end.
  unfold parseVideoPokerState. change (len (blob_of s) <? 6) with false. cbv iota.
  unfold videoPokerCards. change (len (blob_of s)) with 7.
  change (filter (fun i => i < 7) [1; 2; 3; 4; 5]) with [1; 2; 3; 4; 5]. cbn [fmap list_fmap].
  byte_at 0 stage. byte_at 1 c1. byte_at 2 c2. byte_at 3 c3. byte_at 4 c4. byte_at 5 c5. done.
Qed.

Lemma casinowar_roundtrip version stage player dealer tie rules :
  let s := C_casinowar version stage player dealer tie rules in
  state_ok s -> P_casinowar <$> parseCasinoWarState (blob_of s) = Some (view_of s).
Proof.
  intros s (Hv & H & Ht). unfold s in *.
  repeat match goal with H : Forall _ (_ :: _) |- _ => inversion_clear H end.
  unfold parseCasinoWarState.
  assert (version = 1 \/ version = 0) as [-> | ->] by lia; unfold blob_of; cbn [Z.eqb Pos.eqb].
  - byte_at 0 1. byte_at 1 stage. byte_at 2 player. byte_at 3 dealer.
    by erewrite readU64BEAt_drop by (reflexivity || done).
  - byte_at 0 player. byte_at 1 dealer. by byte_at 2 stage.
Qed.

Lemma threecard_roundtrip version stage p1 p2 p3 d1 d2 d3 pairplus six progressive rules :
  let s := C_threecard version stage p1 p2 p3 d1 d2 d3 pairplus six progressive rules in
  state_ok s -> P_threecard <$> parseThreeCardState (blob_of s) = Some (view_of s).
Proof.
  intros s (Hv & H8 & H64). unfold s in *.
  repeat match goal with H : Forall _ (_ :: _) |- _ => inversion_clear H end.
  unfold parseThreeCardState. byte_at 1 stage.
  byte_at 2 p1. byte_at 3 p2. byte_at 4 p3. byte_at 5 d1. byte_at 6 d2. byte_at 7 d3.
  assert (version = 1 \/ version = 2 \/ version = 3) as [-> | [-> | ->]] by lia.
  - byte_at 0 1. number_at 8 pairplus. done.
  - byte_at 0 2. number_at 8 pairplus. number_at 16 six. done.
  - byte_at 0 3. number_at 8 pairplus. number_at 16 six. number_at 24 progressive. done.
Qed.

Lemma ultimate_roundtrip version stage p1 p2 c1 c2 c3 c4 c5 d1 d2 mult b1 b2 b3 b4 trips six
    progressive rules :
  let s := C_ultimate version stage p1 p2 c1 c2 c3 c4 c5 d1 d2 mult b1 b2 b3 b4 trips six
             progressive rules in
  state_ok s -> P_ultimate <$> parseUltimateHoldemState (blob_of s) = Some (view_of s).
Proof.
  intros s (Hv & H8 & H64). unfold s in *.
  repeat match goal with H : Forall _ (_ :: _) |- _ => inversion_clear H end.
  unfold parseUltimateHoldemState. byte_at 1 stage. byte_at 2 p1. byte_at 3 p2.
  byte_at 4 c1. byte_at 5 c2. byte_at 6 c3. byte_at 7 c4. byte_at 8 c5.
  byte_at 9 d1. byte_at 10 d2. byte_at 11 mult.
  assert (version = 1 \/ version = 2 \/ version = 3) as [-> | [-> | ->]] by lia.
  - byte_at 0 1. number_at 12 trips. done.
  - byte_at 0 2. byte_at 12 b1. byte_at 13 b2. byte_at 14 b3. byte_at 15 b4.
    number_at 16 trips. number_at 24 six. done.
  - byte_at 0 3. byte_at 12 b1. byte_at 13 b2. byte_at 14 b3. byte_at 15 b4.
    number_at 16 trips. number_at 24 six. number_at 32 progressive. done.
Qed.

(** The optional result behind the bets. *)
Lemma result_at f off n pre result r :
  rd_data r = pre ++ default [] ((fun v => [z2b v]) <$> result) -> len pre = off ->
  n = len (rd_data r) -> option_all u8 result ->
  (if off <? n then v ← SafeReader.readU8At off f; mret (Some v) else mret None : R (option Z)) r
  = Ok (result, r).
Proof.
  intros E <- -> Hr. 
  assert (El : len (rd_data r) = len pre + len (default [] ((fun v => [z2b v]) <$> result)))
    by by rewrite E, len_app.
  rewrite El. pose proof (len_nonneg pre).
  destruct result as [v|]; simpl in E, Hr.
  - change (len (default _ _)) with 1. zcmp.
    by rewrite (R_bind_ok _ _ _ _ _ (readU8At_mid f _ v pre [] r E eq_refl Hr)).
  - change (len (default _ _)) with 0. by zcmp.
Qed.

(** A blob in the current layout never has the length of a legacy one. *)
Lemma roulette_roundtrip header bets result :
  let s := C_roulette header bets result in
  state_ok s -> P_roulette <$> parseRouletteState (blob_of s) = Some (view_of s).
Proof.
  intros s (Hb & Hh & Hr). pose proof (len_nonneg bets).
  set (head := match header with
    | Some (zero, phase, wagered, pending) =>
        [z2b zero; z2b phase] ++ be_bytes 8 wagered ++ be_bytes 8 pending
    | None => [] end).
  set (tail := default [] ((fun v => [z2b v]) <$> result)).
  assert (Ht : 0 <= len tail <= 1) by (unfold tail, len; destruct result; simpl; lia).
  assert (Hhead : len head = if header is Some _ then 18 else 0)
    by (unfold head; by destruct header as [[[[z p] w] q]|]).
  assert (Hs : blob_of s = [z2b (len bets)] ++ (head ++ concat (bet10 <$> bets) ++ tail)) by done.
  assert (Hlen : len (blob_of s) = 1 + len head + 10 * len bets + len tail)
    by (rewrite Hs; autorewrite with js; lia).
  unfold parseRouletteState. rewrite (proj2 (Z.ltb_ge _ _)); [|destruct header; lia].
  rewrite run_start, Hlen, Hs.
  rd (reads_safe_u8 "bet count" (len bets) ltac:(split; lia)).
  cbv zeta. rewrite Hhead. unfold s, view_of. destruct header as [[[[zero phase] w] q]|].
  - destruct Hh as [Hz Hp].
    assert (Hl2 : (1 + 18 + 10 * len bets + len tail =? 19 + len bets * 10)
                  || (1 + 18 + 10 * len bets + len tail =? 19 + len bets * 10 + 1) = true).
    { apply orb_true_iff. rewrite !Z.eqb_eq. lia. }
    rewrite Hl2.
    set (post := be_bytes 8 w ++ be_bytes 8 q ++ concat (bet10 <$> bets) ++ tail).
    erewrite R_bind_ok; [|by apply (readU8At_mid _ 1 zero [z2b (len bets)] (z2b phase :: post))].
    erewrite R_bind_ok; [|by apply (readU8At_mid _ 2 phase [z2b (len bets); z2b zero] post)].
    erewrite R_bind_ok; [reflexivity|].
    apply (result_at _ _ _ ([z2b (len bets)] ++ head ++ concat (bet10 <$> bets))); try done.
    rewrite !len_app, Hhead, len_bets10. change (len [_]) with 1. lia.
  - assert (Hl2 : (1 + 0 + 10 * len bets + len tail =? 19 + len bets * 10)
                  || (1 + 0 + 10 * len bets + len tail =? 19 + len bets * 10 + 1) = false).
    { apply orb_false_iff. rewrite !Z.eqb_neq. lia. }
    rewrite Hl2. rewrite !(R_bind_ok (mret 0) _ _ 0 _ eq_refl).
    erewrite R_bind_ok; [reflexivity|].
    apply (result_at _ _ _ ([z2b (len bets)] ++ head ++ concat (bet10 <$> bets))); try done.
    rewrite !len_app, Hhead, len_bets10. change (len [_]) with 1. lia.
Qed.

Lemma sicbo_roundtrip bets dice rules :
  let s := C_sicbo bets dice rules in
  state_ok s -> P_sicbo <$> parseSicBoState (blob_of s) = Some (view_of s).
Proof.
  intros s (Hb & Hd). pose proof (len_nonneg bets).
  set (tail := default [] (triple_bytes <$> dice) ++ [z2b rules]).
  assert (Hs : blob_of s = [z2b (len bets)] ++ concat (bet10 <$> bets) ++ tail) by done.
  assert (Hlen : len (blob_of s) = 1 + 10 * len bets + (if dice is Some _ then 4 else 1)).
  { assert (Ht : len tail = if dice is Some _ then 4 else 1)
      by (unfold tail; by destruct dice as [[[d1 d2] d3]|]).
    rewrite Hs. autorewrite with js. lia. }
  unfold parseSicBoState. rewrite (proj2 (Z.ltb_ge _ _)); [|destruct dice; lia].
  rewrite run_start, Hlen, Hs.
  rd (reads_safe_u8 "bet count" (len bets) ltac:(split; lia)).
  cbv zeta. destruct dice as [[[d1 d2] d3]|]; simpl in Hd; zcmp; [|done].
  destruct Hd as (H1 & H2 & H3).
  set (pre := [z2b (len bets)] ++ concat (bet10 <$> bets)).
  assert (Hp : len pre = 1 + len bets * 10)
    by (unfold pre; autorewrite with js; change (Z.of_nat 1) with 1; lia).
  assert (Hu : u8 d1 /\ u8 d2 /\ u8 d3) by (unfold u8, die in *; lia). destruct Hu as (U1 & U2 & U3).
  assert (Hr : forall r, rd_data r = pre ++ [z2b d1; z2b d2; z2b d3; z2b rules] ->
    forall f, SafeReader.readU8At (1 + len bets * 10) f r = Ok (d1, r)
      /\ SafeReader.readU8At (1 + len bets * 10 + 1) f r = Ok (d2, r)
      /\ SafeReader.readU8At (1 + len bets * 10 + 2) f r = Ok (d3, r)).
  { intros r E f. rewrite <- Hp. split_and!.
    - by apply (readU8At_mid _ _ d1 pre [z2b d2; z2b d3; z2b rules]).
    - apply (readU8At_mid _ _ d2 (pre ++ [z2b d1]) [z2b d3; z2b rules]); [|by rewrite len_app|done].
      by rewrite E, <- app_assoc.
    - apply (readU8At_mid _ _ d3 (pre ++ [z2b d1; z2b d2]) [z2b rules]); [|by rewrite len_app|done].
      by rewrite E, <- app_assoc. }
  match goal with |- context [Reader ?d ?o] =>
    assert (Er : rd_data (Reader d o) = pre ++ [z2b d1; z2b d2; z2b d3; z2b rules])
      by reflexivity;
    revert Er; generalize (Reader d o) end.
  intros r Er. specialize (Hr r Er).
  rewrite (R_bind_ok _ _ _ _ _ (proj1 (Hr _))).
  rewrite (R_bind_ok _ _ _ _ _ (proj1 (proj2 (Hr _)))).
  rewrite (R_bind_ok _ _ _ _ _ (proj2 (proj2 (Hr _)))).
  unfold die in *. cbn [fmap result_fmap mret R_ret fst catch]. by zcmp.
Qed.

(** ** The bets of craps *)

Lemma drop_drop_z {A} (data : list A) off n bs rest :
  drop (Z.to_nat off) data = bs ++ rest -> 0 <= off -> len bs = n ->
  drop (Z.to_nat (off + n)) data = rest.
Proof.
  intros E Ho <-. rewrite Z2Nat.inj_add by (done || apply len_nonneg).
  rewrite <- drop_drop, E. unfold len. by rewrite Nat2Z.id, drop_app_length.
Qed.

Lemma at_drop data off k v bs :
  drop (Z.to_nat off) data = bs -> bs !! Z.to_nat k = Some (z2b v) -> 0 <= off -> 0 <= k -> u8 v ->
  at_ data (off + k) = v.
Proof.
  intros E Hl Ho Hk Hv. apply at_lookup; [|lia|done].
  by rewrite Z2Nat.inj_add, <- lookup_drop, E by done.
Qed.

Lemma len_of_drop {A} (data bs : list A) off :
  drop (Z.to_nat off) data = bs -> bs <> [] -> 0 <= off -> len data = off + len bs.
Proof.
  intros E Hne Ho. rewrite <- E. unfold len. rewrite length_drop.
  destruct (decide (Z.to_nat off <= length data)%nat); [lia|].
  rewrite drop_ge in E by lia. congruence.
Qed.

Lemma crapsBetAt_read data off b rest :
  drop (Z.to_nat off) data = craps_bet_bytes b ++ rest -> 0 <= off -> craps_bet_ok b ->
  crapsBetAt data off = Ok (craps_bet_view b).
Proof.
  intros E Ho (H1 & H2 & H3 & H4 & H5). unfold crapsBetAt.
  set (h := [z2b (cb_betType b); z2b (cb_target b); z2b (cb_status b)]) in *.
  assert (E3 : drop (Z.to_nat (off + 3)) data = be_bytes 8 (cb_amount b) ++ be_bytes 8 (oddsAmount b) ++ rest)
    by by apply (drop_drop_z data off 3 h).
  assert (E11 : drop (Z.to_nat (off + 11)) data = be_bytes 8 (oddsAmount b) ++ rest).
  { replace (off + 11) with (off + 3 + 8) by lia.
    by apply (drop_drop_z data (off + 3) 8 (be_bytes 8 (cb_amount b))); [|lia|]. }
  rewrite (number_at_drop _ _ _ _ _ E3) by (done || lia).
  rewrite (number_at_drop _ _ _ _ _ E11) by (done || lia).
  assert (E0 : at_ data (off + 0) = cb_betType b) by by apply (at_drop _ _ _ _ _ E).
  rewrite Z.add_0_r in E0. rewrite E0, (at_drop data off 1 (cb_target b) _ E),
    (at_drop data off 2 (cb_status b) _ E) by done.
  done.
Qed.

Lemma crapsBetsAt_read data bets off rest :
  drop (Z.to_nat off) data = concat (craps_bet_bytes <$> bets) ++ rest -> 0 <= off ->
  Forall craps_bet_ok bets ->
  crapsBetsAt data (length bets) off = Ok (craps_bet_view <$> bets).
Proof.
  intros E Ho H. revert off E Ho. induction H as [|b bets Hb _ IH]; intros off E Ho; [done|].
  rewrite fmap_cons in E. cbn [concat] in E. rewrite <- app_assoc in E.
  cbn [length crapsBetsAt]. rewrite (len_of_drop _ _ _ E) by (done || lia).
  rewrite len_app. change (len (craps_bet_bytes b)) with 19.
  rewrite (proj2 (Z.ltb_ge _ _)) by len_bound.
  rewrite (crapsBetAt_read _ _ _ _ E) by done. cbn [mbind result_bind].
  rewrite IH; [done| |lia]. by apply (drop_drop_z data off 19 (craps_bet_bytes b)).
Qed.

(** [stateBlob[5] ?? 0]. *)
Lemma mask_at data v : data !! 5%nat = Some (z2b v) -> u8 v -> default 0 (elem data 5) = v.
Proof. intros E Hv. unfold elem. cbn [Z.ltb]. change (Z.to_nat 5) with 5%nat. rewrite E. by apply b2z_z2b_small. Qed.

Lemma craps_blob_len version phase point d1 d2 mask epoch bets paytable :
  len (blob_of (C_craps version phase point d1 d2 mask epoch bets paytable))
  = (if version =? 0 then 5 else if 2 <=? version then 9 else 8) + 19 * len bets.
Proof.
  unfold blob_of. destruct (version =? 0); rewrite !len_app, len_bets19, len_u8array; [done|].
  destruct (2 <=? version); cbn [when]; autorewrite with js; lia.
Qed.

Lemma craps_header version phase point d1 d2 mask epoch bets paytable :
  let s := C_craps version phase point d1 d2 mask epoch bets paytable in
  state_ok s ->
  P_craps (with_bets (crapsHeader (blob_of s)) (craps_bet_view <$> bets)) = view_of s.
Proof.
  intros s (Hv & Hp & H8 & Hn & _ & H0). unfold s in *.
  repeat match goal with H : Forall _ (_ :: _) |- _ => inversion_clear H end.
  unfold CRAPS_MAX_BETS in Hn. pose proof (len_nonneg bets).
  assert (u8 (len bets) /\ u8 phase /\ u8 (Z.b2z epoch)) as (? & ? & ?)
    by (unfold u8; destruct epoch; simpl; lia).
  assert (Hph : (phase =? 0) || (phase =? 1) = true)
    by (apply orb_true_iff; rewrite !Z.eqb_eq; lia).
  assert (version = 2 \/ version = 1 \/ version = 0) as [-> | [-> | ->]] by lia;
    unfold crapsHeader; rewrite craps_blob_len.
  - byte_at 0 2. byte_at 1 phase. byte_at 2 point. byte_at 3 d1. byte_at 4 d2.
    byte_at 6 (Z.b2z epoch). byte_at 7 (len bets). rewrite (mask_at _ mask) by done.
    rewrite Hph. cbn [Z.leb Z.compare Pos.compare Pos.compare_cont]. zcmp. cbn. by destruct epoch.
  - byte_at 0 1. byte_at 1 phase. byte_at 2 point. byte_at 3 d1. byte_at 4 d2.
    byte_at 6 (len bets). rewrite (mask_at _ mask) by done.
    rewrite Hph. cbn [Z.leb Z.compare Pos.compare Pos.compare_cont]. zcmp. done.
  - byte_at 0 phase. byte_at 1 point. byte_at 2 d1. byte_at 3 d2. byte_at 4 (len bets).
    unfold view_of. cbn [Z.eqb Z.leb Z.compare negb andb]. rewrite orb_false_r.
    assert (phase = 0 \/ phase = 1 /\ 2 <= point) as [-> | [-> Hpt]] by lia.
    { reflexivity. }
    rewrite (proj2 (Z.eqb_neq point 0)), (proj2 (Z.eqb_neq point 1)) by lia.
    by destruct (7 <=? _).
Qed.

Lemma craps_roundtrip version phase point d1 d2 mask epoch bets paytable :
  let s := C_craps version phase point d1 d2 mask epoch bets paytable in
  state_ok s -> P_craps <$> parseCrapsState (blob_of s) = Some (view_of s).
Proof.
  intros s Hok. pose proof Hok as (Hv & _ & _ & Hn & Hb & _). pose proof (len_nonneg bets).
  pose proof (craps_header version phase point d1 d2 mask epoch bets paytable Hok) as E.
  cbv zeta in E. fold s in E. rewrite <- E.
  assert (Hc : cr_betCount (crapsHeader (blob_of s)) = len bets)
    by exact (f_equal (fun p => if p is P_craps q then cr_betCount q else 0) E).
  assert (Ho : betsOffset (crapsHeader (blob_of s)) = if 2 <=? version then 8 else if version =? 0 then 5 else 7)
    by exact (f_equal (fun p => if p is P_craps q then betsOffset q else 0) E).
  unfold parseCrapsState. unfold s at 1. rewrite craps_blob_len. rewrite (proj2 (Z.ltb_ge _ _)).
  2: { destruct (version =? 0), (2 <=? version); lia. }
  cbv zeta. rewrite Hc, Ho, (proj2 (Z.ltb_ge _ _)) by done.
  replace (Z.to_nat (len bets)) with (length bets) by (unfold len; lia).
  rewrite (crapsBetsAt_read _ bets _ (if version =? 0 then [] else [z2b paytable]));
    [done| |destruct (2 <=? version), (version =? 0); lia|done].
  assert (version = 2 \/ version = 1 \/ version = 0) as [-> | [-> | ->]] by lia; [done|done|].
  unfold s, blob_of. cbn [Z.eqb]. by rewrite app_nil_r.
Qed.

(** ** What a parser returns, whatever the bytes *)

(** A [number] that comes from a [u64]: rounding reaches at most 2^64. *)
Definition amount_ok (v : Z) : Prop := 0 <= v <= 2 ^ 64.

Lemma to_number_amount n : u64 n -> amount_ok (to_number n).
Proof.
  intros [H0 H]. unfold amount_ok, to_number. rewrite Z.abs_eq by lia. cbv zeta.
  split_if; bprop; [lia|]. set (k := Z.log2 n).
  assert (Hk : 53 <= k <= 63).
  { split; [apply Z.log2_le_pow2; lia|]. assert (k < 64) by (apply Z.log2_lt_pow2; lia). lia. }
  pose proof (Z.log2_spec n ltac:(lia)) as [_ Hn]. fold k in Hn.
  set (u := 2 ^ (k - 52)).
  assert (Hu : 0 < u) by (apply Z.pow_pos_nonneg; lia).
  assert (E : 2 ^ 53 * u = 2 ^ Z.succ k) by (unfold u; rewrite <- Z.pow_add_r by lia; f_equal; lia).
  assert (Hq : n / u < 2 ^ 53) by (apply Z.div_lt_upper_bound; lia).
  assert (0 <= n / u) by (apply Z.div_pos; lia).
  assert (2 ^ Z.succ k <= 2 ^ 64) by (apply Z.pow_le_mono_r; lia).
  rewrite Z.sgn_pos by lia. split_if; nia.
Qed.

(** Run inside the array, [m] stays inside and its value satisfies [P]. *)
Definition yields {A} (m : R A) (P : A -> Prop) : Prop :=
  forall r a r', inside r -> m r = Ok (a, r') -> inside r' /\ P a.

Lemma yields_ret {A} (a : A) (P : A -> Prop) : P a -> yields (mret a) P.
Proof. by intros H r b r' Hr [= <- <-]. Qed.

Lemma yields_bind {A B} (m : R A) (k : A -> R B) P Q :
  yields m P -> (forall a, P a -> yields (k a) Q) -> yields (m ≫= k) Q.
Proof.
  intros Hm Hk r b r' Hr H. apply R_bind_inv in H as (a & r1 & H1 & H2).
  destruct (Hm _ _ _ Hr H1) as [Hr1 Ha]. exact (Hk a Ha _ _ _ Hr1 H2).
Qed.

Lemma yields_if {A} (b : bool) (m m' : R A) P :
  (b = true -> yields m P) -> (b = false -> yields m' P) -> yields (if b then m else m') P.
Proof. destruct b; auto. Qed.

Lemma yields_run {A} (m : R (option A)) data P p :
  yields m (option_all P) -> catch (run m data) None = Some p -> P p.
Proof.
  intros H. unfold run. destruct (m _) as [[o r]|] eqn:E; [|done]. simpl. intros ->.
  refine (proj2 (H _ _ _ _ E)). unfold inside. cbn. pose proof (len_nonneg data). lia.
Qed.

Section Yields.
Import SafeReader.

Lemma yields_u8 f : yields (readU8 f) u8.
Proof.
  intros r v r' Hr. unfold readU8. split_if; [done|]. intros [= <- <-]. bprop. unfold inside in *.
  cbn. split; [lia|]. destruct (elem_Some (rd_data r) (rd_offset r)) as [v E]; [lia|].
  rewrite E. by apply elem_range in E.
Qed.

Lemma yields_u8At off f : yields (readU8At off f) u8.
Proof.
  intros r v r' Hr. unfold readU8At. split_if; [done|]. intros [= <- <-]. bprop. split; [done|].
  destruct (elem_Some (rd_data r) off) as [v E]; [lia|]. rewrite E. by apply elem_range in E.
Qed.

Lemma yields_bytes n f : yields (readBytes n f) (fun bs => len bs = n).
Proof.
  intros r bs r' Hr. unfold readBytes. split_if; [done|]. intros [= <- <-]. bprop.
  unfold inside in *. cbn. split; [lia|]. unfold slice, slice_index. zcmp.
  rewrite !Z.min_l by lia. unfold len in *. rewrite length_take, length_drop. lia.
Qed.

Lemma yields_skip n f : yields (skip n f) (fun _ => True).
Proof.
  intros r u r' Hr. unfold skip. split_if; [done|]. intros [= <- <-]. bprop.
  unfold inside in *. cbn. split; [lia|done].
Qed.

Lemma getBigUint64BE_range data off v : getBigUint64BE data off = Ok v -> u64 v.
Proof.
  unfold getBigUint64BE, view_bytes. split_if; [done|]. intros [= <-]. bprop.
  pose proof (be_value_range (take 8 (drop (Z.to_nat off) data))) as Hb.
  replace (len (take 8 (drop (Z.to_nat off) data))) with 8 in Hb; [exact Hb|].
  unfold len in *. rewrite length_take, length_drop. lia.
Qed.

Lemma yields_u64 f : yields (readU64BE f) u64.
Proof.
  intros r v r' Hr. unfold readU64BE, read64. split_if; [done|].
  destruct (getBigUint64BE _ _) eqn:E; [|done]. intros [= <- <-]. bprop.
  unfold inside in *. cbn. split; [lia|]. by apply getBigUint64BE_range in E.
Qed.

Lemma yields_remaining : yields remaining (fun _ => True).
Proof. by intros r v r' Hr [= <- <-]. Qed.

Lemma yields_optional f : yields (optional_u8 f) (option_all u8).
Proof.
  eapply yields_bind; [apply yields_remaining|]. intros n _.
  apply yields_if; intros _; [|by apply yields_ret].
  eapply yields_bind; [apply yields_u8|]. intros v Hv. by apply yields_ret.
Qed.

Lemma yields_side_bet b f : yields (side_bet b f) (fun v => amount_ok v /\ (b = false -> v = 0)).
Proof.
  apply yields_if; intros ->; [|apply yields_ret; done].
  eapply yields_bind; [apply yields_u64|]. intros v Hv. apply yields_ret.
  split; [by apply to_number_amount|done].
Qed.

End Yields.

(** A parsed state is well formed: bytes are bytes (never [undefined]), amounts
    come from a [u64], the counts bound the lists, and the bets read for craps
    are all the ones of the announced number that the blob holds. *)
Definition parsed_ok (blob : Uint8Array) (p : Parsed) : Prop :=
  match p with
  | P_blackjack s =>
      2 <= bj_version s <= 4 /\ u8 (bj_stage s)
      /\ Forall amount_ok [sideBet21Plus3 s; sideBetLuckyLadies s; sideBetPerfectPairs s;
                           sideBetBustIt s; sideBetRoyalMatch s]
      /\ u8 (fst (initPlayerCards s)) /\ u8 (snd (initPlayerCards s)) /\ u8 (activeHandIndex s)
      /\ len (bj_hands s) <= 10 /\ Forall hand_ok (bj_hands s) /\ cards_ok (bj_dealerCards s)
      /\ option_all u8 (playerValue s) /\ option_all u8 (dealerValue s)
      /\ option_all u8 (actionMask s)
  | P_baccarat s =>
      u8 (ba_betCount s) /\ cards_ok (ba_playerCards s) /\ cards_ok (bankerCards s)
  | P_roulette s =>
      u8 (ro_betCount s) /\ u8 (zeroRule s) /\ u8 (ro_phase s) /\ option_all u8 (ro_result s)
  | P_sicbo s =>
      u8 (si_betCount s)
      /\ option_all (fun '(a, b, c) => 1 <= a < 256 /\ 1 <= b < 256 /\ 1 <= c < 256) (si_dice s)
  | P_craps s =>
      u8 (cr_version s) /\ 0 <= cr_phase s <= 1 /\ u8 (mainPoint s)
      /\ u8 (fst (cr_dice s)) /\ u8 (snd (cr_dice s)) /\ u8 (madePointsMask s)
      /\ 0 <= cr_betCount s <= CRAPS_MAX_BETS
      /\ len (cr_bets s) = Z.min (cr_betCount s) ((len blob - betsOffset s) / 19)
      /\ Forall (fun b => u8 (cb_betType b) /\ u8 (cb_target b) /\ u8 (cb_status b)
                          /\ amount_ok (cb_amount b) /\ amount_ok (oddsAmount b)) (cr_bets s)
  | P_hilo s =>
      u8 (cardId s) /\ - 2 ^ 63 <= accumulatorBasisPoints s < 2 ^ 63 /\ u8 (rulesByte s)
      /\ option_all (fun '(a, b, c) => 0 <= a < 2 ^ 32 /\ 0 <= b < 2 ^ 32 /\ 0 <= c < 2 ^ 32)
           (nextMultipliers s)
  | P_videopoker s => u8 (vp_stage s) /\ Forall u8 (vp_cards s) /\ len (vp_cards s) = 5
  | P_casinowar s =>
      u8 (cw_stage s) /\ u8 (playerCard s) /\ u8 (dealerCard s) /\ u64 (tieBet s)
      /\ (cw_version s = 1 \/ cw_version s = 0 /\ tieBet s = 0)
  | P_threecard s =>
      1 <= tc_version s <= 3 /\ u8 (tc_stage s)
      /\ Forall u8 (tc_playerCards s) /\ len (tc_playerCards s) = 3
      /\ Forall u8 (tc_dealerCards s) /\ len (tc_dealerCards s) = 3
      /\ Forall amount_ok [pairPlusBet s; tc_sixCardBonusBet s; tc_progressiveBet s]
  | P_ultimate s =>
      1 <= uh_version s <= 3 /\ Forall u8 [uh_stage s; playMultiplier s]
      /\ Forall u8 (uh_playerCards s) /\ len (uh_playerCards s) = 2
      /\ Forall u8 (communityCards s) /\ len (communityCards s) = 5
      /\ Forall u8 (uh_dealerCards s) /\ len (uh_dealerCards s) = 2
      /\ Forall u8 (bonusCards s)
      /\ Forall amount_ok [tripsBet s; uh_sixCardBonusBet s; uh_progressiveBet s]
  end.

Lemma u8_to_numbers bs : Forall u8 (to_numbers bs).
Proof. apply Forall_fmap, Forall_true. intros b. apply b2z_range. Qed.

Lemma cards_ok_bytes n bs : u8 n -> len bs = n -> cards_ok (to_numbers bs).
Proof.
  intros Hn E. split; [|apply u8_to_numbers]. unfold to_numbers. rewrite len_fmap, E. apply Hn.
Qed.

Section YieldsParsers.
Import SafeReader.

Lemma yields_hand h : yields (readHand h) hand_ok.
Proof.
  do 4 (eapply yields_bind; [apply yields_u8|]; intros ? ?).
  eapply yields_bind; [apply yields_bytes|]. intros bs E. apply yields_ret.
  split_and!; try done; by eapply cards_ok_bytes.
Qed.

Lemma yields_hands n h : yields (readHands n h) (fun l => length l = n /\ Forall hand_ok l).
Proof.
  revert h. induction n as [|n IH]; intros h; [by apply yields_ret|].
  eapply yields_bind; [apply yields_hand|]. intros x Hx.
  eapply yields_bind; [apply IH|]. intros l [El Hl]. apply yields_ret. simpl. auto.
Qed.

Lemma parseBlackjackState_ok blob s :
  parseBlackjackState blob = Some s -> parsed_ok blob (P_blackjack s).
Proof.
  unfold parseBlackjackState. split_if; [done|].
  apply (yields_run _ _ (fun s => parsed_ok blob (P_blackjack s))).
  eapply yields_bind; [apply yields_u8|]. intros v Hv.
  apply yields_if; intros Ev; [by apply yields_ret|].
  assert (2 <= v <= 4) by (repeat (apply andb_false_iff in Ev as [Ev|Ev]); bprop; lia).
  eapply yields_bind; [apply yields_u8|]. intros stage Hs.
  do 5 (eapply yields_bind; [apply yields_side_bet|]; intros ? [? _]).
  do 3 (eapply yields_bind; [apply yields_u8|]; intros ? ?).
  eapply yields_bind; [apply yields_u8|]. intros n Hn.
  apply yields_if; intros En; [by apply yields_ret|]. bprop.
  eapply yields_bind; [apply yields_hands|]. intros hands [El Hh].
  eapply yields_bind; [apply yields_u8|]. intros dn Hdn.
  eapply yields_bind; [apply yields_bytes|]. intros dealer Ed.
  eapply yields_bind; [apply yields_remaining|]. intros left _.
  eapply yields_bind; [apply yields_if; intros _; [apply yields_skip|by apply yields_ret]|]. intros _ _.
  do 3 (eapply yields_bind; [apply yields_optional|]; intros ? ?).
  apply yields_ret. cbn. unfold u8 in Hn. split_and!; try done; try lia.
  - by repeat (apply Forall_cons; split; [assumption|]).
  - unfold len. lia.
  - by eapply cards_ok_bytes.
Qed.

Lemma parseBaccaratState_ok blob s :
  parseBaccaratState blob = Some s -> parsed_ok blob (P_baccarat s).
Proof.
  unfold parseBaccaratState. split_if; [done|].
  apply (yields_run _ _ (fun s => parsed_ok blob (P_baccarat s))).
  eapply yields_bind; [apply yields_u8|]. intros n Hn.
  eapply yields_bind; [apply yields_skip|]. intros _ _.
  eapply yields_bind; [apply yields_u8|]. intros pn Hpn.
  eapply yields_bind; [apply yields_bytes|]. intros player Ep.
  eapply yields_bind; [apply yields_u8|]. intros bn Hbn.
  eapply yields_bind; [apply yields_bytes|]. intros banker Eb.
  apply yields_ret. cbn. split; [done|]. split; [exact (cards_ok_bytes _ _ Hpn Ep)|exact (cards_ok_bytes _ _ Hbn Eb)].
Qed.

Lemma parseRouletteState_ok blob s :
  parseRouletteState blob = Some s -> parsed_ok blob (P_roulette s).
Proof.
  unfold parseRouletteState. split_if; [done|].
  apply (yields_run _ _ (fun s => parsed_ok blob (P_roulette s))).
  eapply yields_bind; [apply yields_u8|]. intros n Hn. cbv zeta.
  do 2 (eapply yields_bind;
    [apply yields_if; intros _; [apply yields_u8At|by apply (yields_ret _ u8)]|]; intros ? ?).
  eapply yields_bind.
  { apply (yields_if _ _ _ (option_all u8)); intros _; [|by apply yields_ret].
    eapply yields_bind; [apply yields_u8At|]. intros v Hv. by apply yields_ret. }
  intros result Hr. by apply yields_ret.
Qed.

Lemma parseSicBoState_ok blob s :
  parseSicBoState blob = Some s -> parsed_ok blob (P_sicbo s).
Proof.
  unfold parseSicBoState. split_if; [done|].
  apply (yields_run _ _ (fun s => parsed_ok blob (P_sicbo s))).
  eapply yields_bind; [apply yields_u8|]. intros n Hn. cbv zeta.
  apply yields_if; intros _; [by apply yields_ret|].
  do 3 (eapply yields_bind; [apply yields_u8At|]; intros ? [? ?]).
  apply yields_ret. cbn. split; [apply Hn|]. split_if; [|done]. bprop. simpl. lia.
Qed.

End YieldsParsers.

(** ** The same for the reads at an offset *)

#[local] Arguments at_ : simpl never.
#[local] Arguments u8 : simpl never.
#[local] Arguments elem : simpl never.

Lemma at_u8 data i : 0 <= i < len data -> u8 (at_ data i).
Proof.
  intros H. unfold at_. destruct (elem_Some data i H) as [v E]. rewrite E. by apply elem_range in E.
Qed.

(** A result that was not caught satisfies what its computation guarantees. *)
Definition gives {A} (m : result A) (P : A -> Prop) : Prop := forall a, m = Ok a -> P a.

Lemma gives_ret {A} (a : A) (P : A -> Prop) : P a -> gives (mret a) P.
Proof. by intros H b [= <-]. Qed.

Lemma gives_bind {A B} (m : result A) (k : A -> result B) P Q :
  gives m P -> (forall a, P a -> gives (k a) Q) -> gives (m ≫= k) Q.
Proof. intros Hm Hk b. destruct m as [a|]; [|done]. simpl. apply Hk, Hm. done. Qed.

Lemma gives_if {A} (b : bool) (m m' : result A) P :
  (b = true -> gives m P) -> (b = false -> gives m' P) -> gives (if b then m else m') P.
Proof. destruct b; auto. Qed.

Lemma gives_catch {A} (m : result (option A)) P p :
  gives m (option_all P) -> catch m None = Some p -> P p.
Proof. intros H. destruct m as [o|]; [|done]. simpl. intros ->. by apply (H (Some p)). Qed.

Lemma gives_u64 data off f : gives (readU64BEAt data off f) u64.
Proof.
  intros v. unfold readU64BEAt, read_at. split_if; [done|]. apply getBigUint64BE_range.
Qed.

Lemma gives_number data off f : gives (number_at data off f) amount_ok.
Proof.
  intros v. unfold number_at. destruct (readU64BEAt data off f) as [n|] eqn:E; [|done].
  intros [= <-]. apply to_number_amount. by apply gives_u64 in E.
Qed.

Lemma gives_i64 data off f : gives (readI64BEAt data off f) (fun v => - 2 ^ 63 <= v < 2 ^ 63).
Proof.
  intros v. unfold readI64BEAt, read_at. split_if; [done|]. unfold getBigInt64BE.
  destruct (getBigUint64BE data off) as [n|] eqn:E; [|done]. intros [= <-].
  apply getBigUint64BE_range in E. unfold u64, as_signed in *. split_if; bprop; lia.
Qed.

Lemma gives_u32 data off f : gives (readU32BEAt data off f) (fun v => 0 <= v < 2 ^ 32).
Proof.
  intros v. unfold readU32BEAt, read_at, getUint32BE, view_bytes. split_if; [done|].
  split_if; [done|]. intros [= <-]. bprop.
  pose proof (be_value_range (take 4 (drop (Z.to_nat off) data))) as Hb.
  replace (len (take 4 (drop (Z.to_nat off) data))) with 4 in Hb; [exact Hb|].
  unfold len in *. rewrite length_take, length_drop. lia.
Qed.

(** Every [at_] of the goal reads inside the array. *)
Ltac bytes_in :=
  repeat match goal with
  | |- Forall _ (_ :: _) => apply Forall_cons; split
  | |- Forall _ [] => apply Forall_nil
  | |- u8 (at_ _ _) => apply at_u8; lia
  | |- _ /\ _ => split
  end; try done.

Lemma parseHiLoState_ok blob s : parseHiLoState blob = Some s -> parsed_ok blob (P_hilo s).
Proof.
  unfold parseHiLoState. split_if; [done|]. bprop.
  apply (gives_catch _ (fun s => parsed_ok blob (P_hilo s))).
  eapply gives_bind; [apply gives_i64|]. intros acc Ha. cbv zeta.
  eapply (gives_bind _ _ (option_all (fun '(a, b, c) =>
    0 <= a < 2 ^ 32 /\ 0 <= b < 2 ^ 32 /\ 0 <= c < 2 ^ 32))).
  { apply gives_if; intros _; [|by apply gives_ret].
    do 3 (eapply gives_bind; [apply gives_u32|]; intros ? ?). by apply gives_ret. }
  intros mults Hm. apply gives_ret. cbn.
  split; [apply at_u8; lia|]. split; [done|]. split; [|done].
  split_if; bprop; [apply at_u8; lia|done].
Qed.

Lemma parseVideoPokerState_ok blob s :
  parseVideoPokerState blob = Some s -> parsed_ok blob (P_videopoker s).
Proof.
  unfold parseVideoPokerState. split_if; [done|]. bprop. intros [= <-]. cbn [parsed_ok vp_stage vp_cards].
  unfold videoPokerCards. rewrite !filter_cons_True, filter_nil by lia.
  cbn [fmap list_fmap]. bytes_in.
Qed.

Lemma parseCasinoWarState_ok blob s :
  parseCasinoWarState blob = Some s -> parsed_ok blob (P_casinowar s).
Proof.
  unfold parseCasinoWarState. cbv zeta. split_if; bprop.
  - apply (gives_catch _ (fun s => parsed_ok blob (P_casinowar s))).
    eapply gives_bind; [apply gives_u64|]. intros tie Ht. apply gives_ret. cbn. bytes_in. by left.
  - split_if; [done|]. bprop. intros [= <-]. cbn. bytes_in. by right.
Qed.

Lemma parseThreeCardState_ok blob s :
  parseThreeCardState blob = Some s -> parsed_ok blob (P_threecard s).
Proof.
  unfold parseThreeCardState. cbv zeta. split_if; [done|]. split_if; [done|].
  split_if; [done|]. bprop.
  apply (gives_catch _ (fun s => parsed_ok blob (P_threecard s))).
  eapply gives_bind; [apply gives_number|]. intros pp Hp.
  do 2 (eapply (gives_bind _ _ amount_ok);
    [apply gives_if; intros _; [apply gives_number|by apply gives_ret]|]; intros ? ?).
  apply gives_ret. cbn [option_all parsed_ok tc_version tc_stage tc_playerCards tc_dealerCards
    pairPlusBet tc_sixCardBonusBet tc_progressiveBet].
  assert (1 <= at_ blob 0 <= 3)
    by (repeat match goal with H : _ && _ = false |- _ => apply andb_false_iff in H as [H|H] end; bprop; lia).
  bytes_in; lia.
Qed.

Lemma parseUltimateHoldemState_ok blob s :
  parseUltimateHoldemState blob = Some s -> parsed_ok blob (P_ultimate s).
Proof.
  unfold parseUltimateHoldemState. cbv zeta. split_if; [done|]. split_if; [done|].
  split_if; [done|]. bprop.
  apply (gives_catch _ (fun s => parsed_ok blob (P_ultimate s))).
  eapply gives_bind; [apply gives_number|]. intros trips Hp.
  do 2 (eapply (gives_bind _ _ amount_ok);
    [apply gives_if; intros _; [apply gives_number|by apply gives_ret]|]; intros ? ?).
  apply gives_ret. cbn [option_all parsed_ok uh_version uh_stage uh_playerCards communityCards
    uh_dealerCards playMultiplier bonusCards tripsBet uh_sixCardBonusBet uh_progressiveBet].
  assert (1 <= at_ blob 0 <= 3)
    by (repeat match goal with H : _ && _ = false |- _ => apply andb_false_iff in H as [H|H] end; bprop; lia).
  assert (Forall u8 (if 2 <=? at_ blob 0 then
    [at_ blob 12; at_ blob 13; at_ blob 14; at_ blob 15] else [])) by (split_if; bytes_in).
  bytes_in; lia.
Qed.

Lemma gives_craps_bets data n off :
  0 <= off <= len data ->
  gives (crapsBetsAt data n off) (fun l =>
    len l = Z.min (Z.of_nat n) ((len data - off) / 19)
    /\ Forall (fun b => u8 (cb_betType b) /\ u8 (cb_target b) /\ u8 (cb_status b)
                        /\ amount_ok (cb_amount b) /\ amount_ok (oddsAmount b)) l).
Proof.
  revert off. induction n as [|n IH]; intros off Ho; cbn [crapsBetsAt].
  - apply gives_ret. rewrite len_nil. split; [|done].
    pose proof (Z.div_pos (len data - off) 19). lia.
  - apply gives_if; intros E; bprop.
    + apply gives_ret. rewrite len_nil, Z.div_small by lia. split; [lia|done].
    + eapply (gives_bind _ _ (fun b => u8 (cb_betType b) /\ u8 (cb_target b) /\ u8 (cb_status b)
                        /\ amount_ok (cb_amount b) /\ amount_ok (oddsAmount b))).
      { do 2 (eapply gives_bind; [apply gives_number|]; intros ? ?). apply gives_ret. cbn. bytes_in. }
      intros b Hb. eapply gives_bind; [apply IH; lia|]. intros l [El Hl]. apply gives_ret.
      split; [|by apply Forall_cons]. rewrite len_cons, El.
      replace (len data - off) with (len data - (off + 19) + 1 * 19) by lia.
      rewrite Z.div_add by lia. lia.
Qed.

Lemma default_u8 data i : u8 (default 0 (elem data i)).
Proof. destruct (elem data i) as [v|] eqn:E; [by apply elem_range in E|done]. Qed.

(** Everything but the bets, and where the bets begin. *)
Lemma crapsHeader_ok blob :
  5 <= len blob ->
  let s := crapsHeader blob in
  u8 (cr_version s) /\ 0 <= cr_phase s <= 1 /\ u8 (mainPoint s)
  /\ u8 (fst (cr_dice s)) /\ u8 (snd (cr_dice s)) /\ u8 (madePointsMask s)
  /\ u8 (cr_betCount s) /\ 0 <= betsOffset s <= len blob.
Proof.
  intros H s. unfold s, crapsHeader. cbv zeta.
  assert (Hph : forall v, (v =? 0) || (v =? 1) = true -> 0 <= v <= 1)
    by (intros v Hv; apply orb_true_iff in Hv as [Hv|Hv]; bprop; lia).
  split_if; [|split_if]; bprop;
    try match goal with E : _ || _ = true |- _ => apply Hph in E end;
    cbn; bytes_in; try lia; apply default_u8.
Qed.

Lemma parseCrapsState_ok blob s : parseCrapsState blob = Some s -> parsed_ok blob (P_craps s).
Proof.
  unfold parseCrapsState. cbv zeta. split_if; [done|]. split_if; [done|]. bprop.
  pose proof (crapsHeader_ok blob ltac:(lia)) as (H1 & H2 & H3 & H4 & H5 & H6 & H7 & H8).
  set (h := crapsHeader blob) in *.
  apply (gives_catch _ (fun s => parsed_ok blob (P_craps s))).
  eapply gives_bind; [by apply gives_craps_bets|]. intros bets [El Hb]. apply gives_ret.
  unfold u8 in H7. rewrite Z2Nat.id in El by lia. cbn [option_all parsed_ok with_bets cr_version
    cr_phase mainPoint cr_dice madePointsMask cr_betCount betsOffset cr_bets].
  split_and!; try done; lia.
Qed.

(** ** The two theorems *)

(** C16. The parsers read what the chain writes: for every well-formed state of
    the ten games, in the current layout and in the older ones the parsers
    accept, the parser of the game returns exactly [view_of] that state: every
    amount that the code passes through [Number] is rounded to the nearest
    double (the identity up to 2^53), the fields an old layout does not have
    are at their defaults, and no layout is mistaken for another one.  The
    unversioned layout of craps is read with its phase as the version and with
    phase 0; it is covered as far as the parser can tell it apart, that is
    unless it is in the point phase with a point of 0 or 1, which no table is. *)
Theorem state_roundtrip s :
  state_ok s -> parseState (game_of s) (blob_of s) = Some (view_of s).
Proof.
  intros H. destruct s; cbn [game_of parseState].
  - by apply blackjack_roundtrip.
  - by apply baccarat_roundtrip.
  - by apply roulette_roundtrip.
  - by apply sicbo_roundtrip.
  - by apply craps_roundtrip.
  - by apply hilo_roundtrip.
  - by apply videopoker_roundtrip.
  - by apply casinowar_roundtrip.
  - by apply threecard_roundtrip.
  - by apply ultimate_roundtrip.
Qed.

(** A split hand with a side bet above 2^53, which the [number] rounds. *)
Definition sample_blackjack : ChainState :=
  C_blackjack 4 1 (2 ^ 53 + 1) 0 5 0 7 12 25 1
    [Build_BlackjackHand 1 1 1 [12; 3; 40]; Build_BlackjackHand 2 0 1 [25; 6]] [9]
    (Some ((0x39, 4), Some (18, 10, 3))).

Lemma state_roundtrip_witness :
  state_ok sample_blackjack
  /\ parseState Game_Blackjack (blob_of sample_blackjack) = Some (view_of sample_blackjack)
  /\ (if view_of sample_blackjack is P_blackjack p then sideBet21Plus3 p else 0) = 2 ^ 53.
Proof.
  assert (H : state_ok sample_blackjack).
  { unfold sample_blackjack, state_ok, hand_ok, cards_ok, u8, u64. simpl.
    split_and!; repeat constructor; try done; vm_compute; congruence. }
  split; [exact H|]. split; [exact (state_roundtrip sample_blackjack H)|]. vm_compute. reflexivity.
Defined.

(** Whatever bytes a state blob consists of, a parser that returns a state
    returns a well-formed one: every byte field is a byte and never
    [undefined], every amount is that of a 64-bit integer, hand and bet counts
    are within their limits, and the bets of craps are the announced ones as
    far as the blob holds them. *)
Theorem parsed_well_formed g blob p : parseState g blob = Some p -> parsed_ok blob p.
Proof.
  destruct g; cbn [parseState]; intros (s & H & ->)%fmap_Some.
  - by apply parseBaccaratState_ok.
  - by apply parseBlackjackState_ok.
  - by apply parseCasinoWarState_ok.
  - by apply parseCrapsState_ok.
  - by apply parseVideoPokerState_ok.
  - by apply parseHiLoState_ok.
  - by apply parseRouletteState_ok.
  - by apply parseSicBoState_ok.
  - by apply parseThreeCardState_ok.
  - by apply parseUltimateHoldemState_ok.
Qed.

(** A craps blob that announces three bets and holds one and a half. *)
Definition short_craps : Uint8Array :=
  u8array [2; 1; 6; 3; 3; 0; 1; 3] ++ u8array [5; 8; 1] ++ be_bytes 8 25 ++ be_bytes 8 0
  ++ u8array [0; 0; 1; 0; 0; 0; 0; 0; 0].

Lemma parsed_well_formed_witness :
  exists p, parseState Game_Craps short_craps = Some (P_craps p) /\ parsed_ok short_craps (P_craps p)
    /\ len (cr_bets p) = 1.
Proof.
  set (q := {| cr_version := 2; cr_phase := 1; mainPoint := 6; cr_dice := (3, 3); madePointsMask := 0;
               epochPointEstablished := true; cr_betCount := 3; betsOffset := 8;
               cr_bets := [{| cb_betType := 5; cb_target := 8; cb_status := 1; cb_amount := 25;
                              oddsAmount := 0 |}] |}).
  assert (E : parseState Game_Craps short_craps = Some (P_craps q)) by (vm_compute; reflexivity).
  exists q. split; [exact E|]. split; [exact (parsed_well_formed Game_Craps short_craps _ E)|].
  vm_compute. reflexivity.
Defined.

(** The layout without a version keeps the phase in its first byte, from which
    the parser takes the established epoch; but it reports that byte as the
    version and the phase as 0, the come-out. *)
Lemma craps_legacy_phase :
  parseCrapsState (u8array [1; 6; 2; 4; 0])
  = Some {| cr_version := 1; cr_phase := 0; mainPoint := 6; cr_dice := (2, 4); madePointsMask := 0;
            epochPointEstablished := true; cr_betCount := 0; betsOffset := 5; cr_bets := [] |}.
Proof. vm_compute. reflexivity. Qed.
