(* ===== verification/WebBets.v ===== *)
(** * The bets of the website

    [website/src/services/games/serialization.ts] and [validation.ts]: the
    website encodes bets with serializers of its own, beside the encoders of
    [packages/protocol] that the gateway uses.  The file models them and proves
    that the two implementations write the same payloads. *)

From Stdlib Require Import QArith.QArith_base.
From S2P Require Import Prelude JsNum Bytes Reader Constants Batch ProtocolEncode.

(** ** Amounts *)

(** A JavaScript number: a double is finite, hence rational, or not. *)
Inductive Number : Type :=
| NotFinite
| Finite (q : Q).

Definition MAX_SAFE_INTEGER : Z := 2 ^ 53 - 1.

(** [Number.isSafeInteger]. *)
Definition isSafeInteger (q : Q) : bool :=
  (Qnum q mod QDen q =? 0) && (Z.abs (Qnum q / QDen q) <=? MAX_SAFE_INTEGER).

Definition validateBetAmount (amount : Number) (context : string) : result unit :=
  match amount with
  | NotFinite => Throw (context +:+ ": bet amount must be finite")
  | Finite q =>
      _ ← throw_if (negb (isSafeInteger q)) (context +:+ ": bet amount must be a safe integer");
      _ ← throw_if (Qnum q <=? 0) (context +:+ ": bet amount must be > 0");
      throw_if (MAX_SAFE_INTEGER * QDen q <? Qnum q)
        (context +:+ ": bet amount exceeds safe integer range")
  end.

(** [BigInt(amount)]. *)
Definition toBigInt (amount : Number) : result Z :=
  match amount with
  | NotFinite => Throw "The number cannot be converted to a BigInt because it is not an integer"
  | Finite q => BigInt_of_number q
  end.

(** ** Bets *)

Record BaccaratBet := { wb_type : BaccaratBetName; wb_amount : Number }.
Record RouletteBet := { wr_type : RouletteBetName; wr_target : option Z; wr_amount : Number }.
Record SicBoBet := { ws_type : SicBoBetName; ws_target : option Z; ws_amount : Number }.
Record CrapsBet := { wc_type : CrapsBetName; wc_target : option Z; wc_amount : Number }.

(** [{ betType, number, amount }]. *)
Definition NumericBet : Type := Z * Z * Number.

(** [payload[0] = 0], code, number and amount: a single bet. *)
Definition serializeNumeric (bet : NumericBet) : result Uint8Array :=
  let '(betType, number, amount) := bet in
  let payload := set_elem (set_elem (set_elem (zeros 11) 0 0) 1 betType) 2 number in
  value ← toBigInt amount;
  setBigUint64BE payload 3 value.

(** The header and the loop of the batches with 10-byte entries. *)
Definition serializeNumericBatch (opcode : Z) (numericBets : list NumericBet) : result Uint8Array :=
  let payload := zeros (2 + len numericBets * 10) in
  let payload := set_elem payload 0 opcode in
  let payload := set_elem payload 1 (len numericBets) in
  st ← foldM_result (fun '(payload, offset) bet =>
      let '(betType, number, amount) := bet in
      value ← toBigInt amount;
      payload ← store10 payload offset betType number value;
      Ok (payload, offset + 10))
    (payload, 2) numericBets;
  Ok st.1.

(** ** Baccarat *)

Definition serializeBaccaratBet (betType : Z) (amount : Number) : result Uint8Array :=
  _ ← validateBetAmount amount "BaccaratBet";
  let payload := set_elem (set_elem (zeros 10) 0 0) 1 betType in
  value ← toBigInt amount;
  setBigUint64BE payload 2 value.

Inductive BaccaratSelection := PLAYER | BANKER.

(** The [switch] over the side bets; [None] is [continue]. *)
Definition sideBetType (type : BaccaratBetName) : option Z :=
  match type with
  | Bac_TIE => Some 2
  | Bac_P_PAIR => Some 3
  | Bac_B_PAIR => Some 4
  | Bac_LUCKY6 => Some 5
  | Bac_P_DRAGON => Some 6
  | Bac_B_DRAGON => Some 7
  | Bac_PANDA8 => Some 8
  | Bac_PERFECT_PAIR => Some 9
  | _ => None
  end.

Definition getBaccaratBetsToPlace (selection : BaccaratSelection) (sideBets : list BaccaratBet)
    (mainBetAmount : Number) : list (Z * Number) :=
  let mainBetType := match selection with PLAYER => 0 | BANKER => 1 end in
  (mainBetType, mainBetAmount)
  :: omap (fun sideBet => betType ← sideBetType (wb_type sideBet); Some (betType, wb_amount sideBet))
       sideBets.

Definition serializeBaccaratAtomicBatch (bets : list (Z * Number)) : result Uint8Array :=
  let payload := zeros (2 + len bets * 9) in
  let payload := set_elem payload 0 3 in
  let payload := set_elem payload 1 (len bets) in
  st ← foldM_result (fun '(payload, offset) '(betType, amount) =>
      _ ← validateBetAmount amount "BaccaratAtomicBatch";
      value ← toBigInt amount;
      payload ← store9 payload offset betType value;
      Ok (payload, offset + 9))
    (payload, 2) bets;
  Ok st.1.

(** ** Roulette *)

Definition rouletteBetToNumeric (bet : RouletteBet) : result NumericBet :=
  _ ← validateBetAmount (wr_amount bet) "RouletteBet";
  let target := default 0 (wr_target bet) in
  let '(betType, number) :=
    match wr_type bet with
    | Roul_STRAIGHT => (0, target)
    | Roul_RED => (1, 0)
    | Roul_BLACK => (2, 0)
    | Roul_EVEN => (3, 0)
    | Roul_ODD => (4, 0)
    | Roul_LOW => (5, 0)
    | Roul_HIGH => (6, 0)
    | Roul_DOZEN_1 => (7, 0)
    | Roul_DOZEN_2 => (7, 1)
    | Roul_DOZEN_3 => (7, 2)
    | Roul_COL_1 => (8, 0)
    | Roul_COL_2 => (8, 1)
    | Roul_COL_3 => (8, 2)
    | Roul_ZERO => (0, 0)
    | Roul_SPLIT_H => (9, target)
    | Roul_SPLIT_V => (10, target)
    | Roul_STREET => (11, target)
    | Roul_CORNER => (12, target)
    | Roul_SIX_LINE => (13, target)
    end in
  Ok (betType, number, wr_amount bet).

Definition serializeRouletteAtomicBatch (bets : list RouletteBet) : result Uint8Array :=
  numericBets ← mapM_result rouletteBetToNumeric bets;
  serializeNumericBatch 4 numericBets.

Definition serializeRouletteBet (bet : RouletteBet) : result Uint8Array :=
  numeric ← rouletteBetToNumeric bet; serializeNumeric numeric.

(** ** Sic Bo *)

Definition sicBoBetTypeMap (type : SicBoBetName) : Z :=
  match type with
  | Sic_SMALL => 0
  | Sic_BIG => 1
  | Sic_ODD => 2
  | Sic_EVEN => 3
  | Sic_TRIPLE_SPECIFIC => 4
  | Sic_TRIPLE_ANY => 5
  | Sic_DOUBLE_SPECIFIC => 6
  | Sic_SUM => 7
  | Sic_SINGLE_DIE => 8
  | Sic_DOMINO => 9
  | Sic_HOP3_EASY => 10
  | Sic_HOP3_HARD => 11
  | Sic_HOP4_EASY => 12
  end.

Definition sicBoBetToNumeric (bet : SicBoBet) : result NumericBet :=
  _ ← validateBetAmount (ws_amount bet) "SicBoBet";
  Ok (sicBoBetTypeMap (ws_type bet), default 0 (ws_target bet), ws_amount bet).

Definition serializeSicBoAtomicBatch (bets : list SicBoBet) : result Uint8Array :=
  numericBets ← mapM_result sicBoBetToNumeric bets;
  serializeNumericBatch 3 numericBets.

Definition serializeSicBoBet (bet : SicBoBet) : result Uint8Array :=
  numeric ← sicBoBetToNumeric bet; serializeNumeric numeric.

(** ** Craps *)

Definition crapsBetTypeMap (type : CrapsBetName) : Z :=
  match type with
  | Craps_PASS => 0
  | Craps_DONT_PASS => 1
  | Craps_COME => 2
  | Craps_DONT_COME => 3
  | Craps_FIELD => 4
  | Craps_YES => 5
  | Craps_NO => 6
  | Craps_NEXT => 7
  | Craps_HARDWAY => 8
  | Craps_FIRE => 12
  | Craps_ATS_SMALL => 15
  | Craps_ATS_TALL => 16
  | Craps_ATS_ALL => 17
  | Craps_MUGGSY => 18
  | Craps_DIFF_DOUBLES => 19
  | Craps_RIDE_LINE => 20
  | Craps_REPLAY => 21
  | Craps_HOT_ROLLER => 22
  end.

Definition hardwayMap (target : Z) : option Z :=
  if target =? 4 then Some 8 else if target =? 6 then Some 9
  else if target =? 8 then Some 10 else if target =? 10 then Some 11 else None.

Definition crapsBetToNumeric (bet : CrapsBet) : result NumericBet :=
  _ ← validateBetAmount (wc_amount bet) "CrapsBet";
  let betTypeValue :=
    match wc_type bet, wc_target bet with
    | Craps_HARDWAY, Some t => default 8 (hardwayMap t)
    | type, _ => crapsBetTypeMap type
    end in
  let target :=
    match wc_type bet with
    | Craps_ATS_SMALL | Craps_ATS_TALL | Craps_ATS_ALL => 0
    | Craps_HARDWAY => 0
    | Craps_MUGGSY | Craps_DIFF_DOUBLES | Craps_RIDE_LINE | Craps_REPLAY | Craps_HOT_ROLLER => 0
    | _ => default 0 (wc_target bet)
    end in
  Ok (betTypeValue, target, wc_amount bet).

Definition serializeCrapsAtomicBatch (bets : list CrapsBet) : result Uint8Array :=
  numericBets ← mapM_result crapsBetToNumeric bets;
  serializeNumericBatch 4 numericBets.

Definition serializeCrapsBet (bet : CrapsBet) : result Uint8Array :=
  numeric ← crapsBetToNumeric bet; serializeNumeric numeric.

(** ** Accepted amounts *)

(** A positive integer up to 2^53 - 1. *)
Definition validAmount (n : Number) : bool :=
  match n with
  | NotFinite => false
  | Finite q => isSafeInteger q && (0 <? Qnum q)
  end.

(** Its value. *)
Definition amountValue (n : Number) : Z :=
  match n with
  | NotFinite => 0
  | Finite q => Qnum q / QDen q
  end.

Lemma validateBetAmount_valid n context : is_ok (validateBetAmount n context) = validAmount n.
Proof.
  destruct n as [|q]; [done|]. unfold validateBetAmount, validAmount, throw_if.
  destruct (isSafeInteger q) eqn:E; [|done]. cbn.
  destruct (Qnum q <=? 0) eqn:E0; bprop; [by zcmp|].
  unfold isSafeInteger in E. bprop. zcmp. pose proof (Pos2Z.is_pos (Qden q)).
  rewrite (proj2 (Z.ltb_ge _ _)); [done|].
  pose proof (Z.div_mod (Qnum q) (QDen q) ltac:(lia)) as Ed.
  match goal with H : _ mod _ = 0 |- _ => rewrite H in Ed end. nia.
Qed.

Lemma validateBetAmount_ok n context : validAmount n = true -> validateBetAmount n context = Ok tt.
Proof.
  rewrite <- (validateBetAmount_valid n context). by destruct (validateBetAmount n context) as [[]|].
Qed.

Lemma validateBetAmount_refused n context :
  validAmount n = false -> exists msg, validateBetAmount n context = Throw msg.
Proof.
  rewrite <- (validateBetAmount_valid n context). destruct (validateBetAmount n context); [done|eauto].
Qed.

Lemma toBigInt_valid n : validAmount n = true -> toBigInt n = Ok (amountValue n).
Proof.
  destruct n as [|q]; [done|]. simpl. unfold isSafeInteger, BigInt_of_number. intros H. bprop.
  by rewrite (proj2 (Z.eqb_eq _ _)).
Qed.

Lemma amountValue_pos n : validAmount n = true -> 0 < amountValue n.
Proof.
  destruct n as [|q]; [done|]. simpl. unfold isSafeInteger. intros H. bprop.
  pose proof (Pos2Z.is_pos (Qden q)).
  pose proof (Z.div_mod (Qnum q) (QDen q) ltac:(lia)) as Ed.
  match goal with H : _ mod _ = 0 |- _ => rewrite H in Ed end. nia.
Qed.

(** ** A batch of any game *)

Inductive WebBatch : Type :=
| Web_baccarat (selection : BaccaratSelection) (sideBets : list BaccaratBet) (main : Number)
| Web_roulette (bets : list RouletteBet)
| Web_sicbo (bets : list SicBoBet)
| Web_craps (bets : list CrapsBet).

Definition serialize (w : WebBatch) : result Uint8Array :=
  match w with
  | Web_baccarat selection sideBets main =>
      serializeBaccaratAtomicBatch (getBaccaratBetsToPlace selection sideBets main)
  | Web_roulette bets => serializeRouletteAtomicBatch bets
  | Web_sicbo bets => serializeSicBoAtomicBatch bets
  | Web_craps bets => serializeCrapsAtomicBatch bets
  end.

Definition game_of_batch (w : WebBatch) : AtomicBatchGame :=
  match w with
  | Web_baccarat _ _ _ => Atomic_baccarat
  | Web_roulette _ => Atomic_roulette
  | Web_sicbo _ => Atomic_sicbo
  | Web_craps _ => Atomic_craps
  end.

(** The same bets in the words of [packages/protocol]: the names of the bet
    tables, the target, the amount as a bigint. *)
Definition named (name : string) (target : option Z) (amount : Number) : AtomicBetInput :=
  {| ab_type := inl name; ab_amount := amountValue amount; ab_target := target;
     ab_number := None; ab_value := None |}.

Definition mainBet (selection : BaccaratSelection) (main : Number) : BaccaratBet :=
  {| wb_type := match selection with PLAYER => Bac_PLAYER | BANKER => Bac_BANKER end;
     wb_amount := main |}.

(** The side bets without the names of main bets, which the website skips. *)
Definition isSideBet (b : BaccaratBet) : bool :=
  match wb_type b with Bac_PLAYER | Bac_BANKER => false | _ => true end.

Definition baccaratBets (selection : BaccaratSelection) (sideBets : list BaccaratBet)
    (main : Number) : list BaccaratBet :=
  mainBet selection main :: filter isSideBet sideBets.

Definition protocolBets (w : WebBatch) : list AtomicBetInput :=
  match w with
  | Web_baccarat selection sideBets main =>
      (fun b => named (BaccaratBetName_name (wb_type b)) None (wb_amount b))
      <$> baccaratBets selection sideBets main
  | Web_roulette bets =>
      (fun b => named (RouletteBetName_name (wr_type b)) (wr_target b) (wr_amount b)) <$> bets
  | Web_sicbo bets =>
      (fun b => named (SicBoBetName_name (ws_type b)) (ws_target b) (ws_amount b)) <$> bets
  | Web_craps bets =>
      (fun b => named (CrapsBetName_name (wc_type b)) (wc_target b) (wc_amount b)) <$> bets
  end.

Definition amounts (w : WebBatch) : list Number :=
  match w with
  | Web_baccarat selection sideBets main => wb_amount <$> baccaratBets selection sideBets main
  | Web_roulette bets => wr_amount <$> bets
  | Web_sicbo bets => ws_amount <$> bets
  | Web_craps bets => wc_amount <$> bets
  end.

(** At least one bet, and no target beside FIRE: the protocol package clears
    that target, the website does not. *)
Definition fire_ok (b : CrapsBet) : Prop := wc_type b = Craps_FIRE -> default 0 (wc_target b) = 0.

Definition batch_ok (w : WebBatch) : Prop :=
  amounts w <> [] /\ match w with Web_craps bets => Forall fire_ok bets | _ => True end.

(** ** The loops *)

Definition numericEntry (b : NumericBet) : result Uint8Array :=
  value ← toBigInt b.2; Ok (entry10 b.1.1 b.1.2 value).

Lemma serializeNumericBatch_entries op l :
  serializeNumericBatch op l
  = (es ← mapM_result numericEntry l; Ok ([z2b op; z2b (len l)] ++ concat es)).
Proof.
  unfold serializeNumericBatch. cbv zeta. rewrite batch_header by (auto with js; lia).
  set (h := [z2b op; z2b (len l)]). change 2 with (len h).
  rewrite (foldM_batch 10 numericEntry).
  - by destruct (mapM_result numericEntry l).
  - intros [[t v] a] e. unfold numericEntry. cbn. destruct (toBigInt a); [|done]. by intros [= <-].
  - intros pre old post [[t v] a] Hlen. unfold numericEntry. cbn [fst snd].
    destruct (toBigInt a) as [z|]; [|done]. cbn [mbind result_bind].
    by rewrite store10_mid by exact Hlen.
Qed.

Definition baccaratEntry (b : Z * Number) : result Uint8Array :=
  _ ← validateBetAmount b.2 "BaccaratAtomicBatch";
  value ← toBigInt b.2; Ok (entry9 b.1 value).

Lemma serializeBaccarat_entries l :
  serializeBaccaratAtomicBatch l
  = (es ← mapM_result baccaratEntry l; Ok ([z2b 3; z2b (len l)] ++ concat es)).
Proof.
  unfold serializeBaccaratAtomicBatch. cbv zeta. rewrite batch_header by (auto with js; lia).
  set (h := [z2b 3; z2b (len l)]). change 2 with (len h).
  rewrite (foldM_batch 9 baccaratEntry).
  - by destruct (mapM_result baccaratEntry l).
  - intros [t a] e. unfold baccaratEntry. cbn [fst snd].
    destruct (validateBetAmount a _); [|done]. cbn. destruct (toBigInt a); [|done]. by intros [= <-].
  - intros pre old post [t a] Hlen. unfold baccaratEntry. cbn [fst snd].
    destruct (validateBetAmount a _); [|done]. cbn [mbind result_bind].
    destruct (toBigInt a) as [z|]; [|done]. cbn [mbind result_bind].
    by rewrite store9_mid by exact Hlen.
Qed.

Lemma mapM_result_fmap {A B C} (g : B -> result C) (h : A -> B) l :
  mapM_result g (h <$> l) = mapM_result (fun a => g (h a)) l.
Proof. symmetry. by apply mapM_result_ext. Qed.

Lemma forallb_Forall_true {A} (f : A -> bool) l : forallb f l = true -> Forall (fun a => f a = true) l.
Proof. intros H. apply List.Forall_forall. intros x. by apply forallb_forall. Qed.

Lemma forallb_fmap {A B} (f : B -> bool) (g : A -> B) l :
  forallb f (g <$> l) = forallb (fun a => f (g a)) l.
Proof. induction l as [|a l IH]; [done|]. rewrite fmap_cons. cbn [forallb]. by rewrite IH. Qed.

Lemma forallb_ext_eq {A} (f g : A -> bool) l : (forall a, f a = g a) -> forallb f l = forallb g l.
Proof. intros H. induction l as [|a l IH]; [done|]. cbn [forallb]. by rewrite H, IH. Qed.

(** The serializers of the games with 10-byte entries: [to] converts a bet,
    [num] is its code and number, [amt] its amount. *)
Section Batches.
Context {A : Type} (context : string) (amt : A -> Number) (num : A -> Z * Z)
  (to : A -> result NumericBet).
Hypothesis to_eq : forall a,
  to a = (_ ← validateBetAmount (amt a) context; Ok (num a, amt a)).

Definition entryOf (a : A) : Uint8Array := entry10 (num a).1 (num a).2 (amountValue (amt a)).

Lemma batch10_accepted op l :
  forallb (fun a => validAmount (amt a)) l = true ->
  (ns ← mapM_result to l; serializeNumericBatch op ns)
  = Ok ([z2b op; z2b (len l)] ++ concat (entryOf <$> l)).
Proof.
  intros H%forallb_Forall_true.
  rewrite (mapM_result_Ok to (fun a => (num a, amt a))).
  - cbn [mbind result_bind]. rewrite serializeNumericBatch_entries, len_fmap, mapM_result_fmap.
    rewrite (mapM_result_Ok _ entryOf); [done|].
    eapply Forall_impl; [exact H|]. intros a Ha. unfold numericEntry. cbn [fst snd].
    by rewrite toBigInt_valid.
  - eapply Forall_impl; [exact H|]. intros a Ha. cbv beta in Ha.
    by rewrite to_eq, validateBetAmount_ok.
Qed.

Lemma batch10_refused op l :
  forallb (fun a => validAmount (amt a)) l = false ->
  is_ok (ns ← mapM_result to l; serializeNumericBatch op ns) = false.
Proof.
  intros H. assert (E : is_ok (mapM_result to l) = false).
  { rewrite mapM_result_is_ok, <- H. apply forallb_ext_eq. intros a.
    rewrite to_eq, <- (validateBetAmount_valid _ context). by destruct (validateBetAmount _ _). }
  by destruct (mapM_result to l).
Qed.

End Batches.

(** The protocol package on bets it accepts. *)
Lemma protocol_accepted {A} game (f : A -> AtomicBetInput) (e : A -> Uint8Array) l :
  l <> [] -> Forall (fun a => atomicEntry game (f a) = Ok (e a)) l ->
  encodeAtomicBatchPayload game (f <$> l)
  = Ok ([z2b (atomicOp game); z2b (len l)] ++ concat (e <$> l)).
Proof.
  intros Hne H. rewrite encodeAtomicBatch_entries.
  destruct l as [|a l]; [done|]. rewrite fmap_cons, <- (fmap_cons f), mapM_result_fmap, len_fmap.
  by rewrite (mapM_result_Ok _ e).
Qed.

Lemma named_entry game name target amount tv :
  validAmount amount = true -> atomicResolve game (named name target amount) = Ok tv ->
  atomicEntry game (named name target amount) = Ok (atomicEncode game tv (amountValue amount)).
Proof.
  intros Hv E. unfold atomicEntry, throw_if. cbn [ab_amount named].
  pose proof (amountValue_pos _ Hv). rewrite (proj2 (Z.leb_gt _ _)) by lia.
  cbn [mbind result_bind]. by rewrite E.
Qed.

(** ** The two implementations agree *)

Definition rouletteNumeric (b : RouletteBet) : Z * Z :=
  Constants.encodeRouletteBet (wr_type b) (Some (default 0 (wr_target b))).

Lemma rouletteBetToNumeric_eq b :
  rouletteBetToNumeric b
  = (_ ← validateBetAmount (wr_amount b) "RouletteBet"; Ok (rouletteNumeric b, wr_amount b)).
Proof. unfold rouletteBetToNumeric, rouletteNumeric. by destruct b as [[] g a]. Qed.

Definition sicBoNumeric (b : SicBoBet) : Z * Z :=
  encodeSicBoBet (ws_type b) (Some (default 0 (ws_target b))).

Lemma sicBoBetToNumeric_eq b :
  sicBoBetToNumeric b
  = (_ ← validateBetAmount (ws_amount b) "SicBoBet"; Ok (sicBoNumeric b, ws_amount b)).
Proof. unfold sicBoBetToNumeric, sicBoNumeric. by destruct b as [[] g a]. Qed.

Lemma web_roulette bets :
  bets <> [] -> forallb (fun b => validAmount (wr_amount b)) bets = true ->
  serialize (Web_roulette bets)
  = encodeAtomicBatchPayload Atomic_roulette (protocolBets (Web_roulette bets)).
Proof.
  intros Hne H. unfold serialize, serializeRouletteAtomicBatch.
  rewrite (batch10_accepted "RouletteBet" wr_amount _ _ rouletteBetToNumeric_eq) by done.
  unfold protocolBets. rewrite (protocol_accepted _ _ (entryOf wr_amount rouletteNumeric)); [done|done|].
  apply forallb_Forall_true in H. eapply Forall_impl; [exact H|]. intros b Hb.
  refine (named_entry Atomic_roulette _ _ _ (rouletteNumeric b) Hb _). by destruct b as [[] [g|] a].
Qed.

Lemma web_sicbo bets :
  bets <> [] -> forallb (fun b => validAmount (ws_amount b)) bets = true ->
  serialize (Web_sicbo bets)
  = encodeAtomicBatchPayload Atomic_sicbo (protocolBets (Web_sicbo bets)).
Proof.
  intros Hne H. unfold serialize, serializeSicBoAtomicBatch.
  rewrite (batch10_accepted "SicBoBet" ws_amount _ _ sicBoBetToNumeric_eq) by done.
  unfold protocolBets. rewrite (protocol_accepted _ _ (entryOf ws_amount sicBoNumeric)); [done|done|].
  apply forallb_Forall_true in H. eapply Forall_impl; [exact H|]. intros b Hb.
  refine (named_entry Atomic_sicbo _ _ _ (sicBoNumeric b) Hb _). by destruct b as [[] [g|] a].
Qed.

(** Code and target of a craps bet as the website computes them. *)
Definition crapsNumeric (b : CrapsBet) : Z * Z :=
  (match wc_type b, wc_target b with
   | Craps_HARDWAY, Some t => default 8 (hardwayMap t)
   | type, _ => crapsBetTypeMap type
   end,
   match wc_type b with
   | Craps_ATS_SMALL | Craps_ATS_TALL | Craps_ATS_ALL | Craps_HARDWAY
   | Craps_MUGGSY | Craps_DIFF_DOUBLES | Craps_RIDE_LINE | Craps_REPLAY | Craps_HOT_ROLLER => 0
   | _ => default 0 (wc_target b)
   end).

Lemma crapsBetToNumeric_eq b :
  crapsBetToNumeric b
  = (_ ← validateBetAmount (wc_amount b) "CrapsBet"; Ok (crapsNumeric b, wc_amount b)).
Proof. unfold crapsBetToNumeric, crapsNumeric. by destruct b as [[] g a]. Qed.

Lemma crapsNumeric_protocol b :
  fire_ok b -> crapsNumeric b = encodeCrapsBet (wc_type b) (wc_target b).
Proof.
  destruct b as [t g a]. unfold fire_ok, crapsNumeric. cbn [wc_type wc_target]. intros Hf.
  destruct t; try done; [by destruct g|]. by rewrite Hf.
Qed.

Lemma web_craps bets :
  bets <> [] -> Forall fire_ok bets -> forallb (fun b => validAmount (wc_amount b)) bets = true ->
  serialize (Web_craps bets)
  = encodeAtomicBatchPayload Atomic_craps (protocolBets (Web_craps bets)).
Proof.
  intros Hne Hf H. unfold serialize, serializeCrapsAtomicBatch.
  rewrite (batch10_accepted "CrapsBet" wc_amount _ _ crapsBetToNumeric_eq) by done.
  unfold protocolBets. rewrite (protocol_accepted _ _ (entryOf wc_amount crapsNumeric)); [done|done|].
  apply forallb_Forall_true in H. apply Forall_forall. intros b Hb.
  rewrite Forall_forall in H, Hf. unfold entryOf.
  refine (named_entry Atomic_craps _ _ _ (crapsNumeric b) _ _); [by apply H|].
  rewrite (crapsNumeric_protocol b) by by apply Hf. by destruct b as [[] g a].
Qed.

Lemma baccaratBets_eq selection sideBets main :
  getBaccaratBetsToPlace selection sideBets main
  = (fun b => (encodeBaccaratBet (wb_type b), wb_amount b)) <$> baccaratBets selection sideBets main.
Proof.
  unfold getBaccaratBetsToPlace, baccaratBets. rewrite fmap_cons. f_equal; [by destruct selection|].
  induction sideBets as [|[t a] l IH]; [done|].
  destruct t; cbn -[fmap]; rewrite ?filter_cons_True, ?filter_cons_False by done;
    rewrite ?fmap_cons; cbn; by rewrite IH.
Qed.

Lemma web_baccarat selection sideBets main :
  forallb (fun b => validAmount (wb_amount b)) (baccaratBets selection sideBets main) = true ->
  serialize (Web_baccarat selection sideBets main)
  = encodeAtomicBatchPayload Atomic_baccarat (protocolBets (Web_baccarat selection sideBets main)).
Proof.
  intros H%forallb_Forall_true. unfold serialize, protocolBets. rewrite baccaratBets_eq.
  set (l := baccaratBets selection sideBets main) in *.
  set (e := fun b => entry9 (encodeBaccaratBet (wb_type b)) (amountValue (wb_amount b))).
  rewrite serializeBaccarat_entries, len_fmap, mapM_result_fmap, (mapM_result_Ok _ e).
  - rewrite (protocol_accepted _ _ e); [done|done|].
    eapply Forall_impl; [exact H|]. intros [t a] Ha.
    apply (named_entry Atomic_baccarat _ _ _ (encodeBaccaratBet t, 0)); [done|]. by destruct t.
  - eapply Forall_impl; [exact H|]. intros [t a] Ha. unfold baccaratEntry. cbn [fst snd wb_amount].
    cbn [wb_amount] in Ha. by rewrite validateBetAmount_ok, toBigInt_valid.
Qed.

Lemma web_baccarat_refused l :
  forallb (fun b => validAmount b.2) l = false -> is_ok (serializeBaccaratAtomicBatch l) = false.
Proof.
  intros H. rewrite serializeBaccarat_entries.
  assert (E : is_ok (mapM_result baccaratEntry l) = false).
  { rewrite mapM_result_is_ok, <- H. apply forallb_ext_eq. intros [t a]. unfold baccaratEntry.
    cbn [fst snd]. destruct (validAmount a) eqn:Ev.
    - by rewrite validateBetAmount_ok, toBigInt_valid.
    - by destruct (validateBetAmount_refused a "BaccaratAtomicBatch" Ev) as [msg ->]. }
  by destruct (mapM_result baccaratEntry l).
Qed.

(** Acceptance, with no condition on the batch. *)
Lemma serialize_accepts w : is_ok (serialize w) = forallb validAmount (amounts w).
Proof.
  destruct (forallb validAmount (amounts w)) eqn:H;
    destruct w as [sel side main|bets|bets|bets]; cbn [amounts serialize] in *; rewrite forallb_fmap in H.
  - rewrite baccaratBets_eq, serializeBaccarat_entries, mapM_result_fmap.
    apply forallb_Forall_true in H.
    rewrite (mapM_result_Ok _ (fun b => entry9 (encodeBaccaratBet (wb_type b)) (amountValue (wb_amount b))));
      [done|].
    eapply Forall_impl; [exact H|]. intros [t a] Ha. unfold baccaratEntry. cbn [fst snd wb_amount].
    cbn [wb_amount] in Ha. by rewrite validateBetAmount_ok, toBigInt_valid.
  - unfold serializeRouletteAtomicBatch.
    by rewrite (batch10_accepted "RouletteBet" wr_amount _ _ rouletteBetToNumeric_eq).
  - unfold serializeSicBoAtomicBatch.
    by rewrite (batch10_accepted "SicBoBet" ws_amount _ _ sicBoBetToNumeric_eq).
  - unfold serializeCrapsAtomicBatch.
    by rewrite (batch10_accepted "CrapsBet" wc_amount _ _ crapsBetToNumeric_eq).
  - apply web_baccarat_refused. by rewrite baccaratBets_eq, forallb_fmap.
  - by apply (batch10_refused "RouletteBet" wr_amount _ _ rouletteBetToNumeric_eq).
  - by apply (batch10_refused "SicBoBet" ws_amount _ _ sicBoBetToNumeric_eq).
  - by apply (batch10_refused "CrapsBet" wc_amount _ _ crapsBetToNumeric_eq).
Qed.

(** C26. The website and the protocol package write the same bytes: a batch of
    the website with at least one bet is accepted exactly when all its amounts
    are positive integers up to 2^53 - 1, and its payload is then the one that
    the encoder of [packages/protocol] gives for the same bets by name, target
    and amount. *)
Theorem web_batch_agrees w :
  batch_ok w ->
  if forallb validAmount (amounts w)
  then serialize w = encodeAtomicBatchPayload (game_of_batch w) (protocolBets w)
       /\ is_ok (serialize w) = true
  else is_ok (serialize w) = false.
Proof.
  intros [Hne Hf]. destruct (forallb validAmount (amounts w)) eqn:H.
  - assert (E : serialize w = encodeAtomicBatchPayload (game_of_batch w) (protocolBets w)).
    { destruct w as [sel side main|bets|bets|bets]; cbn [amounts] in *; rewrite forallb_fmap in H.
      - by apply web_baccarat.
      - apply web_roulette; [by intros ->|done].
      - apply web_sicbo; [by intros ->|done].
      - apply web_craps; [by intros ->|done|done]. }
    split; [exact E|]. by rewrite serialize_accepts.
  - by rewrite serialize_accepts.
Qed.

Definition sample_batch : WebBatch :=
  Web_craps [{| wc_type := Craps_PASS; wc_target := None; wc_amount := Finite (25 # 1) |};
             {| wc_type := Craps_HARDWAY; wc_target := Some 6; wc_amount := Finite (10 # 2) |};
             {| wc_type := Craps_FIRE; wc_target := None; wc_amount := Finite (1 # 1) |}].

Lemma web_batch_agrees_witness :
  batch_ok sample_batch
  /\ serialize sample_batch = encodeAtomicBatchPayload Atomic_craps (protocolBets sample_batch)
  /\ is_ok (serialize sample_batch) = true.
Proof.
  assert (H : batch_ok sample_batch).
  { split; [discriminate|]. unfold sample_batch, fire_ok. repeat constructor; simpl; congruence. }
  split; [exact H|]. exact (web_batch_agrees sample_batch H).
Defined.
