(* ===== verification/Arith.v ===== *)
(** * The arithmetic of amounts

    The apps compute with JavaScript numbers, the chain with saturating
    unsigned integers.  The file gives both, and the conditions under which
    they are exact: what an amount has to satisfy for a display to show what
    the chain pays. *)

From S2P Require Import Prelude JsNum.

(** ** JavaScript: [a + b], [a - b], [a * b] on integer-valued numbers *)

Definition js_add (a b : Z) : Z := to_number (a + b).
Definition js_sub (a b : Z) : Z := to_number (a - b).
Definition js_mul (a b : Z) : Z := to_number (a * b).

(** The integer nearest to [n / d], ties to even. *)
Definition round_half_even (n d : Z) : Z :=
  let q := n / d in
  let r := n mod d in
  if (d <? 2 * r) || ((2 * r =? d) && Z.odd q) then q + 1 else q.

(** [Math.floor(n / d)] for a positive [d]: the quotient is rounded to a double
    with 53 significant bits before it is floored.  [e] is the binary exponent
    of the quotient. *)
Definition js_floor_div (n d : Z) : Z :=
  if n =? 0 then 0
  else
    let a := Z.abs n in
    let k := 1 + Z.log2 d in
    let e := Z.log2 (a * 2 ^ k / d) - k in
    let up := Z.max 0 (52 - e) in
    let down := Z.max 0 (e - 52) in
    let m := round_half_even (a * 2 ^ up) (d * 2 ^ down) in
    Z.sgn n * m * 2 ^ down / 2 ^ up.

(** ** Rust: saturating operations on [u64] and [u8] *)

Definition u64_max : Z := 2 ^ 64 - 1.
Definition u8_max : Z := 255.

Definition saturating_add (a b : Z) : Z := Z.min (a + b) u64_max.
Definition saturating_sub (a b : Z) : Z := Z.max (a - b) 0.
Definition saturating_mul (a b : Z) : Z := Z.min (a * b) u64_max.
Definition saturating_div (a b : Z) : Z := a / b.
Definition saturating_add8 (a b : Z) : Z := Z.min (a + b) u8_max.
Definition saturating_mul8 (a b : Z) : Z := Z.min (a * b) u8_max.

(** ** Exactness *)

Lemma js_add_exact a b : Z.abs (a + b) <= 2 ^ 53 -> js_add a b = a + b.
Proof. apply to_number_exact. Qed.

Lemma js_sub_exact a b : Z.abs (a - b) <= 2 ^ 53 -> js_sub a b = a - b.
Proof. apply to_number_exact. Qed.

Lemma js_mul_exact a b : Z.abs (a * b) <= 2 ^ 53 -> js_mul a b = a * b.
Proof. apply to_number_exact. Qed.

(** A rounded value lies within half a unit. *)
Lemma round_half_even_bounds n d :
  0 < d -> n / d <= round_half_even n d /\ 2 * d * round_half_even n d <= 2 * n + d.
Proof.
  intros Hd. unfold round_half_even.
  pose proof (Z.div_mod n d ltac:(lia)). pose proof (Z.mod_pos_bound n d Hd).
  destruct ((d <? 2 * (n mod d)) || _) eqn:E; [|bprop; nia].
  assert (d <= 2 * (n mod d)) by (apply orb_true_iff in E as [E|E]; bprop; lia). nia.
Qed.

(** The exponent computed by [js_floor_div] is one of the quotient. *)
Lemma quotient_exponent n d :
  0 < n -> 0 < d ->
  let k := 1 + Z.log2 d in
  0 < k /\ 0 <= Z.log2 (n * 2 ^ k / d) /\ d * 2 ^ Z.log2 (n * 2 ^ k / d) <= n * 2 ^ k.
Proof.
  intros Hn Hd k. pose proof (Z.log2_nonneg d).
  assert (d < 2 ^ k) by (unfold k; destruct (Z.log2_spec d Hd); by rewrite Z.add_1_l).
  assert (0 < 2 ^ k) by lia.
  assert (0 < n * 2 ^ k / d) by (apply Z.div_str_pos; nia).
  split; [lia|]. split; [apply Z.log2_nonneg|].
  destruct (Z.log2_spec (n * 2 ^ k / d)) as [Hl _]; [done|].
  pose proof (Z.mul_div_le (n * 2 ^ k) d Hd). nia.
Qed.

(** Rounding the quotient never lifts it over the next integer, as long as the
    numerator is a safe integer. *)
Lemma js_floor_div_exact n d : 0 <= n < 2 ^ 53 -> 0 < d -> js_floor_div n d = n / d.
Proof.
  intros Hn Hd. unfold js_floor_div.
  destruct (n =? 0) eqn:E0; bprop; [by subst; rewrite Z.div_0_l by lia|].
  rewrite Z.abs_eq by lia. cbv zeta.
  destruct (quotient_exponent n d ltac:(lia) Hd) as (Hk & Hl & He).
  set (k := 1 + Z.log2 d) in *. set (l := Z.log2 (n * 2 ^ k / d)) in *.
  assert (Hlt : l < 53 + k).
  { apply (Z.pow_lt_mono_r_iff 2); [lia|lia|].
    rewrite Z.pow_add_r by lia. assert (0 < 2 ^ k) by (apply Z.pow_pos_nonneg; lia). nia. }
  rewrite (Z.max_l 0 (l - k - 52)), (Z.max_r 0 (52 - (l - k))) by lia.
  set (s := 52 - (l - k)) in *. rewrite Z.pow_0_r, !Z.mul_1_r, Z.sgn_pos, Z.mul_1_l by lia.
  assert (Hs : 0 < 2 ^ s) by (apply Z.pow_pos_nonneg; lia).
  assert (Hds : d < 2 * 2 ^ s).
  { assert (Hp : 2 * 2 ^ s * 2 ^ l = 2 ^ 53 * 2 ^ k).
    { change 2 with (2 ^ 1) at 1. rewrite <- !Z.pow_add_r by lia. f_equal. lia. }
    assert (0 < 2 ^ l) by (apply Z.pow_pos_nonneg; lia).
    assert (0 < 2 ^ k) by (apply Z.pow_pos_nonneg; lia). nia. }
  destruct (round_half_even_bounds (n * 2 ^ s) d Hd) as [Hlo Hhi].
  set (m := round_half_even (n * 2 ^ s) d) in *.
  pose proof (Z.div_mod n d ltac:(lia)). pose proof (Z.mod_pos_bound n d Hd).
  assert (n / d * 2 ^ s <= n * 2 ^ s / d) by (apply Z.div_le_lower_bound; nia).
  symmetry. apply (Z.div_unique m (2 ^ s) (n / d) (m - n / d * 2 ^ s)); [left|lia]. nia.
Qed.

Lemma saturating_add_exact a b : a + b <= u64_max -> saturating_add a b = a + b.
Proof. unfold saturating_add. lia. Qed.

Lemma saturating_mul_exact a b : a * b <= u64_max -> saturating_mul a b = a * b.
Proof. unfold saturating_mul. lia. Qed.

Lemma saturating_add8_exact a b : a + b <= u8_max -> saturating_add8 a b = a + b.
Proof. unfold saturating_add8. lia. Qed.

(** ** Accumulation

    A profit is accumulated bet by bet: exact while the absolute changes add up
    to at most 2^53. *)

Lemma zsum_abs {A} (f : A -> Z) l : Z.abs (zsum f l) <= zsum (fun x => Z.abs (f x)) l.
Proof. induction l as [|x l IH]; rewrite ?zsum_nil, ?zsum_cons; lia. Qed.

Lemma zsum_le {A} (f g : A -> Z) l : (forall x, x ∈ l -> f x <= g x) -> zsum f l <= zsum g l.
Proof.
  induction l as [|x l IH]; intros H; rewrite ?zsum_nil, ?zsum_cons; [lia|].
  assert (f x <= g x) by (apply H; set_solver).
  assert (zsum f l <= zsum g l) by (apply IH; set_solver). lia.
Qed.

Lemma zsum_member {A} (f : A -> Z) l x :
  Forall (fun y => 0 <= f y) l -> x ∈ l -> 0 <= f x <= zsum f l.
Proof.
  intros H Hx. assert (Hn : forall k, Forall (fun y => 0 <= f y) k -> 0 <= zsum f k).
  { intros k Hk. apply zsum_nonneg. by apply Forall_forall. }
  apply list_elem_of_split in Hx as (k & k' & ->). apply Forall_app in H as [H1 [H2 H3]%Forall_cons].
  rewrite zsum_app, zsum_cons. pose proof (Hn k H1). pose proof (Hn k' H3). lia.
Qed.

Lemma fold_exact {A} (step : Z -> A -> Z) (delta : A -> Z) l pnl :
  Z.abs pnl + zsum (fun x => Z.abs (delta x)) l <= 2 ^ 53 ->
  (forall p x, x ∈ l -> Z.abs p + Z.abs (delta x) <= 2 ^ 53 -> step p x = p + delta x) ->
  fold_left step l pnl = pnl + zsum delta l.
Proof.
  revert pnl. induction l as [|x l IH]; intros pnl Hb Hstep; simpl fold_left.
  { rewrite zsum_nil. lia. }
  rewrite zsum_cons in Hb. pose proof (zsum_nonneg (fun x => Z.abs (delta x)) l) as Hn.
  assert (0 <= zsum (fun x => Z.abs (delta x)) l) by (apply Hn; lia).
  rewrite Hstep by (set_solver || lia). rewrite zsum_cons, IH; [lia|lia|].
  intros p y Hy. apply Hstep. set_solver.
Qed.

Lemma fold_saturating {A} (step : Z -> A -> Z) (f : A -> Z) l acc :
  Forall (fun x => 0 <= f x) l -> 0 <= acc -> acc + zsum f l <= u64_max ->
  (forall t x, x ∈ l -> 0 <= t -> t + f x <= u64_max -> step t x = t + f x) ->
  fold_left step l acc = acc + zsum f l.
Proof.
  intros Hp. revert acc. induction Hp as [|x l Hx Hl IH]; intros acc Ha Hb Hstep; simpl fold_left.
  { rewrite zsum_nil. lia. }
  rewrite zsum_cons in *.
  assert (0 <= zsum f l) by (apply zsum_nonneg; by apply Forall_forall).
  rewrite Hstep by (set_solver || lia). rewrite IH; [lia|lia|lia|].
  intros t y Hy. apply Hstep. set_solver.
Qed.

(** ** The largest of some values

    [let max = -Infinity; for (...) max = Math.max(max, f(x))]. *)

Definition max_over {A} (f : A -> Z) (l : list A) : option Z :=
  fold_left (fun max x => Some (match max with Some m => Z.max m (f x) | None => f x end)) l None.

Lemma max_over_app {A} (f : A -> Z) l x :
  max_over f (l ++ [x])
  = Some (match max_over f l with Some m => Z.max m (f x) | None => f x end).
Proof. unfold max_over. by rewrite fold_left_app. Qed.

Lemma max_over_spec {A} (f : A -> Z) l :
  l <> [] ->
  exists m, max_over f l = Some m /\ (forall x, x ∈ l -> f x <= m) /\ exists x, x ∈ l /\ f x = m.
Proof.
  induction l as [|x l IH] using rev_ind; [done|]. intros _. rewrite max_over_app.
  destruct l as [|y l].
  { exists (f x). split; [done|]. split; [intros z Hz; set_unfold; naive_solver lia|].
    exists x. set_solver. }
  destruct (IH ltac:(done)) as (m & -> & Hle & w & Hw & Hm). exists (Z.max m (f x)).
  split; [done|]. split.
  - intros z [Hz|Hz]%elem_of_app; [specialize (Hle z Hz); lia|]. set_unfold. naive_solver lia.
  - destruct (Z.max_spec m (f x)) as [[? ->]|[? ->]]; [exists x|exists w]; set_solver.
Qed.
