(* ===== verification/ChainMove.v ===== *)
(** * The moves of the chain: errors and atomic batches

    The errors of a move of the chain and the parsers that its games share,
    [execution/src/casino/payload.rs], and the loop that reads an atomic batch,
    which [roulette.rs], [craps.rs], [sic_bo.rs] and [baccarat.rs] write out with
    their own entries ([BatchCorrect]). *)

From S2P Require Import Prelude JsNum Bytes Arith Batch.

(** The errors of a move; [Panicked] is an arithmetic overflow, which the
    release profile checks, or a read outside of the payload. *)
Inductive GameError := InvalidPayload | InvalidMove | GameAlreadyComplete | Panicked.

Definition ensure (b : bool) (e : GameError) : GameError + unit := if b then inr () else inl e.

Definition bindE {A C} (m : GameError + A) (k : A -> GameError + C) : GameError + C :=
  match m with inl e => inl e | inr a => k a end.

Notation "'try' x <- m ; k" := (bindE m (fun x => k)) (at level 10, x pattern at level 200, m at level 100, k at level 200).

(** [payload[offset]]. *)
Definition byte_at (payload : Uint8Array) (offset : Z) : GameError + Z :=
  match payload !! Z.to_nat offset with Some b => inr (b2z b) | None => inl Panicked end.

(** [u64::checked_add] *)
Definition checked_add (a b : Z) : GameError + Z :=
  if u64_max <? a + b then inl InvalidPayload else inr (a + b).

Definition parse_u64_be (payload : Uint8Array) (offset : Z) : GameError + Z :=
  if len payload <? offset + 8 then inl InvalidPayload
  else inr (be_value (slice payload offset (offset + 8))).

Definition parse_place_bet_payload (payload : Uint8Array) : GameError + (Z * Z * Z) :=
  match payload with
  | b0 :: bet_type :: number :: _ =>
      if negb (len payload =? 11) || negb (b2z b0 =? 0) then inl InvalidPayload
      else try amount <- parse_u64_be payload 3; inr (b2z bet_type, b2z number, amount)
  | _ => inl InvalidPayload
  end.

(** ** Atomic batches *)

Section Batch.
Context {A : Type} (max_bets width : Z).

(** The entry at an offset, up to the check of the bet, with its amount. *)
Context (entry : Uint8Array -> Z -> GameError + (A * Z)).

(** What becomes of the bets taken so far. *)
Context (add : list A -> A -> GameError + list A).

Fixpoint batch_bets (count : nat) (payload : Uint8Array) (offset : Z) (bets : list A) (total_wager : Z)
    : GameError + (list A * Z) :=
  match count with
  | O => inr (bets, total_wager)
  | S count =>
      try (bet, amount) <- entry payload offset;
      try total_wager <- checked_add total_wager amount;
      try bets <- add bets bet;
      batch_bets count payload (offset + width) bets total_wager
  end.

Definition batch (payload : Uint8Array) : GameError + (list A * Z) :=
  try _ <- ensure (negb (len payload <? 2)) InvalidPayload;
  try bet_count <- byte_at payload 1;
  try _ <- ensure (negb ((bet_count =? 0) || (max_bets <? bet_count))) InvalidPayload;
  try _ <- ensure (negb (len payload <? 2 + bet_count * width)) InvalidPayload;
  batch_bets (Z.to_nat bet_count) payload 2 [] 0.

(** *** A batch of entries is read entry by entry

    The items of the sender, each with its bytes and the bet that it means. *)

Context {E : Type} (amount_of : A -> Z) (bet_of : E -> A) (bytes : E -> Uint8Array) (ok : E -> Prop).
Hypothesis bytes_width : forall e, ok e -> len (bytes e) = width.
Hypothesis entry_bytes : forall e pre post,
  ok e -> entry (pre ++ bytes e ++ post) (len pre) = inr (bet_of e, amount_of (bet_of e)).
Hypothesis ok_amount : forall e, ok e -> 0 <= amount_of (bet_of e).

(** The bets that adding them one after the other makes. *)
Fixpoint adds (bets l : list A) : GameError + list A :=
  match l with
  | [] => inr bets
  | a :: l => try bets <- add bets a; adds bets l
  end.

Definition wagered (l : list E) : Z := zsum amount_of (bet_of <$> l).

Lemma wagered_cons e l : wagered (e :: l) = amount_of (bet_of e) + wagered l.
Proof using. unfold wagered. by rewrite fmap_cons, zsum_cons. Qed.

Lemma wagered_nonneg l : Forall ok l -> 0 <= wagered l.
Proof using ok_amount.
  induction 1 as [|e l He _ IH]; [done|]. rewrite wagered_cons. pose proof (ok_amount e He). lia.
Qed.

Lemma batch_bets_read l : forall pre post bets total,
  Forall ok l -> 0 <= total -> total + wagered l <= u64_max ->
  batch_bets (length l) (pre ++ concat (bytes <$> l) ++ post) (len pre) bets total
  = try bets <- adds bets (bet_of <$> l); inr (bets, total + wagered l).
Proof using bytes_width entry_bytes ok_amount.
  induction l as [|e l IH]; intros pre post bets total Hp H0 Hu; cbn [length batch_bets adds bindE fmap list_fmap].
  - change (wagered []) with 0. by rewrite Z.add_0_r.
  - apply Forall_cons in Hp as [He Hp]. rewrite wagered_cons in *.
    pose proof (wagered_nonneg l Hp). pose proof (ok_amount e He).
    cbn [fmap list_fmap concat]. rewrite <- !app_assoc, entry_bytes by done. cbn [bindE]. unfold checked_add.
    rewrite (proj2 (Z.ltb_ge _ _)) by lia. cbn [bindE]. destruct (add bets (bet_of e)) as [err|bets']; [done|].
    cbn [bindE]. rewrite (app_assoc pre), <- (bytes_width e He), <- len_app. rewrite IH by (done || lia).
    by rewrite Z.add_assoc.
Qed.

Lemma batch_read op l :
  1 <= len l <= max_bets -> max_bets < 256 -> Forall ok l -> wagered l <= u64_max ->
  batch ([op; z2b (len l)] ++ concat (bytes <$> l)) = try bets <- adds [] (bet_of <$> l); inr (bets, wagered l).
Proof using bytes_width entry_bytes ok_amount.
  intros Hl Hm Hp Hu. unfold batch.
  assert (Hw : len (concat (bytes <$> l)) = len l * width).
  { clear -bytes_width Hp. induction Hp as [|e l He _ IH]; [done|]. cbn [fmap list_fmap concat]. rewrite len_app, len_cons.
    rewrite bytes_width, IH by done. lia. }
  assert (0 <= len l * width) by (rewrite <- Hw; apply len_nonneg).
  rewrite len_app, Hw. change (len [op; z2b (len l)]) with 2. rewrite (proj2 (Z.ltb_ge _ _)) by lia. cbn [negb ensure bindE].
  unfold byte_at. cbn [app lookup list_lookup Z.to_nat Pos.to_nat]. change (Z.to_nat 1) with 1%nat. cbn [lookup list_lookup bindE].
  rewrite b2z_z2b, Z.mod_small by lia. rewrite (proj2 (Z.eqb_neq _ _)), (proj2 (Z.ltb_ge _ _)) by lia. cbn [orb negb ensure bindE].
  rewrite (proj2 (Z.ltb_ge _ _)) by lia. cbn [negb ensure bindE].
  replace (Z.to_nat (len l)) with (length l) by (unfold len; lia).
  pose proof (batch_bets_read l [op; z2b (len l)] [] [] 0 Hp ltac:(lia) ltac:(lia)) as H1.
  rewrite app_nil_r in H1. cbn [app] in H1. exact H1.
Qed.
End Batch.

(** ** The entries *)

Lemma byte_at_app pre x post : byte_at (pre ++ [x] ++ post) (len pre) = inr (b2z x).
Proof. unfold byte_at, len. rewrite Nat2Z.id, lookup_app_r, Nat.sub_diag by lia. done. Qed.

Lemma slice_be8 (pre : Uint8Array) (a : Z) post :
  0 <= a < 2 ^ 64 -> be_value (slice (pre ++ be_bytes 8 a ++ post) (len pre) (len pre + 8)) = a.
Proof.
  intros Ha. pose proof (slice_mid pre (be_bytes 8 a) post) as E. change (len (be_bytes 8 a)) with 8 in E. rewrite E.
  rewrite be_value_be_bytes. by apply Z.mod_small.
Qed.

Lemma parse_u64_be_app pre a post : 0 <= a < 2 ^ 64 -> parse_u64_be (pre ++ be_bytes 8 a ++ post) (len pre) = inr a.
Proof.
  intros Ha. unfold parse_u64_be. rewrite !len_app. change (len (be_bytes 8 a)) with 8. pose proof (len_nonneg post).
  rewrite (proj2 (Z.ltb_ge _ _)) by lia. f_equal. by apply slice_be8.
Qed.

(** An entry of ten bytes: a type, a number and an amount. *)
Definition typed_entry {T} (try_from : Z -> option T) (payload : Uint8Array) (offset : Z) : GameError + (T * Z * Z) :=
  try code <- byte_at payload offset;
  match try_from code with
  | None => inl InvalidPayload
  | Some bet_type =>
      try number <- byte_at payload (offset + 1);
      try amount <- parse_u64_be payload (offset + 2);
      try _ <- ensure (negb (amount =? 0)) InvalidPayload;
      inr (bet_type, number, amount)
  end.

Lemma typed_entry_reads {T} (try_from : Z -> option T) pre code t number a post :
  0 <= code < 256 -> try_from code = Some t -> 0 <= number < 256 -> 0 < a < 2 ^ 64 ->
  typed_entry try_from (pre ++ entry10 code number a ++ post) (len pre) = inr (t, number, a).
Proof.
  intros Hc Ht Hn Ha. unfold typed_entry, entry10.
  change ((z2b code :: z2b number :: be_bytes 8 a) ++ post) with ([z2b code] ++ [z2b number] ++ be_bytes 8 a ++ post).
  rewrite byte_at_app. cbn [bindE]. rewrite b2z_z2b, Z.mod_small, Ht by lia.
  rewrite (app_assoc pre [z2b code]). replace (len pre + 1) with (len (pre ++ [z2b code])) by (rewrite len_app; done).
  rewrite byte_at_app. cbn [bindE]. rewrite b2z_z2b, Z.mod_small by lia.
  rewrite (app_assoc _ [z2b number]). replace (len pre + 2) with (len ((pre ++ [z2b code]) ++ [z2b number])) by (rewrite !len_app; unfold len; cbn [length]; lia).
  rewrite parse_u64_be_app by lia. cbn [bindE]. by rewrite (proj2 (Z.eqb_neq _ _)) by lia.
Qed.

(** Bets that are kept as they come. *)
Lemma adds_append {A} (l bets : list A) : adds (fun bets bet => inr (bets ++ [bet])) bets l = inr (bets ++ l).
Proof.
  revert bets. induction l as [|a l IH]; intros bets; [by rewrite app_nil_r|]. cbn [adds bindE].
  by rewrite IH, <- app_assoc.
Qed.
