(* ===== verification/Roulette.v ===== *)
(** * Roulette: the exposures the website shows and the settlement of the chain

    [website/src/utils/gameUtils.ts] (and the maximum of
    [components/casino/ActiveGame.tsx]) predicts what each outcome of a spin
    would win or lose.  [execution/src/casino/roulette.rs] decides it.  The file
    models both sides, the spin after single bets ([settle]) and the atomic batch
    that the website sends ([process_batch]), and proves that the prediction is
    the settlement of the bets that the website's serializer sends. *)

From Stdlib Require Import QArith.QArith_base.
From stdpp Require Import pretty.
From S2P Require Import Prelude JsNum Bytes Constants Batch WebBets Arith ChainMove.

(** ** The chain *)

Inductive ZeroRule := Standard | LaPartage | EnPrison | EnPrisonDouble | American.

#[export] Instance ZeroRule_eq_dec : EqDecision ZeroRule.
Proof. solve_decision. Defined.

Inductive BetType :=
| Straight | Red | Black | Even | Odd | Low | High | Dozen | Column
| SplitH | SplitV | Street | Corner | SixLine.

#[export] Instance BetType_eq_dec : EqDecision BetType.
Proof. solve_decision. Defined.

(** [BetType::try_from(u8)]. *)
Definition BetType_try_from (value : Z) : option BetType :=
  nth_error [Straight; Red; Black; Even; Odd; Low; High; Dozen; Column; SplitH; SplitV;
             Street; Corner; SixLine] (Z.to_nat value).

Definition BetType_code (t : BetType) : Z :=
  match t with
  | Straight => 0 | Red => 1 | Black => 2 | Even => 3 | Odd => 4 | Low => 5 | High => 6
  | Dozen => 7 | Column => 8 | SplitH => 9 | SplitV => 10 | Street => 11 | Corner => 12 | SixLine => 13
  end.

Definition DOUBLE_ZERO : Z := 37.

Definition is_zero_result (rule : ZeroRule) (result : Z) : bool :=
  match rule with
  | American => (result =? 0) || (result =? DOUBLE_ZERO)
  | _ => result =? 0
  end.

(** [slice.contains]. *)
Definition contains (l : list Z) (z : Z) : bool := existsb (Z.eqb z) l.

Definition is_red (number : Z) : bool :=
  contains [1; 3; 5; 7; 9; 12; 14; 16; 18; 19; 21; 23; 25; 27; 30; 32; 34; 36] number.

Definition bet_wins (bet_type : BetType) (bet_number result : Z) : bool :=
  if (result =? 0) || (result =? DOUBLE_ZERO)
  then bool_decide (bet_type = Straight) && (bet_number =? result)
  else
    match bet_type with
    | Straight => bet_number =? result
    | Red => is_red result
    | Black => negb (is_red result)
    | Even => result mod 2 =? 0
    | Odd => result mod 2 =? 1
    | Low => (1 <=? result) && (result <=? 18)
    | High => (19 <=? result) && (result <=? 36)
    | Dozen => (result - 1) / 12 =? bet_number
    | Column => (result - 1) mod 3 =? bet_number
    | SplitH => (result =? bet_number) || (result =? saturating_add8 bet_number 1)
    | SplitV => (result =? bet_number) || (result =? saturating_add8 bet_number 3)
    | Street =>
        (result =? bet_number) || (result =? saturating_add8 bet_number 1)
        || (result =? saturating_add8 bet_number 2)
    | Corner =>
        (result =? bet_number) || (result =? saturating_add8 bet_number 1)
        || (result =? saturating_add8 bet_number 3) || (result =? saturating_add8 bet_number 4)
    | SixLine => (bet_number <=? result) && (result <=? saturating_add8 bet_number 5)
    end.

Definition payout_multiplier (bet_type : BetType) : Z :=
  match bet_type with
  | Straight => 35
  | Red | Black | Even | Odd | Low | High => 1
  | Dozen => 2
  | Column => 2
  | SplitH | SplitV => 17
  | Street => 11
  | Corner => 8
  | SixLine => 5
  end.

Definition is_even_money_bet (bet_type : BetType) : bool :=
  match bet_type with
  | Red | Black | Even | Odd | Low | High => true
  | _ => false
  end.

Definition is_valid_bet_number (bet_type : BetType) (number : Z) (rule : ZeroRule) : bool :=
  match bet_type with
  | Straight => number <=? (match rule with American => DOUBLE_ZERO | _ => 36 end)
  | Dozen | Column => number <=? 2
  | SplitH => (1 <=? number) && (number <=? 35) && negb (number mod 3 =? 0)
  | SplitV => (1 <=? number) && (number <=? 33)
  | Street => (1 <=? number) && (number <=? 34) && ((number - 1) mod 3 =? 0)
  | Corner => (1 <=? number) && (number <=? 32) && negb (number mod 3 =? 0)
  | SixLine => (1 <=? number) && (number <=? 31) && ((number - 1) mod 3 =? 0)
  | _ => true
  end.

(** A bet of the chain; its number is a byte. *)
Record ChainBet := { cb_type : BetType; cb_number : Z; cb_amount : Z }.

Definition wins (result : Z) (bet : ChainBet) : bool :=
  bet_wins (cb_type bet) (cb_number bet) result.

Definition bet_return (bet : ChainBet) : Z :=
  saturating_mul (cb_amount bet) (saturating_add (payout_multiplier (cb_type bet)) 1).

(** What the winning bets return. *)
Definition spin_return (bets : list ChainBet) (result : Z) : Z :=
  fold_left (fun t bet => if wins result bet then saturating_add t (bet_return bet) else t) bets 0.

(** The numbers of a super round: the first multiplier of the number drawn. *)
Inductive SuperType := SuperCard | SuperNumber | SuperTotal | SuperRank | SuperSuit.

#[export] Instance SuperType_eq_dec : EqDecision SuperType.
Proof. solve_decision. Defined.

Record SuperMultiplier := { sm_id : Z; sm_multiplier : Z; sm_super_type : SuperType }.

Definition apply_super_multiplier_number (result : Z) (multipliers : list SuperMultiplier) (base_payout : Z) : Z :=
  match List.find (fun m => bool_decide (sm_super_type m = SuperNumber) && (sm_id m =? result)) multipliers with
  | Some m => saturating_mul base_payout (sm_multiplier m)
  | None => base_payout
  end.

(** A positive return of a super round is multiplied. *)
Definition super_return (super : option (list SuperMultiplier)) (result total_return : Z) : Z :=
  match super with
  | Some multipliers =>
      if 0 <? total_return then apply_super_multiplier_number result multipliers total_return else total_return
  | None => total_return
  end.

(** How the first spin ends: with an amount to return, or with even-money bets
    in prison and a pending amount. *)
Inductive Settlement :=
| Returned (total_return : Z)
| Imprisoned (bets : list ChainBet) (pending_return : Z).

(** Action 1 in the betting phase, with the multipliers of an active super round;
    where bets may go to prison each return is multiplied by itself. *)
Definition settle (super : option (list SuperMultiplier)) (rule : ZeroRule) (bets : list ChainBet) (result : Z) :
    Settlement :=
  let paid total := Returned (super_return super result total) in
  let total := spin_return bets result in
  if is_zero_result rule result then
    match rule with
    | Standard | American => paid total
    | LaPartage =>
        paid (fold_left (fun t bet =>
            if wins result bet then saturating_add t (bet_return bet)
            else if is_even_money_bet (cb_type bet) then saturating_add t (cb_amount bet / 2)
            else t) bets 0)
    | EnPrison | EnPrisonDouble =>
        let imprisoned :=
          List.filter (fun bet => negb (wins result bet) && is_even_money_bet (cb_type bet)) bets in
        let pending_return :=
          fold_left (fun t bet =>
            if wins result bet then saturating_add t (super_return super result (bet_return bet)) else t) bets 0 in
        match imprisoned with
        | [] => Returned pending_return
        | _ => Imprisoned imprisoned pending_return
        end
    end
  else paid total.

(** *** Action 4: an atomic batch *)

Inductive Phase := Betting | Prison.

#[export] Instance Phase_eq_dec : EqDecision Phase.
Proof. solve_decision. Defined.

Record RouletteState := {
  st_zero_rule : ZeroRule;
  st_phase : Phase;
  st_total_wagered : Z;
  st_pending_return : Z;
  st_bets : list ChainBet;
  st_result : option Z
}.

(** The session, without its count of moves; the state is the parsed blob, and
    [gs_super] the multipliers of a super round that is active. *)
Record GameSession := {
  gs_state : RouletteState;
  gs_bet : Z;
  gs_super : option (list SuperMultiplier);
  gs_is_complete : bool
}.

Inductive GameResult := Win (total_return : Z) | Loss.

Definition bet_entry (payload : Uint8Array) (offset : Z) : GameError + (ChainBet * Z) :=
  try (bet_type, number, amount) <- typed_entry BetType_try_from payload offset;
  inr ({| cb_type := bet_type; cb_number := number; cb_amount := amount |}, amount).

(** [process_move] on a payload of action 4; [result] is the number drawn. *)
Definition process_batch (s : GameSession) (payload : Uint8Array) (result : Z)
    : GameError + (GameSession * GameResult) :=
  let st := gs_state s in
  try _ <- ensure (negb (gs_is_complete s)) GameAlreadyComplete;
  try _ <- ensure (bool_decide (payload <> [])) InvalidPayload;
  try _ <- ensure (bool_decide (st_phase st = Betting) && bool_decide (st_result st = None)) InvalidMove;
  try _ <- ensure (bool_decide (st_bets st = [])) InvalidMove;
  try (bets, total_wager) <- batch 20 10 bet_entry (fun bets bet => inr (bets ++ [bet])) payload;
  let total_return := super_return (gs_super s) result (spin_return bets result) in
  inr ({| gs_state := {| st_zero_rule := st_zero_rule st; st_phase := st_phase st; st_total_wagered := total_wager;
                         st_pending_return := st_pending_return st; st_bets := bets; st_result := Some result |};
          gs_bet := total_wager; gs_super := gs_super s; gs_is_complete := true |},
       if 0 <? total_return then Win total_return else Loss).

(** ** The website *)

Definition RED_NUMBERS : list Z :=
  [1; 3; 5; 7; 9; 12; 14; 16; 18; 19; 21; 23; 25; 27; 30; 32; 34; 36].
Definition ROULETTE_DOUBLE_ZERO : Z := 37.

Inductive RouletteColor := RED | BLACK | GREEN.

#[export] Instance RouletteColor_eq_dec : EqDecision RouletteColor.
Proof. solve_decision. Defined.

(** A bet as the table holds it; its amount is a whole number of chips. *)
Record RouletteBet := {
  rb_type : RouletteBetName;
  rb_target : option Z;
  rb_amount : Z;
}.

Definition isRouletteZero (num : Z) : bool := (num =? 0) || (num =? ROULETTE_DOUBLE_ZERO).

Definition formatRouletteNumber (num : Z) : string :=
  if num =? ROULETTE_DOUBLE_ZERO then "00" else pretty num.

Definition getRouletteColor (num : Z) : RouletteColor :=
  if isRouletteZero num then GREEN else if contains RED_NUMBERS num then RED else BLACK.

Definition getRouletteColumn (num : Z) : Z :=
  if isRouletteZero num then 0 else Z.rem (num - 1) 3 + 1.

(** [bet.target === n], and the same with a bound on an undefined target. *)
Definition target_is (target : option Z) (n : Z) : bool :=
  match target with Some t => t =? n | None => false end.

Definition payoutMult (outcome : Z) (bet : RouletteBet) : Z :=
  let color := getRouletteColor outcome in
  let isZero := isRouletteZero outcome in
  let column := if isZero then -1 else Z.rem (outcome - 1) 3 in
  let dozen := if isZero then -1 else js_floor_div (outcome - 1) 12 in
  let on (p : Z -> bool) :=
    match rb_target bet with Some t => negb isZero && p t | None => false end in
  let '(wins, mult) :=
    match rb_type bet with
    | Roul_STRAIGHT => (target_is (rb_target bet) outcome, 35)
    | Roul_RED => (bool_decide (color = RED), 1)
    | Roul_BLACK => (bool_decide (color = BLACK), 1)
    | Roul_ODD => (negb isZero && negb (Z.rem outcome 2 =? 0), 1)
    | Roul_EVEN => (negb isZero && (Z.rem outcome 2 =? 0), 1)
    | Roul_LOW => ((1 <=? outcome) && (outcome <=? 18), 1)
    | Roul_HIGH => ((19 <=? outcome) && (outcome <=? 36), 1)
    | Roul_ZERO => (outcome =? 0, 35)
    | Roul_DOZEN_1 => (dozen =? 0, 2)
    | Roul_DOZEN_2 => (dozen =? 1, 2)
    | Roul_DOZEN_3 => (dozen =? 2, 2)
    | Roul_COL_1 => (column =? 0, 2)
    | Roul_COL_2 => (column =? 1, 2)
    | Roul_COL_3 => (column =? 2, 2)
    | Roul_SPLIT_H => (on (fun t => (outcome =? t) || (outcome =? t + 1)), 17)
    | Roul_SPLIT_V => (on (fun t => (outcome =? t) || (outcome =? t + 3)), 17)
    | Roul_STREET => (on (fun t => (t <=? outcome) && (outcome <=? t + 2)), 11)
    | Roul_CORNER => (on (fun t => contains [t; t + 1; t + 3; t + 4] outcome), 8)
    | Roul_SIX_LINE => (on (fun t => (t <=? outcome) && (outcome <=? t + 5)), 5)
    end in
  if wins then mult else 0.

Definition calculateRouletteExposure (outcome : Z) (bets : list RouletteBet) : Z :=
  fold_left (fun pnl bet =>
    let mult := payoutMult outcome bet in
    if 0 <? mult then js_add pnl (js_mul (rb_amount bet) mult)
    else js_sub pnl (rb_amount bet)) bets 0.

(** The largest exposure over the outcomes [0 .. maxOutcome], and at least 0. *)
Definition getRouletteMaxWin (bets : list RouletteBet) (maxOutcome : Z) : Z :=
  match bets with
  | [] => 0
  | _ =>
      match max_over (fun outcome => calculateRouletteExposure outcome bets) (seqZ 0 (maxOutcome + 1)) with
      | Some max => Z.max 0 max
      | None => 0
      end
  end.

(** ** From the website to the chain

    The bet that the chain reads from the payload of a bet of the website. *)

Definition web_bet (b : RouletteBet) : WebBets.RouletteBet :=
  {| wr_type := rb_type b; wr_target := rb_target b; wr_amount := Finite (inject_Z (rb_amount b)) |}.

Definition chain_bet (b : RouletteBet) : option ChainBet :=
  match rouletteBetToNumeric (web_bet b) with
  | Ok (code, number, _) =>
      t ← BetType_try_from code;
      Some {| cb_type := t; cb_number := number; cb_amount := rb_amount b |}
  | Throw _ => None
  end.

(** The chain takes the bet; a straight bet names its number. *)
Definition accepted (rule : ZeroRule) (b : RouletteBet) : bool :=
  match chain_bet b with
  | Some c => (0 <=? cb_number c) && is_valid_bet_number (cb_type c) (cb_number c) rule
  | None => false
  end
  && match rb_type b, rb_target b with Roul_STRAIGHT, None => false | _, _ => true end.

(** A possible outcome of a spin. *)
Definition outcome_of (rule : ZeroRule) (result : Z) : bool :=
  (0 <=? result) && (result <=? match rule with American => 37 | _ => 36 end).

Definition stake (bets : list RouletteBet) : Z := zsum rb_amount bets.

(** The profit of one bet. *)
Definition delta (result : Z) (b : RouletteBet) : Z :=
  let mult := payoutMult result b in
  if 0 <? mult then rb_amount b * mult else - rb_amount b.

(** What La Partage gives back on a zero. *)
Definition half_back (rule : ZeroRule) (result : Z) (b : RouletteBet) : Z :=
  match rule, chain_bet b with
  | LaPartage, Some c =>
      if (result =? 0) && negb (wins result c) && is_even_money_bet (cb_type c)
      then rb_amount b / 2 else 0
  | _, _ => 0
  end.

Lemma seqZ_forallb f a n z : forallb f (seqZ a n) = true -> a <= z < a + n -> f z = true.
Proof. intros H Hz. rewrite forallb_forall in H. apply H, list_elem_of_In, elem_of_seqZ. lia. Qed.

(** The numeric form of a bet with a valid amount. *)
Definition numeric (type : RouletteBetName) (target : option Z) : option (BetType * Z) :=
  match rouletteBetToNumeric {| wr_type := type; wr_target := target; wr_amount := Finite (inject_Z 1) |} with
  | Ok (code, number, _) => t ← BetType_try_from code; Some (t, number)
  | Throw _ => None
  end.

Lemma chain_bet_numeric b c :
  chain_bet b = Some c ->
  numeric (rb_type b) (rb_target b) = Some (cb_type c, cb_number c) /\ cb_amount c = rb_amount b.
Proof.
  unfold chain_bet, numeric, rouletteBetToNumeric, web_bet. cbn [wr_amount wr_type wr_target].
  destruct (validateBetAmount (Finite (inject_Z (rb_amount b))) _); cbn; [|done].
  destruct (rb_type b); cbn; by intros [= <-].
Qed.

(** The two sides of one bet, for a numeric target. *)
Definition side_by_side (type : RouletteBetName) (target : option Z) (result : Z) : bool :=
  match numeric type target with
  | Some (t, n) =>
      negb (is_valid_bet_number t n American)
      || (payoutMult result {| rb_type := type; rb_target := target; rb_amount := 0 |}
          =? if bet_wins t n result then payout_multiplier t else 0)
  | None => true
  end.

Lemma side_by_side_table type target :
  0 <= target <= 37 -> forallb (side_by_side type (Some target)) (seqZ 0 38) = true.
Proof.
  intros H. apply (seqZ_forallb (fun t => forallb (side_by_side type (Some t)) (seqZ 0 38)) 0 38);
    [|lia]. by destruct type; vm_compute.
Qed.

Lemma side_by_side_untargeted type result :
  type <> Roul_STRAIGHT -> 0 <= result <= 37 -> side_by_side type None result = true.
Proof.
  intros Ht H. apply (seqZ_forallb (side_by_side type None) 0 38); [|lia].
  by destruct type; vm_compute.
Qed.

Definition targeted (type : RouletteBetName) : bool :=
  match type with
  | Roul_STRAIGHT | Roul_SPLIT_H | Roul_SPLIT_V | Roul_STREET | Roul_CORNER | Roul_SIX_LINE => true
  | _ => false
  end.

Lemma side_by_side_all type target result t n :
  numeric type target = Some (t, n) -> 0 <= n -> is_valid_bet_number t n American = true ->
  (type = Roul_STRAIGHT -> target <> None) -> 0 <= result <= 37 ->
  side_by_side type target result = true.
Proof.
  intros Hn H0 Hv Hs Hr. destruct target as [target|].
  2:{ apply side_by_side_untargeted; [|done]. intros ->. by apply Hs. }
  destruct (targeted type) eqn:E.
  - apply (seqZ_forallb (side_by_side type (Some target)) 0 38); [|lia].
    apply side_by_side_table.
    destruct type; try done; unfold numeric in Hn; cbn in Hn; injection Hn as <- <-; cbn in Hv;
      bprop; change DOUBLE_ZERO with 37 in *; lia.
  - rewrite <- (side_by_side_untargeted type result); [|by intros ->|done].
    by destruct type.
Qed.

Lemma valid_american t n rule :
  is_valid_bet_number t n rule = true -> is_valid_bet_number t n American = true.
Proof. destruct t, rule; cbn; intros H; bprop; unfold DOUBLE_ZERO in *; try lia; done. Qed.

(** The multiplier shown is the multiplier paid. *)
Lemma payoutMult_spec rule b c result :
  accepted rule b = true -> chain_bet b = Some c -> 0 <= result <= 37 ->
  payoutMult result b = if wins result c then payout_multiplier (cb_type c) else 0.
Proof.
  unfold accepted. intros Ha Hc Hr. rewrite Hc in Ha. bprop.
  destruct (chain_bet_numeric _ _ Hc) as [Hn _].
  assert (Hs : side_by_side (rb_type b) (rb_target b) result = true).
  { eapply side_by_side_all; eauto using valid_american. intros E. by destruct (rb_type b), (rb_target b). }
  unfold side_by_side in Hs. rewrite Hn in Hs.
  rewrite (valid_american _ _ rule) in Hs by done. cbn in Hs. bprop.
  unfold wins. rewrite <- Hs. by destruct b.
Qed.

Lemma payout_multiplier_bounds t : 1 <= payout_multiplier t <= 35.
Proof. destruct t; cbn; lia. Qed.

Lemma payoutMult_bounds result b : 0 <= payoutMult result b <= 35.
Proof. unfold payoutMult. cbv zeta. destruct (rb_type b); split_if; lia. Qed.

Lemma delta_bounds result b :
  0 <= rb_amount b -> - rb_amount b <= delta result b <= 35 * rb_amount b.
Proof. intros Ha. unfold delta. cbv zeta. pose proof (payoutMult_bounds result b). split_if; nia. Qed.

Lemma roulette_exposure_sum result bets :
  Forall (fun b => 0 <= rb_amount b) bets -> 35 * stake bets <= 2 ^ 53 ->
  calculateRouletteExposure result bets = zsum (delta result) bets.
Proof.
  intros Hp Hb. unfold calculateRouletteExposure.
  rewrite (fold_exact _ (delta result)); [lia| |].
  - rewrite Z.add_0_l. etransitivity; [|exact Hb]. unfold stake. rewrite <- zsum_scale.
    apply zsum_le. rewrite Forall_forall in Hp. intros b Hin.
    pose proof (delta_bounds result b (Hp b Hin)). specialize (Hp b Hin). cbn in Hp. lia.
  - intros p b Hin Hpb. cbv zeta. unfold delta in *. cbv zeta in *.
    pose proof (zsum_member rb_amount _ _ Hp Hin) as Hm. fold (stake bets) in Hm.
    pose proof (payoutMult_bounds result b). split_if.
    + rewrite js_mul_exact by nia. apply js_add_exact. lia.
    + rewrite js_sub_exact; lia.
Qed.

(** ** The prediction is the settlement *)

Lemma roulette_accepted_chain rule b :
  accepted rule b = true -> exists c, chain_bet b = Some c /\ cb_amount c = rb_amount b /\ 0 < rb_amount b.
Proof.
  unfold accepted. destruct (chain_bet b) as [c|] eqn:E; [|done]. intros _. exists c. split; [done|].
  destruct (chain_bet_numeric _ _ E) as [_ Ha]. split; [done|].
  unfold chain_bet, rouletteBetToNumeric, web_bet in E. cbn [wr_amount] in E.
  destruct (validAmount (Finite (inject_Z (rb_amount b)))) eqn:V.
  - cbn in V. bprop. lia.
  - destruct (validateBetAmount_refused _ "RouletteBet" V) as [msg Hm]. by rewrite Hm in E.
Qed.

Lemma accepted_nonneg rule bets :
  forallb (accepted rule) bets = true -> Forall (fun b => 0 <= rb_amount b) bets.
Proof.
  intros H%forallb_Forall_true. eapply Forall_impl; [exact H|]. intros b Hb.
  destruct (roulette_accepted_chain _ _ Hb) as (c & _ & _ & ?). lia.
Qed.

(** The return of one bet. *)
Definition returned (result : Z) (c : ChainBet) : Z := if wins result c then bet_return c else 0.

Lemma bet_return_exact c :
  0 <= cb_amount c -> 36 * cb_amount c <= 2 ^ 53 ->
  bet_return c = cb_amount c * (payout_multiplier (cb_type c) + 1).
Proof.
  intros H0 H. unfold bet_return. pose proof (payout_multiplier_bounds (cb_type c)).
  rewrite saturating_add_exact by (unfold u64_max; lia).
  apply saturating_mul_exact. unfold u64_max. nia.
Qed.

Lemma returned_delta rule b c result :
  accepted rule b = true -> chain_bet b = Some c -> 0 <= result <= 37 -> 36 * rb_amount b <= 2 ^ 53 ->
  returned result c = rb_amount b + delta result b.
Proof.
  intros Ha Hc Hr Hb. destruct (roulette_accepted_chain _ _ Ha) as (c' & Hc' & Hamt & Hpos).
  assert (c' = c) as -> by congruence.
  unfold returned, delta. rewrite (payoutMult_spec rule b c result) by done. cbv zeta.
  rewrite bet_return_exact by lia. pose proof (payout_multiplier_bounds (cb_type c)).
  destruct (wins result c); [|cbn; lia]. rewrite (proj2 (Z.ltb_lt _ _)) by lia. nia.
Qed.

Lemma chain_bets_sum rule bets (f : ChainBet -> Z) (g : RouletteBet -> Z) :
  forallb (accepted rule) bets = true ->
  (forall b c, b ∈ bets -> chain_bet b = Some c -> f c = g b) ->
  zsum f (omap chain_bet bets) = zsum g bets.
Proof.
  intros H%forallb_Forall_true Hfg. induction H as [|b bets Hb Hl IH]; [done|].
  destruct (roulette_accepted_chain _ _ Hb) as (c & Hc & _).
  assert (omap chain_bet (b :: bets) = c :: omap chain_bet bets) as -> by (cbn; by rewrite Hc).
  rewrite !zsum_cons.
  rewrite (Hfg b c) by set_solver. f_equal. apply IH. intros b' c' Hin. apply Hfg. set_solver.
Qed.

(** A settlement adds up what each bet returns, given the bounds. *)
Section Settlement.
Context (rule : ZeroRule) (bets : list RouletteBet) (result : Z).
Hypothesis Haccepted : forallb (accepted rule) bets = true.
Hypothesis Hstake : 36 * stake bets <= 2 ^ 53.
Hypothesis Hresult : 0 <= result <= 37.

Lemma bet_accepted b : b ∈ bets -> accepted rule b = true /\ 36 * rb_amount b <= 2 ^ 53 /\ 0 <= rb_amount b.
Proof using Haccepted Hstake.
  intros Hin. pose proof (accepted_nonneg _ _ Haccepted) as Hp.
  pose proof (zsum_member rb_amount _ _ Hp Hin) as Hm. fold (stake bets) in Hm.
  split; [|lia]. by apply (proj1 (List.forallb_forall _ _) Haccepted), list_elem_of_In.
Qed.

Lemma chain_member c : c ∈ omap chain_bet bets -> exists b, b ∈ bets /\ chain_bet b = Some c.
Proof using. intros (b & ? & ?)%list_elem_of_omap. eauto. Qed.

Lemma settled_sum (step : Z -> ChainBet -> Z) (extra : ChainBet -> Z) :
  (forall b c, b ∈ bets -> chain_bet b = Some c -> 0 <= extra c <= rb_amount b) ->
  (forall t c, c ∈ omap chain_bet bets -> 0 <= t -> t + (returned result c + extra c) <= u64_max ->
     step t c = t + (returned result c + extra c)) ->
  fold_left step (omap chain_bet bets) 0
  = stake bets + calculateRouletteExposure result bets + zsum extra (omap chain_bet bets).
Proof using Haccepted Hstake Hresult.
  intros He Hstep.
  assert (Hret : zsum (returned result) (omap chain_bet bets)
                 = stake bets + calculateRouletteExposure result bets).
  { rewrite roulette_exposure_sum by (eauto using accepted_nonneg; lia). unfold stake. rewrite <- zsum_add.
    apply (chain_bets_sum rule); [done|]. intros b c Hin Hc.
    destruct (bet_accepted b Hin) as (? & ? & ?). by apply (returned_delta rule). }
  assert (Hpos : Forall (fun c => 0 <= returned result c + extra c) (omap chain_bet bets)).
  { apply Forall_forall. intros c Hc. destruct (chain_member c Hc) as (b & Hin & Hb).
    destruct (bet_accepted b Hin) as (Ha & ? & ?). specialize (He b c Hin Hb).
    rewrite (returned_delta rule b c) by done.
    pose proof (delta_bounds result b). lia. }
  rewrite (fold_saturating _ (fun c => returned result c + extra c)); [|done|done| |done].
  { rewrite zsum_add, Hret. lia. }
  rewrite zsum_add, Hret, roulette_exposure_sum by (eauto using accepted_nonneg; lia).
  assert (zsum (delta result) bets <= 35 * stake bets).
  { unfold stake. rewrite <- zsum_scale. apply zsum_le. intros b Hin.
    destruct (bet_accepted b Hin) as (? & ? & ?). by apply delta_bounds. }
  assert (zsum extra (omap chain_bet bets) <= stake bets).
  { etransitivity; [apply (zsum_le extra cb_amount)|].
    - intros c Hc. destruct (chain_member c Hc) as (b & Hin & Hb). specialize (He b c Hin Hb).
      destruct (chain_bet_numeric _ _ Hb) as [_ ->]. lia.
    - rewrite (chain_bets_sum rule bets _ rb_amount); [done|done|].
      intros b c _ Hb. by destruct (chain_bet_numeric _ _ Hb). }
  unfold u64_max. lia.
Qed.
End Settlement.

Lemma settle_total rule bets result :
  forallb (accepted rule) bets = true -> 36 * stake bets <= 2 ^ 53 -> 0 <= result <= 37 ->
  spin_return (omap chain_bet bets) result = stake bets + calculateRouletteExposure result bets.
Proof.
  intros Ha Hb Hr. unfold spin_return. rewrite (settled_sum rule bets result Ha Hb Hr _ (fun _ => 0)).
  - rewrite (zsum_ext _ (fun c => 0 * cb_amount c)), zsum_scale by done. lia.
  - intros b c Hin _. destruct (bet_accepted rule bets Ha Hb b Hin) as (_ & _ & ?). lia.
  - intros t c _ Ht Hle. unfold returned in *. destruct (wins result c); [|lia].
    rewrite saturating_add_exact by lia. lia.
Qed.

Lemma settle_half_back rule bets :
  forallb (accepted rule) bets = true -> 36 * stake bets <= 2 ^ 53 -> rule = LaPartage ->
  fold_left (fun t c =>
      if wins 0 c then saturating_add t (bet_return c)
      else if is_even_money_bet (cb_type c) then saturating_add t (cb_amount c / 2) else t)
    (omap chain_bet bets) 0
  = stake bets + calculateRouletteExposure 0 bets + zsum (half_back rule 0) bets.
Proof.
  intros Ha Hb ->.
  set (extra := fun c : ChainBet =>
    if negb (wins 0 c) && is_even_money_bet (cb_type c) then cb_amount c / 2 else 0).
  rewrite (settled_sum LaPartage bets 0 Ha Hb ltac:(lia) _ extra).
  - f_equal. apply (chain_bets_sum LaPartage); [done|]. intros b c _ Hc. unfold half_back, extra.
    rewrite Hc. destruct (chain_bet_numeric _ _ Hc) as [_ ->]. done.
  - intros b c Hin Hc. destruct (bet_accepted LaPartage bets Ha Hb b Hin) as (_ & _ & Hp).
    unfold extra. destruct (chain_bet_numeric _ _ Hc) as [_ ->].
    pose proof (Z.div_lt_upper_bound (rb_amount b) 2 (rb_amount b + 1)).
    pose proof (Z.div_pos (rb_amount b) 2). destruct (_ && _); lia.
  - intros t c _ Ht. unfold returned, extra.
    destruct (wins 0 c); cbn; [|destruct (is_even_money_bet (cb_type c))]; intros Hle; try lia;
      rewrite saturating_add_exact by lia; lia.
Qed.

(** The spin after single bets (action 1) without a super round: the amount the chain returns is the
    stakes plus the exposure, plus, under La Partage, half of the even-money
    stakes that a zero hits.  Under the prison rules a zero keeps just those
    stakes in prison, and pends the same amount. *)
Theorem spin_settlement rule bets result :
  forallb (accepted rule) bets = true -> 36 * stake bets <= 2 ^ 53 -> outcome_of rule result = true ->
  match settle None rule (omap chain_bet bets) result with
  | Returned total =>
      total = stake bets + calculateRouletteExposure result bets + zsum (half_back rule result) bets
  | Imprisoned held pending =>
      (rule = EnPrison \/ rule = EnPrisonDouble) /\ result = 0
      /\ held = List.filter (fun c => is_even_money_bet (cb_type c)) (omap chain_bet bets)
      /\ pending = stake bets + calculateRouletteExposure result bets
  end.
Proof.
  intros Ha Hb Hr. assert (Hr' : 0 <= result <= 37) by (unfold outcome_of in Hr; bprop; destruct rule; lia).
  assert (Hn : rule <> LaPartage \/ result <> 0 -> zsum (half_back rule result) bets = 0).
  { intros H. rewrite (zsum_ext _ (fun b => 0 * rb_amount b)), zsum_scale; [done|]. intros b _.
    unfold half_back. destruct rule; try done. destruct (chain_bet b); [|done].
    by rewrite (proj2 (Z.eqb_neq _ _)) by (destruct H; [done|lia]). }
  unfold settle, super_return. fold (spin_return (omap chain_bet bets) result).
  rewrite !(settle_total rule) by done.
  destruct (is_zero_result rule result) eqn:Ez.
  2:{ rewrite Hn; [lia|]. destruct rule; try (by left). cbn in Ez. bprop. by right. }
  destruct rule; try (rewrite Hn by (by left); lia); cbn in Ez; bprop; subst result.
  { by rewrite (settle_half_back LaPartage). }
  all: set (keep := fun c : ChainBet => negb (wins 0 c) && is_even_money_bet (cb_type c));
    assert (Ek : forall c, keep c = is_even_money_bet (cb_type c))
      by (intros [[] n a]; unfold keep, wins, bet_wins; cbn; by rewrite ?andb_false_r);
    rewrite (List.filter_ext keep _ Ek);
    destruct (List.filter _ (omap chain_bet bets)) eqn:Ef;
    [rewrite Hn by (by left); lia|rewrite <- Ef; auto].
Qed.

(** *** The batch *)

(** A bet of the chain, and its entry in the payload. *)
Definition chain_entry (c : ChainBet) : Uint8Array := entry10 (BetType_code (cb_type c)) (cb_number c) (cb_amount c).

Definition fits (c : ChainBet) : Prop := 0 <= cb_number c < 256 /\ 0 < cb_amount c < 2 ^ 64.

Lemma bet_entry_reads c pre post :
  fits c -> bet_entry (pre ++ chain_entry c ++ post) (len pre) = inr (c, cb_amount c).
Proof.
  intros [Hn Ha]. unfold bet_entry, chain_entry.
  rewrite (typed_entry_reads BetType_try_from pre _ (cb_type c)); [by destruct c| |by destruct (cb_type c)|done|done].
  destruct (cb_type c); cbn; lia.
Qed.

(** The batch move on a payload of entries, in a session that awaits its bets. *)
Definition ready (s : GameSession) : bool :=
  negb (gs_is_complete s) && bool_decide (st_phase (gs_state s) = Betting)
  && bool_decide (st_result (gs_state s) = None) && bool_decide (st_bets (gs_state s) = []).

Lemma accepted_chain_entry b :
  accepted American b = true -> rb_amount b < 2 ^ 53 ->
  validAmount (wr_amount (web_bet b)) = true
  /\ exists c, chain_bet b = Some c /\ fits c /\ entryOf wr_amount rouletteNumeric (web_bet b) = chain_entry c.
Proof.
  intros Ha Hb. destruct (roulette_accepted_chain _ _ Ha) as (c & Hc & Hamt & Hpos).
  assert (V : validAmount (wr_amount (web_bet b)) = true).
  { unfold chain_bet in Hc. destruct (validAmount _) eqn:V; [done|].
    unfold rouletteBetToNumeric in Hc. destruct (validateBetAmount_refused _ "RouletteBet" V) as [m Hm].
    by rewrite Hm in Hc. }
  split; [done|]. exists c. split; [done|].
  assert (Hn : 0 <= cb_number c < 256).
  { unfold accepted in Ha. rewrite Hc in Ha. bprop. destruct (chain_bet_numeric _ _ Hc) as [Hn _].
    assert (Hv : is_valid_bet_number (cb_type c) (cb_number c) American = true) by done.
    destruct (rb_type b); unfold numeric in Hn; cbn in Hn; injection Hn as Ht En; rewrite <- Ht in Hv; cbn in Hv;
      bprop; change DOUBLE_ZERO with 37 in *; lia. }
  split; [split; [done|lia]|].
  unfold entryOf, chain_entry. f_equal.
  3:{ rewrite Hamt. unfold amountValue, web_bet; cbn. by rewrite Z.div_1_r. }
  all: unfold chain_bet in Hc; rewrite rouletteBetToNumeric_eq, validateBetAmount_ok in Hc by done; cbn [mbind result_bind] in Hc;
    destruct b as [[] [g|] a]; cbn in Hc |- *; injection Hc as <-; reflexivity.
Qed.

Lemma payload_entries bets :
  forallb (accepted American) bets = true -> stake bets < 2 ^ 53 ->
  Forall fits (omap chain_bet bets) /\ len (omap chain_bet bets) = len bets
  /\ zsum cb_amount (omap chain_bet bets) = stake bets
  /\ serializeRouletteAtomicBatch (web_bet <$> bets)
     = Ok ([z2b 4; z2b (len bets)] ++ concat (chain_entry <$> omap chain_bet bets)).
Proof.
  intros Ha Hs.
  assert (H : Forall (fun b => validAmount (wr_amount (web_bet b)) = true
    /\ exists c, chain_bet b = Some c /\ fits c /\ entryOf wr_amount rouletteNumeric (web_bet b) = chain_entry c) bets).
  { apply Forall_forall. intros b Hb. pose proof (accepted_nonneg _ _ Ha) as Hp.
    pose proof (zsum_member rb_amount _ _ Hp Hb) as Hm. fold (stake bets) in Hm.
    apply accepted_chain_entry; [|lia]. by apply (proj1 (List.forallb_forall _ _) Ha), list_elem_of_In. }
  split; [|split; [|split]].
  - apply Forall_forall. intros c (b & Hb & Hc)%list_elem_of_omap. rewrite Forall_forall in H.
    destruct (H b Hb) as (_ & c' & E & Hf & _). congruence.
  - clear -H. induction H as [|b bets (_ & c & E & _) _ IH]; [done|]. cbn. rewrite E, !len_cons. lia.
  - apply (chain_bets_sum American); [done|]. intros b c _ Hc. by destruct (chain_bet_numeric _ _ Hc).
  - unfold serializeRouletteAtomicBatch.
    rewrite (batch10_accepted "RouletteBet" wr_amount _ _ rouletteBetToNumeric_eq).
    + rewrite len_fmap. do 2 f_equal. f_equal. clear -H.
      induction H as [|b bets (_ & c & E & _ & Ee) _ IH]; [done|]. cbn. rewrite E. cbn. by rewrite Ee, IH.
    + rewrite forallb_fmap. apply List.forallb_forall. intros b Hb%list_elem_of_In.
      rewrite Forall_forall in H. by destruct (H b Hb).
Qed.

(** C18. The exposure that the website shows for an outcome is the profit that
    the chain settles for the batch that the website sends: for at most twenty
    bets on places of the table, with stakes up to 2^53/36 in all, a session
    that awaits its bets takes exactly these bets from the payload, whatever its
    zero rule, wagers the stakes and returns the stakes plus the exposure of the
    number drawn, times the multiplier of that number in a super round. *)
Theorem exposure_is_settlement s bets result :
  ready s = true -> bets <> [] -> len bets <= 20 ->
  forallb (accepted American) bets = true -> 36 * stake bets <= 2 ^ 53 -> 0 <= result <= 37 ->
  let total_return :=
    super_return (gs_super s) result (stake bets + calculateRouletteExposure result bets) in
  exists payload s',
    serializeRouletteAtomicBatch (web_bet <$> bets) = Ok payload
    /\ payload !! 0%nat = Some (z2b 4)
    /\ process_batch s payload result = inr (s', if 0 <? total_return then Win total_return else Loss)
    /\ gs_bet s' = stake bets /\ gs_is_complete s' = true
    /\ st_bets (gs_state s') = omap chain_bet bets /\ len (st_bets (gs_state s')) = len bets
    /\ st_result (gs_state s') = Some result.
Proof.
  intros Hr Hne Hlen Ha Hb Hres total_return.
  assert (Hpos : 1 <= len bets) by (destruct bets; [done|rewrite len_cons; pose proof (len_nonneg bets); lia]).
  assert (Hs0 : 0 <= stake bets).
  { apply zsum_nonneg. intros b Hin. pose proof (accepted_nonneg _ _ Ha) as Hp. rewrite Forall_forall in Hp. by apply Hp. }
  destruct (payload_entries bets Ha ltac:(lia)) as (Hf & El & Es & Ep).
  eexists _, _. split; [exact Ep|]. split; [done|].
  pose proof (batch_read 20 10 bet_entry (fun bets bet => inr (bets ++ [bet])) cb_amount id chain_entry fits
    ltac:(done) (fun c pre post H => bet_entry_reads c pre post H) ltac:(unfold fits; intros c ?; cbn; lia) (z2b 4) (omap chain_bet bets)) as Hread.
  unfold wagered in Hread. rewrite list_fmap_id, El, Es, adds_append in Hread. specialize (Hread ltac:(lia) ltac:(lia) Hf ltac:(unfold u64_max; lia)).
  unfold ready in Hr. bprop. unfold process_batch. rewrite Hread.
  rewrite !bool_decide_eq_true_2 by done. destruct (gs_is_complete s); [done|]. cbn [negb andb ensure bindE].
  rewrite app_nil_l, (settle_total American) by done. split; [reflexivity|]. cbn [gs_bet gs_is_complete gs_state st_bets st_result]. by rewrite El.
Qed.


Definition sample_bets : list RouletteBet :=
  [ {| rb_type := Roul_RED; rb_target := None; rb_amount := 101 |};
    {| rb_type := Roul_STRAIGHT; rb_target := Some 0; rb_amount := 2 |};
    {| rb_type := Roul_CORNER; rb_target := Some 14; rb_amount := 10 |} ].

(** A session on a wheel of La Partage, in a super round. *)
Definition sample_session : GameSession :=
  {| gs_state := {| st_zero_rule := LaPartage; st_phase := Betting; st_total_wagered := 0;
                    st_pending_return := 0; st_bets := []; st_result := None |};
     gs_bet := 0; gs_super := Some [{| sm_id := 14; sm_multiplier := 5; sm_super_type := SuperNumber |}];
     gs_is_complete := false |}.

Lemma exposure_is_settlement_witness :
  exists payload s', serializeRouletteAtomicBatch (web_bet <$> sample_bets) = Ok payload
  /\ process_batch sample_session payload 14 = inr (s', Win 1460) /\ gs_bet s' = 113.
Proof.
  destruct (exposure_is_settlement sample_session sample_bets 14) as (payload & s' & Hp & _ & Hs & Hb & _);
    [by vm_compute|done|done|by vm_compute|by vm_compute|lia|].
  exists payload, s'. split; [exact Hp|]. split; [exact Hs|exact Hb].
Defined.

(** The maximum shown with the bets bounds the profit of every outcome, and is
    the profit of some outcome unless no outcome wins anything. *)
Lemma getRouletteMaxWin_spec bets maxOutcome :
  0 <= maxOutcome -> bets <> [] ->
  let max := getRouletteMaxWin bets maxOutcome in
  (forall result, 0 <= result <= maxOutcome -> calculateRouletteExposure result bets <= max)
  /\ (max = 0 \/ exists result, 0 <= result <= maxOutcome /\ calculateRouletteExposure result bets = max).
Proof.
  intros Hm Hne max. unfold max, getRouletteMaxWin. clear max. destruct bets as [|b bets]; [done|].
  destruct (max_over_spec (fun r => calculateRouletteExposure r (b :: bets)) (seqZ 0 (maxOutcome + 1)))
    as (m & -> & Hle & r & Hr & Heq).
  { rewrite seqZ_cons by lia. done. }
  split.
  - intros result H. pose proof (Hle result ltac:(apply elem_of_seqZ; lia)). cbn in *. lia.
  - apply elem_of_seqZ in Hr. destruct (Z_le_gt_dec m 0); [left; lia|right].
    exists r. rewrite Z.max_r by lia. split; [lia|done].
Qed.
