(* ===== verification/SicBo.v ===== *)
(** * Sic Bo: the exposures the website shows and the payouts of the chain

    [website/src/utils/gameUtils.ts] predicts what a roll of three dice would
    win or lose, in total and for the rows of its panels;
    [execution/src/casino/sic_bo.rs] decides it. *)

From Stdlib Require Import QArith.QArith_base.
From S2P Require Import Prelude JsNum Constants WebBets Arith.

(** A roll of three dice. *)
Definition Dice : Type := Z * Z * Z.

Definition die (d : Z) : Prop := 1 <= d <= 6.
Definition roll (dice : Dice) : Prop := let '(d1, d2, d3) := dice in die d1 /\ die d2 /\ die d3.

(** ** The chain *)

Inductive SicBoPaytable := Macau | AtlanticCity.

Inductive BetType :=
| Small | Big | Odd | Even | SpecificTriple | AnyTriple | SpecificDouble | Total | Single
| Domino | ThreeNumberEasyHop | ThreeNumberHardHop | FourNumberEasyHop.

#[export] Instance BetType_eq_dec : EqDecision BetType.
Proof. solve_decision. Defined.

(** [BetType::try_from(u8)]. *)
Definition BetType_try_from (value : Z) : option BetType :=
  nth_error [Small; Big; Odd; Even; SpecificTriple; AnyTriple; SpecificDouble; Total; Single;
             Domino; ThreeNumberEasyHop; ThreeNumberHardHop; FourNumberEasyHop] (Z.to_nat value).

Record ChainBet := { cb_type : BetType; cb_number : Z; cb_amount : Z }.

Definition in_range (lo hi z : Z) : bool := (lo <=? z) && (z <=? hi).

(** The bytes [(number >> 4) & 0x0f] and [number & 0x0f]. *)
Definition high_nibble (number : Z) : Z := Z.land (Z.shiftr number 4) 15.
Definition low_nibble (number : Z) : Z := Z.land number 15.

(** [u8::count_ones]. *)
Definition count_ones (mask : Z) : Z := len (List.filter (Z.testbit mask) (seqZ 0 8)).

(** [number & !0x3F == 0]. *)
Definition six_bits (number : Z) : bool := Z.land number 192 =? 0.

Definition is_valid_bet_number (bet_type : BetType) (number : Z) : bool :=
  match bet_type with
  | SpecificTriple | SpecificDouble | Single => in_range 1 6 number
  | Total => in_range 3 18 number
  | Domino =>
      let min := high_nibble number in
      let max := low_nibble number in
      in_range 1 6 min && in_range 1 6 max && (min <? max)
  | ThreeNumberEasyHop => six_bits number && (count_ones number =? 3)
  | ThreeNumberHardHop =>
      let double := high_nibble number in
      let single := low_nibble number in
      in_range 1 6 double && in_range 1 6 single && negb (double =? single)
  | FourNumberEasyHop => six_bits number && (count_ones number =? 4)
  | _ => true
  end.

Definition total_payout (total : Z) (paytable : SicBoPaytable) : Z :=
  match paytable with
  | Macau =>
      if (total =? 3) || (total =? 18) then 180
      else if (total =? 4) || (total =? 17) then 50
      else if (total =? 5) || (total =? 16) then 18
      else if (total =? 6) || (total =? 15) then 14
      else if (total =? 7) || (total =? 14) then 12
      else if (total =? 8) || (total =? 13) then 8
      else if (total =? 9) || (total =? 12) then 6
      else if (total =? 10) || (total =? 11) then 6
      else 0
  | AtlanticCity =>
      if (total =? 3) || (total =? 18) then 180
      else if (total =? 4) || (total =? 17) then 60
      else if (total =? 5) || (total =? 16) then 30
      else if (total =? 6) || (total =? 15) then 17
      else if (total =? 7) || (total =? 14) then 12
      else if (total =? 8) || (total =? 13) then 8
      else if (total =? 9) || (total =? 12) then 6
      else if (total =? 10) || (total =? 11) then 6
      else 0
  end.

Definition is_triple (dice : Dice) : bool := let '(d1, d2, d3) := dice in (d1 =? d2) && (d2 =? d3).

Definition count_number (dice : Dice) (number : Z) : Z :=
  let '(d1, d2, d3) := dice in len (List.filter (fun d => d =? number) [d1; d2; d3]).

Definition dice_all_distinct (dice : Dice) : bool :=
  let '(d1, d2, d3) := dice in negb (d1 =? d2) && negb (d1 =? d3) && negb (d2 =? d3).

Definition dice_mask (dice : Dice) : Z :=
  let '(d1, d2, d3) := dice in
  fold_left (fun mask d =>
    if in_range 1 6 d then Z.lor mask (Z.shiftl 1 (d - 1)) else mask) [d1; d2; d3] 0.

Definition dice_sum (dice : Dice) : Z := let '(d1, d2, d3) := dice in d1 + d2 + d3.

(** [if cond { bet.amount.saturating_mul(k + 1) } else { 0 }]. *)
Definition pays (cond : bool) (amount k : Z) : Z :=
  if cond then saturating_mul amount (saturating_add k 1) else 0.

Definition calculate_bet_payout (bet : ChainBet) (dice : Dice) (paytable : SicBoPaytable) : Z :=
  let total := dice_sum dice in
  let triple := is_triple dice in
  let number := cb_number bet in
  let pays cond k := pays cond (cb_amount bet) k in
  match cb_type bet with
  | Small => pays (negb triple && in_range 4 10 total) 1
  | Big => pays (negb triple && in_range 11 17 total) 1
  | Odd => pays ((total mod 2 =? 1) && negb triple) 1
  | Even => pays ((total mod 2 =? 0) && negb triple) 1
  | SpecificTriple =>
      pays (triple && (dice.1.1 =? number)) (match paytable with Macau => 150 | AtlanticCity => 180 end)
  | AnyTriple => pays triple (match paytable with Macau => 24 | AtlanticCity => 30 end)
  | SpecificDouble =>
      pays (2 <=? count_number dice number) (match paytable with Macau => 8 | AtlanticCity => 10 end)
  | Total => pays (total =? number) (total_payout number paytable)
  | Single =>
      let count := count_number dice number in
      if count =? 1 then pays true 1
      else if count =? 2 then pays true 2
      else if count =? 3 then pays true 3
      else 0
  | Domino =>
      let min := high_nibble number in
      let max := low_nibble number in
      if negb (in_range 1 6 min) || negb (in_range 1 6 max) || (max <=? min) then 0
      else pays ((1 <=? count_number dice min) && (1 <=? count_number dice max)) 5
  | ThreeNumberEasyHop =>
      if negb (six_bits number) || negb (count_ones number =? 3) then 0
      else pays (dice_all_distinct dice && (Z.land (dice_mask dice) number =? dice_mask dice)) 30
  | ThreeNumberHardHop =>
      let double := high_nibble number in
      let single := low_nibble number in
      if negb (in_range 1 6 double) || negb (in_range 1 6 single) || (double =? single) then 0
      else pays ((count_number dice double =? 2) && (count_number dice single =? 1)) 50
  | FourNumberEasyHop =>
      if negb (six_bits number) || negb (count_ones number =? 4) then 0
      else pays (dice_all_distinct dice && (Z.land (dice_mask dice) number =? dice_mask dice)) 7
  end.

(** Action 1: what the chain returns for the bets of a round. *)
Definition total_winnings (bets : list ChainBet) (dice : Dice) (paytable : SicBoPaytable) : Z :=
  zsum (fun bet => calculate_bet_payout bet dice paytable) bets.

(** ** The website *)

Record SicBoBet := {
  sb_type : SicBoBetName;
  sb_target : option Z;
  sb_amount : Z;
}.

(** A row of the panel of totals. *)
Record TotalItem := { ti_total : Z; ti_isTriple : bool; ti_label : string }.

Definition item (total : Z) (isTriple : bool) (label : string) : TotalItem :=
  {| ti_total := total; ti_isTriple := isTriple; ti_label := label |}.

Definition getSicBoTotalItems : list TotalItem :=
  [ item 3 true "3"; item 4 false "4"; item 5 false "5"; item 6 true "6T"; item 6 false "6";
    item 7 false "7"; item 8 false "8"; item 9 true "9T"; item 9 false "9"; item 10 false "10";
    item 11 false "11"; item 12 true "12T"; item 12 false "12"; item 13 false "13";
    item 14 false "14"; item 15 true "15T"; item 15 false "15"; item 16 false "16";
    item 17 false "17"; item 18 true "18" ].

Inductive CombinationType := SINGLE | SINGLE_2X | SINGLE_3X | DOUBLE | TRIPLE | ANY_TRIPLE.

(** A row of the panel of combinations. *)
Record CombinationItem := {
  ci_type : CombinationType;
  ci_target : option Z;
  ci_label : string;
}.

Definition six_items (type : CombinationType) (labels : list string) : list CombinationItem :=
  zip_with (fun target label => {| ci_type := type; ci_target := Some target; ci_label := label |})
    [1; 2; 3; 4; 5; 6] labels.

(** The sign in the labels is the UTF-8 form of U+00D7. *)
Definition times : string := String (Ascii.ascii_of_nat 195) (String (Ascii.ascii_of_nat 151) "").

Definition getSicBoCombinationItems : list CombinationItem :=
  six_items SINGLE ["1"; "2"; "3"; "4"; "5"; "6"]
  ++ six_items SINGLE_2X ((fun n => n +:+ times +:+ "2") <$> ["1"; "2"; "3"; "4"; "5"; "6"])
  ++ six_items SINGLE_3X ((fun n => n +:+ times +:+ "3") <$> ["1"; "2"; "3"; "4"; "5"; "6"])
  ++ six_items DOUBLE ["1-1"; "2-2"; "3-3"; "4-4"; "5-5"; "6-6"]
  ++ six_items TRIPLE ["1-1-1"; "2-2-2"; "3-3-3"; "4-4-4"; "5-5-5"; "6-6-6"]
  ++ [{| ci_type := ANY_TRIPLE; ci_target := None; ci_label := "ANY 3" |}].

(** The legacy list; the quotients [total / 3] are whole. *)
Definition getSicBoCombinations : list (Z * list Z * bool * string) :=
  (fun i =>
     (ti_total i,
      (if ti_isTriple i then [ti_total i / 3; ti_total i / 3; ti_total i / 3]
       else [1; 1; ti_total i - 2]),
      ti_isTriple i, ti_label i)) <$> getSicBoTotalItems.

Definition sicBoTotalPayout (total : Z) : Z :=
  if (total =? 3) || (total =? 18) then 180
  else if (total =? 4) || (total =? 17) then 50
  else if (total =? 5) || (total =? 16) then 18
  else if (total =? 6) || (total =? 15) then 14
  else if (total =? 7) || (total =? 14) then 12
  else if (total =? 8) || (total =? 13) then 8
  else if (total =? 9) || (total =? 10) || (total =? 11) || (total =? 12) then 6
  else 0.

(** [if (win > 0) pnl += win; else pnl -= b.amount]. *)
Definition settle_win (pnl win amount : Z) : Z :=
  if 0 <? win then js_add pnl win else js_sub pnl amount.

(** [if (cond) win = b.amount * k]. *)
Definition win_if (cond : bool) (amount k : Z) : Z := if cond then js_mul amount k else 0.

(** [target === n] for a target that may be undefined. *)
Definition is_target (target : option Z) (n : Z) : bool :=
  match target with Some t => t =? n | None => false end.

Definition isTotalBet (b : SicBoBet) : bool :=
  match sb_type b with Sic_SMALL | Sic_BIG | Sic_SUM => true | _ => false end.

Definition totalWin (total : Z) (isTriple : bool) (b : SicBoBet) : Z :=
  match sb_type b with
  | Sic_SMALL => win_if (negb isTriple && in_range 4 10 total) (sb_amount b) 1
  | Sic_BIG => win_if (negb isTriple && in_range 11 17 total) (sb_amount b) 1
  | Sic_SUM => win_if (is_target (sb_target b) total) (sb_amount b) (sicBoTotalPayout total)
  | _ => 0
  end.

Definition calculateSicBoTotalExposure (total : Z) (isTriple : bool) (bets : list SicBoBet) : Z :=
  fold_left (fun pnl b => settle_win pnl (totalWin total isTriple b) (sb_amount b))
    (List.filter isTotalBet bets) 0.

Definition isComboBet (b : SicBoBet) : bool :=
  match sb_type b with
  | Sic_SINGLE_DIE | Sic_DOUBLE_SPECIFIC | Sic_TRIPLE_SPECIFIC | Sic_TRIPLE_ANY => true
  | _ => false
  end.

(** [b.target === target], both possibly undefined. *)
Definition same_target (b : SicBoBet) (target : option Z) : bool :=
  bool_decide (sb_target b = target).

Definition comboWin (type : CombinationType) (target : option Z) (b : SicBoBet) : Z :=
  let on := same_target b target in
  match type, sb_type b with
  | SINGLE, Sic_SINGLE_DIE => win_if on (sb_amount b) 1
  | SINGLE_2X, Sic_SINGLE_DIE => win_if on (sb_amount b) 2
  | SINGLE_2X, Sic_DOUBLE_SPECIFIC => win_if on (sb_amount b) 8
  | SINGLE_3X, Sic_SINGLE_DIE => win_if on (sb_amount b) 3
  | SINGLE_3X, Sic_TRIPLE_SPECIFIC => win_if on (sb_amount b) 150
  | SINGLE_3X, Sic_TRIPLE_ANY => win_if true (sb_amount b) 24
  | DOUBLE, Sic_DOUBLE_SPECIFIC => win_if on (sb_amount b) 8
  | TRIPLE, Sic_TRIPLE_SPECIFIC => win_if on (sb_amount b) 150
  | ANY_TRIPLE, Sic_TRIPLE_ANY => win_if true (sb_amount b) 24
  | TRIPLE, Sic_TRIPLE_ANY => win_if true (sb_amount b) 24
  | _, _ => 0
  end.

Definition calculateSicBoCombinationExposure (type : CombinationType) (target : option Z)
    (bets : list SicBoBet) : Z :=
  fold_left (fun pnl b => settle_win pnl (comboWin type target b) (sb_amount b))
    (List.filter isComboBet bets) 0.

(** [[d1, d2, d3].filter(d => d === n).length], [.includes(n)]. *)
Definition count (dice : Dice) (n : Z) : Z :=
  let '(d1, d2, d3) := dice in len (List.filter (fun d => d =? n) [d1; d2; d3]).
Definition includes (dice : Dice) (n : Z) : bool :=
  let '(d1, d2, d3) := dice in existsb (fun d => d =? n) [d1; d2; d3].

(** [(1 << (d1 - 1)) | (1 << (d2 - 1)) | (1 << (d3 - 1))]. *)
Definition js_dice_mask (dice : Dice) : Z :=
  let '(d1, d2, d3) := dice in js_or (js_or (js_shl 1 (d1 - 1)) (js_shl 1 (d2 - 1))) (js_shl 1 (d3 - 1)).

Definition outcomeWin (dice : Dice) (b : SicBoBet) : Z :=
  let '(d1, d2, d3) := dice in
  let sum := d1 + d2 + d3 in
  let isTriple := (d1 =? d2) && (d2 =? d3) in
  let isDistinct := negb (d1 =? d2) && negb (d1 =? d3) && negb (d2 =? d3) in
  let diceMask := js_dice_mask dice in
  let amount := sb_amount b in
  match sb_type b, sb_target b with
  | Sic_SMALL, _ => win_if ((4 <=? sum) && (sum <=? 10) && negb isTriple) amount 1
  | Sic_BIG, _ => win_if ((11 <=? sum) && (sum <=? 17) && negb isTriple) amount 1
  | Sic_ODD, _ => win_if ((Z.rem sum 2 =? 1) && negb isTriple) amount 1
  | Sic_EVEN, _ => win_if ((Z.rem sum 2 =? 0) && negb isTriple) amount 1
  | Sic_SUM, t => win_if (is_target t sum) amount (sicBoTotalPayout sum)
  | Sic_TRIPLE_ANY, _ => win_if isTriple amount 24
  | Sic_TRIPLE_SPECIFIC, t => win_if (isTriple && is_target t d1) amount 150
  | Sic_DOUBLE_SPECIFIC, Some t => win_if (2 <=? count dice t) amount 8
  | Sic_DOMINO, Some t =>
      let min := js_and (js_shr t 4) 15 in
      let max := js_and t 15 in
      win_if (includes dice min && includes dice max) amount 5
  | Sic_HOP3_EASY, Some t => win_if (isDistinct && (js_and diceMask t =? diceMask)) amount 30
  | Sic_HOP3_HARD, Some t =>
      let doubled := js_and (js_shr t 4) 15 in
      let single := js_and t 15 in
      win_if ((count dice doubled =? 2) && (count dice single =? 1)) amount 50
  | Sic_HOP4_EASY, Some t => win_if (isDistinct && (js_and diceMask t =? diceMask)) amount 7
  | Sic_SINGLE_DIE, Some t =>
      let n := count dice t in
      if n =? 1 then win_if true amount 1
      else if n =? 2 then win_if true amount 2
      else if n =? 3 then win_if true amount 3
      else 0
  | _, None => 0
  end.

Definition calculateSicBoOutcomeExposure (combo : Dice) (bets : list SicBoBet) : Z :=
  fold_left (fun pnl b => settle_win pnl (outcomeWin combo b) (sb_amount b)) bets 0.

Definition SICBO_COMBOS : list Dice :=
  d1 ← seqZ 1 6; d2 ← seqZ 1 6; d3 ← seqZ 1 6; [(d1, d2, d3)].

Definition getSicBoMaxWin (bets : list SicBoBet) : Z :=
  match bets with
  | [] => 0
  | _ =>
      match max_over (fun combo => calculateSicBoOutcomeExposure combo bets) SICBO_COMBOS with
      | Some max => Z.max 0 max
      | None => 0
      end
  end.

(** ** From the website to the chain *)

Definition web_bet (b : SicBoBet) : WebBets.SicBoBet :=
  {| ws_type := sb_type b; ws_target := sb_target b; ws_amount := Finite (inject_Z (sb_amount b)) |}.

(** The bet that the chain reads from the payload of a bet. *)
Definition chain_bet (b : SicBoBet) : option ChainBet :=
  match sicBoBetToNumeric (web_bet b) with
  | Ok (code, number, _) =>
      t ← BetType_try_from code;
      Some {| cb_type := t; cb_number := number; cb_amount := sb_amount b |}
  | Throw _ => None
  end.

Definition accepted (b : SicBoBet) : bool :=
  match chain_bet b with
  | Some c => in_range 0 255 (cb_number c) && is_valid_bet_number (cb_type c) (cb_number c)
  | None => false
  end.

Definition stake (bets : list SicBoBet) : Z := zsum sb_amount bets.

Definition type_of (type : SicBoBetName) : BetType :=
  match type with
  | Sic_SMALL => Small
  | Sic_BIG => Big
  | Sic_ODD => Odd
  | Sic_EVEN => Even
  | Sic_TRIPLE_SPECIFIC => SpecificTriple
  | Sic_TRIPLE_ANY => AnyTriple
  | Sic_DOUBLE_SPECIFIC => SpecificDouble
  | Sic_SUM => Total
  | Sic_SINGLE_DIE => Single
  | Sic_DOMINO => Domino
  | Sic_HOP3_EASY => ThreeNumberEasyHop
  | Sic_HOP3_HARD => ThreeNumberHardHop
  | Sic_HOP4_EASY => FourNumberEasyHop
  end.

Lemma sicbo_accepted_chain b :
  accepted b = true ->
  chain_bet b = Some {| cb_type := type_of (sb_type b); cb_number := default 0 (sb_target b);
                        cb_amount := sb_amount b |}
  /\ 0 < sb_amount b /\ 0 <= default 0 (sb_target b) <= 255
  /\ is_valid_bet_number (type_of (sb_type b)) (default 0 (sb_target b)) = true.
Proof.
  unfold accepted, chain_bet, sicBoBetToNumeric, web_bet. cbn [ws_amount ws_type ws_target].
  destruct (validAmount (Finite (inject_Z (sb_amount b)))) eqn:V.
  2:{ destruct (validateBetAmount_refused _ "SicBoBet" V) as [msg ->]. done. }
  rewrite validateBetAmount_ok by done. cbn in V. cbn [mbind result_bind].
  assert (BetType_try_from (sicBoBetTypeMap (sb_type b)) = Some (type_of (sb_type b))) as ->
    by by destruct (sb_type b).
  cbn. unfold in_range. intros H. bprop. split_and!; try lia; done.
Qed.

(** ** One bet on one roll

    A payout and a win agree when one multiplier explains both. *)

Definition agree (amount payout win : Z) : Prop :=
  exists k, 0 <= k <= 180 /\ win = amount * k /\ payout = if k =? 0 then 0 else amount * (k + 1).

Lemma agree_pays c c' amount k :
  c = c' -> 0 <= amount -> 181 * amount <= 2 ^ 53 -> 1 <= k <= 180 ->
  agree amount (pays c amount k) (win_if c' amount k).
Proof.
  intros <- H0 Ha Hk. unfold agree, pays, win_if. destruct c; [exists k|exists 0; split; [lia|]; split; [lia|done]].
  split; [lia|]. rewrite js_mul_exact by nia. rewrite saturating_add_exact by (unfold u64_max; lia).
  rewrite saturating_mul_exact by (unfold u64_max; nia). by rewrite (proj2 (Z.eqb_neq _ _)) by lia.
Qed.

Lemma agree_none amount : agree amount 0 0.
Proof. exists 0. split; [lia|]. split; [lia|done]. Qed.

Lemma js_and_byte a m : 0 <= a < 2 ^ 31 -> 0 <= m < 2 ^ 31 -> js_and a m = Z.land a m.
Proof. intros Ha Hm. unfold js_and. by rewrite !to_int32_id by lia. Qed.

Lemma nibbles t : 0 <= t <= 255 -> js_and (js_shr t 4) 15 = high_nibble t /\ js_and t 15 = low_nibble t.
Proof.
  intros H. unfold high_nibble, low_nibble. rewrite js_shr_id by lia.
  rewrite Z.shiftr_div_pow2 by lia. split; apply js_and_byte; try lia.
  split; [apply Z.div_pos; lia|apply Z.div_lt_upper_bound; lia].
Qed.

(** What holds of the 216 rolls holds of every roll. *)
Lemma combos_forall (P : Dice -> bool) dice : forallb P SICBO_COMBOS = true -> roll dice -> P dice = true.
Proof.
  intros H Hr. rewrite forallb_forall in H. apply H, list_elem_of_In.
  destruct dice as [[d1 d2] d3]. unfold roll, die in Hr. unfold SICBO_COMBOS.
  apply list_elem_of_bind. exists d1. split; [|apply elem_of_seqZ; lia].
  apply list_elem_of_bind. exists d2. split; [|apply elem_of_seqZ; lia].
  apply list_elem_of_bind. exists d3. split; [set_solver|apply elem_of_seqZ; lia].
Qed.

Lemma js_dice_mask_eq dice : roll dice -> js_dice_mask dice = dice_mask dice /\ 0 <= dice_mask dice < 64.
Proof.
  intros Hr.
  pose proof (combos_forall (fun d => (js_dice_mask d =? dice_mask d) && (0 <=? dice_mask d)
    && (dice_mask d <? 64)) dice ltac:(by vm_compute) Hr) as H.
  cbv beta in H. bprop. lia.
Qed.

Lemma hop_eq dice t :
  roll dice -> 0 <= t <= 255 ->
  (js_and (js_dice_mask dice) t =? js_dice_mask dice) = (Z.land (dice_mask dice) t =? dice_mask dice).
Proof.
  intros Hr Ht. destruct (js_dice_mask_eq dice Hr) as [-> Hm]. by rewrite js_and_byte by lia.
Qed.

Lemma count_includes dice n : includes dice n = (1 <=? count_number dice n).
Proof.
  destruct dice as [[d1 d2] d3]. unfold includes, count_number. cbn.
  by destruct (d1 =? n), (d2 =? n), (d3 =? n).
Qed.

Lemma roll_sum d1 d2 d3 : roll (d1, d2, d3) -> 3 <= d1 + d2 + d3 <= 18.
Proof. unfold roll, die. lia. Qed.

Lemma total_payout_eq n : total_payout n Macau = sicBoTotalPayout n.
Proof.
  unfold total_payout, sicBoTotalPayout.
  destruct (n =? 9), (n =? 10), (n =? 11), (n =? 12); by rewrite ?orb_true_r, ?orb_false_r.
Qed.

Lemma total_payout_bounds n : 3 <= n <= 18 -> 1 <= sicBoTotalPayout n <= 180.
Proof.
  intros H. unfold sicBoTotalPayout.
  repeat (split_if; [lia|]). repeat match goal with H : _ |- _ => progress bprop end. lia.
Qed.

Lemma Zrem_mod_nonneg a n : 0 <= a -> 0 < n -> Z.rem a n = a mod n.
Proof. intros. apply Z.rem_mod_nonneg; lia. Qed.

(** The payout of the chain and the win of the website agree on every bet the
    chain accepts. *)
Lemma sicbo_one_bet b dice :
  accepted b = true -> roll dice -> 181 * sb_amount b <= 2 ^ 53 ->
  agree (sb_amount b)
    (calculate_bet_payout {| cb_type := type_of (sb_type b); cb_number := default 0 (sb_target b);
                             cb_amount := sb_amount b |} dice Macau)
    (outcomeWin dice b).
Proof.
  intros Ha Hr Hb. destruct (sicbo_accepted_chain b Ha) as (_ & Hpos & Hn & Hv).
  assert (Hamt : forall c c' k, c = c' -> 1 <= k <= 180 ->
    agree (sb_amount b) (pays c (sb_amount b) k) (win_if c' (sb_amount b) k))
    by (intros; apply agree_pays; [done|lia|lia|lia]).
  destruct dice as [[d1 d2] d3]. pose proof (roll_sum _ _ _ Hr) as Hsum.
  unfold calculate_bet_payout, outcomeWin. cbn [cb_type cb_number cb_amount].
  unfold dice_sum, is_triple, dice_all_distinct, in_range in *.
  rewrite !Zrem_mod_nonneg by lia.
  destruct b as [type target amount]. cbn [sb_type sb_target sb_amount] in *.
  destruct type; cbn [type_of] in *;
    try (apply Hamt; [by rewrite ?andb_true_r, ?(andb_comm (negb _))|lia]).
  - (* TRIPLE_SPECIFIC *)
    destruct target as [t|]; cbn [default from_option id is_target] in *; [|done].
    apply Hamt; [|lia]. by rewrite (Z.eqb_sym t).
  - destruct target as [t|]; cbn [default from_option id] in *; [by apply Hamt|done].
  - (* SUM *)
    destruct target as [t|]; cbn [default from_option id is_target is_valid_bet_number] in *; [|done].
    unfold in_range in Hv. bprop. rewrite total_payout_eq, (Z.eqb_sym t).
    destruct (d1 + d2 + d3 =? t) eqn:E; bprop; [|apply agree_none].
    rewrite E. apply (Hamt true true); [done|]. by apply total_payout_bounds.
  - (* SINGLE_DIE *)
    destruct target as [t|]; cbn [default from_option id] in *; [|done]. fold (count_number (d1, d2, d3) t).
    change (count (d1, d2, d3) t) with (count_number (d1, d2, d3) t).
    repeat (split_if; [apply (Hamt true true); [done|lia]|]). apply agree_none.
  - (* DOMINO *)
    destruct target as [t|]; cbn [default from_option id is_valid_bet_number] in *; [|done]. unfold in_range in Hv.
    destruct (nibbles t Hn) as [-> ->]. rewrite !count_includes.
    bprop. zcmp. by apply Hamt.
  - (* HOP3_EASY *)
    destruct target as [t|]; cbn [default from_option id is_valid_bet_number] in *; [|done].
    apply andb_true_iff in Hv as [-> ->]. rewrite (hop_eq _ t Hr Hn). by apply Hamt.
  - (* HOP3_HARD *)
    destruct target as [t|]; cbn [default from_option id is_valid_bet_number] in *; [|done].
    unfold in_range in Hv. destruct (nibbles t Hn) as [-> ->]. bprop. zcmp. by apply Hamt.
  - (* HOP4_EASY *)
    destruct target as [t|]; cbn [default from_option id is_valid_bet_number] in *; [|done].
    apply andb_true_iff in Hv as [-> ->]. rewrite (hop_eq _ t Hr Hn). by apply Hamt.
Qed.

(** ** Rounds *)

Definition delta (win : SicBoBet -> Z) (b : SicBoBet) : Z :=
  if 0 <? win b then win b else - sb_amount b.

(** An accumulated profit is exact when the wins are multiples of the stakes. *)
Lemma settle_sum (win : SicBoBet -> Z) bets :
  Forall (fun b => 0 <= sb_amount b) bets -> 180 * stake bets <= 2 ^ 53 ->
  (forall b, b ∈ bets -> 0 <= win b <= 180 * sb_amount b) ->
  fold_left (fun pnl b => settle_win pnl (win b) (sb_amount b)) bets 0 = zsum (delta win) bets.
Proof.
  intros Hp Hb Hw. rewrite (fold_exact _ (delta win)); [lia| |].
  - etransitivity; [|exact Hb]. rewrite Z.add_0_l. unfold stake. rewrite <- zsum_scale.
    apply zsum_le. intros b Hin. pose proof (Hw b Hin).
    rewrite Forall_forall in Hp. specialize (Hp b Hin). cbn in Hp. unfold delta. split_if; lia.
  - intros p b Hin. unfold settle_win, delta. split_if; intros Hle.
    + apply js_add_exact. lia.
    + rewrite js_sub_exact; lia.
Qed.

Lemma agree_win amount payout win : 0 <= amount -> agree amount payout win -> 0 <= win <= 180 * amount.
Proof. intros Ha (k & Hk & -> & _). nia. Qed.

Lemma agree_delta b payout win :
  0 < sb_amount b -> agree (sb_amount b) payout win ->
  payout = sb_amount b + (if 0 <? win then win else - sb_amount b).
Proof.
  intros Ha (k & Hk & -> & ->). destruct (k =? 0) eqn:E; bprop.
  - subst k. rewrite Z.mul_0_r. cbn. lia.
  - rewrite (proj2 (Z.ltb_lt _ _)) by nia. nia.
Qed.

Section Round.
Context (bets : list SicBoBet) (dice : Dice).
Hypothesis Haccepted : forallb accepted bets = true.
Hypothesis Hstake : 181 * stake bets <= 2 ^ 53.
Hypothesis Hroll : roll dice.

Lemma bets_nonneg : Forall (fun b => 0 <= sb_amount b) bets.
Proof using Haccepted.
  eapply Forall_impl; [by apply forallb_Forall_true|]. intros b Hb.
  destruct (sicbo_accepted_chain b Hb) as (_ & ? & _). lia.
Qed.

Lemma bet_facts b :
  b ∈ bets -> accepted b = true /\ 0 < sb_amount b /\ 181 * sb_amount b <= 2 ^ 53.
Proof using Haccepted Hstake.
  intros Hin. pose proof (zsum_member sb_amount _ _ bets_nonneg Hin) as Hm. fold (stake bets) in Hm.
  assert (Ha : accepted b = true)
    by by apply (proj1 (List.forallb_forall _ _) Haccepted), list_elem_of_In.
  destruct (sicbo_accepted_chain b Ha) as (_ & ? & _). split; [done|]. lia.
Qed.

(** The payout of a placed bet is its stake and what the win makes of it. *)
Lemma payout_delta (win : SicBoBet -> Z) b c :
  b ∈ bets -> chain_bet b = Some c -> win b = outcomeWin dice b ->
  calculate_bet_payout c dice Macau = sb_amount b + delta win b /\ 0 <= win b <= 180 * sb_amount b.
Proof using Haccepted Hstake Hroll.
  intros Hin Hc Hw. destruct (bet_facts b Hin) as (Ha & Hpos & Hb).
  pose proof (sicbo_one_bet b dice Ha Hroll Hb) as Hagree.
  destruct (sicbo_accepted_chain b Ha) as (Hc' & _). assert (E := Hc'). rewrite Hc in E. injection E as ->.
  rewrite <- Hw in Hagree. split; [by apply agree_delta|]. apply (agree_win _ _ _) in Hagree; lia.
Qed.

(** An exposure over some of the bets is what the chain makes of them. *)
Lemma exposure_of_part (part : SicBoBet -> bool) (win : SicBoBet -> Z) :
  (forall b, b ∈ bets -> part b = true -> win b = outcomeWin dice b) ->
  fold_left (fun pnl b => settle_win pnl (win b) (sb_amount b)) (List.filter part bets) 0
  = total_winnings (omap chain_bet (List.filter part bets)) dice Macau
    - stake (List.filter part bets).
Proof using Haccepted Hstake Hroll.
  intros Hw.
  assert (Hsub : forall b, b ∈ List.filter part bets -> b ∈ bets /\ part b = true).
  { intros b Hb. apply list_elem_of_In, filter_In in Hb as [Hb ?]. split; [|done]. by apply list_elem_of_In. }
  assert (Hle : stake (List.filter part bets) <= stake bets).
  { unfold stake. pose proof bets_nonneg as Hp. clear -Hp. induction Hp as [|b l Hb Hl IH]; [done|].
    cbn [List.filter]. destruct (part b); rewrite ?zsum_cons; lia. }
  rewrite settle_sum.
  - unfold total_winnings, stake. revert Hsub. clear Hle.
    induction (List.filter part bets) as [|b l IH]; intros Hsub; [done|].
    destruct (Hsub b ltac:(set_solver)) as [Hin Hpart]. destruct (bet_facts b Hin) as (Ha & _).
    destruct (sicbo_accepted_chain b Ha) as (Hc & _).
    destruct (payout_delta win b _ Hin Hc ltac:(by apply Hw)) as [Hd _].
    assert (omap chain_bet (b :: l) = _ :: omap chain_bet l) as -> by (cbn; by rewrite Hc).
    rewrite !zsum_cons, Hd, IH; [lia|]. intros b' Hb'. apply Hsub. set_solver.
  - apply Forall_forall. intros b Hb. destruct (Hsub b Hb) as [Hin _].
    destruct (bet_facts b Hin) as (_ & ? & _). lia.
  - pose proof bets_nonneg as Hp. assert (0 <= stake bets).
    { unfold stake. apply zsum_nonneg. by apply Forall_forall. } lia.
  - intros b Hb. destruct (Hsub b Hb) as [Hin Hpart]. destruct (bet_facts b Hin) as (Ha & _).
    destruct (sicbo_accepted_chain b Ha) as (Hc & _).
    by destruct (payout_delta win b _ Hin Hc ltac:(by apply Hw)).
Qed.
End Round.

Lemma filter_true {A} (l : list A) : List.filter (fun _ => true) l = l.
Proof. induction l as [|x l IH]; [done|]. cbn. by rewrite IH. Qed.


Definition sample_bets : list SicBoBet :=
  [ {| sb_type := Sic_SMALL; sb_target := None; sb_amount := 10 |};
    {| sb_type := Sic_SUM; sb_target := Some 6; sb_amount := 5 |};
    {| sb_type := Sic_HOP3_EASY; sb_target := Some 7; sb_amount := 1 |};
    {| sb_type := Sic_DOMINO; sb_target := Some 18; sb_amount := 2 |} ].


(** The row of a triple counts bets as lost that the triple wins: a roll of
    2-2-2 pays single and double bets on 2. *)
Example triple_row_understates :
  let bets := [ {| sb_type := Sic_SINGLE_DIE; sb_target := Some 2; sb_amount := 10 |};
                {| sb_type := Sic_DOUBLE_SPECIFIC; sb_target := Some 2; sb_amount := 10 |} ] in
  calculateSicBoCombinationExposure TRIPLE (Some 2) bets = -20
  /\ total_winnings (omap chain_bet bets) (2, 2, 2) Macau - stake bets = 110.
Proof. by vm_compute. Qed.

(** The maximum shown with the bets bounds the exposure of every roll, and is
    the exposure of some roll unless no roll wins anything. *)
Lemma getSicBoMaxWin_spec bets :
  bets <> [] ->
  let max := getSicBoMaxWin bets in
  (forall dice, roll dice -> calculateSicBoOutcomeExposure dice bets <= max)
  /\ (max = 0 \/ exists dice, dice ∈ SICBO_COMBOS /\ calculateSicBoOutcomeExposure dice bets = max).
Proof.
  intros Hne max. unfold max, getSicBoMaxWin. clear max. destruct bets as [|b bets]; [done|].
  destruct (max_over_spec (fun d => calculateSicBoOutcomeExposure d (b :: bets)) SICBO_COMBOS)
    as (m & -> & Hle & d & Hd & Heq); [done|]. split.
  - intros dice Hr. pose proof (combos_forall (fun d => calculateSicBoOutcomeExposure d (b :: bets) <=? m)
      dice) as H. assert (calculateSicBoOutcomeExposure dice (b :: bets) <=? m = true) as Hm.
    { apply H; [|done]. apply forallb_forall. intros x Hx%list_elem_of_In. specialize (Hle x Hx).
      cbn beta in Hle. lia. }
    lia.
  - destruct (Z_le_gt_dec m 0); [left; lia|right]. exists d. split; [done|]. cbn beta in Heq. lia.
Qed.
