(* ===== verification/Craps.v ===== *)
(** * Craps: the exposures the website shows and the settlement of the chain

    [website/src/utils/gameUtils.ts] predicts what a roll would win or lose for
    the bets that [services/games/state/craps.ts] reads from the chain's state;
    [execution/src/casino/craps.rs] settles them. *)

From S2P Require Import Prelude JsNum Constants Arith GameState.

Definition in_range (lo hi z : Z) : bool := (lo <=? z) && (z <=? hi).
Definition one_of (l : list Z) (z : Z) : bool := existsb (Z.eqb z) l.

(** ** The chain *)

Inductive Phase := ComeOut | Point.
Inductive BetStatus := On | Pending.

Inductive BetType :=
| Pass | DontPass | Come | DontCome | Field | Yes | No | Next
| Hardway4 | Hardway6 | Hardway8 | Hardway10 | Fire
| AtsSmall | AtsTall | AtsAll | Muggsy | DiffDoubles | RideLine | Replay | HotRoller.

#[export] Instance Phase_eq_dec : EqDecision Phase.
Proof. solve_decision. Defined.
#[export] Instance BetStatus_eq_dec : EqDecision BetStatus.
Proof. solve_decision. Defined.
#[export] Instance BetType_eq_dec : EqDecision BetType.
Proof. solve_decision. Defined.

(** The discriminants: what the state blob holds. *)
Definition BetType_code (t : BetType) : Z :=
  match t with
  | Pass => 0 | DontPass => 1 | Come => 2 | DontCome => 3 | Field => 4 | Yes => 5 | No => 6
  | Next => 7 | Hardway4 => 8 | Hardway6 => 9 | Hardway8 => 10 | Hardway10 => 11 | Fire => 12
  | AtsSmall => 15 | AtsTall => 16 | AtsAll => 17 | Muggsy => 18 | DiffDoubles => 19
  | RideLine => 20 | Replay => 21 | HotRoller => 22
  end.

Definition BetStatus_code (s : BetStatus) : Z := match s with On => 0 | Pending => 1 end.

Record ChainBet := {
  ch_type : BetType;
  ch_target : Z;
  ch_status : BetStatus;
  ch_amount : Z;
  ch_odds : Z;
}.

Definition is_point_total (total : Z) : bool := one_of [4; 5; 6; 8; 9; 10] total.

Definition is_valid_bet_state (bet : ChainBet) : bool :=
  let on := bool_decide (ch_status bet = On) in
  let target := ch_target bet in
  match ch_type bet with
  | Pass | DontPass => on && ((target =? 0) || is_point_total target)
  | Come | DontCome =>
      match ch_status bet with Pending => target =? 0 | On => is_point_total target end
  | Field => on && (target =? 0)
  | Yes | No => on && in_range 2 12 target && negb (target =? 7)
  | Next => on && in_range 2 12 target
  | Hardway4 => on && ((target =? 0) || (target =? 4))
  | Hardway6 => on && ((target =? 0) || (target =? 6))
  | Hardway8 => on && ((target =? 0) || (target =? 8))
  | Hardway10 => on && ((target =? 0) || (target =? 10))
  | _ => on && (target =? 0)
  end.

(** *** Payouts *)

Definition calculate_odds_payout (point odds_amount : Z) (is_pass : bool) : Z :=
  if one_of [4; 10] point then
    if is_pass then saturating_mul odds_amount 2 else saturating_div odds_amount 2
  else if one_of [5; 9] point then
    if is_pass then saturating_div (saturating_mul odds_amount 3) 2
    else saturating_div (saturating_mul odds_amount 2) 3
  else if one_of [6; 8] point then
    if is_pass then saturating_div (saturating_mul odds_amount 6) 5
    else saturating_div (saturating_mul odds_amount 5) 6
  else 0.

Definition calculate_pass_return (bet : ChainBet) (won is_pass : bool) : Z :=
  if negb won then 0
  else
    let flat_return := saturating_mul (ch_amount bet) 2 in
    let odds_return :=
      if (0 <? ch_odds bet) && (0 <? ch_target bet)
      then saturating_add (ch_odds bet) (calculate_odds_payout (ch_target bet) (ch_odds bet) is_pass)
      else 0 in
    saturating_add flat_return odds_return.

Definition calculate_field_payout (total amount : Z) : Z :=
  if total =? 2 then saturating_mul amount 3
  else if total =? 12 then saturating_mul amount 4
  else if one_of [3; 4; 9; 10; 11] total then saturating_mul amount 2
  else 0.

(** The stake and the true odds less one percent. *)
Definition less_commission (amount true_odds : Z) : Z :=
  saturating_add amount (saturating_sub true_odds (saturating_div true_odds 100)).

Definition calculate_yes_payout (target amount : Z) (hit : bool) : Z :=
  if negb hit then 0
  else
    less_commission amount
      (if one_of [2; 12] target then saturating_mul amount 6
       else if one_of [3; 11] target then saturating_mul amount 3
       else if one_of [4; 10] target then saturating_mul amount 2
       else if one_of [5; 9] target then saturating_div (saturating_mul amount 3) 2
       else if one_of [6; 8] target then saturating_div (saturating_mul amount 6) 5
       else amount).

Definition calculate_no_payout (target amount : Z) (seven_hit : bool) : Z :=
  if negb seven_hit then 0
  else
    less_commission amount
      (if one_of [2; 12] target then saturating_div amount 6
       else if one_of [3; 11] target then saturating_div amount 3
       else if one_of [4; 10] target then saturating_div amount 2
       else if one_of [5; 9] target then saturating_div (saturating_mul amount 2) 3
       else if one_of [6; 8] target then saturating_div (saturating_mul amount 5) 6
       else amount).

Definition WAYS_table : list Z := [0; 0; 1; 2; 3; 4; 5; 6; 5; 4; 3; 2; 1].

Definition calculate_next_payout (target total amount : Z) : Z :=
  if negb (total =? target) then 0
  else
    let ways := default 0 (WAYS_table !! Z.to_nat target) in
    if ways =? 0 then 0
    else
      let multiplier :=
        if ways =? 1 then 35 else if ways =? 2 then 17 else if ways =? 3 then 11
        else if ways =? 4 then 8 else if ways =? 5 then 6 else if ways =? 6 then 5 else 1 in
      less_commission amount (saturating_mul amount multiplier).

(** The bit of a total or a point in a progress mask. *)
Definition bit_for (table : list (Z * Z)) (z : Z) : option Z :=
  snd <$> List.find (fun p => p.1 =? z) table.

Definition ats_bit_for_total (total : Z) : Z :=
  match bit_for [(2, 0); (3, 1); (4, 2); (5, 3); (6, 4); (8, 5); (9, 6); (10, 7); (11, 8); (12, 9)] total with
  | Some bit => Z.shiftl 1 bit
  | None => 0
  end.

Definition ats_required_mask (t : BetType) : Z :=
  match t with
  | AtsSmall => 31
  | AtsTall => 992
  | AtsAll => 1023
  | _ => 0
  end.

Definition ats_payout_to_1 (t : BetType) : Z :=
  match t with AtsSmall => 30 | AtsTall => 30 | AtsAll => 150 | _ => 0 end.

(** The tables of the bonus bets. *)
Definition diff_doubles_payout_to_1 (count : Z) : Z :=
  default 0 ([0; 0; 0; 4; 8; 15; 100] !! Z.to_nat count).

Definition ride_line_payout_to_1 (wins : Z) : Z :=
  if wins =? 3 then 1 else if wins =? 4 then 2 else if wins =? 5 then 3 else if wins =? 6 then 6
  else if wins =? 7 then 10 else if wins =? 8 then 20 else if wins =? 9 then 30
  else if wins =? 10 then 40 else if 11 <=? wins then 100 else 0.

Definition replay_payout_to_1 (mask : Z) : Z :=
  fold_left (fun payout '(point, shift) =>
      let count := Z.land (Z.shiftr mask shift) 15 in
      let point_payout :=
        if one_of [4; 10] point then if 4 <=? count then 1000 else if 3 <=? count then 120 else 0
        else if one_of [5; 9] point then if 4 <=? count then 500 else if 3 <=? count then 95 else 0
        else if one_of [6; 8] point then if 4 <=? count then 100 else if 3 <=? count then 70 else 0
        else 0 in
      Z.max payout point_payout)
    [(4, 0); (5, 4); (6, 8); (8, 12); (9, 16); (10, 20)] 0.

Definition hot_roller_completed_points (mask : Z) : Z :=
  len (List.filter (fun mask_req => Z.land mask mask_req =? mask_req) [3; 12; 112; 896; 3072; 12288]).

Definition hot_roller_payout_to_1 (completed_points : Z) : Z :=
  default 0 ([0; 0; 5; 10; 20; 50; 200] !! Z.to_nat completed_points).

Definition calculate_hardway_payout (target d1 d2 total amount : Z) : option Z :=
  let is_hard := (d1 =? d2) && (saturating_mul8 d1 2 =? target) in
  let is_easy := negb is_hard && (total =? target) in
  let is_seven := total =? 7 in
  if is_hard then
    let winnings :=
      if one_of [4; 10] target then saturating_mul amount 7
      else if one_of [6; 8] target then saturating_mul amount 9
      else amount in
    Some (saturating_add amount winnings)
  else if is_easy || is_seven then Some 0
  else None.

(** *** The arms of [process_roll]

    What a roll does to one bet of the main table: a result when it resolves.
    The bonus bets without an exposure on the website are left out. *)

Record BetResult := { return_amount : Z; wagered : Z }.

Definition field_result (total : Z) (bet : ChainBet) : option BetResult :=
  Some {| return_amount := calculate_field_payout total (ch_amount bet); wagered := ch_amount bet |}.

Definition next_result (total : Z) (bet : ChainBet) : option BetResult :=
  Some {| return_amount := calculate_next_payout (ch_target bet) total (ch_amount bet);
          wagered := ch_amount bet |}.

Definition hardway_result (target d1 d2 : Z) (bet : ChainBet) : option BetResult :=
  payout ← calculate_hardway_payout target d1 d2 (saturating_add8 d1 d2) (ch_amount bet);
  Some {| return_amount := payout; wagered := ch_amount bet |}.

Definition yes_no_result (total : Z) (bet : ChainBet) : option BetResult :=
  if negb (bool_decide (ch_status bet = On)) then None
  else
    match ch_type bet with
    | Yes =>
        if total =? ch_target bet
        then Some {| return_amount := calculate_yes_payout (ch_target bet) (ch_amount bet) true;
                     wagered := ch_amount bet |}
        else if total =? 7
        then Some {| return_amount := calculate_yes_payout (ch_target bet) (ch_amount bet) false;
                     wagered := ch_amount bet |}
        else None
    | No =>
        if total =? 7
        then Some {| return_amount := calculate_no_payout (ch_target bet) (ch_amount bet) true;
                     wagered := ch_amount bet |}
        else if total =? ch_target bet
        then Some {| return_amount := calculate_no_payout (ch_target bet) (ch_amount bet) false;
                     wagered := ch_amount bet |}
        else None
    | _ => None
    end.

(** A completed bet wins at once; any 7 loses it. *)
Definition ats_result (total : Z) (bet : ChainBet) : option BetResult :=
  let ats_bit := ats_bit_for_total total in
  if negb (ats_bit =? 0) then
    let progress := Z.lor (ch_odds bet) ats_bit in
    let required := ats_required_mask (ch_type bet) in
    if negb (required =? 0) && (Z.land progress required =? required)
    then Some {| return_amount := saturating_mul (ch_amount bet)
                   (saturating_add (ats_payout_to_1 (ch_type bet)) 1);
                 wagered := ch_amount bet |}
    else None
  else if total =? 7 then Some {| return_amount := 0; wagered := ch_amount bet |}
  else None.

Definition come_win (bet : ChainBet) (is_pass : bool) : Z :=
  saturating_add (saturating_add (saturating_mul (ch_amount bet) 2) (ch_odds bet))
    (calculate_odds_payout (ch_target bet) (ch_odds bet) is_pass).

Definition come_result (total : Z) (bet : ChainBet) : option BetResult :=
  match ch_status bet with
  | Pending =>
      if one_of [7; 11] total
      then Some {| return_amount := saturating_mul (ch_amount bet) 2; wagered := ch_amount bet |}
      else if one_of [2; 3; 12] total
      then Some {| return_amount := 0; wagered := ch_amount bet |}
      else None
  | On =>
      if total =? ch_target bet
      then Some {| return_amount := come_win bet true;
                   wagered := saturating_add (ch_amount bet) (ch_odds bet) |}
      else if total =? 7
      then Some {| return_amount := 0; wagered := saturating_add (ch_amount bet) (ch_odds bet) |}
      else None
  end.

Definition dont_come_result (total : Z) (bet : ChainBet) : option BetResult :=
  match ch_status bet with
  | Pending =>
      if one_of [2; 3] total
      then Some {| return_amount := saturating_mul (ch_amount bet) 2; wagered := ch_amount bet |}
      else if total =? 12
      then Some {| return_amount := ch_amount bet; wagered := ch_amount bet |}
      else if one_of [7; 11] total
      then Some {| return_amount := 0; wagered := ch_amount bet |}
      else None
  | On =>
      if total =? 7
      then Some {| return_amount := come_win bet false;
                   wagered := saturating_add (ch_amount bet) (ch_odds bet) |}
      else if total =? ch_target bet
      then Some {| return_amount := 0; wagered := saturating_add (ch_amount bet) (ch_odds bet) |}
      else None
  end.

(** [process_pass_bets]. *)
Definition pass_result (phase : Phase) (main_point total : Z) (bet : ChainBet) : option BetResult :=
  let all := saturating_add (ch_amount bet) (ch_odds bet) in
  match ch_type bet, phase with
  | Pass, ComeOut =>
      if one_of [7; 11] total
      then Some {| return_amount := saturating_mul (ch_amount bet) 2; wagered := ch_amount bet |}
      else if one_of [2; 3; 12] total
      then Some {| return_amount := 0; wagered := ch_amount bet |}
      else None
  | Pass, Point =>
      if total =? main_point
      then Some {| return_amount := calculate_pass_return bet true true; wagered := all |}
      else if total =? 7 then Some {| return_amount := 0; wagered := all |}
      else None
  | DontPass, ComeOut =>
      if one_of [7; 11] total
      then Some {| return_amount := 0; wagered := ch_amount bet |}
      else if one_of [2; 3] total
      then Some {| return_amount := saturating_mul (ch_amount bet) 2; wagered := ch_amount bet |}
      else if total =? 12
      then Some {| return_amount := ch_amount bet; wagered := ch_amount bet |}
      else None
  | DontPass, Point =>
      if total =? 7
      then Some {| return_amount := calculate_pass_return bet true false; wagered := all |}
      else if total =? main_point then Some {| return_amount := 0; wagered := all |}
      else None
  | _, _ => None
  end.

Definition roll_result (phase : Phase) (main_point d1 d2 : Z) (bet : ChainBet) : option BetResult :=
  let total := saturating_add8 d1 d2 in
  match ch_type bet with
  | Field => field_result total bet
  | Next => next_result total bet
  | Hardway4 => hardway_result 4 d1 d2 bet
  | Hardway6 => hardway_result 6 d1 d2 bet
  | Hardway8 => hardway_result 8 d1 d2 bet
  | Hardway10 => hardway_result 10 d1 d2 bet
  | Yes | No => yes_no_result total bet
  | AtsSmall | AtsTall | AtsAll => ats_result total bet
  | Come => come_result total bet
  | DontCome => dont_come_result total bet
  | Pass | DontPass => pass_result phase main_point total bet
  | _ => None
  end.

(** ** The website *)

Inductive CrapsBetStatus := PENDING | ON.

#[export] Instance CrapsBetStatus_eq_dec : EqDecision CrapsBetStatus.
Proof. solve_decision. Defined.

Record CrapsBet := {
  wc_type : CrapsBetName;
  wc_amount : Z;
  wc_target : option Z;
  wc_oddsAmount : option Z;
  wc_progressMask : option Z;
  wc_status : option CrapsBetStatus;
}.

(** [WAYS[target]], undefined outside of 2 to 12. *)
Definition WAYS (target : Z) : option Z :=
  snd <$> List.find (fun p => p.1 =? target)
    [(2, 1); (3, 2); (4, 3); (5, 4); (6, 5); (7, 6); (8, 5); (9, 4); (10, 3); (11, 2); (12, 1)].

Definition crapsPassOddsPayout (point oddsAmount : Z) : Z :=
  if one_of [4; 10] point then js_mul oddsAmount 2
  else if one_of [5; 9] point then js_floor_div (js_mul oddsAmount 3) 2
  else if one_of [6; 8] point then js_floor_div (js_mul oddsAmount 6) 5
  else 0.

Definition crapsDontPassOddsPayout (point oddsAmount : Z) : Z :=
  if one_of [4; 10] point then js_floor_div oddsAmount 2
  else if one_of [5; 9] point then js_floor_div (js_mul oddsAmount 2) 3
  else if one_of [6; 8] point then js_floor_div (js_mul oddsAmount 5) 6
  else 0.

Definition applyCrapsCommission1Pct (winnings : Z) : Z :=
  js_sub winnings (js_floor_div winnings 100).

Definition crapsYesPayout (target amount : Z) : Z :=
  applyCrapsCommission1Pct
    (if one_of [2; 12] target then js_mul amount 6
     else if one_of [3; 11] target then js_mul amount 3
     else if one_of [4; 10] target then js_mul amount 2
     else if one_of [5; 9] target then js_floor_div (js_mul amount 3) 2
     else if one_of [6; 8] target then js_floor_div (js_mul amount 6) 5
     else amount).

Definition crapsNoPayout (target amount : Z) : Z :=
  applyCrapsCommission1Pct
    (if one_of [2; 12] target then js_floor_div amount 6
     else if one_of [3; 11] target then js_floor_div amount 3
     else if one_of [4; 10] target then js_floor_div amount 2
     else if one_of [5; 9] target then js_floor_div (js_mul amount 2) 3
     else if one_of [6; 8] target then js_floor_div (js_mul amount 5) 6
     else amount).

Definition crapsNextPayout (target amount : Z) : Z :=
  let ways := default 0 (WAYS target) in
  let multiplier :=
    if ways =? 1 then 35 else if ways =? 2 then 17 else if ways =? 3 then 11
    else if ways =? 4 then 8 else if ways =? 5 then 6 else if ways =? 6 then 5 else 1 in
  applyCrapsCommission1Pct (js_mul amount multiplier).

Definition crapsHardwayPayout (target amount : Z) : Z :=
  if one_of [4; 10] target then js_mul amount 7
  else if one_of [6; 8] target then js_mul amount 9
  else 0.

Definition atsBitForTotal (total : Z) : Z :=
  if total =? 2 then js_shl 1 0 else if total =? 3 then js_shl 1 1
  else if total =? 4 then js_shl 1 2 else if total =? 5 then js_shl 1 3
  else if total =? 6 then js_shl 1 4 else if total =? 8 then js_shl 1 5
  else if total =? 9 then js_shl 1 6 else if total =? 10 then js_shl 1 7
  else if total =? 11 then js_shl 1 8 else if total =? 12 then js_shl 1 9
  else 0.

(** [(1 << i) | (1 << j) | ...]. *)
Definition bits (l : list Z) : Z := fold_left (fun m i => js_or m (js_shl 1 i)) l 0.

Definition atsRequiredMask (type : CrapsBetName) : Z :=
  let small := bits [0; 1; 2; 3; 4] in
  let tall := bits [5; 6; 7; 8; 9] in
  match type with
  | Craps_ATS_SMALL => small
  | Craps_ATS_TALL => tall
  | Craps_ATS_ALL => js_or small tall
  | _ => 0
  end.

Definition atsPayoutTo1 (type : CrapsBetName) : Z :=
  match type with
  | Craps_ATS_SMALL => 34
  | Craps_ATS_TALL => 34
  | Craps_ATS_ALL => 175
  | _ => 0
  end.

Definition crapsBetCost (bet : CrapsBet) : Z := js_add (wc_amount bet) (default 0 (wc_oddsAmount bet)).

Definition CRAPS_MAX_BETS : Z := 20.

(** [!d]: a die that is 0 was not thrown. *)
Definition canPlaceCrapsBonusBets (epochPointEstablished : bool) (dice : list Z) : bool :=
  if epochPointEstablished then false
  else
    match dice with
    | [d1; d2] => if (d1 =? 0) || (d2 =? 0) then true else d1 + d2 =? 7
    | _ => true
    end.

(** The bonus helpers of the website. *)

(** The loop [while (v > 0)], with fuel. *)
Fixpoint countBits_loop (fuel : nat) (count v : Z) : option Z :=
  match fuel with
  | O => None
  | S fuel' =>
      if 0 <? v then countBits_loop fuel' (count + js_and v 1) (js_shr v 1) else Some count
  end.

(** 32 rounds are enough: [v >>= 1] leaves at most 31 bits. *)
Definition countBits (value : Z) : option Z := countBits_loop 33 0 value.

Definition diffDoublesPayoutTo1 (count : Z) : Z :=
  if count =? 3 then 4 else if count =? 4 then 8 else if count =? 5 then 15
  else if count =? 6 then 100 else 0.

Definition rideLinePayoutTo1 (wins : Z) : Z :=
  if wins =? 3 then 2 else if wins =? 4 then 3 else if wins =? 5 then 5 else if wins =? 6 then 8
  else if wins =? 7 then 12 else if wins =? 8 then 18 else if wins =? 9 then 25
  else if wins =? 10 then 40 else if 11 <=? wins then 100 else 0.

Definition replayShiftForPoint (point : Z) : option Z :=
  if point =? 4 then Some 0 else if point =? 5 then Some 4 else if point =? 6 then Some 8
  else if point =? 8 then Some 12 else if point =? 9 then Some 16
  else if point =? 10 then Some 20 else None.

Definition replayPayoutTo1 (mask : Z) : Z :=
  fold_left (fun payout '(point, shift) =>
      let count := js_and (js_shr mask shift) 15 in
      let pointPayout :=
        if one_of [4; 10] point then if 4 <=? count then 1000 else if 3 <=? count then 120 else 0
        else if one_of [5; 9] point then if 4 <=? count then 500 else if 3 <=? count then 95 else 0
        else if one_of [6; 8] point then if 4 <=? count then 100 else if 3 <=? count then 70 else 0
        else 0 in
      Z.max payout pointPayout)
    [(4, 0); (5, 4); (6, 8); (8, 12); (9, 16); (10, 20)] 0.

Definition hotRollerBitForRoll (d1 d2 : Z) : Z :=
  let '(a, b) := if d1 <=? d2 then (d1, d2) else (d2, d1) in
  let at_ x y := (a =? x) && (b =? y) in
  if at_ 1 3 then js_shl 1 0 else if at_ 2 2 then js_shl 1 1
  else if at_ 1 4 then js_shl 1 2 else if at_ 2 3 then js_shl 1 3
  else if at_ 1 5 then js_shl 1 4 else if at_ 2 4 then js_shl 1 5
  else if at_ 3 3 then js_shl 1 6 else if at_ 2 6 then js_shl 1 7
  else if at_ 3 5 then js_shl 1 8 else if at_ 4 4 then js_shl 1 9
  else if at_ 3 6 then js_shl 1 10 else if at_ 4 5 then js_shl 1 11
  else if at_ 4 6 then js_shl 1 12 else if at_ 5 5 then js_shl 1 13
  else 0.

Definition hotRollerCompletedPoints (mask : Z) : Z :=
  len (List.filter (fun pointMask => js_and mask pointMask =? pointMask)
    [bits [0; 1]; bits [2; 3]; bits [4; 5; 6]; bits [7; 8; 9]; bits [10; 11]; bits [12; 13]]).

Definition hotRollerPayoutTo1 (completed : Z) : Z :=
  if completed =? 2 then 5 else if completed =? 3 then 10 else if completed =? 4 then 20
  else if completed =? 5 then 50 else if completed =? 6 then 200 else 0.

(** The win and the loss of one bet: [winAmount], [loseAmount]. *)

(** [bet.amount + (bet.oddsAmount || 0)]. *)
Definition withOdds (bet : CrapsBet) : Z := js_add (wc_amount bet) (default 0 (wc_oddsAmount bet)).

(** [winAmount = bet.amount; if (bet.oddsAmount) winAmount += ...]. *)
Definition winWithOdds (bet : CrapsBet) (odds : Z -> Z) : Z :=
  match wc_oddsAmount bet with
  | Some o => if o =? 0 then wc_amount bet else js_add (wc_amount bet) (odds o)
  | None => wc_amount bet
  end.

(** A pass-type bet on the come-out roll, and on a point. *)
Definition comeOutPass (total : Z) (bet : CrapsBet) : Z * Z :=
  if (total =? 7) || (total =? 11) then (wc_amount bet, 0)
  else if (total =? 2) || (total =? 3) || (total =? 12) then (0, wc_amount bet)
  else (0, 0).

Definition comeOutDontPass (total : Z) (bet : CrapsBet) : Z * Z :=
  if (total =? 2) || (total =? 3) then (wc_amount bet, 0)
  else if (total =? 7) || (total =? 11) then (0, wc_amount bet)
  else (0, 0).

Definition pointPass (total point : Z) (bet : CrapsBet) : Z * Z :=
  if total =? point then (winWithOdds bet (crapsPassOddsPayout point), 0)
  else if total =? 7 then (0, withOdds bet)
  else (0, 0).

Definition pointDontPass (total point : Z) (bet : CrapsBet) : Z * Z :=
  if total =? 7 then (winWithOdds bet (crapsDontPassOddsPayout point), 0)
  else if total =? point then (0, withOdds bet)
  else (0, 0).

(** [bet.status === 'PENDING' || bet.target === undefined]: [None], else the
    target. *)
Definition traveled (bet : CrapsBet) : option Z :=
  if bool_decide (wc_status bet = Some PENDING) then None else wc_target bet.

Definition target_is (bet : CrapsBet) (n : Z) : bool :=
  match wc_target bet with Some t => t =? n | None => false end.

(** [bet.target!] as the argument of [crapsNoPayout]: an undefined target
    reaches the default of its [switch], as any number out of range does. *)
Definition target_or (bet : CrapsBet) : Z := default (-1) (wc_target bet).

Definition winLose (total : Z) (point : option Z) (isHard : bool) (bet : CrapsBet) : Z * Z :=
  let amount := wc_amount bet in
  match wc_type bet with
  | Craps_PASS =>
      match point with None => comeOutPass total bet | Some p => pointPass total p bet end
  | Craps_DONT_PASS =>
      match point with None => comeOutDontPass total bet | Some p => pointDontPass total p bet end
  | Craps_COME =>
      match traveled bet with None => comeOutPass total bet | Some t => pointPass total t bet end
  | Craps_DONT_COME =>
      match traveled bet with None => comeOutDontPass total bet | Some t => pointDontPass total t bet end
  | Craps_FIELD =>
      if total =? 2 then (js_mul amount 2, 0)
      else if total =? 12 then (js_mul amount 3, 0)
      else if one_of [3; 4; 9; 10; 11] total then (amount, 0)
      else (0, amount)
  | Craps_YES =>
      if target_is bet total then (crapsYesPayout total amount, 0)
      else if total =? 7 then (0, amount)
      else (0, 0)
  | Craps_NO =>
      if total =? 7 then (crapsNoPayout (target_or bet) amount, 0)
      else if target_is bet total then (0, amount)
      else (0, 0)
  | Craps_NEXT =>
      if target_is bet total then (crapsNextPayout total amount, 0) else (0, amount)
  | Craps_HARDWAY =>
      if isHard && target_is bet total then (crapsHardwayPayout total amount, 0)
      else if target_is bet total || (total =? 7) then (0, amount)
      else (0, 0)
  | Craps_ATS_SMALL | Craps_ATS_TALL | Craps_ATS_ALL =>
      if (total =? 7) && bool_decide (point <> None) then (0, amount)
      else
        let bit := atsBitForTotal total in
        let nextMask := js_or (default 0 (wc_progressMask bet)) bit in
        let required := atsRequiredMask (wc_type bet) in
        if negb (bit =? 0) && negb (required =? 0) && (js_and nextMask required =? required)
        then (js_mul amount (atsPayoutTo1 (wc_type bet)), 0)
        else (0, 0)
  | _ => (0, 0)
  end.

Definition calculateCrapsExposure (total : Z) (point : option Z) (bets : list CrapsBet)
    (forceHard : option bool) : Z :=
  let isHard :=
    default ((Z.rem total 2 =? 0) && (4 <=? total) && (total <=? 10)) forceHard in
  fold_left (fun pnl bet =>
    let '(winAmount, loseAmount) := winLose total point isHard bet in
    let pnl := js_add pnl winAmount in
    if 0 <? loseAmount then js_sub pnl loseAmount else pnl) bets 0.

Definition getCrapsMaxWin (bets : list CrapsBet) (point : option Z) : Z :=
  match bets with
  | [] => 0
  | _ =>
      let rows := total ← seqZ 2 11;
        if one_of [4; 6; 8; 10] total then [(total, Some true); (total, Some false)]
        else [(total, None)] in
      match max_over (fun '(total, hard) => calculateCrapsExposure total point bets hard) rows with
      | Some max => Z.max 0 max
      | None => 0
      end
  end.

(** *** The bets that the website reads from a state blob

    [BET_TYPE_REVERSE[betTypeVal] || 'PASS'], and the loop of [applyCrapsState]
    over the parsed bets. *)

Definition BET_TYPE_REVERSE (code : Z) : CrapsBetName :=
  default Craps_PASS (snd <$> List.find (fun p => p.1 =? code)
    [(0, Craps_PASS); (1, Craps_DONT_PASS); (2, Craps_COME); (3, Craps_DONT_COME); (4, Craps_FIELD);
     (5, Craps_YES); (6, Craps_NO); (7, Craps_NEXT); (8, Craps_HARDWAY); (9, Craps_HARDWAY);
     (10, Craps_HARDWAY); (11, Craps_HARDWAY); (12, Craps_FIRE); (15, Craps_ATS_SMALL);
     (16, Craps_ATS_TALL); (17, Craps_ATS_ALL); (18, Craps_MUGGSY); (19, Craps_DIFF_DOUBLES);
     (20, Craps_RIDE_LINE); (21, Craps_REPLAY); (22, Craps_HOT_ROLLER)]).

Definition parsedBet (bet : CrapsRawBet) : CrapsBet :=
  let betTypeVal := cb_betType bet in
  let target := cb_target bet in
  let isHardway := in_range 8 11 betTypeVal in
  let isAts := in_range 15 17 betTypeVal in
  let isFire := betTypeVal =? 12 in
  let isSideBetWithProgress := isFire || isAts || in_range 18 22 betTypeVal in
  let parsedTarget :=
    if isHardway then
      (if betTypeVal =? 8 then Some 4 else if betTypeVal =? 9 then Some 6
       else if betTypeVal =? 10 then Some 8 else if betTypeVal =? 11 then Some 10 else None)
    else if isSideBetWithProgress then None
    else if 0 <? target then Some target else None in
  {| wc_type := BET_TYPE_REVERSE betTypeVal;
     wc_target := parsedTarget;
     wc_status := Some (if cb_status bet =? 1 then PENDING else ON);
     wc_amount := cb_amount bet;
     wc_oddsAmount :=
       if negb isHardway && negb isSideBetWithProgress && (0 <? oddsAmount bet)
       then Some (oddsAmount bet) else None;
     wc_progressMask := if isSideBetWithProgress then Some (oddsAmount bet) else None |}.

(** [mainPoint > 0 ? mainPoint : null]. *)
Definition crapsPoint (mainPoint : Z) : option Z := if 0 <? mainPoint then Some mainPoint else None.

Definition parsedBets (state : CrapsParsedState) : list CrapsBet := parsedBet <$> cr_bets state.
