(* ===== verification/CrapsCorrect.v ===== *)
(** * Craps: the display of the website is the settlement of the chain

    From the state blob of the chain, through the parser of
    [packages/game-state] and the bets of the website, to the exposure of a
    roll: [craps_display].  The file also settles the helpers of the bonus bets. *)

From S2P Require Import Prelude JsNum Bytes Batch Constants Arith GameState GameStateCorrect Craps.

(** ** Payouts agree *)

Lemma div_bounds n d : 0 <= n -> 0 < d -> 0 <= n / d <= n.
Proof.
  intros Hn Hd. split; [apply Z.div_pos; lia|]. apply Z.div_le_upper_bound; [lia|]. nia.
Qed.

(** A product with a small constant, and its quotient. *)
Lemma times_exact a k : 0 <= a -> 0 <= k -> k * a < 2 ^ 53 ->
  js_mul a k = a * k /\ saturating_mul a k = a * k /\ 0 <= a * k <= k * a.
Proof.
  intros Ha Hk Hb. rewrite js_mul_exact by nia. rewrite saturating_mul_exact by (unfold u64_max; nia). nia.
Qed.

Lemma quotient_exact n d : 0 <= n < 2 ^ 53 -> 0 < d ->
  js_floor_div n d = n / d /\ saturating_div n d = n / d /\ 0 <= n / d <= n.
Proof. intros Hn Hd. rewrite js_floor_div_exact by done. pose proof (div_bounds n d ltac:(lia) Hd). done. Qed.

(** Make the arithmetic of both sides exact; [k * a] is bounded in the context. *)
Ltac exact_times :=
  repeat match goal with
  | |- context [js_mul ?a ?k] =>
      let H := fresh in
      destruct (times_exact a k ltac:(lia) ltac:(lia) ltac:(lia)) as (-> & H & ?); rewrite ?H; clear H
  | |- context [saturating_mul ?a ?k] =>
      let H := fresh in
      destruct (times_exact a k ltac:(lia) ltac:(lia) ltac:(lia)) as (_ & H & ?); rewrite ?H; clear H
  | |- context [js_floor_div ?n ?d] =>
      let H := fresh in
      destruct (quotient_exact n d ltac:(lia) ltac:(lia)) as (-> & H & ?); rewrite ?H; clear H
  | |- context [saturating_div ?n ?d] =>
      let H := fresh in
      destruct (quotient_exact n d ltac:(lia) ltac:(lia)) as (_ & H & ?); rewrite ?H; clear H
  end.

Lemma odds_eq point odds (is_pass : bool) :
  0 <= odds -> 6 * odds < 2 ^ 53 ->
  (if is_pass then crapsPassOddsPayout point odds else crapsDontPassOddsPayout point odds)
  = calculate_odds_payout point odds is_pass
  /\ 0 <= calculate_odds_payout point odds is_pass <= 6 * odds.
Proof.
  intros H0 H. unfold crapsPassOddsPayout, crapsDontPassOddsPayout, calculate_odds_payout.
  destruct is_pass, (one_of [4; 10] point), (one_of [5; 9] point), (one_of [6; 8] point);
    exact_times; split; lia.
Qed.

Lemma commission_eq amount w :
  0 <= amount -> 0 <= w -> amount + w < 2 ^ 53 ->
  less_commission amount w = amount + applyCrapsCommission1Pct w
  /\ 0 <= applyCrapsCommission1Pct w <= w.
Proof.
  intros Ha Hw H. unfold less_commission, applyCrapsCommission1Pct. exact_times.
  unfold saturating_sub. rewrite js_sub_exact by lia. rewrite Z.max_l by lia.
  rewrite saturating_add_exact by (unfold u64_max; lia). lia.
Qed.

Lemma yes_eq target amount :
  0 <= amount -> 7 * amount < 2 ^ 53 ->
  calculate_yes_payout target amount true = amount + crapsYesPayout target amount
  /\ 0 <= crapsYesPayout target amount <= 6 * amount.
Proof.
  intros H0 H. unfold calculate_yes_payout, crapsYesPayout. cbn [negb].
  repeat (split_if; [exact_times; edestruct commission_eq as [-> ?]; [| | |split; [reflexivity|]]; lia|]).
  edestruct commission_eq as [-> ?]; [| | |split; [reflexivity|]]; lia.
Qed.

Lemma no_eq target amount :
  0 <= amount -> 7 * amount < 2 ^ 53 ->
  calculate_no_payout target amount true = amount + crapsNoPayout target amount
  /\ 0 <= crapsNoPayout target amount <= 6 * amount.
Proof.
  intros H0 H. unfold calculate_no_payout, crapsNoPayout. cbn [negb].
  repeat (split_if; [exact_times; edestruct commission_eq as [-> ?]; [| | |split; [reflexivity|]]; lia|]).
  edestruct commission_eq as [-> ?]; [| | |split; [reflexivity|]]; lia.
Qed.

Lemma next_eq target amount :
  0 <= amount -> 36 * amount < 2 ^ 53 -> in_range 2 12 target = true ->
  calculate_next_payout target target amount = amount + crapsNextPayout target amount
  /\ 0 <= crapsNextPayout target amount <= 35 * amount.
Proof.
  intros H0 H Ht. unfold in_range in Ht. bprop. unfold calculate_next_payout, crapsNextPayout.
  rewrite Z.eqb_refl. cbn [negb].
  assert (Hw : exists ways, WAYS_table !! Z.to_nat target = Some ways /\ WAYS target = Some ways
                            /\ 1 <= ways <= 6).
  { assert (In target (seqZ 2 11)) as Hin by (apply list_elem_of_In, elem_of_seqZ; lia).
    cbn in Hin. repeat (destruct Hin as [<-|Hin]; [eexists; split; [reflexivity|]; split; [reflexivity|lia]|]).
    done. }
  destruct Hw as (ways & -> & -> & Hr). cbn [default from_option id].
  rewrite (proj2 (Z.eqb_neq ways 0)) by lia.
  repeat (split_if; [exact_times; edestruct commission_eq as [-> ?]; [| | |split; [reflexivity|]]; lia|]).
  exact_times. edestruct commission_eq as [-> ?]; [| | |split; [reflexivity|]]; lia.
Qed.

(** ** One bet on one roll *)

(** The profit of a result; a bet that stays has none. *)
Definition profit (r : option BetResult) : Z :=
  match r with Some r => return_amount r - wagered r | None => 0 end.

Definition stake (c : ChainBet) : Z := ch_amount c + ch_odds c.

(** The bet as the state parser gives it to the website. *)
Definition raw_bet (c : ChainBet) : CrapsRawBet :=
  {| cb_betType := BetType_code (ch_type c); cb_target := ch_target c;
     cb_status := BetStatus_code (ch_status c);
     cb_amount := to_number (ch_amount c); oddsAmount := to_number (ch_odds c) |}.

(** The bet as the website shows it. *)
Definition shown (c : ChainBet) : CrapsBet := parsedBet (raw_bet c).

(** Bets with an exposure, other than All Tall Small. *)
Definition exposed (t : BetType) : bool :=
  match t with
  | Pass | DontPass | Come | DontCome | Field | Yes | No | Next
  | Hardway4 | Hardway6 | Hardway8 | Hardway10 => true
  | _ => false
  end.

(** A state of the table: the point belongs to the phase, and the bets are
    valid; odds behind a pass bet stand on the point. *)
Definition table_ok (phase : Phase) (main_point : Z) : bool :=
  match phase with ComeOut => main_point =? 0 | Point => is_point_total main_point end.

Definition bet_ok (phase : Phase) (main_point : Z) (c : ChainBet) : bool :=
  is_valid_bet_state c && (0 <? ch_amount c) && (0 <=? ch_odds c)
  && match ch_type c with
     | Pass | DontPass =>
         (ch_odds c =? 0) || (bool_decide (phase = Point) && (ch_target c =? main_point))
     | _ => true
     end.

(** What the website shows for the bet agrees with what the chain does. *)
Definition agrees (c : ChainBet) (r : option BetResult) (wl : Z * Z) : Prop :=
  profit r = wl.1 - wl.2 /\ 0 <= wl.1 <= 35 * stake c /\ 0 <= wl.2 <= stake c /\ (wl.1 = 0 \/ wl.2 = 0).

Lemma point_total_range t : is_point_total t = true -> 4 <= t <= 10.
Proof.
  unfold is_point_total, one_of. cbn [existsb]. intros H.
  repeat (apply orb_true_iff in H as [H|H]; [apply Z.eqb_eq in H; lia|]). done.
Qed.

Section Bet.
Context (phase : Phase) (main_point d1 d2 : Z) (c : ChainBet).
Hypothesis Hd1 : die d1.
Hypothesis Hd2 : die d2.
Hypothesis Htable : table_ok phase main_point = true.
Hypothesis Hbet : bet_ok phase main_point c = true.
Hypothesis Hstake : 36 * stake c < 2 ^ 53.

Lemma bet_bounds : 0 < ch_amount c /\ 0 <= ch_odds c /\ 36 * ch_amount c + 36 * ch_odds c < 2 ^ 53.
Proof using Hbet Hstake. unfold bet_ok in Hbet. unfold stake in Hstake. bprop. lia. Qed.

Lemma raw_amounts : to_number (ch_amount c) = ch_amount c /\ to_number (ch_odds c) = ch_odds c.
Proof using Hbet Hstake. pose proof bet_bounds. split; apply to_number_exact; lia. Qed.

Lemma bet_amount : wc_amount (shown c) = ch_amount c.
Proof using Hbet Hstake. apply raw_amounts. Qed.

Lemma total_exact : saturating_add8 d1 d2 = d1 + d2.
Proof using Hd1 Hd2. unfold die in *. apply saturating_add8_exact. unfold u8_max. lia. Qed.

(** Bets that carry odds. *)
Definition with_odds (t : BetType) : bool :=
  match t with Pass | DontPass | Come | DontCome | Field | Yes | No | Next => true | _ => false end.

Lemma odds_shown :
  with_odds (ch_type c) = true ->
  wc_oddsAmount (shown c) = if 0 <? ch_odds c then Some (ch_odds c) else None.
Proof using Hbet Hstake.
  intros H. destruct raw_amounts as [_ E]. unfold shown, parsedBet, raw_bet. cbn [cb_betType oddsAmount wc_oddsAmount].
  rewrite E. by destruct (ch_type c).
Qed.

Lemma lost_with_odds :
  with_odds (ch_type c) = true ->
  withOdds (shown c) = stake c /\ saturating_add (ch_amount c) (ch_odds c) = stake c.
Proof using Hbet Hstake.
  intros H. pose proof bet_bounds. unfold withOdds, stake. rewrite odds_shown, bet_amount by done.
  rewrite saturating_add_exact by (unfold u64_max; lia). split; [|done].
  destruct (0 <? ch_odds c) eqn:E; bprop; cbn [default from_option id]; rewrite js_add_exact by lia; lia.
Qed.

Lemma win_with_odds (is_pass : bool) point :
  with_odds (ch_type c) = true ->
  winWithOdds (shown c) (if is_pass then crapsPassOddsPayout point else crapsDontPassOddsPayout point)
  = ch_amount c + calculate_odds_payout point (ch_odds c) is_pass
  /\ 0 <= calculate_odds_payout point (ch_odds c) is_pass <= 6 * ch_odds c.
Proof using Hbet Hstake.
  intros H. pose proof bet_bounds. unfold winWithOdds. rewrite odds_shown, bet_amount by done.
  destruct (odds_eq point (ch_odds c) is_pass) as [Ho Hb]; [lia|lia|]. split; [|done].
  destruct (0 <? ch_odds c) eqn:E; bprop.
  - rewrite (proj2 (Z.eqb_neq _ _)) by lia.
    replace ((if is_pass then crapsPassOddsPayout point else crapsDontPassOddsPayout point) (ch_odds c))
      with (calculate_odds_payout point (ch_odds c) is_pass) by (rewrite <- Ho; by destruct is_pass).
    apply js_add_exact. lia.
  - assert (ch_odds c = 0) as E0 by lia. rewrite E0 in *. lia.
Qed.

Lemma come_win_exact is_pass :
  come_win c is_pass
  = 2 * ch_amount c + ch_odds c + calculate_odds_payout (ch_target c) (ch_odds c) is_pass.
Proof using Hbet Hstake.
  pose proof bet_bounds. unfold come_win.
  destruct (odds_eq (ch_target c) (ch_odds c) is_pass) as [_ Hb]; [lia|lia|].
  exact_times.
  rewrite (saturating_add_exact (ch_amount c * 2)) by (unfold u64_max; lia).
  rewrite saturating_add_exact by (unfold u64_max; lia). lia.
Qed.
(** The three ways to agree. *)
Lemma agrees_stays : agrees c None (0, 0).
Proof using Hbet Hstake. pose proof bet_bounds. unfold agrees, stake. cbn. lia. Qed.

Lemma agrees_wins r w :
  return_amount r = wagered r + w -> 0 <= w <= 35 * stake c -> agrees c (Some r) (w, 0).
Proof using Hbet Hstake. intros H Hw. pose proof bet_bounds. unfold agrees, stake in *. cbn. lia. Qed.

Lemma agrees_loses r l :
  return_amount r = 0 -> wagered r = l -> 0 <= l <= stake c -> agrees c (Some r) (0, l).
Proof using Hbet Hstake. intros H <- Hl. pose proof bet_bounds. unfold agrees, stake in *. cbn. lia. Qed.

Lemma double_exact : saturating_mul (ch_amount c) 2 = ch_amount c * 2.
Proof using Hbet Hstake. pose proof bet_bounds. exact_times. done. Qed.

(** Agreement of tests that are written in different ways. *)
Ltac by_bounds := pose proof bet_bounds; unfold stake; cbn [return_amount wagered]; rewrite ?double_exact; lia.

Lemma agrees_come_out_pass t :
  agrees c
    (if one_of [7; 11] t then Some {| return_amount := saturating_mul (ch_amount c) 2; wagered := ch_amount c |}
     else if one_of [2; 3; 12] t then Some {| return_amount := 0; wagered := ch_amount c |} else None)
    (comeOutPass t (shown c)).
Proof using Hbet Hstake.
  unfold comeOutPass, one_of. cbn [existsb]. rewrite !orb_false_r, bet_amount, orb_assoc.
  destruct (_ || _); [apply agrees_wins; by_bounds|].
  destruct (_ || _); [apply agrees_loses; by_bounds|apply agrees_stays].
Qed.

Lemma agrees_come_out_dont_pass t :
  agrees c
    (if one_of [2; 3] t then Some {| return_amount := saturating_mul (ch_amount c) 2; wagered := ch_amount c |}
     else if t =? 12 then Some {| return_amount := ch_amount c; wagered := ch_amount c |}
     else if one_of [7; 11] t then Some {| return_amount := 0; wagered := ch_amount c |} else None)
    (comeOutDontPass t (shown c)).
Proof using Hbet Hstake.
  unfold comeOutDontPass, one_of. cbn [existsb]. rewrite !orb_false_r, bet_amount.
  destruct ((t =? 2) || _); [apply agrees_wins; by_bounds|].
  destruct (t =? 12) eqn:E12; bprop; [subst t; cbn; apply agrees_wins; by_bounds|].
  destruct (_ || _); [apply agrees_loses; by_bounds|apply agrees_stays].
Qed.

Lemma agrees_point (is_pass : bool) t point ret :
  with_odds (ch_type c) = true ->
  ret = 2 * ch_amount c + ch_odds c + calculate_odds_payout point (ch_odds c) is_pass ->
  agrees c
    (if t =? (if is_pass then point else 7)
     then Some {| return_amount := ret; wagered := saturating_add (ch_amount c) (ch_odds c) |}
     else if t =? (if is_pass then 7 else point)
     then Some {| return_amount := 0; wagered := saturating_add (ch_amount c) (ch_odds c) |}
     else None)
    (if is_pass then pointPass t point (shown c) else pointDontPass t point (shown c)).
Proof using Hbet Hstake.
  intros Hw ->. destruct (lost_with_odds Hw) as [Hl ->].
  destruct (win_with_odds is_pass point Hw) as [Hv Hb]. pose proof bet_bounds as Hbb.
  unfold pointPass, pointDontPass. rewrite Hl.
  destruct is_pass; rewrite Hv; (split_if; [apply agrees_wins; unfold stake; cbn; lia|]);
    (split_if; [apply agrees_loses; unfold stake; cbn; lia|apply agrees_stays]).
Qed.
(** The type and the target that the website shows. *)
Lemma shown_target :
  wc_target (shown c)
  = match ch_type c with
    | Hardway4 => Some 4 | Hardway6 => Some 6 | Hardway8 => Some 8 | Hardway10 => Some 10
    | Fire | AtsSmall | AtsTall | AtsAll | Muggsy | DiffDoubles | RideLine | Replay | HotRoller => None
    | _ => if 0 <? ch_target c then Some (ch_target c) else None
    end.
Proof using. unfold shown, parsedBet, raw_bet. by destruct (ch_type c). Qed.

Lemma agrees_pass (is_pass : bool) :
  ch_type c = (if is_pass then Pass else DontPass) ->
  agrees c (pass_result phase main_point (d1 + d2) c)
    (match crapsPoint main_point with
     | None => (if is_pass then comeOutPass else comeOutDontPass) (d1 + d2) (shown c)
     | Some p => (if is_pass then pointPass else pointDontPass) (d1 + d2) p (shown c)
     end).
Proof using Htable Hbet Hstake.
  intros Ht. unfold pass_result, crapsPoint. rewrite Ht.
  assert (Hw : with_odds (ch_type c) = true) by (rewrite Ht; by destruct is_pass).
  pose proof Htable as Htab. pose proof Hbet as Hok.
  case_eq phase; intros Ep; rewrite Ep in Htab, Hok; cbn [table_ok] in Htab.
  - apply Z.eqb_eq in Htab. rewrite Htab. cbn [Z.ltb Z.compare].
    destruct is_pass; [apply agrees_come_out_pass|].
    assert (Hor : forall t a b n, (if one_of [7; 11] t then a else if one_of [2; 3] t then b
              else if t =? 12 then n else @None BetResult)
              = (if one_of [2; 3] t then b else if t =? 12 then n
                 else if one_of [7; 11] t then a else None)).
    { intros t a b n. unfold one_of. cbn [existsb]. destruct (t =? 7) eqn:E7; bprop; [by subst t|].
      destruct (t =? 11) eqn:E11; bprop; [by subst t|]. done. }
    rewrite Hor. apply agrees_come_out_dont_pass.
  - apply point_total_range in Htab. rewrite (proj2 (Z.ltb_lt 0 main_point)) by lia.
    pose proof (agrees_point is_pass (d1 + d2) main_point (calculate_pass_return c true is_pass) Hw) as H.
    assert (Hret : calculate_pass_return c true is_pass
      = 2 * ch_amount c + ch_odds c + calculate_odds_payout main_point (ch_odds c) is_pass).
    { pose proof bet_bounds as Hb. unfold calculate_pass_return. cbn [negb]. rewrite double_exact.
      destruct (odds_eq main_point (ch_odds c) is_pass) as [_ Ho]; [lia|lia|].
      destruct (0 <? ch_odds c) eqn:E; bprop; cbn [andb].
      - assert (ch_target c = main_point) as ->.
        { unfold bet_ok in Hok. rewrite Ht in Hok. destruct is_pass; bprop;
            (match goal with H : _ || _ = true |- _ => apply orb_true_iff in H as [?|?]; bprop; lia end). }
        rewrite (proj2 (Z.ltb_lt 0 main_point)) by lia.
        rewrite (saturating_add_exact (ch_odds c)) by (unfold u64_max; lia).
        rewrite saturating_add_exact by (unfold u64_max; lia). lia.
      - assert (ch_odds c = 0) as E0 by lia. rewrite E0 in *.
        rewrite saturating_add_exact by (unfold u64_max; lia). lia. }
    specialize (H Hret). by destruct is_pass.
Qed.

Lemma agrees_come (is_pass : bool) :
  ch_type c = (if is_pass then Come else DontCome) ->
  agrees c ((if is_pass then come_result else dont_come_result) (d1 + d2) c)
    (match traveled (shown c) with
     | None => (if is_pass then comeOutPass else comeOutDontPass) (d1 + d2) (shown c)
     | Some p => (if is_pass then pointPass else pointDontPass) (d1 + d2) p (shown c)
     end).
Proof using Hbet Hstake.
  intros Ht. assert (Hw : with_odds (ch_type c) = true) by (rewrite Ht; by destruct is_pass).
  pose proof Hbet as Hok. unfold bet_ok, is_valid_bet_state in Hok. rewrite Ht in Hok.
  unfold traveled. rewrite shown_target.
  assert (wc_status (shown c) = Some (match ch_status c with Pending => PENDING | On => ON end)) as ->
    by (unfold shown, parsedBet, raw_bet; by destruct (ch_status c)).
  unfold come_result, dont_come_result.
  destruct (ch_status c) eqn:Es; cbn [bool_decide].
  - replace (match ch_type c with
      | Hardway4 => Some 4 | Hardway6 => Some 6 | Hardway8 => Some 8 | Hardway10 => Some 10
      | Fire | AtsSmall | AtsTall | AtsAll | Muggsy | DiffDoubles | RideLine | Replay | HotRoller => None
      | _ => if 0 <? ch_target c then Some (ch_target c) else None
      end) with (Some (ch_target c)).
    2:{ rewrite Ht. assert (0 <? ch_target c = true) as ->; [|by destruct is_pass].
        assert (Hp : is_point_total (ch_target c) = true)
          by (destruct is_pass; bprop; assumption).
        apply point_total_range in Hp. lia. }
    rewrite bool_decide_eq_false_2 by discriminate.
    pose proof (agrees_point is_pass (d1 + d2) (ch_target c) (come_win c is_pass) Hw
      (come_win_exact is_pass)) as H. destruct is_pass; cbv beta; rewrite Es; exact H.
  - rewrite bool_decide_eq_true_2 by done.
    destruct is_pass; cbv beta; rewrite Es;
      [apply agrees_come_out_pass|apply agrees_come_out_dont_pass].
Qed.
Lemma agrees_field :
  ch_type c = Field ->
  agrees c (field_result (d1 + d2) c) (winLose (d1 + d2) (crapsPoint main_point) (d1 =? d2) (shown c)).
Proof using Hbet Hstake.
  intros Ht. pose proof bet_bounds as Hb. unfold winLose, field_result, calculate_field_payout.
  assert (wc_type (shown c) = Craps_FIELD) as ->
    by (unfold shown, parsedBet, raw_bet; by rewrite Ht).
  rewrite bet_amount.
  repeat (split_if; [exact_times; apply agrees_wins; unfold stake; cbn [return_amount wagered]; lia|]).
  apply agrees_loses; [done|done|by_bounds].
Qed.

(** The targets of place, lay and hop bets. *)
Lemma number_target :
  match ch_type c with Yes | No | Next => True | _ => False end ->
  in_range 2 12 (ch_target c) = true /\ wc_target (shown c) = Some (ch_target c)
  /\ (ch_type c <> Next -> ch_status c = On).
Proof using Hbet.
  intros Ht. pose proof Hbet as Hok. unfold bet_ok, is_valid_bet_state in Hok. rewrite shown_target.
  unfold in_range in *.
  assert (Hr : 2 <= ch_target c <= 12 /\ (ch_type c <> Next -> ch_status c = On))
    by (destruct (ch_type c); try done; bprop; (split; [lia|done])).
  destruct Hr as [Hr Hs]. split; [bprop; apply andb_true_iff; lia|]. split; [|done].
  rewrite (proj2 (Z.ltb_lt _ _)) by lia. by destruct (ch_type c).
Qed.

Lemma agrees_number :
  match ch_type c with Yes | No | Next => True | _ => False end ->
  agrees c (roll_result phase main_point d1 d2 c)
    (winLose (d1 + d2) (crapsPoint main_point) (d1 =? d2) (shown c)).
Proof using Hd1 Hd2 Hbet Hstake.
  intros Ht. destruct (number_target Ht) as (Hr & Hw & Hs). pose proof bet_bounds as Hb.
  destruct (yes_eq (ch_target c) (ch_amount c)) as [Hy Hyb]; [lia|lia|].
  destruct (no_eq (ch_target c) (ch_amount c)) as [Hn Hnb]; [lia|lia|].
  destruct (next_eq (ch_target c) (ch_amount c)) as [Hx Hxb]; [lia|lia|done|].
  unfold roll_result, winLose, target_is, target_or. rewrite Hw, bet_amount, total_exact.
  rewrite (Z.eqb_sym (ch_target c)). cbn [default from_option id].
  assert (wc_type (shown c) = match ch_type c with Yes => Craps_YES | No => Craps_NO | _ => Craps_NEXT end)
    as -> by (unfold shown, parsedBet, raw_bet; by destruct (ch_type c)).
  unfold yes_no_result, next_result.
  destruct (ch_type c) eqn:Et; try done; rewrite ?Hs, ?bool_decide_eq_true_2 by done; cbn [negb].
  - destruct (d1 + d2 =? ch_target c) eqn:E; bprop; [rewrite E; apply agrees_wins; unfold stake; cbn [return_amount wagered]; lia|].
    split_if; [apply agrees_loses; [done|done|by_bounds]|apply agrees_stays].
  - split_if; bprop; [apply agrees_wins; unfold stake; cbn [return_amount wagered]; lia|].
    split_if; [apply agrees_loses; [done|done|by_bounds]|apply agrees_stays].
  - destruct (d1 + d2 =? ch_target c) eqn:E; bprop; [rewrite E; apply agrees_wins; unfold stake; cbn [return_amount wagered]; lia|].
    apply agrees_loses; [|done|by_bounds]. cbn [return_amount]. unfold calculate_next_payout.
    by rewrite (proj2 (Z.eqb_neq _ _)) by lia.
Qed.

Definition hardway_number (t : BetType) : option Z :=
  match t with
  | Hardway4 => Some 4 | Hardway6 => Some 6 | Hardway8 => Some 8 | Hardway10 => Some 10 | _ => None
  end.

Lemma agrees_hardway n :
  hardway_number (ch_type c) = Some n ->
  agrees c (hardway_result n d1 d2 c)
    (winLose (d1 + d2) (crapsPoint main_point) (d1 =? d2) (shown c)).
Proof using Hd1 Hd2 Hbet Hstake.
  intros Ht. pose proof bet_bounds as Hb.
  unfold hardway_result, winLose, target_is, calculate_hardway_payout.
  assert (wc_type (shown c) = Craps_HARDWAY /\ wc_target (shown c) = Some n) as [-> ->].
  { rewrite shown_target. unfold shown, parsedBet, raw_bet. destruct (ch_type c); try done; by injection Ht as <-. }
  rewrite total_exact, bet_amount, (Z.eqb_sym n).
  assert (saturating_mul8 d1 2 = d1 * 2) as ->
    by (unfold saturating_mul8, u8_max, die in *; lia).
  assert (Hn : n = 4 \/ n = 6 \/ n = 8 \/ n = 10)
    by (destruct (ch_type c); try done; injection Ht as <-; lia).
  assert (Hh : (d1 =? d2) && (d1 * 2 =? n) = (d1 =? d2) && (d1 + d2 =? n)).
  { destruct (d1 =? d2) eqn:E; bprop; [|done]. subst. cbn [andb]. f_equal. lia. }
  rewrite Hh. destruct ((d1 =? d2) && (d1 + d2 =? n)) eqn:Ehard; cbn [negb andb mbind option_bind].
  - apply andb_true_iff in Ehard as [_ En]. apply Z.eqb_eq in En. unfold crapsHardwayPayout. rewrite En.
    destruct Hn as [-> | [-> | [-> | ->]]]; cbn [one_of existsb Z.eqb Pos.eqb orb]; exact_times;
      rewrite saturating_add_exact by (unfold u64_max; lia); apply agrees_wins; unfold stake; cbn [return_amount wagered]; lia.
  - destruct (_ || _); cbn [mbind option_bind];
      [apply agrees_loses; [done|done|by_bounds]|apply agrees_stays].
Qed.

(** What the website shows for a bet is what the chain does with it. *)
Lemma craps_one_bet :
  exposed (ch_type c) = true ->
  agrees c (roll_result phase main_point d1 d2 c)
    (winLose (d1 + d2) (crapsPoint main_point) (d1 =? d2) (shown c)).
Proof using Hd1 Hd2 Htable Hbet Hstake.
  intros He.
  assert (Ht : wc_type (shown c) = BET_TYPE_REVERSE (BetType_code (ch_type c))) by done.
  destruct (ch_type c) eqn:Et; try done;
    try (apply agrees_number; by rewrite Et);
    try (unfold roll_result; rewrite Et; apply agrees_hardway; by rewrite Et);
    unfold roll_result; rewrite Et, total_exact.
  - unfold winLose. rewrite Ht. exact (agrees_pass true Et).
  - unfold winLose. rewrite Ht. exact (agrees_pass false Et).
  - unfold winLose. rewrite Ht. exact (agrees_come true Et).
  - unfold winLose. rewrite Ht. exact (agrees_come false Et).
  - by apply agrees_field.
Qed.
End Bet.

(** ** A roll of the table *)

Definition display_delta (phase : Phase) (main_point d1 d2 : Z) (c : ChainBet) : Z :=
  let '(w, l) := winLose (d1 + d2) (crapsPoint main_point) (d1 =? d2) (shown c) in w - l.

Lemma craps_exposure_sum phase main_point d1 d2 cs :
  die d1 -> die d2 -> table_ok phase main_point = true ->
  forallb (bet_ok phase main_point) cs = true -> forallb (fun c => exposed (ch_type c)) cs = true ->
  36 * zsum stake cs < 2 ^ 53 ->
  calculateCrapsExposure (d1 + d2) (crapsPoint main_point) (shown <$> cs) (Some (d1 =? d2))
  = zsum (fun c => profit (roll_result phase main_point d1 d2 c)) cs.
Proof.
  intros Hd1 Hd2 Ht Hb He Hs.
  pose proof (proj1 (List.forallb_forall _ _) Hb) as Hb'. pose proof (proj1 (List.forallb_forall _ _) He) as He'.
  assert (Hst : Forall (fun c => 0 <= stake c) cs).
  { apply Forall_forall. intros c Hc. apply list_elem_of_In in Hc. specialize (Hb' c Hc).
    unfold bet_ok in Hb'. unfold stake. bprop. lia. }
  assert (Hone : forall c, c ∈ cs ->
    agrees c (roll_result phase main_point d1 d2 c)
      (winLose (d1 + d2) (crapsPoint main_point) (d1 =? d2) (shown c))).
  { intros c Hc. pose proof (zsum_member stake _ _ Hst Hc). apply list_elem_of_In in Hc.
    apply craps_one_bet; [done|done|done|by apply Hb'|lia|by apply He']. }
  unfold calculateCrapsExposure. cbn [default from_option id].
  assert (Hfold : forall l p, fold_left (fun pnl bet =>
      let '(w, lo) := winLose (d1 + d2) (crapsPoint main_point) (d1 =? d2) bet in
      let pnl := js_add pnl w in if 0 <? lo then js_sub pnl lo else pnl) (shown <$> l) p
    = fold_left (fun pnl c =>
      let '(w, lo) := winLose (d1 + d2) (crapsPoint main_point) (d1 =? d2) (shown c) in
      let pnl := js_add pnl w in if 0 <? lo then js_sub pnl lo else pnl) l p).
  { induction l as [|c l IH]; intros p; [done|]. cbn. by rewrite IH. }
  rewrite Hfold, (fold_exact _ (fun c => profit (roll_result phase main_point d1 d2 c))); [lia| |].
  - rewrite Z.add_0_l. etransitivity; [apply (zsum_le _ (fun c => 36 * stake c))|].
    + intros c Hc. destruct (Hone c Hc) as (-> & Hw & Hl & _).
      rewrite Forall_forall in Hst. specialize (Hst c Hc). cbn beta in Hst. lia.
    + rewrite zsum_scale. lia.
  - intros p c Hc Hp. destruct (Hone c Hc) as (Hpr & Hw & Hl & Hz).
    destruct (winLose _ _ _ (shown c)) as [w l]. cbn [fst snd] in *. rewrite Hpr in *. cbv zeta.
    destruct (0 <? l) eqn:E; bprop; rewrite js_add_exact by lia; [rewrite js_sub_exact by lia; lia|lia].
Qed.

(** The bet in the bytes of the state blob. *)
Definition wire_bet (c : ChainBet) : CrapsRawBet :=
  {| cb_betType := BetType_code (ch_type c); cb_target := ch_target c;
     cb_status := BetStatus_code (ch_status c); cb_amount := ch_amount c; oddsAmount := ch_odds c |}.

Definition phase_code (p : Phase) : Z := match p with ComeOut => 0 | Point => 1 end.

(** The state blob of a table, as [CrapsState::to_blob] writes it. *)
Definition table_blob (phase : Phase) (main_point d1 d2 mask : Z) (epoch : bool) (cs : list ChainBet) :
    Uint8Array :=
  blob_of (C_craps 2 (phase_code phase) main_point d1 d2 mask epoch (wire_bet <$> cs) 0).

Lemma table_point phase main_point : table_ok phase main_point = true -> u8 main_point.
Proof.
  unfold u8. destruct phase; cbn [table_ok]; intros H; [bprop; lia|].
  apply point_total_range in H. lia.
Qed.

Lemma wire_bet_ok phase main_point c :
  bet_ok phase main_point c = true -> 36 * stake c < 2 ^ 53 -> craps_bet_ok (wire_bet c).
Proof.
  unfold bet_ok, is_valid_bet_state, craps_bet_ok, wire_bet, u8, u64, stake.
  cbn [cb_betType cb_target cb_status cb_amount oddsAmount]. intros H Hs.
  assert (Ht : 0 <= ch_target c < 256).
  { bprop. destruct (ch_type c); bprop;
      repeat match goal with
      | H : match ch_status c with _ => _ end = true |- _ => destruct (ch_status c)
      | H : _ || _ = true |- _ => apply orb_true_iff in H as [H|H]
      | H : is_point_total _ = true |- _ => apply point_total_range in H
      | H : in_range _ _ _ = true |- _ => unfold in_range in H
      | _ => progress bprop
      end; lia. }
  bprop. split_and!; try lia; [destruct (ch_type c)|destruct (ch_type c)|destruct (ch_status c)|destruct (ch_status c)]; cbn; lia.
Qed.

(** C17. The exposures that the website shows next to a craps table are the
    settlements of the chain: when the chain writes its table (a phase with its
    point, at most 20 valid line, number, field and hardway bets with their
    odds, stakes below 2^53/36 in all) into the state blob, the website parses
    the blob, and for every roll of the dice the exposure it computes for the
    total, told whether the roll is a pair, is the sum over the bets of what
    the chain returns less what was wagered on the bets that the roll resolves.
    The bonus bets are left out: their exposures differ ([ats_display],
    [bonus_tables]). *)
Theorem craps_display phase main_point last1 last2 mask epoch cs d1 d2 :
  Forall u8 [last1; last2; mask] -> len cs <= GameState.CRAPS_MAX_BETS ->
  table_ok phase main_point = true -> forallb (bet_ok phase main_point) cs = true ->
  forallb (fun c => exposed (ch_type c)) cs = true -> 36 * zsum stake cs < 2 ^ 53 ->
  die d1 -> die d2 ->
  exists st,
    parseCrapsState (table_blob phase main_point last1 last2 mask epoch cs) = Some st
    /\ calculateCrapsExposure (d1 + d2) (crapsPoint (mainPoint st)) (parsedBets st) (Some (d1 =? d2))
       = zsum (fun c => profit (roll_result phase main_point d1 d2 c)) cs.
Proof.
  intros Hu Hlen Ht Hb He Hs Hd1 Hd2.
  pose proof (craps_roundtrip 2 (phase_code phase) main_point last1 last2 mask epoch
    (wire_bet <$> cs) 0) as Hrt. cbv zeta in Hrt. fold (table_blob phase main_point last1 last2 mask epoch cs) in Hrt.
  assert (Hok : state_ok (C_craps 2 (phase_code phase) main_point last1 last2 mask epoch (wire_bet <$> cs) 0)).
  { cbn [state_ok]. split; [lia|]. split; [by destruct phase; cbn; lia|].
    split; [constructor; [by apply (table_point phase)|done]|]. split; [by rewrite len_fmap|].
    split; [|lia]. apply Forall_fmap, Forall_forall. intros c Hc.
    assert (Hbc : bet_ok phase main_point c = true)
      by by apply (proj1 (List.forallb_forall _ _) Hb), list_elem_of_In.
    apply (wire_bet_ok phase main_point); [done|].
    assert (Hst : Forall (fun c => 0 <= stake c) cs).
    { apply Forall_forall. intros c' Hc'. assert (Hbc' : bet_ok phase main_point c' = true)
        by by apply (proj1 (List.forallb_forall _ _) Hb), list_elem_of_In.
      unfold bet_ok in Hbc'. unfold stake. bprop. lia. }
    pose proof (zsum_member stake _ _ Hst Hc). lia. }
  specialize (Hrt Hok). destruct (parseCrapsState _) as [st|] eqn:E; [|done].
  exists st. split; [done|]. cbn in Hrt. injection Hrt as ->. cbn [mainPoint].
  unfold parsedBets. cbn [cr_bets]. rewrite <- !list_fmap_compose.
  by apply craps_exposure_sum.
Qed.

(** A table on the point 6, with odds behind the pass line, and a bet that
    travels with the come point 5. *)
Definition sample_table : list ChainBet :=
  [ {| ch_type := Pass; ch_target := 6; ch_status := On; ch_amount := 10; ch_odds := 25 |};
    {| ch_type := Come; ch_target := 5; ch_status := On; ch_amount := 20; ch_odds := 0 |};
    {| ch_type := No; ch_target := 4; ch_status := On; ch_amount := 300; ch_odds := 0 |};
    {| ch_type := Hardway6; ch_target := 6; ch_status := On; ch_amount := 7; ch_odds := 0 |} ].

Lemma craps_display_witness :
  exists st,
    parseCrapsState (table_blob Point 6 2 4 0 true sample_table) = Some st
    /\ calculateCrapsExposure (3 + 3) (crapsPoint (mainPoint st)) (parsedBets st) (Some (3 =? 3)) = 103
    /\ zsum (fun c => profit (roll_result Point 6 3 3 c)) sample_table = 103.
Proof.
  assert (Hz : zsum (fun c => profit (roll_result Point 6 3 3 c)) sample_table = 103) by by vm_compute.
  destruct (craps_display Point 6 2 4 0 true sample_table 3 3) as (st & Hst & He);
    [by repeat constructor|by vm_compute|by vm_compute|by vm_compute|by vm_compute|by vm_compute
    |unfold die; lia|unfold die; lia|].
  exists st. split; [exact Hst|]. split; [|exact Hz]. rewrite He. exact Hz.
Defined.

(** ** All Tall Small *)

(** The name of a bet in the tables of the website. *)
Definition is_ats (t : BetType) : bool :=
  match t with AtsSmall | AtsTall | AtsAll => true | _ => false end.

Definition completes (c : ChainBet) (total : Z) : bool :=
  negb (ats_bit_for_total total =? 0)
  && (Z.land (Z.lor (ch_odds c) (ats_bit_for_total total)) (ats_required_mask (ch_type c))
      =? ats_required_mask (ch_type c)).

Lemma ats_bit_eq total : 2 <= total <= 12 -> atsBitForTotal total = ats_bit_for_total total.
Proof.
  intros H. pose proof (proj2 (elem_of_seqZ 2 11 total) ltac:(lia)) as Hin.
  apply list_elem_of_In in Hin. cbn in Hin. by repeat (destruct Hin as [<-|Hin]; [done|]).
Qed.

Lemma ats_bit_range total : 0 <= ats_bit_for_total total < 1024.
Proof.
  unfold ats_bit_for_total, bit_for. cbn [List.find fst].
  repeat (split_if; [by split; vm_compute|]). by split; vm_compute.
Qed.

Lemma lor_range a b n : 0 <= n -> 0 <= a < 2 ^ n -> 0 <= b < 2 ^ n -> 0 <= Z.lor a b < 2 ^ n.
Proof.
  intros Hn Ha Hb. split; [apply Z.lor_nonneg; lia|].
  destruct (Z.eq_dec (Z.lor a b) 0) as [->|Hne]; [apply Z.pow_pos_nonneg; lia|].
  assert (0 <= Z.lor a b) by (apply Z.lor_nonneg; lia).
  apply Z.log2_lt_pow2; [lia|]. rewrite Z.log2_lor by lia. apply Z.max_lub_lt.
  - destruct (Z.eq_dec a 0) as [->|]; [cbn; destruct (Z.eq_dec n 0); [subst; cbn in *; replace b with 0 in * by lia; done|lia]|].
    apply Z.log2_lt_pow2; lia.
  - destruct (Z.eq_dec b 0) as [->|]; [cbn; destruct (Z.eq_dec n 0); [subst; cbn in *; replace a with 0 in * by lia; done|lia]|].
    apply Z.log2_lt_pow2; lia.
Qed.

Lemma crapsPoint_set phase main_point :
  table_ok phase main_point = true ->
  bool_decide (crapsPoint main_point <> None) = bool_decide (phase = Point).
Proof.
  intros Ht. unfold crapsPoint. destruct phase; cbn [table_ok] in Ht.
  - bprop. subst. done.
  - apply point_total_range in Ht. rewrite (proj2 (Z.ltb_lt _ _)) by lia.
    by rewrite !bool_decide_eq_true_2.
Qed.

Lemma ats_mask_exact odds bit req :
  0 <= odds < 1024 -> 0 <= bit < 1024 -> 0 < req < 2 ^ 31 ->
  js_and (js_or odds bit) req = Z.land (Z.lor odds bit) req.
Proof.
  intros Ho Hb Hr. unfold js_or. rewrite !to_int32_id by lia. unfold js_and.
  pose proof (lor_range odds bit 10 ltac:(lia) ltac:(lia) ltac:(lia)).
  by rewrite !to_int32_id by lia.
Qed.

(** All Tall Small bets are shown by other rules than the chain's.  For
    such a bet of the chain, with any progress and any total of two dice: the
    two agree when nothing is decided and on a seven-out; on a seven of a
    come-out roll the website shows no change where the chain takes the stake;
    and on the roll that completes the bet the website shows 34 or 175 times the
    stake where the chain pays 30 or 150 times the stake. *)
Theorem ats_display phase main_point d1 d2 c :
  is_ats (ch_type c) = true -> 0 <= ch_odds c < 1024 -> 0 < ch_amount c -> 176 * ch_amount c <= 2 ^ 53 ->
  table_ok phase main_point = true -> die d1 -> die d2 ->
  let '(w, l) := winLose (d1 + d2) (crapsPoint main_point) (d1 =? d2) (shown c) in
  let chain := profit (roll_result phase main_point d1 d2 c) in
  if d1 + d2 =? 7 then
    chain = - ch_amount c /\ w - l = match phase with Point => - ch_amount c | ComeOut => 0 end
  else if completes c (d1 + d2) then
    chain = (match ch_type c with AtsAll => 150 | _ => 30 end) * ch_amount c
    /\ w - l = (match ch_type c with AtsAll => 175 | _ => 34 end) * ch_amount c
  else chain = 0 /\ w - l = 0.
Proof.
  intros Ha Ho Hp Hb Ht Hd1 Hd2. unfold die in *.
  assert (Hamt : to_number (ch_amount c) = ch_amount c) by (apply to_number_exact; lia).
  assert (Hodd : to_number (ch_odds c) = ch_odds c) by (apply to_number_exact; lia).
  assert (Hn : exists name, wc_type (shown c) = name /\ wc_amount (shown c) = ch_amount c
    /\ wc_progressMask (shown c) = Some (ch_odds c)
    /\ atsRequiredMask name = ats_required_mask (ch_type c)
    /\ atsPayoutTo1 name = match ch_type c with AtsAll => 175 | _ => 34 end
    /\ match name with Craps_ATS_SMALL | Craps_ATS_TALL | Craps_ATS_ALL => True | _ => False end).
  { eexists. split; [reflexivity|]. unfold shown, parsedBet, raw_bet. cbn [wc_type wc_amount wc_progressMask cb_amount oddsAmount].
    rewrite Hamt, Hodd. by destruct (ch_type c). }
  destruct Hn as (name & En & Ea & Em & Er & Ep & Hname).
  assert (Hreq : 0 < ats_required_mask (ch_type c) < 2 ^ 31) by (by destruct (ch_type c)).
  assert (Hroll : roll_result phase main_point d1 d2 c = ats_result (d1 + d2) c).
  { unfold roll_result. rewrite (total_exact d1 d2 Hd1 Hd2). by destruct (ch_type c). }
  rewrite Hroll. unfold winLose, ats_result. rewrite En, Ea, Em, Er, Ep. cbn [default from_option id].
  rewrite (ats_bit_eq (d1 + d2)) by lia. unfold completes.
  set (bit := ats_bit_for_total (d1 + d2)) in *. set (req := ats_required_mask (ch_type c)) in *.
  pose proof (ats_bit_range (d1 + d2)) as Hbit. fold bit in Hbit.
  rewrite ats_mask_exact by lia. rewrite (crapsPoint_set phase) by done. rewrite (proj2 (Z.eqb_neq req 0)) by lia. cbn [negb].
  destruct (d1 + d2 =? 7) eqn:E7.
  - assert (bit = 0) as -> by (unfold bit; by rewrite (proj1 (Z.eqb_eq _ _) E7)). cbn [Z.eqb negb andb].
    destruct phase;
      [rewrite (bool_decide_eq_false_2 (ComeOut = Point)) by discriminate
      |rewrite (bool_decide_eq_true_2 (Point = Point)) by reflexivity];
      destruct name; try contradiction; cbn; lia.
  - cbn [andb]. destruct (bit =? 0) eqn:Eb; cbn [negb andb].
    { destruct name; try contradiction; cbn; lia. }
    destruct (Z.land _ req =? req).
    + rewrite saturating_add_exact, saturating_mul_exact
        by (destruct (ch_type c); cbn; unfold u64_max; lia).
      destruct name; try contradiction; cbn [profit return_amount wagered]; clear -Ha Hb Hp;
        rewrite js_mul_exact by (destruct (ch_type c); lia); destruct (ch_type c); try discriminate Ha; cbn; lia.
    + destruct name; try contradiction; cbn; lia.
Qed.

Lemma ats_display_witness :
  let c := {| ch_type := AtsSmall; ch_target := 0; ch_status := On; ch_amount := 10; ch_odds := 15 |} in
  exists w l, winLose (1 + 5) (crapsPoint 9) (1 =? 5) (shown c) = (w, l)
  /\ profit (roll_result Point 9 1 5 c) = 30 * 10 /\ w - l = 34 * 10.
Proof.
  intros c.
  pose proof (ats_display Point 9 1 5 c ltac:(by vm_compute) ltac:(by vm_compute) ltac:(by vm_compute)
    ltac:(by vm_compute) ltac:(by vm_compute) ltac:(unfold die; lia) ltac:(unfold die; lia)) as H.
  destruct (winLose (1 + 5) (crapsPoint 9) (1 =? 5) (shown c)) as [w l].
  exists w, l. split; [reflexivity|].
  replace (completes c (1 + 5)) with true in H by by vm_compute.
  change (1 + 5 =? 7) with false in H. cbv iota zeta in H. exact H.
Defined.

(** ** The helpers of the bonus bets *)

(** The number of one bits of a natural number. *)
Fixpoint ones (p : positive) : Z :=
  match p with
  | xH => 1
  | xO p => ones p
  | xI p => 1 + ones p
  end.

Definition popcount (v : Z) : Z := match v with Zpos p => ones p | _ => 0 end.

Lemma popcount_step v : 0 < v -> popcount v = v mod 2 + popcount (v / 2).
Proof.
  intros H. rewrite <- Z.div2_div, Zmod_odd. destruct v as [|p|p]; [lia| |lia].
  destruct p; cbn; lia.
Qed.

Lemma countBits_loop_total k fuel count v :
  (k <= 31)%nat -> (k < fuel)%nat -> 0 <= v < 2 ^ Z.of_nat k ->
  countBits_loop fuel count v = Some (count + popcount v).
Proof.
  revert fuel count v. induction k as [|k IH]; intros fuel count v Hk Hf Hv;
    (destruct fuel as [|fuel]; [lia|]); cbn [countBits_loop].
  - assert (v = 0) as -> by (cbn in Hv; lia). cbn. f_equal. lia.
  - destruct (0 <? v) eqn:E; bprop.
    2:{ assert (v = 0) as -> by lia. cbn. f_equal. lia. }
    assert (Hp : 2 ^ Z.of_nat (S k) <= 2 ^ 31) by (apply Z.pow_le_mono_r; lia).
    assert (Hs : 2 ^ Z.of_nat (S k) = 2 * 2 ^ Z.of_nat k)
      by (rewrite Nat2Z.inj_succ; apply Z.pow_succ_r; lia).
    change 1 with (Z.ones 1) at 1. rewrite js_and_ones, js_shr_id by lia.
    change (2 ^ 1) with 2. rewrite (IH fuel); [|lia|lia|].
    + rewrite (popcount_step v) by lia. f_equal. lia.
    + split; [apply Z.div_pos; lia|apply Z.div_lt_upper_bound; lia].
Qed.

Lemma countBits_loop_S fuel count v :
  countBits_loop (S fuel) count v
  = if 0 <? v then countBits_loop fuel (count + js_and v 1) (js_shr v 1) else Some count.
Proof. reflexivity. Qed.

(** The loop that counts the bits of a mask ends for every number, within
    the fuel of the model: [>>=] makes any number a 32-bit one, which halves in
    every round or is not positive.  For a number below 2^31 it gives the
    number of its one bits. *)
Theorem countBits_terminates v :
  exists n, countBits v = Some n /\ (0 <= v < 2 ^ 31 -> n = popcount v).
Proof.
  unfold countBits. destruct (Z_le_gt_dec 0 v) as [H0|H0], (Z_lt_ge_dec v (2 ^ 31)) as [H1|H1].
  - rewrite (countBits_loop_total 31); [eauto|lia|lia|change (Z.of_nat 31) with 31; lia].
  - rewrite (countBits_loop_S 32), (proj2 (Z.ltb_lt 0 v)) by lia.
    set (w := js_shr v 1).
    assert (Hw : - 2 ^ 30 <= w < 2 ^ 30).
    { unfold w, js_shr. change (to_uint32 1 mod 32) with 1. rewrite Z.shiftr_div_pow2 by lia.
      pose proof (to_int32_range v). change (2 ^ 1) with 2.
      split; [apply Z.div_le_lower_bound; lia|apply Z.div_lt_upper_bound; lia]. }
    destruct (Z_lt_ge_dec w 0).
    + rewrite (countBits_loop_S 31), (proj2 (Z.ltb_ge 0 w)) by lia.
      eexists. split; [reflexivity|lia].
    + rewrite (countBits_loop_total 30); [|lia|lia|change (Z.of_nat 30) with 30; lia].
      eexists. split; [reflexivity|lia].
  - rewrite (countBits_loop_S 32), (proj2 (Z.ltb_ge 0 v)) by lia.
    eexists. split; [reflexivity|lia].
  - rewrite (countBits_loop_S 32), (proj2 (Z.ltb_ge 0 v)) by lia.
    eexists. split; [reflexivity|lia].
Qed.

Lemma js_and_small a b : 0 <= a < 2 ^ 31 -> 0 <= b < 2 ^ 31 -> js_and a b = Z.land a b.
Proof. intros. unfold js_and. by rewrite !to_int32_id by lia. Qed.

Lemma replay_count mask shift :
  0 <= mask < 2 ^ 31 -> 0 <= shift < 32 ->
  js_and (js_shr mask shift) 15 = Z.land (Z.shiftr mask shift) 15.
Proof.
  intros Hm Hs. rewrite js_shr_id, Z.shiftr_div_pow2 by lia.
  assert (0 < 2 ^ shift) by (apply Z.pow_pos_nonneg; lia).
  apply js_and_small; [|lia]. split; [apply Z.div_pos; lia|].
  apply Z.div_lt_upper_bound; nia.
Qed.

(** The tables of Replay, Hot Roller and Different Doubles are those of the
    chain; the table of Ride the Line is not. *)
Lemma bonus_tables :
  (forall mask, 0 <= mask < 2 ^ 31 -> replayPayoutTo1 mask = replay_payout_to_1 mask)
  /\ (forall mask, 0 <= mask < 2 ^ 31 -> hotRollerCompletedPoints mask = hot_roller_completed_points mask)
  /\ (forall n, 0 <= n -> hotRollerPayoutTo1 n = hot_roller_payout_to_1 n
                          /\ diffDoublesPayoutTo1 n = diff_doubles_payout_to_1 n)
  /\ (forall wins, 3 <= wins < 10 -> rideLinePayoutTo1 wins <> ride_line_payout_to_1 wins).
Proof.
  split; [|split; [|split]].
  - intros mask Hm. unfold replayPayoutTo1, replay_payout_to_1. cbn [fold_left].
    by rewrite !replay_count by lia.
  - intros mask Hm. unfold hotRollerCompletedPoints, hot_roller_completed_points.
    change [bits [0; 1]; bits [2; 3]; bits [4; 5; 6]; bits [7; 8; 9]; bits [10; 11]; bits [12; 13]]
      with [3; 12; 112; 896; 3072; 12288].
    cbn [List.filter]. by rewrite !js_and_small by lia.
  - intros n Hn. unfold hotRollerPayoutTo1, hot_roller_payout_to_1, diffDoublesPayoutTo1,
      diff_doubles_payout_to_1.
    destruct (Z_lt_ge_dec n 7) as [H|H].
    + pose proof (proj2 (elem_of_seqZ 0 7 n) ltac:(lia)) as Hin. apply list_elem_of_In in Hin.
      cbn in Hin. by repeat (destruct Hin as [<-|Hin]; [done|]).
    + zcmp. rewrite !lookup_ge_None_2 by (cbn; lia). done.
  - intros wins H. pose proof (proj2 (elem_of_seqZ 3 7 wins) ltac:(lia)) as Hin.
    apply list_elem_of_In in Hin. cbn in Hin. by repeat (destruct Hin as [<-|Hin]; [done|]).
Qed.

(** Bonus bets can be placed until a point is established: before the first
    roll, and after a seven. *)
Lemma canPlaceCrapsBonusBets_spec epoch d1 d2 :
  die d1 -> die d2 -> canPlaceCrapsBonusBets epoch [d1; d2] = negb epoch && (d1 + d2 =? 7).
Proof. unfold die, canPlaceCrapsBonusBets. intros. zcmp. by destruct epoch. Qed.
