(* ===== verification/WebNonce.v ===== *)
(** * The nonce manager of the website

    [website/src/api/nonceManager.js]: transaction nonces and pending
    transactions in the browser's local storage, the queue of submissions, the
    periodic resubmission and the synchronisation with the account.

    The asynchronous methods are split where they [await]: a world holds the
    storage, the manager, and the submissions with the promises they are chained
    on, and an event is one uninterrupted piece of code.  The WebAssembly
    module, the vault and the node are parameters and inputs. *)

From stdpp Require Import sorting.
From S2P Require Import Prelude JsNum Bytes Reader Constants.

(** ** Storage *)

(** A pending transaction as it is stored; [Null] and [Broken] are values under
    the prefix that parse to [null] and that do not parse. *)
Record TxRecord := {
  tx_nonce : Z;
  tx_data : Uint8Array;
  tx_timestamp : Z;
  tx_retryCount : Z
}.

Inductive Item := Parsed (r : TxRecord) | Null | Broken.

(** [localStorage]: the values of [casino_nonce] and [casino_identity], and
    those under [casino_tx_] by the number behind the prefix. *)
Record Storage := {
  casino_nonce : option Z;
  casino_identity : option string;
  casino_txs : gmap Z Item
}.

Definition with_nonce (st : Storage) (n : option Z) : Storage :=
  {| casino_nonce := n; casino_identity := casino_identity st; casino_txs := casino_txs st |}.
Definition with_identity (st : Storage) (i : option string) : Storage :=
  {| casino_nonce := casino_nonce st; casino_identity := i; casino_txs := casino_txs st |}.
Definition with_txs (st : Storage) (t : gmap Z Item) : Storage :=
  {| casino_nonce := casino_nonce st; casino_identity := casino_identity st; casino_txs := t |}.

Definition getCurrentNonce (st : Storage) : Z := default 0 (casino_nonce st).
Definition setNonce (st : Storage) (nonce : Z) : Storage := with_nonce st (Some nonce).
Definition resetNonce (st : Storage) : Storage := with_nonce st (Some 0).
Definition getNextNonce (st : Storage) : Z := getCurrentNonce st.
Definition incrementNonce (st : Storage) : Storage := setNonce st (getCurrentNonce st + 1).

Definition removeItem (st : Storage) (nonce : Z) : Storage := with_txs st (delete nonce (casino_txs st)).
Definition setItem (st : Storage) (nonce : Z) (r : TxRecord) : Storage :=
  with_txs st (<[nonce := Parsed r]> (casino_txs st)).

Definition storeTransaction (st : Storage) (nonce : Z) (txData : Uint8Array) (now : Z) : Storage :=
  setItem st nonce
    {| tx_nonce := nonce; tx_data := txData; tx_timestamp := now; tx_retryCount := 0 |}.

Definition parsed (i : Item) : option TxRecord := match i with Parsed r => Some r | _ => None end.
Definition is_broken (i : Item) : bool := match i with Broken => true | _ => false end.

Definition by_nonce (a b : TxRecord) : Prop := tx_nonce a <= tx_nonce b.

#[export] Instance by_nonce_dec a b : Decision (by_nonce a b).
Proof. unfold by_nonce. apply _. Defined.

Definition records (st : Storage) : list TxRecord := omap parsed (map_to_list (casino_txs st)).*2.

(** Broken values are removed on the way. *)
Definition getPendingTransactions (st : Storage) : Storage * list TxRecord :=
  (with_txs st (filter (fun kv => is_broken kv.2 = false) (casino_txs st)),
   merge_sort by_nonce (records st)).

(** ** The manager *)

Record Manager := {
  publicKey : option (string * Uint8Array);
  resubmitInterval : bool;
  resubmitInProgress : bool
}.

Definition manager_init : Manager :=
  {| publicKey := None; resubmitInterval := false; resubmitInProgress := false |}.

Definition with_progress (m : Manager) (b : bool) : Manager :=
  {| publicKey := publicKey m; resubmitInterval := resubmitInterval m; resubmitInProgress := b |}.

Definition cleanupAllTransactions (m : Manager) (st : Storage) : Storage :=
  match publicKey m with
  | None => st
  | Some _ => with_txs st ∅
  end.

Definition confirmed (confirmedNonce : Z) (i : Item) : bool :=
  match i with Parsed r => tx_nonce r <=? confirmedNonce | _ => false end.

Definition cleanupConfirmedTransactions (st : Storage) (confirmedNonce : Z) : Storage :=
  with_txs st (filter (fun kv => confirmed confirmedNonce kv.2 = false) (casino_txs st)).

(** [account] is the nonce of the account, [None] when the chain has none. *)
Definition syncWithAccountState (m : Manager) (st : Storage) (account : option Z) : Storage :=
  match publicKey m with
  | None => st
  | Some _ =>
      match account with
      | None =>
          let localNonce := getCurrentNonce st in
          let '(st, pendingTxs) := getPendingTransactions st in
          if (0 <? localNonce) || (0 <? len pendingTxs)
          then cleanupAllTransactions m (resetNonce st)
          else st
      | Some serverNonce =>
          let localNonce := getCurrentNonce st in
          let '(st, pendingTxs) := getPendingTransactions st in
          let gap := match pendingTxs with tx :: _ => serverNonce <? tx_nonce tx | [] => false end in
          if gap then cleanupAllTransactions m (setNonce st serverNonce)
          else
            let st := if 0 <? serverNonce then cleanupConfirmedTransactions st (serverNonce - 1) else st in
            if serverNonce =? localNonce then st
            else
              let st := if serverNonce <? localNonce then cleanupAllTransactions m st else st in
              setNonce st serverNonce
      end
  end.

Definition init (m : Manager) (st : Storage) (publicKeyHex : string) (publicKeyBytes : option Uint8Array)
    (account : option Z) (identityHex : string) : result (Manager * Storage) :=
  match publicKeyBytes with
  | None => Throw "Public key is required for initialization"
  | Some bytes =>
      if bool_decide (publicKeyHex = EmptyString)
      then Throw "Public key is required for initialization"
      else
        let m := {| publicKey := Some (publicKeyHex, bytes); resubmitInterval := resubmitInterval m;
                    resubmitInProgress := resubmitInProgress m |} in
        let changed :=
          match casino_identity st with
          | Some stored => negb (bool_decide (stored = EmptyString)) && negb (bool_decide (stored = identityHex))
          | None => false
          end in
        let st := if changed then cleanupAllTransactions m (resetNonce st) else st in
        let st := with_identity st (Some identityHex) in
        let '(st, _) := getPendingTransactions st in
        let st := syncWithAccountState m st account in
        Ok ({| publicKey := publicKey m; resubmitInterval := true;
               resubmitInProgress := resubmitInProgress m |}, st)
  end.

Definition destroy (m : Manager) : Manager :=
  {| publicKey := publicKey m; resubmitInterval := false; resubmitInProgress := false |}.

Definition updateNonceFromTransaction (st : Storage) (executedNonce : Z) : Storage :=
  let currentNonce := getCurrentNonce st in
  let nextExpectedNonce := executedNonce + 1 in
  let st := cleanupConfirmedTransactions st executedNonce in
  if currentNonce <? nextExpectedNonce then setNonce st nextExpectedNonce else st.

(** ** The short hash *)

(** [hash = ((hash << 5) - hash + txData[i]) | 0]. *)
Definition hash_step (hash : Z) (b : byte) : Z := to_int32 (js_shl hash 5 - hash + b2z b).

(** The digits of [n.toString(16)], least significant first; 16 of them are
    enough for the absolute value of a 32-bit number. *)
Fixpoint hex_digits (fuel : nat) (n : Z) : list Z :=
  match fuel with
  | O => []
  | S fuel' => if n <? 16 then [n] else (n mod 16) :: hex_digits fuel' (n / 16)
  end.

Definition upper_digit (v : Z) : byte := z2b (if v <? 10 then 48 + v else 55 + v).

Definition padStart8 (s : Uint8Array) : Uint8Array := replicate (8 - length s) x30 ++ s.

Definition computeTxHash (txData : Uint8Array) : string :=
  let hash := foldl hash_step (len txData) txData in
  string_of_bytes (take 8 (padStart8 (upper_digit <$> reverse (hex_digits 16 (Z.abs hash))))).

(** ** Signing *)

(** The key pair the WebAssembly module holds, the key of the unlocked vault,
    and [import.meta.env.PROD]. *)
Record Signer := {
  sg_keypair : option Uint8Array;
  sg_vault : option Uint8Array;
  sg_isProd : bool
}.

Definition with_keypair (s : Signer) (k : option Uint8Array) : Signer :=
  {| sg_keypair := k; sg_vault := sg_vault s; sg_isProd := sg_isProd s |}.

Definition clearInProd (s : Signer) : Signer := if sg_isProd s then with_keypair s None else s.

(** Run [createTxFn] with the key pair that is loaded. *)
Definition signWith (createTxFn : Uint8Array -> result Uint8Array) (s : Signer) (k : Uint8Array)
    : result Uint8Array * Signer :=
  match createTxFn k with
  | Ok tx => (Ok tx, clearInProd s)
  | Throw e => (Throw e, s)
  end.

(** [createKeypair] is the module's: it checks and loads a key. *)
Definition withSigningKey (createKeypair : Uint8Array -> result Uint8Array) (s : Signer)
    (createTxFn : Uint8Array -> result Uint8Array) : result Uint8Array * Signer :=
  match sg_keypair s with
  | Some k => signWith createTxFn s k
  | None =>
      match sg_vault s with
      | None => (Throw "vault-locked", s)
      | Some keyBytes =>
          match createKeypair keyBytes with
          | Ok k => signWith createTxFn (with_keypair s (Some k)) k
          | Throw e => (Throw e, s)
          end
      end
  end.

(** ** Submissions *)

Record Submitted := {
  sub_accepted : bool;
  sub_nonce : Z;
  sub_txHash : string;
  sub_txDigest : option string
}.

(** A submission: chained behind a promise ([None] is [Promise.resolve()]),
    waiting for the node, or settled. *)
Inductive Job :=
| Waiting (pred : option nat) (createTx : Uint8Array -> Z -> result Uint8Array)
| Running (nonce : Z) (txData : Uint8Array)
| Fulfilled (r : Submitted)
| Rejected (msg : string).

Record World := {
  w_manager : Manager;
  w_storage : Storage;
  w_signer : Signer;
  w_jobs : list Job;
  w_queue : option nat;
  w_resubmit : list TxRecord
}.

Definition world_init (m : Manager) (st : Storage) (s : Signer) : World :=
  {| w_manager := m; w_storage := st; w_signer := s; w_jobs := []; w_queue := None; w_resubmit := [] |}.

Definition with_storage (w : World) (st : Storage) : World :=
  {| w_manager := w_manager w; w_storage := st; w_signer := w_signer w; w_jobs := w_jobs w;
     w_queue := w_queue w; w_resubmit := w_resubmit w |}.

Definition with_job (w : World) (i : nat) (j : Job) : World :=
  {| w_manager := w_manager w; w_storage := w_storage w; w_signer := w_signer w;
     w_jobs := <[i := j]> (w_jobs w); w_queue := w_queue w; w_resubmit := w_resubmit w |}.

Definition with_signer (w : World) (s : Signer) : World :=
  {| w_manager := w_manager w; w_storage := w_storage w; w_signer := s; w_jobs := w_jobs w;
     w_queue := w_queue w; w_resubmit := w_resubmit w |}.

Definition with_resubmit (w : World) (m : Manager) (st : Storage) (l : list TxRecord) : World :=
  {| w_manager := m; w_storage := st; w_signer := w_signer w; w_jobs := w_jobs w;
     w_queue := w_queue w; w_resubmit := l |}.

(** The answers of the node: a status, or an exception of the request. *)
Inductive Answer := Accepted | NotAccepted | Failed (msg : string).

Inductive Event :=
| Submit (createTx : Uint8Array -> Z -> result Uint8Array)
| Start (i : nat) (now : Z)
| NodeAnswer (i : nat) (a : Answer)
| Skip (i : nat)
| Executed (nonce : Z)
| AccountLoaded (account : option Z)
| ResubmitTick
| ResubmitAnswer (a : Answer).

(** The [catch] of the queue: the submission rejects and the queue is reset. *)
Definition reject (w : World) (i : nat) (msg : string) : World :=
  {| w_manager := w_manager w; w_storage := w_storage w; w_signer := w_signer w;
     w_jobs := <[i := Rejected msg]> (w_jobs w); w_queue := None; w_resubmit := w_resubmit w |}.

(** [this.transactionQueue = this.transactionQueue.then(...)]. *)
Definition enqueue (w : World) (createTx : Uint8Array -> Z -> result Uint8Array) : World :=
  {| w_manager := w_manager w; w_storage := w_storage w; w_signer := w_signer w;
     w_jobs := w_jobs w ++ [Waiting (w_queue w) createTx];
     w_queue := Some (length (w_jobs w)); w_resubmit := w_resubmit w |}.

Definition fulfilled (w : World) (p : option nat) : bool :=
  match p with
  | None => true
  | Some i => match w_jobs w !! i with Some (Fulfilled _) => true | _ => false end
  end.

(** The rejection a promise passes on to what is chained on it. *)
Definition rejection (w : World) (p : option nat) : option string :=
  match p with
  | None => None
  | Some i => match w_jobs w !! i with Some (Rejected msg) => Some msg | _ => None end
  end.

(** The resubmission up to its first request. *)
Definition resubmitPendingTransactions (m : Manager) (st : Storage) : Manager * Storage * list TxRecord :=
  if resubmitInProgress m then (m, st, [])
  else
    let '(st, pendingTxs) := getPendingTransactions st in
    if len pendingTxs =? 0 then (m, st, [])
    else
      let currentNonce := getCurrentNonce st in
      let staleTxs := List.filter (fun tx => currentNonce <=? tx_nonce tx) pendingTxs in
      let validPendingTxs := List.filter (fun tx => tx_nonce tx <? currentNonce) pendingTxs in
      let st' := foldl (fun st tx => removeItem st (tx_nonce tx)) st staleTxs in
      let '(st'', validTxs) := if 0 <? len staleTxs then getPendingTransactions st' else (st, pendingTxs) in
      if len validTxs =? 0 then (m, st'', [])
      else (with_progress m (0 <? len validPendingTxs), st'', validPendingTxs).

(** One turn of its loop, when the node has answered for the first record. *)
Definition resubmitAnswer (m : Manager) (st : Storage) (todo : list TxRecord) (a : Answer)
    : Manager * Storage * list TxRecord :=
  match todo with
  | [] => (m, st, [])
  | tx :: rest =>
      match a with
      | Failed _ => (with_progress m false, st, [])
      | Accepted =>
          let tx' := {| tx_nonce := tx_nonce tx; tx_data := tx_data tx;
                        tx_timestamp := tx_timestamp tx; tx_retryCount := tx_retryCount tx + 1 |} in
          (with_progress m (0 <? len rest), setItem st (tx_nonce tx) tx', rest)
      | NotAccepted => (with_progress m (0 <? len rest), st, rest)
      end
  end.

Section world.
Context (createKeypair : Uint8Array -> result Uint8Array).
Context (digestTransaction : Uint8Array -> option string).

(** The body of a submission up to the request. *)
Definition startJob (w : World) (i : nat) (createTx : Uint8Array -> Z -> result Uint8Array) (now : Z) : World :=
  let nonce := getNextNonce (w_storage w) in
  let '(signed, signer) := withSigningKey createKeypair (w_signer w) (fun key => createTx key nonce) in
  let w := with_signer w signer in
  match signed with
  | Throw e => reject w i e
  | Ok txData =>
      with_job (with_storage w (storeTransaction (w_storage w) nonce txData now)) i (Running nonce txData)
  end.

(** The rest of it, when the node has answered. *)
Definition finishJob (w : World) (i : nat) (nonce : Z) (txData : Uint8Array) (a : Answer) : World :=
  match a with
  | Failed msg => reject w i msg
  | _ =>
      let accepted := match a with Accepted => true | _ => false end in
      let st := if accepted then incrementNonce (w_storage w) else removeItem (w_storage w) nonce in
      with_job (with_storage w st) i
        (Fulfilled {| sub_accepted := accepted; sub_nonce := nonce; sub_txHash := computeTxHash txData;
                      sub_txDigest := digestTransaction txData |})
  end.

(** One event; [None] when it cannot happen. *)
Definition step (w : World) (e : Event) : option World :=
  match e with
  | Submit createTx => Some (enqueue w createTx)
  | Start i now =>
      match w_jobs w !! i with
      | Some (Waiting p createTx) => if fulfilled w p then Some (startJob w i createTx now) else None
      | _ => None
      end
  | Skip i =>
      match w_jobs w !! i with
      | Some (Waiting p _) =>
          match rejection w p with
          | Some msg => Some (reject w i msg)
          | None => None
          end
      | _ => None
      end
  | NodeAnswer i a =>
      match w_jobs w !! i with
      | Some (Running nonce txData) => Some (finishJob w i nonce txData a)
      | _ => None
      end
  | Executed nonce => Some (with_storage w (updateNonceFromTransaction (w_storage w) nonce))
  | AccountLoaded account =>
      Some (with_storage w (syncWithAccountState (w_manager w) (w_storage w) account))
  | ResubmitTick =>
      if resubmitInProgress (w_manager w) then Some w
      else
        let '(m, st, todo) := resubmitPendingTransactions (w_manager w) (w_storage w) in
        Some (with_resubmit w m st todo)
  | ResubmitAnswer a =>
      match w_resubmit w with
      | [] => None
      | todo =>
          let '(m, st, todo) := resubmitAnswer (w_manager w) (w_storage w) todo a in
          Some (with_resubmit w m st todo)
      end
  end.

Fixpoint run (w : World) (es : list Event) : option World :=
  match es with
  | [] => Some w
  | e :: es' => w' ← step w e; run w' es'
  end.
End world.

(** ** The transactions *)

(** The constructors of the WebAssembly module, which sign with the key pair
    that is loaded. *)
Record Wasm := {
  createCasinoRegisterTransaction : Uint8Array -> Z -> string -> result Uint8Array;
  createCasinoGameMoveTransaction : Uint8Array -> Z -> Z -> Uint8Array -> result Uint8Array;
  createCasinoStartGameTransaction : Uint8Array -> Z -> Z -> Z -> Z -> result Uint8Array;
  createCasinoToggleShieldTransaction : Uint8Array -> Z -> result Uint8Array;
  createCasinoToggleDoubleTransaction : Uint8Array -> Z -> result Uint8Array;
  createCasinoToggleSuperTransaction : Uint8Array -> Z -> result Uint8Array;
  createCasinoDepositTransaction : Uint8Array -> Z -> Z -> result Uint8Array;
  createCasinoJoinTournamentTransaction : Uint8Array -> Z -> Z -> result Uint8Array;
  createCasinoStartTournamentTransaction : Uint8Array -> Z -> Z -> Z -> Z -> result Uint8Array;
  createCasinoEndTournamentTransaction : Uint8Array -> Z -> Z -> result Uint8Array;
  createCreateVaultTransaction : Uint8Array -> Z -> result Uint8Array;
  createDepositCollateralTransaction : Uint8Array -> Z -> Z -> result Uint8Array;
  createBorrowUsdtTransaction : Uint8Array -> Z -> Z -> result Uint8Array;
  createRepayUsdtTransaction : Uint8Array -> Z -> Z -> result Uint8Array;
  createSwapTransaction : Uint8Array -> Z -> Z -> Z -> bool -> result Uint8Array;
  createAddLiquidityTransaction : Uint8Array -> Z -> Z -> Z -> result Uint8Array;
  createRemoveLiquidityTransaction : Uint8Array -> Z -> Z -> result Uint8Array;
  createDepositSavingsTransaction : Uint8Array -> Z -> Z -> result Uint8Array;
  createWithdrawSavingsTransaction : Uint8Array -> Z -> Z -> result Uint8Array;
  createClaimSavingsRewardsTransaction : Uint8Array -> Z -> result Uint8Array;
  createStakeTransaction : Uint8Array -> Z -> Z -> Z -> result Uint8Array;
  createUnstakeTransaction : Uint8Array -> Z -> result Uint8Array;
  createClaimRewardsTransaction : Uint8Array -> Z -> result Uint8Array;
  createProcessEpochTransaction : Uint8Array -> Z -> result Uint8Array;
  createBridgeWithdrawTransaction : Uint8Array -> Z -> Z -> Uint8Array -> result Uint8Array;
  createBridgeDepositTransaction : Uint8Array -> Z -> Uint8Array -> Z -> Uint8Array -> result Uint8Array;
  createFinalizeBridgeWithdrawalTransaction : Uint8Array -> Z -> Z -> Uint8Array -> result Uint8Array;
  createUpdateOracleTransaction : Uint8Array -> Z -> Z -> Z -> Z -> Uint8Array -> result Uint8Array
}.

Section submissions.
Context (wasm : Wasm).

(** Every [submit...] method hands a function of the nonce to
    [submitTransaction]; it is the argument of its [Submit] event.  Two of them
    check a length first. *)
Definition submitCasinoRegister (name : string) : result Event :=
  let nameBytes := TextEncoder_encode name in
  if CASINO_MAX_NAME_LENGTH <? len nameBytes then Throw "Player name exceeds 32 bytes"
  else Ok (Submit (fun key nonce => createCasinoRegisterTransaction wasm key nonce name)).

Definition submitCasinoGameMove (sessionId : Z) (payload : Uint8Array) : result Event :=
  if CASINO_MAX_PAYLOAD_LENGTH <? len payload then Throw "Game move payload exceeds 256 bytes"
  else Ok (Submit (fun key nonce => createCasinoGameMoveTransaction wasm key nonce sessionId payload)).

Definition submitCasinoStartGame (gameType bet sessionId : Z) : Event :=
  Submit (fun key nonce => createCasinoStartGameTransaction wasm key nonce gameType bet sessionId).

Definition submitCasinoToggleShield : Event :=
  Submit (fun key nonce => createCasinoToggleShieldTransaction wasm key nonce).

Definition submitCasinoToggleDouble : Event :=
  Submit (fun key nonce => createCasinoToggleDoubleTransaction wasm key nonce).

Definition submitCasinoToggleSuper : Event :=
  Submit (fun key nonce => createCasinoToggleSuperTransaction wasm key nonce).

Definition submitCasinoDeposit (amount : Z) : Event :=
  Submit (fun key nonce => createCasinoDepositTransaction wasm key nonce amount).

Definition submitCasinoJoinTournament (tournamentId : Z) : Event :=
  Submit (fun key nonce => createCasinoJoinTournamentTransaction wasm key nonce tournamentId).

Definition submitCasinoStartTournament (tournamentId startTimeMs endTimeMs : Z) : Event :=
  Submit (fun key nonce => createCasinoStartTournamentTransaction wasm key nonce tournamentId startTimeMs endTimeMs).

Definition submitCasinoEndTournament (tournamentId : Z) : Event :=
  Submit (fun key nonce => createCasinoEndTournamentTransaction wasm key nonce tournamentId).

Definition submitCreateVault : Event :=
  Submit (fun key nonce => createCreateVaultTransaction wasm key nonce).

Definition submitDepositCollateral (amount : Z) : Event :=
  Submit (fun key nonce => createDepositCollateralTransaction wasm key nonce amount).

Definition submitBorrowUsdt (amount : Z) : Event :=
  Submit (fun key nonce => createBorrowUsdtTransaction wasm key nonce amount).

Definition submitRepayUsdt (amount : Z) : Event :=
  Submit (fun key nonce => createRepayUsdtTransaction wasm key nonce amount).

Definition submitSwap (amountIn minAmountOut : Z) (isBuyingRng : bool) : Event :=
  Submit (fun key nonce => createSwapTransaction wasm key nonce amountIn minAmountOut isBuyingRng).

Definition submitAddLiquidity (rngAmount usdtAmount : Z) : Event :=
  Submit (fun key nonce => createAddLiquidityTransaction wasm key nonce rngAmount usdtAmount).

Definition submitRemoveLiquidity (shares : Z) : Event :=
  Submit (fun key nonce => createRemoveLiquidityTransaction wasm key nonce shares).

Definition submitDepositSavings (amount : Z) : Event :=
  Submit (fun key nonce => createDepositSavingsTransaction wasm key nonce amount).

Definition submitWithdrawSavings (amount : Z) : Event :=
  Submit (fun key nonce => createWithdrawSavingsTransaction wasm key nonce amount).

Definition submitClaimSavingsRewards : Event :=
  Submit (fun key nonce => createClaimSavingsRewardsTransaction wasm key nonce).

Definition submitStake (amount duration : Z) : Event :=
  Submit (fun key nonce => createStakeTransaction wasm key nonce amount duration).

Definition submitUnstake : Event :=
  Submit (fun key nonce => createUnstakeTransaction wasm key nonce).

Definition submitClaimRewards : Event :=
  Submit (fun key nonce => createClaimRewardsTransaction wasm key nonce).

Definition submitProcessEpoch : Event :=
  Submit (fun key nonce => createProcessEpochTransaction wasm key nonce).

Definition submitBridgeWithdraw (amount : Z) (destinationBytes : Uint8Array) : Event :=
  Submit (fun key nonce => createBridgeWithdrawTransaction wasm key nonce amount destinationBytes).

Definition submitBridgeDeposit (recipientPublicKeyBytes : Uint8Array) (amount : Z) (sourceBytes : Uint8Array) : Event :=
  Submit (fun key nonce => createBridgeDepositTransaction wasm key nonce recipientPublicKeyBytes amount sourceBytes).

Definition submitFinalizeBridgeWithdrawal (withdrawalId : Z) (sourceBytes : Uint8Array) : Event :=
  Submit (fun key nonce => createFinalizeBridgeWithdrawalTransaction wasm key nonce withdrawalId sourceBytes).

Definition submitUpdateOracle (priceVusdtNumerator priceRngDenominator updatedTs : Z) (sourceBytes : Uint8Array) : Event :=
  Submit (fun key nonce => createUpdateOracleTransaction wasm key nonce priceVusdtNumerator priceRngDenominator updatedTs sourceBytes).
End submissions.
