(* ===== verification/WebNonceCorrect.v ===== *)
(** * Theorems about the nonce manager of the website

    The queue of submissions, the synchronisation with the account and the
    resubmission of [WebNonce]: what holds in every run, and what a failing
    submission and an early confirmation do. *)

From stdpp Require Import sorting.
From S2P Require Import Prelude JsNum Bytes Reader Constants WebNonce.

(** ** Storage *)

#[export] Instance by_nonce_total : Total by_nonce.
Proof. intros a b. unfold by_nonce. lia. Qed.

#[export] Instance by_nonce_trans : Transitive by_nonce.
Proof. intros a b c. unfold by_nonce. lia. Qed.

Lemma elem_of_records st r :
  r ∈ records st <-> exists k, casino_txs st !! k = Some (Parsed r).
Proof.
  unfold records. rewrite list_elem_of_omap. split.
  - intros (i & Hi & Hp). apply list_elem_of_fmap in Hi as ([k i'] & -> & Hk).
    apply elem_of_map_to_list in Hk. exists k. destruct i'; cbn in Hp; by simplify_eq.
  - intros (k & Hk). exists (Parsed r). split; [|done].
    apply list_elem_of_fmap. exists (k, Parsed r). split; [done|]. by apply elem_of_map_to_list.
Qed.

(** The pending transactions are the stored records in the order of their
    nonces. *)
Lemma getPending_spec st :
  StronglySorted by_nonce (getPendingTransactions st).2
  /\ (forall r, r ∈ (getPendingTransactions st).2 <-> exists k, casino_txs st !! k = Some (Parsed r)).
Proof.
  split; [apply StronglySorted_merge_sort; apply _|].
  intros r. rewrite <- elem_of_records. cbn [getPendingTransactions snd].
  by rewrite merge_sort_Permutation.
Qed.

Lemma getPending_lookup st k r :
  casino_txs (getPendingTransactions st).1 !! k = Some (Parsed r) <-> casino_txs st !! k = Some (Parsed r).
Proof.
  cbn. rewrite map_lookup_filter_Some. cbn. split; [by intros [? _]|by intros ->].
Qed.

Lemma getPending_nonce st : casino_nonce (getPendingTransactions st).1 = casino_nonce st.
Proof. done. Qed.

Lemma cleanup_lookup st n k r :
  casino_txs (cleanupConfirmedTransactions st n) !! k = Some (Parsed r)
  <-> casino_txs st !! k = Some (Parsed r) /\ n < tx_nonce r.
Proof.
  cbn. rewrite map_lookup_filter_Some. cbn. by rewrite Z.leb_gt.
Qed.

(** ** Synchronisation *)

Definition stored_ok (st : Storage) : Prop :=
  0 <= getCurrentNonce st
  /\ forall k r, casino_txs st !! k = Some (Parsed r) -> 0 <= tx_nonce r.

(** The smallest pending nonce. *)
Definition firstPending (st : Storage) : option Z :=
  match (getPendingTransactions st).2 with
  | [] => None
  | tx :: _ => Some (tx_nonce tx)
  end.

(** The chain is the source of truth: after the synchronisation with an
    account the local nonce is the account's, and what stays pending was pending
    before and is not confirmed; nothing stays when the local nonce was ahead or
    the first pending transaction leaves a gap.  Without an account the nonce is
    0 and nothing is pending. *)
Theorem sync_follows_chain m st account key :
  publicKey m = Some key -> stored_ok st ->
  let st' := syncWithAccountState m st account in
  getCurrentNonce st' = default 0 account
  /\ casino_identity st' = casino_identity st
  /\ match account with
     | None => records st' = []
     | Some s =>
         (forall k r, casino_txs st' !! k = Some (Parsed r) ->
           casino_txs st !! k = Some (Parsed r) /\ s <= tx_nonce r)
         /\ (s < getCurrentNonce st \/ (exists n, firstPending st = Some n /\ s < n) ->
             casino_txs st' = ∅)
     end.
Proof.
  intros Hm [Hn Hr]. unfold syncWithAccountState, firstPending, cleanupAllTransactions. rewrite Hm.
  pose proof (getPending_spec st) as [_ Hin]. pose proof (getPending_lookup st) as Hlk.
  destruct (getPendingTransactions st) as [st1 l] eqn:E. cbn [fst snd] in *.
  assert (En : getCurrentNonce st1 = getCurrentNonce st /\ casino_identity st1 = casino_identity st).
  { unfold getPendingTransactions in E. by simplify_eq. }
  destruct En as [En Ei]. destruct account as [s|]; cbv zeta; unfold default, from_option, id.
  - destruct (match l with tx :: _ => s <? tx_nonce tx | [] => false end) eqn:G; [by repeat split|].
    destruct (s =? getCurrentNonce st) eqn:Es; bprop.
    + destruct (0 <? s) eqn:E0; bprop.
      * split; [unfold getCurrentNonce in *; cbn; congruence|]. split; [done|]. split.
        { intros k r Hk. apply cleanup_lookup in Hk as [Hk ?]. apply Hlk in Hk. split; [done|lia]. }
        { intros [?|(n & Hfp & ?)]; [lia|]. destruct l; [done|]. simplify_eq. bprop. lia. }
      * split; [congruence|]. split; [done|]. split.
        { intros k r Hk. apply Hlk in Hk. split; [done|]. apply Hr in Hk. lia. }
        { intros [?|(n & Hfp & ?)]; [lia|]. destruct l; [done|]. simplify_eq. bprop. lia. }
    + destruct (s <? getCurrentNonce st) eqn:Eb; bprop.
      * split; [done|]. split; [by destruct (0 <? s)|]. by split.
      * split; [done|]. split; [by destruct (0 <? s)|]. split.
        { intros k r. destruct (0 <? s) eqn:E0; bprop; intros Hk.
          - apply cleanup_lookup in Hk as [Hk ?]. apply Hlk in Hk. split; [done|lia].
          - cbn in Hk. apply Hlk in Hk. split; [done|]. apply Hr in Hk. lia. }
        { intros [?|(n & Hfp & ?)]; [lia|]. destruct l; [done|]. simplify_eq. bprop. lia. }
  - destruct ((0 <? getCurrentNonce st) || (0 <? len l)) eqn:G.
    + by repeat split.
    + bprop. split; [lia|]. split; [done|]. destruct l; [|rewrite len_cons in *; pose proof (len_nonneg l); lia].
      apply elem_of_nil_inv. intros r Hx. apply elem_of_records in Hx as [k Hk]. apply Hlk in Hk.
      assert (Hx : r ∈ []) by (apply Hin; by exists k). by apply not_elem_of_nil in Hx.
Qed.

(** ** The queue *)

Definition is_fulfilled (j : Job) : bool := match j with Fulfilled _ => true | _ => false end.
Definition is_waiting (j : Job) : bool := match j with Waiting _ _ => true | _ => false end.
Definition is_rejected (j : Job) : bool := match j with Rejected _ => true | _ => false end.
Definition is_accepted (j : Job) : bool := match j with Fulfilled r => sub_accepted r | _ => false end.

(** The nonce a submission has taken. *)
Definition nonce_of (j : Job) : option Z :=
  match j with
  | Running n _ => Some n
  | Fulfilled r => Some (sub_nonce r)
  | _ => None
  end.

Definition accepted_count (l : list Job) : Z := len (List.filter is_accepted l).

(** No submission has thrown. *)
Definition all_well (w : World) : Prop := Forall (fun j => is_rejected j = false) (w_jobs w).

(** Events by which the storage learns of a nonce from outside. *)
Definition internal (e : Event) : bool :=
  match e with Executed _ | AccountLoaded _ => false | _ => true end.

Definition prev (i : nat) : option nat := match i with O => None | S k => Some k end.

(** Submissions are done one after the other: behind a waiting one everything
    waits, and before one that was started everything is done. *)
Definition in_order (l : list Job) : Prop :=
  forall i j x y, (i < j)%nat -> l !! i = Some x -> l !! j = Some y ->
    is_waiting y = false -> is_fulfilled x = true.

Record queue_inv (w : World) : Prop := {
  qi_queue : w_queue w = prev (length (w_jobs w));
  qi_pred : forall i p c, w_jobs w !! i = Some (Waiting p c) -> p = prev i;
  qi_order : in_order (w_jobs w)
}.

(** The nonces of the submissions, counted from [n0]. *)
Definition nonces_inv (n0 : Z) (w : World) : Prop :=
  getCurrentNonce (w_storage w) = n0 + accepted_count (w_jobs w)
  /\ forall i j n, w_jobs w !! i = Some j -> nonce_of j = Some n ->
       n = n0 + accepted_count (take i (w_jobs w)).

Lemma accepted_count_app l k : accepted_count (l ++ k) = accepted_count l + accepted_count k.
Proof. unfold accepted_count. by rewrite List.filter_app, len_app. Qed.

Lemma accepted_count_none l : Forall (fun j => is_accepted j = false) l -> accepted_count l = 0.
Proof.
  induction 1 as [|j l Hj _ IH]; [done|]. unfold accepted_count in *. cbn. by rewrite Hj.
Qed.

Lemma lookup_insert_cases {A} (l : list A) i j x y :
  <[i := x]> l !! j = Some y -> (i = j /\ x = y /\ (i < length l)%nat) \/ (i <> j /\ l !! j = Some y).
Proof.
  intros H. destruct (decide (i = j)) as [<-|Hne].
  - left. assert (i < length l)%nat.
    { apply lookup_lt_Some in H. by rewrite length_insert in H. }
    rewrite list_lookup_insert_eq in H by done. by simplify_eq.
  - right. by rewrite list_lookup_insert_ne in H.
Qed.

(** Replacing the waiting submission that is next, or the one that runs. *)
Lemma in_order_insert l i x :
  in_order l ->
  (forall j y, (j < i)%nat -> l !! j = Some y -> is_fulfilled y = true) ->
  (forall j y, (i < j)%nat -> l !! j = Some y -> is_waiting y = true) ->
  in_order (<[i := x]> l).
Proof.
  intros Ho Hb Ha a b y z Hab Hy Hz Hw.
  apply lookup_insert_cases in Hy as [(<- & <- & _)|[Hia Hy]];
    apply lookup_insert_cases in Hz as [(<- & <- & _)|[Hib Hz]].
  - lia.
  - pose proof (Ha _ _ Hab Hz). by rewrite Hw in *.
  - by eapply Hb.
  - by eapply Ho.
Qed.

(** Around a submission that is not waiting, or whose predecessor is done. *)
Lemma before_fulfilled w i x :
  queue_inv w -> w_jobs w !! i = Some x ->
  is_waiting x = false \/ fulfilled w (prev i) = true ->
  forall j y, (j < i)%nat -> w_jobs w !! j = Some y -> is_fulfilled y = true.
Proof.
  intros [_ _ Ho] Hx [Hw|Hf] j y Hj Hy; [by eapply Ho|].
  destruct i as [|k]; [lia|]. cbn in Hf. destruct (w_jobs w !! k) as [[| |r|]|] eqn:Ek; try done.
  destruct (decide (j = k)) as [->|]; [by simplify_eq|]. eapply (Ho j k); [lia|done|done|done].
Qed.

Lemma after_waiting w i x :
  queue_inv w -> w_jobs w !! i = Some x -> is_fulfilled x = false ->
  forall j y, (i < j)%nat -> w_jobs w !! j = Some y -> is_waiting y = true.
Proof.
  intros [_ _ Ho] Hx Hf j y Hj Hy. destruct (is_waiting y) eqn:E; [done|].
  by rewrite (Ho i j x y Hj Hx Hy E) in Hf.
Qed.

Lemma queue_inv_insert w w' i x y :
  queue_inv w -> w_jobs w !! i = Some x ->
  is_fulfilled x = false -> is_waiting x = false \/ fulfilled w (prev i) = true ->
  is_waiting y = false ->
  w_jobs w' = <[i := y]> (w_jobs w) -> w_queue w' = w_queue w -> queue_inv w'.
Proof.
  intros Hi Hx Hf Hb Hy Ej Eq. destruct Hi as [Hq Hp Ho] eqn:E. clear E. split.
  - by rewrite Eq, Ej, length_insert.
  - intros k p c. rewrite Ej. intros H. apply lookup_insert_cases in H as [(<- & -> & _)|[_ H]]; [done|].
    by eapply Hp.
  - rewrite Ej. apply in_order_insert; [done| |].
    + by eapply before_fulfilled.
    + by eapply after_waiting.
Qed.

Lemma queue_inv_same w w' :
  queue_inv w -> w_jobs w' = w_jobs w -> w_queue w' = w_queue w -> queue_inv w'.
Proof. intros [? ? ?] E1 E2. split; by rewrite ?E1, ?E2. Qed.

Lemma all_well_lookup w i msg : all_well w -> w_jobs w !! i = Some (Rejected msg) -> False.
Proof. intros H E. by pose proof (Forall_lookup_1 _ _ _ _ H E). Qed.

Lemma reject_not_well w i msg x : w_jobs w !! i = Some x -> ~ all_well (reject w i msg).
Proof.
  intros Hx Hw. apply (all_well_lookup _ i msg Hw). cbn. apply list_lookup_insert_eq.
  by eapply lookup_lt_Some.
Qed.

Lemma count_split l i x :
  l !! i = Some x -> (forall j y, (i < j)%nat -> l !! j = Some y -> is_waiting y = true) ->
  accepted_count l = accepted_count (take i l) + (if is_accepted x then 1 else 0).
Proof.
  intros Hx Ha. rewrite <- (take_drop_middle l i x Hx) at 1. rewrite accepted_count_app.
  change (x :: drop (S i) l) with ([x] ++ drop (S i) l). rewrite accepted_count_app.
  rewrite (accepted_count_none (drop (S i) l)).
  - assert (E : accepted_count [x] = if is_accepted x then 1 else 0)
      by (unfold accepted_count; cbn; by destruct (is_accepted x)).
    rewrite E. lia.
  - apply Forall_lookup. intros k y Hk. rewrite lookup_drop in Hk.
    specialize (Ha (S i + k)%nat y ltac:(lia) Hk). by destruct y.
Qed.

Lemma count_insert l i x y :
  l !! i = Some x -> (forall j z, (i < j)%nat -> l !! j = Some z -> is_waiting z = true) ->
  accepted_count (<[i := y]> l) = accepted_count (take i l) + (if is_accepted y then 1 else 0).
Proof.
  intros Hx Ha. assert (Hi : (i < length l)%nat) by by eapply lookup_lt_Some.
  rewrite (count_split _ i y).
  - by rewrite take_insert_ge by lia.
  - by apply list_lookup_insert_eq.
  - intros j z Hj Hz. rewrite list_lookup_insert_ne in Hz by lia. by eapply Ha.
Qed.

Section queue.
Context (createKeypair : Uint8Array -> result Uint8Array).
Context (digestTransaction : Uint8Array -> option string).

#[local] Abbreviation step := (step createKeypair digestTransaction).
#[local] Abbreviation run := (run createKeypair digestTransaction).

(** What an event does to the submissions. *)
Inductive job_change (w w' : World) : Prop :=
| jc_none : w_jobs w' = w_jobs w -> w_queue w' = w_queue w -> job_change w w'
| jc_enqueue createTx : w' = enqueue w createTx -> job_change w w'
| jc_start i createTx nonce tx :
    w_jobs w !! i = Some (Waiting (prev i) createTx) -> fulfilled w (prev i) = true ->
    nonce = getCurrentNonce (w_storage w) -> getCurrentNonce (w_storage w') = nonce ->
    w_jobs w' = <[i := Running nonce tx]> (w_jobs w) -> w_queue w' = w_queue w -> job_change w w'
| jc_finish i nonce tx r :
    w_jobs w !! i = Some (Running nonce tx) -> sub_nonce r = nonce ->
    getCurrentNonce (w_storage w')
      = getCurrentNonce (w_storage w) + (if sub_accepted r then 1 else 0) ->
    w_jobs w' = <[i := Fulfilled r]> (w_jobs w) -> w_queue w' = w_queue w -> job_change w w'.

Lemma step_change w e w' :
  queue_inv w -> all_well w' -> step w e = Some w' -> job_change w w'.
Proof.
  intros Hq Hw H. destruct e as [c|i now|i a|i|n|acc| |a]; cbn [WebNonce.step] in H.
  - simplify_eq. by eapply jc_enqueue.
  - destruct (w_jobs w !! i) as [[p c| | |]|] eqn:Ei; try done.
    destruct (fulfilled w p) eqn:Ef; [|done]. simplify_eq.
    pose proof (qi_pred w Hq _ _ _ Ei) as ->. unfold startJob in *.
    destruct (withSigningKey _ _ _) as [[tx|e] sg]; [|by apply (reject_not_well (with_signer w sg) i e _ Ei) in Hw].
    by eapply jc_start.
  - destruct (w_jobs w !! i) as [[|n tx| |]|] eqn:Ei; try done. simplify_eq.
    destruct a; cbn [finishJob] in *; [| |by apply (reject_not_well w i msg _ Ei) in Hw];
      eapply (jc_finish _ _ i n tx); try done; cbn; unfold getCurrentNonce; cbn; lia.
  - destruct (w_jobs w !! i) as [[p c| | |]|] eqn:Ei; try done.
    destruct (rejection w p); [|done]. simplify_eq. by apply (reject_not_well w i s _ Ei) in Hw.
  - simplify_eq. by apply jc_none.
  - simplify_eq. by apply jc_none.
  - destruct (resubmitInProgress _); [by simplify_eq; apply jc_none|].
    destruct (resubmitPendingTransactions _ _) as [[m st] l]. simplify_eq. by apply jc_none.
  - destruct (w_resubmit w) as [|t l]; [done|]. destruct (resubmitAnswer _ _ _ _) as [[m st] l'].
    simplify_eq. by apply jc_none.
Qed.

Lemma change_queue w w' : job_change w w' -> queue_inv w -> queue_inv w'.
Proof.
  intros [E1 E2|c ->|i c n tx Ei Ef -> _ Ej Eq|i n tx r Ei _ _ Ej Eq] Hq.
  - by eapply queue_inv_same.
  - destruct Hq as [Hq Hp Ho]. split; cbn.
    + rewrite length_app. cbn [length]. by replace (length (w_jobs w) + 1)%nat with (S (length (w_jobs w))) by lia.
    + intros i p c' H. apply lookup_app_Some in H as [H|[Hl H]]; [by apply (Hp i p c')|].
      apply list_lookup_singleton_Some in H as [Hi H]. simplify_eq.
      rewrite Hq. f_equal. lia.
    + intros i j x y Hij Hx Hy Hw. apply lookup_app_Some in Hy as [Hy|[Hl Hy]].
      * apply lookup_app_Some in Hx as [Hx|[Hl' _]]; [by eapply Ho|].
        apply lookup_lt_Some in Hy. lia.
      * apply list_lookup_singleton_Some in Hy as [_ <-]. done.
  - eapply (queue_inv_insert w w' i _ (Running (getCurrentNonce (w_storage w)) tx)); [done|exact Ei|done|by right|done|done|done].
  - eapply (queue_inv_insert w w' i _ (Fulfilled r)); [done|exact Ei|done|by left|done|done|done].
Qed.

Lemma resubmit_nonce m st m' st' l :
  resubmitPendingTransactions m st = (m', st', l) -> casino_nonce st' = casino_nonce st.
Proof.
  assert (Hf : forall (k : list TxRecord) s,
    casino_nonce (foldl (fun st tx => removeItem st (tx_nonce tx)) s k) = casino_nonce s).
  { induction k as [|t k IH]; intros s; [done|]. cbn. by rewrite IH. }
  unfold resubmitPendingTransactions. destruct (resubmitInProgress m); [by intros [= _ <- _]|].
  pose proof (getPending_nonce st) as E1. destruct (getPendingTransactions st) as [s1 p].
  cbn [fst] in E1. destruct (len p =? 0); [by intros [= _ <- _]|].
  match goal with |- context [if 0 <? ?n then getPendingTransactions ?s else _] =>
    pose proof (getPending_nonce s) as E2; destruct (0 <? n); [destruct (getPendingTransactions s) as [s2 v]|]
  end; cbn [fst] in *; case_match; intros [= _ <- _]; congruence || by rewrite E2, Hf.
Qed.

Lemma change_nonces n0 w e w' :
  step w e = Some w' -> internal e = true ->
  job_change w w' -> queue_inv w -> nonces_inv n0 w -> nonces_inv n0 w'.
Proof.
  intros Hs Hint Hc Hq [Hn Hj].
  destruct Hc as [E1 E2|c ->|i c n tx Ei Ef -> En Ej _|i n tx r Ei Er En Ej _].
  - assert (Es : getCurrentNonce (w_storage w') = getCurrentNonce (w_storage w)).
    { destruct e as [c|i now|i a|i|n|acc| |a]; cbn [WebNonce.step] in Hs; try discriminate.
      - by simplify_eq.
      - destruct (w_jobs w !! i) as [[p c| | |]|] eqn:Ei; try done.
        destruct (fulfilled w p); [|done]. simplify_eq. unfold startJob. by destruct (withSigningKey _ _ _) as [[tx|?] sg].
      - destruct (w_jobs w !! i) as [[|n tx| |]|] eqn:Ei; try done. simplify_eq.
        assert (Hi : (i < length (w_jobs w))%nat) by by eapply lookup_lt_Some.
        destruct a; cbn in *; try done.
        apply (f_equal (fun l => l !! i)) in E1. by rewrite list_lookup_insert_eq, Ei in E1.
      - destruct (w_jobs w !! i) as [[p c| | |]|]; try done. destruct (rejection w p); [|done]. by simplify_eq.
      - destruct (resubmitInProgress _); [by simplify_eq|].
        destruct (resubmitPendingTransactions _ _) as [[m st] l] eqn:E. simplify_eq.
        unfold getCurrentNonce. cbn. by rewrite (resubmit_nonce _ _ _ _ _ E).
      - destruct (w_resubmit w) as [|t l]; [done|]. destruct a; cbn in Hs; by simplify_eq. }
    split; [by rewrite Es, E1|]. by rewrite E1.
  - split.
    { cbn [enqueue w_storage w_jobs].
      rewrite Hn, accepted_count_app, (accepted_count_none [_]) by by repeat constructor. lia. } cbn. intros i j n Hi Hnn.
    apply lookup_app_Some in Hi as [Hi|[_ Hi]].
    + rewrite take_app_le by (apply lookup_lt_Some in Hi; lia). by eapply Hj.
    + apply list_lookup_singleton_Some in Hi as [_ <-]. done.
  - pose proof (after_waiting _ _ _ Hq Ei eq_refl) as Ha.
    pose proof (count_split _ _ _ Ei Ha) as Hc.
    split; [rewrite En, Hn, Ej, (count_insert _ _ _ _ Ei Ha), Hc; cbn; lia|].
    rewrite Ej. intros k j n Hk Hnn. apply lookup_insert_cases in Hk as [(<- & <- & _)|[Hne Hk]].
    + cbn in Hnn. simplify_eq. rewrite take_insert_ge by lia. rewrite Hn, Hc. cbn. lia.
    + destruct (decide (i < k)%nat) as [Hlt|Hge].
      * pose proof (Ha _ _ Hlt Hk). by destruct j.
      * rewrite take_insert_ge by lia. by eapply Hj.
  - pose proof (after_waiting _ _ _ Hq Ei eq_refl) as Ha.
    pose proof (count_split _ _ _ Ei Ha) as Hc. cbn in Hc.
    split; [rewrite En, Hn, Ej, (count_insert _ _ _ _ Ei Ha), Hc; cbn; lia|].
    rewrite Ej. intros k j n' Hk Hnn. apply lookup_insert_cases in Hk as [(<- & <- & _)|[Hne Hk]].
    + cbn in Hnn. simplify_eq. rewrite take_insert_ge by lia. by eapply Hj.
    + destruct (decide (i < k)%nat) as [Hlt|Hge].
      * pose proof (Ha _ _ Hlt Hk). by destruct j.
      * rewrite take_insert_ge by lia. by eapply Hj.
Qed.

(** Settled submissions stay as they are. *)
Definition settled (j : Job) : bool := match j with Fulfilled _ | Rejected _ => true | _ => false end.

Lemma step_settled w e w' j x :
  step w e = Some w' -> w_jobs w !! j = Some x -> settled x = true -> w_jobs w' !! j = Some x.
Proof.
  intros H Hx Sx.
  assert (Hne : forall i y, w_jobs w !! i = Some y -> settled y = false -> i <> j)
    by (intros i y Hy Sy ->; simplify_eq; congruence).
  destruct e as [c|i now|i a|i|n|acc| |a]; cbn [WebNonce.step] in H.
  - simplify_eq. by apply lookup_app_l_Some.
  - destruct (w_jobs w !! i) as [[p c| | |]|] eqn:Ei; try done. pose proof (Hne _ _ Ei eq_refl).
    destruct (fulfilled w p); [|done]. simplify_eq. unfold startJob.
    destruct (withSigningKey _ _ _) as [[tx|e] sg]; cbn; by rewrite list_lookup_insert_ne.
  - destruct (w_jobs w !! i) as [[|n tx| |]|] eqn:Ei; try done. pose proof (Hne _ _ Ei eq_refl).
    simplify_eq. destruct a; cbn; by rewrite list_lookup_insert_ne.
  - destruct (w_jobs w !! i) as [[p c| | |]|] eqn:Ei; try done. pose proof (Hne _ _ Ei eq_refl).
    destruct (rejection w p); [|done]. simplify_eq. cbn. by rewrite list_lookup_insert_ne.
  - by simplify_eq.
  - by simplify_eq.
  - destruct (resubmitInProgress _); [by simplify_eq|].
    destruct (resubmitPendingTransactions _ _) as [[m st] l]. by simplify_eq.
  - destruct (w_resubmit w) as [|t l]; [done|]. destruct (resubmitAnswer _ _ _ _) as [[m st] l']. by simplify_eq.
Qed.

Lemma step_well w e w' : step w e = Some w' -> all_well w' -> all_well w.
Proof.
  intros H Hw. apply Forall_lookup. intros j x Hx. destruct x eqn:Ex; try done.
  by destruct (all_well_lookup _ _ _ Hw (step_settled _ _ _ _ _ H Hx eq_refl)).
Qed.

Lemma run_well w es w' : run w es = Some w' -> all_well w' -> all_well w.
Proof.
  revert w. induction es as [|e es IH]; intros w H Hw; cbn in H; [by simplify_eq|].
  destruct (step w e) as [w1|] eqn:E; [|done]. cbn in H. eapply step_well; [exact E|]. by apply IH.
Qed.

Lemma run_inv n0 w es w' :
  run w es = Some w' -> all_well w' -> queue_inv w ->
  queue_inv w' /\ (forallb internal es = true -> nonces_inv n0 w -> nonces_inv n0 w').
Proof.
  revert w. induction es as [|e es IH]; intros w H Hw Hq; cbn in H; [by simplify_eq|].
  destruct (step w e) as [w1|] eqn:E; [|done]. cbn in H.
  pose proof (step_change _ _ _ Hq (run_well _ _ _ H Hw) E) as Hc.
  destruct (IH w1 H Hw (change_queue _ _ Hc Hq)) as [Hq' Hn']. split; [done|].
  cbn [forallb]. intros [Hi Hes]%andb_true_iff Hn. apply Hn'; [done|]. by eapply change_nonces.
Qed.

(** The invariants hold when nothing has been submitted. *)
Lemma queue_inv_init m st s : queue_inv (world_init m st s).
Proof. split; cbn; [done| |]; intros *; by rewrite ?lookup_nil. Qed.

Lemma nonces_inv_init m st s : nonces_inv (getCurrentNonce st) (world_init m st s).
Proof. split; [cbn [world_init w_storage w_jobs]; change (accepted_count []) with 0; lia|].
  intros i j n. cbn. by rewrite lookup_nil. Qed.
End queue.

Definition is_running (w : World) (i : nat) : Prop :=
  exists n tx, w_jobs w !! i = Some (Running n tx).

(** C29. As long as no submission throws, the queue serializes: in every run
    submissions are done strictly one after the other, at most one waits for
    the node.  In the runs in which no nonce is learned from outside, by an
    executed transaction or the state of the account, each one takes the first
    nonce plus the number of accepted ones before it, so that no two accepted
    submissions share a nonce; an execution that is reported early makes the
    nonce skip one ([early_execution_skips]). *)
Theorem submissions_sequential createKeypair digest m st s es w :
  run createKeypair digest (world_init m st s) es = Some w -> all_well w ->
  in_order (w_jobs w)
  /\ (forall i j, is_running w i -> is_running w j -> i = j)
  /\ (forallb internal es = true ->
      forall i j n, w_jobs w !! i = Some j -> nonce_of j = Some n ->
        n = getCurrentNonce st + accepted_count (take i (w_jobs w))).
Proof.
  intros Hr Hw.
  destruct (run_inv _ _ (getCurrentNonce st) _ _ _ Hr Hw (queue_inv_init m st s)) as [Hq Hn].
  split; [apply Hq|]. split.
  - intros i j (n & tx & Hi) (n' & tx' & Hj). destruct (Nat.lt_trichotomy i j) as [H|[H|H]]; [|done|].
    + by pose proof (qi_order _ Hq _ _ _ _ H Hi Hj eq_refl).
    + by pose proof (qi_order _ Hq _ _ _ _ H Hj Hi eq_refl).
  - intros Hes. by destruct (Hn Hes (nonces_inv_init m st s)) as [_ ?].
Qed.

(** Samples: a key that is loaded, and a transaction made of its nonce. *)
Definition sample_signer : Signer := {| sg_keypair := Some [x01]; sg_vault := None; sg_isProd := false |}.
Definition sample_tx (key : Uint8Array) (nonce : Z) : result Uint8Array := Ok (key ++ be_bytes 8 nonce).
Definition sample_manager : Manager :=
  {| publicKey := Some ("aa", [xaa]); resubmitInterval := true; resubmitInProgress := false |}.
Definition sample_storage : Storage :=
  {| casino_nonce := Some 5; casino_identity := Some "net"; casino_txs := ∅ |}.
Definition sample_world : World := world_init sample_manager sample_storage sample_signer.
Definition sample_run : World -> list Event -> option World := run (fun k => Ok k) (fun _ => None).

Lemma sync_follows_chain_witness :
  getCurrentNonce (syncWithAccountState sample_manager sample_storage (Some 3)) = 3
  /\ casino_txs (syncWithAccountState sample_manager sample_storage (Some 3)) = ∅.
Proof.
  destruct (sync_follows_chain sample_manager sample_storage (Some 3) ("aa", [xaa]) eq_refl) as (H & _ & _ & H2).
  - split; [by vm_compute|]. intros k r Hk. cbn in Hk. by rewrite lookup_empty in Hk.
  - split; [exact H|]. apply H2. left. by vm_compute.
Defined.

Lemma submissions_sequential_witness :
  exists w, sample_run sample_world
      [Submit sample_tx; Submit sample_tx; Start 0 1; NodeAnswer 0 Accepted; Start 1 2; NodeAnswer 1 Accepted]
    = Some w
  /\ nonce_of <$> w_jobs w !! 1%nat = Some (Some 6) /\ in_order (w_jobs w).
Proof.
  eexists. split; [by vm_compute|]. split; [by vm_compute|].
  eapply (submissions_sequential (fun k => Ok k) (fun _ => None) sample_manager sample_storage sample_signer
    [Submit sample_tx; Submit sample_tx; Start 0 1; NodeAnswer 0 Accepted; Start 1 2; NodeAnswer 1 Accepted]).
  - by vm_compute.
  - by repeat constructor.
Defined.

(** ** A submission that throws *)

Lemma step_behind_rejected ck dg w e w' i p c msg :
  step ck dg w e = Some w' ->
  w_jobs w !! p = Some (Rejected msg) ->
  w_jobs w !! i = Some (Waiting (Some p) c) \/ w_jobs w !! i = Some (Rejected msg) ->
  w_jobs w' !! i = Some (Waiting (Some p) c) \/ w_jobs w' !! i = Some (Rejected msg).
Proof.
  intros H Hp [Hi|Hi]; [|right; by eapply step_settled].
  assert (Hlt : (i < length (w_jobs w))%nat) by by eapply lookup_lt_Some.
  destruct e as [c'|k now|k a|k|n|acc| |a]; cbn [step] in H.
  - simplify_eq. left. by apply lookup_app_l_Some.
  - destruct (w_jobs w !! k) as [[p' c'| | |]|] eqn:Ek; try done.
    destruct (fulfilled w p') eqn:Ef; [|done]. simplify_eq.
    assert (k <> i) by (intros ->; simplify_eq; cbn in Ef; by rewrite Hp in Ef).
    left. unfold startJob. destruct (withSigningKey _ _ _) as [[tx|e] sg]; cbn; by rewrite list_lookup_insert_ne.
  - destruct (w_jobs w !! k) as [[|n tx| |]|] eqn:Ek; try done.
    assert (k <> i) by (intros ->; simplify_eq).
    simplify_eq. left. destruct a; cbn; by rewrite list_lookup_insert_ne.
  - destruct (w_jobs w !! k) as [[p' c'| | |]|] eqn:Ek; try done.
    destruct (rejection w p') as [msg'|] eqn:Er; [|done]. simplify_eq. cbn.
    destruct (decide (k = i)) as [->|]; [|left; by rewrite list_lookup_insert_ne].
    right. simplify_eq. cbn in Er. rewrite Hp in Er. simplify_eq. by apply list_lookup_insert_eq.
  - simplify_eq. by left.
  - simplify_eq. by left.
  - destruct (resubmitInProgress _); [simplify_eq; by left|].
    destruct (resubmitPendingTransactions _ _) as [[m st] l]. simplify_eq. by left.
  - destruct (w_resubmit w) as [|t l]; [done|]. destruct (resubmitAnswer _ _ _ _) as [[m st] l'].
    simplify_eq. by left.
Qed.

(** A submission that throws takes the queue behind it along: whatever is
    chained on it is never sent, in any continuation, and can only reject with
    the same error, although the queue is reset so that later submissions are
    not blocked. *)
Theorem failure_fails_queue ck dg w es w' i p c msg :
  w_jobs w !! p = Some (Rejected msg) -> w_jobs w !! i = Some (Waiting (Some p) c) ->
  run ck dg w es = Some w' ->
  (w_jobs w' !! i = Some (Waiting (Some p) c) \/ w_jobs w' !! i = Some (Rejected msg))
  /\ step ck dg w (Skip i) = Some (reject w i msg) /\ w_queue (reject w i msg) = None.
Proof.
  intros Hp Hi Hr. split.
  - assert (H : w_jobs w !! i = Some (Waiting (Some p) c) \/ w_jobs w !! i = Some (Rejected msg)) by by left.
    clear Hi. revert w Hp H Hr. induction es as [|e es IH]; intros w Hp H Hr; cbn in Hr; [by simplify_eq|].
    destruct (step ck dg w e) as [w1|] eqn:E; [|done]. cbn in Hr.
    eapply IH; [| |exact Hr]; [by eapply step_settled|by eapply step_behind_rejected].
  - cbn. rewrite Hi. cbn. by rewrite Hp.
Qed.

Definition failed_world : World :=
  default sample_world (sample_run sample_world
    [Submit sample_tx; Submit sample_tx; Start 0 1; NodeAnswer 0 (Failed "offline")]).

Lemma failure_fails_queue_witness :
  step (fun k => Ok k) (fun _ => None) failed_world (Skip 1) = Some (reject failed_world 1 "offline")
  /\ w_queue (reject failed_world 1 "offline") = None.
Proof.
  exact (proj2 (failure_fails_queue (fun k => Ok k) (fun _ => None) failed_world [] failed_world 1 0
    sample_tx "offline" eq_refl eq_refl eq_refl)).
Defined.

(** The resets of the queue let two submissions run at once: after a
    failure, a new submission starts on the fresh queue, the submission that
    was chained on the failed one rejects and resets the queue again, and the
    next one starts beside the first, with the same nonce. *)
Theorem queue_race :
  exists es w n tx,
    sample_run sample_world es = Some w
    /\ w_jobs w !! 2%nat = Some (Running n tx) /\ w_jobs w !! 3%nat = Some (Running n tx)
    /\ n = getCurrentNonce sample_storage.
Proof.
  exists [Submit sample_tx; Submit sample_tx; Start 0 1; NodeAnswer 0 (Failed "offline");
          Submit sample_tx; Start 2 2; Skip 1; Submit sample_tx; Start 3 3].
  eexists _, _, _. split; [by vm_compute|]. split; [reflexivity|]. split; reflexivity.
Qed.

(** ** Confirmations *)

Lemma update_nonce st n : getCurrentNonce (updateNonceFromTransaction st n) = Z.max (getCurrentNonce st) (n + 1).
Proof.
  unfold updateNonceFromTransaction. destruct (getCurrentNonce st <? n + 1) eqn:E; bprop.
  - cbn. lia.
  - change (getCurrentNonce (cleanupConfirmedTransactions st n)) with (getCurrentNonce st). lia.
Qed.

Lemma increment_nonce st : getCurrentNonce (incrementNonce st) = getCurrentNonce st + 1.
Proof. done. Qed.

(** A confirmation that overtakes the answer of the node is counted twice:
    when the event of the executed transaction arrives before its submission
    returns, the local nonce ends two above it, one more than the account's. *)
Theorem early_execution_skips ck dg w i n tx :
  w_jobs w !! i = Some (Running n tx) -> getCurrentNonce (w_storage w) = n ->
  (exists w', run ck dg w [Executed n; NodeAnswer i Accepted] = Some w'
     /\ getCurrentNonce (w_storage w') = n + 2)
  /\ (exists w', run ck dg w [NodeAnswer i Accepted; Executed n] = Some w'
     /\ getCurrentNonce (w_storage w') = n + 1).
Proof.
  intros Hi Hn. split; cbn [run step mbind option_bind with_storage w_jobs]; rewrite Hi; eexists;
    (split; [reflexivity|]); cbn [finishJob with_job with_storage w_storage];
    rewrite ?increment_nonce, ?update_nonce, ?increment_nonce; lia.
Qed.

Definition early_world : World := default sample_world (sample_run sample_world [Submit sample_tx; Start 0 1]).

Lemma early_execution_skips_witness :
  exists w', sample_run early_world [Executed 5; NodeAnswer 0 Accepted] = Some w'
    /\ getCurrentNonce (w_storage w') = 7.
Proof.
  exact (proj1 (early_execution_skips (fun k => Ok k) (fun _ => None) early_world 0 5
    ([x01] ++ be_bytes 8 5) eq_refl eq_refl)).
Defined.

(** ** Resubmission *)

Lemma foldl_removeItem l st k :
  casino_txs (foldl (fun st tx => removeItem st (tx_nonce tx)) st l) !! k
  = if bool_decide (k ∈ tx_nonce <$> l) then None else casino_txs st !! k.
Proof.
  revert st. induction l as [|t l IH]; intros st; [done|]. cbn [foldl]. rewrite IH. cbn [fmap list_fmap].
  destruct (decide (k = tx_nonce t)) as [->|Hne].
  - rewrite (bool_decide_eq_true_2 (tx_nonce t ∈ tx_nonce t :: _)) by apply list_elem_of_here.
    case_bool_decide; [done|]. cbn. by rewrite lookup_delete_eq.
  - cbn. rewrite lookup_delete_ne by done.
    rewrite (bool_decide_ext (k ∈ tx_nonce t :: _) (k ∈ tx_nonce <$> l)); [done|].
    rewrite elem_of_cons. split; [by intros [?|?]|by right].
Qed.

(** Records are stored under their nonces. *)
Definition keyed (st : Storage) : Prop :=
  forall k r, casino_txs st !! k = Some (Parsed r) -> tx_nonce r = k.

(** What a resubmission sends again is below the current nonce, and it removes
    every record that is not. *)
Lemma resubmit_spec m st m' st' todo :
  resubmitInProgress m = false -> keyed st ->
  resubmitPendingTransactions m st = (m', st', todo) ->
  (forall r, r ∈ todo -> tx_nonce r < getCurrentNonce st)
  /\ (forall k r, casino_txs st' !! k = Some (Parsed r) ->
       casino_txs st !! k = Some (Parsed r) /\ k < getCurrentNonce st).
Proof.
  intros Hm Hk H. unfold resubmitPendingTransactions in H. rewrite Hm in H.
  pose proof (getPending_spec st) as [_ Hin]. pose proof (getPending_lookup st) as Hlk.
  pose proof (getPending_nonce st) as En.
  destruct (getPendingTransactions st) as [s1 p]. cbn [fst snd] in *.
  assert (Ec : getCurrentNonce s1 = getCurrentNonce st) by (unfold getCurrentNonce; by rewrite En).
  rewrite Ec in H. set (n := getCurrentNonce st) in *.
  set (stale := List.filter (fun tx => n <=? tx_nonce tx) p) in *.
  assert (Hstale : forall k r, casino_txs s1 !! k = Some (Parsed r) -> k ∉ tx_nonce <$> stale -> k < n).
  { intros k r Hr Hns. destruct (Z_lt_ge_dec k n) as [|Hge]; [done|]. destruct Hns.
    apply Hlk in Hr. pose proof (Hk _ _ Hr) as <-. apply list_elem_of_fmap. exists r. split; [done|].
    apply list_elem_of_In, List.filter_In. split; [|apply Z.leb_le; lia].
    apply list_elem_of_In, Hin. by exists (tx_nonce r). }
  assert (Hvalid : forall r, r ∈ List.filter (fun tx => tx_nonce tx <? n) p -> tx_nonce r < n).
  { intros r Hr. apply list_elem_of_In, List.filter_In in Hr as [_ Hr]. by apply Z.ltb_lt in Hr. }
  assert (Hrest : forall k r, casino_txs (foldl (fun st tx => removeItem st (tx_nonce tx)) s1 stale) !! k = Some (Parsed r) ->
    casino_txs st !! k = Some (Parsed r) /\ k < n).
  { intros k r. rewrite foldl_removeItem. case_bool_decide; [done|]. intros Hr. split; [by apply Hlk|by eapply Hstale]. }
  destruct (len p =? 0) eqn:Ep; [|destruct (0 <? len stale) eqn:Es].
  - simplify_eq. split; [intros r Hr; by apply not_elem_of_nil in Hr|]. intros k r Hr. apply Hlk in Hr.
    assert (Hx : r ∈ p) by (apply Hin; by exists k). bprop. apply len_zero_nil in Ep. subst p.
    by apply not_elem_of_nil in Hx.
  - pose proof (getPending_lookup (foldl (fun st tx => removeItem st (tx_nonce tx)) s1 stale)) as Hl2.
    destruct (getPendingTransactions (foldl _ s1 stale)) as [s2 v]. cbn [fst] in Hl2.
    destruct (len v =? 0); simplify_eq; (split; [|intros k r Hr; apply Hrest; by apply Hl2]); [|done].
    intros r Hr. by apply not_elem_of_nil in Hr.
  - rewrite Ep in H. simplify_eq. split; [done|]. intros k r Hr. split; [by apply Hlk|].
    eapply Hstale; [done|]. bprop. assert (E0 : stale = []) by (apply len_zero_nil; pose proof (len_nonneg stale); lia).
    rewrite E0. apply not_elem_of_nil.
Qed.

(** A transaction whose request failed is not tried again: its record is
    stored under the current nonce, which a failure does not advance, and the
    next resubmission takes such a record for a stale one: it removes it, and
    sends only records below the current nonce. *)
Theorem failed_submission_forgotten ck dg w i n tx msg :
  w_jobs w !! i = Some (Running n tx) -> getCurrentNonce (w_storage w) = n ->
  keyed (w_storage w) -> resubmitInProgress (w_manager w) = false ->
  exists w', run ck dg w [NodeAnswer i (Failed msg); ResubmitTick] = Some w'
    /\ (forall r, casino_txs (w_storage w') !! n <> Some (Parsed r))
    /\ (forall r, r ∈ w_resubmit w' -> tx_nonce r < n).
Proof.
  intros Hi Hn Hk Hm. cbn [run step mbind option_bind]. rewrite Hi.
  cbn [finishJob reject w_manager w_storage mbind option_bind step run].
  rewrite Hm. destruct (resubmitPendingTransactions _ _) as [[m' st'] todo] eqn:E.
  destruct (resubmit_spec _ _ _ _ _ Hm Hk E) as [Ht Hs]. rewrite Hn in *.
  assert (Hg : forall r, casino_txs st' !! n <> Some (Parsed r)) by (intros r Hr; apply Hs in Hr; lia).
  eexists. split; [reflexivity|]. cbn. by split_and!.
Qed.

Lemma failed_submission_forgotten_witness :
  exists w', sample_run early_world [NodeAnswer 0 (Failed "offline"); ResubmitTick] = Some w'
    /\ (forall r, casino_txs (w_storage w') !! 5 <> Some (Parsed r)) /\ (forall r, r ∈ w_resubmit w' -> tx_nonce r < 5).
Proof.
  refine (failed_submission_forgotten (fun k => Ok k) (fun _ => None) early_world 0 5
    ([x01] ++ be_bytes 8 5) "offline" eq_refl eq_refl _ eq_refl).
  intros k r Hk. change (casino_txs (w_storage early_world)) with
    (<[5 := Parsed {| tx_nonce := 5; tx_data := [x01] ++ be_bytes 8 5; tx_timestamp := 1; tx_retryCount := 0 |}]>
       (∅ : gmap Z Item)) in Hk.
  apply lookup_insert_Some in Hk as [[<- Hk]|[_ Hk]]; [|by rewrite lookup_empty in Hk]. by simplify_eq.
Defined.

(** ** The short hash *)

Lemma hex_digits_length fuel k n :
  (0 < k)%nat -> 0 <= n < 16 ^ Z.of_nat k -> (length (hex_digits fuel n) <= k)%nat.
Proof.
  revert k n. induction fuel as [|fuel IH]; intros k n Hk Hn; [cbn; lia|]. cbn.
  destruct (n <? 16) eqn:E; [cbn; lia|]. bprop. destruct k as [|[|k]]; [lia|cbn in Hn; lia|].
  cbn. apply le_n_S, IH; [lia|]. replace (Z.of_nat (S (S k))) with (Z.of_nat (S k) + 1) in Hn by lia.
  rewrite Z.pow_add_r, Z.pow_1_r in Hn by lia. split; [apply Z.div_pos; lia|].
  apply Z.div_lt_upper_bound; lia.
Qed.

Lemma hash_range l acc : - 2 ^ 31 <= acc < 2 ^ 31 -> - 2 ^ 31 <= foldl hash_step acc l < 2 ^ 31.
Proof. revert acc. induction l as [|b l IH]; intros acc H; [done|]. cbn. apply IH, to_int32_range. Qed.

(** The hash shown for a transaction always has eight characters: nothing is
    cut off by the slice. *)
Lemma computeTxHash_length txData : length (bytes_of_string (computeTxHash txData)) = 8%nat.
Proof.
  unfold computeTxHash. rewrite bytes_of_string_of_bytes, length_take. unfold padStart8.
  rewrite length_app, length_replicate, length_fmap, length_reverse.
  assert (H : - 2 ^ 31 <= foldl hash_step (len txData) txData < 2 ^ 31).
  { destruct txData as [|b l]; [by vm_compute|]. cbn [foldl]. apply hash_range, to_int32_range. }
  pose proof (hex_digits_length 16 8 (Z.abs (foldl hash_step (len txData) txData)) ltac:(lia)) as Hl.
  change (16 ^ Z.of_nat 8) with (2 ^ 32) in Hl. specialize (Hl ltac:(lia)). lia.
Qed.

(** ** Signing *)

(** In production no key stays in the module after a transaction was signed;
    one that could not be signed leaves the key of the vault behind. *)
Lemma signing_clears ck s create :
  sg_isProd s = true ->
  match withSigningKey ck s create with
  | (Ok _, s') => sg_keypair s' = None
  | (Throw _, s') =>
      sg_keypair s' = sg_keypair s
      \/ exists v k e, sg_vault s = Some v /\ ck v = Ok k /\ create k = Throw e /\ sg_keypair s' = Some k
  end.
Proof.
  intros Hp. unfold withSigningKey, signWith, clearInProd.
  destruct (sg_keypair s) as [k|] eqn:Ek.
  - destruct (create k); [by rewrite Hp|by left].
  - destruct (sg_vault s) as [v|] eqn:Ev; [|by left]. destruct (ck v) as [k|] eqn:Ec; [|by left].
    destruct (create k) eqn:Er; cbn; [by rewrite Hp|]. right. by eexists _, _, _.
Qed.
