(* ===== verification/TableSlips.v ===== *)
(** * The betting slips of the website

    [website/src/hooks/games/useRoulette.ts], [useSicBo.ts] and [useBaccarat.ts]:
    placing and removing bets, undo, rebet, and sending the slip to the chain.
    Sending is cut where it waits for the node: the press, and the answer, which
    finds the slip and the refs as they are by then.

    A callback reads the state of the render it was created in, the snapshot,
    and updates the current state; both are arguments.  They are the same when
    the player acts on what is shown.  The two hooks differ in their texts and
    in the prison of roulette; what they share is written once, for any type of
    bet. *)

From S2P Require Import Prelude JsNum Bytes Constants Batch WebBets Arith SicBo Roulette.

(** ** Bets on a slip *)

Class SlipBet (B K : Type) := {
  key_dec :: EqDecision K;
  keyOf : B -> K;
  amountOf : B -> Z;
  makeBet : K -> Z -> B;
  nameOf : K -> string;
  encodeBets : list B -> result Uint8Array
}.

Class SlipBetLaws (B K : Type) `{SlipBet B K} := {
  keyOf_makeBet k a : keyOf (makeBet k a) = k;
  amountOf_makeBet k a : amountOf (makeBet k a) = a
}.

#[export] Instance roulette_slip : SlipBet RouletteBet (RouletteBetName * option Z) := {
  keyOf b := (rb_type b, rb_target b);
  amountOf := rb_amount;
  makeBet k a := {| rb_type := k.1; rb_target := k.2; rb_amount := a |};
  nameOf k := RouletteBetName_name k.1;
  encodeBets l := serializeRouletteAtomicBatch (Roulette.web_bet <$> l)
}.

#[export] Instance sicbo_slip : SlipBet SicBoBet (SicBoBetName * option Z) := {
  keyOf b := (sb_type b, sb_target b);
  amountOf := sb_amount;
  makeBet k a := {| sb_type := k.1; sb_target := k.2; sb_amount := a |};
  nameOf k := SicBoBetName_name k.1;
  encodeBets l := serializeSicBoAtomicBatch (SicBo.web_bet <$> l)
}.

#[export] Instance roulette_slip_laws : SlipBetLaws RouletteBet (RouletteBetName * option Z).
Proof. by split; intros [??] ?. Qed.

#[export] Instance sicbo_slip_laws : SlipBetLaws SicBoBet (SicBoBetName * option Z).
Proof. by split; intros [??] ?. Qed.

(** The fields of the game state that belong to a slip. *)
Record Slip (B : Type) := MkSlip {
  s_bets : list B;
  s_undoStack : list (list B);
  s_lastRoundBets : list B;
  s_inputMode : string;
  s_bet : Z;
  s_sessionWager : Z;
  s_message : string
}.

Arguments MkSlip {B}.
Arguments s_bets {B}.
Arguments s_undoStack {B}.
Arguments s_lastRoundBets {B}.
Arguments s_inputMode {B}.
Arguments s_bet {B}.
Arguments s_sessionWager {B}.
Arguments s_message {B}.

Section slip.
Context {B K : Type} `{SlipBet B K}.

#[local] Abbreviation Slip := (Slip B).

Definition with_message (s : Slip) (m : string) : Slip :=
  MkSlip (s_bets s) (s_undoStack s) (s_lastRoundBets s) (s_inputMode s) (s_bet s) (s_sessionWager s) m.

(** [bets.reduce((a, b) => a + b.amount, 0)]. *)
Definition totalAmount (bets : list B) : Z := foldl (fun sum b => sum + amountOf b) 0 bets.

Definition sameKey (k : K) (b : B) : bool := bool_decide (keyOf b = k).

Definition placeBet (snap : Slip) (chips : Z) (k : K) (prev : Slip) : Slip :=
  if existsb (sameKey k) (s_bets snap) then
    let newBets := List.filter (fun b => negb (sameKey k b)) (s_bets snap) in
    let removedAmount :=
      foldl (fun sum b => if sameKey k b then sum + amountOf b else sum) 0 (s_bets snap) in
    MkSlip newBets (s_undoStack prev) (s_lastRoundBets prev) "NONE" (s_bet prev)
      (Z.max 0 (s_sessionWager prev - removedAmount)) ("REMOVED " +:+ nameOf k)
  else if chips <? s_bet snap then prev
  else
    MkSlip (s_bets prev ++ [makeBet k (s_bet prev)]) (s_undoStack prev ++ [s_bets prev])
      (s_lastRoundBets prev) "NONE" (s_bet prev) (s_sessionWager prev + s_bet prev)
      ("BET " +:+ nameOf k).

(** The last slip of the undo stack; the state holds [undefined] bets when
    there is none. *)
Definition undoBet (snap prev : Slip) : option Slip :=
  match s_undoStack snap with
  | [] => Some prev
  | _ =>
      bets ← last (s_undoStack prev);
      Some (MkSlip bets (removelast (s_undoStack prev)) (s_lastRoundBets prev) (s_inputMode prev)
        (s_bet prev) (s_sessionWager prev) (s_message prev))
  end.

Definition rebet (text : string) (snap : Slip) (chips : Z) (prev : Slip) : Slip :=
  let totalRequired := totalAmount (s_lastRoundBets snap) in
  if (len (s_lastRoundBets snap) =? 0) || (chips <? totalRequired) then prev
  else
    MkSlip (s_bets prev ++ s_lastRoundBets prev) (s_undoStack prev ++ [s_bets prev])
      (s_lastRoundBets prev) (s_inputMode prev) (s_bet prev) (s_sessionWager prev + totalRequired) text.

(** [betsToSpin] and [betsToRoll]: an empty slip repeats the last round. *)
Definition betsToSend (snap : Slip) (blocked : bool) : bool * list B :=
  let shouldRebet := negb blocked && (len (s_bets snap) =? 0) && (0 <? len (s_lastRoundBets snap)) in
  (shouldRebet, if shouldRebet then s_lastRoundBets snap else s_bets snap).

(** The update that shows the repeated bets. *)
Definition showRebet (text : string) (snap prev : Slip) : Slip :=
  MkSlip (s_lastRoundBets snap) (s_undoStack prev ++ [s_bets prev]) (s_lastRoundBets prev)
    (s_inputMode prev) (s_bet prev) (s_sessionWager prev + totalAmount (s_lastRoundBets snap)) text.

Definition clearSlip (last : list B) (s : Slip) : Slip :=
  MkSlip [] [] last (s_inputMode s) (s_bet s) (s_sessionWager s) (s_message s).
End slip.

(** ** Sending a slip *)

(** The refs and properties the callbacks consult. *)
Record Env := {
  isPending : bool;
  isOnChain : bool;
  hasService : bool;
  currentSession : option Z;
  pendingMoveCount : Z
}.

Definition with_pending (e : Env) (b : bool) (n : Z) : Env :=
  {| isPending := b; isOnChain := isOnChain e; hasService := hasService e;
     currentSession := currentSession e; pendingMoveCount := n |}.

(** A session id is tested as a truth value, and [0n] is false. *)
Definition liveSession (e : Env) : option Z :=
  session ← currentSession e;
  if session =? 0 then None else Some session.

(** What a callback did besides updating the state. *)
Inductive Effect (B : Type) :=
| Nothing
| Sent (session : Z) (payload : Uint8Array)
| Drafted (bets : list B).

Arguments Nothing {B}.
Arguments Sent {B} session payload.
Arguments Drafted {B} bets.

(** The state of the roulette table. *)
Record RouletteUI := {
  ui_slip : Slip RouletteBet;
  ui_isPrison : bool;
  ui_zeroRule : string
}.

Definition with_slip (u : RouletteUI) (s : Slip RouletteBet) : RouletteUI :=
  {| ui_slip := s; ui_isPrison := ui_isPrison u; ui_zeroRule := ui_zeroRule u |}.

Definition placeRouletteBet (snap : RouletteUI) (chips : Z) (type : RouletteBetName) (target : option Z)
    (prev : RouletteUI) : RouletteUI :=
  if ui_isPrison snap then with_slip prev (with_message (ui_slip prev) "EN PRISON - NO NEW BETS")
  else with_slip prev (placeBet (ui_slip snap) chips (type, target) (ui_slip prev)).

Definition undoRouletteBet (snap prev : RouletteUI) : option RouletteUI :=
  with_slip prev <$> undoBet (ui_slip snap) (ui_slip prev).

Definition rebetRoulette (snap : RouletteUI) (chips : Z) (prev : RouletteUI) : RouletteUI :=
  with_slip prev (rebet "REBET PLACED" (ui_slip snap) chips (ui_slip prev)).

Definition nextZeroRule (rule : string) : string :=
  if bool_decide (rule = "STANDARD") then "LA_PARTAGE"
  else if bool_decide (rule = "LA_PARTAGE") then "EN_PRISON"
  else if bool_decide (rule = "EN_PRISON") then "EN_PRISON_DOUBLE"
  else if bool_decide (rule = "EN_PRISON_DOUBLE") then "AMERICAN"
  else "STANDARD".

Definition ruleByte (rule : string) : Z :=
  if bool_decide (rule = "LA_PARTAGE") then 1
  else if bool_decide (rule = "EN_PRISON") then 2
  else if bool_decide (rule = "EN_PRISON_DOUBLE") then 3
  else if bool_decide (rule = "AMERICAN") then 4
  else 0.

(** The message drops the underscores of the name. *)
Definition ruleText (rule : string) : string :=
  string_of_bytes ((fun b => if bool_decide (b = x5f) then x20 else b) <$> bytes_of_string rule).

(** The rule of zero, and the answer to it. *)
Definition cycleRouletteZeroRule (isRoulette : bool) (env : Env) (snap prev : RouletteUI)
    : RouletteUI * Env * Effect RouletteBet :=
  if negb isRoulette then (prev, env, Nothing)
  else
    let nextRule := nextZeroRule (ui_zeroRule snap) in
    let prev := {| ui_slip := with_message (ui_slip prev) ("ZERO RULE: " +:+ ruleText nextRule);
                   ui_isPrison := ui_isPrison prev; ui_zeroRule := nextRule |} in
    match liveSession env with
    | Some session =>
        if isOnChain env && hasService env && negb (ui_isPrison snap) then
          if isPending env then (prev, env, Nothing)
          else (prev, with_pending env true (pendingMoveCount env),
                Sent session (u8array [RouletteMove_code RL_SetRules; ruleByte nextRule]))
        else (prev, env, Nothing)
    | None => (prev, env, Nothing)
    end.

Definition ruleAnswered (ok : bool) (env : Env) (prev : RouletteUI) : RouletteUI * Env :=
  if ok then (prev, env)
  else (with_slip prev (with_message (ui_slip prev) "RULE UPDATE FAILED"),
        with_pending env false (pendingMoveCount env)).

(** The part of a spin that needs the chain: no session yet, or a session, whose
    node is sent the batch. *)
Definition sendSlip {B K} `{SlipBet B K} (env : Env) (bets : list B) (sending failed : string) (prev : Slip B)
    : Slip B * Env * Effect B :=
  if isPending env then (prev, env, Nothing)
  else if isOnChain env && hasService env then
    match liveSession env with
    | None => (with_message prev "STARTING NEW SESSION...", env, Drafted bets)
    | Some session =>
        let shown := with_message prev sending in
        match encodeBets bets with
        | Throw _ => (with_message shown failed, with_pending env false 0, Nothing)
        | Ok payload => (shown, with_pending env true 1, Sent session payload)
        end
    end
  else if isOnChain env then (prev, env, Nothing)
  else (with_message prev "OFFLINE - CHECK CONNECTION", env, Nothing).

(** A move was refused: the player may try again. *)
Definition sendFailed {B} (failed : string) (env : Env) (prev : Slip B) : Slip B * Env :=
  (with_message prev failed, with_pending env false 0).

(** A spin in prison sends no bets: they are on the chain already. *)
Definition spinInPrison (env : Env) (prev : Slip RouletteBet) : Slip RouletteBet * Env * Effect RouletteBet :=
  if isPending env then (prev, env, Nothing)
  else if isOnChain env && hasService env then
    match liveSession env with
    | None => (with_message prev "PRISON - WAIT FOR SESSION", env, Nothing)
    | Some session =>
        (with_message prev "SPINNING ON CHAIN...", with_pending env true 1,
         Sent session (u8array [RouletteMove_code RL_Spin]))
    end
  else if isOnChain env then (prev, env, Nothing)
  else (with_message prev "OFFLINE - CHECK CONNECTION", env, Nothing).

Definition spinRoulette (env : Env) (snap : RouletteUI) (chips : Z) (prev : RouletteUI)
    : RouletteUI * Env * Effect RouletteBet :=
  let '(shouldRebet, betsToSpin) := betsToSend (ui_slip snap) (ui_isPrison snap) in
  if negb (ui_isPrison snap) && (len betsToSpin =? 0) then
    (with_slip prev (with_message (ui_slip prev) "PLACE BET"), env, Nothing)
  else if shouldRebet && (chips <? totalAmount (s_lastRoundBets (ui_slip snap))) then
    (with_slip prev (with_message (ui_slip prev) "INSUFFICIENT FUNDS"), env, Nothing)
  else
    let slip := if shouldRebet then showRebet "REBET PLACED" (ui_slip snap) (ui_slip prev) else ui_slip prev in
    let '(slip, env, effect) :=
      if ui_isPrison snap then spinInPrison env slip
      else sendSlip env betsToSpin "SPINNING ON CHAIN..." "SPIN FAILED - TRY AGAIN" slip in
    (with_slip prev slip, env, effect).

(** The answer to a spin, sent in prison or not: an accepted batch empties the
    slip as it is now, and remembers its bets. *)
Definition spinAnswered (inPrison ok : bool) (env : Env) (prev : RouletteUI) : RouletteUI * Env :=
  if ok then ((if inPrison then prev else with_slip prev (clearSlip (s_bets (ui_slip prev)) (ui_slip prev))), env)
  else let '(slip, env) := sendFailed "SPIN FAILED - TRY AGAIN" env (ui_slip prev) in (with_slip prev slip, env).

Definition placeSicBoBet (snap : Slip SicBoBet) (chips : Z) (type : SicBoBetName) (target : option Z)
    (prev : Slip SicBoBet) : Slip SicBoBet :=
  placeBet snap chips (type, target) prev.

Definition undoSicBoBet (snap prev : Slip SicBoBet) : option (Slip SicBoBet) := undoBet snap prev.

Definition rebetSicBo (snap : Slip SicBoBet) (chips : Z) (prev : Slip SicBoBet) : Slip SicBoBet :=
  rebet "REBET" snap chips prev.

Definition rollSicBo (env : Env) (snap : Slip SicBoBet) (chips : Z) (prev : Slip SicBoBet)
    : Slip SicBoBet * Env * Effect SicBoBet :=
  let '(shouldRebet, betsToRoll) := betsToSend snap false in
  if len betsToRoll =? 0 then (with_message prev "PLACE BET", env, Nothing)
  else if shouldRebet && (chips <? totalAmount (s_lastRoundBets snap)) then
    (with_message prev "INSUFFICIENT FUNDS", env, Nothing)
  else
    let slip := if shouldRebet then showRebet "REBET" snap prev else prev in
    sendSlip env betsToRoll "ROLLING..." "MOVE FAILED" slip.

(** The answer to a roll of [betsToRoll]. *)
Definition rollAnswered (betsToRoll : list SicBoBet) (ok : bool) (env : Env) (prev : Slip SicBoBet)
    : Slip SicBoBet * Env :=
  if ok then (clearSlip betsToRoll prev, env) else sendFailed "MOVE FAILED" env prev.

(** ** Baccarat *)

Record BaccaratSlip := {
  bs_bets : list (BaccaratBetName * Z);
  bs_undoStack : list (list (BaccaratBetName * Z));
  bs_lastRoundBets : list (BaccaratBetName * Z);
  bs_selection : BaccaratSelection;
  bs_bet : Z;
  bs_sessionWager : Z;
  bs_betsRef : list (BaccaratBetName * Z);
  bs_selectionRef : BaccaratSelection
}.

Definition with_baccarat (s : BaccaratSlip) (bets : list (BaccaratBetName * Z))
    (undo : list (list (BaccaratBetName * Z))) (wager : Z) : BaccaratSlip :=
  {| bs_bets := bets; bs_undoStack := undo; bs_lastRoundBets := bs_lastRoundBets s;
     bs_selection := bs_selection s; bs_bet := bs_bet s; bs_sessionWager := wager;
     bs_betsRef := bets; bs_selectionRef := bs_selectionRef s |}.

Definition toggleSelection (sel : BaccaratSelection) (s : BaccaratSlip) : BaccaratSlip :=
  {| bs_bets := bs_bets s; bs_undoStack := bs_undoStack s; bs_lastRoundBets := bs_lastRoundBets s;
     bs_selection := sel; bs_bet := bs_bet s; bs_sessionWager := bs_sessionWager s;
     bs_betsRef := bs_betsRef s; bs_selectionRef := sel |}.

(** [findIndex] and the filter by index: the first bet of the type goes. *)
Fixpoint removeFirst (type : BaccaratBetName) (bets : list (BaccaratBetName * Z))
    : option (Z * list (BaccaratBetName * Z)) :=
  match bets with
  | [] => None
  | b :: bets' =>
      if bool_decide (b.1 = type) then Some (b.2, bets')
      else '(amount, rest) ← removeFirst type bets'; Some (amount, b :: rest)
  end.

Definition placeBaccaratBet (chips : Z) (type : BaccaratBetName) (prev : BaccaratSlip) : BaccaratSlip :=
  match removeFirst type (bs_bets prev) with
  | Some (amountToRemove, newBets) =>
      with_baccarat prev newBets (bs_undoStack prev ++ [bs_bets prev])
        (bs_sessionWager prev - amountToRemove)
  | None =>
      if chips <? bs_bet prev then prev
      else with_baccarat prev (bs_bets prev ++ [(type, bs_bet prev)])
             (bs_undoStack prev ++ [bs_bets prev]) (bs_sessionWager prev + bs_bet prev)
  end.

Definition undoBaccarat (snap prev : BaccaratSlip) : BaccaratSlip :=
  match last (bs_undoStack snap) with
  | Some newBets => with_baccarat prev newBets (removelast (bs_undoStack prev)) (bs_sessionWager prev)
  | None => prev
  end.

Definition rebetBaccarat (snap prev : BaccaratSlip) : BaccaratSlip :=
  if 0 <? len (bs_lastRoundBets snap)
  then with_baccarat prev (bs_bets snap ++ bs_lastRoundBets snap) (bs_undoStack prev) (bs_sessionWager prev)
  else prev.

(** ** The wager *)

Section wager.
Context {B K : Type} `{SlipBetLaws B K}.

Lemma totalAmount_zsum (bets : list B) : totalAmount bets = zsum amountOf bets.
Proof.
  unfold totalAmount. assert (G : forall a, foldl (fun sum b => sum + amountOf b) a bets = a + zsum amountOf bets).
  { induction bets as [|b l IH]; intros a; autorewrite with js; [cbn; lia|]. cbn. rewrite IH. lia. }
  rewrite G. lia.
Qed.

Lemma removed_zsum (k : K) (bets : list B) :
  foldl (fun sum b => if sameKey k b then sum + amountOf b else sum) 0 bets
  + zsum amountOf (List.filter (fun b => negb (sameKey k b)) bets) = zsum amountOf bets.
Proof.
  assert (G : forall a, foldl (fun sum b => if sameKey k b then sum + amountOf b else sum) a bets
    + zsum amountOf (List.filter (fun b => negb (sameKey k b)) bets) = a + zsum amountOf bets).
  { induction bets as [|b l IH]; intros a; autorewrite with js; [cbn; lia|]. cbn [foldl List.filter].
    destruct (sameKey k b); cbn [negb];
      [specialize (IH (a + amountOf b)) | specialize (IH a)]; autorewrite with js; lia. }
  rewrite G. lia.
Qed.

(** What a player does between two rounds. *)
Inductive SlipOp := Place (chips : Z) (k : K) | Rebet (chips : Z) | Undo.

Definition slip_op (text : string) (s : Slip B) (o : SlipOp) : option (Slip B) :=
  match o with
  | Place chips k => Some (placeBet s chips k s)
  | Rebet chips => Some (rebet text s chips s)
  | Undo => undoBet s s
  end.

Definition is_undo (o : SlipOp) : bool := match o with Undo => true | _ => false end.

Fixpoint slip_run (text : string) (s : Slip B) (ops : list SlipOp) : option (Slip B) :=
  match ops with
  | [] => Some s
  | o :: ops' => s' ← slip_op text s o; slip_run text s' ops'
  end.

(** The wager is the total of the slip. *)
Record slip_ok (s : Slip B) : Prop := {
  so_wager : s_sessionWager s = zsum amountOf (s_bets s);
  so_bets : Forall (fun b => 0 <= amountOf b) (s_bets s);
  so_last : Forall (fun b => 0 <= amountOf b) (s_lastRoundBets s);
  so_bet : 0 <= s_bet s
}.

Lemma slip_op_ok text s o s' : is_undo o = false -> slip_op text s o = Some s' -> slip_ok s -> slip_ok s'.
Proof.
  intros Hu Ho [Hw Hb Hl Hs]. destruct o as [chips k|chips|]; [| |done]; cbn in Ho; simplify_eq.
  - unfold placeBet. destruct (existsb _ _); [|destruct (_ <? _); [done|]].
    + pose proof (removed_zsum k (s_bets s)) as E.
      assert (Hf : Forall (fun b => 0 <= amountOf b) (List.filter (fun b => negb (sameKey k b)) (s_bets s))).
      { apply List.Forall_forall. intros b [Hb' _]%List.filter_In. by apply (proj1 (List.Forall_forall _ _) Hb). }
      split; cbn [s_bets s_sessionWager s_lastRoundBets s_bet]; [|done|done|done].
      rewrite Hw, Z.max_r; [lia|]. rewrite <- E.
      assert (0 <= zsum amountOf (List.filter (fun b => negb (sameKey k b)) (s_bets s))); [|lia].
      apply zsum_nonneg. intros b Hx. by apply (proj1 (Forall_forall _ _) Hf).
    + split; cbn [s_bets s_sessionWager s_lastRoundBets s_bet]; [|apply Forall_app; split; [done|]|done|done].
      * autorewrite with js. rewrite amountOf_makeBet, Hw. lia.
      * constructor; [|constructor]. by rewrite amountOf_makeBet.
  - unfold rebet. destruct (_ || _); [done|]. split; cbn [s_bets s_sessionWager s_lastRoundBets s_bet]; [|by apply Forall_app|done|done].
    rewrite totalAmount_zsum, zsum_app, Hw. lia.
Qed.

Lemma slip_run_ok text s ops s' :
  forallb (fun o => negb (is_undo o)) ops = true -> slip_run text s ops = Some s' -> slip_ok s -> slip_ok s'.
Proof.
  revert s. induction ops as [|o ops IH]; intros s Hu Hr Hs; cbn in *; [by simplify_eq|].
  apply andb_true_iff in Hu as [Ho Hu]. apply negb_true_iff in Ho.
  destruct (slip_op text s o) as [s1|] eqn:E; [|done]. cbn in Hr. eapply IH; [done|done|]. by eapply slip_op_ok.
Qed.

Lemma undo_push (s : Slip B) bets undo last mode bet wager text :
  undo = s_undoStack s ++ [s_bets s] ->
  undoBet (MkSlip bets undo last mode bet wager text) (MkSlip bets undo last mode bet wager text)
  = Some (MkSlip (s_bets s) (s_undoStack s) last mode bet wager text).
Proof.
  intros ->. unfold undoBet. cbn [s_undoStack]. destruct (s_undoStack s ++ [s_bets s]) as [|x l] eqn:E.
  - by destruct (s_undoStack s).
  - rewrite <- E, last_snoc. cbn. by rewrite removelast_last.
Qed.

(** A bet or a rebet that is undone: the slip is as before, the wager is not. *)
Lemma undo_after s s' o text :
  is_undo o = false -> slip_op text s o = Some s' ->
  s_undoStack s' <> s_undoStack s ->
  exists s'', undoBet s' s' = Some s'' /\ s_bets s'' = s_bets s /\ s_undoStack s'' = s_undoStack s
    /\ s_sessionWager s'' = s_sessionWager s'.
Proof.
  intros Hu Ho Hne. destruct o as [chips k|chips|]; [| |done]; cbn in Ho; simplify_eq.
  - unfold placeBet in *. destruct (existsb _ _); [done|]. destruct (_ <? _); [done|].
    eexists. split; [by apply undo_push|]. done.
  - unfold rebet in *. destruct (_ || _); [done|]. eexists. split; [by apply undo_push|]. done.
Qed.
End wager.
Arguments SlipOp : clear implicits.

(** ** Sending *)

Section sending.
Context {B K : Type} `{SlipBet B K}.

(** What sending the bets [bets], which the slip shows, does at once. *)
Definition submission (env : Env) (bets : list B) (s' : Slip B) (env' : Env) (eff : Effect B) : Prop :=
  match eff with
  | Sent session payload =>
      isPending env = false /\ isOnChain env = true /\ liveSession env = Some session
      /\ encodeBets bets = Ok payload /\ isPending env' = true /\ s_bets s' = bets
  | Drafted drafted =>
      drafted = bets /\ s_bets s' = bets /\ isPending env = false /\ isOnChain env = true
      /\ liveSession env = None /\ env' = env
  | Nothing =>
      s_bets s' = bets /\ isPending env' = isPending env
      /\ (isPending env = false -> isOnChain env = true -> hasService env = true ->
          exists session e, liveSession env = Some session /\ encodeBets bets = Throw e)
  end.

Lemma sendSlip_submission env bets sending failed (s : Slip B) s' env' eff :
  sendSlip env bets sending failed s = (s', env', eff) -> s_bets s = bets -> submission env bets s' env' eff.
Proof.
  unfold sendSlip. intros Hs Hb.
  destruct (isPending env) eqn:Ep; [simplify_eq; split_and!; [done|done|by rewrite Ep]|].
  destruct (isOnChain env) eqn:Eo; cbn [andb] in Hs; [|by simplify_eq; split_and!; try done; rewrite ?Eo].
  destruct (hasService env) eqn:Es; cbn [andb] in Hs;
    [|by simplify_eq; split_and!; try done; rewrite ?Es].
  destruct (liveSession env) as [session|] eqn:El; [|by simplify_eq].
  destruct (encodeBets bets) as [payload|e] eqn:Ee.
  - simplify_eq. by split_and!.
  - simplify_eq. split_and!; cbn; [done|by rewrite Ep|]. intros _ _ _. by exists session, e.
Qed.

Lemma betsToSend_empty (s : Slip B) blocked bets :
  betsToSend s blocked = (true, bets) -> blocked = false /\ s_bets s = [] /\ bets = s_lastRoundBets s /\ bets <> [].
Proof.
  unfold betsToSend. intros [=Hr Hb]. rewrite Hr in Hb.
  apply andb_true_iff in Hr as [[Hx%negb_true_iff He%Z.eqb_eq]%andb_true_iff Hl%Z.ltb_lt].
  subst. split_and!; [done| |done|].
  - destruct (s_bets s); [done|]. autorewrite with js in He. unfold len in He. lia.
  - by destruct (s_lastRoundBets s).
Qed.

Lemma betsToSend_shown (s : Slip B) blocked bets :
  betsToSend s blocked = (false, bets) -> bets = s_bets s.
Proof. unfold betsToSend. intros [=Hr Hb]. by rewrite Hr in Hb. Qed.
End sending.

(** Whether a move may be sent, and the move of a spin. *)
Definition may_send (env : Env) (session : Z) : Prop :=
  isPending env = false /\ isOnChain env = true /\ liveSession env = Some session.

Definition spinMove (inPrison : bool) (bets : list RouletteBet) : result Uint8Array :=
  if inPrison then Ok (u8array [RouletteMove_code RL_Spin]) else encodeBets bets.

(** C15. A spin sends one move, to the live session, and only when no move is
    pending: in prison the bare spin, otherwise the batch of the bets shown,
    which are those of the slip, or of the last round when the slip is empty and
    the chips cover them.  The bets stay on the slip until the node answers,
    whatever happens to the slip meanwhile: an accepted batch then empties the
    slip as it is by then and remembers its bets, a refused move keeps the slip
    and lets the player try again.  Without a live session the same bets are
    drafted (in prison nothing is), and otherwise nothing is sent. *)
Theorem spin_submits (env : Env) (u : RouletteUI) (chips : Z) u' env' eff :
  spinRoulette env u chips u = (u', env', eff) ->
  let '(repeat, bets) := betsToSend (ui_slip u) (ui_isPrison u) in
  if negb (ui_isPrison u) && (len bets =? 0) || repeat && (chips <? totalAmount bets)
  then eff = Nothing /\ env' = env /\ s_bets (ui_slip u') = s_bets (ui_slip u)
  else
    s_bets (ui_slip u') = bets
    /\ match eff with
       | Sent session payload =>
           may_send env session /\ spinMove (ui_isPrison u) bets = Ok payload /\ isPending env' = true
       | Drafted drafted =>
           ui_isPrison u = false /\ drafted = bets /\ isPending env = false /\ isOnChain env = true
           /\ liveSession env = None /\ env' = env
       | Nothing =>
           isPending env' = isPending env
           /\ (isPending env = false -> isOnChain env = true -> hasService env = true ->
               if ui_isPrison u then liveSession env = None
               else exists session e, liveSession env = Some session /\ encodeBets bets = Throw e)
       end
    /\ forall later envLater,
       (let '(u2, env2) := spinAnswered (ui_isPrison u) true envLater later in
        env2 = envLater
        /\ if ui_isPrison u then u2 = later
           else s_bets (ui_slip u2) = [] /\ s_undoStack (ui_slip u2) = []
                /\ s_lastRoundBets (ui_slip u2) = s_bets (ui_slip later))
       /\ (let '(u2, env2) := spinAnswered (ui_isPrison u) false envLater later in
           s_bets (ui_slip u2) = s_bets (ui_slip later)
           /\ s_lastRoundBets (ui_slip u2) = s_lastRoundBets (ui_slip later) /\ isPending env2 = false).
Proof.
  assert (Ha : forall prison later envLater,
    (let '(u2, env2) := spinAnswered prison true envLater later in
     env2 = envLater
     /\ if prison then u2 = later
        else s_bets (ui_slip u2) = [] /\ s_undoStack (ui_slip u2) = []
             /\ s_lastRoundBets (ui_slip u2) = s_bets (ui_slip later))
    /\ (let '(u2, env2) := spinAnswered prison false envLater later in
        s_bets (ui_slip u2) = s_bets (ui_slip later)
        /\ s_lastRoundBets (ui_slip u2) = s_lastRoundBets (ui_slip later) /\ isPending env2 = false))
    by by intros [] later envLater.
  unfold spinRoulette. destruct (betsToSend (ui_slip u) (ui_isPrison u)) as [repeat bets] eqn:E.
  destruct (negb (ui_isPrison u) && (len bets =? 0)) eqn:El; cbn [orb]; [by intros [= <- <- <-]|].
  destruct (ui_isPrison u) eqn:Ep.
  { unfold betsToSend in E. cbn [negb andb] in E. injection E as <- <-. cbn [andb].
    destruct (spinInPrison _ _) as [[s e] f] eqn:Es. intros [= <- <- <-]. unfold spinInPrison in Es.
    destruct (isPending env) eqn:Hp; [|destruct (isOnChain env) eqn:Ho; cbn [andb] in Es;
      [|]; destruct (hasService env) eqn:Hh; cbn [andb] in Es; try destruct (liveSession env) as [session|] eqn:Hl];
      injection Es as <- <- <-; (split; [done|]); (split; [|by apply Ha]); unfold may_send;
      rewrite ?Hp, ?Ho, ?Hh, ?Hl; naive_solver. }
  assert (Hb : (repeat = true /\ bets = s_lastRoundBets (ui_slip u)) \/ (repeat = false /\ bets = s_bets (ui_slip u))).
  { destruct repeat; [left; by apply betsToSend_empty in E as (_ & _ & -> & _)|right; by apply betsToSend_shown in E]. }
  destruct Hb as [[-> ->]|[-> ->]]; cbn [andb]; [destruct (chips <? _); [by intros [= <- <- <-]|]|].
  all: destruct (sendSlip _ _ _ _ _) as [[s e] f] eqn:Es; intros [= <- <- <-];
    apply sendSlip_submission in Es; [|done]; unfold may_send; destruct f; cbn in Es; cbn [ui_slip with_slip];
    (split; [tauto|]); (split; [|by apply Ha]); naive_solver.
Qed.

(** Two bets of 60 chips each. *)
Definition redOdd : list RouletteBet :=
  [ {| rb_type := Roul_RED; rb_target := None; rb_amount := 60 |};
    {| rb_type := Roul_ODD; rb_target := None; rb_amount := 60 |} ].

Definition emptySlip : Slip RouletteBet := MkSlip [] [] [] "NONE" 60 0 "".

Definition richSlip : RouletteUI :=
  {| ui_slip := MkSlip redOdd [[]; take 1 redOdd] [] "NONE" 60 120 "BET ODD";
     ui_isPrison := false; ui_zeroRule := "STANDARD" |}.

Definition onlineEnv : Env :=
  {| isPending := false; isOnChain := true; hasService := true; currentSession := Some 7;
     pendingMoveCount := 0 |}.

Lemma spin_submits_witness :
  exists u' env' eff,
    spinRoulette onlineEnv richSlip 100 richSlip = (u', env', eff)
    /\ s_bets (ui_slip u') = redOdd
    /\ (exists payload, eff = Sent 7 payload /\ len payload = 22)
    /\ (let '(u2, env2) := spinAnswered false true env' u' in s_lastRoundBets (ui_slip u2) = redOdd /\ isPending env2 = true).
Proof.
  destruct (spinRoulette onlineEnv richSlip 100 richSlip) as [[u' env'] eff] eqn:E.
  exists u', env', eff. split; [done|].
  pose proof (spin_submits onlineEnv richSlip 100 u' env' eff E) as (Hb & He & Ha).
  change (s_bets (ui_slip u') = redOdd) in Hb. split; [exact Hb|]. split.
  - vm_compute in E. injection E as _ _ <-. by eexists.
  - destruct (Ha u' env') as [(He' & Hok) _]. cbn in *. split; [exact Hb|]. vm_compute in E. by injection E as _ <- _.
Defined.

(** A bet placed while the spin is under way is not in the batch; the accepted
    answer takes it off the slip and remembers it with the bets of the round, so
    the next rebet stakes it. *)
Definition oddOnly : Slip RouletteBet := MkSlip (drop 1 redOdd) [[]] [] "NONE" 60 60 "BET ODD".

Example late_bet_remembered :
  let u := {| ui_slip := oddOnly; ui_isPrison := false; ui_zeroRule := "STANDARD" |} in
  let '(u1, env1, eff) := spinRoulette onlineEnv u 200 u in
  let u2 := placeRouletteBet u1 200 Roul_RED None u1 in
  let '(u3, _) := spinAnswered false true env1 u2 in
  (exists payload, eff = Sent 7 payload /\ len payload = 12)
  /\ s_bets (ui_slip u3) = [] /\ totalAmount (s_lastRoundBets (ui_slip u3)) = 120.
Proof. vm_compute. split; [by eexists|done]. Qed.

(** Whatever bets the player places, removes and repeats, on roulette or
    sic bo, starting from a slip whose wager is its total: as long as nothing
    is undone, the session wager stays the total of the slip and no amount goes
    negative. *)
Theorem slip_wager {B K : Type} `{SlipBetLaws B K} (text : string) (s : Slip B) (ops : list (SlipOp K)) s' :
  slip_ok s -> forallb (fun o => negb (is_undo o)) ops = true ->
  slip_run text s ops = Some s' -> slip_ok s'.
Proof. intros Hs Hu Hr. by eapply slip_run_ok. Qed.

Lemma slip_wager_witness :
  exists s' : Slip RouletteBet,
    slip_run "REBET PLACED" emptySlip
      [Place 100 (Roul_RED, None); Place 100 (Roul_ODD, None); Place 100 (Roul_RED, None)] = Some s'
    /\ slip_ok s' /\ s_sessionWager s' = 60.
Proof.
  destruct (slip_run "REBET PLACED" emptySlip
    [Place 100 (Roul_RED, None); Place 100 (Roul_ODD, None); Place 100 (Roul_RED, None)]) as [s'|] eqn:E;
    [|by vm_compute in E].
  exists s'. split; [done|]. split.
  - eapply (slip_wager "REBET PLACED" emptySlip); [| |exact E]; [|done].
    split; [done|constructor|constructor|done].
  - vm_compute in E. by injection E as <-.
Defined.

(** Undoing a bet or a rebet brings back the bets and the undo stack of
    before, but keeps the wager of after: the wager still counts the bets that
    were undone. *)
Theorem undo_keeps_wager {B K : Type} `{SlipBetLaws B K} (text : string) (s s1 : Slip B) (o : SlipOp K) :
  slip_ok s -> is_undo o = false -> slip_op text s o = Some s1 ->
  s_undoStack s1 <> s_undoStack s ->
  exists s2, undoBet s1 s1 = Some s2 /\ s_bets s2 = s_bets s /\ s_undoStack s2 = s_undoStack s
    /\ s_sessionWager s2 - zsum amountOf (s_bets s2)
       = zsum amountOf (s_bets s1) - zsum amountOf (s_bets s).
Proof.
  intros Hs Hu Ho Hne. destruct (undo_after s s1 o text Hu Ho Hne) as (s2 & Hr & Hb & Hst & Hw).
  exists s2. split_and!; try done.
  rewrite Hb, Hw. by rewrite (so_wager _ (slip_op_ok text s o s1 Hu Ho Hs)).
Qed.

Lemma undo_keeps_wager_witness :
  exists s2 : Slip RouletteBet,
    undoBet (placeBet emptySlip 100 (Roul_RED, None) emptySlip)
      (placeBet emptySlip 100 (Roul_RED, None) emptySlip) = Some s2
    /\ s_bets s2 = [] /\ s_sessionWager s2 = 60.
Proof.
  destruct (undo_keeps_wager "REBET PLACED" emptySlip (placeBet emptySlip 100 (Roul_RED, None) emptySlip)
    (Place 100 (Roul_RED, None))) as (s2 & Hr & Hb & _ & Hw); [|done|done|done|].
  - split; [done|constructor|constructor|done].
  - exists s2. split; [exact Hr|]. split; [exact Hb|]. rewrite Hb in Hw.
    transitivity (s_sessionWager s2 - 0); [lia|exact Hw].
Defined.
