(* ===== verification/CrapsSlip.v ===== *)
(** * Craps: staging bets on the website and playing them on the chain

    [website/src/hooks/games/useCraps.ts] and [crapsHelpers.ts]: bets and odds
    are staged locally and sent when the dice are rolled;
    [execution/src/casino/craps.rs] places the bets and the odds, and the node
    charges them ([execution/src/layer/handlers/casino.rs]).

    A callback reads the state of the render it was created in; here that is
    the current state. *)

From stdpp Require Import pretty.
From S2P Require Import Prelude JsNum Bytes Constants Arith ChainMove Craps TableSlips.

(** ** The bets of the website *)

(** A bet with the fields that only the website uses; [local] counts as false
    when it is undefined. *)
Record SlipCraps := {
  lb_bet : CrapsBet;
  lb_localOddsAmount : option Z;
  lb_local : bool
}.

Definition lb_type (b : SlipCraps) : CrapsBetName := wc_type (lb_bet b).
Definition lb_target (b : SlipCraps) : option Z := wc_target (lb_bet b).
Definition lb_amount (b : SlipCraps) : Z := wc_amount (lb_bet b).
Definition stagedOdds (b : SlipCraps) : Z := default 0 (lb_localOddsAmount b).
Definition baseCost (b : SlipCraps) : Z := if lb_local b then lb_amount b else 0.

Definition with_local (l : bool) (b : SlipCraps) : SlipCraps :=
  {| lb_bet := lb_bet b; lb_localOddsAmount := lb_localOddsAmount b; lb_local := l |}.

Definition with_odds (o : Z) (b : SlipCraps) : SlipCraps :=
  {| lb_bet := lb_bet b; lb_localOddsAmount := Some o; lb_local := lb_local b |}.

Record CrapsUI := {
  cu_bets : list SlipCraps;
  cu_undoStack : list (list SlipCraps);
  cu_lastRoundBets : list SlipCraps;
  cu_inputMode : string;
  cu_bet : Z;
  cu_sessionWager : Z;
  cu_message : string;
  cu_point : option Z;
  cu_epochPointEstablished : bool;
  cu_dice : list Z;
  cu_oddsCandidates : option (list Z);
  cu_super : bool
}.

Definition with_bets (s : CrapsUI) (bets : list SlipCraps) (undo : list (list SlipCraps)) (wager : Z) : CrapsUI :=
  {| cu_bets := bets; cu_undoStack := undo; cu_lastRoundBets := cu_lastRoundBets s;
     cu_inputMode := cu_inputMode s; cu_bet := cu_bet s; cu_sessionWager := wager;
     cu_message := cu_message s; cu_point := cu_point s;
     cu_epochPointEstablished := cu_epochPointEstablished s; cu_dice := cu_dice s;
     cu_oddsCandidates := cu_oddsCandidates s; cu_super := cu_super s |}.

Definition say (m : string) (s : CrapsUI) : CrapsUI :=
  {| cu_bets := cu_bets s; cu_undoStack := cu_undoStack s; cu_lastRoundBets := cu_lastRoundBets s;
     cu_inputMode := cu_inputMode s; cu_bet := cu_bet s; cu_sessionWager := cu_sessionWager s;
     cu_message := m; cu_point := cu_point s;
     cu_epochPointEstablished := cu_epochPointEstablished s; cu_dice := cu_dice s;
     cu_oddsCandidates := cu_oddsCandidates s; cu_super := cu_super s |}.

Definition with_candidates (c : option (list Z)) (s : CrapsUI) : CrapsUI :=
  {| cu_bets := cu_bets s; cu_undoStack := cu_undoStack s; cu_lastRoundBets := cu_lastRoundBets s;
     cu_inputMode := cu_inputMode s; cu_bet := cu_bet s; cu_sessionWager := cu_sessionWager s;
     cu_message := cu_message s; cu_point := cu_point s;
     cu_epochPointEstablished := cu_epochPointEstablished s; cu_dice := cu_dice s;
     cu_oddsCandidates := c; cu_super := cu_super s |}.

Definition input_none (s : CrapsUI) : CrapsUI :=
  {| cu_bets := cu_bets s; cu_undoStack := cu_undoStack s; cu_lastRoundBets := cu_lastRoundBets s;
     cu_inputMode := "NONE"; cu_bet := cu_bet s; cu_sessionWager := cu_sessionWager s;
     cu_message := cu_message s; cu_point := cu_point s;
     cu_epochPointEstablished := cu_epochPointEstablished s; cu_dice := cu_dice s;
     cu_oddsCandidates := cu_oddsCandidates s; cu_super := cu_super s |}.

(** ** Helpers *)

Definition CRAPS_BONUS_BET_TYPES (type : CrapsBetName) : bool :=
  match type with
  | Craps_FIRE | Craps_ATS_SMALL | Craps_ATS_TALL | Craps_ATS_ALL | Craps_MUGGSY
  | Craps_DIFF_DOUBLES | Craps_RIDE_LINE | Craps_REPLAY | Craps_HOT_ROLLER => true
  | _ => false
  end.

Definition getBetTypeNum (b : SlipCraps) : Z := (encodeCrapsBet (lb_type b) (lb_target b)).1.
Definition getTargetForBackend (b : SlipCraps) : Z := (encodeCrapsBet (lb_type b) (lb_target b)).2.

Definition isValidCrapsTarget (type : CrapsBetName) (target : option Z) : bool :=
  match type, target with
  | (Craps_YES | Craps_NO), Some t => (2 <=? t) && (t <=? 12) && negb (t =? 7)
  | (Craps_YES | Craps_NO), None => false
  | Craps_NEXT, Some t => (2 <=? t) && (t <=? 12)
  | Craps_NEXT, None => false
  | Craps_HARDWAY, Some t => one_of [4; 6; 8; 10] t
  | Craps_HARDWAY, None => false
  | _, _ => true
  end.

Definition invalidTargetMessage (type : CrapsBetName) : string :=
  match type with
  | Craps_YES => "SELECT YES NUMBER (2-12, NOT 7)"
  | Craps_NO => "SELECT NO NUMBER (2-12, NOT 7)"
  | Craps_NEXT => "SELECT NEXT NUMBER (2-12)"
  | Craps_HARDWAY => "SELECT HARDWAY (4/6/8/10)"
  | _ => "INVALID TARGET"
  end.

Definition localBetCost (b : SlipCraps) : Z := baseCost b + stagedOdds b.

(** What the staged bets cost, with the fee of super mode. *)
Definition stagedCrapsCost (env : Env) (super : bool) (bets : list SlipCraps) : Z :=
  let superActive := isOnChain env && super in
  match superActive, liveSession env with
  | true, None =>
      let totalBase := foldl (fun sum b => sum + baseCost b) 0 bets in
      totalBase + totalBase / 5
  | _, _ =>
      foldl (fun sum b =>
        let superFee := if superActive then baseCost b / 5 + stagedOdds b / 5 else 0 in
        sum + baseCost b + stagedOdds b + superFee) 0 bets
  end.

(** ** Staging *)

Definition sameLocal (type : CrapsBetName) (target : option Z) (b : SlipCraps) : bool :=
  bool_decide (lb_type b = type) && bool_decide (lb_target b = target) && lb_local b.

(** [findIndex] and [splice]: the first such bet, and the slip without it. *)
Fixpoint takeOut (f : SlipCraps -> bool) (bets : list SlipCraps) : option (SlipCraps * list SlipCraps) :=
  match bets with
  | [] => None
  | b :: bets' =>
      if f b then Some (b, bets') else '(x, rest) ← takeOut f bets'; Some (x, b :: rest)
  end.

(** A pass bet replaces the local don't-pass bets, and the other way round. *)
Definition dropOpposite (type : CrapsBetName) (bets : list SlipCraps) : list SlipCraps :=
  let without t := List.filter (fun b => negb (bool_decide (lb_type b = t)) || negb (lb_local b)) in
  match type with
  | Craps_PASS => without Craps_DONT_PASS bets
  | Craps_DONT_PASS => without Craps_PASS bets
  | _ => bets
  end.

Definition stagedBet (type : CrapsBetName) (target : option Z) (amount : Z) : SlipCraps :=
  {| lb_bet :=
       {| wc_type := type; wc_amount := amount; wc_target := target; wc_oddsAmount := None;
          wc_progressMask := None;
          wc_status := Some (match type with Craps_COME | Craps_DONT_COME => PENDING | _ => ON end) |};
     lb_localOddsAmount := None; lb_local := true |}.

Definition placeCrapsBet (env : Env) (chips : Z) (type : CrapsBetName) (target : option Z)
    (s : CrapsUI) : CrapsUI :=
  if negb (isValidCrapsTarget type target) then say (invalidTargetMessage type) s
  else
    match takeOut (sameLocal type target) (cu_bets s) with
    | Some (betToRemove, newBets) =>
        input_none (say ("REMOVED " +:+ CrapsBetName_name type)
          (with_bets s newBets (cu_undoStack s) (Z.max 0 (cu_sessionWager s - localBetCost betToRemove))))
    | None =>
        if CRAPS_BONUS_BET_TYPES type
           && negb (canPlaceCrapsBonusBets (cu_epochPointEstablished s) (cu_dice s))
        then say "BONUS CLOSED" s
        else if CRAPS_MAX_BETS <=? len (cu_bets s) then say "BET LIMIT 20" s
        else if bool_decide (type = Craps_FIRE)
                && existsb (fun b => bool_decide (lb_type b = Craps_FIRE) && lb_local b) (cu_bets s)
        then say "FIRE BET ALREADY PLACED" s
        else
          let nextBets := dropOpposite type (cu_bets s) ++ [stagedBet type target (cu_bet s)] in
          if chips <? stagedCrapsCost env (cu_super s) nextBets then say "INSUFFICIENT FUNDS" s
          else
            input_none (say ("BET " +:+ CrapsBetName_name type)
              (with_bets s nextBets (cu_undoStack s ++ [cu_bets s]) (cu_sessionWager s + cu_bet s)))
    end.

Definition placeCrapsNumberBet (env : Env) (chips : Z) (type : CrapsBetName) (num : Z) (s : CrapsUI) : CrapsUI :=
  if negb (isValidCrapsTarget type (Some num)) then say (invalidTargetMessage type) s
  else placeCrapsBet env chips type (Some num) s.

Definition localCost (bets : list SlipCraps) : Z :=
  foldl (fun sum b => sum + localBetCost b) 0 (List.filter lb_local bets).

Definition undoCrapsBet (s : CrapsUI) : CrapsUI :=
  match last (cu_undoStack s) with
  | None => s
  | Some nextBets =>
      with_bets s nextBets (removelast (cu_undoStack s))
        (cu_sessionWager s + (localCost nextBets - localCost (cu_bets s)))
  end.

Definition rebetCraps (env : Env) (chips : Z) (s : CrapsUI) : CrapsUI :=
  if len (cu_lastRoundBets s) =? 0 then say "NO PREVIOUS BETS" s
  else if CRAPS_MAX_BETS <? len (cu_bets s) + len (cu_lastRoundBets s) then say "BET LIMIT 20" s
  else
    let nextBets := cu_bets s ++ (with_local true <$> cu_lastRoundBets s) in
    if chips <? stagedCrapsCost env (cu_super s) nextBets then say "INSUFFICIENT FUNDS" s
    else
      let rebetWager := foldl (fun a b => a + crapsBetCost (lb_bet b)) 0 (cu_lastRoundBets s) in
      say "REBET PLACED" (with_bets s nextBets (cu_undoStack s ++ [cu_bets s]) (cu_sessionWager s + rebetWager)).

(** [bets[idx]], undefined out of range. *)
Definition betAt (bets : list SlipCraps) (idx : Z) : option SlipCraps :=
  if idx <? 0 then None else bets !! Z.to_nat idx.

(** [None] when the bet is undefined: reading its type throws. *)
Definition executeAddOdds (env : Env) (chips : Z) (idx : Z) (s : CrapsUI) : option CrapsUI :=
  targetBet ← betAt (cu_bets s) idx;
  Some
    (if match lb_type targetBet, cu_point s with (Craps_PASS | Craps_DONT_PASS), None => true | _, _ => false end
     then say "WAIT FOR POINT BEFORE ODDS" s
     else
       let confirmedOdds := default 0 (wc_oddsAmount (lb_bet targetBet)) in
       let pendingOdds := stagedOdds targetBet in
       let totalCurrentOdds := confirmedOdds + pendingOdds in
       let maxOdds := lb_amount targetBet * 5 in
       if maxOdds <=? totalCurrentOdds then say "MAX ODDS REACHED (5X)" s
       else
         let oddsToAdd := Z.min (cu_bet s) (maxOdds - totalCurrentOdds) in
         if oddsToAdd <=? 0 then say "MAX ODDS REACHED" s
         else
           let nextBets := <[Z.to_nat idx := with_odds (pendingOdds + oddsToAdd) targetBet]> (cu_bets s) in
           if chips <? stagedCrapsCost env (cu_super s) nextBets then say "INSUFFICIENT FUNDS" s
           else say ("ODDS +$" +:+ pretty oddsToAdd +:+ " (STAGED)")
                  (with_bets s nextBets (cu_undoStack s) (cu_sessionWager s + oddsToAdd))).

Definition takesOdds (b : SlipCraps) : bool :=
  match lb_type b, wc_status (lb_bet b) with
  | (Craps_PASS | Craps_DONT_PASS), _ => true
  | (Craps_COME | Craps_DONT_COME), Some ON => true
  | _, _ => false
  end.

Definition oddsCandidates (bets : list SlipCraps) : list Z :=
  fst <$> List.filter (fun p => takesOdds p.2) (zip (seqZ 0 (len bets)) bets).

Definition addCrapsOdds (env : Env) (chips : Z) (selectionIndex : option Z) (s : CrapsUI) : option CrapsUI :=
  match selectionIndex, cu_oddsCandidates s with
  | Some i, Some candidates =>
      if (i <? 0) || (len candidates <=? i) then Some s
      else
        target ← candidates !! Z.to_nat i;
        executeAddOdds env chips target (with_candidates None s)
  | _, _ =>
      match oddsCandidates (cu_bets s) with
      | [] => Some (say "NO BET FOR ODDS" s)
      | [c] => executeAddOdds env chips c s
      | candidates => Some (say "SELECT BET FOR ODDS (1-9)" (with_candidates (Some candidates) s))
      end
  end.

(** ** Rolling *)

(** [\[0, bet_type, target, amount:u64 BE\]] *)
Definition placePayload (b : SlipCraps) : Uint8Array :=
  u8array [0; getBetTypeNum b; getTargetForBackend b] ++ be_bytes 8 (lb_amount b).

(** [\[1, amount:u64 BE\]] *)
Definition oddsPayload (b : SlipCraps) : Uint8Array := u8array [1] ++ be_bytes 8 (stagedOdds b).

Definition rollPayload : Uint8Array := u8array [CrapsMove_code CR_Roll].

(** The moves are sent one after the other, and the first that the node refuses
    ends the roll: [accept] says which it takes, by their number in this roll.
    The answer has the moves accepted. *)
Fixpoint sendAll (accept : nat -> bool) (i : nat) (moves : list Uint8Array) : list Uint8Array * bool :=
  match moves with
  | [] => ([], true)
  | m :: moves' =>
      if accept i then let '(sent, ok) := sendAll accept (S i) moves' in (m :: sent, ok)
      else ([], false)
  end.

Record RollEffect := { re_sent : list Uint8Array; re_draft : option (list SlipCraps) }.
Definition nothingSent : RollEffect := {| re_sent := []; re_draft := None |}.

Definition with_session (e : Env) (session : option Z) : Env :=
  {| isPending := isPending e; isOnChain := isOnChain e; hasService := hasService e;
     currentSession := session; pendingMoveCount := pendingMoveCount e |}.

Definition stagedLocalBets (s : CrapsUI) : list SlipCraps := List.filter lb_local (cu_bets s).
Definition betsWithStagedOdds (s : CrapsUI) : list SlipCraps :=
  List.filter (fun b => 0 <? stagedOdds b) (cu_bets s).

(** Local bets become bets of the chain. *)
Definition commitBets (s : CrapsUI) : CrapsUI :=
  if len (stagedLocalBets s) =? 0 then s
  else with_bets s ((fun b => if lb_local b then with_local false b else b) <$> cu_bets s)
         (cu_undoStack s) (cu_sessionWager s).

Definition clearOdds (s : CrapsUI) : CrapsUI :=
  if len (betsWithStagedOdds s) =? 0 then s
  else with_bets s ((fun b => if stagedOdds b =? 0 then b else with_odds 0 b) <$> cu_bets s)
         (cu_undoStack s) (cu_sessionWager s).

(** The part of a roll with a live session: bets, odds, dice. *)
Definition sendRoll (env : Env) (accept : nat -> bool) (s : CrapsUI) : CrapsUI * Env * RollEffect :=
  let places := placePayload <$> stagedLocalBets s in
  let odds := oddsPayload <$> betsWithStagedOdds s in
  let refused sent s := (say "ROLL FAILED" s, with_pending env false (pendingMoveCount env),
                         {| re_sent := sent; re_draft := None |}) in
  let '(sent1, ok1) := sendAll accept 0 places in
  if negb ok1 then refused sent1 s
  else
    let s1 := commitBets s in
    let '(sent2, ok2) := sendAll accept (length places) odds in
    if negb ok2 then refused (sent1 ++ sent2) s1
    else
      let s2 := clearOdds s1 in
      let '(sent3, ok3) := sendAll accept (length places + length odds) [rollPayload] in
      if negb ok3 then refused (sent1 ++ sent2) s2
      else (say "ROLLING..." s2, with_pending env true (pendingMoveCount env),
            {| re_sent := sent1 ++ sent2 ++ sent3; re_draft := None |}).

(** [active] is the answer of [isSessionActive]: [None] when asking threw. *)
Definition rollCraps (env : Env) (active : option (option bool)) (accept : nat -> bool) (s : CrapsUI)
    : CrapsUI * Env * RollEffect :=
  let hasSession := match liveSession env with Some _ => true | None => false end in
  let betsToPlace := stagedLocalBets s in
  match List.find (fun b => negb (isValidCrapsTarget (lb_type b) (lb_target b))) betsToPlace with
  | Some invalidBet => (say (invalidTargetMessage (lb_type invalidBet)) s, env, nothingSent)
  | None =>
      let hasOutstandingBets :=
        hasSession && (existsb (fun b => negb (lb_local b)) (cu_bets s)
                       || match cu_point s with Some _ => true | None => false end) in
      if (len betsToPlace =? 0) && negb hasOutstandingBets then (say "PLACE BET FIRST" s, env, nothingSent)
      else if isOnChain env && hasService env && negb hasSession then
        if len betsToPlace =? 0 then (say "PLACE BET FIRST" s, env, nothingSent)
        else (say "STARTING NEW SESSION..." s, env, {| re_sent := []; re_draft := Some betsToPlace |})
      else if isOnChain env && hasService env && hasSession then
        if isPending env then (s, env, nothingSent)
        else
          match active with
          | None => (say "ROLL FAILED" s, with_pending env false (pendingMoveCount env), nothingSent)
          | Some (Some false) =>
              (say "SESSION ENDED - STARTING NEW..." s,
               with_session (with_pending env false (pendingMoveCount env)) None,
               {| re_sent := []; re_draft := Some betsToPlace |})
          | Some _ => sendRoll env accept s
          end
      else (say "OFFLINE - CHECK CONNECTION" s, env, nothingSent)
  end.

(** ** The chain *)

Record ChainCraps := {
  cc_phase : Phase;
  cc_main_point : Z;
  cc_d1 : Z;
  cc_d2 : Z;
  cc_epoch_point_established : bool;
  cc_bets : list ChainBet
}.

Definition with_chain_bets (st : ChainCraps) (bets : list ChainBet) : ChainCraps :=
  {| cc_phase := cc_phase st; cc_main_point := cc_main_point st; cc_d1 := cc_d1 st; cc_d2 := cc_d2 st;
     cc_epoch_point_established := cc_epoch_point_established st; cc_bets := bets |}.

Definition chain_types : list BetType :=
  [Pass; DontPass; Come; DontCome; Field; Yes; No; Next; Hardway4; Hardway6; Hardway8; Hardway10;
   Fire; AtsSmall; AtsTall; AtsAll; Muggsy; DiffDoubles; RideLine; Replay; HotRoller].

Definition BetType_try_from (code : Z) : option BetType :=
  List.find (fun t => BetType_code t =? code) chain_types.

Definition is_bonus (t : BetType) : bool :=
  match t with
  | Fire | AtsSmall | AtsTall | AtsAll | Muggsy | DiffDoubles | RideLine | Replay | HotRoller => true
  | _ => false
  end.

(** The target and timing rules of the match. *)
Definition check_target (st : ChainCraps) (t : BetType) (target : Z) : GameError + unit :=
  match t with
  | Come | DontCome =>
      if negb (target =? 0) then inl InvalidPayload
      else ensure (match cc_phase st with Point => true | ComeOut => false end) InvalidMove
  | Yes | No => ensure (in_range 2 12 target && negb (target =? 7)) InvalidPayload
  | Next => ensure (in_range 2 12 target) InvalidPayload
  | _ => ensure (target =? 0) InvalidPayload
  end.

Definition can_place_bonus (st : ChainCraps) : bool :=
  let has_rolled := negb (cc_d1 st =? 0) || negb (cc_d2 st =? 0) in
  let last_total := saturating_add8 (cc_d1 st) (cc_d2 st) in
  negb (cc_epoch_point_established st)
  && (negb has_rolled || (match cc_phase st with ComeOut => true | Point => false end && (last_total =? 7))).

(** Move 0: the state after it, and the payout that the node is told. *)
Definition place_bet (st : ChainCraps) (payload : Uint8Array) : GameError + (ChainCraps * Z) :=
  try (code, target, amount) <- parse_place_bet_payload payload;
  match BetType_try_from code with
  | None => inl InvalidPayload
  | Some bet_type =>
      try _ <- ensure (negb (amount =? 0)) InvalidPayload;
      try _ <- ensure (len (cc_bets st) <? 20) InvalidMove;
      try _ <- check_target st bet_type target;
      try _ <- ensure (negb (is_bonus bet_type) || can_place_bonus st) InvalidMove;
      try _ <- ensure (negb (bool_decide (bet_type = Fire)
                       && existsb (fun b => bool_decide (ch_type b = Fire)) (cc_bets st))) InvalidMove;
      let status := match bet_type with Come | DontCome => Pending | _ => On end in
      let bet := {| ch_type := bet_type; ch_target := target; ch_status := status;
                    ch_amount := amount; ch_odds := 0 |} in
      try _ <- ensure (amount <? 2 ^ 63) InvalidPayload;
      inr (with_chain_bets st (cc_bets st ++ [bet]), - amount)
  end.

Definition contract_on (b : ChainBet) : bool :=
  match ch_type b, ch_status b with
  | (Pass | DontPass | Come | DontCome), On => true
  | _, _ => false
  end.

Definition more_odds (odds : Z) (b : ChainBet) : ChainBet :=
  {| ch_type := ch_type b; ch_target := ch_target b; ch_status := ch_status b;
     ch_amount := ch_amount b; ch_odds := ch_odds b + odds |}.

(** [iter_mut().rev()]: the bets reversed, and the first contract bet that is on. *)
Fixpoint odds_on_first (odds : Z) (bets : list ChainBet) : GameError + list ChainBet :=
  match bets with
  | [] => inl InvalidMove
  | b :: bets' =>
      if contract_on b then
        if negb (one_of [4; 5; 6; 8; 9; 10] (ch_target b)) then inl InvalidMove
        else if 2 ^ 64 <=? ch_odds b + odds then inl InvalidPayload
        else inr (more_odds odds b :: bets')
      else try rest <- odds_on_first odds bets'; inr (b :: rest)
  end.

(** [-(amount as i64)]: the cast wraps, the negation overflows on the least
    integer. *)
Definition neg_as_i64 (amount : Z) : GameError + Z :=
  let v := as_signed 64 amount in
  if v =? - 2 ^ 63 then inl Panicked else inr (- v).

(** Move 1. *)
Definition add_odds (st : ChainCraps) (payload : Uint8Array) : GameError + (ChainCraps * Z) :=
  if len payload <? 9 then inl InvalidPayload
  else
    let odds := be_value (slice payload 1 9) in
    if odds =? 0 then inl InvalidPayload
    else
      try bets <- odds_on_first odds (rev (cc_bets st));
      try payout <- neg_as_i64 odds;
      inr (with_chain_bets st (rev bets), payout).

(** What the node does to the chips of a cash game on [ContinueWithUpdate],
    without super mode; [None] when it refuses the move. *)
Definition continue_with_update (stack payout : Z) : option Z :=
  if payout <? 0 then
    let deduction := if payout =? - 2 ^ 63 then 0 else - payout in
    if (deduction =? 0) || (stack <? deduction) then None else Some (saturating_sub stack deduction)
  else Some (saturating_add stack payout).

(** ** Placing what was staged *)

Lemma parse_place_payload b :
  0 <= getBetTypeNum b < 256 -> 0 <= getTargetForBackend b < 256 -> 0 <= lb_amount b < 2 ^ 64 ->
  parse_place_bet_payload (placePayload b) = inr (getBetTypeNum b, getTargetForBackend b, lb_amount b).
Proof.
  intros Ht Hg Ha. unfold parse_place_bet_payload.
  assert (Hl : len (placePayload b) = 11) by (unfold placePayload; by rewrite len_app, len_be_bytes).
  assert (Hp : parse_u64_be (placePayload b) 3 = inr (lb_amount b)).
  { unfold parse_u64_be. rewrite Hl. cbn [Z.ltb]. f_equal.
    pose proof (slice_be8 (u8array [0; getBetTypeNum b; getTargetForBackend b]) (lb_amount b) [] Ha) as E.
    by rewrite app_nil_r in E. }
  revert Hl Hp. unfold placePayload. cbn [u8array fmap list_fmap app].
  intros Hl Hp. rewrite Hl, Hp. cbn. by rewrite !b2z_z2b_small by lia.
Qed.

(** What the website shows of the chain's table. *)
Record table_shown (s : CrapsUI) (st : ChainCraps) : Prop := {
  ts_dice : cu_dice s = [cc_d1 st; cc_d2 st];
  ts_range : cc_d1 st = 0 /\ cc_d2 st = 0 \/ 1 <= cc_d1 st <= 6 /\ 1 <= cc_d2 st <= 6;
  ts_epoch : cu_epochPointEstablished s = cc_epoch_point_established st;
  ts_phase : cc_epoch_point_established st = false -> cc_phase st = ComeOut
}.

Lemma bonus_agrees s st :
  table_shown s st ->
  canPlaceCrapsBonusBets (cu_epochPointEstablished s) (cu_dice s) = true -> can_place_bonus st = true.
Proof.
  intros [Hd Hr He Hp]. rewrite Hd, He. unfold canPlaceCrapsBonusBets, can_place_bonus.
  destruct (cc_epoch_point_established st); [done|]. rewrite (Hp eq_refl). cbn [negb andb].
  destruct Hr as [[-> ->]|[H1 H2]]; [done|].
  rewrite !(proj2 (Z.eqb_neq _ _)) by lia. cbn [negb orb andb]. intros E%Z.eqb_eq.
  unfold saturating_add8. by rewrite E.
Qed.

(** The chain's kind of a bet of the website. *)
Definition chain_kind (type : CrapsBetName) (target : option Z) : option BetType :=
  match type with
  | Craps_PASS => Some Pass | Craps_DONT_PASS => Some DontPass | Craps_COME => Some Come
  | Craps_DONT_COME => Some DontCome | Craps_FIELD => Some Field | Craps_YES => Some Yes
  | Craps_NO => Some No | Craps_NEXT => Some Next | Craps_FIRE => Some Fire
  | Craps_ATS_SMALL => Some AtsSmall | Craps_ATS_TALL => Some AtsTall | Craps_ATS_ALL => Some AtsAll
  | Craps_MUGGSY => Some Muggsy | Craps_DIFF_DOUBLES => Some DiffDoubles
  | Craps_RIDE_LINE => Some RideLine | Craps_REPLAY => Some Replay | Craps_HOT_ROLLER => Some HotRoller
  | Craps_HARDWAY =>
      match target with
      | Some 4 => Some Hardway4 | Some 6 => Some Hardway6 | Some 8 => Some Hardway8
      | Some 10 => Some Hardway10 | _ => None
      end
  end.

(** Why the chain refuses a bet with the right target: no room, a come bet
    without a point, a second fire bet, an amount above the signed range. *)
Definition come_closed (st : ChainCraps) (t : BetType) : bool :=
  match t, cc_phase st with (Come | DontCome), ComeOut => true | _, _ => false end.

Definition refusal (st : ChainCraps) (t : BetType) (amount : Z) : option GameError :=
  if (20 <=? len (cc_bets st)) || come_closed st t
     || (bool_decide (t = Fire) && existsb (fun b => bool_decide (ch_type b = Fire)) (cc_bets st))
  then Some InvalidMove
  else if 2 ^ 63 <=? amount then Some InvalidPayload
  else None.

(** The code and the target sent are those of the kind, and pass its rules but
    for the phase. *)
Record encodes (st : ChainCraps) (b : SlipCraps) (t : BetType) : Prop := {
  en_code : getBetTypeNum b = BetType_code t;
  en_target : 0 <= getTargetForBackend b < 256;
  en_check : check_target st t (getTargetForBackend b) = ensure (negb (come_closed st t)) InvalidMove;
  en_bonus : is_bonus t = CRAPS_BONUS_BET_TYPES (lb_type b);
  en_fire : t = Fire <-> lb_type b = Craps_FIRE
}.

Lemma one_of_In l z : one_of l z = true -> In z l.
Proof. unfold one_of. intros (x & Hx & ->%Z.eqb_eq)%existsb_exists. done. Qed.

(** Evaluate the encoding of a bet of known type and target. *)
Ltac encode Et Eg :=
  split; unfold getBetTypeNum, getTargetForBackend; rewrite ?Et, ?Eg;
  cbn [encodeCrapsBet CRAPS_BET_TYPES crapsTargetCleared CRAPS_HARDWAY_MAP BetType_code
       CRAPS_BONUS_BET_TYPES is_bonus check_target default id fst snd];
  try done; try lia.

Lemma target_encodes st b :
  isValidCrapsTarget (lb_type b) (lb_target b) = true ->
  (crapsRequiresTarget (lb_type b) = false -> lb_target b = None) ->
  exists t, chain_kind (lb_type b) (lb_target b) = Some t /\ encodes st b t.
Proof.
  intros Hv Hn. destruct (lb_target b) as [t|] eqn:Eg.
  - destruct (lb_type b) eqn:Et; try (by specialize (Hn eq_refl)); cbn [isValidCrapsTarget] in Hv.
    4: { apply one_of_In in Hv as [<-|[<-|[<-|[<-|[]]]]]; eexists; (split; [done|]); by encode Et Eg. }
    all: eexists; (split; [done|]); encode Et Eg; unfold in_range; by rewrite Hv.
  - destruct (lb_type b) eqn:Et; try done; eexists; (split; [done|]); encode Et Eg;
      unfold come_closed; by destruct (cc_phase st).
Qed.

Lemma code_of_type t : BetType_try_from (BetType_code t) = Some t.
Proof. by destruct t. Qed.

Lemma code_byte t : 0 <= BetType_code t < 256.
Proof. destruct t; cbn; lia. Qed.

Lemma place_bet_encoded st b t :
  encodes st b t -> 0 < lb_amount b < 2 ^ 64 -> (is_bonus t = true -> can_place_bonus st = true) ->
  place_bet st (placePayload b) =
    match refusal st t (lb_amount b) with
    | Some e => inl e
    | None =>
        inr (with_chain_bets st (cc_bets st ++
           [{| ch_type := t; ch_target := getTargetForBackend b;
               ch_status := match t with Come | DontCome => Pending | _ => On end;
               ch_amount := lb_amount b; ch_odds := 0 |}]), - lb_amount b)
    end.
Proof.
  intros [Hc Hg Hk _ _] Ha Hb. unfold place_bet, refusal.
  rewrite parse_place_payload by (rewrite ?Hc; pose proof (code_byte t); lia).
  unfold bindE at 1. rewrite Hc, code_of_type.
  rewrite (proj2 (Z.eqb_neq _ _)) by lia. rewrite Z.leb_antisym. unfold ensure at 1 2. cbn [negb bindE].
  destruct (len (cc_bets st) <? 20); [|done]. cbn [bindE negb orb].
  rewrite Hk. destruct (come_closed st t); [done|]. cbn [negb ensure bindE orb].
  assert (E : negb (is_bonus t) || can_place_bonus st = true).
  { destruct (is_bonus t); [by rewrite Hb|done]. }
  rewrite E. cbn [ensure bindE]. destruct (bool_decide (t = Fire) && _); [done|]. cbn [negb ensure bindE].
  rewrite Z.leb_antisym. by destruct (lb_amount b <? 2 ^ 63).
Qed.

(** A placement that was taken passed the guards. *)
Lemma placed_guards env chips type target s :
  cu_undoStack (placeCrapsBet env chips type target s) <> cu_undoStack s ->
  isValidCrapsTarget type target = true
  /\ (CRAPS_BONUS_BET_TYPES type = true ->
      canPlaceCrapsBonusBets (cu_epochPointEstablished s) (cu_dice s) = true)
  /\ len (cu_bets s) < 20
  /\ cu_bets (placeCrapsBet env chips type target s)
     = dropOpposite type (cu_bets s) ++ [stagedBet type target (cu_bet s)]
  /\ stagedCrapsCost env (cu_super s) (cu_bets (placeCrapsBet env chips type target s)) <= chips.
Proof.
  unfold placeCrapsBet. destruct (isValidCrapsTarget type target); [|done]. cbn [negb].
  destruct (takeOut _ _) as [[x rest]|]; [done|].
  destruct (CRAPS_BONUS_BET_TYPES type && _) eqn:Eb; [done|].
  destruct (CRAPS_MAX_BETS <=? len (cu_bets s)) eqn:El; [done|].
  destruct (bool_decide (type = Craps_FIRE) && _); [done|].
  destruct (chips <? _) eqn:Ec; [done|]. intros _. unfold CRAPS_MAX_BETS in El.
  split_and!; [done| |lia|done|cbn; lia].
  intros Ht. rewrite Ht in Eb. cbn in Eb. by apply negb_false_iff in Eb.
Qed.

(** C13. What the chain answers to a bet that the website let the player stage,
    sent while the site shows the table of the chain: it is a bet of a known kind
    with a valid target, and in its time if it is a bonus bet, so the move places
    exactly that bet and charges exactly its amount, unless the table is full, a
    come bet comes without a point (which [placeCrapsBet] does not check), the chain
    holds a fire bet already, or the amount is above the signed range; these are
    refused. *)
Theorem staged_bet_accepted (env : Env) (chips : Z) type target (s : CrapsUI) (st : ChainCraps) :
  cu_undoStack (placeCrapsBet env chips type target s) <> cu_undoStack s ->
  table_shown s st ->
  (crapsRequiresTarget type = false -> target = None) ->
  0 < cu_bet s < 2 ^ 64 ->
  exists kind, chain_kind type target = Some kind
    /\ place_bet st (placePayload (stagedBet type target (cu_bet s))) =
         if (20 <=? len (cc_bets st))
            || (bool_decide (type = Craps_COME \/ type = Craps_DONT_COME) && bool_decide (cc_phase st = ComeOut))
            || (bool_decide (type = Craps_FIRE)
                && existsb (fun b => bool_decide (ch_type b = Fire)) (cc_bets st))
         then inl InvalidMove
         else if 2 ^ 63 <=? cu_bet s then inl InvalidPayload
         else
         inr (with_chain_bets st (cc_bets st ++
                [{| ch_type := kind; ch_target := getTargetForBackend (stagedBet type target (cu_bet s));
                    ch_status := match kind with Come | DontCome => Pending | _ => On end;
                    ch_amount := cu_bet s; ch_odds := 0 |}]), - cu_bet s).
Proof.
  intros Hp Ht Hn Ha. apply placed_guards in Hp as (Hv & Hb & _).
  destruct (target_encodes st (stagedBet type target (cu_bet s))) as (kind & Hk & He); [done|done|].
  exists kind. split; [exact Hk|]. pose proof (en_bonus _ _ _ He) as Hbo. pose proof (en_fire _ _ _ He) as Hf.
  rewrite (place_bet_encoded st (stagedBet type target (cu_bet s)) kind); [|done|done|].
  2:{ intros Hx. apply (bonus_agrees s st Ht), Hb. rewrite Hbo in Hx. exact Hx. }
  unfold refusal. cbn [lb_amount stagedBet lb_bet lb_type wc_type wc_amount] in *.
  rewrite (bool_decide_ext _ _ Hf).
  replace (come_closed st kind) with
    (bool_decide (type = Craps_COME \/ type = Craps_DONT_COME) && bool_decide (cc_phase st = ComeOut)).
  { change (lb_amount _) with (cu_bet s).
    match goal with |- context [if ?b then Some InvalidMove else _] => destruct b end; [done|].
    by destruct (2 ^ 63 <=? cu_bet s). }
  clear -Hk. unfold come_closed. cbn [stagedBet lb_type lb_target lb_bet wc_type wc_target] in Hk.
  destruct type; cbn [chain_kind] in Hk; try (injection Hk as <-); try by destruct (cc_phase st).
  destruct target as [z|]; [|done]. repeat (destruct z as [|z|z]; try done); by injection Hk as <-.
Qed.

Definition quietTable : ChainCraps :=
  {| cc_phase := ComeOut; cc_main_point := 0; cc_d1 := 0; cc_d2 := 0;
     cc_epoch_point_established := false; cc_bets := [] |}.

Definition quietUI : CrapsUI :=
  {| cu_bets := []; cu_undoStack := []; cu_lastRoundBets := []; cu_inputMode := "NONE"; cu_bet := 25;
     cu_sessionWager := 0; cu_message := ""; cu_point := None; cu_epochPointEstablished := false;
     cu_dice := [0; 0]; cu_oddsCandidates := None; cu_super := false |}.

Lemma staged_bet_accepted_witness :
  exists kind, chain_kind Craps_HARDWAY (Some 8) = Some kind /\ kind = Hardway8
    /\ place_bet quietTable (placePayload (stagedBet Craps_HARDWAY (Some 8) 25)) =
         inr (with_chain_bets quietTable
                [{| ch_type := kind; ch_target := 0; ch_status := On; ch_amount := 25; ch_odds := 0 |}], -25).
Proof.
  destruct (staged_bet_accepted onlineEnv 100 Craps_HARDWAY (Some 8) quietUI quietTable)
    as (kind & Hk & Hp); try done.
  - split; [done|by left|done|done].
  - exists kind. split; [exact Hk|]. injection Hk as <-. split; [done|exact Hp].
Defined.

(** ** Costs *)

Definition betFee (b : SlipCraps) : Z := baseCost b / 5 + stagedOdds b / 5.

Lemma foldl_zsum {A} (f : A -> Z) (l : list A) a : foldl (fun sum b => sum + f b) a l = a + zsum f l.
Proof.
  revert a. induction l as [|b l IH]; intros a; autorewrite with js; [cbn; lia|].
  cbn [foldl]. rewrite IH. lia.
Qed.

Lemma stagedCrapsCost_zsum env super bets :
  stagedCrapsCost env super bets =
    match isOnChain env && super, liveSession env with
    | true, None => zsum baseCost bets + zsum baseCost bets / 5
    | true, Some _ => zsum (fun b => localBetCost b + betFee b) bets
    | false, _ => zsum localBetCost bets
    end.
Proof.
  assert (F : forall f l a, foldl (fun sum b => sum + baseCost b + stagedOdds b + f b) a l
                        = a + zsum (fun b => localBetCost b + f b) l).
  { intros f l. induction l as [|b l IH]; intros a; autorewrite with js; [cbn; lia|].
    cbn [foldl]. rewrite IH. unfold localBetCost at 2. lia. }
  unfold stagedCrapsCost. cbv zeta. destruct (isOnChain env && super).
  - destruct (liveSession env).
    + rewrite (F betFee), Z.add_0_l. done.
    + by rewrite (foldl_zsum baseCost), !Z.add_0_l.
  - rewrite (F (fun _ => 0)), Z.add_0_l. apply zsum_ext. intros. lia.
Qed.

Definition nonneg_bet (b : SlipCraps) : Prop := 0 <= lb_amount b /\ 0 <= stagedOdds b.

Lemma nonneg_costs b : nonneg_bet b -> 0 <= baseCost b /\ 0 <= localBetCost b /\ 0 <= betFee b.
Proof.
  intros [Ha Ho]. assert (0 <= baseCost b) by (unfold baseCost; destruct (lb_local b); lia).
  unfold localBetCost, betFee. repeat split; [done|lia|].
  apply Z.add_nonneg_nonneg; apply Z.div_pos; lia.
Qed.

(** Taking a bet out of the slip does not make it dearer. *)
Lemma cost_without env super l1 b l2 :
  nonneg_bet b -> stagedCrapsCost env super (l1 ++ l2) <= stagedCrapsCost env super (l1 ++ b :: l2).
Proof.
  intros Hb. destruct (nonneg_costs b Hb) as (H1 & H2 & H3). rewrite !stagedCrapsCost_zsum.
  destruct (isOnChain env && super); [destruct (liveSession env)|]; autorewrite with js; [lia| |lia].
  pose proof (Z.div_le_mono (zsum baseCost l1 + zsum baseCost l2)
    (zsum baseCost l1 + (baseCost b + zsum baseCost l2)) 5). lia.
Qed.

Lemma takeOut_split f bets x rest :
  takeOut f bets = Some (x, rest) -> exists l1 l2, bets = l1 ++ x :: l2 /\ rest = l1 ++ l2.
Proof.
  revert x rest. induction bets as [|b bets IH]; intros x rest; [done|]. cbn.
  destruct (f b); [intros [= <- <-]; by exists [], bets|].
  destruct (takeOut f bets) as [[y r]|]; [|done]. cbn. intros [= <- <-].
  destruct (IH y r eq_refl) as (l1 & l2 & -> & ->). by exists (b :: l1), l2.
Qed.

(** What the player can do between two rolls. *)
Inductive CrapsOp :=
| PlaceCraps (type : CrapsBetName) (target : option Z)
| PlaceCrapsNumber (type : CrapsBetName) (num : Z)
| UndoCraps
| RebetCraps
| AddCrapsOdds (selectionIndex : option Z).

Definition craps_op (env : Env) (chips : Z) (s : CrapsUI) (o : CrapsOp) : option CrapsUI :=
  match o with
  | PlaceCraps type target => Some (placeCrapsBet env chips type target s)
  | PlaceCrapsNumber type num => Some (placeCrapsNumberBet env chips type num s)
  | UndoCraps => Some (undoCrapsBet s)
  | RebetCraps => Some (rebetCraps env chips s)
  | AddCrapsOdds i => addCrapsOdds env chips i s
  end.

Fixpoint craps_run (env : Env) (chips : Z) (s : CrapsUI) (ops : list CrapsOp) : option CrapsUI :=
  match ops with
  | [] => Some s
  | o :: ops' => s' ← craps_op env chips s o; craps_run env chips s' ops'
  end.

(** A slip the chips pay for. *)
Definition paid (env : Env) (chips : Z) (super : bool) (bets : list SlipCraps) : Prop :=
  stagedCrapsCost env super bets <= chips /\ Forall nonneg_bet bets.

Record covered (env : Env) (chips : Z) (s : CrapsUI) : Prop := {
  co_bets : paid env chips (cu_super s) (cu_bets s);
  co_undo : Forall (paid env chips (cu_super s)) (cu_undoStack s);
  co_last : Forall nonneg_bet (cu_lastRoundBets s);
  co_bet : 0 <= cu_bet s
}.

Lemma covered_say env chips m s : covered env chips s -> covered env chips (say m s).
Proof. by intros [? ? ? ?]. Qed.

Lemma covered_input env chips s : covered env chips s -> covered env chips (input_none s).
Proof. by intros [? ? ? ?]. Qed.

Lemma covered_candidates env chips c s : covered env chips s -> covered env chips (with_candidates c s).
Proof. by intros [? ? ? ?]. Qed.

Lemma covered_bets env chips s bets undo wager :
  covered env chips s -> paid env chips (cu_super s) bets -> Forall (paid env chips (cu_super s)) undo ->
  covered env chips (with_bets s bets undo wager).
Proof. by intros [? ? ? ?]. Qed.

Lemma covered_push env chips s :
  covered env chips s -> Forall (paid env chips (cu_super s)) (cu_undoStack s ++ [cu_bets s]).
Proof. intros [Hb Hu _ _]. apply Forall_app. split; [done|by apply Forall_singleton]. Qed.

#[local] Hint Resolve covered_say covered_input covered_candidates covered_bets covered_push : core.

Lemma nonneg_dropOpposite type bets : Forall nonneg_bet bets -> Forall nonneg_bet (dropOpposite type bets).
Proof.
  intros H. unfold dropOpposite. destruct type; try done;
    apply List.Forall_forall; intros b [Hb _]%List.filter_In; by apply (proj1 (List.Forall_forall _ _) H).
Qed.

Lemma place_covered env chips type target s :
  covered env chips s -> covered env chips (placeCrapsBet env chips type target s).
Proof.
  intros H. pose proof H as [[Hc Hn] Hu Hl Hb]. unfold placeCrapsBet. destruct (negb _); [auto|].
  destruct (takeOut _ _) as [[x rest]|] eqn:Et.
  - apply takeOut_split in Et as (l1 & l2 & E & ->). rewrite E in *.
    apply Forall_app in Hn as [Hn1 [Hx Hn2]%Forall_cons].
    apply covered_input, covered_say, covered_bets; [done| |done]. split.
    + pose proof (cost_without env (cu_super s) l1 x l2 Hx). lia.
    + by apply Forall_app.
  - destruct (_ && _); [auto|]. destruct (_ <=? _); [auto|]. destruct (_ && _); [auto|].
    destruct (chips <? _) eqn:Ec; [auto|].
    apply covered_input, covered_say, covered_bets; [done| |by apply covered_push]. split; [lia|].
    apply Forall_app. split; [by apply nonneg_dropOpposite|]. by apply Forall_singleton.
Qed.

Lemma undo_covered env chips s : covered env chips s -> covered env chips (undoCrapsBet s).
Proof.
  intros H. pose proof (co_undo _ _ _ H) as Hu. unfold undoCrapsBet.
  destruct (last (cu_undoStack s)) as [bets|] eqn:El; [|done].
  apply last_Some in El as [l E]. rewrite E in *. apply Forall_app in Hu as [Hu [Hp _]%Forall_cons].
  apply covered_bets; [done|done|]. by rewrite removelast_last.
Qed.

Lemma rebet_covered env chips s : covered env chips s -> covered env chips (rebetCraps env chips s).
Proof.
  intros H. pose proof H as [[Hc Hn] Hu Hl Hb]. unfold rebetCraps.
  destruct (_ =? _); [auto|]. destruct (_ <? _); [auto|]. destruct (chips <? _) eqn:Ec; [auto|].
  apply covered_say, covered_bets; [done| |by apply covered_push]. split; [lia|].
  apply Forall_app. split; [done|]. apply Forall_fmap. by apply (Forall_impl _ _ _ Hl).
Qed.

Lemma odds_covered env chips idx s s' :
  covered env chips s -> executeAddOdds env chips idx s = Some s' -> covered env chips s'.
Proof.
  intros H. pose proof H as [[Hc Hn] Hu Hl Hb]. unfold executeAddOdds.
  destruct (betAt (cu_bets s) idx) as [b|] eqn:Ea; [|done]. cbn. intros [= <-].
  match goal with |- covered _ _ (if ?c then _ else _) => destruct c; [auto|] end. destruct (_ * 5 <=? _); [auto|].
  destruct (_ <=? 0) eqn:E0; [auto|]. destruct (chips <? _) eqn:Ec; [auto|].
  apply covered_say, covered_bets; [done| |done]. split; [lia|].
  assert (nonneg_bet b) as [Ha Ho].
  { unfold betAt in Ea. destruct (idx <? 0); [done|]. exact (Forall_lookup_1 _ _ _ _ Hn Ea). }
  apply Forall_insert; [done|]. split; [done|]. cbn. unfold stagedOdds in *. lia.
Qed.

Lemma addOdds_covered env chips i s s' :
  covered env chips s -> addCrapsOdds env chips i s = Some s' -> covered env chips s'.
Proof.
  intros H. unfold addCrapsOdds.
  assert (G : match oddsCandidates (cu_bets s) with
              | [] => Some (say "NO BET FOR ODDS" s)
              | [c] => executeAddOdds env chips c s
              | candidates => Some (say "SELECT BET FOR ODDS (1-9)" (with_candidates (Some candidates) s))
              end = Some s' -> covered env chips s').
  { destruct (oddsCandidates _) as [|c [|c' cs]]; [intros [= <-]; auto| |intros [= <-]; auto].
    by apply odds_covered. }
  destruct i as [i|]; [|done]. destruct (cu_oddsCandidates s) as [cs|]; [|done].
  destruct (_ || _); [by intros [= <-]|]. destruct (cs !! _) as [c|]; [|done]. cbn. apply odds_covered. auto.
Qed.

Lemma craps_op_covered env chips s o s' :
  covered env chips s -> craps_op env chips s o = Some s' -> covered env chips s'.
Proof.
  intros H. destruct o as [type target|type num| | |i]; cbn.
  - intros [= <-]. by apply place_covered.
  - intros [= <-]. unfold placeCrapsNumberBet. destruct (negb _); [auto|]. by apply place_covered.
  - intros [= <-]. by apply undo_covered.
  - intros [= <-]. by apply rebet_covered.
  - by apply addOdds_covered.
Qed.

Lemma craps_run_covered env chips ops s s' :
  covered env chips s -> craps_run env chips s ops = Some s' -> covered env chips s'.
Proof.
  revert s. induction ops as [|o ops IH]; intros s H; cbn; [by intros [= <-]|].
  destruct (craps_op env chips s o) as [s1|] eqn:E; [|done]. cbn. apply IH. by eapply craps_op_covered.
Qed.

(** C14. Whatever bets and odds the player stages, removes, undoes and repeats,
    the chips always cover the whole slip, the fees of super mode included, and
    so does every slip on the undo stack. *)
Theorem craps_stakes_covered (env : Env) (chips : Z) (ops : list CrapsOp) (s s' : CrapsUI) :
  covered env chips s -> craps_run env chips s ops = Some s' -> covered env chips s'.
Proof. apply craps_run_covered. Qed.

Lemma craps_stakes_covered_witness :
  exists s', craps_run onlineEnv 60 quietUI
      [PlaceCraps Craps_PASS None; PlaceCraps Craps_FIELD None; PlaceCrapsNumber Craps_NEXT 5;
       PlaceCraps Craps_DONT_PASS None; UndoCraps] = Some s'
    /\ covered onlineEnv 60 s' /\ len (cu_bets s') = 2.
Proof.
  destruct (craps_run onlineEnv 60 quietUI
      [PlaceCraps Craps_PASS None; PlaceCraps Craps_FIELD None; PlaceCrapsNumber Craps_NEXT 5;
       PlaceCraps Craps_DONT_PASS None; UndoCraps]) as [s'|] eqn:E; [|by vm_compute in E].
  exists s'. split; [done|]. split.
  - refine (craps_stakes_covered onlineEnv 60 _ quietUI s' _ E).
    split; [|constructor|constructor|done]. split; [done|constructor].
  - vm_compute in E. by injection E as <-.
Defined.

(** ** Rolls *)

Lemma sendAll_all accept i moves : (forall j, accept j = true) -> sendAll accept i moves = (moves, true).
Proof.
  intros H. revert i. induction moves as [|m moves IH]; intros i; [done|]. cbn. by rewrite H, IH.
Qed.

Lemma sendAll_refused accept i k moves :
  (k < length moves)%nat -> (forall j, (j < k)%nat -> accept (i + j)%nat = true) -> accept (i + k)%nat = false ->
  sendAll accept i moves = (take k moves, false).
Proof.
  revert i k. induction moves as [|m moves IH]; intros i k Hk Ha Hr; [cbn in Hk; lia|].
  cbn [sendAll]. destruct k as [|k].
  - rewrite Nat.add_0_r in Hr. by rewrite Hr.
  - specialize (Ha 0%nat) as H0. rewrite Nat.add_0_r in H0. rewrite H0 by lia.
    rewrite (IH (S i) k); [done|cbn in Hk; lia| |by rewrite Nat.add_succ_comm].
    intros j Hj. rewrite Nat.add_succ_comm. apply Ha. lia.
Qed.

Definition movesOf (s : CrapsUI) : list Uint8Array :=
  (placePayload <$> stagedLocalBets s) ++ (oddsPayload <$> betsWithStagedOdds s) ++ [rollPayload].

Lemma sendRoll_all env accept s :
  (forall j, accept j = true) ->
  sendRoll env accept s =
    (say "ROLLING..." (clearOdds (commitBets s)), with_pending env true (pendingMoveCount env),
     {| re_sent := movesOf s; re_draft := None |}).
Proof. intros H. unfold sendRoll. by rewrite !sendAll_all. Qed.

(** When the node refuses one of the staged bets, those before it are on
    the chain, but the slip keeps them all as staged, and the player may roll
    again: the next roll that goes through sends the bets that were taken a
    second time. *)
Theorem failed_roll_resends (env : Env) (s : CrapsUI) (accept again : nat -> bool) (k : nat) :
  (k < length (stagedLocalBets s))%nat ->
  (forall j, (j < k)%nat -> accept j = true) -> accept k = false ->
  (forall j, again j = true) ->
  let '(s1, env1, effect1) := sendRoll env accept s in
  re_sent effect1 = placePayload <$> take k (stagedLocalBets s)
  /\ isPending env1 = false
  /\ stagedLocalBets s1 = stagedLocalBets s
  /\ exists rest, re_sent (sendRoll env1 again s1).2 = (placePayload <$> stagedLocalBets s) ++ rest.
Proof.
  intros Hk Ha Hr Hg. unfold sendRoll at 1.
  rewrite (sendAll_refused accept 0 k) by (rewrite ?length_fmap; done).
  cbn [negb]. split_and!; [by rewrite fmap_take|done|done|].
  rewrite sendRoll_all by done. cbn. unfold movesOf. by eexists.
Qed.

Definition twoBets : CrapsUI :=
  with_bets quietUI [stagedBet Craps_PASS None 25; stagedBet Craps_FIELD None 10] [] 35.

Lemma failed_roll_resends_witness :
  let '(s1, env1, effect1) := sendRoll onlineEnv (fun i => Nat.eqb i 0) twoBets in
  len (re_sent effect1) = 1
  /\ len (re_sent (sendRoll env1 (fun _ => true) s1).2) = 3
  /\ stagedLocalBets s1 = stagedLocalBets twoBets.
Proof.
  pose proof (failed_roll_resends onlineEnv twoBets (fun i => Nat.eqb i 0) (fun _ => true) 1) as H.
  destruct (sendRoll onlineEnv (fun i => Nat.eqb i 0) twoBets) as [[s1 env1] e1] eqn:E.
  destruct H as (H1 & _ & H3 & _); [cbn; lia|intros j Hj; by destruct j; [|lia]|done|done|].
  split; [by rewrite H1|]. split; [|exact H3].
  vm_compute in E. by injection E as <- <- _.
Defined.

(** *** Odds *)

Lemma odds_on_first_found odds before bet after :
  Forall (fun b => contract_on b = false) after ->
  contract_on bet = true -> is_point_total (ch_target bet) = true -> ch_odds bet + odds < 2 ^ 64 ->
  odds_on_first odds (after ++ bet :: before) = inr (after ++ more_odds odds bet :: before).
Proof.
  intros Ha Hb Ht Ho. induction Ha as [|b after Hb' _ IH]; cbn [odds_on_first app].
  - unfold is_point_total in Ht. rewrite Hb, Ht. cbn [negb]. by rewrite (proj2 (Z.leb_gt _ _)) by lia.
  - by rewrite Hb', IH.
Qed.

(** The chain's side of the odds move, for any amount. *)
Lemma add_odds_last st a before bet after :
  cc_bets st = before ++ bet :: after ->
  Forall (fun b => contract_on b = false) after ->
  contract_on bet = true -> is_point_total (ch_target bet) = true ->
  0 < a < 2 ^ 64 -> ch_odds bet + a < 2 ^ 64 ->
  add_odds st (u8array [1] ++ be_bytes 8 a) =
    try payout <- neg_as_i64 a; inr (with_chain_bets st (before ++ more_odds a bet :: after), payout).
Proof.
  intros E Ha Hb Ht H0 Ho. unfold add_odds.
  rewrite len_app, len_be_bytes. cbn [u8array fmap list_fmap len length]. change (Z.of_nat 1 + Z.of_nat 8 <? 9) with false.
  assert (S : be_value (slice (u8array [1] ++ be_bytes 8 a) 1 9) = a).
  { pose proof (slice_be8 (u8array [1]) a [] ltac:(lia)) as Es. by rewrite app_nil_r in Es. }
  cbn [u8array fmap list_fmap] in S. cbv iota. rewrite S, (proj2 (Z.eqb_neq _ _)) by lia.
  rewrite E, rev_app_distr. cbn [rev]. rewrite <- app_assoc. cbn [app].
  rewrite odds_on_first_found; [|by apply List.Forall_rev|done|done|done].
  cbn [bindE]. rewrite rev_app_distr. cbn [rev]. by rewrite !rev_involutive, <- app_assoc.
Qed.

Lemma neg_as_i64_small a : 0 <= a < 2 ^ 63 -> neg_as_i64 a = inr (- a).
Proof.
  intros H. unfold neg_as_i64, as_signed. change (64 - 1) with 63.
  rewrite (proj2 (Z.leb_gt _ _)) by lia. by rewrite (proj2 (Z.eqb_neq _ _)) by lia.
Qed.

Lemma neg_as_i64_large a : 2 ^ 63 < a < 2 ^ 64 -> neg_as_i64 a = inr (2 ^ 64 - a).
Proof.
  intros H. unfold neg_as_i64, as_signed. change (64 - 1) with 63.
  rewrite (proj2 (Z.leb_le _ _)) by lia. rewrite (proj2 (Z.eqb_neq _ _)) by lia. f_equal. lia.
Qed.

(** Odds go to the last contract bet that is on, whichever the player
    chose: the move that the website sends does not name a bet. *)
Theorem odds_go_to_last (st : ChainCraps) (b : SlipCraps) before bet after :
  cc_bets st = before ++ bet :: after ->
  Forall (fun b => contract_on b = false) after ->
  contract_on bet = true -> is_point_total (ch_target bet) = true ->
  0 < stagedOdds b < 2 ^ 63 -> ch_odds bet + stagedOdds b < 2 ^ 64 ->
  add_odds st (oddsPayload b) =
    inr (with_chain_bets st (before ++ more_odds (stagedOdds b) bet :: after), - stagedOdds b).
Proof.
  intros E Ha Hb Ht H0 Ho. unfold oddsPayload.
  rewrite (add_odds_last st _ before bet after) by (done || lia).
  by rewrite neg_as_i64_small by lia.
Qed.

Definition passBet : ChainBet :=
  {| ch_type := Pass; ch_target := 6; ch_status := On; ch_amount := 25; ch_odds := 0 |}.
Definition comeBet : ChainBet :=
  {| ch_type := Come; ch_target := 9; ch_status := On; ch_amount := 25; ch_odds := 0 |}.

(** A pass bet with the point on 6, and a come bet that moved to 9. *)
Definition passAndCome : ChainCraps :=
  {| cc_phase := Point; cc_main_point := 6; cc_d1 := 4; cc_d2 := 5; cc_epoch_point_established := true;
     cc_bets := [passBet; comeBet] |}.

Definition chainBet (type : CrapsBetName) (target : Z) : SlipCraps :=
  {| lb_bet := {| wc_type := type; wc_amount := 25; wc_target := Some target; wc_oddsAmount := None;
                  wc_progressMask := None; wc_status := Some ON |};
     lb_localOddsAmount := None; lb_local := false |}.

Definition passAndComeUI : CrapsUI :=
  {| cu_bets := [chainBet Craps_PASS 6; chainBet Craps_COME 9]; cu_undoStack := [];
     cu_lastRoundBets := []; cu_inputMode := "NONE"; cu_bet := 25; cu_sessionWager := 0; cu_message := "";
     cu_point := Some 6; cu_epochPointEstablished := true; cu_dice := [4; 5];
     cu_oddsCandidates := Some [0; 1]; cu_super := false |}.

(** The player chooses the pass bet, and the come bet gets the odds. *)
Lemma odds_go_to_last_witness :
  exists s', addCrapsOdds onlineEnv 100 (Some 0) passAndComeUI = Some s'
    /\ stagedOdds <$> cu_bets s' = [25; 0]
    /\ exists b, betsWithStagedOdds s' = [b]
    /\ exists st', add_odds passAndCome (oddsPayload b) = inr (st', -25)
    /\ ch_odds <$> cc_bets st' = [0; 25].
Proof.
  destruct (addCrapsOdds onlineEnv 100 (Some 0) passAndComeUI) as [s'|] eqn:E; [|by vm_compute in E].
  exists s'. split; [done|]. vm_compute in E. injection E as <-.
  split; [done|]. exists (with_odds 25 (chainBet Craps_PASS 6)). split; [done|].
  eexists. split.
  - refine (odds_go_to_last passAndCome _ [passBet] comeBet [] eq_refl _ eq_refl eq_refl _ _); [constructor|cbn; lia|cbn; lia].
  - done.
Defined.

(** C12. The chain charges odds as a signed number: an amount above [2^63]
    becomes a credit, so the player is paid for raising the odds to that amount,
    and the amount [2^63] itself makes the node panic. *)
Theorem odds_mint_chips (st : ChainCraps) (a stack : Z) before bet after :
  cc_bets st = before ++ bet :: after ->
  Forall (fun b => contract_on b = false) after ->
  contract_on bet = true -> is_point_total (ch_target bet) = true ->
  2 ^ 63 <= a -> 0 <= ch_odds bet -> ch_odds bet + a < 2 ^ 64 -> 0 <= stack ->
  let st' := with_chain_bets st (before ++ more_odds a bet :: after) in
  if a =? 2 ^ 63 then add_odds st (u8array [1] ++ be_bytes 8 a) = inl Panicked
  else add_odds st (u8array [1] ++ be_bytes 8 a) = inr (st', 2 ^ 64 - a)
       /\ continue_with_update stack (2 ^ 64 - a) = Some (saturating_add stack (2 ^ 64 - a)).
Proof.
  intros E Ha Hb Ht H0 Hn Ho Hs. cbv zeta. rewrite (add_odds_last st _ before bet after) by (done || lia).
  destruct (a =? 2 ^ 63) eqn:Ea; [by apply Z.eqb_eq in Ea as ->|].
  apply Z.eqb_neq in Ea. rewrite neg_as_i64_large by lia. split; [done|].
  unfold continue_with_update. by rewrite (proj2 (Z.ltb_ge _ _)) by lia.
Qed.

Lemma odds_mint_chips_witness :
  exists st', add_odds passAndCome (u8array [1] ++ be_bytes 8 (2 ^ 64 - 1000)) = inr (st', 1000)
    /\ ch_odds <$> cc_bets st' = [0; 2 ^ 64 - 1000]
    /\ continue_with_update 50 1000 = Some 1050.
Proof.
  destruct (odds_mint_chips passAndCome (2 ^ 64 - 1000) 50
    [passBet] comeBet []
    eq_refl (Forall_nil_2 _) eq_refl eq_refl) as [H1 H2]; [lia|cbn; lia|cbn; lia|lia|].
  eexists. split; [exact H1|]. split; [done|exact H2].
Defined.
