(* ===== verification/BatchCorrect.v ===== *)
(** * The atomic batches, from the request to the table of the chain

    The protocol package writes the bets of a request as one move
    ([ProtocolEncode]); the game of the chain reads them back: action 4 of
    [roulette.rs] and [craps.rs], 3 of [sic_bo.rs] and [baccarat.rs], up to the
    spin, the roll or the deal.  What a bet of the request means is stated here
    by tables of its names, not by the encoder. *)

From S2P Require Import Prelude JsNum Bytes Constants Batch ProtocolEncode Arith ChainMove.
From S2P Require Roulette SicBo Craps CrapsSlip.

(** ** The games of the chain *)

Module Baccarat.
Inductive BetType :=
| Player | Banker | Tie | PlayerPair | BankerPair | Lucky6 | PlayerDragon | BankerDragon | Panda8 | PerfectPair.

#[export] Instance BetType_eq_dec : EqDecision BetType.
Proof. solve_decision. Defined.

(** [BetType::try_from(u8)]; the former bet on a pair of the banker, 10, is the
    perfect pair. *)
Definition BetType_try_from (value : Z) : option BetType :=
  nth_error [Player; Banker; Tie; PlayerPair; BankerPair; Lucky6; PlayerDragon; BankerDragon; Panda8;
             PerfectPair; PerfectPair] (Z.to_nat value).
End Baccarat.

(** What a bet is on, in the game that takes it. *)
Inductive Kind :=
| On_baccarat (t : Baccarat.BetType)
| On_roulette (t : Roulette.BetType)
| On_craps (t : Craps.BetType)
| On_sicbo (t : SicBo.BetType).

#[local] Existing Instances Baccarat.BetType_eq_dec Roulette.BetType_eq_dec Craps.BetType_eq_dec SicBo.BetType_eq_dec.

#[export] Instance Kind_eq_dec : EqDecision Kind.
Proof. solve_decision. Defined.

Record Bet := { bt_kind : Kind; bt_number : Z; bt_amount : Z }.

(** An entry of a game with numbers, and one of baccarat. *)
Definition numbered_entry {T} (mk : T -> Kind) (try_from : Z -> option T) (payload : Uint8Array) (offset : Z)
    : GameError + (Bet * Z) :=
  try (bet_type, number, amount) <- typed_entry try_from payload offset;
  inr ({| bt_kind := mk bet_type; bt_number := number; bt_amount := amount |}, amount).

Definition baccarat_entry (payload : Uint8Array) (offset : Z) : GameError + (Bet * Z) :=
  try code <- byte_at payload offset;
  match Baccarat.BetType_try_from code with
  | None => inl InvalidPayload
  | Some bet_type =>
      try amount <- parse_u64_be payload (offset + 1);
      try _ <- ensure (negb (amount =? 0)) InvalidPayload;
      inr ({| bt_kind := On_baccarat bet_type; bt_number := 0; bt_amount := amount |}, amount)
  end.

(** Place and lay bets are on a number of two dice other than seven. *)
Definition craps_target_ok (bet : Bet) : bool :=
  match bt_kind bet with
  | On_craps (Craps.Yes | Craps.No) => (2 <=? bt_number bet) && (bt_number bet <=? 12) && negb (bt_number bet =? 7)
  | _ => true
  end.

Definition craps_entry (payload : Uint8Array) (offset : Z) : GameError + (Bet * Z) :=
  try (bet, amount) <- numbered_entry On_craps CrapsSlip.BetType_try_from payload offset;
  try _ <- ensure (craps_target_ok bet) InvalidPayload;
  inr (bet, amount).

(** Baccarat adds up the bets on one thing, [find] and [checked_add]. *)
Fixpoint merge_bet (bets : list Bet) (bet : Bet) : GameError + list Bet :=
  match bets with
  | [] => inr [bet]
  | b :: bets =>
      if decide (bt_kind b = bt_kind bet) then
        try amount <- checked_add (bt_amount b) (bt_amount bet);
        inr ({| bt_kind := bt_kind b; bt_number := bt_number b; bt_amount := amount |} :: bets)
      else try bets <- merge_bet bets bet; inr (b :: bets)
  end.

Definition push_bet (bets : list Bet) (bet : Bet) : GameError + list Bet := inr (bets ++ [bet]).

Definition max_bets (game : AtomicBatchGame) : Z := match game with Atomic_baccarat => 11 | _ => 20 end.

(** The bets that the batch move of a game takes from its payload, and their
    total. *)
Definition chain_batch (game : AtomicBatchGame) (payload : Uint8Array) : GameError + (list Bet * Z) :=
  match game with
  | Atomic_baccarat => batch 11 9 baccarat_entry merge_bet payload
  | Atomic_roulette => batch 20 10 (numbered_entry On_roulette Roulette.BetType_try_from) push_bet payload
  | Atomic_craps => batch 20 10 craps_entry push_bet payload
  | Atomic_sicbo => batch 20 10 (numbered_entry On_sicbo SicBo.BetType_try_from) push_bet payload
  end.

(** ** What the bets of a request mean

    A name stands for a kind of bet, with a number of its own or that of the
    request. *)

Definition baccarat_names : list (string * Baccarat.BetType) :=
  [("PLAYER", Baccarat.Player); ("BANKER", Baccarat.Banker); ("TIE", Baccarat.Tie);
   ("P_PAIR", Baccarat.PlayerPair); ("B_PAIR", Baccarat.BankerPair); ("LUCKY6", Baccarat.Lucky6);
   ("P_DRAGON", Baccarat.PlayerDragon); ("B_DRAGON", Baccarat.BankerDragon); ("PANDA8", Baccarat.Panda8);
   ("PERFECT_PAIR", Baccarat.PerfectPair)].

Definition roulette_names : list (string * (Roulette.BetType * option Z)) :=
  [("STRAIGHT", (Roulette.Straight, None)); ("ZERO", (Roulette.Straight, Some 0));
   ("RED", (Roulette.Red, Some 0)); ("BLACK", (Roulette.Black, Some 0)); ("EVEN", (Roulette.Even, Some 0));
   ("ODD", (Roulette.Odd, Some 0)); ("LOW", (Roulette.Low, Some 0)); ("HIGH", (Roulette.High, Some 0));
   ("DOZEN_1", (Roulette.Dozen, Some 0)); ("DOZEN_2", (Roulette.Dozen, Some 1)); ("DOZEN_3", (Roulette.Dozen, Some 2));
   ("COL_1", (Roulette.Column, Some 0)); ("COL_2", (Roulette.Column, Some 1)); ("COL_3", (Roulette.Column, Some 2));
   ("SPLIT_H", (Roulette.SplitH, None)); ("SPLIT_V", (Roulette.SplitV, None)); ("STREET", (Roulette.Street, None));
   ("CORNER", (Roulette.Corner, None)); ("SIX_LINE", (Roulette.SixLine, None))].

Definition sicbo_names : list (string * SicBo.BetType) :=
  [("SMALL", SicBo.Small); ("BIG", SicBo.Big); ("ODD", SicBo.Odd); ("EVEN", SicBo.Even);
   ("TRIPLE_SPECIFIC", SicBo.SpecificTriple); ("TRIPLE_ANY", SicBo.AnyTriple);
   ("DOUBLE_SPECIFIC", SicBo.SpecificDouble); ("SUM", SicBo.Total); ("SINGLE_DIE", SicBo.Single);
   ("DOMINO", SicBo.Domino); ("HOP3_EASY", SicBo.ThreeNumberEasyHop); ("HOP3_HARD", SicBo.ThreeNumberHardHop);
   ("HOP4_EASY", SicBo.FourNumberEasyHop)].

(** The bonus bets of craps have no number. *)
Definition craps_names : list (string * (Craps.BetType * option Z)) :=
  [("PASS", (Craps.Pass, None)); ("DONT_PASS", (Craps.DontPass, None)); ("COME", (Craps.Come, None));
   ("DONT_COME", (Craps.DontCome, None)); ("FIELD", (Craps.Field, None)); ("YES", (Craps.Yes, None));
   ("NO", (Craps.No, None)); ("NEXT", (Craps.Next, None)); ("FIRE", (Craps.Fire, Some 0));
   ("ATS_SMALL", (Craps.AtsSmall, Some 0)); ("ATS_TALL", (Craps.AtsTall, Some 0)); ("ATS_ALL", (Craps.AtsAll, Some 0));
   ("MUGGSY", (Craps.Muggsy, Some 0)); ("DIFF_DOUBLES", (Craps.DiffDoubles, Some 0));
   ("RIDE_LINE", (Craps.RideLine, Some 0)); ("REPLAY", (Craps.Replay, Some 0)); ("HOT_ROLLER", (Craps.HotRoller, Some 0))].

(** A hardway bet names its pair by its sum. *)
Definition hardways : list (Z * Craps.BetType) :=
  [(4, Craps.Hardway4); (6, Craps.Hardway6); (8, Craps.Hardway8); (10, Craps.Hardway10)].

Definition assoc {K V} `{EqDecision K} (k : K) (l : list (K * V)) : option V :=
  snd <$> List.find (fun p => bool_decide (p.1 = k)) l.

(** The kind and the number of a bet by name, or by code. *)
Definition meant_name (game : AtomicBatchGame) (name : string) (bet : AtomicBetInput) : option (Kind * Z) :=
  match game with
  | Atomic_baccarat => t ← assoc name baccarat_names; Some (On_baccarat t, 0)
  | Atomic_roulette => '(t, n) ← assoc name roulette_names; Some (On_roulette t, default (rawValue bet) n)
  | Atomic_sicbo => t ← assoc name sicbo_names; Some (On_sicbo t, rawValue bet)
  | Atomic_craps =>
      if String.eqb name "HARDWAY" then
        n ← ab_target bet; t ← assoc n hardways; Some (On_craps t, 0)
      else '(t, n) ← assoc name craps_names; Some (On_craps t, default (default 0 (ab_target bet)) n)
  end.

Definition meant_code (game : AtomicBatchGame) (code : Z) (bet : AtomicBetInput) : option (Kind * Z) :=
  if negb ((0 <=? code) && (code <? 256)) then None else
  match game with
  | Atomic_baccarat => t ← Baccarat.BetType_try_from code; Some (On_baccarat t, 0)
  | Atomic_roulette => t ← Roulette.BetType_try_from code; Some (On_roulette t, rawValue bet)
  | Atomic_sicbo => t ← SicBo.BetType_try_from code; Some (On_sicbo t, rawValue bet)
  | Atomic_craps => t ← CrapsSlip.BetType_try_from code; Some (On_craps t, default 0 (ab_target bet))
  end.

(** The bet that the game can take: a number of a byte, an amount of 64 bits. *)
Definition meant (game : AtomicBatchGame) (bet : AtomicBetInput) : option Bet :=
  '(k, n) ← match ab_type bet with
            | inl name => meant_name game (to_upper name) bet
            | inr code => meant_code game code bet
            end;
  let b := {| bt_kind := k; bt_number := n; bt_amount := ab_amount bet |} in
  if (0 <=? n) && (n <? 256) && (0 <? ab_amount bet) && (ab_amount bet <? 2 ^ 64) && craps_target_ok b
  then Some b else None.

(** ** The encoder means the same *)

Definition kind_of (game : AtomicBatchGame) (code : Z) : option Kind :=
  match game with
  | Atomic_baccarat => On_baccarat <$> Baccarat.BetType_try_from code
  | Atomic_roulette => On_roulette <$> Roulette.BetType_try_from code
  | Atomic_sicbo => On_sicbo <$> SicBo.BetType_try_from code
  | Atomic_craps => On_craps <$> CrapsSlip.BetType_try_from code
  end.

Lemma assoc_in {K V} `{EqDecision K} (k : K) (v : V) l : assoc k l = Some v -> In (k, v) l.
Proof.
  unfold assoc. destruct (List.find _ l) as [[k' v']|] eqn:E; [|done]. intros [=<-].
  apply List.find_some in E as [Hin Hk]. cbn in Hk. bprop. by subst k'.
Qed.

(** The resolver of the encoder finds a code of the kind meant, and its number. *)
Lemma resolved_name game name bet k n :
  ab_type bet = inl name -> meant_name game (to_upper name) bet = Some (k, n) ->
  exists code, atomicResolve game bet = Ok (code, n) /\ 0 <= code < 256 /\ kind_of game code = Some k.
Proof.
  intros Et. unfold meant_name, atomicResolve, resolveBaccarat, resolveRoulette, resolveCraps, resolveSicBo.
  rewrite Et. destruct game; cbn [mbind option_bind].
  1: destruct (assoc (to_upper name) baccarat_names) eqn:E; [|done].
  2: destruct (assoc (to_upper name) roulette_names) as [[t o]|] eqn:E; [|done].
  3: destruct (String.eqb_spec (to_upper name) "HARDWAY") as [->|_];
     [destruct (ab_target bet) as [tg|] eqn:Eg; [|done];
      cbn [mbind option_bind]; destruct (assoc tg hardways) as [t|] eqn:E; [|done]
     |destruct (assoc (to_upper name) craps_names) as [[t o]|] eqn:E; [|done]].
  5: destruct (assoc (to_upper name) sicbo_names) as [t|] eqn:E; [|done].
  all: apply assoc_in in E; unfold baccarat_names, roulette_names, craps_names, sicbo_names, hardways in E; cbn [In] in E;
    intros [= <- <-].
  all: repeat (destruct E as [E|E]; [injection E; clear E; intros; subst;
      try match goal with H : _ = to_upper _ |- _ => rewrite <- H end;
      eexists; split; [reflexivity|split; [cbn; lia|reflexivity]]|]); done.
Qed.

Lemma resolved_code game code bet k n :
  ab_type bet = inr code -> meant_code game code bet = Some (k, n) ->
  atomicResolve game bet = Ok (code, n) /\ 0 <= code < 256 /\ kind_of game code = Some k.
Proof.
  intros Et. unfold meant_code, atomicResolve, resolveBaccarat, resolveRoulette, resolveCraps, resolveSicBo, kind_of.
  rewrite Et. destruct ((0 <=? code) && (code <? 256)) eqn:Ec; [|done]. cbn [negb].
  assert (0 <= code < 256) by (bprop; lia).
  destruct game; match goal with |- context [mbind _ (?f code)] => destruct (f code) as [t|] eqn:E end; try done;
    by intros [= <- <-].
Qed.

(** A bet with a meaning is written as an entry of its kind, number and amount. *)
Lemma meant_entry game bet m :
  meant game bet = Some m ->
  exists code, atomicEntry game bet = Ok (atomicEncode game (code, bt_number m) (bt_amount m))
    /\ 0 <= code < 256 /\ kind_of game code = Some (bt_kind m)
    /\ 0 <= bt_number m < 256 /\ 0 < bt_amount m < 2 ^ 64 /\ craps_target_ok m = true
    /\ (game = Atomic_baccarat -> bt_number m = 0).
Proof.
  unfold meant. destruct (match ab_type bet with inl _ => _ | inr _ => _ end) as [[k n]|] eqn:E; [|done].
  cbn [mbind option_bind]. destruct (_ && _) eqn:Ec; [|done]. intros [= <-]. cbn [bt_kind bt_number bt_amount].
  apply andb_true_iff in Ec as [Ec Ht]. bprop.
  assert (Hres : exists code, atomicResolve game bet = Ok (code, n) /\ 0 <= code < 256 /\ kind_of game code = Some k).
  { destruct (ab_type bet) as [name|code] eqn:Et; [by eapply resolved_name|].
    exists code. by eapply resolved_code. }
  destruct Hres as (code & Hr & Hc & Hk). exists code. repeat split; try done; try lia.
  - unfold atomicEntry, throw_if. rewrite (proj2 (Z.leb_gt _ _)) by lia. cbn [mbind result_bind]. by rewrite Hr.
  - intros ->. unfold atomicResolve in Hr. destruct (resolveBaccarat _); [|done]. by injection Hr.
Qed.

(** ** The chain reads what was meant *)

Definition chain_width (game : AtomicBatchGame) : Z := match game with Atomic_baccarat => 9 | _ => 10 end.

Definition chain_entry (game : AtomicBatchGame) : Uint8Array -> Z -> GameError + (Bet * Z) :=
  match game with
  | Atomic_baccarat => baccarat_entry
  | Atomic_roulette => numbered_entry On_roulette Roulette.BetType_try_from
  | Atomic_craps => craps_entry
  | Atomic_sicbo => numbered_entry On_sicbo SicBo.BetType_try_from
  end.

Definition chain_add (game : AtomicBatchGame) : list Bet -> Bet -> GameError + list Bet :=
  match game with Atomic_baccarat => merge_bet | _ => push_bet end.

Lemma chain_batch_eq game payload :
  chain_batch game payload = batch (max_bets game) (chain_width game) (chain_entry game) (chain_add game) payload.
Proof. by destruct game. Qed.

Lemma chain_entry_reads game code k n a pre post :
  0 <= code < 256 -> kind_of game code = Some k -> 0 <= n < 256 -> 0 < a < 2 ^ 64 ->
  (game = Atomic_baccarat -> n = 0) -> craps_target_ok {| bt_kind := k; bt_number := n; bt_amount := a |} = true ->
  chain_entry game (pre ++ atomicEncode game (code, n) a ++ post) (len pre)
  = inr ({| bt_kind := k; bt_number := n; bt_amount := a |}, a).
Proof.
  intros Hc Hk Hn Ha H0 Ht. destruct game; cbn [chain_entry atomicEncode fst snd]; cbn [kind_of] in Hk.
  2-4: match type of Hk with _ <$> ?o = _ => destruct o as [t|] eqn:Et; [|done] end; injection Hk as <-;
    unfold craps_entry, numbered_entry; rewrite (typed_entry_reads _ pre code t n a post) by done; cbn [bindE];
    by rewrite ?Ht.
  destruct (Baccarat.BetType_try_from code) as [t|] eqn:Et; [|done]. injection Hk as <-. rewrite H0 by done.
  unfold baccarat_entry, entry9. change ((z2b code :: be_bytes 8 a) ++ post) with ([z2b code] ++ be_bytes 8 a ++ post).
  rewrite byte_at_app. cbn [bindE]. rewrite b2z_z2b, Z.mod_small, Et by lia.
  rewrite (app_assoc pre). replace (len pre + 1) with (len (pre ++ [z2b code])) by (rewrite len_app; done).
  rewrite parse_u64_be_app by lia. cbn [bindE]. by rewrite (proj2 (Z.eqb_neq _ _)) by lia.
Qed.

(** *** Baccarat: the bets added up *)

(** The amount on one kind. *)
Definition staked (k : Kind) (bets : list Bet) : Z :=
  zsum (fun b => if decide (bt_kind b = k) then bt_amount b else 0) bets.

Definition total (bets : list Bet) : Z := zsum bt_amount bets.

(** One bet for every kind, with all that was bet on it. *)
Definition added_up (bets ms : list Bet) : Prop :=
  NoDup (bt_kind <$> bets) /\ Forall (fun b => 0 < bt_amount b) bets /\ forall k, staked k bets = staked k ms.

Lemma merge_bet_spec bets b :
  NoDup (bt_kind <$> bets) -> Forall (fun b => 0 < bt_amount b) bets -> 0 < bt_amount b ->
  total bets + bt_amount b <= u64_max ->
  exists bets', merge_bet bets b = inr bets' /\ NoDup (bt_kind <$> bets') /\ Forall (fun b => 0 < bt_amount b) bets'
    /\ (forall k, staked k bets' = staked k bets + staked k [b]) /\ total bets' = total bets + bt_amount b
    /\ (forall k, k ∈ bt_kind <$> bets' -> k ∈ bt_kind <$> bets \/ k = bt_kind b).
Proof.
  intros Hn Hp Hb. revert Hn. induction Hp as [|x bets Hx Hp IH]; intros Hn Ht.
  { exists [b]. split; [done|]. split; [apply NoDup_singleton|]. split; [by constructor|]. unfold staked, total.
    split; [done|]. split; [by rewrite zsum_cons, zsum_nil; lia|]. set_solver. }
  assert (Hr : 0 <= total bets).
  { apply zsum_nonneg. intros y Hy. rewrite Forall_forall in Hp. specialize (Hp y Hy). lia. }
  unfold total in *. rewrite zsum_cons in *. apply NoDup_cons in Hn as [Hx' Hn]. cbn [merge_bet].
  destruct (decide (bt_kind x = bt_kind b)) as [E|E].
  - unfold checked_add. rewrite (proj2 (Z.ltb_ge _ _)) by lia. cbn [bindE]. eexists. split; [reflexivity|].
    split; [by apply NoDup_cons|]. split; [constructor; [cbn; lia|done]|].
    split; [|split; [rewrite !zsum_cons; cbn; lia|set_solver]].
    intros k. unfold staked. rewrite !zsum_cons, zsum_nil. cbn. rewrite E. destruct (decide _); lia.
  - destruct IH as (bets' & -> & Hn' & Hp' & Hs & Ht' & Hk); [done|lia|]. cbn [bindE].
    eexists. split; [reflexivity|]. split; [apply NoDup_cons; split; [|done]; intros [H|H]%Hk; done|].
    split; [by constructor|].
    split; [|split; [rewrite zsum_cons; lia|set_solver]].
    intros k. specialize (Hs k). unfold staked in *. rewrite !zsum_cons in *. lia.
Qed.

Lemma adds_merge ms : forall bets,
  NoDup (bt_kind <$> bets) -> Forall (fun b => 0 < bt_amount b) bets -> Forall (fun b => 0 < bt_amount b) ms ->
  total bets + total ms <= u64_max ->
  exists bets', adds merge_bet bets ms = inr bets' /\ NoDup (bt_kind <$> bets') /\ Forall (fun b => 0 < bt_amount b) bets'
    /\ forall k, staked k bets' = staked k bets + staked k ms.
Proof.
  induction ms as [|m ms IH]; intros bets Hn Hp Hm Ht.
  { exists bets. split; [done|]. split; [done|]. split; [done|]. intros k. unfold staked. rewrite zsum_nil. lia. }
  apply Forall_cons in Hm as [H0 Hm]. unfold total in Ht. rewrite zsum_cons in Ht. cbn [adds].
  assert (0 <= zsum bt_amount ms).
  { apply zsum_nonneg. intros y Hy. rewrite Forall_forall in Hm. specialize (Hm y Hy). lia. }
  destruct (merge_bet_spec bets m) as (bets1 & -> & Hn1 & Hp1 & Hs1 & Ht1 & _); [done|done|done|unfold total; lia|].
  cbn [bindE]. destruct (IH bets1 Hn1 Hp1 Hm) as (bets' & -> & Hn' & Hp' & Hs'); [unfold total in *; lia|].
  exists bets'. split; [done|]. split; [done|]. split; [done|]. intros k. rewrite Hs', Hs1. unfold staked.
  rewrite !zsum_cons, zsum_nil. lia.
Qed.

(** *** The batch *)

Definition no_bet : Bet := {| bt_kind := On_baccarat Baccarat.Tie; bt_number := 0; bt_amount := 0 |}.
Definition meaning (game : AtomicBatchGame) (bet : AtomicBetInput) : Bet := default no_bet (meant game bet).
Definition written (game : AtomicBatchGame) (bet : AtomicBetInput) : Uint8Array :=
  match atomicEntry game bet with Ok e => e | Throw _ => [] end.

Lemma written_width game bet : is_Some (meant game bet) -> len (written game bet) = chain_width game.
Proof.
  intros [m Hm]. destruct (meant_entry _ _ _ Hm) as (code & He & _). unfold written. rewrite He. by destruct game.
Qed.

Lemma written_reads game bet pre post :
  is_Some (meant game bet) ->
  chain_entry game (pre ++ written game bet ++ post) (len pre) = inr (meaning game bet, bt_amount (meaning game bet)).
Proof.
  intros [m Hm]. destruct (meant_entry _ _ _ Hm) as (code & He & Hc & Hk & Hn & Ha & Ht & H0).
  unfold written, meaning. rewrite He, Hm. cbn [default].
  rewrite (chain_entry_reads game code (bt_kind m) (bt_number m) (bt_amount m)) by (done || by destruct m). by destruct m.
Qed.

Lemma meaning_amount game bet : is_Some (meant game bet) -> 0 < bt_amount (meaning game bet).
Proof. intros [m Hm]. destruct (meant_entry _ _ _ Hm) as (code & _ & _ & _ & _ & Ha & _). unfold meaning. rewrite Hm. cbn. lia. Qed.

Lemma mapM_meaning game bets ms :
  mapM (meant game) bets = Some ms ->
  Forall (fun b => is_Some (meant game b)) bets /\ ms = meaning game <$> bets.
Proof.
  intros H%mapM_Some. induction H as [|b m bets ms Hb _ [IH1 IH2]]; [done|]. split; [by constructor|].
  rewrite fmap_cons, <- IH2. unfold meaning at 1. by rewrite Hb.
Qed.

(** C4. Round trip of an atomic batch, from the request to the game: a batch of
    bets that each mean something (a known name in any case, a hardway of 4, 6, 8
    or 10, or a code of a byte; a number of a byte; a positive amount of 64 bits;
    for place and lay bets a number other than seven), not empty, within the
    limit of the game and of 2^64 - 1 in all, is encoded, and the batch move of
    the game takes from the payload exactly these bets, in order, and their
    total; baccarat adds up the bets of one kind. *)
Theorem atomic_batch_roundtrip game bets ms :
  bets <> [] -> len bets <= max_bets game -> mapM (meant game) bets = Some ms -> total ms <= u64_max ->
  exists payload taken,
    encodeAtomicBatchPayload game bets = Ok payload
    /\ payload !! 0%nat = Some (z2b (atomicOp game))
    /\ chain_batch game payload = inr (taken, total ms)
    /\ match game with Atomic_baccarat => added_up taken ms | _ => taken = ms end.
Proof.
  intros Hne Hlen [Hok ->]%mapM_meaning Ht.
  assert (Hpos : 1 <= len bets) by (destruct bets; [done|rewrite len_cons; pose proof (len_nonneg bets); lia]).
  assert (Hm : Forall (fun b => 0 < bt_amount b) (meaning game <$> bets)).
  { apply Forall_fmap. eapply Forall_impl; [exact Hok|]. apply meaning_amount. }
  assert (He : encodeAtomicBatchPayload game bets
    = Ok ([z2b (atomicOp game); z2b (len bets)] ++ concat (written game <$> bets))).
  { rewrite encodeAtomicBatch_entries. destruct bets as [|b bets']; [done|].
    rewrite (mapM_result_Ok _ (written game)); [done|]. eapply Forall_impl; [exact Hok|].
    intros x [m Hx]. destruct (meant_entry _ _ _ Hx) as (code & E & _). unfold written. by rewrite E. }
  assert (Hr : chain_batch game ([z2b (atomicOp game); z2b (len bets)] ++ concat (written game <$> bets))
    = try taken <- adds (chain_add game) [] (meaning game <$> bets); inr (taken, total (meaning game <$> bets))).
  { rewrite chain_batch_eq.
    apply (batch_read _ _ _ _ bt_amount (meaning game) (written game) (fun b => is_Some (meant game b))).
    - apply written_width.
    - intros b pre post. apply written_reads.
    - intros b Hb. pose proof (meaning_amount game b Hb). lia.
    - lia.
    - destruct game; cbn; lia.
    - exact Hok.
    - exact Ht. }
  assert (Hg : game = Atomic_baccarat \/ game <> Atomic_baccarat) by (destruct game; auto).
  destruct Hg as [Eg|Eg].
  - destruct (adds_merge (meaning game <$> bets) [] ltac:(constructor) ltac:(constructor) Hm ltac:(exact Ht))
      as (taken & Ea & Hn & Hp & Hs).
    eexists _, taken. split; [exact He|]. split; [done|]. split; [|by subst game].
    rewrite Hr. subst game. cbn [chain_add]. by rewrite Ea.
  - eexists _, _. split; [exact He|]. split; [done|]. split; [|by destruct game].
    rewrite Hr.
    replace (chain_add game) with push_bet by by destruct game. unfold push_bet. by rewrite adds_append.
Qed.

Definition request (type : string + Z) (amount : Z) (target : option Z) : AtomicBetInput :=
  {| ab_type := type; ab_amount := amount; ab_target := target; ab_number := None; ab_value := None |}.

Lemma atomic_batch_roundtrip_witness :
  exists payload,
    encodeAtomicBatchPayload Atomic_craps
      [request (inl "pass") 100 None; request (inl "HARDWAY") 25 (Some 6); request (inr 7) 300 (Some 11)] = Ok payload
    /\ chain_batch Atomic_craps payload
       = inr ([ {| bt_kind := On_craps Craps.Pass; bt_number := 0; bt_amount := 100 |};
                {| bt_kind := On_craps Craps.Hardway6; bt_number := 0; bt_amount := 25 |};
                {| bt_kind := On_craps Craps.Next; bt_number := 11; bt_amount := 300 |} ], 425).
Proof.
  edestruct (atomic_batch_roundtrip Atomic_craps
    [request (inl "pass") 100 None; request (inl "HARDWAY") 25 (Some 6); request (inr 7) 300 (Some 11)])
    as (payload & taken & He & _ & Hc & Ht); [done|done|reflexivity|done|].
  exists payload. split; [exact He|]. rewrite Hc. cbn in Ht. rewrite Ht. reflexivity.
Defined.

(** Two bets on the player are one bet of the table. *)
Example baccarat_adds_up :
  (p ← encodeAtomicBatchPayload Atomic_baccarat
         [request (inl "PLAYER") 5 None; request (inl "TIE") 2 None; request (inl "player") 7 None]; Ok (chain_batch Atomic_baccarat p))
  = Ok (inr ([ {| bt_kind := On_baccarat Baccarat.Player; bt_number := 0; bt_amount := 12 |};
               {| bt_kind := On_baccarat Baccarat.Tie; bt_number := 0; bt_amount := 2 |} ], 14)).
Proof. vm_compute. reflexivity. Qed.

(** A hardway on another number, and a code above a byte, are not refused but
    written as another bet. *)
Example hardway_becomes_four :
  (p ← encodeAtomicBatchPayload Atomic_craps [request (inl "HARDWAY") 25 (Some 5); request (inr 260) 10 None];
   Ok (chain_batch Atomic_craps p))
  = Ok (inr ([ {| bt_kind := On_craps Craps.Hardway4; bt_number := 0; bt_amount := 25 |};
               {| bt_kind := On_craps Craps.Field; bt_number := 0; bt_amount := 10 |} ], 35)).
Proof. vm_compute. reflexivity. Qed.
