(* ===== verification/Decode.v ===== *)
(** * The binary decoder of the protocol package

    [packages/protocol/src/decode.ts]: cards, game results and blackjack states,
    in little-endian order. *)

From stdpp Require Import pretty.
From S2P Require Import Prelude JsNum Bytes Constants.

Definition SUITS : list string := ["spades"; "hearts"; "diamonds"; "clubs"].
Definition RANKS : list string :=
  ["A"; "2"; "3"; "4"; "5"; "6"; "7"; "8"; "9"; "10"; "J"; "Q"; "K"].
Definition STAGES : list string := ["betting"; "playing"; "dealer_turn"; "complete"].

(** A card; indexing a table out of its range gives [undefined]. *)
Record Card := { suit : option string; rank : option string; faceUp : bool }.

(** [byte >= table.length]; the comparison is false for [undefined]. *)
Definition beyond {A} (byte : option Z) (table : list A) : bool :=
  match byte with Some b => len table <=? b | None => false end.

Definition entry {A} (table : list A) (byte : option Z) : option A := b ← byte; table !! Z.to_nat b.

(** Numbers in messages. *)
Definition show (b : option Z) : string := match b with Some b => pretty b | None => "undefined" end.

Definition decodeCard (data : Uint8Array) (offset : Z) : result Card :=
  if len data <? offset + 3
  then Throw ("Invalid card data: expected 3 bytes at offset " +:+ pretty offset +:+ ", got "
              +:+ pretty (len data - offset))
  else
    let suitByte := elem data offset in
    let rankByte := elem data (offset + 1) in
    let faceUpByte := elem data (offset + 2) in
    if beyond suitByte SUITS
    then Throw ("Invalid suit byte: " +:+ show suitByte +:+ ", expected 0-3")
    else if beyond rankByte RANKS
    then Throw ("Invalid rank byte: " +:+ show rankByte +:+ ", expected 0-12")
    else Ok {| suit := entry SUITS suitByte; rank := entry RANKS rankByte;
               faceUp := negb (bool_decide (faceUpByte = Some 0)) |}.

(** The loop over the cards; the count is a byte in all uses. *)
Fixpoint decodeCards_loop (n : nat) (data : Uint8Array) (offset : Z) : result (list Card) :=
  match n with
  | O => Ok []
  | S n' =>
      card ← decodeCard data offset;
      cards ← decodeCards_loop n' data (offset + 3);
      Ok (card :: cards)
  end.

Definition decodeCards (data : Uint8Array) (count startOffset : Z) : result (list Card) :=
  let expectedBytes := count * 3 in
  if len data <? startOffset + expectedBytes
  then Throw ("Invalid cards data: expected " +:+ pretty expectedBytes +:+ " bytes at offset "
              +:+ pretty startOffset +:+ ", got " +:+ pretty (len data - startOffset))
  else decodeCards_loop (Z.to_nat count) data startOffset.

(** [view.getUint8(off)]. *)
Definition getUint8 (data : Uint8Array) (off : Z) : result Z := be_value <$> view_bytes data off 1.

Record DecodedGameResult := {
  dr_sessionId : Z;
  dr_gameType : Z;
  dr_won : bool;
  dr_payout : Z;
  dr_message : string
}.

Definition decodeGameResult (data : Uint8Array) : result DecodedGameResult :=
  if len data <? 19
  then Throw ("Invalid game result data: expected at least 19 bytes, got " +:+ pretty (len data))
  else
    sessionId ← getBigUint64LE data 0;
    gameTypeByte ← getUint8 data 8;
    if 9 <? gameTypeByte
    then Throw ("Invalid game type byte: " +:+ pretty gameTypeByte +:+ ", expected 0-9")
    else
      won ← getUint8 data 9;
      payout ← getBigUint64LE data 10;
      msgLen ← getUint8 data 18;
      if len data <? 19 + msgLen
      then Throw ("Invalid message length: " +:+ pretty msgLen +:+ ", exceeds available data")
      else
        Ok {| dr_sessionId := sessionId; dr_gameType := gameTypeByte; dr_won := negb (won =? 0);
              dr_payout := payout; dr_message := TextDecoder_decode (slice data 19 (19 + msgLen)) |}.

Record DecodedBlackjackState := {
  db_sessionId : Z;
  db_playerCards : list Card;
  db_dealerCards : list Card;
  db_playerTotal : Z;
  db_dealerTotal : Z;
  db_stage : option string;
  db_canHit : bool;
  db_canStand : bool;
  db_canDouble : bool;
  db_canSplit : bool
}.

Definition flag (flags mask : Z) : bool := negb (js_and flags mask =? 0).

Definition decodeBlackjackState (data : Uint8Array) : result DecodedBlackjackState :=
  if len data <? 8
  then Throw ("Invalid blackjack state: expected at least 8 bytes, got " +:+ pretty (len data))
  else
    sessionId ← getBigUint64LE data 0;
    if len data <=? 8 then Throw "Invalid blackjack state: missing player card count"
    else
      playerCardCount ← getUint8 data 8;
      playerCards ← decodeCards data playerCardCount 9;
      let offset := 9 + playerCardCount * 3 in
      if len data <=? offset then Throw "Invalid blackjack state: missing dealer card count"
      else
        dealerCardCount ← getUint8 data offset;
        dealerCards ← decodeCards data dealerCardCount (offset + 1);
        let offset := offset + 1 + dealerCardCount * 3 in
        if len data <? offset + 4 then Throw "Invalid blackjack state: missing totals and stage"
        else
          playerTotal ← getUint8 data offset;
          dealerTotal ← getUint8 data (offset + 1);
          stageByte ← getUint8 data (offset + 2);
          if len STAGES <=? stageByte
          then Throw ("Invalid stage byte: " +:+ pretty stageByte +:+ ", expected 0-3")
          else
            actionFlags ← getUint8 data (offset + 3);
            Ok {| db_sessionId := sessionId; db_playerCards := playerCards; db_dealerCards := dealerCards;
                  db_playerTotal := playerTotal; db_dealerTotal := dealerTotal;
                  db_stage := STAGES !! Z.to_nat stageByte;
                  db_canHit := flag actionFlags 1; db_canStand := flag actionFlags 2;
                  db_canDouble := flag actionFlags 4; db_canSplit := flag actionFlags 8 |}.

(** ** Only protocol errors *)

(** The error of a [DataView] read out of bounds, a [RangeError]. *)
Definition range_error : string := "Offset is outside the bounds of the DataView".

(** A computation that returns a value or throws a [ProtocolError], and then
    not the error of a view; every message of the decoder starts with "I". *)
Definition typed {A} (m : result A) : Prop :=
  match m with Ok _ => True | Throw e => exists rest, e = String (Ascii.ascii_of_nat 73) rest end.

Lemma typed_not_range {A} (m : result A) : typed m -> m <> Throw range_error.
Proof. intros H ->. destruct H as [rest Hr]. done. Qed.

Lemma typed_throw {A} rest : @typed A (Throw (String (Ascii.ascii_of_nat 73) rest)).
Proof. by exists rest. Qed.

Lemma typed_bind {A B} (m : result A) (k : A -> result B) :
  typed m -> (forall a, m = Ok a -> typed (k a)) -> typed (a ← m; k a).
Proof. intros Hm Hk. destruct m as [a|e]; [by apply Hk|done]. Qed.

Lemma view_in_bounds data off n :
  0 <= off -> off + Z.of_nat n <= len data -> exists bs, view_bytes data off n = Ok bs /\ length bs = n.
Proof.
  intros H1 H2. unfold view_bytes. zcmp. eexists. split; [done|].
  rewrite length_take, length_drop. unfold len in *. lia.
Qed.

Lemma getUint8_in data off :
  0 <= off < len data -> exists v, getUint8 data off = Ok v /\ 0 <= v < 256.
Proof.
  intros H. destruct (view_in_bounds data off 1) as (bs & E & Hl); [lia|lia|].
  exists (be_value bs). unfold getUint8. rewrite E. split; [done|].
  pose proof (be_value_range bs) as R. unfold len in R. rewrite Hl in R. exact R.
Qed.

Lemma getUint64_in data off :
  0 <= off -> off + 8 <= len data -> exists v, getBigUint64LE data off = Ok v /\ 0 <= v < 2 ^ 64.
Proof.
  intros H1 H2. destruct (view_in_bounds data off 8) as (bs & E & Hl); [lia|lia|].
  exists (le_value bs). unfold getBigUint64LE. rewrite E. split; [done|].
  unfold le_value. pose proof (be_value_range (reverse bs)) as R.
  unfold len in R. rewrite length_reverse, Hl in R. exact R.
Qed.

Lemma typed_card data offset : typed (decodeCard data offset).
Proof. unfold decodeCard. repeat (split_if; [by eexists|]). done. Qed.

Lemma typed_cards_loop n data offset : typed (decodeCards_loop n data offset).
Proof.
  revert offset. induction n as [|n IH]; intros offset; [done|]. cbn [decodeCards_loop].
  apply typed_bind; [apply typed_card|]. intros card _. apply typed_bind; [apply IH|]. done.
Qed.

Lemma typed_cards data count offset : typed (decodeCards data count offset).
Proof. unfold decodeCards. split_if; [by eexists|]. apply typed_cards_loop. Qed.

(** Step through a read that the guards keep inside the data. *)
Ltac read8 data off v Hv :=
  destruct (getUint8_in data off ltac:(lia)) as (v & -> & Hv); cbn [mbind result_bind].
Ltac read64 data off v Hv :=
  destruct (getUint64_in data off ltac:(lia) ltac:(lia)) as (v & -> & Hv); cbn [mbind result_bind].

Lemma typed_result data : typed (decodeGameResult data).
Proof.
  unfold decodeGameResult. split_if; [by eexists|]. bprop.
  read64 data 0 sid Hs. read8 data 8 g Hg. split_if; [by eexists|].
  read8 data 9 w Hw. read64 data 10 p Hp. read8 data 18 m Hm. split_if; [by eexists|]. done.
Qed.

Lemma typed_blackjack data : typed (decodeBlackjackState data).
Proof.
  unfold decodeBlackjackState. split_if; [by eexists|]. bprop.
  read64 data 0 sid Hs. split_if; [by eexists|]. bprop. read8 data 8 pc Hpc.
  apply typed_bind; [apply typed_cards|]. intros pcards _. cbv zeta. split_if; [by eexists|]. bprop.
  read8 data (9 + pc * 3) dc Hdc. apply typed_bind; [apply typed_cards|]. intros dcards _.
  split_if; [by eexists|]. bprop.
  read8 data (9 + pc * 3 + 1 + dc * 3) pt Hpt. read8 data (9 + pc * 3 + 1 + dc * 3 + 1) dt Hdt.
  read8 data (9 + pc * 3 + 1 + dc * 3 + 2) st Hst. split_if; [by eexists|].
  by read8 data (9 + pc * 3 + 1 + dc * 3 + 3) fl Hfl.
Qed.

(** ** The format *)

(** The bytes [bs] sit at [off]. *)
Definition holds (data : Uint8Array) (off : Z) (bs : Uint8Array) : Prop :=
  exists pre post, data = pre ++ bs ++ post /\ len pre = off.

Lemma holds_app data off a b : holds data off (a ++ b) -> holds data off a /\ holds data (off + len a) b.
Proof.
  intros (pre & post & -> & <-). split.
  - exists pre, (b ++ post). by rewrite <- !app_assoc.
  - exists (pre ++ a), post. rewrite <- !app_assoc, len_app. done.
Qed.

Lemma holds_cons data off b bs : holds data off (b :: bs) -> holds data off [b] /\ holds data (off + 1) bs.
Proof. apply (holds_app data off [b] bs). Qed.

Lemma holds_bound data off bs : holds data off bs -> 0 <= off /\ off + len bs <= len data.
Proof. intros (pre & post & -> & <-). rewrite !len_app. pose proof (len_nonneg pre). pose proof (len_nonneg post). lia. Qed.

Lemma getUint8_holds data off v : holds data off [z2b v] -> 0 <= v < 256 -> getUint8 data off = Ok v.
Proof.
  intros (pre & post & -> & <-) Hv. unfold getUint8. rewrite view_bytes_mid by done. cbn.
  unfold be_value. cbn. by rewrite b2z_z2b_small.
Qed.

Lemma getUint64_holds data off v : holds data off (le_bytes 8 v) -> 0 <= v < 2 ^ 64 -> getBigUint64LE data off = Ok v.
Proof.
  intros (pre & post & -> & <-) Hv. unfold getBigUint64LE. rewrite view_bytes_mid by apply length_le_bytes.
  cbn [fmap result_fmap]. rewrite le_value_le_bytes, Z.mod_small; [done|exact Hv].
Qed.

Lemma elem_holds data off v : holds data off [z2b v] -> 0 <= v < 256 -> elem data off = Some v.
Proof. intros (pre & post & -> & <-) Hv. cbn [app]. by rewrite elem_mid, b2z_z2b_small. Qed.

(** A card as three bytes: suit, rank, face up. *)
Definition CardBytes : Type := Z * Z * Z.
Definition valid_card (c : CardBytes) : Prop := 0 <= c.1.1 < 4 /\ 0 <= c.1.2 < 13 /\ 0 <= c.2 < 256.
Definition card_wire (c : CardBytes) : Uint8Array := [z2b c.1.1; z2b c.1.2; z2b c.2].
Definition card_value (c : CardBytes) : Card :=
  {| suit := SUITS !! Z.to_nat c.1.1; rank := RANKS !! Z.to_nat c.1.2; faceUp := negb (c.2 =? 0) |}.

Definition cards_wire (l : list CardBytes) : Uint8Array := l ≫= card_wire.

Lemma len_cards_wire l : len (cards_wire l) = len l * 3.
Proof.
  induction l as [|c l IH]; [done|]. change (cards_wire (c :: l)) with (card_wire c ++ cards_wire l).
  rewrite len_app, IH. autorewrite with js. change (len (card_wire c)) with 3. lia.
Qed.

Lemma decodeCard_holds data off c : holds data off (card_wire c) -> valid_card c -> decodeCard data off = Ok (card_value c).
Proof.
  intros H (Hs & Hr & Hf). pose proof (holds_bound _ _ _ H) as [H0 H1]. change (len (card_wire c)) with 3 in H1.
  apply holds_cons in H as [E1 H]. apply holds_cons in H as [E2 E3].
  replace (off + 1 + 1) with (off + 2) in E3 by lia.
  unfold decodeCard. rewrite (elem_holds _ _ _ E1), (elem_holds _ _ _ E2), (elem_holds _ _ _ E3) by lia.
  unfold beyond. change (len SUITS) with 4. change (len RANKS) with 13. zcmp.
  unfold card_value, entry. cbn [mbind option_bind]. repeat f_equal.
  apply Bool.eq_true_iff_eq. rewrite bool_decide_eq_true, Z.eqb_eq. split; congruence.
Qed.

Lemma decodeCards_holds data off l :
  holds data off (cards_wire l) -> Forall valid_card l -> decodeCards data (len l) off = Ok (card_value <$> l).
Proof.
  intros H Hl. pose proof (holds_bound _ _ _ H) as [H0 H1]. rewrite len_cards_wire in H1.
  unfold decodeCards. zcmp. unfold len. rewrite Nat2Z.id. clear H1. revert off H0 H.
  induction Hl as [|c l Hc _ IH]; intros off H0 H; [done|]. cbn [length decodeCards_loop].
  apply holds_app in H as [Hh Ht]. change (len (card_wire c)) with 3 in Ht.
  rewrite (decodeCard_holds _ _ c) by done. cbn [mbind result_bind]. rewrite IH; [done|lia|done].
Qed.

Record BlackjackWire := {
  bw_session : Z; bw_player : list CardBytes; bw_dealer : list CardBytes;
  bw_playerTotal : Z; bw_dealerTotal : Z; bw_stage : Z; bw_flags : Z
}.

Definition valid_blackjack (w : BlackjackWire) : Prop :=
  0 <= bw_session w < 2 ^ 64 /\ len (bw_player w) < 256 /\ len (bw_dealer w) < 256
  /\ Forall valid_card (bw_player w) /\ Forall valid_card (bw_dealer w)
  /\ 0 <= bw_playerTotal w < 256 /\ 0 <= bw_dealerTotal w < 256 /\ 0 <= bw_stage w < 4 /\ 0 <= bw_flags w < 256.

Definition blackjack_wire (w : BlackjackWire) : Uint8Array :=
  le_bytes 8 (bw_session w) ++ [z2b (len (bw_player w))] ++ cards_wire (bw_player w)
  ++ [z2b (len (bw_dealer w))] ++ cards_wire (bw_dealer w)
  ++ [z2b (bw_playerTotal w)] ++ [z2b (bw_dealerTotal w)] ++ [z2b (bw_stage w)] ++ [z2b (bw_flags w)].

Definition blackjack_value (w : BlackjackWire) : DecodedBlackjackState :=
  {| db_sessionId := bw_session w; db_playerCards := card_value <$> bw_player w;
     db_dealerCards := card_value <$> bw_dealer w; db_playerTotal := bw_playerTotal w;
     db_dealerTotal := bw_dealerTotal w; db_stage := STAGES !! Z.to_nat (bw_stage w);
     db_canHit := flag (bw_flags w) 1; db_canStand := flag (bw_flags w) 2;
     db_canDouble := flag (bw_flags w) 4; db_canSplit := flag (bw_flags w) 8 |}.

Lemma blackjack_decodes w junk :
  valid_blackjack w -> decodeBlackjackState (blackjack_wire w ++ junk) = Ok (blackjack_value w).
Proof.
  intros (Hs & Hp & Hd & Vp & Vd & Ht & Hdt & Hst & Hf).
  pose proof (len_nonneg (bw_player w)) as Np. pose proof (len_nonneg (bw_dealer w)) as Nd.
  assert (H : holds (blackjack_wire w ++ junk) 0 (blackjack_wire w)) by (by exists [], junk).
  revert H. generalize (blackjack_wire w ++ junk) as data. intros data H. unfold blackjack_wire in H.
  pose proof (holds_bound _ _ _ H) as [_ HL].
  rewrite !len_app, !len_cards_wire, len_le_bytes in HL. autorewrite with js in HL.
  apply holds_app in H as [H1 H]. rewrite len_le_bytes in H. change (0 + Z.of_nat 8) with 8 in H.
  apply holds_cons in H as [H2 H]. change (8 + 1) with 9 in H.
  apply holds_app in H as [H3 H]. rewrite len_cards_wire in H.
  apply holds_cons in H as [H4 H]. apply holds_app in H as [H5 H]. rewrite len_cards_wire in H.
  apply holds_cons in H as [H6 H]. apply holds_cons in H as [H7 H]. apply holds_cons in H as [H8 H9].
  unfold decodeBlackjackState. set (np := len (bw_player w)) in *. set (nd := len (bw_dealer w)) in *.
  zcmp. rewrite (getUint64_holds _ _ _ H1 Hs). cbn [mbind result_bind]. zcmp.
  rewrite (getUint8_holds _ _ _ H2) by lia. cbn [mbind result_bind].
  pose proof (decodeCards_holds _ _ _ H3 Vp) as E3. fold np in E3. rewrite E3. cbn [mbind result_bind]. cbv zeta. zcmp.
  rewrite (getUint8_holds _ _ _ H4) by lia. cbn [mbind result_bind].
  pose proof (decodeCards_holds _ _ _ H5 Vd) as E5. fold nd in E5. rewrite E5. cbn [mbind result_bind]. zcmp.
  rewrite (getUint8_holds _ _ _ H6) by lia. cbn [mbind result_bind].
  rewrite (getUint8_holds _ _ _ H7) by lia. cbn [mbind result_bind].
  rewrite <- Z.add_assoc in H8. change (1 + 1) with 2 in H8. rewrite (getUint8_holds _ _ _ H8) by lia.
  cbn [mbind result_bind]. change (len STAGES) with 4. zcmp.
  rewrite <- !(Z.add_assoc (9 + np * 3 + 1 + nd * 3)) in H9. change (1 + 1 + 1) with 3 in H9.
  by rewrite (getUint8_holds _ _ _ H9) by lia.
Qed.

(** A game result. *)
Record ResultWire := { rw_session : Z; rw_gameType : Z; rw_won : Z; rw_payout : Z; rw_message : string }.

Definition valid_result (w : ResultWire) : Prop :=
  0 <= rw_session w < 2 ^ 64 /\ 0 <= rw_gameType w <= 9 /\ 0 <= rw_won w < 256 /\ 0 <= rw_payout w < 2 ^ 64
  /\ ascii_bytes (bytes_of_string (rw_message w)) /\ len (bytes_of_string (rw_message w)) < 256.

Definition result_wire (w : ResultWire) : Uint8Array :=
  le_bytes 8 (rw_session w) ++ [z2b (rw_gameType w)] ++ [z2b (rw_won w)] ++ le_bytes 8 (rw_payout w)
  ++ [z2b (len (bytes_of_string (rw_message w)))] ++ bytes_of_string (rw_message w).

Definition result_value (w : ResultWire) : DecodedGameResult :=
  {| dr_sessionId := rw_session w; dr_gameType := rw_gameType w; dr_won := negb (rw_won w =? 0);
     dr_payout := rw_payout w; dr_message := rw_message w |}.

Lemma slice_holds data off bs : holds data off bs -> slice data off (off + len bs) = bs.
Proof. intros (pre & post & -> & <-). apply slice_mid. Qed.

Lemma result_decodes w junk : valid_result w -> decodeGameResult (result_wire w ++ junk) = Ok (result_value w).
Proof.
  intros (Hs & Hg & Hw & Hp & Ha & Hl).
  assert (H : holds (result_wire w ++ junk) 0 (result_wire w)) by (by exists [], junk).
  revert H. generalize (result_wire w ++ junk) as data. intros data H. unfold result_wire in H.
  pose proof (holds_bound _ _ _ H) as [_ HL]. pose proof (len_nonneg (bytes_of_string (rw_message w))) as Nm.
  rewrite !len_app, !len_le_bytes in HL. autorewrite with js in HL.
  apply holds_app in H as [H1 H]. rewrite len_le_bytes in H. change (0 + Z.of_nat 8) with 8 in H.
  apply holds_cons in H as [H2 H]. apply holds_cons in H as [H3 H]. apply holds_app in H as [H4 H].
  rewrite len_le_bytes in H. apply holds_cons in H as [H5 H6].
  change (8 + 1) with 9 in *. change (9 + 1) with 10 in *. change (10 + Z.of_nat 8) with 18 in *.
  change (18 + 1) with 19 in *. apply slice_holds in H6. unfold decodeGameResult. zcmp.
  rewrite (getUint64_holds _ _ _ H1 Hs). cbn [mbind result_bind].
  rewrite (getUint8_holds _ _ _ H2) by lia. cbn [mbind result_bind]. zcmp.
  rewrite (getUint8_holds _ _ _ H3) by lia. cbn [mbind result_bind].
  rewrite (getUint64_holds _ _ _ H4 Hp). cbn [mbind result_bind].
  rewrite (getUint8_holds _ _ _ H5) by lia. cbn [mbind result_bind]. zcmp.
  rewrite H6. unfold result_value. by rewrite TextDecoder_ascii.
Qed.

(** ** Properties *)

(** The decoder reads back what the format writes: a blackjack state or a
    game result in range, with whatever bytes after it, decodes to exactly its
    cards, totals, stage, actions, payout and message. *)
Theorem decode_roundtrip (w : BlackjackWire) (r : ResultWire) (junk : Uint8Array) :
  valid_blackjack w -> valid_result r ->
  decodeBlackjackState (blackjack_wire w ++ junk) = Ok (blackjack_value w)
  /\ decodeGameResult (result_wire r ++ junk) = Ok (result_value r).
Proof. intros Hw Hr. split; [by apply blackjack_decodes|by apply result_decodes]. Qed.

Definition sampleBlackjack : BlackjackWire :=
  {| bw_session := 7; bw_player := [(0, 0, 1); (2, 12, 1)]; bw_dealer := [(1, 9, 1); (3, 4, 0)];
     bw_playerTotal := 21; bw_dealerTotal := 15; bw_stage := 1; bw_flags := 3 |}.

Definition sampleResult : ResultWire :=
  {| rw_session := 7; rw_gameType := 1; rw_won := 1; rw_payout := 2500; rw_message := "BLACKJACK" |}.

Lemma decode_roundtrip_witness :
  decodeBlackjackState (blackjack_wire sampleBlackjack) = Ok (blackjack_value sampleBlackjack)
  /\ decodeGameResult (result_wire sampleResult) = Ok (result_value sampleResult)
  /\ db_canHit (blackjack_value sampleBlackjack) = true /\ db_canSplit (blackjack_value sampleBlackjack) = false.
Proof.
  destruct (decode_roundtrip sampleBlackjack sampleResult []) as [H1 H2].
  - repeat split; try (cbn; lia); repeat constructor; cbn; lia.
  - repeat split; try (cbn; lia). vm_compute. repeat constructor; discriminate.
  - rewrite app_nil_r in H1, H2. split; [exact H1|]. split; [exact H2|]. split; reflexivity.
Defined.

(** Whatever the bytes, the decoder returns a value or throws one of its
    own errors: the guards keep every read of the view inside the data. *)
Theorem decode_no_range_error (data : Uint8Array) (count offset : Z) :
  decodeGameResult data <> Throw range_error
  /\ decodeBlackjackState data <> Throw range_error
  /\ decodeCards data count offset <> Throw range_error.
Proof.
  split_and!; apply typed_not_range; [apply typed_result|apply typed_blackjack|apply typed_cards].
Qed.
