(* ===== verification/WebState.v ===== *)
(** * How the website shows the state of a game

    [website/src/services/games/state/*.ts] and [shared/cards.ts]: a state blob
    of the chain is parsed ([GameState]) and put into the state of the user
    interface.  The fields of the interface are grouped by game; an update of
    the source that spreads the previous state keeps the groups it does not
    mention.  [gameStateRef] and the state of React are two copies of the
    interface.  The craps event log and its resolved bets are left out. *)

From stdpp Require Import pretty.
From S2P Require Import Prelude JsNum Bytes Constants Arith GameState Roulette Craps.

(** ** Cards *)

Record Card := {
  c_suit : option string;
  c_rank : option string;
  c_value : Z;
  c_isHidden : bool;
  c_isHeld : option bool
}.

Definition SUITS : list string := ["♠"; "♥"; "♦"; "♣"].
Definition RANKS : list string :=
  ["A"; "2"; "3"; "4"; "5"; "6"; "7"; "8"; "9"; "10"; "J"; "Q"; "K"].

Definition decodeCard (value : Z) : Card :=
  if value =? 0xff
  then {| c_suit := Some "♠"; c_rank := Some "A"; c_value := 0; c_isHidden := true; c_isHeld := None |}
  else if (value <? 0) || (51 <? value)
  then {| c_suit := Some "♠"; c_rank := Some "2"; c_value := 2; c_isHidden := false; c_isHeld := None |}
  else
    let rankIdx := value mod 13 in
    {| c_suit := SUITS !! Z.to_nat (value / 13);
       c_rank := RANKS !! Z.to_nat rankIdx;
       c_value := if rankIdx =? 0 then 11 else if rankIdx <=? 8 then rankIdx + 1 else 10;
       c_isHidden := false; c_isHeld := None |}.

Definition cardIdToString (cardId : Z) : string :=
  if (cardId <? 0) || (52 <=? cardId) then "?"
  else default "undefined" (RANKS !! Z.to_nat (cardId mod 13))
       +:+ default "undefined" (SUITS !! Z.to_nat (cardId / 13)).

(** [{ ...card, isHidden: h }] and [{ ...card, isHeld: h }]. *)
Definition with_hidden (h : bool) (c : Card) : Card :=
  {| c_suit := c_suit c; c_rank := c_rank c; c_value := c_value c; c_isHidden := h; c_isHeld := c_isHeld c |}.
Definition with_held (h : option bool) (c : Card) : Card :=
  {| c_suit := c_suit c; c_rank := c_rank c; c_value := c_value c; c_isHidden := c_isHidden c; c_isHeld := h |}.

(** ** The state of the interface *)

Record Common := {
  u_type : string; u_bet : Z; u_playerCards : list Card; u_dealerCards : list Card; u_dice : list Z;
  u_stage : string; u_message : string; u_sessionWager : Z; u_sessionInterimPayout : Z
}.

Record SplitHand := { sh_cards : list Card; sh_bet : Z; sh_isDoubled : bool }.
Record CompletedHand := { ch_hand : SplitHand; ch_message : string }.
Record BlackjackActions := { canHit : bool; canStand : bool; canDouble : bool; canSplit : bool }.

Record BlackjackUI := {
  blackjackStack : list SplitHand; completedHands : list CompletedHand;
  blackjack21Plus3Bet : Z; blackjackLuckyLadiesBet : Z; blackjackPerfectPairsBet : Z;
  blackjackBustItBet : Z; blackjackRoyalMatchBet : Z;
  blackjackPlayerValue : option Z; blackjackDealerValue : option Z; blackjackActions : BlackjackActions
}.

Record HiLoUI := {
  hiloAccumulator : Z; hiloGraphData : list Z; hiloRules : option (bool * bool);
  hiloNextMultipliers : option (Z * Z * Z)
}.

Record RouletteTable := { t_zeroRule : string; t_isPrison : bool; t_history : list Z }.
Record CasinoWarUI := { casinoWarTieBet : Z; casinoWarOutcome : option string }.
Record BaccaratTotals := { baccaratPlayerTotal : option Z; baccaratBankerTotal : option Z }.
Record ThreeCardUI := {
  threeCardPairPlusBet : Z; threeCardSixCardBonusBet : Z; threeCardProgressiveBet : Z;
  threeCardPlayerRank : option string; threeCardDealerRank : option string;
  threeCardDealerQualifies : option bool
}.
Record UthUI := {
  u_communityCards : list Card; uthTripsBet : Z; uthSixCardBonusBet : Z; uthProgressiveBet : Z;
  uthBonusCards : list Card
}.
Record VideoPokerUI := { videoPokerHand : option string; videoPokerMultiplier : option Z }.

(** A craps bet with the mark of a bet that is only staged. *)
(** A bet with the odds staged on it. *)
Record UiCrapsBet := { ub_bet : CrapsBet; ub_localOdds : option Z; ub_local : bool }.

Record CrapsTable := {
  t_point : option Z; t_epochPointEstablished : bool; t_madePointsMask : Z;
  t_bets : list UiCrapsBet; t_rollHistory : list Z; t_lastRoundBets : list UiCrapsBet
}.

Record UI := {
  common : Common; blackjack : BlackjackUI; hilo : HiLoUI; roulette : RouletteTable;
  sicBoHistory : list (list Z); casinoWar : CasinoWarUI; baccarat : BaccaratTotals;
  threeCard : ThreeCardUI; uth : UthUI; videoPoker : VideoPokerUI; craps : CrapsTable
}.

(** The updates of a group, with the common fields. *)
Definition set_common (c : Common) (s : UI) : UI :=
  {| common := c; blackjack := blackjack s; hilo := hilo s; roulette := roulette s;
     sicBoHistory := sicBoHistory s; casinoWar := casinoWar s; baccarat := baccarat s;
     threeCard := threeCard s; uth := uth s; videoPoker := videoPoker s; craps := craps s |}.
Definition set_blackjack (x : BlackjackUI) (s : UI) : UI :=
  {| common := common s; blackjack := x; hilo := hilo s; roulette := roulette s;
     sicBoHistory := sicBoHistory s; casinoWar := casinoWar s; baccarat := baccarat s;
     threeCard := threeCard s; uth := uth s; videoPoker := videoPoker s; craps := craps s |}.
Definition set_hilo (x : HiLoUI) (s : UI) : UI :=
  {| common := common s; blackjack := blackjack s; hilo := x; roulette := roulette s;
     sicBoHistory := sicBoHistory s; casinoWar := casinoWar s; baccarat := baccarat s;
     threeCard := threeCard s; uth := uth s; videoPoker := videoPoker s; craps := craps s |}.
Definition set_roulette (x : RouletteTable) (s : UI) : UI :=
  {| common := common s; blackjack := blackjack s; hilo := hilo s; roulette := x;
     sicBoHistory := sicBoHistory s; casinoWar := casinoWar s; baccarat := baccarat s;
     threeCard := threeCard s; uth := uth s; videoPoker := videoPoker s; craps := craps s |}.
Definition set_sicBo (x : list (list Z)) (s : UI) : UI :=
  {| common := common s; blackjack := blackjack s; hilo := hilo s; roulette := roulette s;
     sicBoHistory := x; casinoWar := casinoWar s; baccarat := baccarat s;
     threeCard := threeCard s; uth := uth s; videoPoker := videoPoker s; craps := craps s |}.
Definition set_casinoWar (x : CasinoWarUI) (s : UI) : UI :=
  {| common := common s; blackjack := blackjack s; hilo := hilo s; roulette := roulette s;
     sicBoHistory := sicBoHistory s; casinoWar := x; baccarat := baccarat s;
     threeCard := threeCard s; uth := uth s; videoPoker := videoPoker s; craps := craps s |}.
Definition set_baccarat (x : BaccaratTotals) (s : UI) : UI :=
  {| common := common s; blackjack := blackjack s; hilo := hilo s; roulette := roulette s;
     sicBoHistory := sicBoHistory s; casinoWar := casinoWar s; baccarat := x;
     threeCard := threeCard s; uth := uth s; videoPoker := videoPoker s; craps := craps s |}.
Definition set_threeCard (x : ThreeCardUI) (s : UI) : UI :=
  {| common := common s; blackjack := blackjack s; hilo := hilo s; roulette := roulette s;
     sicBoHistory := sicBoHistory s; casinoWar := casinoWar s; baccarat := baccarat s;
     threeCard := x; uth := uth s; videoPoker := videoPoker s; craps := craps s |}.
Definition set_uth (x : UthUI) (s : UI) : UI :=
  {| common := common s; blackjack := blackjack s; hilo := hilo s; roulette := roulette s;
     sicBoHistory := sicBoHistory s; casinoWar := casinoWar s; baccarat := baccarat s;
     threeCard := threeCard s; uth := x; videoPoker := videoPoker s; craps := craps s |}.
Definition set_videoPoker (x : VideoPokerUI) (s : UI) : UI :=
  {| common := common s; blackjack := blackjack s; hilo := hilo s; roulette := roulette s;
     sicBoHistory := sicBoHistory s; casinoWar := casinoWar s; baccarat := baccarat s;
     threeCard := threeCard s; uth := uth s; videoPoker := x; craps := craps s |}.
Definition set_craps (x : CrapsTable) (s : UI) : UI :=
  {| common := common s; blackjack := blackjack s; hilo := hilo s; roulette := roulette s;
     sicBoHistory := sicBoHistory s; casinoWar := casinoWar s; baccarat := baccarat s;
     threeCard := threeCard s; uth := uth s; videoPoker := videoPoker s; craps := x |}.

(** The common fields most games write. *)
Definition show_table (type : string) (player dealer : list Card) (stage message : string) (s : UI) : UI :=
  let c := common s in
  set_common {| u_type := type; u_bet := u_bet c; u_playerCards := player; u_dealerCards := dealer;
                u_dice := u_dice c; u_stage := stage; u_message := message;
                u_sessionWager := u_sessionWager c; u_sessionInterimPayout := u_sessionInterimPayout c |} s.

(** The refs beside the state. *)
Record World := {
  w_ref : option UI;
  w_state : UI;
  w_isPending : bool;
  w_uthBackendStage : Z
}.

Definition put (ref : option UI) (s : UI) (w : World) : World :=
  {| w_ref := ref; w_state := s; w_isPending := w_isPending w; w_uthBackendStage := w_uthBackendStage w |}.

(** An update that is stored in the ref as well. *)
Definition put_both (s : UI) (w : World) : World := put (Some s) s w.

Definition MAX_GRAPH_POINTS : Z := 100.

(** [[...l, x].slice(-MAX_GRAPH_POINTS)]. *)
Definition push_graph {A} (l : list A) (x : A) : list A :=
  let l := l ++ [x] in slice l (- MAX_GRAPH_POINTS) (len l).

(** ** The games *)

Section apply.
Variable fallbackState : UI.
Variable gameType : string.

Definition prevState (w : World) : UI := default fallbackState (w_ref w).

(** *** Baccarat *)

Definition applyBaccaratState (stateBlob : Uint8Array) (w : World) : World :=
  match parseBaccaratState stateBlob with
  | None => w
  | Some parsed =>
      let pCards := decodeCard <$> ba_playerCards parsed in
      let bCards := decodeCard <$> bankerCards parsed in
      if (len pCards =? 0) && (len bCards =? 0)
      then put (w_ref w) (show_table gameType [] [] "PLAYING" "PLACE BETS & DEAL" (w_state w)) w
      else
        put_both (set_baccarat {| baccaratPlayerTotal := None; baccaratBankerTotal := None |}
          (show_table gameType pCards bCards "RESULT" "BACCARAT DEALT" (prevState w))) w
  end.

(** *** Blackjack *)

Definition statusMessage (status : Z) : string :=
  if status =? 2 then "BUST" else if status =? 3 then "BLACKJACK"
  else if status =? 1 then "STAND" else if status =? 4 then "SURRENDER" else "".

(** What the loop over the hands builds. *)
Record HandsView := {
  hv_pCards : list Card; hv_pendingStack : list SplitHand; hv_finishedHands : list CompletedHand;
  hv_mainWagered : Z
}.

Definition handView (baseBet : Z) (hand : BlackjackHand) : SplitHand :=
  {| sh_cards := decodeCard <$> bh_cards hand; sh_bet := js_mul baseBet (betMult hand);
     sh_isDoubled := betMult hand =? 2 |}.

Definition addHand (baseBet activeHandIdx handCount : Z) (v : HandsView) (p : Z * BlackjackHand) : HandsView :=
  let '(h, hand) := p in
  let allHandsFinished := handCount <=? activeHandIdx in
  let shown := handView baseBet hand in
  let wagered := js_add (hv_mainWagered v) (sh_bet shown) in
  if (negb allHandsFinished && (h =? activeHandIdx)) || (allHandsFinished && (h =? handCount - 1))
  then {| hv_pCards := sh_cards shown; hv_pendingStack := hv_pendingStack v;
          hv_finishedHands := hv_finishedHands v; hv_mainWagered := wagered |}
  else if negb allHandsFinished && (activeHandIdx <? h)
  then {| hv_pCards := hv_pCards v; hv_pendingStack := hv_pendingStack v ++ [shown];
          hv_finishedHands := hv_finishedHands v; hv_mainWagered := wagered |}
  else {| hv_pCards := hv_pCards v; hv_pendingStack := hv_pendingStack v;
          hv_finishedHands := hv_finishedHands v ++ [{| ch_hand := shown; ch_message := statusMessage (bh_status hand) |}];
          hv_mainWagered := wagered |}.

Definition viewHands (baseBet activeHandIdx : Z) (hands : list BlackjackHand) : HandsView :=
  foldl (addHand baseBet activeHandIdx (len hands))
    {| hv_pCards := []; hv_pendingStack := []; hv_finishedHands := [];
       hv_mainWagered := if len hands =? 0 then baseBet else 0 |}
    (zip (seqZ 0 (len hands)) hands).

(** The dealer's first card is open, the others are until the end hidden. *)
Definition dealerView (isComplete : bool) (cards : list Card) : list Card :=
  imap (fun i card => with_hidden (negb isComplete && negb (Nat.eqb i 0)) card) cards.

Definition actionsOf (mask : Z) : BlackjackActions :=
  {| canHit := negb (js_and mask 1 =? 0); canStand := negb (js_and mask 2 =? 0);
     canDouble := negb (js_and mask 4 =? 0); canSplit := negb (js_and mask 8 =? 0) |}.

Definition noActions : BlackjackActions :=
  {| canHit := false; canStand := false; canDouble := false; canSplit := false |}.

Definition blackjackMessage (stage : Z) : string :=
  if stage =? 1 then "Your move" else if stage =? 2 then "REVEAL (SPACE)"
  else if stage =? 3 then "GAME COMPLETE" else "PLACE BETS & DEAL".

Definition showBlackjack (parsed : BlackjackParsedState) (s : UI) : UI :=
  let stage := bj_stage parsed in
  let bet := u_bet (common s) in
  let baseBet := if bet =? 0 then 100 else bet in
  let v := viewHands baseBet (activeHandIndex parsed) (bj_hands parsed) in
  let initP1 := (initPlayerCards parsed).1 in
  let initP2 := (initPlayerCards parsed).2 in
  let isComplete := stage =? 3 in
  let values :=
    match playerValue parsed, dealerValue parsed, actionMask parsed with
    | Some p, Some d, Some mask => (Some p, Some d, actionsOf mask)
    | _, _, _ => (None, None, noActions)
    end in
  let totalWagered :=
    js_add (js_add (js_add (js_add (js_add (hv_mainWagered v) (sideBet21Plus3 parsed))
      (sideBetLuckyLadies parsed)) (sideBetPerfectPairs parsed)) (sideBetBustIt parsed))
      (sideBetRoyalMatch parsed) in
  let c := common s in
  set_blackjack
    {| blackjackStack := hv_pendingStack v; completedHands := hv_finishedHands v;
       blackjack21Plus3Bet := sideBet21Plus3 parsed; blackjackLuckyLadiesBet := sideBetLuckyLadies parsed;
       blackjackPerfectPairsBet := sideBetPerfectPairs parsed; blackjackBustItBet := sideBetBustIt parsed;
       blackjackRoyalMatchBet := sideBetRoyalMatch parsed;
       blackjackPlayerValue := values.1.1; blackjackDealerValue := values.1.2; blackjackActions := values.2 |}
    (set_common
      {| u_type := gameType; u_bet := bet;
         u_playerCards := if (stage =? 0) || (initP1 =? 0xff) || (initP2 =? 0xff) then [] else hv_pCards v;
         u_dealerCards := if stage =? 0 then [] else dealerView isComplete (decodeCard <$> bj_dealerCards parsed);
         u_dice := u_dice c;
         u_stage := if stage =? 0 then "BETTING" else if isComplete then "RESULT" else "PLAYING";
         u_message := blackjackMessage stage;
         u_sessionWager := totalWagered; u_sessionInterimPayout := u_sessionInterimPayout c |} s).

Definition applyBlackjackState (stateBlob : Uint8Array) (w : World) : World :=
  match parseBlackjackState stateBlob with
  | None => w
  | Some parsed => put_both (showBlackjack parsed (prevState w)) w
  end.

(** *** Casino War *)

Definition warMessage (stage : Z) : string :=
  if stage =? 1 then "WAR! GO TO WAR (W) / SURRENDER (S)" else "DEALT".

(** The tie bet pays 10 to 1 as soon as there is a war, once. *)
Definition tieCredit (stage tieBet interim : Z) : Z :=
  if (stage =? 1) && (0 <? tieBet) && (interim =? 0) then js_mul tieBet 11 else interim.

Definition showCasinoWar (parsed : CasinoWarParsedState) (s : UI) : UI :=
  let stage := cw_stage parsed in
  let c := common s in
  if cw_version parsed =? 1 then
    let tieBet := to_number (tieBet parsed) in
    let card b := if stage =? 0 then [] else [decodeCard b] in
    set_casinoWar {| casinoWarTieBet := tieBet; casinoWarOutcome := None |}
      (set_common
        {| u_type := gameType; u_bet := u_bet c; u_playerCards := card (playerCard parsed);
           u_dealerCards := card (dealerCard parsed); u_dice := u_dice c;
           u_stage := if stage =? 0 then "BETTING" else "PLAYING";
           u_message := if stage =? 0 then "PLACE BETS & DEAL" else warMessage stage;
           u_sessionWager := u_sessionWager c;
           u_sessionInterimPayout :=
             if stage =? 0 then 0 else tieCredit stage tieBet (u_sessionInterimPayout c) |} s)
  else
    set_casinoWar {| casinoWarTieBet := casinoWarTieBet (casinoWar s); casinoWarOutcome := None |}
      (show_table gameType [decodeCard (playerCard parsed)] [decodeCard (dealerCard parsed)]
        "PLAYING" (warMessage stage) s).

Definition applyCasinoWarState (stateBlob : Uint8Array) (w : World) : World :=
  match parseCasinoWarState stateBlob with
  | None => w
  | Some parsed => put_both (showCasinoWar parsed (w_state w)) w
  end.

(** *** HiLo *)

Definition sameCard (a b : Card) : bool :=
  bool_decide (c_rank a = c_rank b) && bool_decide (c_suit a = c_suit b).

Definition showHiLo (parsed : HiLoParsedState) (s : UI) : UI :=
  let c := common s in
  let currentCard := decodeCard (cardId parsed) in
  let actualPot := js_floor_div (js_mul (u_bet c) (to_number (accumulatorBasisPoints parsed))) 10000 in
  let prevCards := u_playerCards c in
  let nextCards :=
    match last prevCards with
    | Some lastCard => if sameCard lastCard currentCard then prevCards else prevCards ++ [currentCard]
    | None => prevCards ++ [currentCard]
    end in
  set_hilo
    {| hiloAccumulator := actualPot; hiloGraphData := push_graph (hiloGraphData (hilo s)) actualPot;
       hiloRules := Some (negb (js_and (rulesByte parsed) 1 =? 0), negb (js_and (rulesByte parsed) 2 =? 0));
       hiloNextMultipliers := nextMultipliers parsed |}
    (show_table gameType nextCards (u_dealerCards c) "PLAYING" "YOUR MOVE" s).

Definition applyHiLoState (stateBlob : Uint8Array) (w : World) : World :=
  match parseHiLoState stateBlob with
  | None => w
  | Some parsed => put_both (showHiLo parsed (w_state w)) w
  end.

(** *** Roulette *)

Definition zeroRuleName (b : Z) : string :=
  if b =? 1 then "LA_PARTAGE" else if b =? 2 then "EN_PRISON"
  else if b =? 3 then "EN_PRISON_DOUBLE" else if b =? 4 then "AMERICAN" else "STANDARD".

Definition with_history (history : list Z) (s : UI) : UI :=
  set_roulette {| t_zeroRule := t_zeroRule (roulette s); t_isPrison := t_isPrison (roulette s);
                  t_history := history |} s.

Definition showRoulette (parsed : RouletteParsedState) (s : UI) : UI :=
  let c := common s in
  let isPrison := ro_phase parsed =? 1 in
  let table history :=
    {| t_zeroRule := zeroRuleName (zeroRule parsed); t_isPrison := isPrison; t_history := history |} in
  match ro_result parsed with
  | Some result =>
      let kept := isPrison && (result =? 0) in
      set_roulette (table (push_graph (t_history (roulette s)) result))
        (show_table gameType (u_playerCards c) (u_dealerCards c)
          (if kept then "PLAYING" else "RESULT")
          (if kept then "EN PRISON - SPACE TO SPIN" else "LANDED ON " +:+ formatRouletteNumber result) s)
  | None =>
      set_roulette (table (t_history (roulette s)))
        (show_table gameType (u_playerCards c) (u_dealerCards c) "PLAYING"
          (if isPrison then "EN PRISON - SPACE TO SPIN" else "PLACE YOUR BETS") s)
  end.

(** The ref gets the history only. *)
Definition applyRouletteState (stateBlob : Uint8Array) (w : World) : World :=
  match parseRouletteState stateBlob with
  | None => w
  | Some parsed =>
      let ref :=
        match ro_result parsed with
        | Some result => (fun s => with_history (push_graph (t_history (roulette s)) result) s) <$> w_ref w
        | None => w_ref w
        end in
      put ref (showRoulette parsed (w_state w)) w
  end.

(** *** Sic Bo *)

Definition with_dice (dice : list Z) (s : UI) : UI :=
  let c := common s in
  set_common {| u_type := u_type c; u_bet := u_bet c; u_playerCards := u_playerCards c;
                u_dealerCards := u_dealerCards c; u_dice := dice; u_stage := u_stage c;
                u_message := u_message c; u_sessionWager := u_sessionWager c;
                u_sessionInterimPayout := u_sessionInterimPayout c |} s.

Definition showSicBo (parsed : SicBoParsedState) (s : UI) : UI :=
  let c := common s in
  match si_dice parsed with
  | Some (d1, d2, d3) =>
      let s' := with_dice [d1; d2; d3] s in
      set_sicBo (push_graph (sicBoHistory s) [d1; d2; d3])
        (show_table gameType (u_playerCards c) (u_dealerCards c) "RESULT"
          ("ROLLED " +:+ pretty (d1 + d2 + d3) +:+ " (" +:+ pretty d1 +:+ "-" +:+ pretty d2 +:+ "-"
           +:+ pretty d3 +:+ ")") s')
  | None => show_table gameType (u_playerCards c) (u_dealerCards c) "PLAYING" "PLACE YOUR BETS" s
  end.

Definition applySicBoState (stateBlob : Uint8Array) (w : World) : World :=
  match parseSicBoState stateBlob with
  | None => w
  | Some parsed =>
      let ref :=
        match si_dice parsed with
        | Some (d1, d2, d3) =>
            (fun s => set_sicBo (push_graph (sicBoHistory s) [d1; d2; d3]) (with_dice [d1; d2; d3] s)) <$> w_ref w
        | None => w_ref w
        end in
      put ref (showSicBo parsed (w_state w)) w
  end.

(** *** Three Card Poker *)

Definition threeCardMessage (stage : Z) : string :=
  if stage =? 0 then "PAIRPLUS (P), 6-CARD (6), PROG (J), DEAL"
  else if stage =? 1 then "PLAY (P) OR FOLD (F)"
  else if stage =? 2 then "REVEAL (SPACE)"
  else if stage =? 3 then "GAME COMPLETE" else "PLACE BETS & DEAL".

Definition showThreeCard (parsed : ThreeCardParsedState) (s : UI) : UI :=
  let stage := tc_stage parsed in
  let pCards := if stage =? 0 then [] else decodeCard <$> tc_playerCards parsed in
  let dCards :=
    if stage =? 0 then []
    else (fun b => with_hidden (negb (stage =? 3)) (decodeCard b)) <$> tc_dealerCards parsed in
  set_threeCard
    {| threeCardPairPlusBet := pairPlusBet parsed; threeCardSixCardBonusBet := tc_sixCardBonusBet parsed;
       threeCardProgressiveBet := tc_progressiveBet parsed; threeCardPlayerRank := None;
       threeCardDealerRank := None; threeCardDealerQualifies := None |}
    (show_table gameType pCards dCards
      (if stage =? 0 then "BETTING" else if stage =? 3 then "RESULT" else "PLAYING")
      (threeCardMessage stage) s).

Definition applyThreeCardState (stateBlob : Uint8Array) (w : World) : World :=
  match parseThreeCardState stateBlob with
  | None => w
  | Some parsed => put_both (showThreeCard parsed (w_state w)) w
  end.

(** *** Ultimate Texas Hold'em *)

Definition uthMessage (stage playMult : Z) : string :=
  if stage =? 0 then "TRIPS (T), 6-CARD (6), PROG (J), DEAL"
  else if stage =? 1 then "CHECK (C) OR BET 3X/4X"
  else if stage =? 2 then "CHECK (C) OR BET 2X"
  else if stage =? 3 then (if 0 <? playMult then "REVEAL (SPACE)" else "FOLD (F) OR BET 1X")
  else if stage =? 4 then "REVEAL (SPACE)"
  else if stage =? 5 then "GAME COMPLETE" else "PLACE BETS & DEAL".

Definition hiddenUnless (visible : bool) (b : Z) : Card := with_hidden (negb visible) (decodeCard b).

Definition showUltimateHoldem (parsed : UltimateHoldemParsedState) (s : UI) : UI :=
  let stage := uh_stage parsed in
  let bonusBytes := if 0 <? len (bonusCards parsed) then bonusCards parsed else [0xff; 0xff; 0xff; 0xff] in
  let pCards :=
    match uh_playerCards parsed with
    | b :: _ => if b =? 0xff then [] else decodeCard <$> uh_playerCards parsed
    | [] => []
    end in
  let visible := stage =? 5 in
  let dCards :=
    if (stage =? 0) || (len pCards =? 0) then [] else hiddenUnless visible <$> uh_dealerCards parsed in
  let bonusCards :=
    if (2 <=? uh_version parsed)
       && ((0 <? uh_sixCardBonusBet parsed) || existsb (fun b => negb (b =? 0xff)) bonusBytes)
    then hiddenUnless visible <$> bonusBytes else [] in
  set_uth
    {| u_communityCards := decodeCard <$> List.filter (fun b => negb (b =? 0xff)) (communityCards parsed);
       uthTripsBet := tripsBet parsed; uthSixCardBonusBet := uh_sixCardBonusBet parsed;
       uthProgressiveBet := uh_progressiveBet parsed; uthBonusCards := bonusCards |}
    (show_table gameType pCards dCards
      (if stage =? 0 then "BETTING" else if visible then "RESULT" else "PLAYING")
      (uthMessage stage (playMultiplier parsed)) s).

Definition applyUltimateHoldemState (stateBlob : Uint8Array) (w : World) : World :=
  match parseUltimateHoldemState stateBlob with
  | None => w
  | Some parsed =>
      let w := {| w_ref := w_ref w; w_state := w_state w; w_isPending := w_isPending w;
                  w_uthBackendStage := uh_stage parsed |} in
      put_both (showUltimateHoldem parsed (w_state w)) w
  end.

(** *** Video poker *)

Definition with_playerCards (cards : list Card) (s : UI) : UI :=
  let c := common s in
  set_common {| u_type := u_type c; u_bet := u_bet c; u_playerCards := cards;
                u_dealerCards := u_dealerCards c; u_dice := u_dice c; u_stage := u_stage c;
                u_message := u_message c; u_sessionWager := u_sessionWager c;
                u_sessionInterimPayout := u_sessionInterimPayout c |} s.

(** [prev.playerCards?.\[i\]?.isHeld] *)
Definition heldAt (cards : list Card) (i : nat) : option bool := c ← cards !! i; c_isHeld c.

Definition showVideoPoker (parsed : VideoPokerParsedState) (s : UI) : UI :=
  let c := common s in
  let stage := vp_stage parsed in
  let cards := decodeCard <$> vp_cards parsed in
  let cardsWithHolds :=
    if stage =? 0 then imap (fun i card => with_held (heldAt (u_playerCards c) i) card) cards else cards in
  let vp := videoPoker s in
  set_videoPoker
    {| videoPokerHand := if stage =? 1 then videoPokerHand vp else None;
       videoPokerMultiplier := if stage =? 1 then videoPokerMultiplier vp else None |}
    (show_table gameType cardsWithHolds (u_dealerCards c)
      (if stage =? 1 then "RESULT" else "PLAYING")
      (if stage =? 0 then "HOLD (1-5), DRAW (D)" else "GAME COMPLETE") s).

Definition applyVideoPokerState (stateBlob : Uint8Array) (w : World) : World :=
  match parseVideoPokerState stateBlob with
  | None => w
  | Some parsed => put_both (showVideoPoker parsed (w_state w)) w
  end.

(** *** Craps *)

(** [VALID_CRAPS_BETS] has every type; amounts are integers. *)
Definition isValidCrapsBet (bet : CrapsBet) : bool :=
  if (wc_amount bet <=? 0) || (2 ^ 53 - 1 <? wc_amount bet) then false
  else
    match wc_target bet with
    | None => true
    | Some t =>
        if (t <? 0) || (12 <? t) then false
        else if bool_decide (wc_type bet = Craps_HARDWAY) && negb (one_of [4; 6; 8; 10] t) then false
        else true
    end.

Definition chainBet (b : CrapsBet) : UiCrapsBet := {| ub_bet := b; ub_localOdds := None; ub_local := false |}.

(** [`${b.type}|${b.target ?? ''}|${b.amount}`], as the triple it writes. *)
Definition betKeyLoose (b : CrapsBet) : CrapsBetName * option Z * Z := (wc_type b, wc_target b, wc_amount b).

(** The loop over the staged bets: [seen] holds the keys of [merged]. *)
Fixpoint mergeLocal (merged : list UiCrapsBet) (staged : list UiCrapsBet) : list UiCrapsBet :=
  match staged with
  | [] => merged
  | bet :: staged' =>
      if existsb (fun b => bool_decide (betKeyLoose (ub_bet b) = betKeyLoose (ub_bet bet))) merged
      then mergeLocal merged staged'
      else if negb (isValidCrapsBet (ub_bet bet)) then mergeLocal merged staged'
      else mergeLocal (merged ++ [bet]) staged'
  end.

Definition isBonusName (t : CrapsBetName) : bool :=
  match t with
  | Craps_FIRE | Craps_ATS_SMALL | Craps_ATS_TALL | Craps_ATS_ALL | Craps_MUGGSY | Craps_DIFF_DOUBLES
  | Craps_RIDE_LINE | Craps_REPLAY | Craps_HOT_ROLLER => true
  | _ => false
  end.

(** [chainRoll]: the dice of the roll log that is waiting, if there is one. *)
Definition rollChanged (prevDice : list Z) (d1 d2 : Z) (chainRoll : option (Z * Z)) : bool :=
  negb (bool_decide (prevDice = [d1; d2])) || bool_decide (chainRoll = Some (d1, d2)).

Definition sevenOut (parsed : CrapsParsedState) (changed : bool) (t : CrapsTable) : bool :=
  (0 <? (cr_dice parsed).1) && (0 <? (cr_dice parsed).2) && changed
  && ((cr_dice parsed).1 + (cr_dice parsed).2 =? 7)
  && (match t_point t with Some _ => true | None => false end
      || (t_epochPointEstablished t && negb (epochPointEstablished parsed))).

Definition hasDice (parsed : CrapsParsedState) : bool := (0 <? (cr_dice parsed).1) && (0 <? (cr_dice parsed).2).

(** The roll is not the one that is shown already. *)
Definition newRoll (chainRoll : option (Z * Z)) (parsed : CrapsParsedState) (s : UI) : bool :=
  rollChanged (u_dice (common s)) (cr_dice parsed).1 (cr_dice parsed).2 chainRoll.

Definition mergedBets (parsed : CrapsParsedState) (t : CrapsTable) : list UiCrapsBet :=
  let localStagedBets := if hasDice parsed then [] else List.filter ub_local (t_bets t) in
  mergeLocal (chainBet <$> parsedBets parsed) localStagedBets.

Definition crapsTable (chainRoll : option (Z * Z)) (parsed : CrapsParsedState) (s : UI) : CrapsTable :=
  let t := craps s in
  let changed := newRoll chainRoll parsed s in
  let out := sevenOut parsed changed t in
  let total := (cr_dice parsed).1 + (cr_dice parsed).2 in
  {| t_point := crapsPoint (mainPoint parsed);
     t_epochPointEstablished := epochPointEstablished parsed;
     t_madePointsMask := madePointsMask parsed;
     t_bets := mergedBets parsed t;
     t_rollHistory :=
       if hasDice parsed && changed then (if out then [total] else push_graph (t_rollHistory t) total)
       else t_rollHistory t;
     t_lastRoundBets :=
       if out then List.filter (fun b => negb (isBonusName (wc_type (ub_bet b)))) (t_bets t)
       else t_lastRoundBets t |}.

Definition crapsMessage (isPending : bool) (chainRoll : option (Z * Z)) (parsed : CrapsParsedState) (s : UI) : string :=
  let shown := u_message (common s) in
  let changed := newRoll chainRoll parsed s in
  if hasDice parsed then
    if changed then
      if sevenOut parsed changed (craps s) then "7-OUT! SHOOTER LOSES"
      else "ROLLED " +:+ pretty ((cr_dice parsed).1 + (cr_dice parsed).2)
    else shown
  else if isPending then shown
  else if 0 <? len (mergedBets parsed (craps s)) then "BETS PLACED - SPACE TO ROLL"
  else "PLACE BETS - SPACE TO ROLL".

Definition showCraps (isPending : bool) (chainRoll : option (Z * Z)) (parsed : CrapsParsedState) (s : UI) : UI :=
  let c := common s in
  set_craps (crapsTable chainRoll parsed s)
    (with_dice [(cr_dice parsed).1; (cr_dice parsed).2]
      (show_table gameType (u_playerCards c) (u_dealerCards c) "PLAYING"
        (crapsMessage isPending chainRoll parsed s) s)).

Definition applyCrapsState (chainRoll : option (Z * Z)) (stateBlob : Uint8Array) (w : World) : World :=
  match parseCrapsState stateBlob with
  | None => w
  | Some parsed => put_both (showCraps (w_isPending w) chainRoll parsed (w_state w)) w
  end.
End apply.

(** ** All games *)

Definition applyGameStateFromBlob (fallbackState : UI) (chainRoll : option (Z * Z)) (gameType : string)
    (stateBlob : Uint8Array) (w : World) : World :=
  if bool_decide (gameType = "BLACKJACK") then applyBlackjackState fallbackState gameType stateBlob w
  else if bool_decide (gameType = "HILO") then applyHiLoState gameType stateBlob w
  else if bool_decide (gameType = "BACCARAT") then applyBaccaratState fallbackState gameType stateBlob w
  else if bool_decide (gameType = "VIDEO_POKER") then applyVideoPokerState gameType stateBlob w
  else if bool_decide (gameType = "CASINO_WAR") then applyCasinoWarState gameType stateBlob w
  else if bool_decide (gameType = "CRAPS") then applyCrapsState gameType chainRoll stateBlob w
  else if bool_decide (gameType = "ROULETTE") then applyRouletteState gameType stateBlob w
  else if bool_decide (gameType = "SIC_BO") then applySicBoState gameType stateBlob w
  else if bool_decide (gameType = "THREE_CARD") then applyThreeCardState gameType stateBlob w
  else if bool_decide (gameType = "ULTIMATE_HOLDEM") then applyUltimateHoldemState gameType stateBlob w
  else w.
