(* ===== verification/WebStateCorrect.v ===== *)
(** * How the website shows the state of a game: theorems *)

From S2P Require Import Prelude JsNum Bytes Constants Arith GameState Roulette Craps WebState.

(** ** Hidden cards *)

(** Before the result, the cards of the dealer are hidden from the [k]-th on. *)
Definition hidden_from (k : nat) (s : UI) : Prop :=
  u_stage (common s) <> "RESULT" ->
  forall i card, u_dealerCards (common s) !! i = Some card -> (k <= i)%nat -> c_isHidden card = true.

(** The games with a dealer who hides cards, and how many stay open. *)
Inductive hides : string -> nat -> Prop :=
| hides_blackjack : hides "BLACKJACK" 1
| hides_threeCard : hides "THREE_CARD" 0
| hides_uth : hides "ULTIMATE_HOLDEM" 0.

(** What the state of a game says of the dealer: the stage, the stage of the
    result, and the cards, none before the player has some in hold'em. *)
Definition dealer_of (game : string) (blob : Uint8Array) : option (Z * Z * list Z) :=
  if bool_decide (game = "BLACKJACK") then
    (fun p => (bj_stage p, 3, bj_dealerCards p)) <$> parseBlackjackState blob
  else if bool_decide (game = "THREE_CARD") then
    (fun p => (tc_stage p, 3, tc_dealerCards p)) <$> parseThreeCardState blob
  else if bool_decide (game = "ULTIMATE_HOLDEM") then
    (fun p => (uh_stage p, 5,
               match uh_playerCards p with b :: _ => if b =? 0xff then [] else uh_dealerCards p | [] => [] end))
    <$> parseUltimateHoldemState blob
  else None.

(** The cards as they are to be shown. *)
Definition dealerShown (k : nat) (stage result : Z) (cards : list Z) : list Card :=
  if stage =? 0 then []
  else imap (fun i b => with_hidden (negb (stage =? result) && (k <=? i)%nat) (decodeCard b)) cards.

Definition stageShown (stage result : Z) : string :=
  if stage =? 0 then "BETTING" else if stage =? result then "RESULT" else "PLAYING".

Lemma shown_hides k stage result cards (s : UI) :
  u_dealerCards (common s) = dealerShown k stage result cards -> u_stage (common s) = stageShown stage result ->
  hidden_from k s.
Proof.
  intros Hd Hs Hr i card. rewrite Hd. unfold dealerShown. unfold stageShown in Hs. destruct (stage =? 0); [done|].
  destruct (stage =? result); [done|]. rewrite list_lookup_imap. intros (c & _ & ->)%fmap_Some Hk. cbn.
  by apply Nat.leb_le.
Qed.

Lemma imap_const {A B} (f : A -> B) (l : list A) : imap (fun _ => f) l = f <$> l.
Proof. induction l as [|x l IH]; [done|]. cbn. by f_equal. Qed.

(** What is shown is what the parser read, with the dealer's cards as they should
    be. *)
Lemma dealer_cards fallback chainRoll game k blob (w : World) :
  hides game k ->
  let w' := applyGameStateFromBlob fallback chainRoll game blob w in
  match dealer_of game blob with
  | None => w' = w
  | Some (stage, result, cards) =>
      w_ref w' = Some (w_state w') /\ u_type (common (w_state w')) = game
      /\ u_stage (common (w_state w')) = stageShown stage result
      /\ u_dealerCards (common (w_state w')) = dealerShown k stage result cards
  end.
Proof.
  intros [| |]; cbv zeta.
  - change (applyGameStateFromBlob _ _ _ _ _) with (applyBlackjackState fallback "BLACKJACK" blob w).
    unfold applyBlackjackState, dealer_of. rewrite bool_decide_true by done.
    destruct (parseBlackjackState blob) as [p|]; [|done]. cbn [fmap option_fmap option_map].
    split_and!; [done..|]. cbn. unfold dealerShown, dealerView. destruct (bj_stage p =? 0); [done|].
    rewrite imap_fmap. apply imap_ext. intros i c _. cbn. do 2 f_equal. by destruct i.
  - change (applyGameStateFromBlob _ _ _ _ _) with (applyThreeCardState "THREE_CARD" blob w).
    unfold applyThreeCardState, dealer_of. rewrite bool_decide_false, bool_decide_true by done.
    destruct (parseThreeCardState blob) as [p|]; [|done]. cbn [fmap option_fmap option_map].
    split_and!; [done..|]. cbn. unfold dealerShown. destruct (tc_stage p =? 0); [done|].
    rewrite <- imap_const. apply imap_ext. intros i c _. by rewrite andb_true_r.
  - change (applyGameStateFromBlob _ _ _ _ _) with (applyUltimateHoldemState "ULTIMATE_HOLDEM" blob w).
    unfold applyUltimateHoldemState, dealer_of. do 2 rewrite bool_decide_false by done. rewrite bool_decide_true by done.
    destruct (parseUltimateHoldemState blob) as [p|]; [|done]. cbn [fmap option_fmap option_map].
    split_and!; [done..|]. cbn. unfold dealerShown. destruct (uh_stage p =? 0); [done|]. cbn [orb].
    destruct (uh_playerCards p) as [|b cards]; [done|]. destruct (b =? 0xff); [done|]. cbn [fmap list_fmap].
    rewrite len_cons, (proj2 (Z.eqb_neq _ _)) by (pose proof (len_nonneg (decodeCard <$> cards)); lia).
    rewrite <- imap_const. apply imap_ext. intros i c _. unfold hiddenUnless. by rewrite andb_true_r.
Qed.

(** C24. In blackjack, three card poker and hold'em a state that the parser takes
    is shown: its stage, and the cards of the dealer that it holds, open once
    the result is there; until then all but the first are hidden in blackjack,
    and all of them in the other two.  A state that the parser does not take
    leaves the interface as it was. *)
Theorem dealer_hidden fallback chainRoll game k blob (w : World) :
  hides game k ->
  let w' := applyGameStateFromBlob fallback chainRoll game blob w in
  match dealer_of game blob with
  | None => w' = w
  | Some (stage, result, cards) =>
      w_ref w' = Some (w_state w') /\ u_type (common (w_state w')) = game
      /\ u_stage (common (w_state w')) = stageShown stage result
      /\ u_dealerCards (common (w_state w')) = dealerShown k stage result cards
      /\ hidden_from k (w_state w')
  end.
Proof.
  intros Hg. pose proof (dealer_cards fallback chainRoll game k blob w Hg) as H. cbv zeta in *.
  destruct (dealer_of game blob) as [[[stage result] cards]|]; [|done].
  destruct H as (H1 & H2 & H3 & H4). split_and!; try done. by eapply shown_hides.
Qed.

(** ** Histories *)

Lemma push_graph_bounded {A} (l : list A) x : len (push_graph l x) <= MAX_GRAPH_POINTS.
Proof.
  unfold push_graph, slice, slice_index, MAX_GRAPH_POINTS. rewrite len_app. pose proof (len_nonneg l).
  change (len [x]) with 1. zcmp. unfold len. rewrite length_take. unfold len in *. lia.
Qed.

Record bounded (s : UI) : Prop := {
  bd_hilo : len (hiloGraphData (hilo s)) <= MAX_GRAPH_POINTS;
  bd_roulette : len (t_history (roulette s)) <= MAX_GRAPH_POINTS;
  bd_sicBo : len (sicBoHistory s) <= MAX_GRAPH_POINTS;
  bd_craps : len (t_rollHistory (craps s)) <= MAX_GRAPH_POINTS
}.

Record world_bounded (w : World) : Prop := {
  wb_state : bounded (w_state w);
  wb_ref : match w_ref w with Some s => bounded s | None => True end
}.

Lemma world_put ref s w :
  bounded s -> match ref with Some s => bounded s | None => True end -> world_bounded (put ref s w).
Proof. by split. Qed.

Lemma world_put_both s w : bounded s -> world_bounded (put_both s w).
Proof. by split. Qed.

#[local] Hint Resolve push_graph_bounded world_put world_put_both : core.

Lemma bounded_prev fallback w : bounded fallback -> world_bounded w -> bounded (prevState fallback w).
Proof. intros Hf [_ Hr]. unfold prevState. by destruct (w_ref w). Qed.

#[local] Hint Resolve bounded_prev : core.

(** An update that leaves the four histories alone. *)
Lemma bounded_same s s' :
  bounded s -> hilo s' = hilo s -> roulette s' = roulette s -> sicBoHistory s' = sicBoHistory s ->
  craps s' = craps s -> bounded s'.
Proof. intros [? ? ? ?] E1 E2 E3 E4. split; by rewrite ?E1, ?E2, ?E3, ?E4. Qed.

Lemma bounded_hilo gameType parsed s : bounded s -> bounded (showHiLo gameType parsed s).
Proof. intros [? ? ? ?]. split; cbn; auto. Qed.

Lemma bounded_roulette gameType parsed s : bounded s -> bounded (showRoulette gameType parsed s).
Proof. intros [? ? ? ?]. unfold showRoulette. destruct (ro_result parsed); split; cbn; auto. Qed.

Lemma bounded_sicBo gameType parsed s : bounded s -> bounded (showSicBo gameType parsed s).
Proof. intros [? ? ? ?]. unfold showSicBo. destruct (si_dice parsed) as [[[d1 d2] d3]|]; split; cbn; auto. Qed.

Lemma bounded_craps gameType pending roll parsed s : bounded s -> bounded (showCraps gameType pending roll parsed s).
Proof.
  intros [? ? ? ?]. split; try done. cbn [craps showCraps set_craps crapsTable t_rollHistory].
  destruct (_ && _); [|done]. destruct (sevenOut _ _ _); [|auto]. rewrite len_cons, len_nil. unfold MAX_GRAPH_POINTS. lia.
Qed.

Lemma apply_bounded fallback chainRoll game blob w :
  bounded fallback -> world_bounded w ->
  world_bounded (applyGameStateFromBlob fallback chainRoll game blob w).
Proof.
  intros Hf Hw. pose proof Hw as [Hs Hr]. unfold applyGameStateFromBlob.
  repeat (destruct (bool_decide _); [|]); try done.
  - unfold applyBlackjackState. destruct (parseBlackjackState blob); [|done].
    apply world_put_both, (bounded_same (prevState fallback w)); auto.
  - unfold applyHiLoState. destruct (parseHiLoState blob); [|done]. apply world_put_both. by apply bounded_hilo.
  - unfold applyBaccaratState. destruct (parseBaccaratState blob); [|done]. destruct (_ && _).
    + apply world_put; [|done]. by apply (bounded_same (w_state w)).
    + apply world_put_both, (bounded_same (prevState fallback w)); auto.
  - unfold applyVideoPokerState. destruct (parseVideoPokerState blob); [|done].
    apply world_put_both. by apply (bounded_same (w_state w)).
  - unfold applyCasinoWarState. destruct (parseCasinoWarState blob); [|done].
    apply world_put_both. unfold showCasinoWar. destruct (_ =? 1); by apply (bounded_same (w_state w)).
  - unfold applyCrapsState. destruct (parseCrapsState blob); [|done]. apply world_put_both. by apply bounded_craps.
  - unfold applyRouletteState. destruct (parseRouletteState blob) as [p|]; [|done].
    apply world_put; [by apply bounded_roulette|]. destruct (ro_result p); [|done].
    destruct (w_ref w) as [s|]; cbn; [|done]. destruct Hr as [? ? ? ?]. split; cbn; auto.
  - unfold applySicBoState. destruct (parseSicBoState blob) as [p|]; [|done].
    apply world_put; [by apply bounded_sicBo|]. destruct (si_dice p) as [[[d1 d2] d3]|]; [|done].
    destruct (w_ref w) as [s|]; cbn; [|done]. destruct Hr as [? ? ? ?]. split; cbn; auto.
  - unfold applyThreeCardState. destruct (parseThreeCardState blob); [|done].
    apply world_put_both. by apply (bounded_same (w_state w)).
  - unfold applyUltimateHoldemState. destruct (parseUltimateHoldemState blob); [|done].
    apply world_put_both. by apply (bounded_same (w_state w)).
Qed.

Definition apply_all (fallback : UI) (updates : list (option (Z * Z) * string * Uint8Array)) (w : World) : World :=
  foldl (fun w u => applyGameStateFromBlob fallback u.1.1 u.1.2 u.2 w) w updates.

(** Whatever states of whatever games arrive, the histories and the graph stay
    within a hundred points, in the state and in the ref. *)
Theorem histories_bounded fallback updates (w : World) :
  bounded fallback -> world_bounded w -> world_bounded (apply_all fallback updates w).
Proof.
  intros Hf. revert w. induction updates as [|u updates IH]; intros w Hw; [done|].
  cbn [apply_all foldl]. apply IH. by apply apply_bounded.
Qed.

(** ** The hands of blackjack *)

Fixpoint indexed {A} (i : Z) (l : list A) : list (Z * A) :=
  match l with [] => [] | x :: l' => (i, x) :: indexed (i + 1) l' end.

Lemma zip_indexed {A} i (l : list A) : zip (seqZ i (len l)) l = indexed i l.
Proof.
  revert i. induction l as [|x l IH]; intros i; [done|]. rewrite len_cons. pose proof (len_nonneg l).
  rewrite seqZ_cons by lia. cbn [zip zip_with indexed]. f_equal.
  replace (Z.pred (1 + len l)) with (len l) by lia. replace (Z.succ i) with (i + 1) by lia. apply IH.
Qed.

Lemma indexed_app {A} i (l k : list A) : indexed i (l ++ k) = indexed i l ++ indexed (i + len l) k.
Proof.
  revert i. induction l as [|x l IH]; intros i; cbn [indexed app]; autorewrite with js; [by rewrite Z.add_0_r|].
  by rewrite IH, Z.add_assoc.
Qed.

Section hands.
Variables baseBet active handCount : Z.

Definition doneHand (hand : BlackjackHand) : CompletedHand :=
  {| ch_hand := handView baseBet hand; ch_message := statusMessage (bh_status hand) |}.

Definition wager_from (w : Z) (hands : list BlackjackHand) : Z :=
  foldl (fun w hand => js_add w (js_mul baseBet (betMult hand))) w hands.

(** The hands before the one that is shown are finished. *)
Lemma hands_before hands i v :
  i + len hands <= Z.min active (handCount - 1) ->
  foldl (addHand baseBet active handCount) v (indexed i hands) =
    {| hv_pCards := hv_pCards v; hv_pendingStack := hv_pendingStack v;
       hv_finishedHands := hv_finishedHands v ++ (doneHand <$> hands);
       hv_mainWagered := wager_from (hv_mainWagered v) hands |}.
Proof.
  revert i v. induction hands as [|hand hands IH]; intros i v H.
  - destruct v. cbn. by rewrite app_nil_r.
  - rewrite len_cons in H. pose proof (len_nonneg hands). cbn [indexed foldl].
    rewrite IH by lia. unfold addHand at 1 2 3 4.
    replace (negb (handCount <=? active) && (i =? active)) with false by lia.
    replace ((handCount <=? active) && (i =? handCount - 1)) with false by lia.
    replace (negb (handCount <=? active) && (active <? i)) with false by lia.
    cbn. by rewrite <- app_assoc.
Qed.

(** Those after it wait. *)
Lemma hands_after hands i v :
  active < i -> active < handCount ->
  foldl (addHand baseBet active handCount) v (indexed i hands) =
    {| hv_pCards := hv_pCards v; hv_pendingStack := hv_pendingStack v ++ (handView baseBet <$> hands);
       hv_finishedHands := hv_finishedHands v; hv_mainWagered := wager_from (hv_mainWagered v) hands |}.
Proof.
  revert i v. induction hands as [|hand hands IH]; intros i v H Ha.
  - destruct v. cbn. by rewrite app_nil_r.
  - cbn [indexed foldl]. rewrite IH by lia. unfold addHand at 1 2 3 4.
    replace (negb (handCount <=? active) && (i =? active)) with false by lia.
    replace ((handCount <=? active) && (i =? handCount - 1)) with false by lia.
    replace (negb (handCount <=? active) && (active <? i)) with true by lia.
    cbn. by rewrite <- app_assoc.
Qed.
End hands.

(** The hand that is shown splits the hands: those before it are finished, those
    after it wait. *)
Lemma viewHands_split baseBet active before hand after :
  0 <= active ->
  len before = Z.min active (len (before ++ hand :: after) - 1) ->
  viewHands baseBet active (before ++ hand :: after) =
    {| hv_pCards := decodeCard <$> bh_cards hand;
       hv_pendingStack := handView baseBet <$> after;
       hv_finishedHands := doneHand baseBet <$> before;
       hv_mainWagered := wager_from baseBet 0 (before ++ hand :: after) |}.
Proof.
  intros Ha Hk. unfold viewHands. rewrite zip_indexed, indexed_app, foldl_app.
  set (n := len (before ++ hand :: after)) in *.
  assert (Hn : n = len before + 1 + len after) by (unfold n; rewrite len_app, len_cons; lia).
  clearbody n. pose proof (len_nonneg before). pose proof (len_nonneg after).
  rewrite (hands_before baseBet active n before 0) by lia. cbn [indexed foldl].
  replace (n =? 0) with false by lia. cbn [hv_pCards hv_pendingStack hv_finishedHands hv_mainWagered app].
  unfold addHand at 2.
  replace (negb (n <=? active) && (0 + len before =? active) || (n <=? active) && (0 + len before =? n - 1))
    with true by lia.
  cbn [hv_pCards hv_pendingStack hv_finishedHands hv_mainWagered sh_bet sh_cards handView].
  unfold wager_from at 2. rewrite foldl_app. cbn [foldl].
  destruct after as [|x after].
  - cbn. done.
  - rewrite len_cons in *. pose proof (len_nonneg after). by rewrite hands_after by lia.
Qed.

(** The bets of the hands, when they stay below [2^53]. *)
Lemma wager_exact baseBet hands w :
  0 < baseBet -> 0 <= w -> Forall (fun h => 0 <= betMult h) hands ->
  w + baseBet * zsum betMult hands <= 2 ^ 53 ->
  wager_from baseBet w hands = w + baseBet * zsum betMult hands.
Proof.
  intros Hb. revert w. induction hands as [|h hands IH]; intros w Hw Hf Hs.
  - rewrite zsum_nil. cbn. lia.
  - apply Forall_cons in Hf as [Hh Hf]. rewrite zsum_cons in *.
    assert (0 <= zsum betMult hands) by (apply zsum_nonneg; by apply Forall_forall).
    assert (0 <= baseBet * betMult h) by nia. assert (0 <= baseBet * zsum betMult hands) by nia.
    cbn [wager_from foldl]. rewrite js_mul_exact, js_add_exact by lia.
    fold (wager_from baseBet (w + baseBet * betMult h) hands). rewrite IH by (done || lia). lia.
Qed.

(** The hands on the table are shown exactly once and in order: finished
    hands, the hand in play (the last one when all are finished), and the hands
    that wait, with their bets; and the wager is the sum of the bets of the hands
    and the side bets, as long as it is a safe integer. *)
Theorem blackjack_hands_shown (gameType : string) (parsed : BlackjackParsedState) (s : UI) before hand after :
  bj_hands parsed = before ++ hand :: after ->
  len before = Z.min (activeHandIndex parsed) (len (bj_hands parsed) - 1) ->
  0 <= activeHandIndex parsed -> bj_stage parsed <> 0 ->
  initPlayerCards parsed <> (0xff, (initPlayerCards parsed).2) ->
  initPlayerCards parsed <> ((initPlayerCards parsed).1, 0xff) ->
  0 < u_bet (common s) ->
  Forall (fun h => 0 <= betMult h) (bj_hands parsed) ->
  Forall (fun b => 0 <= b) [sideBet21Plus3 parsed; sideBetLuckyLadies parsed; sideBetPerfectPairs parsed;
                            sideBetBustIt parsed; sideBetRoyalMatch parsed] ->
  let total := u_bet (common s) * zsum betMult (bj_hands parsed) + sideBet21Plus3 parsed
    + sideBetLuckyLadies parsed + sideBetPerfectPairs parsed + sideBetBustIt parsed + sideBetRoyalMatch parsed in
  total <= 2 ^ 53 ->
  let s' := showBlackjack gameType parsed s in
  (sh_cards ∘ ch_hand <$> completedHands (blackjack s')) ++ [u_playerCards (common s')]
    ++ (sh_cards <$> blackjackStack (blackjack s'))
    = (fun h => decodeCard <$> bh_cards h) <$> bj_hands parsed
  /\ u_playerCards (common s') = decodeCard <$> bh_cards hand
  /\ u_sessionWager (common s') = total.
Proof.
  intros E Hk Ha Hst Hi1 Hi2 Hb Hm Hsides total Ht s'. subst s' total.
  repeat (apply Forall_cons in Hsides as [? Hsides]).
  assert (Hz : 0 <= zsum betMult (bj_hands parsed)) by (apply zsum_nonneg; by apply Forall_forall).
  assert (Hbz : 0 <= u_bet (common s) * zsum betMult (bj_hands parsed)) by nia.
  unfold showBlackjack.
  cbn [common blackjack set_blackjack set_common completedHands blackjackStack u_playerCards u_sessionWager].
  rewrite (proj2 (Z.eqb_neq (u_bet _) 0)), (proj2 (Z.eqb_neq (bj_stage _) 0)) by lia.
  assert (Hp : ((initPlayerCards parsed).1 =? 0xff) = false /\ ((initPlayerCards parsed).2 =? 0xff) = false).
  { destruct (initPlayerCards parsed) as [p1 p2]. cbn in *. split; apply Z.eqb_neq; congruence. }
  destruct Hp as [-> ->]. cbn [orb].
  rewrite E in Hk |- *. rewrite (viewHands_split _ _ before hand after Ha Hk).
  cbn [hv_pCards hv_pendingStack hv_finishedHands hv_mainWagered].
  rewrite <- E. split_and!; [|done|].
  - rewrite E, fmap_app, <- !list_fmap_compose. done.
  - rewrite wager_exact by (done || lia). 
    rewrite (js_add_exact _ (sideBet21Plus3 parsed)), (js_add_exact _ (sideBetLuckyLadies parsed)),
      (js_add_exact _ (sideBetPerfectPairs parsed)), (js_add_exact _ (sideBetBustIt parsed)),
      (js_add_exact _ (sideBetRoyalMatch parsed)) by lia. lia.
Qed.

(** ** Refreshing *)

Lemma to_number_pos n : 0 < n -> 0 < to_number n.
Proof.
  intros Hn. destruct (decide (Z.abs n <= 2 ^ 53)) as [H|H]; [by rewrite to_number_exact|].
  pose proof (to_number_error n ltac:(lia)) as He. rewrite (Z.abs_eq n) in He by lia.
  pose proof (Z.log2_spec n Hn). pose proof (Z.log2_nonneg n).
  assert (2 ^ (Z.log2 n - 52) <= 2 ^ Z.log2 n) by (apply Z.pow_le_mono_r; lia). lia.
Qed.

Lemma tieCredit_once stage tieBet i : tieCredit stage tieBet (tieCredit stage tieBet i) = tieCredit stage tieBet i.
Proof.
  unfold tieCredit. destruct ((stage =? 1) && (0 <? tieBet)) eqn:E; cbn [andb]; [|done].
  destruct (i =? 0) eqn:Ei; [|by rewrite Ei]. apply andb_true_iff in E as [_ E%Z.ltb_lt].
  unfold js_mul. pose proof (to_number_pos (tieBet * 11)).
  by rewrite (proj2 (Z.eqb_neq _ _)) by lia.
Qed.

Lemma blackjack_again gameType parsed s :
  showBlackjack gameType parsed (showBlackjack gameType parsed s) = showBlackjack gameType parsed s.
Proof. done. Qed.

Lemma threeCard_again gameType parsed s :
  showThreeCard gameType parsed (showThreeCard gameType parsed s) = showThreeCard gameType parsed s.
Proof. done. Qed.

Lemma uth_again gameType parsed s :
  showUltimateHoldem gameType parsed (showUltimateHoldem gameType parsed s)
  = showUltimateHoldem gameType parsed s.
Proof. done. Qed.

Lemma casinoWar_again gameType parsed s :
  showCasinoWar gameType parsed (showCasinoWar gameType parsed s) = showCasinoWar gameType parsed s.
Proof.
  unfold showCasinoWar. destruct (cw_version parsed =? 1); [|done].
  cbn [common set_casinoWar set_common u_sessionInterimPayout u_bet u_dice u_sessionWager].
  unfold set_casinoWar, set_common. cbn. do 2 f_equal. destruct (cw_stage parsed =? 0); [done|apply tieCredit_once].
Qed.

Lemma videoPoker_again gameType parsed s :
  showVideoPoker gameType parsed (showVideoPoker gameType parsed s) = showVideoPoker gameType parsed s.
Proof.
  unfold showVideoPoker, set_videoPoker, show_table, set_common. cbn. f_equal.
  - f_equal. destruct (vp_stage parsed =? 0); [|done]. apply list_eq. intros i.
    rewrite !list_lookup_imap. destruct ((decodeCard <$> vp_cards parsed) !! i) as [c|] eqn:E; [|done].
    cbn. unfold heldAt at 1. by rewrite list_lookup_imap, E.
  - by destruct (vp_stage parsed =? 1).
Qed.

(** *** The merge of craps bets *)

(** The staged bets that [mergeLocal] adds. *)
Fixpoint kept (merged staged : list UiCrapsBet) : list UiCrapsBet :=
  match staged with
  | [] => []
  | bet :: staged' =>
      if existsb (fun b => bool_decide (betKeyLoose (ub_bet b) = betKeyLoose (ub_bet bet))) merged
      then kept merged staged'
      else if negb (isValidCrapsBet (ub_bet bet)) then kept merged staged'
      else bet :: kept (merged ++ [bet]) staged'
  end.

Lemma mergeLocal_kept merged staged : mergeLocal merged staged = merged ++ kept merged staged.
Proof.
  revert merged. induction staged as [|b staged IH]; intros merged; cbn [mergeLocal kept]; [by rewrite app_nil_r|].
  destruct (existsb _ _); [apply IH|]. destruct (negb _); [apply IH|].
  rewrite IH, <- app_assoc. done.
Qed.

Lemma kept_again merged staged : kept merged (kept merged staged) = kept merged staged.
Proof.
  revert merged. induction staged as [|b staged IH]; intros merged; cbn [kept]; [done|].
  destruct (existsb _ _) eqn:E; [apply IH|]. destruct (negb _) eqn:En; [apply IH|].
  cbn [kept]. by rewrite E, En, IH.
Qed.

Lemma kept_local merged staged :
  Forall (fun b => ub_local b = true) staged -> Forall (fun b => ub_local b = true) (kept merged staged).
Proof.
  intros H. revert merged. induction H as [|b staged Hb _ IH]; intros merged; cbn [kept]; [constructor|].
  destruct (existsb _ _); [apply IH|]. destruct (negb _); [apply IH|].
  by constructor.
Qed.

Lemma filter_all {A} (f : A -> bool) l : Forall (fun x => f x = true) l -> List.filter f l = l.
Proof. induction 1 as [|x l Hx _ IH]; [done|]. cbn. by rewrite Hx, IH. Qed.

Lemma filter_none {A} (f : A -> bool) l : Forall (fun x => f x = false) l -> List.filter f l = [].
Proof. induction 1 as [|x l Hx _ IH]; [done|]. cbn. by rewrite Hx. Qed.

Lemma filter_holds {A} (f : A -> bool) l : Forall (fun x => f x = true) (List.filter f l).
Proof. apply List.Forall_forall. by intros x [_ Hx]%List.filter_In. Qed.

Lemma merge_again (bets : list CrapsBet) staged :
  mergeLocal (chainBet <$> bets) (List.filter ub_local (mergeLocal (chainBet <$> bets) (List.filter ub_local staged)))
  = mergeLocal (chainBet <$> bets) (List.filter ub_local staged).
Proof.
  rewrite !mergeLocal_kept, List.filter_app.
  rewrite (filter_none ub_local (chainBet <$> bets)) by (apply Forall_fmap, Forall_true; done).
  rewrite filter_all by (apply kept_local, filter_holds). cbn [app]. by rewrite kept_again.
Qed.

Lemma newRoll_again gameType pending roll parsed s : newRoll None parsed (showCraps gameType pending roll parsed s) = false.
Proof. unfold newRoll, rollChanged. cbn. by rewrite bool_decide_eq_true_2. Qed.

Lemma sevenOut_same parsed t : sevenOut parsed false t = false.
Proof. unfold sevenOut. by rewrite andb_false_r. Qed.

Lemma mergedBets_again gameType pending roll parsed s :
  mergedBets parsed (craps (showCraps gameType pending roll parsed s)) = mergedBets parsed (craps s).
Proof.
  change (craps (showCraps gameType pending roll parsed s)) with (crapsTable roll parsed s).
  unfold mergedBets at 1. change (t_bets (crapsTable roll parsed s)) with (mergedBets parsed (craps s)).
  unfold mergedBets. destruct (hasDice parsed); [done|apply merge_again].
Qed.

Lemma craps_again gameType pending roll parsed s :
  showCraps gameType pending None parsed (showCraps gameType pending roll parsed s)
  = showCraps gameType pending roll parsed s.
Proof.
  assert (Et : crapsTable None parsed (showCraps gameType pending roll parsed s) = crapsTable roll parsed s).
  { unfold crapsTable at 1. rewrite newRoll_again, sevenOut_same, mergedBets_again, andb_false_r. done. }
  assert (Em : crapsMessage pending None parsed (showCraps gameType pending roll parsed s)
               = crapsMessage pending roll parsed s).
  { unfold crapsMessage at 1. rewrite newRoll_again, mergedBets_again.
    change (u_message (common (showCraps gameType pending roll parsed s))) with (crapsMessage pending roll parsed s).
    destruct (hasDice parsed) eqn:Eh; [done|]. destruct pending; [done|].
    unfold crapsMessage. by rewrite Eh. }
  unfold showCraps at 1. by rewrite Et, Em.
Qed.

(** Showing the same state again changes nothing, in the games without a
    history of their own: the interface is a function of the state of the chain
    and of what was shown, and a repeated event leaves it, its wager, its staged
    bets, its held cards and the credit of a tie bet as they are. *)
Theorem refresh_idempotent fallback chainRoll game blob (w : World) :
  game <> "ROULETTE" -> game <> "SIC_BO" -> game <> "HILO" ->
  applyGameStateFromBlob fallback None game blob (applyGameStateFromBlob fallback chainRoll game blob w)
  = applyGameStateFromBlob fallback chainRoll game blob w.
Proof.
  intros Hr Hs Hh. unfold applyGameStateFromBlob.
  rewrite (bool_decide_eq_false_2 _ Hr), (bool_decide_eq_false_2 _ Hs), (bool_decide_eq_false_2 _ Hh).
  repeat (destruct (bool_decide _); [|]); try done.
  - unfold applyBlackjackState. destruct (parseBlackjackState blob); [|done]. unfold put_both, put. cbn [w_ref w_state w_isPending w_uthBackendStage prevState default]. unfold prevState at 1. cbn [w_ref default id]. by rewrite blackjack_again.
  - unfold applyBaccaratState. destruct (parseBaccaratState blob); [|done]. by destruct (_ && _).
  - unfold applyVideoPokerState. destruct (parseVideoPokerState blob); [|done].
    unfold put_both, put. cbn [w_state w_isPending w_uthBackendStage]. by rewrite videoPoker_again.
  - unfold applyCasinoWarState. destruct (parseCasinoWarState blob); [|done].
    unfold put_both, put. cbn [w_state w_isPending w_uthBackendStage]. by rewrite casinoWar_again.
  - unfold applyCrapsState. destruct (parseCrapsState blob); [|done].
    unfold put_both, put. cbn [w_state w_isPending w_uthBackendStage]. by rewrite craps_again.
  - unfold applyThreeCardState. destruct (parseThreeCardState blob); [|done].
    unfold put_both, put. cbn [w_state w_isPending w_uthBackendStage]. by rewrite threeCard_again.
  - unfold applyUltimateHoldemState. destruct (parseUltimateHoldemState blob); [|done].
    unfold put_both, put. cbn [w_state w_isPending w_uthBackendStage]. by rewrite uth_again.
Qed.

(** ** Witnesses *)

Definition startUI : UI :=
  {| common := {| u_type := "NONE"; u_bet := 50; u_playerCards := []; u_dealerCards := []; u_dice := [];
                  u_stage := "BETTING"; u_message := ""; u_sessionWager := 0; u_sessionInterimPayout := 0 |};
     blackjack := {| blackjackStack := []; completedHands := []; blackjack21Plus3Bet := 0;
                     blackjackLuckyLadiesBet := 0; blackjackPerfectPairsBet := 0; blackjackBustItBet := 0;
                     blackjackRoyalMatchBet := 0; blackjackPlayerValue := None; blackjackDealerValue := None;
                     blackjackActions := noActions |};
     hilo := {| hiloAccumulator := 0; hiloGraphData := []; hiloRules := None; hiloNextMultipliers := None |};
     roulette := {| t_zeroRule := "STANDARD"; t_isPrison := false; t_history := [] |};
     sicBoHistory := []; casinoWar := {| casinoWarTieBet := 0; casinoWarOutcome := None |};
     baccarat := {| baccaratPlayerTotal := None; baccaratBankerTotal := None |};
     threeCard := {| threeCardPairPlusBet := 0; threeCardSixCardBonusBet := 0; threeCardProgressiveBet := 0;
                     threeCardPlayerRank := None; threeCardDealerRank := None;
                     threeCardDealerQualifies := None |};
     uth := {| u_communityCards := []; uthTripsBet := 0; uthSixCardBonusBet := 0; uthProgressiveBet := 0;
               uthBonusCards := [] |};
     videoPoker := {| videoPokerHand := None; videoPokerMultiplier := None |};
     craps := {| t_point := None; t_epochPointEstablished := false; t_madePointsMask := 0; t_bets := [];
                 t_rollHistory := []; t_lastRoundBets := [] |} |}.

Definition startWorld : World :=
  {| w_ref := None; w_state := startUI; w_isPending := false; w_uthBackendStage := 0 |}.

(** Three card poker after the deal, with a pair plus bet of 5. *)
Definition dealtBlob : Uint8Array := u8array [1; 1; 0; 1; 2; 13; 14; 15] ++ be_bytes 8 5.

Lemma dealer_hidden_witness :
  let w := applyGameStateFromBlob startUI None "THREE_CARD" dealtBlob startWorld in
  hidden_from 0 (w_state w) /\ u_stage (common (w_state w)) = "PLAYING"
  /\ len (u_dealerCards (common (w_state w))) = 3.
Proof.
  pose proof (dealer_hidden startUI None "THREE_CARD" 0 dealtBlob startWorld hides_threeCard) as H. cbv zeta in H.
  replace (dealer_of "THREE_CARD" dealtBlob) with (Some (1, 3, [13; 14; 15])) in H by (by vm_compute).
  destruct H as (_ & _ & Hs & Hd & Hh). split; [exact Hh|]. rewrite Hs, Hd. by vm_compute.
Defined.

(** Casino War at war, with a tie bet of 10: the credit is 110, once. *)
Definition warBlob : Uint8Array := u8array [1; 1; 5; 18] ++ be_bytes 8 10.

Lemma refresh_idempotent_witness :
  let once := applyGameStateFromBlob startUI None "CASINO_WAR" warBlob startWorld in
  applyGameStateFromBlob startUI None "CASINO_WAR" warBlob once = once
  /\ u_sessionInterimPayout (common (w_state once)) = 110.
Proof.
  split; [|by vm_compute].
  by apply (refresh_idempotent startUI None "CASINO_WAR" warBlob startWorld).
Defined.

(** A pair of eights, split and dealt, with the second hand in play. *)
Definition splitHands : list BlackjackHand :=
  [ {| betMult := 1; bh_status := 1; wasSplit := 1; bh_cards := [7; 9] |};
    {| betMult := 2; bh_status := 0; wasSplit := 1; bh_cards := [20; 3] |};
    {| betMult := 1; bh_status := 0; wasSplit := 1; bh_cards := [33; 4] |} ].

Definition splitState : BlackjackParsedState :=
  {| bj_version := 4; bj_stage := 1; sideBet21Plus3 := 5; sideBetLuckyLadies := 0; sideBetPerfectPairs := 0;
     sideBetBustIt := 0; sideBetRoyalMatch := 0; initPlayerCards := (7, 20); activeHandIndex := 1;
     bj_hands := splitHands; bj_dealerCards := [12; 13]; playerValue := Some 12; dealerValue := Some 10;
     actionMask := Some 3 |}.

Lemma blackjack_hands_shown_witness :
  let s' := showBlackjack "BLACKJACK" splitState startUI in
  u_sessionWager (common s') = 205
  /\ len (completedHands (blackjack s')) = 1 /\ len (blackjackStack (blackjack s')) = 1
  /\ u_playerCards (common s') = decodeCard <$> [20; 3].
Proof.
  destruct (blackjack_hands_shown "BLACKJACK" splitState startUI
    (take 1 splitHands) {| betMult := 2; bh_status := 0; wasSplit := 1; bh_cards := [20; 3] |}
    (drop 2 splitHands)) as (H1 & H2 & H3); [done|done|done|done|done|done|done| | |done|].
  - repeat (constructor; [cbn; lia|]). constructor.
  - repeat (constructor; [cbn; lia|]). constructor.
  - split; [exact H3|]. split; [done|]. split; [done|exact H2].
Defined.
