(* ===== verification/CardTables.v ===== *)
(** * The actions of the card games on the website

    [website/src/hooks/games/useBlackjack.ts], [useCasinoWar.ts],
    [useThreeCardPoker.ts], [useUltimateHoldem.ts], [useHiLo.ts],
    [useVideoPoker.ts], and the deals of [hooks/terminalGame/actions/useDeal.ts].

    An action reads the state shown and the refs ([Env] of [TableSlips]), may
    send one move to the session, and updates the state; [ok] says whether the
    node took the move.  Every action is a function to the new state, the new
    refs and what was sent. *)

From stdpp Require Import pretty.
From S2P Require Import Prelude JsNum Bytes Constants ProtocolEncode WebBets WebState TableSlips.

Definition Outcome : Type := UI * Env * option (Z * Uint8Array).

(** ** Updates of the state *)

Definition tell (m : string) (s : UI) : UI :=
  let c := common s in
  set_common {| u_type := u_type c; u_bet := u_bet c; u_playerCards := u_playerCards c;
                u_dealerCards := u_dealerCards c; u_dice := u_dice c; u_stage := u_stage c; u_message := m;
                u_sessionWager := u_sessionWager c; u_sessionInterimPayout := u_sessionInterimPayout c |} s.

Definition set_wager (w : Z) (s : UI) : UI :=
  let c := common s in
  set_common {| u_type := u_type c; u_bet := u_bet c; u_playerCards := u_playerCards c;
                u_dealerCards := u_dealerCards c; u_dice := u_dice c; u_stage := u_stage c;
                u_message := u_message c; u_sessionWager := w;
                u_sessionInterimPayout := u_sessionInterimPayout c |} s.

Definition add_wager (d : Z) (s : UI) : UI := set_wager (u_sessionWager (common s) + d) s.

Definition is_game (game : string) (s : UI) : bool := bool_decide (u_type (common s) = game).
Definition in_stage (stage : string) (s : UI) : bool := bool_decide (u_stage (common s) = stage).

(** [message.includes(text)] *)
Definition includes (text : string) (s : UI) : bool :=
  match String.index 0 text (u_message (common s)) with Some _ => true | None => false end.

Definition quiet (s : UI) (env : Env) : Outcome := (s, env, None).

(** The session a move can be sent to. *)
Definition online (env : Env) : option Z :=
  if isOnChain env && hasService env then liveSession env else None.

(** Sending with [isPendingRef]: [prepare] runs before the move, [done] after it
    was taken. *)
Definition submit (env : Env) (ok : bool) (session : Z) (payload : Uint8Array) (prepare done : UI -> UI)
    (failed : string) (s : UI) : Outcome :=
  if ok then (done (prepare s), with_pending env true (pendingMoveCount env), Some (session, payload))
  else (tell failed (prepare s), with_pending env false (pendingMoveCount env), Some (session, payload)).

Definition keep (s : UI) : UI := s.
Definition offline (s : UI) (env : Env) : Outcome := quiet (tell "OFFLINE - CHECK CONNECTION" s) env.

(** ** Blackjack *)

Definition bjMove (m : BlackjackMove) : Uint8Array := u8array [BlackjackMove_code m].

(** Hit, stand and double differ in the flag, the move and the texts. *)
Definition bjAction (allowed : BlackjackActions -> bool) (m : BlackjackMove) (cannot doing : string)
    (env : Env) (ok : bool) (s : UI) : Outcome :=
  if isPending env then quiet s env
  else if negb (allowed (blackjackActions (blackjack s))) then quiet (tell cannot s) env
  else
    match online env with
    | Some session => submit env ok session (bjMove m) keep (tell doing) "MOVE FAILED" s
    | None => offline s env
    end.

Definition bjHit := bjAction canHit BJ_Hit "CANNOT HIT" "HITTING...".
Definition bjStand := bjAction canStand BJ_Stand "CANNOT STAND" "STANDING...".
Definition bjDouble := bjAction canDouble BJ_Double "CANNOT DOUBLE" "DOUBLING...".

Definition bjSplit (chips : Z) (env : Env) (ok : bool) (s : UI) : Outcome :=
  if negb (canSplit (blackjackActions (blackjack s))) then quiet (tell "CANNOT SPLIT" s) env
  else if chips <? u_bet (common s) then quiet (tell "INSUFFICIENT FUNDS TO SPLIT" s) env
  else
    match online env with
    | Some session =>
        if isPending env then quiet s env
        else submit env ok session (bjMove BJ_Split) keep (tell "SPLITTING...") "SPLIT FAILED" s
    | None => offline s env
    end.

Definition bjInsurance (take : bool) (env : Env) (s : UI) : Outcome :=
  if negb (isOnChain env) then offline s env
  else quiet (tell (if take then "INSURANCE TAKEN" else "INSURANCE DECLINED") s) env.

Inductive BlackjackSideBet := Side21Plus3 | SideLuckyLadies | SidePerfectPairs | SideBustIt | SideRoyalMatch.

Definition sideLabel (k : BlackjackSideBet) : string :=
  match k with
  | Side21Plus3 => "21+3" | SideLuckyLadies => "LUCKY LADIES" | SidePerfectPairs => "PERFECT PAIRS"
  | SideBustIt => "BUST IT" | SideRoyalMatch => "ROYAL MATCH"
  end.

Definition sideBet (k : BlackjackSideBet) (b : BlackjackUI) : Z :=
  match k with
  | Side21Plus3 => blackjack21Plus3Bet b | SideLuckyLadies => blackjackLuckyLadiesBet b
  | SidePerfectPairs => blackjackPerfectPairsBet b | SideBustIt => blackjackBustItBet b
  | SideRoyalMatch => blackjackRoyalMatchBet b
  end.

Definition set_sideBet (k : BlackjackSideBet) (a : Z) (s : UI) : UI :=
  let b := blackjack s in
  let v k' := if match k, k' with
                 | Side21Plus3, Side21Plus3 | SideLuckyLadies, SideLuckyLadies
                 | SidePerfectPairs, SidePerfectPairs | SideBustIt, SideBustIt
                 | SideRoyalMatch, SideRoyalMatch => true
                 | _, _ => false end
              then a else sideBet k' b in
  set_blackjack
    {| blackjackStack := blackjackStack b; completedHands := completedHands b;
       blackjack21Plus3Bet := v Side21Plus3; blackjackLuckyLadiesBet := v SideLuckyLadies;
       blackjackPerfectPairsBet := v SidePerfectPairs; blackjackBustItBet := v SideBustIt;
       blackjackRoyalMatchBet := v SideRoyalMatch; blackjackPlayerValue := blackjackPlayerValue b;
       blackjackDealerValue := blackjackDealerValue b; blackjackActions := blackjackActions b |} s.

Definition currentSideBets (b : BlackjackUI) : Z :=
  sideBet Side21Plus3 b + sideBet SideLuckyLadies b + sideBet SidePerfectPairs b + sideBet SideBustIt b
  + sideBet SideRoyalMatch b.

(** [`${label} +$${amount}`] or [`${label} OFF`]. *)
Definition toggled (label : string) (amount : Z) : string :=
  if 0 <? amount then label +:+ " +$" +:+ pretty amount else label +:+ " OFF".

Definition toggleSideBet (k : BlackjackSideBet) (chips : Z) (env : Env) (s : UI) : Outcome :=
  if negb (is_game "BLACKJACK" s) then quiet s env
  else
    let prevAmount := sideBet k (blackjack s) in
    let nextAmount := if 0 <? prevAmount then 0 else u_bet (common s) in
    if negb (in_stage "BETTING" s) then quiet (tell (sideLabel k +:+ " CLOSED") s) env
    else
      let projectedWager := u_bet (common s) + (currentSideBets (blackjack s) - prevAmount + nextAmount) in
      if chips <? projectedWager then quiet (tell "INSUFFICIENT FUNDS" s) env
      else quiet (tell (toggled (sideLabel k) nextAmount) (set_sideBet k nextAmount s)) env.

(** [\[7, 21+3, lucky ladies, perfect pairs, bust it, royal match\]], or [\[4\]]. *)
Definition blackjackDealPayload (b : BlackjackUI) : Uint8Array :=
  if 0 <? currentSideBets b
  then u8array [7] ++ be_bytes 8 (sideBet Side21Plus3 b) ++ be_bytes 8 (sideBet SideLuckyLadies b)
       ++ be_bytes 8 (sideBet SidePerfectPairs b) ++ be_bytes 8 (sideBet SideBustIt b)
       ++ be_bytes 8 (sideBet SideRoyalMatch b)
  else u8array [4].

(** [None] is the fall-through to the rest of the callback. *)
Definition dealBlackjack (env : Env) (session : Z) (ok : bool) (s : UI) : option Outcome :=
  if isPending env then Some (quiet s env)
  else if in_stage "BETTING" s then
    let total := currentSideBets (blackjack s) in
    let prepare s := tell "DEALING..." (if 0 <? total then add_wager total s else s) in
    Some (submit env ok session (blackjackDealPayload (blackjack s)) prepare keep "DEAL FAILED" s)
  else if includes "REVEAL" s then
    Some (submit env ok session (u8array [6]) (tell "REVEALING...") keep "REVEAL FAILED" s)
  else None.

(** ** Casino War *)

Definition set_tieBet (a : Z) (s : UI) : UI :=
  set_casinoWar {| casinoWarTieBet := a; casinoWarOutcome := casinoWarOutcome (casinoWar s) |} s.

Definition tieBetPayload (a : Z) : Uint8Array := u8array [3] ++ be_bytes 8 a.

(** Unlike the others it updates the state first and takes it back when the move
    fails; without a session nothing is sent. *)
Definition casinoWarToggleTieBet (chips : Z) (env : Env) (ok : bool) (s : UI) : Outcome :=
  if negb (is_game "CASINO_WAR" s) then quiet s env
  else if negb (in_stage "BETTING" s) then quiet (tell "TIE BET CLOSED" s) env
  else
    let prevAmount := casinoWarTieBet (casinoWar s) in
    let nextAmount := if 0 <? prevAmount then 0 else u_bet (common s) in
    let delta := nextAmount - prevAmount in
    if isPending env then quiet s env
    else if (0 <? delta) && (chips <? delta) then quiet (tell "INSUFFICIENT FUNDS" s) env
    else
      let shown := tell (toggled "TIE BET" nextAmount) (add_wager delta (set_tieBet nextAmount s)) in
      match online env with
      | Some session =>
          if ok then (shown, with_pending env true (pendingMoveCount env), Some (session, tieBetPayload nextAmount))
          else (tell "TIE BET FAILED" (add_wager (- delta) (set_tieBet prevAmount shown)),
                with_pending env false (pendingMoveCount env), Some (session, tieBetPayload nextAmount))
      | None => (shown, with_pending env false (pendingMoveCount env), None)
      end.

Definition warAction (byte : Z) (doing : string) (env : Env) (ok : bool) (s : UI) : Outcome :=
  if negb (is_game "CASINO_WAR" s) || negb (in_stage "PLAYING" s) || negb (includes "WAR" s) then quiet s env
  else
    match online env with
    | Some session =>
        if isPending env then quiet s env
        else submit env ok session (u8array [byte]) keep (tell doing) "MOVE FAILED" s
    | None => offline s env
    end.

Definition casinoWarGoToWar := warAction 1 "GOING TO WAR...".
Definition casinoWarSurrender := warAction 2 "SURRENDERING...".

Definition dealCasinoWar (env : Env) (session : Z) (ok : bool) (s : UI) : option Outcome :=
  if in_stage "BETTING" s || (in_stage "PLAYING" s && bool_decide (u_message (common s) = "DEALT")) then
    if isPending env then Some (quiet s env)
    else Some (submit env ok session (u8array [0]) keep (tell "DEALING...") "DEAL FAILED" s)
  else None.

(** ** HiLo *)

Inductive Guess := HIGHER | LOWER | SAME.

Definition guessByte (g : Guess) : Z := match g with HIGHER => 0 | LOWER => 1 | SAME => 3 end.
Definition guessName (g : Guess) : string :=
  match g with HIGHER => "HIGHER" | LOWER => "LOWER" | SAME => "SAME" end.

Definition hiloMove (byte : Z) (doing : string) (env : Env) (ok : bool) (s : UI) : Outcome :=
  if isPending env then quiet s env
  else
    match online env with
    | Some session => submit env ok session (u8array [byte]) keep (tell doing) "MOVE FAILED" s
    | None => offline s env
    end.

Definition hiloPlay (g : Guess) : Env -> bool -> UI -> Outcome :=
  hiloMove (guessByte g) ("GUESSING " +:+ guessName g +:+ "...").
Definition hiloCashout : Env -> bool -> UI -> Outcome := hiloMove 2 "CASHING OUT...".

(** ** Video poker *)

Definition held (c : Card) : bool := match c_isHeld c with Some h => h | None => false end.

(** [None] when there is no such card: reading [isHeld] of undefined throws. *)
Definition toggleHold (idx : Z) (s : UI) : option UI :=
  if negb (is_game "VIDEO_POKER" s) then Some s
  else
    card ← (if idx <? 0 then None else u_playerCards (common s) !! Z.to_nat idx);
    Some (with_playerCards
      (<[Z.to_nat idx := with_held (Some (negb (held card))) card]> (u_playerCards (common s))) s).

(** The loop over the cards, [i] the loop variable. *)
Fixpoint holdMask (i : Z) (cards : list Card) (acc : Z) : Z :=
  match cards with
  | [] => acc
  | c :: cards' => holdMask (i + 1) cards' (if held c then js_or acc (js_shl 1 i) else acc)
  end.

(** The draw does not look at [isPendingRef]. *)
Definition drawVideoPoker (env : Env) (ok : bool) (s : UI) : Outcome :=
  let payload := u8array [holdMask 0 (u_playerCards (common s)) 0] in
  match online env with
  | Some session => (tell (if ok then "DRAWING..." else "DRAW FAILED") s, env, Some (session, payload))
  | None => offline s env
  end.

(** ** Three Card Poker *)

Inductive PokerSideBet := FirstSide | SixCardSide | ProgressiveSide.

(** The stake of a toggle: the progressive bet costs one chip. *)
Definition toggleStake (k : PokerSideBet) (prevAmount : Z) (s : UI) : Z :=
  if 0 <? prevAmount then 0
  else match k with ProgressiveSide => 1 | _ => u_bet (common s) end.

Definition tcLabel (k : PokerSideBet) : string :=
  match k with FirstSide => "PAIRPLUS" | SixCardSide => "6-CARD" | ProgressiveSide => "PROG" end.

Definition tcSide (k : PokerSideBet) (t : ThreeCardUI) : Z :=
  match k with
  | FirstSide => threeCardPairPlusBet t | SixCardSide => threeCardSixCardBonusBet t
  | ProgressiveSide => threeCardProgressiveBet t
  end.

Definition set_tcSide (k : PokerSideBet) (a : Z) (s : UI) : UI :=
  let t := threeCard s in
  set_threeCard
    {| threeCardPairPlusBet := match k with FirstSide => a | _ => threeCardPairPlusBet t end;
       threeCardSixCardBonusBet := match k with SixCardSide => a | _ => threeCardSixCardBonusBet t end;
       threeCardProgressiveBet := match k with ProgressiveSide => a | _ => threeCardProgressiveBet t end;
       threeCardPlayerRank := threeCardPlayerRank t; threeCardDealerRank := threeCardDealerRank t;
       threeCardDealerQualifies := threeCardDealerQualifies t |} s.

Definition threeCardToggle (k : PokerSideBet) (chips : Z) (env : Env) (s : UI) : Outcome :=
  if negb (is_game "THREE_CARD" s) then quiet s env
  else
    let nextAmount := toggleStake k (tcSide k (threeCard s)) s in
    if isOnChain env && negb (in_stage "BETTING" s) then quiet (tell (tcLabel k +:+ " CLOSED") s) env
    else if (0 <? nextAmount) && (chips <? nextAmount) then quiet (tell "INSUFFICIENT FUNDS" s) env
    else quiet (tell (toggled (tcLabel k) nextAmount) (set_tcSide k nextAmount s)) env.

Definition threeCardMove (m : ThreeCardMove) (done : UI -> UI) (env : Env) (ok : bool) (s : UI) : Outcome :=
  if negb (is_game "THREE_CARD" s) || negb (in_stage "PLAYING" s) then quiet s env
  else
    match online env with
    | Some session =>
        if isPending env then quiet s env
        else submit env ok session (u8array [ThreeCardMove_code m]) keep done "MOVE FAILED" s
    | None => offline s env
    end.

Definition threeCardPlay : Env -> bool -> UI -> Outcome :=
  threeCardMove TC_Play (fun s => tell "PLAYING..." (add_wager (u_bet (common s)) s)).
Definition threeCardFold : Env -> bool -> UI -> Outcome := threeCardMove TC_Fold (tell "FOLDING...").

Definition tcSideBets (t : ThreeCardUI) : Z :=
  tcSide FirstSide t + tcSide SixCardSide t + tcSide ProgressiveSide t.

Definition threeCardDealPayload (t : ThreeCardUI) : Uint8Array :=
  u8array [7] ++ be_bytes 8 (tcSide FirstSide t) ++ be_bytes 8 (tcSide SixCardSide t)
  ++ be_bytes 8 (tcSide ProgressiveSide t).

Definition dealThreeCard (env : Env) (session : Z) (ok : bool) (s : UI) : option Outcome :=
  if isPending env then Some (quiet s env)
  else if in_stage "BETTING" s then
    let prepare s := add_wager (tcSideBets (threeCard s)) (tell "DEALING..." s) in
    Some (submit env ok session (threeCardDealPayload (threeCard s)) prepare keep "DEAL FAILED" s)
  else if includes "REVEAL" s then
    Some (submit env ok session (u8array [4]) (tell "REVEALING...") keep "REVEAL FAILED" s)
  else None.

(** ** Ultimate Texas Hold'em *)

Definition uthLabel (k : PokerSideBet) : string :=
  match k with FirstSide => "TRIPS" | SixCardSide => "6-CARD" | ProgressiveSide => "PROG" end.

Definition uthSide (k : PokerSideBet) (u : UthUI) : Z :=
  match k with
  | FirstSide => uthTripsBet u | SixCardSide => uthSixCardBonusBet u | ProgressiveSide => uthProgressiveBet u
  end.

Definition set_uthSide (k : PokerSideBet) (a : Z) (s : UI) : UI :=
  let u := uth s in
  set_uth
    {| u_communityCards := u_communityCards u;
       uthTripsBet := match k with FirstSide => a | _ => uthTripsBet u end;
       uthSixCardBonusBet := match k with SixCardSide => a | _ => uthSixCardBonusBet u end;
       uthProgressiveBet := match k with ProgressiveSide => a | _ => uthProgressiveBet u end;
       uthBonusCards := uthBonusCards u |} s.

(** The chips are not looked at, and without a session the stage is not either. *)
Definition uthToggle (k : PokerSideBet) (env : Env) (s : UI) : Outcome :=
  if negb (is_game "ULTIMATE_HOLDEM" s) then quiet s env
  else
    let nextAmount := toggleStake k (uthSide k (uth s)) s in
    let shown := tell (toggled (uthLabel k) nextAmount) (set_uthSide k nextAmount s) in
    match online env with
    | Some _ => if negb (in_stage "BETTING" s) then quiet (tell (uthLabel k +:+ " CLOSED") s) env else quiet shown env
    | None => quiet shown env
    end.

(** The guards of the three moves; [stageOk] is about the stage of the chain. *)
Definition uhGuarded (stageOk : bool) (send : Z -> Outcome) (env : Env) (s : UI) : Outcome :=
  if negb (is_game "ULTIMATE_HOLDEM" s) || negb (in_stage "PLAYING" s) then quiet s env
  else
    match online env with
    | Some session => if isPending env then quiet s env else if negb stageOk then quiet s env else send session
    | None => offline s env
    end.

Definition uhCheck (backendStage : Z) (env : Env) (ok : bool) (s : UI) : Outcome :=
  uhGuarded ((backendStage =? 1) || (backendStage =? 2))
    (fun session => submit env ok session (u8array [0]) keep (tell "CHECKING...") "MOVE FAILED" s) env s.

Definition uhValidStage (multiplier : Z) : Z :=
  if (multiplier =? 4) || (multiplier =? 3) then 1
  else if multiplier =? 2 then 2 else if multiplier =? 1 then 3 else -1.

Definition uhBetByte (multiplier : Z) : option Z :=
  if multiplier =? 4 then Some 1 else if multiplier =? 3 then Some 8
  else if multiplier =? 2 then Some 2 else if multiplier =? 1 then Some 3 else None.

(** A multiplier without a code leaves [isPendingRef] set. *)
Definition uhBet (multiplier backendStage : Z) (env : Env) (ok : bool) (s : UI) : Outcome :=
  uhGuarded (backendStage =? uhValidStage multiplier)
    (fun session =>
      match uhBetByte multiplier with
      | Some byte =>
          submit env ok session (u8array [byte]) keep
            (fun s' => tell ("BETTING " +:+ pretty multiplier +:+ "X...")
                         (add_wager (u_bet (common s) * multiplier) s'))
            "MOVE FAILED" s
      | None => (tell "INVALID BET" s, with_pending env true (pendingMoveCount env), None)
      end) env s.

Definition uhFold (backendStage : Z) (env : Env) (ok : bool) (s : UI) : Outcome :=
  uhGuarded (backendStage =? 3)
    (fun session => submit env ok session (u8array [4]) keep (tell "FOLDING...") "MOVE FAILED" s) env s.

Definition uthSideBets (u : UthUI) : Z := uthSide FirstSide u + uthSide SixCardSide u + uthSide ProgressiveSide u.

Definition uthDealPayload (u : UthUI) : Uint8Array :=
  u8array [11] ++ be_bytes 8 (uthSide FirstSide u) ++ be_bytes 8 (uthSide SixCardSide u)
  ++ be_bytes 8 (uthSide ProgressiveSide u).

(** The side bets replace the wager of the session. *)
Definition dealUth (env : Env) (session : Z) (ok : bool) (s : UI) : option Outcome :=
  if isPending env then Some (quiet s env)
  else if in_stage "BETTING" s then
    let prepare s := set_wager (uthSideBets (uth s)) (tell "DEALING..." s) in
    Some (submit env ok session (uthDealPayload (uth s)) prepare keep "DEAL FAILED" s)
  else if includes "REVEAL" s then
    Some (submit env ok session (u8array [7]) (tell "REVEALING...") keep "REVEAL FAILED" s)
  else None.

(** ** Baccarat

    The slip is the one of [TableSlips]; its wager is the wager of the session. *)

Definition baccaratToPlace (b : BaccaratSlip) : list (Z * Number) :=
  getBaccaratBetsToPlace (bs_selection b)
    ((fun p : BaccaratBetName * Z => {| wb_type := p.1; wb_amount := Finite (QArith_base.inject_Z p.2) |})
       <$> bs_bets b)
    (Finite (QArith_base.inject_Z (bs_bet b))).

(** [betsToPlace.reduce((s, b) => s + b.amount, 0)]. *)
Definition totalToPlace (bets : list (Z * Number)) : Z := foldl (fun s b => s + amountValue b.2) 0 bets.

Definition dealtSlip (b : BaccaratSlip) (bets : list (Z * Number)) : BaccaratSlip :=
  {| bs_bets := bs_bets b; bs_undoStack := []; bs_lastRoundBets := bs_bets b;
     bs_selection := bs_selection b; bs_bet := bs_bet b; bs_sessionWager := totalToPlace bets;
     bs_betsRef := bs_betsRef b; bs_selectionRef := bs_selectionRef b |}.

Definition dealBaccarat (env : Env) (session : Z) (ok : bool) (s : UI) (b : BaccaratSlip)
    : option (Outcome * BaccaratSlip) :=
  if in_stage "PLAYING" s && (len (u_playerCards (common s)) =? 0) then
    if isPending env then Some (quiet s env, b)
    else
      let betsToPlace := baccaratToPlace b in
      let shown := tell "DEALING..." (set_wager (totalToPlace betsToPlace) s) in
      let failed := tell "DEAL FAILED" shown in
      Some
        (match serializeBaccaratAtomicBatch betsToPlace with
         | Throw _ => (failed, with_pending env false 0, None)
         | Ok payload =>
             if ok then (shown, with_pending env true 1, Some (session, payload))
             else (failed, with_pending env false 0, Some (session, payload))
         end, dealtSlip b betsToPlace)
  else None.

(** ** The deal button

    What the deal does when no game took the press: nothing, a new session, a
    look at the session on the chain, or the message that there is no
    connection, which costs the modifiers that are active. *)

Definition dealGame (env : Env) (ok : bool) (s : UI) : option Outcome :=
  session ← online env;
  if is_game "CASINO_WAR" s then dealCasinoWar env session ok s
  else if is_game "BLACKJACK" s then dealBlackjack env session ok s
  else if is_game "THREE_CARD" s then dealThreeCard env session ok s
  else if is_game "ULTIMATE_HOLDEM" s then dealUth env session ok s
  else None.

Record Modifiers := { shields : Z; doubles : Z; activeShield : bool; activeDouble : bool }.

Inductive DealRest := Waits | Starts | Resyncs | Spends (m : Modifiers).

Definition dealRest (chips : Z) (m : Modifiers) (env : Env) (s : UI) : UI * DealRest :=
  if in_stage "PLAYING" s then (s, Waits)
  else if chips <? u_bet (common s) then (tell "INSUFFICIENT FUNDS" s, Waits)
  else if isOnChain env && hasService env then
    match liveSession env with
    | None => (s, Starts)
    | Some _ => (s, Resyncs)
    end
  else
    (tell "OFFLINE - CHECK CONNECTION" s,
     Spends {| shields := if activeShield m then shields m - 1 else shields m;
               doubles := if activeDouble m then doubles m - 1 else doubles m;
               activeShield := activeShield m; activeDouble := activeDouble m |}).
