(* ===== verification/CardTablesCorrect.v ===== *)
(** * Correctness of the actions of the card games

    What an action sends is what [packages/protocol] would encode; an action
    sends one move at a time; what the side bets and the wager do. *)

From S2P Require Import Prelude JsNum Bytes Constants ProtocolEncode WebBets WebState WebStateCorrect TableSlips CardTables.

(** ** The actions of the player *)

Inductive Action :=
| A_hit | A_stand | A_double | A_split (chips : Z) | A_side (k : BlackjackSideBet) (chips : Z) | A_insurance (take : bool)
| A_tie (chips : Z) | A_goToWar | A_warSurrender
| A_guess (g : Guess) | A_cashout
| A_draw
| A_tcSide (k : PokerSideBet) (chips : Z) | A_tcPlay | A_tcFold
| A_uthSide (k : PokerSideBet) | A_uhCheck | A_uhBet (m : UltimateHoldemBetMultiplier) | A_uhFold
| A_deal.

Definition multiplier (m : UltimateHoldemBetMultiplier) : Z :=
  match m with Mult1 => 1 | Mult2 => 2 | Mult3 => 3 | Mult4 => 4 end.

(** [stage] is the stage of Ultimate Hold'em on the chain.  A press of the deal
    button that no game takes changes nothing here. *)
Definition run (a : Action) (stage : Z) (env : Env) (ok : bool) (s : UI) : Outcome :=
  match a with
  | A_hit => bjHit env ok s
  | A_stand => bjStand env ok s
  | A_double => bjDouble env ok s
  | A_split chips => bjSplit chips env ok s
  | A_side k chips => toggleSideBet k chips env s
  | A_insurance take => bjInsurance take env s
  | A_tie chips => casinoWarToggleTieBet chips env ok s
  | A_goToWar => casinoWarGoToWar env ok s
  | A_warSurrender => casinoWarSurrender env ok s
  | A_guess g => hiloPlay g env ok s
  | A_cashout => hiloCashout env ok s
  | A_draw => drawVideoPoker env ok s
  | A_tcSide k chips => threeCardToggle k chips env s
  | A_tcPlay => threeCardPlay env ok s
  | A_tcFold => threeCardFold env ok s
  | A_uthSide k => uthToggle k env s
  | A_uhCheck => uhCheck stage env ok s
  | A_uhBet m => uhBet (multiplier m) stage env ok s
  | A_uhFold => uhFold stage env ok s
  | A_deal => default (quiet s env) (dealGame env ok s)
  end.

(** ** One move at a time *)

(** An outcome either sends nothing and leaves the refs, or sends one move to
    the live session, no move being pending, and the ref says whether it was
    taken. *)
Definition disciplined (env : Env) (ok : bool) (o : Outcome) : Prop :=
  match o.2 with
  | None => o.1.2 = env
  | Some (session, _) =>
      online env = Some session /\ isPending env = false
      /\ o.1.2 = with_pending env ok (pendingMoveCount env)
  end.

Lemma disciplined_quiet env ok s : disciplined env ok (quiet s env).
Proof. done. Qed.
Lemma disciplined_offline env ok s : disciplined env ok (offline s env).
Proof. done. Qed.

Lemma disciplined_submit env ok session payload prepare done failed s :
  online env = Some session -> isPending env = false ->
  disciplined env ok (submit env ok session payload prepare done failed s).
Proof. intros H P. by destruct ok. Qed.

Lemma not_pending env : isPending env = false -> with_pending env false (pendingMoveCount env) = env.
Proof. by destruct env as [[]]. Qed.

#[local] Create HintDb actions.
#[local] Hint Resolve disciplined_quiet disciplined_offline disciplined_submit : actions.

(** The guards of an action, one after the other. *)
Ltac guards :=
  repeat match goal with
  | |- context [if ?b then _ else _] => destruct b eqn:?
  | |- context [match online ?e with _ => _ end] => destruct (online e) eqn:?
  end.

Lemma uhBetByte_multiplier m : exists byte, uhBetByte (multiplier m) = Some byte.
Proof. destruct m; by eexists. Qed.

Lemma disciplined_deal env ok s : disciplined env ok (default (quiet s env) (dealGame env ok s)).
Proof.
  unfold dealGame. destruct (online env) as [session|] eqn:E; cbn; [|done].
  unfold dealCasinoWar, dealBlackjack, dealThreeCard, dealUth.
  guards; cbn; auto with actions.
Qed.

Lemma disciplined_tie chips env ok s : disciplined env ok (casinoWarToggleTieBet chips env ok s).
Proof.
  unfold casinoWarToggleTieBet. cbv zeta. guards; auto with actions; try done.
  all: unfold disciplined; cbn [fst snd]; by apply not_pending.
Qed.

Lemma run_disciplined a stage env ok s : a <> A_draw -> disciplined env ok (run a stage env ok s).
Proof.
  intros Ha. destruct a; try done; cbn [run];
    try apply disciplined_deal; try apply disciplined_tie.
  all: unfold bjHit, bjStand, bjDouble, bjAction, bjSplit, toggleSideBet, bjInsurance, casinoWarGoToWar,
    casinoWarSurrender, warAction, hiloPlay, hiloCashout, hiloMove, threeCardToggle, threeCardPlay,
    threeCardFold, threeCardMove, uthToggle, uhCheck, uhBet, uhFold, uhGuarded; cbv zeta.
  all: try (destruct (uhBetByte_multiplier m) as [byte ->]).
  all: guards; auto with actions; try done.
Qed.

(** ** The moves in the words of the protocol package *)

Inductive Message := M_blackjack (move : BlackjackMoveAction) | M_game (payload : GameActionPayload).

Definition encodeMessage (m : Message) : result Uint8Array :=
  match m with
  | M_blackjack move => Ok (encodeBlackjackMove move)
  | M_game payload => encodeGameActionPayload payload
  end.

Definition guessed (g : Guess) : HiLoAction :=
  match g with HIGHER => Hl_higher | LOWER => Hl_lower | SAME => Hl_same end.

(** The tie bet that toggling sets. *)
Definition nextTie (s : UI) : Z := if 0 <? casinoWarTieBet (casinoWar s) then 0 else u_bet (common s).

Definition dealOptions (a b c : Z) : option DealOptions :=
  if (0 <? a) || (0 <? b) || (0 <? c)
  then Some {| do_first := Some a; do_sixCard := Some b; do_progressive := Some c |}
  else None.

(** The deal button, by game and stage.  The package has no encoder for
    blackjack's deal with side bets and its reveal, and it deals without side
    bets where the website sends side bets of zero. *)
Definition dealMessage (s : UI) : option Message :=
  if is_game "CASINO_WAR" s then Some (M_game (GA_casinowar Cw_play))
  else if is_game "BLACKJACK" s then
    if in_stage "BETTING" s && negb (0 <? currentSideBets (blackjack s)) then Some (M_blackjack Bj_deal) else None
  else if is_game "THREE_CARD" s then
    if in_stage "BETTING" s then
      let t := threeCard s in
      o ← dealOptions (threeCardPairPlusBet t) (threeCardSixCardBonusBet t) (threeCardProgressiveBet t);
      Some (M_game (GA_threecard_deal o))
    else Some (M_game (GA_threecard Tc_reveal))
  else if in_stage "BETTING" s then
    let u := uth s in
    o ← dealOptions (uthTripsBet u) (uthSixCardBonusBet u) (uthProgressiveBet u);
    Some (M_game (GA_ultimate_deal o))
  else Some (M_game (GA_ultimate Uh_reveal)).

Definition messageOf (a : Action) (s : UI) : option Message :=
  match a with
  | A_hit => Some (M_blackjack Bj_hit)
  | A_stand => Some (M_blackjack Bj_stand)
  | A_double => Some (M_blackjack Bj_double)
  | A_split _ => Some (M_blackjack Bj_split)
  | A_tie _ => Some (M_game (GA_casinowar_tie (nextTie s)))
  | A_goToWar => Some (M_game (GA_casinowar Cw_war))
  | A_warSurrender => Some (M_game (GA_casinowar Cw_surrender))
  | A_guess g => Some (M_game (GA_hilo (guessed g)))
  | A_cashout => Some (M_game (GA_hilo Hl_cashout))
  | A_draw => Some (M_game (GA_videopoker (held <$> u_playerCards (common s))))
  | A_tcPlay => Some (M_game (GA_threecard Tc_play))
  | A_tcFold => Some (M_game (GA_threecard Tc_fold))
  | A_uhCheck => Some (M_game (GA_ultimate Uh_check))
  | A_uhBet m => Some (M_game (GA_ultimate_bet m))
  | A_uhFold => Some (M_game (GA_ultimate Uh_fold))
  | A_deal => dealMessage s
  | A_side _ _ | A_insurance _ | A_tcSide _ _ | A_uthSide _ => None
  end.

(** What a payload of the action has to be. *)
Definition agrees (a : Action) (s : UI) (payload : Uint8Array) : Prop :=
  match messageOf a s with
  | Some m => encodeMessage m = Ok payload
  | None => a = A_deal
  end.

Definition sends_agreed (a : Action) (s : UI) (o : Outcome) : Prop :=
  match o.2 with Some (_, payload) => agrees a s payload | None => True end.

Lemma sends_submit a s env ok session payload prepare done failed s' :
  agrees a s payload -> sends_agreed a s (submit env ok session payload prepare done failed s').
Proof. intros H. by destruct ok. Qed.

Lemma sends_quiet a s s' env : sends_agreed a s (quiet s' env).
Proof. done. Qed.
Lemma sends_offline a s s' env : sends_agreed a s (offline s' env).
Proof. done. Qed.

#[local] Hint Resolve sends_submit sends_quiet sends_offline : actions.

Lemma holdMask_bits cards : forall i acc,
  i + len cards <= 5 -> holdMask i cards acc = holdBits i (held <$> cards) acc.
Proof.
  induction cards as [|c cards IH]; intros i acc H; [done|].
  rewrite len_cons in H. cbn. pose proof (len_nonneg cards).
  rewrite (proj2 (Z.leb_gt _ _)) by lia. apply IH. lia.
Qed.

Lemma threeCardDeal_layout a b c :
  (0 <? a) || (0 <? b) || (0 <? c) = true ->
  encodeThreeCardDeal {| do_first := Some a; do_sixCard := Some b; do_progressive := Some c |}
  = Ok (u8array [7] ++ be_bytes 8 a ++ be_bytes 8 b ++ be_bytes 8 c).
Proof.
  intros H. unfold encodeThreeCardDeal, default. cbn [do_first do_sixCard do_progressive from_option]. unfold id.
  by rewrite H.
Qed.

Lemma ultimateDeal_layout a b c :
  (0 <? a) || (0 <? b) || (0 <? c) = true ->
  encodeUltimateHoldemDeal {| do_first := Some a; do_sixCard := Some b; do_progressive := Some c |}
  = Ok (u8array [11] ++ be_bytes 8 a ++ be_bytes 8 b ++ be_bytes 8 c).
Proof.
  intros H. unfold encodeUltimateHoldemDeal, default. cbn [do_first do_sixCard do_progressive from_option]. unfold id.
  by rewrite H.
Qed.

(** The cases of a deal: the bets of the betting stage, or the reveal. *)
Ltac deal_cases s :=
  destruct (isPending _); [done|];
  destruct (in_stage "BETTING" s) eqn:S; [|destruct (includes _ s); [|done]]; apply sends_submit.

Lemma sends_deal env ok s :
  sends_agreed A_deal s (default (quiet s env) (dealGame env ok s)).
Proof.
  unfold dealGame. destruct (online env) as [session|]; cbn; [|done].
  destruct (is_game "CASINO_WAR" s) eqn:W.
  { unfold dealCasinoWar. guards; cbn; auto with actions. apply sends_submit.
    unfold agrees, messageOf, dealMessage. by rewrite W. }
  destruct (is_game "BLACKJACK" s) eqn:B.
  { unfold dealBlackjack. deal_cases s; unfold agrees, messageOf, dealMessage; rewrite W, B, S; [|done].
    unfold blackjackDealPayload. by destruct (0 <? currentSideBets _). }
  destruct (is_game "THREE_CARD" s) eqn:T.
  { unfold dealThreeCard. deal_cases s; unfold agrees, messageOf, dealMessage; rewrite W, B, T, S; [|done].
    unfold dealOptions. destruct (_ || _) eqn:E; [|done]. by apply threeCardDeal_layout. }
  destruct (is_game "ULTIMATE_HOLDEM" s) eqn:U; [|done].
  unfold dealUth. deal_cases s; unfold agrees, messageOf, dealMessage; rewrite W, B, T, S; [|done].
  unfold dealOptions. destruct (_ || _) eqn:E; [|done]. by apply ultimateDeal_layout.
Qed.

Lemma sends_tie chips env ok s : sends_agreed (A_tie chips) s (casinoWarToggleTieBet chips env ok s).
Proof.
  unfold casinoWarToggleTieBet. fold (nextTie s). cbv zeta.
  destruct (negb _); [done|]. destruct (negb _); [done|]. destruct (isPending env); [done|].
  destruct (_ && _); [done|]. destruct (online env); [|done]. by destruct ok.
Qed.

Lemma sends_draw env ok s :
  len (u_playerCards (common s)) <= 5 -> sends_agreed A_draw s (drawVideoPoker env ok s).
Proof.
  intros H. unfold drawVideoPoker. destruct (online env); [|done].
  unfold sends_agreed, agrees, messageOf. cbn [snd]. unfold encodeMessage, encodeGameActionPayload, encodeVideoPokerHold.
  by rewrite holdMask_bits by lia.
Qed.

Lemma sends_run a stage env ok s :
  len (u_playerCards (common s)) <= 5 -> sends_agreed a s (run a stage env ok s).
Proof.
  intros H5. destruct a; cbn [run]; try apply sends_deal; try apply sends_tie; try by apply sends_draw.
  all: unfold bjHit, bjStand, bjDouble, bjAction, bjSplit, toggleSideBet, bjInsurance,
    casinoWarGoToWar, casinoWarSurrender, warAction, hiloPlay, hiloCashout, hiloMove,
    threeCardToggle, threeCardPlay, threeCardFold, threeCardMove, uthToggle, uhCheck, uhBet, uhFold,
    uhGuarded; cbv zeta.
  all: try (destruct m; cbn [multiplier uhBetByte Z.eqb Pos.eqb]).
  all: try destruct g.
  all: guards; auto with actions; by apply sends_submit.
Qed.

(** ** Side bets and the wager *)

(** A press that fails [n] times and then goes through. *)
Fixpoint retried (n : nat) (env : Env) (s : UI) : option Outcome :=
  match n with
  | O => dealGame env true s
  | S n' => '(s', env', _) ← dealGame env false s; retried n' env' s'
  end.

(** The side bets the deal adds to the wager. *)
Definition dealtSideBets (s : UI) : Z :=
  if is_game "BLACKJACK" s then currentSideBets (blackjack s) else tcSideBets (threeCard s).

(** The part of the state a press of the deal button keeps. *)
Definition same_bets (s s' : UI) : Prop :=
  u_type (common s') = u_type (common s) /\ u_stage (common s') = u_stage (common s)
  /\ blackjack s' = blackjack s /\ threeCard s' = threeCard s.

(** Blackjack or Three Card before the deal, with side bets, ready to send. *)
Definition dealable (env : Env) (s : UI) : Prop :=
  online env <> None /\ isPending env = false /\ in_stage "BETTING" s = true
  /\ is_game "BLACKJACK" s || is_game "THREE_CARD" s = true /\ 0 <= dealtSideBets s.

Lemma not_war s : is_game "BLACKJACK" s || is_game "THREE_CARD" s = true -> is_game "CASINO_WAR" s = false.
Proof.
  unfold is_game. intros [H|H]%orb_prop; apply bool_decide_eq_true in H; apply bool_decide_eq_false; congruence.
Qed.

Lemma dealGame_step env ok s :
  dealable env s ->
  exists s' env' sent, dealGame env ok s = Some (s', env', sent) /\ same_bets s s'
    /\ u_sessionWager (common s') = u_sessionWager (common s) + dealtSideBets s
    /\ (ok = false -> env' = env).
Proof.
  intros (Ho & Hp & Hb & Hg & Hs). unfold dealGame. destruct (online env) as [session|]; [|done].
  cbn [mbind option_bind]. rewrite (not_war s Hg). unfold dealtSideBets in *.
  destruct (is_game "BLACKJACK" s).
  - unfold dealBlackjack. rewrite Hp, Hb. destruct (0 <? currentSideBets (blackjack s)) eqn:E; destruct ok;
      do 3 eexists; (split; [reflexivity|]); (split; [done|]); cbn; bprop; split; try done; try lia;
      intros; try done; by apply not_pending.
  - cbn [orb] in Hg. rewrite Hg. unfold dealThreeCard. rewrite Hp, Hb. destruct ok;
      do 3 eexists; (split; [reflexivity|]); (split; [done|]); cbn; split; try done;
      intros; try done; by apply not_pending.
Qed.

Lemma same_bets_dealable env s s' : same_bets s s' -> dealable env s -> dealable env s' /\ dealtSideBets s' = dealtSideBets s.
Proof.
  intros (Ht & Hst & Hbj & Htc). unfold dealable, dealtSideBets, is_game, in_stage. by rewrite Ht, Hst, Hbj, Htc.
Qed.

(** What the player has on the table of blackjack. *)
Definition tabled (s : UI) : Z := u_bet (common s) + currentSideBets (blackjack s).

Definition toggles (chips : Z) (env : Env) (ks : list BlackjackSideBet) (s : UI) : UI :=
  foldl (fun s k => (toggleSideBet k chips env s).1.1) s ks.

Lemma currentSideBets_set k a s :
  currentSideBets (blackjack (set_sideBet k a s)) = currentSideBets (blackjack s) - sideBet k (blackjack s) + a.
Proof. unfold currentSideBets. destruct k; cbn; lia. Qed.

Lemma tabled_toggle k chips env s :
  tabled s <= chips -> tabled (toggleSideBet k chips env s).1.1 <= chips.
Proof.
  intros H. unfold toggleSideBet. destruct (negb (is_game _ s)); [done|]. cbv zeta.
  destruct (negb (in_stage _ s)); [done|].
  destruct (_ <? _) eqn:E; [done|]. bprop. unfold tabled in *.
  set (next := if 0 <? _ then _ else _) in *.
  change (blackjack (quiet (tell ?m (set_sideBet k next s)) env).1.1) with (blackjack (set_sideBet k next s)).
  change (u_bet (common (quiet (tell ?m (set_sideBet k next s)) env).1.1)) with (u_bet (common s)).
  rewrite currentSideBets_set. lia.
Qed.

(** ** Theorems *)

(** A move of a card game goes to the live session with no other move
    pending, and from then on one is pending exactly if the node took it; an
    action that sends nothing leaves the refs as they were.  The draw of video
    poker, which does not look at the ref, is the one exception. *)
Theorem actions_disciplined a stage env ok s :
  a <> A_draw ->
  match run a stage env ok s with
  | (_, env', None) => env' = env
  | (_, env', Some (session, _)) =>
      liveSession env = Some session /\ isPending env = false
      /\ env' = with_pending env ok (pendingMoveCount env)
  end.
Proof.
  intros Ha. pose proof (run_disciplined a stage env ok s Ha) as H. unfold disciplined in H.
  destruct (run a stage env ok s) as [[s' env'] [[session p]|]]; cbn [fst snd] in H; [|done].
  destruct H as (Ho & Hp & He). split; [|done].
  unfold online in Ho. by destruct (_ && _).
Qed.

(** What the website sends for a card game is what [packages/protocol]
    encodes for the same action: the guesses and the cash-out of HiLo, the tie
    bet and the war of Casino War, the moves of blackjack, Three Card and
    Ultimate Hold'em with their side bets, and the holds of video poker.  Only
    the deal button sends a payload the package has no encoder for. *)
Theorem web_moves_agree a stage env ok s s' env' session payload :
  len (u_playerCards (common s)) <= 5 ->
  run a stage env ok s = (s', env', Some (session, payload)) ->
  match messageOf a s with
  | Some m => encodeMessage m = Ok payload
  | None => a = A_deal
  end.
Proof.
  intros H5 Hr. pose proof (sends_run a stage env ok s H5) as H.
  unfold sends_agreed in H. by rewrite Hr in H.
Qed.

(** A press of the deal button that fails has counted the side bets already,
    and the next press counts them again: after [n] failures and a success the
    wager of blackjack and Three Card has grown [n + 1] times by the side bets
    of the one deal.  (The state of a blackjack table the chain sends replaces
    the wager.) *)
Theorem failed_deal_recounts n env s :
  dealable env s ->
  exists s' env' sent, retried n env s = Some (s', env', sent)
    /\ u_sessionWager (common s') = u_sessionWager (common s) + (Z.of_nat n + 1) * dealtSideBets s.
Proof.
  revert s. induction n as [|n IH]; intros s Hd.
  - destruct (dealGame_step env true s Hd) as (s' & env' & sent & E & _ & Hw & _).
    exists s', env', sent. split; [done|]. rewrite Hw. lia.
  - destruct (dealGame_step env false s Hd) as (s1 & env1 & sent1 & E & Hb & Hw & He).
    rewrite (He eq_refl) in E. destruct (same_bets_dealable env s s1 Hb Hd) as [Hd1 Hs1].
    destruct (IH s1 Hd1) as (s' & env' & sent & E' & Hw').
    exists s', env', sent. cbn [retried]. rewrite E. split; [done|]. rewrite Hw', Hw, Hs1. lia.
Qed.

(** Toggling side bets of blackjack never puts more on the table than the
    player's chips, main bet included. *)
Theorem blackjack_side_bets_covered chips env ks s :
  tabled s <= chips -> tabled (toggles chips env ks s) <= chips.
Proof.
  revert s. induction ks as [|k ks IH]; intros s H; [done|].
  apply IH. by apply tabled_toggle.
Qed.

(** ** Concrete runs *)

Definition tableUI (game : string) : UI :=
  show_table game [] [] "BETTING" "" (set_threeCard
    {| threeCardPairPlusBet := 20; threeCardSixCardBonusBet := 0; threeCardProgressiveBet := 1;
       threeCardPlayerRank := None; threeCardDealerRank := None; threeCardDealerQualifies := None |}
    (set_sideBet SideBustIt 30 startUI)).

Lemma actions_disciplined_witness :
  match run A_deal 0 onlineEnv true (tableUI "THREE_CARD") with
  | (_, env', None) => env' = onlineEnv
  | (_, env', Some (session, _)) =>
      liveSession onlineEnv = Some session /\ isPending onlineEnv = false
      /\ env' = with_pending onlineEnv true (pendingMoveCount onlineEnv)
  end.
Proof. by apply (actions_disciplined A_deal 0 onlineEnv true (tableUI "THREE_CARD")). Defined.

Lemma web_moves_agree_witness :
  exists payload,
    (run A_deal 0 onlineEnv true (tableUI "THREE_CARD")).2 = Some (7, payload)
    /\ encodeGameActionPayload
         (GA_threecard_deal {| do_first := Some 20; do_sixCard := Some 0; do_progressive := Some 1 |})
       = Ok payload.
Proof.
  destruct (run A_deal 0 onlineEnv true (tableUI "THREE_CARD")) as [[s' env'] [[session p]|]] eqn:E;
    [|by vm_compute in E].
  exists p. split.
  - vm_compute in E. injection E as _ _ <- <-. done.
  - exact (web_moves_agree A_deal 0 onlineEnv true (tableUI "THREE_CARD") s' env' session p ltac:(done) E).
Defined.

Lemma failed_deal_recounts_witness :
  exists s' env' sent,
    retried 1 onlineEnv (tableUI "BLACKJACK") = Some (s', env', sent) /\ u_sessionWager (common s') = 60.
Proof.
  destruct (failed_deal_recounts 1 onlineEnv (tableUI "BLACKJACK")) as (s' & env' & sent & E & H).
  - by repeat split.
  - exists s', env', sent. split; [exact E|]. rewrite H. reflexivity.
Defined.

Lemma blackjack_side_bets_covered_witness :
  let s' := toggles 150 onlineEnv [Side21Plus3; SideLuckyLadies] (tableUI "BLACKJACK") in
  tabled s' <= 150 /\ tabled s' = 130.
Proof.
  split; [|reflexivity].
  apply (blackjack_side_bets_covered 150 onlineEnv [Side21Plus3; SideLuckyLadies] (tableUI "BLACKJACK")). done.
Defined.

(** The buttons of a war look for WAR in the message: when the move fails,
    the message is MOVE FAILED, and until a state of the chain arrives neither
    going to war nor surrendering nor dealing sends anything again. *)
Theorem failed_war_sticks (retry : Action) a stage env s s' env' sent :
  In a [A_goToWar; A_warSurrender] -> In retry [A_goToWar; A_warSurrender; A_deal] ->
  run a stage env false s = (s', env', Some sent) ->
  forall ok, (run retry stage env' ok s').2 = None.
Proof.
  intros Ha Hr E ok.
  assert (H : is_game "CASINO_WAR" s' = true /\ in_stage "PLAYING" s' = true
              /\ u_message (common s') = "MOVE FAILED").
  { destruct Ha as [<-|[<-|[]]]; cbn [run] in E; unfold casinoWarGoToWar, casinoWarSurrender, warAction in E.
    all: destruct (_ || _) eqn:G in E; [done|]; apply orb_false_elim in G as [G _];
      apply orb_false_elim in G as [G1 G2]; destruct (online env); [|done];
      destruct (isPending env); [done|]; injection E as <- _ _.
    all: by apply negb_false_iff in G1, G2. }
  destruct H as (Hg & Hp & Hm).
  assert (Hw : includes "WAR" s' = false) by (unfold includes; by rewrite Hm).
  destruct Hr as [<-|[<-|[<-|[]]]]; cbn [run].
  1, 2: unfold casinoWarGoToWar, casinoWarSurrender, warAction; by rewrite Hg, Hp, Hw.
  unfold dealGame. destruct (online env'); [|done]. cbn [mbind option_bind]. rewrite Hg.
  unfold dealCasinoWar. rewrite Hm, Hp.
  assert (in_stage "BETTING" s' = false) as ->; [|done].
  unfold in_stage in *. apply bool_decide_eq_true in Hp. apply bool_decide_eq_false. by rewrite Hp.
Qed.

Lemma failed_war_sticks_witness :
  let s := tell "WAR! GO TO WAR (W) / SURRENDER (S)" (show_table "CASINO_WAR" [] [] "PLAYING" "" startUI) in
  let '(s', env', _) := run A_goToWar 0 onlineEnv false s in
  (run A_goToWar 0 onlineEnv true s).2 <> None /\ (run A_goToWar 0 env' true s').2 = None.
Proof.
  intros s. destruct (run A_goToWar 0 onlineEnv false s) as [[s' env'] [sent|]] eqn:E; [|by vm_compute in E].
  split; [by vm_compute|].
  exact (failed_war_sticks A_goToWar A_goToWar 0 onlineEnv s s' env' sent
    (or_introl eq_refl) (or_introl eq_refl) E true).
Defined.
