(* ===== verification/Calendar.v ===== *)
(** * Keys of days, weeks and seasons

    [services/ops/src/utils.ts]: the normal form of a public key and the keys
    under which the ops service files events and boards, with the part of
    JavaScript's [Date] they use.  A time is a number of milliseconds since
    1970, without fractions; an invalid date is [None]. *)

From stdpp Require Import pretty.
From S2P Require Import Prelude.

(** ** Text *)

(** The white space of [trim] in ASCII. *)
Definition is_space (c : Ascii.ascii) : bool :=
  let n := Ascii.nat_of_ascii c in ((n =? 32) || (9 <=? n) && (n <=? 13))%nat.

Fixpoint trimStart (s : string) : string :=
  match s with
  | String c s' => if is_space c then trimStart s' else s
  | EmptyString => EmptyString
  end.

Fixpoint trimEnd (s : string) : string :=
  match s with
  | String c s' =>
      match trimEnd s' with
      | EmptyString => if is_space c then EmptyString else String c EmptyString
      | r => String c r
      end
  | EmptyString => EmptyString
  end.

Definition trim (s : string) : string := trimEnd (trimStart s).

Definition ascii_lower (c : Ascii.ascii) : Ascii.ascii :=
  let n := Ascii.nat_of_ascii c in
  if ((65 <=? n) && (n <=? 90))%nat then Ascii.ascii_of_nat (n + 32) else c.

Fixpoint to_lower (s : string) : string :=
  match s with
  | EmptyString => EmptyString
  | String c s' => String (ascii_lower c) (to_lower s')
  end.

(** [.replace(/^0x/, '')] *)
Definition strip0x (s : string) : string :=
  if String.prefix "0x" s then String.substring 2 (String.length s - 2) s else s.

Definition normalizeHex (value : string) : string := strip0x (to_lower (trim value)).

(** [String(n).padStart(2, '0')] *)
Definition pad2 (n : Z) : string :=
  let s := pretty n in if (String.length s <? 2)%nat then "0" +:+ s else s.

(** ** Dates *)

Definition msPerDay : Z := 86400000.
Definition Day (t : Z) : Z := t / msPerDay.

(** The number of the first day of a year. *)
Definition DayFromYear (y : Z) : Z :=
  365 * (y - 1970) + (y - 1969) / 4 - (y - 1901) / 100 + (y - 1601) / 400.

(** The year of a day: an estimate, corrected by one. *)
Definition YearFromDay (d : Z) : Z :=
  let y := 1970 + (400 * d) / 146097 in
  if DayFromYear (y + 1) <=? d then y + 1 else if d <? DayFromYear y then y - 1 else y.

Definition leapDay (y : Z) : Z := DayFromYear (y + 1) - DayFromYear y - 365.

Definition monthLengths (y : Z) : list Z := [31; 28 + leapDay y; 31; 30; 31; 30; 31; 31; 30; 31; 30; 31].

(** Month and date of a day of the year. *)
Fixpoint monthAndDate (lengths : list Z) (month day : Z) : Z * Z :=
  match lengths with
  | [] => (month, day + 1)
  | n :: lengths' => if day <? n then (month, day + 1) else monthAndDate lengths' (month + 1) (day - n)
  end.

Definition civil (d : Z) : Z * Z :=
  monthAndDate (monthLengths (YearFromDay d)) 0 (d - DayFromYear (YearFromDay d)).

Definition getUTCFullYear (t : Z) : Z := YearFromDay (Day t).
Definition getUTCMonth (t : Z) : Z := (civil (Day t)).1.
Definition getUTCDate (t : Z) : Z := (civil (Day t)).2.
Definition getUTCDay (t : Z) : Z := (Day t + 4) mod 7.

(** [new Date(t)] *)
Definition newDate (t : Z) : option Z := if Z.abs t <=? 8640000000000000 then Some t else None.

Definition MakeDay (year month date : Z) : Z :=
  DayFromYear year + foldr Z.add 0 (take (Z.to_nat month) (monthLengths year)) + date - 1.

(** [new Date(Date.UTC(year, month, date))]: the years 0 to 99 mean 1900 to 1999. *)
Definition dateUTC (year month date : Z) : option Z :=
  let yr := if (0 <=? year) && (year <=? 99) then 1900 + year else year in
  newDate (MakeDay yr month date * msPerDay).

Definition setUTCDate (t date : Z) : option Z :=
  newDate (MakeDay (getUTCFullYear t) (getUTCMonth t) date * msPerDay + t mod msPerDay).

(** ** Keys *)

Definition formatDayKey (ts : Z) : string :=
  match newDate ts with
  | None => "NaN-NaN-NaN"
  | Some t => pretty (getUTCFullYear t) +:+ "-" +:+ pad2 (getUTCMonth t + 1) +:+ "-" +:+ pad2 (getUTCDate t)
  end.

Definition formatSeasonKey (ts : Z) : string :=
  match newDate ts with
  | None => "NaN-NaN"
  | Some t => pretty (getUTCFullYear t) +:+ "-" +:+ pad2 (getUTCMonth t + 1)
  end.

Definition thursdayOf (now : Z) : option Z :=
  let day := (getUTCDay now + 6) mod 7 in
  thursday ← dateUTC (getUTCFullYear now) (getUTCMonth now) (getUTCDate now);
  setUTCDate thursday (getUTCDate now - day + 3).

(** [Math.ceil(((thursday - yearStart) / 86400000 + 1) / 7)] *)
Definition weekNumber (thursday yearStart : Z) : Z := ((thursday - yearStart) / msPerDay + 1 + 6) / 7.

Definition formatWeekKey (ts : Z) : string :=
  match
    now ← newDate ts;
    thursday ← thursdayOf now;
    yearStart ← dateUTC (getUTCFullYear thursday) 0 1;
    Some (thursday, yearStart)
  with
  | None => "NaN-WNaN"
  | Some (thursday, yearStart) =>
      pretty (getUTCFullYear thursday) +:+ "-W" +:+ pad2 (weekNumber thursday yearStart)
  end.

(** ** The calendar *)

Lemma YearFromDay_spec d : DayFromYear (YearFromDay d) <= d < DayFromYear (YearFromDay d + 1).
Proof.
  unfold YearFromDay. set (y := 1970 + (400 * d) / 146097).
  assert (H : DayFromYear (y - 1) <= d < DayFromYear (y + 2)).
  { unfold DayFromYear, y. Z.to_euclidean_division_equations. lia. }
  destruct (DayFromYear (y + 1) <=? d) eqn:E1; bprop.
  - replace (y + 1 + 1) with (y + 2) by lia. lia.
  - destruct (d <? DayFromYear y) eqn:E2; bprop; [|lia]. replace (y - 1 + 1) with y by lia. lia.
Qed.

Lemma leapDay_range y : 0 <= leapDay y <= 1.
Proof. unfold leapDay, DayFromYear. Z.to_euclidean_division_equations. lia. Qed.

Lemma DayFromYear_mono y y' : y <= y' -> DayFromYear y + 365 * (y' - y) <= DayFromYear y'.
Proof. unfold DayFromYear. intros. Z.to_euclidean_division_equations. lia. Qed.

Lemma YearFromDay_unique d y : DayFromYear y <= d < DayFromYear (y + 1) -> YearFromDay d = y.
Proof.
  intros H. pose proof (YearFromDay_spec d) as H'.
  destruct (Z.lt_trichotomy (YearFromDay d) y) as [L|[E|L]]; [|done|].
  - pose proof (DayFromYear_mono (YearFromDay d + 1) y). lia.
  - pose proof (DayFromYear_mono (y + 1) (YearFromDay d)). lia.
Qed.

Lemma YearFromDay_pos d : 0 <= d -> 1970 <= YearFromDay d.
Proof.
  intros H. pose proof (YearFromDay_spec d) as [_ H'].
  destruct (Z.le_gt_cases 1970 (YearFromDay d)); [done|].
  pose proof (DayFromYear_mono (YearFromDay d + 1) 1970). change (DayFromYear 1970) with 0 in *. lia.
Qed.

Lemma monthAndDate_spec lengths m d :
  0 <= d < foldr Z.add 0 lengths -> Forall (fun n => n <= 31) lengths ->
  let r := monthAndDate lengths m d in
  m <= r.1 < m + len lengths /\ 1 <= r.2 <= 31
  /\ d = foldr Z.add 0 (take (Z.to_nat (r.1 - m)) lengths) + r.2 - 1.
Proof.
  revert m d. induction lengths as [|n ls IH]; intros m d Hd Hl; [cbn in Hd; lia|].
  apply Forall_cons in Hl as [Hn Hl]. cbn in Hd. rewrite len_cons. pose proof (len_nonneg ls).
  cbn [monthAndDate]. destruct (d <? n) eqn:E; bprop; cbn [fst snd].
  - rewrite Z.sub_diag. change (foldr Z.add 0 (take (Z.to_nat 0) (n :: ls))) with 0. lia.
  - destruct (IH (m + 1) (d - n)) as (H1 & H2 & H3); [lia|done|].
    split; [lia|]. split; [lia|].
    destruct (monthAndDate ls (m + 1) (d - n)) as [m' e]. cbn [fst snd] in *.
    replace (Z.to_nat (m' - m)) with (S (Z.to_nat (m' - (m + 1)))) by lia. cbn [take foldr]. lia.
Qed.

Lemma civil_spec d :
  let '(m, date) := civil d in
  0 <= m < 12 /\ 1 <= date <= 31 /\ MakeDay (YearFromDay d) m date = d.
Proof.
  unfold civil. set (y := YearFromDay d). pose proof (YearFromDay_spec d) as Hy. fold y in Hy.
  pose proof (leapDay_range y) as Hl.
  destruct (monthAndDate_spec (monthLengths y) 0 (d - DayFromYear y)) as (H1 & H2 & H3).
  - unfold monthLengths. cbn. unfold leapDay in *. lia.
  - unfold monthLengths. repeat constructor; lia.
  - destruct (monthAndDate _ _ _) as [m e]. cbn [fst snd] in *. split; [exact H1|]. split; [done|].
    unfold MakeDay. rewrite Z.sub_0_r in H3. lia.
Qed.

Lemma civil_day t : MakeDay (getUTCFullYear t) (getUTCMonth t) (getUTCDate t) = Day t.
Proof.
  unfold getUTCFullYear, getUTCMonth, getUTCDate. pose proof (civil_spec (Day t)) as H.
  destruct (civil (Day t)) as [m e]. apply H.
Qed.

Lemma MakeDay_shift y m a b : MakeDay y m a = MakeDay y m b + (a - b).
Proof. unfold MakeDay. lia. Qed.

Lemma MakeDay_first y : MakeDay y 0 1 = DayFromYear y.
Proof. unfold MakeDay. change (take (Z.to_nat 0) (monthLengths y)) with (@nil Z). unfold foldr. lia. Qed.

Lemma month_range t : 0 <= getUTCMonth t < 12.
Proof. unfold getUTCMonth. pose proof (civil_spec (Day t)) as H. destruct (civil (Day t)). apply H. Qed.
Lemma date_range t : 1 <= getUTCDate t <= 31.
Proof. unfold getUTCDate. pose proof (civil_spec (Day t)) as H. destruct (civil (Day t)). apply H. Qed.

Lemma newDate_Some t : Z.abs t <= 8640000000000000 -> newDate t = Some t.
Proof. intros. unfold newDate. by rewrite (proj2 (Z.leb_le _ _)). Qed.

(** The Thursday of a week counts the weeks since 1970. *)
Definition weekIndex (t : Z) : Z := (Day t + 3) / 7.

Lemma Day_midnight d : Day (d * msPerDay) = d.
Proof. unfold Day, msPerDay. Z.to_euclidean_division_equations. lia. Qed.

(** The times from 1970 to a week before the last date there is. *)
Definition modern (t : Z) : Prop := 0 <= t <= 8640000000000000 - 7 * msPerDay.

Lemma Day_range t : 0 <= t -> 0 <= Day t.
Proof. unfold Day, msPerDay. intros. Z.to_euclidean_division_equations. lia. Qed.

Lemma thursdayOf_modern t : modern t -> thursdayOf t = Some (7 * weekIndex t * msPerDay).
Proof.
  intros [H0 H1]. assert (Hd : 0 <= Day t /\ Day t * msPerDay <= t).
  { unfold Day, msPerDay. Z.to_euclidean_division_equations. lia. }
  pose proof (YearFromDay_pos (Day t) (proj1 Hd)) as Hy.
  unfold thursdayOf, dateUTC. rewrite (proj2 (Z.leb_gt (getUTCFullYear t) 99)) by (unfold getUTCFullYear; lia).
  rewrite andb_false_r, civil_day, newDate_Some by (unfold msPerDay in *; lia).
  cbn [mbind option_bind]. unfold setUTCDate.
  rewrite (MakeDay_shift _ _ _ (getUTCDate (Day t * msPerDay))), civil_day, Day_midnight.
  replace (getUTCDate (Day t * msPerDay)) with (getUTCDate t) by (unfold getUTCDate; by rewrite Day_midnight).
  rewrite Z.mod_mul by done.
  replace (Day t + (getUTCDate t - (getUTCDay t + 6) mod 7 + 3 - getUTCDate t)) with (7 * weekIndex t)
    by (unfold getUTCDay, weekIndex; Z.to_euclidean_division_equations; lia).
  rewrite Z.add_0_r. apply newDate_Some. unfold weekIndex, msPerDay in *. Z.to_euclidean_division_equations. lia.
Qed.

(** ** Texts of fixed width *)

Lemma append_length a b : String.length (a +:+ b) = (String.length a + String.length b)%nat.
Proof. induction a as [|c a IH]; [done|]. cbn. by rewrite <- IH. Qed.

Lemma append_tail a a' b b' :
  String.length b = String.length b' -> a +:+ b = a' +:+ b' -> a = a' /\ b = b'.
Proof.
  intros Hl. revert a'. induction a as [|c a IH]; intros [|c' a'] E.
  - done.
  - apply (f_equal String.length) in E. rewrite !append_length in E. simpl in E. lia.
  - apply (f_equal String.length) in E. rewrite !append_length in E. simpl in E. lia.
  - cbn in E. injection E as -> E. destruct (IH a' E) as [-> ->]. done.
Qed.

Definition two_digits : list Z := seqZ 0 100.

Lemma pad2_small :
  forallb (fun a => Nat.eqb (String.length (pad2 a)) 2
                    && forallb (fun b => implb (String.eqb (pad2 a) (pad2 b)) (a =? b)) two_digits) two_digits = true.
Proof. vm_compute. reflexivity. Qed.

Lemma pad2_length n : 0 <= n < 100 -> String.length (pad2 n) = 2%nat.
Proof.
  intros H. pose proof pad2_small as F. rewrite forallb_forall in F.
  specialize (F n). apply andb_true_iff in F as [F _]; [by apply Nat.eqb_eq|].
  apply list_elem_of_In, elem_of_seqZ. lia.
Qed.

Lemma pad2_inj n m : 0 <= n < 100 -> 0 <= m < 100 -> pad2 n = pad2 m -> n = m.
Proof.
  intros Hn Hm E. pose proof pad2_small as F. rewrite forallb_forall in F.
  specialize (F n). apply andb_true_iff in F as [_ F]; [|apply list_elem_of_In, elem_of_seqZ; lia].
  rewrite forallb_forall in F. specialize (F m (proj1 (list_elem_of_In _ _) (proj2 (elem_of_seqZ _ _ _) Hm))).
  rewrite E, String.eqb_refl in F. by apply Z.eqb_eq.
Qed.

(** A key: a number, a separator and a number of two digits. *)
Lemma key_inj {A} (f : A -> string) (sep : string) a a' n n' :
  0 <= n < 100 -> 0 <= n' < 100 ->
  f a +:+ sep +:+ pad2 n = f a' +:+ sep +:+ pad2 n' -> f a = f a' /\ n = n'.
Proof.
  intros Hn Hn' E. apply append_tail in E as [E1 E2]; [|by rewrite !append_length, !pad2_length].
  split; [done|]. apply append_tail in E2 as [_ E2]; [|by rewrite !pad2_length].
  by apply pad2_inj.
Qed.

Lemma weekNumber_range y q :
  DayFromYear y <= 7 * q < DayFromYear (y + 1) ->
  0 <= weekNumber (7 * q * msPerDay) (DayFromYear y * msPerDay) < 100
  /\ 7 * (weekNumber (7 * q * msPerDay) (DayFromYear y * msPerDay) - 1) <= 7 * q - DayFromYear y
     < 7 * weekNumber (7 * q * msPerDay) (DayFromYear y * msPerDay).
Proof.
  intros H. pose proof (leapDay_range y). unfold leapDay in *. unfold weekNumber.
  rewrite <- Z.mul_sub_distr_r, Z.div_mul by done. Z.to_euclidean_division_equations. lia.
Qed.

Lemma bind_Some {A B} (x : A) (f : A -> option B) : Some x ≫= f = f x.
Proof. done. Qed.

Lemma formatWeekKey_modern t :
  modern t ->
  let th := 7 * weekIndex t in
  formatWeekKey t = pretty (YearFromDay th) +:+ "-W"
    +:+ pad2 (weekNumber (th * msPerDay) (DayFromYear (YearFromDay th) * msPerDay)).
Proof.
  intros H th. pose proof H as [H0 H1]. unfold formatWeekKey.
  assert (Ht : Z.abs t <= 8640000000000000) by (unfold msPerDay in *; lia).
  rewrite newDate_Some by done.
  rewrite bind_Some. rewrite thursdayOf_modern, bind_Some by done. fold th.
  assert (Hth : 0 <= th /\ th * msPerDay <= 8640000000000000).
  { pose proof (Day_range t H0). assert (Day t * msPerDay <= t).
    { unfold Day, msPerDay. Z.to_euclidean_division_equations. lia. }
    assert (0 <= th <= Day t + 3) by (unfold th, weekIndex; Z.to_euclidean_division_equations; lia).
    unfold msPerDay in *. lia. }
  clearbody th.
  assert (getUTCFullYear (th * msPerDay) = YearFromDay th) as E by (unfold getUTCFullYear; by rewrite Day_midnight).
  pose proof (YearFromDay_pos th (proj1 Hth)). pose proof (YearFromDay_spec th).
  pose proof (DayFromYear_mono 1970 (YearFromDay th) ltac:(lia)) as Hm. rewrite (eq_refl : DayFromYear 1970 = 0) in Hm.
  unfold dateUTC. rewrite E, (proj2 (Z.leb_gt (YearFromDay th) 99)), andb_false_r by lia.
  rewrite MakeDay_first.
  rewrite newDate_Some by (unfold msPerDay in *; lia). rewrite bind_Some. rewrite E. reflexivity.
Qed.

(** ** Theorems *)

(** Two times have the same key of the day exactly when they are on the same
    day, and the same key of the season exactly when they are in the same month
    of the same year. *)
Theorem day_and_season_keys t t' :
  Z.abs t <= 8640000000000000 -> Z.abs t' <= 8640000000000000 ->
  (formatDayKey t = formatDayKey t' <-> Day t = Day t')
  /\ (formatSeasonKey t = formatSeasonKey t'
      <-> getUTCFullYear t = getUTCFullYear t' /\ getUTCMonth t = getUTCMonth t').
Proof.
  intros H H'. unfold formatDayKey, formatSeasonKey. rewrite !newDate_Some by done.
  pose proof (month_range t). pose proof (month_range t'). pose proof (date_range t). pose proof (date_range t').
  assert (Hs : pretty (getUTCFullYear t) +:+ "-" +:+ pad2 (getUTCMonth t + 1)
               = pretty (getUTCFullYear t') +:+ "-" +:+ pad2 (getUTCMonth t' + 1)
               <-> getUTCFullYear t = getUTCFullYear t' /\ getUTCMonth t = getUTCMonth t').
  { split; [|by intros [-> ->]]. intros [E1 E2]%(key_inj pretty); [|lia..].
    apply (inj pretty) in E1. split; [done|lia]. }
  split; [|exact Hs]. split.
  - intros E. apply append_tail in E as [E1 E]; [|by rewrite !append_length, !pad2_length by lia].
    apply append_tail in E as [_ E]; [|by rewrite !append_length, !pad2_length by lia].
    apply (key_inj pad2) in E as [E2 E3]; [|lia..].
    apply (inj pretty) in E1. apply pad2_inj in E2; [|lia..].
    rewrite <- (civil_day t), <- (civil_day t'), E1, E3. f_equal. lia.
  - intros E. unfold getUTCFullYear, getUTCMonth, getUTCDate. by rewrite E.
Qed.

Lemma day_and_season_keys_witness :
  (formatDayKey 1700000000000 = formatDayKey 1700000060000 <-> Day 1700000000000 = Day 1700000060000)
  /\ formatDayKey 1700000000000 = "2023-11-14".
Proof.
  split; [|reflexivity].
  apply (day_and_season_keys 1700000000000 1700000060000); [by vm_compute|by vm_compute].
Defined.

(** From 1970 on, two times have the same week key exactly when they are in
    the same week from Monday to Sunday: the key neither splits a week at the
    turn of the year nor gives two weeks the same name. *)
Theorem week_key_iso t t' :
  modern t -> modern t' -> (formatWeekKey t = formatWeekKey t' <-> weekIndex t = weekIndex t').
Proof.
  intros H H'. rewrite !formatWeekKey_modern by done. cbv zeta.
  split; [|by intros ->]. intros E.
  pose proof (weekNumber_range _ _ (YearFromDay_spec (7 * weekIndex t))) as [R1 S1].
  pose proof (weekNumber_range _ _ (YearFromDay_spec (7 * weekIndex t'))) as [R2 S2].
  apply (key_inj pretty) in E as [E1 E2]; [|done..]. apply (inj pretty) in E1.
  rewrite E1 in *. rewrite E2 in *. lia.
Qed.

(** Monday 29 December 2025 and Thursday 1 January 2026 share a week, Sunday the
    28th is in the week before. *)
Lemma week_key_iso_witness :
  (formatWeekKey 1766966400000 = formatWeekKey 1767225600000
   <-> weekIndex 1766966400000 = weekIndex 1767225600000)
  /\ formatWeekKey 1767225600000 = "2026-W01" /\ formatWeekKey 1766880000000 = "2025-W52".
Proof.
  split; [|split; reflexivity].
  apply (week_key_iso 1766966400000 1767225600000); by vm_compute.
Defined.
