(* ===== verification/Ops.v ===== *)
(** * The ops service: events, leagues, referrals

    [services/ops/src/server.ts]: the ingestion of analytics events with the
    actors, the league and season boards and the referral progress, and the
    referral handlers.  The JSON files are maps: a missing file is read as the
    empty store, as [readJson] does.  Left out are the ids and the fields of an
    event that nothing reads (session, meta, the rest of source), the
    [updatedAt] stamps, and what [Express] does around the handlers.

    Text fields are texts; numbers are whole numbers or not finite; a property that
    is [null] is left out of the properties, which read the same. *)

From stdpp Require Import sorting.
From S2P Require Import Prelude JsNum Arith Calendar.

(** ** Values of a request *)

(** A field of an object: missing, [null], or a text. *)
Inductive Field := Missing | Null | Text (s : string).

(** [field ? ... : ...] *)
Definition truthy (f : Field) : option string :=
  match f with
  | Text EmptyString => None
  | Text s => Some s
  | _ => None
  end.

(** [{ ...defaults, ...input }] *)
Definition spread (default_ input : Field) : Field :=
  match input with Missing => default_ | _ => input end.

Inductive Number := NotFinite | Finite (n : Z).

(** A property: what [Number], [Boolean] and [String] make of it. *)
Record Value := { v_number : Number; v_truthy : bool; v_string : string }.

Abbreviation Props := (gmap string Value).

(** [Number(props?.\[key\] ?? 0)]; a number is its own value. *)
Definition numberOf (props : option Props) (key : string) : Number :=
  match v ← (p ← props; p !! key); Some (v_number v) with
  | Some n => n
  | None => Finite 0
  end.

Definition truthyProp (props : option Props) (key : string) : bool :=
  match v ← (p ← props; p !! key); Some (v_truthy v) with
  | Some b => b
  | None => false
  end.

Record ActorInfo := {
  a_publicKey : Field; a_deviceId : Field; a_platform : Field; a_appVersion : Field; a_locale : Field
}.

(** [ei_ts]: the timestamp if it is a finite number; [ei_name]: the name if it is
    a text; [ei_props]: the properties if they are an object. *)
Record EventInput := {
  ei_ts : option Z; ei_name : option string; ei_props : option Props; ei_actor : ActorInfo; ei_app : Field
}.

Record Event := {
  e_ts : Z; e_name : string; e_props : option Props; e_actor : ActorInfo; e_app : Field
}.

Definition with_publicKey (f : Field) (a : ActorInfo) : ActorInfo :=
  {| a_publicKey := f; a_deviceId := a_deviceId a; a_platform := a_platform a;
     a_appVersion := a_appVersion a; a_locale := a_locale a |}.

Definition spreadActor (d i : ActorInfo) : ActorInfo :=
  {| a_publicKey := spread (a_publicKey d) (a_publicKey i); a_deviceId := spread (a_deviceId d) (a_deviceId i);
     a_platform := spread (a_platform d) (a_platform i); a_appVersion := spread (a_appVersion d) (a_appVersion i);
     a_locale := spread (a_locale d) (a_locale i) |}.

(** [0] and the empty text are falsy. *)
Definition nonempty (s : string) : option string := match s with EmptyString => None | _ => Some s end.

Definition getActorId (actor : ActorInfo) : option string :=
  let publicKey := match truthy (a_publicKey actor) with Some k => normalizeHex k | None => "" end in
  if (String.length publicKey =? 64)%nat then Some publicKey
  else d ← truthy (a_deviceId actor); nonempty (trim d).

Definition sanitizeName (name : string) : string := String.substring 0 128 (trim name).

Definition normalizeEvent (input : EventInput) (defaults : ActorInfo) (app : Field) (receivedAt : Z)
    : option Event :=
  name ← (n ← ei_name input; nonempty (sanitizeName n));
  let actor := spreadActor defaults (ei_actor input) in
  Some {| e_ts := default receivedAt (ei_ts input); e_name := name; e_props := ei_props input;
          e_actor := match truthy (a_publicKey actor) with
                     | Some k => with_publicKey (Text (normalizeHex k)) actor
                     | None => actor
                     end;
          e_app := spread app (ei_app input) |}.

(** ** Actors *)

Record ActorSummary := {
  s_actor : ActorInfo; firstSeen : Z; lastSeen : Z; events : Z; lastEvent : string
}.

(** [if (event.actor?.x) existing.x = event.actor.x] *)
Definition override (old new : Field) : Field := match truthy new with Some s => Text s | None => old end.

Definition seen (event : Event) (existing : ActorSummary) : ActorSummary :=
  let o := s_actor existing in
  let n := e_actor event in
  {| s_actor :=
       {| a_publicKey := override (a_publicKey o) (a_publicKey n);
          a_deviceId := override (a_deviceId o) (a_deviceId n);
          a_platform := override (a_platform o) (a_platform n);
          a_appVersion := override (a_appVersion o) (a_appVersion n);
          a_locale := override (a_locale o) (a_locale n) |};
     firstSeen := firstSeen existing; lastSeen := Z.max (lastSeen existing) (e_ts event);
     events := events existing + 1; lastEvent := e_name event |}.

Definition updateActor (actors : gmap string ActorSummary) (event : Event) : gmap string ActorSummary :=
  match getActorId (e_actor event) with
  | None => actors
  | Some actorId =>
      match actors !! actorId with
      | None =>
          <[actorId := {| s_actor := e_actor event; firstSeen := e_ts event; lastSeen := e_ts event;
                          events := 1; lastEvent := e_name event |}]> actors
      | Some existing => <[actorId := seen event existing]> actors
      end
  end.

Definition updateActorsStore (actors : gmap string ActorSummary) (evs : list Event) : gmap string ActorSummary :=
  foldl updateActor actors evs.

(** ** The league *)

Record LeagueEntry := { points : Z; games : Z; wager : Z; netPnl : Z; lastGameAt : Z }.
Abbreviation Board := (gmap string LeagueEntry).

(** The configuration of the process. *)
Record Config := {
  leaguePointsMode : string; includeFreeroll : bool; referralMinGames : Z; referralMinDays : Z
}.

(** [Math.max(0, Math.floor(n))] of a finite number. *)
Definition atLeast0 (n : Number) : Number := match n with Finite z => Finite (Z.max 0 z) | NotFinite => NotFinite end.
Definition absNumber (n : Number) : Number := match n with Finite z => Finite (Z.abs z) | NotFinite => NotFinite end.

Definition computePoints (cfg : Config) (event : Event) : Z :=
  let wager := numberOf (e_props event) "wager" in
  let netPnl := numberOf (e_props event) "netPnL" in
  let mode := leaguePointsMode cfg in
  let points :=
    if bool_decide (mode = "net") then atLeast0 netPnl
    else if bool_decide (mode = "net-abs") then atLeast0 (absNumber netPnl)
    else atLeast0 wager in
  let points := match points with Finite p => if p <=? 0 then 1 else p | NotFinite => 1 end in
  let superRound :=
    match p ← e_props event; p !! "superRound" with
    | Some v => v_truthy v
    | None => truthyProp (e_props event) "super"
    end in
  if superRound then js_mul points 2 else points.

Definition shouldScoreEvent (cfg : Config) (event : Event) : bool :=
  if negb (bool_decide (e_name event = "casino.game.completed"))
     && negb (bool_decide (e_name event = "casino.super.round_completed")) then false
  else
    let sourceApp := match truthy (e_app event) with Some a => to_lower a | None => "" end in
    if bool_decide (sourceApp = "mobile") then false
    else
      match p ← e_props event; p !! "mode" with
      | Some mode =>
          negb (negb (includeFreeroll cfg) && v_truthy mode && negb (bool_decide (to_upper (v_string mode) = "CASH")))
      | None => true
      end.

(** The player an event counts for. *)
Definition scoredPlayer (cfg : Config) (event : Event) : option string :=
  if negb (shouldScoreEvent cfg event) then None
  else k ← truthy (a_publicKey (e_actor event)); nonempty (normalizeHex k).

Definition finiteOr0 (n : Number) : Z := match n with Finite z => z | NotFinite => 0 end.

Definition noEntry : LeagueEntry := {| points := 0; games := 0; wager := 0; netPnl := 0; lastGameAt := 0 |}.

Definition scoreEntry (cfg : Config) (event : Event) (entry : LeagueEntry) : LeagueEntry :=
  {| points := js_add (points entry) (computePoints cfg event);
     games := games entry + 1;
     wager := js_add (wager entry) (finiteOr0 (numberOf (e_props event) "wager"));
     netPnl := js_add (netPnl entry) (finiteOr0 (numberOf (e_props event) "netPnL"));
     lastGameAt := Z.max (lastGameAt entry) (e_ts event) |}.

Definition updateEntry (cfg : Config) (event : Event) (publicKey : string) (board : Board) : Board :=
  <[publicKey := scoreEntry cfg event (default noEntry (board !! publicKey))]> board.

(** ** Referrals *)

Record ReferralClaim := {
  code : string; referrerPublicKey : string; claimedAt : Z; qualifiedAt : option Z
}.

Record ReferralStore := {
  codes : gmap string string; owners : gmap string string; claims : gmap string ReferralClaim
}.

Record Progress := { p_games : Z; activeDays : list string; p_lastGameAt : Z }.

Record Store := {
  f_actors : gmap string ActorSummary;
  f_events : gmap string (list Event);
  f_leagues : gmap string Board;
  f_seasons : gmap string Board;
  f_referrals : ReferralStore;
  f_progress : gmap string Progress
}.

Definition with_actors (x : gmap string ActorSummary) (s : Store) : Store :=
  {| f_actors := x; f_events := f_events s; f_leagues := f_leagues s; f_seasons := f_seasons s;
     f_referrals := f_referrals s; f_progress := f_progress s |}.
Definition with_events (x : gmap string (list Event)) (s : Store) : Store :=
  {| f_actors := f_actors s; f_events := x; f_leagues := f_leagues s; f_seasons := f_seasons s;
     f_referrals := f_referrals s; f_progress := f_progress s |}.
Definition with_boards (l se : gmap string Board) (s : Store) : Store :=
  {| f_actors := f_actors s; f_events := f_events s; f_leagues := l; f_seasons := se;
     f_referrals := f_referrals s; f_progress := f_progress s |}.
Definition with_referrals (x : ReferralStore) (s : Store) : Store :=
  {| f_actors := f_actors s; f_events := f_events s; f_leagues := f_leagues s; f_seasons := f_seasons s;
     f_referrals := x; f_progress := f_progress s |}.
Definition with_progress (x : gmap string Progress) (s : Store) : Store :=
  {| f_actors := f_actors s; f_events := f_events s; f_leagues := f_leagues s; f_seasons := f_seasons s;
     f_referrals := f_referrals s; f_progress := x |}.

Definition updateLeagueBoard (cfg : Config) (event : Event) (s : Store) : Store :=
  match scoredPlayer cfg event with
  | None => s
  | Some publicKey =>
      let weekKey := formatWeekKey (e_ts event) in
      let seasonKey := formatSeasonKey (e_ts event) in
      let league := default ∅ (f_leagues s !! weekKey) in
      let season := default ∅ (f_seasons s !! seasonKey) in
      with_boards (<[weekKey := updateEntry cfg event publicKey league]> (f_leagues s))
        (<[seasonKey := updateEntry cfg event publicKey season]> (f_seasons s)) s
  end.

Definition playedOn (event : Event) (entry : Progress) : Progress :=
  let dayKey := formatDayKey (e_ts event) in
  {| p_games := p_games entry + 1;
     activeDays := if bool_decide (dayKey ∈ activeDays entry) then activeDays entry
                   else activeDays entry ++ [dayKey];
     p_lastGameAt := Z.max (p_lastGameAt entry) (e_ts event) |}.

Definition noProgress : Progress := {| p_games := 0; activeDays := []; p_lastGameAt := 0 |}.

Definition with_claims (c : gmap string ReferralClaim) (r : ReferralStore) : ReferralStore :=
  {| codes := codes r; owners := owners r; claims := c |}.

(** [!claim.qualifiedAt]: the time zero does not count. *)
Definition isQualified (c : ReferralClaim) : bool :=
  match qualifiedAt c with Some t => negb (t =? 0) | None => false end.

Definition updateReferralProgress (cfg : Config) (now : Z) (event : Event) (s : Store) : Store :=
  match scoredPlayer cfg event with
  | None => s
  | Some publicKey =>
      let entry := playedOn event (default noProgress (f_progress s !! publicKey)) in
      let s := with_progress (<[publicKey := entry]> (f_progress s)) s in
      let r := f_referrals s in
      match claims r !! publicKey with
      | Some claim =>
          if negb (isQualified claim)
             && ((referralMinGames cfg <=? p_games entry) && (referralMinDays cfg <=? len (activeDays entry)))
          then
            let claim := {| code := code claim; referrerPublicKey := referrerPublicKey claim;
                            claimedAt := claimedAt claim; qualifiedAt := Some now |} in
            with_referrals (with_claims (<[publicKey := claim]> (claims r)) r) s
          else s
      | None => s
      end
  end.

(** ** Ingestion *)

(** The day files, extended bucket by bucket. *)
Definition logEvent (files : gmap string (list Event)) (event : Event) : gmap string (list Event) :=
  let dayKey := formatDayKey (e_ts event) in
  <[dayKey := default [] (files !! dayKey) ++ [event]]> files.

Definition ingestEvent (cfg : Config) (now : Z) (s : Store) (event : Event) : Store :=
  updateReferralProgress cfg now event (updateLeagueBoard cfg event s).

Definition ingestEvents (cfg : Config) (now : Z) (evs : list Event) (s : Store) : Store :=
  match evs with
  | [] => s
  | _ =>
      let s := with_actors (updateActorsStore (f_actors s) evs) s in
      let s := with_events (foldl logEvent (f_events s) evs) s in
      foldl (ingestEvent cfg now) s evs
  end.

(** [POST /analytics/events]: the reply and the new store. *)
Definition postEvents (cfg : Config) (now : Z) (rawEvents : list EventInput) (actor : ActorInfo) (app : Field)
    (s : Store) : result Z * Store :=
  match rawEvents with
  | [] => (Throw "no events", s)
  | _ =>
      let normalized := omap (fun i => normalizeEvent i actor app now) (take 200 rawEvents) in
      (Ok (len normalized), ingestEvents cfg now normalized s)
  end.

(** ** The leaderboard *)

Definition by_points (a b : string * LeagueEntry) : Prop := points b.2 <= points a.2.
#[export] Instance by_points_dec a b : Decision (by_points a b).
Proof. unfold by_points. apply _. Defined.

(** [GET /league/leaderboard], by season or by week. *)
Definition leaderboard (week season : option string) (now : Z) (s : Store) : list (string * LeagueEntry) :=
  let board :=
    match season ≫= nonempty with
    | Some seasonKey => f_seasons s !! seasonKey
    | None => f_leagues s !! default (formatWeekKey now) week
    end in
  merge_sort by_points (map_to_list (default ∅ board)).

(** ** Referral handlers *)

Section referrals.

(** The first eight hexadecimal digits of the SHA-256 of a key, in upper case. *)
Variable hash8 : string -> string.

Definition candidate (base : string) (attempt : Z) : string :=
  if attempt =? 0 then base
  else to_upper (String.substring 0 10 (base +:+ pretty.pretty attempt)).

Definition takenByOther (publicKey : string) (existingCodes : gmap string string) (c : string) : bool :=
  match existingCodes !! c with
  | Some owner => negb (bool_decide (owner = publicKey))
  | None => false
  end.

(** The loop; [n] is the number of attempts left of the ten. *)
Fixpoint createReferralCode_loop (n : nat) (publicKey base : string) (existingCodes : gmap string string)
    (attempt : Z) : string :=
  match n with
  | O => candidate base attempt
  | S n' =>
      if takenByOther publicKey existingCodes (candidate base attempt)
      then createReferralCode_loop n' publicKey base existingCodes (attempt + 1)
      else candidate base attempt
  end.

Definition createReferralCode (publicKey : string) (existingCodes : gmap string string) : string :=
  createReferralCode_loop 10 publicKey (hash8 publicKey) existingCodes 0.

Definition validKey (publicKey : string) : bool := (String.length publicKey =? 64)%nat.

(** [POST /referrals/code] *)
Definition postCode (key : string) (s : Store) : result string * Store :=
  let publicKey := normalizeHex key in
  if negb (validKey publicKey) then (Throw "invalid publicKey", s)
  else
    let r := f_referrals s in
    match owners r !! publicKey ≫= nonempty with
    | Some existingCode => (Ok existingCode, s)
    | None =>
        let c := createReferralCode publicKey (codes r) in
        (Ok c, with_referrals {| codes := <[c := publicKey]> (codes r);
                                 owners := <[publicKey := c]> (owners r); claims := claims r |} s)
    end.

(** [POST /referrals/claim] *)
Definition postClaim (now : Z) (key codeText : string) (s : Store) : result string * Store :=
  let publicKey := normalizeHex key in
  let c := to_upper (trim codeText) in
  if negb (validKey publicKey) then (Throw "invalid publicKey", s)
  else if bool_decide (c = "") then (Throw "missing code", s)
  else
    let r := f_referrals s in
    match codes r !! c with
    | None => (Throw "invalid code", s)
    | Some owner =>
        if bool_decide (owner = publicKey) then (Throw "self_referral", s)
        else
          match claims r !! publicKey with
          | Some _ => (Ok "already_claimed", s)
          | None =>
              let claim := {| code := c; referrerPublicKey := owner; claimedAt := now; qualifiedAt := None |} in
              (Ok "claimed", with_referrals (with_claims (<[publicKey := claim]> (claims r)) r) s)
          end
    end.

Record Summary := {
  su_code : option string; su_referrals : Z; su_qualified : Z; su_progress : option Progress
}.

(** [GET /referrals/summary] *)
Definition getSummary (key : string) (s : Store) : result Summary :=
  let publicKey := normalizeHex key in
  _ ← throw_if (negb (validKey publicKey)) "invalid publicKey";
  let r := f_referrals s in
  let mine := List.filter (fun c => bool_decide (referrerPublicKey c.2 = publicKey)) (map_to_list (claims r)) in
  Ok {| su_code := owners r !! publicKey; su_referrals := len mine;
        su_qualified := len (List.filter (fun c => isQualified c.2) mine);
        su_progress := f_progress s !! publicKey |}.
End referrals.

(** ** The service as a sequence of requests *)

Inductive Request :=
| R_events (rawEvents : list EventInput) (actor : ActorInfo) (app : Field)
| R_code (key : string)
| R_claim (key code : string).

Definition serve (hash8 : string -> string) (cfg : Config) (s : Store) (req : Z * Request) : Store :=
  match req.2 with
  | R_events rawEvents actor app => (postEvents cfg req.1 rawEvents actor app s).2
  | R_code key => (postCode hash8 key s).2
  | R_claim key c => (postClaim req.1 key c s).2
  end.

Definition serveAll (hash8 : string -> string) (cfg : Config) (reqs : list (Z * Request)) (s : Store) : Store :=
  foldl (serve hash8 cfg) s reqs.

(** ** Concurrent updates of a file

    Between reading a file and writing it back a handler waits, and another
    request can do the same.  A thread has an update to make; it reads the file,
    then writes the updated copy it holds. *)

Inductive Thread (A : Type) := Idle (update : A -> A) | Holding (copy : A) | Finished.
Arguments Idle {A}.
Arguments Holding {A}.
Arguments Finished {A}.

Inductive fileStep {A : Type} : A * list (Thread A) -> A * list (Thread A) -> Prop :=
| file_read file ts i update :
    ts !! i = Some (Idle update) -> fileStep (file, ts) (file, <[i := Holding (update file)]> ts)
| file_write file ts i copy :
    ts !! i = Some (Holding copy) -> fileStep (file, ts) (copy, <[i := Finished]> ts).
