(* ===== verification/OpsCorrect.v ===== *)
(** * Correctness of the ops service

    The boards are what a recount of the events gives, referral codes and claims
    fit together, and what concurrent requests do to a file. *)

From stdpp Require Import sorting relations.
From S2P Require Import Prelude JsNum Arith Calendar Ops.

(** ** The boards as a recount *)

Section boards.
Context (cfg : Config).

(** A player's entry on one of the boards of a kind. *)
Definition entryOf (boards : gmap string Board) (key player : string) : option LeagueEntry :=
  boards !! key ≫= fun board => board !! player.

(** The events that count for a player on the board [key], [keyOf] being the
    kind of the board. *)
Definition counts (keyOf : Z -> string) (key player : string) (e : Event) : bool :=
  bool_decide (scoredPlayer cfg e = Some player) && bool_decide (keyOf (e_ts e) = key).

(** The entry after the events, one by one. *)
Definition recount (o : option LeagueEntry) (evs : list Event) : option LeagueEntry :=
  foldl (fun o e => Some (scoreEntry cfg e (default noEntry o))) o evs.

Lemma entryOf_updateEntry boards e player' key key' player :
  entryOf (<[key' := updateEntry cfg e player' (default ∅ (boards !! key'))]> boards) key player
  = if bool_decide (player' = player) && bool_decide (key' = key)
    then Some (scoreEntry cfg e (default noEntry (entryOf boards key player)))
    else entryOf boards key player.
Proof.
  unfold entryOf. case_bool_decide as H2; cbn [andb].
  - subst player'. case_bool_decide as H1.
    + subst key'. rewrite lookup_insert_eq. cbn [mbind option_bind]. unfold updateEntry. rewrite lookup_insert_eq.
      by destruct (boards !! key).
    + by rewrite lookup_insert_ne.
  - destruct (decide (key' = key)) as [->|H1]; [|by rewrite lookup_insert_ne].
    rewrite lookup_insert_eq. cbn [mbind option_bind]. unfold updateEntry. rewrite lookup_insert_ne by done.
    by destruct (boards !! key).
Qed.

(** One event on the two kinds of boards. *)
Lemma ingest_boards now e s key player :
  let s' := ingestEvent cfg now s e in
  entryOf (f_leagues s') key player
  = (if counts formatWeekKey key player e then recount (entryOf (f_leagues s) key player) [e]
     else entryOf (f_leagues s) key player)
  /\ entryOf (f_seasons s') key player
     = (if counts formatSeasonKey key player e then recount (entryOf (f_seasons s) key player) [e]
        else entryOf (f_seasons s) key player).
Proof.
  intros s'.
  assert (E : f_leagues s' = f_leagues (updateLeagueBoard cfg e s) /\ f_seasons s' = f_seasons (updateLeagueBoard cfg e s)).
  { unfold s', ingestEvent, updateReferralProgress. destruct (scoredPlayer cfg e); [|done]. cbv zeta.
    destruct (claims _ !! _); [|done]. by destruct (_ && _). }
  destruct E as [-> ->]. unfold updateLeagueBoard, counts.
  destruct (scoredPlayer cfg e) as [p|]; [|done]. cbv zeta. cbn [f_leagues f_seasons with_boards].
  rewrite !entryOf_updateEntry.
  assert (Hp : bool_decide (Some p = Some player) = bool_decide (p = player)).
  { apply bool_decide_ext. split; congruence. }
  by rewrite Hp.
Qed.

Lemma recount_filter (f : Event -> bool) evs : forall (get : Store -> option LeagueEntry) now s,
  (forall s e, get (ingestEvent cfg now s e) = if f e then recount (get s) [e] else get s) ->
  get (foldl (ingestEvent cfg now) s evs) = recount (get s) (List.filter f evs).
Proof.
  induction evs as [|e evs IH]; intros get now s H; [done|].
  cbn [foldl List.filter]. rewrite IH by done. rewrite H. by destruct (f e).
Qed.

Lemma recount_games evs : forall o, default 0 (games <$> recount o evs) = default 0 (games <$> o) + len evs.
Proof.
  induction evs as [|e evs IH]; intros o; [cbn; unfold len; cbn; lia|].
  cbn [recount foldl]. fold (recount (Some (scoreEntry cfg e (default noEntry o))) evs).
  rewrite IH, len_cons. destruct o; cbn; lia.
Qed.
End boards.

(** ** Referrals *)

(** Codes are not empty, codes and owners are inverse to each other, a claim names the code of
    another player, and who is qualified has played enough. *)
Record linked (cfg : Config) (s : Store) : Prop := {
  li_nonempty pk c : owners (f_referrals s) !! pk = Some c -> c <> "";
  li_owner pk c : owners (f_referrals s) !! pk = Some c -> codes (f_referrals s) !! c = Some pk;
  li_code pk c : codes (f_referrals s) !! c = Some pk -> owners (f_referrals s) !! pk = Some c;
  li_claim pk cl : claims (f_referrals s) !! pk = Some cl ->
    codes (f_referrals s) !! code cl = Some (referrerPublicKey cl) /\ referrerPublicKey cl <> pk;
  li_qualified pk cl : claims (f_referrals s) !! pk = Some cl -> qualifiedAt cl <> None ->
    exists p, f_progress s !! pk = Some p
      /\ referralMinGames cfg <= p_games p /\ referralMinDays cfg <= len (activeDays p)
}.

Lemma playedOn_grows e p : p_games p <= p_games (playedOn e p) /\ len (activeDays p) <= len (activeDays (playedOn e p)).
Proof.
  unfold playedOn. cbn [p_games activeDays]. split; [lia|].
  case_bool_decide; [lia|]. rewrite len_app. pose proof (len_nonneg [formatDayKey (e_ts e)]). lia.
Qed.

Lemma linked_progress cfg s publicKey e :
  linked cfg s ->
  linked cfg (with_progress (<[publicKey := playedOn e (default noProgress (f_progress s !! publicKey))]>
    (f_progress s)) s).
Proof.
  intros [Hn0 Ho Hc Hl Hq]. split; try done. intros pk cl H1 H2. destruct (Hq pk cl H1 H2) as (p & Hp & Hg & Hd).
  cbn [with_progress f_progress]. destruct (decide (publicKey = pk)) as [->|Hne].
  - rewrite lookup_insert_eq, Hp. eexists. split; [done|]. change (default noProgress (Some p)) with p. pose proof (playedOn_grows e p). lia.
  - rewrite lookup_insert_ne by done. eauto.
Qed.

Lemma linked_ingest cfg now s e : linked cfg s -> linked cfg (ingestEvent cfg now s e).
Proof.
  intros H. unfold ingestEvent, updateReferralProgress.
  assert (H0 : linked cfg (updateLeagueBoard cfg e s)).
  { unfold updateLeagueBoard. destruct (scoredPlayer cfg e); [|done]. by destruct H. }
  destruct (scoredPlayer cfg e) as [k|]; [|done]. cbv zeta.
  set (s0 := updateLeagueBoard cfg e s) in *.
  pose proof (linked_progress cfg s0 k e H0) as H1.
  set (s1 := with_progress _ s0) in *.
  destruct (claims (f_referrals s1) !! k) as [cl|] eqn:Ec; [|done].
  destruct (negb (isQualified cl) && _) eqn:Eq; [|done]. bprop.
  destruct H1 as [Hn0 Ho Hc Hl Hq]. split; [exact Hn0|exact Ho|exact Hc| |].
  - intros pk cl'. cbn [with_referrals f_referrals with_claims claims codes].
    destruct (decide (k = pk)) as [<-|Hne]; [|rewrite lookup_insert_ne by done; apply Hl].
    rewrite lookup_insert_eq. intros [= <-]. cbn [code referrerPublicKey]. by apply Hl.
  - intros pk cl'. cbn [with_referrals f_referrals with_claims claims f_progress].
    destruct (decide (k = pk)) as [<-|Hne]; [|rewrite lookup_insert_ne by done; apply Hq].
    rewrite lookup_insert_eq. intros [= <-] _.
    unfold s1. cbn [with_progress f_progress]. rewrite lookup_insert_eq. eauto.
Qed.

Lemma linked_events cfg now rawEvents actor app s :
  linked cfg s -> linked cfg (postEvents cfg now rawEvents actor app s).2.
Proof.
  intros H. unfold postEvents. destruct rawEvents as [|r rs]; [done|]. cbn [snd].
  generalize (omap (fun i => normalizeEvent i actor app now) (take 200 (r :: rs))). intros evs.
  unfold ingestEvents. destruct evs as [|e evs]; [done|]. cbv zeta.
  assert (H0 : forall a l, linked cfg (with_events l (with_actors a s))) by (intros; by destruct H).
  set (s1 := with_events _ _). assert (linked cfg s1) as H1 by apply H0.
  clearbody s1. revert s1 H1. generalize (e :: evs). intros l.
  induction l as [|e' l IH]; intros s1 H1; [done|]. by apply IH, linked_ingest.
Qed.

(** The code found is free or the player's, unless all are taken. *)
Lemma code_loop n pk base existing attempt :
  takenByOther pk existing (createReferralCode_loop n pk base existing attempt) = true <->
  (forall i, (i <= n)%nat -> takenByOther pk existing (candidate base (attempt + Z.of_nat i)) = true).
Proof.
  revert attempt. induction n as [|n IH]; intros attempt; cbn [createReferralCode_loop].
  - split.
    + intros H i Hi. replace (attempt + Z.of_nat i) with attempt by lia. done.
    + intros H. specialize (H 0%nat). rewrite Z.add_0_r in H. apply H. lia.
  - destruct (takenByOther pk existing (candidate base attempt)) eqn:E.
    + rewrite IH. split; intros H i Hi.
      * destruct i as [|i]; [by rewrite Z.add_0_r|].
        replace (attempt + Z.of_nat (S i)) with (attempt + 1 + Z.of_nat i) by lia. apply H. lia.
      * replace (attempt + 1 + Z.of_nat i) with (attempt + Z.of_nat (S i)) by lia. apply H. lia.
    + split; [by rewrite E|]. intros H. specialize (H 0%nat). rewrite Z.add_0_r, E in H. discriminate H. lia.
Qed.

Section serving.
Context (hash8 : string -> string) (cfg : Config) (hash8_length : forall k, String.length (hash8 k) = 8%nat).

Lemma candidate_nonempty base attempt : String.length base = 8%nat -> candidate base attempt <> "".
Proof. intros H. destruct base as [|c base]; [done|]. unfold candidate. by destruct (attempt =? 0). Qed.

Lemma code_nonempty pk existing : createReferralCode hash8 pk existing <> "".
Proof.
  unfold createReferralCode. generalize (hash8_length pk). generalize (hash8 pk), 0, 10%nat.
  intros base attempt n H. revert attempt. induction n as [|n IH]; intros attempt; cbn [createReferralCode_loop];
    [by apply candidate_nonempty|]. destruct (takenByOther _ _ _); [apply IH|by apply candidate_nonempty].
Qed.

(** The requests never run out of codes: each new code is free. *)
Fixpoint codes_free (s : Store) (reqs : list (Z * Request)) : Prop :=
  match reqs with
  | [] => True
  | req :: reqs' =>
      match req.2 with
      | R_code key =>
          codes (f_referrals s) !! createReferralCode hash8 (normalizeHex key) (codes (f_referrals s)) = None
          \/ owners (f_referrals s) !! normalizeHex key <> None
      | _ => True
      end /\ codes_free (serve hash8 cfg s req) reqs'
  end.

Lemma linked_code key s :
  linked cfg s ->
  (codes (f_referrals s) !! createReferralCode hash8 (normalizeHex key) (codes (f_referrals s)) = None
   \/ owners (f_referrals s) !! normalizeHex key <> None) ->
  linked cfg (postCode hash8 key s).2.
Proof.
  intros H Hf. unfold postCode. destruct (negb _); [done|]. cbv zeta.
  set (pk := normalizeHex key) in *.
  destruct (owners (f_referrals s) !! pk) as [c0|] eqn:Eo.
  { cbn [mbind option_bind]. pose proof (li_nonempty _ _ H pk c0 Eo). by destruct c0. }
  destruct Hf as [Hf|Hf]; [|done]. set (c := createReferralCode _ _ _) in *. cbn [snd mbind option_bind].
  destruct H as [Hn0 Ho Hc Hl Hq]. split; cbn [with_referrals f_referrals owners codes claims f_progress].
  - intros pk' c'. destruct (decide (pk = pk')) as [<-|Hn]; [rewrite lookup_insert_eq|rewrite lookup_insert_ne by done].
    + intros [= <-]. apply code_nonempty.
    + apply Hn0.
  - intros pk' c'. destruct (decide (pk = pk')) as [<-|Hn]; [rewrite lookup_insert_eq|rewrite lookup_insert_ne by done].
    + intros [= <-]. by rewrite lookup_insert_eq.
    + intros E%Ho. rewrite lookup_insert_ne by congruence. done.
  - intros pk' c'. destruct (decide (c = c')) as [<-|Hn]; [rewrite lookup_insert_eq|rewrite lookup_insert_ne by done].
    + intros [= <-]. by rewrite lookup_insert_eq.
    + intros E%Hc. rewrite lookup_insert_ne by congruence. done.
  - intros pk' cl E. destruct (Hl pk' cl E) as [E1 E2]. split; [|done].
    rewrite lookup_insert_ne by congruence. done.
  - exact Hq.
Qed.

Lemma linked_postClaim now key codeText s : linked cfg s -> linked cfg (postClaim now key codeText s).2.
Proof.
  intros H. unfold postClaim. destruct (negb _); [done|]. cbv zeta.
  case_bool_decide as C1; [done|]. set (c := to_upper _) in *. set (pk := normalizeHex key) in *.
  destruct (codes (f_referrals s) !! c) as [owner|] eqn:Eo; [|done].
  case_bool_decide as C2; [done|]. destruct (claims (f_referrals s) !! pk) eqn:Ec; [done|].
  destruct H as [Hn0 Ho Hc Hl Hq]. split; cbn [snd with_referrals f_referrals with_claims owners codes claims f_progress];
    [exact Hn0|exact Ho|exact Hc| |].
  - intros pk' cl. destruct (decide (pk = pk')) as [<-|Hn]; [rewrite lookup_insert_eq|rewrite lookup_insert_ne by done].
    + intros [= <-]. done.
    + apply Hl.
  - intros pk' cl. destruct (decide (pk = pk')) as [<-|Hn]; [rewrite lookup_insert_eq|rewrite lookup_insert_ne by done].
    + by intros [= <-].
    + apply Hq.
Qed.

Lemma linked_serve s req :
  linked cfg s -> codes_free s [req] -> linked cfg (serve hash8 cfg s req).
Proof.
  intros H [Hf _]. unfold serve. destruct req as [now [evs a app|key|key c]]; cbn [fst snd] in *.
  - by apply linked_events.
  - by apply linked_code.
  - by apply linked_postClaim.
Qed.

Lemma linked_serveAll reqs : forall s,
  linked cfg s -> codes_free s reqs -> linked cfg (serveAll hash8 cfg reqs s).
Proof.
  induction reqs as [|req reqs IH]; intros s H Hf; [done|].
  destruct Hf as [Hf1 Hf2]. apply (IH (serve hash8 cfg s req)); [|done]. by apply linked_serve.
Qed.
End serving.

(** ** Two requests on one file *)

Section files.
Context {A : Type}.

(** What one thread can do, and what it makes of the file. *)
Definition acts (file : A) (t : Thread A) : option (A * Thread A) :=
  match t with
  | Idle update => Some (file, Holding (update file))
  | Holding copy => Some (copy, Finished)
  | Finished => None
  end.

Lemma fileStep_acts file ts st :
  fileStep (file, ts) st <->
  exists i t file' t', ts !! i = Some t /\ acts file t = Some (file', t') /\ st = (file', <[i := t']> ts).
Proof.
  split.
  - inversion 1; subst; do 4 eexists; (split; [eassumption|]); done.
  - intros (i & t & file' & t' & Hi & Ha & ->). destruct t; cbn in Ha; simplify_eq; by econstructor.
Qed.

Lemma fileStep_two file t1 t2 st :
  fileStep (file, [t1; t2]) st ->
  (exists file' t', acts file t1 = Some (file', t') /\ st = (file', [t'; t2]))
  \/ (exists file' t', acts file t2 = Some (file', t') /\ st = (file', [t1; t'])).
Proof.
  intros (i & t & file' & t' & Hi & Ha & ->)%fileStep_acts. destruct i as [|[|]]; [left|right|done];
    injection Hi as ->; eauto.
Qed.

Lemma done_two (file : A) st : rtc fileStep (file, [Finished; Finished]) st -> st = (file, [Finished; Finished]).
Proof.
  inversion 1 as [|? y ? Hs]; subst; [done|].
  apply fileStep_two in Hs as [(? & ? & E & _)|(? & ? & E & _)]; done.
Qed.
End files.

(** ** Theorems *)

(** C25. The boards are a recount: after a batch of events, a player's entry on
    any weekly or season board is the entry of before with exactly the events
    added that count for this player in this week or month, in their order; in
    particular every such event is one game more. *)
Theorem boards_recount cfg now evs s key player :
  let s' := ingestEvents cfg now evs s in
  let week := List.filter (counts cfg formatWeekKey key player) evs in
  let month := List.filter (counts cfg formatSeasonKey key player) evs in
  entryOf (f_leagues s') key player = recount cfg (entryOf (f_leagues s) key player) week
  /\ entryOf (f_seasons s') key player = recount cfg (entryOf (f_seasons s) key player) month
  /\ default 0 (games <$> entryOf (f_leagues s') key player)
     = default 0 (games <$> entryOf (f_leagues s) key player) + len week.
Proof.
  intros s' week month.
  assert (H : entryOf (f_leagues s') key player = recount cfg (entryOf (f_leagues s) key player) week
    /\ entryOf (f_seasons s') key player = recount cfg (entryOf (f_seasons s) key player) month).
  { unfold s', ingestEvents. destruct evs as [|e evs]; [done|]. cbv zeta. set (s1 := with_events _ _).
    rewrite (recount_filter cfg (counts cfg formatWeekKey key player) (e :: evs)
      (fun s => entryOf (f_leagues s) key player)), (recount_filter cfg (counts cfg formatSeasonKey key player)
      (e :: evs) (fun s => entryOf (f_seasons s) key player)); [done| |];
      intros; apply ingest_boards. }
  destruct H as [-> ->]. split; [done|]. split; [done|]. apply recount_games.
Qed.

(** As long as no new code is taken already, whatever requests the service
    answers: codes and owners stay inverse to each other, no player claims
    their own code, a claim names the owner of its code, and who is qualified
    has played the games and days the configuration asks for. *)
Theorem referrals_linked hash8 cfg reqs s :
  (forall k, String.length (hash8 k) = 8%nat) ->
  linked cfg s -> codes_free hash8 cfg s reqs -> linked cfg (serveAll hash8 cfg reqs s).
Proof. intros Hh H Hf. by apply linked_serveAll. Qed.

(** The loop that looks for a code gives up after ten attempts: when all eleven
    candidates belong to other players, the last of them is taken over, and its
    code now leads to the new player. *)
Theorem exhausted_code_stolen hash8 key s pk :
  pk = normalizeHex key -> validKey pk = true -> owners (f_referrals s) !! pk = None ->
  (forall i, (i <= 10)%nat ->
    takenByOther pk (codes (f_referrals s)) (candidate (hash8 pk) (Z.of_nat i)) = true) ->
  exists c victim s', postCode hash8 key s = (Ok c, s')
    /\ codes (f_referrals s) !! c = Some victim /\ victim <> pk
    /\ codes (f_referrals s') !! c = Some pk
    /\ (pk <> victim -> owners (f_referrals s') !! victim = owners (f_referrals s) !! victim).
Proof.
  intros -> Hv Ho Hall. unfold postCode. rewrite Hv, Ho. cbn [negb mbind option_bind].
  pose proof (proj2 (code_loop 10 (normalizeHex key) (hash8 (normalizeHex key)) (codes (f_referrals s)) 0) Hall) as Ht.
  fold (createReferralCode hash8 (normalizeHex key) (codes (f_referrals s))) in Ht.
  set (c := createReferralCode _ _ _) in *. unfold takenByOther in Ht.
  destruct (codes (f_referrals s) !! c) as [victim|] eqn:Ec; [|done]. bprop.
  exists c, victim. eexists. split; [done|]. split; [done|]. split; [done|].
  cbn [with_referrals f_referrals codes owners]. split; [by rewrite lookup_insert_eq|].
  intros Hn. by rewrite lookup_insert_ne.
Qed.

(** Two requests that update the same file without a lock: the runs end
    with both updates, in either order, or with one of them lost, and all four
    happen.  Concurrent events of the boards can therefore lose games. *)
Theorem concurrent_updates {A : Type} (f g : A -> A) (file final : A) :
  rtc fileStep (file, [Idle f; Idle g]) (final, [Finished; Finished])
  <-> final = g (f file) \/ final = f (g file) \/ final = f file \/ final = g file.
Proof.
  split.
  - intros H. do 4 (inversion H as [|? y ? Hs Hr]; clear H; simplify_eq;
      apply fileStep_two in Hs as [(? & ? & E & ->)|(? & ? & E & ->)]; cbn in E; simplify_eq; rename Hr into H);
      apply done_two in H; simplify_eq; auto.
  - assert (Hstep : forall i (file : A) ts t file' t' st, ts !! i = Some t -> acts file t = Some (file', t') ->
      rtc fileStep (file', <[i := t']> ts) st -> rtc fileStep (file, ts) st).
    { intros i fl ts t fl' t' st Hi Ha Hr. eapply rtc_l; [|exact Hr]. apply fileStep_acts. eauto 10. }
    intros [-> | [-> | [-> | ->]]].
    + do 2 (eapply (Hstep 0%nat); [done|done|]; cbn). do 2 (eapply (Hstep 1%nat); [done|done|]; cbn). done.
    + do 2 (eapply (Hstep 1%nat); [done|done|]; cbn). do 2 (eapply (Hstep 0%nat); [done|done|]; cbn). done.
    + eapply (Hstep 0%nat); [done|done|]; cbn. do 2 (eapply (Hstep 1%nat); [done|done|]; cbn).
      eapply (Hstep 0%nat); [done|done|]; cbn. done.
    + eapply (Hstep 1%nat); [done|done|]; cbn. do 2 (eapply (Hstep 0%nat); [done|done|]; cbn).
      eapply (Hstep 1%nat); [done|done|]; cbn. done.
Qed.

(** The leaderboard of a week has the players of its board, each once, by
    falling points. *)
Theorem leaderboard_sorted week now s board :
  f_leagues s !! week = Some board ->
  StronglySorted by_points (leaderboard (Some week) None now s)
  /\ leaderboard (Some week) None now s ≡ₚ map_to_list board.
Proof.
  intros H. unfold leaderboard. cbn [mbind option_bind default from_option]. unfold id. rewrite H.
  split; [|apply merge_sort_Permutation].
  apply StronglySorted_merge_sort; intros x y; unfold by_points; lia.
Qed.

(** ** Concrete runs *)

Definition emptyStore : Store :=
  {| f_actors := ∅; f_events := ∅; f_leagues := ∅; f_seasons := ∅;
     f_referrals := {| codes := ∅; owners := ∅; claims := ∅ |}; f_progress := ∅ |}.

Definition sampleConfig : Config :=
  {| leaguePointsMode := "wager"; includeFreeroll := false; referralMinGames := 1; referralMinDays := 1 |}.

(** Two keys of 64 digits. *)
Definition keyOf (c : string) : string := String.concat "" (replicate 64 c).
Definition sampleHash (k : string) : string := if bool_decide (k = keyOf "a") then "AAAAAAAA" else "BBBBBBBB".

Definition noActor : ActorInfo :=
  {| a_publicKey := Missing; a_deviceId := Missing; a_platform := Missing; a_appVersion := Missing;
     a_locale := Missing |}.

Definition completed (key : string) (ts : Z) : EventInput :=
  {| ei_ts := Some ts; ei_name := Some "casino.game.completed"; ei_props := None;
     ei_actor := with_publicKey (Text key) noActor; ei_app := Missing |}.

Definition sampleRequests : list (Z * Request) :=
  [(1, R_code (keyOf "a")); (2, R_claim (keyOf "b") "aaaaaaaa");
   (3, R_events [completed (keyOf "b") 1700000000000] noActor Missing)].

Lemma empty_linked cfg : linked cfg emptyStore.
Proof. split; intros pk c; cbn; rewrite ?lookup_empty; done. Qed.

Lemma referrals_linked_witness :
  let s := serveAll sampleHash sampleConfig sampleRequests emptyStore in
  linked sampleConfig s
  /\ (qualifiedAt <$> claims (f_referrals s) !! keyOf "b") = Some (Some 3).
Proof.
  split; [|by vm_compute].
  apply (referrals_linked sampleHash sampleConfig sampleRequests emptyStore).
  - intros k. unfold sampleHash. by destruct (bool_decide _).
  - apply empty_linked.
  - split; [by left; vm_compute|]. by repeat split.
Defined.
