(* ===== verification/OpsPush.v ===== *)
(** * The ops service: push messages and campaigns

    [services/ops/src/server.ts]: push tokens, the selection of a segment, the
    batches sent to Expo, and the campaigns an interval timer works off.  Expo
    is a parameter: what it answers to each batch.  The other content of a
    campaign's data is left out. *)

From stdpp Require Import relations.
From S2P Require Import Prelude JsNum Calendar Ops.

(** ** Tokens *)

Record PushToken := {
  token : string; t_publicKey : option string; t_platform : option string; t_appVersion : option string;
  t_createdAt : Z; lastSeenAt : Z
}.

(** [POST /push/register] *)
Definition postRegister (now : Z) (tokenText : string) (publicKey platform appVersion : Field)
    (tokens : gmap string PushToken) : result unit * gmap string PushToken :=
  let token := trim tokenText in
  if bool_decide (token = "") then (Throw "missing token", tokens)
  else
    (Ok tt,
     <[token := {| token := token; t_publicKey := normalizeHex <$> truthy publicKey;
                   t_platform := truthy platform; t_appVersion := truthy appVersion;
                   t_createdAt := match tokens !! token with Some t => t_createdAt t | None => now end;
                   lastSeenAt := now |}]> tokens).

Record SegmentFilter := {
  inactiveDays : option Z; activeWithinDays : option Z; publicKeys : list string
}.

(** [x ? now - x * 86400000 : null]; the cutoff itself is tested as a truth
    value again. *)
Definition cutoff (now : Z) (days : option Z) : option Z :=
  d ← days;
  if d =? 0 then None
  else let c := now - d * msPerDay in if c =? 0 then None else Some c.

Definition wants (days : option Z) : bool := match days with Some d => negb (d =? 0) | None => false end.

Definition keyAllowed (allowed : list string) (t : PushToken) : bool :=
  match t_publicKey t ≫= nonempty with
  | Some k => bool_decide (normalizeHex k ∈ normalizeHex <$> allowed)
  | None => false
  end.

Definition activityAllowed (now : Z) (segment : SegmentFilter) (actors : gmap string ActorSummary)
    (t : PushToken) : bool :=
  match actor ← (k ← t_publicKey t ≫= nonempty; actors !! normalizeHex k); Some (lastSeen actor) with
  | None => false
  | Some seenAt =>
      match cutoff now (inactiveDays segment) with Some c => negb (c <=? seenAt) | None => true end
      && match cutoff now (activeWithinDays segment) with Some c => negb (seenAt <? c) | None => true end
  end.

Definition resolveTokensForSegment (now : Z) (segment : option SegmentFilter) (tokens : gmap string PushToken)
    (actors : gmap string ActorSummary) : list PushToken :=
  let l := (map_to_list tokens).*2 in
  match segment with
  | None => l
  | Some segment =>
      let l := if 0 <? len (publicKeys segment) then List.filter (keyAllowed (publicKeys segment)) l else l in
      if wants (inactiveDays segment) || wants (activeWithinDays segment)
      then List.filter (activityAllowed now segment actors) l else l
  end.

(** ** Sending *)

Definition batchSize : nat := 100.

(** The slices of the loop; [n] bounds their number. *)
Fixpoint batches {A} (n : nat) (l : list A) : list (list A) :=
  match n, l with
  | O, _ | _, [] => []
  | S n', _ => take batchSize l :: batches n' (drop batchSize l)
  end.

Definition allBatches {A} (l : list A) : list (list A) := batches (length l) l.

(** Send batch after batch until one fails: the batches sent, and the error. *)
Fixpoint sendBatches {A} (expo : list A -> result unit) (bs : list (list A)) : list (list A) * result unit :=
  match bs with
  | [] => ([], Ok tt)
  | b :: bs' =>
      match expo b with
      | Throw e => ([], Throw e)
      | Ok _ => let r := sendBatches expo bs' in (b :: r.1, r.2)
      end
  end.

(** [sendPushToTokens]: what was sent, and the answer. *)
Definition sendPushToTokens {A} (expo : list A -> result unit) (messages : list A)
    : list (list A) * result Z :=
  let r := sendBatches expo (allBatches messages) in
  (r.1, _ ← r.2; Ok (len messages)).

(** [POST /push/send]: given tokens win over the segment. *)
Definition postSend (expo : list (string * (string * string)) -> result unit) (titleText bodyText : string)
    (given : list string) (segment : option SegmentFilter) (now : Z) (tokens : gmap string PushToken)
    (actors : gmap string ActorSummary) : result Z :=
  let title := trim titleText in
  let body := trim bodyText in
  _ ← throw_if (bool_decide (title = "") || bool_decide (body = "")) "missing title/body";
  let recipients :=
    match given with
    | [] => token <$> resolveTokensForSegment now segment tokens actors
    | _ => given
    end in
  (sendPushToTokens expo ((fun t => (t, (title, body))) <$> recipients)).2.

(** ** Campaigns *)

Inductive CampaignStatus := Scheduled | Sent | Failed.

#[export] Instance CampaignStatus_eq_dec : EqDecision CampaignStatus.
Proof. solve_decision. Defined.

Record Campaign := {
  c_id : string; c_title : string; c_body : string; c_sendAtMs : Z; c_status : CampaignStatus;
  c_createdAt : Z; c_sentAtMs : option Z; c_attemptCount : option Z; c_lastError : option string;
  c_sent : option Z; c_segment : option SegmentFilter
}.

(** [POST /crm/campaigns] *)
Definition postCampaign (now : Z) (id titleText bodyText : string) (sendAtMs : option Z)
    (segment : option SegmentFilter) (campaigns : list Campaign) : result string * list Campaign :=
  let title := trim titleText in
  let body := trim bodyText in
  if bool_decide (title = "") || bool_decide (body = "") then (Throw "missing title/body", campaigns)
  else
    (Ok id,
     campaigns ++ [{| c_id := id; c_title := title; c_body := body; c_sendAtMs := default now sendAtMs;
                      c_status := Scheduled; c_createdAt := now; c_sentAtMs := None; c_attemptCount := None;
                      c_lastError := None; c_sent := None; c_segment := segment |}]).

Definition due (now : Z) (c : Campaign) : bool :=
  bool_decide (c_status c = Scheduled) && (c_sendAtMs c <=? now).

(** A campaign after the attempt to send it. *)
Definition attempted (sentAt : Z) (outcome : result Z) (c : Campaign) : Campaign :=
  {| c_id := c_id c; c_title := c_title c; c_body := c_body c; c_sendAtMs := c_sendAtMs c;
     c_status := match outcome with Ok _ => Sent | Throw _ => Failed end;
     c_createdAt := c_createdAt c;
     c_sentAtMs := match outcome with Ok _ => Some sentAt | Throw _ => c_sentAtMs c end;
     c_attemptCount := Some (default 0 (c_attemptCount c) + 1);
     c_lastError := match outcome with Ok _ => None | Throw e => Some e end;
     c_sent := match outcome with Ok n => Some n | Throw _ => c_sent c end;
     c_segment := c_segment c |}.

(** [processCampaigns] without anything in between: the loop over the campaigns,
    the ids of the attempts, and whether the file is written. *)
Fixpoint processAll (now : Z) (send : Campaign -> result Z) (campaigns : list Campaign)
    : list Campaign * list string :=
  match campaigns with
  | [] => ([], [])
  | c :: cs =>
      let r := processAll now send cs in
      if due now c then (attempted now (send c) c :: r.1, c_id c :: r.2) else (c :: r.1, r.2)
  end.

(** *** With what happens while it waits

    A run holds the copy of the file it has read: the campaigns it is done with
    and those to come.  It writes the copy at the end if it tried to send
    something.  The timer starts a run whether or not one is going on. *)

Record Run := { r_now : Z; r_done : list Campaign; r_todo : list Campaign; r_changed : bool }.

Record Service := { campaigns : list Campaign; runs : list Run; attempts : list string }.

Inductive campaignStep : Service -> Service -> Prop :=
| step_create s c :
    campaignStep s {| campaigns := campaigns s ++ [c]; runs := runs s; attempts := attempts s |}
| step_tick s now :
    campaignStep s
      {| campaigns := campaigns s;
         runs := runs s ++ [{| r_now := now; r_done := []; r_todo := campaigns s; r_changed := false |}];
         attempts := attempts s |}
| step_skip s i r c cs :
    runs s !! i = Some r -> r_todo r = c :: cs -> due (r_now r) c = false ->
    campaignStep s
      {| campaigns := campaigns s;
         runs := <[i := {| r_now := r_now r; r_done := r_done r ++ [c]; r_todo := cs;
                           r_changed := r_changed r |}]> (runs s);
         attempts := attempts s |}
| step_send s i r c cs sentAt outcome :
    runs s !! i = Some r -> r_todo r = c :: cs -> due (r_now r) c = true ->
    campaignStep s
      {| campaigns := campaigns s;
         runs := <[i := {| r_now := r_now r; r_done := r_done r ++ [attempted sentAt outcome c]; r_todo := cs;
                           r_changed := true |}]> (runs s);
         attempts := attempts s ++ [c_id c] |}
| step_finish s i r :
    runs s !! i = Some r -> r_todo r = [] ->
    campaignStep s
      {| campaigns := if r_changed r then r_done r else campaigns s;
         runs := delete i (runs s);
         attempts := attempts s |}.
