(* ===== verification/OpsPushCorrect.v ===== *)
(** * Correctness of push messages and campaigns *)

From stdpp Require Import relations.
From S2P Require Import Prelude JsNum Calendar Ops OpsPush.

(** ** Batches *)

Lemma batches_spec {A} n (l : list A) :
  (length l <= n)%nat -> concat (batches n l) = l /\ Forall (fun b => 0 < len b <= 100) (batches n l).
Proof.
  revert l. induction n as [|n IH]; intros l Hn.
  - destruct l; [done|cbn in Hn; lia].
  - destruct l as [|x l]; [by split|]. cbn [batches].
    destruct (IH (drop batchSize (x :: l))) as [H1 H2].
    { rewrite length_drop. unfold batchSize. cbn in *. lia. }
    split.
    + cbn [concat]. rewrite H1. apply take_drop.
    + constructor; [|done]. unfold len. rewrite length_take. unfold batchSize. cbn [length]. lia.
Qed.

Lemma sendBatches_spec {A} (expo : list A -> result unit) bs sent r :
  sendBatches expo bs = (sent, r) ->
  match r with
  | Ok _ => sent = bs
  | Throw e => exists b rest, bs = sent ++ b :: rest /\ expo b = Throw e
  end.
Proof.
  revert sent r. induction bs as [|b bs IH]; intros sent r; cbn [sendBatches]; [by intros [= <- <-]|].
  destruct (expo b) as [u|e] eqn:E; [|intros [= <- <-]; by exists b, bs].
  destruct (sendBatches expo bs) as [sent' r'] eqn:E'. intros [= <- <-]. specialize (IH sent' r' eq_refl).
  cbn [fst snd] in *. destruct r' as [|e]; [by subst|].
  destruct IH as (b' & rest & -> & Hb). exists b', rest. done.
Qed.

(** ** Campaigns, one operation after the other *)

Inductive SeqOp := Create (c : Campaign) | Tick (now : Z) (send : Campaign -> result Z).

Definition seqStep (st : list Campaign * list string) (o : SeqOp) : list Campaign * list string :=
  match o with
  | Create c => (st.1 ++ [c], st.2)
  | Tick now send => let r := processAll now send st.1 in (r.1, st.2 ++ r.2)
  end.

Definition seqRun (ops : list SeqOp) : list Campaign * list string := foldl seqStep ([], []) ops.

Definition created (ops : list SeqOp) : list Campaign :=
  omap (fun o => match o with Create c => Some c | _ => None end) ops.

(** Who was tried is not scheduled any more, and the other way round. *)
Definition accounted (st : list Campaign * list string) : Prop :=
  NoDup st.2 /\ (forall id, id ∈ st.2 -> id ∈ c_id <$> st.1)
  /\ Forall (fun c => c_status c = Scheduled <-> c_id c ∉ st.2) st.1.

Lemma processAll_ids now send cs : c_id <$> (processAll now send cs).1 = c_id <$> cs.
Proof.
  induction cs as [|c cs IH]; [done|]. cbn [processAll]. destruct (due now c); cbn; by rewrite IH.
Qed.

Lemma processAll_log now send cs id :
  id ∈ (processAll now send cs).2 <-> exists c, c ∈ cs /\ due now c = true /\ c_id c = id.
Proof.
  induction cs as [|c cs IH]; cbn [processAll]; [by rewrite elem_of_nil; split; [|intros (? & []%elem_of_nil & _)]|].
  destruct (due now c) eqn:E; cbn [snd]; rewrite ?elem_of_cons, IH; split.
  - intros [->|(d & H & Hd & <-)]; [exists c|exists d]; (split; [|done]); rewrite elem_of_cons; auto.
  - intros (d & [->|H]%elem_of_cons & Hd & <-); eauto.
  - intros (d & H & Hd & <-). exists d. split; [|done]. rewrite elem_of_cons. auto.
  - intros (d & [->|H]%elem_of_cons & Hd & <-); [congruence|eauto].
Qed.

Lemma processAll_nodup now send cs : NoDup (c_id <$> cs) -> NoDup (processAll now send cs).2.
Proof.
  induction cs as [|c cs IH]; cbn; [constructor|]. intros [Hc Hn]%NoDup_cons.
  destruct (due now c); cbn [snd]; [|by apply IH]. constructor; [|by apply IH].
  intros (d & Hd & _ & E)%processAll_log. apply Hc. rewrite <- E. by apply list_elem_of_fmap_2.
Qed.

(** A campaign of the result: as it was, or tried and no longer scheduled. *)
Lemma processAll_elem now send cs d :
  d ∈ (processAll now send cs).1 ->
  exists c, c ∈ cs /\ c_id c = c_id d
    /\ (if due now c then c_status d <> Scheduled else d = c).
Proof.
  induction cs as [|c cs IH]; cbn [processAll]; [by intros []%elem_of_nil|].
  destruct (due now c) eqn:E; cbn [fst]; intros [->|H]%elem_of_cons.
  - exists c. rewrite E. split; [constructor|]. split; [done|]. cbn. by destruct (send c).
  - destruct (IH H) as (x & ? & ?). exists x. split; [by constructor|done].
  - exists c. rewrite E. split; [constructor|done].
  - destruct (IH H) as (x & ? & ?). exists x. split; [by constructor|done].
Qed.

Lemma due_scheduled now c : due now c = true -> c_status c = Scheduled.
Proof. unfold due. intros. by bprop. Qed.

Lemma same_id (cs : list Campaign) c d :
  NoDup (c_id <$> cs) -> c ∈ cs -> d ∈ cs -> c_id c = c_id d -> c = d.
Proof.
  intros Hn [i Hi]%list_elem_of_lookup_1 [j Hj]%list_elem_of_lookup_1 E.
  assert (i = j) as ->; [|congruence].
  eapply NoDup_lookup; [exact Hn| |]; rewrite list_lookup_fmap; [rewrite Hi|rewrite Hj]; cbn; by rewrite ?E.
Qed.

Lemma accounted_tick st now send :
  NoDup (c_id <$> st.1) -> accounted st -> accounted (seqStep st (Tick now send)).
Proof.
  destruct st as [cs log]. intros Hn (Hd & Hin & Hs). cbn [fst snd seqStep] in *.
  rewrite Forall_forall in Hs.
  assert (Hfresh : forall id, id ∈ (processAll now send cs).2 -> id ∉ log).
  { intros id (c & Hc & Hdue & <-)%processAll_log. apply (Hs c Hc). by eapply due_scheduled. }
  split; [|split]; cbn [fst snd].
  - apply NoDup_app. split; [done|]. split; [|by apply processAll_nodup].
    intros id H1 H2. by apply (Hfresh id).
  - rewrite processAll_ids. intros id [H|H]%elem_of_app; [by apply Hin|].
    apply processAll_log in H as (c & Hc & _ & <-). by apply list_elem_of_fmap_2.
  - apply Forall_forall. intros d Hd'.
    destruct (processAll_elem _ _ _ _ Hd') as (c & Hc & Hid & Hcase). rewrite <- Hid, elem_of_app, processAll_log.
    destruct (due now c) eqn:E.
    + split; [done|]. intros H. exfalso. apply H. right. eauto.
    + subst d. rewrite (Hs c Hc). split; [|tauto]. intros H [H'|(x & Hx & Hdx & Hix)]; [done|].
      rewrite (same_id cs x c Hn Hx Hc Hix) in Hdx. congruence.
Qed.

Lemma accounted_create st c :
  c_id c ∉ c_id <$> st.1 -> c_status c = Scheduled -> accounted st -> accounted (seqStep st (Create c)).
Proof.
  intros Hc Hst (Hd & Hin & Hs). split; [done|]. cbn [seqStep fst snd]. split.
  - intros id H. rewrite fmap_app. apply elem_of_app. left. by apply Hin.
  - apply Forall_app. split; [done|]. apply Forall_singleton. split; [|done]. intros _ H. by apply Hc, Hin.
Qed.

Lemma seqRun_snoc ops o : seqRun (ops ++ [o]) = seqStep (seqRun ops) o.
Proof. unfold seqRun. by rewrite foldl_app. Qed.

Lemma seqRun_ids ops : c_id <$> (seqRun ops).1 = c_id <$> created ops.
Proof.
  induction ops as [|o ops IH] using rev_ind; [done|]. rewrite seqRun_snoc. unfold created. rewrite omap_app, fmap_app.
  fold (created ops). rewrite <- IH. destruct o as [c|now send]; cbn [seqStep fst omap list_omap].
  - by rewrite fmap_app.
  - by rewrite processAll_ids, app_nil_r.
Qed.

Lemma seqRun_accounted ops :
  NoDup (c_id <$> created ops) -> Forall (fun c => c_status c = Scheduled) (created ops) -> accounted (seqRun ops).
Proof.
  induction ops as [|o ops IH] using rev_ind; intros Hn Hs.
  { split; [constructor|]. split; [by intros id []%elem_of_nil|constructor]. }
  unfold created in Hn, Hs. rewrite omap_app in Hn, Hs. fold (created ops) in Hn, Hs.
  rewrite fmap_app in Hn. apply NoDup_app in Hn as (Hn & Hdis & _). apply Forall_app in Hs as [Hs Hs'].
  rewrite seqRun_snoc. specialize (IH Hn Hs). destruct o as [c|now send].
  - apply accounted_create; [|by apply (Forall_inv Hs')|done]. rewrite seqRun_ids. intros H. by apply (Hdis _ H); left.
  - apply accounted_tick; [|done]. by rewrite seqRun_ids.
Qed.

Lemma processAll_none_due now send cs : Forall (fun c => due now c = false) (processAll now send cs).1.
Proof.
  apply Forall_forall. intros d Hd. destruct (processAll_elem _ _ _ _ Hd) as (c & _ & _ & H).
  destruct (due now c) eqn:E; [|by subst]. destruct (due now d) eqn:E'; [|done]. by apply due_scheduled in E'.
Qed.

(** ** A run by steps *)

(** The steps of a run alone do what [processAll] does. *)
Lemma run_steps now send todo : forall file fin changed log,
  rtc campaignStep
    {| campaigns := file; runs := [{| r_now := now; r_done := fin; r_todo := todo; r_changed := changed |}];
       attempts := log |}
    {| campaigns := if changed || existsb (due now) todo then fin ++ (processAll now send todo).1 else file;
       runs := []; attempts := log ++ (processAll now send todo).2 |}.
Proof.
  induction todo as [|c cs IH]; intros file fin changed log; cbn [processAll existsb fst snd].
  - rewrite orb_false_r, !app_nil_r. eapply rtc_l; [by eapply (step_finish _ 0%nat)|]. done.
  - destruct (due now c) eqn:E; cbn [fst snd orb].
    + eapply rtc_l; [by eapply (step_send _ 0%nat _ c cs now (send c))|]. cbn.
      rewrite orb_true_r. replace (fin ++ attempted now (send c) c :: (processAll now send cs).1)
        with ((fin ++ [attempted now (send c) c]) ++ (processAll now send cs).1) by by rewrite <- app_assoc.
      replace (log ++ c_id c :: (processAll now send cs).2) with ((log ++ [c_id c]) ++ (processAll now send cs).2)
        by by rewrite <- app_assoc.
      apply (IH file _ true).
    + eapply rtc_l; [by eapply (step_skip _ 0%nat _ c cs)|]. cbn.
      replace (fin ++ c :: (processAll now send cs).1) with ((fin ++ [c]) ++ (processAll now send cs).1)
        by by rewrite <- app_assoc.
      apply (IH file _ changed).
Qed.

Lemma processAll_unchanged now send cs : existsb (due now) cs = false -> (processAll now send cs).1 = cs.
Proof.
  induction cs as [|c cs IH]; [done|]. cbn [existsb processAll]. intros [H1 H2]%orb_false_elim.
  rewrite H1. cbn. by rewrite IH.
Qed.

(** ** Theorems *)

(** Sending to a list of recipients goes out in batches of one to a hundred:
    without an error everybody got the message, once and in order, and the
    answer is their number; when a batch fails, exactly the batches before it
    were sent, and nothing after it. *)
Theorem push_batches {A} (expo : list A -> result unit) (messages : list A) :
  let '(sent, answer) := sendPushToTokens expo messages in
  Forall (fun b => 0 < len b <= 100) sent
  /\ match answer with
     | Ok n => concat sent = messages /\ n = len messages
     | Throw e => exists b rest, messages = concat sent ++ b ++ rest /\ expo b = Throw e /\ 0 < len b <= 100
     end.
Proof.
  unfold sendPushToTokens. destruct (sendBatches expo (allBatches messages)) as [sent r] eqn:E. cbn [fst snd].
  destruct (batches_spec (length messages) messages (Nat.le_refl _)) as [Hc Hf]. fold (allBatches messages) in *.
  apply sendBatches_spec in E. destruct r as [u|e]; cbn [mbind result_bind].
  - by subst.
  - destruct E as (b & rest & E & Hb). rewrite E in Hc, Hf. rewrite concat_app in Hc. cbn in Hc.
    apply Forall_app in Hf as [Hf1 Hf2]. split; [done|].
    exists b, (concat rest). split; [done|]. split; [done|]. by apply (Forall_inv Hf2).
Qed.

(** Creating campaigns and working them off one after the other: every
    campaign is tried at most once, the tried ones are exactly those that are
    not scheduled any more, and after the timer no campaign is left that was
    due. *)
Theorem campaigns_once ops now send :
  NoDup (c_id <$> created ops) -> Forall (fun c => c_status c = Scheduled) (created ops) ->
  let '(cs, log) := seqRun (ops ++ [Tick now send]) in
  NoDup log /\ c_id <$> cs = c_id <$> created ops
  /\ Forall (fun c => (c_status c = Scheduled <-> c_id c ∉ log) /\ due now c = false) cs.
Proof.
  intros Hn Hs. pose proof (seqRun_ids (ops ++ [Tick now send])) as Hi.
  assert (Ec : created (ops ++ [Tick now send]) = created ops) by (unfold created; by rewrite omap_app, app_nil_r).
  rewrite Ec in Hi. pose proof (seqRun_accounted (ops ++ [Tick now send])) as H. rewrite Ec in H.
  destruct (H Hn Hs) as (H1 & _ & H3).
  pose proof (processAll_none_due now send (seqRun ops).1) as Hd.
  change (processAll now send (seqRun ops).1).1 with (seqStep (seqRun ops) (Tick now send)).1 in Hd.
  rewrite <- seqRun_snoc in Hd.
  destruct (seqRun (ops ++ [Tick now send])) as [cs log]. cbn [fst snd] in *.
  split; [done|]. split; [done|]. apply Forall_and. done.
Qed.

(** The timer as steps refines the loop: a run that nothing happens
    beside ends in the file and the attempts of [processAll]. *)
Theorem tick_refines now send cs log :
  rtc campaignStep {| campaigns := cs; runs := []; attempts := log |}
    {| campaigns := (processAll now send cs).1; runs := []; attempts := log ++ (processAll now send cs).2 |}.
Proof.
  eapply rtc_l; [apply (step_tick _ now)|]. cbn.
  pose proof (run_steps now send cs cs [] false log) as H. cbn [orb app] in H.
  destruct (existsb (due now) cs) eqn:E; [exact H|].
  rewrite (processAll_unchanged now send cs E) at 1. exact H.
Qed.

(** But the timer does not wait for the last run, and a run writes back the
    file it read: a due campaign can be sent twice, and a campaign created in
    the meantime is lost without ever being sent. *)
Theorem campaigns_race now c c' :
  due now c = true ->
  exists s, rtc campaignStep {| campaigns := [c]; runs := []; attempts := [] |} s
    /\ attempts s = [c_id c; c_id c] /\ runs s = [] /\ c_id <$> campaigns s = [c_id c]
    /\ exists mid, rtc campaignStep {| campaigns := [c]; runs := []; attempts := [] |} mid
         /\ rtc campaignStep mid s /\ campaigns mid = [c; c'].
Proof.
  intros H.
  set (r := {| r_now := now; r_done := []; r_todo := [c]; r_changed := false |}).
  set (r' := {| r_now := now; r_done := [attempted now (Ok 1) c]; r_todo := []; r_changed := true |}).
  set (mid := {| campaigns := [c; c']; runs := [r; r]; attempts := [] |}).
  set (fin := {| campaigns := [attempted now (Ok 1) c]; runs := []; attempts := [c_id c; c_id c] |}).
  assert (H1 : rtc campaignStep {| campaigns := [c]; runs := []; attempts := [] |} mid).
  { eapply rtc_l; [apply (step_tick _ now)|]. eapply rtc_l; [apply (step_tick _ now)|].
    eapply rtc_l; [apply (step_create _ c')|]. done. }
  assert (H2 : rtc campaignStep mid fin).
  { eapply rtc_l; [by apply (step_send mid 0%nat r c [] now (Ok 1))|].
    eapply rtc_l; [by apply (step_send _ 1%nat r c [] now (Ok 1))|].
    eapply rtc_l; [by apply (step_finish _ 0%nat r')|]. eapply rtc_l; [by apply (step_finish _ 0%nat r')|]. done. }
  exists fin. split; [by transitivity mid|]. do 3 (split; [done|]). exists mid. done.
Qed.

(** ** Concrete runs *)

Definition newsletter (id : string) (sendAt : Z) : Campaign :=
  {| c_id := id; c_title := "Hi"; c_body := "there"; c_sendAtMs := sendAt; c_status := Scheduled; c_createdAt := 0;
     c_sentAtMs := None; c_attemptCount := None; c_lastError := None; c_sent := None; c_segment := None |}.

Lemma campaigns_once_witness :
  let ops := [Create (newsletter "a" 5); Tick 7 (fun _ => Ok 3); Create (newsletter "b" 9)] in
  let '(cs, log) := seqRun (ops ++ [Tick 8 (fun _ => Ok 3)]) in
  NoDup log /\ c_id <$> cs = c_id <$> created ops
  /\ Forall (fun c => (c_status c = Scheduled <-> c_id c ∉ log) /\ due 8 c = false) cs.
Proof.
  apply (campaigns_once [Create (newsletter "a" 5); Tick 7 (fun _ => Ok 3); Create (newsletter "b" 9)] 8 (fun _ => Ok 3)).
  - apply (bool_decide_unpack _). vm_compute. exact I.
  - by repeat constructor.
Defined.

Lemma campaigns_race_witness :
  exists s, rtc campaignStep {| campaigns := [newsletter "a" 5]; runs := []; attempts := [] |} s
    /\ attempts s = ["a"; "a"].
Proof.
  destruct (campaigns_race 7 (newsletter "a" 5) (newsletter "b" 6) eq_refl) as (s & H & Ha & _).
  by exists s.
Defined.
