(* ===== verification/OpsKpis.v ===== *)
(** * The ops service: key figures

    [GET /analytics/kpis] of [services/ops/src/server.ts]: the events of the
    files of a range of days, and what is counted in them.  Quotients are left
    as pairs; the range is given in milliseconds.  Then the theorems: days are
    read back completely and the figures fit together. *)

From S2P Require Import Prelude JsNum Arith Calendar Ops.

(** ** Reading the day files *)

Definition dayKeys (since until : Z) : list string :=
  (fun d => formatDayKey (d * msPerDay)) <$> seqZ (Day since) (Day until - Day since + 1).

Definition inRange (since until : Z) (e : Event) : bool := (since <=? e_ts e) && (e_ts e <=? until).

Definition loadEventsInRange (since until : Z) (files : gmap string (list Event)) : list Event :=
  match newDate since, newDate until with
  | Some _, Some _ =>
      dayKeys since until ≫= fun dayKey => List.filter (inRange since until) (default [] (files !! dayKey))
  | _, _ => []
  end.

(** [Date.parse(`${day}T00:00:00Z`)] for the key of a day with a year of four
    digits; other years are not in the format. *)
Definition dayToMs (day : string) : option Z :=
  if negb (String.length day =? 10)%nat then None
  else
    y ← parse_decimal (String.substring 0 4 day);
    m ← parse_decimal (String.substring 5 2 day);
    d ← parse_decimal (String.substring 8 2 day);
    Some (MakeDay y (m - 1) d * msPerDay).

(** Comparing with the time of a day; [NaN] compares as false. *)
Definition at_least (day : string) (t : option Z) : bool :=
  match dayToMs day, t with Some a, Some b => b <=? a | _, _ => false end.
Definition at_most (day : string) (t : Z) : bool :=
  match dayToMs day with Some a => a <=? t | None => false end.

(** ** The loop over the events *)

Record Tally := {
  actorsByDay : gmap string (gset string);
  actorDays : gmap string (gset string);
  firstSeen : gmap string string;
  byName : gmap string Z;
  revenue : Z;
  converted : gset string
}.

Definition noTally : Tally :=
  {| actorsByDay := ∅; actorDays := ∅; firstSeen := ∅; byName := ∅; revenue := 0; converted := ∅ |}.

(** [if (!map.has(k)) map.set(k, new Set()); map.get(k).add(x)] *)
Definition addTo (k x : string) (m : gmap string (gset string)) : gmap string (gset string) :=
  <[k := {[x]} ∪ default ∅ (m !! k)]> m.

Definition isBilling (e : Event) : bool := String.prefix "billing." (e_name e).

Definition tally (t : Tally) (e : Event) : Tally :=
  let actor := getActorId (e_actor e) in
  let dayKey := formatDayKey (e_ts e) in
  let amount := match numberOf (e_props e) "amount" with Finite a => if 0 <? a then a else 0 | NotFinite => 0 end in
  {| actorsByDay := match actor with Some a => addTo dayKey a (actorsByDay t) | None => actorsByDay t end;
     actorDays := match actor with Some a => addTo a dayKey (actorDays t) | None => actorDays t end;
     firstSeen :=
       match actor with
       | Some a => match firstSeen t !! a with Some _ => firstSeen t | None => <[a := dayKey]> (firstSeen t) end
       | None => firstSeen t
       end;
     byName := <[e_name e := default 0 (byName t !! e_name e) + 1]> (byName t);
     revenue := if isBilling e then js_add (revenue t) amount else revenue t;
     converted := if isBilling e then match actor with Some a => {[a]} ∪ converted t | None => converted t end
                  else converted t |}.

Definition tallyAll (evs : list Event) : Tally := foldl tally noTally evs.

(** ** The figures *)

(** The union of the sets of the days that pass a test. *)
Definition actorsOn (test : string -> bool) (m : gmap string (gset string)) : gset string :=
  ⋃ (snd <$> List.filter (fun p => test p.1) (map_to_list m)).

(** [Array.from(keys).sort()] and its last element. *)
Definition lastDay (t : Tally) (until : Z) : string :=
  foldr (fun k best => if String.ltb best k then k else best) "" (fst <$> map_to_list (actorsByDay t)).

Definition shown (t : Tally) (until : Z) : string :=
  if bool_decide (actorsByDay t = ∅) then formatDayKey until else lastDay t until.

Definition daysBefore (day : string) (n : Z) : option Z := ms ← dayToMs day; Some (ms - n * msPerDay).

(** A cohort: who was first seen in the range, [n] days before [until] or more,
    and who of them was seen on the day [n] days later. *)
Definition cohortOf (t : Tally) (since until n : Z) : list (string * string) :=
  List.filter (fun p : string * string =>
      at_least p.2 (Some since) && at_most p.2 until
      && match dayToMs p.2 with
         | Some ms => at_most (formatDayKey (ms + n * msPerDay)) until
         | None => false
         end
      && match actorDays t !! p.1 with Some _ => true | None => false end)
    (map_to_list (firstSeen t)).

Definition retainedOf (t : Tally) (since until n : Z) : list (string * string) :=
  List.filter (fun p : string * string =>
      match dayToMs p.2, actorDays t !! p.1 with
      | Some ms, Some days => bool_decide (formatDayKey (ms + n * msPerDay) ∈ days)
      | _, _ => false
      end)
    (cohortOf t since until n).

Record Kpis := {
  k_activeUsers : Z; k_newUsers : Z; k_dau : Z; k_wau : Z; k_mau : Z;
  k_d7 : Z * Z; k_d30 : Z * Z; k_converted : Z; k_revenue : Z; k_total : Z; k_byName : gmap string Z
}.

Definition sizeZ (s : gset string) : Z := Z.of_nat (size s).

Definition kpis (since until : Z) (files : gmap string (list Event)) : Kpis :=
  let evs := loadEventsInRange since until files in
  let t := tallyAll evs in
  let lastDay := shown t until in
  {| k_activeUsers := sizeZ (actorsOn (fun _ => true) (actorsByDay t));
     k_newUsers := len (List.filter (fun p : string * string => at_least p.2 (Some since)) (map_to_list (firstSeen t)));
     k_dau := match actorsByDay t !! lastDay with Some s => sizeZ s | None => 0 end;
     k_wau := sizeZ (actorsOn (fun day => at_least day (daysBefore lastDay 6)) (actorsByDay t));
     k_mau := sizeZ (actorsOn (fun day => at_least day (daysBefore lastDay 29)) (actorsByDay t));
     k_d7 := (len (retainedOf t since until 7), len (cohortOf t since until 7));
     k_d30 := (len (retainedOf t since until 30), len (cohortOf t since until 30));
     k_converted := sizeZ (converted t);
     k_revenue := revenue t; k_total := len evs; k_byName := byName t |}.

(** * Correctness of the key figures *)

(** ** Reading the files back *)

Definition dated (t : Z) : Prop := Z.abs t <= 8640000000000000.

Lemma Day_bounds t : Day t * msPerDay <= t < (Day t + 1) * msPerDay.
Proof. unfold Day, msPerDay. Z.to_euclidean_division_equations. lia. Qed.

Lemma Day_mono a b : a <= b -> Day a <= Day b.
Proof. unfold Day, msPerDay. intros. Z.to_euclidean_division_equations. lia. Qed.

Lemma dated_midnight t : dated t -> dated (Day t * msPerDay).
Proof. unfold dated, Day, msPerDay. intros. Z.to_euclidean_division_equations. lia. Qed.

Lemma newDate_dated t : dated t -> newDate t = Some t.
Proof. apply newDate_Some. Qed.

(** A key determines its day. *)
Lemma dayKey_inj t t' : dated t -> dated t' -> formatDayKey t = formatDayKey t' -> Day t = Day t'.
Proof.
  intros H H'. unfold formatDayKey. rewrite !newDate_dated by done.
  pose proof (month_range t). pose proof (month_range t'). pose proof (date_range t). pose proof (date_range t').
  intros E. apply append_tail in E as [E1 E]; [|by rewrite !append_length, !pad2_length by lia].
  apply append_tail in E as [_ E]; [|by rewrite !append_length, !pad2_length by lia].
  apply (key_inj pad2) in E as [E2 E3]; [|lia..].
  apply (inj pretty.pretty) in E1. apply pad2_inj in E2; [|lia..].
  rewrite <- (civil_day t), <- (civil_day t'), E1, E3. f_equal. lia.
Qed.

Lemma dayKey_midnight t : dated t -> formatDayKey (Day t * msPerDay) = formatDayKey t.
Proof.
  intros H. unfold formatDayKey. rewrite !newDate_dated by (done || by apply dated_midnight).
  unfold getUTCFullYear, getUTCMonth, getUTCDate. by rewrite Day_midnight.
Qed.

Lemma logged evs : forall files key,
  default [] (foldl logEvent files evs !! key)
  = default [] (files !! key) ++ List.filter (fun e => bool_decide (formatDayKey (e_ts e) = key)) evs.
Proof.
  induction evs as [|e evs IH]; intros files key; [by rewrite app_nil_r|].
  cbn [foldl List.filter]. rewrite IH. unfold logEvent. case_bool_decide as E.
  - rewrite E, lookup_insert_eq. cbn [default from_option]. unfold id. by rewrite <- app_assoc.
  - by rewrite lookup_insert_ne.
Qed.

(** Events sorted into buckets, put together again. *)
Lemma buckets {K} `{EqDecision K} (key : Event -> K) (keys : list K) evs :
  NoDup keys -> (forall e, e ∈ evs -> key e ∈ keys) ->
  keys ≫= (fun k => List.filter (fun e => bool_decide (key e = k)) evs) ≡ₚ evs.
Proof.
  intros Hn. induction evs as [|e evs IH]; intros Hin.
  - clear. induction keys; done.
  - assert (Hk : key e ∈ keys) by (apply Hin; constructor).
    apply list_elem_of_split in Hk as (l1 & l2 & ->).
    apply NoDup_app in Hn as (_ & Hd & Hn2). apply NoDup_cons in Hn2 as [Hn2 _].
    assert (Hskip : forall l, key e ∉ l ->
      l ≫= (fun k => List.filter (fun e => bool_decide (key e = k)) (e :: evs))
      = l ≫= (fun k => List.filter (fun e => bool_decide (key e = k)) evs)).
    { induction l as [|k l IHl]; [done|]. intros [Hne Hl]%not_elem_of_cons. cbn [mbind list_bind List.filter].
      rewrite bool_decide_eq_false_2 by done. f_equal. by apply IHl. }
    specialize (IH ltac:(intros x Hx; apply Hin; by constructor)).
    rewrite bind_app, bind_cons in IH. rewrite bind_app, bind_cons.
    rewrite (Hskip l1) by (intros H; apply (Hd _ H); by left). rewrite (Hskip l2) by done.
    cbn [List.filter]. rewrite bool_decide_eq_true_2 by done.
    rewrite <- app_comm_cons, <- Permutation_middle. by constructor.
Qed.

Lemma filter_filter (f g : Event -> bool) l :
  List.filter f (List.filter g l) = List.filter g (List.filter f l).
Proof.
  induction l as [|x l IH]; [done|]. cbn. destruct (f x) eqn:F, (g x) eqn:G; cbn; rewrite ?F, ?G, IH; done.
Qed.

Lemma elem_of_Lfilter (f : Event -> bool) e l : e ∈ List.filter f l <-> e ∈ l /\ f e = true.
Proof. by rewrite !list_elem_of_In, List.filter_In. Qed.

(** ** What the loop has counted *)

Section tallied.
Context (evs : list Event).

Definition seenOn (a key : string) : Prop :=
  exists e, e ∈ evs /\ getActorId (e_actor e) = Some a /\ formatDayKey (e_ts e) = key.

Record tallied (t : Tally) : Prop := {
  ta_byDay k a : a ∈ default ∅ (actorsByDay t !! k) <-> seenOn a k;
  ta_days a k : k ∈ default ∅ (actorDays t !! a) <-> seenOn a k;
  ta_first a k : firstSeen t !! a = Some k -> seenOn a k;
  ta_firstDom a k : seenOn a k -> is_Some (firstSeen t !! a);
  ta_converted a : a ∈ converted t -> exists k, seenOn a k;
  ta_daysDom a s : actorDays t !! a = Some s -> exists k, seenOn a k;
  ta_byDayDom k s : actorsByDay t !! k = Some s -> exists a, seenOn a k
}.
End tallied.

Lemma seenOn_snoc evs e a k :
  seenOn (evs ++ [e]) a k <-> seenOn evs a k \/ (getActorId (e_actor e) = Some a /\ formatDayKey (e_ts e) = k).
Proof.
  unfold seenOn. setoid_rewrite elem_of_app. setoid_rewrite list_elem_of_singleton. split.
  - intros (x & [H| ->] & ?); eauto.
  - intros [(x & ? & ?)|?]; eauto 10.
Qed.

Lemma addTo_elem k x k' y (m : gmap string (gset string)) :
  y ∈ default ∅ (addTo k x m !! k') <-> y ∈ default ∅ (m !! k') \/ (k = k' /\ x = y).
Proof.
  unfold addTo. destruct (decide (k = k')) as [<-|Hn].
  - rewrite lookup_insert_eq. cbn. set_solver.
  - rewrite lookup_insert_ne by done. naive_solver.
Qed.

Lemma addTo_dom k x k' (m : gmap string (gset string)) s :
  addTo k x m !! k' = Some s -> k = k' \/ m !! k' = Some s.
Proof.
  unfold addTo. destruct (decide (k = k')) as [<-|Hn]; [by left|]. rewrite lookup_insert_ne by done. auto.
Qed.

Lemma tallyAll_snoc evs e : tallyAll (evs ++ [e]) = tally (tallyAll evs) e.
Proof. unfold tallyAll. by rewrite foldl_app. Qed.

Lemma tallyAll_tallied evs : tallied evs (tallyAll evs).
Proof.
  induction evs as [|e evs IH] using rev_ind.
  { assert (Hno : forall a k, ~ seenOn [] a k) by (by intros a k (e & []%elem_of_nil & _)).
    split; cbn; intros; rewrite ?lookup_empty in *; cbn in *; set_solver. }
  rewrite tallyAll_snoc. set (t := tallyAll evs) in *. destruct IH as [H1 H2 H3 H4 H5 H6 H7]. unfold tally.
  destruct (getActorId (e_actor e)) as [b|] eqn:Ea; split; cbn [actorsByDay actorDays firstSeen converted];
    intros; rewrite ?seenOn_snoc, ?Ea in *.
  - rewrite addTo_elem, H1. naive_solver.
  - rewrite addTo_elem, H2. naive_solver.
  - destruct (firstSeen t !! b) eqn:Eb; [left; eauto|].
    destruct (decide (b = a)) as [<-|Hn]; [rewrite lookup_insert_eq in H; naive_solver|].
    rewrite lookup_insert_ne in H by done. eauto.
  - destruct (firstSeen t !! b) eqn:Eb.
    + destruct H as [H|[[= <-] _]]; [eauto|by rewrite Eb].
    + destruct (decide (b = a)) as [<-|Hn]; [by rewrite lookup_insert_eq|].
      rewrite lookup_insert_ne by done. naive_solver.
  - setoid_rewrite seenOn_snoc. destruct (isBilling e); [|destruct (H5 a H) as [k ?]; eauto].
    apply elem_of_union in H as [->%elem_of_singleton|H]; [eauto|]. destruct (H5 a H) as [k ?]. eauto.
  - setoid_rewrite seenOn_snoc. apply addTo_dom in H as [->|H]; [eauto|]. destruct (H6 a s H) as [k ?]. eauto.
  - setoid_rewrite seenOn_snoc. apply addTo_dom in H as [->|H]; [eauto|]. destruct (H7 k s H) as [a ?]. eauto.
  - rewrite H1. naive_solver.
  - rewrite H2. naive_solver.
  - eauto.
  - destruct H as [H|[? _]]; [eauto|done].
  - setoid_rewrite seenOn_snoc. destruct (H5 a) as [k ?]; [by destruct (isBilling e)|]. eauto.
  - setoid_rewrite seenOn_snoc. destruct (H6 a s H) as [k ?]. eauto.
  - setoid_rewrite seenOn_snoc. destruct (H7 k s H) as [a ?]. eauto.
Qed.

Lemma actorsOn_elem test m a :
  a ∈ actorsOn test m <-> exists k s, m !! k = Some s /\ test k = true /\ a ∈ s.
Proof.
  unfold actorsOn. rewrite elem_of_union_list. setoid_rewrite list_elem_of_fmap.
  setoid_rewrite (fun p => list_elem_of_In p _) at 1. setoid_rewrite List.filter_In.
  setoid_rewrite <- list_elem_of_In. split.
  - intros (s & ([k s'] & -> & Hk & Ht) & Ha). apply elem_of_map_to_list in Hk. eauto.
  - intros (k & s & Hk & Ht & Ha). exists s. split; [|done]. exists (k, s).
    split; [done|]. split; [by apply elem_of_map_to_list|done].
Qed.

(** ** Days as times *)

Lemma substring_prefix a b : String.substring 0 (String.length a) (a +:+ b) = a.
Proof. induction a as [|c a IH]; [by destruct b|]. exact (f_equal (String c) IH). Qed.

Lemma substring_shift a m b : String.substring (String.length a) m (a +:+ b) = String.substring 0 m b.
Proof. induction a as [|c a IH]; [done|]. exact IH. Qed.

Lemma append_assoc a b c : a +:+ b +:+ c = (a +:+ b) +:+ c.
Proof. induction a as [|x a IH]; [done|]. exact (f_equal (String x) IH). Qed.

Lemma append_nil a : a +:+ "" = a.
Proof. induction a as [|x a IH]; [done|]. exact (f_equal (String x) IH). Qed.

Lemma year_digits :
  forallb (fun y => Nat.eqb (String.length (pretty.pretty y)) 4
                    && bool_decide (parse_decimal (pretty.pretty y) = Some y)) (seqZ 1000 9000) = true.
Proof. vm_compute. reflexivity. Qed.

Lemma month_digits :
  forallb (fun n => bool_decide (parse_decimal (pad2 n) = Some n)) two_digits = true.
Proof. vm_compute. reflexivity. Qed.

Lemma parse_pad2 n : 0 <= n < 100 -> parse_decimal (pad2 n) = Some n.
Proof.
  intros H. pose proof month_digits as F. rewrite forallb_forall in F.
  by apply (bool_decide_eq_true_1 _ (F n (proj1 (list_elem_of_In _ _) (proj2 (elem_of_seqZ 0 100 n) H)))).
Qed.

Lemma year_pretty y :
  1000 <= y < 10000 -> String.length (pretty.pretty y) = 4%nat /\ parse_decimal (pretty.pretty y) = Some y.
Proof.
  intros H. pose proof year_digits as F. rewrite forallb_forall in F.
  specialize (F y (proj1 (list_elem_of_In _ _) (proj2 (elem_of_seqZ 1000 9000 y) ltac:(lia)))).
  apply andb_true_iff in F as [F1 F2]. split; [by apply Nat.eqb_eq|by apply bool_decide_eq_true_1 in F2].
Qed.

(** Times whose year has four digits. *)
Definition fourDigits (t : Z) : Prop := dated t /\ 1000 <= getUTCFullYear t < 10000.

Lemma dayToMs_key t : fourDigits t -> dayToMs (formatDayKey t) = Some (Day t * msPerDay).
Proof.
  intros [Hd Hy]. unfold formatDayKey. rewrite newDate_dated by done.
  destruct (year_pretty _ Hy) as [Ly Py]. pose proof (month_range t) as Hm. pose proof (date_range t) as He.
  pose proof (pad2_length (getUTCMonth t + 1) ltac:(lia)) as Lm.
  pose proof (pad2_length (getUTCDate t) ltac:(lia)) as Ld.
  unfold dayToMs. rewrite !append_length, Ly, Lm, Ld. cbn [String.length Nat.add Nat.eqb negb].
  set (ys := pretty.pretty _) in *. set (ms := pad2 (getUTCMonth t + 1)) in *. set (ds := pad2 (getUTCDate t)) in *.
  assert (String.substring 0 4 (ys +:+ "-" +:+ ms +:+ "-" +:+ ds) = ys) as ->
    by (rewrite <- Ly; apply substring_prefix).
  assert (String.substring 5 2 (ys +:+ "-" +:+ ms +:+ "-" +:+ ds) = ms) as ->.
  { rewrite (append_assoc ys). replace 5%nat with (String.length (ys +:+ "-")) by by rewrite append_length, Ly.
    rewrite substring_shift, <- Lm. apply substring_prefix. }
  assert (String.substring 8 2 (ys +:+ "-" +:+ ms +:+ "-" +:+ ds) = ds) as ->.
  { rewrite !(append_assoc _ _ ds), !(append_assoc ys), !(append_assoc _ _ "-").
    replace 8%nat with (String.length (((ys +:+ "-") +:+ ms) +:+ "-")) by by rewrite !append_length, Ly, Lm.
    rewrite substring_shift, <- Ld. rewrite <- (append_nil ds) at 2. apply substring_prefix. }
  rewrite Py. cbn [mbind option_bind]. unfold ms, ds. rewrite !parse_pad2 by lia. cbn [mbind option_bind].
  replace (getUTCMonth t + 1 - 1) with (getUTCMonth t) by lia. by rewrite civil_day.
Qed.

Lemma load_filtered since until files e :
  e ∈ loadEventsInRange since until files -> inRange since until e = true.
Proof.
  unfold loadEventsInRange. destruct (newDate since), (newDate until); try by intros []%elem_of_nil.
  intros (k & H & _)%list_elem_of_bind. by apply elem_of_Lfilter in H as [_ H].
Qed.

Lemma dayKeys_range since until e :
  dated since -> dated until -> dated (e_ts e) -> inRange since until e = true ->
  formatDayKey (e_ts e) ∈ dayKeys since until.
Proof.
  intros H1 H2 He Hr. unfold inRange in Hr. bprop. unfold dayKeys.
  rewrite <- (dayKey_midnight (e_ts e)) by done. apply (list_elem_of_fmap_2 (fun d => formatDayKey (d * msPerDay))).
  apply elem_of_seqZ. pose proof (Day_mono since (e_ts e)). pose proof (Day_mono (e_ts e) until). lia.
Qed.

Lemma dayKeys_nodup since until : dated since -> dated until -> NoDup (dayKeys since until).
Proof.
  intros H1 H2. unfold dayKeys.
  assert (Hd : forall d, d ∈ seqZ (Day since) (Day until - Day since + 1) -> dated (d * msPerDay)).
  { intros d [Ha Hb]%elem_of_seqZ. pose proof (dated_midnight since H1). pose proof (dated_midnight until H2).
    unfold dated, msPerDay in *. lia. }
  pose proof (NoDup_seqZ (Day since) (Day until - Day since + 1)) as Hn. revert Hn Hd.
  induction (seqZ _ _) as [|d l IH]; intros Hn Hd; [constructor|]. apply NoDup_cons in Hn as [Hx Hn]. cbn.
  apply NoDup_cons. split; [|apply IH; [done|]; intros x Hx'; apply Hd; by constructor].
  intros (d' & E & Hd')%list_elem_of_fmap. apply dayKey_inj in E; [|apply Hd; by constructor..].
  rewrite !Day_midnight in E. congruence.
Qed.

Lemma retained_sub t since until n : len (retainedOf t since until n) <= len (cohortOf t since until n).
Proof. unfold retainedOf, len. pose proof (List.filter_length_le (fun p : string * string =>
      match dayToMs p.2, actorDays t !! p.1 with
      | Some ms, Some days => bool_decide (formatDayKey (ms + n * msPerDay) ∈ days)
      | _, _ => false
      end) (cohortOf t since until n)). lia. Qed.

Lemma sizeZ_mono (a b : gset string) : a ⊆ b -> sizeZ a <= sizeZ b.
Proof. intros H. unfold sizeZ. apply subseteq_size in H. lia. Qed.

Lemma actorsOn_mono (f g : string -> bool) m : (forall k, f k = true -> g k = true) -> actorsOn f m ⊆ actorsOn g m.
Proof. intros H a (k & s & ? & ? & ?)%actorsOn_elem. apply actorsOn_elem. eauto 10. Qed.

(** ** Theorems *)

(** What ingestion wrote into the day files is read back: for any range, the
    events loaded are exactly the logged events of the range, each as often as
    it was logged, however the range cuts the days. *)
Theorem range_complete evs since until :
  dated since -> dated until -> Forall (fun e => dated (e_ts e)) evs ->
  loadEventsInRange since until (foldl logEvent ∅ evs) ≡ₚ List.filter (inRange since until) evs.
Proof.
  intros H1 H2 He. unfold loadEventsInRange. rewrite !newDate_dated by done.
  assert (forall k, List.filter (inRange since until) (default [] (foldl logEvent ∅ evs !! k))
    = List.filter (fun e => bool_decide (formatDayKey (e_ts e) = k)) (List.filter (inRange since until) evs)) as E.
  { intros k. rewrite logged, lookup_empty. cbn. by rewrite filter_filter. }
  rewrite (list_bind_ext _ _ _ _ E eq_refl).
  apply (buckets (fun e => formatDayKey (e_ts e))); [by apply dayKeys_nodup|].
  intros e [Hin Hr]%elem_of_Lfilter. apply dayKeys_range; try done. rewrite Forall_forall in He. by apply He.
Qed.

(** The key figures fit together: on the last day no more players than in
    its week, in the week no more than in the month, and none of these more
    than all; as many conversions at most as players, and in each cohort no more
    returned than were counted. *)
Theorem kpis_ordered since until files :
  Forall (fun e => fourDigits (e_ts e)) (loadEventsInRange since until files) ->
  let k := kpis since until files in
  k_dau k <= k_wau k <= k_mau k /\ k_mau k <= k_activeUsers k /\ k_converted k <= k_activeUsers k
  /\ (k_d7 k).1 <= (k_d7 k).2 /\ (k_d30 k).1 <= (k_d30 k).2.
Proof.
  intros He k. unfold k, kpis. cbn [k_dau k_wau k_mau k_activeUsers k_converted k_d7 k_d30 fst snd].
  set (evs := loadEventsInRange since until files) in *. pose proof (tallyAll_tallied evs) as [T1 _ _ _ T5 _ T7].
  set (t := tallyAll evs) in *. set (last := shown t until).
  assert (Hw : (match actorsByDay t !! last with Some s => sizeZ s | None => 0 end)
               <= sizeZ (actorsOn (fun day => at_least day (daysBefore last 6)) (actorsByDay t))).
  { destruct (actorsByDay t !! last) as [s|] eqn:E; [|unfold sizeZ; lia].
    apply sizeZ_mono. intros a Ha. apply actorsOn_elem. exists last, s. split; [done|]. split; [|done].
    destruct (T7 last s E) as (b & e & Hin & _ & Hk). rewrite Forall_forall in He.
    unfold at_least, daysBefore. rewrite <- Hk, dayToMs_key by by apply He. cbn [mbind option_bind].
    apply Z.leb_le. unfold msPerDay. lia. }
  repeat split; try apply retained_sub; [exact Hw| | |].
  - apply sizeZ_mono, actorsOn_mono. intros day. unfold at_least, daysBefore.
    destruct (dayToMs day), (dayToMs last); cbn [mbind option_bind]; try done. rewrite !Z.leb_le. unfold msPerDay. lia.
  - by apply sizeZ_mono, actorsOn_mono.
  - apply sizeZ_mono. intros a Ha. destruct (T5 a Ha) as [d Hd]. apply T1 in Hd. apply actorsOn_elem.
    destruct (actorsByDay t !! d) as [s|] eqn:E; [eauto|]. cbn in Hd. set_solver.
Qed.

(** The new users are no news: when the range begins at midnight, everybody
    who was active in the range is counted as new, because the first day of a
    player is looked for in the same range only. *)
Theorem new_users_all since until files :
  since mod msPerDay = 0 ->
  Forall (fun e => fourDigits (e_ts e)) (loadEventsInRange since until files) ->
  k_newUsers (kpis since until files) = k_activeUsers (kpis since until files).
Proof.
  intros Hm He. unfold kpis. cbn [k_newUsers k_activeUsers].
  set (evs := loadEventsInRange since until files) in *. pose proof (tallyAll_tallied evs) as [T1 _ T3 T4 _ _ _].
  set (t := tallyAll evs) in *.
  assert (Hall : List.filter (fun p : string * string => at_least p.2 (Some since)) (map_to_list (firstSeen t))
                 = map_to_list (firstSeen t)).
  { apply forallb_filter_id, forallb_forall. intros [a d] Hin%list_elem_of_In%elem_of_map_to_list. cbn [snd].
    destruct (T3 a d Hin) as (e & He' & _ & Hk). rewrite Forall_forall in He.
    unfold at_least. rewrite <- Hk, dayToMs_key by by apply He.
    apply load_filtered in He'. unfold inRange in He'. bprop. apply Z.leb_le.
    unfold Day, msPerDay in *. Z.to_euclidean_division_equations. lia. }
  rewrite Hall. unfold len. rewrite length_map_to_list.
  rewrite <- (size_dom (D := gset string)). unfold sizeZ. do 2 f_equal. apply set_eq. intros a.
  rewrite elem_of_dom, actorsOn_elem. split.
  - intros [d Hd]. apply T3, T1 in Hd. destruct (actorsByDay t !! d) as [s|] eqn:E; [eauto|]. cbn in Hd. set_solver.
  - intros (d & s & E & _ & Ha). apply (T4 a d), T1. by rewrite E.
Qed.

(** ** Concrete runs *)

Definition visit (device : string) (ts : Z) : Event :=
  {| e_ts := ts; e_name := "app.open"; e_props := None;
     e_actor := {| a_publicKey := Missing; a_deviceId := Text device; a_platform := Missing;
                   a_appVersion := Missing; a_locale := Missing |};
     e_app := Missing |}.

(** A player of every day, another once: 14 to 16 November 2023. *)
Definition visits : list Event :=
  [visit "a" 1699920000000; visit "a" 1700010000000; visit "b" 1700020000000; visit "a" 1700100000000].

Lemma range_complete_witness :
  loadEventsInRange 1700006400000 1700092799999 (foldl logEvent ∅ visits)
  ≡ₚ List.filter (inRange 1700006400000 1700092799999) visits
  /\ len (List.filter (inRange 1700006400000 1700092799999) visits) = 2.
Proof.
  split; [|reflexivity].
  apply (range_complete visits 1700006400000 1700092799999); [by vm_compute|by vm_compute|].
  repeat constructor; by vm_compute.
Defined.

Definition visitFiles : gmap string (list Event) := foldl logEvent ∅ visits.

Lemma visits_dated since until :
  loadEventsInRange since until visitFiles = visits -> Forall (fun e => fourDigits (e_ts e)) (loadEventsInRange since until visitFiles).
Proof. intros ->. repeat constructor; by vm_compute. Qed.

Lemma kpis_ordered_witness :
  let k := kpis 1699920000000 1700179199999 visitFiles in
  k_dau k <= k_wau k <= k_mau k /\ k_mau k <= k_activeUsers k /\ k_converted k <= k_activeUsers k
  /\ (k_d7 k).1 <= (k_d7 k).2 /\ (k_d30 k).1 <= (k_d30 k).2.
Proof.
  apply (kpis_ordered 1699920000000 1700179199999 visitFiles). apply visits_dated. vm_compute. reflexivity.
Defined.

Lemma new_users_all_witness :
  k_newUsers (kpis 1699920000000 1700179199999 visitFiles)
  = k_activeUsers (kpis 1699920000000 1700179199999 visitFiles).
Proof.
  apply (new_users_all 1699920000000 1700179199999 visitFiles); [reflexivity|].
  apply visits_dated. vm_compute. reflexivity.
Defined.
