(* ===== verification/Convex.v ===== *)
(** * The database of the auth service

    [website/convex/*.ts] are functions of a Convex deployment over its tables.
    Convex itself is the class [Convex] with its documented behaviour
    [ConvexLaws]: documents have identifiers the database chooses, [patch]
    replaces fields, a query returns the documents with given fields in the
    order of its index.  Mutations are transactions: they run one after the
    other, at one time, and change nothing when they throw. *)

From S2P Require Import Prelude.

(** ** The interface *)

Class Convex := {
  Id : Type;
  Id_eq :: EqDecision Id;
  Table : Type -> Type;
  db_empty {A} : Table A;
  db_get {A} : Table A -> Id -> option A;
  db_insert {A} : A -> Table A -> Id * Table A;
  db_set {A} : Id -> A -> Table A -> Table A;
  db_delete {A} : Id -> Table A -> Table A;
  (** [query(...).withIndex(index, q => ...).collect()] *)
  db_query {A} : string -> (A -> bool) -> Table A -> list (Id * A)
}.

Class ConvexLaws (C : Convex) := {
  get_empty {A} i : db_get (@db_empty C A) i = None;
  insert_fresh {A} (d : A) t : db_get t (db_insert d t).1 = None;
  get_insert {A} (d : A) t i :
    db_get (db_insert d t).2 i = if decide (i = (db_insert d t).1) then Some d else db_get t i;
  get_set {A} (d d0 : A) t i j :
    db_get t i = Some d0 -> db_get (db_set i d t) j = if decide (j = i) then Some d else db_get t j;
  get_delete {A} (t : Table A) i j :
    db_get (db_delete i t) j = if decide (j = i) then None else db_get t j;
  query_elem {A} index p (t : Table A) i d :
    (i, d) ∈ db_query index p t <-> db_get t i = Some d /\ p d = true;
  query_nodup {A} index p (t : Table A) : NoDup (db_query index p t).*1
}.

Section Queries.
Context `{C : Convex} {A : Type}.
Implicit Types (t : Table A) (p : A -> bool).

(** [.unique()] *)
Definition unique (index : string) p t : result (option (Id * A)) :=
  match db_query index p t with
  | [] => Ok None
  | [x] => Ok (Some x)
  | _ => Throw "unique() query returned more than one result"
  end.

(** [ctx.db.patch(id, fields)] *)
Definition patch (i : Id) (fields : A -> A) t : result (Table A) :=
  match db_get t i with
  | Some d => Ok (db_set i (fields d) t)
  | None => Throw "Update on nonexistent document ID"
  end.

(** At most one document of a table has a property. *)
Definition at_most_one p t : Prop :=
  forall i j d e, db_get t i = Some d -> db_get t j = Some e -> p d = true -> p e = true -> i = j.

Context {L : ConvexLaws C}.

Lemma unique_none index p t :
  unique index p t = Ok None <-> forall i d, db_get t i = Some d -> p d = false.
Proof.
  unfold unique. split.
  - destruct (db_query index p t) as [|x [|y l]] eqn:E; intros [=]. intros i d Hd.
    destruct (p d) eqn:Hp; [|done]. assert (Hin : (i, d) ∈ db_query index p t) by (by apply query_elem).
    rewrite E in Hin. set_solver.
  - intros H. destruct (db_query index p t) as [|[i d] l] eqn:E; [done|].
    assert (Hin : (i, d) ∈ db_query index p t) by (rewrite E; set_solver).
    apply query_elem in Hin as [Hd Hp]. by rewrite (H _ _ Hd) in Hp.
Qed.

Lemma unique_some index p t i d :
  unique index p t = Ok (Some (i, d)) <->
  db_get t i = Some d /\ p d = true /\ (forall j e, db_get t j = Some e -> p e = true -> j = i).
Proof.
  unfold unique. split.
  - destruct (db_query index p t) as [|x [|y l]] eqn:E; intros [=]. subst x.
    assert (Hin : (i, d) ∈ db_query index p t) by (rewrite E; set_solver).
    apply query_elem in Hin as [Hd Hp]. split_and!; [done..|]. intros j e He Hpe.
    assert (Hin : (j, e) ∈ db_query index p t) by (by apply query_elem). rewrite E in Hin. set_solver.
  - intros (Hd & Hp & Hu). assert (Hin : (i, d) ∈ db_query index p t) by (by apply query_elem).
    assert (Hall : forall x, x ∈ db_query index p t -> x.1 = i).
    { intros [j e] Hx. apply query_elem in Hx as [He Hpe]. by apply (Hu j e). }
    pose proof (query_nodup index p t) as Hnd.
    destruct (db_query index p t) as [|x [|y l]]; [set_solver|set_solver|].
    exfalso. rewrite !fmap_cons in Hnd. apply NoDup_cons in Hnd as [Hnot _]. apply Hnot.
    rewrite (Hall x), (Hall y) by set_solver. cbn. left.
Qed.

(** A query that finds two documents throws. *)
Lemma unique_throws index p t i j d e :
  db_get t i = Some d -> db_get t j = Some e -> p d = true -> p e = true -> i <> j ->
  exists msg, unique index p t = Throw msg.
Proof.
  intros Hi Hj Hp Hq Hne. destruct (unique index p t) as [[[k f]|]|msg] eqn:E; [..|by exists msg]; exfalso.
  - apply unique_some in E as (_ & _ & Hu). apply Hne. by rewrite (Hu i d), (Hu j e).
  - by rewrite (proj1 (unique_none index p t) E i d Hi) in Hp.
Qed.

Lemma unique_ok index p t r i j d e :
  unique index p t = Ok r -> db_get t i = Some d -> db_get t j = Some e -> p d = true -> p e = true -> i = j.
Proof.
  intros Hu Hi Hj Hp Hq. destruct (decide (i = j)) as [|Hne]; [done|].
  destruct (unique_throws index p t i j d e Hi Hj Hp Hq Hne) as [msg Hm]. congruence.
Qed.

(** Enough for [unique] not to throw. *)
Lemma unique_total index p t : at_most_one p t -> is_ok (unique index p t) = true.
Proof.
  intros H. destruct (unique index p t) as [r|msg] eqn:E; [done|]. exfalso. unfold unique in E.
  pose proof (query_nodup index p t) as Hnd.
  destruct (db_query index p t) as [|[i d] [|[j e] l]] eqn:Q; [done..|].
  assert (H1 : (i, d) ∈ db_query index p t) by (rewrite Q; set_solver).
  assert (H2 : (j, e) ∈ db_query index p t) by (rewrite Q; set_solver).
  apply query_elem in H1 as [H1 P1]. apply query_elem in H2 as [H2 P2].
  assert (i = j) by (by apply (H i j d e)). subst. rewrite !fmap_cons in Hnd. cbn in Hnd.
  apply NoDup_cons in Hnd as [Hnot _]. apply Hnot. set_solver.
Qed.

Lemma patch_ok i f t t' :
  patch i f t = Ok t' ->
  exists d, db_get t i = Some d
    /\ forall j, db_get t' j = if decide (j = i) then Some (f d) else db_get t j.
Proof.
  unfold patch. destruct (db_get t i) as [d|] eqn:E; intros [=]. subst. exists d. split; [done|].
  intros j. by apply (get_set _ d).
Qed.

Lemma patch_existing i f t d :
  db_get t i = Some d ->
  exists t', patch i f t = Ok t'
    /\ forall j, db_get t' j = if decide (j = i) then Some (f d) else db_get t j.
Proof.
  intros Hd. unfold patch. rewrite Hd. eexists. split; [done|]. intros j. by apply (get_set _ d).
Qed.

(** What an insertion keeps. *)
Lemma get_insert_old (d : A) t i e : db_get t i = Some e -> db_get (db_insert d t).2 i = Some e.
Proof.
  intros H. rewrite get_insert. destruct (decide _) as [->|]; [|done]. by rewrite insert_fresh in H.
Qed.

Lemma get_insert_new (d : A) t : db_get (db_insert d t).2 (db_insert d t).1 = Some d.
Proof. rewrite get_insert. by rewrite decide_True. Qed.

End Queries.

(** ** An instance

    A list whose positions are the identifiers. *)

Fixpoint list_query {A} (p : A -> bool) (n : nat) (t : list (option A)) : list (nat * A) :=
  match t with
  | [] => []
  | Some d :: t' => if p d then (n, d) :: list_query p (S n) t' else list_query p (S n) t'
  | None :: t' => list_query p (S n) t'
  end.

#[export] Instance list_convex : Convex := {
  Id := nat; Table A := list (option A); db_empty A := [];
  db_get A t i := mjoin (t !! i);
  db_insert A d t := (length t, t ++ [Some d]);
  db_set A i d t := <[i := Some d]> t;
  db_delete A i t := <[i := None]> t;
  db_query A _ p t := list_query p 0 t
}.

Lemma elem_of_list_query {A} (p : A -> bool) t n i d :
  (i, d) ∈ list_query p n t <-> (n <= i)%nat /\ mjoin (t !! (i - n)%nat) = Some d /\ p d = true.
Proof.
  revert n. induction t as [|o t IH]; intros n; [set_solver|].
  assert (Hstep : (i, d) ∈ list_query p (S n) t <->
      i <> n /\ (n <= i)%nat /\ mjoin ((o :: t) !! (i - n)%nat) = Some d /\ p d = true).
  { rewrite IH. split.
    - intros (Hle & Hd & Hp). replace (i - n)%nat with (S (i - S n)) by lia. split_and!; [lia|lia|done|done].
    - intros (Hne & Hle & Hd & Hp). replace (i - n)%nat with (S (i - S n)) in Hd by lia. split_and!; [lia|done|done]. }
  assert (Hhead : i = n -> mjoin ((o :: t) !! (i - n)%nat) = o) by (intros ->; by rewrite Nat.sub_diag).
  destruct (decide (i = n)) as [->|Hne].
  - rewrite Hhead by done. assert (Hnot : (n, d) ∈ list_query p (S n) t <-> False) by (rewrite Hstep; naive_solver).
    destruct o as [e|]; cbn [list_query]; [destruct (p e) eqn:Hp|]; rewrite ?elem_of_cons, Hnot;
      split; intros H; destruct_and?; destruct_or?; simplify_eq; auto; congruence.
  - assert (Hother : (i, d) ∈ list_query p n (o :: t) <-> (i, d) ∈ list_query p (S n) t).
    { destruct o as [e|]; cbn [list_query]; [destruct (p e)|]; rewrite ?elem_of_cons; [|done..].
      split; [intros [[=]|]; [done|done]|auto]. }
    rewrite Hother, Hstep. split; intros H; destruct_and?; auto.
Qed.

Lemma list_query_nodup {A} (p : A -> bool) n t : NoDup (list_query p n t).*1.
Proof.
  revert n. induction t as [|[d|] t IH]; intros n; cbn [list_query]; [apply NoDup_nil_2| |done].
  destruct (p d); [|done]. apply NoDup_cons. split; [|done].
  intros ([i e] & E & Hin)%list_elem_of_fmap. apply elem_of_list_query in Hin. cbn in E, Hin. lia.
Qed.

Lemma list_get_append {A} (d : A) (t : list (option A)) i :
  mjoin ((t ++ [Some d]) !! i) = if decide (i = length t) then Some d else mjoin (t !! i).
Proof.
  case_decide as Hi; [subst; by rewrite list_lookup_middle|].
  destruct (decide (i < length t)%nat); [by rewrite lookup_app_l|].
  rewrite !lookup_ge_None_2; [done|lia|]. rewrite length_app. cbn. lia.
Qed.

Lemma list_get_set {A} (o : option A) (t : list (option A)) i j :
  (o = None \/ is_Some (mjoin (t !! i))) ->
  mjoin (<[i := o]> t !! j) = if decide (j = i) then o else mjoin (t !! j).
Proof.
  intros H. case_decide as Hj; [subst j|by rewrite list_lookup_insert_ne by congruence].
  destruct (decide (i < length t)%nat) as [|Hge]; [by rewrite list_lookup_insert_eq|].
  assert (E : t !! i = None) by (apply lookup_ge_None_2; lia). rewrite E in H.
  rewrite lookup_ge_None_2 by (rewrite length_insert; lia). destruct H as [->|[? [=]]]. done.
Qed.

#[export] Instance list_convex_laws : ConvexLaws list_convex.
Proof.
  split; intros.
  - done.
  - cbn. by rewrite lookup_ge_None_2.
  - apply list_get_append.
  - apply list_get_set. right. by exists d0.
  - apply list_get_set. by left.
  - cbn. rewrite elem_of_list_query, Nat.sub_0_r. naive_solver lia.
  - apply list_query_nodup.
Qed.
