(* ===== verification/RateBuckets.v ===== *)
(** * Rate limits of the auth service

    The buckets of [services/auth/src/server.ts] and, with the same code, of
    [website/convex/http.ts]: a count for every key, reset after a window, in a
    [Map] that is cleaned up from time to time.  A [Map] is the list of its
    entries in the order of their insertion. *)

From Stdlib Require Import Sorting.Sorted.
From S2P Require Import Prelude.

Record RateLimitBucket := { count : Z; resetAt : Z }.

Record Buckets := { rateBuckets : list (string * RateLimitBucket); lastRateBucketCleanup : Z }.

Record BucketConfig := { rateBucketMax : Z; rateBucketCleanupMs : Z }.

Definition noBuckets : Buckets := {| rateBuckets := []; lastRateBucketCleanup := 0 |}.

(** [Number(value)], floored, if it is finite and positive. *)
Definition parsePositiveInt (value : option Z) (fallback : Z) : Z :=
  match value with Some n => if n <=? 0 then fallback else n | None => fallback end.

(** [map.get(key)] and [map.set(key, bucket)] *)
Fixpoint mapGet (key : string) (m : list (string * RateLimitBucket)) : option RateLimitBucket :=
  match m with
  | [] => None
  | (k, b) :: m' => if bool_decide (k = key) then Some b else mapGet key m'
  end.

Fixpoint mapSet (key : string) (b : RateLimitBucket) (m : list (string * RateLimitBucket))
    : list (string * RateLimitBucket) :=
  match m with
  | [] => [(key, b)]
  | (k, b') :: m' => if bool_decide (k = key) then (k, b) :: m' else (k, b') :: mapSet key b m'
  end.

Definition expired (now : Z) (b : RateLimitBucket) : bool := resetAt b <? now.

(** The entries left by the first loop, and then by the second. *)
Definition unexpired (now : Z) (m : list (string * RateLimitBucket)) : list (string * RateLimitBucket) :=
  List.filter (fun p : string * RateLimitBucket => negb (expired now p.2)) m.

Definition evict (maximum : Z) (m : list (string * RateLimitBucket)) : list (string * RateLimitBucket) :=
  if maximum <? len m then drop (Z.to_nat (len m - maximum)) m else m.

Definition cleanupRateBuckets (c : BucketConfig) (now : Z) (s : Buckets) : Buckets :=
  if len (rateBuckets s) =? 0 then s
  else if (now - lastRateBucketCleanup s <? rateBucketCleanupMs c) && (len (rateBuckets s) <=? rateBucketMax c)
  then s
  else {| rateBuckets := evict (rateBucketMax c) (unexpired now (rateBuckets s)); lastRateBucketCleanup := now |}.

Inductive Verdict := Pass | RetryAfter (seconds : Z).

(** The limit of one key: the next bucket, if it changes, and the verdict. *)
Definition limitKey (windowMs max now : Z) (bucket : option RateLimitBucket) : option RateLimitBucket * Verdict :=
  match bucket with
  | Some b =>
      if expired now b then (Some {| count := 1; resetAt := now + windowMs |}, Pass)
      else if max <=? count b then (Some b, RetryAfter (- ((now - resetAt b) / 1000)))
      else (Some {| count := count b + 1; resetAt := resetAt b |}, Pass)
  | None => (Some {| count := 1; resetAt := now + windowMs |}, Pass)
  end.

Definition rateLimit (c : BucketConfig) (windowMs max now : Z) (key : string) (s : Buckets) : Verdict * Buckets :=
  let s := cleanupRateBuckets c now s in
  let '(bucket, verdict) := limitKey windowMs max now (mapGet key (rateBuckets s)) in
  (verdict,
   match bucket with
   | Some b => {| rateBuckets := mapSet key b (rateBuckets s); lastRateBucketCleanup := lastRateBucketCleanup s |}
   | None => s
   end).

(** http.ts: the limit of the webhook. *)
Definition enforceRateLimit (c : BucketConfig) (windowMs max now : Z) (key : string) (s : Buckets) : bool * Buckets :=
  let '(verdict, s') := rateLimit c windowMs max now key s in
  (match verdict with Pass => true | RetryAfter _ => false end, s').

(** ** What the limits promise

    A request is its time, its key, and the window and the maximum of its route.
    The specification keeps one bucket for a key, and looks at nothing else. *)

Record Hit := { h_now : Z; h_key : string; h_window : Z; h_max : Z }.

Fixpoint serveHits (c : BucketConfig) (s : Buckets) (hits : list Hit) : list (string * Verdict) :=
  match hits with
  | [] => []
  | h :: hits' =>
      let '(v, s') := rateLimit c (h_window h) (h_max h) (h_now h) (h_key h) s in
      (h_key h, v) :: serveHits c s' hits'
  end.

Fixpoint limitAlone (bucket : option RateLimitBucket) (hits : list Hit) : list Verdict :=
  match hits with
  | [] => []
  | h :: hits' =>
      let '(bucket', v) := limitKey (h_window h) (h_max h) (h_now h) bucket in v :: limitAlone bucket' hits'
  end.

Definition verdictsFor (key : string) (vs : list (string * Verdict)) : list Verdict :=
  snd <$> List.filter (fun p : string * Verdict => bool_decide (p.1 = key)) vs.
Definition hitsOf (key : string) (hits : list Hit) : list Hit :=
  List.filter (fun h => bool_decide (h_key h = key)) hits.

(** How many requests pass in the half-open interval of a window. *)
Definition passedIn (from until : Z) (hits : list Hit) (vs : list Verdict) : Z :=
  len (List.filter (fun p : Hit * Verdict =>
    (from <=? h_now p.1) && (h_now p.1 <? until) && match p.2 with Pass => true | _ => false end) (zip hits vs)).

(** ** Lemmas *)

Lemma mapGet_set key key' b m :
  mapGet key (mapSet key' b m) = if decide (key = key') then Some b else mapGet key m.
Proof.
  induction m as [|[k b'] m IH]; cbn; repeat case_bool_decide; repeat case_decide; cbn; simplify_eq;
    repeat case_bool_decide; naive_solver.
Qed.

Lemma mapSet_keys key b m k : k ∈ (mapSet key b m).*1 <-> k = key \/ k ∈ m.*1.
Proof.
  induction m as [|[k' b'] m IH]; cbn; [set_solver|].
  case_bool_decide; cbn; rewrite ?elem_of_cons, ?IH; naive_solver.
Qed.

Lemma mapSet_nodup key b m : NoDup m.*1 -> NoDup (mapSet key b m).*1.
Proof.
  induction m as [|[k b'] m IH]; cbn; [intros _; apply NoDup_singleton|].
  rewrite NoDup_cons. intros [Hk Hm]. case_bool_decide as Hc; cbn; rewrite NoDup_cons; [done|].
  split; [|by apply IH]. rewrite mapSet_keys. naive_solver.
Qed.

Lemma unexpired_get now key m b :
  NoDup m.*1 ->
  mapGet key (unexpired now m) = Some b <-> mapGet key m = Some b /\ expired now b = false.
Proof.
  intros Hm. induction m as [|[k b'] m IH]; cbn; [naive_solver|].
  apply NoDup_cons in Hm as [Hk Hm]. specialize (IH Hm).
  assert (Hno : mapGet k m = None).
  { clear -Hk. induction m as [|[k' b''] m IHm]; cbn in *; [done|]. case_bool_decide; [set_solver|]. apply IHm. set_solver. }
  destruct (expired now b') eqn:E; cbn; case_bool_decide as Hc; subst; rewrite ?IH; naive_solver congruence.
Qed.

Lemma unexpired_sub now m : NoDup m.*1 -> NoDup (unexpired now m).*1 /\ (unexpired now m).*1 ⊆ m.*1.
Proof.
  induction m as [|[k b] m IH]; cbn; [done|]. rewrite NoDup_cons. intros [Hk Hm].
  destruct (IH Hm) as [Hn Hs]. destruct (negb _); cbn; [rewrite NoDup_cons|]; set_solver.
Qed.

Lemma subset_len (l k : list string) : NoDup l -> l ⊆ k -> len l <= len k.
Proof. intros Hl Hs. unfold len. apply inj_le. by apply NoDup_submseteq_length || apply submseteq_length, NoDup_submseteq. Qed.

Section Isolation.
Context (c : BucketConfig) (key : string) (keys : list string).
Hypothesis (room : len keys <= rateBucketMax c).

(** The bucket in the map is the bucket of the specification; only one that has
    expired may be missing. *)
Definition simulates (now : Z) (s : Buckets) (bucket : option RateLimitBucket) : Prop :=
  NoDup (rateBuckets s).*1 /\ (rateBuckets s).*1 ⊆ keys
  /\ (mapGet key (rateBuckets s) = bucket
      \/ mapGet key (rateBuckets s) = None /\ exists b, bucket = Some b /\ expired now b = true).

Lemma expired_later now now' b : now <= now' -> expired now b = true -> expired now' b = true.
Proof. unfold expired. rewrite !Z.ltb_lt. lia. Qed.

Lemma simulates_later now now' s b : now <= now' -> simulates now s b -> simulates now' s b.
Proof.
  intros Hle (Hn & Hs & [Hb|(Hb & b' & -> & He)]); split_and!; [done..|by left|done|done|].
  right. split; [done|]. exists b'. split; [done|]. by eapply expired_later.
Qed.

Lemma simulates_cleanup now s b : simulates now s b -> simulates now (cleanupRateBuckets c now s) b.
Proof.
  intros (Hn & Hs & Hb). unfold cleanupRateBuckets. destruct (_ =? 0); [done|]. destruct (_ && _); [done|].
  destruct (unexpired_sub now _ Hn) as [Hn' Hs'].
  assert (Hsize : (rateBucketMax c <? len (unexpired now (rateBuckets s))) = false).
  { apply Z.ltb_ge. rewrite <- (len_fmap fst). etrans; [|exact room]. apply subset_len; [done|]. by etrans. }
  unfold evict. rewrite Hsize. split_and!; cbn [rateBuckets]; [done|by etrans|].
  destruct Hb as [Hb|(Hb & b' & -> & He)].
  - destruct b as [b|].
    + destruct (expired now b) eqn:He.
      * right. split; [|by exists b]. destruct (mapGet key (unexpired now (rateBuckets s))) as [b'|] eqn:E; [|done].
        apply unexpired_get in E as [E He']; [|done]. congruence.
      * left. by apply unexpired_get.
    + left. destruct (mapGet key (unexpired now (rateBuckets s))) as [b'|] eqn:E; [|done].
      apply unexpired_get in E as [E _]; [|done]. congruence.
  - right. split; [|by exists b']. destruct (mapGet key (unexpired now (rateBuckets s))) as [b''|] eqn:E; [|done].
    apply unexpired_get in E as [E _]; [|done]. congruence.
Qed.

(** An expired bucket and none are treated alike. *)
Lemma limitKey_expired windowMs max now b :
  expired now b = true -> limitKey windowMs max now (Some b) = limitKey windowMs max now None.
Proof. unfold limitKey. by intros ->. Qed.

Lemma rateLimit_simulates windowMs max now key' s b :
  simulates now s b -> key' ∈ keys ->
  let '(v, s') := rateLimit c windowMs max now key' s in
  if decide (key' = key)
  then let '(b', v') := limitKey windowMs max now b in v = v' /\ simulates now s' b'
  else simulates now s' b.
Proof.
  intros Hsim Hkey. unfold rateLimit. apply simulates_cleanup in Hsim.
  set (s1 := cleanupRateBuckets c now s) in *. clearbody s1. clear s.
  destruct Hsim as (Hn & Hs & Hb).
  assert (Hset : forall b1, NoDup (mapSet key' b1 (rateBuckets s1)).*1 /\ (mapSet key' b1 (rateBuckets s1)).*1 ⊆ keys).
  { intros b1. split; [by apply mapSet_nodup|]. intros k Hk. apply mapSet_keys in Hk as [->|Hk]; [done|by apply Hs]. }
  destruct (decide (key' = key)) as [->|Hne].
  - assert (E : limitKey windowMs max now b = limitKey windowMs max now (mapGet key (rateBuckets s1))).
    { destruct Hb as [->|(-> & b' & -> & He)]; [done|by apply limitKey_expired]. }
    rewrite E. clear E. destruct (limitKey windowMs max now (mapGet key (rateBuckets s1))) as [[b1|] v] eqn:El; cbn -[mapGet mapSet]; split; try done.
    + split_and!; [apply Hset..|]. left. cbn. rewrite mapGet_set. by rewrite decide_True.
    + exfalso. unfold limitKey in El. repeat (case_match; simplify_eq).
  - destruct (limitKey windowMs max now (mapGet key' (rateBuckets s1))) as [[b1|] v] eqn:El; cbn -[mapGet mapSet]; [|by split_and!].
    split_and!; [apply Hset..|]. cbn. rewrite mapGet_set, decide_False by congruence. exact Hb.
Qed.

Lemma serve_isolated hits now s b :
  StronglySorted (fun x y => h_now x <= h_now y) hits ->
  (forall h, h ∈ hits -> h_key h ∈ keys /\ now <= h_now h) ->
  simulates now s b ->
  verdictsFor key (serveHits c s hits) = limitAlone b (hitsOf key hits).
Proof.
  revert now s b. induction hits as [|h hits IH]; intros now s b Hsorted Hin Hsim; [done|].
  apply StronglySorted_inv in Hsorted as [Hsorted Hle].
  destruct (Hin h ltac:(left)) as [Hk Hnow].
  pose proof (rateLimit_simulates (h_window h) (h_max h) (h_now h) (h_key h) s b
    (simulates_later _ _ _ _ Hnow Hsim) Hk) as Hstep.
  cbn [serveHits]. destruct (rateLimit _ _ _ _ _ s) as [v s'].
  assert (Hrest : forall h', h' ∈ hits -> h_key h' ∈ keys /\ h_now h <= h_now h').
  { intros h' Hh'. split; [apply Hin; by right|]. rewrite List.Forall_forall in Hle. apply Hle.
    by apply list_elem_of_In. }
  unfold verdictsFor, hitsOf in *. cbn [List.filter fst].
  destruct (decide (h_key h = key)) as [Heq|Hne].
  - rewrite (bool_decide_eq_true_2 _ Heq), fmap_cons. cbn [limitAlone snd].
    destruct (limitKey _ _ _ b) as [b' v'].
    destruct Hstep as [-> Hsim']. f_equal. by apply (IH (h_now h)).
  - rewrite (bool_decide_eq_false_2 _ Hne). by apply (IH (h_now h)).
Qed.
End Isolation.

(** As long as no more keys occur than there is room for, the verdicts of a
    key are those of a limit of its own: neither the other keys nor the cleanup
    of the map, whenever it runs, show. *)
Theorem buckets_isolated c key hits :
  StronglySorted (fun x y => h_now x <= h_now y) hits ->
  len (remove_dups (h_key <$> hits)) <= rateBucketMax c ->
  verdictsFor key (serveHits c noBuckets hits) = limitAlone None (hitsOf key hits).
Proof.
  intros Hs Hr. destruct hits as [|h hits]; [done|].
  apply (serve_isolated c key _ Hr (h :: hits) (h_now h)); [done| |].
  - intros h' Hh'. split; [apply elem_of_remove_dups; by apply list_elem_of_fmap_2|].
    apply StronglySorted_inv in Hs as [_ Hle]. rewrite List.Forall_forall in Hle.
    apply elem_of_cons in Hh' as [->|Hh']; [lia|]. apply Hle. by apply list_elem_of_In.
  - split_and!; cbn; [apply NoDup_nil_2|set_solver|by left].
Qed.

Lemma buckets_isolated_witness :
  let c := {| rateBucketMax := 2; rateBucketCleanupMs := 5 |} in
  let hit now key := {| h_now := now; h_key := key; h_window := 10; h_max := 1 |} in
  let hits := [hit 1 "a"; hit 2 "b"; hit 3 "a"; hit 12 "a"; hit 13 "a"] in
  verdictsFor "a" (serveHits c noBuckets hits) = limitAlone None (hitsOf "a" hits)
  /\ limitAlone None (hitsOf "a" hits) = [Pass; RetryAfter 1; Pass; RetryAfter 1].
Proof.
  split; [|vm_compute; reflexivity]. apply buckets_isolated; [|vm_compute; discriminate].
  repeat constructor; discriminate.
Defined.

Lemma mapGet_drop key n m : mapGet key m = None -> mapGet key (drop n m) = None.
Proof.
  revert n. induction m as [|[k b] m IH]; intros [|n]; cbn; [done..|].
  case_bool_decide; [done|]. apply IH.
Qed.

Lemma mapGet_unexpired_none now key m : mapGet key m = None -> mapGet key (unexpired now m) = None.
Proof.
  induction m as [|[k b] m IH]; cbn; [done|]. case_bool_decide as Hc; [done|]. intros H.
  destruct (negb _); cbn; [rewrite bool_decide_eq_false_2 by done|]; by apply IH.
Qed.

(** With more buckets than there is room for, the oldest are thrown away although
    they count: a key that was refused passes as soon as enough other keys
    have come. *)
Theorem eviction_forgets c windowMs max now key b m last :
  mapGet key m = None -> rateBucketMax c <= len (unexpired now m) ->
  (rateLimit c windowMs max now key {| rateBuckets := (key, b) :: m; lastRateBucketCleanup := last |}).1 = Pass.
Proof.
  intros Hkey Hfull. unfold rateLimit, cleanupRateBuckets. cbn [rateBuckets lastRateBucketCleanup].
  pose proof (len_nonneg m) as Hm.
  assert (Hun : len (unexpired now m) <= len m).
  { unfold unexpired, len. pose proof (List.filter_length_le (fun p : string * RateLimitBucket => negb (expired now p.2)) m). lia. }
  rewrite len_cons. zcmp. rewrite andb_false_r.
  assert (Hgone : mapGet key (evict (rateBucketMax c) (unexpired now ((key, b) :: m))) = None).
  { unfold evict. cbn [unexpired List.filter snd].
    destruct (negb (expired now b)); fold (unexpired now m); rewrite ?len_cons.
    - zcmp. replace (Z.to_nat _) with (S (Z.to_nat (len (unexpired now m) - rateBucketMax c))) by lia.
      cbn [drop]. by apply mapGet_drop, mapGet_unexpired_none.
    - split_if; [apply mapGet_drop|]; by apply mapGet_unexpired_none. }
  cbn [rateBuckets]. rewrite Hgone. done.
Qed.

Lemma eviction_forgets_witness :
  let c := {| rateBucketMax := 2; rateBucketCleanupMs := 1000 |} in
  let hit now key := {| h_now := now; h_key := key; h_window := 100; h_max := 1 |} in
  let hits := [hit 1 "a"; hit 2 "a"; hit 3 "b"; hit 4 "c"; hit 5 "a"] in
  serveHits c noBuckets hits = [("a", Pass); ("a", RetryAfter 1); ("b", Pass); ("c", Pass); ("a", Pass)]
  /\ (rateLimit c 100 1 5 "a"
        {| rateBuckets := [("a", {| count := 1; resetAt := 101 |}); ("b", {| count := 1; resetAt := 103 |});
                           ("c", {| count := 1; resetAt := 104 |})]; lastRateBucketCleanup := 1 |}).1 = Pass.
Proof.
  split; [vm_compute; reflexivity|]. apply eviction_forgets; [reflexivity|vm_compute; discriminate].
Defined.
