(* ===== verification/AuthUtils.v ===== *)
(** * Helpers of the auth service

    [services/auth/src/utils.ts]: hexadecimal text, the messages that are
    signed, limits, member tiers; and the tables of the configuration in
    [services/auth/src/server.ts].  [Number(value)] is a whole number, or [None]
    when it is not finite; [normalizeHex] is that of [Calendar]. *)

From Stdlib Require Import Strings.Ascii QArith.QArith_base QArith.Qround.
From stdpp Require Import pretty.
From S2P Require Import Prelude Bytes Calendar.

(** ** Text *)

(** [value.split(sep)] for a single character. *)
Fixpoint split (sep : Ascii.ascii) (s : string) : list string :=
  match s with
  | EmptyString => [EmptyString]
  | String c s' =>
      if Ascii.eqb c sep then EmptyString :: split sep s'
      else match split sep s' with
           | w :: ws => String c w :: ws
           | [] => [String c EmptyString]
           end
  end.

(** [lines.join(sep)] *)
Definition join (sep : string) (lines : list string) : string := String.concat sep lines.

Definition nonempty (s : string) : bool := negb (bool_decide (s = "")).

(** ** Hexadecimal numbers *)

Definition AUTH_CHALLENGE_PREFIX : string := "nullspace-auth:".
Definition EVM_LINK_PREFIX : string := "nullspace-evm-link".

(** The class [\[0-9a-f\]] *)
Definition lowerHex (c : Ascii.ascii) : bool :=
  let n := Ascii.nat_of_ascii c in (((48 <=? n) && (n <=? 57)) || ((97 <=? n) && (n <=? 102)))%nat.

Fixpoint everyChar (p : Ascii.ascii -> bool) (s : string) : bool :=
  match s with EmptyString => true | String c s' => p c && everyChar p s' end.

Definition isHex (value : string) (length : option nat) : bool :=
  nonempty value && everyChar lowerHex value
  && match length with Some n => (String.length value =? n)%nat | None => true end.

Definition parseChainId (value : option Z) : option Z :=
  match value with Some n => if n <=? 0 then None else Some n | None => None end.

(** The value of a digit, in either case. *)
Definition digitValue (c : Ascii.ascii) : option Z :=
  let n := Z.of_nat (Ascii.nat_of_ascii c) in
  if (48 <=? n) && (n <=? 57) then Some (n - 48)
  else if (97 <=? n) && (n <=? 102) then Some (n - 87)
  else if (65 <=? n) && (n <=? 70) then Some (n - 55)
  else None.

(** [Buffer.from(hex, 'hex')]: pairs of digits up to the first that is none. *)
Fixpoint fromHex (s : string) : Uint8Array :=
  match s with
  | String a (String b s') =>
      match digitValue a, digitValue b with
      | Some h, Some l => z2b (h * 16 + l) :: fromHex s'
      | _, _ => []
      end
  | _ => []
  end.

(** The digits [parseInt] reads, and [None] where it finds none. *)
Fixpoint parseDigits (acc : option Z) (s : string) : option Z :=
  match s with
  | String c s' =>
      match digitValue c with Some d => parseDigits (Some (default 0 acc * 16 + d)) s' | None => acc end
  | EmptyString => acc
  end.

(** [parseInt(s, 16)] *)
Definition parseInt16 (s : string) : option Z :=
  let s := trimStart s in
  let '(sign, s) := match s with
                    | String "-"%char s' => (-1, s')
                    | String "+"%char s' => (1, s')
                    | _ => (1, s)
                    end in
  let s := match s with
           | String "0"%char (String "x"%char s') | String "0"%char (String "X"%char s') => s'
           | _ => s
           end in
  Z.mul sign <$> parseDigits None s.

(** The pairs of characters; a character left over has no place in the array. *)
Fixpoint hexPairs (s : string) : list string :=
  match s with
  | String a (String b s') => String a (String b EmptyString) :: hexPairs s'
  | _ => []
  end.

Definition hexToBytes (hex : string) : Uint8Array :=
  (fun p => z2b (default 0 (parseInt16 p))) <$> hexPairs (normalizeHex hex).

Definition bytesToHex (bytes : Uint8Array) : string := to_hex bytes.

(** ** Messages *)

Definition buildAuthMessage (challengeHex : string) : Uint8Array :=
  bytes_of_string AUTH_CHALLENGE_PREFIX ++ fromHex challengeHex.

Definition newline : string := String (Ascii.ascii_of_nat 10) "".

Definition buildEvmLinkMessage (origin address : string) (chainId : Z) (userId challenge : string) : string :=
  join newline
    [EVM_LINK_PREFIX; "origin:" +:+ origin; "address:" +:+ address; "chainId:" +:+ pretty chainId;
     "userId:" +:+ userId; "nonce:" +:+ challenge].

(** The cards and the history come as their JSON text. *)
Definition buildAiPrompt (gameType playerCards dealerUpCard history : string) : string :=
  join newline
    ["You are a casino strategy assistant. Reply with one short sentence."; "Game: " +:+ gameType;
     "Player cards: " +:+ playerCards; "Dealer up card: " +:+ dealerUpCard; "History: " +:+ history].

(** ** Limits and tiers *)

(** A limit may be a fraction, which [Math.floor] rounds down. *)
Definition parseLimit (value : option Q) (fallback : Z) : Z :=
  match value with
  | Some q => if Qle_bool q 0 then fallback else Z.min 255 (Qfloor q)
  | None => fallback
  end.

Definition getMemberTiers (raw : string) : list string :=
  List.filter nonempty (trim <$> split ","%char raw).

Definition ACTIVE_STATUSES : list string := ["active"; "trialing"].

(** The tier and the status of an entitlement. *)
Definition hasActiveEntitlement (entitlements : list (option string * option string)) (tiers : list string) : bool :=
  existsb (fun e : option string * option string =>
      bool_decide (default "" e.2 ∈ ACTIVE_STATUSES)
      && (bool_decide (tiers = []) || bool_decide (default "" e.1 ∈ tiers))) entitlements.

(** ** The configuration *)

Definition parseAllowedOrigins (raw : string) : list string := List.filter nonempty (trim <$> split ","%char raw).

(** The first two fields of an entry. *)
Definition tierEntry (entry : string) : option (string * string) :=
  match trim <$> split ":"%char entry with
  | tier :: priceId :: _ => if nonempty tier && nonempty priceId then Some (priceId, tier) else None
  | _ => None
  end.

Definition parseStripeTierMap (raw : string) : gmap string string :=
  foldl (fun m entry => match tierEntry entry with Some (priceId, tier) => <[priceId := tier]> m | None => m end)
    ∅ (List.filter nonempty (trim <$> split ","%char raw)).

Definition resolveStripeTier (tierMap : gmap string string) (priceId : string) (tier : option string) : result string :=
  match tierMap !! priceId with
  | None => Throw "priceId not allowed"
  | Some expectedTier =>
      match tier with
      | Some t => if nonempty t && negb (bool_decide (t = expectedTier)) then Throw "tier does not match price"
                  else Ok expectedTier
      | None => Ok expectedTier
      end
  end.

Definition isAllowedChainId (allowedChainIds : list Z) (chainId : Z) : bool :=
  bool_decide (allowedChainIds = []) || bool_decide (chainId ∈ allowedChainIds).

(** [new URL(value)] as its origin and its text, if it parses. *)
Definition ensureAllowedRedirect (parseUrl : string -> option (string * string)) (allowedOrigins : list string)
    (value : string) : result string :=
  match parseUrl value with
  | None => Throw "invalid redirect URL"
  | Some (origin, text) =>
      if bool_decide (origin ∈ allowedOrigins) then Ok text else Throw "redirect origin not allowed"
  end.

(** ** Lemmas *)

Definition oneLine (s : string) : Prop := everyChar (fun c => negb (Ascii.eqb c (Ascii.ascii_of_nat 10))) s = true.

(** A text up to its first newline is determined. *)
Lemma line_inj a a' b b' :
  oneLine a -> oneLine a' -> a +:+ newline +:+ b = a' +:+ newline +:+ b' -> a = a' /\ b = b'.
Proof.
  unfold oneLine, newline. revert a'. induction a as [|c a IH]; intros [|c' a'] Ha Ha' E; cbn [everyChar] in Ha, Ha'.
  - by injection E.
  - injection E as <- _. done.
  - injection E as -> _. done.
  - apply andb_true_iff in Ha as [_ Ha]. apply andb_true_iff in Ha' as [_ Ha']. injection E as <- E.
    destruct (IH a' Ha Ha' E) as [-> ->]. done.
Qed.

Definition hexChars : list Ascii.ascii :=
  ["0"; "1"; "2"; "3"; "4"; "5"; "6"; "7"; "8"; "9"; "a"; "b"; "c"; "d"; "e"; "f"]%char.

Lemma lowerHex_in c : lowerHex c = true -> c ∈ hexChars.
Proof.
  intros H. destruct c as [[] [] [] [] [] [] [] []]; vm_compute in H; try discriminate H; unfold hexChars; set_solver.
Qed.

Lemma lowerHex_cases c :
  lowerHex c = true ->
  is_space c = false /\ ascii_lower c = c /\ c <> "x"%char
  /\ exists v, digitValue c = Some v /\ 0 <= v < 16 /\ Ascii.ascii_of_byte (hex_digit v) = c.
Proof.
  intros H%lowerHex_in. unfold hexChars in H.
  repeat (apply elem_of_cons in H as [->|H]; [split_and!; [done..|]; eexists; split_and!; [reflexivity|done|done|reflexivity]|]).
  set_solver.
Qed.

Lemma hex_digit_lower v : 0 <= v < 16 ->
  lowerHex (Ascii.ascii_of_byte (hex_digit v)) = true
  /\ digitValue (Ascii.ascii_of_byte (hex_digit v)) = Some v.
Proof.
  intros Hv. assert (Hin : v ∈ [0; 1; 2; 3; 4; 5; 6; 7; 8; 9; 10; 11; 12; 13; 14; 15]).
  { rewrite !elem_of_cons. lia. }
  repeat (apply elem_of_cons in Hin as [->|Hin]; [by vm_compute|]). set_solver.
Qed.

Lemma to_hex_cons b bs :
  to_hex (b :: bs) = String (Ascii.ascii_of_byte (hex_digit (b2z b / 16)))
    (String (Ascii.ascii_of_byte (hex_digit (b2z b mod 16))) (to_hex bs)).
Proof. reflexivity. Qed.

Lemma digits_range b : 0 <= b2z b / 16 < 16 /\ 0 <= b2z b mod 16 < 16.
Proof.
  pose proof (b2z_range b). split; [split; [apply Z.div_pos; lia|apply Z.div_lt_upper_bound; lia]|].
  apply Z.mod_pos_bound. lia.
Qed.

Lemma to_hex_lower bs : everyChar lowerHex (to_hex bs) = true.
Proof.
  induction bs as [|b bs IH]; [done|]. rewrite to_hex_cons. cbn [everyChar].
  destruct (digits_range b) as [H1 H2]. by rewrite (proj1 (hex_digit_lower _ H1)), (proj1 (hex_digit_lower _ H2)), IH.
Qed.

Lemma to_hex_length bs : String.length (to_hex bs) = (2 * length bs)%nat.
Proof. induction bs as [|b bs IH]; [done|]. rewrite to_hex_cons. cbn. rewrite IH. lia. Qed.

Lemma fromHex_to_hex bs : fromHex (to_hex bs) = bs.
Proof.
  induction bs as [|b bs IH]; [done|]. rewrite to_hex_cons. cbn [fromHex].
  destruct (digits_range b) as [H1 H2].
  rewrite (proj2 (hex_digit_lower _ H1)), (proj2 (hex_digit_lower _ H2)), IH. f_equal.
  rewrite Z.mul_comm, <- Z.div_mod by lia. apply z2b_b2z.
Qed.

Lemma everyChar_impl (p q : Ascii.ascii -> bool) s :
  (forall c, p c = true -> q c = true) -> everyChar p s = true -> everyChar q s = true.
Proof.
  intros H. induction s as [|c s IH]; [done|]. cbn. intros [Hc Hs]%andb_true_iff. by rewrite (H c Hc), IH.
Qed.

(** A text without space is its own trimming. *)
Lemma trim_tight s : everyChar (fun c => negb (is_space c)) s = true -> trim s = s.
Proof.
  intros Hs. assert (Hend : trimEnd s = s).
  { induction s as [|c s IH]; [done|]. cbn in Hs. apply andb_true_iff in Hs as [Hc%negb_true_iff Hs].
    cbn. rewrite (IH Hs). destruct s; rewrite ?Hc; done. }
  unfold trim. destruct s as [|c s]; [done|]. cbn in Hs. apply andb_true_iff in Hs as [Hc%negb_true_iff _].
  cbn [trimStart]. by rewrite Hc.
Qed.

Lemma trim_hex s : everyChar lowerHex s = true -> trim s = s.
Proof.
  intros H. apply trim_tight. revert H. apply everyChar_impl. intros c Hc. by destruct (lowerHex_cases c Hc) as (-> & _).
Qed.

Lemma lower_hex s : everyChar lowerHex s = true -> to_lower s = s.
Proof.
  induction s as [|c s IH]; [done|]. cbn. intros [Hc Hs]%andb_true_iff.
  destruct (lowerHex_cases c Hc) as (_ & -> & _). by rewrite IH.
Qed.

Lemma normalizeHex_hex s : everyChar lowerHex s = true -> normalizeHex s = s.
Proof.
  intros Hs. unfold normalizeHex. rewrite trim_hex, lower_hex by done.
  unfold strip0x. destruct (String.prefix "0x" s) eqn:E; [|done]. exfalso.
  apply String.prefix_correct in E. destruct s as [|c [|d s]]; [done|by injection E|].
  cbn [String.substring String.length] in E. injection E as -> -> _. by cbn in Hs.
Qed.

Lemma parse_pair a b v w :
  digitValue a = Some v -> digitValue b = Some w -> lowerHex a = true -> lowerHex b = true ->
  parseInt16 (String a (String b EmptyString)) = Some (v * 16 + w).
Proof.
  intros Ha Hb La%lowerHex_in Lb%lowerHex_in. unfold hexChars in *.
  repeat (apply elem_of_cons in La as [->|La]; [vm_compute in Ha; injection Ha as <-;
    repeat (apply elem_of_cons in Lb as [->|Lb]; [vm_compute in Hb; injection Hb as <-; reflexivity|]); set_solver|]).
  set_solver.
Qed.

(** The bytes of a text are read back from its pairs. *)
Lemma pairs_of_hex bs : ((fun p => z2b (default 0 (parseInt16 p))) <$> hexPairs (to_hex bs)) = bs.
Proof.
  induction bs as [|b bs IH]; [done|]. rewrite to_hex_cons. cbn [hexPairs fmap list_fmap].
  destruct (digits_range b) as [H1 H2].
  destruct (hex_digit_lower _ H1) as [L1 D1]. destruct (hex_digit_lower _ H2) as [L2 D2].
  rewrite (parse_pair _ _ _ _ D1 D2 L1 L2).
  f_equal; [|exact IH]. cbn. rewrite Z.mul_comm, <- Z.div_mod by lia. apply z2b_b2z.
Qed.

(** The text of bytes reads back as the bytes, with either reader, and a text of
    pairs of small digits is the text of its bytes. *)
Theorem hex_roundtrip bs :
  hexToBytes (bytesToHex bs) = bs /\ fromHex (bytesToHex bs) = bs
  /\ isHex (bytesToHex bs) (Some (2 * length bs)%nat) = negb (bool_decide (bs = [])).
Proof.
  split_and!; [|apply fromHex_to_hex|].
  - unfold hexToBytes, bytesToHex. rewrite normalizeHex_hex by apply to_hex_lower. apply pairs_of_hex.
  - unfold isHex, bytesToHex. rewrite to_hex_lower, to_hex_length, Nat.eqb_refl. destruct bs as [|b bs]; [done|].
    by rewrite to_hex_cons.
Qed.

Lemma auth_message_inj c c' : length c = length c' -> buildAuthMessage (to_hex c) = buildAuthMessage (to_hex c') -> c = c'.
Proof. unfold buildAuthMessage. rewrite !fromHex_to_hex. intros _ H. by apply app_inv_head in H. Qed.

Lemma oneLine_app s s' : oneLine s -> oneLine s' -> oneLine (s +:+ s').
Proof.
  unfold oneLine. induction s as [|c s IH]; [done|]. cbn [everyChar]. rewrite andb_true_iff. intros [Hc Hs] Hs'.
  change (String c s +:+ s') with (String c (s +:+ s')). cbn [everyChar]. by rewrite Hc, IH.
Qed.

Lemma oneLine_lower s : everyChar lowerHex s = true -> oneLine s.
Proof.
  unfold oneLine. induction s as [|c s IH]; cbn; [done|]. rewrite !andb_true_iff. intros [Hc Hs].
  split; [|by apply IH]. apply negb_true_iff. destruct (Ascii.eqb_spec c (Ascii.ascii_of_nat 10)) as [->|]; done.
Qed.

Lemma prefix_inj a b b' : a +:+ b = a +:+ b' -> b = b'.
Proof. apply (inj (String.append a)). Qed.

Lemma pretty_oneLine (n : Z) : oneLine (pretty n).
Proof.
  assert (HN : forall n : N, oneLine (pretty n)).
  { intros m. unfold pretty, pretty_N. case_decide; [done|].
    assert (Hgo : forall (fuel : nat) (k : N) s, (N.to_nat k < fuel)%nat -> oneLine s -> oneLine (pretty_N_go k s)).
    { induction fuel as [|fuel IH]; intros k s Hk Hs; [lia|].
      destruct (decide (k = 0)%N) as [->|Hne]; [by rewrite pretty_N_go_0|].
      rewrite pretty_N_go_step by lia. apply IH.
      - assert (k `div` 10 < k)%N by (apply N.div_lt; lia). lia.
      - unfold oneLine. cbn. rewrite andb_true_iff. split; [|exact Hs].
        unfold pretty_N_char. by repeat case_match. }
    eapply (Hgo (S (N.to_nat m))); [lia|done]. }
  unfold pretty, pretty_Z. destruct n; [done|apply HN|]. apply (oneLine_app "-"); [done|apply HN].
Qed.

(** The text a wallet signs for a link determines the link: the origin, the
    address, the chain, the user and the challenge can be read from it, so a
    signature for one link is not one for another. *)
Theorem evm_message_injective origin address chainId userId challenge origin' address' chainId' userId' challenge' :
  Forall oneLine [origin; address; userId] -> Forall oneLine [origin'; address'; userId'] ->
  buildEvmLinkMessage origin address chainId userId challenge
  = buildEvmLinkMessage origin' address' chainId' userId' challenge' ->
  origin = origin' /\ address = address' /\ chainId = chainId' /\ userId = userId' /\ challenge = challenge'.
Proof.
  rewrite !Forall_cons. intros (Ho & Ha & Hu & _) (Ho' & Ha' & Hu' & _). unfold buildEvmLinkMessage, join. intros E.
  cbn [String.concat] in E.
  assert (Hl : forall p s, oneLine p -> oneLine s -> oneLine (p +:+ s)) by apply oneLine_app.
  apply line_inj in E as [_ E]; [|done..].
  apply line_inj in E as [E1 E]; [|by apply Hl..]. apply prefix_inj in E1.
  apply line_inj in E as [E2 E]; [|by apply Hl..]. apply prefix_inj in E2.
  apply line_inj in E as [E3 E]; [|apply Hl; [done|apply pretty_oneLine]..]. apply prefix_inj in E3.
  apply line_inj in E as [E4 E]; [|by apply Hl..]. apply prefix_inj in E4. apply prefix_inj in E.
  by apply (inj pretty) in E3.
Qed.

Lemma evm_message_injective_witness :
  let message := buildEvmLinkMessage "https://a" "0xAb" 1 "u" "c0" in
  oneLine "https://a" /\ ("https://a" = "https://a" /\ "0xAb" = "0xAb" /\ 1 = 1 /\ "u" = "u" /\ "c0" = "c0")
  /\ String.length message = 76%nat.
Proof.
  split; [done|]. split; [|reflexivity].
  apply (evm_message_injective "https://a" "0xAb" 1 "u" "c0" "https://a" "0xAb" 1 "u" "c0"); repeat constructor.
Defined.
