(* ===== verification/Accounts.v ===== *)
(** * The accounts of the auth service

    [website/convex/schema.ts] with [auth.ts], [users.ts], [evm.ts],
    [entitlements.ts], [admin.ts], [maintenance.ts] and [serviceAuth.ts]: the
    tables, and the mutations and queries on them.  A mutation is a function of
    the time and the tables; the service token is checked by [withToken], the
    first statement of every function the service may call.  Chain ids and
    times are whole numbers. *)

From S2P Require Import Prelude Calendar Convex.

(** [if (value)] for an optional number or text. *)
Definition truthyZ (v : option Z) : bool := match v with Some n => negb (n =? 0) | None => false end.
Definition truthyS (v : option string) : bool := match v with Some s => negb (bool_decide (s = "")) | None => false end.

Section Accounts.
Context `{C : Convex}.

(** ** Tables *)

Record User := {
  authProvider : string; authSubject : string; email : option string; name : option string;
  publicKey : option string; stripeCustomerId : option string
}.

Record EvmLink := {
  l_userId : Id; l_evmAddress : string; l_chainId : Z; l_status : string; l_signatureType : string;
  linkedAtMs : Z; lastVerifiedAtMs : Z; unlinkedAtMs : option Z
}.

Record EvmChallenge := {
  ec_challengeId : string; ec_userId : Id; ec_evmAddress : string; ec_chainId : Z;
  ec_challenge : string; ec_expiresAtMs : Z; ec_usedAtMs : option Z
}.

Record Entitlement := {
  n_userId : Id; n_tier : string; n_status : string; n_source : string; n_startsAtMs : Z;
  n_endsAtMs : option Z; n_subscriptionId : option string; n_priceId : option string;
  n_productId : option string
}.

Record StripeEvent := { se_eventId : string; se_eventType : string; processedAtMs : Z }.

Record ReconcileState := { rs_name : string; rs_cursor : option string; rs_updatedAtMs : Z }.

Record AuthChallenge := {
  ac_challengeId : string; ac_publicKey : string; ac_challenge : string; ac_expiresAtMs : Z;
  ac_usedAtMs : option Z
}.

Record AdminNonce := { adminPublicKey : string; nextNonce : Z; an_updatedAtMs : Z }.

Record Db := {
  users : Table User; evmLinks : Table EvmLink; evmChallenges : Table EvmChallenge;
  entitlements : Table Entitlement; stripeEvents : Table StripeEvent;
  reconcileState : Table ReconcileState; authChallenges : Table AuthChallenge;
  adminNonces : Table AdminNonce
}.

Definition emptyDb : Db :=
  {| users := db_empty; evmLinks := db_empty; evmChallenges := db_empty; entitlements := db_empty;
     stripeEvents := db_empty; reconcileState := db_empty; authChallenges := db_empty;
     adminNonces := db_empty |}.

Definition with_users t (db : Db) : Db :=
  {| users := t; evmLinks := evmLinks db; evmChallenges := evmChallenges db; entitlements := entitlements db;
     stripeEvents := stripeEvents db; reconcileState := reconcileState db;
     authChallenges := authChallenges db; adminNonces := adminNonces db |}.
Definition with_evmLinks t (db : Db) : Db :=
  {| users := users db; evmLinks := t; evmChallenges := evmChallenges db; entitlements := entitlements db;
     stripeEvents := stripeEvents db; reconcileState := reconcileState db;
     authChallenges := authChallenges db; adminNonces := adminNonces db |}.
Definition with_evmChallenges t (db : Db) : Db :=
  {| users := users db; evmLinks := evmLinks db; evmChallenges := t; entitlements := entitlements db;
     stripeEvents := stripeEvents db; reconcileState := reconcileState db;
     authChallenges := authChallenges db; adminNonces := adminNonces db |}.
Definition with_entitlements t (db : Db) : Db :=
  {| users := users db; evmLinks := evmLinks db; evmChallenges := evmChallenges db; entitlements := t;
     stripeEvents := stripeEvents db; reconcileState := reconcileState db;
     authChallenges := authChallenges db; adminNonces := adminNonces db |}.
Definition with_stripeEvents t (db : Db) : Db :=
  {| users := users db; evmLinks := evmLinks db; evmChallenges := evmChallenges db; entitlements := entitlements db;
     stripeEvents := t; reconcileState := reconcileState db;
     authChallenges := authChallenges db; adminNonces := adminNonces db |}.
Definition with_reconcileState t (db : Db) : Db :=
  {| users := users db; evmLinks := evmLinks db; evmChallenges := evmChallenges db; entitlements := entitlements db;
     stripeEvents := stripeEvents db; reconcileState := t;
     authChallenges := authChallenges db; adminNonces := adminNonces db |}.
Definition with_authChallenges t (db : Db) : Db :=
  {| users := users db; evmLinks := evmLinks db; evmChallenges := evmChallenges db; entitlements := entitlements db;
     stripeEvents := stripeEvents db; reconcileState := reconcileState db;
     authChallenges := t; adminNonces := adminNonces db |}.
Definition with_adminNonces t (db : Db) : Db :=
  {| users := users db; evmLinks := evmLinks db; evmChallenges := evmChallenges db; entitlements := entitlements db;
     stripeEvents := stripeEvents db; reconcileState := reconcileState db;
     authChallenges := authChallenges db; adminNonces := t |}.

(** [ctx.db.insert] into a table of the database. *)
Definition insertInto {A} (with_table : Table A -> Db -> Db) (t : Table A) (d : A) (db : Db) : Id * Db :=
  let '(i, t') := db_insert d t in (i, with_table t' db).

(** ** serviceAuth.ts *)

Definition normalizeToken (value : option string) : string := trim (default "" value).

Definition requireServiceToken (configured token : option string) : result unit :=
  let expected := normalizeToken configured in
  if bool_decide (expected = "") then Throw "Missing CONVEX_SERVICE_TOKEN"
  else if negb (bool_decide (normalizeToken token = expected)) then Throw "Unauthorized"
  else Ok tt.

(** ** auth.ts *)

Definition createAuthChallenge (challengeId key challenge : string) (expiresAtMs : Z) (db : Db)
    : result (unit * Db) :=
  Ok (tt, (insertInto with_authChallenges (authChallenges db)
             {| ac_challengeId := challengeId; ac_publicKey := key; ac_challenge := challenge;
                ac_expiresAtMs := expiresAtMs; ac_usedAtMs := None |} db).2).

Definition with_used (now : Z) (r : AuthChallenge) : AuthChallenge :=
  {| ac_challengeId := ac_challengeId r; ac_publicKey := ac_publicKey r; ac_challenge := ac_challenge r;
     ac_expiresAtMs := ac_expiresAtMs r; ac_usedAtMs := Some now |}.

Definition by_challengeId (challengeId : string) (r : AuthChallenge) : bool :=
  bool_decide (ac_challengeId r = challengeId).

Definition consumeAuthChallenge (now : Z) (challengeId key : string) (db : Db)
    : result (option (string * Z) * Db) :=
  record ← unique "by_challenge_id" (by_challengeId challengeId) (authChallenges db);
  match record with
  | None => Ok (None, db)
  | Some (id, r) =>
      if negb (bool_decide (ac_publicKey r = key)) then Ok (None, db)
      else if truthyZ (ac_usedAtMs r) then Ok (None, db)
      else if ac_expiresAtMs r <=? now then Ok (None, db)
      else
        t ← patch id (with_used now) (authChallenges db);
        Ok (Some (ac_challenge r, ac_expiresAtMs r), with_authChallenges t db)
  end.

(** ** users.ts *)

Definition by_auth (provider subject : string) (u : User) : bool :=
  bool_decide (authProvider u = provider) && bool_decide (authSubject u = subject).
Definition by_publicKey (key : string) (u : User) : bool := bool_decide (publicKey u = Some key).
Definition by_customer (customer : string) (u : User) : bool := bool_decide (stripeCustomerId u = Some customer).

Definition getUserByAuth (provider subject : string) (db : Db) : result (option (Id * User)) :=
  unique "by_auth_provider_and_subject" (by_auth provider subject) (users db).

Definition getUserById (userId : Id) (db : Db) : option User := db_get (users db) userId.
Definition getUserByIdWithToken (userId : Id) (db : Db) : option User := db_get (users db) userId.

Definition getUserByPublicKey (key : string) (db : Db) : result (option (Id * User)) :=
  unique "by_public_key" (by_publicKey key) (users db).

(** [if (args.x !== undefined) patch.x = args.x] *)
Definition given {A} (arg old : option A) : option A := match arg with Some _ => arg | None => old end.

Definition upsertPatch (email' name' publicKey' : option string) (u : User) : User :=
  {| authProvider := authProvider u; authSubject := authSubject u; email := given email' (email u);
     name := given name' (name u); publicKey := given publicKey' (publicKey u);
     stripeCustomerId := stripeCustomerId u |}.

Definition upsertUser (provider subject : string) (email' name' publicKey' : option string) (db : Db)
    : result (Id * Db) :=
  existing ← unique "by_auth_provider_and_subject" (by_auth provider subject) (users db);
  match existing with
  | Some (id, _) =>
      match email', name', publicKey' with
      | None, None, None => Ok (id, db)
      | _, _, _ =>
          t ← patch id (upsertPatch email' name' publicKey') (users db);
          Ok (id, with_users t db)
      end
  | None =>
      Ok (insertInto with_users (users db)
            {| authProvider := provider; authSubject := subject; email := email'; name := name';
               publicKey := publicKey'; stripeCustomerId := None |} db)
  end.

Definition set_publicKey (key : string) (u : User) : User :=
  {| authProvider := authProvider u; authSubject := authSubject u; email := email u; name := name u;
     publicKey := Some key; stripeCustomerId := stripeCustomerId u |}.

Definition linkPublicKey (userId : Id) (key : string) (db : Db) : result (unit * Db) :=
  existing ← unique "by_public_key" (by_publicKey key) (users db);
  _ ← throw_if (match existing with Some (id, _) => negb (bool_decide (id = userId)) | None => false end)
        "Public key already linked to another account.";
  t ← patch userId (set_publicKey key) (users db);
  Ok (tt, with_users t db).

Definition set_customer (customer : string) (u : User) : User :=
  {| authProvider := authProvider u; authSubject := authSubject u; email := email u; name := name u;
     publicKey := publicKey u; stripeCustomerId := Some customer |}.

Definition setStripeCustomerId (userId : Id) (customer : string) (db : Db) : result (unit * Db) :=
  t ← patch userId (set_customer customer) (users db); Ok (tt, with_users t db).

(** ** evm.ts *)

Definition RELINK_COOLDOWN_MS : Z := 7 * 24 * 60 * 60 * 1000.
Definition STATUS_ACTIVE : string := "active".
Definition STATUS_UNLINKED : string := "unlinked".

Definition createEvmChallenge (challengeId : string) (userId : Id) (evmAddress : string) (chainId : Z)
    (challenge : string) (expiresAtMs : Z) (db : Db) : result (unit * Db) :=
  Ok (tt, (insertInto with_evmChallenges (evmChallenges db)
             {| ec_challengeId := challengeId; ec_userId := userId; ec_evmAddress := to_lower evmAddress;
                ec_chainId := chainId; ec_challenge := challenge; ec_expiresAtMs := expiresAtMs;
                ec_usedAtMs := None |} db).2).

Definition evm_used (now : Z) (r : EvmChallenge) : EvmChallenge :=
  {| ec_challengeId := ec_challengeId r; ec_userId := ec_userId r; ec_evmAddress := ec_evmAddress r;
     ec_chainId := ec_chainId r; ec_challenge := ec_challenge r; ec_expiresAtMs := ec_expiresAtMs r;
     ec_usedAtMs := Some now |}.

(** The challenge, its chain and its expiry. *)
Definition consumeEvmChallenge (now : Z) (challengeId : string) (userId : Id) (evmAddress : string) (db : Db)
    : result (option (string * Z * Z) * Db) :=
  record ← unique "by_challenge_id" (fun r => bool_decide (ec_challengeId r = challengeId)) (evmChallenges db);
  match record with
  | None => Ok (None, db)
  | Some (id, r) =>
      if negb (bool_decide (ec_userId r = userId)) then Ok (None, db)
      else if negb (bool_decide (ec_evmAddress r = to_lower evmAddress)) then Ok (None, db)
      else if truthyZ (ec_usedAtMs r) then Ok (None, db)
      else if ec_expiresAtMs r <=? now then Ok (None, db)
      else
        t ← patch id (evm_used now) (evmChallenges db);
        Ok (Some (ec_challenge r, ec_chainId r, ec_expiresAtMs r), with_evmChallenges t db)
  end.

Definition by_userId (userId : Id) (l : EvmLink) : bool := bool_decide (l_userId l = userId).
Definition by_address (address : string) (l : EvmLink) : bool := bool_decide (l_evmAddress l = address).
Definition active (l : EvmLink) : bool := bool_decide (l_status l = STATUS_ACTIVE).

Definition getEvmLinkByUser (userId : Id) (db : Db) : result (option EvmLink) :=
  link ← unique "by_user_id" (by_userId userId) (evmLinks db);
  Ok match link with
     | Some (_, l) => if active l then Some l else None
     | None => None
     end.

Definition relink (now : Z) (address : string) (chainId : Z) (signatureType : string) (l : EvmLink) : EvmLink :=
  {| l_userId := l_userId l; l_evmAddress := address; l_chainId := chainId; l_status := STATUS_ACTIVE;
     l_signatureType := signatureType;
     linkedAtMs := if bool_decide (l_evmAddress l = address) then linkedAtMs l else now;
     lastVerifiedAtMs := now; unlinkedAtMs := None |}.

(** The cooldown counts from the unlinking, or else from the linking. *)
Definition coolingDown (now : Z) (address : string) (l : EvmLink) : bool :=
  negb (bool_decide (l_evmAddress l = address))
  && (now - default (linkedAtMs l) (unlinkedAtMs l) <? RELINK_COOLDOWN_MS).

Definition linkEvmAddress (now : Z) (userId : Id) (evmAddress : string) (chainId : Z) (signatureType : string)
    (db : Db) : result (EvmLink * Db) :=
  let address := to_lower evmAddress in
  _ ← throw_if (match getUserById userId db with Some u => negb (truthyS (publicKey u)) | None => true end)
        "User must link a casino public key before linking EVM.";
  existingByAddress ← unique "by_evm_address" (by_address address) (evmLinks db);
  _ ← throw_if (match existingByAddress with
                | Some (_, l) => negb (by_userId userId l) && active l
                | None => false
                end) "EVM address already linked to another account.";
  existingByUser ← unique "by_user_id" (by_userId userId) (evmLinks db);
  match existingByUser with
  | Some (id, l) =>
      _ ← throw_if (coolingDown now address l) "EVM relink cooldown active.";
      t ← patch id (relink now address chainId signatureType) (evmLinks db);
      Ok (relink now address chainId signatureType l, with_evmLinks t db)
  | None =>
      let link := {| l_userId := userId; l_evmAddress := address; l_chainId := chainId;
                     l_status := STATUS_ACTIVE; l_signatureType := signatureType; linkedAtMs := now;
                     lastVerifiedAtMs := now; unlinkedAtMs := None |} in
      Ok (link, (insertInto with_evmLinks (evmLinks db) link db).2)
  end.

Definition unlinked (now : Z) (l : EvmLink) : EvmLink :=
  {| l_userId := l_userId l; l_evmAddress := l_evmAddress l; l_chainId := l_chainId l;
     l_status := STATUS_UNLINKED; l_signatureType := l_signatureType l; linkedAtMs := linkedAtMs l;
     lastVerifiedAtMs := lastVerifiedAtMs l; unlinkedAtMs := Some now |}.

Definition unlinkEvmAddress (now : Z) (userId : Id) (db : Db) : result (unit * Db) :=
  existing ← unique "by_user_id" (by_userId userId) (evmLinks db);
  match existing with
  | Some (id, l) =>
      if active l then t ← patch id (unlinked now) (evmLinks db); Ok (tt, with_evmLinks t db)
      else Ok (tt, db)
  | None => Ok (tt, db)
  end.

(** A page of the active links with the keys of their users; the page itself is
    the database's. *)
Definition listEvmLinks (page : list (Id * EvmLink)) (db : Db) : list (Id * option string * string * Z * Z) :=
  (fun p : Id * EvmLink =>
     (l_userId p.2, u ← getUserById (l_userId p.2) db; publicKey u, l_evmAddress p.2, l_chainId p.2,
      linkedAtMs p.2)) <$> page.

(** ** entitlements.ts *)

(** The newest come first; a missing limit is [NaN]. *)
Definition getEntitlementsByUser (userId : Id) (limit : option Z) (db : Db) : list (Id * Entitlement) :=
  let resolved := match limit with Some n => if 0 <? n then n else 100 | None => 100 end in
  take (Z.to_nat (Z.min resolved 200))
    (rev (db_query "by_user_id" (fun e => bool_decide (n_userId e = userId)) (entitlements db))).

(** ** admin.ts *)

(** A number that is not finite is [None]. *)
Definition normalizeNonce (value : option Z) : Z := match value with Some n => Z.max 0 n | None => 0 end.

Definition by_admin (key : string) (n : AdminNonce) : bool := bool_decide (adminPublicKey n = key).

Definition with_nonce (now nonce : Z) (n : AdminNonce) : AdminNonce :=
  {| adminPublicKey := adminPublicKey n; nextNonce := nonce; an_updatedAtMs := now |}.

Definition reserveAdminNonce (now : Z) (key : string) (fallback : option Z) (db : Db) : result (Z * Db) :=
  let fallbackNonce := normalizeNonce fallback in
  existing ← unique "by_admin_public_key" (by_admin key) (adminNonces db);
  match existing with
  | None =>
      Ok (fallbackNonce,
          (insertInto with_adminNonces (adminNonces db)
             {| adminPublicKey := key; nextNonce := fallbackNonce + 1; an_updatedAtMs := now |} db).2)
  | Some (id, n) =>
      let reserved := normalizeNonce (Some (nextNonce n)) in
      t ← patch id (with_nonce now (reserved + 1)) (adminNonces db);
      Ok (reserved, with_adminNonces t db)
  end.

Definition resetAdminNonce (now : Z) (key : string) (next : option Z) (db : Db) : result (unit * Db) :=
  let nonce := normalizeNonce next in
  existing ← unique "by_admin_public_key" (by_admin key) (adminNonces db);
  match existing with
  | Some (id, _) => t ← patch id (with_nonce now nonce) (adminNonces db); Ok (tt, with_adminNonces t db)
  | None =>
      Ok (tt, (insertInto with_adminNonces (adminNonces db)
                 {| adminPublicKey := key; nextNonce := nonce; an_updatedAtMs := now |} db).2)
  end.

(** ** maintenance.ts *)

Definition parseRetentionMs (raw : option Z) (fallbackMs : Z) : Z :=
  match raw with Some n => if n <=? 0 then fallbackMs else n | None => fallbackMs end.

Definition PRUNE_BATCH : nat := 200.

Definition deleteAll {A} (ids : list Id) (t : Table A) : Table A := foldl (fun t i => db_delete i t) t ids.

Definition pruneAuthChallenges (retention now : Z) (db : Db) : result (Z * Db) :=
  let expired := take PRUNE_BATCH
    (db_query "by_expires_at" (fun r => ac_expiresAtMs r <=? now - retention) (authChallenges db)) in
  Ok (len expired, with_authChallenges (deleteAll expired.*1 (authChallenges db)) db).

Definition pruneStripeEvents (retention now : Z) (db : Db) : result (Z * Db) :=
  let expired := take PRUNE_BATCH
    (db_query "by_processed_at" (fun r => processedAtMs r <=? now - retention) (stripeEvents db)) in
  Ok (len expired, with_stripeEvents (deleteAll expired.*1 (stripeEvents db)) db).

End Accounts.
