(* ===== verification/Stripe.v ===== *)
(** * Billing of the auth service

    [website/convex/stripeStore.ts] and [stripe.ts], with the webhook of
    [http.ts] and the billing routes of [services/auth/src/server.ts]: subscriptions of Stripe become entitlements of users.  What
    Stripe answers (its customers, sessions, subscriptions and the check of a
    webhook's signature) is input; times in seconds are whole numbers. *)

From Stdlib Require Import Strings.Ascii.
From stdpp Require Import pretty.
From S2P Require Import Prelude Calendar Convex Accounts AuthUtils RateBuckets.

Section Stripe.
Context `{C : Convex}.

(** ** The reconciliation cursor *)

Definition by_name (n : string) (r : ReconcileState) : bool := bool_decide (rs_name r = n).

Definition getStripeReconcileState (n : string) (d : Db) : result (option (Id * ReconcileState)) :=
  unique "by_name" (by_name n) (reconcileState d).

Definition with_cursor (cursor : option string) (now : Z) (r : ReconcileState) : ReconcileState :=
  {| rs_name := rs_name r; rs_cursor := cursor; rs_updatedAtMs := now |}.

Definition setStripeReconcileState (n : string) (cursor : option string) (updatedAtMs : option Z) (now : Z) (d : Db)
    : result (unit * Db) :=
  existing ← unique "by_name" (by_name n) (reconcileState d);
  let updated := default now updatedAtMs in
  match existing with
  | Some (id, _) => t ← patch id (with_cursor cursor updated) (reconcileState d); Ok (tt, with_reconcileState t d)
  | None =>
      Ok (tt, (insertInto with_reconcileState (reconcileState d)
                 {| rs_name := n; rs_cursor := cursor; rs_updatedAtMs := updated |} d).2)
  end.

(** ** Events *)

Record Item := { i_tier : option string; i_priceId : option string; i_productId : option string }.

Record StripeArgs := {
  eventId : string; eventType : string; customerId : option string; subscriptionId : option string;
  status : option string; tier : option string; priceId : option string; productId : option string;
  items : option (list Item); startsAtMs : option Z; endsAtMs : option Z
}.

Definition by_event (e : string) (s : StripeEvent) : bool := bool_decide (se_eventId s = e).
Definition by_subscription (sub : string) (e : Entitlement) : bool := bool_decide (n_subscriptionId e = Some sub).
Definition by_price (sub price : string) (e : Entitlement) : bool :=
  by_subscription sub e && bool_decide (n_priceId e = Some price).

(** [if (value) patch.x = value] *)
Definition truthyGiven (v old : option string) : option string := if truthyS v then v else old.

(** The patch of an item, on the entitlement of before. *)
Definition entitled (now : Z) (a : StripeArgs) (sub : string) (item : Item) (e : Entitlement) : Entitlement :=
  {| n_userId := n_userId e; n_tier := default "default" (i_tier item);
     n_status := default "unknown" (status a); n_source := "stripe"; n_startsAtMs := default now (startsAtMs a);
     n_endsAtMs := given (endsAtMs a) (n_endsAtMs e); n_subscriptionId := Some sub;
     n_priceId := truthyGiven (i_priceId item) (n_priceId e);
     n_productId := truthyGiven (i_productId item) (n_productId e) |}.

(** The entitlement an inserted patch starts from. *)
Definition noEntitlement (user : Id) : Entitlement :=
  {| n_userId := user; n_tier := ""; n_status := ""; n_source := ""; n_startsAtMs := 0; n_endsAtMs := None;
     n_subscriptionId := None; n_priceId := None; n_productId := None |}.

Definition applyItem (now : Z) (a : StripeArgs) (user : Id) (sub : string) (t : Table Entitlement) (item : Item)
    : result (Table Entitlement) :=
  existing ←
    match i_priceId item with
    | Some price => if truthyS (Some price) then unique "by_stripe_subscription_id_and_price_id" (by_price sub price) t
                    else unique "by_stripe_subscription_id" (by_subscription sub) t
    | None => unique "by_stripe_subscription_id" (by_subscription sub) t
    end;
  match existing with
  | Some (id, _) => patch id (entitled now a sub item) t
  | None => Ok (db_insert (entitled now a sub item (noEntitlement user)) t).2
  end.

Definition canceled (now : Z) (e : Entitlement) : Entitlement :=
  {| n_userId := n_userId e; n_tier := n_tier e; n_status := "canceled"; n_source := n_source e;
     n_startsAtMs := n_startsAtMs e; n_endsAtMs := Some now; n_subscriptionId := n_subscriptionId e;
     n_priceId := n_priceId e; n_productId := n_productId e |}.

Definition cancelOthers (now : Z) (active : list string) (t : Table Entitlement) (p : Id * Entitlement)
    : result (Table Entitlement) :=
  if match n_priceId p.2 with
     | Some price => negb (truthyS (Some price)) || negb (bool_decide (price ∈ active))
     | None => true
     end
  then patch p.1 (canceled now) t
  else Ok t.

(** The types of events that carry all items of a subscription. *)
Definition closes (type : string) : bool :=
  bool_decide (type = "customer.subscription.updated") || bool_decide (type = "customer.subscription.deleted")
  || bool_decide (type = "reconcile").

Definition activePriceIds (type : string) (its : list Item) : list string :=
  if bool_decide (type = "customer.subscription.deleted") then []
  else List.filter nonempty (omap i_priceId its).

(** The entitlements after an event of a known customer. *)
Definition applyItems (now : Z) (a : StripeArgs) (user : Id) (sub : string) (t : Table Entitlement)
    : result (Table Entitlement) :=
  t ← foldM_result (applyItem now a user sub) t
        (default [{| i_tier := tier a; i_priceId := priceId a; i_productId := productId a |}] (items a));
  match items a with
  | Some its =>
      if closes (eventType a)
      then foldM_result (cancelOthers now (activePriceIds (eventType a) its)) t
             (db_query "by_stripe_subscription_id" (by_subscription sub) t)
      else Ok t
  | None => Ok t
  end.

Definition applyStripeEvent (now : Z) (a : StripeArgs) (d : Db) : result (unit * Db) :=
  alreadyProcessed ← unique "by_event_id" (by_event (eventId a)) (stripeEvents d);
  match alreadyProcessed with
  | Some _ => Ok (tt, d)
  | None =>
      let d := (insertInto with_stripeEvents (stripeEvents d)
                  {| se_eventId := eventId a; se_eventType := eventType a; processedAtMs := now |} d).2 in
      match customerId a, subscriptionId a with
      | Some customer, Some sub =>
          if negb (truthyS (Some customer)) || negb (truthyS (Some sub)) then Ok (tt, d)
          else
            user ← unique "by_stripe_customer_id" (by_customer customer) (users d);
            match user with
            | None => Ok (tt, d)
            | Some (id, _) => t ← applyItems now a id sub (entitlements d); Ok (tt, with_entitlements t d)
            end
      | _, _ => Ok (tt, d)
      end
  end.

(** ** Subscriptions *)

Record Price := { p_id : string; p_product : option string; p_tier : option string }.

(** [sb_tier]: the tier in the metadata, where there is one; an item may lack its
    price. *)
Record Subscription := {
  sb_id : string; sb_customer : string; sb_status : string; sb_tier : option string;
  sb_items : list (option Price); current_period_start : Z; current_period_end : option Z
}.

Definition priceItem (subscriptionTier : option string) (p : Price) : Item :=
  {| i_tier := match p_tier p with Some t => Some t | None => subscriptionTier end;
     i_priceId := Some (p_id p); i_productId := p_product p |}.

Definition extractItems (s : Subscription) : list Item :=
  List.filter (fun i => truthyS (i_priceId i))
    (omap (fun p : option Price => priceItem (sb_tier s) <$> p) (sb_items s)).

(** The period in milliseconds; an end of 0 counts as none. *)
Definition periodEndMs (s : Subscription) : option Z :=
  match current_period_end s with Some n => if n =? 0 then None else Some (n * 1000) | None => None end.

Definition subscriptionArgs (id type : string) (s : Subscription) : StripeArgs :=
  {| eventId := id; eventType := type; customerId := Some (sb_customer s); subscriptionId := Some (sb_id s);
     status := Some (sb_status s); tier := None; priceId := None; productId := None;
     items := Some (extractItems s); startsAtMs := Some (current_period_start s * 1000);
     endsAtMs := periodEndMs s |}.

Definition resolveSubscriptionLimit (value : option Z) (fallback : Z) : Z :=
  match value with Some n => if 0 <? n then Z.min n 100 else fallback | None => fallback end.

Definition resolveBatchSize (value : option Z) (fallback : Z) : Z :=
  match value with Some n => if 0 <? n then Z.min n 200 else fallback | None => fallback end.

Definition periodText (s : Subscription) : string :=
  match current_period_end s with Some n => pretty n | None => "undefined" end.

Definition reconcileEventId (s : Subscription) : string :=
  "reconcile:" +:+ sb_id s +:+ ":" +:+ sb_status s +:+ ":" +:+ periodText s.

Definition reconcileSubscription (now : Z) (d : Db) (s : Subscription) : result Db :=
  r ← applyStripeEvent now (subscriptionArgs (reconcileEventId s) "reconcile" s) d; Ok r.2.

(** One customer, with the answer of Stripe: the number of subscriptions.  Every
    subscription is a mutation of its own, so those before an error stay. *)
Fixpoint reconcileStripeCustomerSubscriptions (now : Z) (listed : list Subscription) (d : Db) : result Z * Db :=
  match listed with
  | [] => (Ok 0, d)
  | s :: listed' =>
      match reconcileSubscription now d s with
      | Ok d' => let '(processed, d'') := reconcileStripeCustomerSubscriptions now listed' d' in
                 (Z.add 1 <$> processed, d'')
      | Throw e => (Throw e, d)
      end
  end.

(** An event of a webhook: a change of a subscription, or another type. *)
Inductive WebhookEvent :=
| SubscriptionEvent (id type : string) (s : Subscription)
| OtherEvent (id type : string).

Definition handleStripeWebhook (now : Z) (e : WebhookEvent) (d : Db) : result (unit * Db) :=
  match e with
  | SubscriptionEvent id type s => applyStripeEvent now (subscriptionArgs id type s) d
  | OtherEvent id type =>
      applyStripeEvent now
        {| eventId := id; eventType := type; customerId := None; subscriptionId := None; status := None;
           tier := None; priceId := None; productId := None; items := None; startsAtMs := None; endsAtMs := None |} d
  end.

(** The scheduled run over a page of users, with what Stripe lists for each: the
    numbers of customers and subscriptions. *)
Fixpoint reconcilePage (now : Z) (page : list (option string * list Subscription)) (d : Db) : result (Z * Z) * Db :=
  match page with
  | [] => (Ok (0, 0), d)
  | (customer, listed) :: page' =>
      if negb (truthyS customer) then reconcilePage now page' d
      else
        match reconcileStripeCustomerSubscriptions now listed d with
        | (Ok n, d') =>
            let '(r, d'') := reconcilePage now page' d' in
            ((fun p : Z * Z => (p.1 + 1, p.2 + n)) <$> r, d'')
        | (Throw e, d') => (Throw e, d')
        end
  end.

(** The next run goes on behind this page, or from the beginning. *)
Definition reconcileStripeCustomers (now : Z) (page : list (option string * list Subscription))
    (continueCursor : option string) (isDone : bool) (d : Db) : result (Z * Z * option string) * Db :=
  match reconcilePage now page d with
  | (Throw e, d') => (Throw e, d')
  | (Ok (customers, subscriptions), d') =>
      let nextCursor := if isDone then None else continueCursor in
      match setStripeReconcileState "default" nextCursor None now d' with
      | Ok (_, d'') => (Ok (customers, subscriptions, nextCursor), d'')
      | Throw e => (Throw e, d')
      end
  end.

(** ** Checkout

    The customer is stored before the session is made, and stays when Stripe
    refuses the session. *)

Definition createCheckoutSession (createCustomer : User -> result string)
    (createSession : string -> result (option string)) (user : Id) (d : Db) : result string * Db :=
  match getUserById user d with
  | None => (Throw "User not found", d)
  | Some u =>
      match (if truthyS (stripeCustomerId u) then Ok (default "" (stripeCustomerId u), d)
             else c ← createCustomer u; r ← setStripeCustomerId user c d; Ok (c, r.2)) with
      | Throw e => (Throw e, d)
      | Ok (customer, d') =>
          (url ← createSession customer;
           match url with
           | Some u => if nonempty u then Ok u else Throw "Stripe checkout session missing URL"
           | None => Throw "Stripe checkout session missing URL"
           end, d')
      end
  end.

(** The customer a portal or a reconciliation is made for. *)
Definition linkedCustomer (user : Id) (d : Db) : result string :=
  match u ← getUserById user d; stripeCustomerId u with
  | Some c => if nonempty c then Ok c else Throw "Stripe customer not linked"
  | None => Throw "Stripe customer not linked"
  end.

Definition createBillingPortalSession (createSession : string -> result (option string)) (user : Id) (d : Db)
    : result string :=
  customer ← linkedCustomer user d;
  url ← createSession customer;
  match url with
  | Some u => if nonempty u then Ok u else Throw "Stripe portal session missing URL"
  | None => Throw "Stripe portal session missing URL"
  end.

Definition reconcileCustomerSubscriptions (now : Z) (listSubscriptions : string -> Z -> result (list Subscription))
    (user : Id) (limit : option Z) (d : Db) : result Z * Db :=
  match (customer ← linkedCustomer user d; listSubscriptions customer (resolveSubscriptionLimit limit 100)) with
  | Ok listed => reconcileStripeCustomerSubscriptions now listed d
  | Throw e => (Throw e, d)
  end.

(** ** The billing routes of the auth service *)

Record BillingConfig := {
  stripeTierMap : gmap string string; billingOrigins : list string;
  parseUrl : string -> option (string * string)
}.

(** What a session of Stripe is made with. *)
Record CheckoutParams := {
  cp_customer : string; cp_price : string; cp_successUrl : string; cp_cancelUrl : string; cp_tier : string;
  cp_allowPromotionCodes : bool
}.

Record CheckoutBody := {
  cb_priceId : option string; cb_successUrl : option string; cb_cancelUrl : option string;
  cb_tier : option string; cb_allowPromotionCodes : bool
}.

Inductive BillingAnswer := Url (url : string) | Processed (n : Z) | BillingFailed (status : Z) (error : string).

(** The tier, and the two URLs to come back to. *)
Definition checkCheckout (c : BillingConfig) (price success cancel : string) (tier : option string)
    : result (string * string * string) :=
  resolvedTier ← resolveStripeTier (stripeTierMap c) price tier;
  safeSuccessUrl ← ensureAllowedRedirect (parseUrl c) (billingOrigins c) success;
  safeCancelUrl ← ensureAllowedRedirect (parseUrl c) (billingOrigins c) cancel;
  Ok (resolvedTier, safeSuccessUrl, safeCancelUrl).

Definition billingCheckout (c : BillingConfig) (createCustomer : User -> result string)
    (createSession : CheckoutParams -> result (option string)) (session : option Id) (b : CheckoutBody) (d : Db)
    : BillingAnswer * Db :=
  match session with
  | None => (BillingFailed 401 "unauthorized", d)
  | Some user =>
      if negb (truthyS (cb_priceId b)) || negb (truthyS (cb_successUrl b)) || negb (truthyS (cb_cancelUrl b))
      then (BillingFailed 400 "priceId, successUrl, cancelUrl required", d)
      else
        let price := default "" (cb_priceId b) in
        match checkCheckout c price (default "" (cb_successUrl b)) (default "" (cb_cancelUrl b)) (cb_tier b) with
        | Throw e => (BillingFailed 400 e, d)
        | Ok (tier, success, cancel) =>
            let make customer := createSession
              {| cp_customer := customer; cp_price := price; cp_successUrl := success; cp_cancelUrl := cancel;
                 cp_tier := tier; cp_allowPromotionCodes := cb_allowPromotionCodes b |} in
            match createCheckoutSession createCustomer make user d with
            | (Ok url, d') => (Url url, d')
            | (Throw _, d') => (BillingFailed 502 "checkout failed", d')
            end
        end
  end.

Definition billingPortal (c : BillingConfig) (createSession : string -> string -> result (option string))
    (session : option Id) (returnUrl : option string) (d : Db) : BillingAnswer :=
  match session with
  | None => BillingFailed 401 "unauthorized"
  | Some user =>
      if negb (truthyS returnUrl) then BillingFailed 400 "returnUrl required"
      else
        match ensureAllowedRedirect (parseUrl c) (billingOrigins c) (default "" returnUrl) with
        | Throw e => BillingFailed 400 e
        | Ok safeReturnUrl =>
            match createBillingPortalSession (fun customer => createSession customer safeReturnUrl) user d with
            | Ok url => Url url
            | Throw _ => BillingFailed 502 "portal failed"
            end
        end
  end.

Definition billingReconcile (now : Z) (listSubscriptions : string -> Z -> result (list Subscription))
    (session : option Id) (limit : option Z) (d : Db) : BillingAnswer * Db :=
  match session with
  | None => (BillingFailed 401 "unauthorized", d)
  | Some user =>
      match reconcileCustomerSubscriptions now listSubscriptions user limit d with
      | (Ok n, d') => (Processed n, d')
      | (Throw _, d') => (BillingFailed 502 "reconcile failed", d')
      end
  end.

(** ** The webhook *)

Definition getRequestIp (forwarded realIp : option string) : string :=
  match forwarded with
  | Some f => if nonempty f then match split ","%char f with w :: _ => trim w | [] => "unknown" end
              else match realIp with Some r => if nonempty r then r else "unknown" | None => "unknown" end
  | None => match realIp with Some r => if nonempty r then r else "unknown" | None => "unknown" end
  end.

(** The status of the answer; [event] is the event Stripe signed, if it did. *)
Definition stripeWebhook (c : BucketConfig) (windowMs max now : Z) (forwarded realIp signature : option string)
    (event : result WebhookEvent) (b : Buckets) (d : Db) : Z * Buckets * Db :=
  let '(ok, b') := enforceRateLimit c windowMs max now ("stripe:" +:+ getRequestIp forwarded realIp) b in
  if negb ok then (429, b', d)
  else if negb (truthyS signature) then (400, b', d)
  else
    match (e ← event; handleStripeWebhook now e d) with
    | Ok (_, d') => (200, b', d')
    | Throw _ => (500, b', d)
    end.

End Stripe.
