(* ===== verification/AuthService.v ===== *)
(** * The auth service

    The handlers of [services/auth/src/server.ts] that sign players in, link
    their keys and their wallets, and show their profile.  A handler is a
    program that calls the functions of [Accounts] one after the other; between
    two calls the calls of other requests may run.  [express] calls a handler
    with the body of the request as text fields; the id and the bytes of a
    challenge are drawn by the request.  Counters, logs and the events sent to
    the ops service are left out. *)

From S2P Require Import Prelude Bytes Calendar Convex Accounts AuthUtils RateBuckets Stripe.

(** ** What the service is built on *)

(** Ed25519 with the key, the message and the signature; [ethers.getAddress] and
    [ethers.verifyMessage], [None] where they throw; and [new URL(text).origin]. *)
Class AuthLib := {
  ed25519_verify : Uint8Array -> Uint8Array -> Uint8Array -> bool;
  getAddress : string -> option string;
  verifyMessage : string -> string -> option string;
  urlOrigin : string -> option string
}.

Record Env := {
  serviceToken : option string; configuredToken : option string;
  challengeTtlMs : Z; challengeTtlMaxMs : Z; mobileEnabled : bool;
  allowedOrigins : list string; allowedChainIds : list Z; ENTITLEMENTS_MAX : Z;
  buckets : BucketConfig; challengeWindow : Z; challengeMax : Z; profileWindow : Z; profileMax : Z
}.

Definition effectiveChallengeTtlMs (env : Env) : Z := Z.min (challengeTtlMs env) (challengeTtlMaxMs env).

Section Service.
Context `{C : Convex} `{lib : AuthLib}.

Definition normalizeEvmAddress (value : string) : option string := getAddress value.

Definition verifySignature (publicKeyHex signatureHex challengeHex : string) : bool :=
  ed25519_verify (fromHex publicKeyHex) (buildAuthMessage challengeHex) (fromHex signatureHex).

Definition verifyEvmSignature (address message signature : string) : bool :=
  match verifyMessage message signature with
  | Some recovered =>
      match normalizeEvmAddress recovered with
      | Some a => bool_decide (to_lower a = to_lower address)
      | None => false
      end
  | None => false
  end.

(** The [Origin] header, or else the origin of the [Referer]. *)
Definition getRequestOrigin (origin referer : option string) : option string :=
  match origin with
  | Some o => if nonempty o then Some o
              else match referer with Some r => if nonempty r then urlOrigin r else None | None => None end
  | None => match referer with Some r => if nonempty r then urlOrigin r else None | None => None end
  end.

(** ** Calls of the database *)

Inductive Op :=
| CreateAuthChallenge (challengeId key challenge : string) (expiresAtMs : Z)
| ConsumeAuthChallenge (challengeId key : string)
| UpsertUser (provider subject : string) (email' name' key' : option string)
| GetUserByPublicKey (key : string)
| GetUserByIdWithToken (userId : Id)
| LinkPublicKey (userId : Id) (key : string)
| GetEntitlementsByUser (userId : Id) (limit : option Z)
| GetEvmLinkByUser (userId : Id)
| CreateEvmChallenge (challengeId : string) (userId : Id) (address : string) (chainId : Z) (challenge : string)
    (expiresAtMs : Z)
| ConsumeEvmChallenge (challengeId : string) (userId : Id) (address : string)
| LinkEvmAddress (userId : Id) (address : string) (chainId : Z) (signatureType : string)
| UnlinkEvmAddress (userId : Id).

Definition Ans (op : Op) : Type :=
  match op with
  | CreateAuthChallenge _ _ _ _ | LinkPublicKey _ _ | CreateEvmChallenge _ _ _ _ _ _ | UnlinkEvmAddress _ => unit
  | ConsumeAuthChallenge _ _ => option (string * Z)
  | UpsertUser _ _ _ _ _ => Id
  | GetUserByPublicKey _ => option (Id * User)
  | GetUserByIdWithToken _ => option User
  | GetEntitlementsByUser _ _ => list (Id * Entitlement)
  | GetEvmLinkByUser _ => option EvmLink
  | ConsumeEvmChallenge _ _ _ => option (string * Z * Z)
  | LinkEvmAddress _ _ _ _ => EvmLink
  end.

Definition exec (now : Z) (op : Op) (db : Db) : result (Ans op * Db) :=
  match op with
  | CreateAuthChallenge c k ch e => createAuthChallenge c k ch e db
  | ConsumeAuthChallenge c k => consumeAuthChallenge now c k db
  | UpsertUser p s e n k => upsertUser p s e n k db
  | GetUserByPublicKey k => u ← getUserByPublicKey k db; Ok (u, db)
  | GetUserByIdWithToken i => Ok (getUserByIdWithToken i db, db)
  | LinkPublicKey i k => linkPublicKey i k db
  | GetEntitlementsByUser i l => Ok (getEntitlementsByUser i l db, db)
  | GetEvmLinkByUser i => l ← getEvmLinkByUser i db; Ok (l, db)
  | CreateEvmChallenge c i a n ch e => createEvmChallenge c i a n ch e db
  | ConsumeEvmChallenge c i a => consumeEvmChallenge now c i a db
  | LinkEvmAddress i a n t => linkEvmAddress now i a n t db
  | UnlinkEvmAddress i => unlinkEvmAddress now i db
  end.

(** [convex.mutation(...)] and [convex.query(...)] *)
Definition call (env : Env) (now : Z) (op : Op) (db : Db) : result (Ans op * Db) :=
  _ ← requireServiceToken (configuredToken env) (serviceToken env); exec now op db.

(** ** Handlers *)

(** What a request ends in; [Crashed] is a rejected promise. *)
Inductive Answer :=
| Failed (status : Z) (error : string)
| ChallengeIssued (challengeId challenge : string) (expiresAtMs : Z)
| SignedIn (userId : Id) (key : string)
| NotSignedIn
| Entitlements (l : list (Id * Entitlement))
| Profile (l : list (Id * Entitlement)) (link : option EvmLink)
| KeyLinked
| EvmChallengeIssued (challengeId message : string) (expiresAtMs : Z) (address : string) (chainId : Z)
| EvmLinked (link : EvmLink)
| EvmUnlinked
| Crashed (error : string).

Inductive Prog :=
| Respond (a : Answer)
| Do (op : Op) (k : Ans op -> Prog).

(** The user of a session and the key it was signed in with. *)
Record Session := { userId : Id; sessionSubject : string }.

Inductive Route :=
| PostChallenge (key : string)
| PostMobileChallenge (key : string)
| PostMobileEntitlements (key signature challengeId : string)
| Authorize (key signature challengeId : string)
| GetProfile
| PostLinkPublicKey (key signature challengeId : string)
| PostEvmChallenge (address : string) (chainId : option Z)
| PostLinkEvm (address signature challengeId : string) (chainId : option Z)
| PostUnlinkEvm.

Record Request := {
  route : Route; q_origin : option string; q_referer : option string; q_ip : string;
  q_session : option Session; q_now : Z; q_uuid : string; q_random : Uint8Array
}.

Definition issueChallenge (env : Env) (q : Request) (key : string) : Prog :=
  let publicKey := normalizeHex key in
  if negb (isHex publicKey (Some 64%nat)) then Respond (Failed 400 "invalid publicKey")
  else
    let challenge := to_hex (q_random q) in
    let expiresAtMs := q_now q + effectiveChallengeTtlMs env in
    Do (CreateAuthChallenge (q_uuid q) publicKey challenge expiresAtMs)
      (fun _ => Respond (ChallengeIssued (q_uuid q) challenge expiresAtMs)).

Definition mobileChallenge (env : Env) (q : Request) (key : string) : Prog :=
  if negb (mobileEnabled env) then Respond (Failed 403 "mobile_disabled") else issueChallenge env q key.

Definition mobileEntitlements (env : Env) (key signature challengeId : string) : Prog :=
  if negb (mobileEnabled env) then Respond (Failed 403 "mobile_disabled")
  else
    let publicKey := normalizeHex key in
    let signature := normalizeHex signature in
    if negb (isHex publicKey (Some 64%nat)) then Respond (Failed 400 "invalid publicKey")
    else if negb (isHex signature (Some 128%nat)) then Respond (Failed 400 "invalid signature")
    else if negb (nonempty challengeId) then Respond (Failed 400 "challengeId is required")
    else
      Do (ConsumeAuthChallenge challengeId publicKey) (fun challenge =>
        match challenge with
        | None => Respond (Failed 400 "invalid challenge")
        | Some (ch, _) =>
            if negb (verifySignature publicKey signature ch) then Respond (Failed 400 "invalid signature")
            else
              Do (GetUserByPublicKey publicKey) (fun user =>
                match user with
                | Some (id, _) =>
                    Do (GetEntitlementsByUser id (Some (ENTITLEMENTS_MAX env))) (fun l => Respond (Entitlements l))
                | None => Respond (Entitlements [])
                end)
        end).

(** [authorize] of the credentials provider. *)
Definition authorize (key signature challengeId : string) : Prog :=
  let publicKey := normalizeHex key in
  let signature := normalizeHex signature in
  if negb (isHex publicKey (Some 64%nat)) then Respond NotSignedIn
  else if negb (isHex signature (Some 128%nat)) then Respond NotSignedIn
  else if negb (nonempty challengeId) then Respond NotSignedIn
  else
    Do (ConsumeAuthChallenge challengeId publicKey) (fun challenge =>
      match challenge with
      | None => Respond NotSignedIn
      | Some (ch, _) =>
          if negb (verifySignature publicKey signature ch) then Respond NotSignedIn
          else
            Do (UpsertUser "passkey" publicKey None None (Some publicKey)) (fun id =>
              Respond (SignedIn id publicKey))
      end).

Definition requireSession (q : Request) (k : Session -> Prog) : Prog :=
  match q_session q with Some s => k s | None => Respond (Failed 401 "unauthorized") end.

Definition getProfile (env : Env) (s : Session) : Prog :=
  Do (GetEntitlementsByUser (userId s) (Some (ENTITLEMENTS_MAX env))) (fun l =>
    Do (GetEvmLinkByUser (userId s)) (fun link => Respond (Profile l link))).

Definition profileLinkPublicKey (key signature challengeId : string) (s : Session) : Prog :=
  let publicKey := normalizeHex key in
  let signature := normalizeHex signature in
  if negb (isHex publicKey (Some 64%nat)) then Respond (Failed 400 "invalid publicKey")
  else if negb (isHex signature (Some 128%nat)) then Respond (Failed 400 "invalid signature")
  else if negb (nonempty challengeId) then Respond (Failed 400 "challengeId is required")
  else
    Do (ConsumeAuthChallenge challengeId publicKey) (fun challenge =>
      match challenge with
      | None => Respond (Failed 400 "invalid challenge")
      | Some (ch, _) =>
          if negb (verifySignature publicKey signature ch) then Respond (Failed 400 "invalid signature")
          else Do (LinkPublicKey (userId s) publicKey) (fun _ => Respond KeyLinked)
      end).

(** The text that stands for a user in the message of a wallet. *)
Context (idText : Id -> string).

Definition requestOrigin (q : Request) : string :=
  default "nullspace.local" (getRequestOrigin (q_origin q) (q_referer q)).

Definition profileEvmChallenge (env : Env) (q : Request) (address : string) (chainId : option Z) (s : Session) : Prog :=
  match normalizeEvmAddress address, parseChainId chainId with
  | Some address, Some chainId =>
      if negb (nonempty address) then Respond (Failed 400 "invalid evm address or chainId")
      else if negb (isAllowedChainId (allowedChainIds env) chainId) then Respond (Failed 400 "chainId not allowed")
      else
        Do (GetUserByIdWithToken (userId s)) (fun user =>
          if negb (match user with Some u => truthyS (publicKey u) | None => false end)
          then Respond (Failed 400 "link casino key before linking EVM")
          else
            let challenge := to_hex (q_random q) in
            let expiresAtMs := q_now q + effectiveChallengeTtlMs env in
            Do (CreateEvmChallenge (q_uuid q) (userId s) address chainId challenge expiresAtMs) (fun _ =>
              Respond (EvmChallengeIssued (q_uuid q)
                (buildEvmLinkMessage (requestOrigin q) address chainId (idText (userId s)) challenge)
                expiresAtMs address chainId)))
  | _, _ => Respond (Failed 400 "invalid evm address or chainId")
  end.

Definition profileLinkEvm (env : Env) (q : Request) (address signature challengeId : string) (chainId : option Z)
    (s : Session) : Prog :=
  match normalizeEvmAddress address, parseChainId chainId with
  | Some address, Some chainId =>
      if negb (nonempty address) then Respond (Failed 400 "invalid evm address or chainId")
      else if negb (nonempty signature) then Respond (Failed 400 "signature is required")
      else if negb (nonempty challengeId) then Respond (Failed 400 "challengeId is required")
      else if negb (isAllowedChainId (allowedChainIds env) chainId) then Respond (Failed 400 "chainId not allowed")
      else
        Do (ConsumeEvmChallenge challengeId (userId s) address) (fun challenge =>
          match challenge with
          | None => Respond (Failed 400 "invalid challenge")
          | Some (ch, chain, _) =>
              if negb (chain =? chainId) then Respond (Failed 400 "chainId mismatch")
              else
                let message := buildEvmLinkMessage (requestOrigin q) address chainId (idText (userId s)) ch in
                if negb (verifyEvmSignature address message signature)
                then Respond (Failed 400 "invalid signature")
                else Do (LinkEvmAddress (userId s) address chainId "personal_sign") (fun link =>
                       Respond (EvmLinked link))
          end)
  | _, _ => Respond (Failed 400 "invalid evm address or chainId")
  end.

Definition profileUnlinkEvm (s : Session) : Prog :=
  Do (UnlinkEvmAddress (userId s)) (fun _ => Respond EvmUnlinked).

Definition handler (env : Env) (q : Request) : Prog :=
  match route q with
  | PostChallenge key => issueChallenge env q key
  | PostMobileChallenge key => mobileChallenge env q key
  | PostMobileEntitlements key signature challengeId => mobileEntitlements env key signature challengeId
  | Authorize key signature challengeId => authorize key signature challengeId
  | GetProfile => requireSession q (getProfile env)
  | PostLinkPublicKey key signature challengeId => requireSession q (profileLinkPublicKey key signature challengeId)
  | PostEvmChallenge address chainId => requireSession q (profileEvmChallenge env q address chainId)
  | PostLinkEvm address signature challengeId chainId =>
      requireSession q (profileLinkEvm env q address signature challengeId chainId)
  | PostUnlinkEvm => requireSession q profileUnlinkEvm
  end.

(** ** Middleware *)

Definition requireAllowedOrigin (env : Env) (q : Request) : bool :=
  match getRequestOrigin (q_origin q) (q_referer q) with
  | Some o => nonempty o && bool_decide (o ∈ allowedOrigins env)
  | None => false
  end.

(** Whether a route asks for an allowed origin. *)
Definition checksOrigin (r : Route) : bool :=
  match r with
  | PostMobileChallenge _ | PostMobileEntitlements _ _ _ | Authorize _ _ _ => false
  | _ => true
  end.

(** The key prefix, the window and the maximum of a route's limit. *)
Definition routeLimit (env : Env) (r : Route) : option (string * Z * Z) :=
  match r with
  | Authorize _ _ _ => None
  | PostChallenge _ | PostMobileChallenge _ | PostMobileEntitlements _ _ _ =>
      Some ("challenge", challengeWindow env, challengeMax env)
  | _ => Some ("profile", profileWindow env, profileMax env)
  end.

(** The program a request starts with, and the buckets afterwards. *)
Definition passLimit (env : Env) (q : Request) (b : Buckets) : Prog * Buckets :=
  if checksOrigin (route q) && negb (requireAllowedOrigin env q)
  then (Respond (Failed 403 "origin_not_allowed"), b)
  else
    match routeLimit env (route q) with
    | None => (handler env q, b)
    | Some (prefix, windowMs, max) =>
        match rateLimit (buckets env) windowMs max (q_now q) (prefix +:+ ":" +:+ q_ip q) b with
        | (Pass, b') => (handler env q, b')
        | (RetryAfter _, b') => (Respond (Failed 429 "rate_limited"), b')
        end
    end.

(** ** The server

    A running request is the request and the rest of its program; the trace
    records, newest first, which request did which call at what time with what
    answer.  The clock of a start is some time after 1970. *)

Record Did := { d_request : nat; d_now : Z; d_op : Op; d_answer : Ans d_op }.

Record Server := {
  db : Db; rate : Buckets; running : list (Request * Prog); trace : list Did; clock : Z
}.

Definition serverStart : Server := {| db := emptyDb; rate := noBuckets; running := []; trace := []; clock := 1 |}.

(** Mutations that other parts of the deployment run: the pruning of old
    challenges and events, the billing, and the nonces of the administrator. *)
Inductive background (now : Z) (d : Db) : Db -> Prop :=
| Prune retention n d' : pruneAuthChallenges retention now d = Ok (n, d') -> background now d d'
| PruneEvents retention n d' : pruneStripeEvents retention now d = Ok (n, d') -> background now d d'
| Customer i customer d' : setStripeCustomerId i customer d = Ok (tt, d') -> background now d d'
| Billing a d' : applyStripeEvent now a d = Ok (tt, d') -> background now d d'
| Cursor cursor d' : setStripeReconcileState "default" cursor None now d = Ok (tt, d') -> background now d d'
| Reserve key fallback n d' : reserveAdminNonce now key fallback d = Ok (n, d') -> background now d d'
| Reset_ key next d' : resetAdminNonce now key next d = Ok (tt, d') -> background now d d'.

(** A request arrives, a running request does its next call, or a mutation runs
    in the background.  Time does not run backwards. *)
Inductive step (env : Env) (s : Server) : Server -> Prop :=
| Arrive q p b :
    clock s <= q_now q -> passLimit env q (rate s) = (p, b) ->
    step env s {| db := db s; rate := b; running := running s ++ [(q, p)]; trace := trace s; clock := q_now q |}
| Answered i q op k now a db' :
    clock s <= now -> running s !! i = Some (q, Do op k) -> call env now op (db s) = Ok (a, db') ->
    step env s {| db := db'; rate := rate s; running := <[i := (q, k a)]> (running s);
                  trace := {| d_request := i; d_now := now; d_op := op; d_answer := a |} :: trace s;
                  clock := now |}
| Rejected i q op k now e :
    clock s <= now -> running s !! i = Some (q, Do op k) -> call env now op (db s) = Throw e ->
    step env s {| db := db s; rate := rate s; running := <[i := (q, Respond (Crashed e))]> (running s);
                  trace := trace s; clock := now |}
| Background now d' :
    clock s <= now -> background now (db s) d' ->
    step env s {| db := d'; rate := rate s; running := running s; trace := trace s; clock := now |}.

(** A program run with nothing in between. *)
Fixpoint runAlone (env : Env) (now : Z) (p : Prog) (d : Db) : Answer * Db :=
  match p with
  | Respond a => (a, d)
  | Do op k =>
      match call env now op d with
      | Ok (a, d') => runAlone env now (k a) d'
      | Throw e => (Crashed e, d)
      end
  end.

End Service.
