(* ===== verification/AccountsCorrect.v ===== *)
(** * Theorems about the accounts

    What every mutation of [Accounts] and [Stripe] keeps, the relinking of
    wallets, and the subscriptions: facts about the tables, from which
    [AuthServiceCorrect] proves those about the running service. *)

From S2P Require Import Prelude Calendar Convex Accounts AuthUtils Stripe.

Section Accounts.
Context `{C : Convex} {L : ConvexLaws C}.

(** ** The invariant of users and links *)

Definition activeAt (address : string) (l : EvmLink) : bool := by_address address l && active l.

(** A user for every subject of a provider, a link for every user, an active link
    for every address, and every link belongs to a user with a key. *)
Record accounts_ok (d : Db) : Prop := {
  ok_users : forall provider subject, at_most_one (by_auth provider subject) (users d);
  ok_links : forall user, at_most_one (by_userId user) (evmLinks d);
  ok_addresses : forall address, at_most_one (activeAt address) (evmLinks d);
  ok_owners : forall i l, db_get (evmLinks d) i = Some l ->
    exists u, db_get (users d) (l_userId l) = Some u /\ is_Some (publicKey u)
}.

Lemma accounts_ok_same d d' :
  users d' = users d -> evmLinks d' = evmLinks d -> accounts_ok d -> accounts_ok d'.
Proof. intros Hu Hl [H1 H2 H3 H4]. split; rewrite ?Hu, ?Hl; done. Qed.

Lemma at_most_one_empty {A} (p : A -> bool) : at_most_one p (@db_empty C A).
Proof. intros i j d e Hi. by rewrite get_empty in Hi. Qed.

Lemma accounts_ok_empty : accounts_ok emptyDb.
Proof.
  split; cbn; intros; try apply at_most_one_empty. by rewrite get_empty in H.
Qed.

(** A patch that keeps a property of the document keeps that at most one has it. *)
Lemma at_most_one_patch {A} (p : A -> bool) (t t' : Table A) i d f :
  db_get t i = Some d ->
  (forall j, db_get t' j = if decide (j = i) then Some (f d) else db_get t j) ->
  (p (f d) = true -> p d = true \/ forall j e, db_get t j = Some e -> p e = true -> j = i) ->
  at_most_one p t -> at_most_one p t'.
Proof.
  intros Hi Ht' Hf H j k e g. rewrite !Ht'.
  repeat case_decide; intros Ej Ek Pj Pk; simplify_eq; try done.
  - destruct (Hf Pj) as [Hp|Hp]; [|by symmetry; apply (Hp k g)]. by apply (H i k d g).
  - destruct (Hf Pk) as [Hp|Hp]; [|by apply (Hp j e)]. by apply (H j i e d).
  - by apply (H j k e g).
Qed.

Lemma at_most_one_insert {A} (p : A -> bool) (t : Table A) d :
  (p d = true -> forall i e, db_get t i = Some e -> p e = false) ->
  at_most_one p t -> at_most_one p (db_insert d t).2.
Proof.
  intros Hd H i j e g. rewrite !get_insert.
  repeat case_decide; intros Ei Ej Pi Pj; simplify_eq; try done.
  - rewrite (Hd Pi _ _ Ej) in Pj. done.
  - rewrite (Hd Pj _ _ Ei) in Pi. done.
  - by apply (H i j e g).
Qed.

(** Changes of users keep who they are, and keys are never taken away. *)
Definition sameUser (u u' : User) : Prop :=
  authProvider u' = authProvider u /\ authSubject u' = authSubject u
  /\ (is_Some (publicKey u) -> is_Some (publicKey u')).

Lemma accounts_ok_patch_user d t i f u :
  db_get (users d) i = Some u -> sameUser u (f u) ->
  (forall j, db_get t j = if decide (j = i) then Some (f u) else db_get (users d) j) ->
  accounts_ok d -> accounts_ok (with_users t d).
Proof.
  intros Hu (Hp & Hs & Hk) Ht [H1 H2 H3 H4]. split; cbn; [|done..|].
  - intros provider subject. eapply at_most_one_patch; [exact Hu|exact Ht| |apply H1].
    unfold by_auth. rewrite Hp, Hs. by left.
  - intros j l Hl. destruct (H4 j l Hl) as (v & Hv & Hkey). rewrite Ht. case_decide as Hc; [|by exists v].
    exists (f u). split; [done|]. apply Hk. subst. by simplify_eq.
Qed.

Lemma patch_user_ok d i f t :
  patch i f (users d) = Ok t -> (forall u, sameUser u (f u)) -> accounts_ok d -> accounts_ok (with_users t d).
Proof.
  intros Hp Hf Hd. apply patch_ok in Hp as (u & Hu & Ht). by eapply accounts_ok_patch_user.
Qed.

Lemma upsertUser_ok p s e n k d i d' :
  upsertUser p s e n k d = Ok (i, d') -> accounts_ok d -> accounts_ok d'.
Proof.
  intros H Hd. unfold upsertUser in H.
  destruct (unique _ (by_auth p s) (users d)) as [[[j u]|]|] eqn:Eu; cbn in H; [| |done].
  - assert (Hf : forall u, sameUser u (upsertPatch e n k u)).
    { intros v. split_and!; [done..|]. cbn. destruct k; [by eexists|done]. }
    destruct e, n, k; try (injection H as -> <-; exact Hd);
      (destruct (patch _ _ _) as [t|] eqn:Ep; cbn in H; [|done]; injection H as _ <-;
       by eapply patch_user_ok).
  - unfold insertInto in H. destruct (db_insert _ (users d)) as [j t] eqn:Ei. injection H as _ <-.
    set (new := {| authProvider := p; authSubject := s; email := e; name := n; publicKey := k;
                   stripeCustomerId := None |}) in *.
    assert (Ht : t = (db_insert new (users d)).2) by (by rewrite Ei). subst t.
    destruct Hd as [H1 H2 H3 H4]. split; cbn -[db_insert]; [|done..|].
    + intros provider subject. apply at_most_one_insert; [|apply H1]. intros Hnew k' u Hu.
      unfold by_auth in *. cbn in Hnew. apply andb_true_iff in Hnew as [->%bool_decide_eq_true ->%bool_decide_eq_true].
      exact (proj1 (unique_none _ _ _) Eu _ _ Hu).
    + intros k' l Hl. destruct (H4 k' l Hl) as (u & Hu & Hkey). exists u. split; [|done].
      by apply get_insert_old.
Qed.

Lemma linkPublicKey_ok i k d d' : linkPublicKey i k d = Ok (tt, d') -> accounts_ok d -> accounts_ok d'.
Proof.
  unfold linkPublicKey. intros H Hd. destruct (unique _ _ _) as [o|]; cbn in H; [|done].
  destruct (throw_if _ _); cbn in H; [|done]. destruct (patch _ _ _) as [t|] eqn:Ep; cbn in H; [|done].
  injection H as <-. eapply patch_user_ok; [exact Ep| |done]. intros u. split_and!; [done..|]. by eexists.
Qed.

Lemma setStripeCustomerId_ok i c d d' : setStripeCustomerId i c d = Ok (tt, d') -> accounts_ok d -> accounts_ok d'.
Proof.
  unfold setStripeCustomerId. intros H Hd. destruct (patch _ _ _) as [t|] eqn:Ep; cbn in H; [|done].
  injection H as <-. eapply patch_user_ok; [exact Ep| |done]. done.
Qed.

(** What a successful link was checked for, and what it stores. *)
Lemma linkEvmAddress_spec now u a n ty d l d' :
  linkEvmAddress now u a n ty d = Ok (l, d') ->
  (exists usr, db_get (users d) u = Some usr /\ is_Some (publicKey usr))
  /\ (forall j e, db_get (evmLinks d) j = Some e -> l_evmAddress e = to_lower a ->
        active e = true -> l_userId e = u)
  /\ l_userId l = u /\ l_evmAddress l = to_lower a /\ active l = true /\ unlinkedAtMs l = None
  /\ users d' = users d
  /\ ((exists i old, db_get (evmLinks d) i = Some old /\ l_userId old = u
         /\ l = relink now (to_lower a) n ty old /\ coolingDown now (to_lower a) old = false
         /\ forall j, db_get (evmLinks d') j = if decide (j = i) then Some l else db_get (evmLinks d) j)
      \/ (forall j e, db_get (evmLinks d) j = Some e -> l_userId e <> u) /\ linkedAtMs l = now
         /\ evmLinks d' = (db_insert l (evmLinks d)).2).
Proof.
  intros H. unfold linkEvmAddress in H.
  destruct (getUserById u d) as [usr|] eqn:Eu; [|done]. destruct (truthyS (publicKey usr)) eqn:Ek; [|done].
  cbn -[unique active by_userId coolingDown relink] in H.
  destruct (unique "by_evm_address" _ _) as [byA|] eqn:EA; cbn -[unique active by_userId coolingDown relink] in H; [|done].
  destruct (throw_if (match byA with Some _ => _ | None => _ end) _) as [[]|] eqn:ET;
    cbn -[unique active by_userId coolingDown relink] in H; [|done].
  destruct (unique "by_user_id" _ _) as [byU|] eqn:EU; cbn -[active by_userId coolingDown relink] in H; [|done].
  split; [exists usr; split; [done|]; by destruct (publicKey usr)|].
  assert (Haddr : forall j e, db_get (evmLinks d) j = Some e -> l_evmAddress e = to_lower a ->
            active e = true -> l_userId e = u).
  { intros j e He Ha Hact. destruct byA as [[i l0]|].
    - apply unique_some in EA as (Hi & _ & Hu).
      assert (j = i) by (apply (Hu j e He); unfold by_address; by apply bool_decide_eq_true).
      subst j. rewrite Hi in He. injection He as ->. rewrite Hact, andb_true_r in ET. unfold throw_if in ET.
      destruct (by_userId u e) eqn:Eb; [|done]. by apply bool_decide_eq_true in Eb.
    - exfalso. pose proof (proj1 (unique_none _ _ _) EA j e He) as Hf. unfold by_address in Hf.
      by apply bool_decide_eq_false in Hf. }
  split; [exact Haddr|]. destruct byU as [[i old]|].
  - apply unique_some in EU as (Hi & Hown & _). apply bool_decide_eq_true in Hown.
    destruct (coolingDown now (to_lower a) old) eqn:Ec; [done|]. cbn [throw_if mbind result_bind] in H.
    destruct (patch i _ _) as [t|] eqn:Ep; [|done]. cbn -[relink] in H. injection H as <- <-.
    apply patch_ok in Ep as (old' & Hold' & Ht). rewrite Hi in Hold'. injection Hold' as <-.
    split_and!; [done..|]. left. exists i, old. split_and!; done.
  - injection H as <- <-. split_and!; [done..| |].
    + by unfold insertInto; destruct (db_insert _ _).
    + right. split_and!; [|done|by unfold insertInto; destruct (db_insert _ _)].
      intros j e He. pose proof (proj1 (unique_none _ _ _) EU j e He) as Hf.
      by apply bool_decide_eq_false in Hf.
Qed.

Lemma linkEvmAddress_shape now u a n ty d l d' :
  linkEvmAddress now u a n ty d = Ok (l, d') -> exists t, d' = with_evmLinks t d.
Proof.
  unfold linkEvmAddress, insertInto, mbind, result_bind. intros H.
  repeat (case_match; simplify_eq); eexists; reflexivity.
Qed.

Lemma linkEvmAddress_ok now u a n ty d l d' :
  linkEvmAddress now u a n ty d = Ok (l, d') -> accounts_ok d -> accounts_ok d'.
Proof.
  intros H Hd. destruct (linkEvmAddress_spec _ _ _ _ _ _ _ _ H) as
    ((usr & Husr & Hkey) & Haddr & Hlu & Hla & Hact & _ & Husers & Hcase). destruct Hd as [H1 H2 H3 H4].
  assert (Hfree : forall address, activeAt address l = true ->
            forall j e, db_get (evmLinks d) j = Some e -> activeAt address e = true -> l_userId e = u).
  { intros address Hl j e He Hae. unfold activeAt, by_address in *.
    apply andb_true_iff in Hl as [Hl%bool_decide_eq_true _], Hae as [Hae%bool_decide_eq_true Hact'].
    apply (Haddr j e He); [congruence|done]. }
  destruct Hcase as [(i & old & Hi & Hown & -> & _ & Ht)|(Hnone & _ & Ht)].
  - assert (Hsame : forall j e, db_get (evmLinks d) j = Some e -> l_userId e = u -> j = i).
    { intros j e He Hu. apply (H2 u j i e old); [done..| |]; by apply bool_decide_eq_true. }
    split; [by rewrite Husers|..].
    + intros user. eapply (at_most_one_patch _ _ _ i old (relink now (to_lower a) n ty)); [exact Hi|exact Ht| |apply H2].
      by left.
    + intros address. eapply (at_most_one_patch _ _ _ i old (relink now (to_lower a) n ty));
        [exact Hi|exact Ht| |apply H3].
      intros Hl. right. intros j e He Hae. apply (Hsame j e He). by apply (Hfree address Hl j e).
    + intros j l'. rewrite Ht, Husers. case_decide as Hc; [|apply H4].
      intros [= <-]. rewrite Hlu. by exists usr.
  - split; rewrite ?Husers, ?Ht; [done|..].
    + intros user. apply at_most_one_insert; [|apply H2]. unfold by_userId. rewrite Hlu.
      intros <-%bool_decide_eq_true j e He. apply bool_decide_eq_false. by apply (Hnone j e He).
    + intros address. apply at_most_one_insert; [|apply H3]. intros Hl j e He.
      destruct (activeAt address e) eqn:Hae; [|done]. by destruct (Hnone j e He (Hfree address Hl j e He Hae)).
    + intros j l'. rewrite get_insert. case_decide as Hc; [|apply H4].
      intros [= <-]. rewrite Hlu. by exists usr.
Qed.

Lemma unlinkEvmAddress_spec now u d d' :
  unlinkEvmAddress now u d = Ok (tt, d') ->
  users d' = users d
  /\ (d' = d
      \/ exists i l, db_get (evmLinks d) i = Some l /\ l_userId l = u /\ active l = true
         /\ forall j, db_get (evmLinks d') j = if decide (j = i) then Some (unlinked now l) else db_get (evmLinks d) j).
Proof.
  unfold unlinkEvmAddress. intros H. destruct (unique _ _ _) as [[[i l]|]|] eqn:E; cbn -[active] in H;
    [|injection H as <-; by split; [|left]|done].
  destruct (active l) eqn:Ea; [|injection H as <-; by split; [|left]].
  destruct (patch _ _ _) as [t|] eqn:Ep; cbn in H; [|done]. injection H as <-.
  apply unique_some in E as (Hi & Hown & _). apply bool_decide_eq_true in Hown.
  apply patch_ok in Ep as (l' & Hl' & Ht). rewrite Hi in Hl'. injection Hl' as <-.
  split; [done|]. right. by exists i, l.
Qed.

Lemma unlinkEvmAddress_ok now u d d' : unlinkEvmAddress now u d = Ok (tt, d') -> accounts_ok d -> accounts_ok d'.
Proof.
  intros H Hd. destruct (unlinkEvmAddress_spec _ _ _ _ H) as (Husers & [->|(i & l & Hi & Hu & _ & Ht)]); [done|].
  destruct Hd as [H1 H2 H3 H4]. split; [by rewrite Husers|..].
  - intros user. eapply (at_most_one_patch _ _ _ i l (unlinked now)); [exact Hi|exact Ht|by left|apply H2].
  - intros address. eapply (at_most_one_patch _ _ _ i l (unlinked now)); [exact Hi|exact Ht| |apply H3].
    unfold activeAt. cbn. by rewrite andb_false_r.
  - intros j l'. rewrite Ht, Husers. case_decide as Hc; [|apply H4]. intros [= <-]. by apply (H4 i l).
Qed.

(** ** Two oddities of links *)

(** An address that two users have had, the first having unlinked it, cannot be
    linked or verified again by anybody, because the lookup by address wants
    one document. *)
Theorem evm_address_stuck now u a n ty d i j l m :
  db_get (evmLinks d) i = Some l -> db_get (evmLinks d) j = Some m -> i <> j ->
  l_evmAddress l = to_lower a -> l_evmAddress m = to_lower a ->
  exists e, linkEvmAddress now u a n ty d = Throw e.
Proof.
  intros Hi Hj Hne Hl Hm. unfold linkEvmAddress. destruct (throw_if _ _) as [[]|e]; [|by exists e].
  destruct (unique_throws "by_evm_address" (by_address (to_lower a)) (evmLinks d) i j l m) as [e He];
    [done|done|by apply bool_decide_eq_true..|done|]. cbn -[unique]. rewrite He. by exists e.
Qed.

(** What [linkEvmAddress] does for a user with a key whose only link is [l],
    when the address is free or already the one of [l]. *)
Lemma relink_own now user addr n ty d i l usr :
  db_get (users d) user = Some usr -> truthyS (publicKey usr) = true ->
  (forall j e, db_get (evmLinks d) j = Some e -> l_userId e = user -> j = i) ->
  (forall j e, db_get (evmLinks d) j = Some e -> l_evmAddress e = to_lower addr -> j = i) ->
  db_get (evmLinks d) i = Some l -> l_userId l = user ->
  linkEvmAddress now user addr n ty d
  = if coolingDown now (to_lower addr) l then Throw "EVM relink cooldown active."
    else match patch i (relink now (to_lower addr) n ty) (evmLinks d) with
         | Ok t => Ok (relink now (to_lower addr) n ty l, with_evmLinks t d)
         | Throw e => Throw e
         end.
Proof.
  intros Hu Hk Hown Haddr Hi Hli. unfold linkEvmAddress, getUserById. rewrite Hu, Hk.
  assert (Hbyuser : unique "by_user_id" (by_userId user) (evmLinks d) = Ok (Some (i, l))).
  { apply unique_some. split_and!; [done|by apply bool_decide_eq_true|].
    intros j e He Hp. apply bool_decide_eq_true in Hp. by apply (Hown j e). }
  assert (Hbyaddr : unique "by_evm_address" (by_address (to_lower addr)) (evmLinks d)
    = Ok (if by_address (to_lower addr) l then Some (i, l) else None)).
  { destruct (by_address (to_lower addr) l) eqn:Hl.
    - apply unique_some. split_and!; [done..|]. intros j e He Hp. apply bool_decide_eq_true in Hp. by apply (Haddr j e).
    - apply unique_none. intros j e He. apply bool_decide_eq_false. intros Hp.
      rewrite (Haddr j e He Hp) in He. rewrite Hi in He. injection He as <-. by apply bool_decide_eq_false in Hl. }
  assert (Hmine : by_userId user l = true) by (by apply bool_decide_eq_true).
  cbn -[unique coolingDown patch relink]. rewrite Hbyaddr.
  destruct (by_address _ l); cbn -[unique coolingDown patch relink]; rewrite ?Hmine;
    cbn -[unique coolingDown patch relink]; rewrite Hbyuser; cbn -[coolingDown patch relink];
    by destruct (coolingDown _ _ l).
Qed.

(** The cooldown after an unlinking is over as soon as the old address is linked
    once more: then the time of the first link counts. *)
Theorem relinking_skips_cooldown now user a b n ty d i l usr :
  db_get (users d) user = Some usr -> truthyS (publicKey usr) = true ->
  (forall j e, db_get (evmLinks d) j = Some e -> l_userId e = user -> j = i) ->
  (forall j e, db_get (evmLinks d) j = Some e -> l_evmAddress e = to_lower a -> j = i) ->
  (forall j e, db_get (evmLinks d) j = Some e -> l_evmAddress e <> to_lower b) ->
  db_get (evmLinks d) i = Some l -> l_userId l = user -> l_evmAddress l = to_lower a ->
  to_lower a <> to_lower b ->
  RELINK_COOLDOWN_MS <= now - linkedAtMs l -> now - default (linkedAtMs l) (unlinkedAtMs l) < RELINK_COOLDOWN_MS ->
  linkEvmAddress now user b n ty d = Throw "EVM relink cooldown active."
  /\ exists l1 d1, linkEvmAddress now user a n ty d = Ok (l1, d1)
       /\ exists l2 d2, linkEvmAddress now user b n ty d1 = Ok (l2, d2) /\ l_evmAddress l2 = to_lower b.
Proof.
  intros Hu Hk Hown Ha Hb Hi Hli Hla Hab Hold Hnew.
  assert (Hfree : forall t l', (forall j, j <> i -> db_get t j = db_get (evmLinks d) j) -> db_get t i = Some l' ->
      l_evmAddress l' = to_lower a -> forall j e, db_get t j = Some e -> l_evmAddress e = to_lower b -> j = i).
  { intros t l' Hsame Hl' Hl'a j e He Hbe. destruct (decide (j = i)) as [->|Hne]; [done|].
    rewrite Hsame in He by done. by destruct (Hb j e). }
  split.
  - rewrite (relink_own now user b n ty d i l usr) by (try done; by eapply (Hfree _ l)).
    unfold coolingDown. rewrite bool_decide_eq_false_2 by congruence. cbn [negb andb]. by rewrite (proj2 (Z.ltb_lt _ _)).
  - destruct (patch_existing i (relink now (to_lower a) n ty) (evmLinks d) l Hi) as (t & Ht & Hget).
    set (l1 := relink now (to_lower a) n ty l) in *.
    assert (Hi1 : db_get t i = Some l1) by (by rewrite Hget, decide_True).
    assert (Hother : forall j, j <> i -> db_get t j = db_get (evmLinks d) j) by (intros; by rewrite Hget, decide_False).
    exists l1, (with_evmLinks t d). split.
    { rewrite (relink_own now user a n ty d i l usr) by done.
      unfold coolingDown. rewrite bool_decide_eq_true_2 by done. cbn [negb andb]. by rewrite Ht. }
    destruct (patch_existing i (relink now (to_lower b) n ty) t l1 Hi1) as (t2 & Ht2 & _).
    exists (relink now (to_lower b) n ty l1), (with_evmLinks t2 (with_evmLinks t d)). split; [|done].
    rewrite (relink_own now user b n ty (with_evmLinks t d) i l1 usr); [|done..| | | |done].
    + assert (Hcool : coolingDown now (to_lower b) l1 = false).
      { unfold coolingDown. subst l1. cbn [relink l_evmAddress linkedAtMs unlinkedAtMs default].
        rewrite (bool_decide_eq_true_2 (l_evmAddress l = to_lower a)) by done. apply andb_false_iff. right. by apply Z.ltb_ge. }
      rewrite Hcool. change (evmLinks (with_evmLinks t d)) with t. by rewrite Ht2.
    + intros j e He Hue. destruct (decide (j = i)) as [->|Hne]; [done|].
      apply (Hown j e); [|done]. by rewrite <- (Hother j Hne).
    + by apply (Hfree t l1).
    + exact Hi1.
Qed.

End Accounts.
