(* ===== verification/AuthServiceCorrect.v ===== *)
(** * Theorems about the auth service

    Facts about every run of the service, with the calls of its requests
    interleaved in any way: the tables stay consistent, a challenge is good for
    one request, a wallet moves at most once in a week. *)

From S2P Require Import Prelude Bytes Calendar Convex Accounts AuthUtils RateBuckets Stripe AuthService AccountsCorrect.

Section Service.
Context `{C : Convex} {L : ConvexLaws C} `{lib : AuthLib} (idText : Id -> string).

(** ** Calls and the tables *)

Ltac same_tables := eapply accounts_ok_same; [| |eassumption]; reflexivity.

Lemma insertInto_users {A} (w : Table A -> Db -> Db) t (x : A) d :
  (forall t', users (w t' d) = users d) -> users (insertInto w t x d).2 = users d.
Proof. intros H. unfold insertInto. destruct (db_insert x t). apply H. Qed.

Lemma insertInto_links {A} (w : Table A -> Db -> Db) t (x : A) d :
  (forall t', evmLinks (w t' d) = evmLinks d) -> evmLinks (insertInto w t x d).2 = evmLinks d.
Proof. intros H. unfold insertInto. destruct (db_insert x t). apply H. Qed.

Lemma exec_ok now op d a d' : exec now op d = Ok (a, d') -> accounts_ok d -> accounts_ok d'.
Proof.
  intros H Hd. destruct op; cbn [exec] in H; cbn [Ans] in a.
  - injection H as _ <-. eapply accounts_ok_same; [apply insertInto_users|apply insertInto_links|exact Hd]; done.
  - unfold consumeAuthChallenge in H.
    destruct (unique _ _ _) as [[[i r]|]|]; cbn in H; [|injection H as _ <-; exact Hd|done].
    repeat (split_if; [injection H as _ <-; exact Hd|]). destruct (patch _ _ _); cbn in H; [|done].
    injection H as _ <-. same_tables.
  - by eapply upsertUser_ok.
  - destruct (getUserByPublicKey _ _); cbn in H; [|done]. by injection H as _ <-.
  - by injection H as _ <-.
  - destruct a. by eapply linkPublicKey_ok.
  - by injection H as _ <-.
  - destruct (getEvmLinkByUser _ _); cbn in H; [|done]. by injection H as _ <-.
  - injection H as _ <-. eapply accounts_ok_same; [apply insertInto_users|apply insertInto_links|exact Hd]; done.
  - unfold consumeEvmChallenge in H.
    destruct (unique _ _ _) as [[[i r]|]|]; cbn in H; [|injection H as _ <-; exact Hd|done].
    repeat (split_if; [injection H as _ <-; exact Hd|]). destruct (patch _ _ _); cbn in H; [|done].
    injection H as _ <-. same_tables.
  - by eapply linkEvmAddress_ok.
  - destruct a. by eapply unlinkEvmAddress_ok.
Qed.

Lemma call_exec env now op d r : call env now op d = Ok r -> exec now op d = Ok r.
Proof. unfold call. by destruct (requireServiceToken _ _). Qed.

(** The background touches neither keys nor links. *)
Lemma applyStripeEvent_tables now a d d' :
  applyStripeEvent now a d = Ok (tt, d') ->
  users d' = users d /\ evmLinks d' = evmLinks d /\ authChallenges d' = authChallenges d
  /\ evmChallenges d' = evmChallenges d.
Proof.
  unfold applyStripeEvent, insertInto. destruct (unique _ _ _) as [[o|]|]; cbn; [by intros [= <-]| |done].
  destruct (db_insert _ _) as [i t].
  destruct (customerId a) as [c|]; [destruct (subscriptionId a) as [sub|]|]; try (by intros [= <-]).
  split_if; [by intros [= <-]|]. cbn.
  destruct (unique "by_stripe_customer_id" _ _) as [[[j u]|]|]; cbn; [|by intros [= <-]|done].
  destruct (applyItems _ _ _ _ _); cbn; [|done]. by intros [= <-].
Qed.

Lemma background_ok now d d' : background now d d' -> accounts_ok d -> accounts_ok d'.
Proof.
  intros H Hd. destruct H as [retention n d' H|retention n d' H|i customer d' H|a d' H|cursor d' H|key fallback n d' H|key next d' H].
  - injection H as _ <-. same_tables.
  - injection H as _ <-. same_tables.
  - by eapply setStripeCustomerId_ok.
  - apply applyStripeEvent_tables in H as (Hu & Hl & _). by eapply accounts_ok_same.
  - unfold setStripeReconcileState, insertInto in H.
    destruct (unique _ _ _) as [[[j r]|]|]; cbn in H; [| |done].
    + destruct (patch _ _ _); cbn in H; [|done]. injection H as <-. same_tables.
    + destruct (db_insert _ _). injection H as <-. same_tables.
  - unfold reserveAdminNonce, insertInto in H.
    destruct (unique _ _ _) as [[[j r]|]|]; cbn in H; [| |done].
    + destruct (patch _ _ _); cbn in H; [|done]. injection H as _ <-. same_tables.
    + destruct (db_insert _ _). injection H as _ <-. same_tables.
  - unfold resetAdminNonce, insertInto in H.
    destruct (unique _ _ _) as [[[j r]|]|]; cbn in H; [| |done].
    + destruct (patch _ _ _); cbn in H; [|done]. injection H as <-. same_tables.
    + destruct (db_insert _ _). injection H as <-. same_tables.
Qed.

Lemma step_ok env s s' : step idText env s s' -> accounts_ok (db s) -> accounts_ok (db s').
Proof.
  intros H Hd. destruct H; cbn [db]; [done|by eapply exec_ok, Hd; eapply call_exec|done|by eapply background_ok].
Qed.

Lemma steps_ok env s s' : rtc (step idText env) s s' -> accounts_ok (db s) -> accounts_ok (db s').
Proof. induction 1 as [|s1 s2 s3 H12 _ IH]; [done|]. intros Hd. by apply IH, (step_ok env s1). Qed.

(** C21. However the requests of the service interleave: there is one user for
    each subject of a provider, one link for each user, at most one active link
    for a wallet address, and every link belongs to a user with a casino key;
    so signing in and looking up a link never find two documents. *)
Theorem accounts_consistent env s :
  rtc (step idText env) serverStart s ->
  accounts_ok (db s)
  /\ (forall provider subject, is_ok (getUserByAuth provider subject (db s)) = true)
  /\ (forall user, is_ok (getEvmLinkByUser user (db s)) = true).
Proof.
  intros H. pose proof (steps_ok env _ _ H accounts_ok_empty) as Hd. split; [done|]. split.
  - intros provider subject. apply unique_total, Hd.
  - intros user. unfold getEvmLinkByUser.
    pose proof (unique_total "by_user_id" (by_userId user) _ (ok_links _ Hd user)) as Hu.
    by destruct (unique _ _ _).
Qed.

(** ** The wallet of a user *)

Definition linkOf (user : Id) (d : Db) (l : EvmLink) : Prop :=
  exists i, db_get (evmLinks d) i = Some l /\ l_userId l = user.

Lemma linkOf_unique user d l l' : accounts_ok d -> linkOf user d l -> linkOf user d l' -> l = l'.
Proof.
  intros Hd (i & Hi & Hu) (j & Hj & Hv).
  assert (i = j) by (apply (ok_links _ Hd user i j l l'); [done..| |]; by apply bool_decide_eq_true).
  subst. congruence.
Qed.

(** How the link of a user can change at a time. *)
Inductive linkMove (now : Z) (before : option EvmLink) : EvmLink -> Prop :=
| Kept l : before = Some l -> linkMove now before l
| Unlinked l : before = Some l -> linkMove now before (unlinked now l)
| Relinked l address chainId ty :
    before = Some l -> coolingDown now address l = false -> linkMove now before (relink now address chainId ty l)
| Linked l : before = None -> linkedAtMs l = now -> unlinkedAtMs l = None -> linkMove now before l.

(** The links after a change, each with the move that led to it; none is lost. *)
Definition linksMoved (now : Z) (d d' : Db) : Prop :=
  (forall user l', linkOf user d' l' ->
     exists before, linkMove now before l'
       /\ match before with Some l => linkOf user d l | None => forall l, ~ linkOf user d l end)
  /\ forall user l, linkOf user d l -> exists l', linkOf user d' l'.

Lemma linksMoved_same now d d' : evmLinks d' = evmLinks d -> linksMoved now d d'.
Proof.
  intros E. unfold linksMoved, linkOf. rewrite E. split; [|by eauto]. intros user l' Hl.
  exists (Some l'). split; [by constructor|done].
Qed.

(** A patch of one link. *)
Lemma linksMoved_patch now d d' i l f :
  db_get (evmLinks d) i = Some l -> l_userId (f l) = l_userId l -> linkMove now (Some l) (f l) ->
  (forall j, db_get (evmLinks d') j = if decide (j = i) then Some (f l) else db_get (evmLinks d) j) ->
  linksMoved now d d'.
Proof.
  intros Hi Hf Hmove Ht. split.
  - intros user l' (j & Hj & Hu). rewrite Ht in Hj. case_decide as Hc.
    + injection Hj as <-. exists (Some l). split; [done|]. exists i. split; [done|congruence].
    + exists (Some l'). split; [by constructor|]. by exists j.
  - intros user l' (j & Hj & Hu). destruct (decide (j = i)) as [->|Hne].
    + exists (f l), i. rewrite Ht, decide_True by done. split; [done|]. rewrite Hi in Hj. injection Hj as <-. congruence.
    + exists l', j. by rewrite Ht, decide_False.
Qed.

Lemma exec_links now op d a d' : exec now op d = Ok (a, d') -> linksMoved now d d'.
Proof.
  intros H. destruct op as [c k ch e|c k|p s e n k|k|i|i k|i lim|i|c i ad n ch e|c i ad|i ad n ty|i];
    cbn [exec] in H; cbn [Ans] in a.
  - injection H as _ <-. by apply linksMoved_same, insertInto_links.
  - apply linksMoved_same. unfold consumeAuthChallenge in H.
    destruct (unique _ _ _) as [[[j r]|]|]; cbn in H; [|by injection H as _ <-|done].
    repeat (split_if; [by injection H as _ <-|]). destruct (patch _ _ _); cbn in H; [|done]. by injection H as _ <-.
  - apply linksMoved_same. unfold upsertUser, insertInto in H.
    destruct (unique _ _ _) as [[[j u]|]|]; cbn in H; [| |done].
    + destruct e, n, k; try (by injection H as _ <-); destruct (patch _ _ _); cbn in H; by simplify_eq.
    + destruct (db_insert _ _). by injection H as _ <-.
  - apply linksMoved_same. destruct (getUserByPublicKey _ _); cbn in H; [|done]. by injection H as _ <-.
  - injection H as _ <-. by apply linksMoved_same.
  - apply linksMoved_same. unfold linkPublicKey in H. destruct (unique _ _ _); cbn in H; [|done].
    destruct (throw_if _ _); cbn in H; [|done]. destruct (patch _ _ _); cbn in H; [|done]. by injection H as _ <-.
  - injection H as _ <-. by apply linksMoved_same.
  - apply linksMoved_same. destruct (getEvmLinkByUser _ _); cbn in H; [|done]. by injection H as _ <-.
  - injection H as _ <-. by apply linksMoved_same, insertInto_links.
  - apply linksMoved_same. unfold consumeEvmChallenge in H.
    destruct (unique _ _ _) as [[[j r]|]|]; cbn in H; [|by injection H as _ <-|done].
    repeat (split_if; [by injection H as _ <-|]). destruct (patch _ _ _); cbn in H; [|done]. by injection H as _ <-.
  - apply linkEvmAddress_spec in H as (_ & _ & Hlu & _ & _ & Hun & _ & Hcase).
    destruct Hcase as [(j & old & Hj & Hown & -> & Hcool & Ht)|(Hnone & Hnow & Ht)].
    + by apply (linksMoved_patch now d d' j old (relink now (to_lower ad) n ty) Hj); [|constructor|].
    + unfold linksMoved, linkOf. rewrite Ht. split.
      * intros user l' (j & Hl & Hu). rewrite get_insert in Hl. case_decide as Hc.
        -- injection Hl as <-. exists None. split; [by constructor|]. intros l0 (j0 & Hj0 & Hu0).
           apply (Hnone j0 l0 Hj0). congruence.
        -- exists (Some l'). split; [by constructor|]. by exists j.
      * intros user l' (j & Hl & Hu). exists l', j. split; [by apply get_insert_old|done].
  - destruct a. apply unlinkEvmAddress_spec in H as (_ & [->|(j & l & Hj & _ & _ & Ht)]); [by apply linksMoved_same|].
    by apply (linksMoved_patch now d d' j l (unlinked now) Hj); [|constructor|].
Qed.

Lemma background_links now d d' : background now d d' -> evmLinks d' = evmLinks d.
Proof.
  intros H. destruct H as [retention n d' H|retention n d' H|i customer d' H|a d' H|cursor d' H|key fallback n d' H|key next d' H].
  - by injection H as _ <-.
  - by injection H as _ <-.
  - unfold setStripeCustomerId in H. destruct (patch _ _ _); cbn in H; [|done]. by injection H as <-.
  - by apply applyStripeEvent_tables in H as (_ & ? & _).
  - unfold setStripeReconcileState, insertInto in H. destruct (unique _ _ _) as [[[j r]|]|]; cbn in H; [| |done].
    + destruct (patch _ _ _); cbn in H; [|done]. by injection H as <-.
    + destruct (db_insert _ _). by injection H as <-.
  - unfold reserveAdminNonce, insertInto in H. destruct (unique _ _ _) as [[[j r]|]|]; cbn in H; [| |done].
    + destruct (patch _ _ _); cbn in H; [|done]. by injection H as _ <-.
    + destruct (db_insert _ _). by injection H as _ <-.
  - unfold resetAdminNonce, insertInto in H. destruct (unique _ _ _) as [[[j r]|]|]; cbn in H; [| |done].
    + destruct (patch _ _ _); cbn in H; [|done]. by injection H as <-.
    + destruct (db_insert _ _). by injection H as <-.
Qed.

Lemma step_links env s s' : step idText env s s' -> clock s <= clock s' /\ linksMoved (clock s') (db s) (db s').
Proof.
  intros H. destruct H; cbn [clock db]; (split; [done|]).
  - by apply linksMoved_same.
  - eapply exec_links. by eapply call_exec.
  - by apply linksMoved_same.
  - apply linksMoved_same. by eapply background_links.
Qed.

(** A link whose cooldown began at a time or later. *)
Definition begunAfter (t : Z) (l : EvmLink) : Prop :=
  t <= linkedAtMs l /\ forall t', unlinkedAtMs l = Some t' -> t <= t'.


Lemma rtc_keeps {A} (R : A -> A -> Prop) (P : A -> Prop) x y :
  (forall x y, P x -> R x y -> P y) -> rtc R x y -> P x -> P y.
Proof. intros H. induction 1; eauto. Qed.

(** Once the address has changed, the cooldown began after the state before. *)
Lemma moved_after env s1 s2 user a1 :
  (forall l, linkOf user (db s1) l -> l_evmAddress l = a1) -> rtc (step idText env) s1 s2 ->
  clock s1 <= clock s2
  /\ forall l, linkOf user (db s2) l -> l_evmAddress l = a1 \/ begunAfter (clock s1) l.
Proof.
  intros Hs1 Hrun. revert Hrun. set (P s := clock s1 <= clock s
    /\ forall l, linkOf user (db s) l -> l_evmAddress l = a1 \/ begunAfter (clock s1) l).
  intros Hrun. apply (rtc_keeps _ P _ _) in Hrun; [done| |split; [lia|auto]].
  clear s2 Hrun. intros s s' [Hclock Hinv] Hstep. apply step_links in Hstep as [Hle [Hmoved _]]. split; [lia|].
  intros l' Hl'. destruct (Hmoved user l' Hl') as (before & Hmove & Hbefore).
  destruct Hmove as [l ->|l ->|l address chainId ty -> _|l -> Hat Hun].
  - by apply Hinv.
  - destruct (Hinv l Hbefore) as [Ha|[Hlink _]]; [by left|right]. split; [done|]. cbn. intros t' [= <-]. lia.
  - destruct (Hinv l Hbefore) as [Ha|[Hlink _]]; cbn [l_evmAddress relink].
    + destruct (decide (address = a1)) as [->|Hne]; [by left|right]. split; [|done]. cbn.
      rewrite bool_decide_eq_false_2 by congruence. lia.
    + right. split; [|done]. cbn. case_bool_decide; lia.
  - right. split; [lia|]. by rewrite Hun.
Qed.

Lemma moves_late env t s2 s3 user l2 :
  accounts_ok (db s2) -> linkOf user (db s2) l2 -> begunAfter t l2 -> t <= clock s2 ->
  rtc (step idText env) s2 s3 ->
  exists l3, linkOf user (db s3) l3
    /\ (l_evmAddress l3 = l_evmAddress l2 /\ begunAfter t l3 \/ t + RELINK_COOLDOWN_MS <= clock s3).
Proof.
  intros Hok Hl2 Hbegun Ht Hrun.
  set (P s := accounts_ok (db s) /\ t <= clock s /\ exists l, linkOf user (db s) l
    /\ (l_evmAddress l = l_evmAddress l2 /\ begunAfter t l \/ t + RELINK_COOLDOWN_MS <= clock s)).
  apply (rtc_keeps _ P _ _) in Hrun; [exact (proj2 (proj2 Hrun))| |].
  2: { split_and!; [done..|]. exists l2. split; [done|]. by left. }
  clear s3 Hrun. intros s s' (Hd & Hclock & l & Hl & Hinv) Hstep. pose proof (step_ok _ _ _ Hstep Hd) as Hd'.
  apply step_links in Hstep as [Hle [Hmoved Hkept]]. split_and!; [done|lia|].
  destruct (Hkept user l Hl) as [l' Hl']. exists l'. split; [done|].
  destruct Hinv as [[Ha Hb]|Hlate]; [|right; lia].
  destruct (Hmoved user l' Hl') as (before & Hmove & Hbefore).
  assert (Hold : forall m, before = Some m -> m = l) by (intros m ->; by apply (linkOf_unique user (db s))).
  destruct Hb as [Hlink Hunlink].
  destruct Hmove as [m Hm|m Hm|m address chainId ty Hm Hcool|m Hm Hat Hun].
  - rewrite (Hold m Hm). left. by split.
  - rewrite (Hold m Hm). left. split; [done|]. split; [done|]. cbn. intros t' [= <-]. lia.
  - rewrite (Hold m Hm) in Hcool |- *. unfold coolingDown in Hcool.
    destruct (decide (l_evmAddress l = address)) as [Heq|Hne].
    + left. cbn. split; [congruence|]. split; [|done]. cbn. by rewrite bool_decide_eq_true_2.
    + right. rewrite bool_decide_eq_false_2 in Hcool by done. cbn [negb andb] in Hcool. bprop.
      destruct (unlinkedAtMs l) as [t'|] eqn:E; cbn in Hcool; [specialize (Hunlink _ eq_refl)|]; lia.
  - subst before. by destruct (Hbefore l).
Qed.

(** C22. Within seven days the wallet of a user changes at most once: when it was
    one address, later another, and then a third or the first again, a week
    lies between the first and the last of these states, whatever was linked,
    verified and unlinked in between. *)
Theorem evm_cooldown env s1 s2 s3 user l1 l2 l3 :
  rtc (step idText env) serverStart s1 -> rtc (step idText env) s1 s2 -> rtc (step idText env) s2 s3 ->
  linkOf user (db s1) l1 -> linkOf user (db s2) l2 -> linkOf user (db s3) l3 ->
  l_evmAddress l1 <> l_evmAddress l2 -> l_evmAddress l2 <> l_evmAddress l3 ->
  clock s1 + RELINK_COOLDOWN_MS <= clock s3.
Proof.
  intros Hs1 H12 H23 Hl1 Hl2 Hl3 Hne Hne'.
  pose proof (steps_ok env _ _ Hs1 accounts_ok_empty) as Hd1.
  pose proof (steps_ok env _ _ H12 Hd1) as Hd2. pose proof (steps_ok env _ _ H23 Hd2) as Hd3.
  destruct (moved_after env s1 s2 user (l_evmAddress l1)) as [Hle Hafter]; [|done|].
  { intros l Hl. by rewrite (linkOf_unique user _ l l1 Hd1). }
  destruct (Hafter l2 Hl2) as [|Hbegun]; [congruence|].
  destruct (moves_late env (clock s1) s2 s3 user l2 Hd2 Hl2 Hbegun Hle H23) as (l & Hl & [[Ha _]|Hlate]); [|done].
  rewrite (linkOf_unique user _ l l3 Hd3 Hl Hl3) in Ha. congruence.
Qed.

(** ** Challenges *)

Definition creates (c : string) (d : Did) : bool :=
  match d_op d with CreateAuthChallenge c' _ _ _ => bool_decide (c' = c) | _ => false end.

(** The call took the challenge. *)
Definition consumes (c : string) (d : Did) : bool :=
  match d_op d as op return Ans op -> bool with
  | ConsumeAuthChallenge c' _ => fun a => bool_decide (c' = c) && match a with Some _ => true | None => false end
  | _ => fun _ => false
  end (d_answer d).

Definition times (p : Did -> bool) (tr : list Did) : Z := len (List.filter p tr).

Lemma times_cons p d tr : times p (d :: tr) = (if p d then 1 else 0) + times p tr.
Proof. unfold times. cbn [List.filter]. destruct (p d); [by rewrite len_cons|lia]. Qed.

Lemma times_nonneg p tr : 0 <= times p tr.
Proof. apply len_nonneg. Qed.

Lemma times_two p tr d e : d ∈ tr -> e ∈ tr -> d <> e -> p d = true -> p e = true -> 2 <= times p tr.
Proof.
  intros Hd He Hne Pd Pe. unfold times, len.
  assert (H : NoDup [d; e]) by (apply NoDup_cons; split; [set_solver|apply NoDup_singleton]).
  assert (Hl : (length [d; e] <= length (List.filter p tr))%nat); [|cbn in Hl; lia].
  apply submseteq_length, NoDup_submseteq; [done|].
  intros x Hx. apply list_elem_of_In, List.filter_In. rewrite <- list_elem_of_In. set_solver.
Qed.

(** What a call does to the challenges. *)
Lemma exec_challenges now op d a d' :
  exec now op d = Ok (a, d') -> 0 < now ->
  match op as op return Ans op -> Prop with
  | CreateAuthChallenge c k ch e => fun _ =>
      authChallenges d' = (db_insert {| ac_challengeId := c; ac_publicKey := k; ac_challenge := ch;
                                        ac_expiresAtMs := e; ac_usedAtMs := None |} (authChallenges d)).2
  | ConsumeAuthChallenge c k => fun a =>
      match a with
      | Some (ch, e) => exists i r, unique "by_challenge_id" (by_challengeId c) (authChallenges d) = Ok (Some (i, r))
          /\ ac_publicKey r = k /\ truthyZ (ac_usedAtMs r) = false /\ now < e
          /\ ac_challenge r = ch /\ ac_expiresAtMs r = e
          /\ forall j, db_get (authChallenges d') j = if decide (j = i) then Some (with_used now r)
                                                     else db_get (authChallenges d) j
      | None => authChallenges d' = authChallenges d
      end
  | _ => fun _ => authChallenges d' = authChallenges d
  end a.
Proof.
  intros H Hnow. destruct op as [c k ch e|c k|p s e n k|k|i|i k|i lim|i|c i ad n ch e|c i ad|i ad n ty|i];
    cbn [exec] in H; cbn [Ans] in a.
  - injection H as _ <-. unfold insertInto. by destruct (db_insert _ _).
  - unfold consumeAuthChallenge in H.
    destruct (unique _ _ _) as [[[j r]|]|] eqn:E; cbn in H; [|by injection H as <- <-|done].
    destruct (negb (bool_decide _)) eqn:Ek; [by injection H as <- <-|].
    destruct (truthyZ _) eqn:Eu; [by injection H as <- <-|].
    destruct (_ <=? now) eqn:Ee; [by injection H as <- <-|].
    destruct (patch _ _ _) as [t|] eqn:Ep; cbn in H; [|done]. injection H as <- <-.
    bprop. apply patch_ok in Ep as (r' & Hr' & Ht). exists j, r.
    pose proof (proj1 (unique_some _ _ _ _ _) E) as (Hj & _). rewrite Hj in Hr'. injection Hr' as <-.
    split_and!; [done..|lia|done|done|done].
  - unfold upsertUser, insertInto in H. destruct (unique _ _ _) as [[[j u]|]|]; cbn in H; [| |done].
    + destruct e, n, k; try (by injection H as _ <-); destruct (patch _ _ _); cbn in H; by simplify_eq.
    + destruct (db_insert _ _). by injection H as _ <-.
  - destruct (getUserByPublicKey _ _); cbn in H; [|done]. by injection H as _ <-.
  - by injection H as _ <-.
  - unfold linkPublicKey in H. destruct (unique _ _ _); cbn in H; [|done].
    destruct (throw_if _ _); cbn in H; [|done]. destruct (patch _ _ _); cbn in H; [|done]. by injection H as _ <-.
  - by injection H as _ <-.
  - destruct (getEvmLinkByUser _ _); cbn in H; [|done]. by injection H as _ <-.
  - injection H as _ <-. unfold insertInto. by destruct (db_insert _ _).
  - unfold consumeEvmChallenge in H.
    destruct (unique _ _ _) as [[[j r]|]|]; cbn in H; [|by injection H as _ <-|done].
    repeat (split_if; [by injection H as _ <-|]). destruct (patch _ _ _); cbn in H; [|done]. by injection H as _ <-.
  - by apply linkEvmAddress_shape in H as [t ->].
  - unfold unlinkEvmAddress in H. destruct (unique _ _ _) as [[[j l]|]|]; cbn in H; [|by injection H as _ <-|done].
    destruct (active l); [|by injection H as _ <-]. destruct (patch _ _ _); cbn in H; [|done]. by injection H as _ <-.
Qed.

Lemma get_deleteAll {A} ids (t : Table A) i r : db_get (deleteAll ids t) i = Some r -> db_get t i = Some r.
Proof.
  revert t. induction ids as [|j ids IH]; intros t; [done|]. cbn. intros H. apply IH in H.
  rewrite get_delete in H. by case_decide.
Qed.

(** The background only removes challenges. *)
Lemma background_challenges now d d' :
  background now d d' ->
  forall i r, db_get (authChallenges d') i = Some r -> db_get (authChallenges d) i = Some r.
Proof.
  intros H. destruct H as [retention n d' H|retention n d' H|i customer d' H|a d' H|cursor d' H|key fallback n d' H|key next d' H];
    intros j r.
  - injection H as _ <-. apply get_deleteAll.
  - by injection H as _ <-.
  - unfold setStripeCustomerId in H. destruct (patch _ _ _); cbn in H; [|done]. by injection H as <-.
  - by apply applyStripeEvent_tables in H as (_ & _ & -> & _).
  - unfold setStripeReconcileState, insertInto in H. destruct (unique _ _ _) as [[[? ?]|]|]; cbn in H; [| |done].
    + destruct (patch _ _ _); cbn in H; [|done]. by injection H as <-.
    + destruct (db_insert _ _). by injection H as <-.
  - unfold reserveAdminNonce, insertInto in H. destruct (unique _ _ _) as [[[? ?]|]|]; cbn in H; [| |done].
    + destruct (patch _ _ _); cbn in H; [|done]. by injection H as _ <-.
    + destruct (db_insert _ _). by injection H as _ <-.
  - unfold resetAdminNonce, insertInto in H. destruct (unique _ _ _) as [[[? ?]|]|]; cbn in H; [| |done].
    + destruct (patch _ _ _); cbn in H; [|done]. by injection H as <-.
    + destruct (db_insert _ _). by injection H as <-.
Qed.

(** The call created, or took, a challenge with these contents. *)
Definition created (c key ch : string) (exp : Z) (d : Did) : Prop := d_op d = CreateAuthChallenge c key ch exp.

Definition took (c key ch : string) (exp : Z) (d : Did) : Prop :=
  match d_op d as op return Ans op -> Prop with
  | ConsumeAuthChallenge c' key' => fun a => c' = c /\ key' = key /\ a = Some (ch, exp)
  | _ => fun _ => False
  end (d_answer d).

Lemma created_creates c key ch exp d : created c key ch exp d -> creates c d = true.
Proof. unfold created, creates. intros ->. by apply bool_decide_eq_true. Qed.

Lemma took_consumes c key ch exp d : took c key ch exp d -> consumes c d = true.
Proof.
  destruct d as [i t op a]. unfold took, consumes. cbn [d_op d_answer]. destruct op; try done. cbn.
  intros (-> & _ & ->). by rewrite bool_decide_eq_true_2.
Qed.

Lemma times_pos p tr d : d ∈ tr -> p d = true -> 1 <= times p tr.
Proof.
  induction tr as [|e tr IH]; [set_solver|]. rewrite times_cons. pose proof (times_nonneg p tr).
  intros [->|Hd]%elem_of_cons Hp; [rewrite Hp; lia|]. specialize (IH Hd Hp). destruct (p e); lia.
Qed.

(** The challenges are those that were created, each is taken by its key before it
    expires, and one that was created once is taken once. *)
Record challenges_ok (d : Db) (tr : list Did) : Prop := {
  ch_rows : forall i r, db_get (authChallenges d) i = Some r -> exists e, e ∈ tr
    /\ created (ac_challengeId r) (ac_publicKey r) (ac_challenge r) (ac_expiresAtMs r) e;
  ch_taken : forall e c key ch exp, e ∈ tr -> took c key ch exp e ->
    d_now e < exp /\ exists e', e' ∈ tr /\ created c key ch exp e';
  ch_once : forall c, times (creates c) tr <= 1 ->
    times (consumes c) tr <= times (creates c) tr
    /\ at_most_one (by_challengeId c) (authChallenges d)
    /\ (times (consumes c) tr = 1 -> forall i r, db_get (authChallenges d) i = Some r ->
          ac_challengeId r = c -> truthyZ (ac_usedAtMs r) = true)
}.

(** Fewer challenges, and calls that neither create nor take one. *)
Lemma challenges_ok_shrink d d' tr :
  (forall i r, db_get (authChallenges d') i = Some r -> db_get (authChallenges d) i = Some r) ->
  challenges_ok d tr -> challenges_ok d' tr.
Proof.
  intros Hsub [H1 H2 H3]. split; [|done|].
  - intros i r Hr. by apply (H1 i), Hsub.
  - intros c Hc. destruct (H3 c Hc) as (Ha & Hb & Hd). split_and!; [done| |].
    + intros i j r r' Hi Hj. apply (Hb i j r r'); by apply Hsub.
    + intros Ht i r Hr. apply (Hd Ht i r). by apply Hsub.
Qed.

Lemma challenges_ok_other d d' tr e :
  authChallenges d' = authChallenges d -> (forall c, creates c e = false) -> (forall c, consumes c e = false) ->
  challenges_ok d tr -> challenges_ok d' (e :: tr).
Proof.
  intros E Hcr Hco [H1 H2 H3]. split; rewrite ?E.
  - intros i r Hr. destruct (H1 i r Hr) as (e' & He' & Hc). exists e'. split; [by right|done].
  - intros e' c key ch exp [->|He']%elem_of_cons Ht; [by apply took_consumes in Ht; rewrite Hco in Ht|].
    destruct (H2 e' c key ch exp He' Ht) as [Hn (e0 & He0 & Hc)]. split; [done|]. exists e0. split; [by right|done].
  - intros c. rewrite !times_cons, Hcr, Hco, !Z.add_0_l. apply H3.
Qed.

Lemma no_row d tr c i r :
  challenges_ok d tr -> times (creates c) tr = 0 -> db_get (authChallenges d) i = Some r -> ac_challengeId r <> c.
Proof.
  intros Hok H0 Hr <-. destruct (ch_rows _ _ Hok i r Hr) as (e & He & Hc).
  pose proof (times_pos _ _ _ He (created_creates _ _ _ _ _ Hc)). lia.
Qed.

Lemma challenges_ok_create d d' tr e c key ch exp :
  created c key ch exp e -> (forall c, consumes c e = false) ->
  authChallenges d' = (db_insert {| ac_challengeId := c; ac_publicKey := key; ac_challenge := ch;
                                    ac_expiresAtMs := exp; ac_usedAtMs := None |} (authChallenges d)).2 ->
  challenges_ok d tr -> challenges_ok d' (e :: tr).
Proof.
  intros He Hco Ht Hok. pose proof Hok as [H1 H2 H3]. set (new := {| ac_challengeId := c |}) in Ht.
  split; rewrite ?Ht.
  - intros i r. rewrite get_insert. case_decide; [intros [= <-]; exists e; split; [by left|exact He]|].
    intros Hr. destruct (H1 i r Hr) as (e' & He' & Hc). exists e'. split; [by right|done].
  - intros e' c' key' ch' exp' [->|He']%elem_of_cons Ht'; [by apply took_consumes in Ht'; rewrite Hco in Ht'|].
    destruct (H2 _ _ _ _ _ He' Ht') as [Hn (e0 & He0 & Hc)]. split; [done|]. exists e0. split; [by right|done].
  - intros c'. rewrite !times_cons, Hco, Z.add_0_l. pose proof (times_nonneg (creates c') tr) as Hge.
    pose proof (times_nonneg (consumes c') tr) as Hge'. unfold creates at 1 3. rewrite He.
    case_bool_decide as Hc; intros Hle.
    + subst c'. assert (H0 : times (creates c) tr = 0) by lia.
      destruct (H3 c ltac:(lia)) as (Ha & Hb & _). split_and!; [lia| |lia].
      apply at_most_one_insert; [|done]. intros _ i r Hr. apply bool_decide_eq_false. by apply (no_row d tr c i r).
    + destruct (H3 c' ltac:(lia)) as (Ha & Hb & Hd). split_and!; [lia| |].
      * apply at_most_one_insert; [|done]. intros Hnew. by apply bool_decide_eq_true in Hnew.
      * intros Ht1 i r. rewrite get_insert. case_decide; [intros [= <-] Hc'; cbn in Hc'; congruence|]. apply Hd. lia.
Qed.

Lemma challenges_ok_consume d d' tr e c key ch exp i r :
  took c key ch exp e -> (forall c, creates c e = false) -> 0 < d_now e -> d_now e < exp ->
  unique "by_challenge_id" (by_challengeId c) (authChallenges d) = Ok (Some (i, r)) ->
  ac_publicKey r = key -> truthyZ (ac_usedAtMs r) = false -> ac_challenge r = ch -> ac_expiresAtMs r = exp ->
  (forall j, db_get (authChallenges d') j = if decide (j = i) then Some (with_used (d_now e) r)
                                            else db_get (authChallenges d) j) ->
  challenges_ok d tr -> challenges_ok d' (e :: tr).
Proof.
  intros Htook Hcr Hpos Hexp Hu Hk Hunused Hch He Ht Hok. pose proof Hok as [H1 H2 H3].
  apply unique_some in Hu as (Hi & Hid & Honly). apply bool_decide_eq_true in Hid.
  destruct (H1 i r Hi) as (e0 & He0 & Hc0). rewrite Hid, Hk, Hch, He in Hc0.
  split.
  - intros j r'. rewrite Ht. intros Hr'.
    assert (Hrow : exists e', e' ∈ tr
              /\ created (ac_challengeId r') (ac_publicKey r') (ac_challenge r') (ac_expiresAtMs r') e').
    { case_decide; [injection Hr' as <-; cbn; rewrite Hid, Hk, Hch, He; by exists e0|by apply (H1 j)]. }
    destruct Hrow as (e' & He' & Hc). exists e'. split; [by right|done].
  - intros e' c' key' ch' exp' [->|He']%elem_of_cons Ht'.
    + assert (Hsame : c' = c /\ key' = key /\ ch' = ch /\ exp' = exp).
      { destruct e as [ei et op a]. unfold took in Htook, Ht'. cbn [d_op d_answer] in *. destruct op; try done.
        cbn [Ans] in a. destruct Htook as (-> & -> & ->). destruct Ht' as (-> & -> & [= -> ->]). done. }
      destruct Hsame as (-> & -> & -> & ->). split; [done|]. exists e0. split; [by right|done].
    + destruct (H2 _ _ _ _ _ He' Ht') as [Hn (e1 & He1 & Hc)]. split; [done|]. exists e1. split; [by right|done].
  - intros c'. rewrite !times_cons, Hcr, Z.add_0_l. intros Hle. destruct (H3 c' Hle) as (Ha & Hb & Hd).
    assert (Hone : at_most_one (by_challengeId c') (authChallenges d')).
    { eapply (at_most_one_patch _ _ _ i r (with_used (d_now e))); [exact Hi|exact Ht|by left|exact Hb]. }
    destruct (decide (c' = c)) as [->|Hne].
    + rewrite (took_consumes _ _ _ _ _ Htook).
      pose proof (times_pos _ _ _ He0 (created_creates _ _ _ _ _ Hc0)) as Hge.
      pose proof (times_nonneg (consumes c) tr).
      assert (times (consumes c) tr <> 1) by (intros H'; rewrite (Hd H' i r Hi Hid) in Hunused; done).
      split_and!; [lia|done|]. intros _ j r'. rewrite Ht. case_decide as Hj.
      * intros [= <-] _. cbn. apply negb_true_iff, Z.eqb_neq. lia.
      * intros Hr' Hc'. destruct Hj. apply (Honly j r' Hr'). by apply bool_decide_eq_true.
    + assert (Hco : consumes c' e = false).
      { destruct e as [ei et op a]. unfold took in Htook. unfold consumes. cbn [d_op d_answer] in *.
        destruct op; try done. cbn. destruct Htook as (-> & _ & ->). by rewrite bool_decide_eq_false_2. }
      rewrite Hco, Z.add_0_l. split_and!; [done|done|]. intros Ht1 j r'. rewrite Ht. case_decide as Hj.
      * intros [= <-] Hc'. cbn in Hc'. congruence.
      * by apply Hd.
Qed.

Lemma challenges_ok_call d d' tr now op a i :
  exec now op d = Ok (a, d') -> 0 < now -> challenges_ok d tr ->
  challenges_ok d' ({| d_request := i; d_now := now; d_op := op; d_answer := a |} :: tr).
Proof.
  intros H Hnow Hok. pose proof (exec_challenges now op d a d' H Hnow) as Heff.
  destruct op; try (by eapply challenges_ok_other); cbn [Ans] in a.
  - by eapply challenges_ok_create.
  - destruct a as [[ch exp]|].
    + destruct Heff as (j & r & Hu & Hk & Hun & Hlt & Hch & He & Ht).
      by eapply (challenges_ok_consume d d' tr _ challengeId key ch exp j r).
    + eapply challenges_ok_other; [exact Heff|done| |exact Hok]. intros c. cbn. by rewrite andb_false_r.
Qed.

(** ** Requests *)

(** The calls of a request, in their order. *)
Definition callsOf (i : nat) (tr : list Did) : list Did :=
  rev (List.filter (fun e => bool_decide (d_request e = i)) tr).

(** A program has done some calls and goes on as another. *)
Fixpoint follows (p : Prog) (calls : list Did) (p' : Prog) {struct calls} : Prop :=
  match calls with
  | [] => p = p'
  | e :: calls' =>
      match p with
      | Respond _ => False
      | Do op k => exists i t a, e = {| d_request := i; d_now := t; d_op := op; d_answer := a |}
                     /\ follows (k a) calls' p'
      end
  end.

Lemma follows_snoc p calls op k i t a :
  follows p calls (Do op k) ->
  follows p (calls ++ [{| d_request := i; d_now := t; d_op := op; d_answer := a |}]) (k a).
Proof.
  revert p. induction calls as [|e calls IH]; intros p; cbn [follows app].
  - intros ->. cbn [follows]. by exists i, t, a.
  - destruct p as [|op' k']; [done|]. intros (i' & t' & a' & -> & H). exists i', t', a'. split; [done|]. by apply IH.
Qed.

(** Every running request follows its handler, unless it was turned away or a call
    of it was rejected. *)
Definition running_ok (env : Env) (s : Server) : Prop :=
  (forall e, e ∈ trace s -> (d_request e < length (running s))%nat)
  /\ forall i q p, running s !! i = Some (q, p) ->
       (exists e, p = Respond (Crashed e)) \/ (exists status e, p = Respond (Failed status e))
       \/ follows (handler idText env q) (callsOf i (trace s)) p.

Lemma callsOf_other i e tr : d_request e <> i -> callsOf i (e :: tr) = callsOf i tr.
Proof. intros H. unfold callsOf. cbn [List.filter]. by rewrite bool_decide_eq_false_2. Qed.

Lemma callsOf_none i tr : (forall e, e ∈ tr -> d_request e <> i) -> callsOf i tr = [].
Proof.
  intros H. unfold callsOf. induction tr as [|e tr IH]; [done|]. cbn [List.filter].
  rewrite bool_decide_eq_false_2 by (apply H; by left). apply IH. intros e' He'. apply H. by right.
Qed.

Lemma running_ok_step env s s' : running_ok env s -> step idText env s s' -> running_ok env s'.
Proof.
  intros [Htr Hrun] Hstep.
  destruct Hstep as [q p b _ Hadmit|i q op k now a db' _ Hi _|i q op k now e _ Hi _|now d' _ _];
    unfold running_ok; cbn [running trace].
  - rewrite length_app. split; [intros e He; specialize (Htr e He); cbn; lia|]. intros j q' p' Hj.
    apply lookup_app_Some in Hj as [Hj|[Hge Hj]]; [by apply Hrun|].
    apply list_lookup_singleton_Some in Hj as [Hj [= <- <-]].
    right. unfold passLimit in Hadmit. split_if; [injection Hadmit as <- _; left; by eexists _, _|].
    assert (Hnone : callsOf j (trace s) = []).
    { apply callsOf_none. intros e He. specialize (Htr e He). lia. }
    rewrite Hnone. destruct (routeLimit env (route q)) as [[[prefix w] m]|].
    + destruct (rateLimit _ _ _ _ _ _) as [[|r] b']; injection Hadmit as <- _; [by right|left; by eexists _, _].
    + injection Hadmit as <- _. by right.
  - pose proof (lookup_lt_Some _ _ _ Hi) as Hlt. rewrite length_insert. split.
    + intros e [->|He]%elem_of_cons; [done|by apply Htr].
    + intros j q' p'. destruct (decide (j = i)) as [->|Hne].
      * rewrite list_lookup_insert_eq by done. intros [= <- <-].
        destruct (Hrun i q _ Hi) as [[? [=]]|[(? & ? & [=])|Hf]]. right. right.
        unfold callsOf. cbn [List.filter d_request]. rewrite bool_decide_eq_true_2 by done.
        cbn [rev]. by apply follows_snoc.
      * rewrite list_lookup_insert_ne by done. intros Hj. rewrite callsOf_other by (cbn; congruence). by apply Hrun.
  - rewrite length_insert. split; [done|]. intros j q' p'. destruct (decide (j = i)) as [->|Hne].
    + rewrite list_lookup_insert_eq by (by eapply lookup_lt_Some). intros [= <- <-]. left. by eexists.
    + rewrite list_lookup_insert_ne by done. apply Hrun.
  - by split.
Qed.

(** An answer that lets somebody in. *)
Definition granted (a : Answer) : bool :=
  match a with SignedIn _ _ | Entitlements _ | KeyLinked => true | _ => false end.

(** The key, the signature and the challenge a request presents. *)
Definition credentials (r : Route) : option (string * string * string) :=
  match r with
  | PostMobileEntitlements key signature challengeId | Authorize key signature challengeId
  | PostLinkPublicKey key signature challengeId => Some (normalizeHex key, normalizeHex signature, challengeId)
  | _ => None
  end.

(** A request that was let in took its challenge and signed it. *)
Lemma granted_took env q calls a key signature c :
  follows (handler idText env q) calls (Respond a) -> granted a = true ->
  credentials (route q) = Some (key, signature, c) ->
  exists e ch exp, e ∈ calls /\ took c key ch exp e /\ verifySignature key signature ch = true.
Proof.
  unfold handler. intros Hf Hg Hc.
  assert (Hdone : forall bad, follows (Respond bad) calls (Respond a) -> granted bad = false -> False).
  { intros bad H Hb. destruct calls; [injection H as ->; congruence|done]. }
  assert (Htake : forall (k : string * Z -> Prog) (bad bad' : Answer),
      granted bad = false -> granted bad' = false ->
      follows (Do (ConsumeAuthChallenge c key) (fun ch => match ch with
        | None => Respond bad
        | Some (ch, e) => if negb (verifySignature key signature ch) then Respond bad' else k (ch, e)
        end)) calls (Respond a) ->
      exists e ch exp, e ∈ calls /\ took c key ch exp e /\ verifySignature key signature ch = true).
  { intros k bad bad' Hb Hb' H. destruct calls as [|e calls]; [done|]. cbn [follows] in H.
    destruct H as (i & t & o & -> & H). cbn [Ans] in o. destruct o as [[ch exp]|].
    - destruct (verifySignature key signature ch) eqn:Ev; cbn [negb] in H.
      + eexists _, ch, exp. split; [by left|]. split; [|done]. by cbn.
      + destruct calls; [injection H as ->; congruence|done].
    - destruct calls; [injection H as ->; congruence|done]. }
  destruct (route q) as [| |k sg cid|k sg cid| |k sg cid| | |]; try done; injection Hc as <- <- <-.
  - unfold mobileEntitlements in Hf. repeat (split_if; [by eapply Hdone in Hf|]).
    by eapply (Htake (fun p => Do (GetUserByPublicKey (normalizeHex k)) _)) in Hf.
  - unfold authorize in Hf. repeat (split_if; [by eapply Hdone in Hf|]).
    by eapply (Htake (fun p => Do (UpsertUser _ _ _ _ _) _)) in Hf.
  - unfold requireSession in Hf. destruct (q_session q) as [s|]; [|by eapply Hdone in Hf].
    unfold profileLinkPublicKey in Hf. repeat (split_if; [by eapply Hdone in Hf|]).
    by eapply (Htake (fun p => Do (LinkPublicKey _ _) _)) in Hf.
Qed.

Lemma service_ok env s :
  rtc (step idText env) serverStart s -> 0 < clock s /\ challenges_ok (db s) (trace s) /\ running_ok env s.
Proof.
  intros H. apply (rtc_keeps _ (fun s => 0 < clock s /\ challenges_ok (db s) (trace s) /\ running_ok env s) _ _) in H;
    [done| |].
  - clear s H. intros s s' (Hclock & Hch & Hrun) Hstep. split_and!; [| |by eapply running_ok_step].
    + apply step_links in Hstep as [? _]. lia.
    + destruct Hstep; cbn [db trace]; [done| |done|].
      * eapply challenges_ok_call; [by eapply call_exec|lia|done].
      * eapply challenges_ok_shrink; [|done]. by eapply background_challenges.
  - cbn. split_and!; [done| |].
    + split; cbn.
      * intros i r Hr. by rewrite get_empty in Hr.
      * set_solver.
      * intros c _. split; [done|]. split; [apply at_most_one_empty|]. intros _ i r Hr. by rewrite get_empty in Hr.
    + split; [set_solver|done].
Qed.

(** C20. Nobody is let in without a challenge of their own.  Whoever is signed in,
    shown the entitlements of a key, or given a key has taken, before it expired,
    a challenge that was made for this key, and signed it with the key; and a
    challenge that was made once lets in one request, however the requests
    interleave. *)
Theorem challenge_single_use env s i q a key signature c :
  rtc (step idText env) serverStart s ->
  running s !! i = Some (q, Respond a) -> granted a = true -> credentials (route q) = Some (key, signature, c) ->
  (exists e e' ch exp, e ∈ trace s /\ d_request e = i /\ took c key ch exp e /\ d_now e < exp
     /\ e' ∈ trace s /\ created c key ch exp e' /\ verifySignature key signature ch = true)
  /\ (times (creates c) (trace s) = 1 ->
      forall j q' a' key' signature', running s !! j = Some (q', Respond a') -> granted a' = true ->
        credentials (route q') = Some (key', signature', c) -> j = i).
Proof.
  intros Hs Hi Hg Hc. destruct (service_ok env s Hs) as (_ & Hch & _ & Hrun).
  assert (Htook : forall j q a key signature, running s !! j = Some (q, Respond a) -> granted a = true ->
      credentials (route q) = Some (key, signature, c) ->
      exists e ch exp, e ∈ trace s /\ d_request e = j /\ took c key ch exp e
        /\ verifySignature key signature ch = true).
  { clear -Hrun. intros j q a key signature Hj Hg Hc.
    destruct (Hrun j q _ Hj) as [[e [= ->]]|[(st & e & [= ->])|Hf]]; [done..|].
    destruct (granted_took env q _ a key signature c Hf Hg Hc) as (e & ch & exp & He & Ht & Hv).
    unfold callsOf in He. apply list_elem_of_In, in_rev, List.filter_In in He as [He Hr].
    apply bool_decide_eq_true in Hr. exists e, ch, exp. by rewrite list_elem_of_In. }
  destruct (Htook i q a key signature Hi Hg Hc) as (e & ch & exp & He & Hr & Ht & Hv). split.
  - destruct (ch_taken _ _ Hch e c key ch exp He Ht) as [Hlt (e' & He' & Hcr)].
    exists e, e', ch, exp. by split_and!.
  - intros Hone j q' a' key' signature' Hj Hg' Hc'. destruct (decide (j = i)) as [|Hne]; [done|exfalso].
    destruct (Htook j q' a' key' signature' Hj Hg' Hc') as (f & ch' & exp' & Hf & Hr' & Ht' & _).
    assert (Htwo : 2 <= times (consumes c) (trace s)).
    { apply (times_two _ _ e f He Hf); [congruence|by eapply took_consumes..]. }
    destruct (ch_once _ _ Hch c ltac:(lia)) as (Hle & _). lia.
Qed.

End Service.

(** ** Runs, played move by move *)

Inductive Move `{C : Convex} := In (q : Request) | Go (i : nat) (now : Z).

Definition playMove `{C : Convex} `{AuthLib} (idText : Id -> string) (env : Env) (s : Server) (m : Move) : option Server :=
  match m with
  | In q =>
      if clock s <=? q_now q then
        let '(p, b) := passLimit idText env q (rate s) in
        Some {| db := db s; rate := b; running := running s ++ [(q, p)]; trace := trace s; clock := q_now q |}
      else None
  | Go i now =>
      match running s !! i with
      | Some (q, Do op k) =>
          if clock s <=? now then
            match call env now op (db s) with
            | Ok (a, db') =>
                Some {| db := db'; rate := rate s; running := <[i := (q, k a)]> (running s);
                        trace := {| d_request := i; d_now := now; d_op := op; d_answer := a |} :: trace s;
                        clock := now |}
            | Throw e =>
                Some {| db := db s; rate := rate s; running := <[i := (q, Respond (Crashed e))]> (running s);
                        trace := trace s; clock := now |}
            end
          else None
      | _ => None
      end
  end.

(** Moves that are not possible are skipped. *)
Definition play `{C : Convex} `{AuthLib} (idText : Id -> string) (env : Env) (s : Server) (l : list Move) : Server :=
  foldl (fun s m => default s (playMove idText env s m)) s l.

Lemma play_runs `{C : Convex} `{AuthLib} idText env s l : rtc (step idText env) s (play idText env s l).
Proof.
  revert s. induction l as [|m l IH]; intros s; [done|]. cbn. etrans; [|apply IH].
  destruct (playMove idText env s m) as [s'|] eqn:E; [|done]. cbn. apply rtc_once.
  destruct m as [q|i now]; cbn in E.
  - split_if; [|done]. bprop. destruct (passLimit _ _ _ _) as [p b] eqn:Ea. injection E as <-. by constructor.
  - destruct (running s !! i) as [[q [|op k]]|] eqn:Ei; [done| |done]. split_if; [|done]. bprop.
    destruct (call _ _ _ _) as [[a d']|e] eqn:Ec; injection E as <-; by econstructor.
Qed.

(** A toy of the libraries: a signature begins with its key, a wallet signs with
    its address. *)
#[local] Instance toy_auth : AuthLib := {
  ed25519_verify key _ signature := bool_decide (take 32 signature = key);
  getAddress s := if nonempty s then Some s else None;
  verifyMessage _ signature := Some signature;
  urlOrigin s := Some s
}.

Definition toyEnv : Env :=
  {| serviceToken := Some "token"; configuredToken := Some " token"; challengeTtlMs := 300000;
     challengeTtlMaxMs := 900000; mobileEnabled := true; allowedOrigins := ["https://app"]; allowedChainIds := [];
     ENTITLEMENTS_MAX := 100; buckets := {| rateBucketMax := 100; rateBucketCleanupMs := 1000 |};
     challengeWindow := 60000; challengeMax := 30; profileWindow := 60000; profileMax := 60 |}.

Definition toyKey (b : Byte.byte) : string := to_hex (replicate 32 b).
Definition toySignature (b : Byte.byte) : string := to_hex (replicate 64 b).

Definition toyRequest (r : Route) (user : option nat) (now : Z) (uuid : string) : Request :=
  {| route := r; q_origin := Some "https://app"; q_referer := None; q_ip := "ip";
     q_session := (fun u => {| userId := u : @Id list_convex; sessionSubject := "" |}) <$> user;
     q_now := now; q_uuid := uuid; q_random := replicate 32 Byte.x07 |}.

Definition toyPlay (s : Server) (l : list Move) : Server := play (fun _ : @Id list_convex => "u") toyEnv s l.

Lemma toyPlay_runs s l : rtc (step (fun _ : @Id list_convex => "u") toyEnv) s (toyPlay s l).
Proof. apply play_runs. Qed.

(** A player asks for a challenge and signs in twice with it, interleaved. *)
Definition signInTwice : list Move :=
  [In (toyRequest (PostChallenge (toyKey Byte.x01)) None 10 "c1"); Go 0 11;
   In (toyRequest (Authorize (toyKey Byte.x01) (toySignature Byte.x01) "c1") None 20 "x");
   In (toyRequest (Authorize (toyKey Byte.x01) (toySignature Byte.x01) "c1") None 21 "y");
   Go 2 22; Go 1 23; Go 2 24].

Lemma accounts_consistent_witness :
  let s := toyPlay serverStart signInTwice in
  (exists i u, db_get (users (db s)) i = Some u /\ publicKey u = Some (toyKey Byte.x01)) /\ accounts_ok (db s).
Proof.
  split; [by exists 0%nat; eexists|]. apply (accounts_consistent (fun _ => "u") toyEnv). apply toyPlay_runs.
Defined.

Lemma challenge_single_use_witness :
  let s := toyPlay serverStart signInTwice in
  option_map snd (running s !! 1%nat) = Some (Respond NotSignedIn)
  /\ times (creates "c1") (trace s) = 1
  /\ exists e e' ch exp, e ∈ trace s /\ d_request e = 2%nat /\ took "c1" (toyKey Byte.x01) ch exp e /\ d_now e < exp
     /\ e' ∈ trace s /\ created "c1" (toyKey Byte.x01) ch exp e'
     /\ verifySignature (toyKey Byte.x01) (toySignature Byte.x01) ch = true.
Proof.
  split; [vm_compute; reflexivity|]. split; [vm_compute; reflexivity|].
  eapply (proj1 (challenge_single_use (fun _ => "u") toyEnv (toyPlay serverStart signInTwice) 2 _ _ _ _ _
    (toyPlay_runs _ _) ltac:(vm_compute; reflexivity) ltac:(reflexivity) ltac:(vm_compute; reflexivity))).
Defined.

(** A wallet is linked: the challenge, and two calls later the link. *)
Definition linkWallet (i : nat) (user : nat) (address uuid : string) (now : Z) : list Move :=
  [In (toyRequest (PostEvmChallenge address (Some 1)) (Some user) now uuid); Go i now; Go i now;
   In (toyRequest (PostLinkEvm address address uuid (Some 1)) (Some user) now ""); Go (S i) now; Go (S i) now].

Definition day : Z := 24 * 60 * 60 * 1000.

Lemma evm_cooldown_witness :
  let s1 := toyPlay serverStart (signInTwice ++ linkWallet 3 0 "0xA" "e1" day) in
  let s2 := toyPlay s1 (linkWallet 5 0 "0xB" "e2" (8 * day)) in
  let s3 := toyPlay s2 (linkWallet 7 0 "0xC" "e3" (9 * day) ++ linkWallet 9 0 "0xC" "e4" (15 * day)) in
  option_map snd (running s3 !! 8%nat) = Some (Respond (Crashed "EVM relink cooldown active."))
  /\ clock s1 + RELINK_COOLDOWN_MS <= clock s3.
Proof.
  split; [vm_compute; reflexivity|].
  eapply (evm_cooldown (fun _ => "u") toyEnv _ (toyPlay (toyPlay serverStart (signInTwice ++ linkWallet 3 0 "0xA" "e1" day))
    (linkWallet 5 0 "0xB" "e2" (8 * day))) _ (0%nat : @Id list_convex)).
  - apply toyPlay_runs.
  - apply toyPlay_runs.
  - apply toyPlay_runs.
  - exists 0%nat. split; [vm_compute; reflexivity|reflexivity].
  - exists 0%nat. split; [vm_compute; reflexivity|reflexivity].
  - exists 0%nat. split; [vm_compute; reflexivity|reflexivity].
  - discriminate.
  - discriminate.
Defined.

(** ** Keys that two users have *)

Section Keys.
Context `{C : Convex} {L : ConvexLaws C} `{lib : AuthLib}.

(** The user a sign-in ends with. *)
Lemma sign_in_user env now key signature c d id k d' :
  runAlone env now (authorize key signature c) d = (SignedIn id k, d') ->
  k = normalizeHex key
  /\ (exists u, db_get (users d') id = Some u /\ authSubject u = k /\ publicKey u = Some k)
  /\ forall i u, i <> id -> db_get (users d) i = Some u -> db_get (users d') i = Some u.
Proof.
  unfold authorize. intros H. repeat (split_if; [done|]). cbn [runAlone] in H.
  destruct (call _ _ _ _) as [[[[ch e]|] d1]|] eqn:E1; [|done..].
  split_if; [done|]. cbn [runAlone] in H. destruct (call env now (UpsertUser _ _ _ _ _) d1) as [[i d2]|] eqn:E2; [|done].
  injection H as -> <- ->. apply call_exec in E1. apply call_exec in E2. cbn [exec] in E1, E2.
  assert (Hu : users d1 = users d).
  { unfold consumeAuthChallenge in E1. destruct (unique _ _ _) as [[[j r]|]|]; cbn in E1; [|done..].
    repeat (split_if; [done|]). destruct (patch _ _ _); cbn in E1; [|done]. by injection E1 as _ _ <-. }
  split; [done|]. unfold upsertUser in E2.
  destruct (unique _ _ (users d1)) as [[[j u]|]|] eqn:Eu; cbn in E2; [| |done].
  - apply unique_some in Eu as (Hj & Hby & _). apply andb_true_iff in Hby as [_ Hs%bool_decide_eq_true].
    destruct (patch _ _ _) as [t|] eqn:Ep; cbn in E2; [|done]. injection E2 as <- <-.
    apply patch_ok in Ep as (u' & Hu' & Ht). rewrite Hj in Hu'. injection Hu' as <-. cbn [users with_users]. split.
    + eexists. rewrite Ht, decide_True by done. by split_and!.
    + intros i v Hne Hv. rewrite Ht, decide_False by done. by rewrite Hu.
  - unfold insertInto in E2. destruct (db_insert _ _) as [j t] eqn:Ei. injection E2 as <- <-. cbn [users with_users].
    match type of Ei with db_insert ?new _ = _ =>
      assert (Hj : j = (db_insert new (users d1)).1) by (by rewrite Ei);
      assert (Ht : t = (db_insert new (users d1)).2) by (by rewrite Ei) end. subst j t. split.
    + eexists. rewrite get_insert_new. by split_and!.
    + intros i v Hne Hv. apply get_insert_old. by rewrite Hu.
Qed.

(** A sign-in with the key gives the account this key again, so a key that
    was linked is gone; and when the key belongs to another account too (one it
    was linked to), nothing finds it any more: looking up the key and linking
    it throw from then on, for everybody. *)
Theorem sign_in_breaks_links env now key signature c d id k d' :
  runAlone env now (authorize key signature c) d = (SignedIn id k, d') ->
  (exists u, db_get (users d') id = Some u /\ publicKey u = Some k)
  /\ forall i u, db_get (users d) i = Some u -> publicKey u = Some k -> i <> id ->
       (exists e, getUserByPublicKey k d' = Throw e) /\ forall j, exists e, linkPublicKey j k d' = Throw e.
Proof.
  intros H. destruct (sign_in_user _ _ _ _ _ _ _ _ _ H) as (_ & (u & Hu & _ & Hk) & Hothers).
  split; [by exists u|]. intros i v Hv Hkv Hne.
  assert (Hthrow : exists e, unique "by_public_key" (by_publicKey k) (users d') = Throw e).
  { apply (unique_throws _ _ _ i id v u); [by apply Hothers|done|by apply bool_decide_eq_true..|done]. }
  split; [exact Hthrow|]. intros j. unfold linkPublicKey. destruct Hthrow as [e ->]. by exists e.
Qed.

End Keys.

(** The first player links the second key before its owner has ever signed in. *)
Definition linkForeignKey : list Move :=
  [In (toyRequest (PostChallenge (toyKey Byte.x02)) None 30 "c2"); Go 3 30;
   In (toyRequest (PostLinkPublicKey (toyKey Byte.x02) (toySignature Byte.x02) "c2") (Some 0%nat) 31 ""); Go 4 31; Go 4 31;
   In (toyRequest (PostChallenge (toyKey Byte.x02)) None 32 "c3"); Go 5 32].

Lemma sign_in_breaks_links_witness :
  let d := db (toyPlay serverStart (signInTwice ++ linkForeignKey)) in
  let k := toyKey Byte.x02 in
  let r := runAlone toyEnv 33 (authorize k (toySignature Byte.x02) "c3") d in
  r.1 = SignedIn (1%nat : @Id list_convex) k /\ exists e, getUserByPublicKey k r.2 = Throw e.
Proof.
  split; [vm_compute; reflexivity|].
  set (d := db (toyPlay serverStart (signInTwice ++ linkForeignKey))).
  set (k := toyKey Byte.x02).
  assert (Hr : runAlone toyEnv 33 (authorize k (toySignature Byte.x02) "c3") d
    = (SignedIn (1%nat : @Id list_convex) k, (runAlone toyEnv 33 (authorize k (toySignature Byte.x02) "c3") d).2))
    by (vm_compute; reflexivity).
  assert (Hu : exists u, db_get (users d) (0%nat : @Id list_convex) = Some u /\ publicKey u = Some k)
    by (eexists; split; vm_compute; reflexivity).
  destruct Hu as (u & Hu & Hk).
  destruct (sign_in_breaks_links toyEnv 33 k (toySignature Byte.x02) "c3" d _ _ _ Hr) as [_ Hlost].
  apply (Hlost _ u Hu Hk). discriminate.
Defined.

(** A second player, user 1, whose wallet the first had before. *)
Lemma evm_address_stuck_witness :
  let second := [In (toyRequest (PostChallenge (toyKey Byte.x02)) None 30 "c2"); Go 3 30;
                 In (toyRequest (Authorize (toyKey Byte.x02) (toySignature Byte.x02) "c2") None 31 ""); Go 4 31; Go 4 31] in
  let s := toyPlay serverStart (signInTwice ++ second ++ linkWallet 5 0 "0xA" "e1" 100
             ++ [In (toyRequest PostUnlinkEvm (Some 0%nat) 200 ""); Go 7 200] ++ linkWallet 8 1 "0xA" "e2" 300) in
  option_map (fun l => (l_userId l, l_status l)) (db_get (evmLinks (db s)) (1%nat : @Id list_convex))
    = Some (1%nat : @Id list_convex, "active")
  /\ exists e, linkEvmAddress 400 (1%nat : @Id list_convex) "0xA" 1 "personal_sign" (db s) = Throw e.
Proof.
  split; [vm_compute; reflexivity|].
  eapply (evm_address_stuck 400 _ "0xA" 1 "personal_sign" _ (0%nat : @Id list_convex) (1%nat : @Id list_convex));
    [vm_compute; reflexivity|vm_compute; reflexivity|discriminate|reflexivity|reflexivity].
Defined.
