(* ===== verification/StripeCorrect.v ===== *)
(** * Theorems about the billing

    An event of Stripe is applied once; after an event that carries the whole
    subscription, the entitlements are those of its prices. *)

From stdpp Require Import pretty.
From S2P Require Import Prelude Calendar Convex Accounts AuthUtils Stripe AccountsCorrect.

Section Billing.
Context `{C : Convex} {L : ConvexLaws C}.

(** ** Events are applied once *)

Lemma processed_again now now' a a' d d' :
  eventId a' = eventId a -> applyStripeEvent now a d = Ok (tt, d') -> applyStripeEvent now' a' d' = Ok (tt, d').
Proof.
  intros Heq H. assert (Hseen : exists x, unique "by_event_id" (by_event (eventId a)) (stripeEvents d') = Ok (Some x)).
  { unfold applyStripeEvent in H. destruct (unique _ _ (stripeEvents d)) as [[x|]|] eqn:E; cbn -[unique applyItems] in H;
      [injection H as <-; by exists x| |done].
    set (new := {| se_eventId := eventId a; se_eventType := eventType a; processedAtMs := now |}) in *.
    assert (Ht : stripeEvents d' = (db_insert new (stripeEvents d)).2).
    { clear E. unfold insertInto in H. destruct (db_insert new (stripeEvents d)) as [i t]. cbn -[unique applyItems] in H.
      repeat (case_match; cbn -[unique applyItems] in H; simplify_eq; try done).
      all: unfold mbind, result_bind in H; repeat (case_match; simplify_eq); done. }
    exists ((db_insert new (stripeEvents d)).1, new). rewrite Ht. apply unique_some. split_and!.
    - apply get_insert_new.
    - by apply bool_decide_eq_true.
    - intros j e. rewrite get_insert. case_decide; [done|]. intros He Hp.
      by rewrite (proj1 (unique_none _ _ _) E j e He) in Hp. }
  destruct Hseen as [x Hx]. unfold applyStripeEvent. rewrite Heq, Hx. done.
Qed.

(** ** Entitlements *)

Section Apply.
Context (now : Z) (a : StripeArgs) (user : Id) (sub : string).

Let st : string := default "unknown" (status a).

(** No price of a subscription has two entitlements. *)
Definition prices_ok (t : Table Entitlement) : Prop := forall s p, at_most_one (by_price s p) t.

Lemma by_price_iff s p e : by_price s p e = true <-> n_subscriptionId e = Some s /\ n_priceId e = Some p.
Proof. unfold by_price, by_subscription. by rewrite andb_true_iff, !bool_decide_eq_true. Qed.

(** The table after some items: theirs are entitled, and other subscriptions are
    as they were. *)
Record items_done (t0 : Table Entitlement) (done : list string) (t : Table Entitlement) : Prop := {
  id_prices : prices_ok t;
  id_there : forall p, p ∈ done -> exists i e, db_get t i = Some e /\ by_price sub p e = true;
  id_status : forall i e p, db_get t i = Some e -> by_price sub p e = true -> p ∈ done -> n_status e = st;
  id_others : forall i e, n_subscriptionId e <> Some sub -> db_get t i = Some e <-> db_get t0 i = Some e
}.

Lemma applyItem_done t0 done t item price :
  i_priceId item = Some price -> truthyS (Some price) = true -> items_done t0 done t ->
  exists t', applyItem now a user sub t item = Ok t' /\ items_done t0 (price :: done) t'.
Proof.
  intros Hp Htrue [H1 H2 H3 H4]. unfold applyItem. rewrite Hp, Htrue.
  assert (Hent : forall e, by_price sub price (entitled now a sub item e) = true /\ n_status (entitled now a sub item e) = st).
  { intros e. split; [|done]. apply by_price_iff. split; [done|]. cbn. unfold truthyGiven. by rewrite Hp, Htrue. }
  assert (Hown : forall e s p, by_price s p (entitled now a sub item e) = true -> s = sub /\ p = price).
  { intros e s p Hb. apply by_price_iff in Hb as [Hs Hq]. destruct (Hent e) as [Hb' _].
    apply by_price_iff in Hb' as [Hs' Hq']. split; congruence. }
  pose proof (unique_total "by_stripe_subscription_id_and_price_id" _ _ (H1 sub price)) as Htot.
  destruct (unique _ _ t) as [[[i e]|]|] eqn:E; [| |done]; cbn -[patch].
  - apply unique_some in E as (Hi & Hb & Honly).
    destruct (patch_existing i (entitled now a sub item) t e Hi) as (t' & -> & Ht'). exists t'. split; [done|]. split.
    + intros s p. eapply at_most_one_patch; [exact Hi|exact Ht'| |apply H1].
      intros Hf. left. by destruct (Hown _ _ _ Hf) as [-> ->].
    + intros p [->|Hin]%elem_of_cons.
      * exists i, (entitled now a sub item e). rewrite Ht', decide_True by done. split; [done|apply Hent].
      * destruct (H2 p Hin) as (j & f & Hj & Hf). destruct (decide (j = i)) as [->|Hne].
        -- exists i, (entitled now a sub item e). rewrite Ht', decide_True by done. split; [done|].
           rewrite Hi in Hj. injection Hj as <-. apply by_price_iff in Hb as [_ Hq], Hf as [_ Hq'].
           rewrite Hq in Hq'. injection Hq' as <-. apply Hent.
        -- exists j, f. by rewrite Ht', decide_False.
    + intros j f p. rewrite Ht'. case_decide as Hc; [intros [= <-] _ _; apply Hent|].
      intros Hj Hf [->|Hin]%elem_of_cons; [|by apply (H3 j f p)]. destruct Hc. by apply (Honly j f).
    + intros j f Hf. rewrite Ht'. case_decide as Hc; [|by apply H4]. subst j. split.
      * intros [= <-]. done.
      * intros Hj. apply (H4 i f Hf) in Hj. rewrite Hi in Hj. injection Hj as ->.
        by apply by_price_iff in Hb as [Hs _].
  - set (new := entitled now a sub item (noEntitlement user)). exists (db_insert new t).2. split; [done|]. split.
    + intros s p. apply at_most_one_insert; [|apply H1]. intros Hf j e He.
      destruct (Hown _ _ _ Hf) as [-> ->]. exact (proj1 (unique_none _ _ _) E j e He).
    + intros p [->|Hin]%elem_of_cons.
      * exists (db_insert new t).1, new. rewrite get_insert_new. split; [done|apply Hent].
      * destruct (H2 p Hin) as (j & f & Hj & Hf). exists j, f. split; [by apply get_insert_old|done].
    + intros j f p. rewrite get_insert. case_decide; [intros [= <-] _ _; apply Hent|].
      intros Hj Hf [->|Hin]%elem_of_cons; [|by apply (H3 j f p)].
      by rewrite (proj1 (unique_none _ _ _) E j f Hj) in Hf.
    + intros j f Hf. rewrite get_insert. case_decide as Hc; [|by apply H4]. subst j. split.
      * intros [= <-]. done.
      * intros Hj. apply (H4 _ f Hf) in Hj. by rewrite insert_fresh in Hj.
Qed.

Lemma items_all_done its t0 done t :
  Forall (fun i => truthyS (i_priceId i) = true) its -> items_done t0 done t ->
  exists t', foldM_result (applyItem now a user sub) t its = Ok t'
    /\ items_done t0 (rev (omap i_priceId its) ++ done) t'.
Proof.
  revert done t. induction its as [|item its IH]; intros done t Hall Hd; [by exists t|].
  apply Forall_cons in Hall as [Hp Hall]. destruct (i_priceId item) as [p|] eqn:E; [|done].
  destruct (applyItem_done t0 done t item p E Hp Hd) as (t1 & Ht1 & Hd1).
  destruct (IH (p :: done) t1 Hall Hd1) as (t2 & Ht2 & Hd2). exists t2. cbn [foldM_result]. rewrite Ht1.
  split; [exact Ht2|]. cbn. rewrite E. cbn [rev]. by rewrite <- app_assoc.
Qed.

(** The entitlements that [cancelOthers] cancels. *)
Definition stale (active : list string) (e : Entitlement) : bool :=
  match n_priceId e with
  | Some price => negb (truthyS (Some price)) || negb (bool_decide (price ∈ active))
  | None => true
  end.

Lemma cancel_all active l t :
  NoDup l.*1 -> (forall i e, (i, e) ∈ l -> db_get t i = Some e) ->
  exists t', foldM_result (cancelOthers now active) t l = Ok t'
    /\ (forall i e, (i, e) ∈ l -> db_get t' i = Some (if stale active e then canceled now e else e))
    /\ forall j, j ∉ l.*1 -> db_get t' j = db_get t j.
Proof.
  revert t. induction l as [|[i e] l IH]; intros t Hnd Hin; [exists t; split_and!; [done|set_solver|done]|].
  apply NoDup_cons in Hnd as [Hi Hnd].
  assert (Hstep : exists t1, cancelOthers now active t (i, e) = Ok t1
    /\ forall j, db_get t1 j = if decide (j = i) then Some (if stale active e then canceled now e else e) else db_get t j).
  { assert (He : db_get t i = Some e) by (apply Hin; left).
    unfold cancelOthers. fold (stale active (i, e).2). cbn [fst snd]. destruct (stale active e).
    - apply (patch_existing i (canceled now) t e He).
    - exists t. split; [done|]. intros j. case_decide; [by subst|done]. }
  destruct Hstep as (t1 & Ht1 & Hget).
  assert (Hin1 : forall j f, (j, f) ∈ l -> db_get t1 j = Some f).
  { intros j f Hj. rewrite Hget, decide_False; [apply Hin; by right|]. intros ->. apply Hi.
    apply list_elem_of_fmap. by exists (i, f). }
  destruct (IH t1 Hnd Hin1) as (t' & Ht' & Hl & Hrest). exists t'. cbn [foldM_result]. rewrite Ht1.
  split_and!; [exact Ht'| |].
  - intros j f [[= -> ->]|Hj]%elem_of_cons; [|by apply Hl]. rewrite Hrest by done. by rewrite Hget, decide_True.
  - intros j Hj. cbn in Hj. rewrite Hrest by set_solver. rewrite Hget, decide_False by set_solver. done.
Qed.

(** What the loop over the subscription's entitlements does to the table. *)
Lemma cancel_query active t : exists t',
  foldM_result (cancelOthers now active) t (db_query "by_stripe_subscription_id" (by_subscription sub) t) = Ok t'
  /\ forall i, db_get t' i =
       (fun e => if by_subscription sub e && stale active e then canceled now e else e) <$> db_get t i.
Proof.
  set (found := db_query _ _ t).
  assert (Hfound : forall i e, (i, e) ∈ found <-> db_get t i = Some e /\ by_subscription sub e = true).
  { intros i e. unfold found. by rewrite query_elem. }
  destruct (cancel_all active found t) as (t' & Hcancel & Hl & Hrest);
    [apply query_nodup|intros i e Hie; by apply Hfound in Hie as [? _]|].
  exists t'. split; [exact Hcancel|]. intros i. destruct (decide (i ∈ found.*1)) as [Hin|Hout].
  - apply list_elem_of_fmap in Hin as ([j e] & -> & Hin). cbn [fst]. rewrite (Hl j e Hin).
    apply Hfound in Hin as [-> Hb]. cbn [fmap option_fmap option_map]. by rewrite Hb.
  - rewrite (Hrest i Hout). destruct (db_get t i) as [e|] eqn:He; [|done]. cbn.
    destruct (by_subscription sub e) eqn:Hb; [|done]. destruct Hout. apply list_elem_of_fmap.
    exists (i, e). by rewrite Hfound.
Qed.

End Apply.

(** ** What a subscription gives *)

Lemma extractItems_priced s : Forall (fun i => truthyS (i_priceId i) = true) (extractItems s).
Proof. unfold extractItems. apply List.Forall_forall. intros i Hi. by apply List.filter_In in Hi as [_ Hi]. Qed.

Lemma priced_ids its :
  Forall (fun i => truthyS (i_priceId i) = true) its -> List.filter nonempty (omap i_priceId its) = omap i_priceId its.
Proof.
  induction its as [|i its IH]; [done|]. intros [Hi Hits]%Forall_cons. cbn.
  destruct (i_priceId i) as [p|]; [|done]. cbn. cbn in Hi. unfold nonempty at 1. rewrite Hi. f_equal. by apply IH.
Qed.

Lemma active_extracted type its p :
  p ∈ activePriceIds type its -> p ∈ omap i_priceId its /\ nonempty p = true.
Proof.
  unfold activePriceIds. case_bool_decide; [set_solver|].
  intros [Hp Hne]%list_elem_of_In%List.filter_In. split; [by apply list_elem_of_In|done].
Qed.

(** A new closing event of a known customer runs both loops over the table of
    entitlements, and nothing else changes but the table of events. *)
Lemma closing_event_runs now id type s d u t1 t' :
  unique "by_event_id" (by_event id) (stripeEvents d) = Ok None ->
  sb_customer s <> "" -> sb_id s <> "" ->
  unique "by_stripe_customer_id" (by_customer (sb_customer s)) (users d) = Ok (Some u) ->
  closes type = true ->
  foldM_result (applyItem now (subscriptionArgs id type s) u.1 (sb_id s)) (entitlements d) (extractItems s) = Ok t1 ->
  foldM_result (cancelOthers now (activePriceIds type (extractItems s))) t1
    (db_query "by_stripe_subscription_id" (by_subscription (sb_id s)) t1) = Ok t' ->
  exists d', applyStripeEvent now (subscriptionArgs id type s) d = Ok (tt, d') /\ entitlements d' = t'.
Proof.
  intros Hnew Hcust Hsub Huser Hcloses Hfold Hcancel. destruct u as [user u].
  set (ev := {| se_eventId := id; se_eventType := type; processedAtMs := now |}).
  exists (with_entitlements t' (insertInto with_stripeEvents (stripeEvents d) ev d).2). split; [|done].
  unfold applyStripeEvent. cbn -[unique applyItems insertInto]. rewrite Hnew. cbn -[unique applyItems insertInto].
  rewrite (bool_decide_eq_false_2 _ Hcust), (bool_decide_eq_false_2 _ Hsub). cbn -[unique applyItems insertInto].
  assert (Hsame : users (insertInto with_stripeEvents (stripeEvents d) ev d).2 = users d
    /\ entitlements (insertInto with_stripeEvents (stripeEvents d) ev d).2 = entitlements d).
  { unfold insertInto. by destruct (db_insert ev (stripeEvents d)). }
  fold ev. destruct Hsame as [-> ->]. rewrite Huser.
  cbn -[unique applyItems insertInto]. unfold applyItems. cbn -[unique foldM_result insertInto extractItems].
  cbn [fst] in Hfold. rewrite Hfold. cbn -[foldM_result insertInto extractItems]. rewrite Hcloses. by rewrite Hcancel.
Qed.

(** C23. An event with a new id that carries a whole subscription (updated,
    deleted, reconciled) of a known customer, in a table where no price of a
    subscription has two entitlements, leaves the entitlements of this
    subscription exactly as the event says: the prices it names (none when it is
    deleted) are entitled with its status, each by one entitlement, every other
    entitlement of the subscription is canceled as of now, other subscriptions
    are untouched, and prices stay unique.  An id that was processed before is
    skipped ([reconcile_skipped]). *)
Theorem entitlements_follow now id type s d customer u :
  prices_ok (entitlements d) -> unique "by_event_id" (by_event id) (stripeEvents d) = Ok None ->
  sb_customer s = customer -> customer <> "" -> sb_id s <> "" ->
  unique "by_stripe_customer_id" (by_customer customer) (users d) = Ok (Some u) ->
  closes type = true ->
  let active := activePriceIds type (extractItems s) in
  exists d', applyStripeEvent now (subscriptionArgs id type s) d = Ok (tt, d')
    /\ prices_ok (entitlements d')
    /\ (forall p, p ∈ active ->
          exists i e, db_get (entitlements d') i = Some e /\ by_price (sb_id s) p e = true /\ n_status e = sb_status s)
    /\ (forall i e, db_get (entitlements d') i = Some e -> n_subscriptionId e = Some (sb_id s) ->
          (exists p, n_priceId e = Some p /\ p ∈ active /\ n_status e = sb_status s)
          \/ n_status e = "canceled" /\ n_endsAtMs e = Some now)
    /\ (forall i e, n_subscriptionId e <> Some (sb_id s) ->
          db_get (entitlements d') i = Some e <-> db_get (entitlements d) i = Some e).
Proof.
  intros Hprices Hnew <- Hcust Hsub Huser Hcloses active.
  set (a := subscriptionArgs id type s).
  assert (Hstart : items_done a (sb_id s) (entitlements d) [] (entitlements d)).
  { split; [done|set_solver|set_solver|done]. }
  destruct (items_all_done now a u.1 (sb_id s) (extractItems s) _ _ _ (extractItems_priced s) Hstart)
    as (t1 & Hfold & [H1 H2 H3 H4]).
  destruct (cancel_query now (sb_id s) active t1) as (t' & Hcancel & Hget).
  destruct (closing_event_runs now id type s d u t1 t' Hnew Hcust Hsub Huser Hcloses Hfold Hcancel)
    as (d' & Hrun & Hd').
  assert (Hactive : forall p, p ∈ active -> p ∈ rev (omap i_priceId (extractItems s)) ++ [] /\ nonempty p = true).
  { intros p [Hp Hne]%active_extracted. rewrite app_nil_r. split; [|done].
    by apply list_elem_of_In, in_rev; rewrite rev_involutive; apply list_elem_of_In. }
  exists d'. rewrite Hd'. split_and!; [exact Hrun| | | |].
  - intros sb p i j e f Hi Hj Hbe Hbf. rewrite Hget in Hi, Hj.
    apply fmap_Some in Hi as (e1 & He1 & ->), Hj as (f1 & Hf1 & ->).
    apply (H1 sb p i j e1 f1); [done..| |]; [destruct (_ && _) in Hbe|destruct (_ && _) in Hbf]; done.
  - intros p Hp. destruct (Hactive p Hp) as [Hin Hne]. destruct (H2 p Hin) as (i & e & He & Hb). exists i, e.
    assert (Hst : stale active e = false).
    { apply by_price_iff in Hb as [_ Hpr]. unfold stale. rewrite Hpr, (bool_decide_eq_true_2 _ Hp). cbn.
      unfold nonempty in Hne. by rewrite Hne. }
    rewrite Hget, He. cbn. rewrite Hst, andb_false_r. split_and!; [done|done|]. by rewrite (H3 i e p He Hb Hin).
  - intros i e' He' Hs'. rewrite Hget in He'. apply fmap_Some in He' as (e & He & ->).
    destruct (by_subscription (sb_id s) e && stale active e) eqn:Ec; [by right|].
    left. assert (Hb : by_subscription (sb_id s) e = true) by (by apply bool_decide_eq_true). rewrite Hb in Ec. cbn in Ec.
    unfold stale in Ec. destruct (n_priceId e) as [p|] eqn:Ep; [|done].
    apply orb_false_iff in Ec as [_ Hp%negb_false_iff%bool_decide_eq_true]. exists p. split_and!; [done|done|].
    apply (H3 i e p He); [by apply by_price_iff|by apply Hactive].
  - intros i e Hs. rewrite <- (H4 i e Hs), Hget, fmap_Some. split.
    + intros (e1 & He1 & ->). destruct (by_subscription (sb_id s) e1) eqn:Eb; cbn in *; [|done].
      apply bool_decide_eq_true in Eb. by destruct (stale active e1).
    + intros He. exists e. split; [done|]. unfold by_subscription. by rewrite bool_decide_eq_false_2.
Qed.

(** Reconciling is meant to repair what webhooks missed, but its event is
    named after the subscription, its status and the end of its period: a
    subscription whose prices changed since it was reconciled is not looked at
    again before one of these changes. *)
Theorem reconcile_skipped now now' s s' d d' :
  sb_id s' = sb_id s -> sb_status s' = sb_status s -> current_period_end s' = current_period_end s ->
  reconcileSubscription now d s = Ok d' -> reconcileSubscription now' d' s' = Ok d'.
Proof.
  intros Hid Hst Hend H. unfold reconcileSubscription in *.
  destruct (applyStripeEvent now _ d) as [[[] d1]|] eqn:E; [|done]. cbn in H. injection H as <-.
  rewrite (processed_again now now' (subscriptionArgs (reconcileEventId s) "reconcile" s)
    (subscriptionArgs (reconcileEventId s') "reconcile" s') d d1); [done| |done].
  cbn. unfold reconcileEventId, periodText. by rewrite Hid, Hst, Hend.
Qed.

(** An event delivered again, whatever it carries then, changes nothing. *)
Theorem event_applied_once now now' a a' d d' :
  eventId a' = eventId a -> applyStripeEvent now a d = Ok (tt, d') -> applyStripeEvent now' a' d' = Ok (tt, d').
Proof. apply processed_again. Qed.

(** ** What Stripe is asked for *)

(** A session that only names configured prices, their tier, and URLs of allowed
    origins. *)
Definition safeParams (c : BillingConfig) (p : CheckoutParams) : Prop :=
  stripeTierMap c !! cp_price p = Some (cp_tier p)
  /\ Forall (fun url => exists raw origin, parseUrl c raw = Some (origin, url) /\ origin ∈ billingOrigins c)
      [cp_successUrl p; cp_cancelUrl p].

Lemma ensureAllowedRedirect_safe parse origins value url :
  ensureAllowedRedirect parse origins value = Ok url ->
  exists raw origin, parse raw = Some (origin, url) /\ origin ∈ origins.
Proof.
  unfold ensureAllowedRedirect. destruct (parse value) as [[origin text]|] eqn:E; [|done].
  case_bool_decide; [|done]. intros [= <-]. by exists value, origin.
Qed.

(** The checkout asks Stripe for nothing else than sessions with a configured
    price at its tier that return to an allowed origin: two Stripes that agree on
    such sessions are the same to it, whatever a request contains. *)
Theorem checkout_safe c createCustomer (stripe stripe' : CheckoutParams -> result (option string)) session b d :
  (forall p, safeParams c p -> stripe p = stripe' p) ->
  billingCheckout c createCustomer stripe session b d = billingCheckout c createCustomer stripe' session b d.
Proof.
  intros Hagree. unfold billingCheckout. destruct session as [user|]; [|done]. split_if; [done|].
  destruct (checkCheckout _ _ _ _ _) as [[[tier success] cancel]|e] eqn:E; [|done].
  assert (Hsafe : forall customer, safeParams c {| cp_customer := customer; cp_price := default "" (cb_priceId b);
      cp_successUrl := success; cp_cancelUrl := cancel; cp_tier := tier;
      cp_allowPromotionCodes := cb_allowPromotionCodes b |}).
  { intros customer. unfold checkCheckout in E.
    destruct (resolveStripeTier _ _ _) as [t|] eqn:Et; cbn in E; [|done].
    destruct (ensureAllowedRedirect _ _ (default "" (cb_successUrl b))) as [u|] eqn:Eu; cbn in E; [|done].
    destruct (ensureAllowedRedirect _ _ (default "" (cb_cancelUrl b))) as [v|] eqn:Ev; cbn in E; [|done].
    injection E as <- <- <-. split; cbn.
    - unfold resolveStripeTier in Et. destruct (stripeTierMap c !! _) as [x|]; [|done].
      destruct (cb_tier b) as [y|]; [split_if; [done|]|]; by injection Et as <-.
    - repeat constructor; by eapply ensureAllowedRedirect_safe. }
  unfold createCheckoutSession. destruct (getUserById user d) as [u|]; [|done].
  destruct (if truthyS (stripeCustomerId u) then _ else _) as [[customer d']|e]; [|done].
  by rewrite (Hagree _ (Hsafe customer)).
Qed.

End Billing.

Definition toySub (prices : list string) : Subscription :=
  {| sb_id := "sub"; sb_customer := "cus"; sb_status := "active"; sb_tier := Some "gold";
     sb_items := (fun p => Some {| p_id := p; p_product := None; p_tier := None |}) <$> prices;
     current_period_start := 1; current_period_end := Some 2 |}.

(** A customer with an entitlement for another price of the subscription. *)
Definition toyDb : @Db list_convex :=
  with_entitlements [Some {| n_userId := 0%nat : @Id list_convex; n_tier := "silver"; n_status := "active"; n_source := "stripe";
      n_startsAtMs := 0; n_endsAtMs := None; n_subscriptionId := Some "sub"; n_priceId := Some "p0"; n_productId := None |}]
    (with_users [Some {| authProvider := "passkey"; authSubject := "k"; email := None; name := None; publicKey := Some "k";
                   stripeCustomerId := Some "cus" |}] emptyDb).

Lemma entitlements_follow_witness :
  exists d', applyStripeEvent 9 (subscriptionArgs "evt" "customer.subscription.updated" (toySub ["p1"; "p2"])) toyDb = Ok (tt, d')
    /\ n_status <$> db_get (entitlements d') (0%nat : @Id list_convex) = Some "canceled"
    /\ exists i e, db_get (entitlements d') i = Some e /\ by_price "sub" "p2" e = true /\ n_status e = "active".
Proof.
  destruct (entitlements_follow 9 "evt" "customer.subscription.updated" (toySub ["p1"; "p2"]) toyDb "cus"
    (0%nat : @Id list_convex, {| authProvider := "passkey"; authSubject := "k"; email := None; name := None;
       publicKey := Some "k"; stripeCustomerId := Some "cus" |})) as (d' & Happly & _ & Hthere & _);
    [|reflexivity|reflexivity|discriminate|discriminate|reflexivity|reflexivity|].
  - intros s p [|i] [|j] e f Hi Hj _ _; [reflexivity|destruct j; discriminate|destruct i; discriminate|destruct i; discriminate].
  - exists d'. split; [exact Happly|]. split; [|apply Hthere; vm_compute; right; left].
    vm_compute in Happly. injection Happly as <-. reflexivity.
Defined.

Lemma reconcile_skipped_witness :
  let d' := match reconcileSubscription 9 toyDb (toySub ["p1"]) with Ok d => d | Throw _ => toyDb end in
  length (entitlements d') = 2%nat /\ reconcileSubscription 10 d' (toySub ["p2"; "p3"]) = Ok d'.
Proof.
  split; [vm_compute; reflexivity|].
  eapply (reconcile_skipped 9 10 (toySub ["p1"]) (toySub ["p2"; "p3"]) toyDb); [reflexivity..|vm_compute; reflexivity].
Defined.

Lemma checkout_safe_witness :
  let c := {| stripeTierMap := {["p1" := "gold"]}; billingOrigins := ["https://app"];
              parseUrl s := Some (String.substring 0 11 s, s) |} in
  let ok (p : CheckoutParams) := Ok (Some ("https://stripe/" +:+ cp_price p)) in
  let picky (p : CheckoutParams) := if bool_decide (cp_tier p = "gold") then ok p else Throw "unexpected" in
  let body price := {| cb_priceId := Some price; cb_successUrl := Some "https://app/ok"; cb_cancelUrl := Some "https://app/no";
                       cb_tier := None; cb_allowPromotionCodes := false |} in
  let answer stripe price := (billingCheckout c (fun _ => Throw "") stripe (Some (0%nat : @Id list_convex)) (body price) toyDb).1 in
  answer picky "p1" = Url "https://stripe/p1" /\ answer picky "p9" = BillingFailed 400 "priceId not allowed"
  /\ answer ok "p1" = answer picky "p1".
Proof.
  split; [vm_compute; reflexivity|]. split; [vm_compute; reflexivity|].
  refine (f_equal fst (checkout_safe _ _ _ _ _ _ _ _)).
  intros p [Hp _]. cbn in Hp. apply lookup_singleton_Some in Hp as [_ Hp]. case_bool_decide; [done|congruence].
Defined.
