(* ===== verification/Freeroll.v ===== *)
(** * The tournament limits the auth service sets

    [services/auth/src/casinoAdmin.ts]: with the entitlements of a player the
    service sets the player's daily tournament limit on the chain, by a
    transaction of the administrator whose nonce it takes from a store in the
    database, or from its own memory when the store fails.  [enqueueAdmin] does
    one task after the other.  The answers of the chain and of the network are
    inputs; the WebAssembly module only passes the nonce, the player and the
    limit on.  How the private key is found is left out. *)

From Stdlib Require Import QArith.QArith_base.
From S2P Require Import Prelude Bytes Calendar Convex Accounts AuthUtils AccountsCorrect.

(** What a lookup of the state decodes to. *)
Inductive Lookup :=
| Account (nonce : option Z)
| CasinoPlayer (tournament_daily_limit : option Z)
| OtherState.

(** [None]: the node does not know the key. *)
Abbreviation Query := (result (option Lookup)).

Definition getAccountNonce (answer : Query) : result Z :=
  value ← answer;
  Ok match value with Some (Account nonce) => default 0 nonce | _ => 0 end.

(** The current limit of a player, if there is one. *)
Definition getPlayer (answer : Query) : result (option Z) :=
  value ← answer;
  Ok match value with Some (CasinoPlayer limit) => Some (default 0 limit) | _ => None end.

(** What becomes of a call of the store: it is served, it does not arrive, or its
    answer gets lost. *)
Inductive StoreCall := Served | Unreachable | AnswerLost.

Section Freeroll.
Context `{C : Convex}.

(** The memory of the process: [store] tells whether there is a store, whose
    documents are kept under the administrator's key. *)
Record AdminState := { store : bool; adminKey : string; localNonce : option Z }.

Definition with_local (n : option Z) (s : AdminState) : AdminState :=
  {| store := store s; adminKey := adminKey s; localNonce := n |}.

(** The answers met by one task: of the chain (the player, the account for the
    store and for the memory, the account after a failure), of the store, and of
    the submission. *)
Record Answers := {
  a_now : Z; a_player : Query; a_fallback : Query; a_account : Query; a_reserve : StoreCall;
  a_submit : result unit; a_chain : Query; a_reset : StoreCall
}.

(** The nonce from the memory. *)
Definition localReserve (a : Answers) (s : AdminState) (d : Db) : result Z * AdminState * Db :=
  match localNonce s with
  | Some nonce => (Ok nonce, with_local (Some (nonce + 1)) s, d)
  | None =>
      match getAccountNonce (a_account a) with
      | Ok nonce => (Ok nonce, with_local (Some (nonce + 1)) s, d)
      | Throw e => (Throw e, s, d)
      end
  end.

Definition reserveNonce (a : Answers) (s : AdminState) (d : Db) : result Z * AdminState * Db :=
  if store s then
    match getAccountNonce (a_fallback a) with
    | Throw e => (Throw e, s, d)
    | Ok fallbackNonce =>
        match a_reserve a, reserveAdminNonce (a_now a) (adminKey s) (Some fallbackNonce) d with
        | Served, Ok (nonce, d') => (Ok nonce, s, d')
        | AnswerLost, Ok (_, d') => localReserve a s d'
        | _, _ => localReserve a s d
        end
    end
  else localReserve a s d.

(** The memory is cleared first; an error of the rest is only logged. *)
Definition resetNonceStore (a : Answers) (s : AdminState) (d : Db) : AdminState * Db :=
  let s := with_local None s in
  if store s then
    match getAccountNonce (a_chain a), a_reset a with
    | Ok chainNonce, (Served | AnswerLost) =>
        match resetAdminNonce (a_now a) (adminKey s) (Some chainNonce) d with
        | Ok (_, d') => (s, d')
        | Throw _ => (s, d)
        end
    | _, _ => (s, d)
    end
  else (s, d).

(** The limits of the configuration. *)
Record FreerollConfig := { freeLimit : option Q; memberLimit : option Q; memberTiers : string }.

Definition desiredLimit (c : FreerollConfig) (entitlements : list (option string * option string)) : Z :=
  if hasActiveEntitlement entitlements (getMemberTiers (memberTiers c))
  then parseLimit (memberLimit c) 10 else parseLimit (freeLimit c) 1.

Inductive SyncStatus := InvalidPublicKey | PlayerNotFound | AlreadySet (limit : Z) | Submitted (limit : Z).

(** A transaction that was handed to the node: its nonce, the player and the
    limit. *)
Abbreviation LimitTx := (Z * Uint8Array * Z)%type.

(** The task in the queue. *)
Definition setLimit (player : Uint8Array) (desired : Z) (a : Answers) (s : AdminState) (d : Db)
    : result SyncStatus * option LimitTx * AdminState * Db :=
  match getPlayer (a_player a) with
  | Throw e => (Throw e, None, s, d)
  | Ok None => (Ok PlayerNotFound, None, s, d)
  | Ok (Some currentLimit) =>
      if currentLimit =? desired then (Ok (AlreadySet desired), None, s, d)
      else
        let '(nonce, s, d) := reserveNonce a s d in
        match nonce with
        | Throw e => let '(s, d) := resetNonceStore a s d in (Throw e, None, s, d)
        | Ok nonce =>
            match a_submit a with
            | Ok _ => (Ok (Submitted desired), Some (nonce, player, desired), s, d)
            | Throw e => let '(s, d) := resetNonceStore a s d in (Throw e, Some (nonce, player, desired), s, d)
            end
        end
  end.

Definition syncFreerollLimit (c : FreerollConfig) (publicKeyHex : string)
    (entitlements : list (option string * option string)) (a : Answers) (s : AdminState) (d : Db)
    : result SyncStatus * option LimitTx * AdminState * Db :=
  let normalizedKey := normalizeHex publicKeyHex in
  if negb (String.length normalizedKey =? 64)%nat then (Ok InvalidPublicKey, None, s, d)
  else setLimit (hexToBytes normalizedKey) (desiredLimit c entitlements) a s d.

(** The tasks of a process, one after the other: the transactions it submits. *)
Fixpoint runQueue (tasks : list (Uint8Array * Z * Answers)) (s : AdminState) (d : Db) : list LimitTx * AdminState * Db :=
  match tasks with
  | [] => ([], s, d)
  | (player, desired, a) :: tasks' =>
      let '(_, tx, s', d') := setLimit player desired a s d in
      let '(txs, s'', d'') := runQueue tasks' s' d' in
      (option_list tx ++ txs, s'', d'')
  end.

(** ** Theorems *)

Context {L : ConvexLaws C}.

(** A task that sets a limit: the player is found with another one. *)
Definition changes (desired : Z) (a : Answers) : Prop := exists limit, getPlayer (a_player a) = Ok (Some limit) /\ limit <> desired.

(** The next nonce of the store. *)
Definition storedNonce (key : string) (d : Db) (n : Z) : Prop :=
  exists i doc, unique "by_admin_public_key" (by_admin key) (adminNonces d) = Ok (Some (i, doc)) /\ nextNonce doc = n /\ 0 <= n.

Lemma reserve_next now key fallback d n :
  storedNonce key d n ->
  exists d', reserveAdminNonce now key fallback d = Ok (n, d') /\ storedNonce key d' (n + 1).
Proof.
  intros (i & doc & Hu & Hn & Hge). unfold reserveAdminNonce. rewrite Hu. cbn -[patch normalizeNonce].
  apply unique_some in Hu as (Hi & Hby & Honly).
  replace (normalizeNonce (Some (nextNonce doc))) with n by (unfold normalizeNonce; lia).
  destruct (patch_existing i (with_nonce now (n + 1)) (adminNonces d) doc Hi) as (t & -> & Ht).
  exists (with_adminNonces t d). split; [done|]. exists i, (with_nonce now (n + 1) doc). split_and!; [|done|lia].
  apply unique_some. cbn. split_and!; [by rewrite Ht, decide_True|done|].
  intros j e. rewrite Ht. case_decide; [by subst|]. apply Honly.
Qed.

(** A task all of whose calls succeed. *)
Definition succeeds (desired : Z) (a : Answers) : Prop :=
  changes desired a /\ is_ok (getAccountNonce (a_fallback a)) = true /\ a_reserve a = Served /\ a_submit a = Ok tt.

Lemma setLimit_next player desired a s d n :
  store s = true -> succeeds desired a -> storedNonce (adminKey s) d n ->
  exists d', setLimit player desired a s d = (Ok (Submitted desired), Some (n, player, desired), s, d')
    /\ storedNonce (adminKey s) d' (n + 1).
Proof.
  intros Hstore ((limit & Hp & Hne) & Hf & Hr & Hs) Hn. unfold setLimit. rewrite Hp.
  rewrite (proj2 (Z.eqb_neq limit desired) Hne). unfold reserveNonce. rewrite Hstore.
  destruct (getAccountNonce (a_fallback a)) as [f|]; [|done]. rewrite Hr.
  destruct (reserve_next (a_now a) (adminKey s) (Some f) d n Hn) as (d' & -> & Hn'). rewrite Hs. by exists d'.
Qed.

(** As long as nothing fails, the transactions of the queue have the nonces that
    follow the stored one, without a gap, for the players and limits in their
    order; the account's own nonce, which the task asks for, does not matter. *)
Theorem nonces_consecutive tasks s d n :
  store s = true -> storedNonce (adminKey s) d n ->
  Forall (fun t : Uint8Array * Z * Answers => succeeds t.1.2 t.2) tasks ->
  exists d', runQueue tasks s d
    = (zip_with (fun k (t : Uint8Array * Z * Answers) => (k, t.1.1, t.1.2)) (seqZ n (len tasks)) tasks, s, d')
    /\ storedNonce (adminKey s) d' (n + len tasks).
Proof.
  intros Hs. revert d n. induction tasks as [|[[player desired] a] tasks IH]; intros d n Hn Hall.
  - exists d. split; [done|]. change (len _) with 0. by rewrite Z.add_0_r.
  - apply Forall_cons in Hall as [Ha Hall]. cbn [fst snd] in Ha.
    destruct (setLimit_next player desired a s d n Hs Ha Hn) as (d1 & H1 & Hn1).
    destruct (IH d1 (n + 1) Hn1 Hall) as (d2 & H2 & Hn2). exists d2. cbn [runQueue]. rewrite H1, H2.
    rewrite len_cons. split; [|by replace (n + (1 + len tasks)) with (n + 1 + len tasks) by lia].
    pose proof (len_nonneg tasks). rewrite (seqZ_cons n) by lia. cbn.
    by replace (Z.pred (1 + len tasks)) with (len tasks) by lia.
Qed.

(** Falling back a second time reuses a nonce: the memory keeps the number from the
    first time, whatever the store has given out in between. *)
Theorem fallback_reuses_nonce player desired s d n a1 a2 a3 :
  store s = true -> localNonce s = None -> 0 <= n ->
  unique "by_admin_public_key" (by_admin (adminKey s)) (adminNonces d) = Ok None ->
  Forall (fun a => changes desired a /\ a_submit a = Ok tt /\ is_ok (getAccountNonce (a_fallback a)) = true) [a1; a2; a3] ->
  a_reserve a1 = Unreachable -> a_reserve a2 = Served -> a_reserve a3 = Unreachable ->
  getAccountNonce (a_account a1) = Ok n -> getAccountNonce (a_fallback a2) = Ok (n + 1) ->
  (runQueue [(player, desired, a1); (player, desired, a2); (player, desired, a3)] s d).1.1
  = [(n, player, desired); (n + 1, player, desired); (n + 1, player, desired)].
Proof.
  intros Hs Hl Hn Hnone Hall R1 R2 R3 A1 F2.
  apply Forall_cons in Hall as [(C1 & S1 & F1) Hall]. apply Forall_cons in Hall as [(C2 & S2 & _) Hall].
  apply Forall_cons in Hall as [(C3 & S3 & F3) _].
  assert (H1 : setLimit player desired a1 s d
    = (Ok (Submitted desired), Some (n, player, desired), with_local (Some (n + 1)) s, d)).
  { destruct C1 as (limit & Hp & Hne). unfold setLimit. rewrite Hp, (proj2 (Z.eqb_neq _ _) Hne).
    unfold reserveNonce. rewrite Hs. destruct (getAccountNonce (a_fallback a1)); [|done]. rewrite R1.
    unfold localReserve. rewrite Hl, A1. by rewrite S1. }
  assert (H2 : exists d', setLimit player desired a2 (with_local (Some (n + 1)) s) d
    = (Ok (Submitted desired), Some (n + 1, player, desired), with_local (Some (n + 1)) s, d')).
  { destruct C2 as (limit & Hp & Hne). unfold setLimit. rewrite Hp, (proj2 (Z.eqb_neq _ _) Hne).
    unfold reserveNonce. cbn [store with_local]. rewrite Hs, F2, R2. unfold reserveAdminNonce.
    cbn -[unique insertInto normalizeNonce]. rewrite Hnone. cbn -[insertInto normalizeNonce]. rewrite S2.
    replace (normalizeNonce (Some (n + 1))) with (n + 1) by (unfold normalizeNonce; lia). by eexists. }
  destruct H2 as [d2 H2].
  assert (H3 : exists s' d', setLimit player desired a3 (with_local (Some (n + 1)) s) d2
    = (Ok (Submitted desired), Some (n + 1, player, desired), s', d')).
  { destruct C3 as (limit & Hp & Hne). unfold setLimit. rewrite Hp, (proj2 (Z.eqb_neq _ _) Hne).
    unfold reserveNonce. cbn [store with_local]. rewrite Hs.
    destruct (getAccountNonce (a_fallback a3)); [|done]. rewrite R3. unfold localReserve. cbn [localNonce with_local].
    rewrite S3. by eexists _, _. }
  destruct H3 as (s3 & d3 & H3). cbn [runQueue]. by rewrite H1, H2, H3.
Qed.

(** Every limit that is set fits the chain's byte. *)
Lemma desiredLimit_byte c entitlements : 0 <= desiredLimit c entitlements <= 255.
Proof.
  assert (H : forall v f, 0 <= f <= 255 -> 0 <= parseLimit v f <= 255).
  { intros [q|] f Hf; cbn [parseLimit]; [|done]. destruct (Qle_bool q 0) eqn:E; [done|].
    assert (Hq : (0 <= q)%Q).
    { apply Qnot_lt_le. intros Hlt. apply not_true_iff_false in E. apply E. apply Qle_bool_iff. by apply Qlt_le_weak. }
    pose proof (Qround.Qfloor_resp_le _ _ Hq) as Hfl. change (Qround.Qfloor 0) with 0 in Hfl. lia. }
  unfold desiredLimit. destruct (hasActiveEntitlement _ _); apply H; lia.
Qed.

End Freeroll.

Definition toyAnswers (limit nonce : Z) (reserve : StoreCall) : Answers :=
  {| a_now := 0; a_player := Ok (Some (CasinoPlayer (Some limit))); a_fallback := Ok (Some (Account (Some nonce)));
     a_account := Ok (Some (Account (Some nonce))); a_reserve := reserve; a_submit := Ok tt;
     a_chain := Ok None; a_reset := Served |}.

Definition toyAdmin : AdminState := {| store := true; adminKey := "k"; localNonce := None |}.

Lemma nonces_consecutive_witness :
  let d := with_adminNonces [Some {| adminPublicKey := "k"; nextNonce := 5; an_updatedAtMs := 0 |}] (@emptyDb list_convex) in
  let tasks := [([Byte.x01], 10, toyAnswers 1 3 Served); ([Byte.x02], 1, toyAnswers 10 3 Served)] in
  exists d', runQueue tasks toyAdmin d = ([(5, [Byte.x01], 10); (6, [Byte.x02], 1)], toyAdmin, d')
    /\ storedNonce "k" d' 7.
Proof.
  apply (nonces_consecutive (C := list_convex)
    [([Byte.x01], 10, toyAnswers 1 3 Served); ([Byte.x02], 1, toyAnswers 10 3 Served)] toyAdmin _ 5); [done| |].
  - exists 0%nat, {| adminPublicKey := "k"; nextNonce := 5; an_updatedAtMs := 0 |}. split_and!; [reflexivity|done|lia].
  - repeat constructor; cbn; [by exists 1|by exists 10].
Defined.

Lemma fallback_reuses_nonce_witness :
  (runQueue [([Byte.x01], 10, toyAnswers 1 7 Unreachable); ([Byte.x01], 10, toyAnswers 1 8 Served);
             ([Byte.x01], 10, toyAnswers 1 9 Unreachable)] toyAdmin (@emptyDb list_convex)).1.1
  = [(7, [Byte.x01], 10); (7 + 1, [Byte.x01], 10); (7 + 1, [Byte.x01], 10)].
Proof.
  apply fallback_reuses_nonce; try reflexivity; [lia|]. repeat constructor; cbn; by exists 1.
Defined.
