(* ===== verification/Json.v ===== *)
(** * JSON texts

    [JSON.parse] of the language: the values it gives, the parser, and a writer
    of the compact texts that the Rust code formats by hand.

    A whole number is rounded to the nearest double; one with a fraction or an
    exponent is exact, also where a double would round it.  An escaped surrogate without its partner is written in the three
    bytes its number would have.  Of equal keys of an object the last counts.

    The parser has fuel for its recursion.  [parse_enough] shows that the length
    of the text is as good as any more, and [parse_render] that a text the writer
    makes is read back. *)

From Stdlib Require Import QArith.QArith_base QArith.Qreduction.
From stdpp Require Import pretty.
From S2P Require Import Prelude JsNum Calendar AuthUtils.

#[local] Open Scope Z_scope.

Inductive Json :=
| JNull
| JBool (b : bool)
| JNumber (q : Q)
| JString (s : string)
| JArray (l : list Json)
| JObject (fields : list (string * Json)).

(** Of equal keys of the text the last one counts. *)
Definition field (k : string) (fields : list (string * Json)) : option Json :=
  snd <$> last (List.filter (fun kv => bool_decide (kv.1 = k)) fields).

Module Text.

(** ** Tokens *)

Definition code (c : Ascii.ascii) : Z := Z.of_nat (Ascii.nat_of_ascii c).
Definition char (n : Z) : Ascii.ascii := Ascii.ascii_of_nat (Z.to_nat n).

Definition quote : Ascii.ascii := char 34.
Definition backslash : Ascii.ascii := char 92.

Definition is_blank (c : Ascii.ascii) : bool := existsb (Z.eqb (code c)) [32; 9; 10; 13].

Fixpoint blanks (s : string) : string :=
  match s with
  | String c s' => if is_blank c then blanks s' else s
  | EmptyString => s
  end.

Definition digit (c : Ascii.ascii) : option Z :=
  if (48 <=? code c) && (code c <=? 57) then Some (code c - 48) else None.

(** The digits at the front, with their number and value. *)
Fixpoint digits (count acc : Z) (s : string) : Z * Z * string :=
  match s with
  | String c s' => match digit c with Some d => digits (count + 1) (10 * acc + d) s' | None => (count, acc, s) end
  | EmptyString => (count, acc, s)
  end.

Definition hexDigit (c : Ascii.ascii) : option Z :=
  let n := code c in
  if (48 <=? n) && (n <=? 57) then Some (n - 48)
  else if (97 <=? n) && (n <=? 102) then Some (n - 87)
  else if (65 <=? n) && (n <=? 70) then Some (n - 55) else None.

Definition hex4 (a b c d : Ascii.ascii) : option Z :=
  x ← hexDigit a; y ← hexDigit b; z ← hexDigit c; w ← hexDigit d;
  Some (4096 * x + 256 * y + 16 * z + w).

(** The bytes of a code point. *)
Definition utf8_of (n : Z) : string :=
  let tail k := char (128 + (n / 2 ^ k) mod 64) in
  if n <? 128 then String (char n) ""
  else if n <? 2048 then String (char (192 + n / 64)) (String (tail 0) "")
  else if n <? 65536 then String (char (224 + n / 4096)) (String (tail 6) (String (tail 0) ""))
  else String (char (240 + n / 262144)) (String (tail 12) (String (tail 6) (String (tail 0) ""))).

Definition escape (c : Ascii.ascii) : option Ascii.ascii :=
  let n := code c in
  if existsb (Z.eqb n) [34; 92; 47] then Some c
  else if n =? 98 then Some (char 8) else if n =? 102 then Some (char 12)
  else if n =? 110 then Some (char 10) else if n =? 114 then Some (char 13)
  else if n =? 116 then Some (char 9) else None.

Definition high_surrogate (n : Z) : bool := (55296 <=? n) && (n <? 56320).
Definition low_surrogate (n : Z) : bool := (56320 <=? n) && (n <? 57344).

Definition is_u (c : Ascii.ascii) : bool := code c =? 117.

(** The characters of a text up to its closing quote. *)
Fixpoint chars (s : string) : option (string * string) :=
  match s with
  | EmptyString => None
  | String c s1 =>
      if Ascii.eqb c quote then Some (EmptyString, s1)
      else if code c <? 32 then None
      else if Ascii.eqb c backslash then
        match s1 with
        | EmptyString => None
        | String e s2 =>
            if is_u e then
              match s2 with
              | String a (String b (String c' (String d s3))) =>
                  n ← hex4 a b c' d;
                  match s3 with
                  | String bs (String u (String a' (String b' (String c2 (String d' s4))))) =>
                      match (if Ascii.eqb bs backslash && is_u u && high_surrogate n then hex4 a' b' c2 d' else None) with
                      | Some m =>
                          if low_surrogate m
                          then '(t, r) ← chars s4;
                               Some (utf8_of (65536 + 1024 * (n - 55296) + (m - 56320)) +:+ t, r)
                          else '(t, r) ← chars s3; Some (utf8_of n +:+ t, r)
                      | None => '(t, r) ← chars s3; Some (utf8_of n +:+ t, r)
                      end
                  | _ => '(t, r) ← chars s3; Some (utf8_of n +:+ t, r)
                  end
              | _ => None
              end
            else x ← escape e; '(t, r) ← chars s2; Some (String x t, r)
        end
      else '(t, r) ← chars s1; Some (String c t, r)
  end.

(** ** Numbers *)

Definition power10 (e : Z) : Q := if 0 <=? e then inject_Z (10 ^ e) else Qinv (inject_Z (10 ^ (- e))).

Definition is_char (n : Z) (c : Ascii.ascii) : bool := code c =? n.

(** The fraction after a point: at least one digit. *)
Definition fraction (whole : Z) (s : string) : option (Z * Z * string) :=
  match s with
  | String c s' =>
      if is_char 46 c
      then let '(n, v, r) := digits 0 whole s' in if n =? 0 then None else Some (v, n, r)
      else Some (whole, 0, s)
  | EmptyString => Some (whole, 0, s)
  end.

Definition exponent (s : string) : option (Z * string) :=
  match s with
  | String c s' =>
      if is_char 101 c || is_char 69 c then
        let '(sign, s'') := match s' with
                            | String d t => if is_char 45 d then (-1, t) else if is_char 43 d then (1, t) else (1, s')
                            | EmptyString => (1, s')
                            end in
        let '(n, v, r) := digits 0 0 s'' in if n =? 0 then None else Some (sign * v, r)
      else Some (0, s)
  | EmptyString => Some (0, s)
  end.

(** A number without its sign; no zero before another digit. *)
Definition unsigned (s : string) : option (Q * string) :=
  let '(n, v, r) := digits 0 0 s in
  if n =? 0 then None
  else if (1 <? n) && match s with String c _ => is_char 48 c | EmptyString => false end then None
  else
    '(m, scale, r) ← fraction v r;
    '(e, r) ← exponent r;
    Some (if (scale =? 0) && (e =? 0) then inject_Z (to_number m) else Qred (inject_Z m * power10 (e - scale))%Q, r).

Definition number (s : string) : option (Q * string) :=
  match s with
  | String c s' => if is_char 45 c then '(q, r) ← unsigned s'; Some (Qopp q, r) else unsigned s
  | EmptyString => None
  end.

(** ** Values *)

(** The rest of the text after a word. *)
Fixpoint word (w s : string) : option string :=
  match w, s with
  | EmptyString, _ => Some s
  | String c w', String d s' => if Ascii.eqb c d then word w' s' else None
  | _, _ => None
  end.

Definition expect (n : Z) (s : string) : option string :=
  match blanks s with String c r => if is_char n c then Some r else None | EmptyString => None end.

(** [elements] and [members] read on after the first item. *)
Fixpoint value (fuel : nat) (s : string) : option (Json * string) :=
  match fuel with
  | O => None
  | S f =>
      match blanks s with
      | EmptyString => None
      | String c r =>
          if is_char 123 c then
            match expect 125 r with
            | Some r => Some (JObject [], r)
            | None => '(m, r) ← member f r; '(l, r) ← members f r; Some (JObject (m :: l), r)
            end
          else if is_char 91 c then
            match expect 93 r with
            | Some r => Some (JArray [], r)
            | None => '(v, r) ← value f r; '(l, r) ← elements f r; Some (JArray (v :: l), r)
            end
          else if Ascii.eqb c quote then '(t, r) ← chars r; Some (JString t, r)
          else if is_char 110 c then r ← word "ull" r; Some (JNull, r)
          else if is_char 116 c then r ← word "rue" r; Some (JBool true, r)
          else if is_char 102 c then r ← word "alse" r; Some (JBool false, r)
          else '(q, r) ← number (String c r); Some (JNumber q, r)
      end
  end
with elements (fuel : nat) (s : string) : option (list Json * string) :=
  match fuel with
  | O => None
  | S f =>
      match expect 93 s with
      | Some r => Some ([], r)
      | None => r ← expect 44 s; '(v, r) ← value f r; '(l, r) ← elements f r; Some (v :: l, r)
      end
  end
with member (fuel : nat) (s : string) : option (string * Json * string) :=
  match fuel with
  | O => None
  | S f =>
      r ← expect 34 s; '(k, r) ← chars r; r ← expect 58 r; '(v, r) ← value f r; Some ((k, v), r)
  end
with members (fuel : nat) (s : string) : option (list (string * Json) * string) :=
  match fuel with
  | O => None
  | S f =>
      match expect 125 s with
      | Some r => Some ([], r)
      | None => r ← expect 44 s; '(m, r) ← member f r; '(l, r) ← members f r; Some (m :: l, r)
      end
  end.

Definition fuelFor (s : string) : nat := S (String.length s).

(** [JSON.parse]; [None] where it throws. *)
Definition JSON_parse (s : string) : option Json :=
  '(v, r) ← value (fuelFor s) s;
  match blanks r with EmptyString => Some v | _ => None end.

Example parse_text :
  JSON_parse (" {" +:+ String quote "a" +:+ String quote " : [1, -2.50e1, true] } ")
  = Some (JObject [("a", JArray [JNumber 1; JNumber (-25); JBool true])]).
Proof. reflexivity. Qed.

(** ** The fuel is enough *)

(** A reader of texts leaves less than it got. *)
Definition shorter {A} (p : string -> option (A * string)) : Prop :=
  forall s a r, p s = Some (a, r) -> (String.length r < String.length s)%nat.

Lemma blanks_length s : (String.length (blanks s) <= String.length s)%nat.
Proof. induction s as [|c s IH]; cbn; [done|]. case_match; cbn; lia. Qed.

Lemma expect_length n s r : expect n s = Some r -> (String.length r < String.length s)%nat.
Proof.
  unfold expect. pose proof (blanks_length s). destruct (blanks s) as [|c t]; [done|]. case_match; [|done].
  intros [= ->]. cbn in *. lia.
Qed.

Lemma word_length w s r : word w s = Some r -> (String.length r <= String.length s)%nat.
Proof.
  revert s. induction w as [|c w IH]; intros [|d s]; cbn; try by intros [= <-]. case_match; [|done]. intros Hr%IH. lia.
Qed.

Lemma digits_length n v s : (String.length (digits n v s).2 <= String.length s)%nat.
Proof. revert n v. induction s as [|c s IH]; intros n v; cbn; [done|]. case_match; [|done]. specialize (IH (n + 1) (10 * v + z)). lia. Qed.

Lemma digits_shorter n v s : (digits n v s).1.1 <> n -> (String.length (digits n v s).2 < String.length s)%nat.
Proof.
  destruct s as [|c s]; cbn; [done|]. case_match; [|done]. intros _. pose proof (digits_length (n + 1) (10 * v + z) s). lia.
Qed.

Lemma chars_bind u (g : string -> string) a r :
  ('(t, r) ← chars u; Some (g t, r)) = Some (a, r) -> exists t, chars u = Some (t, r).
Proof. destruct (chars u) as [[t v]|]; [|done]. intros [= _ <-]. by exists t. Qed.

Lemma chars_shorter : shorter chars.
Proof.
  intros s. induction (well_founded_ltof _ String.length s) as [s _ IH]. unfold ltof in IH. intros a r.
  assert (G : forall u g, (String.length u < String.length s)%nat ->
    ('(t, r) ← chars u; Some (g t, r)) = Some (a, r) -> (String.length r < String.length s)%nat).
  { intros u g Hu H. apply chars_bind in H as [t E]. apply IH in E; lia. }
  destruct s as [|c s]; [done|]. cbn [chars]. case_match; [intros [= _ <-]; cbn; lia|]. case_match; [done|].
  case_match; [|apply (G s (String c)); cbn; lia]. destruct s as [|e s]; [done|].
  case_match; [|destruct (escape e) as [x|]; [|done]; apply (G s (String x)); cbn; lia].
  destruct s as [|c1 [|c2 [|c3 [|c4 s]]]]; try done. destruct (hex4 c1 c2 c3 c4) as [n|]; [|done]. cbn [mbind option_bind].
  assert (G0 : forall u g, (String.length u <= String.length s)%nat ->
    ('(t, r) ← chars u; Some (g t, r)) = Some (a, r) -> (String.length r < String.length
      (String c (String e (String c1 (String c2 (String c3 (String c4 s)))))))%nat) by (intros u g Hu; apply G; cbn; lia).
  clear G IH. destruct s as [|d1 [|d2 [|d3 [|d4 [|d5 [|d6 s]]]]]]; try (apply (G0 _ (fun t => utf8_of n +:+ t)); done).
  match goal with |- context [if ?b then hex4 ?a1 ?a2 ?a3 ?a4 else None] => destruct (if b then hex4 a1 a2 a3 a4 else None) as [m|] end; [case_match|].
  - apply (G0 _ (fun t => utf8_of (65536 + 1024 * (n - 55296) + (m - 56320)) +:+ t)). cbn. lia.
  - apply (G0 _ (fun t => utf8_of n +:+ t)). done.
  - apply (G0 _ (fun t => utf8_of n +:+ t)). done.
Qed.

Lemma fraction_length v s m n r : fraction v s = Some (m, n, r) -> (String.length r <= String.length s)%nat.
Proof.
  unfold fraction. destruct s as [|c s]; [by intros [= <- <- <-]|]. case_match; [|by intros [= <- <- <-]].
  pose proof (digits_length 0 v s) as Hl. destruct (digits 0 v s) as [[n' v'] r']. case_match; [done|].
  intros [= <- <- <-]. cbn in *. lia.
Qed.

Lemma exponent_length s e r : exponent s = Some (e, r) -> (String.length r <= String.length s)%nat.
Proof.
  unfold exponent. destruct s as [|c s]; [by intros [= <- <-]|]. case_match; [|by intros [= <- <-]].
  set (p := match s with String _ _ => _ | EmptyString => _ end). destruct p as [sign t] eqn:Ep.
  assert (Ht : (String.length t <= String.length s)%nat).
  { unfold p in Ep. destruct s as [|d s]; [by injection Ep as _ <-|]. repeat case_match; injection Ep as _ <-; cbn; lia. }
  pose proof (digits_length 0 0 t) as Hl. destruct (digits 0 0 t) as [[n' v'] r']. case_match; [done|].
  intros [= <- <-]. cbn in *. lia.
Qed.

Lemma unsigned_shorter : shorter unsigned.
Proof.
  intros s a r. unfold unsigned. pose proof (digits_shorter 0 0 s) as Hd. destruct (digits 0 0 s) as [[n v] t]. cbn in Hd.
  destruct (n =? 0) eqn:En; [done|]. case_match; [done|].
  destruct (fraction v t) as [[[m k] u]|] eqn:Ef; [|done]. cbn. destruct (exponent u) as [[e w]|] eqn:Ee; [|done]. cbn.
  intros [= _ <-]. apply fraction_length in Ef. apply exponent_length in Ee. apply Z.eqb_neq in En. specialize (Hd En). lia.
Qed.

Lemma number_shorter : shorter number.
Proof.
  intros [|c s] a r; [done|]. unfold number. case_match; [|apply unsigned_shorter].
  destruct (unsigned s) as [[q t]|] eqn:E; [|done]. cbn. intros [= _ <-]. apply unsigned_shorter in E. cbn. lia.
Qed.

Ltac shorten IHv IHe IHm IHs :=
  repeat match goal with
  | E : expect _ _ = Some _ |- _ => apply expect_length in E
  | E : value _ _ = Some _ |- _ => apply IHv in E
  | E : elements _ _ = Some _ |- _ => apply IHe in E
  | E : member _ _ = Some _ |- _ => apply IHm in E
  | E : members _ _ = Some _ |- _ => apply IHs in E
  | E : chars _ = Some _ |- _ => apply chars_shorter in E
  | E : word _ _ = Some _ |- _ => apply word_length in E
  | E : unsigned _ = Some _ |- _ => apply unsigned_shorter in E
  end; cbn in *; lia.

Lemma readers_shorter f :
  shorter (value f) /\ shorter (elements f) /\ shorter (member f) /\ shorter (members f).
Proof.
  induction f as [|f (IHv & IHe & IHm & IHs)]; [by split_and!; intros ???|].
  split_and!; intros s a r H; cbn in H; unfold mbind, option_bind in H.
  1: pose proof (blanks_length s); destruct (blanks s) as [|c t]; [done|].
  all: cbn in *; repeat (case_match; simplify_eq/=; try done); shorten IHv IHe IHm IHs.
Qed.

Lemma value_shorter f : shorter (value f).
Proof. apply readers_shorter. Qed.
Lemma member_shorter f : shorter (member f).
Proof. apply readers_shorter. Qed.

(** Fuel beyond the length of the text does not matter. *)
Definition steady {A} (p : nat -> string -> option (A * string)) (f : nat) : Prop :=
  forall g s, (String.length s < f)%nat -> (String.length s < g)%nat -> p f s = p g s.

Lemma readers_steady f : steady value f /\ steady elements f /\ steady member f /\ steady members f.
Proof.
  induction f as [|f (IHv & IHe & IHm & IHs)]; [by split_and!; intros ? ? ?; lia|].
  split_and!; intros [|g] s Hf Hg; try lia; cbn.
  - pose proof (blanks_length s). destruct (blanks s) as [|c t]; [done|]. cbn in *.
    destruct (is_char 123 c).
    { destruct (expect 125 t); [done|]. rewrite (IHm g) by lia. destruct (member g t) as [[m r]|] eqn:E; [|done]. cbn.
      apply member_shorter in E. by rewrite (IHs g) by lia. }
    destruct (is_char 91 c); [|done].
    destruct (expect 93 t); [done|]. rewrite (IHv g) by lia. destruct (value g t) as [[v r]|] eqn:E; [|done]. cbn.
    apply value_shorter in E. by rewrite (IHe g) by lia.
  - destruct (expect 93 s); [done|]. destruct (expect 44 s) as [r|] eqn:E; [|done]. cbn. apply expect_length in E.
    rewrite (IHv g) by lia. destruct (value g r) as [[v t]|] eqn:E'; [|done]. cbn. apply value_shorter in E'. by rewrite (IHe g) by lia.
  - destruct (expect 34 s) as [r|] eqn:E; [|done]. cbn. apply expect_length in E.
    destruct (chars r) as [[k t]|] eqn:Ek; [|done]. cbn. apply chars_shorter in Ek.
    destruct (expect 58 t) as [u|] eqn:Eu; [|done]. cbn. apply expect_length in Eu. by rewrite (IHv g) by lia.
  - destruct (expect 125 s); [done|]. destruct (expect 44 s) as [r|] eqn:E; [|done]. cbn. apply expect_length in E.
    rewrite (IHm g) by lia. destruct (member g r) as [[v t]|] eqn:E'; [|done]. cbn. apply member_shorter in E'. by rewrite (IHs g) by lia.
Qed.

(** More fuel than the length of the text gives the same value. *)
Theorem parse_enough s f : (String.length s < f)%nat -> value f s = value (fuelFor s) s.
Proof. intros Hf. unfold fuelFor. apply readers_steady; lia. Qed.

(** ** The writer *)

Definition quoted (s : string) : string := String quote (s +:+ String quote "").

(** The compact text; numbers are whole. *)
Fixpoint render (j : Json) : string :=
  match j with
  | JNull => "null"
  | JBool b => if b then "true" else "false"
  | JNumber q => pretty (Qnum q)
  | JString s => quoted s
  | JArray [] => "[]"
  | JArray (v :: l) => "[" +:+ render v +:+ foldr (fun v s => "," +:+ render v +:+ s) "]" l
  | JObject [] => "{}"
  | JObject ((k, v) :: l) =>
      "{" +:+ quoted k +:+ ":" +:+ render v
      +:+ foldr (fun m s => "," +:+ quoted m.1 +:+ ":" +:+ render m.2 +:+ s) "}" l
  end.

(** Texts without quotes, backslashes and control characters; whole numbers. *)
Definition plainChar (c : Ascii.ascii) : bool := negb (Ascii.eqb c quote || (code c <? 32) || Ascii.eqb c backslash).
Definition plainText : string -> bool := everyChar plainChar.

Fixpoint plain (j : Json) : bool :=
  match j with
  | JNumber q => bool_decide (Qden q = 1%positive /\ to_number (Qnum q) = Qnum q)
  | JString s => plainText s
  | JArray l => forallb plain l
  | JObject l => forallb (fun m => plainText m.1 && plain m.2) l
  | _ => true
  end.

Lemma Json_nested (P : Json -> Prop) :
  P JNull -> (forall b, P (JBool b)) -> (forall q, P (JNumber q)) -> (forall s, P (JString s)) ->
  (forall l, Forall P l -> P (JArray l)) -> (forall l, Forall (fun m => P m.2) l -> P (JObject l)) ->
  forall j, P j.
Proof.
  intros H1 H2 H3 H4 H5 H6. fix IH 1. intros [|b|q|s|l|l]; [done..| |].
  - apply H5. induction l as [|v l Hl]; constructor; [apply IH|apply Hl].
  - apply H6. induction l as [|[k v] l Hl]; constructor; [apply IH|apply Hl].
Qed.

(** What follows a number in a compact text: not one of its characters. *)
Definition ends (s : string) : bool :=
  match s with
  | String c _ => negb (bool_decide (is_Some (digit c)) || existsb (Z.eqb (code c)) [46; 101; 69])
  | EmptyString => true
  end.

Lemma string_app_assoc (a b c : string) : (a +:+ b) +:+ c = a +:+ (b +:+ c).
Proof. induction a as [|x a IH]; [done|]. exact (f_equal (String x) IH). Qed.

Lemma string_app_nil (a : string) : a +:+ "" = a.
Proof. induction a as [|x a IH]; [done|]. exact (f_equal (String x) IH). Qed.

Lemma chars_plain s rest : plainText s = true -> chars (s +:+ String quote rest) = Some (s, rest).
Proof.
  induction s as [|c s IH]; [done|]. cbn [plainText everyChar]. intros [Hc Hs]%andb_prop.
  unfold plainChar in Hc. apply negb_true_iff in Hc. apply orb_false_iff in Hc as [[H1 H2]%orb_false_iff H3].
  change (String c s +:+ String quote rest) with (String c (s +:+ String quote rest)). cbn [chars].
  rewrite H1, H2, H3. by rewrite IH.
Qed.

(** A digit as a character. *)
Lemma digit_char (d : N) :
  (d < 10)%N -> digit (pretty_N_char d) = Some (Z.of_N d) /\ is_char 48 (pretty_N_char d) = (d =? 0)%N.
Proof.
  intros H. assert (E : (d ∈ [0;1;2;3;4;5;6;7;8;9])%N) by (rewrite !elem_of_cons; lia).
  repeat (apply elem_of_cons in E as [->|E]; [done|]). by apply elem_of_nil in E.
Qed.

Lemma digits_ends n v rest : ends rest = true -> digits n v rest = (n, v, rest).
Proof.
  destruct rest as [|c r]; [done|]. cbn. intros [H _]%negb_true_iff%orb_false_iff. apply bool_decide_eq_false in H.
  destruct (digit c); [|done]. by destruct H.
Qed.

(** Reading what [pretty] writes: the digits of [k], the first of them not zero. *)
Lemma digits_pretty (k : N) : (0 < k)%N -> forall s,
  exists n c t, 0 < n /\ pretty_N_go k s = String c t /\ is_char 48 c = false /\ is_Some (digit c)
    /\ forall a v, digits a v (pretty_N_go k s) = digits (a + n) (v * 10 ^ n + Z.of_N k) s.
Proof.
  induction (N.lt_wf_0 k) as [k _ IH]. intros Hk s. rewrite pretty_N_go_step by done.
  assert (Hm : (k `mod` 10 < 10)%N) by (by apply N.mod_lt).
  pose proof (digit_char _ Hm) as [Hd H0]. pose proof (N.div_mod k 10 ltac:(lia)) as Hdm.
  assert (Hlt : (k / 10 < k)%N) by (apply N.div_lt; lia).
  destruct (N.eq_0_gt_0_cases (k / 10)) as [E|E].
  - rewrite E, pretty_N_go_0. exists 1. do 2 eexists. split_and!; [lia|done| |by rewrite Hd|].
    + rewrite H0. apply N.eqb_neq. lia.
    + intros a v. cbn. rewrite Hd. f_equal. lia.
  - destruct (IH _ Hlt E (String (pretty_N_char (k `mod` 10)) s)) as (n & c & t & Hn & Ht & Hc & Hcd & Hs).
    exists (n + 1), c, t. split_and!; try done; [lia|]. intros a v. rewrite Hs. cbn. rewrite Hd.
    rewrite Z.pow_add_r, Z.pow_1_r by lia. f_equal; lia.
Qed.

Lemma ends_fraction v rest : ends rest = true -> fraction v rest = Some (v, 0, rest).
Proof.
  destruct rest as [|c r]; [done|]. cbn. intros [_ H]%negb_true_iff%orb_false_iff.
  cbn in H. unfold is_char. by destruct (code c =? 46).
Qed.

Lemma ends_exponent rest : ends rest = true -> exponent rest = Some (0, rest).
Proof.
  destruct rest as [|c r]; [done|]. cbn. intros [_ H]%negb_true_iff%orb_false_iff.
  cbn in H. unfold is_char. destruct (code c =? 46), (code c =? 101), (code c =? 69); done.
Qed.

Lemma pretty_go_app (k : N) s t : pretty_N_go k s +:+ t = pretty_N_go k (s +:+ t).
Proof.
  revert s. induction (N.lt_wf_0 k) as [k _ IH]. intros s. destruct (N.eq_0_gt_0_cases k) as [->|E]; [done|].
  rewrite (pretty_N_go_step k s), (pretty_N_go_step k (s +:+ t)) by done. apply IH. apply N.div_lt; lia.
Qed.

Lemma unsigned_pretty (k : N) rest :
  ends rest = true -> unsigned (pretty k +:+ rest) = Some (inject_Z (to_number (Z.of_N k)), rest).
Proof.
  intros He. unfold pretty, pretty_N. case_decide as E.
  - subst. unfold unsigned. change ("0" +:+ rest) with (String (char 48) rest). cbn [digits]. change (digit (char 48)) with (Some 0). cbn [Z.add Z.mul]. rewrite digits_ends by done. cbn.
    rewrite ends_fraction by done. cbn. by rewrite ends_exponent.
  - rewrite pretty_go_app. change ("" +:+ rest) with rest.
    destruct (digits_pretty k ltac:(lia) rest) as (n & c & t & Hn & Ht & Hc & _ & Hs).
    unfold unsigned. rewrite Hs, digits_ends, Z.mul_0_l, !Z.add_0_l by done. rewrite (proj2 (Z.eqb_neq n 0)) by lia.
    rewrite Ht, Hc, andb_false_r. rewrite ends_fraction by done. cbn. by rewrite ends_exponent.
Qed.

Lemma pretty_first (k : N) rest :
  exists c t, pretty k +:+ rest = String c t /\ is_Some (digit c).
Proof.
  unfold pretty, pretty_N. case_decide as E.
  - exists (char 48), rest. split; [done|]. by eexists.
  - rewrite pretty_go_app. destruct (digits_pretty k ltac:(lia) ("" +:+ rest)) as (n & c & t & _ & -> & _ & Hc & _). eauto.
Qed.

Lemma digit_code c n : is_Some (digit c) -> n < 48 \/ 57 < n -> is_char n c = false.
Proof.
  unfold digit, is_char. intros [d H] Hn. destruct (_ && _) eqn:E; [|done]. apply andb_prop in E as [E1 E2]. lia.
Qed.

Lemma to_number_opp z : to_number (- z) = - to_number z.
Proof. unfold to_number. rewrite Z.abs_opp, Z.sgn_opp. cbv zeta. case_match; [done|]. lia. Qed.

Lemma number_pretty (z : Z) rest : ends rest = true -> number (pretty z +:+ rest) = Some (inject_Z (to_number z), rest).
Proof.
  intros He. assert (Hpos : forall k : N, number (pretty k +:+ rest) = Some (inject_Z (to_number (Z.of_N k)), rest)).
  { intros k. rewrite <- (unsigned_pretty k rest He). destruct (pretty_first k rest) as (c & t & -> & Hc).
    unfold number. by rewrite (digit_code c 45 Hc ltac:(lia)). }
  destruct z as [|p|p]; [apply (Hpos 0%N)|apply (Hpos (Npos p))|].
  change (pretty (Zneg p) +:+ rest) with (String (char 45) (pretty (Npos p) +:+ rest)). unfold number.
  change (is_char 45 (char 45)) with true. cbv iota.
  rewrite unsigned_pretty by done. cbn [mbind option_bind]. change (Zneg p) with (- Z.of_N (Npos p)). by rewrite to_number_opp.
Qed.

(** *** Values *)

Lemma not_blank c s : is_blank c = false -> blanks (String c s) = String c s.
Proof. intros H. cbn [blanks]. by rewrite H. Qed.

Lemma expect_char c n s : is_blank c = false -> expect n (String c s) = if is_char n c then Some s else None.
Proof. intros H. unfold expect. by rewrite not_blank. Qed.

(** A value's text begins with none of the closing characters. *)
Lemma render_first j rest :
  exists c t, render j +:+ rest = String c t /\ is_blank c = false /\ is_char 93 c = false /\ is_char 125 c = false.
Proof.
  destruct j as [|[]|q|s|[|v l]|[|[k v] l]]; try (by do 2 eexists).
  cbn [render]. assert (Hd : forall c, is_Some (digit c) -> is_blank c = false /\ is_char 93 c = false /\ is_char 125 c = false).
  { intros c Hc. split_and!; try (apply digit_code; [done|lia]). unfold is_blank. cbn.
    pose proof (digit_code c 32 Hc ltac:(lia)). pose proof (digit_code c 9 Hc ltac:(lia)).
    pose proof (digit_code c 10 Hc ltac:(lia)). pose proof (digit_code c 13 Hc ltac:(lia)). unfold is_char in *.
    by repeat match goal with H : (_ =? _) = false |- _ => rewrite H; clear H end. }
  destruct (Qnum q) as [|p|p].
  - by do 2 eexists.
  - destruct (pretty_first (Npos p) rest) as (c & t & E & Hc). exists c, t. split; [exact E|by apply Hd].
  - by do 2 eexists.
Qed.

Lemma slen_app a b : String.length (a +:+ b) = (String.length a + String.length b)%nat.
Proof. induction a as [|c a IH]; [done|]. exact (f_equal S IH). Qed.

(** The reading of one value, whatever follows. *)
Definition reads_back (j : Json) : Prop := forall f rest,
  plain j = true -> ends rest = true -> (String.length (render j) < f)%nat -> value f (render j +:+ rest) = Some (j, rest).

Definition items (l : list Json) : string := foldr (fun v s => "," +:+ render v +:+ s) "]" l.
Definition pair (m : string * Json) : string := quoted m.1 +:+ ":" +:+ render m.2.
Definition pairs (l : list (string * Json)) : string := foldr (fun m s => "," +:+ quoted m.1 +:+ ":" +:+ render m.2 +:+ s) "}" l.

Lemma ends_items l rest : ends (items l +:+ rest) = true.
Proof. by destruct l. Qed.
Lemma ends_pairs l rest : ends (pairs l +:+ rest) = true.
Proof. by destruct l. Qed.

Lemma expect_no c n s : is_char n c = false -> is_blank c = false -> expect n (String c s) = None.
Proof. intros H Hb. rewrite expect_char by done. by rewrite H. Qed.

Lemma elements_items l f rest :
  Forall reads_back l -> forallb plain l = true -> (String.length (items l) < f)%nat ->
  elements f (items l +:+ rest) = Some (l, rest).
Proof.
  intros H. revert f. induction H as [|v l Hv _ IH]; intros [|f] Hp Hf; try lia; [done|].
  cbn [forallb] in Hp. apply andb_prop in Hp as [Hp Hl].
  change (items (v :: l)) with (String (char 44) (render v +:+ items l)) in *. cbn [String.length] in Hf. rewrite slen_app in Hf.
  change (String (char 44) (render v +:+ items l) +:+ rest) with (String (char 44) ((render v +:+ items l) +:+ rest)).
  rewrite string_app_assoc. cbn [elements]. rewrite expect_no by done. rewrite expect_char by done.
  change (is_char 44 (char 44)) with true. cbn [mbind option_bind].
  rewrite Hv by (try done; try lia; apply ends_items). cbn [mbind option_bind]. rewrite IH by (done || lia). done.
Qed.

Lemma quoted_app k rest : quoted k +:+ rest = String quote (k +:+ String quote rest).
Proof. exact (f_equal (String quote) (string_app_assoc k (String quote "") rest)). Qed.

Lemma member_pair k v f rest :
  reads_back v -> plainText k && plain v = true -> ends rest = true -> (String.length (pair (k, v)) < f)%nat ->
  member f (pair (k, v) +:+ rest) = Some ((k, v), rest).
Proof.
  intros Hv [Hk Hp]%andb_prop He Hf. unfold pair in *. cbn [fst snd] in *. destruct f as [|f]; [lia|].
  rewrite !slen_app in Hf. change (String.length ":") with 1%nat in Hf. rewrite !string_app_assoc, quoted_app. cbn [member]. rewrite expect_char by done.
  change (is_char 34 quote) with true. cbn [mbind option_bind]. rewrite chars_plain by done. cbn [mbind option_bind].
  change (":" +:+ render v +:+ rest) with (String (char 58) (render v +:+ rest)). rewrite expect_char by done.
  change (is_char 58 (char 58)) with true. cbn [mbind option_bind]. rewrite Hv by (done || lia). done.
Qed.

Lemma members_pairs l f rest :
  Forall (fun m => reads_back m.2) l -> forallb (fun m => plainText m.1 && plain m.2) l = true ->
  (String.length (pairs l) < f)%nat -> members f (pairs l +:+ rest) = Some (l, rest).
Proof.
  intros H. revert f. induction H as [|[k v] l Hv _ IH]; intros [|f] Hp Hf; try lia; [done|].
  cbn [forallb fst snd] in Hp. apply andb_prop in Hp as [Hp Hl].
  assert (E : pairs ((k, v) :: l) = String (char 44) (pair (k, v) +:+ pairs l)).
  { unfold pair. cbn [fst snd]. by rewrite !string_app_assoc. }
  rewrite E in *. cbn [String.length] in Hf. rewrite slen_app in Hf.
  change (String (char 44) (pair (k, v) +:+ pairs l) +:+ rest) with (String (char 44) ((pair (k, v) +:+ pairs l) +:+ rest)).
  rewrite string_app_assoc. cbn [members]. rewrite expect_no by done. rewrite expect_char by done.
  change (is_char 44 (char 44)) with true. cbn [mbind option_bind].
  rewrite member_pair by (try done; try lia; apply ends_pairs). cbn [mbind option_bind]. rewrite IH by (done || lia). done.
Qed.

Lemma pretty_Z_first (z : Z) rest :
  exists c t, pretty z +:+ rest = String c t /\ (is_Some (digit c) \/ c = char 45).
Proof.
  destruct z as [|p|p].
  - exists (char 48), rest. split; [done|]. left. by eexists.
  - destruct (pretty_first (Npos p) rest) as (c & t & E & Hc). eauto.
  - by do 2 eexists; split; [|right].
Qed.

(** A number is read by [number]. *)
Lemma value_number f c t :
  is_Some (digit c) \/ c = char 45 ->
  value (S f) (String c t) = ('(q, r) ← number (String c t); Some (JNumber q, r)).
Proof.
  intros Hc. cbn [value].
  assert (Hn : forall n, n < 45 \/ 57 < n -> is_char n c = false).
  { intros n Hn. destruct Hc as [Hc| ->]; [apply digit_code; [done|lia]|]. unfold is_char. change (code (char 45)) with 45. apply Z.eqb_neq. lia. }
  assert (Hb : is_blank c = false).
  { unfold is_blank. cbn. pose proof (Hn 32 ltac:(lia)). pose proof (Hn 9 ltac:(lia)). pose proof (Hn 10 ltac:(lia)).
    pose proof (Hn 13 ltac:(lia)). unfold is_char in *. by repeat match goal with H : (_ =? _) = false |- _ => rewrite H; clear H end. }
  assert (Hq : Ascii.eqb c quote = false).
  { destruct (Ascii.eqb_spec c quote) as [->|]; [|done]. exact (Hn 34 ltac:(lia)). }
  rewrite not_blank, !Hn, Hq by (done || lia). done.
Qed.

Lemma value_reads_back j : reads_back j.
Proof.
  induction j as [|b|q|s|l Hl|l Hl] using Json_nested; intros [|f] rest Hp He Hf; try lia.
  - done.
  - by destruct b.
  - cbn [render]. cbn [plain] in Hp. apply bool_decide_eq_true in Hp as [Hd Hz]. destruct q as [n d]. cbn in Hd, Hz. subst. cbn [Qnum].
    pose proof (number_pretty n rest He) as Hn. rewrite Hz in Hn. destruct (pretty_Z_first n rest) as (c & t & E & Hc).
    rewrite E in *. rewrite value_number by done. by rewrite Hn.
  - cbn [render]. rewrite quoted_app. cbn [value]. rewrite not_blank by done. cbn [plain] in Hp. by rewrite chars_plain.
  - destruct l as [|v l]; [done|]. cbn [render]. inversion Hl as [|? ? Hv Hl']; subst. cbn [plain forallb] in Hp.
    apply andb_prop in Hp as [Hp Hpl]. change (foldr _ "]" l) with (items l) in *. cbn [render] in Hf.
    change (foldr _ "]" l) with (items l) in Hf.
    change (("[" +:+ render v +:+ items l) +:+ rest) with (String (char 91) ((render v +:+ items l) +:+ rest)).
    change ("[" +:+ render v +:+ items l) with (String (char 91) (render v +:+ items l)) in Hf. cbn [String.length] in Hf.
    rewrite slen_app in Hf. rewrite string_app_assoc. cbn [value]. rewrite not_blank by done.
    change (is_char 123 (char 91)) with false. change (is_char 91 (char 91)) with true. cbv iota.
    destruct (render_first v (items l +:+ rest)) as (c & t & E & Hb & H93 & _). rewrite E, expect_no, <- E by done.
    cbn [mbind option_bind]. rewrite Hv by (try done; try lia; apply ends_items). cbn [mbind option_bind]. by rewrite elements_items by (done || lia).
  - destruct l as [|[k v] l]; [done|]. inversion Hl as [|? ? Hv Hl']; subst. cbn [plain forallb fst snd] in Hp.
    apply andb_prop in Hp as [Hp Hpl].
    assert (Er : render (JObject ((k, v) :: l)) = String (char 123) (pair (k, v) +:+ pairs l)).
    { unfold pair. cbn [fst snd]. rewrite !string_app_assoc. done. }
    rewrite Er in *. cbn [String.length] in Hf. rewrite slen_app in Hf.
    change (String (char 123) (pair (k, v) +:+ pairs l) +:+ rest) with (String (char 123) ((pair (k, v) +:+ pairs l) +:+ rest)).
    rewrite string_app_assoc. cbn [value]. rewrite not_blank by done. change (is_char 123 (char 123)) with true. cbv iota.
    assert (Ep : exists t, pair (k, v) +:+ pairs l +:+ rest = String quote t).
    { unfold pair. cbn [fst snd]. rewrite !string_app_assoc, quoted_app. eauto. }
    destruct Ep as [t Ep]. rewrite Ep, expect_no, <- Ep by done.
    rewrite member_pair by (try done; try lia; apply ends_pairs). cbn [mbind option_bind].
    by rewrite members_pairs by (done || lia).
Qed.

(** What the writer makes of a value is read back as the value. *)
Theorem parse_render j : plain j = true -> JSON_parse (render j) = Some j.
Proof.
  intros Hp. unfold JSON_parse, fuelFor. pose proof (value_reads_back j (S (String.length (render j))) "" Hp eq_refl) as H.
  rewrite string_app_nil in H. rewrite H by lia. done.
Qed.

End Text.
