(* ===== verification/JsValues.v ===== *)
(** * Conversions of parsed values

    What the language makes of a value of unknown type: its truth, its number
    ([Number]) and its text ([String], a template), with the TypeErrors of
    reading a property of nothing and of an object whose [toString] is hidden
    by a property of that name.

    [None] is [undefined].  Numbers are exact where finite.  The text of a number
    has all its digits: for one above 2^53 or below a millionth the language
    writes fewer, or an exponent. *)

From Stdlib Require Import QArith.QArith QArith.Qround.
From stdpp Require Import pretty.
From S2P Require Import Prelude JsNum Calendar AuthUtils Json.

#[local] Open Scope Z_scope.

(** ** Numbers *)

Inductive Num := Fin (q : Q) | NaN | Infinite (negative : bool).

Definition int (z : Z) : Num := Fin (inject_Z z).

Definition isFinite (n : Num) : bool := match n with Fin _ => true | _ => false end.

Definition negate (n : Num) : Num :=
  match n with Fin q => Fin (- q) | NaN => NaN | Infinite b => Infinite (negb b) end.

Definition plus (a b : Num) : Num :=
  match a, b with
  | Fin p, Fin q => Fin (p + q)
  | NaN, _ | _, NaN => NaN
  | Infinite x, Infinite y => if Bool.eqb x y then Infinite x else NaN
  | Infinite x, _ | _, Infinite x => Infinite x
  end.

Definition minus (a b : Num) : Num := plus a (negate b).

(** [a < b] *)
Definition less (a b : Num) : bool :=
  match a, b with
  | Fin p, Fin q => negb (Qle_bool q p)
  | NaN, _ | _, NaN => false
  | Infinite x, Infinite y => x && negb y
  | Infinite x, Fin _ => x
  | Fin _, Infinite y => negb y
  end.

(** [a === z] *)
Definition equals (a : Num) (z : Z) : bool := match a with Fin q => Qeq_bool q (inject_Z z) | _ => false end.

Definition positive (a : Num) : bool := less (int 0) a.
Definition negative_ (a : Num) : bool := less a (int 0).

Definition finite (a : Num) : option Q := match a with Fin q => Some q | _ => None end.

(** The whole number a value is, if it is one. *)
Definition whole (a : Num) : option Z :=
  match a with
  | Fin q => if Qnum q mod QDen q =? 0 then Some (Qnum q / QDen q) else None
  | _ => None
  end.

(** [Math.round] of a fraction: halves go up. *)
Definition round (q : Q) : Z := Qfloor (q + (1 # 2)).

(** ** The text of a number *)

(** The decimals of [n/d] after the point, at most [fuel]. *)
Fixpoint decimals (fuel : nat) (n d : Z) : nat :=
  match fuel with
  | O => O
  | S f => if n mod d =? 0 then O else S (decimals f (10 * n) d)
  end.

Definition fractionText (q : Q) : string :=
  let n := Z.abs (Qnum q) in
  let k := decimals (Z.to_nat (Z.log2 (QDen q) + 1)) n (QDen q) in
  let m := n * 10 ^ Z.of_nat k / QDen q in
  let whole := pretty (m / 10 ^ Z.of_nat k) in
  (if Qnum q <? 0 then "-" else "")
  +:+ match k with
      | O => whole
      | _ => let f := pretty (m mod 10 ^ Z.of_nat k) in
             whole +:+ "." +:+ String.concat "" (replicate (k - String.length f) "0") +:+ f
      end.

Definition numberText (n : Num) : string :=
  match n with
  | Fin q => match whole n with Some z => pretty z | None => fractionText q end
  | NaN => "NaN"
  | Infinite b => if b then "-Infinity" else "Infinity"
  end.

(** ** Values *)

Definition truthy (v : option Json) : bool :=
  match v with
  | None | Some JNull => false
  | Some (JBool b) => b
  | Some (JNumber q) => negb (Qeq_bool q 0)
  | Some (JString s) => negb (bool_decide (s = ""))
  | Some (JArray _) | Some (JObject _) => true
  end.

(** [a ?? b] *)
Definition orElse (a b : option Json) : option Json :=
  match a with None | Some JNull => b | _ => a end.

(** [v.k], of a name that only objects have. *)
Definition get (k : string) (v : option Json) : result (option Json) :=
  match v with
  | None | Some JNull => Throw "TypeError"
  | Some (JObject fields) => Ok (field k fields)
  | Some _ => Ok None
  end.

(** [v?.k] *)
Definition optGet (k : string) (v : option Json) : option Json :=
  match v with Some (JObject fields) => field k fields | _ => None end.

Definition textOf (v : option Json) : option string := match v with Some (JString s) => Some s | _ => None end.
Definition numberOf (v : option Json) : option Num := match v with Some (JNumber q) => Some (Fin q) | _ => None end.
Definition boolOf (v : option Json) : option bool := match v with Some (JBool b) => Some b | _ => None end.
Definition arrayOf (v : option Json) : option (list Json) := match v with Some (JArray l) => Some l | _ => None end.

Definition nullish (v : Json) : bool := match v with JNull => true | _ => false end.

(** [String(v)]; an item of an array that is nothing has no text. *)
Fixpoint toText (v : Json) : result string :=
  match v with
  | JNull => Ok "null"
  | JBool b => Ok (if b then "true" else "false")
  | JNumber q => Ok (numberText (Fin q))
  | JString s => Ok s
  | JArray l =>
      (fix joined l := match l with
                       | [] => Ok ""
                       | v :: l' =>
                           a ← (if nullish v then Ok "" else toText v);
                           match l' with [] => Ok a | _ => b ← joined l'; Ok (a +:+ "," +:+ b) end
                       end) l
  | JObject fields =>
      match field "toString" fields with Some _ => Throw "TypeError" | None => Ok "[object Object]" end
  end.

Definition textOr (v : option Json) : result string :=
  match v with Some v => toText v | None => Ok "undefined" end.

(** [l.join(sep)] *)
Definition join (sep : string) (l : list Json) : result string :=
  ts ← mapM_result (fun v => if nullish v then Ok "" else toText v) l; Ok (String.concat sep ts).

(** ** [Number] of a text *)

Definition radixDigits (base : Z) : string -> option Z :=
  (fix go (acc : Z) (s : string) : option Z :=
     match s with
     | EmptyString => Some acc
     | String c s' =>
         match Text.hexDigit c with
         | Some d => if d <? base then go (base * acc + d) s' else None
         | None => None
         end
     end) 0.

Definition radix (base : Z) (s : string) : Num :=
  match s with
  | EmptyString => NaN
  | _ => match radixDigits base s with Some z => int (to_number z) | None => NaN end
  end.

(** Digits with a point and an exponent, some digit at least. *)
Definition decimal (s : string) : Num :=
  if bool_decide (s = "Infinity") then Infinite false
  else
    let '(n, v, r) := Text.digits 0 0 s in
    let '(k, v, r) := match r with
                      | String c r' => if Text.is_char 46 c then Text.digits 0 v r' else (0, v, r)
                      | EmptyString => (0, v, r)
                      end in
    if n + k =? 0 then NaN
    else match Text.exponent r with
         | Some (e, EmptyString) =>
             if (k =? 0) && (e =? 0) then int (to_number v) else Fin (Qred (inject_Z v * Text.power10 (e - k)))
         | _ => NaN
         end.

Definition textNumber (s : string) : Num :=
  match trim s with
  | EmptyString => int 0
  | String c r as t =>
      match r with
      | String x r' =>
          if Text.is_char 48 c && (Text.is_char 120 x || Text.is_char 88 x) then radix 16 r'
          else if Text.is_char 48 c && (Text.is_char 111 x || Text.is_char 79 x) then radix 8 r'
          else if Text.is_char 48 c && (Text.is_char 98 x || Text.is_char 66 x) then radix 2 r'
          else if Text.is_char 45 c then negate (decimal r)
          else if Text.is_char 43 c then decimal r
          else decimal t
      | EmptyString => decimal t
      end
  end.

(** [Number(v)] *)
Definition toNumber (v : option Json) : result Num :=
  match v with
  | None => Ok NaN
  | Some JNull => Ok (int 0)
  | Some (JBool b) => Ok (int (Z.b2z b))
  | Some (JNumber q) => Ok (Fin q)
  | Some (JString s) => Ok (textNumber s)
  | Some v => textNumber <$> toText v
  end.

(** [Number(v ?? 0)] *)
Definition numberOr0 (v : option Json) : result Num := toNumber (orElse v (Some (JNumber 0))).

Example texts_of_numbers :
  numberText <$> [int (-12); Fin (5 # 4); Fin (-1 # 100); Fin (3 # 6)] = ["-12"; "1.25"; "-0.01"; "0.5"].
Proof. reflexivity. Qed.

Example numbers_of_texts :
  textNumber <$> [" 12 "; "-1.50e1"; ".5"; "0x1F"; "1_0"; ""; "-Infinity"; "."]
  = [int 12; Fin (-15); Fin (1 # 2); int 31; NaN; int 0; Infinite true; NaN].
Proof. reflexivity. Qed.
