(* ===== verification/RouletteLog.v ===== *)
(** * The chain's account of a spin

    [generate_roulette_logs] of [execution/src/casino/roulette.rs], with
    [execution/src/casino/logging.rs]: the line of JSON that a finished game of
    roulette leaves, written as the Rust code writes it, character by character.
    [generate_renders] says which value the line is the text of. *)

From Stdlib Require Import QArith.QArith.
From stdpp Require Import pretty.
From S2P Require Import Prelude JsNum WebBets Arith Calendar AuthUtils Json Roulette.

#[local] Open Scope Z_scope.

(** ** The writer *)

Definition clamp (bits : Z) (v : Z) : Z := Z.max (- 2 ^ (bits - 1)) (Z.min (2 ^ (bits - 1) - 1) v).
Definition clamp_i64 : Z -> Z := clamp 64.

(** [write!] of a name with its value. *)
Definition entry (k v : string) : string := Text.quoted k +:+ ":" +:+ v.

Definition push_resolved_entry (out label : string) (pnl : Z) : string :=
  (if bool_decide (out = "") then out else out +:+ ",")
  +:+ "{" +:+ entry "label" (Text.quoted label) +:+ "," +:+ entry "pnl" (pretty pnl) +:+ "}".

Inductive Phase := Betting | Prison.

Record RouletteState := {
  zero_rule : ZeroRule; phase : Phase; total_wagered : Z; pending_return : Z; bets : list ChainBet; rs_result : option Z
}.

Definition bet_type_str (t : BetType) : string :=
  match t with
  | Straight => "STRAIGHT" | Red => "RED" | Black => "BLACK" | Even => "EVEN" | Odd => "ODD" | Low => "LOW"
  | High => "HIGH" | Dozen => "DOZEN" | Column => "COLUMN" | SplitH => "SPLIT_H" | SplitV => "SPLIT_V"
  | Street => "STREET" | Corner => "CORNER" | SixLine => "SIX_LINE"
  end.

Definition bet_label (t : BetType) (number : Z) : string :=
  match t with
  | Dozen => "DOZEN_" +:+ pretty (saturating_add8 number 1)
  | Column => "COL_" +:+ pretty (saturating_add8 number 1)
  | Straight | SplitH | SplitV | Street | Corner | SixLine => bet_type_str t +:+ " " +:+ pretty number
  | _ => bet_type_str t
  end.

(** What a bet returns in the account. *)
Definition logged_return (state : RouletteState) (n : Z) (bet : ChainBet) : Z :=
  match phase state with
  | Prison => if is_zero_result (zero_rule state) n then 0 else if wins n bet then cb_amount bet else 0
  | Betting =>
      if wins n bet then bet_return bet
      else if is_zero_result (zero_rule state) n && bool_decide (zero_rule state = LaPartage)
              && is_even_money_bet (cb_type bet) then cb_amount bet / 2 else 0
  end.

Definition logged_pnl (state : RouletteState) (n : Z) (bet : ChainBet) : Z :=
  clamp_i64 (logged_return state n bet - cb_amount bet).

(** One turn of the loop: the texts of the bets and of what they won, and the sum. *)
Definition log_bet (state : RouletteState) (n : Z) (acc : string * string * Z) (x : nat * ChainBet)
    : string * string * Z :=
  let '(bet_results, resolved, sum) := acc in
  let '(idx, bet) := x in
  let bet_results := if (0 <? idx)%nat then bet_results +:+ "," else bet_results in
  let pnl := logged_pnl state n bet in
  (bet_results +:+ "{" +:+ entry "type" (Text.quoted (bet_type_str (cb_type bet))) +:+ ","
     +:+ entry "number" (pretty (cb_number bet)) +:+ "," +:+ entry "amount" (pretty (cb_amount bet)) +:+ ","
     +:+ entry "won" (if wins n bet then "true" else "false") +:+ "}",
   push_resolved_entry resolved (bet_label (cb_type bet) (cb_number bet)) pnl,
   clamp 128 (sum + pnl)).

Definition display_number (n : Z) : string := if n =? DOUBLE_ZERO then "00" else pretty n.

Definition color_str (state : RouletteState) (n : Z) : string :=
  if is_zero_result (zero_rule state) n then "GREEN" else if is_red n then "RED" else "BLACK".

Definition summary_str (state : RouletteState) (n : Z) : string :=
  "Roll: " +:+ display_number n +:+ " " +:+ color_str state n.

Definition net_pnl (state : RouletteState) (total_return : Z) : Z := clamp_i64 (total_return - total_wagered state).

Definition generate_roulette_logs (state : RouletteState) (n total_return : Z) : list string :=
  let '(bet_results, resolved, sum) := foldl (log_bet state n) ("", "", 0) (imap pair (bets state)) in
  let net := net_pnl state total_return in
  let diff := clamp 128 (net - sum) in
  let resolved := if diff =? 0 then resolved else push_resolved_entry resolved "ADJUSTMENT" (clamp_i64 diff) in
  ["{" +:+ entry "summary" (Text.quoted (summary_str state n)) +:+ "," +:+ entry "netPnl" (pretty net) +:+ ","
   +:+ entry "resolvedBets" ("[" +:+ resolved +:+ "]") +:+ "," +:+ entry "result" (pretty n) +:+ ","
   +:+ entry "color" (Text.quoted (color_str state n)) +:+ "," +:+ entry "bets" ("[" +:+ bet_results +:+ "]") +:+ ","
   +:+ entry "totalWagered" (pretty (total_wagered state)) +:+ "," +:+ entry "totalReturn" (pretty total_return) +:+ "}"].

(** ** The value it is the text of *)

Definition resolvedJson (x : string * Z) : Json := JObject [("label", JString x.1); ("pnl", JNumber (inject_Z x.2))].

Definition betJson (n : Z) (bet : ChainBet) : Json :=
  JObject [("type", JString (bet_type_str (cb_type bet))); ("number", JNumber (inject_Z (cb_number bet)));
           ("amount", JNumber (inject_Z (cb_amount bet))); ("won", JBool (wins n bet))].

(** What each bet won, and last the rest to the change of the chips. *)
Definition resolved_of (state : RouletteState) (n total_return : Z) : list (string * Z) :=
  let each := (fun b => (bet_label (cb_type b) (cb_number b), logged_pnl state n b)) <$> bets state in
  let diff := net_pnl state total_return - zsum snd each in
  each ++ (if diff =? 0 then [] else [("ADJUSTMENT", diff)]).

Definition logJson (state : RouletteState) (n total_return : Z) : Json :=
  JObject [("summary", JString (summary_str state n)); ("netPnl", JNumber (inject_Z (net_pnl state total_return)));
           ("resolvedBets", JArray (resolvedJson <$> resolved_of state n total_return));
           ("result", JNumber (inject_Z n)); ("color", JString (color_str state n));
           ("bets", JArray (betJson n <$> bets state)); ("totalWagered", JNumber (inject_Z (total_wagered state)));
           ("totalReturn", JNumber (inject_Z total_return))].

(** The numbers of an account that the site can hold: the stakes, the wager and
    the return stay below half of 2^53. *)
Definition representable (state : RouletteState) (total_return : Z) : Prop :=
  0 <= total_return <= 2 ^ 52 /\ 0 <= total_wagered state <= 2 ^ 52
  /\ Forall (fun b => 0 <= cb_amount b /\ 0 <= cb_number b <= 255) (bets state)
  /\ 36 * zsum cb_amount (bets state) <= 2 ^ 52.

(** ** The text *)

Lemma concat_snoc sep l x :
  String.concat sep (l ++ [x]) = (if bool_decide (l = []) then "" else String.concat sep l +:+ sep) +:+ x.
Proof.
  induction l as [|a l IH]; [done|]. rewrite bool_decide_eq_false_2 by done. destruct l as [|b l]; [by rewrite Text.string_app_assoc|].
  rewrite bool_decide_eq_false_2 in IH by done.
  change (String.concat sep ((a :: b :: l) ++ [x])) with (a +:+ sep +:+ String.concat sep ((b :: l) ++ [x])).
  rewrite IH. change (String.concat sep (a :: b :: l)) with (a +:+ sep +:+ String.concat sep (b :: l)).
  by rewrite ?Text.string_app_assoc.
Qed.

Lemma render_items l :
  foldr (fun v s => "," +:+ Text.render v +:+ s) "]" l
  = match l with [] => "]" | _ => "," +:+ String.concat "," (Text.render <$> l) +:+ "]" end.
Proof.
  induction l as [|v l IH]; [done|]. cbn [foldr]. rewrite IH. destruct l; [done|].
  cbn [fmap list_fmap String.concat]. by rewrite ?Text.string_app_assoc.
Qed.

Lemma render_array l : Text.render (JArray l) = "[" +:+ String.concat "," (Text.render <$> l) +:+ "]".
Proof.
  destruct l as [|v l]; [done|]. cbn [Text.render]. rewrite render_items.
  destruct l; cbn [fmap list_fmap String.concat]; by rewrite ?Text.string_app_assoc.
Qed.

Definition memberText (m : string * Json) : string := entry m.1 (Text.render m.2).

Lemma render_members l :
  foldr (fun m s => "," +:+ Text.quoted m.1 +:+ ":" +:+ Text.render m.2 +:+ s) "}" l
  = match l with [] => "}" | _ => "," +:+ String.concat "," (memberText <$> l) +:+ "}" end.
Proof.
  induction l as [|v l IH]; [done|]. cbn [foldr]. rewrite IH.
  destruct l; unfold memberText, entry; cbn [fmap list_fmap String.concat]; by rewrite ?Text.string_app_assoc.
Qed.

Lemma render_object l : Text.render (JObject l) = "{" +:+ String.concat "," (memberText <$> l) +:+ "}".
Proof.
  destruct l as [|[k v] l]; [done|]. cbn [Text.render]. rewrite render_members.
  destruct l; unfold memberText, entry; cbn [fmap list_fmap String.concat fst snd]; by rewrite ?Text.string_app_assoc.
Qed.

(** *** The loop *)

Lemma render_resolved label pnl :
  Text.render (resolvedJson (label, pnl))
  = "{" +:+ entry "label" (Text.quoted label) +:+ "," +:+ entry "pnl" (pretty pnl) +:+ "}".
Proof. unfold resolvedJson. rewrite render_object. unfold memberText. cbn. by rewrite ?Text.string_app_assoc. Qed.

Definition joined (l : list Json) : string := String.concat "," (Text.render <$> l).

Lemma joined_snoc l x :
  joined (l ++ [x]) = (if bool_decide (l = []) then "" else joined l +:+ ",") +:+ Text.render x.
Proof. unfold joined. rewrite fmap_app. cbn [fmap list_fmap]. rewrite concat_snoc. by destruct l. Qed.

Lemma joined_object f l : joined (JObject f :: l) <> "".
Proof. unfold joined. cbn [fmap list_fmap]. rewrite render_object. by destruct l. Qed.

Lemma push_joined l label pnl :
  push_resolved_entry (joined (resolvedJson <$> l)) label pnl = joined (resolvedJson <$> (l ++ [(label, pnl)])).
Proof.
  rewrite fmap_app. cbn [fmap list_fmap]. rewrite joined_snoc, render_resolved. unfold push_resolved_entry.
  destruct l as [|x l]; [done|]. cbn [fmap list_fmap].
  rewrite !bool_decide_eq_false_2 by (done || apply joined_object). by rewrite ?Text.string_app_assoc.
Qed.

Lemma logged_pnl_bounds st n b :
  0 <= cb_amount b -> 36 * cb_amount b <= 2 ^ 52 -> - cb_amount b <= logged_pnl st n b <= 35 * cb_amount b.
Proof.
  intros H0 H. assert (Hr : 0 <= logged_return st n b <= 36 * cb_amount b).
  { unfold logged_return. pose proof (payout_multiplier_bounds (cb_type b)).
    assert (cb_amount b / 2 <= cb_amount b) by (apply Z.div_le_upper_bound; lia).
    assert (0 <= cb_amount b / 2) by (apply Z.div_pos; lia).
    destruct (phase st); repeat case_match; try lia. rewrite bet_return_exact by lia. nia. }
  unfold logged_pnl, clamp_i64, clamp. lia.
Qed.

Definition entry_of (st : RouletteState) (n : Z) (b : ChainBet) : string * Z :=
  (bet_label (cb_type b) (cb_number b), logged_pnl st n b).

Lemma render_bet n b :
  Text.render (betJson n b)
  = "{" +:+ entry "type" (Text.quoted (bet_type_str (cb_type b))) +:+ "," +:+ entry "number" (pretty (cb_number b))
    +:+ "," +:+ entry "amount" (pretty (cb_amount b)) +:+ "," +:+ entry "won" (if wins n b then "true" else "false") +:+ "}".
Proof. unfold betJson. rewrite render_object. unfold memberText. cbn. by rewrite ?Text.string_app_assoc. Qed.

Lemma zsum_pnl_bounds st n l :
  Forall (fun b => 0 <= cb_amount b) l -> 36 * zsum cb_amount l <= 2 ^ 52 ->
  - zsum cb_amount l <= zsum (logged_pnl st n) l <= 35 * zsum cb_amount l.
Proof.
  induction 1 as [|b l Hb Hl IH]; intros Hs; [done|]. rewrite !zsum_cons in *.
  assert (0 <= zsum cb_amount l) by (apply zsum_nonneg; intros x Hx; rewrite Forall_forall in Hl; by apply Hl).
  pose proof (logged_pnl_bounds st n b Hb ltac:(lia)). lia.
Qed.

Lemma loop_joined st n l :
  Forall (fun b => 0 <= cb_amount b) l -> 36 * zsum cb_amount l <= 2 ^ 52 ->
  foldl (log_bet st n) ("", "", 0) (imap pair l)
  = (joined (betJson n <$> l), joined (resolvedJson <$> (entry_of st n <$> l)), zsum (logged_pnl st n) l).
Proof.
  induction l as [|b l IH] using rev_ind; intros Hf Hs; [done|].
  apply Forall_app in Hf as [Hf Hb]. rewrite zsum_app, zsum_cons, zsum_nil in *. apply Forall_cons in Hb as [Hb _].
  assert (0 <= zsum cb_amount l) by (apply zsum_nonneg; intros x Hx; rewrite Forall_forall in Hf; by apply Hf).
  rewrite imap_app, foldl_app, IH by (done || lia). cbn [imap foldl log_bet Nat.add compose].
  rewrite !fmap_app. cbn [fmap list_fmap]. rewrite (push_joined (entry_of st n <$> l)).
  rewrite (joined_snoc (betJson n <$> l)), render_bet. rewrite fmap_app. cbn [fmap list_fmap].
  f_equal; [f_equal|].
  - rewrite Nat.add_0_r. destruct l; [done|]. rewrite bool_decide_eq_false_2 by done. cbn [length Nat.ltb Nat.leb]. by rewrite ?Text.string_app_assoc.
  - pose proof (zsum_pnl_bounds st n l Hf ltac:(lia)). pose proof (logged_pnl_bounds st n b Hb ltac:(lia)).
    unfold clamp. lia.
Qed.

Lemma representable_net st tr : representable st tr -> net_pnl st tr = tr - total_wagered st.
Proof. intros (? & ? & _). unfold net_pnl, clamp_i64, clamp. lia. Qed.

Lemma representable_stakes st tr : representable st tr -> Forall (fun b => 0 <= cb_amount b) (bets st).
Proof. intros (_ & _ & H & _). eapply Forall_impl; [exact H|]. by intros b []. Qed.

Lemma representable_sum st n tr :
  representable st tr -> Z.abs (zsum (logged_pnl st n) (bets st)) <= 2 ^ 52.
Proof.
  intros H. pose proof (representable_stakes _ _ H) as Hf. destruct H as (_ & _ & _ & Hs).
  pose proof (zsum_pnl_bounds st n _ Hf Hs).
  assert (0 <= zsum cb_amount (bets st)) by (apply zsum_nonneg; intros x Hx; rewrite Forall_forall in Hf; by apply Hf). lia.
Qed.

Lemma zsum_fmap {A B} (g : A -> B) (f : B -> Z) l : zsum f (g <$> l) = zsum (f ∘ g) l.
Proof. induction l as [|x l IH]; [done|]. rewrite fmap_cons, !zsum_cons, IH. done. Qed.

(** The line the chain writes is the compact text of its account. *)
Theorem generate_renders st n tr :
  representable st tr -> generate_roulette_logs st n tr = [Text.render (logJson st n tr)].
Proof.
  intros H. unfold generate_roulette_logs.
  rewrite loop_joined by (by apply (representable_stakes st tr) || apply H).
  pose proof (representable_sum st n tr H) as Hsum. pose proof (representable_net st tr H) as Hnet.
  assert (E : zsum snd (entry_of st n <$> bets st) = zsum (logged_pnl st n) (bets st)) by apply zsum_fmap.
  assert (Hd : clamp 128 (net_pnl st tr - zsum (logged_pnl st n) (bets st)) = net_pnl st tr - zsum (logged_pnl st n) (bets st)
             /\ clamp_i64 (net_pnl st tr - zsum (logged_pnl st n) (bets st)) = net_pnl st tr - zsum (logged_pnl st n) (bets st)).
  { destruct H as (? & ? & _). rewrite Hnet. unfold clamp_i64, clamp. lia. }
  destruct Hd as [-> ->]. f_equal. unfold logJson. rewrite render_object. cbn [fmap list_fmap]. unfold memberText at 1 2 3 4 5 6 7 8.
  cbn [fst snd]. rewrite !render_array. cbn [String.concat]. unfold resolved_of. fold (entry_of st n). rewrite E.
  case_match; [rewrite app_nil_r|rewrite push_joined]; by rewrite ?Text.string_app_assoc.
Qed.

Lemma resolved_sum st n tr :
  representable st tr -> zsum snd (resolved_of st n tr) = tr - total_wagered st.
Proof.
  intros H. unfold resolved_of. rewrite (representable_net _ _ H). rewrite zsum_app. case_match; rewrite ?zsum_cons, zsum_nil; cbn [snd]; lia.
Qed.

(** *** A plain value *)

Definition bet_types : list BetType :=
  [Straight; Red; Black; Even; Odd; Low; High; Dozen; Column; SplitH; SplitV; Street; Corner; SixLine].

Lemma labels_plain t z : 0 <= z <= 255 -> Text.plainText (bet_label t z) = true /\ bet_label t z <> "".
Proof.
  intros Hz. split; [|by destruct t].
  assert (E : forallb (fun t => forallb (fun z => Text.plainText (bet_label t z)) (seqZ 0 256)) bet_types = true) by by vm_compute.
  rewrite forallb_forall in E. specialize (E t ltac:(destruct t; cbn; tauto)). rewrite forallb_forall in E.
  apply E. apply list_elem_of_In, elem_of_seqZ. lia.
Qed.

Lemma plain_object l : Text.plain (JObject l) = forallb (fun m => Text.plainText m.1 && Text.plain m.2) l.
Proof. done. Qed.
Lemma plain_array l : Text.plain (JArray l) = forallb Text.plain l.
Proof. done. Qed.

Lemma plain_int z : Z.abs z <= 2 ^ 53 -> Text.plain (JNumber (inject_Z z)) = true.
Proof. intros H. cbn. rewrite to_number_exact by done. by apply bool_decide_eq_true. Qed.

Lemma outcome_cases (P : Z -> Prop) : Forall P (seqZ 0 38) -> forall n, 0 <= n <= 37 -> P n.
Proof. intros H n Hn. rewrite Forall_forall in H. apply H, elem_of_seqZ. lia. Qed.

Lemma plainText_app a b : Text.plainText (a +:+ b) = Text.plainText a && Text.plainText b.
Proof.
  induction a as [|c a IH]; [done|]. change (String c a +:+ b) with (String c (a +:+ b)).
  unfold Text.plainText in *. cbn [everyChar]. by rewrite IH, andb_assoc.
Qed.

Lemma summary_plain st n : 0 <= n <= 37 -> Text.plainText (summary_str st n) = true /\ Text.plainText (color_str st n) = true.
Proof.
  intros Hn. unfold summary_str, color_str.
  assert (E : Text.plainText (display_number n) = true).
  { revert n Hn. apply outcome_cases. by repeat constructor. }
  rewrite !plainText_app, E. by repeat case_match.
Qed.

Lemma log_plain st n tr : representable st tr -> 0 <= n <= 37 -> Text.plain (logJson st n tr) = true.
Proof.
  intros H Hn. pose proof (representable_net _ _ H) as Hnet. pose proof (summary_plain st n Hn) as [Hs Hc].
  pose proof (representable_sum st n tr H) as Hsum. pose proof (representable_stakes _ _ H) as Hf.
  assert (Hp : forall b, b ∈ bets st -> Z.abs (logged_pnl st n b) <= 2 ^ 53 /\ 0 <= cb_amount b <= 2 ^ 53).
  { intros b Hin. pose proof (zsum_member cb_amount (bets st) b Hf Hin) as Hm. rewrite Forall_forall in Hf.
    specialize (Hf b Hin). cbn in Hf. destruct H as (_ & _ & _ & H36).
    pose proof (logged_pnl_bounds st n b Hf ltac:(lia)). lia. }
  destruct H as (Ht & Hw & Hb & _). rewrite Forall_forall in Hb.
  assert (Hr : forallb Text.plain (resolvedJson <$> resolved_of st n tr) = true).
  { unfold resolved_of. fold (entry_of st n). rewrite fmap_app, forallb_app. apply andb_true_intro. split.
    - apply forallb_forall. intros j Hj%list_elem_of_In. apply list_elem_of_fmap in Hj as ([l p] & -> & Hj).
      apply list_elem_of_fmap in Hj as (b & [= -> ->] & Hj). unfold resolvedJson. rewrite plain_object. cbn [forallb fst snd].
      rewrite (plain_int _ (proj1 (Hp b Hj))), andb_true_r. cbn. rewrite (proj1 (labels_plain _ _ (proj2 (Hb b Hj)))). done.
    - rewrite Hnet, (zsum_fmap (entry_of st n) snd). change (snd ∘ entry_of st n) with (logged_pnl st n). case_match; [done|]. cbn [fmap list_fmap forallb]. unfold resolvedJson. rewrite plain_object. cbn [forallb fst snd].
      pose proof (plain_int (tr - total_wagered st - zsum (logged_pnl st n) (bets st)) ltac:(lia)) as E. rewrite E. done. }
  assert (Hbs : forallb Text.plain (betJson n <$> bets st) = true).
  { apply forallb_forall. intros j Hj%list_elem_of_In. apply list_elem_of_fmap in Hj as (b & -> & Hj).
    destruct (Hp b Hj) as [_ Ha]. destruct (Hb b Hj) as [_ Hn']. unfold betJson. rewrite plain_object. cbn [forallb fst snd].
    rewrite (plain_int (cb_amount b)), (plain_int (cb_number b)) by lia. by destruct (cb_type b). }
  unfold logJson. rewrite plain_object. cbn [forallb fst snd].
  rewrite !plain_array, Hr, Hbs, Hnet, !plain_int by lia. cbn [Text.plain]. by rewrite Hs, Hc.
Qed.
