(* ===== verification/MobileSocket.v ===== *)
(** * The connection of the mobile app

    [mobile/src/services/websocket.ts]: the hook [useWebSocket], which keeps one
    connection to the gateway and reconnects with growing delays, with
    [mobile/src/hooks/useWebSocketReconnectOnForeground.ts], which reconnects
    when the app returns to the foreground, and [useGameConnection.ts].

    The hook is one [Hook]: what React shows ([View]), the refs, and the world of
    sockets and timers the browser keeps.  A handler is the uninterrupted piece
    of code the platform calls; [step] says when it calls it.  A closed socket
    keeps its handlers, as in the source, and its [close] event comes later.
    Which addresses the constructor of [WebSocket] accepts is a parameter. *)

From S2P Require Import Prelude Json.

#[local] Open Scope Z_scope.

(** ** State *)

Inductive ReadyState := CONNECTING | OPEN | CLOSING | CLOSED.
Inductive ConnectionState := Connecting | Connected | Disconnected | Failed.
Inductive AppStateStatus := Active | Background | Inactive.

#[export] Instance ReadyState_eq_dec : EqDecision ReadyState.
Proof. solve_decision. Defined.
#[export] Instance ConnectionState_eq_dec : EqDecision ConnectionState.
Proof. solve_decision. Defined.
#[export] Instance AppStateStatus_eq_dec : EqDecision AppStateStatus.
Proof. solve_decision. Defined.

(** [s_opened]: the connection was established once; only then can it close
    cleanly. *)
Record Socket := { s_url : string; s_ready : ReadyState; s_opened : bool; s_sent : list string }.

Record View := {
  isConnected : bool; connectionState : ConnectionState; reconnectAttempt : Z; lastMessage : option Json
}.

Record Refs := { ws : option nat; reconnectAttemptsRef : Z; reconnectTimeoutId : option nat }.

(** Timers by their id, with the url of the [connect] they call and the time
    they are due. *)
Record World := { sockets : list Socket; timers : gmap nat (string * Z); nextTimer : nat; now : Z }.

Record Hook := { view : View; refs : Refs; world : World; url : string; mounted : bool; appStateRef : AppStateStatus }.

(** [setState] does nothing once the component is gone. *)
Definition setView (f : View -> View) (h : Hook) : Hook :=
  {| view := if mounted h then f (view h) else view h; refs := refs h; world := world h; url := url h;
     mounted := mounted h; appStateRef := appStateRef h |}.
Definition setRefs (f : Refs -> Refs) (h : Hook) : Hook :=
  {| view := view h; refs := f (refs h); world := world h; url := url h; mounted := mounted h;
     appStateRef := appStateRef h |}.
Definition setWorld (f : World -> World) (h : Hook) : Hook :=
  {| view := view h; refs := refs h; world := f (world h); url := url h; mounted := mounted h;
     appStateRef := appStateRef h |}.

Definition setIsConnected (b : bool) : Hook -> Hook := setView (fun v =>
  {| isConnected := b; connectionState := connectionState v; reconnectAttempt := reconnectAttempt v;
     lastMessage := lastMessage v |}).
Definition setConnectionState (c : ConnectionState) : Hook -> Hook := setView (fun v =>
  {| isConnected := isConnected v; connectionState := c; reconnectAttempt := reconnectAttempt v;
     lastMessage := lastMessage v |}).
Definition setReconnectAttempt (n : Z) : Hook -> Hook := setView (fun v =>
  {| isConnected := isConnected v; connectionState := connectionState v; reconnectAttempt := n;
     lastMessage := lastMessage v |}).
Definition setLastMessage (m : Json) : Hook -> Hook := setView (fun v =>
  {| isConnected := isConnected v; connectionState := connectionState v; reconnectAttempt := reconnectAttempt v;
     lastMessage := Some m |}).

Definition set_ws (i : nat) : Hook -> Hook := setRefs (fun r =>
  {| ws := Some i; reconnectAttemptsRef := reconnectAttemptsRef r; reconnectTimeoutId := reconnectTimeoutId r |}).
Definition set_attempts (n : Z) : Hook -> Hook := setRefs (fun r =>
  {| ws := ws r; reconnectAttemptsRef := n; reconnectTimeoutId := reconnectTimeoutId r |}).
Definition set_timeoutId (t : option nat) : Hook -> Hook := setRefs (fun r =>
  {| ws := ws r; reconnectAttemptsRef := reconnectAttemptsRef r; reconnectTimeoutId := t |}).

(** ** The platform *)

Definition set_sockets (l : list Socket) (w : World) : World :=
  {| sockets := l; timers := timers w; nextTimer := nextTimer w; now := now w |}.

Definition with_ready (r : ReadyState) (s : Socket) : Socket :=
  {| s_url := s_url s; s_ready := r; s_opened := s_opened s || bool_decide (r = OPEN); s_sent := s_sent s |}.

Definition readyAt (i : nat) (h : Hook) : option ReadyState := s_ready <$> sockets (world h) !! i.

Definition set_ready (r : ReadyState) (i : nat) : Hook -> Hook :=
  setWorld (fun w => set_sockets (alter (with_ready r) i (sockets w)) w).

(** [socket.close()]: nothing on a socket that is closing or closed. *)
Definition close (i : nat) (h : Hook) : Hook :=
  match readyAt i h with
  | Some CONNECTING | Some OPEN => set_ready CLOSING i h
  | _ => h
  end.

Definition setTimeout (u : string) (delay : Z) (h : Hook) : nat * Hook :=
  (nextTimer (world h), setWorld (fun w =>
    {| sockets := sockets w; timers := <[nextTimer w := (u, now w + delay)]> (timers w);
       nextTimer := S (nextTimer w); now := now w |}) h).

Definition clearTimeout (t : nat) : Hook -> Hook := setWorld (fun w =>
  {| sockets := sockets w; timers := delete t (timers w); nextTimer := nextTimer w; now := now w |}).

(** ** The hook *)

Definition MAX_RECONNECT_ATTEMPTS : Z := 10.
Definition MAX_RECONNECT_DELAY_MS : Z := 30000.
Definition BASE_RECONNECT_DELAY_MS : Z := 1000.

Definition reconnectDelay (attempts : Z) : Z :=
  Z.min (BASE_RECONNECT_DELAY_MS * 2 ^ attempts) MAX_RECONNECT_DELAY_MS.

Section Socket.

Context (validUrl : string -> bool).

Definition closeCurrent (h : Hook) : Hook :=
  match ws (refs h) with Some i => close i h | None => h end.

Definition clearPending (h : Hook) : Hook :=
  match reconnectTimeoutId (refs h) with Some t => clearTimeout t h | None => h end.

(** [connect], the one made for the address [u]. *)
Definition connect (u : string) (h : Hook) : Hook :=
  let h := match reconnectTimeoutId (refs h) with
           | Some t => set_timeoutId None (clearTimeout t h)
           | None => h
           end in
  let h := closeCurrent h in
  let h := setConnectionState Connecting h in
  if validUrl u then
    set_ws (length (sockets (world h)))
      (setWorld (fun w => set_sockets (sockets w ++ [{| s_url := u; s_ready := CONNECTING; s_opened := false; s_sent := [] |}]) w) h)
  else setConnectionState Failed h.

Definition onopen (h : Hook) : Hook :=
  setReconnectAttempt 0 (set_attempts 0 (setConnectionState Connected (setIsConnected true h))).

(** [BaseMessageSchema]: an object with a text as its [type]. *)
Definition BaseMessageSchema (j : Json) : bool :=
  match j with
  | JObject fields => match field "type" fields with Some (JString _) => true | _ => false end
  | _ => false
  end.

Definition onmessage (data : string) (h : Hook) : Hook :=
  match Text.JSON_parse data with
  | Some raw => if BaseMessageSchema raw then setLastMessage raw h else h
  | None => h
  end.

Definition onclose (u : string) (wasClean : bool) (h : Hook) : Hook :=
  let h := setIsConnected false h in
  if wasClean then setConnectionState Disconnected h
  else if MAX_RECONNECT_ATTEMPTS <=? reconnectAttemptsRef (refs h) then setConnectionState Failed h
  else
    let h := setConnectionState Disconnected h in
    let '(t, h) := setTimeout u (reconnectDelay (reconnectAttemptsRef (refs h))) h in
    set_timeoutId (Some t) h.

(** The callback of the timer. *)
Definition onTimer (u : string) (h : Hook) : Hook :=
  let n := reconnectAttemptsRef (refs h) + 1 in
  connect u (setReconnectAttempt n (set_attempts n h)).

(** [text]: what [JSON.stringify] gives, nothing where it throws. *)
Definition send (text : option string) (h : Hook) : bool * Hook :=
  match ws (refs h) with
  | Some i =>
      match readyAt i h, text with
      | Some OPEN, Some t =>
          (true, setWorld (fun w => set_sockets (alter (fun s =>
             {| s_url := s_url s; s_ready := s_ready s; s_opened := s_opened s; s_sent := s_sent s ++ [t] |}) i (sockets w)) w) h)
      | _, _ => (false, h)
      end
  | None => (false, h)
  end.

Definition reconnect (h : Hook) : Hook := connect (url h) (setReconnectAttempt 0 (set_attempts 0 h)).

(** The effect: [connect] when it runs, [cleanup] before it runs again and when
    the component goes. *)
Definition cleanup (h : Hook) : Hook := closeCurrent (clearPending h).

Definition setUrl (u : string) (h : Hook) : Hook :=
  {| view := view h; refs := refs h; world := world h; url := u; mounted := mounted h; appStateRef := appStateRef h |}.

Definition changeUrl (u : string) (h : Hook) : Hook := connect u (cleanup (setUrl u h)).

Definition unmount (h : Hook) : Hook :=
  {| view := view h; refs := refs (cleanup h); world := world (cleanup h); url := url h; mounted := false;
     appStateRef := appStateRef h |}.

Definition hookStart (u : string) (t : Z) : Hook :=
  {| view := {| isConnected := false; connectionState := Disconnected; reconnectAttempt := 0; lastMessage := None |};
     refs := {| ws := None; reconnectAttemptsRef := 0; reconnectTimeoutId := None |};
     world := {| sockets := []; timers := ∅; nextTimer := 1; now := t |};
     url := u; mounted := true; appStateRef := Active |}.

Definition mount (u : string) (t : Z) : Hook := connect u (hookStart u t).

(** [useWebSocketReconnectOnForeground]: the listener of changes of the app's state. *)
Definition onAppState (next : AppStateStatus) (h : Hook) : Hook :=
  let wasBackground := bool_decide (appStateRef h = Background) || bool_decide (appStateRef h = Inactive) in
  let h' := if wasBackground && bool_decide (next = Active)
               && negb (bool_decide (connectionState (view h) = Connected))
            then reconnect h else h in
  {| view := view h'; refs := refs h'; world := world h'; url := url h'; mounted := mounted h'; appStateRef := next |}.

(** [useGameConnection]: whether a screen offers its actions. *)
Definition isDisconnected (h : Hook) : bool := negb (bool_decide (connectionState (view h) = Connected)).

(** ** The platform's calls *)

Inductive Event :=
| Opened (i : nat)
| Received (i : nat) (data : string)
| Closed (i : nat) (wasClean : bool)
| Timer (t : nat)
| Retry
| AppState (next : AppStateStatus)
| Send (text : option string)
| Url (u : string)
| Unmount
| Passed (ms : Z).

(** What an event does, where the platform can produce it. *)
Definition handle (e : Event) (h : Hook) : option Hook :=
  match e with
  | Opened i => if bool_decide (readyAt i h = Some CONNECTING) then Some (onopen (set_ready OPEN i h)) else None
  | Received i data => if bool_decide (readyAt i h = Some OPEN) then Some (onmessage data h) else None
  | Closed i clean =>
      match sockets (world h) !! i with
      | Some s =>
          if bool_decide (s_ready s = CLOSED) || clean && negb (s_opened s) then None
          else Some (onclose (s_url s) clean (set_ready CLOSED i h))
      | None => None
      end
  | Timer t =>
      match timers (world h) !! t with
      | Some (u, due) => if due <=? now (world h) then Some (onTimer u (clearTimeout t h)) else None
      | None => None
      end
  | Retry => if mounted h then Some (reconnect h) else None
  | AppState next => if mounted h then Some (onAppState next h) else None
  | Send text => Some (send text h).2
  | Url u => if mounted h && negb (bool_decide (u = url h)) then Some (changeUrl u h) else None
  | Unmount => if mounted h then Some (unmount h) else None
  | Passed ms =>
      if 0 <=? ms then Some (setWorld (fun w =>
        {| sockets := sockets w; timers := timers w; nextTimer := nextTimer w; now := now w + ms |}) h) else None
  end.

Inductive step (h : Hook) : Hook -> Prop :=
| Step e h' : handle e h = Some h' -> step h h'.

(** A run with the listed events, as far as they can happen. *)
Definition run (l : list Event) (h : Hook) : Hook := foldl (fun h e => default h (handle e h)) h l.

End Socket.
