(* ===== verification/MobileSocketCorrect.v ===== *)
(** * The connection of the mobile app, proved

    One live socket at a time in every run ([one_live_socket]); what the app
    shows and the retries it schedules in the runs in which no live socket is
    abandoned ([quiet_connection], [one_failure], [gives_up]); and what happens
    when one is ([stale_close_disconnects], [zombie_connection]). *)

From stdpp Require Import relations.
From S2P Require Import Prelude Json MobileSocket.

Section Socket.

Context (validUrl : string -> bool).

#[local] Abbreviation step := (step validUrl).
#[local] Abbreviation handle := (handle validUrl).
#[local] Abbreviation run := (run validUrl).
#[local] Abbreviation connect := (connect validUrl).
#[local] Abbreviation mount := (mount validUrl).

(** ** The states of the sockets *)

Definition live (i : nat) (h : Hook) : Prop := readyAt i h = Some CONNECTING \/ readyAt i h = Some OPEN.

Lemma readyAt_set r i j h :
  readyAt j (set_ready r i h) = if decide (i = j) then (fun _ => r) <$> readyAt i h else readyAt j h.
Proof.
  unfold readyAt, set_ready, setWorld, set_sockets. cbn. case_decide as E.
  - subst j. rewrite list_lookup_alter_eq. by destruct (sockets (world h) !! i).
  - by rewrite list_lookup_alter_ne.
Qed.

Lemma readyAt_close i j h :
  readyAt j (close i h)
  = if decide (i = j) then match readyAt i h with
                           | Some CONNECTING | Some OPEN => Some CLOSING
                           | r => r
                           end
    else readyAt j h.
Proof.
  unfold close. destruct (readyAt i h) as [[]|] eqn:E; rewrite ?readyAt_set, ?E; case_decide; subst; done.
Qed.

Lemma close_refs i h : refs (close i h) = refs h.
Proof. unfold close. by destruct (readyAt i h) as [[]|]. Qed.

Lemma close_view i h : view (close i h) = view h.
Proof. unfold close. by destruct (readyAt i h) as [[]|]. Qed.

Lemma close_mounted i h : mounted (close i h) = mounted h.
Proof. unfold close. by destruct (readyAt i h) as [[]|]. Qed.

Lemma close_length i h : length (sockets (world (close i h))) = length (sockets (world h)).
Proof. unfold close. destruct (readyAt i h) as [[]|]; cbn; by rewrite ?length_alter. Qed.

Lemma close_world i h :
  timers (world (close i h)) = timers (world h) /\ nextTimer (world (close i h)) = nextTimer (world h)
  /\ now (world (close i h)) = now (world h).
Proof. unfold close. by destruct (readyAt i h) as [[]|]. Qed.

(** Only the current socket is live, and it exists. *)
Record one_live (h : Hook) : Prop := {
  live_current : forall i, live i h -> ws (refs h) = Some i;
  current_exists : forall i, ws (refs h) = Some i -> (i < length (sockets (world h)))%nat
}.

Lemma one_live_same h h' :
  one_live h -> ws (refs h') = ws (refs h) -> length (sockets (world h')) = length (sockets (world h)) ->
  (forall i, live i h' -> live i h) -> one_live h'.
Proof.
  intros [H1 H2] Hw Hl Hi. split; intros i; rewrite Hw, ?Hl; eauto.
Qed.

Lemma one_live_eq h h' :
  one_live h -> ws (refs h') = ws (refs h) -> sockets (world h') = sockets (world h) -> one_live h'.
Proof.
  intros H Hw Hs. apply (one_live_same h); [done|done|by rewrite Hs|].
  intros i. unfold live, readyAt. by rewrite Hs.
Qed.

Lemma closeCurrent_none h : one_live h -> forall i, ~ live i (closeCurrent h).
Proof.
  intros [H1 _] i Hi. unfold closeCurrent in Hi. destruct (ws (refs h)) as [c|] eqn:Ec.
  - unfold live in Hi. rewrite readyAt_close in Hi. case_decide as E.
    + destruct (readyAt c h) as [[]|]; naive_solver.
    + specialize (H1 i Hi). congruence.
  - specialize (H1 i Hi). congruence.
Qed.

Lemma closeCurrent_same h :
  refs (closeCurrent h) = refs h /\ length (sockets (world (closeCurrent h))) = length (sockets (world h)).
Proof. unfold closeCurrent. destruct (ws (refs h)); [|done]. by rewrite close_refs, close_length. Qed.

Lemma cleanup_none h :
  one_live h -> (forall i, ~ live i (cleanup h)) /\ ws (refs (cleanup h)) = ws (refs h)
    /\ length (sockets (world (cleanup h))) = length (sockets (world h)).
Proof.
  intros Hone. unfold cleanup.
  assert (H1 : one_live (clearPending h)).
  { unfold clearPending. destruct (reconnectTimeoutId _); [by apply (one_live_eq h)|done]. }
  destruct (closeCurrent_same (clearPending h)) as [-> ->]. split; [by apply closeCurrent_none|].
  unfold clearPending. by destruct (reconnectTimeoutId _).
Qed.

(** Opening a socket once none is live. *)
Lemma connect_one_live u h : one_live h -> one_live (connect u h).
Proof.
  intros Hone. unfold connect, MobileSocket.connect.
  set (h1 := match reconnectTimeoutId (refs h) with Some _ => _ | None => _ end).
  assert (H1 : one_live h1) by (by unfold h1; destruct (reconnectTimeoutId (refs h)); apply (one_live_eq h)).
  pose proof (closeCurrent_none h1 H1) as Hnone. destruct (closeCurrent_same h1) as [Hrefs Hlen].
  destruct (validUrl u).
  - split; cbn.
    + intros i Hi. unfold live, readyAt in Hi. cbn in Hi. f_equal.
      destruct (decide (i < length (sockets (world (closeCurrent h1))))%nat) as [Hlt|Hge].
      * rewrite lookup_app_l in Hi by done. destruct (Hnone i Hi).
      * rewrite lookup_app_r in Hi by lia.
        destruct (i - length (sockets (world (closeCurrent h1))))%nat eqn:E; [lia|]. cbn in Hi. naive_solver.
    + intros i [= <-]. rewrite length_app. cbn. lia.
  - split; cbn; [intros i Hi; by destruct (Hnone i Hi)|]. rewrite Hrefs, Hlen. apply H1.
Qed.

Lemma set_ready_one_live r i h :
  one_live h -> (r = OPEN -> readyAt i h = Some CONNECTING) -> r <> CONNECTING -> one_live (set_ready r i h).
Proof.
  intros Hone Hr Hn. apply (one_live_same h); [done|done|cbn; by rewrite length_alter|].
  intros j. unfold live. rewrite !readyAt_set. case_decide as E; [|done]. subst j.
  destruct (readyAt i h) as [r0|] eqn:Ei; cbn; [|naive_solver].
  intros [[= ->]|[= ->]]; [done|]. left. by apply Hr.
Qed.

Lemma send_same text h (h' := (send text h).2) :
  view h' = view h /\ refs h' = refs h /\ mounted h' = mounted h /\ timers (world h') = timers (world h)
  /\ now (world h') = now (world h) /\ length (sockets (world h')) = length (sockets (world h))
  /\ forall j, readyAt j h' = readyAt j h.
Proof.
  unfold h', send. destruct (ws (refs h)) as [c|]; [|done].
  destruct (readyAt c h) as [[]|]; try done. destruct text as [t|]; [|done].
  cbn. rewrite length_alter. split_and!; try done. intros j. unfold readyAt. cbn.
  destruct (decide (c = j)) as [<-|Hne].
  - rewrite list_lookup_alter_eq. by destruct (sockets (world h) !! c).
  - by rewrite list_lookup_alter_ne.
Qed.

Lemma handle_one_live e h h' : one_live h -> handle e h = Some h' -> one_live h'.
Proof.
  intros Hone. destruct e as [i|i data|i clean|t| |next|text|u| |ms]; cbn.
  - case_bool_decide as E; [|done]. intros [= <-].
    assert (Hset : one_live (set_ready OPEN i h)) by (by apply set_ready_one_live).
    by apply (one_live_eq _ _ Hset).
  - case_bool_decide as E; [|done]. intros [= <-]. unfold onmessage.
    destruct (Text.JSON_parse data) as [raw|]; [|done]. destruct (BaseMessageSchema raw); [|done].
    by apply (one_live_eq h).
  - destruct (sockets (world h) !! i) as [s|]; [|done]. destruct (_ || _); [done|]. intros [= <-].
    assert (Hset : one_live (set_ready CLOSED i h)) by (by apply set_ready_one_live).
    unfold onclose. destruct clean; [by apply (one_live_eq _ _ Hset)|].
    destruct (_ <=? _); by apply (one_live_eq _ _ Hset).
  - destruct (timers (world h) !! t) as [[u due]|]; [|done]. destruct (due <=? _); [|done]. intros [= <-].
    apply connect_one_live. by apply (one_live_eq h).
  - destruct (mounted h); [|done]. intros [= <-]. apply connect_one_live. by apply (one_live_eq h).
  - destruct (mounted h); [|done]. intros [= <-].
    assert (Hre : one_live (reconnect validUrl h)).
    { apply connect_one_live. by apply (one_live_eq h). }
    unfold onAppState. destruct (_ && _ && _); [by apply (one_live_eq _ _ Hre)|by apply (one_live_eq h)].
  - intros [= <-]. destruct (send_same text h) as (_ & Hr & _ & _ & _ & Hl & Hj).
    apply (one_live_same h); [done|by rewrite Hr|done|]. intros j. unfold live. by rewrite Hj.
  - destruct (_ && _); [|done]. intros [= <-]. apply connect_one_live. destruct (cleanup_none (setUrl u h)) as (Hn & Hw & Hl);
      [by apply (one_live_eq h)|]. split; [intros i Hi; by destruct (Hn i)|]. rewrite Hw, Hl. apply Hone.
  - destruct (mounted h); [|done]. intros [= <-]. destruct (cleanup_none h Hone) as (Hn & Hw & Hl).
    split; [intros i Hi; by destruct (Hn i)|]. change (forall i, ws (refs (cleanup h)) = Some i ->
      (i < length (sockets (world (cleanup h))))%nat). rewrite Hw, Hl. apply Hone.
  - destruct (0 <=? ms); [|done]. intros [= <-]. by apply (one_live_eq h).
Qed.
(** ** Runs that abandon no live socket *)

Definition currentReady (h : Hook) : option ReadyState := ws (refs h) ≫= fun i => readyAt i h.

(** The user retries, or the app comes to the foreground, only when the
    connection is down; the address stays, and the component too. *)
Definition calm (e : Event) (h : Hook) : bool :=
  match e with
  | Url _ | Unmount => false
  | Retry => negb (bool_decide (currentReady h = Some CONNECTING)) && negb (bool_decide (currentReady h = Some OPEN))
  | AppState _ => negb (bool_decide (currentReady h = Some CONNECTING))
  | _ => true
  end.

Inductive calm_step (h : Hook) : Hook -> Prop :=
| CalmStep e h' : calm e h = true -> handle e h = Some h' -> calm_step h h'.

(** The timers: none, or the one the hook knows. *)
Definition one_timer (h : Hook) : Prop :=
  timers (world h) = ∅ \/ exists t p, reconnectTimeoutId (refs h) = Some t /\ timers (world h) = {[t := p]}.

Record settled (h : Hook) : Prop := {
  s_mounted : mounted h = true;
  s_exists : forall i, ws (refs h) = Some i -> (i < length (sockets (world h)))%nat;
  s_stale : forall i r, readyAt i h = Some r -> ws (refs h) <> Some i -> r = CLOSED;
  s_attempts : 0 <= reconnectAttemptsRef (refs h) <= MAX_RECONNECT_ATTEMPTS;
  s_shown : reconnectAttempt (view h) = reconnectAttemptsRef (refs h)
}.

(** What the app shows of the connection, and when a retry is pending. *)
Definition shows (h : Hook) : Prop :=
  match currentReady h with
  | Some OPEN => connectionState (view h) = Connected /\ timers (world h) = ∅
  | Some CONNECTING => connectionState (view h) = Connecting /\ timers (world h) = ∅
  | Some CLOSING => False
  | Some CLOSED | None =>
      timers (world h) = ∅ /\ (connectionState (view h) = Disconnected \/ connectionState (view h) = Failed)
      \/ connectionState (view h) = Disconnected /\ reconnectAttemptsRef (refs h) < MAX_RECONNECT_ATTEMPTS
         /\ exists t u due, reconnectTimeoutId (refs h) = Some t /\ timers (world h) = {[t := (u, due)]}
              /\ due <= now (world h) + MAX_RECONNECT_DELAY_MS
  end.

Record quiet (h : Hook) : Prop := {
  q_settled : settled h;
  q_connected : isConnected (view h) = bool_decide (connectionState (view h) = Connected);
  q_shows : shows h
}.

Lemma closeCurrent_idle h : currentReady h = None \/ currentReady h = Some CLOSED -> closeCurrent h = h.
Proof.
  unfold closeCurrent, currentReady. destruct (ws (refs h)) as [c|]; [|done]. cbn. unfold close.
  by intros [-> | ->].
Qed.

Lemma connect_quiet u h :
  settled h -> isConnected (view h) = false -> one_timer h -> currentReady h = None \/ currentReady h = Some CLOSED ->
  quiet (connect u h) /\ timers (world (connect u h)) = ∅
  /\ connectionState (view (connect u h)) = (if validUrl u then Connecting else Failed).
Proof.
  intros [Hm He Hs Ha Hv] Hc Ht Hi. unfold connect, MobileSocket.connect.
  set (h1 := match reconnectTimeoutId (refs h) with Some _ => _ | None => _ end).
  assert (H1 : view h1 = view h /\ sockets (world h1) = sockets (world h) /\ mounted h1 = mounted h
    /\ ws (refs h1) = ws (refs h) /\ reconnectAttemptsRef (refs h1) = reconnectAttemptsRef (refs h)
    /\ timers (world h1) = ∅).
  { unfold h1. destruct Ht as [Ht|(t & p & Hid & Ht)].
    - destruct (reconnectTimeoutId (refs h)); cbn; rewrite ?Ht, ?delete_empty; done.
    - rewrite Hid. cbn. rewrite Ht. split_and!; try done. apply delete_singleton_eq. }
  destruct H1 as (Ev & Es & Em & Ew & Ea & Et).
  assert (Hready : forall i, readyAt i h1 = readyAt i h) by (intros i; unfold readyAt; by rewrite Es).
  assert (Hi1 : currentReady h1 = None \/ currentReady h1 = Some CLOSED).
  { unfold currentReady in *. rewrite Ew. by destruct (ws (refs h)); cbn in *; rewrite ?Hready. }
  rewrite (closeCurrent_idle h1 Hi1). destruct (validUrl u) eqn:Eu.
  - split_and!; [|done|by cbn; rewrite Em, Hm]. split; [split| |]; cbn; rewrite ?Em, ?Hm, ?Es, ?Ea, ?Ev; try done.
    + intros i [= <-]. rewrite length_app. cbn. lia.
    + intros i r Hr Hne. unfold readyAt in Hr. cbn in Hr. rewrite Es in Hr.
      assert (i <> length (sockets (world h))) by congruence.
      destruct (decide (i < length (sockets (world h)))%nat) as [Hlt|Hge].
      * rewrite lookup_app_l in Hr by done. destruct (decide (ws (refs h) = Some i)) as [Hc'|Hc'].
        -- unfold currentReady in Hi. rewrite Hc' in Hi. cbn in Hi. unfold readyAt in Hi. rewrite Hr in Hi. naive_solver.
        -- by apply (Hs i).
      * rewrite lookup_ge_None_2 in Hr; [done|]. rewrite length_app. cbn. lia.
    + unfold shows, currentReady, readyAt. cbn. rewrite Es, lookup_app_r, Nat.sub_diag by lia. cbn.
      by rewrite Em, Hm.
  - split_and!; [|done|by cbn; rewrite Em, Hm]. split; [split| |]; cbn; rewrite ?Em, ?Hm, ?Es, ?Ea, ?Ev, ?Ew; try done.
    + intros i r Hr Hne. apply (Hs i r); [|done]. by rewrite <- Hready.
    + unfold shows. change (currentReady (setConnectionState Failed (setConnectionState Connecting h1)))
        with (currentReady h1). cbn. rewrite Em, Hm. destruct Hi1 as [-> | ->]; by left; split; [|right].
Qed.

Lemma delay_range n : 0 <= n -> BASE_RECONNECT_DELAY_MS <= reconnectDelay n <= MAX_RECONNECT_DELAY_MS.
Proof.
  intros Hn. unfold reconnectDelay, BASE_RECONNECT_DELAY_MS, MAX_RECONNECT_DELAY_MS.
  pose proof (Z.pow_pos_nonneg 2 n ltac:(lia) Hn). lia.
Qed.

Lemma current_of i h r : settled h -> readyAt i h = Some r -> r <> CLOSED -> ws (refs h) = Some i.
Proof.
  intros [_ _ Hs _ _] Hr Hne. destruct (decide (ws (refs h) = Some i)) as [|Hd]; [done|].
  by destruct Hne, (Hs i r Hr Hd).
Qed.

(** A new state of the current socket keeps the hook settled. *)
Lemma set_ready_settled r i h : settled h -> ws (refs h) = Some i -> settled (set_ready r i h).
Proof.
  intros [Hm He Hs Ha Hv] Hw. split; cbn; rewrite ?length_alter; try done.
  intros j r' Hr Hne. rewrite readyAt_set in Hr. rewrite decide_False in Hr by congruence. by apply (Hs j).
Qed.

(** A socket that was closed stays closed: only the current one has events. *)
Lemma closed_quiet u i clean h :
  quiet h -> ws (refs h) = Some i -> readyAt i h = Some CONNECTING \/ readyAt i h = Some OPEN ->
  let h' := onclose u clean (set_ready CLOSED i h) in
  quiet h' /\ currentReady h' = Some CLOSED /\ reconnectAttemptsRef (refs h') = reconnectAttemptsRef (refs h)
  /\ if clean then connectionState (view h') = Disconnected /\ timers (world h') = ∅
     else if MAX_RECONNECT_ATTEMPTS <=? reconnectAttemptsRef (refs h)
     then connectionState (view h') = Failed /\ timers (world h') = ∅
     else connectionState (view h') = Disconnected
          /\ reconnectTimeoutId (refs h') = Some (nextTimer (world h))
          /\ timers (world h') =
               {[nextTimer (world h) := (u, now (world h) + reconnectDelay (reconnectAttemptsRef (refs h)))]}.
Proof.
  intros [Hset Hc Hshow] Hw Hr h'. assert (Ht : timers (world h) = ∅).
  { unfold shows, currentReady in Hshow. rewrite Hw in Hshow. cbn in Hshow. destruct Hr as [-> | ->] in Hshow; apply Hshow. }
  assert (Hset' : settled (set_ready CLOSED i h)) by (by apply set_ready_settled).
  assert (Hcl : readyAt i (set_ready CLOSED i h) = Some CLOSED).
  { rewrite readyAt_set, decide_True by done. by destruct Hr as [-> | ->]. }
  pose proof (s_mounted _ Hset) as Hm. pose proof (s_attempts _ Hset) as Ha.
  assert (Hcur : currentReady h' = Some CLOSED /\ settled h').
  { unfold h', onclose. destruct Hset' as [Hm' He Hs Ha' Hv'].
    destruct clean; [|destruct (_ <=? _)]; (split; [unfold currentReady; cbn; by rewrite Hw|split; cbn; rewrite ?Hm; done]). }
  destruct Hcur as [Hcur Hset1].
  assert (Hend : isConnected (view h') = false /\ reconnectAttemptsRef (refs h') = reconnectAttemptsRef (refs h)).
  { unfold h', onclose. destruct clean; [|cbn -[Z.leb]; destruct (_ <=? _)]; cbn; by rewrite Hm. }
  destruct Hend as [Hdis Hatt].
  assert (Hcase : if clean then connectionState (view h') = Disconnected /\ timers (world h') = ∅
     else if MAX_RECONNECT_ATTEMPTS <=? reconnectAttemptsRef (refs h)
     then connectionState (view h') = Failed /\ timers (world h') = ∅
     else connectionState (view h') = Disconnected
          /\ reconnectTimeoutId (refs h') = Some (nextTimer (world h))
          /\ timers (world h') =
               {[nextTimer (world h) := (u, now (world h) + reconnectDelay (reconnectAttemptsRef (refs h)))]}).
  { unfold h', onclose. destruct clean; cbn -[Z.leb]; [by rewrite Hm|].
    destruct (_ <=? _); cbn; rewrite ?Hm; [done|]. by rewrite Ht. }
  split_and!; [|done|done|exact Hcase]. split; [done| |].
  - rewrite Hdis. destruct clean; [|destruct (_ <=? _)]; destruct Hcase as [-> _]; done.
  - unfold shows. rewrite Hcur. destruct clean; [by destruct Hcase; left; split; [|left]|].
    destruct (_ <=? _) eqn:E; [by destruct Hcase; left; split; [|right]|]. right. bprop.
    destruct Hcase as (Hst & Hid & Htm). rewrite Hatt. split_and!; [done|lia|].
    exists (nextTimer (world h)), u, (now (world h) + reconnectDelay (reconnectAttemptsRef (refs h))).
    split_and!; [done|done|]. pose proof (delay_range (reconnectAttemptsRef (refs h)) ltac:(lia)).
    replace (now (world h')) with (now (world h)); [lia|]. unfold h', onclose. cbn -[Z.leb]. by rewrite (proj2 (Z.leb_gt _ _) E).
Qed.

Lemma shows_timer h : shows h -> one_timer h.
Proof.
  unfold shows, one_timer. destruct (currentReady h) as [[]|]; [naive_solver..|done| |];
    intros [[? _]|(_ & _ & t & u & due & ? & ? & _)]; eauto.
Qed.

(** With a timer pending, the connection is down. *)
Lemma timer_down h t p : quiet h -> timers (world h) !! t = Some p ->
  isConnected (view h) = false /\ (currentReady h = None \/ currentReady h = Some CLOSED)
  /\ reconnectAttemptsRef (refs h) < MAX_RECONNECT_ATTEMPTS /\ reconnectTimeoutId (refs h) = Some t
  /\ timers (world h) = {[t := p]} /\ p.2 <= now (world h) + MAX_RECONNECT_DELAY_MS.
Proof.
  intros [Hs Hc Hsh] Ht. unfold shows in Hsh. rewrite Hc.
  assert (Hpend : connectionState (view h) = Disconnected -> forall t' u due, reconnectTimeoutId (refs h) = Some t' ->
      timers (world h) = {[t' := (u, due)]} -> due <= now (world h) + MAX_RECONNECT_DELAY_MS ->
      bool_decide (connectionState (view h) = Connected) = false /\ reconnectTimeoutId (refs h) = Some t
      /\ timers (world h) = {[t := p]} /\ p.2 <= now (world h) + MAX_RECONNECT_DELAY_MS).
  { intros Hd t' u due Hid Htm Hdue. rewrite Htm in Ht. apply lookup_singleton_Some in Ht as [-> <-].
    rewrite Hd, bool_decide_eq_false_2 by done. done. }
  destruct (currentReady h) as [[]|]; [by destruct Hsh as [_ Hno]; rewrite Hno in Ht..|done| |];
    (destruct Hsh as [[Hno _]|(Hd & Hlt & t' & u & due & Hid & Htm & Hdue)]; [rewrite Hno in Ht; done|]);
    destruct (Hpend Hd t' u due Hid Htm Hdue) as (? & ? & ? & ?); split_and!; try done; [by right|by left].
Qed.

(** Dialling again from a quiet state that is down. *)
Lemma redial_quiet u n h :
  quiet h -> currentReady h <> Some CONNECTING -> currentReady h <> Some OPEN -> 0 <= n <= MAX_RECONNECT_ATTEMPTS ->
  quiet (connect u (setReconnectAttempt n (set_attempts n h))).
Proof.
  intros [Hset Hc Hsh] H1 H2 Hn. pose proof (s_mounted _ Hset) as Hm.
  apply connect_quiet.
  - destruct Hset as [_ He Hs Ha Hv]. split; cbn; rewrite ?Hm; done.
  - unfold shows in Hsh. cbn. rewrite Hm. cbn. rewrite Hc. apply bool_decide_eq_false. intros Hco.
    destruct (currentReady h) as [[]|]; intuition congruence.
  - exact (shows_timer h Hsh).
  - change (currentReady (setReconnectAttempt n (set_attempts n h))) with (currentReady h).
    unfold shows in Hsh. destruct (currentReady h) as [[]|]; naive_solver.
Qed.

Lemma opened_quiet i h : quiet h -> readyAt i h = Some CONNECTING -> quiet (onopen (set_ready OPEN i h)).
Proof.
  intros [Hset Hc Hsh] Hi. pose proof (s_mounted _ Hset) as Hm.
  assert (Hw : ws (refs h) = Some i) by (by eapply current_of).
  pose proof (set_ready_settled OPEN i h Hset Hw) as [_ He Hs Ha Hv].
  split; [split| |]; cbn; rewrite ?Hm; try done.
  unfold shows. change (currentReady (onopen (set_ready OPEN i h))) with (currentReady (set_ready OPEN i h)).
  unfold currentReady. change (ws (refs (set_ready OPEN i h))) with (ws (refs h)). rewrite Hw.
  cbn [mbind option_bind]. rewrite readyAt_set, decide_True, Hi by done. cbn. rewrite Hm. split; [done|].
  unfold shows, currentReady in Hsh. rewrite Hw in Hsh. cbn [mbind option_bind] in Hsh. rewrite Hi in Hsh. apply Hsh.
Qed.

(** The only socket that can close is the current one. *)
Lemma handle_closed_live i clean h h' :
  quiet h -> handle (Closed i clean) h = Some h' ->
  exists u, ws (refs h) = Some i /\ (readyAt i h = Some CONNECTING \/ readyAt i h = Some OPEN)
    /\ h' = onclose u clean (set_ready CLOSED i h).
Proof.
  intros [Hset _ Hsh]. cbn -[readyAt Z.leb]. destruct (sockets (world h) !! i) as [s|] eqn:Es; [|done].
  destruct (bool_decide (s_ready s = CLOSED)) eqn:Ed; [done|]. destruct (clean && _); [done|]. intros [= <-].
  apply bool_decide_eq_false in Ed. assert (Hr : readyAt i h = Some (s_ready s)) by (unfold readyAt; by rewrite Es).
  assert (Hw : ws (refs h) = Some i) by (by eapply current_of). exists (s_url s). split_and!; [done| |done].
  unfold shows, currentReady in Hsh. rewrite Hw in Hsh. cbn [mbind option_bind] in Hsh. rewrite Hr in *.
  destruct (s_ready s); naive_solver.
Qed.

Lemma handle_quiet e h h' : quiet h -> calm e h = true -> handle e h = Some h' -> quiet h'.
Proof.
  intros Hq He. pose proof Hq as [Hset Hc Hsh]. pose proof (s_mounted _ Hset) as Hm.
  destruct e as [i|i data|i clean|t| |next|text|u| |ms]; cbn -[readyAt Z.leb]; cbn in He.
  - destruct (bool_decide (readyAt i h = _)) eqn:Hi; [apply bool_decide_eq_true in Hi|done]. intros [= <-].
    by apply opened_quiet.
  - destruct (bool_decide (readyAt i h = _)) eqn:Hi; [apply bool_decide_eq_true in Hi|done]. intros [= <-]. unfold onmessage.
    destruct (Text.JSON_parse data) as [raw|]; [|done]. destruct (BaseMessageSchema raw); [|done].
    destruct Hset as [_ He' Hs' Ha' Hv']. split; [split| |]; cbn; rewrite ?Hm; try done.
    unfold shows in *. cbn. rewrite Hm. exact Hsh.
  - intros Hh. destruct (handle_closed_live i clean h h' Hq Hh) as (u & Hw & Hr & ->). by apply closed_quiet.
  - destruct (timers (world h) !! t) as [[u due]|] eqn:Et; [|done]. destruct (due <=? _); [|done]. intros [= <-].
    destruct (timer_down h t _ Hq Et) as (Hd & Hi & Hlt & Hid & Htm & _). apply connect_quiet.
    + destruct Hset as [_ He' Hs' Ha' Hv']. split; cbn; rewrite ?Hm; try done. unfold MAX_RECONNECT_ATTEMPTS in *. lia.
    + cbn. by rewrite Hm.
    + left. cbn. rewrite Htm. apply delete_singleton_eq.
    + exact Hi.
  - rewrite Hm. intros [= <-]. bprop.
    apply redial_quiet; [done..|unfold MAX_RECONNECT_ATTEMPTS; lia].
  - rewrite Hm. intros [= <-]. bprop. unfold onAppState. destruct (_ && _ && _) eqn:Eb.
    + bprop. apply (redial_quiet (url h) 0) in Hq; [|done| |unfold MAX_RECONNECT_ATTEMPTS; lia].
      { destruct Hq as [[? ? ? ? ?] ? ?]. by split; [split| |]. }
      intros Hop. unfold shows in Hsh. rewrite Hop in Hsh. naive_solver.
    + destruct Hset as [? ? ? ? ?]. by split; [split| |].
  - intros [= <-]. destruct (send_same text h) as (Ev & Er & Em & Et & En & El & Ej).
    destruct Hset as [_ He' Hs' Ha' Hv']. split; [split| |]; rewrite ?Ev, ?Er, ?Em, ?El; try done.
    + intros j r. rewrite Ej. apply Hs'.
    + unfold shows, currentReady in *. rewrite Ev, Er, Et, En. destruct (ws (refs h)); [|done]. cbn in *. by rewrite Ej.
  - done.
  - done.
  - destruct (0 <=? ms) eqn:Ems; [|done]. intros [= <-]. bprop. destruct Hset as [_ He' Hs' Ha' Hv'].
    split; [split| |]; try done. unfold shows in *. cbn. destruct (currentReady h) as [[]|] eqn:Ecur;
      change (currentReady (setWorld _ h)) with (currentReady h); rewrite Ecur; try done;
      (destruct Hsh as [?|(? & ? & t & u & due & ? & ? & ?)]; [by left|right]; split_and!; [done..|];
       exists t, u, due; split_and!; [done..|lia]).
Qed.

Lemma run_reaches l h : rtc step h (run l h).
Proof.
  revert h. induction l as [|e l IH]; intros h; [done|]. change (run (e :: l) h) with (run l (default h (handle e h))).
  destruct (handle e h) as [h'|] eqn:E; [|apply IH]. eapply rtc_l; [by apply (Step _ _ e)|apply IH].
Qed.

(** ** The theorems *)

Lemma hookStart_settled u t : settled (hookStart u t).
Proof. split; try done. Qed.

Lemma mount_quiet u t : quiet (mount u t).
Proof. apply connect_quiet; [apply hookStart_settled|done|by left|by left]. Qed.

Lemma reachable_one_live u t h : rtc step (mount u t) h -> one_live h.
Proof.
  intros H. assert (Hm : one_live (mount u t)) by (apply connect_one_live; split; [intros i [|]|]; done).
  revert Hm. induction H as [|h1 h2 h3 [e h' He] _ IH]; [done|]. intros Hm. apply IH. by eapply handle_one_live.
Qed.

(** C36. One live connection: in every run, whatever is closed, retried or resumed
    and in whatever order the sockets report, the only socket that is connecting
    or open is the one messages are sent to; so what is received comes from it,
    and [send] succeeds exactly when it is open and takes the message. *)
Theorem one_live_socket u t h :
  rtc step (mount u t) h ->
  (forall i, live i h -> ws (refs h) = Some i)
  /\ (forall i data h', handle (Received i data) h = Some h' -> ws (refs h) = Some i)
  /\ (forall text, (send (Some text) h).1 = true <-> currentReady h = Some OPEN).
Proof.
  intros H. apply reachable_one_live in H as [H1 _]. split_and!; [done| |].
  - intros i data h'. cbn. case_bool_decide as Hi; [|done]. intros _. apply H1. by right.
  - intros text. unfold send, currentReady. destruct (ws (refs h)) as [c|]; cbn; [|done].
    by destruct (readyAt c h) as [[]|].
Qed.

(** While no live connection is abandoned, the app shows the state of its
    socket: connected exactly while it is open; at most one retry is pending,
    only while the connection is down, at most 30 seconds ahead, and at most ten
    retries follow each other; a connection lost uncleanly is retried or given
    up as failed after the tenth. *)
Theorem quiet_connection u t h :
  rtc calm_step (mount u t) h ->
  (connectionState (view h) = Connected <-> currentReady h = Some OPEN)
  /\ (isDisconnected h = negb (isConnected (view h)))
  /\ (forall k p, timers (world h) !! k = Some p ->
        timers (world h) = {[k := p]} /\ isDisconnected h = true /\ p.2 <= now (world h) + 30000
        /\ reconnectAttempt (view h) < 10)
  /\ 0 <= reconnectAttempt (view h) <= 10
  /\ forall i h', handle (Closed i false) h = Some h' ->
       connectionState (view h') = (if reconnectAttempt (view h) <? 10 then Disconnected else Failed)
       /\ (timers (world h') = ∅ <-> reconnectAttempt (view h) = 10).
Proof.
  intros H. assert (Hq : quiet h).
  { pose proof (mount_quiet u t) as Hm. revert Hm. induction H as [|h1 h2 h3 [e h' Hc He] _ IH]; [done|].
    intros Hm. apply IH. by eapply handle_quiet. }
  clear H. pose proof Hq as [Hset Hc Hsh]. pose proof (s_attempts _ Hset) as Ha. rewrite (s_shown _ Hset).
  unfold MAX_RECONNECT_ATTEMPTS in Ha.
  assert (Hdis : isDisconnected h = negb (isConnected (view h))) by (unfold isDisconnected; by rewrite Hc).
  split_and!; [|done| |lia|lia|].
  - unfold shows in Hsh. destruct (currentReady h) as [[]|]; intuition congruence.
  - intros k p Hp. destruct (timer_down h k p Hq Hp) as (Hd & _ & Hlt & _ & Htm & Hdue).
    rewrite Hdis, Hd. by unfold MAX_RECONNECT_ATTEMPTS, MAX_RECONNECT_DELAY_MS in *.
  - intros i h' Hh. pose proof (handle_closed_live i false h h' Hq Hh) as (u' & Hw & Hr & ->).
    destruct (closed_quiet u' i false h Hq Hw Hr) as (_ & _ & _ & Hcase).
    rewrite Z.leb_antisym in Hcase. unfold MAX_RECONNECT_ATTEMPTS in Hcase.
    destruct (reconnectAttemptsRef (refs h) <? 10) eqn:E; cbn [negb] in Hcase.
    + destruct Hcase as (-> & _ & ->). bprop. split; [done|]. split; [|lia].
      intros H0. by apply (f_equal (lookup (nextTimer (world h)))) in H0; rewrite lookup_singleton_eq in H0.
    + destruct Hcase as [-> ->]. bprop. split; [done|]. split; [lia|done].
Qed.

Lemma close_url i h : url (close i h) = url h.
Proof. unfold close. by destruct (readyAt i h) as [[]|]. Qed.

Lemma connect_url u h : url (connect u h) = url h.
Proof.
  unfold connect, MobileSocket.connect, closeCurrent.
  destruct (reconnectTimeoutId (refs h)); cbn; destruct (ws (refs h)); destruct (validUrl u); cbn; by rewrite ?close_url.
Qed.

Definition keepsUrl (e : Event) : bool := match e with Closed _ _ | Passed _ | Timer _ => true | _ => false end.

Lemma run_url l h u : Forall (fun e => keepsUrl e = true) l -> url h = u -> url (run l h) = u.
Proof.
  revert h. induction l as [|e l IH]; intros h Hall Hu; [done|]. apply Forall_cons in Hall as [He Hall].
  apply IH; [done|]. destruct e; try done; cbn.
  - destruct (sockets (world h) !! i); [|done]. destruct (_ || _); [done|]. cbn. unfold onclose.
    destruct wasClean; [done|]. by destruct (_ <=? _).
  - destruct (timers (world h) !! t) as [[u' due]|]; [|done]. destruct (due <=? _); [|done]. unfold onTimer; cbn [default from_option id]; by rewrite connect_url.
  - by destruct (0 <=? ms).
Qed.

(** ** An outage *)

Record dialing (u : string) (i tm : nat) (k : Z) (t : Z) (h : Hook) : Prop := {
  d_quiet : quiet h;
  d_ws : ws (refs h) = Some i;
  d_socket : sockets (world h) !! i = Some {| s_url := u; s_ready := CONNECTING; s_opened := false; s_sent := [] |};
  d_length : length (sockets (world h)) = S i;
  d_timer : nextTimer (world h) = tm;
  d_attempts : reconnectAttemptsRef (refs h) = k;
  d_now : now (world h) = t
}.

(** Every attempt fails: one retry for each element of [l], of which the next is
    timer [tm], with [k] before them, and the failure of the last.  A dial takes
    any time before it fails, the last one [d], and a timer may be late. *)
Record Try := { t_dial : Z; t_late : Z }.

Fixpoint outage (l : list Try) (d : Z) (i tm : nat) (k : Z) : list Event :=
  match l with
  | [] => [Passed d; Closed i false]
  | r :: l =>
      Passed (t_dial r) :: Closed i false :: Passed (reconnectDelay k + t_late r) :: Timer tm
      :: outage l d (S i) (S tm) (k + 1)
  end.

Definition patient (r : Try) : Prop := 0 <= t_dial r /\ 0 <= t_late r.
Definition taken (l : list Try) : Z := zsum (fun r => t_dial r + t_late r) l.

Fixpoint waiting (n : nat) (k : Z) : Z :=
  match n with O => 0 | S n => reconnectDelay k + waiting n (k + 1) end.

Lemma dialing_passed u i tm k t h d :
  0 <= d -> dialing u i tm k t h ->
  exists h', handle (Passed d) h = Some h' /\ dialing u i tm k (t + d) h'.
Proof.
  intros H0 Hd. pose proof Hd as [Hq Hw Hs Hl Ht Ha Hn].
  assert (E : handle (Passed d) h = Some (setWorld (fun w =>
    {| sockets := sockets w; timers := timers w; nextTimer := nextTimer w; now := now w + d |}) h))
    by (cbn; by rewrite (proj2 (Z.leb_le 0 d))).
  eexists. split; [exact E|]. split; try done; [by eapply (handle_quiet (Passed d) h)|]. cbn. lia.
Qed.

Lemma handle_lost u i tm k t h :
  dialing u i tm k t h -> handle (Closed i false) h = Some (onclose u false (set_ready CLOSED i h)).
Proof. intros [_ _ Hs _ _ _ _]. cbn. by rewrite Hs. Qed.

Lemma one_failure u i tm k late t h :
  validUrl u = true -> dialing u i tm k t h -> k < MAX_RECONNECT_ATTEMPTS -> 0 <= late ->
  dialing u (S i) (S tm) (k + 1) (t + (reconnectDelay k + late))
    (run [Closed i false; Passed (reconnectDelay k + late); Timer tm] h).
Proof.
  intros Hu Hd Hk Hlate. pose proof Hd as [Hq Hw Hs Hl Ht Ha Hn]. pose proof (s_attempts _ (q_settled _ Hq)) as Hrange.
  pose proof (delay_range (reconnectAttemptsRef (refs h)) ltac:(lia)) as Hdelay. rewrite Ha in Hrange, Hdelay.
  set (h1 := onclose u false (set_ready CLOSED i h)).
  assert (Hr : readyAt i h = Some CONNECTING) by (unfold readyAt; by rewrite Hs).
  destruct (closed_quiet u i false h Hq Hw (or_introl Hr)) as (Hq1 & Hcur1 & Hatt1 & Hcase). fold h1 in Hq1, Hcur1, Hatt1, Hcase.
  rewrite Ha in Hcase. rewrite (proj2 (Z.leb_gt _ _)) in Hcase by lia. destruct Hcase as (_ & Hid & Htm).
  rewrite Ht, Hn in *.
  assert (Hsock : length (sockets (world h1)) = S i /\ nextTimer (world h1) = S tm /\ now (world h1) = t).
  { unfold h1, onclose. cbn -[Z.leb]. rewrite Ha, (proj2 (Z.leb_gt _ _)) by lia. cbn. by rewrite length_alter, Hl, Ht, Hn. }
  destruct Hsock as (Hl1 & Hnt1 & Hn1).
  unfold run, MobileSocket.run. cbn [foldl]. rewrite (handle_lost u i tm k t h Hd). fold h1. clearbody h1. cbn [default from_option id].
  cbn [MobileSocket.handle]. rewrite (proj2 (Z.leb_le 0 _)) by (unfold BASE_RECONNECT_DELAY_MS in Hdelay; lia).
  cbn [default from_option id].
  set (h2 := setWorld _ h1).
  assert (Hq2 : quiet h2).
  { eapply (handle_quiet (Passed (reconnectDelay k + late)) h1); [done|done|]. cbn.
    rewrite (proj2 (Z.leb_le 0 _)) by (unfold BASE_RECONNECT_DELAY_MS in Hdelay; lia). done. }
  assert (Ht2 : timers (world h2) !! tm = Some (u, t + reconnectDelay k)).
  { change (timers (world h2)) with (timers (world h1)). rewrite Htm. apply lookup_singleton_eq. }
  assert (Hn2 : now (world h2) = t + (reconnectDelay k + late)) by (unfold h2; cbn; by rewrite Hn1).
  assert (Hfire : handle (Timer tm) h2 = Some (onTimer validUrl u (clearTimeout tm h2))).
  { cbn [MobileSocket.handle]. rewrite Ht2, Hn2, (proj2 (Z.leb_le _ _)) by lia. done. }
  cbn [MobileSocket.handle] in Hfire. rewrite Hfire. cbn [default from_option id].
  assert (Hq3 : quiet (onTimer validUrl u (clearTimeout tm h2))) by (by eapply (handle_quiet (Timer tm) h2)).
  unfold onTimer, MobileSocket.connect in *. rewrite Hu in *.
  assert (Hid2 : reconnectTimeoutId (refs h2) = Some tm) by exact Hid. cbn in *. rewrite Hid2 in *.
  rewrite closeCurrent_idle in * by (right; exact Hcur1).
  split; cbn; [exact Hq3|by rewrite Hl1| | | | |].
  - rewrite lookup_app_r, Hl1, Nat.sub_diag by lia. done.
  - rewrite length_app, Hl1. cbn. lia.
  - exact Hnt1.
  - change (reconnectAttemptsRef (refs h1) + 1 = k + 1). by rewrite Hatt1, Ha.
  - exact Hn2.
Qed.

Lemma outage_fails u l d : forall i tm k t h,
  validUrl u = true -> dialing u i tm k t h -> k + len l = MAX_RECONNECT_ATTEMPTS -> Forall patient l -> 0 <= d ->
  let h' := run (outage l d i tm k) h in
  connectionState (view h') = Failed /\ timers (world h') = ∅ /\ quiet h' /\ currentReady h' = Some CLOSED
  /\ now (world h') = t + waiting (length l) k + taken l + d /\ length (sockets (world h')) = (S i + length l)%nat.
Proof.
  induction l as [|r l IH]; intros i tm k t h Hu Hd Hk Hp H0; cbv zeta.
  - destruct (dialing_passed u i tm k t h d H0 Hd) as (h1 & E1 & Hd1).
    unfold run, MobileSocket.run. cbn [outage foldl]. rewrite E1. cbn [default from_option id].
    rewrite (handle_lost u i tm k (t + d) h1 Hd1). cbn [default from_option id]. pose proof Hd1 as [Hq Hw Hs Hl Ht Ha Hn].
    assert (Hr : readyAt i h1 = Some CONNECTING) by (unfold readyAt; by rewrite Hs).
    destruct (closed_quiet u i false h1 Hq Hw (or_introl Hr)) as (Hq1 & Hcur1 & _ & Hcase). change (len []) with 0 in Hk.
    rewrite Ha, (proj2 (Z.leb_le _ _)) in Hcase by lia. destruct Hcase as [Hf Htm]. split_and!; try done.
    + unfold onclose. cbn -[Z.leb]. rewrite Ha, (proj2 (Z.leb_le _ _)) by lia. cbn. lia.
    + unfold onclose. cbn -[Z.leb]. rewrite Ha, (proj2 (Z.leb_le _ _)) by lia. cbn. rewrite length_alter. lia.
  - apply Forall_cons in Hp as [[Hr0 Hr1] Hp]. rewrite len_cons in Hk. pose proof (len_nonneg l).
    destruct (dialing_passed u i tm k t h (t_dial r) Hr0 Hd) as (h1 & E1 & Hd1).
    pose proof (one_failure u i tm k (t_late r) _ h1 Hu Hd1 ltac:(lia) Hr1) as Hd'.
    specialize (IH (S i) (S tm) (k + 1) _ _ Hu Hd' ltac:(lia) Hp H0). cbv zeta in IH.
    assert (E : run (outage (r :: l) d i tm k) h = run (outage l d (S i) (S tm) (k + 1))
      (run [Closed i false; Passed (reconnectDelay k + t_late r); Timer tm] h1)).
    { unfold run, MobileSocket.run. cbn [outage foldl]. by rewrite E1. }
    rewrite E. destruct IH as (? & ? & ? & ? & Hnow & Hlen). unfold taken in *. rewrite zsum_cons.
    split_and!; try done; cbn [waiting length]; lia.
Qed.

Lemma mount_dialing u t : validUrl u = true -> dialing u 0 1 0 t (mount u t).
Proof.
  intros Hu. pose proof (mount_quiet u t) as Hq. unfold MobileSocket.mount, MobileSocket.connect in *. cbn in *.
  rewrite Hu in *. by split.
Qed.

Lemma ten_retries : waiting 10 0 = 181000.
Proof. reflexivity. Qed.

Lemma outage_calm l d : forall i tm k, Forall (fun e => keepsUrl e = true) (outage l d i tm k).
Proof. induction l as [|r l IH]; intros i tm k; cbn [outage]; repeat constructor. apply IH. Qed.

Lemma outage_end u t l d h :
  validUrl u = true -> len l = MAX_RECONNECT_ATTEMPTS -> Forall patient l -> 0 <= d ->
  h = run (outage l d 0 1 0) (mount u t) ->
  connectionState (view h) = Failed /\ timers (world h) = ∅ /\ quiet h /\ currentReady h = Some CLOSED
  /\ now (world h) = t + 181000 + taken l + d /\ length (sockets (world h)) = 11%nat /\ url h = u.
Proof.
  intros Hu Hl Hp H0 E. pose proof (outage_fails u l d 0 1 0 t _ Hu (mount_dialing u t Hu) Hl Hp H0) as Hfails.
  pose proof (run_url (outage l d 0 1 0) (mount u t) u) as Hurl.
  cbv zeta in Hfails. rewrite <- E in Hfails, Hurl. unfold len, MAX_RECONNECT_ATTEMPTS in Hl.
  replace (length l) with 10%nat in Hfails by lia. rewrite ten_retries in Hfails.
  destruct Hfails as (? & ? & ? & ? & ? & ?). split_and!; [done..|].
  apply Hurl; [apply outage_calm|apply connect_url].
Qed.

Lemma retry_connects n h :
  validUrl (url h) = true -> quiet h -> currentReady h = Some CLOSED -> length (sockets (world h)) = n ->
  let h' := run [Retry; Opened n] h in
  connectionState (view h') = Connected /\ currentReady h' = Some OPEN /\ reconnectAttempt (view h') = 0.
Proof.
  intros Hu Hq Hcur Hlen h'. pose proof (s_mounted _ (q_settled _ Hq)) as Hm.
  set (h1 := reconnect validUrl h).
  assert (Hh1 : handle Retry h = Some h1) by (cbn; by rewrite Hm).
  assert (Hr1 : readyAt n h1 = Some CONNECTING /\ ws (refs h1) = Some n /\ mounted h1 = true).
  { unfold h1, reconnect, MobileSocket.connect. rewrite Hu. cbn.
    destruct (reconnectTimeoutId (refs h)); rewrite closeCurrent_idle by (right; exact Hcur);
      unfold readyAt; cbn; rewrite lookup_app_r, Hlen, Nat.sub_diag by lia; done. }
  destruct Hr1 as (Hr1 & Hw1 & Hm1).
  assert (E : h' = onopen (set_ready OPEN n h1)).
  { unfold h', run, MobileSocket.run. cbn [foldl]. rewrite Hh1. cbn [default from_option id MobileSocket.handle].
    by rewrite bool_decide_eq_true_2. }
  rewrite E. clear E h'. clearbody h1. cbn. rewrite Hm1. split_and!; [done| |done].
  unfold currentReady. change (ws (refs (onopen (set_ready OPEN n h1)))) with (ws (refs h1)). rewrite Hw1.
  change (readyAt n (set_ready OPEN n h1) = Some OPEN). by rewrite readyAt_set, decide_True, Hr1.
Qed.

(** C37. In an outage in which every dial fails, after whatever time, and timers
    fire at their time or later, the app dials eleven times: it waits 1, 2, 4, 8,
    16 and then 30 seconds between the dials, 181 seconds beside what the dials
    and late timers take, and then stops with the connection marked as failed and
    no timer left; a retry of the user dials once more, and if it succeeds the
    app is connected and the attempts count from zero again. *)
Theorem gives_up u t l d :
  validUrl u = true -> len l = MAX_RECONNECT_ATTEMPTS -> Forall patient l -> 0 <= d ->
  let h := run (outage l d 0 1 0) (mount u t) in
  connectionState (view h) = Failed /\ timers (world h) = ∅ /\ now (world h) = t + 181000 + taken l + d
  /\ length (sockets (world h)) = 11%nat
  /\ let h' := run [Retry; Opened 11] h in
      connectionState (view h') = Connected /\ currentReady h' = Some OPEN /\ reconnectAttempt (view h') = 0.
Proof.
  intros Hu Hl Hp H0 h. destruct (outage_end u t l d h Hu Hl Hp H0 eq_refl) as (Hf & Ht & Hq & Hcur & Hnow & Hlen & Hurl).
  clearbody h. split_and!; [done..|]. apply retry_connects; [by rewrite Hurl|done..].
Qed.

End Socket.

(** ** Abandoned sockets

    With an address the constructor accepts. *)

Definition anyUrl (u : string) : bool := true.

(** The app resumes while its first socket is still connecting: [connect] closes
    it and opens a second one, but the close event of the first comes after the
    second is open.  The app then shows a lost connection over an open socket,
    offers no action, and after the delay closes the open socket. *)
Theorem stale_close_disconnects :
  let h := run anyUrl [AppState Background; AppState Active; Opened 1; Closed 0 false] (mount anyUrl "wss://gateway" 0) in
  ws (refs h) = Some 1%nat /\ readyAt 1 h = Some OPEN /\ isDisconnected h = true
  /\ readyAt 1 (run anyUrl [Passed 1000; Timer 1] h) = Some CLOSING.
Proof. by split_and!; vm_compute. Qed.

(** The hook's component goes while its socket is connecting: the close event
    comes later, is not clean, and dials again; nothing closes that socket. *)
Theorem zombie_connection :
  let h := run anyUrl [Unmount; Closed 0 false; Passed 1000; Timer 1; Opened 1] (mount anyUrl "wss://gateway" 0) in
  mounted h = false /\ readyAt 1 h = Some OPEN.
Proof. by split_and!; vm_compute. Qed.

Lemma one_live_socket_witness : exists h,
  rtc (step anyUrl) (mount anyUrl "wss://gateway" 0) h
  /\ readyAt 1 h = Some OPEN /\ readyAt 0 h = Some CLOSING /\ (send (Some "hello") h).1 = true.
Proof.
  eexists (run anyUrl [AppState Background; AppState Active; Opened 1] (mount anyUrl "wss://gateway" 0)).
  match goal with |- rtc _ _ ?x /\ _ => set (h := x) end.
  assert (Hr : rtc (step anyUrl) (mount anyUrl "wss://gateway" 0) h) by apply run_reaches.
  split_and!; [exact Hr|reflexivity|reflexivity|].
  apply (one_live_socket anyUrl "wss://gateway" 0 h Hr). reflexivity.
Defined.

Lemma quiet_connection_witness : exists h,
  rtc (calm_step anyUrl) (mount anyUrl "wss://gateway" 0) h
  /\ connectionState (view h) = Connected /\ currentReady h = Some OPEN.
Proof.
  exists (run anyUrl [Opened 0] (mount anyUrl "wss://gateway" 0)).
  match goal with |- rtc _ _ ?x /\ _ => set (h := x) end.
  assert (Hr : rtc (calm_step anyUrl) (mount anyUrl "wss://gateway" 0) h).
  { apply rtc_once. by eapply (CalmStep _ _ (Opened 0)). }
  split_and!; [exact Hr| |reflexivity].
  apply (quiet_connection anyUrl "wss://gateway" 0 h Hr). reflexivity.
Defined.

(** Dials that time out after 21 seconds, and one timer that is 50 ms late. *)
Definition slowTries : list Try :=
  {| t_dial := 21000; t_late := 50 |} :: replicate 9 {| t_dial := 21000; t_late := 0 |}.

Lemma gives_up_witness :
  let h := run anyUrl (outage slowTries 21000 0 1 0) (mount anyUrl "wss://gateway" 0) in
  connectionState (view h) = Failed /\ now (world h) = 181000 + 11 * 21000 + 50.
Proof.
  destruct (gives_up anyUrl "wss://gateway" 0 slowTries 21000 eq_refl eq_refl) as (Hf & _ & Hn & _).
  - by repeat constructor.
  - done.
  - split; [exact Hf|exact Hn].
Defined.
