(* ===== verification/MobileStorage.v ===== *)
(** * Storage of the mobile app

    [mobile/src/services/storage.ts]: the key-value store of settings, with the
    hooks that keep the login and the tutorials in it
    ([mobile/src/context/AuthContext.tsx], [components/ui/TutorialOverlay.tsx]).

    [KeyValue] is what the app expects of a store; MMKV is a library and enters
    only through it, and [WebStorage], which the source defines over
    [localStorage], is an instance whose laws are proved.  Numbers are whole. *)

From Stdlib Require Import Strings.Ascii.
From stdpp Require Import pretty.
From S2P Require Import Prelude.

(** ** Numbers as text *)

Inductive Num := Finite (z : Z) | NaN.

(** [parseFloat] on the texts [String] makes of whole numbers. *)
Definition parseFloat (s : string) : Num :=
  match s with
  | String "-"%char s' => match parse_decimal s' with Some z => Finite (- z) | None => NaN end
  | _ => match parse_decimal s with Some z => Finite z | None => NaN end
  end.

Lemma digits_value_go (k : N) s : digits_value 0 (pretty_N_go k s) = digits_value (Z.of_N k) s.
Proof.
  revert s. induction (N.lt_wf_0 k) as [k _ IH]; intros s. destruct (decide (k = 0)%N) as [->|Hk]; [done|].
  rewrite pretty_N_go_step, IH by (try apply N.div_lt; lia). cbn.
  assert (Hd : digit (pretty_N_char (k `mod` 10)) = Some (Z.of_N (k `mod` 10))).
  { assert (k `mod` 10 < 10)%N as Hlt by (by apply N.mod_lt). revert Hlt. generalize (k `mod` 10)%N. intros m Hm.
    assert (m = 0 \/ m = 1 \/ m = 2 \/ m = 3 \/ m = 4 \/ m = 5 \/ m = 6 \/ m = 7 \/ m = 8 \/ m = 9)%N as Hcases by lia.
    naive_solver. }
  rewrite Hd. cbn. f_equal. rewrite N2Z.inj_mod, N2Z.inj_div. pose proof (Z.div_mod (Z.of_N k) 10). lia.
Qed.

Lemma parse_decimal_pretty (n : N) : parse_decimal (pretty n) = Some (Z.of_N n).
Proof.
  unfold pretty, pretty_N. case_decide as E; [by subst|].
  assert (Hne : pretty_N_go n "" <> "").
  { intros H. pose proof (digits_value_go n "") as Hd. rewrite H in Hd. cbn in Hd. injection Hd. lia. }
  unfold parse_decimal. destruct (pretty_N_go n "") eqn:Ego; [done|]. rewrite <- Ego. by rewrite digits_value_go.
Qed.

Lemma parseFloat_pretty (z : Z) : parseFloat (pretty z) = Finite z.
Proof.
  destruct z as [|p|p]; [done| |].
  - change (pretty (Zpos p)) with (pretty (Npos p)). pose proof (parse_decimal_pretty (Npos p)) as H.
    unfold parseFloat. destruct (pretty (Npos p)) as [|c s] eqn:E; [done|].
    destruct c as [[] [] [] [] [] [] [] []]; cbn [parse_decimal] in H |- *; try (by rewrite H).
    cbn in H. done.
  - change (pretty (Zneg p)) with (String "-"%char (pretty (Npos p))). cbn [parseFloat].
    by rewrite parse_decimal_pretty.
Qed.

(** ** The interface *)

Inductive Value := VBool (b : bool) | VString (s : string) | VNumber (n : Z).

Class KeyValue := {
  Store : Type;
  kv_getBoolean : Store -> string -> option bool;
  kv_getString : Store -> string -> option string;
  kv_getNumber : Store -> string -> option Num;
  kv_set : string -> Value -> Store -> Store;
  kv_delete : string -> Store -> Store;
  kv_contains : Store -> string -> bool;
  kv_clearAll : Store -> Store
}.

(** What can be seen of a key. *)
Definition seen `{KeyValue} (s : Store) (k : string) : option bool * option string * option Num * bool :=
  (kv_getBoolean s k, kv_getString s k, kv_getNumber s k, kv_contains s k).

Definition unseen : option bool * option string * option Num * bool := (None, None, None, false).

Class KeyValueLaws (K : KeyValue) := {
  set_boolean s k b : kv_getBoolean (kv_set k (VBool b) s) k = Some b;
  set_string s k t : kv_getString (kv_set k (VString t) s) k = Some t;
  set_number s k n : kv_getNumber (kv_set k (VNumber n) s) k = Some (Finite n);
  set_contains s k v : kv_contains (kv_set k v s) k = true;
  set_other s k k' v : k' <> k -> seen (kv_set k v s) k' = seen s k';
  delete_key s k : seen (kv_delete k s) k = unseen;
  delete_other s k k' : k' <> k -> seen (kv_delete k s) k' = seen s k';
  clear_all s k : seen (kv_clearAll s) k = unseen
}.

(** ** [WebStorage]

    [localStorage] is shared with other code of the page; every key of the app
    has a prefix. *)

Definition prefix : string := "nullspace:".

Definition String_ (v : Value) : string :=
  match v with
  | VBool b => if b then "true" else "false"
  | VString s => s
  | VNumber n => pretty n
  end.

Definition webGet (local : gmap string string) (key : string) : option string := local !! (prefix +:+ key).

Definition WebStorage : KeyValue := {|
  Store := gmap string string;
  kv_getBoolean local key := (fun val => bool_decide (val = "true")) <$> webGet local key;
  kv_getString local key := webGet local key;
  kv_getNumber local key := parseFloat <$> webGet local key;
  kv_set key value local := <[prefix +:+ key := String_ value]> local;
  kv_delete key local := base.delete (prefix +:+ key) local;
  kv_contains local key := bool_decide (webGet local key <> None);
  kv_clearAll local := base.filter (fun kv => String.prefix prefix kv.1 = false) local
|}.
#[export] Existing Instance WebStorage.

Lemma prefixed s : String.prefix prefix (prefix +:+ s) = true.
Proof. by destruct s. Qed.

#[export] Instance WebStorageLaws : KeyValueLaws WebStorage.
Proof.
  assert (Hne : forall k k' : string, k' <> k -> prefix +:+ k <> prefix +:+ k').
  { intros k k' Hne H. apply Hne. symmetry. by apply (inj (String.append prefix)). }
  split; cbn; unfold seen, unseen, webGet; intros; cbn.
  - rewrite lookup_insert_eq. by destruct b.
  - by rewrite lookup_insert_eq.
  - rewrite lookup_insert_eq. cbn. by rewrite parseFloat_pretty.
  - by rewrite lookup_insert_eq, bool_decide_eq_true_2.
  - unfold webGet. by rewrite lookup_insert_ne by auto.
  - unfold webGet. by rewrite lookup_delete_eq.
  - unfold webGet. by rewrite lookup_delete_ne by auto.
  - unfold webGet. assert (E : base.filter (fun kv : string * string => String.prefix prefix kv.1 = false) s !! (prefix +:+ k) = None).
    { apply map_lookup_filter_None. right. intros x _. cbn [fst]. by rewrite prefixed. }
    by rewrite E.
Qed.

(** The rest of the page keeps its keys, whatever the app does. *)
Lemma web_clear_foreign (local : gmap string string) (key : string) :
  String.prefix prefix key = false -> (kv_clearAll (KeyValue := WebStorage) local : gmap string string) !! key = local !! key.
Proof.
  intros H. cbn. destruct (local !! key) as [x|] eqn:E.
  - apply map_lookup_filter_Some. done.
  - apply map_lookup_filter_None. by left.
Qed.

(** ** The functions of the module *)

Definition SESSION_ACTIVE : string := "auth.session_active".
Definition SELECTED_CHIP : string := "user.selected_chip".
Definition CACHED_BALANCE : string := "cache.balance".
Definition LAST_SYNC : string := "cache.last_sync".

Definition STORAGE_KEYS : list string :=
  [SESSION_ACTIVE; "settings.haptics_enabled"; "settings.sound_enabled"; "settings.tutorial_completed";
   "tutorial.hilo"; "tutorial.blackjack"; "tutorial.roulette"; "tutorial.craps"; "tutorial.casino_war";
   "tutorial.video_poker"; "tutorial.baccarat"; "tutorial.sic_bo"; "tutorial.three_card_poker";
   "tutorial.ultimate_holdem"; SELECTED_CHIP; "user.last_game"; CACHED_BALANCE; LAST_SYNC;
   "notifications.push_token"; "analytics.device_id"; "rewards.last_claim"; "rewards.streak"; "rewards.club_joined"].

Section Module.
Context `{K : KeyValue}.
Implicit Types (s : Store).

Definition getBoolean s (key : string) (defaultValue : bool) : bool := default defaultValue (kv_getBoolean s key).
Definition setBoolean (key : string) (value : bool) s : Store := kv_set key (VBool value) s.
Definition getString s (key defaultValue : string) : string := default defaultValue (kv_getString s key).
Definition setString (key value : string) s : Store := kv_set key (VString value) s.
Definition getNumber s (key : string) (defaultValue : Num) : Num := default defaultValue (kv_getNumber s key).
Definition setNumber (key : string) (value : Z) s : Store := kv_set key (VNumber value) s.
Definition deleteKey (key : string) s : Store := kv_delete key s.
Definition hasKey s (key : string) : bool := kv_contains s key.
Definition clearAll s : Store := kv_clearAll s.

Definition isTutorialCompleted s (gameId : string) : bool := getBoolean s ("tutorial." +:+ gameId) false.
Definition markTutorialCompleted (gameId : string) s : Store := setBoolean ("tutorial." +:+ gameId) true s.
Definition resetTutorial (gameId : string) s : Store := deleteKey ("tutorial." +:+ gameId) s.

Definition resetAllTutorials s : Store :=
  foldl (fun s key => deleteKey key s) s (List.filter (fun key => String.prefix "tutorial." key) STORAGE_KEYS).

(** The [gameId] each screen gives its tutorial. *)
Definition tutorialIds : list string :=
  ["baccarat"; "roulette"; "casino_war"; "ultimate_tx_holdem"; "craps"; "blackjack"; "three_card_poker";
   "video_poker"; "hilo"; "sic_bo"].

(** [TutorialOverlay]: whether it opens, and what closing it leaves. *)
Definition tutorialVisible s (gameId : string) (forceShow : bool) : bool :=
  if forceShow then true else negb (isTutorialCompleted s gameId).

(** [AuthContext]: the session flag. *)
Definition checkAuth s : bool := getBoolean s SESSION_ACTIVE false.
Definition authenticate s : Store := setBoolean SESSION_ACTIVE true s.
Definition logout s : Store := deleteKey SESSION_ACTIVE s.

(** ** Theorems *)

Context `{L : !KeyValueLaws K}.

Lemma seen_boolean s s' k : seen s k = seen s' k -> kv_getBoolean s k = kv_getBoolean s' k.
Proof. by intros [= ->]. Qed.

Lemma deletes_key l s k :
  seen (foldl (fun s key => deleteKey key s) s l) k = if bool_decide (k ∈ l) then unseen else seen s k.
Proof.
  revert s. induction l as [|x l IH]; intros s; [done|]. cbn [foldl]. rewrite IH.
  destruct (decide (k ∈ l)) as [Hin|Hout].
  - rewrite !bool_decide_eq_true_2; [done|set_solver|done].
  - rewrite (bool_decide_eq_false_2 (k ∈ l)) by done. unfold deleteKey. destruct (decide (k = x)) as [->|Hne].
    + rewrite bool_decide_eq_true_2 by set_solver. apply delete_key.
    + rewrite bool_decide_eq_false_2 by set_solver. by apply delete_other.
Qed.

Lemma resets_tutorial g :
  g ∈ tutorialIds ->
  bool_decide ("tutorial." +:+ g ∈ List.filter (fun key => String.prefix "tutorial." key) STORAGE_KEYS)
  = bool_decide (g <> "ultimate_tx_holdem").
Proof.
  revert g. apply Forall_forall. unfold tutorialIds. repeat (apply Forall_cons; split; [reflexivity|]). apply Forall_nil_2.
Qed.

(** Marking a tutorial hides it and no other; resetting all of them shows every
    tutorial again but the one of Ultimate Texas Hold'em, whose screen uses a key
    that is not among the keys of the store. *)
Theorem tutorials_reset s g :
  g ∈ tutorialIds ->
  tutorialVisible (markTutorialCompleted g s) g false = false
  /\ (forall g', g' <> g -> tutorialVisible (markTutorialCompleted g s) g' false = tutorialVisible s g' false)
  /\ tutorialVisible (resetAllTutorials s) g false =
       (bool_decide (g <> "ultimate_tx_holdem") || tutorialVisible s g false).
Proof.
  intros Hg. unfold tutorialVisible, isTutorialCompleted, markTutorialCompleted, getBoolean, setBoolean. split_and!.
  - by rewrite set_boolean.
  - intros g' Hne. rewrite (seen_boolean _ s); [done|]. apply set_other.
    intros H. apply Hne. by apply (inj (String.append "tutorial.")).
  - unfold resetAllTutorials. pose proof (deletes_key (List.filter (fun key => String.prefix "tutorial." key) STORAGE_KEYS) s
      ("tutorial." +:+ g)) as H.
    assert (Hb : bool_decide ("tutorial." +:+ g ∈ List.filter (fun key => String.prefix "tutorial." key) STORAGE_KEYS)
      = bool_decide (g <> "ultimate_tx_holdem")).
    { apply resets_tutorial, Hg. }
    rewrite Hb in H. set (r := foldl _ s _) in *. clearbody r. destruct (bool_decide (g <> _)).
    + unfold seen, unseen in H. injection H as Hx _ _ _. by rewrite Hx.
    + by rewrite (seen_boolean _ _ _ H).
Qed.

Lemma session_kept s : checkAuth (authenticate s) = true /\ checkAuth (logout s) = false.
Proof.
  unfold checkAuth, authenticate, logout, getBoolean, setBoolean, deleteKey. rewrite set_boolean. split; [done|].
  pose proof (delete_key s SESSION_ACTIVE) as H. unfold seen, unseen in H. injection H as Hx _ _ _. by rewrite Hx.
Qed.

End Module.
