(* ===== verification/MobileSession.v ===== *)
(** * Balance and session of the mobile app

    [mobile/src/stores/gameStore.ts], the store of balance and session;
    [hooks/useGatewaySession.ts], which fills it from the messages of the
    gateway; [hooks/useAppState.ts], which keeps balance and chip in the storage
    while the app is in the background; and [hooks/useChipBetting.ts], the bet
    of the screens with one stake.

    React runs the effects of a component after it rendered, each when one of
    its dependencies changed since its last run; messages that arrive between
    two renders leave only the last of them.  Numbers are whole, and [Number] of
    a text is a parameter. *)

From S2P Require Import Prelude Calendar MobileSocket MobileStorage.

(** ** The store *)

Inductive FaucetStatus := F_idle | F_pending | F_success | F_error.

#[export] Instance FaucetStatus_eq_dec : EqDecision FaucetStatus.
Proof. solve_decision. Defined.

Record GameState := {
  balance : Z; balanceReady : bool; selectedChip : Z; sessionId : option string; publicKey : option string;
  registered : bool; hasBalance : bool; faucetStatus : FaucetStatus; faucetMessage : option string
}.

Definition storeStart : GameState :=
  {| balance := 0; balanceReady := false; selectedChip := 25; sessionId := None; publicKey := None;
     registered := false; hasBalance := false; faucetStatus := F_idle; faucetMessage := None |}.

Definition setBalance (b : Z) (g : GameState) : GameState :=
  {| balance := b; balanceReady := balanceReady g; selectedChip := selectedChip g; sessionId := sessionId g;
     publicKey := publicKey g; registered := registered g; hasBalance := hasBalance g;
     faucetStatus := faucetStatus g; faucetMessage := faucetMessage g |}.

Definition setBalanceReady (r : bool) (g : GameState) : GameState :=
  {| balance := balance g; balanceReady := r; selectedChip := selectedChip g; sessionId := sessionId g;
     publicKey := publicKey g; registered := registered g; hasBalance := hasBalance g;
     faucetStatus := faucetStatus g; faucetMessage := faucetMessage g |}.

Definition setSelectedChip (c : Z) (g : GameState) : GameState :=
  {| balance := balance g; balanceReady := balanceReady g; selectedChip := c; sessionId := sessionId g;
     publicKey := publicKey g; registered := registered g; hasBalance := hasBalance g;
     faucetStatus := faucetStatus g; faucetMessage := faucetMessage g |}.

(** [a ?? b] *)
Definition orElse {A} (a b : option A) : option A := match a with Some _ => a | None => b end.

Definition setSessionInfo (session key : option string) (reg has : option bool) (g : GameState) : GameState :=
  {| balance := balance g; balanceReady := balanceReady g; selectedChip := selectedChip g;
     sessionId := orElse session (sessionId g); publicKey := orElse key (publicKey g);
     registered := default (registered g) reg; hasBalance := default (hasBalance g) has;
     faucetStatus := faucetStatus g; faucetMessage := faucetMessage g |}.

Definition setFaucetStatus (st : FaucetStatus) (message : option string) (g : GameState) : GameState :=
  {| balance := balance g; balanceReady := balanceReady g; selectedChip := selectedChip g; sessionId := sessionId g;
     publicKey := publicKey g; registered := registered g; hasBalance := hasBalance g;
     faucetStatus := st; faucetMessage := message |}.

(** ** Messages

    A field the message lacks, or has as [null], is nothing. *)

Inductive Numeric := NNumber (n : Num) | NText (s : string).

Inductive MessageType :=
| SessionReady | Balance | GameStarted | LiveTableState | LiveTableResult | LiveTableConfirmation
| GameResult | GameMove | ErrorMessage | OtherMessage.

#[export] Instance MessageType_eq_dec : EqDecision MessageType.
Proof. solve_decision. Defined.

Record Message := {
  m_type : MessageType; m_sessionId : option string; m_publicKey : option string; m_registered : option bool;
  m_hasBalance : option bool; m_balance : option Numeric; m_finalChips : option Numeric; m_message : option string
}.

(** What leaves the component: messages to the gateway and analytics events. *)
Inductive Outbound :=
| GetBalance
| FaucetClaim (amount : option Z)
| Track (name : string).

Section Session.

(** [Number] of a text: nothing where it is not finite. *)
Context (Number : string -> option Z).

Definition parseNumeric (value : option Numeric) : option Z :=
  match value with
  | Some (NNumber (Finite n)) => Some n
  | Some (NText s) => if bool_decide (trim s <> "") then Number s else None
  | _ => None
  end.

Record Session := {
  store : GameState;
  connection : ConnectionState;
  (** The message last received, with how many came before it. *)
  last : option (nat * Message);
  received : nat;
  (** The dependencies at the last run of each effect. *)
  ranConnection : option ConnectionState;
  ranMessage : option (option nat * FaucetStatus);
  lastSessionIdRef : option string;
  out : list Outbound
}.

Definition with_store (f : GameState -> GameState) (s : Session) : Session :=
  {| store := f (store s); connection := connection s; last := last s; received := received s;
     ranConnection := ranConnection s; ranMessage := ranMessage s; lastSessionIdRef := lastSessionIdRef s; out := out s |}.
Definition emit (o : Outbound) (s : Session) : Session :=
  {| store := store s; connection := connection s; last := last s; received := received s;
     ranConnection := ranConnection s; ranMessage := ranMessage s; lastSessionIdRef := lastSessionIdRef s;
     out := out s ++ [o] |}.
Definition set_sessionRef (r : option string) (s : Session) : Session :=
  {| store := store s; connection := connection s; last := last s; received := received s;
     ranConnection := ranConnection s; ranMessage := ranMessage s; lastSessionIdRef := r; out := out s |}.

Definition applyBalance (value : option Numeric) (s : Session) : Session :=
  match parseNumeric value with
  | Some b => with_store (fun g => setBalanceReady true (setBalance b g)) s
  | None => s
  end.

(** The effect on the last message; [status] is the faucet's status at the render. *)
Definition onMessage (m : Message) (status : FaucetStatus) (s : Session) : Session :=
  match m_type m with
  | SessionReady =>
      let s := set_sessionRef (m_sessionId m) s in
      let s := with_store (setSessionInfo (m_sessionId m) (m_publicKey m) (m_registered m) (m_hasBalance m)) s in
      let s := emit (Track "casino.session.started") s in
      emit GetBalance (applyBalance (m_balance m) s)
  | Balance =>
      let s := with_store (setSessionInfo None (m_publicKey m) (m_registered m) (m_hasBalance m)) s in
      let s := applyBalance (m_balance m) s in
      if bool_decide (m_message m = Some "FAUCET_CLAIMED")
      then emit (Track "casino.faucet.claimed") (with_store (setFaucetStatus F_success (Some "Faucet claimed")) s)
      else s
  | GameStarted => applyBalance (m_balance m) (emit (Track "casino.game.started") s)
  | LiveTableState | LiveTableResult | LiveTableConfirmation => applyBalance (m_balance m) s
  | GameResult => applyBalance (orElse (m_balance m) (m_finalChips m)) (emit (Track "casino.game.completed") s)
  | GameMove => applyBalance (orElse (m_balance m) (m_finalChips m)) s
  | ErrorMessage =>
      if bool_decide (status = F_pending)
      then with_store (setFaucetStatus F_error (Some (default "Request failed" (m_message m)))) s else s
  | OtherMessage => s
  end.

Definition connectionEffect (s : Session) : Session :=
  let s' := {| store := store s; connection := connection s; last := last s; received := received s;
               ranConnection := Some (connection s); ranMessage := ranMessage s;
               lastSessionIdRef := lastSessionIdRef s; out := out s |} in
  if bool_decide (ranConnection s = Some (connection s)) then s
  else if bool_decide (connection s = Connected) then emit GetBalance s' else s'.

Definition messageDeps (s : Session) : option nat * FaucetStatus := (fst <$> last s, faucetStatus (store s)).

Definition messageEffect (s : Session) : Session :=
  let s' := {| store := store s; connection := connection s; last := last s; received := received s;
               ranConnection := ranConnection s; ranMessage := Some (messageDeps s);
               lastSessionIdRef := lastSessionIdRef s; out := out s |} in
  if bool_decide (ranMessage s = Some (messageDeps s)) then s
  else match last s with
       | Some (_, m) => onMessage m (faucetStatus (store s)) s'
       | None => s'
       end.

(** A render with its effects. *)
Definition render (s : Session) : Session := messageEffect (connectionEffect s).

(** The effects change the store, so the component renders again until no
    dependency changes; [settled] tells that none is left. *)
Definition settled (s : Session) : bool :=
  bool_decide (ranConnection s = Some (connection s)) && bool_decide (ranMessage s = Some (messageDeps s)).

Fixpoint renders (fuel : nat) (s : Session) : Session :=
  match fuel with
  | O => s
  | S fuel => if settled s then s else renders fuel (render s)
  end.

(** [lastMessage] when a message of the socket was accepted. *)
Definition arrives (m : Message) (s : Session) : Session :=
  {| store := store s; connection := connection s; last := Some (received s, m); received := S (received s);
     ranConnection := ranConnection s; ranMessage := ranMessage s; lastSessionIdRef := lastSessionIdRef s; out := out s |}.

Definition connects (c : ConnectionState) (s : Session) : Session :=
  {| store := store s; connection := c; last := last s; received := received s;
     ranConnection := ranConnection s; ranMessage := ranMessage s; lastSessionIdRef := lastSessionIdRef s; out := out s |}.

Definition requestFaucet (amount : option Z) (s : Session) : Session :=
  emit (FaucetClaim (match amount with Some a => if 0 <? a then Some a else None | None => None end))
    (with_store (setFaucetStatus F_pending (Some "Requesting faucet...")) s).

Definition sessionStart (g : GameState) : Session :=
  {| store := g; connection := Disconnected; last := None; received := 0; ranConnection := None; ranMessage := None;
     lastSessionIdRef := None; out := [] |}.

End Session.

(** ** Background and foreground *)

Definition VALID_CHIP_VALUES : list Z := [1; 5; 25; 100; 500; 1000].
Definition isValidChipValue (value : Num) : option Z :=
  match value with Finite z => if bool_decide (z ∈ VALID_CHIP_VALUES) then Some z else None | NaN => None end.

Section AppState.
Context `{K : KeyValue}.

Definition persistGameState (now : Z) (g : GameState) (s : Store) : Store :=
  setNumber LAST_SYNC now (setNumber SELECTED_CHIP (selectedChip g) (setNumber CACHED_BALANCE (balance g) s)).

Definition restoreGameState (s : Store) (g : GameState) : GameState :=
  let g := match kv_getNumber s CACHED_BALANCE with
           | Some (Finite b) => if 0 <? b then setBalance b g else g
           | _ => g
           end in
  match kv_getNumber s SELECTED_CHIP with
  | Some n => match isValidChipValue n with Some c => setSelectedChip c g | None => g end
  | None => g
  end.

(** The listener of [useAppState]. *)
Definition onAppChange (now : Z) (previous next : AppStateStatus) (gs : GameState * Store) : GameState * Store :=
  let '(g, s) := gs in
  let s := if bool_decide (previous = Active) && (bool_decide (next = Background) || bool_decide (next = Inactive))
           then persistGameState now g s else s in
  let g := if (bool_decide (previous = Background) || bool_decide (previous = Inactive)) && bool_decide (next = Active)
           then restoreGameState s g else g in
  (g, s).

End AppState.

(** ** The bet of a screen with one stake

    The callbacks are those of the last render: they see its bet and balance. *)

Record Betting := { bet : Z; bettingChip : Z }.

Definition placeChip (rendered : Betting) (balance value : Z) (b : Betting) : bool * Betting :=
  if balance <? bet rendered + value then (false, b)
  else (true, {| bet := bet rendered + value; bettingChip := bettingChip b |}).

Definition clearBet (b : Betting) : Betting := {| bet := 0; bettingChip := bettingChip b |}.
Definition setBet (amount : Z) (b : Betting) : Betting := {| bet := amount; bettingChip := bettingChip b |}.

(** Chips placed one render apart, all on the balance of the store. *)
Definition placeAll (balance : Z) (values : list Z) (b : Betting) : Betting :=
  foldl (fun b v => (placeChip b balance v b).2) b values.
