(* ===== verification/MobileSessionCorrect.v ===== *)
(** * Balance and session of the mobile app, proved

    The effects settle after two renders ([effects_settle]), and what the store
    then shows is what the last message says ([store_follows]); messages that a
    later one overtakes are lost ([only_last_message]), an old error answers a
    new faucet request ([stale_error_answers]), and a claim is counted twice
    ([claim_tracked_twice]).  Storage gives back what it kept
    ([foreground_restores]); a bet stays within the balance ([chips_within_balance]). *)

From S2P Require Import Prelude Calendar MobileSocket MobileStorage MobileSession.

Section Session.

Context (Number : string -> option Z).

#[local] Abbreviation onMessage := (onMessage Number).
#[local] Abbreviation messageEffect := (messageEffect Number).
#[local] Abbreviation render := (render Number).
#[local] Abbreviation renders := (renders Number).
#[local] Abbreviation applyBalance := (applyBalance Number).

(** ** What a run of the effect changes *)

Lemma applyBalance_rest v s :
  connection (applyBalance v s) = connection s /\ last (applyBalance v s) = last s
  /\ ranConnection (applyBalance v s) = ranConnection s /\ ranMessage (applyBalance v s) = ranMessage s
  /\ faucetStatus (store (applyBalance v s)) = faucetStatus (store s).
Proof. unfold MobileSession.applyBalance. by destruct (parseNumeric Number v). Qed.

(** The status after a run of the effect on a message. *)
Definition statusAfter (m : Message) (status current : FaucetStatus) : FaucetStatus :=
  match m_type m with
  | Balance => if bool_decide (m_message m = Some "FAUCET_CLAIMED") then F_success else current
  | ErrorMessage => if bool_decide (status = F_pending) then F_error else current
  | _ => current
  end.

Lemma onMessage_rest m status s :
  connection (onMessage m status s) = connection s /\ last (onMessage m status s) = last s
  /\ ranConnection (onMessage m status s) = ranConnection s /\ ranMessage (onMessage m status s) = ranMessage s
  /\ faucetStatus (store (onMessage m status s)) = statusAfter m status (faucetStatus (store s)).
Proof.
  unfold MobileSession.onMessage, statusAfter, MobileSession.applyBalance. destruct (m_type m); cbn;
    repeat case_bool_decide;
    repeat match goal with |- context [parseNumeric Number ?v] => destruct (parseNumeric Number v) end; done.
Qed.

Lemma statusAfter_stable m st : statusAfter m (statusAfter m st st) (statusAfter m st st) = statusAfter m st st.
Proof.
  unfold statusAfter. destruct (m_type m); try done; [by case_bool_decide|].
  destruct (bool_decide (st = F_pending)) eqn:E; [done|]. by rewrite E.
Qed.

Lemma connectionEffect_rest s :
  store (connectionEffect s) = store s /\ last (connectionEffect s) = last s /\ connection (connectionEffect s) = connection s
  /\ ranMessage (connectionEffect s) = ranMessage s /\ ranConnection (connectionEffect s) = Some (connection s).
Proof.
  unfold connectionEffect. destruct (bool_decide (ranConnection s = _)) eqn:E; [by apply bool_decide_eq_true in E|].
  by destruct (bool_decide (connection s = Connected)).
Qed.

Lemma connectionEffect_idle s : ranConnection s = Some (connection s) -> connectionEffect s = s.
Proof. intros H. unfold connectionEffect. by rewrite bool_decide_eq_true_2. Qed.

(** One render: the connection's effect has run, and the message's effect has run
    for the message and the status before the render. *)
Lemma render_rest s (s' := render s) :
  last s' = last s /\ connection s' = connection s /\ ranConnection s' = Some (connection s)
  /\ ranMessage s' = Some (messageDeps s)
  /\ faucetStatus (store s') =
       match last s with
       | Some (_, m) => if bool_decide (ranMessage s = Some (messageDeps s)) then faucetStatus (store s)
                        else statusAfter m (faucetStatus (store s)) (faucetStatus (store s))
       | None => faucetStatus (store s)
       end.
Proof.
  unfold s', MobileSession.render, MobileSession.messageEffect.
  destruct (connectionEffect_rest s) as (Hs & Hl & Hc & Hr & Hrc).
  assert (Hd : messageDeps (connectionEffect s) = messageDeps s) by (unfold messageDeps; by rewrite Hl, Hs).
  rewrite Hr, Hd, Hl. destruct (bool_decide (ranMessage s = _)) eqn:E.
  - apply bool_decide_eq_true in E. rewrite Hl, Hc, Hr, Hrc, Hs, E. by destruct (last s) as [[? ?]|].
  - destruct (last s) as [[i m]|] eqn:El; [|cbn; by rewrite ?Hl, ?Hc, ?Hrc, ?Hs].
    match goal with |- context [onMessage ?m ?st ?x] => destruct (onMessage_rest m st x) as (-> & -> & -> & -> & ->) end.
    cbn. rewrite ?Hl, ?Hc, ?Hrc, ?Hs. done.
Qed.

(** The effects come to rest: whatever arrived, connected or was requested,
    after two renders no effect has to run again. *)
Theorem effects_settle s : settled (renders 2 s) = true.
Proof.
  cbn [MobileSession.renders]. destruct (settled s) eqn:E0; [done|]. destruct (settled (render s)) eqn:E1; [done|].
  unfold settled in *. destruct (render_rest s) as (Hl1 & Hc1 & Hrc1 & Hrm1 & Hst1).
  destruct (render_rest (render s)) as (Hl2 & Hc2 & Hrc2 & Hrm2 & Hst2).
  rewrite Hrc2, Hc2, Hrm2. rewrite (bool_decide_eq_true_2 (Some _ = Some (connection (render s)))) by done. cbn.
  apply bool_decide_eq_true. f_equal. unfold messageDeps. rewrite Hl2. f_equal. rewrite Hst2.
  rewrite Hl1. destruct (last s) as [[i m]|] eqn:El; [|done].
  destruct (bool_decide (ranMessage (render s) = _)) eqn:E2; [done|].
  destruct (bool_decide (ranMessage s = Some (messageDeps s))) eqn:Eb; rewrite Hst1, ?statusAfter_stable; [|done].
  (* the first render ran no effect on a message: the second has none to run *)
  exfalso. apply bool_decide_eq_false in E2. destruct E2. rewrite Hrm1. unfold messageDeps. by rewrite Hl1, Hst1, El.
Qed.

(** ** What the store shows *)

(** The balance a message brings. *)
Definition messageBalance (m : Message) : option Z :=
  match m_type m with
  | SessionReady | Balance | GameStarted | LiveTableState | LiveTableResult | LiveTableConfirmation =>
      parseNumeric Number (m_balance m)
  | GameResult | GameMove => parseNumeric Number (orElse (m_balance m) (m_finalChips m))
  | ErrorMessage | OtherMessage => None
  end.

Definition messageKey (m : Message) : option string :=
  match m_type m with SessionReady | Balance => m_publicKey m | _ => None end.

Lemma onMessage_store m status s (g := store s) (g' := store (onMessage m status s)) :
  balance g' = default (balance g) (messageBalance m)
  /\ balanceReady g' = bool_decide (messageBalance m <> None) || balanceReady g
  /\ publicKey g' = orElse (messageKey m) (publicKey g) /\ selectedChip g' = selectedChip g.
Proof.
  unfold g, g', MobileSession.onMessage, messageBalance, messageKey, MobileSession.applyBalance.
  destruct (m_type m); cbn;
    repeat match goal with |- context [bool_decide (m_message m = ?x)] => destruct (bool_decide (m_message m = x)) end;
    repeat match goal with |- context [parseNumeric Number ?v] => destruct (parseNumeric Number v) end; cbn; try done.
  all: by case_bool_decide.
Qed.

Lemma render_idle s : ranMessage s = Some (messageDeps s) -> store (render s) = store s.
Proof.
  intros H. unfold MobileSession.render, MobileSession.messageEffect.
  destruct (connectionEffect_rest s) as (Hs & Hl & _ & Hr & _).
  assert (Hd : messageDeps (connectionEffect s) = messageDeps s) by (unfold messageDeps; by rewrite Hl, Hs).
  by rewrite Hr, Hd, bool_decide_eq_true_2.
Qed.

Lemma render_runs s i m : last s = Some (i, m) -> ranMessage s <> Some (messageDeps s) ->
  exists x, store (render s) = store (onMessage m (faucetStatus (store s)) x) /\ store x = store s.
Proof.
  intros Hm H. unfold MobileSession.render, MobileSession.messageEffect.
  destruct (connectionEffect_rest s) as (Hs & Hl & _ & Hr & _).
  assert (Hd : messageDeps (connectionEffect s) = messageDeps s) by (unfold messageDeps; by rewrite Hl, Hs).
  rewrite Hr, Hd, bool_decide_eq_false_2 by done. rewrite Hl, Hm, Hs. eexists. split; [reflexivity|reflexivity].
Qed.

(** A message's effect: once the effects settled after a message, the store
    has the balance and the key the message brings and otherwise those from
    before, the chosen chip is untouched, and the balance is ready if it was or
    the message brings one; a balance that is no finite number changes nothing. *)
Theorem store_follows m s (g := store s) (g' := store (renders 2 (arrives m s))) :
  (forall k st, ranMessage s = Some (Some k, st) -> (k < received s)%nat) ->
  balance g' = default (balance g) (messageBalance m)
  /\ balanceReady g' = bool_decide (messageBalance m <> None) || balanceReady g
  /\ publicKey g' = orElse (messageKey m) (publicKey g) /\ selectedChip g' = selectedChip g.
Proof.
  intros Hfresh. unfold g, g'. clear g g'. set (s0 := arrives m s).
  assert (Hnew : ranMessage s0 <> Some (messageDeps s0)).
  { intros H. cbn in H. unfold messageDeps in H. cbn in H. specialize (Hfresh _ _ H). lia. }
  assert (Hset : settled s0 = false).
  { unfold settled. rewrite (bool_decide_eq_false_2 (ranMessage s0 = _)) by done. by rewrite andb_false_r. }
  cbn [MobileSession.renders]. rewrite Hset.
  destruct (render_runs s0 (received s) m eq_refl Hnew) as (x & Hx & Hxs).
  change (store s0) with (store s) in *.
  pose proof (onMessage_store m (faucetStatus (store s)) x) as H1. cbn zeta in H1. rewrite <- Hx, Hxs in H1.
  destruct (settled (render s0)); [exact H1|].
  destruct (render_rest s0) as (Hl1 & _).
  destruct (decide (ranMessage (render s0) = Some (messageDeps (render s0)))) as [E|E].
  - by rewrite (render_idle _ E).
  - destruct (render_runs (render s0) (received s) m Hl1 E) as (y & Hy & Hys).
    pose proof (onMessage_store m (faucetStatus (store (render s0))) y) as H2. cbn zeta in H2. rewrite <- Hy, Hys in H2.
    destruct H1 as (B1 & R1 & K1 & C1), H2 as (B2 & R2 & K2 & C2). rewrite B2, R2, K2, C2, B1, R1, K1, C1.
    split_and!; [by destruct (messageBalance m)|by case_bool_decide|by destruct (messageKey m)|done].
Qed.

(** A message that another one follows before the next render is not seen. *)
Lemma only_last_message m1 m1' m2 s : renders 2 (arrives m2 (arrives m1 s)) = renders 2 (arrives m2 (arrives m1' s)).
Proof. reflexivity. Qed.

(** An old error answers a new request: when the last message is an error that
    was handled before, asking the faucet shows the request as failed with the
    message of that error as soon as the effects settle, though the claim was
    sent and nothing has been received since. *)
Theorem stale_error_answers i m s amount :
  last s = Some (i, m) -> m_type m = ErrorMessage -> settled s = true -> faucetStatus (store s) <> F_pending ->
  let s' := renders 2 (requestFaucet amount s) in
  faucetStatus (store s') = F_error
  /\ faucetMessage (store s') = Some (default "Request failed" (m_message m))
  /\ received s' = received s /\ out s' = out (requestFaucet amount s).
Proof.
  intros Hl Hm Hset Hst. apply andb_true_iff in Hset as [Hc Hr].
  apply bool_decide_eq_true in Hc, Hr. unfold messageDeps in Hr. rewrite Hl in Hr.
  set (s0 := requestFaucet amount s). cbn [MobileSession.renders].
  assert (Hset0 : settled s0 = false).
  { unfold settled. rewrite (bool_decide_eq_false_2 (ranMessage s0 = _)); [by rewrite andb_false_r|].
    change (ranMessage s0) with (ranMessage s). rewrite Hr. unfold messageDeps, s0. cbn. rewrite Hl. intros [= H].
    by destruct Hst. }
  rewrite Hset0.
  assert (E : render s0 = with_store (setFaucetStatus F_error (Some (default "Request failed" (m_message m))))
    {| store := store s0; connection := connection s; last := last s; received := received s;
       ranConnection := ranConnection s; ranMessage := Some (messageDeps s0);
       lastSessionIdRef := lastSessionIdRef s; out := out s0 |}).
  { unfold MobileSession.render. rewrite (connectionEffect_idle s0) by exact Hc. unfold MobileSession.messageEffect.
    unfold settled in Hset0. change (ranConnection s0) with (ranConnection s) in Hset0.
    change (connection s0) with (connection s) in Hset0. rewrite (bool_decide_eq_true_2 _ Hc) in Hset0. cbn [andb] in Hset0.
    rewrite Hset0. change (last s0) with (last s). rewrite Hl. unfold MobileSession.onMessage. rewrite Hm.
    rewrite bool_decide_eq_true_2; [|done]. by rewrite ?Hl. }
  rewrite E. clear E Hset0. set (s1 := with_store _ _).
  destruct (settled s1) eqn:E1; [done|].
  assert (E : store (render s1) = store s1 /\ received (render s1) = received s1 /\ out (render s1) = out s1).
  { unfold MobileSession.render. rewrite (connectionEffect_idle s1) by exact Hc. unfold MobileSession.messageEffect.
    destruct (bool_decide _); [done|]. change (last s1) with (last s). rewrite Hl. unfold MobileSession.onMessage.
    rewrite Hm. rewrite bool_decide_eq_false_2; [|done]. done. }
  destruct E as (-> & -> & ->). done.
Qed.

(** The claim of a waiting player changes the status, which runs the effect on the
    same message again: the claim is tracked twice. *)
Theorem claim_tracked_twice m s :
  settled s = true -> faucetStatus (store s) = F_pending ->
  m_type m = Balance -> m_message m = Some "FAUCET_CLAIMED" ->
  (forall k st, ranMessage s = Some (Some k, st) -> (k < received s)%nat) ->
  out (renders 2 (arrives m s)) = out s ++ [Track "casino.faucet.claimed"; Track "casino.faucet.claimed"].
Proof.
  intros Hset Hst Hm Hclaim Hfresh. apply andb_true_iff in Hset as [Hc _]. apply bool_decide_eq_true in Hc.
  assert (Hrun : forall x st, m_type m = Balance -> out (onMessage m st x) = out x ++ [Track "casino.faucet.claimed"]
      /\ ranConnection (onMessage m st x) = ranConnection x /\ connection (onMessage m st x) = connection x
      /\ ranMessage (onMessage m st x) = ranMessage x /\ last (onMessage m st x) = last x
      /\ faucetStatus (store (onMessage m st x)) = F_success).
  { intros x st _. unfold MobileSession.onMessage, MobileSession.applyBalance. rewrite Hm, Hclaim.
    rewrite bool_decide_eq_true_2 by done. by destruct (parseNumeric Number (m_balance m)). }
  assert (Heff : forall x, ranConnection x = Some (connection x) -> last x = Some (received s, m) ->
      ranMessage x <> Some (messageDeps x) ->
      out (render x) = out x ++ [Track "casino.faucet.claimed"]
      /\ ranConnection (render x) = Some (connection (render x)) /\ last (render x) = Some (received s, m)
      /\ ranMessage (render x) = Some (messageDeps x) /\ faucetStatus (store (render x)) = F_success).
  { intros x Hx Hl Hr. unfold MobileSession.render. rewrite connectionEffect_idle by done.
    unfold MobileSession.messageEffect. rewrite bool_decide_eq_false_2, Hl by done.
    match goal with |- context [onMessage m ?st ?y] => destruct (Hrun y st Hm) as (-> & -> & -> & -> & -> & ->) end.
    done. }
  set (s0 := arrives m s). assert (Hr0 : ranMessage s0 <> Some (messageDeps s0)).
  { intros H. cbn in H. unfold messageDeps in H. cbn in H. specialize (Hfresh _ _ H). lia. }
  destruct (Heff s0 Hc eq_refl Hr0) as (Ho1 & Hc1 & Hl1 & Hrm1 & Hst1).
  assert (Hr1 : ranMessage (render s0) <> Some (messageDeps (render s0))).
  { rewrite Hrm1. unfold messageDeps. rewrite Hl1, Hst1. cbn. by rewrite Hst. }
  destruct (Heff _ Hc1 Hl1 Hr1) as (Ho2 & _).
  assert (Hun : forall x, ranMessage x <> Some (messageDeps x) -> settled x = false).
  { intros x Hx. unfold settled. rewrite (bool_decide_eq_false_2 _ Hx). apply andb_false_r. }
  cbn [MobileSession.renders]. rewrite !Hun by done. rewrite Ho2, Ho1. by rewrite <- app_assoc.
Qed.

End Session.

(** ** Background and foreground *)

Section AppState.
Context `{K : KeyValue} {L : KeyValueLaws K}.

Lemma number_other s k k' v : k' <> k -> kv_getNumber (kv_set k v s) k' = kv_getNumber s k'.
Proof. intros H. pose proof (set_other s k k' v H) as E. by injection E. Qed.

Lemma persisted now g s :
  kv_getNumber (persistGameState now g s) CACHED_BALANCE = Some (Finite (balance g))
  /\ kv_getNumber (persistGameState now g s) SELECTED_CHIP = Some (Finite (selectedChip g)).
Proof.
  unfold persistGameState, setNumber. split.
  - rewrite !number_other by done. apply set_number.
  - rewrite number_other by done. apply set_number.
Qed.

(** What the background keeps comes back: when the app leaves the foreground
    with a positive balance and a valid chip and later returns, balance and chip
    are those of the moment it left, whatever the store was in between: a fresh
    start shows them, and a balance that came while the app was inactive is
    replaced by the older one. *)
Theorem foreground_restores now now' away g s g' :
  away = Background \/ away = Inactive -> 0 < balance g -> selectedChip g ∈ VALID_CHIP_VALUES ->
  let '(_, s1) := onAppChange now Active away (g, s) in
  let '(g2, _) := onAppChange now' away Active (g', s1) in
  balance g2 = balance g /\ selectedChip g2 = selectedChip g
  /\ publicKey g2 = publicKey g' /\ balanceReady g2 = balanceReady g' /\ faucetStatus g2 = faucetStatus g'.
Proof.
  intros Haway Hb Hchip. destruct (persisted now g s) as [Hbal Hsel].
  assert (Hrest : forall g0, let g2 := restoreGameState (persistGameState now g s) g0 in
    balance g2 = balance g /\ selectedChip g2 = selectedChip g
    /\ publicKey g2 = publicKey g0 /\ balanceReady g2 = balanceReady g0 /\ faucetStatus g2 = faucetStatus g0).
  { intros g0. unfold restoreGameState. rewrite Hbal, Hsel. cbn [isValidChipValue].
    rewrite (proj2 (Z.ltb_lt _ _)) by done. by rewrite bool_decide_eq_true_2. }
  destruct Haway as [-> | ->]; apply Hrest.
Qed.

End AppState.

Lemma foreground_restores_witness :
  let left := setBalance 500 storeStart in
  let '(_, s1) := onAppChange (K := WebStorage) 0 Active Inactive (left, ∅) in
  let '(g2, _) := onAppChange (K := WebStorage) 1 Inactive Active (setBalance 900 storeStart, s1) in
  balance g2 = 500.
Proof.
  pose proof (foreground_restores (K := WebStorage) 0 1 Inactive (setBalance 500 storeStart) ∅ (setBalance 900 storeStart)
    (or_intror eq_refl) eq_refl ltac:(by vm_compute; repeat constructor)) as H.
  exact (proj1 H).
Defined.

(** ** Bets *)

(** Chips placed one render apart stay within the balance; two of the same render
    count once. *)
Theorem chips_within_balance balance values b :
  0 <= bet b <= balance -> Forall (fun v => 0 < v) values ->
  0 <= bet (placeAll balance values b) <= balance
  /\ forall v v', bet b + v' <= balance -> bet b + v <= balance ->
       bet (placeChip b balance v' (placeChip b balance v b).2).2 = bet b + v'.
Proof.
  intros Hb Hv. split.
  - revert b Hb. induction Hv as [|v vs Hv _ IH]; intros b Hb; [done|]. cbn. apply IH. unfold placeChip.
    destruct (balance <? bet b + v) eqn:E; bprop; cbn; lia.
  - intros v v' H' H. unfold placeChip at 1. by rewrite (proj2 (Z.ltb_ge _ _)).
Qed.

(** ** Witnesses *)

Definition plainNumber (s : string) : option Z := match parseFloat s with Finite z => Some z | NaN => None end.

Definition balanceMessage : Message :=
  {| m_type := Balance; m_sessionId := None; m_publicKey := Some "ab"; m_registered := Some true; m_hasBalance := Some true;
     m_balance := Some (NText "750"); m_finalChips := None; m_message := None |}.

Definition refused : Message :=
  {| m_type := ErrorMessage; m_sessionId := None; m_publicKey := None; m_registered := None; m_hasBalance := None;
     m_balance := None; m_finalChips := None; m_message := Some "Insufficient funds" |}.

Lemma store_follows_witness :
  balance (store (renders plainNumber 2 (arrives balanceMessage (sessionStart storeStart)))) = 750.
Proof.
  apply (store_follows plainNumber balanceMessage (sessionStart storeStart)). intros k st H. discriminate H.
Defined.

Lemma stale_error_answers_witness :
  let s := renders plainNumber 2 (arrives refused (sessionStart storeStart)) in
  faucetStatus (store (renders plainNumber 2 (requestFaucet None s))) = F_error.
Proof.
  apply (stale_error_answers plainNumber 0 refused (renders plainNumber 2 (arrives refused (sessionStart storeStart))) None);
    [reflexivity|reflexivity|reflexivity|intros H; discriminate H].
Defined.
