(* ===== verification/Vault.v ===== *)
(** * Keys of the mobile app

    [mobile/src/services/vault.ts], the vault that keeps the private key under a
    password; [services/crypto.ts], which signs with the key of the vault or
    with the plain key kept before; [utils/hex.ts]; and the challenge that
    [services/entitlements.ts] signs.

    The primitives are parameters with their documented laws ([CryptoLaws]);
    random bytes are arguments.  The functions only await the secure store of the
    device; they are modelled as running one after the other. *)

From Stdlib Require Import Strings.Ascii.
From S2P Require Import Prelude Bytes Calendar AuthUtils.

(** ** Primitives *)

Class Crypto := {
  getPublicKey : Uint8Array -> Uint8Array;
  sign : Uint8Array -> Uint8Array -> Uint8Array;
  verify : Uint8Array -> Uint8Array -> Uint8Array -> bool;
  pbkdf2 : Uint8Array -> Uint8Array -> Uint8Array;
  encrypt : Uint8Array -> Uint8Array -> Uint8Array -> Uint8Array;
  (** Throws, here gives nothing, where the tag does not fit. *)
  decrypt : Uint8Array -> Uint8Array -> Uint8Array -> option Uint8Array
}.

(** Signatures verify and are 64 bytes, public keys are 32 bytes, what was encrypted is decrypted,
    and no key turns a ciphertext into another message than the encrypted one. *)
Class CryptoLaws (C : Crypto) := {
  verify_sign k m : verify (sign m k) m (getPublicKey k) = true;
  public_length k : length (getPublicKey k) = 32%nat;
  sign_length m k : length (sign m k) = 64%nat;
  decrypt_encrypt k n m : decrypt k n (encrypt k n m) = Some m;
  decrypt_authentic k k' n m m' : decrypt k' n (encrypt k n m) = Some m' -> m' = m
}.

(** ** State *)

Record VaultRecord := {
  saltHex : string; nonceHex : string; ciphertextHex : string; publicKeyHex : string;
  createdAtMs : Z; updatedAtMs : Z
}.

(** The text under the vault's key: a record of version 1 and kind password, or
    one that is not read as a record. *)
Inductive VaultText := AsRecord (r : VaultRecord) | Unreadable.

(** The secure store, and the key the module keeps while the vault is unlocked. *)
Record Device := {
  vaultText : option VaultText;
  privateKeyText : option string;
  unlockedPrivateKey : option Uint8Array;
  unlockedPublicKeyHex : option string
}.

Definition PASSWORD_MIN_LENGTH : nat := 8.
Definition PRIVATE_KEY_BYTES : nat := 32.

(** What [crypto.getRandomValues] and [randomPrivateKey] give to a call. *)
Record Random := { r_key : Uint8Array; r_salt : Uint8Array; r_nonce : Uint8Array }.

Definition hexToBytes (hex : string) : Uint8Array := (fun p => z2b (default 0 (parseInt16 p))) <$> hexPairs hex.

Section Vault.
Context `{C : Crypto}.

Definition keyDigit (c : Ascii.ascii) : bool := match digitValue c with Some _ => true | None => false end.

Definition strip0X (s : string) : string :=
  match s with
  | String "0"%char (String "x"%char s') | String "0"%char (String "X"%char s') => s'
  | _ => s
  end.

Definition normalizeKeyHex (value : option string) : option string :=
  match value with
  | Some v =>
      let trimmed := strip0X (trim v) in
      if bool_decide (trim v = "") then None
      else if nonempty trimmed && everyChar keyDigit trimmed && (String.length trimmed =? 2 * PRIVATE_KEY_BYTES)%nat
           then Some (to_lower trimmed) else None
  | None => None
  end.

Definition deriveKey (password : string) (salt : Uint8Array) : Uint8Array := pbkdf2 (bytes_of_string password) salt.

Definition encryptPrivateKey (r : Random) (privateKey : Uint8Array) (password : string) : string * string * string :=
  let key := deriveKey password (r_salt r) in
  (bytesToHex (r_salt r), bytesToHex (r_nonce r), bytesToHex (encrypt key (r_nonce r) privateKey)).

Definition decryptPrivateKey (record : VaultRecord) (password : string) : result Uint8Array :=
  let key := deriveKey password (hexToBytes (saltHex record)) in
  match decrypt key (hexToBytes (nonceHex record)) (hexToBytes (ciphertextHex record)) with
  | Some k => Ok k
  | None => Throw "vault_password_invalid"
  end.

Definition readVaultRecord (d : Device) : option VaultRecord :=
  match vaultText d with Some (AsRecord r) => Some r | _ => None end.

Definition readLegacyPrivateKey (d : Device) : option string := normalizeKeyHex (privateKeyText d).

Definition isVaultEnabled (d : Device) : bool := bool_decide (is_Some (readVaultRecord d)).
Definition getVaultPublicKeyHex (d : Device) : option string := publicKeyHex <$> readVaultRecord d.

Definition getVaultStatus (d : Device) : bool * bool * option string :=
  (isVaultEnabled d,
   bool_decide (is_Some (unlockedPrivateKey d)) && bool_decide (unlockedPublicKeyHex d = getVaultPublicKeyHex d),
   getVaultPublicKeyHex d).

(** [password.length], in UTF-16 units, of a string kept as its UTF-8 bytes: a
    continuation byte counts nothing, the first byte of a character one unit, or
    two for a character of four bytes. *)
Definition utf16_units (c : ascii) : nat :=
  let n := Ascii.nat_of_ascii c in
  if (0x80 <=? n)%nat && (n <? 0xC0)%nat then 0 else if (0xF0 <=? n)%nat then 2 else 1.

Fixpoint utf16_length (s : string) : nat :=
  match s with
  | EmptyString => 0
  | String c s' => (utf16_units c + utf16_length s')%nat
  end.

Definition passwordTooShort (password : string) : bool := (utf16_length password <? PASSWORD_MIN_LENGTH)%nat.

(** The record of a private key, written and unlocked; [clear] drops the plain key. *)
Definition storeKey (r : Random) (now : Z) (password : string) (privateKey : Uint8Array) (clear : bool) (d : Device) :
    string * Device :=
  let hex := bytesToHex (getPublicKey privateKey) in
  let '(salt, nonce, cipher) := encryptPrivateKey r privateKey password in
  (hex, {| vaultText := Some (AsRecord {| saltHex := salt; nonceHex := nonce; ciphertextHex := cipher;
                                          publicKeyHex := hex; createdAtMs := now; updatedAtMs := now |});
           privateKeyText := if clear then None else privateKeyText d;
           unlockedPrivateKey := Some privateKey; unlockedPublicKeyHex := Some hex |}).

Definition createPasswordVault (r : Random) (now : Z) (password : string) (migrateLegacyKey overwrite : bool)
    (d : Device) : result (string * Device) :=
  _ ← throw_if (passwordTooShort password) "password_too_short";
  _ ← throw_if (isVaultEnabled d && negb overwrite) "vault_exists";
  let privateKey := if migrateLegacyKey
                    then match readLegacyPrivateKey d with Some hex => hexToBytes hex | None => r_key r end
                    else r_key r in
  _ ← throw_if (negb (length privateKey =? PRIVATE_KEY_BYTES)%nat) "invalid_private_key";
  Ok (storeKey r now password privateKey migrateLegacyKey d).

Definition unlockPasswordVault (password : string) (d : Device) : result (string * Device) :=
  _ ← throw_if (passwordTooShort password) "password_too_short";
  match readVaultRecord d with
  | None => Throw "vault_missing"
  | Some record =>
      privateKey ← decryptPrivateKey record password;
      _ ← throw_if (negb (length privateKey =? PRIVATE_KEY_BYTES)%nat) "invalid_private_key";
      Ok (publicKeyHex record,
          {| vaultText := vaultText d; privateKeyText := privateKeyText d;
             unlockedPrivateKey := Some privateKey; unlockedPublicKeyHex := Some (publicKeyHex record) |})
  end.

Definition lockVault (d : Device) : Device :=
  {| vaultText := vaultText d; privateKeyText := privateKeyText d; unlockedPrivateKey := None;
     unlockedPublicKeyHex := None |}.

Definition deleteVault (d : Device) : Device :=
  lockVault {| vaultText := None; privateKeyText := privateKeyText d; unlockedPrivateKey := unlockedPrivateKey d;
               unlockedPublicKeyHex := unlockedPublicKeyHex d |}.

Definition exportVaultPrivateKey (password : option string) (d : Device) : result string :=
  match unlockedPrivateKey d with
  | Some k => Ok (bytesToHex k)
  | None =>
      match password with
      | Some p =>
          if bool_decide (p = "") then Throw "vault_locked"
          else match readVaultRecord d with
               | None => Throw "vault_missing"
               | Some record => bytesToHex <$> decryptPrivateKey record p
               end
      | None => Throw "vault_locked"
      end
  end.

Definition importVaultPrivateKey (r : Random) (now : Z) (password privateKeyHex : string) (overwrite : bool)
    (d : Device) : result (string * Device) :=
  _ ← throw_if (passwordTooShort password) "password_too_short";
  match normalizeKeyHex (Some privateKeyHex) with
  | None => Throw "invalid_private_key"
  | Some normalized =>
      _ ← throw_if (isVaultEnabled d && negb overwrite) "vault_exists";
      let privateKey := hexToBytes normalized in
      _ ← throw_if (negb (length privateKey =? PRIVATE_KEY_BYTES)%nat) "invalid_private_key";
      Ok (storeKey r now password privateKey true d)
  end.

(** ** [crypto.ts] *)

Definition with_privateKeyText (t : option string) (d : Device) : Device :=
  {| vaultText := vaultText d; privateKeyText := t; unlockedPrivateKey := unlockedPrivateKey d;
     unlockedPublicKeyHex := unlockedPublicKeyHex d |}.

(** A stored text that is empty counts as none. *)
Definition storedKey (d : Device) : option string :=
  match privateKeyText d with Some t => if bool_decide (t = "") then None else Some t | None => None end.

Definition getOrCreateKeyPairInternal (r : Random) (d : Device) : Uint8Array * Uint8Array * Device :=
  let '(hex, d') := match storedKey d with
                    | Some t => (t, d)
                    | None => (bytesToHex (r_key r), with_privateKeyText (Some (bytesToHex (r_key r))) d)
                    end in
  (getPublicKey (hexToBytes hex), hexToBytes hex, d').

Definition getAppPublicKey (r : Random) (d : Device) : Uint8Array * Device :=
  match getVaultPublicKeyHex d with
  | Some hex => if bool_decide (hex = "") then let '(pk, _, d') := getOrCreateKeyPairInternal r d in (pk, d')
                else (hexToBytes hex, d)
  | None => let '(pk, _, d') := getOrCreateKeyPairInternal r d in (pk, d')
  end.

Definition signMessage (message : Uint8Array) (d : Device) : result Uint8Array :=
  if isVaultEnabled d then
    match unlockedPrivateKey d with
    | Some k => Ok (sign message k)
    | None => Throw "vault_locked"
    end
  else match storedKey d with
       | Some t => Ok (sign message (hexToBytes t))
       | None => Throw "No key pair exists. Call getPublicKey() first to create one."
       end.

Definition deleteKeyPair (d : Device) : Device := with_privateKeyText None d.
Definition hasKeyPair (d : Device) : bool := bool_decide (privateKeyText d <> None).

(** [entitlements.ts]: what the app signs for a challenge of the auth service. *)
Definition buildAuthMessage (challengeHex : string) : Uint8Array :=
  bytes_of_string "nullspace-auth:" ++ hexToBytes challengeHex.

(** ** Runs *)

Inductive VaultCall :=
| Create (r : Random) (now : Z) (password : string) (migrate overwrite : bool)
| Unlock (password : string)
| Lock
| Delete
| Import (r : Random) (now : Z) (password key : string) (overwrite : bool)
| PublicKey (r : Random)
| DeleteKeyPair.

(** A call that throws changes nothing. *)
Definition vaultCall (c : VaultCall) (d : Device) : Device :=
  match c with
  | Create r now p m o => match createPasswordVault r now p m o d with Ok (_, d') => d' | Throw _ => d end
  | Unlock p => match unlockPasswordVault p d with Ok (_, d') => d' | Throw _ => d end
  | Lock => lockVault d
  | Delete => deleteVault d
  | Import r now p k o => match importVaultPrivateKey r now p k o d with Ok (_, d') => d' | Throw _ => d end
  | PublicKey r => (getAppPublicKey r d).2
  | DeleteKeyPair => deleteKeyPair d
  end.

Definition vaultCalls (l : list VaultCall) (d : Device) : Device := foldl (fun d c => vaultCall c d) d l.

(** A new device. *)
Definition newDevice : Device :=
  {| vaultText := None; privateKeyText := None; unlockedPrivateKey := None; unlockedPublicKeyHex := None |}.

End Vault.
