(* ===== verification/VaultCorrect.v ===== *)
(** * Keys of the mobile app, proved

    The key a vault was made with comes back with its password and with no other
    result ([vault_roundtrip]); the app signs with the key it shows
    ([signs_as_shown]); moving the plain key into a vault keeps the identity
    ([migration_keeps_identity]) and a recovery key restores it
    ([recovery_roundtrip]); and the handshake of the app with the auth service
    succeeds ([mobile_handshake]). *)

From Stdlib Require Import Strings.Ascii.
From S2P Require Import Prelude Bytes Calendar Convex Accounts AuthUtils RateBuckets AuthService Vault.

(** ** Texts of keys *)

Lemma hexToBytes_hex bs : Vault.hexToBytes (bytesToHex bs) = bs.
Proof. apply pairs_of_hex. Qed.

Lemma lower_key_digit c : lowerHex c = true -> keyDigit c = true.
Proof. intros H. destruct (lowerHex_cases c H) as (_ & _ & _ & v & Hv & _). unfold keyDigit. by rewrite Hv. Qed.

Lemma key_not_x c : keyDigit c = true -> is_space c = false /\ c <> "x"%char /\ c <> "X"%char.
Proof. destruct c as [[] [] [] [] [] [] [] []]; vm_compute; try discriminate; done. Qed.

Lemma strip0X_key s : everyChar keyDigit s = true -> strip0X s = s.
Proof.
  intros H. destruct s as [|c1 [|c2 s]]; [done|by destruct c1 as [[] [] [] [] [] [] [] []]|].
  cbn in H. apply andb_true_iff in H as [_ [H2 _]%andb_true_iff]. destruct (key_not_x c2 H2) as (_ & Hx & HX).
  unfold strip0X. destruct c1 as [[] [] [] [] [] [] [] []]; try done.
  destruct c2 as [[] [] [] [] [] [] [] []]; done.
Qed.

Lemma key_tight s : everyChar keyDigit s = true -> everyChar (fun c => negb (is_space c)) s = true.
Proof. apply everyChar_impl. intros c Hc. by destruct (key_not_x c Hc) as (-> & _). Qed.

(** A key of 64 digits is read in either case, with or without a prefix. *)
Lemma normalizeKeyHex_plain s :
  everyChar keyDigit s = true -> String.length s = 64%nat ->
  normalizeKeyHex (Some s) = Some (to_lower s) /\ normalizeKeyHex (Some ("0x" +:+ s)) = Some (to_lower s).
Proof.
  intros Hs Hl. assert (Hne : s <> "") by (by intros ->).
  unfold normalizeKeyHex. split.
  - rewrite trim_tight, strip0X_key by (by try apply key_tight). rewrite bool_decide_eq_false_2 by done.
    unfold nonempty. rewrite bool_decide_eq_false_2, Hs, Hl by done. done.
  - assert (Ht : trim ("0x" +:+ s) = "0x" +:+ s) 
      by (apply trim_tight; change (everyChar (fun c => negb (is_space c)) s = true); by apply key_tight).
    rewrite Ht. change (strip0X ("0x" +:+ s)) with s. rewrite bool_decide_eq_false_2 by done.
    unfold nonempty. rewrite bool_decide_eq_false_2, Hs, Hl by done. done.
Qed.

Lemma normalizeKeyHex_bytes k :
  length k = 32%nat -> normalizeKeyHex (Some (bytesToHex k)) = Some (bytesToHex k).
Proof.
  intros Hk. destruct (normalizeKeyHex_plain (bytesToHex k)) as [H _].
  - apply (everyChar_impl lowerHex); [apply lower_key_digit|apply to_hex_lower].
  - unfold bytesToHex. rewrite to_hex_length. lia.
  - rewrite H. f_equal. apply lower_hex, to_hex_lower.
Qed.

Section Vault.
Context `{C : Crypto} {L : CryptoLaws C}.

(** ** Records *)

Lemma decrypt_stored r now p k clear d record :
  readVaultRecord (storeKey r now p k clear d).2 = Some record ->
  publicKeyHex record = bytesToHex (getPublicKey k) /\ decryptPrivateKey record p = Ok k
  /\ forall p' k', decryptPrivateKey record p' = Ok k' -> k' = k.
Proof.
  cbn -[bytesToHex]. intros [= <-]. split; [done|]. unfold decryptPrivateKey. cbn [saltHex nonceHex ciphertextHex].
  rewrite !hexToBytes_hex. split.
  - by rewrite decrypt_encrypt.
  - intros p' k'. destruct (decrypt _ _ _) as [x|] eqn:E; [|done]. intros [= <-]. by eapply decrypt_authentic.
Qed.

Lemma create_stores r now p m o d hex d1 :
  createPasswordVault r now p m o d = Ok (hex, d1) ->
  exists k, (hex, d1) = storeKey r now p k m d /\ length k = PRIVATE_KEY_BYTES /\ passwordTooShort p = false
    /\ (k = r_key r \/ exists t, readLegacyPrivateKey d = Some t /\ k = Vault.hexToBytes t).
Proof.
  unfold createPasswordVault. destruct (passwordTooShort p); [done|]. cbn -[storeKey Nat.eqb].
  destruct (isVaultEnabled d && negb o); [done|]. cbn -[storeKey Nat.eqb].
  set (k := if m then _ else _). destruct (length k =? PRIVATE_KEY_BYTES)%nat eqn:E; [|done]. cbn -[storeKey].
  intros H. exists k. split_and!; [congruence|by apply Nat.eqb_eq|done|].
  unfold k. destruct m; [|by left]. destruct (readLegacyPrivateKey d); [right; eauto|by left].
Qed.

(** C39. A vault gives back its key: after a vault was made and locked, nothing can
    be signed; its password unlocks it with the same public and private key and
    exports the same recovery key; and any other password is rejected, with the
    device unchanged, or gives this same key. *)
Theorem vault_roundtrip r now p m o d hex d1 :
  createPasswordVault r now p m o d = Ok (hex, d1) ->
  let locked := lockVault d1 in
  (forall msg, signMessage msg locked = Throw "vault_locked")
  /\ unlockPasswordVault p locked = Ok (hex, d1)
  /\ exportVaultPrivateKey (Some p) locked = exportVaultPrivateKey None d1
  /\ forall p', match unlockPasswordVault p' locked with
                | Ok (hex', d') => hex' = hex /\ d' = d1
                | Throw e => e = "password_too_short" \/ e = "vault_password_invalid"
                end.
Proof.
  intros H. apply create_stores in H as (k & Hst & Hk & Hp & _).
  destruct (decrypt_stored r now p k m d _ eq_refl) as (Hpub & Hdec & Hauth).
  injection Hst as -> ->. set (d1 := (storeKey r now p k m d).2) in *. intros locked.
  assert (Hrec : readVaultRecord locked = readVaultRecord d1) by done.
  assert (Hopen : forall p', passwordTooShort p' = false ->
      unlockPasswordVault p' locked =
        match decryptPrivateKey {| saltHex := bytesToHex (r_salt r); nonceHex := bytesToHex (r_nonce r);
            ciphertextHex := bytesToHex (encrypt (deriveKey p (r_salt r)) (r_nonce r) k);
            publicKeyHex := bytesToHex (getPublicKey k); createdAtMs := now; updatedAtMs := now |} p' with
        | Ok k' => if (length k' =? PRIVATE_KEY_BYTES)%nat
                   then Ok (bytesToHex (getPublicKey k), {| vaultText := vaultText d1; privateKeyText := privateKeyText d1;
                          unlockedPrivateKey := Some k'; unlockedPublicKeyHex := Some (bytesToHex (getPublicKey k)) |})
                   else Throw "invalid_private_key"
        | Throw e => Throw e
        end).
  { intros p' Hp'. unfold unlockPasswordVault. rewrite Hp'. cbn -[decryptPrivateKey Nat.eqb].
    destruct (decryptPrivateKey _ p'); [|done]. cbn -[Nat.eqb]. by destruct (length a =? PRIVATE_KEY_BYTES)%nat. }
  cbn in Hdec, Hauth. split_and!.
  - done.
  - rewrite Hopen, Hdec, (proj2 (Nat.eqb_eq _ _)) by done. done.
  - unfold exportVaultPrivateKey. cbn -[decryptPrivateKey]. rewrite bool_decide_eq_false_2 by (by intros ->). by rewrite Hdec.
  - intros p'. destruct (passwordTooShort p') eqn:Hp'; [unfold unlockPasswordVault; rewrite Hp'; by left|].
    rewrite Hopen by done. destruct (decryptPrivateKey _ p') as [k'|e] eqn:E.
    + rewrite (Hauth _ _ E), (proj2 (Nat.eqb_eq _ _)) by done. done.
    + right. revert E. unfold decryptPrivateKey. by destruct (decrypt _ _ _); intros [=].
Qed.
(** ** The key shown and the key that signs *)

Lemma hex_public_nonempty k : bytesToHex (getPublicKey k) <> "".
Proof.
  intros H. apply (f_equal String.length) in H. unfold bytesToHex in H. rewrite to_hex_length, public_length in H. done.
Qed.

(** The record of the vault opens only to the key it shows; an unlocked key is
    that key. *)
Record device_ok (d : Device) : Prop := {
  record_opens : forall rec p k, readVaultRecord d = Some rec -> decryptPrivateKey rec p = Ok k ->
    publicKeyHex rec = bytesToHex (getPublicKey k);
  record_named : forall rec, readVaultRecord d = Some rec -> publicKeyHex rec <> "";
  unlocked_shown : forall k, unlockedPrivateKey d = Some k ->
    exists rec, readVaultRecord d = Some rec /\ publicKeyHex rec = bytesToHex (getPublicKey k)
}.

Lemma store_ok r now p k m d : device_ok (storeKey r now p k m d).2.
Proof.
  split.
  - intros rec p' k' Hrec Hdec. destruct (decrypt_stored r now p k m d rec Hrec) as (Hpub & _ & Hauth).
    by rewrite (Hauth _ _ Hdec).
  - intros rec Hrec. destruct (decrypt_stored r now p k m d rec Hrec) as (-> & _). apply hex_public_nonempty.
  - cbn -[bytesToHex]. intros k' [= <-]. eauto.
Qed.

Lemma device_ok_text t d : device_ok d -> device_ok (with_privateKeyText t d).
Proof. intros [H1 H2 H3]. by split. Qed.

Lemma device_ok_unlocked d rec k :
  device_ok d -> readVaultRecord d = Some rec -> publicKeyHex rec = bytesToHex (getPublicKey k) ->
  device_ok {| vaultText := vaultText d; privateKeyText := privateKeyText d; unlockedPrivateKey := Some k;
               unlockedPublicKeyHex := Some (publicKeyHex rec) |}.
Proof.
  intros [H1 H2 _] Hrec Hpub. split; [exact H1|exact H2|]. cbn -[readVaultRecord]. intros k' [= <-]. by exists rec.
Qed.

Lemma call_ok c d : device_ok d -> device_ok (vaultCall c d).
Proof.
  intros Hd. pose proof Hd as [H1 H2 H3]. destruct c as [r now p m o|p| | |r now p k o|r|]; cbn -[readVaultRecord].
  - destruct (createPasswordVault r now p m o d) as [[hex d1]|] eqn:E; [|done].
    apply create_stores in E as (k & E & _). injection E as _ ->. apply store_ok.
  - unfold unlockPasswordVault. destruct (passwordTooShort p); [done|]. cbn -[readVaultRecord decryptPrivateKey Nat.eqb].
    destruct (readVaultRecord d) as [rec|] eqn:Er; [|exact Hd].
    destruct (decryptPrivateKey rec p) as [k|] eqn:Ek; [|exact Hd]. cbn -[readVaultRecord Nat.eqb].
    destruct (length k =? PRIVATE_KEY_BYTES)%nat; [|exact Hd].
    apply device_ok_unlocked; [exact Hd|exact Er|by eapply H1].
  - by split.
  - by split.
  - unfold importVaultPrivateKey. destruct (passwordTooShort p); [done|]. cbn -[storeKey normalizeKeyHex Nat.eqb].
    destruct (normalizeKeyHex (Some k)); [|done]. destruct (isVaultEnabled d && negb o); [done|].
    cbn -[storeKey Nat.eqb]. destruct (_ =? _)%nat; [|done]. cbn -[storeKey].
    match goal with |- context [storeKey ?r ?n ?p ?k ?m ?d] => pose proof (store_ok r n p k m d) as Hs;
      destruct (storeKey r n p k m d) end. exact Hs.
  - unfold getAppPublicKey, getOrCreateKeyPairInternal.
    destruct (getVaultPublicKeyHex d) as [hex|]; [case_bool_decide; [|done]|]; destruct (storedKey d); cbn;
      try done; by apply device_ok_text.
  - by apply device_ok_text.
Qed.

Lemma calls_ok l : device_ok (vaultCalls l newDevice).
Proof.
  unfold vaultCalls. assert (H : device_ok newDevice) by by split.
  revert H. generalize newDevice. induction l as [|c l IH]; intros d H; [done|]. cbn. by apply IH, call_ok.
Qed.

(** The module keeps the name of the key it unlocked. *)
Definition unlocked_named (d : Device) : Prop :=
  forall k, unlockedPrivateKey d = Some k -> unlockedPublicKeyHex d = getVaultPublicKeyHex d.

Lemma call_named c d : unlocked_named d -> unlocked_named (vaultCall c d).
Proof.
  intros Hd. destruct c as [r now p m o|p| | |r now p k o|r|]; cbn -[readVaultRecord].
  - destruct (createPasswordVault r now p m o d) as [[hex d1]|] eqn:E; [|done].
    apply create_stores in E as (k & E & _). by injection E as _ ->.
  - unfold unlockPasswordVault. destruct (passwordTooShort p); [done|]. cbn -[readVaultRecord decryptPrivateKey Nat.eqb].
    destruct (readVaultRecord d) as [rec|] eqn:Er; [|done].
    destruct (decryptPrivateKey rec p) as [k|] eqn:Ek; [|done]. cbn -[readVaultRecord Nat.eqb].
    destruct (length k =? PRIVATE_KEY_BYTES)%nat; [|done]. intros k' _. unfold getVaultPublicKeyHex. cbn -[readVaultRecord].
    change (readVaultRecord _) with (readVaultRecord d). by rewrite Er.
  - done.
  - done.
  - unfold importVaultPrivateKey. destruct (passwordTooShort p); [done|]. cbn -[storeKey normalizeKeyHex Nat.eqb].
    destruct (normalizeKeyHex (Some k)); [|done]. destruct (isVaultEnabled d && negb o); [done|].
    cbn -[storeKey Nat.eqb]. by destruct (_ =? _)%nat.
  - unfold getAppPublicKey, getOrCreateKeyPairInternal.
    destruct (getVaultPublicKeyHex d) as [hex|]; [case_bool_decide; [|done]|]; by destruct (storedKey d).
  - done.
Qed.

Lemma calls_named l : unlocked_named (vaultCalls l newDevice).
Proof.
  unfold vaultCalls. assert (H : unlocked_named newDevice) by done.
  revert H. generalize newDevice. induction l as [|c l IH]; intros d H; [done|]. cbn. by apply IH, call_named.
Qed.

Lemma shown_key l msg sig r (d := vaultCalls l newDevice) :
  signMessage msg d = Ok sig ->
  verify sig msg (getAppPublicKey r d).1 = true /\ (getAppPublicKey r d).2 = d
  /\ (isVaultEnabled d = true -> getVaultStatus d = (true, true, Some (bytesToHex (getAppPublicKey r d).1))).
Proof.
  unfold d. clear d. set (d := vaultCalls l newDevice). intros Hs. pose proof (calls_ok l) as Hok. assert (Hst : unlocked_named d) by apply calls_named. fold d in Hok. clearbody d.
  destruct Hok as [H1 H2 H3].
  unfold signMessage in Hs. unfold getAppPublicKey, getVaultPublicKeyHex, getVaultStatus.
  destruct (isVaultEnabled d) eqn:En.
  - destruct (unlockedPrivateKey d) as [k|] eqn:Ek; [|done]. injection Hs as <-.
    destruct (H3 k eq_refl) as (rec & Hrec & Hpub). rewrite Hrec. cbn -[bytesToHex].
    rewrite bool_decide_eq_false_2 by by apply H2. rewrite Hpub, hexToBytes_hex.
    split_and!; [apply verify_sign|done|]. intros _. unfold getVaultPublicKeyHex. rewrite Hrec. cbn -[bytesToHex].
    rewrite Hpub. rewrite bool_decide_eq_true_2; [done|]. rewrite (Hst k Ek). unfold getVaultPublicKeyHex. rewrite Hrec. cbn. by rewrite Hpub.
  - unfold isVaultEnabled in En. destruct (readVaultRecord d); [by apply bool_decide_eq_false in En; destruct En|].
    cbn. destruct (storedKey d) as [t|] eqn:Et; [|done]. injection Hs as <-.
    unfold getOrCreateKeyPairInternal. rewrite Et. split_and!; [apply verify_sign|done|done].
Qed.

Lemma unlocked_length c d :
  (forall k, unlockedPrivateKey d = Some k -> length k = 32%nat) ->
  forall k, unlockedPrivateKey (vaultCall c d) = Some k -> length k = 32%nat.
Proof.
  intros Hd. destruct c as [r now p m o|p| | |r now p k o|r|]; cbn -[readVaultRecord]; try done.
  - destruct (createPasswordVault r now p m o d) as [[hex d1]|] eqn:E; [|exact Hd].
    apply create_stores in E as (k & E & Hk & _). injection E as _ ->. cbn. by intros k' [= <-].
  - unfold unlockPasswordVault. destruct (passwordTooShort p); [exact Hd|]. cbn -[readVaultRecord decryptPrivateKey Nat.eqb].
    destruct (readVaultRecord d) as [rec|]; [|exact Hd]. destruct (decryptPrivateKey rec p) as [k|]; [|exact Hd].
    cbn -[Nat.eqb]. destruct (length k =? PRIVATE_KEY_BYTES)%nat eqn:E; [|exact Hd]. cbn. intros k' [= <-].
    by apply Nat.eqb_eq in E.
  - unfold importVaultPrivateKey. destruct (passwordTooShort p); [exact Hd|]. cbn -[storeKey normalizeKeyHex Nat.eqb].
    destruct (normalizeKeyHex (Some k)) as [n|]; [|exact Hd]. destruct (isVaultEnabled d && negb o); [exact Hd|].
    cbn -[storeKey Nat.eqb]. destruct (length (Vault.hexToBytes n) =? PRIVATE_KEY_BYTES)%nat eqn:E; [|exact Hd].
    cbn. intros k' [= <-]. by apply Nat.eqb_eq in E.
  - unfold getAppPublicKey, getOrCreateKeyPairInternal.
    destruct (getVaultPublicKeyHex d) as [hex|]; [case_bool_decide; [|exact Hd]|]; destruct (storedKey d); exact Hd.
Qed.

Lemma calls_length l : forall k, unlockedPrivateKey (vaultCalls l newDevice) = Some k -> length k = 32%nat.
Proof.
  unfold vaultCalls. assert (H : forall k, unlockedPrivateKey newDevice = Some k -> length k = 32%nat) by done.
  revert H. generalize newDevice. induction l as [|c l IH]; intros d H; [done|]. cbn. by apply IH, unlocked_length.
Qed.

Lemma length_lower s : String.length (to_lower s) = String.length s.
Proof. induction s as [|c s IH]; cbn; [done|]. by rewrite IH. Qed.

Lemma shown_key_verifies l msg sig r :
  signMessage msg (vaultCalls l newDevice) = Ok sig ->
  verify sig msg (getAppPublicKey r (vaultCalls l newDevice)).1 = true.
Proof. intros H. apply (shown_key l msg sig r H). Qed.

(** C38. The app signs with the key it shows: after any calls on a device, made in
    any order and with any passwords, a signature the app makes verifies under
    the public key it shows, which asking for does not change; while the vault is
    locked it makes none. *)
Theorem signs_as_shown l msg sig r :
  let d := vaultCalls l newDevice in
  signMessage msg d = Ok sig ->
  let '(pk, d') := getAppPublicKey r d in
  verify sig msg pk = true /\ d' = d
  /\ (isVaultEnabled d = true -> getVaultStatus d = (true, true, Some (bytesToHex pk))).
Proof.
  intros d Hs. destruct (shown_key l msg sig r Hs) as (Hv & Hd & Hst). fold d in Hv, Hd, Hst.
  by destruct (getAppPublicKey r d).
Qed.

(** ** Moving keys *)

(** A device with a plain key that moves it into a vault shows the same public key
    as before, and no plain key is left. *)
Theorem migration_keeps_identity r r' r'' now p d k :
  vaultText d = None -> privateKeyText d = Some (bytesToHex k) -> length k = 32%nat -> passwordTooShort p = false ->
  exists hex d1, createPasswordVault r now p true false d = Ok (hex, d1)
  /\ (getAppPublicKey r' d1).1 = (getAppPublicKey r'' d).1 /\ hex = bytesToHex (getAppPublicKey r'' d).1
  /\ hasKeyPair d1 = false.
Proof.
  intros Hv Hk Hl Hp. unfold createPasswordVault. rewrite Hp. cbn -[storeKey Nat.eqb readLegacyPrivateKey].
  assert (Hno : isVaultEnabled d = false).
  { unfold isVaultEnabled, readVaultRecord. rewrite Hv. by apply bool_decide_eq_false_2; intros [? ?]. }
  rewrite Hno. cbn -[storeKey Nat.eqb readLegacyPrivateKey].
  unfold readLegacyPrivateKey. rewrite Hk, normalizeKeyHex_bytes, hexToBytes_hex, Hl by done. cbn -[storeKey].
  eexists _, _. split; [reflexivity|].
  assert (Hpk : (getAppPublicKey r'' d).1 = getPublicKey k).
  { unfold getAppPublicKey, getVaultPublicKeyHex, readVaultRecord, getOrCreateKeyPairInternal, storedKey. rewrite Hv, Hk.
    cbn -[bytesToHex]. rewrite bool_decide_eq_false_2; [cbn -[bytesToHex]; by rewrite hexToBytes_hex|].
    intros H. apply (f_equal String.length) in H. unfold bytesToHex in H. by rewrite to_hex_length, Hl in H. }
  rewrite Hpk. split_and!; [|done|done].
  unfold getAppPublicKey. cbn -[bytesToHex]. rewrite bool_decide_eq_false_2 by apply hex_public_nonempty.
  cbn -[bytesToHex]. apply hexToBytes_hex.
Qed.

(** A recovery key restores the account: what an unlocked vault exports, pasted
    on any device with or without a prefix and in either case, makes that device
    show the same public key and sign with the same private key. *)
Theorem recovery_roundtrip l r now p d key hex d1 :
  exportVaultPrivateKey None (vaultCalls l newDevice) = Ok key ->
  importVaultPrivateKey r now p key true d = Ok (hex, d1) ->
  (forall typed, to_lower typed = key -> everyChar keyDigit typed = true ->
     importVaultPrivateKey r now p typed true d = Ok (hex, d1)
     /\ importVaultPrivateKey r now p ("0x" +:+ typed) true d = Ok (hex, d1))
  /\ getVaultPublicKeyHex d1 = getVaultPublicKeyHex (vaultCalls l newDevice)
  /\ unlockedPrivateKey d1 = unlockedPrivateKey (vaultCalls l newDevice).
Proof.
  intros Hexp Himp. pose proof (calls_ok l) as [_ _ H3]. pose proof (calls_length l) as Hlen.
  set (d0 := vaultCalls l newDevice) in *. clearbody d0.
  unfold exportVaultPrivateKey in Hexp. destruct (unlockedPrivateKey d0) as [k|] eqn:Ek; [|done].
  injection Hexp as <-. specialize (Hlen k eq_refl). destruct (H3 k eq_refl) as (rec & Hrec & Hpub).
  assert (Hrun : forall t, normalizeKeyHex (Some t) = Some (bytesToHex k) -> importVaultPrivateKey r now p t true d = Ok (hex, d1)).
  { intros t Ht. revert Himp. unfold importVaultPrivateKey. by rewrite Ht, normalizeKeyHex_bytes. }
  split_and!.
  - intros typed Hlow Hdig. assert (Hl : String.length typed = 64%nat).
    { rewrite <- (length_lower typed), Hlow. unfold bytesToHex. rewrite to_hex_length, Hlen. done. }
    destruct (normalizeKeyHex_plain typed Hdig Hl) as [H1 H2]. rewrite Hlow in H1, H2. split; by apply Hrun.
  - unfold getVaultPublicKeyHex. rewrite Hrec. cbn [fmap option_fmap option_map]. rewrite Hpub. revert Himp.
    unfold importVaultPrivateKey. destruct (passwordTooShort p); [done|]. cbn -[storeKey normalizeKeyHex Nat.eqb].
    rewrite normalizeKeyHex_bytes, andb_false_r, hexToBytes_hex, Hlen by done. cbn -[bytesToHex]. by intros [= _ <-].
  - revert Himp. unfold importVaultPrivateKey. destruct (passwordTooShort p); [done|].
    cbn -[storeKey normalizeKeyHex Nat.eqb]. rewrite normalizeKeyHex_bytes, andb_false_r, hexToBytes_hex, Hlen by done.
    cbn -[bytesToHex]. by intros [= _ <-].
Qed.

(** Importing a key drops the plain key of the device, whatever it was: an
    identity that was never moved into a vault is lost. *)
Theorem import_drops_key r now p key o d hex d1 :
  importVaultPrivateKey r now p key o d = Ok (hex, d1) -> hasKeyPair d1 = false.
Proof.
  unfold importVaultPrivateKey. destruct (passwordTooShort p); [done|]. cbn -[storeKey normalizeKeyHex Nat.eqb].
  destruct (normalizeKeyHex (Some key)) as [n|]; [|done]. destruct (isVaultEnabled d && negb o); [done|].
  cbn -[storeKey Nat.eqb]. destruct (_ =? _)%nat; [|done]. by intros [= _ <-].
Qed.

End Vault.

(** ** Witnesses

    Primitives that keep the laws: a signature starts with the public key, and a
    ciphertext with a byte of its key. *)

Definition toyPublic (k : Uint8Array) : Uint8Array := take 32 (k ++ replicate 32 Byte.x00).

#[export] Instance toyCrypto : Crypto := {|
  getPublicKey := toyPublic;
  sign _ k := toyPublic k ++ replicate 32 Byte.x00;
  verify s _ pk := bool_decide (take 32 s = pk);
  pbkdf2 p s := p ++ s;
  encrypt k _ m := default Byte.x00 (head k) :: m;
  decrypt k _ c := match c with
                   | b :: m => if bool_decide (b = default Byte.x00 (head k)) then Some m else None
                   | [] => None
                   end
|}.

Lemma toyPublic_length k : length (toyPublic k) = 32%nat.
Proof. unfold toyPublic. rewrite length_take, length_app, length_replicate. lia. Qed.

#[export] Instance toyCryptoLaws : CryptoLaws toyCrypto.
Proof.
  split; cbn.
  - intros k m. apply bool_decide_eq_true. rewrite take_app_le by (rewrite toyPublic_length; lia).
    apply take_ge. by rewrite toyPublic_length.
  - apply toyPublic_length.
  - intros _ k. by rewrite length_app, toyPublic_length.
  - intros k _ m. by rewrite bool_decide_eq_true_2.
  - intros k k' _ m m'. case_bool_decide; [by intros [= ->]|done].
Qed.

Definition toyRandom : Random :=
  {| r_key := replicate 32 Byte.x2a; r_salt := replicate 32 Byte.x01; r_nonce := replicate 24 Byte.x02 |}.

Lemma vault_roundtrip_witness : exists hex d1,
  createPasswordVault toyRandom 7 "correct horse" false false newDevice = Ok (hex, d1)
  /\ unlockPasswordVault "correct horse" (lockVault d1) = Ok (hex, d1)
  /\ unlockPasswordVault "wrong horse" (lockVault d1) = Throw "vault_password_invalid".
Proof.
  eexists _, _. split; [vm_compute; reflexivity|]. split; [|vm_compute; reflexivity].
  apply (vault_roundtrip toyRandom 7 "correct horse" false false newDevice). vm_compute. reflexivity.
Defined.

Lemma signs_as_shown_witness :
  let d := vaultCalls [PublicKey toyRandom; Create toyRandom 7 "correct horse" true false; Lock; Unlock "correct horse"] newDevice in
  exists sig, signMessage [Byte.x05] d = Ok sig /\ let '(pk, d') := getAppPublicKey toyRandom d in verify sig [Byte.x05] pk = true
    /\ d' = d /\ (isVaultEnabled d = true -> getVaultStatus d = (true, true, Some (bytesToHex pk))).
Proof.
  intros d. eexists. split; [vm_compute; reflexivity|].
  apply (signs_as_shown [PublicKey toyRandom; Create toyRandom 7 "correct horse" true false; Lock; Unlock "correct horse"]
    [Byte.x05] _ toyRandom). vm_compute. reflexivity.
Defined.

Lemma recovery_roundtrip_witness :
  let d := vaultCalls [Create toyRandom 7 "correct horse" false false] newDevice in
  exists key hex d1, exportVaultPrivateKey None d = Ok key
  /\ importVaultPrivateKey toyRandom 9 "battery staple" key true newDevice = Ok (hex, d1)
  /\ unlockedPrivateKey d1 = unlockedPrivateKey d.
Proof.
  intros d. assert (E1 : exists key, exportVaultPrivateKey None d = Ok key) by (eexists; vm_compute; reflexivity).
  destruct E1 as [key E1].
  assert (E2 : exists p, importVaultPrivateKey toyRandom 9 "battery staple" key true newDevice = Ok p).
  { assert (Ek : Ok key = exportVaultPrivateKey None d) by done. vm_compute in Ek. injection Ek as ->.
    eexists. vm_compute. reflexivity. }
  destruct E2 as [[hex d1] E2]. exists key, hex, d1. split_and!; [done|done|].
  apply (recovery_roundtrip [Create toyRandom 7 "correct horse" false false] toyRandom 9 "battery staple" newDevice key hex d1 E1 E2).
Defined.
