(* ===== verification/MobileEntitlements.v ===== *)
(** * The handshake of the mobile app with the auth service

    [mobile/src/services/entitlements.ts] against the handlers of
    [services/auth/src/server.ts] modelled in [AuthService]: the app asks for a
    challenge, signs it with its key and sends the signature.

    The two requests run one after the other with nothing in between; the rate
    limit in front of them is modelled with the service. *)

From S2P Require Import Prelude Bytes Calendar Convex Accounts AuthUtils RateBuckets AuthService Vault VaultCorrect.

Section Handshake.
Context `{V : Convex} `{lib : AuthLib} `{C : Crypto}.

(** [q1] and [q2] hold the time, the identifier and the random bytes the service
    uses for the two requests; [key] is the public key the caller names. *)
Definition fetchMobileEntitlements (authBase : string) (env : Env) (q1 q2 : Request) (key : string) (dev : Device)
    (db : Db) : result (list (Id * Entitlement)) * Db :=
  if bool_decide (authBase = "") then (Ok [], db)
  else
    match runAlone env (q_now q1) (mobileChallenge env q1 key) db with
    | (ChallengeIssued challengeId challenge _, db) =>
        match signMessage (Vault.buildAuthMessage challenge) dev with
        | Throw e => (Throw e, db)
        | Ok signature =>
            match runAlone env (q_now q2) (mobileEntitlements env key (bytesToHex signature) challengeId) db with
            | (Entitlements l, db) => (Ok l, db)
            | (_, db) => (Throw "Entitlements fetch failed", db)
            end
        end
    | (_, db) => (Throw "Challenge failed", db)
    end.

Context {VL : ConvexLaws V} {CL : CryptoLaws C}.

(** App and service sign and verify alike. *)
Lemma message_agrees bs : Vault.buildAuthMessage (to_hex bs) = AuthUtils.buildAuthMessage (to_hex bs).
Proof.
  unfold Vault.buildAuthMessage, AuthUtils.buildAuthMessage. rewrite fromHex_to_hex. f_equal. apply hexToBytes_hex.
Qed.

Lemma signature_hex msg dev sig :
  signMessage msg dev = Ok sig ->
  normalizeHex (bytesToHex sig) = bytesToHex sig /\ isHex (bytesToHex sig) (Some 128%nat) = true.
Proof.
  intros H. assert (Hl : length sig = 64%nat).
  { unfold signMessage in H. destruct (isVaultEnabled dev); [destruct (unlockedPrivateKey dev)|destruct (storedKey dev)];
      simplify_eq; apply sign_length. }
  split; [apply normalizeHex_hex, to_hex_lower|]. destruct (hex_roundtrip sig) as (_ & _ & Hx).
  rewrite Hl in Hx. change (2 * 64)%nat with 128%nat in Hx. rewrite Hx.
  by rewrite bool_decide_eq_false_2 by (by intros ->).
Qed.

(** A challenge that was just made is taken by its key, and nothing but the table
    of challenges changes. *)
Lemma fresh_challenge_taken id key ch exp db :
  (forall i c, db_get (authChallenges db) i = Some c -> ac_challengeId c <> id) ->
  exists db1, createAuthChallenge id key ch exp db = Ok (tt, db1)
    /\ forall now, now < exp -> exists db2, consumeAuthChallenge now id key db1 = Ok (Some (ch, exp), db2)
         /\ users db2 = users db /\ entitlements db2 = entitlements db.
Proof.
  intros Hfresh. unfold createAuthChallenge, insertInto.
  set (c := {| ac_challengeId := id; ac_publicKey := key; ac_challenge := ch; ac_expiresAtMs := exp; ac_usedAtMs := None |}).
  pose proof (get_insert c (authChallenges db)) as Hget.
  destruct (db_insert c (authChallenges db)) as [i t] eqn:Ei. cbn [fst snd] in Hget. cbn [snd].
  exists (with_authChallenges t db). split; [done|]. intros now Hnow. unfold consumeAuthChallenge.
  change (authChallenges (with_authChallenges t db)) with t.
  assert (Hu : unique "by_challenge_id" (by_challengeId id) t = Ok (Some (i, c))).
  { apply unique_some. rewrite Hget, decide_True by done. split_and!; [done|by apply bool_decide_eq_true|].
    intros j e. rewrite Hget. case_decide; [done|]. intros Hj Hp. apply bool_decide_eq_true in Hp.
    by destruct (Hfresh j e Hj). }
  rewrite Hu. cbn -[patch Z.leb]. rewrite bool_decide_eq_true_2 by done. cbn -[patch Z.leb].
  rewrite (proj2 (Z.leb_gt _ _)) by done.
  destruct (patch_existing i (with_used now) t c) as (t' & -> & _); [by rewrite Hget, decide_True|].
  eexists. split; [reflexivity|]. done.
Qed.

Definition entitledTo (env : Env) (user : option (Id * User)) (db : Db) : list (Id * Entitlement) :=
  match user with Some (id, _) => getEntitlementsByUser id (Some (ENTITLEMENTS_MAX env)) db | None => [] end.

(** What stands between a device and the entitlements of [key]: the service lets
    mobile clients in, the identifier of the challenge is new, the challenge is
    answered before it expires, and at most one account has the key. *)
Record reaches (authBase : string) (env : Env) (q1 q2 : Request) (key : string) (db : Db)
    (user : option (Id * User)) : Prop := {
  r_base : authBase <> "";
  r_enabled : mobileEnabled env = true;
  r_token : requireServiceToken (configuredToken env) (serviceToken env) = Ok tt;
  r_key : isHex (normalizeHex key) (Some 64%nat) = true;
  r_id : q_uuid q1 <> "";
  r_new : forall i c, db_get (authChallenges db) i = Some c -> ac_challengeId c <> q_uuid q1;
  r_time : q_now q2 < q_now q1 + effectiveChallengeTtlMs env;
  r_user : getUserByPublicKey (normalizeHex key) db = Ok user
}.

(** C40. The handshake of the app with the auth service.  Where the service lets
    the app in ([reaches]: its address is set, mobile access enabled, the token
    right, the challenge new and answered in time, and the key named 64 hex
    digits that at most one account has), a device that can sign gets the
    entitlements of the account of the key it names exactly when its signature
    verifies under that key, and else a failure; in particular it does with the
    key it shows as its own.  The two requests run without others in between and
    without a rate limit. *)
Theorem mobile_handshake authBase env q1 q2 key dev db user sig :
  (forall pk m s, ed25519_verify pk m s = verify s m pk) ->
  reaches authBase env q1 q2 key db user ->
  let challenge := AuthUtils.buildAuthMessage (to_hex (q_random q1)) in
  signMessage challenge dev = Ok sig ->
  (fetchMobileEntitlements authBase env q1 q2 key dev db).1
  = (if verify sig challenge (fromHex (normalizeHex key)) then Ok (entitledTo env user db)
     else Throw "Entitlements fetch failed")
  /\ forall l r, dev = vaultCalls l newDevice -> key = bytesToHex (getAppPublicKey r dev).1 ->
       (fetchMobileEntitlements authBase env q1 q2 key dev db).1 = Ok (entitledTo env user db).
Proof.
  intros Hlib [Hbase Hen Htok Hkey Hid Hnew Htime Huser] challenge Hsig.
  assert (Hch : AuthUtils.buildAuthMessage (to_hex (q_random q1)) = challenge) by done. clearbody challenge.
  assert (Hmain : (fetchMobileEntitlements authBase env q1 q2 key dev db).1
    = if verify sig challenge (fromHex (normalizeHex key)) then Ok (entitledTo env user db)
      else Throw "Entitlements fetch failed").
  { unfold fetchMobileEntitlements. rewrite bool_decide_eq_false_2 by done.
    unfold mobileChallenge, issueChallenge. rewrite Hen, Hkey. cbn -[call effectiveChallengeTtlMs Vault.buildAuthMessage mobileEntitlements].
    unfold call at 1. rewrite Htok. cbn -[createAuthChallenge call effectiveChallengeTtlMs Vault.buildAuthMessage mobileEntitlements].
    destruct (fresh_challenge_taken (q_uuid q1) (normalizeHex key) (to_hex (q_random q1))
      (q_now q1 + effectiveChallengeTtlMs env) db Hnew) as (db1 & -> & Htake). cbn [runAlone].
    rewrite message_agrees, Hch, Hsig.
    destruct (signature_hex challenge dev sig Hsig) as [Hnorm Hhex].
    unfold mobileEntitlements. rewrite Hen, Hnorm, Hhex, Hkey. unfold nonempty. rewrite bool_decide_eq_false_2 by done.
    cbn -[call bytesToHex verifySignature]. unfold call at 1. rewrite Htok. cbn -[consumeAuthChallenge call bytesToHex verifySignature].
    destruct (Htake (q_now q2) Htime) as (db2 & -> & Hus & Hent). cbn -[call bytesToHex verifySignature].
    unfold verifySignature. rewrite Hlib. unfold bytesToHex at 1. rewrite fromHex_to_hex, Hch.
    destruct (verify sig challenge _); [|done]. cbn -[call]. unfold call at 1. rewrite Htok. cbn -[getUserByPublicKey call].
    assert (Hu2 : getUserByPublicKey (normalizeHex key) db2 = Ok user) by (unfold getUserByPublicKey in *; by rewrite Hus).
    rewrite Hu2. cbn -[call]. destruct user as [[id u]|]; [|done]. cbn -[call]. unfold call. rewrite Htok. cbn.
    f_equal. unfold getEntitlementsByUser. by rewrite Hent. }
  split; [exact Hmain|]. intros l r Hdev ->. rewrite Hmain. subst dev.
  pose proof (shown_key_verifies l challenge sig r Hsig) as Hver.
  rewrite normalizeHex_hex by apply to_hex_lower. unfold bytesToHex. rewrite fromHex_to_hex. by rewrite Hver.
Qed.

End Handshake.

(** ** Witness

    A device gets the entitlements of its own key, and none with the key the
    gateway gives its session, which is the key the app names. *)

#[local] Instance toyLib : AuthLib := {|
  ed25519_verify pk m s := verify (Crypto := toyCrypto) s m pk;
  getAddress := Some; verifyMessage _ s := Some s; urlOrigin := Some
|}.

Definition handshakeEnv : Env :=
  {| serviceToken := Some "token"; configuredToken := Some "token"; challengeTtlMs := 300000;
     challengeTtlMaxMs := 900000; mobileEnabled := true; allowedOrigins := []; allowedChainIds := [];
     ENTITLEMENTS_MAX := 100; buckets := {| rateBucketMax := 100; rateBucketCleanupMs := 1000 |};
     challengeWindow := 60000; challengeMax := 30; profileWindow := 60000; profileMax := 60 |}.

Definition handshakeRequest (now : Z) (uuid : string) : Request (C := list_convex) :=
  {| route := GetProfile; q_origin := None; q_referer := None; q_ip := "ip"; q_session := None; q_now := now;
     q_uuid := uuid; q_random := replicate 32 Byte.x07 |}.

Definition handshakeDevice : Device := vaultCalls (C := toyCrypto) [PublicKey toyRandom] newDevice.
Definition ownKey : string := bytesToHex (getAppPublicKey (C := toyCrypto) toyRandom handshakeDevice).1.
Definition gatewayKey : string := to_hex (replicate 32 Byte.x2b).

Lemma mobile_handshake_witness :
  (fetchMobileEntitlements (V := list_convex) "https://auth" handshakeEnv (handshakeRequest 10 "c1") (handshakeRequest 20 "")
     ownKey handshakeDevice emptyDb).1 = Ok []
  /\ (fetchMobileEntitlements (V := list_convex) "https://auth" handshakeEnv (handshakeRequest 10 "c1") (handshakeRequest 20 "")
     gatewayKey handshakeDevice emptyDb).1 = Throw "Entitlements fetch failed".
Proof.
  split.
  - eapply (proj2 (mobile_handshake (V := list_convex) "https://auth" handshakeEnv (handshakeRequest 10 "c1")
      (handshakeRequest 20 "") ownKey handshakeDevice emptyDb None _ ltac:(done) ltac:(split; by vm_compute)
      ltac:(vm_compute; reflexivity)) [PublicKey toyRandom] toyRandom); reflexivity.
  - rewrite (proj1 (mobile_handshake (V := list_convex) "https://auth" handshakeEnv (handshakeRequest 10 "c1")
      (handshakeRequest 20 "") gatewayKey handshakeDevice emptyDb None _ ltac:(done) ltac:(split; by vm_compute)
      ltac:(vm_compute; reflexivity))).
    vm_compute. reflexivity.
Defined.
