(* ===== verification/WebGame.v ===== *)
(** * The game session of the website: state

    The state that [website/src/hooks/useTerminalGame.ts] hands to its hooks
    ([hooks/terminalGame/useTerminalGameState.ts]): what React shows, the refs,
    the timer of an awaited answer, the calls that wait for an answer and what
    was sent to the node.  [WebSession] has the handlers.

    The interface is the one of [WebState]; the slips of the table games, which
    it leaves out, are kept beside it.  An update of React's state takes effect at
    once; the refs that mirror it follow when the component renders.  Left out
    are super mode and its meter, the leaderboard, telemetry and the progressive
    jackpots.  [crapsPendingRollLogRef] is never set and has no field. *)

From S2P Require Import Prelude ChainCodec JsNum Bytes Constants Calendar WebBets Arith SicBo Roulette Craps GameState WebState TableSlips.

(** ** Games *)

(** [CHAIN_TO_FRONTEND_GAME_TYPE], on the codes of the chain. *)
Definition CHAIN_TO_FRONTEND_GAME_TYPE (code : Z) : option string :=
  if code =? 0 then Some "BACCARAT" else if code =? 1 then Some "BLACKJACK"
  else if code =? 2 then Some "CASINO_WAR" else if code =? 3 then Some "CRAPS"
  else if code =? 4 then Some "VIDEO_POKER" else if code =? 5 then Some "HILO"
  else if code =? 6 then Some "ROULETTE" else if code =? 7 then Some "SIC_BO"
  else if code =? 8 then Some "THREE_CARD" else if code =? 9 then Some "ULTIMATE_HOLDEM"
  else None.

Definition GAME_TYPE_MAP (type : string) : Z :=
  if bool_decide (type = "BACCARAT") then 0 else if bool_decide (type = "BLACKJACK") then 1
  else if bool_decide (type = "CASINO_WAR") then 2 else if bool_decide (type = "CRAPS") then 3
  else if bool_decide (type = "VIDEO_POKER") then 4 else if bool_decide (type = "HILO") then 5
  else if bool_decide (type = "ROULETTE") then 6 else if bool_decide (type = "SIC_BO") then 7
  else if bool_decide (type = "THREE_CARD") then 8 else if bool_decide (type = "ULTIMATE_HOLDEM") then 9
  else 1.

Definition TABLE_GAMES : list string := ["BACCARAT"; "CRAPS"; "ROULETTE"; "SIC_BO"].
Definition isTableGame (type : string) : bool := bool_decide (type ∈ TABLE_GAMES).

(** ** The state *)

(** The fields of a slip, without those it shares with the other games. *)
Record Bets (B : Type) := MkBets { b_bets : list B; b_undo : list (list B); b_last : list B; b_mode : string }.

Arguments MkBets {B}.
Arguments b_bets {B}.
Arguments b_undo {B}.
Arguments b_last {B}.
Arguments b_mode {B}.

Record Tables := {
  tb_roulette : Bets RouletteBet;
  tb_sicBo : Bets SicBoBet;
  tb_baccarat : Bets (BaccaratBetName * Z);
  tb_selection : BaccaratSelection;
  tb_crapsUndo : list (list UiCrapsBet)
}.

Record Meta := { g_sessionId : option Z; g_moveNumber : Z; g_lastResult : Z; g_shield : bool; g_double : bool }.

Record PlayerStats := {
  chips : Z; st_shields : Z; st_doubles : Z; history : list string; pnlByGame : gmap string Z; pnlHistory : list Z
}.

Record Wallet := { walletRng : option Z; walletVusdt : option Z; walletCredits : option Z; walletLocked : option Z }.

(** A table game to be played as soon as its session is there. *)
Inductive AutoPlayDraft :=
| DraftBaccarat (selection : BaccaratSelection) (sideBets : list (BaccaratBetName * Z)) (mainBet : Z)
| DraftCraps (bets : list UiCrapsBet)
| DraftRoulette (bets : list RouletteBet) (zeroRule : string)
| DraftSicBo (bets : list SicBoBet).

Definition draftType (d : AutoPlayDraft) : string :=
  match d with
  | DraftBaccarat _ _ _ => "BACCARAT"
  | DraftCraps _ => "CRAPS"
  | DraftRoulette _ _ => "ROULETTE"
  | DraftSicBo _ => "SIC_BO"
  end.

Record Refs := {
  currentSessionIdRef : option Z;
  currentSessionId : option Z;
  pendingMoveCountRef : Z;
  awaitingChainResponseRef : bool;
  gameTypeRef : string;
  sessionStartChipsRef : gmap Z Z;
  currentChipsRef : Z;
  lastBalanceUpdateRef : Z;
  lastPlayerSyncRef : Z;
  autoPlayDraftRef : option AutoPlayDraft;
  autoPlayPlanRef : option (AutoPlayDraft * Z);
  crapsChainRollLogRef : option (Z * Z);
  hasRegisteredRef : bool
}.

Record Timer := { tm_context : string; tm_session : option Z; tm_due : Z }.

(** A player as [getCasinoPlayer] answers it. *)
Record Player := { pl_balances : PlayerBalances; pl_credits : Z; pl_locked : Z }.

(** A session as [getCasinoSession] answers it. *)
Record ChainSession := {
  cs_gameType : Z; cs_bet : option Z; cs_moveCount : option Z; cs_state : Uint8Array; cs_isComplete : bool
}.

(** What a roll of craps still has to do: a move to send, the staged bets to be
    marked as placed, the staged odds to be taken off. *)
Inductive RollStep := SendPayload (payload : Uint8Array) | CommitBets | ClearOdds.

(** A function that waits for an answer, by the place where it waits. *)
Inductive Task :=
| StartProbe (type : string) (bet : Z)
| StartLookup (type : string) (bet : Z)
| StartRegister (type : string) (bet : Z)
| StartPoll (type : string) (bet : Z) (attempt : nat)
| StartSubmit (type : string) (bet session : Z)
| TimeoutQuery (context : string) (session : Z)
| PlayRule (d : AutoPlayDraft) (session : Z)
| PlayBatch (d : AutoPlayDraft)
| AutoMove (done : option string) (failed : string)
| PlayerSync
| DealQuery (type : string)
| SpinAnswer (inPrison : bool)
| RollAnswer (bets : list SicBoBet)
| RuleAnswer
| CrapsCheck (bets : list UiCrapsBet)
| CrapsRoll (rest : list RollStep)
| RestoreQuery (session : Z).

Inductive Answer :=
| Probed (view latest first : result bool)
| GotPlayer (p : option Player)
| GotSession (s : option ChainSession)
| Accepted
| Failed.

(** What the node was sent; [AskedActive] asks for the session that the player's
    record names as active. *)
Inductive Sending :=
| SentRegister
| AskedActive (session : Z)
| SentStart (game bet session : Z)
| SentMove (session : Z) (payload : Uint8Array).

(** [isOnChain], the chain service with its client, and the play mode. *)
Record Config := { cf_isOnChain : bool; cf_service : bool; cf_freeroll : bool }.

(** [statsSet]: whether the player's numbers were set since the last render. *)
Record Web := {
  ui : World; tables : Tables; meta : Meta; stats : PlayerStats; wallet : Wallet; refs : Refs;
  timer : option Timer; now : Z; nextSession : Z; tasks : list Task; out : list Sending; conf : Config;
  statsSet : bool
}.

(** ** Updates *)

Definition s_currentSessionIdRef x (r : Refs) : Refs :=
  {| currentSessionIdRef := x; currentSessionId := currentSessionId r;
     pendingMoveCountRef := pendingMoveCountRef r; awaitingChainResponseRef := awaitingChainResponseRef r;
     gameTypeRef := gameTypeRef r; sessionStartChipsRef := sessionStartChipsRef r;
     currentChipsRef := currentChipsRef r; lastBalanceUpdateRef := lastBalanceUpdateRef r;
     lastPlayerSyncRef := lastPlayerSyncRef r; autoPlayDraftRef := autoPlayDraftRef r;
     autoPlayPlanRef := autoPlayPlanRef r; crapsChainRollLogRef := crapsChainRollLogRef r;
     hasRegisteredRef := hasRegisteredRef r |}.
Definition s_currentSessionId x (r : Refs) : Refs :=
  {| currentSessionIdRef := currentSessionIdRef r; currentSessionId := x;
     pendingMoveCountRef := pendingMoveCountRef r; awaitingChainResponseRef := awaitingChainResponseRef r;
     gameTypeRef := gameTypeRef r; sessionStartChipsRef := sessionStartChipsRef r;
     currentChipsRef := currentChipsRef r; lastBalanceUpdateRef := lastBalanceUpdateRef r;
     lastPlayerSyncRef := lastPlayerSyncRef r; autoPlayDraftRef := autoPlayDraftRef r;
     autoPlayPlanRef := autoPlayPlanRef r; crapsChainRollLogRef := crapsChainRollLogRef r;
     hasRegisteredRef := hasRegisteredRef r |}.
Definition s_pendingMoveCountRef x (r : Refs) : Refs :=
  {| currentSessionIdRef := currentSessionIdRef r; currentSessionId := currentSessionId r;
     pendingMoveCountRef := x; awaitingChainResponseRef := awaitingChainResponseRef r;
     gameTypeRef := gameTypeRef r; sessionStartChipsRef := sessionStartChipsRef r;
     currentChipsRef := currentChipsRef r; lastBalanceUpdateRef := lastBalanceUpdateRef r;
     lastPlayerSyncRef := lastPlayerSyncRef r; autoPlayDraftRef := autoPlayDraftRef r;
     autoPlayPlanRef := autoPlayPlanRef r; crapsChainRollLogRef := crapsChainRollLogRef r;
     hasRegisteredRef := hasRegisteredRef r |}.
Definition s_awaitingChainResponseRef x (r : Refs) : Refs :=
  {| currentSessionIdRef := currentSessionIdRef r; currentSessionId := currentSessionId r;
     pendingMoveCountRef := pendingMoveCountRef r; awaitingChainResponseRef := x; gameTypeRef := gameTypeRef r;
     sessionStartChipsRef := sessionStartChipsRef r; currentChipsRef := currentChipsRef r;
     lastBalanceUpdateRef := lastBalanceUpdateRef r; lastPlayerSyncRef := lastPlayerSyncRef r;
     autoPlayDraftRef := autoPlayDraftRef r; autoPlayPlanRef := autoPlayPlanRef r;
     crapsChainRollLogRef := crapsChainRollLogRef r; hasRegisteredRef := hasRegisteredRef r |}.
Definition s_gameTypeRef x (r : Refs) : Refs :=
  {| currentSessionIdRef := currentSessionIdRef r; currentSessionId := currentSessionId r;
     pendingMoveCountRef := pendingMoveCountRef r; awaitingChainResponseRef := awaitingChainResponseRef r;
     gameTypeRef := x; sessionStartChipsRef := sessionStartChipsRef r; currentChipsRef := currentChipsRef r;
     lastBalanceUpdateRef := lastBalanceUpdateRef r; lastPlayerSyncRef := lastPlayerSyncRef r;
     autoPlayDraftRef := autoPlayDraftRef r; autoPlayPlanRef := autoPlayPlanRef r;
     crapsChainRollLogRef := crapsChainRollLogRef r; hasRegisteredRef := hasRegisteredRef r |}.
Definition s_sessionStartChipsRef x (r : Refs) : Refs :=
  {| currentSessionIdRef := currentSessionIdRef r; currentSessionId := currentSessionId r;
     pendingMoveCountRef := pendingMoveCountRef r; awaitingChainResponseRef := awaitingChainResponseRef r;
     gameTypeRef := gameTypeRef r; sessionStartChipsRef := x; currentChipsRef := currentChipsRef r;
     lastBalanceUpdateRef := lastBalanceUpdateRef r; lastPlayerSyncRef := lastPlayerSyncRef r;
     autoPlayDraftRef := autoPlayDraftRef r; autoPlayPlanRef := autoPlayPlanRef r;
     crapsChainRollLogRef := crapsChainRollLogRef r; hasRegisteredRef := hasRegisteredRef r |}.
Definition s_currentChipsRef x (r : Refs) : Refs :=
  {| currentSessionIdRef := currentSessionIdRef r; currentSessionId := currentSessionId r;
     pendingMoveCountRef := pendingMoveCountRef r; awaitingChainResponseRef := awaitingChainResponseRef r;
     gameTypeRef := gameTypeRef r; sessionStartChipsRef := sessionStartChipsRef r; currentChipsRef := x;
     lastBalanceUpdateRef := lastBalanceUpdateRef r; lastPlayerSyncRef := lastPlayerSyncRef r;
     autoPlayDraftRef := autoPlayDraftRef r; autoPlayPlanRef := autoPlayPlanRef r;
     crapsChainRollLogRef := crapsChainRollLogRef r; hasRegisteredRef := hasRegisteredRef r |}.
Definition s_lastBalanceUpdateRef x (r : Refs) : Refs :=
  {| currentSessionIdRef := currentSessionIdRef r; currentSessionId := currentSessionId r;
     pendingMoveCountRef := pendingMoveCountRef r; awaitingChainResponseRef := awaitingChainResponseRef r;
     gameTypeRef := gameTypeRef r; sessionStartChipsRef := sessionStartChipsRef r;
     currentChipsRef := currentChipsRef r; lastBalanceUpdateRef := x; lastPlayerSyncRef := lastPlayerSyncRef r;
     autoPlayDraftRef := autoPlayDraftRef r; autoPlayPlanRef := autoPlayPlanRef r;
     crapsChainRollLogRef := crapsChainRollLogRef r; hasRegisteredRef := hasRegisteredRef r |}.
Definition s_lastPlayerSyncRef x (r : Refs) : Refs :=
  {| currentSessionIdRef := currentSessionIdRef r; currentSessionId := currentSessionId r;
     pendingMoveCountRef := pendingMoveCountRef r; awaitingChainResponseRef := awaitingChainResponseRef r;
     gameTypeRef := gameTypeRef r; sessionStartChipsRef := sessionStartChipsRef r;
     currentChipsRef := currentChipsRef r; lastBalanceUpdateRef := lastBalanceUpdateRef r;
     lastPlayerSyncRef := x; autoPlayDraftRef := autoPlayDraftRef r; autoPlayPlanRef := autoPlayPlanRef r;
     crapsChainRollLogRef := crapsChainRollLogRef r; hasRegisteredRef := hasRegisteredRef r |}.
Definition s_autoPlayDraftRef x (r : Refs) : Refs :=
  {| currentSessionIdRef := currentSessionIdRef r; currentSessionId := currentSessionId r;
     pendingMoveCountRef := pendingMoveCountRef r; awaitingChainResponseRef := awaitingChainResponseRef r;
     gameTypeRef := gameTypeRef r; sessionStartChipsRef := sessionStartChipsRef r;
     currentChipsRef := currentChipsRef r; lastBalanceUpdateRef := lastBalanceUpdateRef r;
     lastPlayerSyncRef := lastPlayerSyncRef r; autoPlayDraftRef := x; autoPlayPlanRef := autoPlayPlanRef r;
     crapsChainRollLogRef := crapsChainRollLogRef r; hasRegisteredRef := hasRegisteredRef r |}.
Definition s_autoPlayPlanRef x (r : Refs) : Refs :=
  {| currentSessionIdRef := currentSessionIdRef r; currentSessionId := currentSessionId r;
     pendingMoveCountRef := pendingMoveCountRef r; awaitingChainResponseRef := awaitingChainResponseRef r;
     gameTypeRef := gameTypeRef r; sessionStartChipsRef := sessionStartChipsRef r;
     currentChipsRef := currentChipsRef r; lastBalanceUpdateRef := lastBalanceUpdateRef r;
     lastPlayerSyncRef := lastPlayerSyncRef r; autoPlayDraftRef := autoPlayDraftRef r; autoPlayPlanRef := x;
     crapsChainRollLogRef := crapsChainRollLogRef r; hasRegisteredRef := hasRegisteredRef r |}.
Definition s_crapsChainRollLogRef x (r : Refs) : Refs :=
  {| currentSessionIdRef := currentSessionIdRef r; currentSessionId := currentSessionId r;
     pendingMoveCountRef := pendingMoveCountRef r; awaitingChainResponseRef := awaitingChainResponseRef r;
     gameTypeRef := gameTypeRef r; sessionStartChipsRef := sessionStartChipsRef r;
     currentChipsRef := currentChipsRef r; lastBalanceUpdateRef := lastBalanceUpdateRef r;
     lastPlayerSyncRef := lastPlayerSyncRef r; autoPlayDraftRef := autoPlayDraftRef r;
     autoPlayPlanRef := autoPlayPlanRef r; crapsChainRollLogRef := x;
     hasRegisteredRef := hasRegisteredRef r |}.
Definition s_hasRegisteredRef x (r : Refs) : Refs :=
  {| currentSessionIdRef := currentSessionIdRef r; currentSessionId := currentSessionId r;
     pendingMoveCountRef := pendingMoveCountRef r; awaitingChainResponseRef := awaitingChainResponseRef r;
     gameTypeRef := gameTypeRef r; sessionStartChipsRef := sessionStartChipsRef r;
     currentChipsRef := currentChipsRef r; lastBalanceUpdateRef := lastBalanceUpdateRef r;
     lastPlayerSyncRef := lastPlayerSyncRef r; autoPlayDraftRef := autoPlayDraftRef r;
     autoPlayPlanRef := autoPlayPlanRef r; crapsChainRollLogRef := crapsChainRollLogRef r;
     hasRegisteredRef := x |}.

Definition put_ui x (w : Web) : Web :=
  {| ui := x; tables := tables w; meta := meta w; stats := stats w; wallet := wallet w; refs := refs w;
     timer := timer w; now := now w; nextSession := nextSession w; tasks := tasks w; out := out w;
     conf := conf w; statsSet := statsSet w |}.
Definition put_tables x (w : Web) : Web :=
  {| ui := ui w; tables := x; meta := meta w; stats := stats w; wallet := wallet w; refs := refs w;
     timer := timer w; now := now w; nextSession := nextSession w; tasks := tasks w; out := out w;
     conf := conf w; statsSet := statsSet w |}.
Definition put_meta x (w : Web) : Web :=
  {| ui := ui w; tables := tables w; meta := x; stats := stats w; wallet := wallet w; refs := refs w;
     timer := timer w; now := now w; nextSession := nextSession w; tasks := tasks w; out := out w;
     conf := conf w; statsSet := statsSet w |}.
Definition put_stats x (w : Web) : Web :=
  {| ui := ui w; tables := tables w; meta := meta w; stats := x; wallet := wallet w; refs := refs w;
     timer := timer w; now := now w; nextSession := nextSession w; tasks := tasks w; out := out w;
     conf := conf w; statsSet := true |}.
Definition put_wallet x (w : Web) : Web :=
  {| ui := ui w; tables := tables w; meta := meta w; stats := stats w; wallet := x; refs := refs w;
     timer := timer w; now := now w; nextSession := nextSession w; tasks := tasks w; out := out w;
     conf := conf w; statsSet := statsSet w |}.
Definition put_refs x (w : Web) : Web :=
  {| ui := ui w; tables := tables w; meta := meta w; stats := stats w; wallet := wallet w; refs := x;
     timer := timer w; now := now w; nextSession := nextSession w; tasks := tasks w; out := out w;
     conf := conf w; statsSet := statsSet w |}.
Definition put_timer x (w : Web) : Web :=
  {| ui := ui w; tables := tables w; meta := meta w; stats := stats w; wallet := wallet w; refs := refs w;
     timer := x; now := now w; nextSession := nextSession w; tasks := tasks w; out := out w; conf := conf w;
     statsSet := statsSet w |}.
Definition put_now x (w : Web) : Web :=
  {| ui := ui w; tables := tables w; meta := meta w; stats := stats w; wallet := wallet w; refs := refs w;
     timer := timer w; now := x; nextSession := nextSession w; tasks := tasks w; out := out w; conf := conf w;
     statsSet := statsSet w |}.
Definition put_nextSession x (w : Web) : Web :=
  {| ui := ui w; tables := tables w; meta := meta w; stats := stats w; wallet := wallet w; refs := refs w;
     timer := timer w; now := now w; nextSession := x; tasks := tasks w; out := out w; conf := conf w;
     statsSet := statsSet w |}.
Definition put_tasks x (w : Web) : Web :=
  {| ui := ui w; tables := tables w; meta := meta w; stats := stats w; wallet := wallet w; refs := refs w;
     timer := timer w; now := now w; nextSession := nextSession w; tasks := x; out := out w; conf := conf w;
     statsSet := statsSet w |}.
Definition put_out x (w : Web) : Web :=
  {| ui := ui w; tables := tables w; meta := meta w; stats := stats w; wallet := wallet w; refs := refs w;
     timer := timer w; now := now w; nextSession := nextSession w; tasks := tasks w; out := x; conf := conf w;
     statsSet := statsSet w |}.
Definition put_conf x (w : Web) : Web :=
  {| ui := ui w; tables := tables w; meta := meta w; stats := stats w; wallet := wallet w; refs := refs w;
     timer := timer w; now := now w; nextSession := nextSession w; tasks := tasks w; out := out w; conf := x;
     statsSet := statsSet w |}.
Definition put_statsSet x (w : Web) : Web :=
  {| ui := ui w; tables := tables w; meta := meta w; stats := stats w; wallet := wallet w; refs := refs w;
     timer := timer w; now := now w; nextSession := nextSession w; tasks := tasks w; out := out w;
     conf := conf w; statsSet := x |}.

Definition upd_refs (f : Refs -> Refs) (w : Web) : Web := put_refs (f (refs w)) w.
Definition upd_stats (f : PlayerStats -> PlayerStats) (w : Web) : Web := put_stats (f (stats w)) w.

(** [setGameState] on the part of the interface. *)
Definition upd_ui (f : UI -> UI) (w : Web) : Web := put_ui (put (w_ref (ui w)) (f (w_state (ui w))) (ui w)) w.

Definition set_isPending (b : bool) (w : Web) : Web :=
  put_ui {| w_ref := w_ref (ui w); w_state := w_state (ui w); w_isPending := b;
            w_uthBackendStage := w_uthBackendStage (ui w) |} w.

Definition set_uthBackendStage (n : Z) (w : Web) : Web :=
  put_ui {| w_ref := w_ref (ui w); w_state := w_state (ui w); w_isPending := w_isPending (ui w);
            w_uthBackendStage := n |} w.

(** [isPendingRef] with [pendingMoveCountRef]. *)
Definition set_pending (b : bool) (n : Z) (w : Web) : Web :=
  upd_refs (s_pendingMoveCountRef n) (set_isPending b w).

Definition isWaiting (w : Web) : bool := w_isPending (ui w).

(** [currentSessionIdRef] with the state React has of it. *)
Definition set_session (s : option Z) (w : Web) : Web :=
  upd_refs (fun r => s_currentSessionId s (s_currentSessionIdRef s r)) w.

(** The ref as a truth value. *)
Definition truthySession (w : Web) : option Z :=
  match currentSessionIdRef (refs w) with Some s => if s =? 0 then None else Some s | None => None end.

Definition await (t : Task) (w : Web) : Web := put_tasks (tasks w ++ [t]) w.
Definition emit (o : Sending) (w : Web) : Web := put_out (out w ++ [o]) w.

(** ** Views of the slips

    What the hooks of [TableSlips] read of the state, and where their result goes. *)

Definition slipOf {B} (b : Bets B) (w : Web) : Slip B :=
  let c := common (w_state (ui w)) in
  MkSlip (b_bets b) (b_undo b) (b_last b) (b_mode b) (u_bet c) (u_sessionWager c) (u_message c).

Definition betsOf {B} (s : Slip B) : Bets B := MkBets (s_bets s) (s_undoStack s) (s_lastRoundBets s) (s_inputMode s).

Definition shownSlip {B} (s : Slip B) (i : UI) : UI :=
  let c := common i in
  set_common {| u_type := u_type c; u_bet := s_bet s; u_playerCards := u_playerCards c;
                u_dealerCards := u_dealerCards c; u_dice := u_dice c; u_stage := u_stage c; u_message := s_message s;
                u_sessionWager := s_sessionWager s; u_sessionInterimPayout := u_sessionInterimPayout c |} i.

Definition rouletteView (w : Web) : RouletteUI :=
  {| ui_slip := slipOf (tb_roulette (tables w)) w; ui_isPrison := t_isPrison (roulette (w_state (ui w)));
     ui_zeroRule := t_zeroRule (roulette (w_state (ui w))) |}.

Definition set_tbRoulette (b : Bets RouletteBet) (t : Tables) : Tables :=
  {| tb_roulette := b; tb_sicBo := tb_sicBo t; tb_baccarat := tb_baccarat t; tb_selection := tb_selection t;
     tb_crapsUndo := tb_crapsUndo t |}.
Definition set_tbSicBo (b : Bets SicBoBet) (t : Tables) : Tables :=
  {| tb_roulette := tb_roulette t; tb_sicBo := b; tb_baccarat := tb_baccarat t; tb_selection := tb_selection t;
     tb_crapsUndo := tb_crapsUndo t |}.
Definition set_tbBaccarat (b : Bets (BaccaratBetName * Z)) (t : Tables) : Tables :=
  {| tb_roulette := tb_roulette t; tb_sicBo := tb_sicBo t; tb_baccarat := b; tb_selection := tb_selection t;
     tb_crapsUndo := tb_crapsUndo t |}.
Definition set_tbCrapsUndo (u : list (list UiCrapsBet)) (t : Tables) : Tables :=
  {| tb_roulette := tb_roulette t; tb_sicBo := tb_sicBo t; tb_baccarat := tb_baccarat t; tb_selection := tb_selection t;
     tb_crapsUndo := u |}.

Definition upd_tables (f : Tables -> Tables) (w : Web) : Web := put_tables (f (tables w)) w.

Definition put_roulette (s : Slip RouletteBet) (w : Web) : Web :=
  upd_ui (shownSlip s) (upd_tables (set_tbRoulette (betsOf s)) w).
Definition put_sicBo (s : Slip SicBoBet) (w : Web) : Web :=
  upd_ui (shownSlip s) (upd_tables (set_tbSicBo (betsOf s)) w).

Definition envOf (w : Web) : Env :=
  {| isPending := isWaiting w; isOnChain := cf_isOnChain (conf w); hasService := cf_service (conf w);
     currentSession := currentSessionIdRef (refs w); pendingMoveCount := pendingMoveCountRef (refs w) |}.

Definition put_env (e : Env) (w : Web) : Web := set_pending (isPending e) (pendingMoveCount e) w.
