(* ===== verification/WebSession.v ===== *)
(** * The game session of the website: handlers

    Starting a game ([hooks/terminalGame/actions/useStartGame.ts]), the events of
    the chain ([chainEvents/*.ts], [useChainEvents.ts]), the timer of an awaited
    answer ([useChainTimeouts.ts]), the table games that are played by themselves
    ([autoPlay.ts]), what the interface says of a finished game
    ([generateGameResult.ts]) and the deal button ([actions/useDeal.ts]).

    An asynchronous function is cut where it waits: the part up to its first
    [await] is a definition, and what it waits for is put on the list of tasks;
    [resume] runs the part after the answer.  [step] picks what happens next.

    [toLocaleString] is a parameter.  Amounts are whole numbers.  The text of the
    logs of a finished game is read by [parseGameLogs], which is not modelled: an
    event comes with what was read of it. *)

From stdpp Require Import pretty.
From S2P Require Import Prelude ChainCodec JsNum Bytes Constants Calendar WebBets Arith SicBo Roulette Craps GameState WebState TableSlips CardTables WebGame.
From S2P Require CrapsSlip.

#[local] Open Scope Z_scope.

Definition BALANCE_UPDATE_COOLDOWN_MS : Z := 2000.
Definition CHAIN_RESPONSE_TIMEOUT_MS : Z := 15000.
Definition PLAYER_SYNC_MIN_INTERVAL_MS : Z := 2000.

(** ** Common updates *)

Definition say (m : string) : Web -> Web := upd_ui (tell m).

(** The message is stored in the ref as well. *)
Definition say_both (m : string) (w : Web) : Web := put_ui (put_both (tell m (w_state (ui w))) (ui w)) w.

Definition set_stage (stage : string) (s : UI) : UI :=
  let c := common s in
  set_common {| u_type := u_type c; u_bet := u_bet c; u_playerCards := u_playerCards c;
                u_dealerCards := u_dealerCards c; u_dice := u_dice c; u_stage := stage; u_message := u_message c;
                u_sessionWager := u_sessionWager c; u_sessionInterimPayout := u_sessionInterimPayout c |} s.

Definition at_stage (stage m : string) : Web -> Web := upd_ui (fun s => tell m (set_stage stage s)).

(** The stack that the play mode shows. *)
Definition showTournamentStack (w : Web) (b : PlayerBalances) : bool :=
  cf_freeroll (conf w) && bool_decide (pb_activeTournament b <> None).

Definition shownChips (w : Web) (b : PlayerBalances) : Z :=
  if showTournamentStack w b then pb_tournamentChips b else pb_chips b.
Definition shownShields (w : Web) (b : PlayerBalances) : Z :=
  if showTournamentStack w b then pb_tournamentShields b else pb_shields b.
Definition shownDoubles (w : Web) (b : PlayerBalances) : Z :=
  if showTournamentStack w b then pb_tournamentDoubles b else pb_doubles b.

Definition set_counts (c s d : Z) (st : PlayerStats) : PlayerStats :=
  {| chips := c; st_shields := s; st_doubles := d; history := history st; pnlByGame := pnlByGame st;
     pnlHistory := pnlHistory st |}.

Definition set_wallet (rng vusdt : Z) (w : Web) : Web :=
  put_wallet {| walletRng := Some rng; walletVusdt := Some vusdt; walletCredits := walletCredits (wallet w);
                walletLocked := walletLocked (wallet w) |} w.

Definition set_credits (credits locked : Z) (w : Web) : Web :=
  put_wallet {| walletRng := walletRng (wallet w); walletVusdt := walletVusdt (wallet w);
                walletCredits := Some credits; walletLocked := Some locked |} w.

(** Balances that came with an event or an answer. *)
Definition applyBalances (b : PlayerBalances) (w : Web) : Web :=
  let w' := set_wallet (pb_chips b) (pb_vusdtBalance b)
    (upd_stats (set_counts (shownChips w b) (shownShields w b) (shownDoubles w b)) w) in
  upd_refs (fun r => s_lastBalanceUpdateRef (now w) (s_currentChipsRef (shownChips w b) r)) w'.

(** [parseGameState]; a roll log that was waiting is used up by the state of craps. *)
Definition parseGameState (blob : Uint8Array) (type : string) (w : Web) : Web :=
  let fallbackState := default (w_state (ui w)) (w_ref (ui w)) in
  let w' := put_ui (applyGameStateFromBlob fallbackState (crapsChainRollLogRef (refs w)) type blob (ui w)) w in
  if bool_decide (type = "CRAPS") && bool_decide (is_Some (parseCrapsState blob))
  then upd_refs (s_crapsChainRollLogRef None) w' else w'.

Definition applySessionMeta (session : option Z) (moveNumber : option Z) (w : Web) : Web :=
  let m := meta w in
  let w := put_meta {| g_sessionId := session; g_moveNumber := default (g_moveNumber m) moveNumber;
                       g_lastResult := g_lastResult m; g_shield := g_shield m; g_double := g_double m |} w in
  put_ui (put (Some (w_state (ui w))) (w_state (ui w)) (ui w)) w.

(** ** The timer *)

Definition clearChainResponseTimeout (w : Web) : Web := put_timer None (upd_refs (s_awaitingChainResponseRef false) w).

Definition armChainResponseTimeout (context : string) (expected : option Z) (w : Web) : Web :=
  put_timer (Some {| tm_context := context; tm_session := expected; tm_due := now w + CHAIN_RESPONSE_TIMEOUT_MS |})
    (upd_refs (s_awaitingChainResponseRef true) w).

Definition noResponse (context : string) (w : Web) : Web :=
  at_stage "BETTING" ("NO CHAIN RESPONSE (" +:+ context +:+ ") — START validators")
    (set_session None (upd_refs (s_crapsChainRollLogRef None)
      (set_isPending false (upd_refs (s_awaitingChainResponseRef false) w)))).

(** [view]: whether there is a current view; [latest]: whether the latest seed was
    found; [first]: whether there is a view once the first seed came or the wait
    for it was given up.  A question that throws counts as a no. *)
Definition ensureChainResponsive (client : bool) (view latest first : result bool) : bool :=
  client && (catch view false || catch latest false || catch first false).

(** ** Playing a table game by itself *)

Definition sendMove (session : Z) (payload : Uint8Array) (t : Task) (w : Web) : Web :=
  await t (emit (SentMove session payload) w).

Definition crapsWeb (b : UiCrapsBet) : WebBets.CrapsBet :=
  {| WebBets.wc_type := Craps.wc_type (ub_bet b); WebBets.wc_target := Craps.wc_target (ub_bet b);
     WebBets.wc_amount := Finite (QArith_base.inject_Z (Craps.wc_amount (ub_bet b))) |}.

Definition baccaratBetsOf (selection : BaccaratSelection) (side : list (BaccaratBetName * Z)) (main : Z) :
    list (Z * Number) :=
  getBaccaratBetsToPlace selection
    ((fun p : BaccaratBetName * Z => {| wb_type := p.1; wb_amount := Finite (QArith_base.inject_Z p.2) |}) <$> side)
    (Finite (QArith_base.inject_Z main)).

Definition crapsTotal (bets : list UiCrapsBet) : Z := foldl (fun s b => s + Craps.wc_amount (ub_bet b)) 0 bets.

Definition playWager (d : AutoPlayDraft) : Z :=
  match d with
  | DraftBaccarat sel side main => foldl (fun s b => s + amountValue b.2) 0 (baccaratBetsOf sel side main)
  | DraftCraps bets => crapsTotal bets
  | DraftRoulette bets _ => totalAmount bets
  | DraftSicBo bets => totalAmount bets
  end.

Definition playPayload (d : AutoPlayDraft) : result Uint8Array :=
  match d with
  | DraftBaccarat sel side main => serializeBaccaratAtomicBatch (baccaratBetsOf sel side main)
  | DraftCraps bets => serializeCrapsAtomicBatch (crapsWeb <$> bets)
  | DraftRoulette bets _ => encodeBets bets
  | DraftSicBo bets => encodeBets bets
  end.

Definition playFailed (w : Web) : Web := say "AUTO PLAY FAILED" (set_pending false 0 w).

Definition sendBatch (d : AutoPlayDraft) (session : Z) (w : Web) : Web :=
  match playPayload d with
  | Ok payload => sendMove session payload (PlayBatch d) w
  | Throw _ => playFailed w
  end.

Definition wagered (total : Z) (m : string) : Web -> Web := upd_ui (fun s => tell m (set_wager total s)).

(** The asynchronous part up to its first wait. *)
Definition play (d : AutoPlayDraft) (session : Z) (w : Web) : Web :=
  let count n := upd_refs (s_pendingMoveCountRef n) in
  match d with
  | DraftBaccarat _ side _ =>
      let t := tb_baccarat (tables w) in
      sendBatch d session (wagered (playWager d) "DEALING..."
        (upd_tables (set_tbBaccarat (MkBets (b_bets t) [] side (b_mode t))) (count 1 w)))
  | DraftRoulette _ rule =>
      let w := wagered (playWager d) "PLACING BETS..." w in
      if ruleByte rule =? 0 then sendBatch d session (say "SPINNING ON CHAIN..." (count 1 w))
      else sendMove session (u8array [3; ruleByte rule]) (PlayRule d session) (count 2 w)
  | DraftSicBo _ | DraftCraps _ => sendBatch d session (wagered (playWager d) "ROLLING..." (count 1 w))
  end.

(** The batch was taken. *)
Definition played (d : AutoPlayDraft) (w : Web) : Web :=
  match d with
  | DraftBaccarat _ _ _ => w
  | DraftRoulette bets _ =>
      upd_tables (fun t => set_tbRoulette (MkBets [] [] bets (b_mode (tb_roulette t))) t) w
  | DraftSicBo bets => upd_tables (fun t => set_tbSicBo (MkBets [] [] bets (b_mode (tb_sicBo t))) t) w
  | DraftCraps bets =>
      upd_tables (set_tbCrapsUndo []) (upd_ui (fun s => set_craps
        {| t_point := t_point (craps s); t_epochPointEstablished := t_epochPointEstablished (craps s);
           t_madePointsMask := t_madePointsMask (craps s); t_bets := []; t_rollHistory := t_rollHistory (craps s);
           t_lastRoundBets := bets |} s) w)
  end.

(** [runAutoPlayPlanForSession] *)
Definition runAutoPlay (session : Z) (type : string) (w : Web) : Web :=
  match autoPlayPlanRef (refs w) with
  | Some (d, s) =>
      if negb (s =? session) then w
      else
        let w := upd_refs (s_autoPlayPlanRef None) w in
        if negb (bool_decide (draftType d = type)) then w
        else if negb (cf_service (conf w)) then w
        else if isWaiting w then w
        else match truthySession w with
             | None => w
             | Some _ => play d session (set_isPending true w)
             end
  | None => w
  end.

(** ** Starting a game *)

Definition clearedCommon (type : string) (c : Common) : Common :=
  {| u_type := type; u_bet := u_bet c; u_playerCards := []; u_dealerCards := []; u_dice := [];
     u_stage := "BETTING"; u_message := "STARTING GAME...";
     u_sessionWager := if isTableGame type && bool_decide (u_type c = type) then u_sessionWager c else 0;
     u_sessionInterimPayout := 0 |}.

Definition keepIf {A} (b : bool) (x none : A) : A := if b then x else none.

(** The interface of a new game: what belongs to another game goes. *)
Definition clearedUI (type : string) (s : UI) : UI :=
  let on g := bool_decide (type = g) in
  let bj := blackjack s in let h := hilo s in let r := roulette s in let cw := casinoWar s in
  let tc := threeCard s in let u := uth s in let cr := craps s in
  {| common := clearedCommon type (common s);
     blackjack := {| blackjackStack := []; completedHands := [];
       blackjack21Plus3Bet := keepIf (on "BLACKJACK") (blackjack21Plus3Bet bj) 0;
       blackjackLuckyLadiesBet := keepIf (on "BLACKJACK") (blackjackLuckyLadiesBet bj) 0;
       blackjackPerfectPairsBet := keepIf (on "BLACKJACK") (blackjackPerfectPairsBet bj) 0;
       blackjackBustItBet := keepIf (on "BLACKJACK") (blackjackBustItBet bj) 0;
       blackjackRoyalMatchBet := keepIf (on "BLACKJACK") (blackjackRoyalMatchBet bj) 0;
       blackjackPlayerValue := blackjackPlayerValue bj; blackjackDealerValue := blackjackDealerValue bj;
       blackjackActions := blackjackActions bj |};
     hilo := {| hiloAccumulator := 0; hiloGraphData := []; hiloRules := hiloRules h;
                hiloNextMultipliers := hiloNextMultipliers h |};
     roulette := {| t_zeroRule := t_zeroRule r; t_isPrison := false; t_history := t_history r |};
     sicBoHistory := sicBoHistory s;
     casinoWar := {| casinoWarTieBet := keepIf (on "CASINO_WAR") (casinoWarTieBet cw) 0;
                     casinoWarOutcome := casinoWarOutcome cw |};
     baccarat := baccarat s;
     threeCard := {| threeCardPairPlusBet := keepIf (on "THREE_CARD") (threeCardPairPlusBet tc) 0;
       threeCardSixCardBonusBet := keepIf (on "THREE_CARD") (threeCardSixCardBonusBet tc) 0;
       threeCardProgressiveBet := keepIf (on "THREE_CARD") (threeCardProgressiveBet tc) 0;
       threeCardPlayerRank := threeCardPlayerRank tc; threeCardDealerRank := threeCardDealerRank tc;
       threeCardDealerQualifies := threeCardDealerQualifies tc |};
     uth := {| u_communityCards := []; uthTripsBet := keepIf (on "ULTIMATE_HOLDEM") (uthTripsBet u) 0;
       uthSixCardBonusBet := keepIf (on "ULTIMATE_HOLDEM") (uthSixCardBonusBet u) 0;
       uthProgressiveBet := keepIf (on "ULTIMATE_HOLDEM") (uthProgressiveBet u) 0; uthBonusCards := [] |};
     videoPoker := videoPoker s;
     craps := {| t_point := None; t_epochPointEstablished := false;
       t_madePointsMask := keepIf (on "CRAPS") (t_madePointsMask cr) 0;
       t_bets := keepIf (on "CRAPS") (t_bets cr) []; t_rollHistory := keepIf (on "CRAPS") (t_rollHistory cr) [];
       t_lastRoundBets := t_lastRoundBets cr |} |}.

Definition clearedBets {B} (keep : bool) (mode : string) (b : Bets B) : Bets B :=
  MkBets (keepIf keep (b_bets b) []) (keepIf keep (b_undo b) []) (b_last b) mode.

Definition clearedTables (type : string) (t : Tables) : Tables :=
  let on g := bool_decide (type = g) in
  {| tb_roulette := clearedBets (on "ROULETTE") "NONE" (tb_roulette t);
     tb_sicBo := clearedBets (on "SIC_BO") "NONE" (tb_sicBo t);
     tb_baccarat := clearedBets (on "BACCARAT") (b_mode (tb_baccarat t)) (tb_baccarat t);
     tb_selection := tb_selection t; tb_crapsUndo := keepIf (on "CRAPS") (tb_crapsUndo t) [] |}.

Definition clearedMeta : Meta :=
  {| g_sessionId := None; g_moveNumber := 0; g_lastResult := 0; g_shield := false; g_double := false |}.

(** The parts of [startGame]: up to the first wait, ... *)
Definition startGame (type : string) (w : Web) : Web :=
  let bet := u_bet (common (w_state (ui w))) in
  let w := upd_refs (fun r => s_crapsChainRollLogRef None (s_autoPlayPlanRef None r)) (set_pending false 0 w) in
  let w := if bool_decide (type = "ULTIMATE_HOLDEM") then set_uthBackendStage 0 w else w in
  let w := match autoPlayDraftRef (refs w) with
           | Some d => if bool_decide (draftType d = type) then w else upd_refs (s_autoPlayDraftRef None) w
           | None => w
           end in
  let w := put_meta clearedMeta (upd_tables (clearedTables type) (upd_ui (clearedUI type) w)) in
  if cf_isOnChain (conf w) && cf_service (conf w) then await (StartProbe type bet) w
  else at_stage "BETTING" "PLACE BETS & DEAL" w.

(** ... a player found on the chain, ... *)
Definition foundPlayer (p : Player) (w : Web) : Web :=
  let b := pl_balances p in
  let shouldUpdateBalance := BALANCE_UPDATE_COOLDOWN_MS <? now w - lastBalanceUpdateRef (refs w) in
  upd_stats (fun st => set_counts (if shouldUpdateBalance then pb_chips b else chips st)
                         (pb_shields b) (pb_doubles b) st) w.

(** ... the session, with its number known before anyone answers, ... *)
Definition launch (type : string) (bet : Z) (w : Web) : Web :=
  let session := nextSession w in
  let w := put_nextSession (session + 1) w in
  let w := set_session (Some session) (upd_refs (s_gameTypeRef type) w) in
  let w := upd_refs (fun r => s_sessionStartChipsRef (<[session := currentChipsRef r]> (sessionStartChipsRef r)) r) w in
  let w := match autoPlayDraftRef (refs w) with
           | Some d =>
               if bool_decide (draftType d = type)
               then upd_refs (fun r => s_autoPlayDraftRef None (s_autoPlayPlanRef (Some (d, session)) r)) w else w
           | None => w
           end in
  let initialBetAmount := if isTableGame type then 0 else bet in
  await (StartSubmit type bet session) (emit (SentStart (GAME_TYPE_MAP type) initialBetAmount session) w).

Definition startAccepted (type : string) (bet session : Z) (w : Web) : Web :=
  let initialBetAmount := if isTableGame type then 0 else bet in
  let w := upd_ui (fun s => tell "WAITING FOR CHAIN..."
    (set_wager (if isTableGame type then u_sessionWager (common s)
                else if bool_decide (type = "ULTIMATE_HOLDEM") then initialBetAmount * 2
                else initialBetAmount) s)) w in
  armChainResponseTimeout "START GAME" (Some session) w.

(** ... and the [catch]. *)
Definition startFailed (w : Web) : Web :=
  let w := clearChainResponseTimeout w in
  let w := match truthySession w with
           | Some s => upd_refs (fun r => s_sessionStartChipsRef (base.delete s (sessionStartChipsRef r)) r) w
           | None => w
           end in
  let w := set_session None (upd_refs (fun r => s_gameTypeRef "NONE" (s_autoPlayPlanRef None (s_autoPlayDraftRef None r))) w) in
  at_stage "BETTING" "TRANSACTION FAILED - TRY AGAIN" w.

Definition registered (b : bool) : Web -> Web := upd_refs (s_hasRegisteredRef b).

(** ** The chain's events *)

Definition isCurrent (session : Z) (w : Web) : bool := bool_decide (truthySession w = Some session).

(** A move that a handler sends by itself, when no other is pending. *)
Definition autoMove (payload : Uint8Array) (accepted : option string) (failed : string) (w : Web) : Web :=
  match truthySession w with
  | Some s => if isWaiting w then w else sendMove s payload (AutoMove accepted failed) (set_isPending true w)
  | None => w
  end.

Definition startedMessage (type : string) : string :=
  if bool_decide (type = "CRAPS") then "PLACE BETS & ROLL"
  else if bool_decide (type = "ROULETTE") then "PLACE BETS & SPIN"
  else if bool_decide (type = "SIC_BO") then "PLACE BETS & ROLL" else "GAME STARTED".

Definition handleGameStarted (e : CasinoGameStartedEvent) (w : Web) : Web :=
  let session := se_sessionId e in
  if negb (isCurrent session w) then w
  else
    let type := default "undefined" (CHAIN_TO_FRONTEND_GAME_TYPE (se_gameType e)) in
    let w := applySessionMeta (Some session) (Some 0) (set_pending false 0 (clearChainResponseTimeout w)) in
    let w := upd_refs (s_gameTypeRef type) w in
    let w :=
      if 0 <? len (se_initialState e) then
        let w := parseGameState (se_initialState e) type w in
        if bool_decide (type = "CASINO_WAR") && cf_service (conf w)
           && bool_decide (se_initialState e !! 2%nat = Some Byte.x00)
        then autoMove (u8array [0]) (Some "COMPARING...") "CONFIRM FAILED" w else w
      else
        let w := at_stage "PLAYING" (startedMessage type) w in
        if bool_decide (type = "BLACKJACK") && cf_service (conf w)
        then autoMove (u8array [0]) (Some "DEALING...") "DEAL FAILED (SPACE)" w else w in
    runAutoPlay session type w.

(** Without balances in the event they are asked for, at most every two seconds. *)
Definition syncPlayer (w : Web) : Web :=
  if negb (cf_service (conf w)) then w
  else if now w - lastPlayerSyncRef (refs w) <? PLAYER_SYNC_MIN_INTERVAL_MS then w
  else await PlayerSync (upd_refs (s_lastPlayerSyncRef (now w)) w).

Definition countMove (w : Web) : Web :=
  let n := pendingMoveCountRef (refs w) in
  if 0 <? n then set_pending (negb (Z.max 0 (n - 1) =? 0)) (Z.max 0 (n - 1)) w else set_isPending false w.

Definition awaitsReveal (type : string) (blob : Uint8Array) : bool :=
  bool_decide (type = "BLACKJACK") && (2 <=? len blob)
  && bool_decide (blob !! 0%nat = Some Byte.x02) && bool_decide (blob !! 1%nat = Some Byte.x02).

(** [roll]: the dice that [parseCrapsChainRollLog] reads of the event's logs. *)
Definition handleGameMoved (e : CasinoGameMovedEvent) (roll : option (Z * Z)) (w : Web) : Web :=
  let session := me_sessionId e in
  if negb (isCurrent session w) then w
  else
    let w := applySessionMeta (Some session) (Some (me_moveNumber e)) w in
    let type := gameTypeRef (refs w) in
    let w := if bool_decide (type = "CRAPS")
             then upd_refs (s_crapsChainRollLogRef (if 0 <? len (me_logs e) then roll else None)) w else w in
    let w := parseGameState (me_newState e) type w in
    let w := match me_playerBalances e with
             | Some b => applyBalances b w
             | None => syncPlayer w
             end in
    let w := countMove w in
    if awaitsReveal type (me_newState e) && negb (isWaiting w) && bool_decide (is_Some (truthySession w))
    then autoMove (u8array [6]) None "REVEAL FAILED (SPACE)" (say_both "REVEALING..." w) else w.

(** *** The end of a game *)

(** What was read of the logs of a finished game. *)
Record ParsedLogs := {
  pg_summary : string; pg_details : list string;
  pg_rouletteResult : option Z;
  pg_dealerCards : list Z; pg_playerCards : list Z; pg_dealerValue : option Z; pg_playerValue : option Z
}.

(** [s.replace(/\.$/, '')] *)
Definition dropDot (s : string) : string :=
  if String.prefix "." (String.substring (String.length s - 1) 1 s) then String.substring 0 (String.length s - 1) s else s.

Definition formatSummaryLine (label : string) : string := dropDot (trim label) +:+ ".".

Definition buildHistoryEntry (summary : string) (details : list string) : string :=
  String.concat (String (Ascii.ascii_of_nat 10) "") (summary :: ((fun d => "  " +:+ d) <$> details)).

Definition isPlaceholder (summary : string) : bool :=
  let normalized := to_upper (trim (dropDot summary)) in
  bool_decide (summary = "") || bool_decide (normalized = "OUTCOME PENDING") || bool_decide (normalized = "ROUND COMPLETE").

Definition formatCardLabel (card : option Card) : string :=
  match card with
  | Some c => default "undefined" (c_rank c) +:+ default "undefined" (c_suit c)
  | None => "?"
  end.

Definition orQuestion (n : option Z) : string := match n with Some z => pretty z | None => "?" end.

Definition cardLine (n : nat) (cards : list Card) : string :=
  let line := String.concat " " (formatCardLabel ∘ Some <$> take n cards) in
  if bool_decide (line = "") then "?" else line.

Definition colorName (c : RouletteColor) : string :=
  match c with RED => "RED" | BLACK => "BLACK" | GREEN => "GREEN" end.

(** The label a game gives its outcome, if it has something to show. *)
Definition outcomeLabel (type : string) (s : UI) : option string :=
  let c := common s in
  let dealt := negb (bool_decide (u_playerCards c = [])) || negb (bool_decide (u_dealerCards c = [])) in
  if bool_decide (type = "CRAPS") then
    match u_dice c with
    | d1 :: d2 :: _ =>
        if (0 <? d1) && (0 <? d2)
        then Some ("Roll: " +:+ pretty (d1 + d2) +:+ " (" +:+ pretty d1 +:+ "-" +:+ pretty d2 +:+ ")") else None
    | _ => None
    end
  else if bool_decide (type = "SIC_BO") then
    if 3 <=? len (u_dice c)
    then Some ("Roll: " +:+ pretty (foldl Z.add 0 (u_dice c)) +:+ " ("
               +:+ String.concat "-" (pretty <$> take 3 (u_dice c)) +:+ ")") else None
  else if bool_decide (type = "ROULETTE") then
    n ← last (t_history (roulette s));
    Some ("Roll: " +:+ formatRouletteNumber n +:+ " " +:+ colorName (getRouletteColor n))
  else if bool_decide (type = "BACCARAT") then
    if dealt then Some ("P: " +:+ orQuestion (baccaratPlayerTotal (baccarat s)) +:+ ", B: "
                        +:+ orQuestion (baccaratBankerTotal (baccarat s))) else None
  else if bool_decide (type = "BLACKJACK") then
    if dealt then Some ("P: " +:+ orQuestion (blackjackPlayerValue (blackjack s)) +:+ ", D: "
                        +:+ orQuestion (blackjackDealerValue (blackjack s))) else None
  else if bool_decide (type = "CASINO_WAR") then
    if dealt then Some ("P: " +:+ formatCardLabel (head (u_playerCards c)) +:+ ", D: "
                        +:+ formatCardLabel (head (u_dealerCards c))) else None
  else if bool_decide (type = "VIDEO_POKER") then
    if bool_decide (u_playerCards c = []) then None
    else Some ("Hand: " +:+ default "?" (videoPokerHand (videoPoker s)))
  else if bool_decide (type = "HILO") then
    if bool_decide (u_playerCards c = []) then None
    else Some ("Card: " +:+ formatCardLabel (last (u_playerCards c)))
  else if bool_decide (type = "THREE_CARD") then
    if dealt then Some ("P: " +:+ cardLine 3 (u_playerCards c) +:+ ", D: " +:+ cardLine 3 (u_dealerCards c)) else None
  else if bool_decide (type = "ULTIMATE_HOLDEM") then
    if dealt then Some ("P: " +:+ cardLine 2 (u_playerCards c) +:+ ", D: " +:+ cardLine 2 (u_dealerCards c)) else None
  else None.

Definition blockedMessages : list string :=
  ["WAITING FOR CHAIN"; "WAITING FOR CHAIN..."; "PLACE BETS"; "PLACE BETS & DEAL"; "PLACE BETS - SPACE TO ROLL";
   "BET SIZE"; "ROLLING"; "SPINNING"; "DEALING"; "TRANSACTION"; "INSUFFICIENT FUNDS"; "BET LOCKED";
   "AUTO PLAY FAILED"; "PLAYING"; "BETTING"; "ROUND COMPLETE"; "OUTCOME PENDING"].

Definition generateGameResult (type : string) (state : option UI) : string :=
  let label := default "OUTCOME PENDING" (state ≫= outcomeLabel type) in
  let msg := trim (match state with Some s => u_message (common s) | None => "" end) in
  formatSummaryLine
    (if bool_decide (label = "OUTCOME PENDING") && negb (bool_decide (msg = ""))
        && negb (existsb (fun entry => String.prefix entry (to_upper msg)) blockedMessages)
     then msg else label).

(** What a game won or lost: the change of the chips since it started, where that
    is known and not nothing. *)
Definition netFromPayout (payout interim wager : Z) : Z :=
  if 0 <=? payout then payout + interim - wager else payout + interim.

Definition netPnL (payout interim wager next : Z) (start : option Z) : Z :=
  let fromPayout := netFromPayout payout interim wager in
  let n := match start with Some c => next - c | None => fromPayout end in
  if (n =? 0) && negb (fromPayout =? 0) then fromPayout else n.

Definition revealed (cards : list Z) : option (list Card) :=
  match cards with [] => None | _ => Some (with_hidden false ∘ decodeCard <$> cards) end.

Definition pushRoulette (result : option Z) (h : list Z) : list Z :=
  match result with
  | Some n => if bool_decide (last h = Some n) then h else push_graph h n
  | None => h
  end.

(** The interface at the end of a game. *)
Definition completedUI (type message : string) (parsed : option ParsedLogs) (s : UI) : UI :=
  let c := common s in let bj := blackjack s in let r := roulette s in
  let reveal := if bool_decide (type = "BLACKJACK") then parsed else None in
  let spin := if bool_decide (type = "ROULETTE") then parsed ≫= pg_rouletteResult else None in
  let orElse {A} (x y : option A) := match x with Some _ => x | None => y end in
  set_roulette {| t_zeroRule := t_zeroRule r; t_isPrison := false; t_history := pushRoulette spin (t_history r) |}
    (set_blackjack
      {| blackjackStack := blackjackStack bj; completedHands := completedHands bj;
         blackjack21Plus3Bet := blackjack21Plus3Bet bj; blackjackLuckyLadiesBet := blackjackLuckyLadiesBet bj;
         blackjackPerfectPairsBet := blackjackPerfectPairsBet bj; blackjackBustItBet := blackjackBustItBet bj;
         blackjackRoyalMatchBet := blackjackRoyalMatchBet bj;
         blackjackPlayerValue := orElse (reveal ≫= pg_playerValue) (blackjackPlayerValue bj);
         blackjackDealerValue := orElse (reveal ≫= pg_dealerValue) (blackjackDealerValue bj);
         blackjackActions := blackjackActions bj |}
      (set_common
        {| u_type := u_type c; u_bet := u_bet c;
           u_playerCards := default (u_playerCards c) (reveal ≫= revealed ∘ pg_playerCards);
           u_dealerCards := default (u_dealerCards c) (reveal ≫= revealed ∘ pg_dealerCards);
           u_dice := u_dice c; u_stage := "RESULT"; u_message := message; u_sessionWager := 0;
           u_sessionInterimPayout := 0 |} s)).

Definition resultMessage (type : string) (parsed : option ParsedLogs) (state : option UI) : string :=
  match parsed with
  | Some p => if isPlaceholder (pg_summary p) then generateGameResult type state else pg_summary p
  | None => generateGameResult type state
  end.

Section Locale.
Context (toLocaleString : Z -> string).

Definition formatPnlLabel (net : Z) : string :=
  if net =? 0 then ""
  else (if 0 <=? net then "+$" else "-$") +:+ toLocaleString (Z.abs net).

Definition prependPnlLine (details : list string) (net : Z) : list string :=
  if bool_decide (formatPnlLabel net = "") then details else formatPnlLabel net :: details.

Definition completedStats (type message : string) (details : list string) (net next : Z)
    (nextShields nextDoubles : option Z) (shielded doubled : bool) (st : PlayerStats) : PlayerStats :=
  {| chips := next;
     st_shields := match nextShields with Some n => n | None => if shielded then st_shields st - 1 else st_shields st end;
     st_doubles := match nextDoubles with Some n => n | None => if doubled then st_doubles st - 1 else st_doubles st end;
     history := history st ++ [buildHistoryEntry message (prependPnlLine details net)];
     pnlByGame := <[type := default 0 (pnlByGame st !! type) + net]> (pnlByGame st);
     pnlHistory := push_graph (pnlHistory st) (default 0 (last (pnlHistory st)) + net) |}.

(** [parsed]: what [parseGameLogs] reads of the event's logs, given the result. *)
Definition handleGameCompleted (e : CasinoGameCompletedEvent) (parsed : option ParsedLogs) (w : Web) : Web :=
  let session := ce_sessionId e in
  if negb (isCurrent session w) then w
  else
    let w := clearChainResponseTimeout w in
    let balances := ce_playerBalances e in
    let next := match balances with Some b => shownChips w b | None => ce_finalChips e end in
    let w := upd_refs (s_lastBalanceUpdateRef (now w)) w in
    let state := w_ref (ui w) in
    let wager := match state with Some s => u_sessionWager (common s) | None => 0 end in
    let interim := match state with Some s => u_sessionInterimPayout (common s) | None => 0 end in
    let net := netPnL (ce_payout e) interim wager next (sessionStartChipsRef (refs w) !! session) in
    let type := default (gameTypeRef (refs w)) (CHAIN_TO_FRONTEND_GAME_TYPE (ce_gameType e)) in
    let message := resultMessage type parsed state in
    let details := match parsed with Some p => pg_details p | None => [] end in
    let w := upd_stats (completedStats type message details net next (shownShields w <$> balances)
                          (shownDoubles w <$> balances) (ce_wasShielded e) (ce_wasDoubled e)) w in
    let w := upd_refs (s_currentChipsRef next) w in
    let w := match balances with Some b => set_wallet (pb_chips b) (pb_vusdtBalance b) w | None => w end in
    let used := ce_wasShielded e || ce_wasDoubled e in
    let m := meta w in
    let w := put_meta {| g_sessionId := None; g_moveNumber := 0; g_lastResult := net;
                         g_shield := negb used && g_shield m; g_double := negb used && g_double m |} w in
    let w := upd_ui (completedUI type message parsed) w in
    let w := set_pending false 0 (set_session None w) in
    upd_refs (fun r => s_crapsChainRollLogRef None
      (s_sessionStartChipsRef (base.delete session (sessionStartChipsRef r)) r)) w.

(** *** Errors *)

Definition has (text s : string) : bool := match String.index 0 text s with Some _ => true | None => false end.

Definition isRecoverableError (message : string) : bool :=
  let m := to_lower message in
  has "invalid move" m || has "invalidmove" m || has "invalid payload" m || has "invalidpayload" m.

Definition handleCasinoError (message : string) (session : option Z) (w : Web) : Web :=
  let ends := match session with
              | Some s => isCurrent s w && negb (isRecoverableError message)
              | None => false
              end in
  let w := if ends then set_session None w else w in
  let w := say (String.substring 0 72 (to_upper message)) w in
  upd_refs (s_crapsChainRollLogRef None) (set_pending false 0 (clearChainResponseTimeout w)).

(** ** The timer runs out *)

Definition onTimeout (context : string) (expected : option Z) (w : Web) : Web :=
  if negb (awaitingChainResponseRef (refs w)) then w
  else
    match (match expected with Some s => Some s | None => currentSessionIdRef (refs w) end) with
    | None => noResponse context (upd_refs (s_pendingMoveCountRef 0) w)
    | Some session =>
        if negb (bool_decide (currentSessionIdRef (refs w) = Some session)) then w
        else if cf_service (conf w) then await (TimeoutQuery context session) w
        else noResponse context w
    end.

(** The session is on the chain: the interface follows it. *)
Definition recovered (session : Z) (s : ChainSession) (w : Web) : Web :=
  let type := default (gameTypeRef (refs w)) (CHAIN_TO_FRONTEND_GAME_TYPE (cs_gameType s)) in
  let w := set_session (Some session) (upd_refs (s_gameTypeRef type) w) in
  let prime (i : UI) :=
    let c := common i in
    set_common {| u_type := type; u_bet := default (u_bet c) (cs_bet s); u_playerCards := u_playerCards c;
                  u_dealerCards := u_dealerCards c; u_dice := u_dice c; u_stage := u_stage c;
                  u_message := u_message c; u_sessionWager := u_sessionWager c;
                  u_sessionInterimPayout := u_sessionInterimPayout c |} i in
  let w := match w_ref (ui w) with
           | Some i => put_ui (put_both (prime i) (ui w)) w
           | None => upd_ui prime w
           end in
  let w := parseGameState (cs_state s) type w in
  let w := upd_refs (s_crapsChainRollLogRef None) (set_pending false 0 (clearChainResponseTimeout w)) in
  runAutoPlay session type w.

(** ** A roll of craps

    The bets and odds of [CrapsSlip], sent one by one: every move goes to the
    session that is current by then. *)

Definition slipCraps (b : UiCrapsBet) : CrapsSlip.SlipCraps :=
  {| CrapsSlip.lb_bet := ub_bet b; CrapsSlip.lb_localOddsAmount := ub_localOdds b; CrapsSlip.lb_local := ub_local b |}.

Definition upd_crapsBets (f : list UiCrapsBet -> list UiCrapsBet) : Web -> Web := upd_ui (fun s =>
  let t := craps s in
  set_craps {| t_point := t_point t; t_epochPointEstablished := t_epochPointEstablished t;
               t_madePointsMask := t_madePointsMask t; t_bets := f (t_bets t); t_rollHistory := t_rollHistory t;
               t_lastRoundBets := t_lastRoundBets t |} s).

Definition commitBet (b : UiCrapsBet) : UiCrapsBet :=
  {| ub_bet := ub_bet b; ub_localOdds := ub_localOdds b; ub_local := false |}.

Definition withoutOdds (b : UiCrapsBet) : UiCrapsBet :=
  if default 0 (ub_localOdds b) =? 0 then b
  else {| ub_bet := ub_bet b; ub_localOdds := Some 0; ub_local := ub_local b |}.

(** What a roll does with the bets shown when it was pressed. *)
Definition rollPlan (bets : list UiCrapsBet) : list RollStep :=
  let staged := List.filter ub_local bets in
  let odds := List.filter (fun b => 0 <? default 0 (ub_localOdds b)) bets in
  (SendPayload ∘ CrapsSlip.placePayload ∘ slipCraps <$> staged)
  ++ (if 0 <? len staged then [CommitBets] else [])
  ++ (SendPayload ∘ CrapsSlip.oddsPayload ∘ slipCraps <$> odds)
  ++ (if 0 <? len odds then [ClearOdds] else [])
  ++ [SendPayload CrapsSlip.rollPayload].

Definition rollFailed (w : Web) : Web := say "ROLL FAILED" (set_isPending false w).

(** Up to the next answer; sending to no session throws. *)
Fixpoint rollOn (plan : list RollStep) (w : Web) : Web :=
  match plan with
  | [] => say "ROLLING..." w
  | CommitBets :: rest => rollOn rest (upd_crapsBets (fmap commitBet) w)
  | ClearOdds :: rest => rollOn rest (upd_crapsBets (fmap withoutOdds) w)
  | SendPayload payload :: rest =>
      match currentSessionIdRef (refs w) with
      | Some session => sendMove session payload (CrapsRoll rest) w
      | None => rollFailed w
      end
  end.

(** [isSessionActive] answered: a finished session is left for a new one. *)
Definition crapsChecked (bets : list UiCrapsBet) (s : option ChainSession) (w : Web) : Web :=
  match s with
  | Some s =>
      if cs_isComplete s then
        startGame "CRAPS" (say "SESSION ENDED - STARTING NEW..."
          (upd_refs (s_autoPlayDraftRef (Some (DraftCraps (List.filter ub_local bets))))
            (set_isPending false (upd_refs (s_currentSessionIdRef None) w))))
      else rollOn (rollPlan bets) w
  | None => rollOn (rollPlan bets) w
  end.

(** ** Loading the page

    [useChainInit]: the player is asked for, and the session that the record
    names as active; the chain service is there when this is over. *)

Definition goOnline (w : Web) : Web :=
  put_conf {| cf_isOnChain := true; cf_service := true; cf_freeroll := cf_freeroll (conf w) |} w.

Inductive Loading :=
| PlayerFound (p : Player) (shield double : bool) (active : option Z)
| PlayerMissing
| LoadFailed.

Definition loaded (l : Loading) (w : Web) : Web :=
  match l with
  | PlayerFound p shield double active =>
      let b := pl_balances p in
      let shouldUpdateBalance := BALANCE_UPDATE_COOLDOWN_MS <? now w - lastBalanceUpdateRef (refs w) in
      let w := foundPlayer p w in
      let w := put_wallet {| walletRng := if shouldUpdateBalance then Some (pb_chips b) else walletRng (wallet w);
                             walletVusdt := Some (pb_vusdtBalance b); walletCredits := Some (pl_credits p);
                             walletLocked := Some (pl_locked p) |} w in
      let m := meta w in
      let w := put_meta {| g_sessionId := g_sessionId m; g_moveNumber := g_moveNumber m; g_lastResult := g_lastResult m;
                           g_shield := shield; g_double := double |} w in
      let w := registered true w in
      match active with
      | Some session => if session =? 0 then goOnline w else await (RestoreQuery session) (emit (AskedActive session) w)
      | None => goOnline w
      end
  | PlayerMissing => goOnline (registered false w)
  | LoadFailed => goOnline w
  end.

Definition restoredUI (type : string) (bet : option Z) (s : UI) : UI :=
  let c := common s in
  set_common {| u_type := type; u_bet := default (u_bet c) bet; u_playerCards := u_playerCards c;
                u_dealerCards := u_dealerCards c; u_dice := u_dice c; u_stage := "PLAYING";
                u_message := "GAME IN PROGRESS - RESTORED FROM CHAIN"; u_sessionWager := u_sessionWager c;
                u_sessionInterimPayout := u_sessionInterimPayout c |} s.

Definition restored (session : Z) (s : ChainSession) (w : Web) : Web :=
  let w := applySessionMeta (Some session) (Some (default 0 (cs_moveCount s))) (set_session (Some session) w) in
  match CHAIN_TO_FRONTEND_GAME_TYPE (cs_gameType s) with
  | Some type => parseGameState (cs_state s) type (upd_ui (restoredUI type (cs_bet s)) (upd_refs (s_gameTypeRef type) w))
  | None => w
  end.

(** ** After the answers *)

(** An answer to a spin or a roll finds the slip and the refs of that time. *)
Definition spinAnswer (inPrison ok : bool) (w : Web) : Web :=
  let '(v, env) := spinAnswered inPrison ok (envOf w) (rouletteView w) in put_env env (put_roulette (ui_slip v) w).

Definition rollAnswer (bets : list SicBoBet) (ok : bool) (w : Web) : Web :=
  let '(v, env) := rollAnswered bets ok (envOf w) (slipOf (tb_sicBo (tables w)) w) in put_env env (put_sicBo v w).

Definition ruleAnswer (ok : bool) (w : Web) : Web :=
  let '(v, env) := ruleAnswered ok (envOf w) (rouletteView w) in put_env env (put_roulette (ui_slip v) w).

Definition resume (t : Task) (a : Answer) (w : Web) : option Web :=
  match t, a with
  | StartProbe type bet, Probed view latest first =>
      Some (if ensureChainResponsive (cf_service (conf w)) view latest first then await (StartLookup type bet) w
            else at_stage "BETTING" "CHAIN OFFLINE - CHECK BACKEND" (clearChainResponseTimeout w))
  | StartLookup type bet, GotPlayer (Some p) => Some (launch type bet (foundPlayer p (registered true w)))
  | StartLookup type bet, GotPlayer None | StartLookup type bet, Failed =>
      Some (await (StartRegister type bet) (emit SentRegister (registered false w)))
  | StartRegister type bet, Accepted => Some (await (StartPoll type bet 0) (registered true w))
  | StartRegister _ _, Failed => Some (startFailed w)
  | StartPoll type bet _, GotPlayer (Some p) => Some (launch type bet (foundPlayer p w))
  | StartPoll type bet i, GotPlayer None | StartPoll type bet i, Failed =>
      Some (if (S i <? 10)%nat then await (StartPoll type bet (S i)) w else launch type bet w)
  | StartSubmit type bet session, Accepted => Some (startAccepted type bet session w)
  | StartSubmit _ _ _, Failed => Some (startFailed w)
  | TimeoutQuery context session, GotSession s =>
      Some (if negb (awaitingChainResponseRef (refs w)) then w
            else if negb (bool_decide (currentSessionIdRef (refs w) = Some session)) then w
            else match s with
                 | Some s => if cs_isComplete s then noResponse context w else recovered session s w
                 | None => noResponse context w
                 end)
  | TimeoutQuery context _, Failed => Some (noResponse context w)
  | PlayRule d session, Accepted => Some (sendBatch d session (say "SPINNING ON CHAIN..." w))
  | PlayRule _ _, Failed | PlayBatch _, Failed => Some (playFailed w)
  | PlayBatch d, Accepted => Some (played d w)
  | AutoMove accepted _, Accepted => Some (match accepted with Some m => say m w | None => w end)
  | AutoMove (Some _) failed, Failed => Some (say failed (set_isPending false w))
  | AutoMove None failed, Failed => Some (say_both failed (set_isPending false w))
  | PlayerSync, GotPlayer (Some p) =>
      Some (set_credits (pl_credits p) (pl_locked p) (applyBalances (pl_balances p) w))
  | PlayerSync, GotPlayer None | PlayerSync, Failed => Some w
  | DealQuery type, GotSession s =>
      Some (match s with
            | Some s =>
                if cs_isComplete s then startGame type (set_isPending false (set_session None w))
                else
                  let g := default (gameTypeRef (refs w)) (CHAIN_TO_FRONTEND_GAME_TYPE (cs_gameType s)) in
                  set_isPending false (parseGameState (cs_state s) g (upd_refs (s_gameTypeRef g) w))
            | None => startGame type (set_isPending false (set_session None w))
            end)
  | DealQuery _, Failed => Some (say "WAITING FOR DEAL..." w)
  | SpinAnswer inPrison, Accepted => Some (spinAnswer inPrison true w)
  | SpinAnswer inPrison, Failed => Some (spinAnswer inPrison false w)
  | RollAnswer bets, Accepted => Some (rollAnswer bets true w)
  | RollAnswer bets, Failed => Some (rollAnswer bets false w)
  | RuleAnswer, Accepted => Some (ruleAnswer true w)
  | RuleAnswer, Failed => Some (ruleAnswer false w)
  | CrapsCheck bets, GotSession s => Some (crapsChecked bets s w)
  | CrapsCheck bets, Failed => Some (crapsChecked bets None w)
  | CrapsRoll rest, Accepted => Some (rollOn rest w)
  | CrapsRoll _, Failed => Some (rollFailed w)
  | RestoreQuery session, GotSession (Some s) =>
      Some (goOnline (if cs_isComplete s then w else restored session s w))
  | RestoreQuery _, GotSession None | RestoreQuery _, Failed => Some (goOnline w)
  | _, _ => None
  end.

(** ** The deal button *)

(** What is kept to be played when the session is there. *)
Definition rebetDraft (w : Web) : option AutoPlayDraft :=
  let s := w_state (ui w) in let type := u_type (common s) in let t := tables w in
  if bool_decide (type = "BACCARAT")
  then Some (DraftBaccarat (tb_selection t) (b_bets (tb_baccarat t)) (u_bet (common s)))
  else if bool_decide (type = "ROULETTE") then
    if t_isPrison (roulette s) then None
    else
      let bets := if 0 <? len (b_bets (tb_roulette t)) then b_bets (tb_roulette t) else b_last (tb_roulette t) in
      if 0 <? len bets then Some (DraftRoulette bets (t_zeroRule (roulette s))) else None
  else if bool_decide (type = "SIC_BO") then
    let bets := if 0 <? len (b_bets (tb_sicBo t)) then b_bets (tb_sicBo t) else b_last (tb_sicBo t) in
    if 0 <? len bets then Some (DraftSicBo bets) else None
  else if bool_decide (type = "CRAPS") then
    let bets := List.filter ub_local (t_bets (craps s)) in
    if 0 <? len bets then Some (DraftCraps bets) else None
  else None.

Definition draftWhileWaiting (w : Web) : Web :=
  match truthySession w, autoPlayPlanRef (refs w) with
  | Some session, None =>
      match rebetDraft w with
      | Some d => upd_refs (s_autoPlayPlanRef (Some (d, session))) w
      | None => w
      end
  | _, _ => w
  end.

(** The spin and the roll of [TableSlips]: without a session the bets become a
    draft and a session is started. *)
Definition sent {B} (t : Task) (e : Effect B) (w : Web) : Web :=
  match e with Sent session payload => sendMove session payload t w | _ => w end.

Definition pressSpin (w : Web) : Web :=
  let v := rouletteView w in
  let '(v', env, effect) := spinRoulette (envOf w) v (chips (stats w)) v in
  let w := sent (SpinAnswer (ui_isPrison v)) effect (put_env env (put_roulette (ui_slip v') w)) in
  match effect with
  | Drafted bets => startGame "ROULETTE" (upd_refs (s_autoPlayDraftRef (Some (DraftRoulette bets (ui_zeroRule v)))) w)
  | _ => w
  end.

Definition pressRoll (w : Web) : Web :=
  let v := slipOf (tb_sicBo (tables w)) w in
  let '(v', env, effect) := rollSicBo (envOf w) v (chips (stats w)) v in
  let w := sent (RollAnswer (betsToSend v false).2) effect (put_env env (put_sicBo v' w)) in
  match effect with
  | Drafted bets => startGame "SIC_BO" (upd_refs (s_autoPlayDraftRef (Some (DraftSicBo bets))) w)
  | _ => w
  end.

(** The roll of craps up to its first wait. *)
Definition pressCraps (w : Web) : Web :=
  let t := craps (w_state (ui w)) in
  let staged := List.filter ub_local (t_bets t) in
  let hasSession := bool_decide (is_Some (truthySession w)) in
  match List.find (fun b => negb (CrapsSlip.isValidCrapsTarget (Craps.wc_type (ub_bet b)) (Craps.wc_target (ub_bet b)))) staged with
  | Some invalidBet => say (CrapsSlip.invalidTargetMessage (Craps.wc_type (ub_bet invalidBet))) w
  | None =>
      let hasOutstandingBets :=
        hasSession && (existsb (fun b => negb (ub_local b)) (t_bets t) || bool_decide (is_Some (t_point t))) in
      if (len staged =? 0) && negb hasOutstandingBets then say "PLACE BET FIRST" w
      else if cf_isOnChain (conf w) && cf_service (conf w) then
        if negb hasSession then
          if len staged =? 0 then say "PLACE BET FIRST" w
          else startGame "CRAPS" (say "STARTING NEW SESSION..." (upd_refs (s_autoPlayDraftRef (Some (DraftCraps staged))) w))
        else if isWaiting w then w
        else await (CrapsCheck (t_bets t)) (set_isPending true w)
      else say "OFFLINE - CHECK CONNECTION" w
  end.

Definition putOutcome (o : Outcome) (w : Web) : Web :=
  let '(s, env, move) := o in
  let w := put_env env (upd_ui (fun _ => s) w) in
  match move with Some (session, payload) => emit (SentMove session payload) w | None => w end.

(** Baccarat, whose slip is that of [TableSlips]. *)
Definition baccaratView (w : Web) : BaccaratSlip :=
  let t := tb_baccarat (tables w) in let c := common (w_state (ui w)) in
  {| bs_bets := b_bets t; bs_undoStack := b_undo t; bs_lastRoundBets := b_last t; bs_selection := tb_selection (tables w);
     bs_bet := u_bet c; bs_sessionWager := u_sessionWager c; bs_betsRef := b_bets t; bs_selectionRef := tb_selection (tables w) |}.

Definition pressBaccarat (ok : bool) (w : Web) : option Web :=
  match online (envOf w) with
  | Some session =>
      match dealBaccarat (envOf w) session ok (w_state (ui w)) (baccaratView w) with
      | Some (o, b) =>
          Some (upd_tables (set_tbBaccarat (MkBets (bs_bets b) (bs_undoStack b) (bs_lastRoundBets b)
                              (b_mode (tb_baccarat (tables w))))) (putOutcome o w))
      | None => None
      end
  | None => None
  end.

Definition modifiersOf (w : Web) : Modifiers :=
  {| shields := st_shields (stats w); doubles := st_doubles (stats w); activeShield := g_shield (meta w);
     activeDouble := g_double (meta w) |}.

(** The end of [deal], when no game took the press. *)
Definition dealTheRest (w : Web) : Web :=
  let type := u_type (common (w_state (ui w))) in
  let '(s, rest) := dealRest (chips (stats w)) (modifiersOf w) (envOf w) (w_state (ui w)) in
  let w := upd_ui (fun _ => s) w in
  match rest with
  | Waits => w
  | Starts =>
      let w := if bool_decide (type = "BACCARAT")
               then upd_refs (s_autoPlayDraftRef (Some (DraftBaccarat (tb_selection (tables w))
                                (b_bets (tb_baccarat (tables w))) (u_bet (common s))))) w else w in
      startGame type w
  | Resyncs => await (DealQuery type) w
  | Spends m => upd_stats (set_counts (chips (stats w)) (shields m) (doubles m)) w
  end.

(** [ok]: whether the node takes a move of a card game or of baccarat, whose
    answer is not waited for apart. *)
Definition deal (ok : bool) (w : Web) : Web :=
  let s := w_state (ui w) in let type := u_type (common s) in
  if bool_decide (type = "NONE") then w
  else if cf_isOnChain (conf w) && awaitingChainResponseRef (refs w) then draftWhileWaiting w
  else if bool_decide (type = "CRAPS") then pressCraps w
  else if bool_decide (type = "ROULETTE") then pressSpin w
  else if bool_decide (type = "SIC_BO") then pressRoll w
  else if bool_decide (type = "BACCARAT") then default (dealTheRest w) (pressBaccarat ok w)
  else match dealGame (envOf w) ok s with
       | Some o => putOutcome o w
       | None => dealTheRest w
       end.

(** The other actions of the card games, those of [CardTables]. *)
Inductive Action :=
| Hit | Stand | Double | Split
| GuessNext (g : Guess) | Cashout
| GoToWar | Surrender | TieBet
| DrawCards
| PlayHand | FoldHand
| UthCheck | UthBet (multiplier : Z) | UthFold
| Insurance (take : bool) | SideBet (k : BlackjackSideBet) | Hold (idx : Z)
| ThreeCardSide (k : PokerSideBet) | UthSide (k : PokerSideBet).

Definition act (a : Action) (ok : bool) (w : Web) : Outcome :=
  let env := envOf w in let s := w_state (ui w) in
  let stage := w_uthBackendStage (ui w) in
  match a with
  | Hit => bjHit env ok s
  | Stand => bjStand env ok s
  | Double => bjDouble env ok s
  | Split => bjSplit (chips (stats w)) env ok s
  | GuessNext g => hiloPlay g env ok s
  | Cashout => hiloCashout env ok s
  | GoToWar => casinoWarGoToWar env ok s
  | Surrender => casinoWarSurrender env ok s
  | TieBet => casinoWarToggleTieBet (chips (stats w)) env ok s
  | DrawCards => drawVideoPoker env ok s
  | PlayHand => threeCardPlay env ok s
  | FoldHand => threeCardFold env ok s
  | UthCheck => uhCheck stage env ok s
  | UthBet m => uhBet m stage env ok s
  | UthFold => uhFold stage env ok s
  | Insurance take => bjInsurance take env s
  | SideBet k => toggleSideBet k (chips (stats w)) env s
  | Hold idx => quiet (default s (toggleHold idx s)) env
  | ThreeCardSide k => threeCardToggle k (chips (stats w)) env s
  | UthSide k => uthToggle k env s
  end.

(** Placing bets on the tables whose slips are in [TableSlips]; only a change of
    the rule of roulette may send a move.  [StageCraps] is what the staging of
    [CrapsSlip] makes of the craps table, here any slip. *)
Inductive SlipEdit :=
| PlaceRoulette (type : RouletteBetName) (target : option Z)
| UndoRoulette
| RebetRoulette
| CycleRule
| PlaceSicBo (type : SicBoBetName) (target : option Z)
| UndoSicBo
| RebetSicBo
| SelectBaccarat (selection : BaccaratSelection)
| PlaceBaccarat (type : BaccaratBetName)
| UndoBaccarat
| RebetBaccarat
| StageCraps (bets : list UiCrapsBet) (undo : list (list UiCrapsBet)) (wager : Z) (message : string).

Definition put_rouletteView (v : RouletteUI) (w : Web) : Web :=
  put_roulette (ui_slip v) (upd_ui (fun s => set_roulette
    {| t_zeroRule := ui_zeroRule v; t_isPrison := ui_isPrison v; t_history := t_history (roulette s) |} s) w).

Definition put_baccarat (b : BaccaratSlip) (w : Web) : Web :=
  let t := tables w in
  upd_ui (set_wager (bs_sessionWager b))
    (put_tables {| tb_roulette := tb_roulette t; tb_sicBo := tb_sicBo t;
       tb_baccarat := MkBets (bs_bets b) (bs_undoStack b) (bs_lastRoundBets b) (b_mode (tb_baccarat t));
       tb_selection := bs_selection b; tb_crapsUndo := tb_crapsUndo t |} w).

Definition edit (e : SlipEdit) (w : Web) : Web :=
  let v := rouletteView w in let sicBo := slipOf (tb_sicBo (tables w)) w in let b := baccaratView w in
  let c := chips (stats w) in
  match e with
  | PlaceRoulette type target => put_rouletteView (placeRouletteBet v c type target v) w
  | UndoRoulette => match undoRouletteBet v v with Some v' => put_rouletteView v' w | None => w end
  | RebetRoulette => put_rouletteView (rebetRoulette v c v) w
  | PlaceSicBo type target => put_sicBo (placeSicBoBet sicBo c type target sicBo) w
  | UndoSicBo => match undoSicBoBet sicBo sicBo with Some s => put_sicBo s w | None => w end
  | RebetSicBo => put_sicBo (rebetSicBo sicBo c sicBo) w
  | SelectBaccarat selection => put_baccarat (toggleSelection selection b) w
  | PlaceBaccarat type => put_baccarat (placeBaccaratBet c type b) w
  | UndoBaccarat => put_baccarat (undoBaccarat b b) w
  | RebetBaccarat => put_baccarat (rebetBaccarat b b) w
  | CycleRule =>
      let '(v', env, effect) :=
        cycleRouletteZeroRule (bool_decide (u_type (common (w_state (ui w))) = "ROULETTE")) (envOf w) v v in
      sent RuleAnswer effect (put_env env (put_rouletteView v' w))
  | StageCraps bets undo wager message =>
      upd_tables (set_tbCrapsUndo undo) (upd_crapsBets (fun _ => bets) (upd_ui (fun s => tell message (set_wager wager s)) w))
  end.

(** [setBetAmount] of [useBetControls]. *)
Definition setBetAmount (amount : Z) (w : Web) : Web :=
  let s := w_state (ui w) in let type := u_type (common s) in
  let baseBetLocked := cf_isOnChain (conf w) && bool_decide (is_Some (truthySession w))
                       && bool_decide (type ∈ ["BLACKJACK"; "THREE_CARD"; "ULTIMATE_HOLDEM"]) in
  if baseBetLocked then say "BET LOCKED (START NEW GAME)" w
  else if bool_decide (u_stage (common s) = "PLAYING") && negb (isTableGame type) then w
  else if chips (stats w) <? amount then say "INSUFFICIENT FUNDS" w
  else upd_ui (fun i =>
    let c := common i in
    set_common {| u_type := u_type c; u_bet := amount; u_playerCards := u_playerCards c;
                  u_dealerCards := u_dealerCards c; u_dice := u_dice c; u_stage := u_stage c;
                  u_message := "BET SIZE: " +:+ pretty amount; u_sessionWager := u_sessionWager c;
                  u_sessionInterimPayout := u_sessionInterimPayout c |} i) w.

(** ** Runs *)

Inductive Event :=
| Started (e : CasinoGameStartedEvent)
| Moved (e : CasinoGameMovedEvent) (roll : option (Z * Z))
| Completed (e : CasinoGameCompletedEvent) (parsed : option ParsedLogs)
| Error (message : string) (session : option Z)
| Answered (i : nat) (a : Answer)
| TimedOut
| Rendered
| Ranked
| Passed (ms : Z)
| Play (type : string)
| Deal (ok : bool)
| Press (a : Action) (ok : bool)
| Edit (e : SlipEdit)
| BetAmount (amount : Z)
| Loaded (l : Loading).

Definition dropTask (i : nat) (w : Web) : Web := put_tasks (take i (tasks w) ++ drop (S i) (tasks w)) w.

(** Events of the chain reach the handlers only with a chain service.  The page is
    loaded before the service is there, once. *)
Definition online_ (w : Web) : bool := cf_isOnChain (conf w) && cf_service (conf w).

(** The refs that mirror React's state follow it.  When the player's numbers were
    set, the handlers of the chain's events are subscribed anew; the end of the
    old subscription stops the timer. *)
Definition rendered (w : Web) : Web :=
  let w := if online_ w && statsSet w then clearChainResponseTimeout w else w in
  put_statsSet false (upd_refs (s_currentChipsRef (chips (stats w)))
    (put_ui (put (Some (w_state (ui w))) (w_state (ui w)) (ui w)) w)).

(** The leaderboard came: the player's rank, which is left out, is set. *)
Definition ranked (w : Web) : Web := put_stats (stats w) w.

Definition handle (e : Event) (w : Web) : option Web :=
  match e with
  | Started e => if online_ w then Some (handleGameStarted e w) else None
  | Moved e roll => if online_ w then Some (handleGameMoved e roll w) else None
  | Completed e parsed => if online_ w then Some (handleGameCompleted e parsed w) else None
  | Error message session => if online_ w then Some (handleCasinoError message session w) else None
  | Answered i a => match tasks w !! i with Some t => resume t a (dropTask i w) | None => None end
  | TimedOut =>
      match timer w with
      | Some t => if tm_due t <=? now w then Some (onTimeout (tm_context t) (tm_session t) (put_timer None w)) else None
      | None => None
      end
  | Rendered => Some (rendered w)
  | Ranked => if online_ w then Some (ranked w) else None
  | Passed ms => if 0 <=? ms then Some (put_now (now w + ms) w) else None
  | Play type => Some (startGame type w)
  | Deal ok => Some (deal ok w)
  | Press a ok => Some (putOutcome (act a ok w) w)
  | Edit e => Some (edit e w)
  | BetAmount amount => Some (setBetAmount amount w)
  | Loaded l => if negb (cf_service (conf w)) && bool_decide (out w = []) then Some (loaded l w) else None
  end.

Inductive step (w : Web) : Web -> Prop :=
| Step e w' : handle e w = Some w' -> step w w'.

(** The listed events, as far as they can happen. *)
Definition run (l : list Event) (w : Web) : Web := foldl (fun w e => default w (handle e w)) w l.

End Locale.
