(* ===== verification/WebSessionCorrect.v ===== *)
(** * The game session of the website: theorems

    What every run of the handlers of [WebSession] keeps: moves go to sessions
    that were started, no session is started twice, and the books of the player
    agree.  Then what the end of a game does, how an unanswered start ends, and
    the first spin as a whole.  The last part has runs that go wrong. *)

From S2P Require Import Prelude ChainCodec JsNum Bytes Constants Calendar WebBets Arith SicBo Roulette Craps GameState WebState TableSlips CardTables WebGame WebSession WebStateCorrect.
From S2P Require CrapsSlip CrapsCorrect.

#[local] Open Scope Z_scope.

(** ** What a handler may touch *)

(** The part of the state that sending depends on. *)
Definition core (w : Web) :=
  (currentSessionIdRef (refs w), currentSessionId (refs w), autoPlayPlanRef (refs w), nextSession w, tasks w, out w).

(** The player's books. *)
Definition books (w : Web) := (pnlByGame (stats w), pnlHistory (stats w), history (stats w)).

(** Functions that leave both alone. *)
Definition quietly (f : Web -> Web) : Prop := forall w, core (f w) = core w /\ books (f w) = books w.

Lemma quietly_compose f g : quietly f -> quietly g -> quietly (fun w => f (g w)).
Proof. intros Hf Hg w. destruct (Hf (g w)) as [-> ->]. apply Hg. Qed.

Ltac quiet := intros w; cbv beta delta [parseGameState applyBalances countMove foundPlayer played playFailed rendered ranked] zeta;
  repeat case_match; done.

Lemma quiet_ui f : quietly (upd_ui f).
Proof. quiet. Qed.
Lemma quiet_say m : quietly (say m).
Proof. quiet. Qed.
Lemma quiet_say_both m : quietly (say_both m).
Proof. quiet. Qed.
Lemma quiet_pending b n : quietly (set_pending b n).
Proof. quiet. Qed.
Lemma quiet_isPending b : quietly (set_isPending b).
Proof. quiet. Qed.
Lemma quiet_timeout : quietly clearChainResponseTimeout.
Proof. quiet. Qed.
Lemma quiet_arm c s : quietly (armChainResponseTimeout c s).
Proof. quiet. Qed.
Lemma quiet_meta s n : quietly (applySessionMeta s n).
Proof. quiet. Qed.
Lemma quiet_parse blob type : quietly (parseGameState blob type).
Proof. quiet. Qed.
Lemma quiet_balances b : quietly (applyBalances b).
Proof. quiet. Qed.
Lemma quiet_count : quietly countMove.
Proof. quiet. Qed.
Lemma quiet_found p : quietly (foundPlayer p).
Proof. quiet. Qed.
Lemma quiet_played d : quietly (played d).
Proof. quiet. Qed.
Lemma quiet_failed : quietly playFailed.
Proof. quiet. Qed.

(** ** Moves follow their start *)

Definition startedIn (l : list Sending) (s : Z) : Prop := exists g b, SentStart g b s ∈ l.

(** A session that the site has started, or that the player's record named as
    active when the page was loaded. *)
Definition knownIn (l : list Sending) (s : Z) : Prop := startedIn l s \/ AskedActive s ∈ l.

Definition startId (o : Sending) : option Z := match o with SentStart _ _ s => Some s | _ => None end.

(** Every move is preceded by the start of its session, or by the question for
    it. *)
Definition moves_follow (l : list Sending) : Prop :=
  forall l1 s p l2, l = l1 ++ SentMove s p :: l2 -> knownIn l1 s.

Lemma knownIn_app l k s : knownIn l s -> knownIn (l ++ k) s.
Proof. intros [(g & b & H)|H]; [left; exists g, b; set_solver|right; set_solver]. Qed.

Lemma moves_follow_snoc l o :
  moves_follow l -> (forall s p, o = SentMove s p -> knownIn l s) -> moves_follow (l ++ [o]).
Proof.
  intros Hl Ho l1 s p l2 E. destruct l2 as [|x l2 _] using rev_ind.
  - apply app_inj_tail in E as [-> ->]. by eapply Ho.
  - rewrite app_comm_cons, app_assoc in E. apply app_inj_tail in E as [E _]. by eapply Hl.
Qed.

(** The session that a waiting function will act on. *)
Definition waitsFor (t : Task) : option Z :=
  match t with PlayRule _ s | RestoreQuery s => Some s | _ => None end.

Record ordered (w : Web) : Prop := {
  o_current s : currentSessionIdRef (refs w) = Some s -> knownIn (out w) s;
  o_plan d s : autoPlayPlanRef (refs w) = Some (d, s) -> knownIn (out w) s;
  o_rule t s : waitsFor t = Some s -> t ∈ tasks w -> knownIn (out w) s;
  o_moves : moves_follow (out w);
  o_fresh s : startedIn (out w) s -> s < nextSession w;
  o_once : NoDup (omap startId (out w))
}.

Lemma ordered_core w w' : core w' = core w -> ordered w -> ordered w'.
Proof. unfold core. intros [= H1 H2 H3 H4 H5 H6] []. split; rewrite ?H1, ?H2, ?H3, ?H4, ?H5, ?H6; done. Qed.

Lemma ordered_quiet f w : quietly f -> ordered w -> ordered (f w).
Proof. intros Hf. apply ordered_core, Hf. Qed.

Lemma truthy_started w s : ordered w -> truthySession w = Some s -> knownIn (out w) s.
Proof.
  intros Ho. unfold truthySession. destruct (currentSessionIdRef (refs w)) as [x|] eqn:E; [|done].
  destruct (x =? 0); [done|]. intros [= ->]. by apply (o_current _ Ho).
Qed.

Lemma ordered_await t w :
  (forall s, waitsFor t = Some s -> knownIn (out w) s) -> ordered w -> ordered (await t w).
Proof.
  intros Ht []. split; try done. intros t' s Hs. unfold await. change (tasks (put_tasks ?x w)) with x.
  intros [H|H%list_elem_of_singleton]%elem_of_app; [by eapply o_rule0|]. subst. by apply Ht.
Qed.

(** Sending something that is not a start. *)
Lemma ordered_emits o w :
  startId o = None -> (forall s p, o = SentMove s p -> knownIn (out w) s) -> ordered w -> ordered (emit o w).
Proof.
  intros Hi Hs []. split; unfold emit; change (out (put_out ?x w)) with x; try done.
  - intros x Hx. by apply knownIn_app, o_current0.
  - intros d x Hx. by eapply knownIn_app, o_plan0.
  - intros t x Hx Ht. by eapply knownIn_app, o_rule0.
  - by apply moves_follow_snoc.
  - intros x (g & b & [H|H]%elem_of_app); [by apply o_fresh0; exists g, b|]. apply list_elem_of_singleton in H. by subst.
  - rewrite omap_app. cbn. by rewrite Hi, app_nil_r.
Qed.

Lemma ordered_emit s p w : knownIn (out w) s -> ordered w -> ordered (emit (SentMove s p) w).
Proof. intros Hs. apply ordered_emits; [done|]. by intros ? ? [= -> ->]. Qed.

Lemma ordered_register w : ordered w -> ordered (emit SentRegister w).
Proof. by apply ordered_emits. Qed.

Lemma ordered_ask s w : ordered w -> ordered (emit (AskedActive s) w).
Proof. by apply ordered_emits. Qed.

Lemma ordered_leave w : ordered w -> ordered (set_session None w).
Proof. by intros []. Qed.

Lemma ordered_forget w : ordered w -> ordered (upd_refs (s_currentSessionIdRef None) w).
Proof. by intros []. Qed.

Lemma ordered_no_plan w : ordered w -> ordered (upd_refs (s_autoPlayPlanRef None) w).
Proof. by intros []. Qed.

Lemma ordered_move s p t w :
  knownIn (out w) s -> (forall x, waitsFor t = Some x -> x = s) -> ordered w -> ordered (sendMove s p t w).
Proof.
  intros Hs Ht Ho. apply ordered_await; [|by apply ordered_emit]. intros x ->%Ht. by apply knownIn_app.
Qed.

Create HintDb quiet.
#[local] Hint Resolve quiet_ui quiet_say quiet_say_both quiet_pending quiet_isPending quiet_timeout quiet_arm quiet_meta quiet_parse
  quiet_balances quiet_count quiet_found quiet_played quiet_failed : quiet.
#[local] Hint Resolve ordered_leave ordered_no_plan ordered_register : quiet.
#[local] Hint Extern 2 (ordered (?f ?w)) => simple apply (ordered_quiet f w); [solve [auto with quiet]|] : quiet.

Lemma core_out w w' : core w' = core w -> out w' = out w.
Proof. by intros [=]. Qed.

Lemma ordered_batch d s w : knownIn (out w) s -> ordered w -> ordered (sendBatch d s w).
Proof.
  intros Hs Ho. unfold sendBatch. destruct (playPayload d); [|by auto with quiet]. by apply ordered_move.
Qed.

Lemma quiet_wagered n m : quietly (wagered n m).
Proof. quiet. Qed.
Lemma quiet_moveCount n : quietly (upd_refs (s_pendingMoveCountRef n)).
Proof. quiet. Qed.
Lemma quiet_tables f : quietly (upd_tables f).
Proof. quiet. Qed.
Lemma quiet_roll x : quietly (upd_refs (s_crapsChainRollLogRef x)).
Proof. quiet. Qed.
Lemma quiet_gameType x : quietly (upd_refs (s_gameTypeRef x)).
Proof. quiet. Qed.
Lemma quiet_stage s m : quietly (at_stage s m).
Proof. quiet. Qed.
Lemma quiet_registered b : quietly (registered b).
Proof. quiet. Qed.
Lemma quiet_env e : quietly (put_env e).
Proof. quiet. Qed.

#[local] Hint Resolve quiet_wagered quiet_moveCount quiet_tables quiet_roll quiet_gameType quiet_stage
  quiet_registered quiet_env : quiet.

(** A fact about what was sent survives a quiet function. *)
Lemma started_quiet f w s : quietly f -> knownIn (out w) s -> knownIn (out (f w)) s.
Proof. intros Hf. by rewrite (core_out _ _ (proj1 (Hf w))). Qed.

#[local] Hint Extern 2 (knownIn (out (?f ?w)) _) =>
  simple apply (started_quiet f w); [solve [auto with quiet]|] : quiet.

Lemma ordered_play d s w : knownIn (out w) s -> ordered w -> ordered (play d s w).
Proof.
  intros Hs Ho. unfold play. destruct d; [|..|]; repeat case_match;
    first [apply ordered_batch|apply ordered_move]; auto with quiet. by intros ? [= ->].
Qed.

Lemma ordered_autoPlay s type w : knownIn (out w) s -> ordered w -> ordered (runAutoPlay s type w).
Proof.
  intros Hs Ho. unfold runAutoPlay. repeat case_match; try done; try by apply ordered_no_plan.
  apply ordered_play; auto with quiet.
Qed.

Lemma ordered_autoMove p a f w : ordered w -> ordered (autoMove p a f w).
Proof.
  intros Ho. unfold autoMove. destruct (truthySession w) eqn:E; [|done]. case_match; [done|].
  apply ordered_move; [|done|by auto with quiet]. apply started_quiet; [auto with quiet|]. by apply truthy_started.
Qed.

Lemma quiet_clearDraft : quietly (upd_refs (s_autoPlayDraftRef None)).
Proof. quiet. Qed.
Lemma quiet_cleared type : quietly (fun w => put_meta clearedMeta (upd_tables (clearedTables type) (upd_ui (clearedUI type) w))).
Proof. quiet. Qed.
Lemma quiet_uthStage n : quietly (set_uthBackendStage n).
Proof. quiet. Qed.

#[local] Hint Resolve quiet_clearDraft quiet_uthStage : quiet.

Lemma ordered_start type w : ordered w -> ordered (startGame type w).
Proof.
  intros Ho. unfold startGame. cbv zeta. set (w1 := upd_refs _ (set_pending false 0 w)).
  assert (H1 : ordered w1) by (destruct Ho; by split). clearbody w1.
  set (w2 := if bool_decide (type = "ULTIMATE_HOLDEM") then _ else _).
  assert (H2 : ordered w2) by (unfold w2; case_match; auto with quiet). clearbody w2.
  set (w3 := match autoPlayDraftRef (refs w2) with Some _ => _ | None => _ end).
  assert (H3 : ordered w3) by (unfold w3; repeat case_match; auto with quiet). clearbody w3.
  set (w4 := put_meta _ _).
  assert (H4 : ordered w4) by (by apply (ordered_quiet _ w3 (quiet_cleared type))). clearbody w4.
  case_match; [apply ordered_await|]; auto with quiet. done.
Qed.

Lemma ordered_launch type bet w : ordered w -> ordered (launch type bet w).
Proof.
  intros [E2 E3 E4 E5 E6 E7]. set (s := nextSession w).
  assert (Hnew : ~ startedIn (out w) s) by (intros H; apply E6 in H; unfold s in H; lia).
  assert (Hout : out (launch type bet w) = out w ++ [SentStart (GAME_TYPE_MAP type) (if isTableGame type then 0 else bet) s])
    by (unfold launch; repeat case_match; done).
  assert (Htasks : tasks (launch type bet w) = tasks w ++ [StartSubmit type bet s]) by (unfold launch; repeat case_match; done).
  assert (Hs : startedIn (out (launch type bet w)) s) by (rewrite Hout; eexists _, _; apply elem_of_app; right; by apply list_elem_of_singleton).
  split.
  - assert (Hc : currentSessionIdRef (refs (launch type bet w)) = Some s) by (unfold launch; repeat case_match; done).
    rewrite Hc. intros ? [= <-]. by left.
  - assert (Hp : autoPlayPlanRef (refs (launch type bet w)) = autoPlayPlanRef (refs w)
      \/ exists d, autoPlayPlanRef (refs (launch type bet w)) = Some (d, s)) by (unfold launch; repeat case_match; eauto).
    intros d x. destruct Hp as [->|(d' & ->)]; [|intros [= _ <-]; by left].
    intros H%E3. rewrite Hout. by apply knownIn_app.
  - intros t x Hx. rewrite Htasks, Hout. intros [H|H%list_elem_of_singleton]%elem_of_app; [|by subst].
    apply knownIn_app. by eapply E4.
  - rewrite Hout. by apply moves_follow_snoc.
  - assert (Hn : nextSession (launch type bet w) = s + 1) by (unfold launch; repeat case_match; done).
    rewrite Hout, Hn. intros x (g & b & [H|H]%elem_of_app).
    + assert (x < s) by (apply E6; by exists g, b). lia.
    + apply list_elem_of_singleton in H as [= _ _ ->]. lia.
  - rewrite Hout, omap_app. cbn. apply NoDup_app. split_and!; [done| |apply NoDup_singleton].
    intros x (o & H & Ho)%list_elem_of_omap ->%list_elem_of_singleton. apply Hnew.
    destruct o as [|y|g b y|]; try done. injection Ho as ->. by exists g, b.
Qed.

(** *** Moves of the player *)

Lemma live_truthy w : liveSession (envOf w) = truthySession w.
Proof. unfold liveSession, truthySession. cbn. by destruct (currentSessionIdRef (refs w)). Qed.

Lemma online_truthy w s : online (envOf w) = Some s -> truthySession w = Some s.
Proof. unfold online. rewrite live_truthy. by case_match. Qed.

Lemma submit_session env ok s p f g m i s' p' env' u :
  submit env ok s p f g m i = (u, env', Some (s', p')) -> s' = s.
Proof. unfold submit. case_match; by intros [= _ _ -> _]. Qed.

(** Every action of a card game sends at most one move, to the live session. *)
Lemma act_session a ok w u env s p : act a ok w = (u, env, Some (s, p)) -> online (envOf w) = Some s.
Proof.
  destruct a; cbn [act];
    unfold bjHit, bjStand, bjDouble, bjAction, bjSplit, hiloPlay, hiloCashout, hiloMove, casinoWarGoToWar, casinoWarSurrender,
      warAction, casinoWarToggleTieBet, drawVideoPoker, bjInsurance, toggleSideBet, threeCardToggle, uthToggle, threeCardPlay, threeCardFold, threeCardMove, uhCheck, uhBet, uhFold,
      uhGuarded, quiet, offline;
    intros H; repeat (case_match; simplify_eq/=; try done);
    try (by apply submit_session in H; subst); done.
Qed.

Lemma dealGame_session ok w o u env s p :
  dealGame (envOf w) ok (w_state (ui w)) = Some o -> o = (u, env, Some (s, p)) -> online (envOf w) = Some s.
Proof.
  intros H ->. unfold dealGame in H. destruct (online (envOf w)) as [x|]; [|done]. cbn in H.
  unfold dealCasinoWar, dealBlackjack, dealThreeCard, dealUth, quiet in H.
  repeat (case_match; simplify_eq/=; try done); try (by apply submit_session in H; subst); done.
Qed.

Lemma baccarat_session env x ok s b u env' s' p b' :
  dealBaccarat env x ok s b = Some (u, env', Some (s', p), b') -> s' = x.
Proof. unfold dealBaccarat, quiet. intros H. repeat (case_match; simplify_eq/=; try done); done. Qed.

Lemma slip_session {B K} `{SlipBet B K} env bets sending failed v v' env' s p :
  sendSlip env bets sending failed v = (v', env', Sent s p) -> liveSession env = Some s.
Proof. unfold sendSlip. intros E. repeat (case_match; simplify_eq/=; try done); done. Qed.

Lemma spin_session env v c v' env' s p :
  spinRoulette env v c v = (v', env', Sent s p) -> liveSession env = Some s.
Proof.
  unfold spinRoulette. destruct (betsToSend _ _) as [r bets]. case_match; [done|]. case_match; [done|].
  destruct (ui_isPrison v).
  - unfold spinInPrison. intros E. repeat (case_match; simplify_eq/=; try done); done.
  - destruct (sendSlip _ _ _ _ _) as [[slip e] eff] eqn:E. intros [= _ _ ->]. by apply slip_session in E.
Qed.

Lemma roll_session env v c v' env' s p : rollSicBo env v c v = (v', env', Sent s p) -> liveSession env = Some s.
Proof.
  unfold rollSicBo. destruct (betsToSend _ _) as [r bets]. case_match; [done|]. case_match; [done|]. intros E. by apply slip_session in E.
Qed.

Lemma cycle_session b env v v' env' s p :
  cycleRouletteZeroRule b env v v = (v', env', Sent s p) -> liveSession env = Some s.
Proof.
  unfold cycleRouletteZeroRule. intros E. repeat (case_match; simplify_eq/=; try done); done.
Qed.

Lemma ordered_outcome o w :
  (forall u e s p, o = (u, e, Some (s, p)) -> online (envOf w) = Some s) -> ordered w -> ordered (putOutcome o w).
Proof.
  intros Hs Ho. destruct o as [[u e] [[s p]|]]; cbn [putOutcome]; [|by auto with quiet].
  apply ordered_emit; [|by auto with quiet]. do 2 (apply started_quiet; [by auto with quiet|]).
  eapply truthy_started; [done|]. apply online_truthy. by eapply Hs.
Qed.

Lemma ordered_sent {B} t (e : Effect B) (f : Web -> Web) w :
  quietly f -> waitsFor t = None -> (forall s p, e = Sent s p -> liveSession (envOf w) = Some s) ->
  ordered w -> ordered (sent t e (f w)).
Proof.
  intros Hf Ht Hs Ho. destruct e; cbn [sent]; try by apply ordered_quiet.
  apply ordered_move; [|by rewrite Ht|by apply ordered_quiet]. apply started_quiet; [done|].
  eapply truthy_started; [done|]. rewrite <- live_truthy. by eapply Hs.
Qed.

Lemma quiet_setDraft d : quietly (upd_refs (s_autoPlayDraftRef d)).
Proof. quiet. Qed.
Lemma quiet_roulette v : quietly (put_roulette v).
Proof. quiet. Qed.
Lemma quiet_rouletteView v : quietly (put_rouletteView v).
Proof. quiet. Qed.
Lemma quiet_baccarat v : quietly (put_baccarat v).
Proof. quiet. Qed.
Lemma quiet_sicBo v : quietly (put_sicBo v).
Proof. quiet. Qed.

#[local] Hint Resolve quiet_setDraft quiet_roulette quiet_rouletteView quiet_sicBo quiet_baccarat quietly_compose : quiet.

Lemma ordered_spin w : ordered w -> ordered (pressSpin w).
Proof.
  intros Ho. unfold pressSpin. destruct (spinRoulette _ _ _ _) as [[v env] e] eqn:E. cbv zeta. set (t := SpinAnswer _).
  assert (H : ordered (sent t e (put_env env (put_roulette (ui_slip v) w)))).
  { apply (ordered_sent t e (fun w => put_env env (put_roulette (ui_slip v) w))); [|done|intros s p ->; by eapply spin_session|done].
    apply quietly_compose; auto with quiet. }
  destruct e; try done. apply ordered_start. auto with quiet.
Qed.

Lemma ordered_roll w : ordered w -> ordered (pressRoll w).
Proof.
  intros Ho. unfold pressRoll. destruct (rollSicBo _ _ _ _) as [[v env] e] eqn:E. cbv zeta. set (t := RollAnswer _).
  assert (H : ordered (sent t e (put_env env (put_sicBo v w)))).
  { apply (ordered_sent t e (fun w => put_env env (put_sicBo v w))); [|done|intros s p ->; by eapply roll_session|done].
    apply quietly_compose; auto with quiet. }
  destruct e; try done. apply ordered_start. auto with quiet.
Qed.

Lemma quiet_crapsBets f : quietly (upd_crapsBets f).
Proof. quiet. Qed.
Lemma quiet_rollFailed : quietly rollFailed.
Proof. quiet. Qed.
Lemma quiet_spinAnswer p ok : quietly (spinAnswer p ok).
Proof. intros w. unfold spinAnswer. by destruct (spinAnswered _ _ _ _). Qed.
Lemma quiet_rollAnswer b ok : quietly (rollAnswer b ok).
Proof. intros w. unfold rollAnswer. by destruct (rollAnswered _ _ _ _). Qed.
Lemma quiet_ruleAnswer ok : quietly (ruleAnswer ok).
Proof. intros w. unfold ruleAnswer. by destruct (ruleAnswered _ _ _). Qed.
Lemma quiet_online : quietly goOnline.
Proof. quiet. Qed.

#[local] Hint Resolve quiet_crapsBets quiet_rollFailed quiet_spinAnswer quiet_rollAnswer quiet_ruleAnswer quiet_online ordered_forget : quiet.

(** Every move of a roll goes to the session of that moment. *)
Lemma ordered_rollOn plan : forall w, ordered w -> ordered (rollOn plan w).
Proof.
  induction plan as [|[p| |] plan IH]; intros w Ho; cbn [rollOn]; [by auto with quiet| |by apply IH; auto with quiet..].
  destruct (currentSessionIdRef (refs w)) as [s|] eqn:E; [|by auto with quiet].
  apply ordered_move; [by apply (o_current _ Ho)|done|done].
Qed.

Lemma ordered_crapsChecked bets s w : ordered w -> ordered (crapsChecked bets s w).
Proof.
  intros Ho. unfold crapsChecked. repeat case_match; try by apply ordered_rollOn.
  apply ordered_start. auto 10 with quiet.
Qed.

Lemma ordered_craps w : ordered w -> ordered (pressCraps w).
Proof.
  intros Ho. unfold pressCraps. cbv zeta. repeat case_match; auto with quiet.
  - apply ordered_start. auto with quiet.
  - apply ordered_await; [done|]. auto with quiet.
Qed.

Lemma ordered_baccarat ok w w' : pressBaccarat ok w = Some w' -> ordered w -> ordered w'.
Proof.
  unfold pressBaccarat. intros H Ho. destruct (online (envOf w)) as [x|] eqn:Ex; [|done].
  destruct (dealBaccarat _ _ _ _ _) as [[o b]|] eqn:E; [|done]. injection H as <-.
  apply (ordered_quiet (upd_tables _)); [auto with quiet|]. apply ordered_outcome; [|done].
  intros u e s p ->. apply baccarat_session in E as ->. done.
Qed.

Lemma ordered_rest w : ordered w -> ordered (dealTheRest w).
Proof.
  intros Ho. unfold dealTheRest. destruct (dealRest _ _ _ _) as [s r]. set (w1 := upd_ui _ w).
  assert (H1 : ordered w1) by (unfold w1; auto with quiet). clearbody w1. destruct r.
  - done.
  - apply ordered_start. case_match; auto with quiet.
  - by apply ordered_await.
  - by apply (ordered_core w1).
Qed.

Lemma ordered_deal ok w : ordered w -> ordered (deal ok w).
Proof.
  intros Ho. unfold deal. cbv zeta. case_match; [done|]. case_match.
  { unfold draftWhileWaiting. destruct (truthySession w) eqn:E; [|done]. case_match; [done|]. case_match; [|done].
    pose proof (truthy_started _ _ Ho E). destruct Ho. split; try done. by intros d x [= <- <-]. }
  case_match; [by apply ordered_craps|]. case_match; [by apply ordered_spin|]. case_match; [by apply ordered_roll|]. case_match.
  - destruct (pressBaccarat ok w) eqn:E; [by eapply ordered_baccarat|by apply ordered_rest].
  - destruct (dealGame _ _ _) as [o|] eqn:E; [|by apply ordered_rest].
    apply ordered_outcome; [|done]. intros u e s p ->. by eapply dealGame_session.
Qed.

Lemma ordered_edit e w : ordered w -> ordered (edit e w).
Proof.
  intros Ho. destruct e; cbn [edit]; try (by auto with quiet); try (case_match; by auto with quiet).
  destruct (cycleRouletteZeroRule _ _ _ _) as [[v env] eff] eqn:E.
  apply (ordered_sent RuleAnswer eff (fun w => put_env env (put_rouletteView v w))); [|done|intros s p ->; by eapply cycle_session|done].
  apply quietly_compose; auto with quiet.
Qed.

(** *** Events and answers *)

Lemma quiet_rolls r : quietly (upd_refs (s_crapsChainRollLogRef r)).
Proof. quiet. Qed.
Lemma quiet_synced n : quietly (upd_refs (s_lastPlayerSyncRef n)).
Proof. quiet. Qed.
Lemma quiet_balanceTime n : quietly (upd_refs (s_lastBalanceUpdateRef n)).
Proof. quiet. Qed.
Lemma quiet_chipsRef n : quietly (upd_refs (s_currentChipsRef n)).
Proof. quiet. Qed.
Lemma quiet_wallet a b : quietly (set_wallet a b).
Proof. quiet. Qed.
Lemma quiet_credits a b : quietly (set_credits a b).
Proof. quiet. Qed.
Lemma quiet_put_meta m : quietly (put_meta m).
Proof. quiet. Qed.
Lemma quiet_put_ui u : quietly (put_ui u).
Proof. quiet. Qed.
Lemma quiet_put_timer t : quietly (put_timer t).
Proof. quiet. Qed.
Lemma quiet_put_now t : quietly (put_now t).
Proof. quiet. Qed.
Lemma quiet_awaiting b : quietly (upd_refs (s_awaitingChainResponseRef b)).
Proof. quiet. Qed.

Lemma quiet_rendered : quietly rendered.
Proof. quiet. Qed.
Lemma quiet_ranked : quietly ranked.
Proof. quiet. Qed.

#[local] Hint Resolve quiet_rendered quiet_ranked quiet_rolls quiet_synced quiet_balanceTime quiet_chipsRef quiet_wallet quiet_credits quiet_put_meta
  quiet_put_ui quiet_put_timer quiet_put_now quiet_awaiting : quiet.

(** The current session was started, and a quiet function does not change which it is. *)
Lemma current_started session w : ordered w -> isCurrent session w = true -> knownIn (out w) session.
Proof. intros Ho H%bool_decide_eq_true. by apply truthy_started. Qed.

Lemma isCurrent_quiet f session w : quietly f -> isCurrent session (f w) = isCurrent session w.
Proof. intros Hf. destruct (Hf w) as [[= H _] _]. unfold isCurrent, truthySession. by rewrite H. Qed.

Lemma ordered_handleGameStarted e w : ordered w -> ordered (handleGameStarted e w).
Proof.
  intros Ho. unfold handleGameStarted. cbv zeta. destruct (isCurrent (se_sessionId e) w) eqn:E; [|done]. cbn [negb].
  pose proof (current_started _ _ Ho E) as Hs.
  set (w1 := upd_refs (s_gameTypeRef _) _).
  assert (H1 : ordered w1 /\ knownIn (out w1) (se_sessionId e)) by (unfold w1; auto 10 with quiet).
  clearbody w1. destruct H1 as [H1 Hs1].
  apply ordered_autoPlay; repeat case_match; auto using ordered_autoMove with quiet;
    unfold autoMove; repeat case_match; auto with quiet; apply knownIn_app; auto with quiet.
Qed.

Lemma ordered_handleGameMoved e roll w : ordered w -> ordered (handleGameMoved e roll w).
Proof.
  intros Ho. unfold handleGameMoved. cbv zeta. case_match; [done|]. clear H.
  set (w1 := applySessionMeta _ _ w). assert (H1 : ordered w1) by (unfold w1; auto with quiet). clearbody w1.
  set (w2 := if bool_decide _ then _ else w1).
  assert (H2 : ordered w2) by (unfold w2; case_match; auto with quiet). clearbody w2.
  set (w3 := match me_playerBalances e with Some _ => _ | None => _ end).
  assert (H3 : ordered w3).
  { unfold w3, syncPlayer. repeat case_match; auto with quiet. apply ordered_await; auto with quiet. done. }
  clearbody w3. case_match; [apply ordered_autoMove|]; auto with quiet.
Qed.

Lemma ordered_handleGameCompleted loc e parsed w : ordered w -> ordered (handleGameCompleted loc e parsed w).
Proof.
  intros Ho. unfold handleGameCompleted. cbv zeta. case_match; [done|].
  destruct Ho. split; cbn; repeat case_match; done.
Qed.

Lemma ordered_handleCasinoError m s w : ordered w -> ordered (handleCasinoError m s w).
Proof. intros Ho. unfold handleCasinoError. cbv zeta. case_match; auto 10 with quiet. Qed.

Lemma ordered_noResponse c w : ordered w -> ordered (noResponse c w).
Proof. intros Ho. unfold noResponse. auto 10 with quiet. Qed.

Lemma ordered_onTimeout c s w : ordered w -> ordered (onTimeout c s w).
Proof.
  intros Ho. unfold onTimeout. repeat case_match; auto using ordered_noResponse, ordered_await with quiet;
    apply ordered_await; auto with quiet; done.
Qed.

Lemma ordered_recovered session s w :
  knownIn (out w) session -> ordered w -> ordered (recovered session s w).
Proof.
  intros Hs Ho. unfold recovered. cbv zeta. set (w1 := set_session _ _).
  assert (H1 : ordered w1 /\ knownIn (out w1) session).
  { split; [|done]. destruct Ho. split; try done. by intros x [= <-]. }
  clearbody w1. destruct H1 as [H1 Hs1]. set (w2 := match w_ref (ui w1) with Some _ => _ | None => _ end).
  assert (H2 : ordered w2 /\ knownIn (out w2) session) by (unfold w2; case_match; auto with quiet).
  clearbody w2. destruct H2. apply ordered_autoPlay; auto 10 with quiet.
Qed.

Lemma ordered_dropTask i t w :
  tasks w !! i = Some t -> ordered w ->
  ordered (dropTask i w) /\ (forall s, waitsFor t = Some s -> knownIn (out (dropTask i w)) s).
Proof.
  intros Hi []. split.
  - split; try done. intros t' s Hs. unfold dropTask. change (tasks (put_tasks ?x w)) with x.
    intros [H|H]%elem_of_app; apply (o_rule0 t'); try done.
    + by eapply subseteq_take.
    + by eapply subseteq_drop.
  - intros s Hs. apply (o_rule0 t); [done|]. by eapply list_elem_of_lookup_2.
Qed.

Lemma ordered_failed w : ordered w -> ordered (startFailed w).
Proof.
  intros Ho. unfold startFailed. cbv zeta. apply (ordered_quiet (at_stage _ _)); [auto with quiet|]. apply ordered_leave.
  set (w1 := match truthySession _ with Some _ => _ | None => _ end).
  assert (H1 : ordered w1) by (unfold w1; case_match; destruct Ho; by split). clearbody w1. destruct H1. by split.
Qed.

Lemma ordered_accepted type bet s w : ordered w -> ordered (startAccepted type bet s w).
Proof. intros Ho. unfold startAccepted. cbv zeta. auto with quiet. Qed.

Lemma ordered_restored session s w : knownIn (out w) session -> ordered w -> ordered (restored session s w).
Proof.
  intros Hs Ho. unfold restored. cbv zeta.
  assert (H : ordered (set_session (Some session) w)) by (destruct Ho; split; try done; by intros x [= <-]).
  case_match; auto 10 with quiet.
Qed.

Lemma ordered_loaded l w : ordered w -> ordered (loaded l w).
Proof.
  intros Ho. destruct l as [p shield double active| |]; cbn [loaded]; auto with quiet.
  set (w1 := registered true _).
  assert (H1 : ordered w1).
  { unfold w1. apply (ordered_quiet (registered true)); [auto with quiet|]. apply (ordered_quiet (put_meta _)); [auto with quiet|].
    apply (ordered_core (foundPlayer p w)); [done|]. auto with quiet. }
  clearbody w1. destruct active as [session|]; [|by auto with quiet]. destruct (session =? 0); [by auto with quiet|].
  apply ordered_await; [|by apply ordered_ask]. intros s [= ->]. right.
  unfold emit. change (out (put_out ?x w1)) with x. apply elem_of_app. right. by apply list_elem_of_singleton.
Qed.

Lemma ordered_resume t a w w' :
  resume t a w = Some w' -> (forall s, waitsFor t = Some s -> knownIn (out w) s) -> ordered w -> ordered w'.
Proof.
  intros E Ht Ho. destruct t as [| | | | | | | |[]| | | | | | | |], a; cbn [resume] in E; try done;
    repeat case_match; injection E as <-;
    auto 10 using ordered_start, ordered_launch, ordered_failed, ordered_accepted, ordered_batch, ordered_noResponse,
      ordered_crapsChecked, ordered_rollOn with quiet;
    try (by apply ordered_await; auto with quiet).
  - apply ordered_recovered; [|done]. rewrite negb_false_iff, bool_decide_eq_true in *. by apply o_current.
  - apply (ordered_quiet goOnline); [auto with quiet|]. apply ordered_restored; [by apply Ht|done].
Qed.

Lemma ordered_handle loc e w w' : handle loc e w = Some w' -> ordered w -> ordered w'.
Proof.
  intros E Ho. destruct e; cbn [handle] in E.
  5: { destruct (tasks w !! i) eqn:Hi; [|done]. destruct (ordered_dropTask i t w Hi Ho). by eapply ordered_resume. }
  all: repeat case_match; try done; injection E as <-;
    auto using ordered_handleGameStarted, ordered_handleGameMoved, ordered_handleGameCompleted, ordered_handleCasinoError,
      ordered_start, ordered_deal, ordered_edit, ordered_loaded with quiet.
  - apply ordered_onTimeout. auto with quiet.
  - apply ordered_outcome; [|done]. intros u env s p. apply act_session.
  - unfold setBetAmount. repeat case_match; auto with quiet.
Qed.

Lemma ordered_reachable loc w w' : rtc (step loc) w w' -> ordered w -> ordered w'.
Proof. induction 1 as [|w w1 w2 [e ? H] _ IH]; [done|]. intros Ho. by eapply IH, ordered_handle. Qed.

(** A state in which nothing was sent and no game is on. *)
Record idle (w : Web) : Prop := {
  i_ref : currentSessionIdRef (refs w) = None;
  i_plan : autoPlayPlanRef (refs w) = None;
  i_tasks : tasks w = [];
  i_out : out w = []
}.

Lemma idle_ordered w : idle w -> ordered w.
Proof.
  intros []. split; rewrite ?i_ref0, ?i_plan0, ?i_tasks0, ?i_out0; try done.
  - set_solver.
  - by intros [] ? ? ? ?.
  - intros s (? & ? & ?). set_solver.
  - constructor.
Qed.

(** C30. From a site on which no game is on: however the player's presses, the chain's events and the node's answers
    follow each other, spins, rolls of craps and the loading of the page included,
    the site sends no move to a session that it has not started before, unless
    the player's record named the session as active when the page was loaded and
    the node was asked for it; and it starts no session twice. *)
Theorem moves_follow_starts loc w w' :
  idle w -> rtc (step loc) w w' ->
  (forall l1 s p l2, out w' = l1 ++ SentMove s p :: l2 -> startedIn l1 s \/ AskedActive s ∈ l1)
  /\ NoDup (omap startId (out w')).
Proof. intros Hw%idle_ordered Hr. destruct (ordered_reachable _ _ _ Hr Hw). by split. Qed.

(** ** The books *)

(** The winnings over all games. *)
Definition total (m : gmap string Z) : Z := map_fold (fun _ v s => v + s) 0 m.

Lemma total_insert k v m : m !! k = None -> total (<[k := v]> m) = v + total m.
Proof. intros H. unfold total. apply map_fold_insert_L; [intros; lia|done]. Qed.

Lemma total_add k v m : total (<[k := default 0 (m !! k) + v]> m) = total m + v.
Proof.
  destruct (m !! k) as [x|] eqn:E; cbn.
  - rewrite <- (insert_delete_id m k x) at 2 by done. rewrite <- (insert_delete_eq m k (x + v)).
    rewrite !total_insert by apply lookup_delete_eq. lia.
  - rewrite total_insert by done. lia.
Qed.

(** The last entry of the history is the sum over the games, one entry per
    game up to the hundred kept. *)
Record balanced (w : Web) : Prop := {
  bl_sum : default 0 (last (pnlHistory (stats w))) = total (pnlByGame (stats w));
  bl_bound : (length (pnlHistory (stats w)) <= 100)%nat
}.

Lemma balanced_books w w' : books w' = books w -> balanced w -> balanced w'.
Proof. unfold books. intros [= H1 H2 H3] []. split; rewrite ?H1, ?H2; done. Qed.

Definition keeps (f : Web -> Web) : Prop := forall w, books (f w) = books w.

Lemma quietly_keeps f : quietly f -> keeps f.
Proof. intros Hf w. apply Hf. Qed.


Create Rewrite HintDb books.

(** Unfold the outer function, rewrite with the lemmas of those inside. *)
Ltac kept f := intros; unfold f; cbv zeta; repeat case_match; autorewrite with books; reflexivity.

Lemma books_quiet f w : quietly f -> books (f w) = books w.
Proof. intros Hf. apply Hf. Qed.

Lemma books_parse b t w : books (parseGameState b t w) = books w.
Proof. apply books_quiet, quiet_parse. Qed.
Lemma books_found p w : books (foundPlayer p w) = books w.
Proof. apply books_quiet, quiet_found. Qed.
Lemma books_count w : books (countMove w) = books w.
Proof. apply books_quiet, quiet_count. Qed.
Lemma books_played d w : books (played d w) = books w.
Proof. apply books_quiet, quiet_played. Qed.

Lemma books_ui f w : books (upd_ui f w) = books w.
Proof. done. Qed.
Lemma books_refs f w : books (upd_refs f w) = books w.
Proof. done. Qed.
Lemma books_tables f w : books (upd_tables f w) = books w.
Proof. done. Qed.
Lemma books_session s w : books (set_session s w) = books w.
Proof. done. Qed.
Lemma books_emit o w : books (emit o w) = books w.
Proof. done. Qed.
Lemma books_await t w : books (await t w) = books w.
Proof. done. Qed.
Lemma books_pending b n w : books (set_pending b n w) = books w.
Proof. done. Qed.
Lemma books_isPending b w : books (set_isPending b w) = books w.
Proof. done. Qed.
Lemma books_say m w : books (say m w) = books w.
Proof. done. Qed.
Lemma books_say_both m w : books (say_both m w) = books w.
Proof. done. Qed.
Lemma books_stage s m w : books (at_stage s m w) = books w.
Proof. done. Qed.
Lemma books_move s p t w : books (sendMove s p t w) = books w.
Proof. done. Qed.
Lemma books_env e w : books (put_env e w) = books w.
Proof. done. Qed.
Lemma books_meta s n w : books (applySessionMeta s n w) = books w.
Proof. done. Qed.
Lemma books_balances b w : books (applyBalances b w) = books w.
Proof. apply books_quiet, quiet_balances. Qed.
Lemma books_credits a b w : books (set_credits a b w) = books w.
Proof. done. Qed.
Lemma books_put_ui u w : books (put_ui u w) = books w.
Proof. done. Qed.
Lemma books_clear w : books (clearChainResponseTimeout w) = books w.
Proof. done. Qed.

#[local] Hint Rewrite books_parse books_found books_count books_played books_ui books_refs books_tables books_session
  books_emit books_await books_pending books_isPending books_say books_say_both books_stage books_move books_env books_meta
  books_balances books_credits books_put_ui books_clear : books.

Lemma books_batch d s w : books (sendBatch d s w) = books w.
Proof. kept sendBatch. Qed.
#[local] Hint Rewrite books_batch : books.

Lemma books_play d s w : books (play d s w) = books w.
Proof. kept play. Qed.
#[local] Hint Rewrite books_play : books.

Lemma books_autoPlay s t w : books (runAutoPlay s t w) = books w.
Proof. kept runAutoPlay. Qed.
Lemma books_autoMove p a f w : books (autoMove p a f w) = books w.
Proof. kept autoMove. Qed.
Lemma books_start t w : books (startGame t w) = books w.
Proof. kept startGame. Qed.
Lemma books_launch t b w : books (launch t b w) = books w.
Proof. kept launch. Qed.
Lemma books_failed w : books (startFailed w) = books w.
Proof. kept startFailed. Qed.
Lemma books_sync w : books (syncPlayer w) = books w.
Proof. kept syncPlayer. Qed.
Lemma books_noResponse c w : books (noResponse c w) = books w.
Proof. done. Qed.
Lemma books_sent {B} t (e : Effect B) w : books (sent t e w) = books w.
Proof. kept @sent. Qed.
Lemma books_outcome o w : books (putOutcome o w) = books w.
Proof. kept putOutcome. Qed.
#[local] Hint Rewrite books_autoPlay books_autoMove books_start books_launch books_failed books_sync books_noResponse
  @books_sent books_outcome : books.

Lemma books_started e w : books (handleGameStarted e w) = books w.
Proof. kept handleGameStarted. Qed.
Lemma books_moved e r w : books (handleGameMoved e r w) = books w.
Proof. kept handleGameMoved. Qed.
Lemma books_error m s w : books (handleCasinoError m s w) = books w.
Proof. kept handleCasinoError. Qed.
Lemma books_timeout c s w : books (onTimeout c s w) = books w.
Proof. kept onTimeout. Qed.
Lemma books_rendered w : books (rendered w) = books w.
Proof. apply quiet_rendered. Qed.
Lemma books_recovered s c w : books (recovered s c w) = books w.
Proof. kept recovered. Qed.
#[local] Hint Rewrite books_started books_moved books_error books_timeout books_recovered books_rendered : books.

Lemma books_crapsBets f w : books (upd_crapsBets f w) = books w.
Proof. done. Qed.
Lemma books_rollFailed w : books (rollFailed w) = books w.
Proof. done. Qed.
Lemma books_rollOn plan w : books (rollOn plan w) = books w.
Proof. revert w. induction plan as [|[] plan IH]; intros w; cbn [rollOn]; rewrite ?IH; try done. by case_match. Qed.
#[local] Hint Rewrite books_crapsBets books_rollFailed books_rollOn : books.
Lemma books_crapsChecked bets s w : books (crapsChecked bets s w) = books w.
Proof. kept crapsChecked. Qed.
Lemma books_spinAnswer p ok w : books (spinAnswer p ok w) = books w.
Proof. apply books_quiet, quiet_spinAnswer. Qed.
Lemma books_rollAnswer b ok w : books (rollAnswer b ok w) = books w.
Proof. apply books_quiet, quiet_rollAnswer. Qed.
Lemma books_ruleAnswer ok w : books (ruleAnswer ok w) = books w.
Proof. apply books_quiet, quiet_ruleAnswer. Qed.
Lemma books_online w : books (goOnline w) = books w.
Proof. done. Qed.
Lemma books_restored s c w : books (restored s c w) = books w.
Proof. kept restored. Qed.
Lemma books_loaded l w : books (loaded l w) = books w.
Proof. unfold loaded. cbv zeta. repeat case_match; done. Qed.
#[local] Hint Rewrite books_crapsChecked books_spinAnswer books_rollAnswer books_ruleAnswer books_online books_restored
  books_loaded : books.

Lemma books_resume t a w w' : resume t a w = Some w' -> books w' = books w.
Proof.
  intros E. destruct t as [| | | | | | | |[]| | | | | | | |], a; cbn [resume] in E; try done; repeat case_match; injection E as <-;
    autorewrite with books; reflexivity.
Qed.

Lemma books_spin w : books (pressSpin w) = books w.
Proof. kept pressSpin. Qed.
Lemma books_roll w : books (pressRoll w) = books w.
Proof. kept pressRoll. Qed.
Lemma books_craps w : books (pressCraps w) = books w.
Proof. kept pressCraps. Qed.
Lemma books_baccarat ok w w' : pressBaccarat ok w = Some w' -> books w' = books w.
Proof. unfold pressBaccarat. intros H. repeat case_match; try done. injection H as <-. by autorewrite with books. Qed.
Lemma books_rest w : books (dealTheRest w) = books w.
Proof. kept dealTheRest. Qed.
Lemma books_waiting w : books (draftWhileWaiting w) = books w.
Proof. kept draftWhileWaiting. Qed.
#[local] Hint Rewrite books_spin books_roll books_craps books_rest books_waiting : books.

Lemma books_deal ok w : books (deal ok w) = books w.
Proof.
  unfold deal. cbv zeta. repeat case_match; autorewrite with books; try done.
  destruct (pressBaccarat ok w) eqn:E; cbn; [by eapply books_baccarat|by autorewrite with books].
Qed.
Lemma books_edit e w : books (edit e w) = books w.
Proof. kept edit. Qed.
Lemma books_setBet n w : books (setBetAmount n w) = books w.
Proof. kept setBetAmount. Qed.
#[local] Hint Rewrite books_deal books_edit books_setBet : books.

(** Only the end of a game writes in the books. *)
Lemma books_handle loc e w w' :
  handle loc e w = Some w' -> (forall c p, e <> Completed c p) -> books w' = books w.
Proof.
  intros E Hc. destruct e; cbn [handle] in E; try (by exfalso; eapply Hc);
    repeat case_match; try done; try (injection E as <-; by autorewrite with books).
  by apply books_resume in E as ->.
Qed.

Lemma push_graph_last {A} (l : list A) x : last (push_graph l x) = Some x.
Proof.
  unfold push_graph, slice, slice_index, MAX_GRAPH_POINTS. rewrite len_app. pose proof (len_nonneg l).
  change (len [x]) with 1. rewrite take_ge; [|unfold len in *; rewrite length_drop, length_app; cbn; repeat case_match; lia].
  rewrite drop_app_le; [by rewrite last_snoc|]. unfold len in *. repeat case_match; lia.
Qed.

(** The end of a game writes the books once. *)
Lemma completed_books loc e parsed w :
  isCurrent (ce_sessionId e) w = true ->
  exists type message details net next s d h b,
    stats (handleGameCompleted loc e parsed w)
    = completedStats loc type message details net next s d h b (stats w).
Proof.
  intros E. unfold handleGameCompleted. rewrite E. cbv zeta. cbn [negb]. by destruct (ce_playerBalances e); do 9 eexists.
Qed.

Lemma balanced_completed loc e parsed w : balanced w -> balanced (handleGameCompleted loc e parsed w).
Proof.
  intros Hb. destruct (isCurrent (ce_sessionId e) w) eqn:E; [|by unfold handleGameCompleted; rewrite E].
  destruct (completed_books loc e parsed w E) as (type & m & ds & net & next & s & d & h & b & H). destruct Hb.
  split; rewrite H; cbn.
  - by rewrite push_graph_last, total_add, <- bl_sum0.
  - pose proof (push_graph_bounded (pnlHistory (stats w)) (default 0 (last (pnlHistory (stats w))) + net)).
    unfold len, MAX_GRAPH_POINTS in *. lia.
Qed.

Lemma balanced_reachable loc w w' : rtc (step loc) w w' -> balanced w -> balanced w'.
Proof.
  induction 1 as [|w w1 w2 [e ? H] _ IH]; [done|]. intros Hb. apply IH.
  destruct e; try (eapply balanced_books; [|done]; by eapply books_handle).
  cbn [handle] in H. case_match; [|done]. injection H as <-. by apply balanced_completed.
Qed.

(** C35. Whatever happens to a player without history, the winnings that the
    site shows over all games are the last entry of their history, which never
    has more than a hundred entries. *)
Theorem books_agree loc w w' :
  pnlByGame (stats w) = ∅ -> pnlHistory (stats w) = [] -> rtc (step loc) w w' ->
  default 0 (last (pnlHistory (stats w'))) = total (pnlByGame (stats w'))
  /\ (length (pnlHistory (stats w')) <= 100)%nat.
Proof.
  intros H1 H2 Hr. destruct (balanced_reachable _ _ _ Hr) as [? ?]; [|done].
  split; [by rewrite H1, H2|rewrite H2; cbn; lia].
Qed.

(** ** The end of a game *)

(** What the player has after the game, of the event. *)
Definition finalChips (w : Web) (e : CasinoGameCompletedEvent) : Z :=
  match ce_playerBalances e with Some b => shownChips w b | None => ce_finalChips e end.

(** No session, nothing awaited, nothing pending. *)
Record settled (w : Web) : Prop := {
  st_session : currentSessionIdRef (refs w) = None;
  st_state : currentSessionId (refs w) = None;
  st_waiting : isWaiting w = false;
  st_moves : pendingMoveCountRef (refs w) = 0;
  st_awaiting : awaitingChainResponseRef (refs w) = false;
  st_timer : timer w = None
}.

Lemma netPnL_change payout interim wager next c : c <> next -> netPnL payout interim wager next (Some c) = next - c.
Proof. intros H. unfold netPnL. replace (next - c =? 0) with false by (symmetry; apply Z.eqb_neq; lia). done. Qed.

(** When the game of the current session ends, the player has the chips of
    the event; what is shown as won is the change of the chips since the start,
    if that is known and not nothing; the game shows its result, without a
    session and with nothing pending, and the same event again changes nothing. *)
Theorem completed_settles loc e parsed w :
  isCurrent (ce_sessionId e) w = true ->
  let w' := handleGameCompleted loc e parsed w in
  let next := finalChips w e in
  chips (stats w') = next /\ currentChipsRef (refs w') = next
  /\ (forall c, sessionStartChipsRef (refs w) !! ce_sessionId e = Some c -> c <> next ->
      g_lastResult (meta w') = next - c)
  /\ length (history (stats w')) = S (length (history (stats w)))
  /\ u_stage (common (w_state (ui w'))) = "RESULT" /\ u_sessionWager (common (w_state (ui w'))) = 0
  /\ sessionStartChipsRef (refs w') = base.delete (ce_sessionId e) (sessionStartChipsRef (refs w))
  /\ settled w' /\ out w' = out w /\ tasks w' = tasks w
  /\ handleGameCompleted loc e parsed w' = w'.
Proof.
  intros E. cbv zeta. assert (Hset : settled (handleGameCompleted loc e parsed w)).
  { unfold handleGameCompleted. rewrite E. cbv zeta. cbn [negb]. by destruct (ce_playerBalances e). }
  split_and!; [..|exact Hset| | |].
  10: { set (w' := handleGameCompleted loc e parsed w) in *. clearbody w'.
    unfold handleGameCompleted, isCurrent, truthySession. by rewrite (st_session _ Hset). }
  all: unfold handleGameCompleted, finalChips; rewrite E; cbv zeta; cbn [negb]; destruct (ce_playerBalances e); try done.
  all: try (cbn; by rewrite length_app, Nat.add_1_r).
  all: intros c Hc Hn; cbn; rewrite Hc; by apply netPnL_change.
Qed.

(** ** A start that nobody answers *)

(** What waiting for an answer leaves: nothing awaited, and no timer. *)
Definition answered (w : Web) : Prop := awaitingChainResponseRef (refs w) = false /\ timer w = None.

Lemma answered_play d s w : answered (play d s w) <-> answered w.
Proof. unfold play, sendBatch. repeat case_match; done. Qed.

Lemma answered_autoPlay s t w : answered (runAutoPlay s t w) <-> answered w.
Proof. unfold runAutoPlay. repeat case_match; rewrite ?answered_play; done. Qed.

Lemma session_play d s w : currentSessionIdRef (refs (play d s w)) = currentSessionIdRef (refs w).
Proof. unfold play, sendBatch. repeat case_match; done. Qed.

Lemma session_autoPlay s t w : currentSessionIdRef (refs (runAutoPlay s t w)) = currentSessionIdRef (refs w).
Proof. unfold runAutoPlay. repeat case_match; rewrite ?session_play; done. Qed.

Lemma session_parse b t w : currentSessionIdRef (refs (parseGameState b t w)) = currentSessionIdRef (refs w).
Proof. unfold parseGameState. cbv zeta. by case_match. Qed.

Lemma recovered_answered session s w :
  answered (recovered session s w) /\ currentSessionIdRef (refs (recovered session s w)) = Some session.
Proof.
  unfold recovered. cbv zeta. rewrite answered_autoPlay, session_autoPlay. split; [done|].
  cbn. rewrite session_parse. by case_match.
Qed.

Lemma noResponse_open c w :
  timer w = None ->
  let w' := noResponse c w in
  answered w' /\ currentSessionIdRef (refs w') = None /\ isWaiting w' = false /\ u_stage (common (w_state (ui w'))) = "BETTING".
Proof. done. Qed.

Lemma run_cons loc e l w w1 : handle loc e w = Some w1 -> run loc (e :: l) w = run loc l w1.
Proof. unfold run. cbn [foldl]. by intros ->. Qed.

(** The state in which the query of the timer is out. *)
Definition silent (i : nat) (ms : Z) (loc : Z -> string) (w : Web) : Web :=
  run loc [Answered i Accepted; Rendered; Passed ms; TimedOut] w.

(** The answer to a start is awaited, with the timer of now. *)
Record awaited (session due : Z) (rest : list Task) (w : Web) : Prop := {
  aw_tasks : tasks w = rest;
  aw_session : currentSessionIdRef (refs w) = Some session;
  aw_awaiting : awaitingChainResponseRef (refs w) = true;
  aw_service : cf_service (conf w) = true;
  aw_timer : timer w = Some {| tm_context := "START GAME"; tm_session := Some session; tm_due := due |};
  aw_stats : statsSet w = false
}.

Lemma accepted_awaited type bet session w :
  currentSessionIdRef (refs w) = Some session -> cf_service (conf w) = true -> statsSet w = false ->
  awaited session (now w + CHAIN_RESPONSE_TIMEOUT_MS) (tasks w) (startAccepted type bet session w).
Proof. by split. Qed.

Lemma rendered_awaited session due rest w : awaited session due rest w -> awaited session due rest (rendered w).
Proof. intros []. unfold rendered. rewrite aw_stats0, andb_false_r. by split. Qed.

Lemma passed_awaited session due rest ms w : awaited session due rest w -> awaited session due rest (put_now (now w + ms) w).
Proof. by intros []. Qed.

Lemma due_queries loc session due rest w :
  awaited session due rest w -> due <= now w ->
  exists w1, handle loc TimedOut w = Some w1 /\ tasks w1 = rest ++ [TimeoutQuery "START GAME" session]
    /\ currentSessionIdRef (refs w1) = Some session /\ awaitingChainResponseRef (refs w1) = true /\ timer w1 = None.
Proof.
  intros [] Hd. cbn [handle]. rewrite aw_timer0. cbn [tm_due tm_context tm_session]. rewrite (proj2 (Z.leb_le _ _) Hd).
  eexists. split; [done|]. unfold onTimeout. cbn. rewrite aw_awaiting0, aw_session0, aw_service0. cbn.
  rewrite bool_decide_true by done. cbn. by rewrite aw_tasks0.
Qed.

Lemma silent_queries loc i type bet session ms w :
  tasks w !! i = Some (StartSubmit type bet session) -> currentSessionIdRef (refs w) = Some session ->
  cf_service (conf w) = true -> statsSet w = false -> CHAIN_RESPONSE_TIMEOUT_MS <= ms ->
  let w1 := silent i ms loc w in
  tasks w1 = (take i (tasks w) ++ drop (S i) (tasks w)) ++ [TimeoutQuery "START GAME" session]
  /\ currentSessionIdRef (refs w1) = Some session /\ awaitingChainResponseRef (refs w1) = true /\ timer w1 = None.
Proof.
  intros Hi Hc Hs Hst Hms. cbv zeta. unfold silent, CHAIN_RESPONSE_TIMEOUT_MS in *.
  assert (H1 := accepted_awaited type bet session (dropTask i w) Hc Hs Hst).
  assert (E1 : handle loc (Answered i Accepted) w = Some (startAccepted type bet session (dropTask i w))) by (cbn [handle]; by rewrite Hi).
  assert (Hn : now (startAccepted type bet session (dropTask i w)) = now w) by done.
  rewrite (run_cons _ _ _ _ _ E1). clear E1. set (w2 := startAccepted _ _ _ _) in *. clearbody w2.
  rewrite (run_cons loc Rendered _ w2 (rendered w2) eq_refl). apply rendered_awaited in H1.
  assert (Hn' : now (rendered w2) = now w) by (rewrite <- Hn; unfold rendered; by case_match).
  set (w3 := rendered w2) in *. clearbody w3.
  assert (E3 : handle loc (Passed ms) w3 = Some (put_now (now w3 + ms) w3)) by (cbn [handle]; by replace (0 <=? ms) with true by lia).
  rewrite (run_cons _ _ _ _ _ E3). apply (passed_awaited _ _ _ ms) in H1.
  destruct (due_queries loc _ _ _ _ H1) as (w4 & E4 & ?); [cbn; unfold CHAIN_RESPONSE_TIMEOUT_MS; lia|].
  by rewrite (run_cons _ _ _ _ _ E4).
Qed.

(** C32. A start that the node took and that is followed by nothing but silence
    (a render without new numbers of the player apart) is over when the timer's question is answered: either the session is on the
    chain and goes on, or the bets are open again without a session. *)
Theorem no_answer_recovers loc i type bet session ms a w :
  tasks w !! i = Some (StartSubmit type bet session) -> currentSessionIdRef (refs w) = Some session ->
  cf_service (conf w) = true -> statsSet w = false -> CHAIN_RESPONSE_TIMEOUT_MS <= ms ->
  a = Failed \/ (exists s, a = GotSession s) ->
  let w1 := silent i ms loc w in
  let w' := run loc [Answered (length (tasks w) - 1) a] w1 in
  answered w'
  /\ ((exists s, a = GotSession (Some s) /\ cs_isComplete s = false) /\ currentSessionIdRef (refs w') = Some session
      \/ currentSessionIdRef (refs w') = None /\ isWaiting w' = false /\ u_stage (common (w_state (ui w'))) = "BETTING").
Proof.
  intros Hi Hc Hs Hst Hms Ha. destruct (silent_queries loc i type bet session ms w Hi Hc Hs Hst Hms) as (H1 & H2 & H3 & H4).
  cbv zeta. set (w1 := silent i ms loc w) in *. clearbody w1.
  pose proof (lookup_lt_Some _ _ _ Hi) as Hlt.
  assert (Hj : tasks w1 !! (length (tasks w) - 1)%nat = Some (TimeoutQuery "START GAME" session)).
  { rewrite H1, lookup_app_r; rewrite length_app, length_take, length_drop; [|lia].
    by replace (length (tasks w) - 1 - (i `min` length (tasks w) + (length (tasks w) - S i)))%nat with 0%nat by lia. }
  set (j := (length (tasks w) - 1)%nat) in *. clearbody j. set (w2 := dropTask j w1).
  assert (E : handle loc (Answered j a) w1 = resume (TimeoutQuery "START GAME" session) a w2) by (cbn [handle]; by rewrite Hj).
  assert (T2 : timer w2 = None) by done. assert (C2 : currentSessionIdRef (refs w2) = Some session) by done.
  assert (A2 : awaitingChainResponseRef (refs w2) = true) by done. clearbody w2.
  destruct Ha as [->|[s ->]]; cbn [resume] in E; rewrite ?A2, ?C2, ?bool_decide_true in E by done; cbn [negb] in E;
    rewrite (run_cons _ _ _ _ _ E); cbn [run foldl].
  - destruct (noResponse_open "START GAME" w2 T2) as (? & ? & ? & ?). by auto.
  - destruct s as [s|]; [destruct (cs_isComplete s) eqn:Es|].
    2: { destruct (recovered_answered session s w2). eauto 6. }
    all: destruct (noResponse_open "START GAME" w2 T2) as (? & ? & ? & ?); by auto.
Qed.

(** ** The first play *)

(** Online, nothing going on. *)
Record ready (w : Web) : Prop := {
  rd_chain : cf_isOnChain (conf w) = true;
  rd_service : cf_service (conf w) = true;
  rd_session : currentSessionIdRef (refs w) = None;
  rd_tasks : tasks w = [];
  rd_waiting : isWaiting w = false;
  rd_awaiting : awaitingChainResponseRef (refs w) = false
}.

(** The chips cover what a press may place. *)
Record affords (w : Web) : Prop := {
  af_stage : u_stage (common (w_state (ui w))) <> "PLAYING";
  af_bet : u_bet (common (w_state (ui w))) <= chips (stats w);
  af_roulette : totalAmount (b_last (tb_roulette (tables w))) <= chips (stats w);
  af_sicBo : totalAmount (b_last (tb_sicBo (tables w))) <= chips (stats w)
}.

(** The state before the new game, with the draft to be played. *)
Record drafted (d : AutoPlayDraft) (w w1 : Web) : Prop := {
  df_draft : autoPlayDraftRef (refs w1) = Some d;
  df_conf : conf w1 = conf w;
  df_out : out w1 = out w;
  df_tasks : tasks w1 = tasks w;
  df_next : nextSession w1 = nextSession w
}.

Lemma betsToSend_some {B K} `{SlipBet B K} (b : Bets B) w bets :
  bets = (if 0 <? len (b_bets b) then b_bets b else b_last b) -> 0 < len bets ->
  exists r, betsToSend (slipOf b w) false = (r, bets).
Proof.
  intros E Hb. unfold betsToSend. cbn. pose proof (len_nonneg (b_bets b)).
  destruct (0 <? len (b_bets b)) eqn:Ep.
  - replace (len (b_bets b) =? 0) with false by lia. cbn. eexists. by subst.
  - replace (len (b_bets b) =? 0) with true by lia. subst. rewrite (proj2 (Z.ltb_lt _ _) Hb). cbn. by eexists.
Qed.

Lemma sendSlip_drafts {B K} `{SlipBet B K} w bets sending failed v :
  ready w -> sendSlip (envOf w) bets sending failed v = (with_message v "STARTING NEW SESSION...", envOf w, Drafted bets).
Proof.
  intros []. unfold sendSlip. replace (isPending (envOf w)) with false by done. unfold liveSession. cbn.
  by rewrite rd_chain0, rd_service0, rd_session0.
Qed.

Ltac pick_game H :=
  cbn beta zeta in H; repeat rewrite bool_decide_false in H by done; rewrite bool_decide_true in H by done.

Lemma spin_drafts w bets rule :
  ready w -> affords w -> u_type (common (w_state (ui w))) = "ROULETTE" -> rebetDraft w = Some (DraftRoulette bets rule) ->
  exists w1, pressSpin w = startGame "ROULETTE" w1 /\ drafted (DraftRoulette bets rule) w w1.
Proof.
  intros Hr Ha Ht Hd. unfold rebetDraft in Hd. rewrite Ht in Hd. pick_game Hd. destruct (t_isPrison _) eqn:Ep; [done|].
  match type of Hd with (if ?b then _ else _) = _ => destruct b eqn:Eb; [|done] end. injection Hd as <- <-.
  destruct (betsToSend_some (tb_roulette (tables w)) w _ eq_refl ltac:(lia)) as (r & Hs).
  unfold pressSpin, spinRoulette. cbn [rouletteView ui_slip ui_isPrison ui_zeroRule]. rewrite Ep, Hs.
  replace (len _ =? 0) with false by lia. cbn [negb andb].
  replace (chips (stats w) <? _) with false by (symmetry; apply Z.ltb_ge, Ha). rewrite andb_false_r.
  rewrite sendSlip_drafts by done. eexists. split; [done|]. by split.
Qed.

Lemma roll_drafts w bets :
  ready w -> affords w -> u_type (common (w_state (ui w))) = "SIC_BO" -> rebetDraft w = Some (DraftSicBo bets) ->
  exists w1, pressRoll w = startGame "SIC_BO" w1 /\ drafted (DraftSicBo bets) w w1.
Proof.
  intros Hr Ha Ht Hd. unfold rebetDraft in Hd. rewrite Ht in Hd. pick_game Hd.
  match type of Hd with (if ?b then _ else _) = _ => destruct b eqn:Eb; [|done] end. injection Hd as <-.
  destruct (betsToSend_some (tb_sicBo (tables w)) w _ eq_refl ltac:(lia)) as (r & Hs).
  unfold pressRoll, rollSicBo. rewrite Hs.
  replace (len _ =? 0) with false by lia. cbn [negb andb].
  replace (chips (stats w) <? _) with false by (symmetry; apply Z.ltb_ge, Ha). rewrite andb_false_r.
  rewrite sendSlip_drafts by done. eexists. split; [done|]. by split.
Qed.

Lemma baccarat_drafts w sel side main :
  ready w -> affords w -> u_type (common (w_state (ui w))) = "BACCARAT" -> rebetDraft w = Some (DraftBaccarat sel side main) ->
  exists w1, dealTheRest w = startGame "BACCARAT" w1 /\ drafted (DraftBaccarat sel side main) w w1.
Proof.
  intros [] [] Ht Hd. unfold rebetDraft in Hd. rewrite Ht in Hd. pick_game Hd. injection Hd as <- <- <-.
  unfold dealTheRest, dealRest, in_stage. rewrite bool_decide_false by done.
  replace (chips (stats w) <? _) with false by lia. unfold liveSession. cbn [envOf isOnChain hasService currentSession].
  rewrite rd_chain0, rd_service0, rd_session0. cbn [andb].
  rewrite Ht, bool_decide_true by done. eexists. split; [done|]. by split.
Qed.

(** The numbers of staged craps bets are valid. *)
Definition validTarget (b : UiCrapsBet) : bool :=
  CrapsSlip.isValidCrapsTarget (Craps.wc_type (ub_bet b)) (Craps.wc_target (ub_bet b)).

Definition validDraft (d : AutoPlayDraft) : bool := match d with DraftCraps bets => forallb validTarget bets | _ => true end.

Lemma craps_drafts w bets :
  ready w -> u_type (common (w_state (ui w))) = "CRAPS" -> rebetDraft w = Some (DraftCraps bets) ->
  forallb validTarget bets = true ->
  exists w1, pressCraps w = startGame "CRAPS" w1 /\ drafted (DraftCraps bets) w w1.
Proof.
  intros [] Ht Hd Hv. unfold rebetDraft in Hd. rewrite Ht in Hd. pick_game Hd.
  match type of Hd with (if ?b then _ else _) = _ => destruct b eqn:Eb; [|done] end. injection Hd as <-.
  unfold pressCraps. cbv zeta. set (staged := List.filter ub_local _) in *.
  destruct (List.find _ staged) as [x|] eqn:Ef.
  { apply List.find_some in Ef as [Hin Hx]. rewrite forallb_forall in Hv. specialize (Hv x Hin). unfold validTarget in Hv.
    by rewrite Hv in Hx. }
  replace (len staged =? 0) with false by lia. cbn [andb]. rewrite rd_chain0, rd_service0.
  replace (truthySession w) with (@None Z) by (unfold truthySession; by rewrite rd_session0).
  rewrite bool_decide_false by (by intros []). eexists. split; [done|]. by split.
Qed.

Lemma rebetDraft_type w d : rebetDraft w = Some d -> u_type (common (w_state (ui w))) = draftType d.
Proof.
  unfold rebetDraft. intros H. repeat (case_bool_decide; [|]); try done; repeat case_match; simplify_eq/=; done.
Qed.

Lemma deal_drafts ok w d :
  ready w -> affords w -> rebetDraft w = Some d -> validDraft d = true ->
  exists w1, deal ok w = startGame (draftType d) w1 /\ drafted d w w1.
Proof.
  intros Hr Ha Hd Ht. pose proof (rebetDraft_type _ _ Hd) as Hty. unfold deal. cbv zeta. rewrite Hty.
  rewrite (rd_awaiting _ Hr), andb_false_r. destruct d; try done; cbn [draftType] in *;
    repeat rewrite (bool_decide_false (_ = _)) by done; rewrite (bool_decide_true (_ = _)) by done.
  - replace (pressBaccarat ok w) with (@None Web); [by apply baccarat_drafts|].
    unfold pressBaccarat. replace (online (envOf w)) with (@None Z); [done|].
    unfold online, liveSession. cbn. rewrite (rd_session _ Hr). by case_match.
  - by apply craps_drafts.
  - by apply spin_drafts.
  - by apply roll_drafts.
Qed.

(** The start is out, with the game to be played. *)
Record planned (d : AutoPlayDraft) (s : Z) (o : list Sending) (w : Web) : Prop := {
  pl_session : currentSessionIdRef (refs w) = Some s;
  pl_plan : autoPlayPlanRef (refs w) = Some (d, s);
  pl_out : out w = o ++ [SentStart (GAME_TYPE_MAP (draftType d)) 0 s];
  pl_service : cf_isOnChain (conf w) && cf_service (conf w) = true;
  pl_tasks : exists b, tasks w = [StartSubmit (draftType d) b s]
}.

(** The draft waits for a start that is on its way with the given task. *)
Record starting (d : AutoPlayDraft) (s : Z) (o : list Sending) (t : Task) (w : Web) : Prop := {
  sg_draft : autoPlayDraftRef (refs w) = Some d;
  sg_conf : cf_isOnChain (conf w) && cf_service (conf w) = true;
  sg_out : out w = o;
  sg_tasks : tasks w = [t];
  sg_next : nextSession w = s
}.

Lemma startGame_starting d w w1 :
  ready w -> drafted d w w1 ->
  exists b, starting d (nextSession w) (out w) (StartProbe (draftType d) b) (startGame (draftType d) w1).
Proof.
  intros [] []. exists (u_bet (common (w_state (ui w1)))).
  assert (E : cf_isOnChain (conf w1) && cf_service (conf w1) = true) by (by rewrite df_conf0, rd_chain0, rd_service0).
  unfold startGame. cbv zeta.
  case_bool_decide; cbn; rewrite df_draft0, bool_decide_true by done; cbn; rewrite E; split; cbn;
    rewrite ?df_tasks0, ?rd_tasks0; done.
Qed.

Lemma dropTask_starting d s o t w : starting d s o t w -> tasks (dropTask 0 w) = [].
Proof. intros []. cbn. by rewrite sg_tasks0. Qed.

Lemma probe_starting loc d s o type b latest first w :
  starting d s o (StartProbe type b) w ->
  exists w', handle loc (Answered 0 (Probed (Ok true) latest first)) w = Some w' /\ starting d s o (StartLookup type b) w'.
Proof.
  intros Hs. pose proof (dropTask_starting _ _ _ _ _ Hs). destruct Hs. cbn [handle]. rewrite sg_tasks0. cbn [lookup list_lookup resume].
  eexists. split; [done|]. change (conf (dropTask 0 w)) with (conf w).
  destruct (cf_service (conf w)) eqn:E; [|by rewrite andb_false_r in sg_conf0]. cbn. split; cbn; try done; by rewrite ?E, ?sg_tasks0.
Qed.

(** The player is known, or is registered and then found. *)
Definition registering (known : bool) (p : Player) : list Event :=
  if known then [Answered 0 (GotPlayer (Some p))]
  else [Answered 0 (GotPlayer None); Answered 0 Accepted; Answered 0 (GotPlayer (Some p))].

Definition registrations (known : bool) : list Sending := if known then [] else [SentRegister].

Lemma lookup_plans loc d s o b known p w :
  starting d s o (StartLookup (draftType d) b) w ->
  exists w', planned d s (o ++ registrations known) w'
    /\ forall l, run loc (registering known p ++ l) w = run loc l w'.
Proof.
  intros []. assert (Ht : isTableGame (draftType d) = true) by (by destruct d).
  destruct known; cbn [registering registrations app].
  - eexists. split; [|intros l; erewrite run_cons by (cbn [handle]; rewrite sg_tasks0; reflexivity); reflexivity].
    unfold launch. cbn. rewrite sg_draft0, bool_decide_true by done. rewrite Ht.
    split; cbn; rewrite ?sg_tasks0, ?sg_next0, ?sg_out0, ?app_nil_r; eauto.
  - eexists. split.
    2:{ intros l. erewrite run_cons by (cbn [handle]; rewrite sg_tasks0; reflexivity).
        erewrite run_cons by (cbn [handle]; cbn; rewrite sg_tasks0; reflexivity).
        erewrite run_cons by (cbn [handle]; cbn; rewrite sg_tasks0; reflexivity). reflexivity. }
    unfold launch. cbn. rewrite sg_draft0, bool_decide_true by done. rewrite Ht.
    split; cbn; rewrite ?sg_tasks0, ?sg_next0, ?sg_out0; eauto.
Qed.

Lemma table_waiting fallback roll type blob u :
  isTableGame type = true -> w_isPending (applyGameStateFromBlob fallback roll type blob u) = w_isPending u.
Proof.
  intros H%bool_decide_eq_true. unfold TABLE_GAMES in H.
  repeat (apply elem_of_cons in H as [->|H]); try (by apply elem_of_nil in H);
    unfold applyGameStateFromBlob; repeat rewrite bool_decide_false by done; rewrite bool_decide_true by done;
    unfold applyBaccaratState, applyCrapsState, applyRouletteState, applySicBoState; cbv zeta; repeat case_match; done.
Qed.

Lemma parse_waiting blob type w :
  isTableGame type = true -> isWaiting (parseGameState blob type w) = isWaiting w.
Proof.
  intros H. unfold parseGameState. cbv zeta. transitivity (w_isPending (applyGameStateFromBlob
    (default (w_state (ui w)) (w_ref (ui w))) (crapsChainRollLogRef (refs w)) type blob (ui w))); [by case_match|].
  by apply table_waiting.
Qed.

(** The moves that play a draft; the bets follow the answer to the rule. *)
Definition movesOf (d : AutoPlayDraft) (s : Z) (payload : Uint8Array) : list Sending :=
  match d with
  | DraftRoulette _ rule =>
      if ruleByte rule =? 0 then [SentMove s payload] else [SentMove s (u8array [3; ruleByte rule]); SentMove s payload]
  | _ => [SentMove s payload]
  end.

Definition followUp (d : AutoPlayDraft) : list Event :=
  match d with DraftRoulette _ rule => if ruleByte rule =? 0 then [] else [Answered 0 Accepted] | _ => [] end.

(** All bets of the draft are with the chain. *)
Record sentOff (d : AutoPlayDraft) (s : Z) (o : list Sending) (payload : Uint8Array) (w : Web) : Prop := {
  so_out : out w = o ++ movesOf d s payload;
  so_tasks : tasks w = [PlayBatch d];
  so_waiting : isWaiting w = true;
  so_moves : pendingMoveCountRef (refs w) = len (movesOf d s payload);
  so_wager : u_sessionWager (common (w_state (ui w))) = playWager d
}.

Lemma play_sends loc d s payload w :
  tasks w = [] -> isWaiting w = true -> playPayload d = Ok payload ->
  sentOff d s (out w) payload (run loc (followUp d) (play d s w)).
Proof.
  intros Ht Hw Hp. destruct d as [sel side main|bets|bets rule|bets]; cbn [followUp play movesOf].
  3: { destruct (ruleByte rule =? 0) eqn:E; [|erewrite run_cons by (cbn [handle]; cbn; rewrite Ht; cbn; reflexivity)].
    - unfold sendBatch. rewrite Hp. split; cbn; rewrite ?E, ?Ht; done.
    - unfold sendBatch. rewrite Hp. split; cbn; rewrite ?E, ?Ht, <- ?app_assoc; done. }
  all: unfold sendBatch; rewrite Hp; split; cbn; rewrite ?Ht; done.
Qed.

(** The answer to the start came. *)
Record armed (d : AutoPlayDraft) (s : Z) (o : list Sending) (w : Web) : Prop := {
  ar_session : currentSessionIdRef (refs w) = Some s;
  ar_plan : autoPlayPlanRef (refs w) = Some (d, s);
  ar_out : out w = o;
  ar_service : cf_isOnChain (conf w) && cf_service (conf w) = true;
  ar_tasks : tasks w = []
}.

Lemma accept_arms loc d s o w :
  planned d s o w ->
  exists w', handle loc (Answered 0 Accepted) w = Some w' /\ armed d s (o ++ [SentStart (GAME_TYPE_MAP (draftType d)) 0 s]) w'.
Proof.
  intros [? ? ? ? [b Hb]]. cbn [handle]. rewrite Hb. cbn [lookup list_lookup resume]. eexists. split; [done|]. split; cbn; rewrite ?Hb; done.
Qed.

Lemma started_plays d s o e w :
  armed d s o w -> s <> 0 -> se_sessionId e = s ->
  CHAIN_TO_FRONTEND_GAME_TYPE (se_gameType e) = Some (draftType d) ->
  exists w', handleGameStarted e w = play d s w' /\ tasks w' = [] /\ isWaiting w' = true /\ out w' = o
    /\ currentSessionIdRef (refs w') = Some s /\ answered w'.
Proof.
  intros [] Hs He Hg.
  assert (Htr : truthySession w = Some s) by (unfold truthySession; rewrite ar_session0; by replace (s =? 0) with false by lia).
  unfold handleGameStarted. rewrite He, Hg. unfold isCurrent. rewrite Htr, bool_decide_true by done. cbn [negb]. cbv zeta.
  assert (Ht : isTableGame (draftType d) = true) by (by destruct d).
  change (default "undefined" (Some (draftType d))) with (draftType d).
  set (w1 := upd_refs (s_gameTypeRef _) _).
  assert (H1 : core w1 = core w /\ conf w1 = conf w /\ isWaiting w1 = false /\ answered w1) by done.
  clearbody w1. destruct H1 as (H1 & H2 & H3 & H4).
  set (w2 := if 0 <? len _ then _ else _).
  assert (I : core w2 = core w1 /\ conf w2 = conf w1 /\ isWaiting w2 = false /\ answered w2).
  { unfold w2. destruct (0 <? len _).
    - rewrite (bool_decide_false (draftType d = "CASINO_WAR")) by (by destruct d). cbn [andb]. rewrite parse_waiting by done.
      split_and!; [apply quiet_parse| |done|]; unfold parseGameState, answered; cbv zeta; by case_match.
    - rewrite (bool_decide_false (draftType d = "BLACKJACK")) by (by destruct d). done. }
  clearbody w2. destruct I as (I1 & I2 & I3 & I4). rewrite H1 in I1. rewrite H2 in I2. unfold core in I1.
  injection I1 as J1 J2 J3 J4 J5 J6. unfold runAutoPlay. rewrite J3, ar_plan0. replace (s =? s) with true by lia. cbn [negb].
  rewrite bool_decide_true by done. cbn [negb]. change (conf (upd_refs _ w2)) with (conf w2).
  assert (Es : cf_service (conf w2) = true) by (rewrite I2; by destruct (cf_service (conf w)); [|rewrite andb_false_r in ar_service0]).
  rewrite Es. cbn [negb]. change (isWaiting (upd_refs _ w2)) with (isWaiting w2). rewrite I3.
  unfold truthySession. cbn [upd_refs put_refs refs s_autoPlayPlanRef currentSessionIdRef]. rewrite J1, ar_session0.
  replace (s =? 0) with false by lia. eexists. split; [done|]. cbn. rewrite J1, J5, J6, ar_tasks0. done.
Qed.

(** C31. The first press of deal, online and with nothing going on, on baccarat,
    roulette, sic bo or craps, by a player whose chips cover the bet and the bets
    of the last round, with bets on the table, on valid numbers, that make a
    batch: when the node answers each step, the site has registered a player that the chain does not know, then
    sent the start of a session without a bet, then exactly the moves that carry
    the bets shown, and it counts these moves as pending, with the sum of the
    bets as the wager. *)
Theorem first_play loc ok d payload latest first known p e w :
  ready w -> affords w -> rebetDraft w = Some d -> validDraft d = true -> playPayload d = Ok payload ->
  nextSession w <> 0 -> se_sessionId e = nextSession w ->
  CHAIN_TO_FRONTEND_GAME_TYPE (se_gameType e) = Some (draftType d) ->
  let s := nextSession w in
  let w' := run loc ([Deal ok; Answered 0 (Probed (Ok true) latest first)] ++ registering known p
                     ++ [Answered 0 Accepted; Started e] ++ followUp d) w in
  sentOff d s (out w ++ registrations known ++ [SentStart (GAME_TYPE_MAP (draftType d)) 0 s]) payload w'.
Proof.
  intros Hr Ha Hd Ht Hp Hn He Hg. cbv zeta. cbn [app].
  destruct (deal_drafts ok w d Hr Ha Hd Ht) as (w1 & E1 & D1).
  destruct (startGame_starting d w w1 Hr D1) as [b S1].
  destruct (probe_starting loc _ _ _ _ _ latest first _ S1) as (w2 & E2 & S2).
  destruct (lookup_plans loc _ _ _ _ known p _ S2) as (w3 & P3 & E3).
  destruct (accept_arms loc _ _ _ _ P3) as (w4 & E4 & A4).
  destruct (started_plays _ _ _ e _ A4 Hn He Hg) as (w5 & E5 & T5 & W5 & O5 & _).
  erewrite run_cons by (cbn [handle]; rewrite E1; reflexivity).
  erewrite run_cons by exact E2. rewrite E3. erewrite run_cons by exact E4.
  erewrite run_cons by (cbn [handle]; unfold online_; rewrite (ar_service _ _ _ _ A4), E5; reflexivity).
  rewrite app_assoc, <- O5. by apply play_sends.
Qed.

(** ** Concrete runs *)

Definition noBets {B} : Bets B := MkBets [] [] [] "NONE".

(** A player with a thousand chips, online, with a game on the screen. *)
Definition freshWeb (type : string) : Web :=
  {| ui := {| w_ref := Some (show_table type [] [] "BETTING" "" startUI);
              w_state := show_table type [] [] "BETTING" "" startUI; w_isPending := false; w_uthBackendStage := 0 |};
     tables := {| tb_roulette := noBets; tb_sicBo := noBets; tb_baccarat := noBets; tb_selection := PLAYER;
                  tb_crapsUndo := [] |};
     meta := clearedMeta;
     stats := {| chips := 1000; st_shields := 0; st_doubles := 0; history := []; pnlByGame := ∅; pnlHistory := [] |};
     wallet := {| walletRng := None; walletVusdt := None; walletCredits := None; walletLocked := None |};
     refs := {| currentSessionIdRef := None; currentSessionId := None; pendingMoveCountRef := 0;
                awaitingChainResponseRef := false; gameTypeRef := type; sessionStartChipsRef := ∅; currentChipsRef := 1000;
                lastBalanceUpdateRef := 0; lastPlayerSyncRef := 0; autoPlayDraftRef := None; autoPlayPlanRef := None;
                crapsChainRollLogRef := None; hasRegisteredRef := false |};
     timer := None; now := 10000; nextSession := 7; tasks := []; out := [];
     conf := {| cf_isOnChain := true; cf_service := true; cf_freeroll := false |}; statsSet := false |}.

Definition webPlayer : Player :=
  {| pl_balances := {| pb_chips := 1000; pb_vusdtBalance := 0; pb_shields := 0; pb_doubles := 0; pb_tournamentChips := 0;
                       pb_tournamentShields := 0; pb_tournamentDoubles := 0; pb_activeTournament := None |};
     pl_credits := 0; pl_locked := 0 |}.

Definition startedEvent (session game : Z) : CasinoGameStartedEvent :=
  {| se_sessionId := session; se_player := []; se_gameType := game; se_bet := 0; se_initialState := [] |}.

Definition completedEvent (session game payout final : Z) : CasinoGameCompletedEvent :=
  {| ce_sessionId := session; ce_player := []; ce_gameType := game; ce_payout := payout; ce_finalChips := final;
     ce_wasShielded := false; ce_wasDoubled := false; ce_logs := []; ce_playerBalances := None |}.

Definition toStart : list Event :=
  [Answered 0 (Probed (Ok true) (Ok false) (Ok false)); Answered 0 (GotPlayer (Some webPlayer))].

(** Fifty on red. *)
Definition redBets : list RouletteBet := [{| rb_type := Roul_RED; rb_target := None; rb_amount := 50 |}].

Definition onRed : Web :=
  put_tables (set_tbRoulette (MkBets redBets [] [] "NONE") (tables (freshWeb "ROULETTE"))) (freshWeb "ROULETTE").

Lemma run_reachable loc l w : rtc (step loc) w (run loc l w).
Proof.
  revert w. induction l as [|e l IH]; intros w; [done|]. unfold run. cbn [foldl]. fold (run loc l (default w (handle loc e w))).
  destruct (handle loc e w) eqn:E; cbn; [|apply IH]. eapply rtc_l; [by eapply Step|apply IH].
Qed.

(** From the press to the result, at a final stack of 1050. *)
Definition wholeRound : list Event :=
  Deal true :: toStart ++
    [Answered 0 Accepted; Started (startedEvent 7 6); Answered 0 Accepted; Completed (completedEvent 7 6 100 1050) None].

Lemma moves_follow_starts_witness :
  let w := run (fun _ => "") wholeRound onRed in
  (exists payload, out w = [SentStart 6 0 7; SentMove 7 payload]) /\
  (forall l1 s p l2, out w = l1 ++ SentMove s p :: l2 -> startedIn l1 s \/ AskedActive s ∈ l1)
  /\ NoDup (omap startId (out w)).
Proof.
  split; [eexists; by vm_compute|]. apply (moves_follow_starts (fun _ => "") onRed); [by split|apply run_reachable].
Defined.

Lemma books_agree_witness :
  let w := run (fun _ => "") wholeRound onRed in
  pnlHistory (stats w) = [50] /\
  default 0 (last (pnlHistory (stats w))) = total (pnlByGame (stats w)) /\ (length (pnlHistory (stats w)) <= 100)%nat.
Proof.
  split; [by vm_compute|]. apply (books_agree (fun _ => "") onRed); [done..|apply run_reachable].
Defined.

Lemma completed_settles_witness :
  let w := run (fun _ => "") (take 6 wholeRound) onRed in
  let w' := handleGameCompleted (fun _ => "") (completedEvent 7 6 100 1050) None w in
  settled w' /\ chips (stats w') = 1050 /\ g_lastResult (meta w') = 50.
Proof.
  cbv zeta. destruct (completed_settles (fun _ => "") (completedEvent 7 6 100 1050) None (run (fun _ => "") (take 6 wholeRound) onRed))
    as (H1 & _ & H2 & _ & _ & _ & _ & H3 & _); [by vm_compute|].
  split_and!; [exact H3|rewrite H1; by vm_compute|]. rewrite (H2 1000); [by vm_compute|by vm_compute|by vm_compute].
Defined.

Lemma no_answer_recovers_witness :
  let w := run (fun _ => "") (Deal true :: toStart ++ [Rendered]) onRed in
  let w' := run (fun _ => "") [Answered 0 Failed] (silent 0 15000 (fun _ => "") w) in
  answered w' /\ currentSessionIdRef (refs w') = None.
Proof.
  destruct (no_answer_recovers (fun _ => "") 0 "ROULETTE" 50 7 15000 Failed (run (fun _ => "") (Deal true :: toStart ++ [Rendered]) onRed))
    as [H1 [[(s & E & _) _]|(H2 & _)]]; [by vm_compute..|by left|discriminate E|by split].
Defined.

Lemma first_play_witness :
  exists payload,
    sentOff (DraftRoulette redBets "STANDARD") 7 [SentStart 6 0 7] payload
      (run (fun _ => "") (Deal true :: toStart ++ [Answered 0 Accepted; Started (startedEvent 7 6)]) onRed).
Proof.
  eexists. apply (first_play (fun _ => "") true (DraftRoulette redBets "STANDARD") _ (Ok false) (Ok false) true webPlayer (startedEvent 7 6) onRed);
    try by vm_compute.
  all: split; by vm_compute.
Defined.

(** ** Runs that go wrong *)

Definition after (l : list Event) (w : Web) : Web := run (fun _ => "") l w.

(** The session starts while the question of the timer is out.  When the question
    then fails, the running game is dropped, and its events are ignored. *)
Lemma failed_query_drops_live :
  let live := after ([Play "BACCARAT"] ++ toStart ++ [Answered 0 Accepted; Passed 15000; TimedOut; Started (startedEvent 7 0)])
                    (freshWeb "BACCARAT") in
  let w := after [Answered 0 Failed] live in
  currentSessionIdRef (refs live) = Some 7 /\ u_stage (common (w_state (ui live))) = "PLAYING"
  /\ currentSessionIdRef (refs w) = None
  /\ chips (stats (after [Completed (completedEvent 7 0 100 1050) None] w)) = 1000.
Proof. by vm_compute. Qed.

(** The chain's event overtakes the answer to the start: the timer is armed for a
    game that runs already, and the deal button sends nothing. *)
Lemma early_start_blocks_deal :
  let w := after ([Play "BLACKJACK"] ++ toStart ++ [Started (startedEvent 7 1); Answered 0 Accepted; Answered 0 Accepted])
                 (freshWeb "BLACKJACK") in
  awaitingChainResponseRef (refs w) = true /\ u_message (common (w_state (ui w))) = "DEALING..."
  /\ (forall ok, out (deal ok w) = out w /\ tasks (deal ok w) = tasks w).
Proof. vm_compute. split_and!; [done..|]. by intros []. Qed.

(** A start that is overtaken by another one and answered last leaves the site
    waiting for good: the timer finds another session and gives up. *)
Lemma older_answer_blocks :
  let w := after ([Play "BACCARAT"] ++ toStart ++ [Play "BACCARAT";
              Answered 1 (Probed (Ok true) (Ok false) (Ok false)); Answered 1 (GotPlayer (Some webPlayer));
              Answered 1 Accepted; Started (startedEvent 8 0); Answered 0 Accepted; Passed 15000; TimedOut])
              (freshWeb "BACCARAT") in
  awaitingChainResponseRef (refs w) = true /\ timer w = None /\ tasks w = [] /\ currentSessionIdRef (refs w) = Some 8
  /\ (forall ok, out (deal ok w) = out w).
Proof. vm_compute. split_and!; [done..|]. by intros []. Qed.

(** A start that fails takes the session of another one with it. *)
Lemma failed_start_drops_other :
  let before := after ([Play "BACCARAT"] ++ toStart ++ [Play "BACCARAT";
              Answered 1 (Probed (Ok true) (Ok false) (Ok false)); Answered 1 (GotPlayer (Some webPlayer));
              Answered 1 Accepted; Started (startedEvent 8 0)]) (freshWeb "BACCARAT") in
  currentSessionIdRef (refs before) = Some 8 /\ currentSessionIdRef (refs (after [Answered 0 Failed] before)) = None.
Proof. by vm_compute. Qed.

(** Bets that could not be sent since the chain was away are sent by the next
    start of the game, which nobody asked to play them. *)
Lemma stale_draft_plays :
  let offline := after [Deal true; Answered 0 (Probed (Ok false) (Ok false) (Ok false))] onRed in
  let cleared := put_tables (set_tbRoulette noBets (tables offline)) offline in
  let w := after ([Play "ROULETTE"] ++ toStart ++ [Answered 0 Accepted; Started (startedEvent 7 6)]) cleared in
  out cleared = [] /\ Ok [SentStart 6 0 7; SentMove 7 match encodeBets redBets with Ok p => p | Throw _ => [] end] = Ok (out w).
Proof. by vm_compute. Qed.

(** An error that concerns another session makes the site forget its own pending move. *)
Lemma foreign_error_unlocks :
  let sending := after (take 5 wholeRound) onRed in
  let w := after [Error "invalid bet" (Some 99)] sending in
  isWaiting sending = true /\ pendingMoveCountRef (refs sending) = 1
  /\ currentSessionIdRef (refs w) = Some 7 /\ isWaiting w = false /\ pendingMoveCountRef (refs w) = 0.
Proof. by vm_compute. Qed.

(** In a tournament the start of a game shows the chips outside of it. *)
Lemma tournament_start_shows_cash :
  let web := put_conf {| cf_isOnChain := true; cf_service := true; cf_freeroll := true |} (freshWeb "HILO") in
  let balances := {| pb_chips := 80; pb_vusdtBalance := 0; pb_shields := 0; pb_doubles := 0; pb_tournamentChips := 1000;
                     pb_tournamentShields := 0; pb_tournamentDoubles := 0; pb_activeTournament := Some 1 |} in
  let w := after [Play "HILO"; Answered 0 (Probed (Ok true) (Ok false) (Ok false));
                  Answered 0 (GotPlayer (Some {| pl_balances := balances; pl_credits := 0; pl_locked := 0 |}));
                  Rendered] web in
  chips (stats web) = 1000 /\ chips (stats w) = 80 /\ shownChips web balances = 1000.
Proof. by vm_compute. Qed.

(** The rank that the leaderboard brings is a number of the player: with the next
    render the timer of the start is gone, and the site waits for good. *)
Lemma rank_stops_timer :
  let sent := after ([Play "BACCARAT"] ++ toStart ++ [Rendered; Answered 0 Accepted]) (freshWeb "BACCARAT") in
  let w := after [Ranked; Rendered; Passed 15000; TimedOut] sent in
  is_Some (timer sent) /\ timer w = None /\ tasks w = [] /\ currentSessionIdRef (refs w) = Some 7
  /\ u_message (common (w_state (ui w))) = "WAITING FOR CHAIN...".
Proof. vm_compute. split_and!; [by eexists|done..]. Qed.

(** *** Rolls of craps and restored sessions *)

Definition stagedPass : UiCrapsBet :=
  {| ub_bet := {| wc_type := Craps_PASS; wc_amount := 25; wc_target := None; wc_oddsAmount := None;
                  wc_progressMask := None; wc_status := Some ON |}; ub_localOdds := None; ub_local := true |}.

Definition stagedField : UiCrapsBet :=
  {| ub_bet := {| wc_type := Craps_FIELD; wc_amount := 10; wc_target := None; wc_oddsAmount := None;
                  wc_progressMask := None; wc_status := Some ON |}; ub_localOdds := None; ub_local := true |}.

Definition placeOf (b : UiCrapsBet) : Uint8Array := CrapsSlip.placePayload (slipCraps b).

Definition liveCraps : ChainSession :=
  {| cs_gameType := 3; cs_bet := Some 0; cs_moveCount := Some 0; cs_state := []; cs_isComplete := false |}.

(** A page that is loaded while the player's session 3 is on. *)
Definition restoredCraps : Web :=
  after [Loaded (PlayerFound webPlayer false false (Some 3)); Answered 0 (GotSession (Some liveCraps));
         Edit (StageCraps [stagedPass; stagedField] [] 35 "BET FIELD")]
    (put_conf {| cf_isOnChain := false; cf_service := false; cf_freeroll := false |} (freshWeb "CRAPS")).

(** The roll places the bets of the slip, one after the other, and rolls. *)
Lemma restored_roll :
  out (after [Deal true; Answered 0 (GotSession (Some liveCraps)); Answered 0 Accepted; Answered 0 Accepted;
              Answered 0 Accepted] restoredCraps)
  = [AskedActive 3; SentMove 3 (placeOf stagedPass); SentMove 3 (placeOf stagedField); SentMove 3 CrapsSlip.rollPayload].
Proof. by vm_compute. Qed.

(** The first event of a roll ends the wait of the press although the roll is
    still sending: a second press places the rest of the bets again, and rolls
    twice. *)
Lemma second_press_rolls_again :
  let placed := {| me_sessionId := 3; me_moveNumber := 1;
                   me_newState := CrapsCorrect.table_blob Craps.ComeOut 0 0 0 0 false
                     [{| ch_type := Craps.Pass; ch_target := 0; ch_status := On; ch_amount := 25; ch_odds := 0 |}];
                   me_logs := []; me_playerBalances := Some (pl_balances webPlayer) |} in
  let w := after [Deal true; Answered 0 (GotSession (Some liveCraps)); Answered 0 Accepted; Moved placed None;
                  Deal true; Answered 1 (GotSession (Some liveCraps)); Answered 0 Accepted; Answered 0 Accepted] restoredCraps in
  drop 1 (out w) = [SentMove 3 (placeOf stagedPass); SentMove 3 (placeOf stagedField); SentMove 3 (placeOf stagedField);
                    SentMove 3 CrapsSlip.rollPayload; SentMove 3 CrapsSlip.rollPayload].
Proof. by vm_compute. Qed.
