(* ===== verification/GameLogs.v ===== *)
(** * What the website reads of a game's logs

    [parseGameLogs] of [website/src/utils/gameUtils.ts]: the chain writes an
    account of a finished game as a line of JSON, and the site makes of it the
    line it shows, the line of each bet and the bets with what they won.  With
    [website/src/services/games/crapsLogs.ts], the same for one roll of craps,
    and the correction of the bets to the change of the chips.

    A log that has a [summary] or [resolvedBets] is read alike for all games
    ([parseStandardizedLog]); the branch of each game is for logs without.  A
    TypeError in a branch is caught: the log counts as unreadable.

    White space and lower case are those of ASCII.  Numbers are exact
    ([JsValues]). *)

From Stdlib Require Import QArith.QArith QArith.Qround.
From stdpp Require Import pretty.
From S2P Require Import Prelude JsNum ChainCodec Calendar AuthUtils Json JsValues Roulette WebState WebGame WebSession.

#[local] Open Scope Z_scope.

(** ** The result *)

Record ResolvedBet := { r_id : string; r_label : string; r_pnl : Z }.

(** [l_bets] is nothing where a game has no branch; [l_raw] is what was read. *)
Record ParsedGameLog := {
  l_summary : string; l_details : list string; l_bets : option (list ResolvedBet); l_raw : option Json
}.

Definition normalizePnl (n : Num) : Z := match n with Fin q => round q | _ => 0 end.

(** [.replace(/\s+/g, '_')]; [inRun]: the character before was a space. *)
Fixpoint underscored (inRun : bool) (s : string) : string :=
  match s with
  | EmptyString => EmptyString
  | String c s' =>
      if is_space c then (if inRun then "" else "_") +:+ underscored true s'
      else String c (underscored false s')
  end.

Definition betId (label : string) (idx : nat) : string :=
  to_lower (underscored false label) +:+ "-" +:+ pretty (Z.of_nat idx).

Definition buildResolvedBets (entries : list (string * Num)) : list ResolvedBet :=
  List.filter (fun e => negb (bool_decide (r_label e = "")))
    (imap (fun idx e => {| r_id := betId e.1 idx; r_label := e.1; r_pnl := normalizePnl e.2 |}) entries).

Definition formatBetResult (label result : string) : string := label +:+ ": " +:+ result.

Fixpoint spaced (s : string) : string :=
  match s with
  | EmptyString => EmptyString
  | String c s' => (if bool_decide (String c "" = "_") then " " else String c "") +:+ spaced s'
  end.

Definition formatRankLabel (value : string) : string := trim (spaced value).

Definition outcomeFromReturn (wagered returned : Num) : string :=
  if less wagered returned then "WIN" else if less returned wagered then "LOSS" else "PUSH".

Definition log (summary : string) (details : list string) (bets : list ResolvedBet) (raw : option Json) : ParsedGameLog :=
  {| l_summary := summary; l_details := details; l_bets := Some bets; l_raw := raw |}.

(** ** Cards *)

Definition CHAIN_RANKS : list string := ["A"; "2"; "3"; "4"; "5"; "6"; "7"; "8"; "9"; "10"; "J"; "Q"; "K"].

Definition parseCardId (card : option Json) : option Q :=
  match card with
  | Some (JNumber q) => Some q
  | Some (JString s) => finite (textNumber s)
  | _ => None
  end.

(** [xs[i]] *)
Definition at_index {A} (xs : list A) (i : Z) : option A := if 0 <=? i then xs !! Z.to_nat i else None.

Definition cardToString (cardId : Q) : string :=
  let suit := default "♠" (at_index SUITS (Qfloor (cardId / 13))) in
  let rank := default "A" (z ← whole (Fin cardId); at_index CHAIN_RANKS (Z.rem z 13)) in
  rank +:+ suit.

Definition cardOrQuestion (card : option Json) : string := from_option cardToString "?" (parseCardId card).

(** ** The entries of the log *)

Definition VIDEO_POKER_HAND_NAMES : list string :=
  ["HIGH CARD"; "JACKS OR BETTER"; "TWO PAIR"; "THREE OF A KIND"; "STRAIGHT"; "FLUSH"; "FULL HOUSE";
   "FOUR OF A KIND"; "STRAIGHT FLUSH"; "ROYAL FLUSH"].

Definition handName (handId : Num) : string :=
  default "UNKNOWN" (whole handId ≫= at_index VIDEO_POKER_HAND_NAMES).

Definition winOrLoss (multiplier : Num) : string := if positive multiplier then "WIN" else "LOSS".

Definition parseVideoPokerLog (net : Z) (raw : string) : option ParsedGameLog :=
  if String.prefix "RESULT:" raw then
    match split (Text.char 58) raw with
    | _ :: hand :: mult :: _ =>
        Some (log (formatSummaryLine ("Hand: " +:+ handName (textNumber hand)))
                [formatBetResult "HAND" (winOrLoss (textNumber mult))]
                (buildResolvedBets [("HAND", int net)]) (Some (JString raw)))
    | _ => None
    end
  else None.

Fixpoint lastIndexOf (c : Ascii.ascii) (s : string) : option nat :=
  match s with
  | EmptyString => None
  | String d s' =>
      match lastIndexOf c s' with
      | Some n => Some (S n)
      | None => if Ascii.eqb c d then Some O else None
      end
  end.

(** The text, or else its part from the first brace to the last. *)
Definition parseJsonEntry (raw : string) : option Json :=
  let trimmed := trim raw in
  if bool_decide (trimmed = "") then None
  else
    match Text.JSON_parse trimmed with
    | Some j => Some j
    | None =>
        match String.index 0 "{" trimmed, lastIndexOf (Text.char 125) trimmed with
        | Some s, Some e =>
            if (s <? e)%nat then Text.JSON_parse (String.substring s (e + 1 - s) trimmed) else None
        | _, _ => None
        end
    end.

Definition resolvedEntry (entry : Json) : result (string * Num) :=
  pnl ← numberOr0 (optGet "pnl" (Some entry));
  Ok (default "" (textOf (optGet "label" (Some entry))), pnl).

Definition parseStandardizedLog (payload : option Json) : result (option ParsedGameLog) :=
  match payload with
  | Some (JObject fields) =>
      let summaryText := from_option trim "" (textOf (field "summary" fields)) in
      let resolvedRaw := arrayOf (field "resolvedBets" fields) in
      if bool_decide (summaryText = "") && bool_decide (resolvedRaw = None) then Ok None
      else
        entries ← mapM_result resolvedEntry (default [] resolvedRaw);
        Ok (Some (log (formatSummaryLine (if bool_decide (summaryText = "") then "ROUND COMPLETE" else summaryText)) []
                    (buildResolvedBets entries) payload))
  | _ => Ok None
  end.

(** ** The branches of the games

    [d] is what was read of the log, [net] what the game won. *)

Section Branches.

Context (net : Z) (d : option Json).

(** A bet beside the main one: shown where something was staked. *)
Definition sideBet (line label id : string) (staked : option Json) (returned : option Json)
    (acc : list string * list ResolvedBet) : result (list string * list ResolvedBet) :=
  bet ← numberOr0 staked;
  if positive bet then
    ret ← numberOr0 returned;
    Ok (acc.1 ++ [formatBetResult line (outcomeFromReturn bet ret)],
        acc.2 ++ [{| r_id := id +:+ "-" +:+ pretty (len acc.2); r_label := label; r_pnl := normalizePnl (minus ret bet) |}])
  else Ok acc.

(** A value as it is shown, where it is a number. *)
Definition shownNumber (v : option Json) : result string :=
  n ← toNumber v; Ok (if isFinite n then numberText n else "?").

(** What a hand staked and got back. *)
Definition handStakes (hand : Json) : result (Num * Num) :=
  bet ← get "bet" (Some hand); bet ← numberOr0 bet;
  ret ← get "return" (Some hand); ret ← numberOr0 ret;
  Ok (bet, ret).

Definition handDisplay (hand : Json) : result string :=
  '(bet, ret) ← handStakes hand;
  Ok (match textOf (optGet "status" (Some hand)) with
      | Some "BLACKJACK" => "BLACKJACK"
      | Some "BUSTED" => "BUST"
      | Some "SURRENDERED" => "SURRENDER"
      | _ => outcomeFromReturn bet ret
      end).

Definition handLabel (hands : list Json) (i : nat) : string :=
  if 1 <? len hands then "Hand " +:+ pretty (Z.of_nat (i + 1)) else "Hand".

Definition blackjackLog : result ParsedGameLog :=
  hands ← get "hands" d;
  let hands := default [] (arrayOf hands) in
  dealer ← get "dealer" d;
  dealerValue ← shownNumber (optGet "value" dealer);
  playerValue ← shownNumber (optGet "value" (head hands));
  displays ← mapM_result handDisplay hands;
  values ← mapM_result (fun h => toNumber (optGet "value" (Some h))) hands;
  let playerValues := List.filter isFinite values in
  let playerLabel := match playerValues with [] => playerValue | _ => String.concat "/" (numberText <$> playerValues) end in
  let details := imap (fun i shown => formatBetResult (handLabel hands i) shown) displays in
  stakes ← mapM_result handStakes hands;
  let bets := buildResolvedBets (imap (fun i s => (handLabel hands i, minus s.2 s.1)) stakes) in
  b1 ← get "sideBet21Plus3" d; r1 ← get "sideBet21Plus3Return" d; r1' ← get "sideBetReturn" d;
  acc ← sideBet "21+3" "21+3" "21plus3" b1 (orElse r1 r1') (details, bets);
  b2 ← get "sideBetLuckyLadies" d; r2 ← get "sideBetLuckyLadiesReturn" d;
  acc ← sideBet "LUCKY LADIES" "Lucky Ladies" "lucky-ladies" b2 r2 acc;
  b3 ← get "sideBetPerfectPairs" d; r3 ← get "sideBetPerfectPairsReturn" d;
  acc ← sideBet "PERFECT PAIRS" "Perfect Pairs" "perfect-pairs" b3 r3 acc;
  b4 ← get "sideBetRoyalMatch" d; r4 ← get "sideBetRoyalMatchReturn" d;
  acc ← sideBet "ROYAL MATCH" "Royal Match" "royal-match" b4 r4 acc;
  b5 ← get "sideBetBustIt" d; r5 ← get "sideBetBustItReturn" d;
  acc ← sideBet "BUST IT" "Bust It" "bust-it" b5 r5 acc;
  Ok (log (formatSummaryLine ("P: " +:+ playerLabel +:+ ", D: " +:+ dealerValue)) acc.1 acc.2 d).

(** [xs || []], to be walked through: what is there and is no array throws. *)
Definition betsOf : result (list Json) :=
  bets ← get "bets" d;
  if truthy bets then match bets with Some (JArray l) => Ok l | _ => Throw "TypeError" end else Ok [].

(** [String(bet.type ?? '')] *)
Definition betType (bet : Json) : result string :=
  t ← get "type" (Some bet); textOr (orElse t (Some (JString ""))).

(** The names every object has. *)
Definition inherited : list string :=
  ["constructor"; "__defineGetter__"; "__defineSetter__"; "hasOwnProperty"; "__lookupGetter__"; "__lookupSetter__";
   "isPrototypeOf"; "propertyIsEnumerable"; "toString"; "valueOf"; "__proto__"; "toLocaleString"].

(** What one bet leaves: its line, and its label with what it won. *)
Definition Entry : Type := string * option (string * Num).

Definition lines (xs : list (option Entry)) : list string := fst <$> omap id xs.
Definition entriesOf (xs : list (option Entry)) : list (string * Num) := omap (fun x => x ≫= snd) xs.

(** The walk over the bets. *)
Definition walk (f : Json -> result (option Entry)) (bets : list Json) : result (list string * list (string * Num)) :=
  xs ← mapM_result f bets; Ok (lines xs, entriesOf xs).

(** *** Baccarat *)

Definition baccaratBetTypes : list (string * string) :=
  [("PLAYER", "PLAYER"); ("BANKER", "BANKER"); ("TIE", "TIE"); ("PLAYER_PAIR", "P_PAIR"); ("BANKER_PAIR", "B_PAIR");
   ("LUCKY_6", "LUCKY6"); ("PLAYER_DRAGON", "P_DRAGON"); ("BANKER_DRAGON", "B_DRAGON"); ("PANDA_8", "PANDA8");
   ("PERFECT_PAIR", "PERFECT_PAIR"); ("PLAYER_PERFECT_PAIR", "PERFECT_PAIR"); ("BANKER_PERFECT_PAIR", "PERFECT_PAIR")].

Definition assoc (names : list (string * string)) (k : string) : option string :=
  snd <$> List.find (fun kv => bool_decide (kv.1 = k)) names.

(** A name every object has gives no text: its label cannot be made an id. *)
Definition baccaratBet (bet : Json) : result (option Entry) :=
  raw ← betType bet;
  payout ← get "payout" (Some bet); payout ← numberOr0 payout;
  amount ← get "amount" (Some bet); amount ← numberOr0 amount;
  if bool_decide (raw ∈ inherited) then Throw "TypeError"
  else
    let type := default raw (assoc baccaratBetTypes raw) in
    let outcome := match textOf (optGet "result" (Some bet)) with
                   | Some r => r
                   | None => if positive payout then "WIN" else if negative_ payout then "LOSS" else "PUSH"
                   end in
    let pnl := if isFinite payout && negb (equals payout 0) then payout
               else if bool_decide (outcome = "WIN") then amount
               else if bool_decide (outcome = "LOSS") then negate amount else int 0 in
    Ok (Some (formatBetResult type outcome, Some (type, pnl))).

(** [x || {}], and the number under [total]. *)
Definition totalOf (side : option Json) : string :=
  from_option numberText "?" (numberOf (optGet "total" side)).

Definition baccaratLog : result ParsedGameLog :=
  player ← get "player" d; banker ← get "banker" d;
  bets ← betsOf; acc ← walk baccaratBet bets;
  Ok (log (formatSummaryLine ("P: " +:+ totalOf player +:+ ", B: " +:+ totalOf banker)) acc.1
        (buildResolvedBets acc.2) d).

(** *** Roulette *)

Definition colorOf (n : Num) : RouletteColor :=
  match whole n with Some z => getRouletteColor z | None => BLACK end.

Definition rouletteNumber (n : Num) : string :=
  if equals n ROULETTE_DOUBLE_ZERO then "00" else numberText n.

Definition showsNumber (type : string) : bool :=
  bool_decide (type ∈ ["STRAIGHT"; "SPLIT_H"; "SPLIT_V"; "STREET"; "CORNER"; "SIX_LINE"]).

Definition rouletteLabel (type : string) (number : option Json) : result string :=
  let z := numberOf number ≫= whole in
  let display := match z with
                 | Some z => if bool_decide (type = "DOZEN") then "DOZEN_" +:+ pretty (z + 1)
                             else if bool_decide (type = "COLUMN") then "COL_" +:+ pretty (z + 1) else type
                 | None => type
                 end in
  match number with
  | Some n => if showsNumber type then t ← toText n; Ok (display +:+ " " +:+ t) else Ok display
  | None => Ok display
  end.

Definition rouletteWon (bet : Json) : result bool :=
  match boolOf (optGet "won" (Some bet)) with
  | Some b => Ok b
  | None =>
      let outcome := optGet "outcome" (Some bet) in
      if truthy outcome then Ok (bool_decide (textOf outcome = Some "WIN"))
      else ret ← toNumber (optGet "return" (Some bet)); Ok (positive ret)
  end.

Definition rouletteBet (bet : Json) : result (option Entry) :=
  type ← betType bet;
  let number := optGet "number" (Some bet) in
  let number := match numberOf number with Some _ => number | None => optGet "target" (Some bet) end in
  label ← rouletteLabel type number;
  won ← rouletteWon bet;
  amount ← numberOr0 (optGet "amount" (Some bet));
  returned ← toNumber (orElse (optGet "return" (Some bet)) (orElse (optGet "returnAmount" (Some bet)) None));
  Ok (Some (formatBetResult label (if won : bool then "WIN" else "LOSS"),
            if isFinite returned then Some (label, minus returned amount) else None)).

Definition rouletteLog : result ParsedGameLog :=
  result ← get "result" d; n ← toNumber result;
  color ← get "color" d;
  colorText ← (if truthy color then textOr color
               else Ok (if isFinite n then colorName (colorOf n) else "GREEN"));
  bets ← betsOf; acc ← walk rouletteBet bets;
  let entries := match acc.2 with [] => [("ROUND", int net)] | es => es end in
  Ok (log (formatSummaryLine ("Roll: " +:+ (if isFinite n then rouletteNumber n else "?") +:+ " " +:+ colorText)) acc.1
        (buildResolvedBets entries) d).

(** *** Craps *)

(** The number after the first underscore of [HARDWAY_n]. *)
Definition hardTarget (type : string) : Num :=
  match split (Text.char 95) type with _ :: n :: _ => textNumber n | _ => NaN end.

Definition formatCrapsBetLabel (type : string) (target : option Num) : string :=
  if String.prefix "HARDWAY_" type then
    let n := hardTarget type in if isFinite n then "HARDWAY " +:+ numberText n else "HARDWAY"
  else type +:+ match target with Some n => if positive n then " " +:+ numberText n else "" | None => "" end.

Definition crapsBet (bet : Json) : result (option Entry) :=
  type ← get "type" (Some bet);
  match default "" (textOf type) with
  | EmptyString => Ok None
  | type =>
      target ← toNumber (optGet "target" (Some bet));
      wagered ← numberOr0 (optGet "wagered" (Some bet));
      returned ← numberOr0 (orElse (optGet "return" (Some bet)) (optGet "returnAmount" (Some bet)));
      odds ← numberOr0 (optGet "odds" (Some bet));
      let outcome := default (outcomeFromReturn wagered returned) (textOf (optGet "outcome" (Some bet))) in
      let label := formatCrapsBetLabel type (if isFinite target then Some target else None) in
      Ok (Some (formatBetResult label outcome, Some (label, minus (minus returned wagered) odds)))
  end.

Definition diceOf : result (list Json) :=
  dice ← get "dice" d; Ok (default [] (arrayOf dice)).

Definition crapsLog : result ParsedGameLog :=
  dice ← diceOf;
  total ← get "total" d; total ← toNumber total;
  value ← (if isFinite total then Ok total
           else match dice with
                | [a; b] => x ← toNumber (Some a); y ← toNumber (Some b); Ok (plus x y)
                | _ => Ok (int 0)
                end);
  diceLabel ← match dice with
              | [a; b] => x ← toText a; y ← toText b; Ok (" (" +:+ x +:+ "-" +:+ y +:+ ")")
              | _ => Ok ""
              end;
  bets ← betsOf; acc ← walk crapsBet bets;
  Ok (log (formatSummaryLine ("Roll: " +:+ (if positive value then numberText value else "?") +:+ diceLabel)) acc.1
        (buildResolvedBets acc.2) d).

(** *** Sic Bo *)

Definition sicBoBetTypes : list (string * string) :=
  [("SPECIFIC_TRIPLE", "TRIPLE_SPECIFIC"); ("ANY_TRIPLE", "TRIPLE_ANY"); ("SPECIFIC_DOUBLE", "DOUBLE_SPECIFIC");
   ("TOTAL", "SUM"); ("SINGLE", "SINGLE_DIE"); ("THREE_NUMBER_EASY_HOP", "HOP3_EASY");
   ("THREE_NUMBER_HARD_HOP", "HOP3_HARD"); ("FOUR_NUMBER_EASY_HOP", "HOP4_EASY")].

(** What a template makes of a name every object has. *)
Definition inheritedText (name : string) : string :=
  if bool_decide (name = "__proto__") then "[object Object]"
  else "function " +:+ (if bool_decide (name = "constructor") then "Object" else name) +:+ "() { [native code] }".

Definition sicBoType (raw : string) : string :=
  match assoc sicBoBetTypes raw with
  | Some t => t
  | None => if bool_decide (raw ∈ inherited) then inheritedText raw else raw
  end.

Definition sicBoBet (bet : Json) : result (option Entry) :=
  raw ← betType bet;
  let label := sicBoType raw +:+ match numberOf (optGet "number" (Some bet)) with
                                 | Some n => if positive n then " " +:+ numberText n else ""
                                 | None => ""
                                 end in
  payout ← numberOr0 (optGet "payout" (Some bet));
  amount ← numberOr0 (optGet "amount" (Some bet));
  let won := default (positive payout) (boolOf (optGet "won" (Some bet))) in
  Ok (Some (formatBetResult label (if won then "WIN" else "LOSS"), Some (label, minus payout amount))).

(** [a + b] over the dice: a sum until the first text, then a text. *)
Definition addDie (acc : Num + string) (die : Json) : result (Num + string) :=
  match acc, die with
  | inl n, (JNull | JBool _ | JNumber _) => x ← toNumber (Some die); Ok (inl (plus n x))
  | inl n, _ => t ← toText die; Ok (inr (numberText n +:+ t))
  | inr s, _ => t ← toText die; Ok (inr (s +:+ t))
  end.

Definition sicBoLog : result ParsedGameLog :=
  dice ← diceOf;
  total ← get "total" d; total ← toNumber total;
  sum ← (if isFinite total then Ok (inl total) else foldM_result addDie (inl (int 0)) dice);
  triple ← get "isTriple" d;
  diceLabel ← (if len dice =? 3 then t ← join "-" dice; Ok (" (" +:+ t +:+ ")") else Ok "");
  bets ← betsOf; acc ← walk sicBoBet bets;
  let total := match sum with inl n => numberText n | inr s => s end in
  Ok (log (formatSummaryLine ("Roll: " +:+ total +:+ diceLabel +:+ (if truthy triple then " (TRIPLE)" else ""))) acc.1
        (buildResolvedBets acc.2) d).

(** *** Hi-Lo *)

(** [whole]: the log as it was read, which a list may hold. *)
Definition hiloLog (data : option Json) : result ParsedGameLog :=
  guess ← get "guess" d;
  let guess := default "" (textOf guess) in
  prev ← get "previousCard" d; next ← get "newCard" d;
  push ← get "push" d; correct ← get "correct" d;
  if bool_decide (guess = "CASHOUT") then
    Ok (log (formatSummaryLine ("Cashout: " +:+ cardOrQuestion prev))
          [formatBetResult "CASHOUT" (if net =? 0 then "COMPLETE" else "WIN")]
          (buildResolvedBets [("CASHOUT", int net)]) data)
  else
    let outcome := if truthy push then "PUSH" else if truthy correct then "CORRECT" else "WRONG" in
    let shown := negb (bool_decide (guess = "")) in
    Ok (log (formatSummaryLine (cardOrQuestion prev +:+ " -> " +:+ cardOrQuestion next))
          (if shown then [formatBetResult guess outcome] else [])
          (if shown then buildResolvedBets [(guess, int net)] else []) d).

(** *** Poker *)

(** A stake and what it returned, under the names [kBet] and [kReturn]. *)
Definition stakeOf (kBet kReturn : string) : result (Num * Num) :=
  bet ← get kBet d; bet ← numberOr0 bet; ret ← get kReturn d; ret ← numberOr0 ret; Ok (bet, ret).

(** What a stake leaves where there is one, or where it is shown all the same. *)
Definition stakeEntry (label : string) (always : bool) (outcome : option string) (s : Num * Num) : option Entry :=
  if positive s.1 || always
  then Some (formatBetResult label (default (outcomeFromReturn s.1 s.2) outcome), Some (label, minus s.2 s.1)) else None.

Definition rawOutcomeOf (win loss push : string) : result string :=
  outcome ← get "outcome" d;
  Ok (default (if 0 <? net then win else if net <? 0 then loss else push) (textOf outcome)).

Definition threeCardLog : result ParsedGameLog :=
  player ← get "player" d; dealer ← get "dealer" d;
  let rank side := from_option formatRankLabel "?" (textOf (optGet "rank" side)) in
  outcome ← rawOutcomeOf "WIN" "LOSS" "PUSH";
  folded ← get "folded" d;
  ante ← stakeOf "anteBet" "anteReturn"; play ← stakeOf "playBet" "playReturn";
  pairplus ← stakeOf "pairplusBet" "pairplusReturn"; six ← stakeOf "sixCardBet" "sixCardReturn";
  progressive ← stakeOf "progressiveBet" "progressiveReturn";
  let f := truthy folded in
  let xs := [stakeEntry "ANTE" false None ante; stakeEntry "PLAY" f (if f then Some "FOLD" else None) play;
             stakeEntry "PAIR PLUS" false None pairplus; stakeEntry "SIX CARD" false None six;
             stakeEntry "PROGRESSIVE" false None progressive] in
  Ok (log (formatSummaryLine ("P: " +:+ rank player +:+ ", D: " +:+ rank dealer
             +:+ (if bool_decide (outcome = "DEALER_NO_QUALIFY") then " (NO QUALIFY)" else "")))
        (lines xs) (buildResolvedBets (entriesOf xs)) d).

Definition ultimateHoldemLog : result ParsedGameLog :=
  player ← get "player" d; dealer ← get "dealer" d;
  let rank side := match textOf (optGet "rank" side) with
                   | Some (String _ _ as r) => formatRankLabel r
                   | _ => "?"
                   end in
  outcome ← rawOutcomeOf "WIN" "LOSS" "PUSH";
  ante ← stakeOf "anteBet" "anteReturn"; blind ← stakeOf "blindBet" "blindReturn";
  play ← stakeOf "playBet" "playReturn"; trips ← stakeOf "tripsBet" "tripsReturn";
  progressive ← stakeOf "progressiveBet" "progressiveReturn"; six ← stakeOf "sixCardBet" "sixCardReturn";
  let f := bool_decide (outcome = "FOLD") in
  let xs := [stakeEntry "ANTE" false None ante; stakeEntry "BLIND" false None blind;
             stakeEntry "PLAY" f (if f then Some "FOLD" else None) play; stakeEntry "TRIPS" false None trips;
             stakeEntry "PROGRESSIVE" false None progressive; stakeEntry "SIX CARD" false None six] in
  Ok (log (formatSummaryLine ("P: " +:+ rank player +:+ ", D: " +:+ rank dealer
             +:+ (if truthy (optGet "qualifies" dealer) then "" else " (NO QUALIFY)") +:+ (if f then " (FOLD)" else "")))
        (lines xs) (buildResolvedBets (entriesOf xs)) d).

(** *** Casino War and video poker *)

(** [bet]: the stake the interface holds, if it has a state. *)
Definition casinoWarLog (bet : option Z) : result ParsedGameLog :=
  pCard ← get "playerCard" d; dCard ← get "dealerCard" d;
  outcome ← rawOutcomeOf "PLAYER_WIN" "DEALER_WIN" "TIE";
  payout ← get "payout" d; payout ← numberOr0 payout;
  tieBet ← get "tieBet" d; tieBet ← numberOr0 tieBet;
  tieReturn ← (if positive tieBet then r ← get "tieBetPayout" d; numberOr0 r else Ok (int 0));
  let isPlayerWin := has "PLAYER" outcome in
  let isDealerWin := has "DEALER" outcome in
  let mainBet := default 0 bet in
  let mainPnl := if positive payout then minus payout (int mainBet)
                 else int (if isPlayerWin then mainBet else if isDealerWin then - mainBet else 0) in
  let main := (formatBetResult "MAIN" (if isPlayerWin then "WIN" else if isDealerWin then "LOSS" else "PUSH"),
               if (0 <? mainBet) || positive payout then Some ("MAIN", mainPnl) else None) in
  let xs := [Some main; stakeEntry "TIE" false None (tieBet, tieReturn)] in
  Ok (log (formatSummaryLine ("P: " +:+ cardOrQuestion pCard +:+ ", D: " +:+ cardOrQuestion dCard))
        (lines xs) (buildResolvedBets (entriesOf xs)) d).

(** [raw]: the line the log was read from. *)
Definition videoPokerLog (raw : string) : result ParsedGameLog :=
  hand ← get "hand" d; handId ← get "handId" d; handId ← toNumber (orElse handId None);
  mult ← get "multiplier" d; mult ← numberOr0 mult;
  let name := match textOf hand with
              | Some (String _ _ as h) => formatRankLabel h
              | _ => if isFinite handId then handName handId else ""
              end in
  let bets := buildResolvedBets [("HAND", int net)] in
  if bool_decide (name = "") then
    Ok (match parseVideoPokerLog net raw with
        | Some p => p
        | None => log (formatSummaryLine ("Hand: " +:+ raw)) [] bets (Some (JString raw))
        end)
  else Ok (log (formatSummaryLine ("Hand: " +:+ name)) [formatBetResult "HAND" (winOrLoss mult)] bets d).

End Branches.

(** ** The whole *)

(** The first entry that is read as something, with its line. *)
Fixpoint firstParsed (logs : list string) : option (Json * string) :=
  match logs with
  | [] => None
  | entry :: logs' =>
      match parseJsonEntry entry with
      | Some j => if truthy (Some j) then Some (j, entry) else firstParsed logs'
      | None => firstParsed logs'
      end
  end.

Definition branch (type : string) (net : Z) (bet : option Z) (data d : option Json) (raw : string) : result ParsedGameLog :=
  if bool_decide (type = "BLACKJACK") then blackjackLog d
  else if bool_decide (type = "BACCARAT") then baccaratLog d
  else if bool_decide (type = "ROULETTE") then rouletteLog net d
  else if bool_decide (type = "CRAPS") then crapsLog d
  else if bool_decide (type = "SIC_BO") then sicBoLog d
  else if bool_decide (type = "HILO") then hiloLog net d data
  else if bool_decide (type = "THREE_CARD") then threeCardLog net d
  else if bool_decide (type = "ULTIMATE_HOLDEM") then ultimateHoldemLog net d
  else if bool_decide (type = "CASINO_WAR") then casinoWarLog net d bet
  else if bool_decide (type = "VIDEO_POKER") then videoPokerLog net d raw
  else Ok {| l_summary := formatSummaryLine "OUTCOME PENDING"; l_details := []; l_bets := None; l_raw := d |}.

Definition readData (type : string) (net : Z) (bet : option Z) (data : Json) (raw : string) : result ParsedGameLog :=
  let d := match data with JArray l => head l | _ => Some data end in
  standardized ← parseStandardizedLog d;
  match standardized with Some p => Ok p | None => branch type net bet (Some data) d raw end.

(** No line is read as a value: the words of video poker, or the first line as it is. *)
Definition readLines (net : Z) (first : string) (logs : list string) : ParsedGameLog :=
  match head (omap (parseVideoPokerLog net) logs) with
  | Some p => p
  | None => log (formatSummaryLine first) [] (buildResolvedBets [("ROUND", int net)]) (Some (JString first))
  end.

(** [bet]: the stake of the interface's state, if there is one. *)
Definition parseGameLogs (type : string) (logs : list string) (net : Z) (bet : option Z) : option ParsedGameLog :=
  match List.filter (fun entry => negb (bool_decide (trim entry = ""))) logs with
  | [] => None
  | first :: rest =>
      match firstParsed (first :: rest) with
      | Some (data, raw) => match readData type net bet data raw with Ok p => Some p | Throw _ => None end
      | None => Some (readLines net first (first :: rest))
      end
  end.

(** ** One roll of craps *)

Module CrapsLogs.

Record CrapsChainBetLog := {
  b_type : string; b_target : option Q; b_wagered : Q; b_odds : Q; b_returnAmount : Q; b_outcome : string
}.

Record CrapsChainRollLog := {
  c_dice : Q * Q; c_total : Q; c_point : Q; c_bets : list CrapsChainBetLog; c_totalWagered : Q; c_totalReturn : Q
}.

Definition MAX_LOG_ENTRY_LENGTH : Z := 10000.
Definition MAX_BETS_PER_LOG : nat := 20.

(** [s.length]: one for a character, two for one of four bytes. *)
Fixpoint units (s : string) : Z :=
  match s with
  | EmptyString => 0
  | String c s' =>
      let n := Text.code c in
      (if (128 <=? n) && (n <? 192) then 0 else if 240 <=? n then 2 else 1) + units s'
  end.

Definition toFiniteNumber (value : option Json) (fallback : Q) : result Q :=
  n ← toNumber value; Ok (default fallback (finite n)).

Definition isDie (q : Q) : bool := Qle_bool 1 q && Qle_bool q 6.

Definition rollOutcome (outcome : string) (returned wagered : Q) : string :=
  if bool_decide (outcome ∈ ["WIN"; "LOSS"; "PUSH"]) then outcome
  else if negb (Qle_bool returned wagered) then "WIN" else if Qeq_bool returned wagered then "PUSH" else "LOSS".

Definition rollBet (bet : Json) : result (option CrapsChainBetLog) :=
  let at_ k := optGet k (Some bet) in
  match default "" (textOf (at_ "type")) with
  | EmptyString => Ok None
  | type =>
      wagered ← toFiniteNumber (at_ "wagered") 0;
      odds ← toFiniteNumber (at_ "odds") 0;
      returned ← toFiniteNumber (at_ "return") 0;
      Ok (Some {| b_type := type; b_target := numberOf (at_ "target") ≫= finite; b_wagered := wagered; b_odds := odds;
                  b_returnAmount := returned;
                  b_outcome := rollOutcome (default "" (textOf (at_ "outcome"))) returned wagered |})
  end.

Definition parseCrapsLogEntry (entry : string) : result (option CrapsChainRollLog) :=
  if MAX_LOG_ENTRY_LENGTH <? units entry then Ok None
  else
    match Text.JSON_parse entry with
    | Some data =>
        match arrayOf (optGet "dice" (Some data)) with
        | Some (x :: y :: _) =>
            let at_ k := optGet k (Some data) in
            d1 ← toFiniteNumber (Some x) 0; d2 ← toFiniteNumber (Some y) 0;
            if negb (isDie d1 && isDie d2) then Ok None
            else
              total ← toFiniteNumber (at_ "total") (d1 + d2);
              totalWagered ← toFiniteNumber (at_ "totalWagered") 0;
              totalReturn ← toFiniteNumber (at_ "totalReturn") 0;
              point ← toFiniteNumber (at_ "point") 0;
              bets ← mapM_result rollBet (take MAX_BETS_PER_LOG (default [] (arrayOf (at_ "bets"))));
              Ok (Some {| c_dice := (d1, d2); c_total := total; c_point := point; c_bets := omap id bets;
                          c_totalWagered := totalWagered; c_totalReturn := totalReturn |})
        | _ => Ok None
        end
    | None => Ok None
    end.

Fixpoint parseCrapsChainRollLog (logs : list string) : result (option CrapsChainRollLog) :=
  match logs with
  | [] => Ok None
  | entry :: logs' =>
      if bool_decide (trim entry = "") then parseCrapsChainRollLog logs'
      else
        parsed ← parseCrapsLogEntry entry;
        match parsed with Some roll => Ok (Some roll) | None => parseCrapsChainRollLog logs' end
  end.

Definition formatCrapsChainBetLabel (type : string) (target : option Q) : string :=
  formatCrapsBetLabel type (Fin <$> target).

Definition betLabel (bet : CrapsChainBetLog) : string := formatCrapsChainBetLabel (b_type bet) (b_target bet).

Definition formatCrapsChainResults (roll : CrapsChainRollLog) : list string :=
  (fun bet => betLabel bet +:+ ": " +:+ b_outcome bet) <$> c_bets roll.

Definition formatCrapsChainResolvedBets (roll : CrapsChainRollLog) : list ResolvedBet :=
  imap (fun idx bet => {| r_id := betId (betLabel bet) idx; r_label := betLabel bet;
                          r_pnl := round (b_returnAmount bet - b_wagered bet - b_odds bet) |}) (c_bets roll).

Definition MAX_SAFE_INTEGER : Z := 2 ^ 53 - 1.

Definition with_pnl (f : Z -> Z) (bet : ResolvedBet) : ResolvedBet :=
  {| r_id := r_id bet; r_label := r_label bet; r_pnl := f (r_pnl bet) |}.

Definition sumPnl (bets : list ResolvedBet) : Z := foldl (fun acc bet => acc + r_pnl bet) 0 bets.

(** The bets scaled to the change of the chips, where both have a sign and are
    more than a hundredth apart; one bet that came to nothing gets it all. *)
Definition adjustResolvedBetsForNetPnl (bets : list ResolvedBet) (net : Z) : list ResolvedBet :=
  if bool_decide (bets = []) || (net =? 0) then bets
  else
    let sum := sumPnl bets in
    if sum =? 0 then match bets with [b] => [with_pnl (fun _ => net) b] | _ => bets end
    else if (MAX_SAFE_INTEGER <? sum) || (sum <? - MAX_SAFE_INTEGER) then bets
    else if negb (Z.sgn sum =? Z.sgn net) then bets
    else if 100 * Z.abs (net - sum) <? Z.abs sum then bets
    else with_pnl (fun pnl => round (inject_Z pnl * (net # 1) / inject_Z sum)) <$> bets.

End CrapsLogs.

(** ** What the session takes of it

    [handleGameCompleted]: the number the ball fell on and the cards a finished
    hand of blackjack reveals, read of [raw]. *)

Definition isObject (v : option Json) : bool :=
  match v with Some (JObject _) | Some (JArray _) => true | _ => false end.

Definition finiteOrNone (v : option Json) : result (option Num) :=
  n ← toNumber v; Ok (if isFinite n then Some n else None).

Definition rouletteResult (type : string) (raw : option Json) : result (option Num) :=
  if bool_decide (type = "ROULETTE") && isObject raw
  then finiteOrNone (orElse (optGet "result" raw) (orElse (optGet "number" raw) (orElse (optGet "roll" raw) (Some JNull))))
  else Ok None.

Record Reveal := {
  v_dealerCards : list Num; v_playerCards : list Num; v_dealerValue : option Num; v_playerValue : option Num
}.

Definition cardsOf (side : option Json) : result (list Num) :=
  mapM_result (fun c => toNumber (Some c)) (default [] (arrayOf (optGet "cards" side))).

Definition blackjackReveal (type : string) (raw : option Json) : result (option Reveal) :=
  if bool_decide (type = "BLACKJACK") && isObject raw then
    let dealer := optGet "dealer" raw in
    let hands := default [] (arrayOf (optGet "hands" raw)) in
    dealerCards ← cardsOf dealer; playerCards ← cardsOf (head hands);
    dealerValue ← finiteOrNone (optGet "value" dealer);
    playerValue ← finiteOrNone (optGet "value" (head hands));
    Ok (Some {| v_dealerCards := dealerCards; v_playerCards := playerCards;
                v_dealerValue := dealerValue; v_playerValue := playerValue |})
  else Ok None.

(** The whole number of a value that has to be one. *)
Definition wholeOrNone (n : option Num) : option (option Z) :=
  match n with Some n => z ← whole n; Some (Some z) | None => Some None end.

(** What [WebSession] takes: nothing where the handler throws, or meets a number
    that is not whole. *)
Definition shownLogs (type : string) (p : ParsedGameLog) : option ParsedLogs :=
  match rouletteResult type (l_raw p), blackjackReveal type (l_raw p) with
  | Ok n, Ok reveal =>
      n ← wholeOrNone n;
      let v := default {| v_dealerCards := []; v_playerCards := []; v_dealerValue := None; v_playerValue := None |} reveal in
      dealerCards ← mapM whole (v_dealerCards v); playerCards ← mapM whole (v_playerCards v);
      dealerValue ← wholeOrNone (v_dealerValue v); playerValue ← wholeOrNone (v_playerValue v);
      Some {| pg_summary := l_summary p; pg_details := l_details p; pg_rouletteResult := n;
              pg_dealerCards := dealerCards; pg_playerCards := playerCards;
              pg_dealerValue := dealerValue; pg_playerValue := playerValue |}
  | _, _ => None
  end.

(** The change of the chips, as the handler finds it before it reads the logs. *)
Definition eventNet (e : CasinoGameCompletedEvent) (w : Web) : Z :=
  let next := match ce_playerBalances e with Some b => shownChips w b | None => ce_finalChips e end in
  let wager := match w_ref (ui w) with Some s => u_sessionWager (common s) | None => 0 end in
  let interim := match w_ref (ui w) with Some s => u_sessionInterimPayout (common s) | None => 0 end in
  netPnL (ce_payout e) interim wager next (sessionStartChipsRef (refs w) !! ce_sessionId e).

Definition eventType (e : CasinoGameCompletedEvent) (w : Web) : string :=
  default (gameTypeRef (refs w)) (CHAIN_TO_FRONTEND_GAME_TYPE (ce_gameType e)).

Definition readLogs (e : CasinoGameCompletedEvent) (w : Web) : option ParsedGameLog :=
  parseGameLogs (eventType e w) (ce_logs e) (eventNet e w) (u_bet ∘ common <$> w_ref (ui w)).

(** The bets with their wins, as the table shows them at the end. *)
Definition resolvedBets (e : CasinoGameCompletedEvent) (w : Web) : list ResolvedBet :=
  CrapsLogs.adjustResolvedBetsForNetPnl (default [] (readLogs e w ≫= l_bets)) (eventNet e w).

(** The end of a game, from its event alone. *)
Definition gameCompleted (toLocaleString : Z -> string) (e : CasinoGameCompletedEvent) (w : Web) : option Web :=
  match readLogs e w with
  | None => Some (handleGameCompleted toLocaleString e None w)
  | Some p => logs ← shownLogs (eventType e w) p; Some (handleGameCompleted toLocaleString e (Some logs) w)
  end.

(** The dice of a roll, where they are whole. *)
Definition shownRoll (roll : CrapsLogs.CrapsChainRollLog) : option (Z * Z) :=
  d1 ← whole (Fin (CrapsLogs.c_dice roll).1); d2 ← whole (Fin (CrapsLogs.c_dice roll).2); Some (d1, d2).

(** A move, from its event alone; nothing where reading the logs throws, which
    here nobody catches, or where the dice are not whole. *)
Definition gameMoved (e : CasinoGameMovedEvent) (w : Web) : option Web :=
  if isCurrent (me_sessionId e) w && bool_decide (gameTypeRef (refs w) = "CRAPS") then
    match CrapsLogs.parseCrapsChainRollLog (me_logs e) with
    | Ok (Some roll) => dice ← shownRoll roll; Some (handleGameMoved e (Some dice) w)
    | Ok None => Some (handleGameMoved e None w)
    | Throw _ => None
    end
  else Some (handleGameMoved e None w).
