(* ===== verification/GameLogsCorrect.v ===== *)
(** * The account of a game as the site shows it

    A log with the standard fields is shown as it was written, whatever the game
    ([standard_shown]); the chain's account of a spin reaches the session's
    history and table through the event ([spin_shown]); the bets of a log have
    ids of their own ([bets_have_ids]), and their correction comes to the change
    of the chips up to half a chip a bet ([adjusted_close]). *)

From Stdlib Require Import QArith.QArith QArith.Qround.
From stdpp Require Import pretty.
From S2P Require Import Prelude JsNum WebBets Arith ChainCodec Calendar AuthUtils Json JsValues Roulette WebState WebGame WebSession WebSessionCorrect GameLogs RouletteLog.

#[local] Open Scope Z_scope.

(** ** A log with the standard fields *)

Lemma round_int z : JsValues.round (inject_Z z) = z.
Proof.
  unfold JsValues.round. apply Z.le_antisymm.
  - assert (H : Qfloor (inject_Z z + (1 # 2)) < z + 1); [|lia]. rewrite Zlt_Qlt.
    eapply Qle_lt_trans; [apply Qfloor_le|]. rewrite inject_Z_plus. apply Qplus_lt_r. done.
  - rewrite <- (Qfloor_Z z) at 1. apply Qfloor_resp_le. rewrite <- (Qplus_0_r (inject_Z z)) at 1. apply Qplus_le_r. done.
Qed.

(** The bets of a list of labels and wins. *)
Definition shownBets (es : list (string * Z)) : list ResolvedBet :=
  imap (fun i e => {| r_id := betId e.1 i; r_label := e.1; r_pnl := e.2 |}) es.

Lemma filter_kept {A} (p : A -> bool) l : (forall x, x ∈ l -> p x = true) -> List.filter p l = l.
Proof.
  induction l as [|x l IH]; intros H; [done|]. cbn. rewrite H by (apply list_elem_of_here). f_equal. apply IH. intros y Hy. apply H. by apply list_elem_of_further.
Qed.

Lemma build_shown es :
  Forall (fun e => e.1 <> "") es -> buildResolvedBets ((fun e => (e.1, int e.2)) <$> es) = shownBets es.
Proof.
  intros H. unfold buildResolvedBets, shownBets. rewrite imap_fmap. rewrite filter_kept.
  - apply imap_ext. intros i [l z] _. unfold compose. f_equal. apply round_int.
  - intros x Hx. apply elem_of_lookup_imap in Hx as (i & e & -> & He). cbn. rewrite Forall_forall in H.
    specialize (H e (list_elem_of_lookup_2 _ _ _ He)). by rewrite bool_decide_eq_false_2.
Qed.

Lemma trimEnd_last a c : is_space c = false -> trimEnd (a +:+ String c "") = a +:+ String c "".
Proof.
  intros Hc. induction a as [|x a IH].
  { change (trimEnd (String c "") = String c ""). cbn [trimEnd]. by rewrite Hc. }
  change (String x a +:+ String c "") with (String x (a +:+ String c "")). cbn [trimEnd]. rewrite IH. by destruct a.
Qed.

Lemma trim_object l : trim (Text.render (JObject l)) = Text.render (JObject l).
Proof.
  rewrite render_object. unfold trim. set (m := String.concat "," (memberText <$> l)).
  change (trimStart ("{" +:+ m +:+ "}")) with (("{" +:+ m) +:+ "}"). by apply trimEnd_last.
Qed.

Lemma parse_object l : Text.plain (JObject l) = true -> parseJsonEntry (Text.render (JObject l)) = Some (JObject l).
Proof.
  intros H. unfold parseJsonEntry. rewrite trim_object, bool_decide_eq_false_2 by (rewrite render_object; done).
  by rewrite Text.parse_render.
Qed.

Lemma parse_log type l net bet :
  Text.plain (JObject l) = true ->
  parseGameLogs type [Text.render (JObject l)] net bet
  = match readData type net bet (JObject l) (Text.render (JObject l)) with Ok p => Some p | Throw _ => None end.
Proof.
  intros H. unfold parseGameLogs. cbn [List.filter]. rewrite trim_object, bool_decide_eq_false_2 by (rewrite render_object; done).
  cbn [negb firstParsed]. by rewrite parse_object.
Qed.

Lemma entries_read es :
  mapM_result resolvedEntry (resolvedJson <$> es) = Ok ((fun e => (e.1, int e.2)) <$> es).
Proof. induction es as [|[l z] es IH]; [done|]. cbn [fmap list_fmap mapM_result]. fold (resolvedJson <$> es). rewrite IH. done. Qed.

(** The fields the chain writes for every game are shown as they were
    written: the summary as the line, and each resolved bet with its label and
    what it won, in the order of the log.  The branches of the games play no
    part, and neither does the result the site computed. *)
Theorem standard_shown type fields summary es net bet :
  Text.plain (JObject fields) = true ->
  field "summary" fields = Some (JString summary) -> trim summary <> "" ->
  field "resolvedBets" fields = Some (JArray (resolvedJson <$> es)) -> Forall (fun e => e.1 <> "") es ->
  parseGameLogs type [Text.render (JObject fields)] net bet
  = Some (log (formatSummaryLine (trim summary)) [] (shownBets es) (Some (JObject fields))).
Proof.
  intros Hp Hs Ht Hr He. rewrite parse_log by done. unfold readData, parseStandardizedLog. rewrite Hs, Hr.
  cbn [textOf from_option arrayOf default]. rewrite (bool_decide_eq_false_2 _ Ht). cbn [andb]. unfold id.
  rewrite entries_read. cbn [mbind result_bind]. by rewrite build_shown.
Qed.

(** ** The end of a spin *)

Lemma summary_shown st n :
  0 <= n <= 37 ->
  let s := summary_str st n in
  trim s <> "" /\ formatSummaryLine (trim s) = s +:+ "." /\ isPlaceholder (s +:+ ".") = false.
Proof.
  intros Hn s.
  assert (E : forallb (fun n => forallb (fun c =>
      let s := "Roll: " +:+ display_number n +:+ " " +:+ c in
      negb (bool_decide (trim s = "")) && bool_decide (formatSummaryLine (trim s) = s +:+ ".")
      && negb (isPlaceholder (s +:+ "."))) ["GREEN"; "RED"; "BLACK"]) (seqZ 0 38) = true) by by vm_compute.
  rewrite forallb_forall in E. specialize (E n ltac:(apply list_elem_of_In, elem_of_seqZ; lia)).
  rewrite forallb_forall in E. specialize (E (color_str st n) ltac:(unfold color_str; repeat case_match; cbn; tauto)).
  cbv zeta in E. fold (summary_str st n) in E. fold s in E. apply andb_prop in E as [[E1 E2]%andb_prop E3].
  apply negb_true_iff in E1, E3. by apply bool_decide_eq_false in E1; apply bool_decide_eq_true in E2.
Qed.

Lemma resolved_labelled st n tr : Forall (fun b => 0 <= cb_number b <= 255) (bets st) -> Forall (fun e => e.1 <> "") (resolved_of st n tr).
Proof.
  intros H. unfold resolved_of. apply Forall_app. split; [|by case_match; repeat constructor].
  apply Forall_fmap. eapply Forall_impl; [exact H|]. intros b Hb. by apply labels_plain.
Qed.

Lemma spin_read type st n tr net bet :
  representable st tr -> 0 <= n <= 37 ->
  parseGameLogs type (generate_roulette_logs st n tr) net bet
  = Some (log (summary_str st n +:+ ".") [] (shownBets (resolved_of st n tr)) (Some (logJson st n tr))).
Proof.
  intros H Hn. rewrite generate_renders by done. destruct (summary_shown st n Hn) as (Ht & Hf & _). rewrite <- Hf.
  apply (standard_shown type); [by apply log_plain|done|done|done|]. apply resolved_labelled. destruct H as (_ & _ & H & _).
  eapply Forall_impl; [exact H|]. by intros b [].
Qed.

Lemma foldl_sum bets acc : foldl (fun acc bet => acc + r_pnl bet) acc bets = acc + zsum r_pnl bets.
Proof. revert acc. induction bets as [|b bets IH]; intros acc; cbn [foldl]; [rewrite zsum_nil; lia|]. rewrite IH, zsum_cons. lia. Qed.

Lemma sumPnl_zsum bets : CrapsLogs.sumPnl bets = zsum r_pnl bets.
Proof. unfold CrapsLogs.sumPnl. rewrite foldl_sum. lia. Qed.

Lemma sum_shown es : CrapsLogs.sumPnl (shownBets es) = zsum snd es.
Proof.
  rewrite sumPnl_zsum. unfold shownBets. generalize 0%nat as k.
  enough (G : forall f : nat -> string * Z -> ResolvedBet, (forall i e, r_pnl (f i e) = e.2) -> zsum r_pnl (imap f es) = zsum snd es).
  { intros _. by apply G. }
  induction es as [|e es IH]; intros f Hf; [done|]. rewrite imap_cons, !zsum_cons, Hf. f_equal. apply IH. intros i x. apply Hf.
Qed.

Lemma last_drop {A} k (l : list A) x : (k <= length l)%nat -> last (drop k (l ++ [x])) = Some x.
Proof. intros H. by rewrite drop_app_le, last_snoc. Qed.

(** A correction that has nothing to correct. *)
Lemma adjust_exact bets net : CrapsLogs.sumPnl bets = net -> CrapsLogs.adjustResolvedBetsForNetPnl bets net = bets.
Proof.
  intros E. unfold CrapsLogs.adjustResolvedBetsForNetPnl. rewrite E. case_match eqn:E0; [done|].
  apply orb_false_iff in E0 as [_ E0]. rewrite E0. case_match; [done|]. rewrite Z.eqb_refl. cbn [negb].
  rewrite Z.sub_diag, Z.mul_0_r. cbn. apply Z.eqb_neq in E0. by rewrite (proj2 (Z.ltb_lt _ _)) by lia.
Qed.

(** What the end of a game shows of the logs. *)
Lemma completed_shows loc e p w :
  isCurrent (ce_sessionId e) w = true ->
  let type := eventType e w in
  let message := resultMessage type p (w_ref (ui w)) in
  let w' := handleGameCompleted loc e p w in
  u_message (common (w_state (ui w'))) = message
  /\ history (stats w') = history (stats w)
       ++ [buildHistoryEntry message (prependPnlLine loc (match p with Some p => pg_details p | None => [] end) (eventNet e w))]
  /\ t_history (roulette (w_state (ui w')))
     = pushRoulette (if bool_decide (type = "ROULETTE") then p ≫= pg_rouletteResult else None)
         (t_history (roulette (w_state (ui w)))).
Proof.
  intros Hc type message w'. subst w' message type. unfold handleGameCompleted. rewrite Hc. cbn [negb].
  by destruct (ce_playerBalances e) eqn:Eb; unfold eventNet; rewrite Eb.
Qed.

Lemma pushRoulette_last n h : last (pushRoulette (Some n) h) = Some n.
Proof. unfold pushRoulette. case_bool_decide; [done|]. apply push_graph_last. Qed.

(** C33. A spin as the player sees it.  The line the chain writes for a finished
    game of roulette, on the event of the current session, gives the site the
    chain's own summary as message and in the history, and the number at the
    end of the numbers shown, for stakes and returns that the numbers of the site
    hold ([representable]).  Where the chips changed by what the chain returned
    less what was staked, the bets of the table are the chain's, and together
    they won that change. *)
Theorem spin_shown loc e w st n tr :
  isCurrent (ce_sessionId e) w = true -> eventType e w = "ROULETTE" ->
  representable st tr -> 0 <= n <= 37 -> ce_logs e = generate_roulette_logs st n tr ->
  let message := summary_str st n +:+ "." in
  exists w', gameCompleted loc e w = Some w'
    /\ u_message (common (w_state (ui w'))) = message
    /\ last (history (stats w')) = Some (buildHistoryEntry message (prependPnlLine loc [] (eventNet e w)))
    /\ last (t_history (roulette (w_state (ui w')))) = Some n
    /\ (eventNet e w = tr - total_wagered st ->
        resolvedBets e w = shownBets (resolved_of st n tr) /\ zsum r_pnl (resolvedBets e w) = tr - total_wagered st).
Proof.
  intros Hc Ht Hr Hn Hl message.
  assert (Hread : readLogs e w = Some (log message [] (shownBets (resolved_of st n tr)) (Some (logJson st n tr)))).
  { unfold readLogs. rewrite Hl. by apply spin_read. }
  unfold gameCompleted, resolvedBets. rewrite Hread, Ht.
  assert (Hs : shownLogs "ROULETTE" (log message [] (shownBets (resolved_of st n tr)) (Some (logJson st n tr)))
    = Some {| pg_summary := message; pg_details := []; pg_rouletteResult := Some n; pg_dealerCards := [];
              pg_playerCards := []; pg_dealerValue := None; pg_playerValue := None |}).
  { unfold shownLogs. cbn [l_raw log].
    replace (rouletteResult "ROULETTE" (Some (logJson st n tr))) with (Ok (Some (int n))) by reflexivity.
    replace (blackjackReveal "ROULETTE" (Some (logJson st n tr))) with (Ok (A := option Reveal) None) by reflexivity.
    unfold wholeOrNone. replace (whole (int n)) with (Some n); [done|]. cbn. by rewrite Z.mod_1_r, Z.div_1_r. }
  rewrite Hs. cbn [mbind option_bind]. eexists. split; [done|].
  destruct (summary_shown st n Hn) as (_ & _ & Hp). fold message in Hp.
  match goal with |- context [handleGameCompleted loc e ?p w] => destruct (completed_shows loc e p w Hc) as (Hm & Hh & Hw) end.
  unfold resultMessage in Hm, Hh. cbn [pg_summary pg_details] in Hm, Hh. rewrite Hp in Hm, Hh. rewrite Ht in Hw.
  split_and!; [exact Hm|by rewrite Hh, last_snoc|rewrite Hw; apply pushRoulette_last|].
  intros Hnet. assert (Hsum : CrapsLogs.sumPnl (shownBets (resolved_of st n tr)) = eventNet e w).
  { by rewrite sum_shown, resolved_sum, Hnet. }
  cbn [default mbind option_bind l_bets log]. unfold id. rewrite (adjust_exact _ _ Hsum). split; [done|]. by rewrite <- sumPnl_zsum, Hsum.
Qed.

(** ** The correction to the change of the chips *)

Definition scaled (net sum pnl : Z) : Z := JsValues.round (inject_Z pnl * (net # 1) / inject_Z sum).

Lemma scaled_close net sum pnl :
  sum <> 0 -> - Z.abs sum <= 2 * (sum * scaled net sum pnl - pnl * net) <= Z.abs sum.
Proof.
  intros Hs. destruct sum as [|s|s]; [done|..].
  - replace (scaled net (Zpos s) pnl) with ((2 * (pnl * net) + Zpos s) / (2 * Zpos s)).
    + pose proof (Z.div_mod (2 * (pnl * net) + Zpos s) (2 * Zpos s) ltac:(lia)) as E.
      pose proof (Z.mod_pos_bound (2 * (pnl * net) + Zpos s) (2 * Zpos s) ltac:(lia)) as B.
      change (Z.abs (Z.pos s)) with (Z.pos s). nia.
    + unfold scaled, JsValues.round, Qfloor. cbn. f_equal; lia.
  - replace (scaled net (Zneg s) pnl) with ((- 2 * (pnl * net) + Zpos s) / (2 * Zpos s)).
    + pose proof (Z.div_mod (- 2 * (pnl * net) + Zpos s) (2 * Zpos s) ltac:(lia)) as E.
      pose proof (Z.mod_pos_bound (- 2 * (pnl * net) + Zpos s) (2 * Zpos s) ltac:(lia)) as B.
      change (Z.abs (Z.neg s)) with (Z.pos s). change (Z.neg s) with (- Z.pos s). nia.
    + unfold scaled, JsValues.round, Qfloor. cbn. f_equal; lia.
Qed.

Lemma scaled_sum net sum bets :
  sum <> 0 ->
  - (len bets * Z.abs sum) <= 2 * (sum * zsum (scaled net sum ∘ r_pnl) bets - zsum r_pnl bets * net) <= len bets * Z.abs sum.
Proof.
  intros Hs. unfold len. induction bets as [|b bets IH]; [rewrite !zsum_nil; cbn; lia|].
  rewrite !zsum_cons. cbn [length]. pose proof (scaled_close net sum (r_pnl b) Hs). unfold compose at 1 3. nia.
Qed.

(** What names a bet. *)
Definition named (b : ResolvedBet) : string * string := (r_id b, r_label b).

(** The correction of the bets to the change of the chips: the bets keep
    their order and their names; where their sum and the change have one sign,
    what they won together is then within a hundredth of the sum of the change,
    or within half a chip for each bet. *)
Theorem adjusted_close bets net :
  let sum := zsum r_pnl bets in
  let bets' := CrapsLogs.adjustResolvedBetsForNetPnl bets net in
  named <$> bets' = named <$> bets
  /\ (0 < sum * net -> Z.abs sum <= CrapsLogs.MAX_SAFE_INTEGER ->
      100 * Z.abs (net - zsum r_pnl bets') < Z.abs sum \/ 2 * Z.abs (net - zsum r_pnl bets') <= len bets).
Proof.
  intros sum bets'. subst sum bets'. unfold CrapsLogs.adjustResolvedBetsForNetPnl. rewrite sumPnl_zsum.
  set (sum := zsum r_pnl bets). split.
  - repeat case_match; try done. rewrite <- list_fmap_compose. by apply list_fmap_ext.
  - intros Hsgn Hmax. rewrite bool_decide_eq_false_2 by (intros ->; by cbn in Hsgn).
    rewrite (proj2 (Z.eqb_neq net 0)), (proj2 (Z.eqb_neq sum 0)) by nia. cbn [orb].
    rewrite (proj2 (Z.ltb_ge _ _)), (proj2 (Z.ltb_ge sum _)) by lia. cbn [orb].
    assert (Hs : Z.sgn sum = Z.sgn net) by nia. rewrite Hs, Z.eqb_refl. cbn [negb].
    case_match eqn:E; [left; lia|]. right. pose proof (scaled_sum net sum bets ltac:(nia)) as B.
    rewrite zsum_fmap. change (r_pnl ∘ CrapsLogs.with_pnl _) with (scaled net sum ∘ r_pnl). fold sum in B.
    nia.
Qed.

(** ** The names of the bets *)

Definition noDash (c : Ascii.ascii) : bool := negb (Text.is_char 45 c).

Lemma dash_suffix a b x y :
  everyChar noDash x = true -> everyChar noDash y = true -> a +:+ "-" +:+ x = b +:+ "-" +:+ y -> x = y.
Proof.
  intros Hx Hy. assert (N : forall z u, everyChar noDash z = true -> z <> u +:+ "-" +:+ y /\ z <> u +:+ "-" +:+ x).
  { intros z u Hz. split; intros ->; (induction u as [|c u IH]; [done|];
      cbn [everyChar String.append] in Hz; apply andb_prop in Hz as [_ Hz]; by apply IH). }
  revert b. induction a as [|c a IH]; intros [|d b] E.
  - by injection E.
  - injection E as _ E. by destruct (proj1 (N x b Hx)).
  - injection E as _ E. by destruct (proj2 (N y a Hy)).
  - injection E as _ E. by apply (IH b).
Qed.

Lemma pretty_noDash (k : N) : everyChar noDash (pretty k) = true.
Proof.
  unfold pretty, pretty_N. case_decide; [done|].
  enough (G : forall s, everyChar noDash s = true -> everyChar noDash (pretty_N_go k s) = true) by by apply G.
  clear. induction (N.lt_wf_0 k) as [k _ IH]. intros s Hs. destruct (N.eq_0_gt_0_cases k) as [->|E]; [done|].
  rewrite pretty_N_go_step by done. apply IH; [apply N.div_lt; lia|]. cbn [everyChar]. rewrite Hs, andb_true_r.
  pose proof (N.mod_lt k 10 ltac:(lia)) as Hm. destruct (Text.digit_char _ Hm) as [Hd _].
  unfold noDash. rewrite (Text.digit_code _ 45); [done| |lia]. by rewrite Hd.
Qed.

Definition numbered (pre : string) (i : nat) : string := pre +:+ "-" +:+ pretty (Z.of_nat i).

Lemma numbered_inj a b i j : numbered a i = numbered b j -> i = j.
Proof.
  unfold numbered. intros E. assert (P : forall k : nat, pretty (Z.of_nat k) = pretty (N.of_nat k)) by (intros [|k]; done).
  rewrite !P in E. apply dash_suffix in E; [|apply pretty_noDash..]. apply (inj pretty) in E. lia.
Qed.

(** Bets whose names have numbers below a bound, no number twice. *)
Inductive numberedTo : nat -> list ResolvedBet -> Prop :=
| Numbered0 : numberedTo 0 []
| NumberedS n bs : numberedTo n bs -> numberedTo (S n) bs
| NumberedSnoc n bs b pre : numberedTo n bs -> r_id b = numbered pre n -> numberedTo (S n) (bs ++ [b]).

Lemma numbered_below n bs b : numberedTo n bs -> b ∈ bs -> exists pre i, r_id b = numbered pre i /\ (i < n)%nat.
Proof.
  induction 1 as [|n bs _ IH|n bs b' pre _ IH Hb']; intros Hb; [by apply elem_of_nil in Hb| |].
  - destruct (IH Hb) as (p & i & ? & ?). exists p, i. split; [done|lia].
  - apply elem_of_app in Hb as [Hb|Hb%list_elem_of_singleton]; [|subst; exists pre, n; split; [done|lia]].
    destruct (IH Hb) as (p & i & ? & ?). exists p, i. split; [done|lia].
Qed.

Lemma numbered_distinct n bs : numberedTo n bs -> NoDup (r_id <$> bs).
Proof.
  induction 1 as [|n bs _ IH|n bs b pre Hbs IH Hb]; [constructor|done|].
  rewrite fmap_app. apply NoDup_app. split_and!; [done| |apply NoDup_singleton].
  intros x Hx Hx'. apply list_elem_of_fmap in Hx as (b' & -> & Hb'). cbn in Hx'. apply list_elem_of_singleton in Hx'.
  destruct (numbered_below _ _ _ Hbs Hb') as (p & i & E & Hi). rewrite Hb, E in Hx'. apply numbered_inj in Hx'. lia.
Qed.

Lemma numbered_build es : numberedTo (length es) (buildResolvedBets es).
Proof.
  induction es as [|e es IH] using rev_ind; [constructor|]. unfold buildResolvedBets in *.
  rewrite imap_app, List.filter_app, length_app, Nat.add_1_r. cbn [imap List.filter].
  case_match; [|rewrite app_nil_r; by constructor]. eapply NumberedSnoc; [done|]. cbn. unfold betId, numbered, compose.
  by rewrite Nat.add_0_r.
Qed.

Definition countedBets (bs : list ResolvedBet) : Prop := exists n, numberedTo n bs.
Definition named_log (p : ParsedGameLog) : Prop := forall bs, l_bets p = Some bs -> countedBets bs.
Definition named_result (r : result ParsedGameLog) : Prop := forall p, r = Ok p -> named_log p.

Lemma named_bind {A} (m : result A) f : (forall a, m = Ok a -> named_result (f a)) -> named_result (m ≫= f).
Proof. destruct m as [a|]; [|done]. intros H. by apply H. Qed.

Lemma counted_build es : countedBets (buildResolvedBets es).
Proof. eexists. apply numbered_build. Qed.

Lemma named_ok s ds bs raw : countedBets bs -> named_result (Ok (log s ds bs raw)).
Proof. by intros H p [= <-] ? [= <-]. Qed.

Lemma counted_nil : countedBets [].
Proof. exists O. constructor. Qed.

Lemma video_named net raw p : parseVideoPokerLog net raw = Some p -> named_log p.
Proof. unfold parseVideoPokerLog. repeat case_match; try done. intros [= <-] ? [= <-]. apply counted_build. Qed.

Ltac named := repeat first [apply named_bind; intros ? _ | apply named_ok, counted_build | case_match].

Lemma side_named line label id staked returned acc acc' :
  sideBet line label id staked returned acc = Ok acc' ->
  numberedTo (length acc.2) acc.2 -> numberedTo (length acc'.2) acc'.2.
Proof.
  unfold sideBet. destruct (numberOr0 staked); [|done]. cbn [mbind result_bind]. case_match; [|by intros [= <-]].
  destruct (numberOr0 returned); [|done]. intros [= <-] H'. cbn [snd]. rewrite length_app, Nat.add_1_r. by eapply NumberedSnoc.
Qed.

Lemma build_length es : Forall (fun e => e.1 <> "") es -> length (buildResolvedBets es) = length es.
Proof.
  intros H. unfold buildResolvedBets. rewrite filter_kept; [by rewrite length_imap|].
  intros x Hx. apply elem_of_lookup_imap in Hx as (i & e & -> & He). cbn. rewrite Forall_forall in H.
  specialize (H e (list_elem_of_lookup_2 _ _ _ He)). by rewrite bool_decide_eq_false_2.
Qed.

Lemma hands_labelled {A} hands (f : A -> Num) l :
  Forall (fun e => e.1 <> "") (imap (fun i s => (handLabel hands i, f s)) l).
Proof.
  apply Forall_forall. intros x Hx. apply elem_of_lookup_imap in Hx as (i & e & -> & _). cbn. unfold handLabel. by case_match.
Qed.

Lemma blackjack_named d : named_result (blackjackLog d).
Proof.
  unfold blackjackLog. do 6 (apply named_bind; intros ? _). cbv zeta.
  apply named_bind. intros stakes _. set (es := imap _ stakes).
  assert (H0 : forall ds : list string, numberedTo (length (ds, buildResolvedBets es).2) (ds, buildResolvedBets es).2).
  { intros ds. cbn [snd]. rewrite build_length by apply (hands_labelled _ (fun s => minus s.2 s.1)). apply numbered_build. }
  match goal with |- context [sideBet _ _ _ _ _ (?ds, _)] => specialize (H0 ds) end.
  repeat (apply named_bind; intros ? E; first [eapply side_named in E; [clear H0; rename E into H0|exact H0] | clear E]).
  apply named_ok. eexists. exact H0.
Qed.

Lemma standard_named d p : parseStandardizedLog d = Ok (Some p) -> named_log p.
Proof.
  unfold parseStandardizedLog. destruct d as [[| | | | |l]|]; try done. case_match; [done|].
  destruct (mapM_result _ _) as [es|]; [|done]. intros [= <-] ? [= <-]. apply counted_build.
Qed.

Lemma branch_named type net bet data d raw : named_result (branch type net bet data d raw).
Proof.
  unfold branch. case_match; [apply blackjack_named|].
  unfold baccaratLog, rouletteLog, crapsLog, sicBoLog, hiloLog, threeCardLog, ultimateHoldemLog, casinoWarLog, videoPokerLog.
  repeat case_match; named; try (apply named_ok, counted_nil).
  all: intros ? [= <-]; try by eapply video_named. done.
Qed.

Lemma data_named type net bet data raw : named_result (readData type net bet data raw).
Proof.
  unfold readData. cbv zeta. apply named_bind. intros [p|] Hp; [|apply branch_named].
  intros ? [= <-]. by eapply standard_named.
Qed.

Lemma lines_named net first logs : named_log (readLines net first logs).
Proof.
  unfold readLines. case_match eqn:E; [|intros ? [= <-]; apply counted_build].
  apply head_Some in E as [l' E]. assert (Hin : p ∈ omap (parseVideoPokerLog net) logs) by (rewrite E; apply list_elem_of_here).
  apply list_elem_of_omap in Hin as (raw & _ & H). by eapply video_named.
Qed.

(** The bets of a log have names of their own, whatever the game, whether
    the log is of the chain or of an older form, and also after side bets were
    added to them: no two bets of one log have the same id. *)
Theorem bets_have_ids type logs net bet p bs :
  parseGameLogs type logs net bet = Some p -> l_bets p = Some bs -> NoDup (r_id <$> bs).
Proof.
  intros Hp Hb. assert (H : named_log p); [|destruct (H bs Hb) as [n Hn]; by eapply numbered_distinct].
  revert Hp. unfold parseGameLogs. case_match; [done|]. destruct (firstParsed _) as [[data raw]|].
  - pose proof (data_named type net bet data raw) as Hd. destruct (readData _ _ _ _ _) as [q|]; [|done].
    intros [= <-]. by apply Hd.
  - intros [= <-]. apply lines_named.
Qed.

(** ** What a log without a number leaves *)

(** The number of a spin is read of [raw] with nothing in its place as [null],
    which is the number 0: a log without it adds a zero to the numbers shown. *)
Theorem missing_number_is_zero summary es :
  rouletteResult "ROULETTE" (Some (JObject [("summary", JString summary); ("resolvedBets", JArray es)])) = Ok (Some (int 0)).
Proof. done. Qed.

(** ** Examples *)

(** Fifty on red, and the ball on 32. *)
Definition redSpin : RouletteState :=
  {| zero_rule := Standard; phase := Betting; total_wagered := 50; pending_return := 0;
     bets := [{| cb_type := Red; cb_number := 0; cb_amount := 50 |}]; rs_result := Some 32 |}.

Definition redEvent : CasinoGameCompletedEvent :=
  {| ce_sessionId := 7; ce_player := []; ce_gameType := 6; ce_payout := 100; ce_finalChips := 1050;
     ce_wasShielded := false; ce_wasDoubled := false; ce_logs := generate_roulette_logs redSpin 32 100;
     ce_playerBalances := None |}.

Lemma spin_shown_witness :
  let w := run (fun _ => "") (take 6 wholeRound) onRed in
  exists w', gameCompleted (fun _ => "") redEvent w = Some w'
    /\ u_message (common (w_state (ui w'))) = "Roll: 32 RED." /\ last (t_history (roulette (w_state (ui w')))) = Some 32
    /\ resolvedBets redEvent w = [{| r_id := "red-0"; r_label := "RED"; r_pnl := 50 |}].
Proof.
  cbv zeta. destruct (spin_shown (fun _ => "") redEvent (run (fun _ => "") (take 6 wholeRound) onRed) redSpin 32 100)
    as (w' & H1 & H2 & _ & H3 & H4); [by vm_compute|by vm_compute|split_and!; [done|done|done|done| |by vm_compute]|lia|done|].
  { by repeat constructor. }
  exists w'. split_and!; [exact H1|rewrite H2; by vm_compute|exact H3|]. destruct H4 as [-> _]; by vm_compute.
Defined.

Lemma bets_have_ids_witness :
  exists p bs, parseGameLogs "ROULETTE" (generate_roulette_logs redSpin 32 90) 40 None = Some p /\ l_bets p = Some bs
    /\ r_id <$> bs = ["red-0"; "adjustment-1"] /\ NoDup (r_id <$> bs).
Proof.
  do 2 eexists. match goal with |- ?a /\ ?b /\ _ => assert (H1 : a) by (vm_compute; reflexivity); assert (H2 : b) by (vm_compute; reflexivity) end.
  split_and!; [exact H1|exact H2|by vm_compute|exact (bets_have_ids _ _ _ _ _ _ H1 H2)].
Defined.

Lemma adjusted_close_witness :
  let b z := {| r_id := "a"; r_label := "A"; r_pnl := z |} in
  let bets' := CrapsLogs.adjustResolvedBetsForNetPnl [b 5; b 5; b (-3)] 20 in
  r_pnl <$> bets' = [14; 14; -9] /\ (100 * Z.abs (20 - zsum r_pnl bets') < 7 \/ 2 * Z.abs (20 - zsum r_pnl bets') <= 3).
Proof.
  cbv zeta. split; [by vm_compute|].
  destruct (adjusted_close [{| r_id := "a"; r_label := "A"; r_pnl := 5 |}; {| r_id := "a"; r_label := "A"; r_pnl := 5 |};
                            {| r_id := "a"; r_label := "A"; r_pnl := -3 |}] 20) as [_ H].
  apply H; by vm_compute.
Defined.
