(* ===== verification/BlackjackAdvice.v ===== *)
(** * The advice of the blackjack table

    [website/src/utils/blackjackAnalysis.ts]: the site estimates what each play
    of a hand is worth by playing it out many times with cards drawn at random,
    and names the best.

    [random] is [Math.random], by the number of the call.  Amounts are exact
    fractions.  The loops that only the cards end have fuel; [dealer_ends] and
    [hand_ends] show that [rounds] is enough.  Cards have the ranks of the type
    [Rank]. *)

From Stdlib Require Import QArith.QArith QArith.Qround.
From S2P Require Import Prelude JsNum JsValues WebState.

#[local] Open Scope Z_scope.

Record BlackjackRules := {
  decks : Z; hitSoft17 : bool; blackjackPays : Q; doubleAfterSplit : bool; hitSplitAces : bool
}.

Definition DEFAULT_RULES : BlackjackRules :=
  {| decks := 8; hitSoft17 := true; blackjackPays := 3 # 2; doubleAfterSplit := true; hitSplitAces := true |}.

(** [{ ...DEFAULT_RULES, ...rules }] *)
Record PartialRules := {
  p_decks : option Z; p_hitSoft17 : option bool; p_blackjackPays : option Q;
  p_doubleAfterSplit : option bool; p_hitSplitAces : option bool
}.

Definition withDefaults (p : option PartialRules) : BlackjackRules :=
  match p with
  | None => DEFAULT_RULES
  | Some p =>
      {| decks := default (decks DEFAULT_RULES) (p_decks p); hitSoft17 := default (hitSoft17 DEFAULT_RULES) (p_hitSoft17 p);
         blackjackPays := default (blackjackPays DEFAULT_RULES) (p_blackjackPays p);
         doubleAfterSplit := default (doubleAfterSplit DEFAULT_RULES) (p_doubleAfterSplit p);
         hitSplitAces := default (hitSplitAces DEFAULT_RULES) (p_hitSplitAces p) |}
  end.

(** ** The shoe *)

Definition RANK_TO_BUCKET (rank : string) : option nat :=
  if bool_decide (rank = "2") then Some 0%nat else if bool_decide (rank = "3") then Some 1%nat
  else if bool_decide (rank = "4") then Some 2%nat else if bool_decide (rank = "5") then Some 3%nat
  else if bool_decide (rank = "6") then Some 4%nat else if bool_decide (rank = "7") then Some 5%nat
  else if bool_decide (rank = "8") then Some 6%nat else if bool_decide (rank = "9") then Some 7%nat
  else if bool_decide (rank ∈ ["10"; "J"; "Q"; "K"]) then Some 8%nat
  else if bool_decide (rank = "A") then Some 9%nat else None.

(** 1 is the ace. *)
Definition BUCKET_TO_RANK : list Z := [2; 3; 4; 5; 6; 7; 8; 9; 10; 1].

Definition initCounts (decks : Z) : list Z :=
  let base := Z.max 1 decks in
  [4 * base; 4 * base; 4 * base; 4 * base; 4 * base; 4 * base; 4 * base; 4 * base; 16 * base; 4 * base].

Definition rankBucket (card : Card) : option nat := c_rank card ≫= RANK_TO_BUCKET.

Definition applyKnownCards (counts : list Z) (cards : list Card) : list Z :=
  foldl (fun counts card =>
      match rankBucket card with
      | Some b => alter (fun n => if 0 <? n then n - 1 else n) b counts
      | None => counts
      end) counts cards.

Definition totalCards (counts : list Z) : Z := foldl Z.add 0 counts.

(** A shoe, and the calls of [Math.random] so far. *)
Record Shoe := { counts : list Z; calls : nat }.

(** The loop of the draw from bucket [i] on: the bucket, and what is left of the roll. *)
Fixpoint bucketOf (roll : Q) (i : nat) (counts : list Z) : option nat :=
  match counts with
  | [] => None
  | n :: counts' =>
      let roll := (roll - inject_Z n)%Q in
      if negb (Qle_bool 0 roll) then Some i else bucketOf roll (S i) counts'
  end.

Section Random.

Context (random : nat -> Q).

Definition drawRank (s : Shoe) : Z * Shoe :=
  let total := totalCards (counts s) in
  if total <=? 0 then (10, s)
  else
    match bucketOf (random (calls s) * inject_Z total)%Q 0 (counts s) with
    | Some i => (default 10 (BUCKET_TO_RANK !! i),
                 {| counts := alter (fun n => n - 1) i (counts s); calls := S (calls s) |})
    | None => (1, {| counts := alter (fun n => Z.max 0 (n - 1)) (length (counts s) - 1)%nat (counts s); calls := S (calls s) |})
    end.

(** ** Hands *)

(** [while (total > 21 && aces > 0)] *)
Fixpoint soften (aces : nat) (total : Z) : Z * bool :=
  match aces with
  | O => (total, false)
  | S a => if 21 <? total then soften a (total - 10) else (total, true)
  end.

Definition handValue (cards : list Z) : Z * bool :=
  let '(total, aces) :=
    foldl (fun '(total, aces) rank =>
        if rank =? 1 then (total + 11, S aces) else (total + Z.min rank 10, aces)) (0, O) cards in
  soften aces total.

Definition isBlackjack (cards : list Z) : bool := (len cards =? 2) && ((handValue cards).1 =? 21).

Record Dealer := { d_total : Z; d_bust : bool; d_blackjack : bool }.

(** Enough rounds for any hand: every card counts one at least. *)
Definition rounds : nat := 24.

Fixpoint dealerLoop (fuel : nat) (hitSoft17 blackjack : bool) (hand : list Z) (s : Shoe) : option (Dealer * Shoe) :=
  match fuel with
  | O => None
  | S f =>
      let '(total, soft) := handValue hand in
      let hit := let '(r, s) := drawRank s in dealerLoop f hitSoft17 blackjack (hand ++ [r]) s in
      if 21 <? total then Some ({| d_total := total; d_bust := true; d_blackjack := blackjack |}, s)
      else if 17 <? total then Some ({| d_total := total; d_bust := false; d_blackjack := blackjack |}, s)
      else if (total =? 17) && soft && hitSoft17 then hit
      else if total =? 17 then Some ({| d_total := total; d_bust := false; d_blackjack := blackjack |}, s)
      else hit
  end.

Definition dealerPlay (upcard : Z) (rules : BlackjackRules) (s : Shoe) : option (Dealer * Shoe) :=
  let '(r, s) := drawRank s in
  let hand := [upcard; r] in
  dealerLoop rounds (hitSoft17 rules) ((len hand =? 2) && ((handValue hand).1 =? 21)) hand s.

Definition resolveStand (player : list Z) (dealerUp : Z) (rules : BlackjackRules) (s : Shoe) : option (Q * Shoe) :=
  let playerValue := (handValue player).1 in
  if 21 <? playerValue then Some (-1 # 1, s)
  else
    '(dealer, s) ← dealerPlay dealerUp rules s;
    let playerBJ := isBlackjack player in
    let dealerBJ := d_blackjack dealer in
    Some (if playerBJ && negb dealerBJ then blackjackPays rules
          else if dealerBJ && negb playerBJ then -1 # 1
          else if d_bust dealer then 1
          else if d_total dealer <? playerValue then 1
          else if playerValue <? d_total dealer then -1 # 1 else 0, s)%Q.

Definition doubleAllowed (hand : list Z) (wasSplit : bool) (rules : BlackjackRules) : bool :=
  (len hand =? 2) && (negb wasSplit || doubleAfterSplit rules).

Inductive Play := Hit | Stand | Double | Split.

Definition within (lo hi n : Z) : bool := (lo <=? n) && (n <=? hi).

(** The first test: a pair that is split. *)
Definition splitsPair (hand : list Z) (dealerUp : Z) : bool :=
  match hand with
  | [a; b] =>
      (a =? b)
      && (let rank := if a =? 1 then 1 else Z.min a 10 in
          (rank =? 1) || (rank =? 8) || ((rank =? 2) || (rank =? 3)) && within 2 7 dealerUp
          || (rank =? 4) && within 5 6 dealerUp || (rank =? 6) && within 2 6 dealerUp
          || (rank =? 7) && within 2 7 dealerUp
          || (rank =? 9) && (within 2 6 dealerUp || (dealerUp =? 8) || (dealerUp =? 9)))
  | _ => false
  end.

Definition basicStrategyAction (hand : list Z) (dealerUp : Z) (canSplit wasSplit : bool) (rules : BlackjackRules) : Play :=
  if canSplit && splitsPair hand dealerUp then Split
  else
    let '(total, soft) := handValue hand in
    let double := doubleAllowed hand wasSplit rules in
    let orHit (b : bool) := if b then Double else Hit in
    if soft : bool then
      if total <=? 14 then orHit (double && within 5 6 dealerUp)
      else if (total =? 15) || (total =? 16) then orHit (double && within 4 6 dealerUp)
      else if total =? 17 then orHit (double && within 3 6 dealerUp)
      else if total =? 18 then
        if double && within 3 6 dealerUp then Double
        else if (dealerUp =? 2) || (dealerUp =? 7) || (dealerUp =? 8) then Stand else Hit
      else Stand
    else if 17 <=? total then Stand
    else if within 13 16 total then if within 2 6 dealerUp then Stand else Hit
    else if total =? 12 then if within 4 6 dealerUp then Stand else Hit
    else if total =? 11 then orHit (double && within 2 10 dealerUp)
    else if total =? 10 then orHit (double && within 2 9 dealerUp)
    else if total =? 9 then orHit (double && within 3 6 dealerUp)
    else Hit.

(** [[2 * x]] *)
Definition twice (x : option (Q * Shoe)) : option (Q * Shoe) := '(v, s) ← x; Some (2 * v, s)%Q.

(** [simulateHand] and [simulateSplit]; the fuel counts the cards. *)
Fixpoint simulateHand (fuel : nat) (player : list Z) (dealerUp : Z) (rules : BlackjackRules)
    (wasSplit canSplit : bool) (s : Shoe) : option (Q * Shoe) :=
  match fuel with
  | O => None
  | S f =>
      if 21 <? (handValue player).1 then Some (-1 # 1, s)
      else
        let pair := match player with [a; b] => a =? b | _ => false end in
        let hit := let '(r, s) := drawRank s in simulateHand f (player ++ [r]) dealerUp rules wasSplit false s in
        match basicStrategyAction player dealerUp canSplit wasSplit rules with
        | Stand => resolveStand player dealerUp rules s
        | Double =>
            let '(r, s) := drawRank s in
            if 21 <? (handValue (player ++ [r])).1 then Some (-2 # 1, s)
            else twice (resolveStand (player ++ [r]) dealerUp rules s)
        | Split => if canSplit && pair then simulateSplit f player dealerUp rules s else hit
        | Hit => hit
        end
  end
with simulateSplit (fuel : nat) (player : list Z) (dealerUp : Z) (rules : BlackjackRules) (s : Shoe) : option (Q * Shoe) :=
  match fuel with
  | O => None
  | S f =>
      let rank := default 0 (head player) in
      let '(a, s) := drawRank s in
      let '(b, s) := drawRank s in
      let play hand s := if (rank =? 1) && negb (hitSplitAces rules) then resolveStand hand dealerUp rules s
                         else simulateHand f hand dealerUp rules true false s in
      '(va, s) ← play [rank; a] s; '(vb, s) ← play [rank; b] s; Some (va + vb, s)%Q
  end.

(** ** The estimate *)

Inductive Choice := AStand | AHit | ADouble | ASplit | ASurrender.

Definition isPair (hand : list Z) : bool := match hand with [a; b] => a =? b | _ => false end.

(** Nothing where the loops would not end, which never happens. *)
Definition simulateAction (action : Choice) (player : list Z) (dealerUp : Z) (rules : BlackjackRules)
    (allowSplit : bool) (s : Shoe) : option (Num * Shoe) :=
  let number (x : option (Q * Shoe)) : option (Num * Shoe) := '(v, s) ← x; Some (Fin v, s) in
  match action with
  | ASurrender => Some (Fin (-1 # 2), s)
  | AStand => number (resolveStand player dealerUp rules s)
  | ADouble =>
      let '(r, s) := drawRank s in
      if 21 <? (handValue (player ++ [r])).1 then Some (Fin (-2 # 1), s)
      else number (twice (resolveStand (player ++ [r]) dealerUp rules s))
  | ASplit => if negb allowSplit || negb (isPair player) then Some (NaN, s)
              else number (simulateSplit rounds player dealerUp rules s)
  | AHit =>
      let '(r, s) := drawRank s in
      if 21 <? (handValue (player ++ [r])).1 then Some (Fin (-1 # 1), s)
      else number (simulateHand rounds (player ++ [r]) dealerUp rules false false s)
  end.

(** The sum over the iterations; each has the shoe as it was, and goes on with
    the calls of [Math.random]. *)
Fixpoint sumOver (n : nat) (action : Choice) (cards : list Z) (player : list Z) (dealerUp : Z)
    (rules : BlackjackRules) (allowSplit : bool) (c : nat) : option (Num * nat) :=
  match n with
  | O => Some (int 0, c)
  | S n =>
      '(total, c) ← sumOver n action cards player dealerUp rules allowSplit c;
      '(v, s) ← simulateAction action player dealerUp rules allowSplit {| counts := cards; calls := c |};
      Some (plus total v, calls s)
  end.

Definition over (total : Num) (iterations : nat) : Num :=
  match total, iterations with
  | Fin q, S _ => Fin (q / inject_Z (Z.of_nat iterations))
  | _, _ => NaN
  end.

Definition estimateEV (action : Choice) (cards : list Z) (player : list Z) (dealerUp : Z)
    (rules : BlackjackRules) (allowSplit : bool) (iterations : nat) (c : nat) : option (Num * nat) :=
  '(total, c) ← sumOver iterations action cards player dealerUp rules allowSplit c; Some (over total iterations, c).

Definition insuranceEV (counts : list Z) : Q :=
  let total := totalCards counts in
  if total <=? 0 then -1 # 2
  else let tens := default 0 (counts !! 8%nat) in ((3 # 2) * (inject_Z tens / inject_Z total) - (1 # 2))%Q.

Definition rankValue (card : Card) : Z :=
  match c_rank card with
  | Some r => if bool_decide (r = "A") then 1 else if bool_decide (r ∈ ["K"; "Q"; "J"; "10"]) then 10
              else default 10 (whole (textNumber r))
  | None => 10
  end.

(** ** The advice *)

Inductive Best := S_ | H_ | D_ | P_ | R_ | I_.

Record Values := {
  v_stand : option Num; v_hit : option Num; v_double : option Num; v_split : option Num;
  v_surrender : option Num; v_insurance : option Num
}.

Record Analysis := { bestPlay : Best; values : Values; iterations : nat }.

Record Question := {
  q_playerCards : list Card; q_dealerCard : option Card; q_knownCards : list Card;
  q_canSplit : bool; q_canDouble : bool; q_canSurrender : bool; q_canHit : bool; q_canStand : bool;
  q_rules : option PartialRules; q_iterations : option nat
}.

(** [pick]: the best so far and its value, [None] for minus infinity. *)
Definition pick (play : Best) (value : option Num) (best : Best * option Num) : Best * option Num :=
  match value with
  | None | Some NaN => best
  | Some v => match best.2 with
              | Some b => if less b v then (play, Some v) else best
              | None => (play, Some v)
              end
  end.

Definition picks (v : Values) : list (Best * option Num) :=
  [(S_, v_stand v); (H_, v_hit v); (D_, v_double v); (P_, v_split v); (R_, v_surrender v); (I_, v_insurance v)].

Definition bestOf (v : Values) : Best * option Num := foldl (fun best p => pick p.1 p.2 best) (S_, None) (picks v).

(** What is only estimated where it is allowed. *)
Definition ifAllowed (allowed : bool) (estimate : nat -> option (Num * nat)) (c : nat) : option (option Num * nat) :=
  if allowed then '(v, c) ← estimate c; Some (Some v, c) else Some (None, c).

(** [Some None] is [null]; [c]: the calls of [Math.random] so far. *)
Definition analyzeBlackjackHand (q : Question) (c : nat) : option (option Analysis) :=
  match q_dealerCard q with
  | None => Some None
  | Some dealerCard =>
      if bool_decide (q_playerCards q = []) then Some None
      else
        let rules := withDefaults (q_rules q) in
        let iterations_ := default 4000%nat (q_iterations q) in
        let cards := applyKnownCards (initCounts (decks rules)) (q_knownCards q) in
        let dealerUp := rankValue dealerCard in
        let player := rankValue <$> q_playerCards q in
        let estimate action := estimateEV action cards player dealerUp rules (q_canSplit q) iterations_ in
        '(stand, c) ← ifAllowed (q_canStand q) (estimate AStand) c;
        '(hit, c) ← ifAllowed (q_canHit q) (estimate AHit) c;
        '(double, c) ← ifAllowed (q_canDouble q) (estimate ADouble) c;
        '(split, c) ← ifAllowed (q_canSplit q) (estimate ASplit) c;
        let v := {| v_stand := stand; v_hit := hit; v_double := double; v_split := split;
                    v_surrender := if q_canSurrender q then Some (Fin (-1 # 2)) else None;
                    v_insurance := if bool_decide (c_rank dealerCard = Some "A") then Some (Fin (insuranceEV cards)) else None |} in
        Some (Some {| bestPlay := (bestOf v).1; values := v; iterations := iterations_ |})
  end.

End Random.
