(* ===== verification/BlackjackAdviceCorrect.v ===== *)
(** * The advice of the blackjack table, proved

    The loops end and the values have their bounds whatever is drawn
    ([advice_sound]); a draw takes a card the shoe has ([draw_takes]); and two
    defects: the hands of a split are paid as naturals ([split_paid_as_natural]),
    and insurance is advised at a loss ([insurance_advised]). *)

From Stdlib Require Import QArith.QArith QArith.Qround Lqa.
From S2P Require Import Prelude JsNum JsValues WebState BlackjackAdvice.

#[local] Open Scope Z_scope.

(** ** Hands *)

Definition card_ (r : Z) : Prop := 1 <= r <= 10.

(** The total with every ace as one. *)
Definition hard (hand : list Z) : Z := zsum (fun r => if r =? 1 then 1 else Z.min r 10) hand.

Definition aces (hand : list Z) : Z := zsum (fun r => if r =? 1 then 1 else 0) hand.

Lemma handValue_fold hand t a :
  foldl (fun '(total, n) rank => if rank =? 1 then (total + 11, S n) else (total + Z.min rank 10, n)) (t, a) hand
  = (t + hard hand + 10 * aces hand, (a + Z.to_nat (aces hand))%nat).
Proof.
  assert (Ha : forall h, 0 <= aces h) by (intros h; apply zsum_nonneg; intros x _; by case_match).
  revert t a. induction hand as [|r hand IH]; intros t a; cbn [foldl]; [f_equal; cbn; lia|].
  specialize (Ha hand). unfold hard, aces in *. rewrite !zsum_cons. case_match; rewrite IH; f_equal; lia.
Qed.

Lemma hard_aces hand : Forall card_ hand -> aces hand <= hard hand /\ 0 <= aces hand /\ len hand <= hard hand.
Proof.
  unfold hard, aces, len. induction 1 as [|r hand Hr _ IH]; [done|]. rewrite !zsum_cons. cbn [length]. unfold card_ in Hr.
  case_match; lia.
Qed.

Lemma soften_spec (n : nat) t :
  let h := t - 10 * Z.of_nat n in
  Z.of_nat n <= h ->
  soften n t = if (0 <? Z.of_nat n) && (h <=? 11) then (h + 10, true) else (h, false).
Proof.
  revert t. induction n as [|n IH]; intros t h Hn; subst h; cbn [soften]; [f_equal; lia|].
  destruct (Z.ltb_spec 21 t).
  - rewrite IH by lia. destruct n as [|n].
    + destruct (Z.leb_spec (t - 10 * Z.of_nat 1) 11); [lia|]. rewrite andb_false_r. cbn [Z.of_nat Z.ltb Z.compare andb]. f_equal. lia.
    + rewrite !(proj2 (Z.ltb_lt 0 _)) by lia. cbn [andb]. replace (t - 10 - 10 * Z.of_nat (S n)) with (t - 10 * Z.of_nat (S (S n))) by lia. done.
  - rewrite (proj2 (Z.ltb_lt 0 _)), (proj2 (Z.leb_le _ _)) by lia. cbn [andb]. f_equal.
    destruct n; [lia|]. lia.
Qed.

(** One ace counts eleven where the hand can bear it. *)
Lemma handValue_spec hand :
  Forall card_ hand ->
  handValue hand = if (0 <? aces hand) && (hard hand <=? 11) then (hard hand + 10, true) else (hard hand, false).
Proof.
  intros H. destruct (hard_aces hand H) as (Ha & Ha0 & _). unfold handValue.
  rewrite handValue_fold. cbn [Nat.add]. rewrite soften_spec; rewrite Z2Nat.id by lia.
  - replace (0 + hard hand + 10 * aces hand - 10 * aces hand) with (hard hand) by lia. done.
  - lia.
Qed.

Lemma hard_snoc hand r : card_ r -> hard hand + 1 <= hard (hand ++ [r]).
Proof. unfold hard, card_. intros Hr. rewrite zsum_app, zsum_cons, zsum_nil. case_match; lia. Qed.

Lemma cards_snoc hand r : Forall card_ hand -> card_ r -> Forall card_ (hand ++ [r]).
Proof. intros H Hr. apply Forall_app. split; [done|]. constructor; [done|constructor]. Qed.

Section Random.

Context (random : nat -> Q).

#[local] Abbreviation drawRank := (drawRank random).
#[local] Abbreviation resolveStand := (resolveStand random).
#[local] Abbreviation simulateHand := (simulateHand random).

(** Whatever is drawn is a card. *)
Lemma drawRank_card s : card_ (drawRank s).1.
Proof.
  unfold BlackjackAdvice.drawRank, card_. cbv zeta. case_match; [done|]. case_match; [|done]. cbn [fst].
  do 10 (destruct n as [|n]; [done|]). done.
Qed.

(** ** The dealer *)

Lemma hard17 hand : Forall card_ hand -> 17 <= hard hand -> handValue hand = (hard hand, false).
Proof. intros H Hh. rewrite handValue_spec by done. by rewrite (proj2 (Z.leb_gt (hard hand) 11)), andb_false_r by lia. Qed.

(** What the dealer can end with. *)
Definition dealer_ok (d : Dealer) : Prop := 17 <= d_total d /\ (d_bust d = true <-> 21 < d_total d).

Lemma dealerLoop_ends fuel h17 bj hand s :
  Forall card_ hand -> 17 - hard hand < Z.of_nat fuel -> 0 < Z.of_nat fuel ->
  exists d s', dealerLoop random fuel h17 bj hand s = Some (d, s') /\ dealer_ok d /\ d_blackjack d = bj.
Proof.
  revert hand s. induction fuel as [|f IH]; intros hand s Hc Hf H0; [lia|]. cbn [dealerLoop].
  destruct (handValue hand) as [total soft] eqn:Ev. pose proof (drawRank_card s) as Hr. destruct (drawRank s) as [r s1]. cbn [fst] in Hr.
  assert (Hhit : hard hand < 17 -> exists d s', dealerLoop random f h17 bj (hand ++ [r]) s1 = Some (d, s') /\ dealer_ok d /\ d_blackjack d = bj).
  { intros Hh. pose proof (hard_snoc hand r Hr). apply IH; [by apply cards_snoc|lia|lia]. }
  assert (Hlow : soft = true \/ total < 17 -> total <= 17 -> hard hand < 17).
  { intros Hs Ht. destruct (Z.lt_ge_cases (hard hand) 17) as [|Hge]; [done|]. rewrite hard17 in Ev by done.
    injection Ev as <- <-. destruct Hs; [done|lia]. }
  destruct (Z.ltb_spec 21 total); [do 2 eexists; split; [done|]; cbn; split; [split; [cbn; lia|done]|done]|].
  destruct (Z.ltb_spec 17 total); [do 2 eexists; split; [done|]; cbn; split; [split; cbn; [lia|split; [done|lia]]|done]|].
  destruct (Z.eqb_spec total 17) as [->|Hn].
  - destruct soft; [|do 2 eexists; split; [done|]; cbn; split; [split; cbn; [lia|split; [done|lia]]|done]].
    destruct h17; [|do 2 eexists; split; [done|]; cbn; split; [split; cbn; [lia|split; [done|lia]]|done]].
    apply Hhit, Hlow; [by left|lia].
  - cbn [andb]. apply Hhit, Hlow; [right; lia|lia].
Qed.

Lemma dealer_ends up rules s :
  card_ up -> exists d s', dealerPlay random up rules s = Some (d, s') /\ dealer_ok d.
Proof.
  intros Hu. unfold dealerPlay. pose proof (drawRank_card s) as Hr. destruct (drawRank s) as [r s1]. cbn [fst] in Hr.
  assert (Hc : Forall card_ [up; r]) by (constructor; [done|constructor; [done|constructor]]).
  destruct (hard_aces _ Hc) as (_ & _ & Hl).
  destruct (dealerLoop_ends rounds (hitSoft17 rules) ((len [up; r] =? 2) && ((handValue [up; r]).1 =? 21)) [up; r] s1 Hc)
    as (d & s' & E & Hd & _); [change (len [up; r]) with 2 in Hl; unfold rounds; lia|unfold rounds; lia|]. eauto.
Qed.

(** ** What a hand is worth *)

(** The most a hand that stands can win. *)
Definition most (rules : BlackjackRules) : Q := if Qle_bool (blackjackPays rules) 1 then 1 else blackjackPays rules.

Definition between (lo hi q : Q) : Prop := (lo <= q <= hi)%Q.

Lemma most_pays rules : (blackjackPays rules <= most rules)%Q /\ (1 <= most rules)%Q.
Proof.
  unfold most. destruct (Qle_bool (blackjackPays rules) 1) eqn:E; [by apply Qle_bool_iff in E|].
  split; [apply Qle_refl|]. assert (~ (blackjackPays rules <= 1)%Q) by (intros H%Qle_bool_iff; congruence). lra.
Qed.

(** The most any hand can win. *)
Definition top (rules : BlackjackRules) : Q := if Qle_bool (blackjackPays rules) 2 then 2 else blackjackPays rules.

Lemma top_most rules : (most rules <= top rules)%Q /\ (2 <= top rules)%Q.
Proof.
  unfold most, top. destruct (Qle_bool (blackjackPays rules) 2) eqn:E.
  - apply Qle_bool_iff in E. split; [|apply Qle_refl]. case_match; lra.
  - assert (~ (blackjackPays rules <= 2)%Q) by (intros H%Qle_bool_iff; congruence).
    split; [|lra]. case_match; lra.
Qed.

(** Winning pays something. *)
Definition fair (rules : BlackjackRules) : Prop := (-1 <= blackjackPays rules)%Q.

Lemma stand_ends player up rules s :
  card_ up -> fair rules ->
  exists v s', resolveStand player up rules s = Some (v, s') /\ between (-1) (most rules) v
    /\ (len player <> 2 -> between (-1) 1 v).
Proof.
  intros Hu Hf. unfold BlackjackAdvice.resolveStand. pose proof (most_pays rules) as [Hp H1]. unfold fair, between in *.
  case_match; [do 2 eexists; split; [done|]; split; [lra|intros _; lra]|].
  destruct (dealer_ends up rules s Hu) as (d & s' & -> & _). cbn [mbind option_bind]. do 2 eexists. split; [done|].
  unfold isBlackjack. destruct (Z.eqb_spec (len player) 2) as [E|E]; cbn [andb].
  - split; [|done]. repeat case_match; lra.
  - split; [|intros _]; repeat case_match; try discriminate; lra.
Qed.

Lemma twice_between lo hi x v s' :
  x = Some (v, s') -> between lo hi v -> exists v', twice x = Some (v', s') /\ between (2 * lo) (2 * hi) v'.
Proof. intros -> H. cbn. eexists. split; [done|]. unfold between in *. lra. Qed.

Lemma hard_stands hand up wasSplit rules :
  Forall card_ hand -> 17 <= hard hand -> basicStrategyAction hand up false wasSplit rules = Stand.
Proof.
  intros Hc Hh. unfold basicStrategyAction. cbn [andb]. rewrite hard17 by done.
  by rewrite (proj2 (Z.leb_le 17 (hard hand))).
Qed.

Lemma no_split hand up wasSplit rules : basicStrategyAction hand up false wasSplit rules <> Split.
Proof. unfold basicStrategyAction. cbn [andb]. destruct (handValue hand) as [t []]; repeat case_match; done. Qed.

Lemma double_two hand up c wasSplit rules : basicStrategyAction hand up c wasSplit rules = Double -> len hand = 2.
Proof.
  unfold basicStrategyAction, doubleAllowed. destruct (c && _); [done|]. destruct (handValue hand) as [t []];
  destruct (Z.eqb_spec (len hand) 2); try done; cbn [andb]; repeat case_match; done.
Qed.

(** A hand that is not split again ends, and wins or loses two stakes at most,
    one if it has more cards than two. *)
Lemma hand_ends fuel hand up rules wasSplit s :
  card_ up -> fair rules -> Forall card_ hand -> 2 <= len hand -> 17 - hard hand < Z.of_nat fuel -> 0 < Z.of_nat fuel ->
  exists v s', simulateHand fuel hand up rules wasSplit false s = Some (v, s')
    /\ between (-2) (top rules) v /\ (len hand <> 2 -> between (-1) 1 v).
Proof.
  intros Hu Hf. pose proof (most_pays rules) as [Hp H1]. pose proof (top_most rules) as [Ht H2].
  revert hand s. induction fuel as [|f IH]; intros hand s Hc Hl Hfu H0; [lia|]. cbn [BlackjackAdvice.simulateHand].
  case_match; [do 2 eexists; split; [done|]; unfold between; split; [lra|intros _; lra]|].
  pose proof (drawRank_card s) as Hr. destruct (drawRank s) as [r s1]. cbn [fst] in Hr.
  assert (Hn : hard hand < 17 -> exists v s', simulateHand f (hand ++ [r]) up rules wasSplit false s1 = Some (v, s')
    /\ between (-1) 1 v).
  { intros Hh. pose proof (hard_snoc hand r Hr). assert (Hl' : len (hand ++ [r]) = len hand + 1) by (unfold len; rewrite length_app; cbn; lia).
    destruct (IH (hand ++ [r]) s1) as (v & s' & E & _ & B); [by apply cards_snoc|lia|lia|lia|]. do 2 eexists. split; [done|]. apply B. lia. }
  destruct (Z.lt_ge_cases (hard hand) 17) as [Hh|Hh].
  2: { rewrite (hard_stands hand up wasSplit rules) by done. destruct (stand_ends hand up rules s Hu Hf) as (v & s' & E & B & B').
       do 2 eexists. split; [done|]. split; [unfold between in *; lra|done]. }
  destruct (Hn Hh) as (v1 & s1' & E1 & B1).
  destruct (basicStrategyAction hand up false wasSplit rules) eqn:Ea.
  - rewrite E1. do 2 eexists. split; [done|]. split; [unfold between in *; lra|done].
  - destruct (stand_ends hand up rules s Hu Hf) as (v & s' & E & B & B').
    do 2 eexists. split; [done|]. split; [unfold between in *; lra|done].
  - apply double_two in Ea. case_match; [do 2 eexists; split; [done|]; split; [unfold between; lra|lia]|].
    destruct (stand_ends (hand ++ [r]) up rules s1 Hu Hf) as (v & s' & E & _ & B').
    destruct (twice_between (-1) 1 _ v s' E) as (v' & E' & B2).
    { apply B'. unfold len in *. rewrite length_app. cbn. lia. }
    rewrite E'. do 2 eexists. split; [done|]. split; [unfold between in *; lra|lia].
  - by apply no_split in Ea.
Qed.

Lemma split_ends f hand up rules s :
  card_ up -> fair rules -> Forall card_ hand -> hand <> [] -> 17 <= Z.of_nat f ->
  exists v s', simulateSplit random (S f) hand up rules s = Some (v, s') /\ between (-4) (2 * top rules) v.
Proof.
  intros Hu Hf Hc Hne Hfu. cbn [BlackjackAdvice.simulateSplit].
  assert (Hrank : card_ (default 0 (head hand))) by (destruct hand as [|x h]; [done|by inversion Hc]).
  set (rank := default 0 (head hand)) in *. clearbody rank.
  pose proof (drawRank_card s) as Ha. destruct (drawRank s) as [a s1]. cbn [fst] in Ha.
  pose proof (drawRank_card s1) as Hb. destruct (drawRank s1) as [b s2]. cbn [fst] in Hb.
  assert (Hplay : forall c s, card_ c -> exists v s',
    (if (rank =? 1) && negb (hitSplitAces rules) then resolveStand [rank; c] up rules s
     else simulateHand f [rank; c] up rules true false s) = Some (v, s') /\ between (-2) (top rules) v).
  { intros c s' Hcc. pose proof (most_pays rules) as [Hp H1]. pose proof (top_most rules) as [Ht H2].
    assert (Hcs : Forall card_ [rank; c]) by (constructor; [done|constructor; [done|constructor]]).
    destruct (hard_aces _ Hcs) as (_ & _ & Hl). change (len [rank; c]) with 2 in Hl. case_match.
    - destruct (stand_ends [rank; c] up rules s' Hu Hf) as (v & s'' & E & B & _). do 2 eexists. split; [done|]. unfold between in *. lra.
    - destruct (hand_ends f [rank; c] up rules true s' Hu Hf Hcs) as (v & s'' & E & B & _); [done|lia|lia|]. eauto. }
  destruct (Hplay a s2 Ha) as (va & s3 & -> & Ba). cbn [mbind option_bind].
  destruct (Hplay b s3 Hb) as (vb & s4 & -> & Bb). cbn [mbind option_bind].
  do 2 eexists. split; [done|]. unfold between in *. lra.
Qed.

(** ** The estimates *)

(** The bounds of what a play is worth. *)
Definition bounds (action : Choice) (rules : BlackjackRules) : Q * Q :=
  match action with
  | AStand => (-1, most rules)%Q
  | AHit => (-1, 1)%Q
  | ADouble => (-2, 2)%Q
  | ASplit => (-4, 2 * top rules)%Q
  | ASurrender => (-(1 # 2), -(1 # 2))%Q
  end.

(** A value in its bounds, or none: no iterations, or a split of no pair. *)
Definition valued (lo hi : Q) (n : Num) : Prop := match n with Fin q => between lo hi q | NaN => True | Infinite _ => False end.

Definition in_bounds (action : Choice) (rules : BlackjackRules) (n : Num) : Prop :=
  valued (bounds action rules).1 (bounds action rules).2 n.

Lemma action_ends action player up rules allow s :
  card_ up -> fair rules -> Forall card_ player -> 2 <= len player ->
  exists n s', simulateAction random action player up rules allow s = Some (n, s') /\ in_bounds action rules n.
Proof.
  intros Hu Hf Hc Hl. unfold simulateAction, in_bounds.
  pose proof (drawRank_card s) as Hr. destruct (drawRank s) as [r s1]. cbn [fst] in Hr.
  assert (Hlen : len (player ++ [r]) = len player + 1) by (unfold len; rewrite length_app; cbn; lia).
  destruct action; cbn [bounds fst snd].
  - destruct (stand_ends player up rules s Hu Hf) as (v & s' & -> & B & _). cbn. eauto.
  - case_match; [do 2 eexists; split; [done|]; cbn; unfold between; lra|].
    assert (Hcs : Forall card_ (player ++ [r])) by by apply cards_snoc.
    destruct (hard_aces _ Hcs) as (_ & _ & Hh).
    destruct (hand_ends rounds (player ++ [r]) up rules false s1 Hu Hf Hcs) as (v & s' & E & _ & B); [lia|unfold rounds; lia|unfold rounds; lia|].
    rewrite E. cbn. do 2 eexists. split; [done|]. apply B. lia.
  - case_match; [do 2 eexists; split; [done|]; cbn; unfold between; lra|].
    destruct (stand_ends (player ++ [r]) up rules s1 Hu Hf) as (v & s' & E & _ & B).
    destruct (twice_between (-1) 1 _ v s' E) as (v' & E' & B2); [apply B; lia|]. rewrite E'. cbn. do 2 eexists. split; [done|].
    unfold valued, between in *. lra.
  - case_match; [by do 2 eexists|].
    destruct (split_ends 23 player up rules s Hu Hf Hc) as (v & s' & E & B); [by intros ->|lia|].
    change rounds with 24%nat. rewrite E. cbn. eauto.
  - do 2 eexists. split; [done|]. cbn. unfold between. split; apply Qle_refl.
Qed.

Lemma sum_ends n action cards player up rules allow c :
  card_ up -> fair rules -> Forall card_ player -> 2 <= len player ->
  exists t c', sumOver random n action cards player up rules allow c = Some (t, c')
    /\ valued (inject_Z (Z.of_nat n) * (bounds action rules).1) (inject_Z (Z.of_nat n) * (bounds action rules).2) t.
Proof.
  intros Hu Hf Hc Hl. induction n as [|n IH].
  { do 2 eexists. split; [done|]. change (inject_Z (Z.of_nat 0)) with 0%Q. change (valued ?l ?h (int 0)) with (between l h 0).
    unfold between. rewrite !Qmult_0_l. split; apply Qle_refl. }
  cbn [sumOver].
  destruct IH as (t & c1 & -> & Ht). cbn [mbind option_bind].
  destruct (action_ends action player up rules allow {| counts := cards; calls := c1 |} Hu Hf Hc Hl) as (v & s' & -> & Hv).
  cbn [mbind option_bind]. do 2 eexists. split; [done|]. unfold in_bounds in Hv.
  destruct t as [q| |], v as [p| |]; cbn [plus valued] in *; try done. unfold between in *.
  rewrite Nat2Z.inj_succ, <- Z.add_1_r, inject_Z_plus.
  change (inject_Z 1) with 1%Q. rewrite !Qmult_plus_distr_l, !Qmult_1_l. destruct Ht, Hv. split; by apply Qplus_le_compat.
Qed.

Lemma estimate_ends action cards player up rules allow n c :
  card_ up -> fair rules -> Forall card_ player -> 2 <= len player ->
  exists v c', estimateEV random action cards player up rules allow n c = Some (v, c') /\ in_bounds action rules v.
Proof.
  intros Hu Hf Hc Hl. unfold estimateEV. destruct (sum_ends n action cards player up rules allow c Hu Hf Hc Hl) as (t & c' & -> & Ht).
  cbn [mbind option_bind]. do 2 eexists. split; [done|]. unfold in_bounds, over. destruct t as [q| |]; try done.
  destruct n as [|n]; [done|]. cbn [valued] in *. unfold between in *.
  assert (Hp : (0 < inject_Z (Z.of_nat (S n)))%Q) by (change 0%Q with (inject_Z 0); rewrite <- Zlt_Qlt; lia).
  split.
  - apply Qle_shift_div_l; [done|]. rewrite Qmult_comm. apply Ht.
  - apply Qle_shift_div_r; [done|]. rewrite Qmult_comm. apply Ht.
Qed.

(** ** The best of the estimates *)

(** What the walk has found among the plays seen so far: the first of the best. *)
Definition found (seen : list (Best * option Num)) (best : Best * option Num) : Prop :=
  match best.2 with
  | None => best.1 = S_ /\ forall p q, (p, Some (Fin q)) ∉ seen
  | Some (Fin b) => exists before after, seen = before ++ (best.1, Some (Fin b)) :: after
      /\ (forall p q, (p, Some (Fin q)) ∈ before -> (q < b)%Q) /\ (forall p q, (p, Some (Fin q)) ∈ after -> (q <= b)%Q)
  | Some _ => False
  end.

Definition finite_or_none (v : option Num) : Prop := match v with Some (Infinite _) => False | _ => True end.

Lemma skip_found seen best p v :
  v = None \/ v = Some NaN -> found seen best -> found (seen ++ [(p, v)]) best.
Proof.
  intros Hv. assert (Hno : forall l x q, (x, Some (Fin q)) ∈ l ++ [(p, v)] -> (x, Some (Fin q)) ∈ l).
  { intros l x q Hx. apply elem_of_app in Hx as [|Hx%list_elem_of_singleton]; [done|]. injection Hx as _ E. destruct Hv; congruence. }
  unfold found. destruct best.2 as [[b| |]|]; [|done|done|].
  - intros (before & after & -> & Hb & Ha). exists before, (after ++ [(p, v)]). rewrite <- app_assoc.
    split_and!; [done|done|]. intros x q Hx. eapply Ha, Hno, Hx.
  - intros [Hs Hn]. split; [done|]. intros x q Hx. by apply (Hn x q), Hno.
Qed.

Lemma pick_found seen best p :
  finite_or_none p.2 -> found seen best -> found (seen ++ [p]) (pick p.1 p.2 best).
Proof.
  destruct p as [p [[v| |]|]]; cbn [fst snd]; intros Hv Hb; try done; [|by apply skip_found; [right|]|by apply skip_found; [left|]].
  unfold pick. destruct best as [c [[b| |]|]]; cbn [fst snd] in *; try done.
  - destruct Hb as (before & after & -> & Hbe & Haf). unfold less. destruct (Qle_bool v b) eqn:E; cbn [negb].
    + apply Qle_bool_iff in E. exists before, (after ++ [(p, Some (Fin v))]). rewrite <- app_assoc. split_and!; [done|done|].
      intros x q Hx. apply elem_of_app in Hx as [Hx|Hx%list_elem_of_singleton]; [by eapply Haf|]. by injection Hx as -> ->.
    + assert (Hlt : (b < v)%Q) by (apply Qnot_le_lt; intros H%Qle_bool_iff; congruence).
      eexists _, []. split_and!; [done| |by intros ?? ?%elem_of_nil]. intros x q Hx. apply elem_of_app in Hx as [Hx|Hx].
      * eapply Qlt_trans; [by eapply Hbe|done].
      * apply elem_of_cons in Hx as [Hx|Hx]; [by injection Hx as -> ->|]. eapply Qle_lt_trans; [by eapply Haf|done].
  - destruct Hb as [_ Hn]. eexists seen, []. split_and!; [done| |by intros ?? ?%elem_of_nil]. intros x q Hx. by apply Hn in Hx.
Qed.

Lemma picks_found seen best l :
  Forall (fun p => finite_or_none p.2) l -> found seen best ->
  found (seen ++ l) (foldl (fun best p => pick p.1 p.2 best) best l).
Proof.
  intros H. revert seen best. induction H as [|p l Hp _ IH]; intros seen best Hb; [by rewrite app_nil_r|].
  cbn [foldl]. rewrite (cons_middle p), app_assoc. apply IH. by apply pick_found.
Qed.

Lemma best_found v : Forall (fun p => finite_or_none p.2) (picks v) -> found (picks v) (bestOf v).
Proof. intros H. apply (picks_found [] (S_, None) (picks v) H). split; [done|]. by intros p q ?%elem_of_nil. Qed.

(** ** The advice *)

Definition optional (P : Num -> Prop) (v : option Num) : Prop := match v with Some n => P n | None => True end.

(** Every estimate in its bounds, the advice the first of the best, if any. *)
Record sound (rules : BlackjackRules) (a : Analysis) : Prop := {
  so_stand : optional (in_bounds AStand rules) (v_stand (values a));
  so_hit : optional (in_bounds AHit rules) (v_hit (values a));
  so_double : optional (in_bounds ADouble rules) (v_double (values a));
  so_split : optional (in_bounds ASplit rules) (v_split (values a));
  so_surrender : optional (in_bounds ASurrender rules) (v_surrender (values a));
  so_insurance : optional (fun n => exists q, n = Fin q) (v_insurance (values a));
  so_best : exists b, found (picks (values a)) (bestPlay a, b)
}.

Lemma allowed_ends allowed action (est : nat -> option (Num * nat)) rules c :
  (forall c, exists v c', est c = Some (v, c') /\ in_bounds action rules v) ->
  exists v c', ifAllowed allowed est c = Some (v, c') /\ optional (in_bounds action rules) v.
Proof.
  intros H. unfold ifAllowed. destruct allowed; [|by do 2 eexists].
  destruct (H c) as (v & c' & -> & Hv). cbn. by do 2 eexists.
Qed.

Lemma bounded_finite action rules v : optional (in_bounds action rules) v -> finite_or_none v.
Proof. by destruct v as [[]|]. Qed.

(** The ranks of the type [Rank]. *)
Definition ranked (card : Card) : Prop := exists r, c_rank card = Some r /\ r ∈ RANKS.

Lemma rankValue_card card : ranked card -> card_ (rankValue card).
Proof.
  intros (r & Hr & Hb). unfold rankValue. rewrite Hr. unfold RANKS in Hb.
  repeat (apply elem_of_cons in Hb as [->|Hb]; [split; vm_compute; discriminate|]). by apply elem_of_nil in Hb.
Qed.

(** C34. The advice for a hand of at least two cards, whatever [Math.random]
    gives: the loops of the simulation end, the dealer's, the hand's and those of
    both hands of a split; each estimate lies between the least and the most the
    play can bring; and the advice is the first of the best of them. *)
Theorem advice_sound q dealer c :
  q_dealerCard q = Some dealer -> ranked dealer -> Forall ranked (q_playerCards q) -> 2 <= len (q_playerCards q) ->
  let rules := withDefaults (q_rules q) in
  fair rules ->
  exists a, analyzeBlackjackHand random q c = Some (Some a) /\ sound rules a.
Proof.
  intros Hd Hr Hc Hl rules Hf. unfold analyzeBlackjackHand. rewrite Hd.
  rewrite bool_decide_eq_false_2 by (intros E; rewrite E in Hl; by cbn in Hl). cbv zeta. fold rules.
  assert (Hcs : Forall card_ (rankValue <$> q_playerCards q)).
  { apply Forall_fmap. eapply Forall_impl; [exact Hc|]. intros x. apply rankValue_card. }
  assert (Hlen : 2 <= len (rankValue <$> q_playerCards q)) by (unfold len in *; by rewrite length_fmap).
  pose proof (rankValue_card _ Hr) as Hu. set (cards := applyKnownCards _ _). set (n := default 4000%nat (q_iterations q)). clearbody n cards.
  assert (He : forall action c, exists v c', estimateEV random action cards (rankValue <$> q_playerCards q) (rankValue dealer) rules
      (q_canSplit q) n c = Some (v, c') /\ in_bounds action rules v) by (intros; by apply estimate_ends).
  destruct (allowed_ends (q_canStand q) AStand _ rules c (He AStand)) as (v1 & c1 & -> & H1). cbn [mbind option_bind].
  destruct (allowed_ends (q_canHit q) AHit _ rules c1 (He AHit)) as (v2 & c2 & -> & H2). cbn [mbind option_bind].
  destruct (allowed_ends (q_canDouble q) ADouble _ rules c2 (He ADouble)) as (v3 & c3 & -> & H3). cbn [mbind option_bind].
  destruct (allowed_ends (q_canSplit q) ASplit _ rules c3 (He ASplit)) as (v4 & c4 & -> & H4). cbn [mbind option_bind].
  eexists. split; [done|]. split; try done.
  - cbn. case_match; [|done]. cbn. unfold between. split; apply Qle_refl.
  - cbn. case_match; [|done]. by eexists.
  - cbn [values bestPlay]. set (v := {| v_stand := v1 |}). exists (bestOf v).2. rewrite <- surjective_pairing. apply best_found.
    repeat constructor; cbn; try (by eapply bounded_finite); by case_match.
Qed.

(** ** The draw *)

Lemma totalCards_zsum l : totalCards l = zsum id l.
Proof.
  unfold totalCards. enough (G : forall a, foldl Z.add a l = a + zsum id l) by (rewrite G; lia).
  induction l as [|x l IH]; intros a; cbn [foldl]; [rewrite zsum_nil; lia|]. rewrite IH, zsum_cons. unfold id. lia.
Qed.

Lemma bucketOf_spec roll i l :
  Forall (fun n => 0 <= n) l -> (0 <= roll)%Q -> (roll < inject_Z (zsum id l))%Q ->
  exists k n, bucketOf roll i l = Some (i + k)%nat /\ l !! k = Some n /\ 0 < n.
Proof.
  intros H. revert roll i. induction H as [|n l Hn Hl IH]; intros roll i H0 H1.
  { rewrite zsum_nil in H1. change (inject_Z 0) with 0%Q in H1. lra. }
  rewrite zsum_cons, inject_Z_plus in H1. change (id n) with n in H1. cbn [bucketOf]. destruct (Qle_bool 0 (roll - inject_Z n)) eqn:E; cbn [negb].
  - apply Qle_bool_iff in E. destruct (IH (roll - inject_Z n)%Q (S i)) as (k & m & Hk & Hm & Hp); [done|lra|].
    exists (S k), m. split_and!; [|done|done]. rewrite Hk. f_equal. lia.
  - assert (Hlt : (roll - inject_Z n < 0)%Q) by (apply Qnot_le_lt; intros G%Qle_bool_iff; congruence).
    exists O, n. split_and!; [by rewrite Nat.add_0_r|done|]. rewrite Zlt_Qlt. change (inject_Z 0) with 0%Q. lra.
Qed.

(** A draw takes one card of a rank the shoe still has; an empty shoe gives tens. *)
Theorem draw_takes s :
  (0 <= random (calls s) < 1)%Q -> Forall (fun n => 0 <= n) (counts s) -> 0 < totalCards (counts s) ->
  exists i n, counts s !! i = Some n /\ 0 < n
    /\ drawRank s = (default 10 (BUCKET_TO_RANK !! i), {| counts := <[i := n - 1]> (counts s); calls := S (calls s) |})
    /\ totalCards (<[i := n - 1]> (counts s)) = totalCards (counts s) - 1.
Proof.
  intros [H0 H1] Hn Ht. assert (Hp : (0 < inject_Z (totalCards (counts s)))%Q) by (change 0%Q with (inject_Z 0); by rewrite <- Zlt_Qlt).
  destruct (bucketOf_spec (random (calls s) * inject_Z (totalCards (counts s))) 0 (counts s) Hn) as (i & n & Hi & Hin & Hpos).
  - apply Qmult_le_0_compat; [done|lra].
  - rewrite <- totalCards_zsum. rewrite <- (Qmult_1_l (inject_Z (totalCards (counts s)))) at 2. by apply Qmult_lt_r.
  - exists i, n. split_and!; [done|done| |].
    + unfold BlackjackAdvice.drawRank. cbv zeta. rewrite (proj2 (Z.leb_gt _ _) Ht), Hi. cbn [Nat.add].
      do 2 f_equal. apply list_eq. intros j. destruct (decide (i = j)) as [<-|Hj].
      * rewrite list_lookup_alter_eq, Hin, list_lookup_insert_eq by (by eapply lookup_lt_Some). done.
      * by rewrite list_lookup_alter_ne, list_lookup_insert_ne.
    + rewrite !totalCards_zsum. apply list_elem_of_split_length in Hin as (l1 & l2 & -> & ->).
      rewrite insert_app_r_alt, Nat.sub_diag by done. cbn. rewrite !zsum_app, !zsum_cons. unfold id. lia.
Qed.

End Random.

(** ** Defects *)

(** The hands of a split are not naturals on the chain.  Here two aces on split
    tens, against twenty each time, are paid three halves of the stake each. *)
Theorem split_paid_as_natural :
  exists random, (forall i, (0 <= random i < 1)%Q)
    /\ exists v s, simulateSplit random rounds [10; 10] 10 DEFAULT_RULES {| counts := initCounts 8; calls := 0 |} = Some (v, s)
         /\ (v == 3)%Q.
Proof.
  exists (fun i => if (i <? 2)%nat then 99 # 100 else 9 # 10)%Q. split; [intros i; case_match; split; by vm_compute|].
  do 2 eexists. split; [vm_compute; reflexivity|]. by vm_compute.
Qed.

Definition cardOf (rank : string) : Card :=
  {| c_suit := Some "♠"; c_rank := Some rank; c_value := 0; c_isHidden := false; c_isHeld := None |}.

(** Some numbers below one. *)
Definition someRandom (n : nat) : Q := ((Z.of_nat n * 7919 + 104729 * Z.of_nat n * Z.of_nat n) mod 1009) # 1009.

Lemma someRandom_unit i : (0 <= someRandom i < 1)%Q.
Proof. unfold someRandom, Qle, Qlt. cbn. pose proof (Z.mod_pos_bound (Z.of_nat i * 7919 + 104729 * Z.of_nat i * Z.of_nat i) 1009). lia. Qed.

Definition sixteen (up : string) : Question :=
  {| q_playerCards := [cardOf "10"; cardOf "6"]; q_dealerCard := Some (cardOf up);
     q_knownCards := [cardOf "10"; cardOf "6"; cardOf up];
     q_canSplit := false; q_canDouble := true; q_canSurrender := false; q_canHit := true; q_canStand := true;
     q_rules := None; q_iterations := Some 100%nat |}.

(** Insurance is a bet of its own, but it competes with the plays of the hand:
    against an ace a sixteen is advised to take it, though it loses on average,
    because the hand loses more. *)
Theorem insurance_advised :
  exists random, (forall i, (0 <= random i < 1)%Q)
    /\ exists a x, analyzeBlackjackHand random (sixteen "A") 0 = Some (Some a)
         /\ bestPlay a = I_ /\ v_insurance (values a) = Some (Fin x) /\ (x < 0)%Q.
Proof.
  exists someRandom. split; [apply someRandom_unit|]. do 2 eexists. split; [vm_compute; reflexivity|].
  split; [done|]. split; [cbn; reflexivity|]. by vm_compute.
Qed.

Lemma advice_sound_witness :
  exists a, analyzeBlackjackHand someRandom (sixteen "7") 0 = Some (Some a) /\ sound DEFAULT_RULES a.
Proof.
  assert (Hr : forall r, r ∈ RANKS -> ranked (cardOf r)) by (intros r Hin; exists r; by split).
  apply (advice_sound someRandom (sixteen "7") (cardOf "7") 0); [done| | |by vm_compute|by vm_compute].
  - apply Hr. by apply (bool_decide_unpack _); vm_compute.
  - constructor; [|constructor; [|constructor]]; apply Hr; by apply (bool_decide_unpack _); vm_compute.
Defined.
