(* ===== verification/Schemas.v ===== *)
(** * The messages between the phones and the gateway

    [packages/protocol/src/schema/mobile.ts]: the schemas of every message, in
    both directions, as the file declares them, and the game a request belongs to.

    The schemas are declared with the library zod; a schema here is the tree of
    calls that builds it.  What the library does with one is the class [Zod], and
    [ZodLaws] what its documentation says of the combinators this file uses;
    [zod_documented] is an instance.  A value that parses comes back without the
    fields its schema does not name, unless [passthrough] keeps them. *)

From Stdlib Require Import QArith.QArith_base QArith.Qround.
From S2P Require Import Prelude Constants Json.

#[local] Open Scope Z_scope.

(** ** The combinators *)

Inductive Check :=
| C_int | C_positive | C_nonnegative
| C_min (n : Z) | C_max (n : Z) | C_length (n : Z).

Inductive Schema :=
| z_string
| z_number (checks : list Check)
| z_boolean
| z_unknown
| z_literal (value : string)
| z_enum (values : list string)
| z_union (options : list Schema)
| z_array (element : Schema) (checks : list Check)
| z_tuple (items : list Schema)
| z_optional (inner : Schema)
| z_nullable (inner : Schema)
| z_object (shape : list (string * Schema))
| z_extend (base : Schema) (shape : list (string * Schema))
| z_passthrough (base : Schema)
| z_discriminatedUnion (key : string) (options : list Schema).

(** [{ ...base, ...more }]: a key that was there keeps its place. *)
Fixpoint put {A} (k : string) (a : A) (fs : list (string * A)) : list (string * A) :=
  match fs with
  | [] => [(k, a)]
  | (k', a') :: fs' => if bool_decide (k' = k) then (k, a) :: fs' else (k', a') :: put k a fs'
  end.

Definition overwrite {A} (base more : list (string * A)) : list (string * A) :=
  foldl (fun fs kv => put kv.1 kv.2 fs) base more.

(** The fields an object schema has, and whether it keeps others. *)
Fixpoint shapeOf (s : Schema) : option (list (string * Schema)) :=
  match s with
  | z_object shape => Some shape
  | z_extend base more => shape ← shapeOf base; Some (overwrite shape more)
  | z_passthrough base => shapeOf base
  | _ => None
  end.

Fixpoint keepsOthers (s : Schema) : bool :=
  match s with
  | z_extend base _ => keepsOthers base
  | z_passthrough _ => true
  | _ => false
  end.

Definition mayMiss (s : Schema) : bool :=
  match s with z_optional _ | z_unknown => true | _ => false end.

Definition passes (q : Q) (c : Check) : bool :=
  match c with
  | C_int => Qeq_bool q (inject_Z (Qfloor q))
  | C_positive => 0 <? Qnum q
  | C_nonnegative => 0 <=? Qnum q
  | C_min n => Qle_bool (inject_Z n) q
  | C_max n => Qle_bool q (inject_Z n)
  | C_length _ => false
  end.

Definition passesLength (n : Z) (c : Check) : bool :=
  match c with
  | C_min k => k <=? n
  | C_max k => n <=? k
  | C_length k => n =? k
  | _ => false
  end.

(** The texts a field accepts that tells the options of a union apart. *)
Definition tags (s : Schema) : list string :=
  match s with z_literal v => [v] | z_enum vs => vs | _ => [] end.

Definition tagged (key : string) (tag : string) (option : Schema) : bool :=
  match shapeOf option with
  | Some shape => existsb (fun kv => bool_decide (kv.1 = key) && bool_decide (tag ∈ tags kv.2)) shape
  | None => false
  end.

(** ** The library *)

Class Zod := { safeParse : Schema -> Json -> option Json }.

(** The fields of an object one after the other; [parse] is how a field parses. *)
Fixpoint parseFields {A} (parse : A -> Json -> option Json) (optional : A -> bool) (fs : list (string * Json))
    (shape : list (string * A)) : option (list (string * Json)) :=
  match shape with
  | [] => Some []
  | (k, s) :: shape' =>
      match field k fs with
      | Some v => w ← parse s v; rest ← parseFields parse optional fs shape'; Some ((k, w) :: rest)
      | None => if optional s then parseFields parse optional fs shape' else None
      end
  end.

Definition others {A} (fs : list (string * Json)) (shape : list (string * A)) : list (string * Json) :=
  List.filter (fun kv => negb (bool_decide (kv.1 ∈ shape.*1))) fs.

Definition parseObject {A} (parse : A -> Json -> option Json) (optional : A -> bool) (keep : bool)
    (shape : list (string * A)) (v : Json) : option Json :=
  match v with
  | JObject fs =>
      ws ← parseFields parse optional fs shape;
      Some (JObject (ws ++ if keep then others fs shape else []))
  | _ => None
  end.

Fixpoint parseItems {A} (parse : A -> Json -> option Json) (items : list A) (vs : list Json) : option (list Json) :=
  match items, vs with
  | [], [] => Some []
  | s :: items', v :: vs' => w ← parse s v; ws ← parseItems parse items' vs'; Some (w :: ws)
  | _, _ => None
  end.

Definition firstParse {A} (parse : A -> Json -> option Json) (options : list A) (v : Json) : option Json :=
  head (omap (fun s => parse s v) options).

(** The field that tells the options of a union apart. *)
Definition tagOf (key : string) (v : Json) : option string :=
  match v with
  | JObject fs => match field key fs with Some (JString t) => Some t | _ => None end
  | _ => None
  end.

Class ZodLaws (Z : Zod) := {
  parse_string v : safeParse z_string v = match v with JString _ => Some v | _ => None end;
  parse_number cs v : safeParse (z_number cs) v =
    match v with JNumber q => if forallb (passes q) cs then Some v else None | _ => None end;
  parse_boolean v : safeParse z_boolean v = match v with JBool _ => Some v | _ => None end;
  parse_unknown v : safeParse z_unknown v = Some v;
  parse_literal t v : safeParse (z_literal t) v =
    match v with JString s => if bool_decide (s = t) then Some v else None | _ => None end;
  parse_enum ts v : safeParse (z_enum ts) v =
    match v with JString s => if bool_decide (s ∈ ts) then Some v else None | _ => None end;
  parse_union options v : safeParse (z_union options) v = firstParse safeParse options v;
  parse_array s cs v : safeParse (z_array s cs) v =
    match v with
    | JArray l => if forallb (passesLength (len l)) cs then JArray <$> mapM (safeParse s) l else None
    | _ => None
    end;
  parse_tuple items v : safeParse (z_tuple items) v =
    match v with JArray l => JArray <$> parseItems safeParse items l | _ => None end;
  parse_optional s v : safeParse (z_optional s) v = safeParse s v;
  parse_nullable s v : safeParse (z_nullable s) v = match v with JNull => Some v | _ => safeParse s v end;
  parse_object s shape v : shapeOf s = Some shape ->
    safeParse s v = parseObject safeParse mayMiss (keepsOthers s) shape v;
  parse_discriminated key options v : safeParse (z_discriminatedUnion key options) v =
    t ← tagOf key v; s ← head (List.filter (tagged key t) options); safeParse s v
}.

(** ** An instance

    What a schema means: how it parses, whether it may be missing, the texts it
    stands for, and, of an object, the same of its fields. *)
Record FieldMeaning := { f_parse : Json -> option Json; f_missing : bool; f_tags : list string }.

Record Meaning := { m_self : FieldMeaning; m_shape : option (list (string * FieldMeaning)); m_keep : bool }.

Definition value (parse : Json -> option Json) : Meaning :=
  {| m_self := {| f_parse := parse; f_missing := false; f_tags := [] |}; m_shape := None; m_keep := false |}.

Definition object (keep : bool) (shape : option (list (string * FieldMeaning))) : Meaning :=
  {| m_self := {| f_parse := fun v => sh ← shape; parseObject f_parse f_missing keep sh v; f_missing := false; f_tags := [] |};
     m_shape := shape; m_keep := keep |}.

Definition m_tagged (key tag : string) (m : Meaning) : bool :=
  match m_shape m with
  | Some shape => existsb (fun kv => bool_decide (kv.1 = key) && bool_decide (tag ∈ f_tags kv.2)) shape
  | None => false
  end.

Fixpoint meaning (s : Schema) : Meaning :=
  match s with
  | z_string => value (fun v => match v with JString _ => Some v | _ => None end)
  | z_number cs => value (fun v => match v with JNumber q => if forallb (passes q) cs then Some v else None | _ => None end)
  | z_boolean => value (fun v => match v with JBool _ => Some v | _ => None end)
  | z_unknown => {| m_self := {| f_parse := Some; f_missing := true; f_tags := [] |}; m_shape := None; m_keep := false |}
  | z_literal t =>
      {| m_self := {| f_parse := fun v => match v with JString s => if bool_decide (s = t) then Some v else None | _ => None end;
                      f_missing := false; f_tags := [t] |}; m_shape := None; m_keep := false |}
  | z_enum ts =>
      {| m_self := {| f_parse := fun v => match v with JString s => if bool_decide (s ∈ ts) then Some v else None | _ => None end;
                      f_missing := false; f_tags := ts |}; m_shape := None; m_keep := false |}
  | z_union options => let ms := map meaning options in value (firstParse (fun m => f_parse (m_self m)) ms)
  | z_array s cs =>
      let m := meaning s in
      value (fun v => match v with
                      | JArray l => if forallb (passesLength (len l)) cs then JArray <$> mapM (f_parse (m_self m)) l else None
                      | _ => None
                      end)
  | z_tuple items =>
      let ms := map meaning items in
      value (fun v => match v with JArray l => JArray <$> parseItems (fun m => f_parse (m_self m)) ms l | _ => None end)
  | z_optional s =>
      {| m_self := {| f_parse := f_parse (m_self (meaning s)); f_missing := true; f_tags := [] |}; m_shape := None; m_keep := false |}
  | z_nullable s =>
      let m := meaning s in value (fun v => match v with JNull => Some v | _ => f_parse (m_self m) v end)
  | z_object shape => object false (Some (map (fun kv => (kv.1, m_self (meaning kv.2))) shape))
  | z_extend base more =>
      let m := meaning base in
      object (m_keep m) (sh ← m_shape m; Some (overwrite sh (map (fun kv => (kv.1, m_self (meaning kv.2))) more)))
  | z_passthrough base => object true (m_shape (meaning base))
  | z_discriminatedUnion key options =>
      let ms := map meaning options in
      value (fun v => t ← tagOf key v; m ← head (List.filter (m_tagged key t) ms); f_parse (m_self m) v)
  end.

#[export] Instance zod_documented : Zod := {| safeParse s := f_parse (m_self (meaning s)) |}.

(** *** It has the documented behaviour *)

Definition fieldMeaning (kv : string * Schema) : string * FieldMeaning := (kv.1, m_self (meaning kv.2)).

Lemma put_fmap {A B} (f : A -> B) k a fs :
  put k (f a) (prod_map id f <$> fs) = prod_map id f <$> put k a fs.
Proof.
  induction fs as [|[k' a'] fs IH]; [done|]. cbn [put fmap list_fmap]. cbn [prod_map fst snd id].
  case_bool_decide; [done|]. by rewrite IH.
Qed.

Lemma overwrite_fmap {A B} (f : A -> B) base more :
  overwrite (prod_map id f <$> base) (prod_map id f <$> more) = prod_map id f <$> overwrite base more.
Proof.
  unfold overwrite. revert base. induction more as [|[k a] more IH]; intros base; [done|]. cbn. rewrite put_fmap. apply IH.
Qed.

Lemma shape_means s : m_shape (meaning s) = option_map (fmap fieldMeaning) (shapeOf s).
Proof.
  induction s; try done. cbn [meaning shapeOf object m_shape]. rewrite IHs.
  destruct (shapeOf s) as [sh|]; [|done]. cbn. f_equal. apply (overwrite_fmap (fun s => m_self (meaning s))).
Qed.

Lemma keep_means s : is_Some (shapeOf s) -> m_keep (meaning s) = keepsOthers s.
Proof.
  induction s; intros [sh H]; try done. cbn [shapeOf] in H.
  cbn [meaning keepsOthers object m_keep]. apply IHs. by destruct (shapeOf s); [eexists|].
Qed.

Lemma tags_mean s : f_tags (m_self (meaning s)) = tags s.
Proof. by destruct s. Qed.

Lemma missing_means s : f_missing (m_self (meaning s)) = mayMiss s.
Proof. by destruct s. Qed.

Lemma tagged_means key t s : m_tagged key t (meaning s) = tagged key t s.
Proof.
  unfold m_tagged, tagged. rewrite shape_means. destruct (shapeOf s) as [sh|]; [|done]. cbn.
  induction sh as [|[k x] sh IH]; [done|]. cbn. by rewrite IH, tags_mean.
Qed.

Lemma object_means s sh v : shapeOf s = Some sh ->
  f_parse (m_self (meaning s)) v = parseObject f_parse f_missing (m_keep (meaning s)) (fieldMeaning <$> sh) v.
Proof.
  intros H. pose proof (shape_means s) as Hs. rewrite H in Hs.
  destruct s; try done; cbn [meaning object m_self f_parse m_shape m_keep] in *; rewrite Hs; done.
Qed.

Lemma parseFields_means fs sh :
  parseFields f_parse f_missing fs (fieldMeaning <$> sh) = parseFields safeParse mayMiss fs sh.
Proof.
  induction sh as [|[k s] sh IH]; [done|]. cbn. rewrite missing_means, IH. by destruct (field k fs).
Qed.

Lemma others_means fs sh : others fs (fieldMeaning <$> sh) = others fs sh.
Proof. unfold others. by rewrite <- list_fmap_compose. Qed.

#[export] Instance zod_documented_laws : ZodLaws zod_documented.
Proof.
  split; try done.
  - intros options v. cbn. unfold firstParse. induction options as [|s options IH]; [done|]. cbn. by destruct (f_parse _ v).
  - intros items v. cbn. destruct v; try done. f_equal. revert l.
    induction items as [|s items IH]; intros [|v l]; cbn; try done. by rewrite IH.
  - intros s sh v H. cbn [safeParse zod_documented]. rewrite (object_means _ sh) by done.
    rewrite keep_means by (rewrite H; by eexists). destruct v; try done. cbn. by rewrite parseFields_means, others_means.
  - intros key options v. cbn. destruct (tagOf key v) as [t|]; [|done]. cbn.
    induction options as [|s options IH]; [done|]. cbn. rewrite tagged_means. destruct (tagged key t s); [done|exact IH].
Qed.

(** ** The schemas *)

(** The keys of the tables of bets, in their order. *)
Definition CrapsBetNames : list CrapsBetName := [Craps_PASS; Craps_DONT_PASS; Craps_COME; Craps_DONT_COME;
  Craps_FIELD; Craps_YES; Craps_NO; Craps_NEXT; Craps_HARDWAY; Craps_FIRE; Craps_ATS_SMALL; Craps_ATS_TALL;
  Craps_ATS_ALL; Craps_MUGGSY; Craps_DIFF_DOUBLES; Craps_RIDE_LINE; Craps_REPLAY; Craps_HOT_ROLLER].

Definition SicBoBetNames : list SicBoBetName := [Sic_SMALL; Sic_BIG; Sic_ODD; Sic_EVEN; Sic_TRIPLE_SPECIFIC;
  Sic_TRIPLE_ANY; Sic_DOUBLE_SPECIFIC; Sic_SUM; Sic_SINGLE_DIE; Sic_DOMINO; Sic_HOP3_EASY; Sic_HOP3_HARD;
  Sic_HOP4_EASY].

Definition RouletteBetNames : list RouletteBetName := [Roul_STRAIGHT; Roul_RED; Roul_BLACK; Roul_EVEN;
  Roul_ODD; Roul_LOW; Roul_HIGH; Roul_DOZEN_1; Roul_DOZEN_2; Roul_DOZEN_3; Roul_COL_1; Roul_COL_2;
  Roul_COL_3; Roul_ZERO; Roul_SPLIT_H; Roul_SPLIT_V; Roul_STREET; Roul_CORNER; Roul_SIX_LINE].

Definition ROULETTE_BET_NAMES : list string := RouletteBetName_name <$> RouletteBetNames.

(** *** To the phone *)

Definition BaseMessageSchema : Schema := z_object [("type", z_string)].
Definition CardSchema : Schema :=
  z_object [("suit", z_enum ["hearts"; "diamonds"; "clubs"; "spades"]); ("rank", z_enum ["A"; "2"; "3"; "4";
    "5"; "6"; "7"; "8"; "9"; "10"; "J"; "Q"; "K"])].
Definition GamePhaseSchema : Schema := z_enum ["betting"; "playing"; "waiting"; "result"].
Definition LiveTablePhaseSchema : Schema := z_enum ["betting"; "locked"; "rolling"; "payout"; "cooldown"].
Definition StateUpdateMessageSchema : Schema :=
  z_extend BaseMessageSchema [("type", z_literal "state_update");
    ("balance", z_optional (z_number []));
    ("phase", z_optional GamePhaseSchema)].
Definition GameResultMessageSchema : Schema :=
  z_passthrough (z_extend BaseMessageSchema [("type", z_literal "game_result");
    ("won", z_boolean);
    ("payout", z_union [z_number []; z_string]);
    ("message", z_optional z_string);
    ("finalChips", z_optional (z_union [z_number []; z_string]));
    ("balance", z_optional (z_union [z_number []; z_string]))]).
Definition ErrorMessageSchema : Schema :=
  z_extend BaseMessageSchema [("type", z_literal "error");
    ("code", z_string);
    ("message", z_string)].
Definition SessionReadyMessageSchema : Schema :=
  z_passthrough (z_extend BaseMessageSchema [("type", z_literal "session_ready");
    ("sessionId", z_string);
    ("publicKey", z_string);
    ("registered", z_boolean);
    ("hasBalance", z_boolean);
    ("balance", z_optional (z_union [z_number []; z_string]))]).
Definition BalanceMessageSchema : Schema :=
  z_passthrough (z_extend BaseMessageSchema [("type", z_literal "balance");
    ("registered", z_boolean);
    ("hasBalance", z_boolean);
    ("publicKey", z_string);
    ("balance", z_optional (z_union [z_number []; z_string]));
    ("message", z_optional z_string)]).
Definition GameStartedMessageSchema : Schema :=
  z_passthrough (z_extend BaseMessageSchema [("type", z_literal "game_started");
    ("gameType", z_optional (z_number []));
    ("sessionId", z_string);
    ("bet", z_optional (z_union [z_number []; z_string]));
    ("state", z_optional (z_array (z_number []) []));
    ("initialState", z_optional z_unknown);
    ("balance", z_optional (z_union [z_number []; z_string]))]).
Definition GameMoveMessageSchema : Schema :=
  z_passthrough (z_extend BaseMessageSchema [("type", z_literal "game_move");
    ("sessionId", z_string);
    ("moveNumber", z_optional (z_number []));
    ("gameType", z_optional (z_number []));
    ("state", z_optional (z_array (z_number []) []));
    ("balance", z_optional (z_union [z_number []; z_string]))]).
Definition MoveAcceptedMessageSchema : Schema :=
  z_passthrough (z_extend BaseMessageSchema [("type", z_literal "move_accepted"); ("sessionId", z_string)]).
Definition BlackjackMessageSchema : Schema :=
  z_extend BaseMessageSchema [("type", z_enum ["state_update"; "game_result"; "card_dealt"]);
    ("balance", z_optional (z_number []));
    ("playerCards", z_optional (z_array CardSchema []));
    ("dealerCards", z_optional (z_array CardSchema []));
    ("playerTotal", z_optional (z_number []));
    ("dealerTotal", z_optional (z_number []));
    ("canDouble", z_optional z_boolean);
    ("canSplit", z_optional z_boolean);
    ("won", z_optional z_boolean);
    ("push", z_optional z_boolean);
    ("blackjack", z_optional z_boolean);
    ("message", z_optional z_string)].
Definition RouletteMessageSchema : Schema :=
  z_extend BaseMessageSchema [("type", z_enum ["state_update"; "game_result"; "spin_start"]);
    ("balance", z_optional (z_number []));
    ("result", z_optional (z_number []));
    ("won", z_optional z_boolean);
    ("winAmount", z_optional (z_number []));
    ("message", z_optional z_string)].
Definition HiLoMessageSchema : Schema :=
  z_extend BaseMessageSchema [("type", z_enum ["state_update"; "game_result"]);
    ("balance", z_optional (z_number []));
    ("card", z_optional CardSchema);
    ("nextCard", z_optional CardSchema);
    ("won", z_optional z_boolean);
    ("message", z_optional z_string)].
Definition BaccaratBetTypeSchema : Schema :=
  z_enum ["PLAYER"; "BANKER"; "TIE"; "P_PAIR"; "B_PAIR"; "LUCKY6"; "P_DRAGON"; "B_DRAGON"; "PANDA8";
    "PERFECT_PAIR"].
Definition CrapsBetNameSchema : Schema := z_enum (CrapsBetName_name <$> CrapsBetNames).
Definition RouletteBetNameSchema : Schema := z_enum ROULETTE_BET_NAMES.
Definition SicBoBetNameSchema : Schema := z_enum (SicBoBetName_name <$> SicBoBetNames).
Definition BaccaratOutcomeSchema : Schema := z_enum ["PLAYER"; "BANKER"; "TIE"].
Definition BaccaratMessageSchema : Schema :=
  z_extend BaseMessageSchema [("type", z_enum ["state_update"; "game_result"; "cards_dealt"]);
    ("balance", z_optional (z_number []));
    ("playerCards", z_optional (z_array CardSchema []));
    ("bankerCards", z_optional (z_array CardSchema []));
    ("playerTotal", z_optional (z_number []));
    ("bankerTotal", z_optional (z_number []));
    ("winner", z_optional BaccaratOutcomeSchema);
    ("message", z_optional z_string)].
Definition CrapsMessageSchema : Schema :=
  z_extend BaseMessageSchema [("type", z_enum ["state_update"; "game_result"; "dice_roll"]);
    ("balance", z_optional (z_number []));
    ("dice", z_optional (z_tuple [z_number []; z_number []]));
    ("point", z_optional (z_nullable (z_number [])));
    ("won", z_optional z_boolean);
    ("winAmount", z_optional (z_number []));
    ("message", z_optional z_string)].
Definition LiveTableTotalsSchema : Schema :=
  z_object [("type", z_string);
    ("amount", z_number []);
    ("target", z_optional (z_number [C_int; C_min 0; C_max 12]))].
Definition LiveTableBetSchema : Schema :=
  z_object [("type", z_string);
    ("amount", z_number []);
    ("target", z_optional (z_number [C_int; C_min 0; C_max 12]))].
Definition LiveTableStateMessageSchema : Schema :=
  z_passthrough (z_extend BaseMessageSchema [("type", z_literal "live_table_state");
    ("game", z_literal "craps");
    ("roundId", z_number [C_int]);
    ("phase", LiveTablePhaseSchema);
    ("timeRemainingMs", z_optional (z_number [C_int; C_nonnegative]));
    ("playerCount", z_optional (z_number [C_int; C_nonnegative]));
    ("point", z_optional (z_nullable (z_number [])));
    ("dice", z_optional (z_tuple [z_number []; z_number []]));
    ("tableTotals", z_optional (z_array LiveTableTotalsSchema []));
    ("myBets", z_optional (z_array LiveTableBetSchema []));
    ("balance", z_optional (z_union [z_number []; z_string]))]).
Definition LiveTableResultMessageSchema : Schema :=
  z_passthrough (z_extend BaseMessageSchema [("type", z_literal "live_table_result");
    ("game", z_literal "craps");
    ("roundId", z_number [C_int]);
    ("dice", z_tuple [z_number []; z_number []]);
    ("total", z_number [C_int]);
    ("point", z_optional (z_nullable (z_number [])));
    ("payout", z_optional (z_number []));
    ("netWin", z_optional (z_number []));
    ("balance", z_optional (z_union [z_number []; z_string]));
    ("myBets", z_optional (z_array LiveTableBetSchema []));
    ("message", z_optional z_string)]).
Definition LiveTableConfirmationMessageSchema : Schema :=
  z_passthrough (z_extend BaseMessageSchema [("type", z_literal "live_table_confirmation");
    ("game", z_literal "craps");
    ("status", z_enum ["pending"; "confirmed"; "failed"]);
    ("source", z_literal "onchain");
    ("roundId", z_optional (z_number [C_int]));
    ("message", z_optional z_string);
    ("balance", z_optional (z_union [z_number []; z_string]))]).
Definition CasinoWarMessageSchema : Schema :=
  z_extend BaseMessageSchema [("type", z_enum ["state_update"; "game_result"; "cards_dealt"; "tie"]);
    ("balance", z_optional (z_number []));
    ("playerCard", z_optional CardSchema);
    ("dealerCard", z_optional CardSchema);
    ("won", z_optional z_boolean);
    ("message", z_optional z_string)].
Definition PokerHandSchema : Schema :=
  z_enum ["ROYAL_FLUSH"; "STRAIGHT_FLUSH"; "FOUR_OF_A_KIND"; "FULL_HOUSE"; "FLUSH"; "STRAIGHT";
    "THREE_OF_A_KIND"; "TWO_PAIR"; "JACKS_OR_BETTER"; "NOTHING"].
Definition VideoPokerMessageSchema : Schema :=
  z_extend BaseMessageSchema [("type", z_enum ["state_update"; "game_result"; "cards_dealt"]);
    ("balance", z_optional (z_number []));
    ("cards", z_optional (z_array CardSchema []));
    ("hand", z_optional PokerHandSchema);
    ("payout", z_optional (z_number []));
    ("message", z_optional z_string)].
Definition SicBoMessageSchema : Schema :=
  z_extend BaseMessageSchema [("type", z_enum ["state_update"; "game_result"; "dice_roll"]);
    ("balance", z_optional (z_number []));
    ("dice", z_optional (z_tuple [z_number []; z_number []; z_number []]));
    ("won", z_optional z_boolean);
    ("winAmount", z_optional (z_number []));
    ("message", z_optional z_string)].
Definition ThreeCardPokerHandSchema : Schema :=
  z_enum ["STRAIGHT_FLUSH"; "THREE_OF_A_KIND"; "STRAIGHT"; "FLUSH"; "PAIR"; "HIGH_CARD"].
Definition ThreeCardPokerMessageSchema : Schema :=
  z_extend BaseMessageSchema [("type", z_enum ["state_update"; "game_result"; "cards_dealt"]);
    ("balance", z_optional (z_number []));
    ("playerCards", z_optional (z_array CardSchema []));
    ("dealerCards", z_optional (z_array CardSchema []));
    ("playerHand", z_optional ThreeCardPokerHandSchema);
    ("dealerHand", z_optional ThreeCardPokerHandSchema);
    ("dealerQualifies", z_optional z_boolean);
    ("anteResult", z_optional (z_enum ["win"; "loss"; "push"]));
    ("pairPlusResult", z_optional (z_enum ["win"; "loss"]));
    ("payout", z_optional (z_number []));
    ("message", z_optional z_string)].
Definition UltimateTXPhaseSchema : Schema :=
  z_enum ["betting"; "preflop"; "flop"; "river"; "showdown"; "result"].
Definition UltimateTXMessageSchema : Schema :=
  z_extend BaseMessageSchema [("type", z_enum ["state_update"; "game_result"; "cards_dealt"; "community_dealt"]);
    ("balance", z_optional (z_number []));
    ("playerCards", z_optional (z_array CardSchema []));
    ("communityCards", z_optional (z_array CardSchema []));
    ("phase", z_optional UltimateTXPhaseSchema);
    ("won", z_optional z_boolean);
    ("payout", z_optional (z_number []));
    ("message", z_optional z_string)].
Definition GameMessageSchema : Schema :=
  z_discriminatedUnion "type" [SessionReadyMessageSchema;
    BalanceMessageSchema;
    GameStartedMessageSchema;
    GameMoveMessageSchema;
    MoveAcceptedMessageSchema;
    StateUpdateMessageSchema;
    GameResultMessageSchema;
    LiveTableStateMessageSchema;
    LiveTableResultMessageSchema;
    LiveTableConfirmationMessageSchema;
    ErrorMessageSchema].

(** *** To the gateway *)

Definition BlackjackDealRequestSchema : Schema :=
  z_object [("type", z_literal "blackjack_deal");
    ("amount", z_number [C_positive]);
    ("sideBet21Plus3", z_optional (z_number [C_nonnegative]));
    ("sideBet21p3", z_optional (z_number [C_nonnegative]));
    ("sideBetLuckyLadies", z_optional (z_number [C_nonnegative]));
    ("sideBetPerfectPairs", z_optional (z_number [C_nonnegative]));
    ("sideBetBustIt", z_optional (z_number [C_nonnegative]));
    ("sideBetRoyalMatch", z_optional (z_number [C_nonnegative]))].
Definition BlackjackHitRequestSchema : Schema := z_object [("type", z_literal "blackjack_hit")].
Definition BlackjackStandRequestSchema : Schema := z_object [("type", z_literal "blackjack_stand")].
Definition BlackjackDoubleRequestSchema : Schema := z_object [("type", z_literal "blackjack_double")].
Definition BlackjackSplitRequestSchema : Schema := z_object [("type", z_literal "blackjack_split")].
Definition RouletteBetSchema : Schema :=
  z_object [("type", z_union [RouletteBetNameSchema; z_number [C_int; C_min 0; C_max 255]]);
    ("amount", z_number [C_positive]);
    ("target", z_optional (z_number [C_int; C_min 0; C_max 37]));
    ("number", z_optional (z_number [C_int; C_min 0; C_max 37]));
    ("value", z_optional (z_number [C_int; C_min 0; C_max 37]))].
Definition RouletteSpinRequestSchema : Schema := z_object [("type", z_literal "roulette_spin"); ("bets", z_array
    RouletteBetSchema [C_min 1])].
Definition CrapsBetSchema : Schema :=
  z_object [("type", z_union [CrapsBetNameSchema; z_number [C_int; C_min 0; C_max 255]]);
    ("amount", z_number [C_positive]);
    ("target", z_optional (z_number [C_int; C_min 0; C_max 12]))].
Definition CrapsRollRequestSchema : Schema := z_object [("type", z_literal "craps_roll"); ("bets", z_array
    CrapsBetSchema [C_min 1])].
Definition CrapsSingleBetRequestSchema : Schema :=
  z_object [("type", z_literal "craps_bet");
    ("betType", z_union [CrapsBetNameSchema; z_number [C_int; C_min 0]]);
    ("amount", z_number [C_positive]);
    ("target", z_optional (z_number [C_int; C_min 0; C_max 12]))].
Definition CrapsLiveJoinRequestSchema : Schema := z_object [("type", z_literal "craps_live_join")].
Definition CrapsLiveLeaveRequestSchema : Schema := z_object [("type", z_literal "craps_live_leave")].
Definition CrapsLiveBetRequestSchema : Schema := z_object [("type", z_literal "craps_live_bet"); ("bets",
    z_array CrapsBetSchema [C_min 1])].
Definition HiLoBetRequestSchema : Schema :=
  z_object [("type", z_literal "hilo_bet");
    ("amount", z_number [C_positive]);
    ("choice", z_enum ["higher"; "lower"])].
Definition HiLoDealRequestSchema : Schema := z_object [("type", z_literal "hilo_deal"); ("amount", z_number
    [C_positive])].
Definition HiLoHigherRequestSchema : Schema := z_object [("type", z_literal "hilo_higher")].
Definition HiLoLowerRequestSchema : Schema := z_object [("type", z_literal "hilo_lower")].
Definition HiLoSameRequestSchema : Schema := z_object [("type", z_literal "hilo_same")].
Definition HiLoCashoutRequestSchema : Schema := z_object [("type", z_literal "hilo_cashout")].
Definition BaccaratBetSchema : Schema :=
  z_object [("type", BaccaratBetTypeSchema); ("amount", z_number [C_positive])].
Definition BaccaratDealRequestSchema : Schema := z_object [("type", z_literal "baccarat_deal"); ("bets", z_array
    BaccaratBetSchema [C_min 1])].
Definition CasinoWarDealRequestSchema : Schema :=
  z_object [("type", z_literal "casino_war_deal");
    ("amount", z_number [C_positive]);
    ("tieBet", z_optional (z_number [C_nonnegative]))].
Definition CasinoWarWarRequestSchema : Schema := z_object [("type", z_literal "casino_war_war")].
Definition CasinoWarSurrenderRequestSchema : Schema := z_object [("type", z_literal "casino_war_surrender")].
Definition CasinoWarLegacyDealRequestSchema : Schema :=
  z_extend CasinoWarDealRequestSchema [("type", z_literal "casinowar_deal")].
Definition CasinoWarLegacyWarRequestSchema : Schema :=
  z_extend CasinoWarWarRequestSchema [("type", z_literal "casinowar_war")].
Definition CasinoWarLegacySurrenderRequestSchema : Schema :=
  z_extend CasinoWarSurrenderRequestSchema [("type", z_literal "casinowar_surrender")].
Definition VideoPokerDealRequestSchema : Schema := z_object [("type", z_literal "video_poker_deal"); ("amount",
    z_number [C_positive])].
Definition VideoPokerDrawRequestSchema : Schema := z_object [("type", z_literal "video_poker_draw"); ("held",
    z_array z_boolean [C_length 5])].
Definition VideoPokerLegacyDealRequestSchema : Schema :=
  z_extend VideoPokerDealRequestSchema [("type", z_literal "videopoker_deal")].
Definition VideoPokerLegacyHoldRequestSchema : Schema := z_object [("type", z_literal "videopoker_hold");
    ("holds", z_array z_boolean [C_length 5])].
Definition SicBoBetSchema : Schema :=
  z_object [("type", z_union [SicBoBetNameSchema; z_number [C_int; C_min 0; C_max 255]]);
    ("amount", z_number [C_positive]);
    ("target", z_optional (z_number [C_int; C_min 0; C_max 255]));
    ("number", z_optional (z_number [C_int; C_min 0; C_max 255]));
    ("value", z_optional (z_number [C_int; C_min 0; C_max 255]))].
Definition SicBoRollRequestSchema : Schema := z_object [("type", z_literal "sic_bo_roll"); ("bets", z_array
    SicBoBetSchema [C_min 1])].
Definition SicBoLegacyRollRequestSchema : Schema :=
  z_extend SicBoRollRequestSchema [("type", z_literal "sicbo_roll")].
Definition ThreeCardPokerDealRequestSchema : Schema :=
  z_object [("type", z_literal "three_card_poker_deal");
    ("ante", z_number [C_positive]);
    ("pairPlus", z_optional (z_number [C_nonnegative]));
    ("sixCard", z_optional (z_number [C_nonnegative]));
    ("sixCardBonus", z_optional (z_number [C_nonnegative]));
    ("progressive", z_optional (z_number [C_nonnegative]))].
Definition ThreeCardPokerPlayRequestSchema : Schema := z_object [("type", z_literal "three_card_poker_play")].
Definition ThreeCardPokerFoldRequestSchema : Schema := z_object [("type", z_literal "three_card_poker_fold")].
Definition ThreeCardPokerLegacyDealRequestSchema : Schema :=
  z_extend ThreeCardPokerDealRequestSchema [("type", z_literal "threecardpoker_deal")].
Definition ThreeCardPokerLegacyPlayRequestSchema : Schema :=
  z_extend ThreeCardPokerPlayRequestSchema [("type", z_literal "threecardpoker_play")].
Definition ThreeCardPokerLegacyFoldRequestSchema : Schema :=
  z_extend ThreeCardPokerFoldRequestSchema [("type", z_literal "threecardpoker_fold")].
Definition UltimateTXDealRequestSchema : Schema :=
  z_object [("type", z_literal "ultimate_tx_deal");
    ("ante", z_number [C_positive]);
    ("blind", z_number [C_positive]);
    ("trips", z_optional (z_number [C_nonnegative]));
    ("sixCard", z_optional (z_number [C_nonnegative]));
    ("sixCardBonus", z_optional (z_number [C_nonnegative]));
    ("progressive", z_optional (z_number [C_nonnegative]))].
Definition UltimateTXBetRequestSchema : Schema := z_object [("type", z_literal "ultimate_tx_bet");
    ("multiplier", z_number [C_int; C_min 1; C_max 4])].
Definition UltimateTXCheckRequestSchema : Schema := z_object [("type", z_literal "ultimate_tx_check")].
Definition UltimateTXFoldRequestSchema : Schema := z_object [("type", z_literal "ultimate_tx_fold")].
Definition UltimateTXLegacyDealRequestSchema : Schema :=
  z_extend UltimateTXDealRequestSchema [("type", z_literal "ultimateholdem_deal")].
Definition UltimateTXLegacyBetRequestSchema : Schema :=
  z_extend UltimateTXBetRequestSchema [("type", z_literal "ultimateholdem_bet")].
Definition UltimateTXLegacyCheckRequestSchema : Schema :=
  z_extend UltimateTXCheckRequestSchema [("type", z_literal "ultimateholdem_check")].
Definition UltimateTXLegacyFoldRequestSchema : Schema :=
  z_extend UltimateTXFoldRequestSchema [("type", z_literal "ultimateholdem_fold")].
Definition FaucetClaimRequestSchema : Schema := z_object [("type", z_literal "faucet_claim"); ("amount",
    z_optional (z_number [C_positive]))].
Definition OutboundMessageSchema : Schema :=
  z_discriminatedUnion "type" [BlackjackDealRequestSchema;
    BlackjackHitRequestSchema;
    BlackjackStandRequestSchema;
    BlackjackDoubleRequestSchema;
    BlackjackSplitRequestSchema;
    RouletteSpinRequestSchema;
    CrapsRollRequestSchema;
    CrapsSingleBetRequestSchema;
    CrapsLiveJoinRequestSchema;
    CrapsLiveLeaveRequestSchema;
    CrapsLiveBetRequestSchema;
    HiLoBetRequestSchema;
    HiLoDealRequestSchema;
    HiLoHigherRequestSchema;
    HiLoLowerRequestSchema;
    HiLoSameRequestSchema;
    HiLoCashoutRequestSchema;
    BaccaratDealRequestSchema;
    CasinoWarDealRequestSchema;
    CasinoWarWarRequestSchema;
    CasinoWarSurrenderRequestSchema;
    CasinoWarLegacyDealRequestSchema;
    CasinoWarLegacyWarRequestSchema;
    CasinoWarLegacySurrenderRequestSchema;
    VideoPokerDealRequestSchema;
    VideoPokerDrawRequestSchema;
    VideoPokerLegacyDealRequestSchema;
    VideoPokerLegacyHoldRequestSchema;
    SicBoRollRequestSchema;
    SicBoLegacyRollRequestSchema;
    ThreeCardPokerDealRequestSchema;
    ThreeCardPokerPlayRequestSchema;
    ThreeCardPokerFoldRequestSchema;
    ThreeCardPokerLegacyDealRequestSchema;
    ThreeCardPokerLegacyPlayRequestSchema;
    ThreeCardPokerLegacyFoldRequestSchema;
    UltimateTXDealRequestSchema;
    UltimateTXBetRequestSchema;
    UltimateTXCheckRequestSchema;
    UltimateTXFoldRequestSchema;
    UltimateTXLegacyDealRequestSchema;
    UltimateTXLegacyBetRequestSchema;
    UltimateTXLegacyCheckRequestSchema;
    UltimateTXLegacyFoldRequestSchema;
    FaucetClaimRequestSchema].

(** ** The game of a request *)

Definition OUTBOUND_MESSAGE_GAME_TYPES : list (string * option GameType) := [
  ("blackjack_deal", Some Game_Blackjack);
  ("blackjack_hit", Some Game_Blackjack);
  ("blackjack_stand", Some Game_Blackjack);
  ("blackjack_double", Some Game_Blackjack);
  ("blackjack_split", Some Game_Blackjack);
  ("roulette_spin", Some Game_Roulette);
  ("craps_roll", Some Game_Craps);
  ("craps_bet", Some Game_Craps);
  ("craps_live_join", Some Game_Craps);
  ("craps_live_leave", Some Game_Craps);
  ("craps_live_bet", Some Game_Craps);
  ("hilo_bet", Some Game_HiLo);
  ("hilo_deal", Some Game_HiLo);
  ("hilo_higher", Some Game_HiLo);
  ("hilo_lower", Some Game_HiLo);
  ("hilo_same", Some Game_HiLo);
  ("hilo_cashout", Some Game_HiLo);
  ("baccarat_deal", Some Game_Baccarat);
  ("casino_war_deal", Some Game_CasinoWar);
  ("casino_war_war", Some Game_CasinoWar);
  ("casino_war_surrender", Some Game_CasinoWar);
  ("casinowar_deal", Some Game_CasinoWar);
  ("casinowar_war", Some Game_CasinoWar);
  ("casinowar_surrender", Some Game_CasinoWar);
  ("video_poker_deal", Some Game_VideoPoker);
  ("video_poker_draw", Some Game_VideoPoker);
  ("videopoker_deal", Some Game_VideoPoker);
  ("videopoker_hold", Some Game_VideoPoker);
  ("sic_bo_roll", Some Game_SicBo);
  ("sicbo_roll", Some Game_SicBo);
  ("three_card_poker_deal", Some Game_ThreeCard);
  ("three_card_poker_play", Some Game_ThreeCard);
  ("three_card_poker_fold", Some Game_ThreeCard);
  ("threecardpoker_deal", Some Game_ThreeCard);
  ("threecardpoker_play", Some Game_ThreeCard);
  ("threecardpoker_fold", Some Game_ThreeCard);
  ("ultimate_tx_deal", Some Game_UltimateHoldem);
  ("ultimate_tx_bet", Some Game_UltimateHoldem);
  ("ultimate_tx_check", Some Game_UltimateHoldem);
  ("ultimate_tx_fold", Some Game_UltimateHoldem);
  ("ultimateholdem_deal", Some Game_UltimateHoldem);
  ("ultimateholdem_bet", Some Game_UltimateHoldem);
  ("ultimateholdem_check", Some Game_UltimateHoldem);
  ("ultimateholdem_fold", Some Game_UltimateHoldem);
  ("faucet_claim", None)
].

Definition getOutboundMessageGameType (type : string) : option GameType :=
  kv ← List.find (fun kv : string * option GameType => bool_decide (kv.1 = type)) OUTBOUND_MESSAGE_GAME_TYPES; kv.2.

(** [validateMessage]: the value, or what the library says of the error. *)
Definition validateMessage `{Zod} (raw : Json) (schema : Schema) : option Json := safeParse schema raw.
