(* ===== verification/GatewayMessages.v ===== *)
(** * The messages of the gateway

    What the gateway makes of a request once it is valid, and the JSON of what it
    answers: the [handleMessage] of every handler in [gateway/src/handlers/], the
    registry of the handlers, the responses of [base.ts] with [parseGameLog] of
    [codec/events.ts], the payloads of the live table, and the events for the ops
    service ([ops.ts]).

    A request is read from the data that the schema returned.  [None] stands for
    data that has not the type its schema gives it; [GatewayServerCorrect] shows
    that this never happens.  Values of JSON are kept as values: [JSON.stringify]
    leaves out fields without a value, and so do the lists of fields here; a
    number that is none ([NaN]) is written as [null]. *)

From Stdlib Require Import QArith.QArith QArith.Qround.
From stdpp Require Import pretty.
From S2P Require Import Prelude JsNum Bytes Calendar AuthUtils Json JsValues Constants Schemas LiveTable BinaryReader Events ProtocolEncode Transactions Instructions Nonce Updates Sessions Handlers.

#[local] Open Scope Z_scope.

(** ** Reading the fields of a request *)

Abbreviation Fields := (list (string * Json)).

Definition asText (v : Json) : option string := match v with JString s => Some s | _ => None end.
Definition asNumber (v : Json) : option Q := match v with JNumber q => Some q | _ => None end.
Definition asBool (v : Json) : option bool := match v with JBool b => Some b | _ => None end.
Definition asFields (v : Json) : option Fields := match v with JObject fs => Some fs | _ => None end.
Definition asItems (v : Json) : option (list Json) := match v with JArray l => Some l | _ => None end.

(** A number that is whole. *)
Definition asWhole (v : Json) : option Z := q ← asNumber v; whole (Fin q).

(** A name, or a code. *)
Definition asType (v : Json) : option (string + Z) :=
  match v with
  | JString s => Some (inl s)
  | _ => inr <$> asWhole v
  end.

Section Read.
Context {A : Type} (read : Json -> option A).

Definition required (k : string) (fs : Fields) : option A := v ← field k fs; read v.

(** A field that may be missing. *)
Definition optional (k : string) (fs : Fields) : option (option A) :=
  match field k fs with
  | None => Some None
  | Some v => Some <$> read v
  end.

Definition itemsOf (k : string) (fs : Fields) : option (list A) := v ← field k fs; l ← asItems v; mapM read l.
End Read.

(** A bet of roulette or sic bo. *)
Definition tableBet (v : Json) : option BetRequest :=
  fs ← asFields v;
  type ← required asType "type" fs; amount ← required asNumber "amount" fs;
  target ← optional asWhole "target" fs; number ← optional asWhole "number" fs; value ← optional asWhole "value" fs;
  Some {| br_type := type; br_amount := amount; br_target := target; br_number := number; br_value := value |}.

Definition crapsBet (v : Json) : option BetRequest :=
  fs ← asFields v;
  type ← required asType "type" fs; amount ← required asNumber "amount" fs; target ← optional asWhole "target" fs;
  Some {| br_type := type; br_amount := amount; br_target := target; br_number := None; br_value := None |}.

(** The single bet of [craps_bet]. *)
Definition crapsSingleBet (fs : Fields) : option BetRequest :=
  type ← required asType "betType" fs; amount ← required asNumber "amount" fs; target ← optional asWhole "target" fs;
  Some {| br_type := type; br_amount := amount; br_target := target; br_number := None; br_value := None |}.

Definition baccaratBet (v : Json) : option BetRequest :=
  fs ← asFields v;
  type ← required asType "type" fs; amount ← required asNumber "amount" fs;
  Some {| br_type := type; br_amount := amount; br_target := None; br_number := None; br_value := None |}.

(** ** The handlers' [handleMessage] *)

(** A request for the handlers of [Handlers], or for the live table. *)
Inductive Request :=
| Rq_game (rq : GameRequest)
| Rq_live_join
| Rq_live_leave
| Rq_live_bet (bets : list BetRequest).

Definition Dispatched : Type := ErrorCode * string + Request.

Definition unknown (game type : string) : option Dispatched :=
  Some (inl (INVALID_MESSAGE, "Unknown " +:+ game +:+ " message: " +:+ type)).

Definition among (type : string) (l : list string) : bool := bool_decide (type ∈ l).

Definition plays (rq : option GameRequest) : option Dispatched := inr ∘ Rq_game <$> rq.

Definition blackjackHandle (type : string) (fs : Fields) : option Dispatched :=
  if among type ["blackjack_deal"] then
    plays (amount ← required asNumber "amount" fs; a ← optional asNumber "sideBet21Plus3" fs;
           b ← optional asNumber "sideBet21p3" fs; Some (Rq_blackjack_deal amount a b))
  else if among type ["blackjack_hit"] then plays (Some Rq_blackjack_hit)
  else if among type ["blackjack_stand"] then plays (Some Rq_blackjack_stand)
  else if among type ["blackjack_double"] then plays (Some Rq_blackjack_double)
  else if among type ["blackjack_split"] then plays (Some Rq_blackjack_split)
  else unknown "blackjack" type.

Definition baccaratHandle (type : string) (fs : Fields) : option Dispatched :=
  if among type ["baccarat_deal"] then plays (Rq_baccarat_deal <$> itemsOf baccaratBet "bets" fs)
  else unknown "baccarat" type.

Definition rouletteHandle (type : string) (fs : Fields) : option Dispatched :=
  if among type ["roulette_spin"] then plays (Rq_roulette_spin <$> itemsOf tableBet "bets" fs)
  else unknown "roulette" type.

Definition sicboHandle (type : string) (fs : Fields) : option Dispatched :=
  if among type ["sicbo_roll"; "sic_bo_roll"] then plays (Rq_sicbo_roll <$> itemsOf tableBet "bets" fs)
  else unknown "sicbo" type.

Definition crapsHandle (type : string) (fs : Fields) : option Dispatched :=
  if among type ["craps_live_join"] then Some (inr Rq_live_join)
  else if among type ["craps_live_leave"] then Some (inr Rq_live_leave)
  else if among type ["craps_live_bet"] then bets ← itemsOf crapsBet "bets" fs; Some (inr (Rq_live_bet bets))
  else if among type ["craps_bet"] then plays (b ← crapsSingleBet fs; Some (Rq_craps_bets [b]))
  else if among type ["craps_roll"] then plays (Rq_craps_bets <$> itemsOf crapsBet "bets" fs)
  else unknown "craps" type.

Definition asChoice (v : Json) : option HiLoAction :=
  s ← asText v;
  if bool_decide (s = "higher") then Some Hl_higher
  else if bool_decide (s = "lower") then Some Hl_lower else None.

Definition hiloHandle (type : string) (fs : Fields) : option Dispatched :=
  if among type ["hilo_deal"] then plays (Rq_hilo_deal <$> required asNumber "amount" fs)
  else if among type ["hilo_bet"] then
    plays (amount ← required asNumber "amount" fs; choice ← required asChoice "choice" fs; Some (Rq_hilo_bet amount choice))
  else if among type ["hilo_higher"] then plays (Some (Rq_hilo_action Hl_higher))
  else if among type ["hilo_lower"] then plays (Some (Rq_hilo_action Hl_lower))
  else if among type ["hilo_same"] then plays (Some (Rq_hilo_action Hl_same))
  else if among type ["hilo_cashout"] then plays (Some (Rq_hilo_action Hl_cashout))
  else unknown "hilo" type.

Definition casinowarHandle (type : string) (fs : Fields) : option Dispatched :=
  if among type ["casinowar_deal"; "casino_war_deal"] then
    plays (amount ← required asNumber "amount" fs; tie ← optional asNumber "tieBet" fs; Some (Rq_casinowar_deal amount tie))
  else if among type ["casinowar_war"; "casino_war_war"] then plays (Some (Rq_casinowar_action Cw_war))
  else if among type ["casinowar_surrender"; "casino_war_surrender"] then plays (Some (Rq_casinowar_action Cw_surrender))
  else unknown "casinowar" type.

Definition videopokerHandle (type : string) (fs : Fields) : option Dispatched :=
  if among type ["videopoker_deal"; "video_poker_deal"] then plays (Rq_videopoker_deal <$> required asNumber "amount" fs)
  else if among type ["videopoker_hold"; "video_poker_draw"] then
    plays (Rq_videopoker_hold <$>
             itemsOf asBool (if bool_decide (type = "video_poker_draw") then "held" else "holds") fs)
  else unknown "videopoker" type.

Definition threecardHandle (type : string) (fs : Fields) : option Dispatched :=
  if among type ["threecardpoker_deal"; "three_card_poker_deal"] then
    plays (ante ← required asNumber "ante" fs; pairPlus ← optional asNumber "pairPlus" fs;
           six ← optional asNumber "sixCard" fs; bonus ← optional asNumber "sixCardBonus" fs;
           prog ← optional asNumber "progressive" fs; Some (Rq_threecard_deal ante pairPlus six bonus prog))
  else if among type ["threecardpoker_play"; "three_card_poker_play"] then plays (Some Rq_threecard_play)
  else if among type ["threecardpoker_fold"; "three_card_poker_fold"] then plays (Some Rq_threecard_fold)
  else unknown "threecardpoker" type.

Definition ultimateHandle (type : string) (fs : Fields) : option Dispatched :=
  if among type ["ultimateholdem_deal"; "ultimate_tx_deal"] then
    plays (ante ← required asNumber "ante" fs; blind ← required asNumber "blind" fs; trips ← optional asNumber "trips" fs;
           six ← optional asNumber "sixCard" fs; bonus ← optional asNumber "sixCardBonus" fs;
           prog ← optional asNumber "progressive" fs; Some (Rq_ultimate_deal ante blind trips six bonus prog))
  else if among type ["ultimateholdem_bet"; "ultimate_tx_bet"] then plays (Rq_ultimate_bet <$> required asWhole "multiplier" fs)
  else if among type ["ultimateholdem_check"; "ultimate_tx_check"] then plays (Some Rq_ultimate_check)
  else if among type ["ultimateholdem_fold"; "ultimate_tx_fold"] then plays (Some Rq_ultimate_fold)
  else unknown "ultimateholdem" type.

(** [createHandlerRegistry] *)
Definition registry : list (GameType * (string -> Fields -> option Dispatched)) := [
  (Game_Baccarat, baccaratHandle); (Game_Blackjack, blackjackHandle); (Game_CasinoWar, casinowarHandle);
  (Game_Craps, crapsHandle); (Game_HiLo, hiloHandle); (Game_Roulette, rouletteHandle); (Game_SicBo, sicboHandle);
  (Game_ThreeCard, threecardHandle); (Game_UltimateHoldem, ultimateHandle); (Game_VideoPoker, videopokerHandle)
].

Definition handlerOf (gt : GameType) : option (string -> Fields -> option Dispatched) :=
  snd <$> List.find (fun h : GameType * (string -> Fields -> option Dispatched) => bool_decide (h.1 = gt)) registry.

(** From the type of a valid message to its handler. *)
Definition dispatch (type : string) (fs : Fields) : option Dispatched :=
  match getOutboundMessageGameType type with
  | None => Some (inl (INVALID_MESSAGE, "Unknown message type: " +:+ type))
  | Some gt =>
      match handlerOf gt with
      | None => Some (inl (INVALID_GAME_TYPE, "No handler for game type: " +:+ pretty (GameType_code gt)))
      | Some handle => handle type fs
      end
  end.

(** ** [parseGameLog] *)

Definition VIDEO_POKER_HAND_NAMES : list string :=
  ["HIGH_CARD"; "JACKS_OR_BETTER"; "TWO_PAIR"; "THREE_OF_A_KIND"; "STRAIGHT"; "FLUSH"; "FULL_HOUSE";
   "FOUR_OF_A_KIND"; "STRAIGHT_FLUSH"; "ROYAL_FLUSH"].

Definition handNameOf (handId : Num) : option string :=
  n ← whole handId; if n <? 0 then None else VIDEO_POKER_HAND_NAMES !! Z.to_nat n.

Definition jsonNumber (n : Num) : Json := match n with Fin q => JNumber q | _ => JNull end.

(** [parseInt(s, 10)] *)
Definition parseInt10 (s : string) : Num :=
  let s := trimStart s in
  let '(sign, s) := match s with
                    | String c s' => if Text.is_char 45 c then (-1, s') else if Text.is_char 43 c then (1, s') else (1, s)
                    | EmptyString => (1, s)
                    end in
  let '(n, v, _) := Text.digits 0 0 s in
  if n =? 0 then NaN else int (sign * to_number v).

Definition setIf (k : string) (v : option Json) (fs : Fields) : Fields :=
  match v with Some v => put k v fs | None => fs end.

(** [normalizeVideoPokerLog] of an object. *)
Definition normalizeVideoPokerLog (data : Fields) : Fields :=
  let handRaw := field "hand" data in
  let handIdRaw := field "handId" data in
  if (bool_decide (is_Some handRaw) || bool_decide (is_Some handIdRaw)) && bool_decide (is_Some (field "multiplier" data)) then
    match union (handIdRaw ≫= asNumber) (handRaw ≫= asNumber) with
    | Some handFromId =>
        let data := put "handId" (JNumber handFromId) data in
        match handRaw with
        | Some (JString _) => data
        | _ => setIf "hand" (JString <$> handNameOf (Fin handFromId)) data
        end
    | None => data
    end
  else data.

(** The fields that [Object.assign] copies: the positions of a list or of the
    bytes of a text; the other values have none. *)
Definition numbered {A} (f : A -> Json) (l : list A) : Fields := imap (fun i a => (pretty (Z.of_nat i), f a)) l.

Definition ownFields (v : Json) : Fields :=
  match v with
  | JObject fs => fs
  | JArray l => numbered id l
  | JString s => numbered (fun c => JString (String c "")) (String.list_ascii_of_string s)
  | _ => []
  end.

(** [null] has no properties to ask for, so the text is looked at again. *)
Definition parseGameLog (log : string) : option Fields :=
  match Text.JSON_parse log with
  | Some (JObject data) => Some (normalizeVideoPokerLog data)
  | Some JNull | None =>
      if String.prefix "RESULT:" log then
        let parts := split (Text.char 58) log in
        let handId := textNumber (default "" (parts !! 1%nat)) in
        Some [("type", JString "RESULT"); ("handId", jsonNumber handId);
              ("hand", JString (default "UNKNOWN" (handNameOf handId)));
              ("multiplier", jsonNumber (match parts !! 2%nat with Some s => parseInt10 s | None => NaN end))]
      else None
  | Some v => Some (ownFields v)
  end.

(** ** Responses *)

Definition text (s : string) : Json := JString s.
(** [value.toString()] of a big integer. *)
Definition big (z : Z) : Json := JString (pretty z).
Definition num (z : Z) : Json := JNumber (inject_Z z).
(** [Array.from(bytes)] *)
Definition byteList (bs : Uint8Array) : Json := JArray ((fun b => num (b2z b)) <$> bs).

Definition assign (fs more : Fields) : Fields := overwrite fs more.
Definition withLog (log : option string) (fs : Fields) : Fields :=
  match log ≫= parseGameLog with Some more => assign fs more | None => fs end.
Definition drop (k : string) (fs : Fields) : Fields := List.filter (fun kv => negb (bool_decide (kv.1 = k))) fs.
Definition setOrDrop (k : string) (v : option Json) (fs : Fields) : Fields :=
  match v with Some v => put k v fs | None => drop k fs end.

(** [amount.toString()] of a number. *)
Definition amountText (q : Q) : Json := JString (numberText (Fin q)).

Definition resultMessage (payout : Z) : string :=
  if 0 <? payout then "You win " +:+ pretty payout +:+ "!"
  else if payout <? 0 then "You lose!" else "Push - bet returned".

Fixpoint responseFields (r : Response) : Fields :=
  match r with
  | Rs_game_started gameType sessionId bet initialState balance =>
      let fs := [("type", text "game_started"); ("gameType", num gameType); ("sessionId", big sessionId); ("bet", big bet)] in
      let fs := match initialState with
                | Some st => put "state" (byteList st) (put "initialState" (JObject [("rawState", text (to_hex st))]) fs)
                | None => fs
                end in
      setIf "balance" (big <$> balance) fs
  | Rs_game_move sessionId moveNumber gameType log state balance =>
      let fs := [("type", text "game_move"); ("sessionId", big sessionId); ("moveNumber", num moveNumber); ("gameType", num gameType)] in
      let fs := withLog log fs in
      let fs := setIf "state" (byteList <$> state) fs in
      put "balance" (big balance) fs
  | Rs_game_result sessionId payout finalChips gameType won push log balance =>
      let fs := [("type", text "game_result"); ("sessionId", big sessionId); ("payout", big payout);
                 ("finalChips", big finalChips); ("gameType", num gameType); ("won", JBool won)] in
      let fs := if push then put "push" (JBool true) fs else fs in
      let fs := put "message" (text (resultMessage payout)) fs in
      let fs := withLog log fs in
      put "balance" (big balance) fs
  | Rs_move_accepted sessionId => [("type", text "move_accepted"); ("sessionId", big sessionId)]
  | Rs_dealt deal gameType sessionId bet blind =>
      let fs := responseFields deal in
      let fs := put "gameType" (num gameType) (put "type" (text "game_started") fs) in
      let fs := setOrDrop "sessionId" (big <$> sessionId) fs in
      let card := among (pretty gameType) [pretty (GameType_code Game_ThreeCard); pretty (GameType_code Game_UltimateHoldem)] in
      setIf "blind" (amountText <$> blind) (put (if card then "ante" else "bet") (amountText bet) fs)
  end.

(** *** The live table *)

Definition betName (v : CrapsBetName + Z) : string :=
  match v with inl b => CrapsBetName_name b | inr code => "BET_" +:+ pretty code end.

Definition viewFields (v : ViewAmount) : Json :=
  let '(name, target, amount) := v in
  JObject (setIf "target" (num <$> target) [("type", text (betName name)); ("amount", num amount)]).

Definition phaseName (p : LiveTablePhase) : string :=
  match p with
  | Ph_betting => "betting" | Ph_locked => "locked" | Ph_rolling => "rolling" | Ph_payout => "payout"
  | Ph_cooldown => "cooldown"
  end.

Definition statusName (s : ConfirmStatus) : string :=
  match s with St_pending => "pending" | St_confirmed => "confirmed" | St_failed => "failed" end.

Definition diceList (d : Z * Z) : Json := JArray [num d.1; num d.2].

Definition payloadFields (p : Payload) : Fields :=
  match p with
  | P_state roundId phase timeRemainingMs playerCount tableTotals point dice balance myBets =>
      let fs := [("type", text "live_table_state"); ("game", text "craps"); ("roundId", num roundId);
                 ("phase", text (phaseName phase)); ("timeRemainingMs", num timeRemainingMs);
                 ("playerCount", num playerCount); ("tableTotals", JArray (viewFields <$> tableTotals)); ("source", text "onchain")] in
      let fs := setIf "dice" (diceList <$> dice) (setIf "point" (num <$> point) fs) in
      let fs := put "balance" (big balance) fs in
      if bool_decide (myBets = []) then fs else put "myBets" (JArray (viewFields <$> myBets)) fs
  | P_result roundId dice total payout netWin myBets point balance =>
      let fs := [("type", text "live_table_result"); ("game", text "craps"); ("roundId", num roundId); ("dice", diceList dice);
                 ("total", num total); ("payout", num payout); ("netWin", num netWin);
                 ("myBets", JArray (viewFields <$> myBets)); ("source", text "onchain")] in
      setIf "balance" (big <$> balance) (setIf "point" (num <$> point) fs)
  | P_confirmation status message roundId balance =>
      let fs := [("type", text "live_table_confirmation"); ("game", text "craps"); ("status", text (statusName status));
                 ("source", text "onchain"); ("roundId", num roundId)] in
      setIf "balance" (big <$> balance) (if bool_decide (message = "") then fs else put "message" (text message) fs)
  end.

(** *** The gateway itself *)

Definition codeName (c : ErrorCode) : string :=
  match c with
  | INVALID_MESSAGE => "INVALID_MESSAGE" | INVALID_GAME_TYPE => "INVALID_GAME_TYPE" | INVALID_BET => "INVALID_BET"
  | NO_ACTIVE_GAME => "NO_ACTIVE_GAME" | INSUFFICIENT_BALANCE => "INSUFFICIENT_BALANCE" | NOT_REGISTERED => "NOT_REGISTERED"
  | BACKEND_UNAVAILABLE => "BACKEND_UNAVAILABLE" | TRANSACTION_REJECTED => "TRANSACTION_REJECTED"
  | NONCE_MISMATCH => "NONCE_MISMATCH" | INTERNAL_ERROR => "INTERNAL_ERROR" | SESSION_EXPIRED => "SESSION_EXPIRED"
  | GAME_IN_PROGRESS => "GAME_IN_PROGRESS" | REGISTRATION_FAILED => "REGISTRATION_FAILED"
  end.

Definition errorFields (code message : string) : Fields :=
  [("type", text "error"); ("code", text code); ("message", text message)].

Definition pongFields (timestamp : Z) : Fields := [("type", text "pong"); ("timestamp", num timestamp)].

Definition balanceFields (s : Sessions.Session) (message : option string) : Fields :=
  setIf "message" (text <$> message)
    [("type", text "balance"); ("registered", JBool (registered s)); ("hasBalance", JBool (ac_hasBalance (se_account s)));
     ("publicKey", text (publicKeyHex s)); ("balance", big (Sessions.balance s))].

Definition readyFields (s : Sessions.Session) : Fields :=
  [("type", text "session_ready"); ("sessionId", text (id_id (se_identity s))); ("publicKey", text (publicKeyHex s));
   ("registered", JBool (registered s)); ("hasBalance", JBool (ac_hasBalance (se_account s)))].

(** ** Events for the ops service *)

Definition numberIf (v : option Json) : result (option Num) :=
  if truthy v then Some <$> toNumber v else Ok None.

Definition numberProp (k : string) (n : option Num) (fs : Fields) : Fields := setIf k (jsonNumber <$> n) fs.

(** [trackGatewayResponse]: the name and the properties of the event, if any. *)
Definition trackGatewayResponse (hasOps : bool) (s : Sessions.Session) (response : Fields) : result (option (string * Fields)) :=
  if negb hasOps then Ok None
  else
    match field "type" response with
    | Some (JString "game_started") =>
        bet ← numberIf (field "bet" response);
        Ok (Some ("casino.game.started",
          setIf "sessionId" (field "sessionId" response)
            (numberProp "bet" bet (setIf "gameType" (field "gameType" response) [("source", text "gateway")]))))
    | Some (JString "game_result") =>
        let finalChips := JsValues.orElse (field "finalChips" response) (field "balance" response) in
        finalNum ← match finalChips with Some v => Some <$> toNumber (Some v) | None => Ok None end;
        let startNum := int ∘ to_number <$> gi_lastGameStartChips (se_game s) in
        let netPnL := f ← finalNum; st ← startNum; Some (minus f st) in
        wager ← match gi_lastGameBet (se_game s) with
                | Some b => Ok (Some (int (to_number b)))
                | None => numberIf (field "bet" response)
                end;
        payout ← numberIf (field "payout" response);
        Ok (Some ("casino.game.completed",
          put "mode" (text "CASH")
            (numberProp "finalChips" finalNum (numberProp "payout" payout (numberProp "netPnL" netPnL (numberProp "wager" wager
              (setIf "sessionId" (field "sessionId" response) (setIf "gameType" (field "gameType" response)
                [("source", text "gateway")]))))))))
    | _ => Ok None
    end.
