(* ===== verification/GatewayServer.v ===== *)
(** * The gateway server

    [gateway/src/index.ts]: the configuration, the admission of a connection, the
    creation of its session, the messages of a client and the end of the
    connection, over the connection limiter, the session manager, the nonces, the
    handlers and the live table.

    The server runs one event at a time ([step]).  The creation of a session is
    two events, for it awaits the registration of the player: [E_connect] and
    [E_created].  Between the two the server listens to neither messages nor the
    close of the socket.  A message is handled in one event, with what the backend
    answers as input.  A session of the live table is the session object of the
    manager: [synced] and [returned] say so of the two places the model keeps
    it in.  What the table submits by itself (rounds, settlements, the bets of its
    bots) stays in [LiveTable]; the nonces it takes for that are not followed
    here. *)

From Stdlib Require Import QArith.QArith QArith.Qround.
From stdpp Require Import pretty.
From S2P Require Import Prelude JsNum Bytes Calendar AuthUtils Json JsValues Constants Schemas LiveTable Limiter BinaryReader Events ProtocolEncode Transactions Instructions Nonce Updates Sessions Handlers GatewayMessages.

#[local] Open Scope Z_scope.

(** ** The configuration *)

Definition Env : Type := string -> option string.

Section Configuration.
Context (env : Env).

Definition NODE_ENV : string := default "development" (env "NODE_ENV").
Definition IS_PROD : bool := bool_decide (NODE_ENV = "production").

(** The defaults of the options are [false]. *)
Definition readStringEnv (key fallback : string) (requiredInProd : bool) : result string :=
  let raw := trim (default "" (env key)) in
  if nonempty raw then Ok raw
  else if requiredInProd && IS_PROD then Throw ("Missing required env: " +:+ key)
  else Ok fallback.

Definition parsePositiveInt (key : string) (fallback : Z) (allowZero requiredInProd : bool) : result Z :=
  let raw := default "" (env key) in
  if negb (nonempty raw) then
    if requiredInProd && IS_PROD then Throw ("Missing required env: " +:+ key) else Ok fallback
  else
    match textNumber raw with
    | Fin q =>
        if (if allowZero then Qle_bool 0 q else negb (Qle_bool q 0)) then Ok (Qfloor q)
        else if IS_PROD then Throw ("Invalid " +:+ key +:+ ": " +:+ raw) else Ok fallback
    | _ => if IS_PROD then Throw ("Invalid " +:+ key +:+ ": " +:+ raw) else Ok fallback
    end.

Definition GATEWAY_ALLOW_NO_ORIGIN : bool :=
  bool_decide (Calendar.to_lower (default "" (env "GATEWAY_ALLOW_NO_ORIGIN")) ∈ ["1"; "true"; "yes"]).
Definition GATEWAY_ALLOWED_ORIGINS : list string :=
  List.filter nonempty (trim <$> split (Text.char 44) (default "" (env "GATEWAY_ALLOWED_ORIGINS"))).

Record GatewayConfig := {
  PORT : Z; BACKEND_URL : string; GATEWAY_ORIGIN : string; GATEWAY_DATA_DIR : string;
  MAX_CONNECTIONS_PER_IP : Z; MAX_TOTAL_SESSIONS : Z; BALANCE_REFRESH_MS : Z; SUBMIT_TIMEOUT_MS : Z;
  HEALTH_TIMEOUT_MS : Z; ACCOUNT_TIMEOUT_MS : Z; SUBMIT_MAX_BYTES : Z; NONCE_PERSIST_INTERVAL_MS : Z;
  allowNoOrigin : bool; allowedOrigins : list string
}.

Definition validateProductionEnv : result unit :=
  if negb IS_PROD then Ok tt
  else
    _ ← parsePositiveInt "GATEWAY_SESSION_RATE_LIMIT_POINTS" 10 false true;
    _ ← parsePositiveInt "GATEWAY_SESSION_RATE_LIMIT_WINDOW_MS" 3600000 false true;
    _ ← parsePositiveInt "GATEWAY_SESSION_RATE_LIMIT_BLOCK_MS" 3600000 false true;
    _ ← parsePositiveInt "GATEWAY_EVENT_TIMEOUT_MS" 30000 true true;
    if bool_decide (GATEWAY_ALLOWED_ORIGINS = []) then Throw "GATEWAY_ALLOWED_ORIGINS must be set in production" else Ok tt.

Definition readConfig : result GatewayConfig :=
  port ← parsePositiveInt "GATEWAY_PORT" 9010 false true;
  backend ← readStringEnv "BACKEND_URL" "http://localhost:8080" true;
  origin ← readStringEnv "GATEWAY_ORIGIN" ("http://localhost:" +:+ pretty port) true;
  dir ← readStringEnv "GATEWAY_DATA_DIR" ".gateway-data" true;
  perIp ← parsePositiveInt "MAX_CONNECTIONS_PER_IP" 5 false true;
  total ← parsePositiveInt "MAX_TOTAL_SESSIONS" 1000 false true;
  refresh ← parsePositiveInt "BALANCE_REFRESH_MS" 60000 false false;
  submit ← parsePositiveInt "GATEWAY_SUBMIT_TIMEOUT_MS" 10000 false false;
  health ← parsePositiveInt "GATEWAY_HEALTHCHECK_TIMEOUT_MS" 5000 false false;
  account ← parsePositiveInt "GATEWAY_ACCOUNT_TIMEOUT_MS" 5000 false false;
  maxBytes ← parsePositiveInt "GATEWAY_SUBMIT_MAX_BYTES" (8 * 1024 * 1024) false false;
  persist ← parsePositiveInt "GATEWAY_NONCE_PERSIST_INTERVAL_MS" 15000 true false;
  _ ← validateProductionEnv;
  Ok {| PORT := port; BACKEND_URL := backend; GATEWAY_ORIGIN := origin; GATEWAY_DATA_DIR := dir;
        MAX_CONNECTIONS_PER_IP := perIp; MAX_TOTAL_SESSIONS := total; BALANCE_REFRESH_MS := refresh;
        SUBMIT_TIMEOUT_MS := submit; HEALTH_TIMEOUT_MS := health; ACCOUNT_TIMEOUT_MS := account;
        SUBMIT_MAX_BYTES := maxBytes; NONCE_PERSIST_INTERVAL_MS := persist;
        allowNoOrigin := GATEWAY_ALLOW_NO_ORIGIN; allowedOrigins := GATEWAY_ALLOWED_ORIGINS |}.
End Configuration.

Definition DEFAULT_FAUCET_AMOUNT : Z := 1000.
Definition FAUCET_COOLDOWN_MS : Z := 60000.

(** ** The state *)

(** A connection that has a session, or is getting one: whether its socket is
    open, and whether its listeners are in place. *)
Record Conn := { cn_ip : string; cn_id : string; cn_open : bool; cn_ready : bool }.

Record Server := {
  sv_limiter : ConnectionLimiter;
  sv_manager : SessionManager;
  sv_nonces : NonceManager;
  sv_table : Table;
  sv_conns : gmap string Conn
}.

Definition server_init : Server :=
  {| sv_limiter := limiter_init; sv_manager := manager_init; sv_nonces := nonce_init; sv_table := table_init; sv_conns := ∅ |}.

Definition with_limiter (l : ConnectionLimiter) (sv : Server) : Server :=
  {| sv_limiter := l; sv_manager := sv_manager sv; sv_nonces := sv_nonces sv; sv_table := sv_table sv; sv_conns := sv_conns sv |}.
Definition with_manager (sm : SessionManager) (sv : Server) : Server :=
  {| sv_limiter := sv_limiter sv; sv_manager := sm; sv_nonces := sv_nonces sv; sv_table := sv_table sv; sv_conns := sv_conns sv |}.
Definition with_nonces (m : NonceManager) (sv : Server) : Server :=
  {| sv_limiter := sv_limiter sv; sv_manager := sv_manager sv; sv_nonces := m; sv_table := sv_table sv; sv_conns := sv_conns sv |}.
Definition with_table (t : Table) (sv : Server) : Server :=
  {| sv_limiter := sv_limiter sv; sv_manager := sv_manager sv; sv_nonces := sv_nonces sv; sv_table := t; sv_conns := sv_conns sv |}.
Definition with_conns (m : gmap string Conn) (sv : Server) : Server :=
  {| sv_limiter := sv_limiter sv; sv_manager := sv_manager sv; sv_nonces := sv_nonces sv; sv_table := sv_table sv; sv_conns := m |}.

(** What leaves the server. *)
Inductive Out :=
| Send (ws : string) (message : Fields)
| Close (ws : string) (code : option Z) (reason : string)
| Submit (body : Uint8Array)
| Track (name : string) (props : Fields).

Definition is_open (sv : Server) (ws : string) : bool :=
  match sv_conns sv !! ws with Some cn => cn_open cn | None => false end.

Definition send (sv : Server) (ws : string) (message : Fields) : list Out :=
  if is_open sv ws then [Send ws message] else [].

Definition sendError (sv : Server) (ws : string) (code : ErrorCode) (message : string) : list Out :=
  send sv ws (errorFields (codeName code) message).

Section Server.
Context `{Crypto} `{Zod}.

Record Setup := {
  su_config : GatewayConfig;
  su_sessions : SessionCreateLimit;
  su_table : LiveTable.Config;
  su_tableEnabled : bool;
  su_hasOps : bool
}.

Context (su : Setup).

Definition limits : ConnectionLimiterConfig :=
  {| maxConnectionsPerIp := MAX_CONNECTIONS_PER_IP (su_config su); maxTotalSessions := MAX_TOTAL_SESSIONS (su_config su) |}.

(** [new SubmitClient]: a limit that is not positive is none. *)
Definition maxBytes : option Z := let n := SUBMIT_MAX_BYTES (su_config su) in if 0 <? n then Some n else None.

Definition track (event : option (string * Fields)) : list Out :=
  match event with Some (name, props) => if su_hasOps su then [Track name props] else [] | None => [] end.

(** ** Connections *)

(** The reason to refuse an origin. *)
Definition originCheck (header : option string) : option string :=
  let origin := match header with Some o => if bool_decide (o = "null") then None else Some o | None => None end in
  let allowed := allowedOrigins (su_config su) in
  if bool_decide (allowed = []) then None
  else
    match origin with
    | Some o => if bool_decide (o = "") then (if allowNoOrigin (su_config su) then None else Some "Origin required")
                else if bool_decide (o ∈ allowed) then None else Some "Origin not allowed"
    | None => if allowNoOrigin (su_config su) then None else Some "Origin required"
    end.

Definition limitName (code : LimitCode) : string :=
  match code with SESSION_CAP_REACHED => "SESSION_CAP_REACHED" | IP_LIMIT_EXCEEDED => "IP_LIMIT_EXCEEDED" end.

Definition limitReason (code : LimitCode) : string :=
  match code with
  | SESSION_CAP_REACHED => "Server at capacity (" +:+ pretty (maxTotalSessions limits) +:+ " sessions)"
  | IP_LIMIT_EXCEEDED => "Too many connections from this IP (max " +:+ pretty (maxConnectionsPerIp limits) +:+ ")"
  end.

(** A connection, up to the registration of its player. *)
Definition connect (now : Z) (ws ip : string) (origin : option string) (connectionId uuid : string)
    (draws : list (list Uint8Array)) (sv : Server) : Server * list Out :=
  match originCheck origin with
  | Some reason =>
      (sv, [Send ws (errorFields (codeName INVALID_MESSAGE) reason); Close ws (Some 1008) reason])
  | None =>
      match canConnect limits (sv_limiter sv) ip with
      | Some code =>
          (sv, [Send ws (errorFields (limitName code) (limitReason code)); Close ws (Some 1013) (limitReason code)])
      | None =>
          let l := registerConnection (sv_limiter sv) ip connectionId in
          match createSession (su_sessions su) now (sv_manager sv) ws uuid None ip draws with
          | (sm, Throw _) =>
              (with_manager sm (with_limiter (unregisterConnection l ip connectionId) sv),
               [Send ws (errorFields (codeName BACKEND_UNAVAILABLE) "Failed to create session"); Close ws None ""])
          | (sm, Ok _) =>
              (with_conns (<[ws := {| cn_ip := ip; cn_id := connectionId; cn_open := true; cn_ready := false |}]> (sv_conns sv))
                 (with_manager sm (with_limiter l sv)), [])
          end
      end
  end.

Definition set_conn (ws : string) (f : Conn -> Conn) (sv : Server) : Server := with_conns (alter f ws (sv_conns sv)) sv.

Definition now_ready (cn : Conn) : Conn := {| cn_ip := cn_ip cn; cn_id := cn_id cn; cn_open := cn_open cn; cn_ready := true |}.
Definition now_closed (cn : Conn) : Conn := {| cn_ip := cn_ip cn; cn_id := cn_id cn; cn_open := false; cn_ready := cn_ready cn |}.

(** The registration has ended: the session is announced and the listeners are
    put in place. *)
Definition created (ws : string) (connected : bool) (an : Answers) (sv : Server) : Server * list Out :=
  match sv_conns sv !! ws, getSession (sv_manager sv) ws with
  | Some cn, Some s =>
      if cn_ready cn then (sv, [])
      else
        let '(m, s', sent) := initializePlayer maxBytes (sv_nonces sv) s connected an in
        let sv := with_nonces m (with_manager (updateSession (sv_manager sv) ws (fun _ => s')) sv) in
        let sv := set_conn ws now_ready sv in
        (sv, (Submit <$> sent) ++ send sv ws (readyFields s') ++ track (Some ("casino.session.started", [("source", text "gateway")])))
  | _, _ => (sv, [])
  end.

(** The socket closes: the listener frees what the connection holds, when it is
    in place. *)
Definition closes (ws : string) (sv : Server) : Server * list Out :=
  match sv_conns sv !! ws with
  | Some cn =>
      if negb (cn_open cn) then (sv, [])
      else if cn_ready cn then
        let t := match getSession (sv_manager sv) ws with
                 | Some s => with_subs (sv_table sv) (removeSession (t_subs (sv_table sv))
                               {| s_id := id_id (se_identity s); s_publicKeyHex := publicKeyHex s; s_registered := registered s;
                                  s_balance := Sessions.balance s; s_open := false |})
                 | None => sv_table sv
                 end in
        (with_conns (delete ws (sv_conns sv)) (with_table t (with_manager (destroySession (sv_manager sv) ws)
           (with_limiter (unregisterConnection (sv_limiter sv) (cn_ip cn) (cn_id cn)) sv))), [])
      else (set_conn ws now_closed sv, [])
  | None => (sv, [])
  end.

(** The timer of [startBalanceRefresh]. *)
Definition refreshes (ws : string) (account : option Z) (sv : Server) : Server :=
  match sv_conns sv !! ws with
  | Some cn =>
      if cn_ready cn && (0 <? BALANCE_REFRESH_MS (su_config su))
      then with_manager (updateSession (sv_manager sv) ws (fun s => refreshBalance s account)) sv else sv
  | None => sv
  end.

(** ** The live table's view of the sessions *)

Definition seat (sv : Server) (ws : string) (s : Sessions.Session) : LiveTable.Session :=
  {| s_id := id_id (se_identity s); s_publicKeyHex := publicKeyHex s; s_registered := registered s;
     s_balance := Sessions.balance s; s_open := is_open sv ws |}.

Definition seatOf (sv : Server) (x : LiveTable.Session) : LiveTable.Session :=
  match sm_byPublicKey (sv_manager sv) !! s_publicKeyHex x with
  | Some ws => match getSession (sv_manager sv) ws with Some s => seat sv ws s | None => x end
  | None => x
  end.

Definition synced (sv : Server) : Table :=
  with_subs (sv_table sv)
    {| sessions := seatOf sv <$> sessions (t_subs (sv_table sv)); sessionsByKey := sessionsByKey (t_subs (sv_table sv)) |}.

Definition returnBalance (t : Table) (s : Sessions.Session) : Sessions.Session :=
  match sessions (t_subs t) !! id_id (se_identity s) with
  | Some x => set_balance s (s_balance x)
  | None => s
  end.

Definition returned (t : Table) (sm : SessionManager) : SessionManager :=
  {| sm_sessions := returnBalance t <$> sm_sessions sm; sm_byPublicKey := sm_byPublicKey sm; sm_attempts := sm_attempts sm |}.

Definition withTable (t : Table) (sv : Server) : Server := with_table t (with_manager (returned t (sv_manager sv)) sv).

(** The sockets of the session with an id. *)
Definition socketsOf (sm : SessionManager) (id : string) : list string :=
  fst <$> List.filter (fun p => bool_decide (id_id (se_identity p.2) = id)) (map_to_list (sm_sessions sm)).

Definition delivered (sv : Server) (out : list Sent) : list Out :=
  flat_map (fun m => (fun ws => Send ws (payloadFields m.2)) <$> socketsOf (sv_manager sv) m.1) out.

(** ** The requests of a client *)

(** What the outside gives to the handling of one message. *)
Record MessageInputs := {
  mi_now : Z;
  mi_account : option Z;
  mi_answers : Answers;
  mi_game : list Inputs;
  mi_started : bool;
  mi_players : option Z
}.

Definition getBalance (ws : string) (inp : MessageInputs) (sv : Server) : Server * list Out :=
  match getSession (sv_manager sv) ws with
  | Some s =>
      let s := refreshBalance s (mi_account inp) in
      (with_manager (updateSession (sv_manager sv) ws (fun _ => s)) sv, send sv ws (balanceFields s None))
  | None => (sv, sendError sv ws SESSION_EXPIRED "No active session")
  end.

Definition faucetAmount (msg : Json) : Z :=
  match optGet "amount" (Some msg) with
  | Some (JNumber q) => if 0 <? Qnum q then Qfloor q else DEFAULT_FAUCET_AMOUNT
  | _ => DEFAULT_FAUCET_AMOUNT
  end.

Definition faucetError (r : FaucetResult) : option string :=
  match r with
  | Faucet_ok => None
  | Faucet_cooling seconds => Some ("Faucet cooling down. Try again in " +:+ pretty seconds +:+ "s.")
  | Faucet_rejected => Some "Faucet claim rejected"
  end.

Definition faucetClaim (ws : string) (msg : Json) (inp : MessageInputs) (sv : Server) : Server * list Out :=
  match getSession (sv_manager sv) ws with
  | Some s =>
      let amount := faucetAmount msg in
      match requestFaucet maxBytes (mi_now inp) (sv_nonces sv) s amount FAUCET_COOLDOWN_MS (mi_answers inp) with
      | Throw e => (sv, sendError sv ws BACKEND_UNAVAILABLE e)
      | Ok (m, s, sent, r) =>
          match faucetError r with
          | Some error =>
              (with_nonces m (with_manager (updateSession (sv_manager sv) ws (fun _ => s)) sv),
               (Submit <$> sent) ++ sendError sv ws INVALID_MESSAGE error)
          | None =>
              let s := refreshBalance s (mi_account inp) in
              (with_nonces m (with_manager (updateSession (sv_manager sv) ws (fun _ => s)) sv),
               (Submit <$> sent) ++ send sv ws (balanceFields s (Some "FAUCET_CLAIMED"))
               ++ track (Some ("casino.faucet.claimed", [("source", text "gateway"); ("amount", num (to_number amount))])))
          end
      end
  | None => (sv, sendError sv ws SESSION_EXPIRED "No active session")
  end.

(** What the client gets of a handler's result. *)
Definition answer (sv : Server) (ws : string) (s : Sessions.Session) (r : result HandleResult) : list Out :=
  match r with
  | Throw e => sendError sv ws BACKEND_UNAVAILABLE e
  | Ok (inl (code, message)) => sendError sv ws code message
  | Ok (inr response) =>
      let fs := responseFields response in
      send sv ws fs ++
      match trackGatewayResponse (su_hasOps su) s fs with
      | Ok event => track event
      | Throw e => sendError sv ws BACKEND_UNAVAILABLE e
      end
  end.

Definition gatewayOf (sv : Server) (s : Sessions.Session) (inp : MessageInputs) : Gateway :=
  {| gw_maxBytes := maxBytes; gw_nonces := sv_nonces sv; gw_session := s; gw_sent := []; gw_inputs := mi_game inp |}.

Definition playGame (ws : string) (s : Sessions.Session) (rq : GameRequest) (inp : MessageInputs) (sv : Server) : Server * list Out :=
  let '(g, r) := Handlers.handleMessage rq (gatewayOf sv s inp) in
  let sv' := with_nonces (gw_nonces g) (with_manager (updateSession (sv_manager sv) ws (fun _ => gw_session g)) sv) in
  (sv', (Submit <$> gw_sent g) ++ answer sv' ws (gw_session g) r).

(** *** The live table *)

Definition liveJoin (ws : string) (s : Sessions.Session) (inp : MessageInputs) (sv : Server) : Server * list Out :=
  if negb (su_tableEnabled su) then (sv, sendError sv ws INVALID_MESSAGE "LIVE_TABLE_DISABLED")
  else if negb (mi_started inp) then
    let t := synced sv in
    (withTable (with_subs t (removeSession (addSession (t_subs t) (seat sv ws s)) (seat sv ws s))) sv,
     sendError sv ws INVALID_MESSAGE "LIVE_TABLE_UNAVAILABLE")
  else
    let '(t, out) := LiveTable.join (synced sv) (mi_now inp) (mi_players inp) (seat sv ws s) in
    let sv := withTable t sv in (sv, delivered sv out).

Definition liveLeave (ws : string) (s : Sessions.Session) (sv : Server) : Server * list Out :=
  (withTable (LiveTable.leave (synced sv) (seat sv ws s)) sv, []).

Definition liveBet (b : BetRequest) : LiveCrapsBetInput :=
  {| li_type := br_type b; li_amount := Qfloor (br_amount b); li_target := br_target b |}.

Definition liveError (e : LiveTableError) : ErrorCode * string :=
  match e with
  | Le_LIVE_TABLE_DISABLED => (INVALID_MESSAGE, "LIVE_TABLE_DISABLED")
  | Le_NOT_SUBSCRIBED => (INVALID_MESSAGE, "NOT_SUBSCRIBED")
  | Le_NOT_REGISTERED => (NOT_REGISTERED, "Player not registered")
  | Le_LIVE_TABLE_NOT_READY => (INVALID_MESSAGE, "LIVE_TABLE_NOT_READY")
  | Le_INVALID_BET message => (INVALID_BET, message)
  end.

(** The checks that come before the table is started. *)
Definition beforeStart (e : LiveTableError) : bool :=
  match e with Le_LIVE_TABLE_DISABLED | Le_NOT_SUBSCRIBED | Le_NOT_REGISTERED => true | _ => false end.

Definition livePlace (ws : string) (s : Sessions.Session) (bets : list BetRequest) (inp : MessageInputs) (sv : Server)
    : Server * list Out :=
  let refuse e := (sv, sendError sv ws (liveError e).1 (liveError e).2) in
  let unavailable := (sv, sendError sv ws INVALID_MESSAGE "LIVE_TABLE_UNAVAILABLE") in
  match placeBets (su_table su) (su_tableEnabled su) (synced sv) (seat sv ws s) (liveBet <$> bets) with
  | inl e => if beforeStart e then refuse e else if negb (mi_started inp) then unavailable else refuse e
  | inr i =>
      if negb (mi_started inp) then unavailable
      else
        match (instruction ← encodeInstruction i;
               submitWithRetry maxBytes (sv_nonces sv) (publicKeyHex s) (id_privateKey (se_identity s)) instruction (mi_answers inp)) with
        | Throw e => (sv, sendError sv ws BACKEND_UNAVAILABLE e)
        | Ok (m, sent, inr _) =>
            (with_nonces m sv, (Submit <$> sent) ++ sendError sv ws TRANSACTION_REJECTED "Bet submission rejected")
        | Ok (m, sent, inl _) =>
            let '(t, out) := placeBetsEnd (synced sv) (seat sv ws s) in
            let sv := withTable t (with_nonces m sv) in (sv, (Submit <$> sent) ++ delivered sv out)
        end
  end.

(** The handler of the request runs. *)
Definition serve (ws : string) (s : Sessions.Session) (rq : Request) (inp : MessageInputs) (sv : Server) : Server * list Out :=
  match rq with
  | Rq_game rq => playGame ws s rq inp sv
  | Rq_live_join => liveJoin ws s inp sv
  | Rq_live_leave => liveLeave ws s sv
  | Rq_live_bet bets => livePlace ws s bets inp sv
  end.

Definition is_type (name : string) (msgType : option Json) : bool := bool_decide (textOf msgType = Some name).

(** *** [handleMessage]

    The error that reading a property of [null] throws is caught by the
    listener.  A request whose data has not its type has no meaning; see
    [message_dispatched]. *)
Definition handleMessage (ws data : string) (inp : MessageInputs) (sv : Server) : Server * list Out :=
  match Text.JSON_parse data with
  | None => (sv, sendError sv ws INVALID_MESSAGE "Invalid JSON")
  | Some msg =>
      match get "type" (Some msg) with
      | Throw _ => (sv, sendError sv ws BACKEND_UNAVAILABLE "Cannot read properties of null (reading 'type')")
      | Ok msgType =>
          if negb (truthy msgType) then (sv, sendError sv ws INVALID_MESSAGE "Missing message type")
          else if is_type "ping" msgType then (sv, send sv ws (pongFields (mi_now inp)))
          else if is_type "get_balance" msgType then getBalance ws inp sv
          else if is_type "faucet_claim" msgType then faucetClaim ws msg inp sv
          else
            match safeParse OutboundMessageSchema msg with
            | None => (sv, sendError sv ws INVALID_MESSAGE "Invalid message payload")
            | Some data =>
                match getSession (sv_manager sv) ws with
                | None => (sv, sendError sv ws SESSION_EXPIRED "Session not found")
                | Some s =>
                    match (type ← tagOf "type" data; fs ← asFields data; dispatch type fs) with
                    | Some (inl (code, message)) => (sv, sendError sv ws code message)
                    | Some (inr rq) => serve ws s rq inp sv
                    | None => (sv, [])
                    end
                end
            end
      end
  end.

(** ** The server as a reactive system *)

Inductive Event :=
| E_connect (now : Z) (ws ip : string) (origin : option string) (connectionId uuid : string) (draws : list (list Uint8Array))
| E_created (ws : string) (connected : bool) (an : Answers)
| E_message (ws data : string) (inp : MessageInputs)
| E_close (ws : string)
| E_refresh (ws : string) (account : option Z)
| E_table (i : LiveTable.Input).

(** The inputs of the table that do not come from a client of this server. *)
Definition ofTable (i : LiveTable.Input) : bool :=
  match i with In_join _ _ _ | In_leave _ | In_place _ _ _ | In_placed _ => false | _ => true end.

Definition step (e : Event) (sv : Server) : Server * list Out :=
  match e with
  | E_connect now ws ip origin connectionId uuid draws => connect now ws ip origin connectionId uuid draws sv
  | E_created ws connected an => created ws connected an sv
  | E_message ws data inp =>
      match sv_conns sv !! ws with
      | Some cn => if cn_open cn && cn_ready cn then handleMessage ws data inp sv else (sv, [])
      | None => (sv, [])
      end
  | E_close ws => closes ws sv
  | E_refresh ws account => (refreshes ws account sv, [])
  | E_table i =>
      if ofTable i then
        let '(t, out, _) := table_step (su_table su) (synced sv) i in
        let sv := withTable t sv in (sv, delivered sv out)
      else (sv, [])
  end.

Fixpoint run (es : list Event) (sv : Server) : Server :=
  match es with
  | [] => sv
  | e :: es' => run es' (step e sv).1
  end.
End Server.
