(* ===== verification/GatewayServerCorrect.v ===== *)
(** * The gateway server keeps its promises

    A valid message is always a request for the handler of its game, with amounts
    and targets in range ([message_dispatched]).  In every state the server can
    reach, its connections, its sessions, the slots of the limiter and the seats
    of the live table agree ([server_consistent]), and a message of one client
    leaves the sessions of the others alone ([clients_isolated]).  A socket that
    closes while its player is being registered is never cleaned up
    ([early_close_leaks]). *)

From Stdlib Require Import QArith.QArith QArith.Qround.
From stdpp Require Import pretty.
From S2P Require Import Prelude JsNum Bytes Calendar AuthUtils Json JsValues Constants Schemas LiveTable LiveTableCorrect Limiter BinaryReader Events ProtocolEncode Transactions Instructions Nonce Updates Sessions SessionsCorrect Handlers HandlersCorrect GatewayMessages GatewayServer.

#[local] Open Scope Z_scope.

(** ** Valid data has the type of its schema *)

Section Valid.
Context {Zd : Zod} {Laws : ZodLaws Zd}.

(** What a field holds after its schema has parsed it. *)
Definition holds (fs : Fields) (kv : string * Schema) : Prop :=
  (exists v w, safeParse kv.2 v = Some w /\ field kv.1 fs = Some w) \/ (mayMiss kv.2 = true /\ field kv.1 fs = None).

Lemma field_cons k k' v fs :
  field k ((k', v) :: fs) = match field k fs with Some w => Some w | None => if bool_decide (k' = k) then Some v else None end.
Proof.
  unfold field. cbn [List.filter fst]. case_bool_decide; [|by destruct (snd <$> _)].
  set (l := List.filter _ fs). destruct l as [|x l0 _] eqn:E using rev_ind; [done|].
  rewrite app_comm_cons, !last_snoc. done.
Qed.

Lemma field_app k fs gs : field k (fs ++ gs) = match field k gs with Some w => Some w | None => field k fs end.
Proof.
  induction fs as [|[k' v] fs IH]; cbn [app]; [by destruct (field k gs)|]. rewrite !field_cons, IH. by destruct (field k gs).
Qed.

Lemma field_absent k fs : k ∉ fs.*1 -> field k fs = None.
Proof.
  induction fs as [|[k' v] fs IH]; [done|]. cbn. intros H. rewrite field_cons, IH by set_solver.
  rewrite bool_decide_eq_false_2; [done|]. set_solver.
Qed.

Lemma parseFields_keys {A} (parse : A -> Json -> option Json) opt fs sh ws :
  parseFields parse opt fs sh = Some ws -> forall k, k ∈ ws.*1 -> k ∈ sh.*1.
Proof.
  revert ws. induction sh as [|[k s] sh IH]; intros ws; cbn; [by intros [= <-]|].
  destruct (field k fs) as [v|].
  - destruct (parse s v) as [w|]; [|done]. cbn. destruct (parseFields parse opt fs sh) as [rest|]; [|done]. cbn.
    intros [= <-] k'. cbn. rewrite !elem_of_cons. intros [->|H]; [by left|right; by apply (IH rest)].
  - destruct (opt s); [|done]. intros H k' Hk. rewrite elem_of_cons. right. by apply (IH ws).
Qed.

Lemma field_other k k' v fs : k' <> k -> field k ((k', v) :: fs) = field k fs.
Proof. intros H. rewrite field_cons, bool_decide_eq_false_2 by done. by destruct (field k fs). Qed.

Lemma parseFields_at fs sh ws k s :
  NoDup sh.*1 -> parseFields safeParse mayMiss fs sh = Some ws -> (k, s) ∈ sh -> holds ws (k, s).
Proof.
  revert ws. induction sh as [|[k' s'] sh IH]; intros ws Hn Hp Hin; [by apply elem_of_nil in Hin|].
  cbn in Hn. apply NoDup_cons in Hn as [Hk Hn]. cbn in Hp. destruct (field k' fs) as [v|] eqn:Ef.
  - destruct (safeParse s' v) as [w|] eqn:Ew; [|done]. cbn in Hp.
    destruct (parseFields safeParse mayMiss fs sh) as [ws'|] eqn:Ep; [|done]. injection Hp as <-.
    apply elem_of_cons in Hin as [[= -> ->]|Hin].
    + left. exists v, w. split; [done|]. cbn [fst]. rewrite field_cons, field_absent, bool_decide_eq_true_2; [done..|].
      intros H. apply Hk. by eapply parseFields_keys.
    + assert (k' <> k) by (intros ->; apply Hk; apply list_elem_of_fmap; by exists (k, s)).
      unfold holds. cbn [fst snd]. rewrite field_other by done. by apply (IH ws').
  - destruct (mayMiss s') eqn:Em; [|done]. apply elem_of_cons in Hin as [[= -> ->]|Hin]; [|by apply IH].
    right. split; [done|]. cbn [fst]. apply field_absent. intros H. apply Hk. by eapply parseFields_keys.
Qed.

(** The data of an object schema that drops other fields. *)
Lemma object_holds s sh v w :
  shapeOf s = Some sh -> keepsOthers s = false -> NoDup sh.*1 -> safeParse s v = Some w ->
  exists fs, w = JObject fs /\ Forall (holds fs) sh.
Proof.
  intros Hs Hk Hn. rewrite (parse_object s sh) by done. rewrite Hk. destruct v; try done. cbn.
  destruct (parseFields _ _ _ _) as [ws|] eqn:E; [|done]. cbn. rewrite app_nil_r. intros [= <-]. exists ws. split; [done|].
  apply Forall_forall. intros [k t] Hin. by eapply parseFields_at.
Qed.

(** The option of a union that the data belongs to. *)
Lemma union_option key options v w :
  safeParse (z_discriminatedUnion key options) v = Some w ->
  exists t s, tagOf key v = Some t /\ s ∈ options /\ tagged key t s = true /\ safeParse s v = Some w.
Proof.
  rewrite parse_discriminated. destruct (tagOf key v) as [t|]; [|done]. cbn.
  destruct (head _) as [s|] eqn:E; [|done]. cbn. intros H. exists t, s.
  apply head_Some in E as [l E]. assert (Hin : s ∈ List.filter (tagged key t) options) by (rewrite E; apply list_elem_of_here).
  apply list_elem_of_In, filter_In in Hin as [Hin Ht]. by apply list_elem_of_In in Hin.
Qed.

(** *** Fields *)

Lemma number_field fs k cs : holds fs (k, z_number cs) ->
  exists q, required asNumber k fs = Some q /\ forallb (Schemas.passes q) cs = true.
Proof.
  intros [(v & w & H & E)|[H _]]; [|done]. cbn in *. rewrite parse_number in H. destruct v as [| |q| | |]; try done.
  destruct (forallb _ _) eqn:F; [|done]. injection H as <-. exists q. split; [|done]. unfold required. by rewrite E.
Qed.

Lemma optional_number fs k cs : holds fs (k, z_optional (z_number cs)) ->
  exists q, optional asNumber k fs = Some q /\ match q with Some q => forallb (Schemas.passes q) cs = true | None => True end.
Proof.
  intros [(v & w & H & E)|[_ E]]; cbn in *; [|exists None; unfold optional; by rewrite E].
  rewrite parse_optional, parse_number in H. destruct v as [| |q| | |]; try done.
  destruct (forallb _ _) eqn:F; [|done]. injection H as <-. exists (Some q). split; [|done]. unfold optional. by rewrite E.
Qed.

Lemma whole_passes q : Schemas.passes q C_int = true -> exists z, whole (Fin q) = Some z /\ (q == inject_Z z)%Q.
Proof.
  intros H. cbn in H. apply Qeq_bool_iff in H. exists (Qfloor q). split; [|done]. unfold whole.
  destruct q as [n d]. unfold Qeq, inject_Z, Qfloor in H. cbn in H. unfold Qfloor. cbn.
  assert (E : n mod (Z.pos d) = 0). { apply Z.mod_divide; [done|]. exists (n / Z.pos d). lia. }
  by rewrite E.
Qed.

(** A whole number within the bounds of the checks. *)
Definition within (z : Z) (c : Check) : Prop :=
  match c with C_min n => n <= z | C_max n => z <= n | _ => True end.

Lemma bounds_within q z cs : (q == inject_Z z)%Q -> forallb (Schemas.passes q) cs = true -> Forall (within z) cs.
Proof.
  intros E. induction cs as [|c cs IH]; [by constructor|]. cbn [forallb]. intros [H1 H2]%andb_true_iff.
  constructor; [|by apply IH]. destruct c; try done; cbn in H1 |- *; apply Qle_bool_iff in H1; rewrite E, <- Zle_Qle in H1; done.
Qed.

Lemma whole_parsed cs v w : safeParse (z_number (C_int :: cs)) v = Some w ->
  exists z, asWhole w = Some z /\ Forall (within z) cs.
Proof.
  rewrite parse_number. destruct v as [| |q| | |]; try done. cbn [forallb]. destruct (Schemas.passes q C_int) eqn:E; [|done].
  destruct (forallb _ cs) eqn:F; [|done]. intros [= <-]. destruct (whole_passes q E) as (z & Hz & Eq). exists z.
  split; [exact Hz|]. by eapply bounds_within.
Qed.

Lemma whole_field fs k cs : holds fs (k, z_number (C_int :: cs)) ->
  exists z, required asWhole k fs = Some z /\ Forall (within z) cs.
Proof.
  intros [(v & w & H & E)|[H _]]; [|done]. cbn [fst snd] in *. destruct (whole_parsed cs v w H) as (z & Hz & F).
  exists z. unfold required. by rewrite E.
Qed.

Lemma optional_whole fs k cs : holds fs (k, z_optional (z_number (C_int :: cs))) ->
  exists z, optional asWhole k fs = Some z /\ match z with Some z => Forall (within z) cs | None => True end.
Proof.
  intros [(v & w & H & E)|[_ E]]; cbn [fst snd] in *; [|exists None; unfold optional; by rewrite E].
  rewrite parse_optional in H. destruct (whole_parsed cs v w H) as (z & Hz & F). exists (Some z).
  split; [|done]. unfold optional. rewrite E. cbn. by rewrite Hz.
Qed.

(** A name of a list, or a code within bounds. *)
Definition named (names : list string) (cs : list Check) (type : string + Z) : Prop :=
  match type with inl s => s ∈ names | inr code => Forall (within code) cs end.

Lemma enum_parsed names v w : safeParse (z_enum names) v = Some w -> exists s, w = JString s /\ s ∈ names.
Proof.
  rewrite parse_enum. destruct v as [| | |s| |]; try done. case_bool_decide; [|done]. intros [= <-]. by exists s.
Qed.

Lemma type_field fs k names cs : holds fs (k, z_union [z_enum names; z_number (C_int :: cs)]) ->
  exists ty, required asType k fs = Some ty /\ named names cs ty.
Proof.
  intros [(v & w & H & E)|[H _]]; [|done]. cbn [fst snd] in *. rewrite parse_union in H. unfold firstParse in H.
  cbn [omap list_omap] in H. unfold required. rewrite E. cbn [mbind option_bind].
  destruct (safeParse (z_enum names) v) as [w'|] eqn:E1.
  - injection H as <-. destruct (enum_parsed _ _ _ E1) as (s & -> & Hs). by exists (inl s).
  - destruct (safeParse (z_number _) v) as [w'|] eqn:E2; [|done]. injection H as <-.
    destruct (whole_parsed _ _ _ E2) as (z & Hz & F). exists (inr z). split; [|done].
    destruct w'; try done; cbn in Hz |- *; by rewrite Hz.
Qed.

Lemma enum_field fs k names : holds fs (k, z_enum names) ->
  exists s, field k fs = Some (JString s) /\ s ∈ names.
Proof.
  intros [(v & w & H & E)|[H _]]; [|done]. cbn [fst snd] in *. destruct (enum_parsed _ _ _ H) as (s & -> & Hs). by exists s.
Qed.

Lemma literal_field fs k t : holds fs (k, z_literal t) -> field k fs = Some (JString t).
Proof.
  intros [(v & w & H & E)|[H _]]; [|done]. cbn [fst snd] in *. rewrite parse_literal in H. destruct v; try done.
  case_bool_decide; [|done]. subst. by injection H as <-.
Qed.

Lemma items_field {A} (read : Json -> option A) (P : A -> Prop) fs k s cs :
  (forall v w, safeParse s v = Some w -> exists b, read w = Some b /\ P b) ->
  holds fs (k, z_array s cs) ->
  exists bs, itemsOf read k fs = Some bs /\ Forall P bs /\ forallb (passesLength (len bs)) cs = true.
Proof.
  intros Hr [(v & w & H & E)|[H _]]; [|done]. cbn [fst snd] in *. rewrite parse_array in H.
  destruct v as [| | | |l|]; try done. destruct (forallb _ cs) eqn:F; [|done].
  destruct (mapM (safeParse s) l) as [ws|] eqn:M; [|done]. injection H as <-.
  assert (Hws : exists bs, mapM read ws = Some bs /\ Forall P bs /\ length bs = length l).
  { clear E F. revert ws M. induction l as [|v l IH]; intros ws; cbn; [intros [= <-]; by exists []|].
    destruct (safeParse s v) as [w|] eqn:Ew; [|done]. cbn. destruct (mapM (safeParse s) l) as [ws'|]; [|done]. cbn.
    intros [= <-]. destruct (IH ws' eq_refl) as (bs & Hb & HP & Hl). destruct (Hr v w Ew) as (b & Hb1 & Hp1).
    exists (b :: bs). cbn. rewrite Hb1. cbn. rewrite Hb. cbn. split_and!; [done|by constructor|by f_equal]. }
  destruct Hws as (bs & Hb & HP & Hl). exists bs. unfold itemsOf. rewrite E. cbn. rewrite Hb.
  split_and!; [done|done|]. unfold len in *. by rewrite Hl.
Qed.
End Valid.

(** ** Requests in range *)

(** A type that the encoder of the game knows, as the handler passes it on; a
    game without codes has none up to -1. *)
Definition knows {A} (of_string : string -> option A) (maxCode : option Z) (type : string + Z) : Prop :=
  match type with
  | inl s => is_Some (of_string s) /\ to_upper s = s
  | inr code => 0 <= code /\ match maxCode with Some m => code <= m | None => True end
  end.

Definition upTo (m : Z) (z : option Z) : Prop := match z with Some z => 0 <= z <= m | None => True end.

Record betOk {A} (of_string : string -> option A) (maxCode : option Z) (maxTarget : Z) (b : BetRequest) : Prop := {
  bet_known : knows of_string maxCode (br_type b);
  bet_positive : 0 < Qnum (br_amount b);
  bet_places : Forall (upTo maxTarget) [br_target b; br_number b; br_value b]
}.

Definition betsOk {A} (of_string : string -> option A) (maxCode : option Z) (maxTarget : Z) (bs : list BetRequest) : Prop :=
  bs <> [] /\ Forall (betOk of_string maxCode maxTarget) bs.

Definition more (q : Q) : Prop := 0 < Qnum q.
Definition notLess (q : option Q) : Prop := match q with Some q => 0 <= Qnum q | None => True end.

(** What a valid request promises its handler. *)
Definition inRange (rq : Request) : Prop :=
  match rq with
  | Rq_live_join | Rq_live_leave => True
  | Rq_live_bet bs => betsOk CrapsBetName_of_string (Some 255) 12 bs
  | Rq_game rq =>
      match rq with
      | Rq_blackjack_deal amount a b => more amount /\ Forall notLess [a; b]
      | Rq_baccarat_deal bs => betsOk BaccaratBetName_of_string (Some (-1)) 0 bs
      | Rq_craps_bets bs => betsOk CrapsBetName_of_string None 12 bs
      | Rq_roulette_spin bs => betsOk RouletteBetName_of_string (Some 255) 37 bs
      | Rq_sicbo_roll bs => betsOk SicBoBetName_of_string (Some 255) 255 bs
      | Rq_hilo_deal amount | Rq_videopoker_deal amount => more amount
      | Rq_hilo_bet amount choice => more amount /\ choice ∈ [Hl_higher; Hl_lower]
      | Rq_casinowar_deal amount tie => more amount /\ notLess tie
      | Rq_videopoker_hold holds => length holds = 5%nat
      | Rq_threecard_deal ante a b c d => more ante /\ Forall notLess [a; b; c; d]
      | Rq_ultimate_deal ante blind a b c d => more ante /\ more blind /\ Forall notLess [a; b; c; d]
      | Rq_ultimate_bet multiplier => 1 <= multiplier <= 4
      | _ => True
      end
  end.

Definition gameOf (rq : Request) : GameType :=
  match rq with
  | Rq_live_join | Rq_live_leave | Rq_live_bet _ => Game_Craps
  | Rq_game rq =>
      match rq with
      | Rq_blackjack_deal _ _ _ | Rq_blackjack_hit | Rq_blackjack_stand | Rq_blackjack_double | Rq_blackjack_split => Game_Blackjack
      | Rq_baccarat_deal _ => Game_Baccarat
      | Rq_craps_bets _ => Game_Craps
      | Rq_roulette_spin _ => Game_Roulette
      | Rq_sicbo_roll _ => Game_SicBo
      | Rq_hilo_deal _ | Rq_hilo_bet _ _ | Rq_hilo_action _ => Game_HiLo
      | Rq_casinowar_deal _ _ | Rq_casinowar_action _ => Game_CasinoWar
      | Rq_videopoker_deal _ | Rq_videopoker_hold _ => Game_VideoPoker
      | Rq_threecard_deal _ _ _ _ _ | Rq_threecard_play | Rq_threecard_fold => Game_ThreeCard
      | Rq_ultimate_deal _ _ _ _ _ _ | Rq_ultimate_bet _ | Rq_ultimate_check | Rq_ultimate_fold => Game_UltimateHoldem
      end
  end.

(** ** Every valid message is a request *)

Section Dispatch.
Context {Zd : Zod} {Laws : ZodLaws Zd}.

Lemma names_known {A} (name : A -> string) (of_string : string -> option A) (l : list A) s :
  Forall (fun b => is_Some (of_string (name b)) /\ to_upper (name b) = name b) l ->
  s ∈ name <$> l -> is_Some (of_string s) /\ to_upper s = s.
Proof. intros H (b & -> & Hb)%list_elem_of_fmap. rewrite Forall_forall in H. by apply H. Qed.

Lemma named_knows {A} (name : A -> string) (of_string : string -> option A) (l : list A) cs m ty :
  Forall (fun b => is_Some (of_string (name b)) /\ to_upper (name b) = name b) l ->
  named (name <$> l) (C_min 0 :: cs) ty ->
  (forall code, Forall (within code) cs -> match m with Some m => code <= m | None => True end) -> knows of_string m ty.
Proof.
  intros Hl Hn Hm. destruct ty as [s|code]; cbn in *; [by eapply names_known|].
  apply Forall_cons in Hn as [H0 Hn]. split; [exact H0|by apply Hm].
Qed.

Lemma upTo_within m z : match z with Some z => Forall (within z) [C_min 0; C_max m] | None => True end -> upTo m z.
Proof. destruct z; [|done]. intros H. repeat (apply Forall_cons in H as [? H]). cbn in *. lia. Qed.

Ltac known_names := repeat constructor; vm_compute; by eauto.
Ltac distinct := refine (bool_decide_unpack _ _); vm_compute; exact I.

Ltac fields H :=
  eapply object_holds in H; [destruct H as (fs & -> & H)|reflexivity|reflexivity|distinct];
  match type of H with
  | Forall _ (_ :: _) => idtac
  | Forall _ ?l => let l' := eval vm_compute in l in change l with l' in H
  end;
  repeat match type of H with Forall _ (_ :: _) => let F := fresh "F" in apply Forall_cons in H as [F H] end; clear H.

(** The facts of every field of a shape that was parsed. *)
Ltac facts :=
  repeat match goal with
  | F : holds _ (_, z_literal _) |- _ => apply literal_field in F
  | F : holds _ (_, z_number (C_int :: _)) |- _ =>
      let z := fresh "z" in let R := fresh "R" in apply whole_field in F as (z & R & F)
  | F : holds _ (_, z_optional (z_number (C_int :: _))) |- _ =>
      let z := fresh "z" in let R := fresh "R" in apply optional_whole in F as (z & R & F)
  | F : holds _ (_, z_number _) |- _ =>
      let q := fresh "q" in let R := fresh "R" in apply number_field in F as (q & R & F)
  | F : holds _ (_, z_optional (z_number _)) |- _ =>
      let q := fresh "q" in let R := fresh "R" in apply optional_number in F as (q & R & F)
  | F : holds _ (_, z_union [_; z_number (C_int :: _)]) |- _ =>
      let ty := fresh "ty" in let R := fresh "R" in apply type_field in F as (ty & R & F)
  end.

(** The readers of a request find what the facts say. *)
Ltac reading :=
  repeat (cbn [mbind option_bind asFields];
          match goal with R : ?read ?k ?fs = Some _ |- context [?read ?k ?fs] => rewrite R end);
  cbn [mbind option_bind fmap option_fmap option_map].

Lemma positive_field q : forallb (Schemas.passes q) [C_positive] = true -> 0 < Qnum q.
Proof. cbn. rewrite andb_true_r. apply Z.ltb_lt. Qed.

Lemma nonnegative_field q : match q with Some q => forallb (Schemas.passes q) [C_nonnegative] = true | None => True end -> notLess q.
Proof. destruct q; [|done]. cbn. rewrite andb_true_r. apply Z.leb_le. Qed.

Ltac known_type ty :=
  match goal with F : named _ _ ty |- _ =>
    eapply named_knows; [|exact F|]; [known_names|];
    let code := fresh "code" in let G := fresh "G" in
    intros code G; first [exact I | apply Forall_cons in G as [G _]; exact G]
  end.

Lemma rouletteBet_valid v w : safeParse RouletteBetSchema v = Some w ->
  exists b, tableBet w = Some b /\ betOk RouletteBetName_of_string (Some 255) 37 b.
Proof.
  intros H. fields H. facts. unfold tableBet. reading. eexists. split; [reflexivity|]. split; cbn; [known_type ty|by apply positive_field|].
  repeat constructor; by apply upTo_within.
Qed.

Lemma sicboBet_valid v w : safeParse SicBoBetSchema v = Some w ->
  exists b, tableBet w = Some b /\ betOk SicBoBetName_of_string (Some 255) 255 b.
Proof.
  intros H. fields H. facts. unfold tableBet. reading. eexists. split; [reflexivity|]. split; cbn; [known_type ty|by apply positive_field|].
  repeat constructor; by apply upTo_within.
Qed.

Lemma crapsBet_valid v w : safeParse CrapsBetSchema v = Some w ->
  exists b, crapsBet w = Some b /\ betOk CrapsBetName_of_string (Some 255) 12 b.
Proof.
  intros H. fields H. facts. unfold crapsBet. reading. eexists. split; [reflexivity|]. split; cbn; [known_type ty|by apply positive_field|].
  repeat constructor; by apply upTo_within.
Qed.

Lemma baccaratBet_valid v w : safeParse BaccaratBetSchema v = Some w ->
  exists b, baccaratBet w = Some b /\ betOk BaccaratBetName_of_string (Some (-1)) 0 b.
Proof.
  intros H. fields H. facts. apply enum_field in F as (s & Es & Hs). unfold baccaratBet.
  assert (R0 : required asType "type" fs = Some (inl s)) by (unfold required; by rewrite Es). reading.
  eexists. split; [reflexivity|]. split; cbn; [|by apply positive_field|by repeat constructor].
  eapply (names_known BaccaratBetName_name _ [Bac_PLAYER; Bac_BANKER; Bac_TIE; Bac_P_PAIR; Bac_B_PAIR; Bac_LUCKY6; Bac_P_DRAGON;
    Bac_B_DRAGON; Bac_PANDA8; Bac_PERFECT_PAIR]); [known_names|exact Hs].
Qed.

Lemma betOk_loose {A} (of_string : string -> option A) m t b : betOk of_string (Some m) t b -> betOk of_string None t b.
Proof. intros [H1 H2 H3]. split; try done. destruct (br_type b); [done|]. by destruct H1. Qed.

(** What a valid message is. *)
Definition understood (w : Json) : Prop :=
  exists type fs, w = JObject fs /\ field "type" fs = Some (JString type) /\
    (type = "faucet_claim" \/
     exists rq, dispatch type fs = Some (inr rq) /\ getOutboundMessageGameType type = Some (gameOf rq) /\ inRange rq).

Definition valid (s : Schema) : Prop := forall v w, safeParse s v = Some w -> understood w.

Lemma handlerOf_all gt : handlerOf gt = Some
  match gt with
  | Game_Baccarat => baccaratHandle | Game_Blackjack => blackjackHandle | Game_CasinoWar => casinowarHandle
  | Game_Craps => crapsHandle | Game_VideoPoker => videopokerHandle | Game_HiLo => hiloHandle
  | Game_Roulette => rouletteHandle | Game_SicBo => sicboHandle | Game_ThreeCard => threecardHandle
  | Game_UltimateHoldem => ultimateHandle
  end.
Proof. by destruct gt. Qed.

Ltac pick :=
  repeat (match goal with |- context [among ?t ?l] => let b := eval vm_compute in (among t l) in change (among t l) with b end;
          cbv beta iota);
  try match goal with |- context [if bool_decide (?a = ?b) then ?x else ?y] =>
    let r := eval vm_compute in (bool_decide (a = b)) in change (if bool_decide (a = b) then x else y) with (if r then x else y) end;
  cbv beta iota.

Ltac handled :=
  match goal with |- context [dispatch ?t ?fs] =>
    let G := eval vm_compute in (getOutboundMessageGameType t) in
    unfold dispatch; change (getOutboundMessageGameType t) with G; cbv beta iota;
    rewrite handlerOf_all; cbv beta iota
  end;
  unfold blackjackHandle, baccaratHandle, rouletteHandle, sicboHandle, crapsHandle, hiloHandle, casinowarHandle,
    videopokerHandle, threecardHandle, ultimateHandle; pick.

(** A request whose fields are numbers. *)
Ltac valid_request :=
  let v := fresh "v" in let w := fresh "w" in let H := fresh "H" in
  intros v w H; fields H; facts;
  do 2 eexists; split; [reflexivity|split; [eassumption|]];
  right; eexists; split; [handled; reading; reflexivity|];
  split; [reflexivity|cbn; rewrite ?Forall_cons; split_and?; try done;
    first [by apply positive_field | by apply nonnegative_field | idtac]].

Ltac valid_batch reader ok :=
  let v := fresh "v" in let w := fresh "w" in let H := fresh "H" in
  let bs := fresh "bs" in let R := fresh "R" in let B := fresh "B" in let N := fresh "N" in
  intros v w H; fields H; facts;
  match goal with F : holds _ (_, z_array _ _) |- _ => apply (items_field reader _ _ _ _ _ ok) in F as (bs & R & B & N) end;
  do 2 eexists; split; [reflexivity|split; [eassumption|]];
  right; eexists; split; [handled; reading; reflexivity|];
  split; [reflexivity|].

Lemma batch_nonempty {A} (bs : list A) : forallb (passesLength (len bs)) [C_min 1] = true -> bs <> [].
Proof. intros H ->. done. Qed.

Lemma batch_length {A} (bs : list A) : forallb (passesLength (len bs)) [C_length 5] = true -> length bs = 5%nat.
Proof. cbn. rewrite andb_true_r. intros H%Z.eqb_eq. unfold len in H. lia. Qed.

Lemma bool_valid v w : safeParse z_boolean v = Some w -> exists b, asBool w = Some b /\ True.
Proof. rewrite parse_boolean. destruct v as [|b| | | |]; try done. intros [= <-]. by exists b. Qed.

Lemma rouletteSpin_valid : valid RouletteSpinRequestSchema.
Proof. valid_batch tableBet rouletteBet_valid. split; [by apply batch_nonempty|done]. Qed.

Ltac each_valid := repeat apply Forall_cons_2; try apply Forall_nil_2.

Lemma sicboRolls_valid : Forall valid [SicBoRollRequestSchema; SicBoLegacyRollRequestSchema].
Proof. each_valid; valid_batch tableBet sicboBet_valid; (split; [by apply batch_nonempty|done]). Qed.

Lemma baccaratDeal_valid : valid BaccaratDealRequestSchema.
Proof. valid_batch baccaratBet baccaratBet_valid. split; [by apply batch_nonempty|done]. Qed.

Lemma crapsRoll_valid : valid CrapsRollRequestSchema.
Proof.
  valid_batch crapsBet crapsBet_valid. split; [by apply batch_nonempty|]. eapply Forall_impl; [eassumption|].
  intros b. apply betOk_loose.
Qed.

Lemma crapsLive_valid : Forall valid [CrapsLiveJoinRequestSchema; CrapsLiveLeaveRequestSchema; CrapsLiveBetRequestSchema].
Proof.
  each_valid; [valid_request|valid_request|].
  valid_batch crapsBet crapsBet_valid. split; [by apply batch_nonempty|done].
Qed.

Lemma holds_valid : Forall valid [VideoPokerDrawRequestSchema; VideoPokerLegacyHoldRequestSchema].
Proof. each_valid; valid_batch asBool bool_valid; by apply batch_length. Qed.

Lemma crapsSingle_valid : valid CrapsSingleBetRequestSchema.
Proof.
  intros v w H. fields H. facts. do 2 eexists. split; [reflexivity|split; [eassumption|]]. right.
  assert (R2 : exists b, crapsSingleBet fs = Some b /\ betOk CrapsBetName_of_string None 12 b).
  { unfold crapsSingleBet. reading. eexists. split; [reflexivity|]. split; cbn; [known_type ty|by apply positive_field|].
    repeat constructor. by apply upTo_within. }
  destruct R2 as (b & R2 & Hb). eexists. split; [handled; unfold plays; rewrite R2; reflexivity|].
  split; [reflexivity|]. split; [done|by apply Forall_singleton].
Qed.

Lemma hiloBet_valid : valid HiLoBetRequestSchema.
Proof.
  intros v w H. fields H. facts.
  match goal with F : holds _ ("choice", _) |- _ => apply enum_field in F as (s & Es & Hs) end.
  assert (R1 : exists c, required asChoice "choice" fs = Some c /\ c ∈ [Hl_higher; Hl_lower]).
  { unfold required. rewrite Es. repeat (apply elem_of_cons in Hs as [->|Hs]; [eexists; split; [reflexivity|set_solver]|]).
    by apply elem_of_nil in Hs. }
  destruct R1 as (c & R1 & Hc). do 2 eexists. split; [reflexivity|split; [eassumption|]]. right. eexists.
  split; [handled; reading; reflexivity|]. split; [reflexivity|]. split; [by apply positive_field|done].
Qed.

Lemma ultimateBets_valid : Forall valid [UltimateTXBetRequestSchema; UltimateTXLegacyBetRequestSchema].
Proof.
  each_valid; (intros v w H; fields H; facts; do 2 eexists; (split; [reflexivity|split; [eassumption|]]); right; eexists;
    (split; [handled; reading; reflexivity|]); (split; [reflexivity|]);
    repeat match goal with G : Forall (within _) (_ :: _) |- _ => let I := fresh in apply Forall_cons in G as [I G] end; cbn in *; lia).
Qed.

Lemma faucet_valid : valid FaucetClaimRequestSchema.
Proof. intros v w H. fields H. facts. do 2 eexists. split; [reflexivity|split; [eassumption|by left]]. Qed.

Lemma blackjackDeal_valid : valid BlackjackDealRequestSchema.
Proof. valid_request. Qed.

Lemma outbound_valid : valid OutboundMessageSchema.
Proof.
  intros v w H. apply union_option in H as (t & s & _ & Hin & _ & H). revert v w H. change (valid s).
  pose proof sicboRolls_valid as [S1 [S2 _]%Forall_cons]%Forall_cons.
  pose proof crapsLive_valid as [C1 [C2 [C3 _]%Forall_cons]%Forall_cons]%Forall_cons.
  pose proof holds_valid as [V1 [V2 _]%Forall_cons]%Forall_cons.
  pose proof ultimateBets_valid as [U1 [U2 _]%Forall_cons]%Forall_cons.
  repeat (apply elem_of_cons in Hin as [->|Hin];
    [first [assumption | exact blackjackDeal_valid | exact rouletteSpin_valid | exact baccaratDeal_valid | exact crapsRoll_valid
           | exact crapsSingle_valid | exact hiloBet_valid | exact faucet_valid | valid_request]|]).
  by apply elem_of_nil in Hin.
Qed.

(** C6. Whatever a client sends, if the schema accepts it then it is a claim of the
    faucet, or the gateway knows its game, has a handler for it, and the
    handler takes it as a request of this game whose amounts, bets, targets and
    choices are in range: the branches for messages that no handler knows are
    never taken. *)
Theorem message_dispatched msg data :
  safeParse OutboundMessageSchema msg = Some data -> understood data.
Proof. apply outbound_valid. Qed.
End Dispatch.

Lemma message_dispatched_witness :
  exists data, safeParse OutboundMessageSchema
      (JObject [("type", JString "sicbo_roll");
                ("bets", JArray [JObject [("type", JString "SUM"); ("amount", JNumber 5); ("target", JNumber 11)]])]) = Some data
    /\ understood data.
Proof.
  eexists. match goal with |- ?a /\ _ => assert (H : a) by (vm_compute; reflexivity) end.
  split; [exact H|exact (message_dispatched _ _ H)].
Defined.

(** ** Messages beside their schema *)

Section Beside.
Context {Zd : Zod} {Laws : ZodLaws Zd}.

Lemma field_put_other k k' (v : Json) fs : k' <> k -> field k (put k' v fs) = field k fs.
Proof.
  intros H. induction fs as [|[k0 v0] fs IH]; cbn [put]; [by rewrite field_other|].
  case_bool_decide as E; rewrite !field_cons.
  - subst. by rewrite (bool_decide_eq_false_2 (k' = k)).
  - by rewrite IH.
Qed.

Lemma field_dropped k fs : field k (GatewayMessages.drop k fs) = None.
Proof.
  apply field_absent. intros ([k' v] & -> & Hin)%list_elem_of_fmap. apply list_elem_of_In, filter_In in Hin as [_ H].
  cbn in H. by rewrite bool_decide_eq_true_2 in H.
Qed.

Lemma parseFields_needs fs sh ws k s :
  parseFields safeParse mayMiss fs sh = Some ws -> (k, s) ∈ sh -> mayMiss s = false -> is_Some (field k fs).
Proof.
  revert ws. induction sh as [|[k' s'] sh IH]; intros ws Hp Hin Hm; [by apply elem_of_nil in Hin|]. cbn in Hp.
  apply elem_of_cons in Hin as [[= -> ->]|Hin].
  - destruct (field k' fs); [done|]. by rewrite Hm in Hp.
  - destruct (field k' fs) as [v|].
    + destruct (safeParse s' v); [|done]. cbn in Hp. destruct (parseFields _ _ fs sh) as [ws'|]; [|done]. by apply (IH ws').
    + destruct (mayMiss s'); [|done]. by apply (IH ws).
Qed.

(** A deal that ends the game is announced as a game without an id, which is no
    announcement of a game. *)
Lemma ended_deal_unnamed deal gameType bet blind :
  safeParse GameStartedMessageSchema (JObject (responseFields (Rs_dealt deal gameType None bet blind))) = None.
Proof.
  destruct (safeParse _ _) as [w|] eqn:E; [|done]. exfalso.
  destruct (shapeOf GameStartedMessageSchema) as [sh|] eqn:Hsh; [|done].
  rewrite (parse_object _ sh) in E by done. cbn [parseObject] in E.
  destruct (parseFields _ _ _ sh) as [ws|] eqn:Ep; [|done].
  assert (Hin : ("sessionId", z_string) ∈ sh).
  { vm_compute in Hsh. injection Hsh as <-. do 2 right. left. }
  destruct (parseFields_needs _ _ _ _ _ Ep Hin eq_refl) as [v Hv]. cbn [responseFields fmap option_fmap option_map setOrDrop] in Hv.
  unfold setIf in Hv. destruct blind; cbn [fmap option_fmap option_map] in Hv; destruct (among _ _) in Hv;
    rewrite !field_put_other, field_dropped in Hv by done; done.
Qed.

(** A claim to the faucet is served before the messages are validated. *)
Lemma claim_not_validated `{C : Crypto} su ws data msg inp sv :
  Text.JSON_parse data = Some msg -> tagOf "type" msg = Some "faucet_claim" ->
  handleMessage su ws data inp sv = faucetClaim su ws msg inp sv.
Proof.
  intros Hj Ht. unfold handleMessage. rewrite Hj. destruct msg; try done. cbn [tagOf] in Ht. cbn [get].
  destruct (field "type" _) as [[| | |t| |]|]; try done. injection Ht as ->. done.
Qed.
End Beside.

(** Half a chip is claimed as nothing, and a claim below zero as the default. *)
Lemma claims_rounded :
  let claim q := JObject [("type", JString "faucet_claim"); ("amount", JNumber q)] in
  faucetAmount (claim (1 # 2)) = 0 /\ faucetAmount (claim (-5 # 1)) = DEFAULT_FAUCET_AMOUNT
  /\ safeParse (Zod := zod_documented) OutboundMessageSchema (claim (-5 # 1)) = None.
Proof. split_and!; vm_compute; reflexivity. Qed.

(** A positive option below one is read as zero. *)
Lemma option_below_one : parsePositiveInt (fun _ => Some "0.5") "MAX_TOTAL_SESSIONS" 1000 false true = Ok 0.
Proof. vm_compute. reflexivity. Qed.

(** ** What a handler leaves alone *)

Section Keeps.
Context `{C : Crypto}.

Lemma submitWithRetry_others mb m key sk ins an m' sent r :
  submitWithRetry mb m key sk ins an = Ok (m', sent, r) -> others_same key m m'.
Proof.
  pose proof (others_set key) as Hset. pose proof (others_reject key) as Hrej. pose proof (others_sync key) as Hsync.
  unfold submitWithRetry. destruct (buildTransaction _ _ _) as [tx|]; [|done]. cbn [mbind result_bind].
  destruct (wrapSubmission tx) as [body|]; [|done]. cbn [mbind result_bind]. destruct (submit _ _ _) as [r0 sent0].
  destruct (accepted r0); [intros [= <- _ _]; apply Hset|].
  destruct (match sr_error r0 with Some e => _ | None => _ end) as [resync m1] eqn:E1.
  assert (H1 : others_same key m m1).
  { destruct (sr_error r0) as [e|]; [|by injection E1 as _ <-]. case_bool_decide; [by injection E1 as _ <-|].
    specialize (Hrej m e). by rewrite E1 in Hrej. }
  destruct resync; cbn [negb]; [|by intros [= <- _ _]]. specialize (Hsync m1 (an_account an)).
  destruct (syncFromBackend _ _ _) as [synced m2]. cbn in Hsync.
  assert (H2 : others_same key m m2) by by eapply others_trans.
  destruct synced; cbn [negb]; [|by intros [= <- _ _]].
  destruct (buildTransaction _ _ _) as [tx2|]; [|done]. cbn [mbind result_bind].
  destruct (wrapSubmission tx2) as [body2|]; [|done]. cbn [mbind result_bind]. destruct (submit _ _ _) as [r2 sent2].
  destruct (accepted r2); intros [= <- _ _]; [|done]. eapply others_trans; [exact H2|apply Hset].
Qed.

(** A computation of the player [i] that changes neither who the session is
    nor the nonces of other keys. *)
Definition keeps {A} (i : Identity) (m : Handler A) : Prop :=
  forall g, se_identity (gw_session g) = i ->
    se_identity (gw_session (m g).1) = i /\ others_same (id_publicKeyHex i) (gw_nonces g) (gw_nonces (m g).1).

Lemma keeps_here {A} i (m : Handler A) : (forall g, (m g).1 = g) -> keeps i m.
Proof. intros H g Hg. rewrite H. done. Qed.

Lemma keeps_ret {A} i (a : A) : keeps i (mret a).
Proof. by apply keeps_here. Qed.

Lemma keeps_lift {A} i (r : result A) : keeps i (lift_result r).
Proof. by apply keeps_here. Qed.

Lemma keeps_bind {A B} i (m : Handler A) (f : A -> Handler B) :
  keeps i m -> (forall a, keeps i (f a)) -> keeps i (m ≫= f).
Proof.
  intros Hm Hf g Hg. rewrite bind_run. specialize (Hm g Hg). destruct (m g) as [g' [a|e]]; cbn in Hm |- *; [|done].
  destruct Hm as [H1 H2]. destruct (Hf a g' H1) as [H3 H4]. split; [done|]. by eapply others_trans.
Qed.

Lemma keeps_session {B} i (f : Session -> Handler B) :
  (forall s, se_identity s = i -> keeps i (f s)) -> keeps i (s ← get_session; f s).
Proof. intros H g Hg. rewrite bind_run. cbn. by apply H. Qed.

Lemma keeps_put i s : se_identity s = i -> keeps i (put_session s).
Proof. intros H g Hg. cbn. done. Qed.

Lemma keeps_inputs i : keeps i next_inputs.
Proof. intros g Hg. done. Qed.

Lemma keeps_submit i ins an : keeps i (submitInstruction ins an).
Proof.
  intros g Hg. split; [by rewrite submitInstruction_session|]. unfold submitInstruction.
  destruct (submitWithRetry _ _ _ _ _ _) as [[[m sent] r]|] eqn:E; cbn; [|done].
  apply submitWithRetry_others in E. unfold publicKeyHex in E. by rewrite Hg in E.
Qed.

Lemma keeps_fail i code message : keeps i (fail code message).
Proof. apply keeps_ret. Qed.

Lemma keeps_rejected i e : keeps i (rejected e).
Proof. apply keeps_ret. Qed.

Create HintDb keeps.
Hint Resolve keeps_ret keeps_lift keeps_inputs keeps_submit keeps_fail keeps_rejected : keeps.

Ltac keeping :=
  repeat first
    [ progress intros
    | solve [eauto with keeps]
    | apply keeps_session
    | apply keeps_put; first [assumption | reflexivity | (cbn; assumption)]
    | apply keeps_bind
    | match goal with |- keeps _ (match ?x with _ => _ end) => destruct x end
    | match goal with |- keeps _ (let '(_, _) := ?x in _) => destruct x end
    | progress cbv zeta ].

Lemma keeps_startBody i gt bet id inp : keeps i (startBody gt bet id inp).
Proof. unfold startBody. keeping. Qed.

Lemma keeps_startGame i gt bet id : keeps i (startGame gt bet id).
Proof. unfold Handlers.startGame. pose proof keeps_startBody. keeping. Qed.

Lemma keeps_moveBody i gt id payload inp : keeps i (moveBody gt id payload inp).
Proof. unfold moveBody. keeping. Qed.

Lemma keeps_makeMove i gt payload : keeps i (makeMove gt payload).
Proof. unfold makeMove. pose proof keeps_moveBody. keeping. Qed.

Hint Resolve keeps_startGame keeps_makeMove : keeps.

Lemma keeps_next i : keeps i nextSessionId.
Proof. unfold nextSessionId. keeping. Qed.

Lemma keeps_success i r k : (forall x, keeps i (k x)) -> keeps i (on_success r k).
Proof. intros H. unfold on_success. destruct r; keeping. Qed.

Hint Resolve keeps_next keeps_success : keeps.

Lemma keeps_startWith i gt amount k : (forall x, keeps i (k x)) -> keeps i (startWith gt amount k).
Proof. intros H. unfold startWith. keeping. Qed.

Lemma keeps_moveAndReveal i gt p q : keeps i (moveAndReveal gt p q).
Proof. unfold moveAndReveal. keeping. apply keeps_success. keeping. Qed.

Lemma keeps_dealt i gt deal bet blind : keeps i (dealt gt deal bet blind).
Proof. unfold dealt. keeping. Qed.

Lemma keeps_batchMove i gt game bets : keeps i (batchMove gt game bets).
Proof. unfold batchMove. keeping. Qed.

Hint Resolve keeps_startWith keeps_moveAndReveal keeps_dealt keeps_batchMove : keeps.

Lemma keeps_handleMessage i rq : keeps i (Handlers.handleMessage rq).
Proof.
  destruct rq; cbn [Handlers.handleMessage];
    unfold blackjackDeal, blackjackHit, blackjackStand, blackjackDouble, blackjackSplit, baccaratDeal, crapsBets, rouletteSpin,
      sicboRoll, hiloDeal, hiloBet, hiloAction, casinowarDeal, casinowarAction, videopokerDeal, videopokerHold, threecardDeal,
      threecardPlay, threecardFold, ultimateDeal, ultimateBet, ultimateAction, batchGame, casinowarPlay;
    keeping; repeat (first [apply keeps_startWith | apply keeps_success]; keeping).
Qed.
End Keeps.

(** ** The invariant *)

(** Who has the session of each socket. *)
Definition who (sm : SessionManager) : gmap string Identity := se_identity <$> sm_sessions sm.

Definition slot (l : ConnectionLimiter) (cn : Conn) : Prop :=
  exists ids, connectionsByIp l !! normalizeIp (cn_ip cn) = Some ids /\ cn_id cn ∈ ids.

(** A seat of the live table belongs to the session of an open connection. *)
Definition seated (sv : Server) (id : string) (x : LiveTable.Session) : Prop :=
  s_id x = id /\ exists ws cn i, sv_conns sv !! ws = Some cn /\ cn_open cn = true /\ cn_ready cn = true
    /\ who (sv_manager sv) !! ws = Some i /\ id_id i = id /\ s_publicKeyHex x = id_publicKeyHex i.

Record consistent (l : ConnectionLimiterConfig) (sv : Server) : Prop := {
  k_limits : limiter_inv (sv_limiter sv) /\ within_caps l (sv_limiter sv);
  k_count : totalConnections (sv_limiter sv) = Z.of_nat (size (sv_conns sv));
  k_slots : forall ws cn, sv_conns sv !! ws = Some cn -> slot (sv_limiter sv) cn;
  k_ids : forall ws ws' cn cn', sv_conns sv !! ws = Some cn -> sv_conns sv !! ws' = Some cn' -> cn_id cn = cn_id cn' -> ws = ws';
  k_sessions : forall ws, is_Some (getSession (sv_manager sv) ws) <-> is_Some (sv_conns sv !! ws);
  k_index : indexed (sv_manager sv);
  k_uuids : forall ws ws' i i', who (sv_manager sv) !! ws = Some i -> who (sv_manager sv) !! ws' = Some i' ->
    id_id i = id_id i' -> ws = ws';
  k_seats : forall id x, sessions (t_subs (sv_table sv)) !! id = Some x -> seated sv id x;
  k_table : exists keyOf, subs_inv keyOf (t_subs (sv_table sv))
    /\ forall ws i, who (sv_manager sv) !! ws = Some i -> keyOf (id_id i) = id_publicKeyHex i
}.

Lemma who_get sm ws i : who sm !! ws = Some i <-> exists s, getSession sm ws = Some s /\ se_identity s = i.
Proof. unfold who, getSession. rewrite lookup_fmap_Some. naive_solver. Qed.

Lemma who_some sm ws : is_Some (who sm !! ws) <-> is_Some (getSession sm ws).
Proof. unfold who, getSession. by rewrite lookup_fmap, fmap_is_Some. Qed.

Lemma indexed_who sm : indexed sm <-> forall hex ws, sm_byPublicKey sm !! hex = Some ws <->
  exists i, who sm !! ws = Some i /\ id_publicKeyHex i = hex.
Proof.
  unfold indexed. split; intros H hex ws; rewrite H; split.
  - intros (s & E & <-). exists (se_identity s). split; [|done]. apply who_get. by exists s.
  - intros (i & (s & E & <-)%who_get & <-). by exists s.
  - intros (i & (s & E & <-)%who_get & <-). by exists s.
  - intros (s & E & <-). exists (se_identity s). split; [|done]. apply who_get. by exists s.
Qed.

(** Two managers with the same players. *)
Definition same_players (sm sm' : SessionManager) : Prop :=
  who sm' = who sm /\ sm_byPublicKey sm' = sm_byPublicKey sm.

Lemma players_update sm ws s s' :
  getSession sm ws = Some s -> se_identity s' = se_identity s -> same_players sm (updateSession sm ws (fun _ => s')).
Proof.
  intros E H. split; [|done]. apply map_eq. intros w. unfold who, getSession in *. cbn. rewrite !lookup_fmap.
  destruct (decide (w = ws)) as [->|Hne]; [|by rewrite lookup_alter_ne].
  rewrite lookup_alter_eq, E. cbn. by f_equal.
Qed.

Lemma players_alter sm ws f : (forall s, se_identity (f s) = se_identity s) -> same_players sm (updateSession sm ws f).
Proof.
  intros H. split; [|done]. apply map_eq. intros w. unfold who. cbn. rewrite !lookup_fmap.
  destruct (decide (w = ws)) as [->|Hne]; [|by rewrite lookup_alter_ne].
  rewrite lookup_alter_eq. destruct (sm_sessions sm !! ws) as [s|]; [|done]. cbn. by rewrite H.
Qed.

Lemma players_returned t sm : same_players sm (returned t sm).
Proof.
  split; [|done]. apply map_eq. intros w. unfold who. cbn. rewrite !lookup_fmap.
  destruct (sm_sessions sm !! w) as [s|]; [|done]. cbn. f_equal. unfold returnBalance. by destruct (sessions _ !! _).
Qed.

Section Consistent.
Context `{C : Crypto} {Zd : Zod} (su : Setup).

(** What a step leaves alone that changes neither connections nor players. *)
Lemma consistent_same sv sv' :
  sv_limiter sv' = sv_limiter sv -> sv_conns sv' = sv_conns sv -> same_players (sv_manager sv) (sv_manager sv') ->
  (forall id x, sessions (t_subs (sv_table sv')) !! id = Some x ->
     exists y, sessions (t_subs (sv_table sv)) !! id = Some y /\ s_id x = s_id y /\ s_publicKeyHex x = s_publicKeyHex y
     \/ seated sv id x) ->
  (forall keyOf, subs_inv keyOf (t_subs (sv_table sv)) ->
     (forall ws i, who (sv_manager sv) !! ws = Some i -> keyOf (id_id i) = id_publicKeyHex i) -> subs_inv keyOf (t_subs (sv_table sv'))) ->
  consistent (limits su) sv -> consistent (limits su) sv'.
Proof.
  intros El Ec [Ew Eb] Hseat Hsub [K1 K2 K3 K4 K5 K6 K7 K8 K9].
  split; rewrite ?El, ?Ec, ?Ew; try done.
  - intros ws. rewrite <- K5, <- !who_some. by rewrite Ew.
  - apply indexed_who. rewrite Ew, Eb. by apply indexed_who.
  - intros id x Hx. destruct (Hseat id x Hx) as (y & [(Hy & E1 & E2)|Hs]).
    + destruct (K8 id y Hy) as (Hid & ws & cn & i & H1 & H2 & H3 & H4 & H5 & H6).
      split; [congruence|]. exists ws, cn, i. rewrite Ec, Ew. split_and!; try done. congruence.
    + destruct Hs as (Hid & ws & cn & i & H). split; [done|]. exists ws, cn, i. by rewrite Ec, Ew.
  - destruct K9 as (keyOf & H1 & H2). exists keyOf. split; [by apply Hsub|done].
Qed.

(** When the table stays too. *)
Lemma consistent_kept sv sv' :
  sv_limiter sv' = sv_limiter sv -> sv_conns sv' = sv_conns sv -> same_players (sv_manager sv) (sv_manager sv') ->
  sv_table sv' = sv_table sv -> consistent (limits su) sv -> consistent (limits su) sv'.
Proof.
  intros El Ec Em Et. apply consistent_same; try done; rewrite Et; [|done]. intros id x Hx. exists x. by left.
Qed.

(** *** The live table *)

(** Sessions only leave, or change their balance. *)
Definition shrinks (s s' : Subscribers) : Prop :=
  forall id x', sessions s' !! id = Some x' ->
    exists x, sessions s !! id = Some x /\ s_id x' = s_id x /\ s_publicKeyHex x' = s_publicKeyHex x.

Lemma shrinks_refl s : shrinks s s.
Proof. intros id x H. by exists x. Qed.

Lemma shrinks_trans s s' s'' : shrinks s s' -> shrinks s' s'' -> shrinks s s''.
Proof.
  intros H1 H2 id x H. destruct (H2 id x H) as (y & Hy & E1 & E2). destruct (H1 id y Hy) as (z & Hz & E3 & E4).
  exists z. split_and!; [done|congruence|congruence].
Qed.

Lemma shrinks_remove s x : shrinks s (removeSession s x).
Proof. intros id y. rewrite sessions_remove. intros [_ H]%lookup_delete_Some. by exists y. Qed.

Lemma shrinks_send s key p : shrinks s (sendToPlayer s key p).1.
Proof.
  unfold sendToPlayer. generalize (idsOf s key) as ids. change (fun l : list string => shrinks s (send_fold p (s, []) l).1) with
    (fun l : list string => shrinks s (send_fold p (s, []) l).1). intros ids.
  assert (G : forall ids s0 out, shrinks s s0 -> shrinks s (send_fold p (s0, out) ids).1).
  { clear ids. intros ids. induction ids as [|i ids IH]; intros s0 out H; [done|]. cbn.
    destruct (sessions s0 !! i) as [x|]; [|by apply IH]. unfold sendToSession. destruct (s_open x); apply IH; [done|].
    eapply shrinks_trans; [exact H|apply shrinks_remove]. }
  apply G, shrinks_refl.
Qed.

Lemma shrinks_balance s key chips : shrinks s (updateSessionsBalance s key chips).
Proof.
  intros id x'. destruct (updateSessionsBalance_lookup s key chips id) as (f & Hf & ->).
  intros (x & Hx & ->)%fmap_Some. exists x. destruct (Hf x) as (E1 & E2 & _). done.
Qed.

Lemma shrinks_event c now t e : shrinks (t_subs t) (t_subs (handleGlobalTableEvent c now t e).1.1).
Proof.
  assert (G : shrinks (t_subs t) (t_subs (handleEventBody c now t e).1)).
  { destruct e as [r|p rid bets bal|p rid code m|g rid ends|r|p rid pay bal bets|g rid]; cbn [handleEventBody];
      try apply shrinks_refl.
    - rewrite sendConfirmation_shape. cbn [with_subs t_subs]. eapply shrinks_trans; [|apply shrinks_send].
      rewrite setBalance_subs. eapply shrinks_trans; [|apply shrinks_balance]. destruct (negb _); apply shrinks_refl.
    - rewrite sendConfirmation_shape. apply shrinks_send.
    - edestruct sendLiveResult_shape as [pl ->]. cbn [with_subs t_subs]. eapply shrinks_trans; [|apply shrinks_send].
      rewrite setBalance_subs. apply shrinks_balance. }
  by rewrite (handleGlobalTableEvent_body c now t e t_subs) by apply requestBroadcast_subs.
Qed.

Lemma shrinks_step c t i : ofTable i = true -> shrinks (t_subs t) (t_subs (table_step c t i).1.1).
Proof.
  intros Hi. destruct i as [now e|now|key|key acc|now|now|now count x|x|en x bets|x]; try done; cbn [table_step].
  - pose proof (shrinks_event c now t e) as H. by destruct (handleGlobalTableEvent c now t e) as [[??]?].
  - destruct (tickPhase_rest c now t) as [E _]. destruct (tickPhase c now t). cbn in *. rewrite E. apply shrinks_refl.
  - unfold settleBegin. repeat split_if; apply shrinks_refl.
  - unfold settleEnd. destruct acc; apply shrinks_refl.
  - split_if; [apply shrinks_refl|]. cbn. rewrite requestBroadcast_subs. apply shrinks_refl.
  - unfold flushDone. split_if; [|apply shrinks_refl]. cbn [fst]. rewrite requestBroadcast_subs. apply shrinks_refl.
Qed.

(** The seat of a session of the table is the seat of its connection. *)
Lemma seat_found sv id x : consistent (limits su) sv -> sessions (t_subs (sv_table sv)) !! id = Some x ->
  exists ws s, getSession (sv_manager sv) ws = Some s /\ id_id (se_identity s) = id /\ seatOf sv x = seat sv ws s
    /\ s_id x = id /\ s_publicKeyHex x = publicKeyHex s.
Proof.
  intros K Hx. destruct (k_seats _ _ K id x Hx) as (Hid & ws & cn & i & _ & _ & _ & Hi & E & Ek).
  pose proof (proj1 (indexed_who _) (k_index _ _ K) (id_publicKeyHex i) ws) as Hw.
  apply who_get in Hi as (s & Hs & <-). exists ws, s. split_and!; try done. unfold seatOf. rewrite Ek.
  rewrite (proj2 Hw) by (exists (se_identity s); split; [apply who_get; by exists s|done]). by rewrite Hs.
Qed.

Lemma synced_shrinks sv : consistent (limits su) sv -> shrinks (t_subs (sv_table sv)) (t_subs (synced sv)).
Proof.
  intros K id x'. cbn. rewrite lookup_fmap. intros (x & Hx & ->)%fmap_Some. exists x.
  destruct (seat_found sv id x K Hx) as (ws & s & Hs & E & -> & E1 & E2). cbn. split_and!; [done|congruence|done].
Qed.

Lemma synced_inv sv keyOf : consistent (limits su) sv -> subs_inv keyOf (t_subs (sv_table sv)) -> subs_inv keyOf (t_subs (synced sv)).
Proof.
  intros K [H1 H2 H3]. split; [| |exact H3].
  - intros id x'. cbn. rewrite lookup_fmap. intros (x & Hx & ->)%fmap_Some.
    destruct (seat_found sv id x K Hx) as (ws & s & Hs & E & -> & E1 & E2). destruct (H1 id x Hx) as [_ Hok].
    unfold session_ok in *. cbn. rewrite E, <- E2, Hok, E1. done.
  - intros id key. cbn. rewrite lookup_fmap, fmap_is_Some. apply H2.
Qed.

(** An operation of the table on the sessions as they are now. *)
Lemma consistent_table sv t :
  (forall id x, sessions (t_subs t) !! id = Some x ->
     (exists y, sessions (t_subs (synced sv)) !! id = Some y /\ s_id x = s_id y /\ s_publicKeyHex x = s_publicKeyHex y)
     \/ seated sv id x) ->
  (forall keyOf, subs_inv keyOf (t_subs (synced sv)) ->
     (forall ws i, who (sv_manager sv) !! ws = Some i -> keyOf (id_id i) = id_publicKeyHex i) -> subs_inv keyOf (t_subs t)) ->
  consistent (limits su) sv -> consistent (limits su) (withTable t sv).
Proof.
  intros Hseat Hsub K. apply (consistent_same sv); try done; [apply players_returned| |].
  - intros id x Hx. destruct (Hseat id x Hx) as [(y & Hy & E1 & E2)|Hs].
    + destruct (synced_shrinks sv K id y Hy) as (z & Hz & E3 & E4). exists z. left. split_and!; [done|congruence|congruence].
    + exists x. by right.
  - intros keyOf H1 H2. apply Hsub; [by apply synced_inv|done].
Qed.

Lemma consistent_shrinks sv t :
  shrinks (t_subs (synced sv)) (t_subs t) ->
  (forall keyOf, subs_inv keyOf (t_subs (synced sv)) ->
     (forall ws i, who (sv_manager sv) !! ws = Some i -> keyOf (id_id i) = id_publicKeyHex i) -> subs_inv keyOf (t_subs t)) ->
  consistent (limits su) sv -> consistent (limits su) (withTable t sv).
Proof. intros Hs. apply consistent_table. intros id x Hx. left. by apply Hs. Qed.

Lemma consistent_step sv i : ofTable i = true -> consistent (limits su) sv ->
  consistent (limits su) (withTable (table_step (su_table su) (synced sv) i).1.1 sv).
Proof.
  intros Hi. apply consistent_shrinks; [by apply shrinks_step|]. intros keyOf Hs _. apply table_step_subs_inv; [done|]. by destruct i.
Qed.

(** What a message from an open connection may do to the table. *)
Section Seat.
Context (sv : Server) (ws : string) (s : Session) (cn : Conn).
Context (K : consistent (limits su) sv).
Context (Hcn : sv_conns sv !! ws = Some cn) (Ho : cn_open cn = true) (Hr : cn_ready cn = true).
Context (Hs : getSession (sv_manager sv) ws = Some s).

Lemma seat_seated : seated sv (id_id (se_identity s)) (seat sv ws s).
Proof. split; [done|]. exists ws, cn, (se_identity s). split_and!; try done. apply who_get. by exists s. Qed.

Lemma seat_ok keyOf :
  (forall ws i, who (sv_manager sv) !! ws = Some i -> keyOf (id_id i) = id_publicKeyHex i) -> session_ok keyOf (seat sv ws s).
Proof. intros H. unfold session_ok. cbn. symmetry. apply (H ws). apply who_get. by exists s. Qed.

Lemma added_seat id x : sessions (addSession (t_subs (synced sv)) (seat sv ws s)) !! id = Some x ->
  (exists y, sessions (t_subs (synced sv)) !! id = Some y /\ s_id x = s_id y /\ s_publicKeyHex x = s_publicKeyHex y)
  \/ seated sv id x.
Proof.
  rewrite sessions_add. destruct (decide (id = s_id (seat sv ws s))) as [->|Hne].
  - rewrite lookup_insert_eq. intros [= <-]. right. apply seat_seated.
  - rewrite lookup_insert_ne by done. intros H. left. by exists x.
Qed.

Lemma consistent_join inp : consistent (limits su) (liveJoin su ws s inp sv).1.
Proof.
  unfold liveJoin. destruct (negb _); [done|]. destruct (negb _).
  - cbn [fst]. apply consistent_table; [| |done].
    + intros id x. cbn [with_subs t_subs]. rewrite sessions_remove. intros [_ H]%lookup_delete_Some. by apply added_seat.
    + intros keyOf H1 H2. cbn. apply removeSession_inv; [apply addSession_inv; [done|]|]; by apply seat_ok.
  - pose proof (table_step_subs_inv) as Hinv. destruct (LiveTable.join _ _ _ _) as [t out] eqn:E. cbn [fst].
    unfold LiveTable.join, sendToSession in E. cbn [with_subs t_subs] in E. apply consistent_table; [| |done].
    + intros id x Hx. apply added_seat. destruct (s_open (seat sv ws s)); injection E as <- _; cbn [t_subs with_subs] in Hx; [done|].
      rewrite sessions_remove in Hx. by apply lookup_delete_Some in Hx as [_ Hx].
    + intros keyOf H1 H2. destruct (s_open (seat sv ws s)); injection E as <- _; cbn [t_subs with_subs];
        [|apply removeSession_inv]; try apply addSession_inv; try done; by apply seat_ok.
Qed.

Lemma consistent_leave : consistent (limits su) (liveLeave ws s sv).1.
Proof.
  apply consistent_shrinks; [apply shrinks_remove| |done]. intros keyOf H1 H2. apply removeSession_inv; [done|by apply seat_ok].
Qed.

Lemma consistent_place bets inp : consistent (limits su) (livePlace su ws s bets inp sv).1.
Proof.
  unfold livePlace. destruct (placeBets _ _ _ _ _) as [e|i].
  { destruct (beforeStart e); [done|]. by destruct (negb _). }
  destruct (negb _); [done|]. destruct (_ ≫= _) as [[[m sent] [n|e]]|]; [| |done].
  - pose proof (sendConfirmation_shape (synced sv) (s_publicKeyHex (seat sv ws s)) St_pending
      "Awaiting on-chain confirmation" (Some (s_balance (seat sv ws s))) (Some (roundId (t_round (synced sv))))) as E.
    unfold placeBetsEnd. destruct (sendConfirmation _ _ _ _ _ _) as [t out]. cbn [fst] in *. subst t.
    match goal with |- consistent _ (withTable ?t _) => apply (consistent_kept (withTable t sv)); try done end.
    apply consistent_shrinks; [apply shrinks_send| |done]. intros keyOf H1 _. by apply sendToPlayer_inv.
  - cbn [fst]. by apply (consistent_kept sv).
Qed.

Lemma consistent_serve rq inp : consistent (limits su) (serve su ws s rq inp sv).1.
Proof.
  destruct rq; cbn [serve]; [|apply consistent_join|apply consistent_leave|apply consistent_place].
  unfold playGame. pose proof (keeps_handleMessage (se_identity s) rq (gatewayOf su sv s inp) eq_refl) as [H _].
  destruct (Handlers.handleMessage rq _) as [g r]. cbn [fst] in *. apply (consistent_kept sv); try done.
  by apply (players_update _ _ s).
Qed.
End Seat.

(** *** Connections *)

Lemma subs_inv_ext keyOf keyOf' s :
  (forall id, is_Some (sessions s !! id) -> keyOf id = keyOf' id) -> subs_inv keyOf s -> subs_inv keyOf' s.
Proof.
  intros E [H1 H2 H3]. split; [| |exact H3].
  - intros id x Hx. destruct (H1 id x Hx) as [Hid Hok]. split; [done|]. unfold session_ok in *.
    rewrite Hok. apply E. rewrite Hid. by exists x.
  - intros id key. rewrite H2. split; intros [Hi Hk]; (split; [done|]); specialize (E id Hi); congruence.
Qed.

(** A connection whose messages do not count yet, or no longer. *)
Lemma consistent_conn sv ws f :
  (forall cn, cn_ip (f cn) = cn_ip cn /\ cn_id (f cn) = cn_id cn) ->
  (forall cn, sv_conns sv !! ws = Some cn -> cn_open cn && cn_ready cn = false) ->
  consistent (limits su) sv -> consistent (limits su) (set_conn ws f sv).
Proof.
  intros Hf Hn [K1 K2 K3 K4 K5 K6 K7 K8 K9].
  assert (Hold : forall w cn, alter f ws (sv_conns sv) !! w = Some cn ->
    exists cn0, sv_conns sv !! w = Some cn0 /\ cn_ip cn = cn_ip cn0 /\ cn_id cn = cn_id cn0).
  { intros w cn. destruct (decide (w = ws)) as [->|Hne].
    - rewrite lookup_alter_eq. intros (cn0 & E & ->)%fmap_Some. exists cn0. destruct (Hf cn0). done.
    - rewrite lookup_alter_ne by done. intros E. by exists cn. }
  split; cbn [set_conn with_conns sv_limiter sv_manager sv_table sv_conns]; try done.
  - rewrite K2. f_equal. by rewrite <- !(size_dom (D := gset string)), dom_alter_L.
  - intros w cn (cn0 & E & E1 & E2)%Hold. destruct (K3 w cn0 E) as (ids & H1 & H2). exists ids. by rewrite E1, E2.
  - intros w w' cn cn' (a & Ea & _ & Ia)%Hold (b & Eb & _ & Ib)%Hold H. apply (K4 w w' a b); congruence.
  - intros w. rewrite K5. destruct (decide (w = ws)) as [->|Hne]; [|by rewrite lookup_alter_ne].
    rewrite lookup_alter_eq. by rewrite fmap_is_Some.
  - intros id x Hx. destruct (K8 id x Hx) as (Hid & w & cn & i & H1 & H2 & H3 & H4). split; [done|].
    exists w, cn, i. cbn [set_conn with_conns sv_conns sv_manager]. split_and!; try apply H4; try done.
    destruct (decide (w = ws)) as [->|Hne]; [|by rewrite lookup_alter_ne].
    specialize (Hn cn H1). by rewrite H2, H3 in Hn.
Qed.

Lemma createSession_ok c now sm ws uuid name ip draws sm' s :
  createSession c now sm ws uuid name ip draws = (sm', Ok s) ->
  sm_sessions sm' = <[ws := s]> (sm_sessions sm) /\ id_id (se_identity s) = uuid.
Proof.
  unfold createSession. destruct (enforceSessionRateLimit _ _ _ _) as [at' ok]. destruct (negb ok); [done|].
  destruct (generateKeys _ _) as [[[sk pk] hex]|]; [|done]. by intros [= <- <-].
Qed.

Lemma createSession_failed c now sm ws uuid name ip draws sm' e :
  createSession c now sm ws uuid name ip draws = (sm', Throw e) -> same_players sm sm'.
Proof.
  unfold createSession. destruct (enforceSessionRateLimit _ _ _ _) as [at' ok]. destruct (negb ok); [by intros [= <- _]|].
  destruct (generateKeys _ _) as [[[sk pk] hex]|]; [done|]. by intros [= <- _].
Qed.

(** Sockets, connection ids and session ids are not used twice. *)
Definition fresh (sv : Server) (e : Event) : Prop :=
  match e with
  | E_connect _ ws _ _ connectionId uuid _ =>
      sv_conns sv !! ws = None /\ id_fresh (sv_limiter sv) connectionId
      /\ forall w s, getSession (sv_manager sv) w = Some s -> id_id (se_identity s) <> uuid
  | _ => True
  end.

Lemma register_slot l ip id cn : slot l cn -> slot (registerConnection l ip id) cn.
Proof.
  intros (ids & H1 & H2). unfold slot. cbn. destruct (decide (normalizeIp (cn_ip cn) = normalizeIp ip)) as [E|Hne].
  - rewrite E, lookup_insert_eq. eexists. split; [done|]. rewrite <- E, H1. cbn. set_solver.
  - rewrite lookup_insert_ne by congruence. by exists ids.
Qed.

Lemma unregister_slot l ip id cn : cn_id cn <> id -> slot l cn -> slot (unregisterConnection l ip id) cn.
Proof.
  intros Hne (ids & H1 & H2). unfold unregisterConnection. destruct (connectionsByIp l !! normalizeIp ip) as [s|] eqn:E; [|by exists ids].
  case_bool_decide as Hin; [|by exists ids]. unfold slot. cbn.
  destruct (decide (normalizeIp (cn_ip cn) = normalizeIp ip)) as [Ei|Hi].
  - rewrite Ei in *. assert (s = ids) as -> by congruence. assert (Hx : cn_id cn ∈ ids ∖ {[id]}) by set_solver.
    rewrite bool_decide_eq_false_2; [rewrite lookup_insert_eq; by eexists|].
    intros H0. apply size_empty_iff in H0. set_solver.
  - exists ids. case_bool_decide; [rewrite lookup_delete_ne by congruence|rewrite lookup_insert_ne by congruence]; done.
Qed.

Lemma unregister_count l ip id cn : cn_ip cn = ip -> cn_id cn = id -> slot l cn ->
  totalConnections (unregisterConnection l ip id) = totalConnections l - 1.
Proof.
  intros <- <- (ids & H1 & H2). unfold unregisterConnection. rewrite H1. by rewrite bool_decide_eq_true_2.
Qed.

Lemma fresh_id l cn id : slot l cn -> id_fresh l id -> cn_id cn <> id.
Proof. intros (ids & H1 & H2) Hf <-. by apply (Hf _ _ H1). Qed.

Lemma consistent_connect sv now ws ip origin cid uuid draws :
  fresh sv (E_connect now ws ip origin cid uuid draws) -> consistent (limits su) sv ->
  consistent (limits su) (connect su now ws ip origin cid uuid draws sv).1.
Proof.
  intros (Hws & Hcid & Huuid) K. unfold connect. destruct (originCheck _ _); [done|].
  destruct (canConnect _ _ _) as [code|] eqn:Ec; [done|].
  assert (Hs : conn_step (limits su) (sv_limiter sv) (Connect ip cid) = registerConnection (sv_limiter sv) ip cid)
    by (cbn; by rewrite Ec).
  pose proof (conn_step_inv (limits su) (sv_limiter sv) (Connect ip cid)) as Hl. rewrite Hs in Hl.
  destruct (k_limits _ _ K) as [L1 L2]. destruct Hl as [M1 M2]; [by intros ?? [= -> ->]|done|done|].
  pose proof (indexed_create (su_sessions su) (sv_manager sv) now ws uuid None ip draws) as Hx.
  destruct (createSession _ _ _ _ _ _ _ _) as [sm [s|e]] eqn:Es; cbn [fst] in *.
  - apply createSession_ok in Es as [Es Eid].
    assert (Hno : getSession (sv_manager sv) ws = None).
    { apply eq_None_not_Some. intros H. apply (k_sessions _ _ K) in H. rewrite Hws in H. by destruct H. }
    specialize (Hx Hno (k_index _ _ K)).
    assert (Hwho : who sm = <[ws := se_identity s]> (who (sv_manager sv))) by (unfold who; by rewrite Es, fmap_insert).
    assert (Hw : who (sv_manager sv) !! ws = None).
    { apply eq_None_not_Some. rewrite who_some, Hno. by intros []. }
    assert (Hnew : forall w i, who (sv_manager sv) !! w = Some i -> id_id i <> uuid).
    { intros w i (s' & E & <-)%who_get. by eapply Huuid. }
    destruct K as [K1 K2 K3 K4 K5 K6 K7 K8 K9].
    split; cbn [with_conns with_manager with_limiter sv_limiter sv_manager sv_table sv_conns]; try done.
    + cbn. rewrite K2, map_size_insert_None by done. lia.
    + intros w cn. destruct (decide (w = ws)) as [->|Hne].
      * rewrite lookup_insert_eq. intros [= <-]. unfold slot. cbn. rewrite lookup_insert_eq. eexists. split; [done|]. set_solver.
      * rewrite lookup_insert_ne by done. intros E. apply register_slot. by eapply K3.
    + intros w w' cn cn'. destruct (decide (w = ws)) as [->|Hne], (decide (w' = ws)) as [->|Hne'];
        rewrite ?lookup_insert_eq, ?lookup_insert_ne by done; [done| | |by apply K4].
      * intros [= <-] E H. cbn in H. exfalso. by apply (fresh_id _ cn' cid (K3 _ _ E) Hcid).
      * intros E [= <-] H. cbn in H. exfalso. by apply (fresh_id _ cn cid (K3 _ _ E) Hcid).
    + intros w. unfold getSession. rewrite Es. destruct (decide (w = ws)) as [->|Hne].
      * rewrite !lookup_insert_eq. done.
      * rewrite !lookup_insert_ne by done. apply K5.
    + intros w w' i i'. rewrite Hwho. destruct (decide (w = ws)) as [->|Hne], (decide (w' = ws)) as [->|Hne'];
        rewrite ?lookup_insert_eq, ?lookup_insert_ne by done; [done| | |by apply K7].
      * intros [= <-] E H. exfalso. apply (Hnew _ _ E). congruence.
      * intros E [= <-] H. exfalso. apply (Hnew _ _ E). congruence.
    + intros id x Hx'. destruct (K8 id x Hx') as (Hid & w & cn & i & H1 & H2 & H3 & H4 & H5). split; [done|].
      assert (w <> ws) by (intros ->; congruence). exists w, cn, i.
      cbn [with_conns with_manager with_limiter sv_limiter sv_manager sv_table sv_conns]. rewrite Hwho.
      rewrite !lookup_insert_ne by done. done.
    + destruct K9 as (keyOf & H1 & H2). exists (fun id => if bool_decide (id = uuid) then publicKeyHex s else keyOf id). split.
      * apply (subs_inv_ext keyOf); [|done]. intros id [x Hx']. destruct (K8 id x Hx') as (_ & w & cn & i & _ & _ & _ & Hi & Ei & _).
        rewrite bool_decide_eq_false_2; [done|]. rewrite <- Ei. by eapply Hnew.
      * intros w i. rewrite Hwho. destruct (decide (w = ws)) as [->|Hne].
        -- rewrite lookup_insert_eq. intros [= <-]. by rewrite bool_decide_eq_true_2.
        -- rewrite lookup_insert_ne by done. intros E. rewrite bool_decide_eq_false_2 by (by eapply Hnew). by eapply H2.
  - apply createSession_failed in Es.
    assert (Hr : unregisterConnection (registerConnection (sv_limiter sv) ip cid) ip cid = sv_limiter sv) by by apply unregister_register.
    apply (consistent_kept sv); try done.
Qed.

Lemma consistent_created sv ws connected an : consistent (limits su) sv -> consistent (limits su) (created su ws connected an sv).1.
Proof.
  intros K. unfold created. destruct (sv_conns sv !! ws) as [cn|] eqn:Ec; [|done].
  destruct (getSession _ _) as [s|] eqn:Es; [|done]. destruct (cn_ready cn) eqn:Er; [done|].
  destruct (initializePlayer _ _ _ _ _) as [[m s'] sent] eqn:Ei. cbn [fst].
  assert (Hid : se_identity s' = se_identity s).
  { unfold initializePlayer, registerPlayer in Ei.
    destruct (encodeCasinoRegister _) as [ins|]; cbn [mbind result_bind] in Ei; [|destruct connected; by injection Ei as _ <- _].
    destruct (submitWithRetry _ _ _ _ _ _) as [[[m0 sent0] [n|e]]|]; cbn [mbind result_bind] in Ei;
      destruct connected; by injection Ei as _ <- _. }
  apply consistent_conn; [done| |].
  - intros cn0. cbn. rewrite Ec. intros [= <-]. by rewrite Er, andb_false_r.
  - apply (consistent_kept sv); try done. by apply (players_update _ _ s).
Qed.

Lemma consistent_closes sv ws : consistent (limits su) sv -> consistent (limits su) (closes ws sv).1.
Proof.
  intros K. unfold closes. destruct (sv_conns sv !! ws) as [cn|] eqn:Ec; [|done].
  destruct (cn_open cn) eqn:Eo; cbn [negb]; [|done]. destruct (cn_ready cn) eqn:Er.
  2: { apply consistent_conn; [done| |done]. intros cn0. rewrite Ec. intros [= <-]. by rewrite Er, andb_false_r. }
  destruct (proj2 (k_sessions _ _ K ws)) as [s Es]; [by exists cn|]. rewrite Es. cbn [fst].
  assert (Hi : who (sv_manager sv) !! ws = Some (se_identity s)) by (apply who_get; by exists s).
  pose proof (indexed_destroy (sv_manager sv) ws (k_index _ _ K)) as Hx.
  assert (Hd : sm_sessions (destroySession (sv_manager sv) ws) = delete ws (sm_sessions (sv_manager sv))).
  { unfold destroySession. unfold getSession in Es. by rewrite Es. }
  assert (Hw : who (destroySession (sv_manager sv) ws) = delete ws (who (sv_manager sv))) by (unfold who; by rewrite Hd, fmap_delete).
  pose proof (conn_step_inv (limits su) (sv_limiter sv) (Disconnect (cn_ip cn) (cn_id cn))) as Hl.
  destruct K as [[L1 L2] K2 K3 K4 K5 K6 K7 K8 K9]. destruct Hl as [M1 M2]; [done|done|done|]. cbn [conn_step] in M1, M2.
  assert (Hother : forall w cn', delete ws (sv_conns sv) !! w = Some cn' -> w <> ws /\ sv_conns sv !! w = Some cn' /\ cn_id cn' <> cn_id cn).
  { intros w cn' [Hne E]%lookup_delete_Some. split_and!; [done|done|]. intros H. apply Hne. symmetry. by apply (K4 w ws cn' cn). }
  split; cbn [with_conns with_manager with_limiter with_table sv_limiter sv_manager sv_table sv_conns t_subs with_subs]; try done.
  - rewrite (unregister_count _ _ _ cn) by (try done; by eapply K3). rewrite K2, map_size_delete_Some by by exists cn.
    assert (size (sv_conns sv) <> 0%nat) by (intros E; apply map_size_empty_iff in E; by rewrite E in Ec). lia.
  - intros w cn' (_ & E & Hne)%Hother. apply unregister_slot; [done|by eapply K3].
  - intros w w' a b (_ & Ea & _)%Hother (_ & Eb & _)%Hother. by apply K4.
  - intros w. unfold getSession. rewrite Hd. destruct (decide (w = ws)) as [->|Hne].
    + rewrite !lookup_delete_eq. done.
    + rewrite !lookup_delete_ne by done. apply K5.
  - intros w w' i i'. rewrite Hw. intros [_ E]%lookup_delete_Some [_ E']%lookup_delete_Some. by apply K7.
  - intros id x. rewrite sessions_remove. cbn [s_id]. intros [Hne Hx']%lookup_delete_Some.
    destruct (K8 id x Hx') as (Hid & w & cn' & i & H1 & H2 & H3 & H4 & H5 & H6). split; [done|].
    assert (w <> ws) by (intros ->; apply Hne; congruence). exists w, cn', i.
    cbn [with_conns with_manager with_limiter with_table sv_limiter sv_manager sv_table sv_conns].
    rewrite Hw, !lookup_delete_ne by done. done.
  - destruct K9 as (keyOf & H1 & H2). exists keyOf. split.
    + apply removeSession_inv; [done|]. unfold session_ok. cbn. symmetry. by apply (H2 ws).
    + intros w i. rewrite Hw. intros [_ E]%lookup_delete_Some. by apply (H2 w).
Qed.

Lemma refreshBalance_identity s account : se_identity (refreshBalance s account) = se_identity s.
Proof. by destruct account. Qed.

Lemma faucet_identity mb now m s amount cooldown an m' s' sent r :
  requestFaucet mb now m s amount cooldown an = Ok (m', s', sent, r) -> se_identity s' = se_identity s.
Proof.
  unfold requestFaucet, faucetDeposit, depositChips. destruct (faucetGuard _ _ _) as [sec|now']; [by intros [= _ <- _ _]|].
  destruct (encodeCasinoDeposit _) as [ins|]; [|done]. cbn [mbind result_bind].
  destruct (submitWithRetry _ _ _ _ _ _) as [[[m0 sent0] [n|e]]|]; cbn [mbind result_bind]; [| |done];
    by intros [= _ <- _ _].
Qed.

Lemma consistent_message sv ws data inp cn :
  sv_conns sv !! ws = Some cn -> cn_open cn = true -> cn_ready cn = true ->
  consistent (limits su) sv -> consistent (limits su) (handleMessage su ws data inp sv).1.
Proof.
  intros Hcn Ho Hr K. unfold handleMessage. destruct (Text.JSON_parse data) as [msg|]; [|done].
  destruct (get _ _) as [ty|]; [|done]. destruct (negb (truthy ty)); [done|]. destruct (is_type "ping" ty); [done|].
  destruct (is_type "get_balance" ty).
  { unfold getBalance. destruct (getSession _ _) as [s|] eqn:Es; [|done]. cbn [fst]. apply (consistent_kept sv); try done.
    apply (players_update _ _ s); [done|apply refreshBalance_identity]. }
  destruct (is_type "faucet_claim" ty).
  { unfold faucetClaim. destruct (getSession _ _) as [s|] eqn:Es; [|done].
    destruct (requestFaucet _ _ _ _ _ _ _) as [[[[m s'] sent] r]|] eqn:Ef; [|done]. apply faucet_identity in Ef.
    destruct (faucetError r); cbn [fst]; apply (consistent_kept sv); try done; apply (players_update _ _ s); try done.
    by rewrite refreshBalance_identity. }
  destruct (safeParse _ msg) as [d|]; [|done]. destruct (getSession _ _) as [s|] eqn:Es; [|done].
  destruct (_ ≫= _) as [[[code message]|rq]|]; [done| |done]. by apply (consistent_serve sv ws s cn).
Qed.

Lemma consistent_event sv e : fresh sv e -> consistent (limits su) sv -> consistent (limits su) (step su e sv).1.
Proof.
  intros Hf K. destruct e as [now ws ip origin cid uuid draws|ws connected an|ws data inp|ws|ws account|i]; cbn [step].
  - by apply consistent_connect.
  - by apply consistent_created.
  - destruct (sv_conns sv !! ws) as [cn|] eqn:Ec; [|done]. destruct (cn_open cn && cn_ready cn) eqn:E; [|done].
    apply andb_true_iff in E as [Eo Er]. by apply (consistent_message _ _ _ _ cn).
  - by apply consistent_closes.
  - cbn [fst]. unfold refreshes. destruct (sv_conns sv !! ws) as [cn|]; [|done]. destruct (_ && _); [|done].
    apply (consistent_kept sv); try done. apply players_alter. intros s. apply refreshBalance_identity.
  - destruct (ofTable i) eqn:Ei; [|done]. pose proof (consistent_step sv i Ei K) as H.
    by destruct (table_step _ _ _) as [[t out] ins].
Qed.

(** The states the server can reach. *)
Inductive serves : Server -> Prop :=
| serves_init : serves server_init
| serves_step sv e : serves sv -> fresh sv e -> serves (step su e sv).1.

Lemma consistent_init : 0 <= MAX_TOTAL_SESSIONS (su_config su) -> consistent (limits su) server_init.
Proof.
  intros Hm. split.
  - split; [split; [done|]|split; [exact Hm|]]; intros ip ids; cbn; by rewrite lookup_empty.
  - done.
  - intros ws cn. cbn. by rewrite lookup_empty.
  - intros ws ws' cn cn'. cbn. by rewrite lookup_empty.
  - intros ws. unfold getSession. cbn. rewrite !lookup_empty. split; by intros [? ?].
  - intros hex ws. cbn. rewrite !lookup_empty. split; [done|]. by intros (? & ? & _).
  - intros ws ws' i i'. unfold who. cbn. by rewrite lookup_fmap, lookup_empty.
  - intros id x. cbn. by rewrite lookup_empty.
  - exists (fun _ => ""). split; [apply subs_inv_init|]. intros ws i. unfold who. cbn. by rewrite lookup_fmap, lookup_empty.
Qed.

Lemma serves_consistent sv : 0 <= MAX_TOTAL_SESSIONS (su_config su) -> serves sv -> consistent (limits su) sv.
Proof. intros Hm. induction 1 as [|sv e _ IH Hf]; [by apply consistent_init|by apply consistent_event]. Qed.

(** ** What a message changes *)

Lemma message_conns sv ws data inp :
  let sv' := (handleMessage su ws data inp sv).1 in sv_conns sv' = sv_conns sv /\ sv_limiter sv' = sv_limiter sv.
Proof.
  cbv zeta. unfold handleMessage, getBalance, faucetClaim, serve, playGame, liveJoin, liveLeave, livePlace.
  repeat (first [done | match goal with
    | |- context [match ?x with _ => _ end] => destruct x
    end]).
Qed.

(** The messages that go out. *)
Definition sends (out : list Out) : list (string * Fields) :=
  omap (fun o => match o with Send ws m => Some (ws, m) | _ => None end) out.

Lemma sends_app a b : sends (a ++ b) = sends a ++ sends b.
Proof. apply omap_app. Qed.

Lemma sends_bodies bodies : sends (Submit <$> bodies) = [].
Proof. by induction bodies. Qed.

Lemma sends_track e : sends (track su e) = [].
Proof. unfold track. destruct e as [[n p]|]; [|done]. by destruct (su_hasOps su). Qed.

Lemma sends_send sv ws m : is_open sv ws = true -> sends (send sv ws m) = [(ws, m)].
Proof. intros H. unfold send. by rewrite H. Qed.

(** One message, to this socket. *)
Definition once (ws : string) (out : list Out) : Prop := exists m, sends out = [(ws, m)].

Lemma once_send sv ws m : is_open sv ws = true -> once ws (send sv ws m).
Proof. intros H. exists m. by apply sends_send. Qed.

Lemma once_error sv ws code message : is_open sv ws = true -> once ws (sendError sv ws code message).
Proof. apply once_send. Qed.

Lemma once_submit ws bodies out : once ws out -> once ws ((Submit <$> bodies) ++ out).
Proof. intros [m H]. exists m. by rewrite sends_app, sends_bodies, H. Qed.

Lemma once_track ws out e : once ws out -> once ws (out ++ track su e).
Proof. intros [m H]. exists m. by rewrite sends_app, sends_track, H. Qed.

Lemma open_here sv sv' ws : sv_conns sv' = sv_conns sv -> is_open sv ws = true -> is_open sv' ws = true.
Proof. unfold is_open. by intros ->. Qed.

(** The response of a game, of which the event for the ops service cannot be made:
    the log of the game has put an object without a number into a field that is
    read as one.  The error follows the response. *)
Definition untracked (ws : string) (out : list Out) : Prop :=
  su_hasOps su = true /\ exists s response e,
    trackGatewayResponse true s (responseFields response) = Throw e
    /\ sends out = [(ws, responseFields response); (ws, errorFields (codeName BACKEND_UNAVAILABLE) e)].

Lemma untracked_submit ws bodies out : untracked ws out -> untracked ws ((Submit <$> bodies) ++ out).
Proof. intros (H & s & r & e & H1 & H2). split; [done|]. exists s, r, e. by rewrite sends_app, sends_bodies. Qed.

(** The request to leave the live table. *)
Definition leaves (data : string) : Prop :=
  exists msg d, Text.JSON_parse data = Some msg /\ safeParse OutboundMessageSchema msg = Some d /\ tagOf "type" d = Some "craps_live_leave".
Section Client.
Context (sv : Server) (ws : string) (s : Session) (cn : Conn).
Context (K : consistent (limits su) sv).
Context (Hcn : sv_conns sv !! ws = Some cn) (Ho : cn_open cn = true) (Hr : cn_ready cn = true).
Context (Hs : getSession (sv_manager sv) ws = Some s).

Lemma client_open : is_open sv ws = true.
Proof. unfold is_open. by rewrite Hcn. Qed.

(** The sockets of the session's id are this socket. *)
Lemma sockets_here sm : same_players (sv_manager sv) sm -> socketsOf sm (id_id (se_identity s)) = [ws].
Proof.
  intros [Hw _]. unfold socketsOf. set (p := fun q : string * Session => _).
  assert (Hin : forall w, w ∈ fst <$> List.filter p (map_to_list (sm_sessions sm)) <-> w = ws).
  { intros w. rewrite list_elem_of_fmap. split.
    - intros ([w' s'] & -> & Hin). apply list_elem_of_In, filter_In in Hin as [Hin Hp]. apply list_elem_of_In, elem_of_map_to_list in Hin.
      unfold p in Hp. apply bool_decide_eq_true in Hp. cbn in *. apply (k_uuids _ _ K w' ws (se_identity s') (se_identity s)); [| |done].
      + rewrite <- Hw. apply who_get. by exists s'.
      + apply who_get. by exists s.
    - intros ->. assert (H : who sm !! ws = Some (se_identity s)) by (rewrite Hw; apply who_get; by exists s).
      apply who_get in H as (s' & Hs' & Hid). exists (ws, s'). split; [done|]. apply list_elem_of_In, filter_In.
      split; [by apply list_elem_of_In, elem_of_map_to_list|]. unfold p. cbn. by rewrite Hid, bool_decide_eq_true_2. }
  assert (Hn : NoDup (fst <$> List.filter p (map_to_list (sm_sessions sm)))).
  { pose proof (NoDup_fst_map_to_list (sm_sessions sm)) as Hn. revert Hn. generalize (map_to_list (sm_sessions sm)) as l.
    clear. intros l. induction l as [|[w x] l IH]; cbn; [done|]. rewrite NoDup_cons. intros [Hw Hn].
    destruct (p (w, x)); [|by apply IH]. cbn. apply NoDup_cons. split; [|by apply IH].
    intros H. apply Hw. apply list_elem_of_fmap in H as (y & -> & Hy). apply list_elem_of_In, filter_In in Hy as [Hy _].
    apply list_elem_of_fmap. exists y. split; [done|by apply list_elem_of_In]. }
  revert Hin Hn. generalize (fst <$> List.filter p (map_to_list (sm_sessions sm))) as l. clear. intros [|a [|b l]] Hin Hn.
  - assert (H : ws ∈ []) by by apply Hin. by apply elem_of_nil in H.
  - f_equal. apply Hin. set_solver.
  - assert (a = ws) as -> by (apply Hin; set_solver). assert (b = ws) as -> by (apply Hin; set_solver).
    apply NoDup_cons in Hn as [Hn _]. set_solver.
Qed.

Lemma delivered_here sv' (out : list Sent) :
  same_players (sv_manager sv) (sv_manager sv') -> out.*1 = [id_id (se_identity s)] -> once ws (delivered sv' out).
Proof.
  intros Hp. destruct out as [|[id p] [|m out]]; [done| |done]. cbn. intros [= ->]. exists (payloadFields p).
  unfold delivered. cbn. by rewrite app_nil_r, sockets_here.
Qed.

Lemma synced_seat id x : sessions (t_subs (synced sv)) !! id = Some x ->
  exists w s', getSession (sv_manager sv) w = Some s' /\ id_id (se_identity s') = id /\ x = seat sv w s'.
Proof.
  cbn. rewrite lookup_fmap. intros (y & Hy & ->)%fmap_Some. destruct (seat_found sv id y K Hy) as (w & s' & H1 & H2 & -> & _).
  by exists w, s'.
Qed.

Lemma key_here w s' : getSession (sv_manager sv) w = Some s' -> publicKeyHex s' = publicKeyHex s -> w = ws.
Proof.
  intros H E. pose proof (k_index _ _ K) as Hx.
  assert (H1 : sm_byPublicKey (sv_manager sv) !! publicKeyHex s = Some w) by (apply Hx; by exists s').
  assert (H2 : sm_byPublicKey (sv_manager sv) !! publicKeyHex s = Some ws) by (apply Hx; by exists s). congruence.
Qed.

(** A message to the player's key reaches the player once. *)
Lemma player_once p : is_Some (sessions (t_subs (synced sv)) !! id_id (se_identity s)) ->
  (sendToPlayer (t_subs (synced sv)) (publicKeyHex s) p).2.*1 = [id_id (se_identity s)].
Proof.
  intros [x Hx]. destruct (k_table _ _ K) as (keyOf & H1 & _).
  pose proof (sendToPlayer_delivers keyOf (t_subs (synced sv)) (publicKeyHex s) p (synced_inv sv keyOf K H1)) as H.
  destruct (sendToPlayer _ _ _) as [s' out]. destruct H as (_ & Hn & Hin & _). cbn [snd].
  assert (Hid : forall id, id ∈ out.*1 <-> id = id_id (se_identity s)).
  { intros id. rewrite list_elem_of_fmap. split.
    - intros ([id' p'] & -> & Hm). apply Hin in Hm as (_ & y & Hy & Hk & _). cbn.
      destruct (synced_seat id' y Hy) as (w & s0 & Hw & <- & ->). cbn in Hk.
      assert (w = ws) as -> by by eapply key_here. congruence.
    - intros ->. exists (id_id (se_identity s), p). split; [done|]. apply Hin. split; [done|]. exists x. split; [done|].
      destruct (synced_seat _ x Hx) as (w & s0 & Hw & E & ->).
      assert (w = ws) as ->.
      { apply (k_uuids _ _ K w ws (se_identity s0) (se_identity s)); [apply who_get; by exists s0|apply who_get; by exists s|done]. }
      assert (s0 = s) as -> by congruence. split; [done|]. exact client_open. }
  revert Hid Hn. generalize out.*1 as l. clear. intros [|a [|b l]] Hid Hn.
  - assert (H : id_id (se_identity s) ∈ []) by by apply Hid. by apply elem_of_nil in H.
  - f_equal. apply Hid. set_solver.
  - assert (a = id_id (se_identity s)) as -> by (apply Hid; set_solver). assert (b = id_id (se_identity s)) as -> by (apply Hid; set_solver).
    apply NoDup_cons in Hn as [Hn _]. set_solver.
Qed.

Lemma serve_once rq inp : rq <> Rq_live_leave ->
  once ws (serve su ws s rq inp sv).2 \/ untracked ws (serve su ws s rq inp sv).2.
Proof.
  intros Hrq. pose proof client_open as Hopen. destruct rq as [rq| | |bets]; cbn [serve]; [| |done|].
  - unfold playGame. destruct (Handlers.handleMessage _ _) as [g r]. cbn [snd].
    destruct r as [[[code message]|response]|e]; cbn [answer];
      [left; apply once_submit; by apply once_error| |left; apply once_submit; by apply once_error].
    destruct (trackGatewayResponse _ _ _) as [ev|e] eqn:Et;
      [left; apply once_submit, once_track; by apply once_send|right; apply untracked_submit].
    split; [by destruct (su_hasOps su)|]. exists (gw_session g), response, e.
    split; [by destruct (su_hasOps su)|]. unfold sendError. rewrite sends_app, !sends_send by exact Hopen. done.
  - left. unfold liveJoin. destruct (negb _); [by apply once_error|]. destruct (negb _); [by apply once_error|].
    unfold LiveTable.join, sendToSession. cbn [s_open seat]. rewrite Hopen. cbn [snd].
    apply delivered_here; [apply players_returned|done].
  - left. unfold livePlace. destruct (placeBets _ _ _ _ _) as [e|i] eqn:Ep.
    { destruct (beforeStart e); [by apply once_error|]. destruct (negb _); by apply once_error. }
    destruct (negb _); [by apply once_error|]. destruct (_ ≫= _) as [[[m sent] [n|e]]|]; [| |by apply once_error].
    + assert (Hsub : is_Some (sessions (t_subs (synced sv)) !! id_id (se_identity s))).
      { unfold placeBets in Ep. destruct (negb _); [done|]. case_bool_decide; [done|done]. }
      unfold placeBetsEnd, sendConfirmation.
      pose proof (player_once (P_confirmation St_pending "Awaiting on-chain confirmation"
        (to_number (default (roundId (t_round (synced sv))) (Some (roundId (t_round (synced sv)))))) (Some (s_balance (seat sv ws s)))) Hsub) as H.
      change (s_publicKeyHex (seat sv ws s)) with (publicKeyHex s).
      destruct (sendToPlayer _ _ _) as [s' out]. cbn [snd] in *. apply once_submit. apply delivered_here; [apply players_returned|done].
    + cbn [snd]. apply once_submit. by apply once_error.
Qed.

(** *** What the other clients keep *)

Definition ofSession (x : LiveTable.Session) (id : string) : Prop :=
  exists w s', getSession (sv_manager sv) w = Some s' /\ id_id (se_identity s') = id /\ x = seat sv w s'.

Lemma returned_same t : (forall id x, sessions (t_subs t) !! id = Some x -> ofSession x id) ->
  forall w, getSession (returned t (sv_manager sv)) w = getSession (sv_manager sv) w.
Proof.
  intros H w. unfold getSession, returned. cbn. rewrite lookup_fmap.
  destruct (sm_sessions (sv_manager sv) !! w) as [s'|] eqn:E; [|done]. cbn. f_equal. unfold returnBalance.
  destruct (sessions (t_subs t) !! id_id (se_identity s')) as [x|] eqn:Ex; [|done].
  destruct (H _ _ Ex) as (w2 & s2 & H2 & Eid & ->). cbn.
  assert (w2 = w) as -> by (apply (k_uuids _ _ K w2 w (se_identity s2) (se_identity s')); [apply who_get; by exists s2|apply who_get; by exists s'|done]).
  assert (s2 = s') as -> by (unfold getSession in H2; congruence). destruct s' as [i [a1 a2 a3 a4] g st l]. done.
Qed.

Lemma added_of_session id x : sessions (addSession (t_subs (synced sv)) (seat sv ws s)) !! id = Some x -> ofSession x id.
Proof.
  rewrite sessions_add. destruct (decide (id = s_id (seat sv ws s))) as [->|Hne].
  - rewrite lookup_insert_eq. intros [= <-]. by exists ws, s.
  - rewrite lookup_insert_ne by done. apply synced_seat.
Qed.

(** The sessions and the nonces of the others. *)
Definition isolated (sv' : Server) : Prop :=
  (forall w, w <> ws -> getSession (sv_manager sv') w = getSession (sv_manager sv) w)
  /\ others_same (publicKeyHex s) (sv_nonces sv) (sv_nonces sv').

Lemma isolated_table t : (forall id x, sessions (t_subs t) !! id = Some x -> ofSession x id) -> isolated (withTable t sv).
Proof. intros H. split; [|done]. intros w _. by apply returned_same. Qed.

Lemma isolated_update s' m : others_same (publicKeyHex s) (sv_nonces sv) m ->
  isolated (with_nonces m (with_manager (updateSession (sv_manager sv) ws (fun _ => s')) sv)).
Proof. intros H. split; [|done]. intros w Hw. unfold getSession. cbn. by rewrite lookup_alter_ne. Qed.

Lemma isolated_serve rq inp : isolated (serve su ws s rq inp sv).1.
Proof.
  destruct rq as [rq| | |bets]; cbn [serve].
  - unfold playGame. pose proof (keeps_handleMessage (se_identity s) rq (gatewayOf su sv s inp) eq_refl) as [_ H].
    destruct (Handlers.handleMessage rq _) as [g r]. cbn [fst gw_nonces gatewayOf] in *. by apply isolated_update.
  - unfold liveJoin. destruct (negb _); [done|]. destruct (negb _); cbn [fst].
    + apply isolated_table. intros id x. cbn [with_subs t_subs]. rewrite sessions_remove. intros [_ H]%lookup_delete_Some.
      by apply added_of_session.
    + unfold LiveTable.join, sendToSession. cbn [s_open seat]. rewrite client_open. cbn [fst]. apply isolated_table.
      intros id x. apply added_of_session.
  - unfold liveLeave. cbn [fst]. apply isolated_table. intros id x. cbn [LiveTable.leave with_subs t_subs].
    rewrite sessions_remove. intros [_ H]%lookup_delete_Some. by apply synced_seat.
  - unfold livePlace. destruct (placeBets _ _ _ _ _) as [e|i].
    { destruct (beforeStart e); [done|]. by destruct (negb _). }
    destruct (negb _); [done|]. destruct (encodeInstruction i) as [ins|]; [|done]. cbn [mbind result_bind].
    destruct (submitWithRetry _ _ _ _ _ _) as [[[m sent] [n|e]]|] eqn:Es; [| |done]; apply submitWithRetry_others in Es;
      [|by split].
    unfold placeBetsEnd, sendConfirmation. destruct (k_table _ _ K) as (keyOf & H1 & _).
    match goal with |- context [sendToPlayer ?a ?k ?p] =>
      pose proof (sendToPlayer_delivers keyOf a k p (synced_inv sv keyOf K H1)) as H; destruct (sendToPlayer a k p) as [s' out] end.
    destruct H as (_ & _ & _ & H). cbn [fst]. split; [|exact Es].
    assert (G : isolated (withTable (with_subs (synced sv) s') sv)).
    { apply isolated_table. intros id x Hx. apply synced_seat. by apply H in Hx as [Hx _]. }
    apply G.
Qed.

Lemma faucet_others mb now m s0 amount cooldown an m' s' sent r :
  requestFaucet mb now m s0 amount cooldown an = Ok (m', s', sent, r) -> others_same (publicKeyHex s0) m m'.
Proof.
  unfold requestFaucet, faucetDeposit, depositChips. destruct (faucetGuard _ _ _) as [sec|now']; [by intros [= <- _ _ _]|].
  destruct (encodeCasinoDeposit _) as [ins|]; [|done]. cbn [mbind result_bind].
  destruct (submitWithRetry _ _ _ _ _ _) as [[[m0 sent0] [n|e]]|] eqn:E; cbn [mbind result_bind]; [| |done];
    apply submitWithRetry_others in E; by intros [= <- _ _ _].
Qed.

Lemma isolated_message data inp : isolated (handleMessage su ws data inp sv).1.
Proof.
  unfold handleMessage. destruct (Text.JSON_parse data) as [msg|]; [|done].
  destruct (get _ _) as [ty|]; [|done]. destruct (negb (truthy ty)); [done|]. destruct (is_type "ping" ty); [done|].
  destruct (is_type "get_balance" ty).
  { unfold getBalance. rewrite Hs. apply (isolated_update _ (sv_nonces sv)). done. }
  destruct (is_type "faucet_claim" ty).
  { unfold faucetClaim. rewrite Hs. destruct (requestFaucet _ _ _ _ _ _ _) as [[[[m s'] sent] r]|] eqn:Ef; [|done].
    apply faucet_others in Ef. destruct (faucetError r); by apply isolated_update. }
  destruct (safeParse _ msg) as [d|]; [|done]. rewrite Hs.
  destruct (_ ≫= _) as [[[code message]|rq]|]; [done| |done]. apply isolated_serve.
Qed.

(** *** What the client is answered *)

Context {Laws : ZodLaws Zd}.

Lemma leave_type type fs : getOutboundMessageGameType type = Some Game_Craps ->
  dispatch type fs = Some (inr Rq_live_leave) -> type = "craps_live_leave".
Proof.
  intros Hg. unfold dispatch. rewrite Hg, handlerOf_all. unfold crapsHandle, plays, among.
  repeat case_bool_decide; try done.
  - intros _. set_solver.
  - destruct (itemsOf _ _ _); done.
  - destruct (crapsSingleBet _); done.
  - destruct (itemsOf _ _ _); done.
Qed.

Lemma message_once data inp :
  (leaves data /\ sends (handleMessage su ws data inp sv).2 = [])
  \/ once ws (handleMessage su ws data inp sv).2 \/ untracked ws (handleMessage su ws data inp sv).2.
Proof.
  pose proof client_open as Hopen. unfold handleMessage.
  destruct (Text.JSON_parse data) as [msg|] eqn:Ej; [|right; left; by apply once_error].
  destruct (get _ _) as [ty|]; [|right; left; by apply once_error]. destruct (negb (truthy ty)); [right; left; by apply once_error|].
  destruct (is_type "ping" ty); [right; left; by apply once_send|].
  destruct (is_type "get_balance" ty).
  { right; left. unfold getBalance. rewrite Hs. by apply once_send. }
  destruct (is_type "faucet_claim" ty).
  { right; left. unfold faucetClaim. rewrite Hs. destruct (requestFaucet _ _ _ _ _ _ _) as [[[[m s'] sent] r]|]; [|by apply once_error].
    destruct (faucetError r); apply once_submit; [by apply once_error|]. apply once_track. by apply once_send. }
  destruct (safeParse _ msg) as [d|] eqn:Ed; [|right; left; by apply once_error]. rewrite Hs.
  destruct (outbound_valid _ _ Ed) as (type & fs & -> & Ht & Hu). cbn [tagOf asFields]. rewrite Ht. cbn [mbind option_bind].
  destruct Hu as [->|(rq & Hd & Hg & _)]; [right; left; by apply once_error|]. rewrite Hd.
  assert (Hq : rq = Rq_live_leave \/ rq <> Rq_live_leave) by (destruct rq; by (left + right)).
  destruct Hq as [->|Hne]; [left|right; by apply serve_once]. split; [|done].
  exists msg, (JObject fs). cbn. rewrite Ht. split_and!; [done|done|]. by rewrite (leave_type _ _ Hg Hd).
Qed.
End Client.


(** ** The theorems about the running server *)

(** Events whose sockets and ids are new when they come. *)
Fixpoint freshRun (es : list Event) (sv : Server) : Prop :=
  match es with
  | [] => True
  | e :: es' => fresh sv e /\ freshRun es' (step su e sv).1
  end.

#[export] Instance fresh_dec sv e : Decision (fresh sv e).
Proof.
  destruct e as [now ws ip origin cid uuid draws| | | | |]; try (left; exact I). cbn [fresh].
  apply and_dec; [apply _|apply and_dec].
  - unfold id_fresh. change (Decision (map_Forall (fun _ s => cid ∉ s) (connectionsByIp (sv_limiter sv)))). apply _.
  - change (Decision (map_Forall (fun _ s => id_id (se_identity s) <> uuid) (sm_sessions (sv_manager sv)))). apply _.
Defined.

#[export] Instance freshRun_dec es sv : Decision (freshRun es sv).
Proof. revert sv. induction es as [|e es IH]; intros sv; cbn; apply _. Defined.

Lemma serves_run es sv : serves sv -> freshRun es sv -> serves (run su es sv).
Proof. revert sv. induction es as [|e es IH]; intros sv Hs; [done|]. intros [H1 H2]. apply IH; [by constructor|done]. Qed.

Lemma parsePositiveInt_nonneg env key fallback allowZero req n :
  0 <= fallback -> parsePositiveInt env key fallback allowZero req = Ok n -> 0 <= n.
Proof.
  intros Hf. unfold parsePositiveInt. destruct (negb (nonempty _)).
  { destruct (req && _); [done|]. by intros [= <-]. }
  destruct (textNumber _) as [q| |b]; [|destruct (IS_PROD env); [done|]; by intros [= <-]|destruct (IS_PROD env); [done|]; by intros [= <-]].
  destruct (if allowZero then _ else _) eqn:E; [|destruct (IS_PROD env); [done|]; by intros [= <-]].
  intros [= <-]. assert (H : (0 <= q)%Q).
  { destruct allowZero; [by apply Qle_bool_iff|]. apply Qnot_lt_le. intros Hq. apply negb_true_iff in E.
    assert (Qle_bool q 0 = true) by (apply Qle_bool_iff, Qlt_le_weak; done). congruence. }
  change 0 with (Qfloor 0). by apply Qfloor_resp_le.
Qed.

Lemma config_limit env : readConfig env = Ok (su_config su) -> 0 <= MAX_TOTAL_SESSIONS (su_config su).
Proof.
  unfold readConfig. intros H.
  repeat match type of H with
  | (parsePositiveInt env "MAX_TOTAL_SESSIONS" _ _ _ ≫= _) = _ => fail 1
  | (?x ≫= _) = Ok _ => destruct x; [cbn [mbind result_bind] in H|done]
  end.
  destruct (parsePositiveInt env "MAX_TOTAL_SESSIONS" _ _ _) as [n|] eqn:E; [|done]. cbn [mbind result_bind] in H.
  apply parsePositiveInt_nonneg in E; [|done].
  repeat match type of H with (?x ≫= _) = Ok _ => destruct x; [cbn [mbind result_bind] in H|done] end.
  by injection H as <-.
Qed.

Lemma closed_step sv e ws cn :
  fresh sv e -> sv_conns sv !! ws = Some cn -> cn_open cn = false ->
  exists cn', sv_conns (step su e sv).1 !! ws = Some cn' /\ cn_open cn' = false /\ cn_ip cn' = cn_ip cn.
Proof.
  intros Hf Hc Ho. destruct e as [now w ip origin cid uuid draws|w connected an|w data inp|w|w account|i]; cbn [step].
  - destruct Hf as (Hw & _). assert (Hne : w <> ws) by congruence. unfold connect. destruct (originCheck _ _); [by exists cn|].
    destruct (canConnect _ _ _); [by exists cn|]. destruct (createSession _ _ _ _ _ _ _ _) as [sm [s|e]]; cbn; [|by exists cn].
    exists cn. by rewrite lookup_insert_ne.
  - unfold created. destruct (sv_conns sv !! w) as [cn0|] eqn:E0; [|by exists cn]. destruct (getSession _ _); [|by exists cn].
    destruct (cn_ready cn0); [by exists cn|]. destruct (initializePlayer _ _ _ _ _) as [[m s'] sent]. cbn.
    destruct (decide (w = ws)) as [->|Hne]; [rewrite lookup_alter_eq, Hc; by eexists|rewrite lookup_alter_ne by done; by exists cn].
  - destruct (sv_conns sv !! w) as [cn0|]; [|by exists cn]. destruct (cn_open cn0 && cn_ready cn0); [|by exists cn].
    destruct (message_conns sv w data inp) as [-> _]. by exists cn.
  - unfold closes. destruct (sv_conns sv !! w) as [cn0|] eqn:E0; [|by exists cn]. destruct (cn_open cn0) eqn:E; cbn [negb]; [|by exists cn].
    assert (Hne : w <> ws) by (intros ->; congruence). destruct (cn_ready cn0); cbn; exists cn.
    + by rewrite lookup_delete_ne.
    + by rewrite lookup_alter_ne.
  - exists cn. unfold refreshes. destruct (sv_conns sv !! w) as [cn0|]; [|done]. by destruct (_ && _).
  - exists cn. destruct (ofTable i); [|done]. by destruct (table_step _ _ _) as [[t out] ins].
Qed.

Lemma closed_run es sv ws cn :
  freshRun es sv -> sv_conns sv !! ws = Some cn -> cn_open cn = false ->
  exists cn', sv_conns (run su es sv) !! ws = Some cn' /\ cn_open cn' = false /\ cn_ip cn' = cn_ip cn.
Proof.
  revert sv cn. induction es as [|e es IH]; intros sv cn Hf Hc Ho; [by exists cn|]. destruct Hf as [H1 H2].
  destruct (closed_step sv e ws cn H1 Hc Ho) as (cn' & Hc' & Ho' & Ei). cbn [run]. rewrite <- Ei. by apply IH.
Qed.
End Consistent.

Section Theorems.
Context `{C : Crypto} {Zd : Zod} (su : Setup) (env : Env) (Hconfig : readConfig env = Ok (su_config su)).

(** C5. In every state the gateway can reach, whatever connects, closes, asks,
    and answers in whatever order: the limiter counts exactly the connections
    that hold a session and stays within its caps; every such connection has one
    session, with an id and a key of its own, found under its key; and the
    subscribers of the live table are sessions of open connections, indexed by
    their keys. *)
Theorem server_consistent sv :
  serves su sv ->
  consistent (limits su) sv
  /\ totalConnections (sv_limiter sv) = Z.of_nat (size (sm_sessions (sv_manager sv)))
  /\ totalConnections (sv_limiter sv) <= MAX_TOTAL_SESSIONS (su_config su)
  /\ forall ip, getConnectionsForIp (sv_limiter sv) ip <= Z.max 0 (MAX_CONNECTIONS_PER_IP (su_config su)).
Proof.
  intros Hs. assert (K := serves_consistent su sv (config_limit su env Hconfig) Hs). split; [exact K|].
  destruct (k_limits _ _ K) as [_ [H1 H2]]. split; [|split; [exact H1|]].
  - rewrite (k_count _ _ K). do 2 f_equal. rewrite <- !(size_dom (D := gset string)). f_equal. apply set_eq. intros ws.
    rewrite !elem_of_dom. symmetry. apply (k_sessions _ _ K).
  - intros ip. unfold getConnectionsForIp. destruct (connectionsByIp _ !! normalizeIp ip) as [ids|] eqn:E; cbn; [|lia].
    specialize (H2 _ _ E). cbn in H2. lia.
Qed.

(** C7. Every message of a client whose connection is set up is answered exactly
    once, with one message to its own socket, whatever it says and whatever the
    backend does, with two exceptions: the request to leave the live table is not
    answered; and when the server reports to the ops service and the response of a
    game has a field that should be a number and cannot be read as one, an error
    follows the response. *)
Theorem message_answered {Laws : ZodLaws Zd} sv ws cn data inp :
  serves su sv -> sv_conns sv !! ws = Some cn -> cn_open cn = true -> cn_ready cn = true ->
  let out := (step su (E_message ws data inp) sv).2 in
  (leaves data /\ sends out = []) \/ (exists m, sends out = [(ws, m)]) \/ untracked su ws out.
Proof.
  intros Hs Hc Ho Hr. cbn [step]. rewrite Hc, Ho, Hr. cbn [andb].
  assert (K := serves_consistent su sv (config_limit su env Hconfig) Hs).
  destruct (proj2 (k_sessions _ _ K ws)) as [s Es]; [by exists cn|]. by eapply message_once.
Qed.

(** C8. A message of one client changes nothing of the others: their sessions,
    balances included, and their nonces are what they were. *)
Theorem clients_isolated sv ws data inp w s :
  serves su sv -> w <> ws -> getSession (sv_manager sv) w = Some s ->
  let sv' := (step su (E_message ws data inp) sv).1 in
  getSession (sv_manager sv') w = Some s
  /\ nonces (sv_nonces sv') !! publicKeyHex s = nonces (sv_nonces sv) !! publicKeyHex s
  /\ pending (sv_nonces sv') !! publicKeyHex s = pending (sv_nonces sv) !! publicKeyHex s.
Proof.
  intros Hs Hw Es. cbn [step]. assert (K := serves_consistent su sv (config_limit su env Hconfig) Hs).
  destruct (sv_conns sv !! ws) as [cn|] eqn:Hc; [|done]. destruct (cn_open cn && cn_ready cn) eqn:E; [|done].
  apply andb_true_iff in E as [Ho Hr]. destruct (proj2 (k_sessions _ _ K ws)) as [s0 Es0]; [by exists cn|].
  destruct (isolated_message su sv ws s0 cn K Hc Ho Es0 data inp) as [H1 H2]. rewrite H1 by done. split; [done|].
  apply H2. intros Ek. apply Hw. by eapply (key_here su sv ws s0 K Es0).
Qed.

(** C9. A socket that closes while its player is being registered is never
    cleaned up, whatever happens later: its session stays, and the limiter goes
    on counting it; and once an address has lost as many connections this way as
    it may have, no connection from it is ever accepted again, though none of them
    is open. *)
Theorem early_close_leaks sv wss ip es :
  serves su sv -> freshRun su es sv -> NoDup wss ->
  (forall ws, ws ∈ wss -> exists cn, sv_conns sv !! ws = Some cn /\ cn_open cn = false /\ cn_ip cn = ip) ->
  let sv' := run su es sv in
  (forall ws, ws ∈ wss -> is_Some (getSession (sv_manager sv') ws)
     /\ exists cn, sv_conns sv' !! ws = Some cn /\ cn_open cn = false /\ slot (sv_limiter sv') cn)
  /\ (MAX_CONNECTIONS_PER_IP (su_config su) <= len wss -> is_Some (canConnect (limits su) (sv_limiter sv') ip)).
Proof.
  intros Hs Hf Hn Hc sv'. assert (K := serves_consistent su sv' (config_limit su env Hconfig) (serves_run su es sv Hs Hf)).
  assert (Hall : forall ws, ws ∈ wss -> exists cn, sv_conns sv' !! ws = Some cn /\ cn_open cn = false /\ cn_ip cn = ip
    /\ slot (sv_limiter sv') cn).
  { intros ws Hw. destruct (Hc ws Hw) as (cn & H1 & H2 & H3). destruct (closed_run su es sv ws cn Hf H1 H2) as (cn' & H4 & H5 & H6).
    exists cn'. split_and!; [done|done|congruence|]. by eapply k_slots. }
  split.
  - intros ws Hw. destruct (Hall ws Hw) as (cn & H1 & H2 & H3 & H4). split; [|by exists cn].
    apply (k_sessions _ _ K). by exists cn.
  - intros Hm. unfold canConnect. cbv zeta. destruct (maxTotalSessions _ <=? _); [by eexists|].
    assert (Hsize : len wss <= default 0 (set_size <$> connectionsByIp (sv_limiter sv') !! normalizeIp ip)).
    { destruct wss as [|w0 wss0] eqn:Ew; [destruct (connectionsByIp _ !! _); unfold len, set_size; cbn; lia|]. rewrite <- Ew in *.
      destruct (Hall w0) as (c0 & _ & _ & E0 & (ids & Hids & _)); [rewrite Ew; apply list_elem_of_here|]. rewrite <- E0, Hids. cbn.
      unfold len, set_size. apply inj_le. set (idOf := fun w => match sv_conns sv' !! w with Some cn => cn_id cn | None => "" end).
      rewrite <- (length_fmap idOf wss), <- (size_list_to_set (C := gset string) (idOf <$> wss)).
      - apply subseteq_size. intros id. rewrite elem_of_list_to_set. intros (w & -> & Hw)%list_elem_of_fmap.
        destruct (Hall w Hw) as (cn & H1 & _ & H3 & (ids' & H4 & H5)). unfold idOf. rewrite H1.
        assert (ids' = ids) as -> by congruence. done.
      - apply NoDup_fmap_2_strong; [|done]. intros w w' Hw Hw' E.
        destruct (Hall w Hw) as (cn & H1 & _), (Hall w' Hw') as (cn' & H2 & _). unfold idOf in E. rewrite H1, H2 in E.
        exact (k_ids _ _ K w w' cn cn' H1 H2 E). }
    cbn [maxConnectionsPerIp limits]. rewrite (proj2 (Z.leb_le _ _)) by lia. by eexists.
Qed.
End Theorems.

(** ** Witnesses *)

Definition sample_env : Env := fun key => if bool_decide (key = "MAX_CONNECTIONS_PER_IP") then Some "1" else None.

(** The configuration of a development machine, with one connection per address. *)
Definition sample_setup : Setup :=
  {| su_config := {| PORT := 9010; BACKEND_URL := "http://localhost:8080"; GATEWAY_ORIGIN := "http://localhost:9010";
       GATEWAY_DATA_DIR := ".gateway-data"; MAX_CONNECTIONS_PER_IP := 1; MAX_TOTAL_SESSIONS := 1000;
       BALANCE_REFRESH_MS := 60000; SUBMIT_TIMEOUT_MS := 10000; HEALTH_TIMEOUT_MS := 5000; ACCOUNT_TIMEOUT_MS := 5000;
       SUBMIT_MAX_BYTES := 8388608; NONCE_PERSIST_INTERVAL_MS := 15000; allowNoOrigin := false; allowedOrigins := [] |};
     su_sessions := SESSION_CREATE_LIMIT; su_table := CONFIG; su_tableEnabled := true; su_hasOps := false |}.

Lemma sample_config : readConfig sample_env = Ok (su_config sample_setup).
Proof. vm_compute. reflexivity. Defined.

Definition sample_step : Event -> Server -> Server * list Out := step (H := toy_crypto) (H0 := zod_documented) sample_setup.
Definition sample_run : list Event -> Server -> Server := run (H := toy_crypto) (H0 := zod_documented) sample_setup.
Definition sample_serves : Server -> Prop := serves (C := toy_crypto) (Zd := zod_documented) sample_setup.

Lemma sample_reached es :
  bool_decide (freshRun (C := toy_crypto) (Zd := zod_documented) sample_setup es server_init) = true ->
  sample_serves (sample_run es server_init).
Proof. intros H%bool_decide_eq_true_1. apply serves_run; [apply serves_init|exact H]. Qed.

Definition first_connects : Event := E_connect 5 "ws" "10.0.0.1" None "conn_1" "uuid-1" [[zeros 32; sample_key]].
Definition second_connects : Event := E_connect 6 "ws2" "10.0.0.2" None "conn_2" "uuid-2" [[zeros 32; rev sample_key]].

(** Two clients, both set up. *)
Definition two_clients : list Event :=
  [first_connects; E_created "ws" true sample_answers; second_connects; E_created "ws2" true sample_answers].

Definition sample_inputs : MessageInputs :=
  {| mi_now := 100000; mi_account := Some 500; mi_answers := sample_answers; mi_game := [no_inputs; no_inputs];
     mi_started := true; mi_players := Some 2 |}.

Lemma server_consistent_witness :
  sample_serves (sample_run two_clients server_init)
  /\ totalConnections (sv_limiter (sample_run two_clients server_init))
     = Z.of_nat (size (sm_sessions (sv_manager (sample_run two_clients server_init)))).
Proof.
  assert (H : sample_serves (sample_run two_clients server_init)) by (apply sample_reached; vm_compute; reflexivity).
  split; [exact H|]. exact (proj1 (proj2 (server_consistent (C := toy_crypto) (Zd := zod_documented) sample_setup sample_env sample_config _ H))).
Defined.

Definition sample_roll : string :=
  Text.render (JObject [("type", JString "sicbo_roll");
    ("bets", JArray [JObject [("type", JString "SUM"); ("amount", JNumber 5); ("target", JNumber 11)]])]).
Definition sample_claim : string := Text.render (JObject [("type", JString "faucet_claim"); ("amount", JNumber 50)]).

Lemma message_answered_witness :
  exists m, sends (sample_step (E_message "ws" sample_roll sample_inputs) (sample_run two_clients server_init)).2 = [("ws", m)].
Proof.
  destruct (message_answered (C := toy_crypto) (Zd := zod_documented) sample_setup sample_env sample_config
    (Laws := zod_documented_laws) (sample_run two_clients server_init) "ws"
    {| cn_ip := "10.0.0.1"; cn_id := "conn_1"; cn_open := true; cn_ready := true |} sample_roll sample_inputs)
    as [[_ H]|[H|[H _]]]; [apply sample_reached; vm_compute; reflexivity|vm_compute; reflexivity|reflexivity|reflexivity| |exact H|].
  - vm_compute in H. discriminate H.
  - discriminate H.
Defined.

(** The claim of the first client changes its own balance. *)
Lemma clients_isolated_witness :
  let sv := sample_run two_clients server_init in
  let sv' := (sample_step (E_message "ws" sample_claim sample_inputs) sv).1 in
  Sessions.balance <$> getSession (sv_manager sv) "ws" = Some 1000
  /\ Sessions.balance <$> getSession (sv_manager sv') "ws" = Some 500
  /\ exists s, getSession (sv_manager sv) "ws2" = Some s /\ getSession (sv_manager sv') "ws2" = Some s.
Proof.
  intros sv sv'. split; [vm_compute; reflexivity|]. split; [vm_compute; reflexivity|].
  eexists. match goal with |- ?a /\ _ => assert (H : a) by (vm_compute; reflexivity) end. split; [exact H|].
  refine (proj1 (clients_isolated (C := toy_crypto) (Zd := zod_documented) sample_setup sample_env sample_config
    sv "ws" sample_claim sample_inputs "ws2" _ _ _ H)); [apply sample_reached; vm_compute; reflexivity|discriminate].
Defined.

(** The first client goes away while it is being registered; its address is
    refused ever after. *)
Lemma early_close_leaks_witness :
  let sv := sample_run [first_connects; E_close "ws"; E_created "ws" true sample_answers] server_init in
  is_Some (canConnect (limits sample_setup) (sv_limiter (sample_run [second_connects] sv)) "10.0.0.1").
Proof.
  intros sv. refine (proj2 (early_close_leaks (C := toy_crypto) (Zd := zod_documented) sample_setup sample_env sample_config
    sv ["ws"] "10.0.0.1" [second_connects] _ _ _ _) _).
  - apply sample_reached. vm_compute. reflexivity.
  - apply (bool_decide_eq_true_1 _). vm_compute. reflexivity.
  - apply NoDup_singleton.
  - intros ws Hw. apply list_elem_of_singleton in Hw as ->. eexists. split; [vm_compute; reflexivity|split; reflexivity].
  - vm_compute. discriminate.
Defined.
